(* ===== verification/_CoqProject ===== *)
-Q . S2P
Prelude.v
StateM.v
GoTime.v
GoStr.v
Model.v
Layout.v
Retention.v
Grid.v
Format.v
Repo.v
Mirror.v
Codec.v
Writer.v
Reader.v
Restore.v
CopyDisk.v
CopyFacts.v
BackupRestore.v
Catalog.v
Chain.v
Prune.v
PruneFacts.v
Purge.v
CatalogSamples.v
Scan.v
Replicas.v
Runs.v
PlaceLimiter.v
Plan.v
PlanFacts.v
Checkpoints.v
Jobs.v
Leftovers.v
LeftoverFacts.v
PlanSamples.v
Replicator.v
ReplicaFacts.v
JobQueue.v
Workers.v
WorkerFacts.v
Exclusive.v
Stuck.v
LastWorker.v
Outcome.v
JobFacts.v
JobSamples.v
Leases.v
ReplicaProps.v
ReplicaSamples.v
LoginLimiter.v
Approvals.v
Guard.v
GuardFacts.v
GuardProps.v
GuardSamples.v
Paths.v
FileSys.v
FileJobs.v
FileStored.v
FileRestore.v
FileConfined.v
FileWalk.v
FileWalkFacts.v
FileEngine.v
FilePoints.v
FileHistory.v
FileComplete.v
FileSamples.v
Local.v
Transfers.v
TransferPlan.v
TransferRun.v
TransferControl.v
TransferMachine.v
TransferFrame.v
TransferSafe.v
TransferReach.v
TransferStart.v
TransferHistory.v
TransferSamples.v
