(* ===== verification/Prelude.v ===== *)
(** * Verification of ovirt-backup

    The service backs up virtual machines of oVirt, KVM and Proxmox into
    repositories (directories, S3, SFTP, SMB, WebDAV, data domains), keeps a
    catalogue of the backups in PostgreSQL, restores and verifies them, deletes
    them by retention policies, replicates them, and asks several people for
    approval before it destroys anything. This library models the parts that
    decide what is stored, what is read back and what is deleted, and proves what
    they promise. All paths below are under [src/internal/].

    ** The parts and their files

    _Foundations._
    - [Prelude]: automation, results, stable sorting, folds over maps.
    - [StateM]: computations with a state and errors; what is written before an
      error stays written. Assertions [hoare], [leaves], [total].
    - [GoTime], [GoStr]: instants, the UTC calendar and the string functions of
      Go that the code uses.
    - [Model]: [model/backup.go], [consistency.go], [job_selector.go] - the
      enumerations, runs, copies, targets, jobs and their validation.
    - [Layout]: [repo/layout.go], the keys of the objects of a backup.

    _From disk to repository and back_ ([backup/]).
    - [Grid] ([grid.go]), [Format] ([format.go]), [Codec] ([codec.go],
      [secret/cipher.go]), [Repo] ([repo/backend.go], the interface of a storage
      as a class with laws), [Writer] ([writer.go]), [Reader] ([reader.go]),
      [CopyDisk] ([diskcopy.go], errors of [imageio/client.go], the comparison of
      [copyOneDisk]).
    - [Restore], [CopyFacts], [BackupRestore]: what a chain of copies renders,
      that a copy ends and captures the image, and the composition: a history of
      copies into one repository, then the restore of its last point.
    - [Mirror] ([repo/mirror.go]): one upload to several storages. [Local]
      ([repo/local.go]): the repository in a directory, call by call, with other
      operations in between.

    _The catalogue._
    - [Catalog]: the tables and the queries of [store/backup_runs.go],
      [replication.go], [storage_targets.go], [vm_transfers.go]; [Runs]: the
      statements on runs that planning and execution use, [run_events.go].
    - [Chain] ([backup/chain.go]): from a run to the runs it depends on and the
      manifests of its disks. [Scan] ([backup/scan.go]): the same from the
      repository alone.
    - [Retention] ([retention/retention.go]); [Prune] ([backup/prune.go]) with
      [PruneFacts] and [Purge]: deletion, quarantine, physical deletion.
    - [Plan] with [PlanFacts] ([backup/runner.go]): selection of disks, the kind
      and the base of a backup, the record of the run. [Checkpoints]
      ([checkpoints.go], [checkpoint_prune.go]): the checkpoints of the engine.
      [Leftovers] with [LeftoverFacts] ([snapshot_leftovers.go],
      [transfer_owner.go]): abandoned snapshots and transfers.
    - [PlaceLimiter] ([place_limiter.go]): how many hot backups one storage
      place bears at a time.
    - [Replicas] ([store/replication.go]), [Replicator]
      ([replication/replicator.go]) with [ReplicaFacts], [Leases],
      [ReplicaProps]: the queue of replicas and its workers.

    _Jobs and the scheduler._
    - [Jobs] ([store/backup_jobs.go], [backup_quality.go]) with [JobFacts]: jobs,
      runs of jobs, the choice of machines.
    - [JobQueue] ([store/backup_tasks.go], [scheduler/scheduler.go],
      [recalculateJobRun] of the replicator): the start of a job, its tasks and
      their leases, the outcome of a run. [JobFacts] and [Outcome] say what a
      start puts into the queue and what an outcome counts.
    - [Workers]: any number of workers and calls, statement by statement, as a
      step relation with restarts, over the operations of [JobQueue]. With
      [WorkerFacts]: [Exclusive] (the invariant of the whole system), [Stuck],
      [LastWorker].

    _File backups_ ([filebackup/], [store/file_backup.go]).
    - [Paths]: [path/filepath] on Unix and the checks that keep a path inside a
      directory. [FileSys]: the file system that files are restored into, with
      links, and the calls on it.
    - [FileJobs]: jobs, runs, the document of a run, the statements on them.
    - [FileStored]: the content of one file, stored by [Writer] as an image of its
      own and read by a [Reader] of one link. [FileWalk]: the walk over a
      directory of the server or a storage; [FileWalkFacts], [FileComplete].
    - [FileEngine]: start of a job, one run, copies on the other storages,
      deletion, retention. [FilePoints] and [FileHistory]: what keeps a point
      restorable, and the step relation of starts, runs and deletions.
    - [FileRestore] with [FileConfined]: the restore.

    _Migrations of machines_ ([vmtransfer/], [store/vm_transfers.go]).
    - [Transfers]: the record of a migration, its table, the calls of the world
      outside and the state of the service, with the trace of what was asked and
      answered. [TransferPlan]: the obstacles ([service.go], [plan]).
    - [TransferRun]: what a worker does ([execute.go], [recovery.go]): preparation,
      synchronisation, cutover, rollback, recovery of a lost start, failures.
    - [TransferControl]: creation, requests, the queue of workers, recovery after a
      restart ([service.go], [recovery.go]). [TransferMachine]: groups ([batch.go])
      and the service over time as a step relation.
    - [TransferFrame] (what the trace says about power, assertions that the quiet
      parts of a worker keep), [TransferSafe] (one worker), [TransferReach] and
      [TransferStart] (operations that start workers), [TransferHistory] (every
      history; the recovery gives up).

    _Access_ ([api/]).
    - [Approvals] ([model/approval.go], [store/approvals.go], [delegations.go]),
      [Guard] ([approvals.go], [handlers_approvals.go], [delegations.go],
      [handlers_delegations.go], [autoexecute.go]) with [GuardFacts] and
      [GuardProps]: approval of dangerous actions. [LoginLimiter]
      ([loginlimit.go]): the brake on password guessing.

    [CatalogSamples], [PlanSamples], [ReplicaSamples],
    [JobSamples], [FileSamples], [TransferSamples] and [GuardSamples] hold concrete states at which the theorems apply.

    ** How the parts meet

    [Plan] asks [Runs] for the base of an increment and records the run with
    [Replicas.EnsurePrimaryCopy]; [CopyDisk] and [Writer] put the disks into a
    [Repo] or a [Mirror] under keys of [Layout]; [Chain] resolves a restore
    point from the same [Catalog] and [Reader] reads it; [Retention] chooses and
    [Prune] deletes, refusing what live runs depend on; [Checkpoints] and
    [Leftovers] clean up on the engine what [Plan] will not need; [Replicator]
    copies whole chains between targets; [JobQueue] turns a job of [Jobs] into the
    requests that [Plan] serves and settles the run from the rows that [Runs] and
    [Replicas] leave in the same [Catalog]; [FileEngine] keeps tables of its own
    and uses the same [Writer], [Reader], [Retention] and [Repo]; migrations ask the
    backup engine for runs and restores, whose answers are arbitrary there, and hold
    machines that [Catalog.VMTransferProtectsRun] spares; [Guard] decides whether a destructive
    call may run at all. One [Catalog] state is shared by all of them.

    ** What the theorems show

    - Data: a backup followed by a restore gives the image back for every
      history of full and incremental copies of a disk that keeps its size or
      grows ([backup_restore_exact]), random access included ([read_at_exact]); chunks decode to what was encoded
      ([codec_roundtrip]); the grid selects and batches exactly
      ([selector_exact], [GroupChunks_partition]); a copy always ends
      ([copyDisk_terminates]); existing objects are accepted only when right
      ([verify_exact]); keys are canonical and apart ([segment_canonical],
      [objects_apart]); mirrors stay in step ([mirrors_in_step]); a repository in a
      directory is a map, however its calls interleave, fail and stop
      ([directory_is_a_map]).
    - Chains: a chain that loads is readable ([chain_sound]) and loading ends
      ([chain_terminates]); the repository alone gives the same chain
      where it holds the documents of its runs ([scan_agrees], [find_chain_exact],
      [scan_exact]); planning extends only
      live chains whose disks are all saved ([plan_has_base]) and recording a
      run keeps every chain whole ([begin_keeps_chains]).
    - Deletion: retention keeps what its rules say and every ancestor
      ([Apply_kept], [Apply_safe]); no sequence of deletions breaks a chain
      ([deletions_keep_chains], [dependents_exact], [purge_order]); the clean-up
      on the engine spares every base ([rotation_keeps_bases],
      [sweep_keeps_bases]).
    - Queues: claims, leases and order of replicas ([claim_exact],
      [queue_drains], [replica_after_parent], [copy_publishes]); the limiter
      never exceeds its limit and never locks up ([places_bounded],
      [everyone_served]).
    - Jobs: the open tasks of a job belong to one run under any interleaving and
      restart ([runs_exclusive]; a worker that has lost its lease may still work on
      a task that others have ended); a start covers every machine and storage
      exactly once ([trigger_covers]); a run is not forgotten ([last_worker_finishes]); its
      outcome is the verdict on what was delivered ([finish_exact]) and the
      replicator agrees with it ([outcomes_agree]); jobs are read back as written
      ([job_roundtrip]).
    - Files: every point in the list stays restorable under starts, runs,
      deletions and retention that do not stop half-way ([points_restorable]); a
      walk leaves nothing out ([walkLocal_complete]); a stored file reads back as it was read
      ([stored_file_exact]); a restore stays below its destination whatever the
      document says ([restore_confined]) and puts back the stored bytes
      ([restore_files_exact]).
    - Migrations: source and target are never asked to run together
      ([one_machine_at_a_time]); a target that was asked to start is not written to
      ([started_target_untouched]), except after it was kept at a rollback
      ([retained_target_overwritten]); the automatic recovery gives up
      as long as each worker leaves its record ([recovery_gives_up]).
    - Access: quorums hold under any interleaving of handlers with stale reads
      ([quorum_safety]); an action runs only on one of four grounds
      ([guard_grounds]); while at most [c] requests compare a password at once,
      half an hour allows [9 * c + 1] guesses ([ten_guesses_half_hour]), but nothing
      bounds [c] ([parallel_guesses]).
    - Where the code does otherwise than it means to, a theorem states what it
      does: [early_outcome_blocks_job],
      [enable_replication_ineffective], [whole_root_unrestorable],
      [retained_target_overwritten], [retried_prepare_leaves_source_off], [downgraded_unreadable], [copyDisk_stores_everything],
      [Apply_diverges], [restore_ignores_parent], [rejection_undone],
      [lease_rewound], [flood_unblocks] and others.

    ** Conventions, bounds and fuel

    An instant is a number of nanoseconds; an operation reads the clock once,
    and the time is an argument. A row of a table is a record with a field for each
    column that the code reads; that of a job is written column by column as the
    statements do, JSON columns holding values. Fresh identifiers are arguments.
    Strings are bytes; case and white space are those of ASCII, except where names
    become paths ([Layout.Segment]) or keys of the limiter ([LoginLimiter.loginKey]),
    which go by runes. Whether a statement, an upload or a deletion fails is a list of outcomes in the state,
    so that theorems quantify over all failures. Stale reads are snapshots
    passed to a handler. Planning a run and recording it are one step. In
    [Workers] a step is what others cannot see the parts of, with the two
    exceptions its header names; what a backup does to the catalogue is an
    arbitrary step there, and a restart forgets the memory of the process.
    In [FileHistory] a run of a file backup is one step and so is a deletion that
    completes (one that fails half-way may leave a point without its objects);
    its jobs have one storage or keep their storages separate, since a parallel
    job shares the row of its run between storages.
    In [LoginLimiter] a step is one section under the lock of the limiter; in
    [Local] a step is one call on the file system.
    In [TransferMachine] a worker's turn is one step that may stop at any call or
    statement; while it works, others touch of its row only the flag of a pause.
    One instance of the service runs, so its lock is an arbitrary answer.
    Libraries (compression, AES-GCM, SHA-256, JSON, bcrypt, Unicode tables) are
    classes or arguments; each has an instance in the samples.

    Loops that are not structural take fuel: the walk over parents in [Chain]
    and the ancestor walk of [Retention] need one step more than there are runs
    (proved: [chain_terminates], [Apply_kept]); the search for dependents one
    more than the listing; [Scan.FindChain] supplies its own and never runs out
    ([find_chain_exact]); [copyDisk] needs the sum of its retry budgets, five
    changes of source and the length of its list of batches
    ([copyDisk_terminates]); retention of file backups needs as many steps as
    there are runs; [ReadAt] one step per byte asked for. The waits of a migration
    poll as often as the world says before their time is over.

    ** Not modelled

    The protocols of the engines and storages (their answers are arguments), the
    HTTP layer and single sign-on, restores and verifications that drive
    machines, freezing of guests, snapshot copies on engines without change
    tracking, the cron entries and the schedules of checks, dumps of databases, the
    storages reached over a network, the watchdog's
    goroutine and the metrics of migrations, monitoring, notifications, configuration and the web interface. Texts for the operator,
    alerts, audit and log are left out of the modelled operations.

    This file is the prelude itself: shared notation, automation and lemmas. *)

From Stdlib Require Export ZArith Lia Sorted Ascii String.
From Stdlib Require Export List.
Export ListNotations.
From stdpp Require Export base tactics gmap strings list fin_maps fin_sets list_numbers pretty.

#[global] Set Default Goal Selector "!".
Open Scope Z_scope.

(** * Automation shared by the components *)

Create HintDb backup.

(** Splits boolean connectives in the hypotheses and the goal into
    propositions. *)
Ltac bprop :=
  repeat match goal with
  | H : context [bool_decide ?P = true] |- _ => rewrite bool_decide_eq_true in H
  | H : context [bool_decide ?P = false] |- _ => rewrite bool_decide_eq_false in H
  | H : _ && _ = true |- _ => apply andb_true_iff in H as [? ?]
  | H : _ || _ = false |- _ => apply orb_false_iff in H as [? ?]
  | H : negb _ = true |- _ => apply negb_true_iff in H
  | H : negb _ = false |- _ => apply negb_false_iff in H
  | H : is_true _ |- _ => unfold is_true in H
  end.

(** Linear arithmetic with division and remainder by constants. *)
Ltac dlia := Z.to_euclidean_division_equations; lia.

(** Case analysis on every [match]/[if] of the goal, then clean-up. *)
Ltac split_cases :=
  repeat (case_match || case_bool_decide || case_decide); simplify_eq/=.

(** Inverts a successful monadic computation step by step. *)
Ltac run_ok H :=
  repeat match type of H with
  | (match ?x with _ => _ end) = _ => destruct x eqn:?; simplify_eq/=; try discriminate
  end.

(** * Results

    Go's [(T, error)] pairs: an operation yields a value or an error. *)
Inductive result (E A : Type) : Type :=
| Ok (a : A)
| Err (e : E).
Arguments Ok {E A} a.
Arguments Err {E A} e.

#[global] Instance result_ret E : MRet (result E) := λ A a, Ok a.
#[global] Instance result_bind E : MBind (result E) :=
  λ A B f m, match m with Ok a => f a | Err e => Err e end.
#[global] Instance result_fmap E : FMap (result E) :=
  λ A B f m, match m with Ok a => Ok (f a) | Err e => Err e end.

Definition is_ok {E A} (r : result E A) : bool :=
  match r with Ok _ => true | Err _ => false end.

Definition map_err {E F A} (f : E → F) (r : result E A) : result F A :=
  match r with Ok a => Ok a | Err e => Err (f e) end.

Definition of_option {E A} (e : E) (o : option A) : result E A :=
  match o with Some a => Ok a | None => Err e end.

(** A guard: [if cond { return err }]. *)
Definition fail_if {E} (c : bool) (e : E) : result E unit :=
  if c then Err e else Ok tt.

Section ResultLemmas.
Context {E : Type}.

Lemma result_bind_ok {A B} (m : result E A) (f : A → result E B) b :
  m ≫= f = Ok b ↔ ∃ a, m = Ok a ∧ f a = Ok b.
Proof. destruct m; cbn; naive_solver. Qed.

Lemma result_bind_err {A B} (m : result E A) (f : A → result E B) e :
  m ≫= f = Err e ↔ m = Err e ∨ ∃ a, m = Ok a ∧ f a = Err e.
Proof. destruct m; cbn; naive_solver. Qed.

Lemma fail_if_ok c (e : E) u : fail_if c e = Ok u ↔ c = false.
Proof. destruct u, c; cbn; naive_solver. Qed.

Lemma of_option_ok {A} (e : E) (o : option A) a : of_option e o = Ok a ↔ o = Some a.
Proof. destruct o; cbn; naive_solver. Qed.
End ResultLemmas.

(** * Machine integers

    Go's [int64], [int32], [uint32] and [uint64] arithmetic wraps. *)
Definition i64 (z : Z) : Z := (z + 2 ^ 63) mod 2 ^ 64 - 2 ^ 63.
Definition i32 (z : Z) : Z := (z + 2 ^ 31) mod 2 ^ 32 - 2 ^ 31.
Definition u16 (z : Z) : Z := z mod 2 ^ 16.
Definition u32 (z : Z) : Z := z mod 2 ^ 32.
Definition u64 (z : Z) : Z := z mod 2 ^ 64.

Definition is_i64 (z : Z) : Prop := - 2 ^ 63 ≤ z < 2 ^ 63.
Definition is_i32 (z : Z) : Prop := - 2 ^ 31 ≤ z < 2 ^ 31.

Lemma i64_id z : is_i64 z → i64 z = z.
Proof. unfold is_i64, i64. intros H. rewrite Z.mod_small; lia. Qed.

Lemma i32_id z : is_i32 z → i32 z = z.
Proof. unfold is_i32, i32. intros H. rewrite Z.mod_small; lia. Qed.

Lemma i64_range z : is_i64 (i64 z).
Proof. unfold is_i64, i64. pose proof (Z.mod_pos_bound (z + 2 ^ 63) (2 ^ 64)). lia. Qed.

Lemma u32_id z : 0 ≤ z < 2 ^ 32 → u32 z = z.
Proof. unfold u32. intros. rewrite Z.mod_small; lia. Qed.

Lemma u64_id z : 0 ≤ z < 2 ^ 64 → u64 z = z.
Proof. unfold u64. intros. rewrite Z.mod_small; lia. Qed.

Lemma u16_id z : 0 ≤ z < 2 ^ 16 → u16 z = z.
Proof. unfold u16. intros. rewrite Z.mod_small; lia. Qed.

(** * Lists *)
Section Filter.
Context {A : Type} (p : A → bool).

Lemma elem_of_filter_bool x l : x ∈ List.filter p l ↔ x ∈ l ∧ p x = true.
Proof. by rewrite !list_elem_of_In, filter_In. Qed.

Lemma NoDup_fmap_filter_bool {B} (f : A → B) l : NoDup (f <$> l) → NoDup (f <$> List.filter p l).
Proof.
  induction l as [|x xs IH]; cbn; [done|]. intros [Hx Hnd]%NoDup_cons.
  destruct (p x); cbn; [|by apply IH]. apply NoDup_cons. split; [|by apply IH].
  intros (y & Hy & [Hin _]%elem_of_filter_bool)%list_elem_of_fmap. apply Hx. rewrite Hy.
  by apply list_elem_of_fmap_2.
Qed.
End Filter.

(** * Stable sorting

    [sort.SliceStable(xs, less)] with a strict weak order has exactly one
    result: sorted, a permutation, and equal elements in their order. *)
Section StableSort.
Context {A : Type} (less : A → A → bool).

Fixpoint insert_stable (x : A) (l : list A) : list A :=
  match l with
  | [] => [x]
  | y :: l' => if less y x then y :: insert_stable x l' else x :: l
  end.

Fixpoint sort_stable (l : list A) : list A :=
  match l with
  | [] => []
  | x :: l' => insert_stable x (sort_stable l')
  end.

Lemma insert_stable_perm x l : insert_stable x l ≡ₚ x :: l.
Proof.
  induction l as [|y l IH]; cbn; [done|].
  case_match; [|done]. rewrite IH. apply perm_swap.
Qed.

Lemma sort_stable_perm l : sort_stable l ≡ₚ l.
Proof. induction l as [|x l IH]; cbn; [done|]. by rewrite insert_stable_perm, IH. Qed.

Lemma sort_stable_elem_of x l : x ∈ sort_stable l ↔ x ∈ l.
Proof. by rewrite sort_stable_perm. Qed.

Lemma sort_stable_length l : length (sort_stable l) = length l.
Proof. by rewrite sort_stable_perm. Qed.

Definition not_after (x y : A) : Prop := less y x = false.

Section Sorted.
Hypothesis less_asym : ∀ x y, less x y = true → less y x = false.
Hypothesis not_after_trans : Transitive not_after.

Lemma insert_stable_sorted x l :
  StronglySorted not_after l → StronglySorted not_after (insert_stable x l).
Proof using less_asym not_after_trans.
  induction 1 as [|y l Hl IH Hy]; cbn; [repeat constructor|].
  destruct (less y x) eqn:E.
  - constructor; [done|]. rewrite insert_stable_perm. constructor; [|done].
    by apply less_asym.
  - constructor; [by constructor|]. constructor; [done|].
    eapply Forall_impl; [exact Hy|]. intros z Hz. by transitivity y.
Qed.

Lemma sort_stable_sorted l : StronglySorted not_after (sort_stable l).
Proof using less_asym not_after_trans.
  induction l; cbn; [constructor|]. by apply insert_stable_sorted.
Qed.
End Sorted.

Lemma insert_stable_head x l : Forall (not_after x) l → insert_stable x l = x :: l.
Proof. destruct 1 as [|y l Hy _]; cbn; [done|]. unfold not_after in Hy. by rewrite Hy. Qed.

Lemma sort_stable_id l : StronglySorted not_after l → sort_stable l = l.
Proof. induction 1 as [|x l Hl IH Hx]; cbn; [done|]. by rewrite IH, insert_stable_head. Qed.
End StableSort.

(** * Lists *)
Section ListLemmas.
Context {A : Type}.

Lemma NoDup_fmap_filter {B} (f : A → B) (P : A → Prop) `{∀ x, Decision (P x)} (l : list A) :
  NoDup (f <$> l) → NoDup (f <$> filter P l).
Proof.
  intros H0. eapply sublist_NoDup; [exact H0|].
  apply fmap_sublist, sublist_filter.
Qed.

(** Elements whose keys are distinct are determined by the key. *)
Lemma NoDup_fmap_inj {B} (f : A → B) (l : list A) x y :
  NoDup (f <$> l) → x ∈ l → y ∈ l → f x = f y → x = y.
Proof.
  intros Hnd Hx Hy Hf.
  apply list_elem_of_lookup in Hx as [i Hi], Hy as [j Hj].
  assert (i = j) as ->; [|congruence].
  eapply (NoDup_lookup (f <$> l)); [done|..]; rewrite list_lookup_fmap.
  - by rewrite Hi.
  - rewrite Hj. cbn. by rewrite Hf.
Qed.
End ListLemmas.

Lemma length_filter_le {A} (P Q : A → Prop) `{∀ x, Decision (P x)} `{∀ x, Decision (Q x)}
    (l : list A) :
  (∀ x, P x → Q x) → (length (filter P l) ≤ length (filter Q l))%nat.
Proof.
  intros HPQ. induction l as [|y l IH]; [done|]. rewrite !filter_cons.
  repeat case_decide; cbn; [lia|naive_solver|lia|lia].
Qed.

Lemma length_filter_strict {A} (P Q : A → Prop) `{∀ x, Decision (P x)} `{∀ x, Decision (Q x)}
    (l : list A) (w : A) :
  (∀ x, P x → Q x) → w ∈ l → Q w → ¬ P w →
  (length (filter P l) < length (filter Q l))%nat.
Proof.
  intros HPQ Hw HQ HP. induction l as [|y l IH]; [by apply elem_of_nil in Hw|].
  pose proof (length_filter_le P Q l HPQ).
  apply elem_of_cons in Hw as [<-|Hw].
  - rewrite filter_cons_False, filter_cons_True by done. cbn. lia.
  - specialize (IH Hw). rewrite !filter_cons.
    repeat case_decide; cbn; [lia|naive_solver|lia|lia].
Qed.

(** A map filled by a loop over a list, the last write to a key winning. *)
Section FoldInsert.
Context {A B K : Type} `{Countable K} (key : A → K) (val : A → B).

Definition fold_insert (l : list A) (m : gmap K B) : gmap K B :=
  fold_left (λ m x, <[key x := val x]> m) l m.

Lemma fold_insert_ne l i : ∀ m,
  i ∉ key <$> l → fold_insert l m !! i = m !! i.
Proof.
  induction l as [|x l IH]; intros m Hi; cbn; [done|].
  rewrite fmap_cons, not_elem_of_cons in Hi. destruct Hi as [Hx Hl].
  change (fold_left _ l ?m) with (fold_insert l m). rewrite IH by done.
  by rewrite lookup_insert_ne.
Qed.

Lemma fold_insert_in l x : ∀ m,
  NoDup (key <$> l) → x ∈ l → fold_insert l m !! key x = Some (val x).
Proof.
  induction l as [|y l IH]; intros m Hnd Hx; [by apply elem_of_nil in Hx|].
  rewrite fmap_cons, NoDup_cons in Hnd. destruct Hnd as [Hy Hnd]. cbn.
  change (fold_left _ l ?m) with (fold_insert l m).
  apply elem_of_cons in Hx as [->|Hx]; [|by apply IH].
  rewrite fold_insert_ne by done. by rewrite lookup_insert_eq.
Qed.

Lemma fold_insert_inv l i v : ∀ m,
  fold_insert l m !! i = Some v → m !! i = Some v ∨ ∃ x, x ∈ l ∧ key x = i ∧ val x = v.
Proof.
  induction l as [|y l IH]; intros m Hi; cbn in Hi; [by left|].
  destruct (IH _ Hi) as [Hl|(x & Hx & <- & <-)].
  - destruct (decide (key y = i)) as [<-|Hne].
    + rewrite lookup_insert_eq in Hl. simplify_eq. right. exists y. split; [left|done].
    + rewrite lookup_insert_ne in Hl by done. by left.
  - right. exists x. split; [by right|done].
Qed.

Lemma fold_insert_has l i : ∀ m, is_Some (m !! i) ∨ i ∈ key <$> l → is_Some (fold_insert l m !! i).
Proof.
  induction l as [|y l IH]; intros m Hi; cbn.
  - by destruct Hi as [?|?%elem_of_nil].
  - apply IH. rewrite fmap_cons, elem_of_cons in Hi. destruct (decide (key y = i)) as [<-|Hne].
    + left. by rewrite lookup_insert_eq.
    + rewrite lookup_insert_ne by done. destruct Hi as [?|[->|?]]; [by left|done|by right].
Qed.

Lemma fold_insert_size l : ∀ m, (size (fold_insert l m) ≤ size m + length l)%nat.
Proof.
  induction l as [|y l IH]; intros m; cbn; [lia|]. change (fold_left _ l ?m) with (fold_insert l m).
  etrans; [apply IH|]. rewrite map_size_insert. destruct (m !! key y); cbn; lia.
Qed.
End FoldInsert.
