(* ===== verification/StateM.v ===== *)
(** Stateful computations that may fail, and how to reason about them.

    What a computation has written stays written when a later step fails, as
    with a sequence of statements on a database. *)

From S2P Require Import Prelude.

Definition ST (S E A : Type) : Type := S → S * result E A.

#[export] Instance ST_ret S E : MRet (ST S E) := λ A a st, (st, Ok a).
#[export] Instance ST_bind S E : MBind (ST S E) := λ A B f m st,
  let '(st', r) := m st in
  match r with Ok a => f a st' | Err e => (st', Err e) end.

Definition fail {S E A} (e : E) : ST S E A := λ st, (st, Err e).
Definition get {S E} : ST S E S := λ st, (st, Ok st).
Definition modify {S E} (f : S → S) : ST S E () := λ st, (f st, Ok ()).
Definition lift {S E A} (r : result E A) : ST S E A := λ st, (st, r).
(** The error as a value: [if err != nil { ... }]. *)
Definition try {S E A} (m : ST S E A) : ST S E (result E A) := λ st,
  let '(st', r) := m st in (st', Ok r).

Fixpoint for_each {S E A} (f : A → ST S E ()) (l : list A) : ST S E () :=
  match l with
  | [] => mret ()
  | a :: l => f a ;; for_each f l
  end.

(** Runs the primitives of a computation in a goal. *)
Ltac run_st := cbv [mbind ST_bind mret ST_ret fail get modify lift try].

(** * Equations *)
Section Run.
Context {S E A B : Type}.

Lemma get_run (f : S → ST S E B) st : (get ≫= f) st = f st st.
Proof. done. Qed.

Lemma try_run (m : ST S E A) (f : result E A → ST S E B) st st1 r :
  m st = (st1, r) → (try m ≫= f) st = f r st1.
Proof. intros Hm. run_st. by rewrite Hm. Qed.

Lemma bind_run (m : ST S E A) (f : A → ST S E B) st st1 a :
  m st = (st1, Ok a) → (m ≫= f) st = f a st1.
Proof. intros Hm. run_st. by rewrite Hm. Qed.

Lemma try_inv (m : ST S E A) (f : result E A → ST S E B) st out :
  (try m ≫= f) st = out → ∃ st1 r, m st = (st1, r) ∧ f r st1 = out.
Proof. run_st. destruct (m st) as [st1 r]. intros Hf. by exists st1, r. Qed.

Lemma bind_inv (m : ST S E A) (f : A → ST S E B) st out :
  (m ≫= f) st = out →
  (∃ st1 a, m st = (st1, Ok a) ∧ f a st1 = out) ∨ ∃ st1 e, m st = (st1, Err e) ∧ out = (st1, Err e).
Proof. run_st. destruct (m st) as [st1 [a|e]]; intros Hf; [left; eauto|right; eauto]. Qed.

Lemma bind_ok (m : ST S E A) (f : A → ST S E B) st st' b :
  (m ≫= f) st = (st', Ok b) → ∃ st1 a, m st = (st1, Ok a) ∧ f a st1 = (st', Ok b).
Proof. run_st. destruct (m st) as [st1 [a|e]]; [eauto|done]. Qed.
End Run.

(** * Assertions *)
Definition hoare {S E A} (P : S → Prop) (m : ST S E A) (Q : result E A → S → Prop) : Prop :=
  ∀ st, P st → Q (m st).2 (m st).1.

(** An operation that leaves an assertion alone. *)
Definition keeps {S E A} (P : S → Prop) (m : ST S E A) : Prop := hoare P m (λ _, P).

Section Hoare.
Context {S E A B : Type}.

Lemma hoare_bind P (m : ST S E A) (f : A → ST S E B) R Q :
  hoare P m (λ r st, match r with Ok a => R a st | Err e => Q (Err e) st end) →
  (∀ a, hoare (R a) (f a) Q) → hoare P (m ≫= f) Q.
Proof.
  intros Hm Hf st Hst. specialize (Hm st Hst). unfold mbind, ST_bind.
  destruct (m st) as [st' [a|e]]; cbn in *; [by apply Hf|done].
Qed.

Lemma hoare_try P (m : ST S E A) (Q : result E (result E A) → S → Prop) :
  hoare P m (λ r, Q (Ok r)) → hoare P (try m) Q.
Proof. intros H st Hst. specialize (H st Hst). unfold try. by destruct (m st). Qed.

Lemma hoare_weaken P P' (m : ST S E A) (Q Q' : result E A → S → Prop) :
  hoare P' m Q' → (∀ st, P st → P' st) → (∀ r st, Q' r st → Q r st) → hoare P m Q.
Proof. intros H HP HQ st Hst. apply HQ, H, HP, Hst. Qed.

Context (P : S → Prop).

Lemma keeps_ret (a : A) : keeps (E := E) P (mret a).
Proof. by intros st. Qed.

Lemma keeps_fail (e : E) : keeps P (@fail S E A e).
Proof. by intros st. Qed.

Lemma keeps_lift (r : result E A) : keeps P (lift r).
Proof. by intros st. Qed.

Lemma keeps_get : keeps (E := E) P get.
Proof. by intros st. Qed.

Lemma keeps_bind (m : ST S E A) (f : A → ST S E B) :
  keeps P m → (∀ a, keeps P (f a)) → keeps P (m ≫= f).
Proof.
  intros Hm Hf. eapply hoare_bind; [|exact Hf].
  eapply hoare_weaken; [exact Hm|done|]. by intros [].
Qed.

Lemma keeps_try (m : ST S E A) : keeps P m → keeps P (try m).
Proof. intros H. apply hoare_try. exact H. Qed.

Lemma keeps_modify f : (∀ st, P st → P (f st)) → keeps (E := E) P (modify f).
Proof. intros H st Hst. by apply H. Qed.
End Hoare.

Lemma keeps_for_each {S E A} (P : S → Prop) (f : A → ST S E ()) l :
  (∀ a, a ∈ l → keeps P (f a)) → keeps P (for_each f l).
Proof.
  induction l as [|a l IH]; intros Hf; cbn; [apply keeps_ret|].
  apply keeps_bind; [apply Hf; left|]. intros _. apply IH. intros b Hb. apply Hf. by right.
Qed.

(** * Computations that leave a part of the state alone *)
Definition leaves {S E A V} (v : S → V) (m : ST S E A) : Prop := ∀ st, v (m st).1 = v st.

Section Leaves.
Context {S E A B V : Type} (v : S → V).

Lemma leaves_ret (a : A) : leaves (E := E) v (mret a).
Proof. done. Qed.
Lemma leaves_fail (e : E) : leaves v (@fail S E A e).
Proof. done. Qed.
Lemma leaves_lift (r : result E A) : leaves v (lift r).
Proof. done. Qed.
Lemma leaves_get : leaves (E := E) v get.
Proof. done. Qed.
Lemma leaves_bind (m : ST S E A) (f : A → ST S E B) :
  leaves v m → (∀ a, leaves v (f a)) → leaves v (m ≫= f).
Proof.
  intros Hm Hf st. specialize (Hm st). run_st. destruct (m st) as [st' [a|e]]; cbn in *; [|done].
  by rewrite Hf.
Qed.
Lemma leaves_try (m : ST S E A) : leaves v m → leaves v (try m).
Proof. intros Hm st. specialize (Hm st). unfold try. by destruct (m st). Qed.
Lemma leaves_modify f : (∀ st, v (f st) = v st) → leaves (E := E) v (modify f).
Proof. intros H st. apply H. Qed.
Lemma leaves_run (m : ST S E A) st st' r : leaves v m → m st = (st', r) → v st' = v st.
Proof. intros Hm Hr. specialize (Hm st). by rewrite Hr in Hm. Qed.
End Leaves.

(** * Computations without an error of their own *)
Definition total {S E A} (m : ST S E A) : Prop := ∀ st, is_ok (m st).2 = true.

Section Total.
Context {S E A B : Type}.

Lemma total_ret (a : A) : total (S := S) (E := E) (mret a).
Proof. done. Qed.
Lemma total_try (m : ST S E A) : total (try m).
Proof. intros st. unfold try. by destruct (m st). Qed.
Lemma total_bind (m : ST S E A) (f : A → ST S E B) :
  total m → (∀ a, total (f a)) → total (m ≫= f).
Proof.
  intros Hm Hf st. specialize (Hm st). run_st. destruct (m st) as [st' [a|e]]; cbn in *; [apply Hf|done].
Qed.
Lemma total_run (m : ST S E A) st : total m → ∃ st' a, m st = (st', Ok a).
Proof. intros Hm. specialize (Hm st). destruct (m st) as [st' [a|e]]; [by exists st', a|done]. Qed.
End Total.

Ltac total_tac :=
  repeat first
    [ apply total_ret | apply total_try | apply total_bind; [|intros ?] | progress case_match ].

Ltac leaves_tac :=
  repeat first
    [ apply leaves_ret | apply leaves_fail | apply leaves_lift | apply leaves_get
    | apply leaves_try | apply leaves_bind; [|intros ?]
    | apply leaves_modify; intros ?; reflexivity | progress case_match ].
