(* ===== verification/GoTime.v ===== *)
(** Instants and the UTC calendar.

    The part of Go's package [time] the program uses: an instant is a number
    of nanoseconds since 1970-01-01T00:00:00Z, a duration a number of
    nanoseconds; [Before]/[After] are the order of instants; the calendar
    fields, [ISOWeek] and the layouts the program formats with. *)

From S2P Require Import Prelude.

(** * Durations *)
Definition Nanosecond : Z := 1.
Definition Second : Z := 1000000000.
Definition Minute : Z := 60 * Second.
Definition Hour : Z := 60 * Minute.
Definition Day : Z := 24 * Hour.

(** What a column of whole seconds keeps of a duration. *)
Definition toSeconds (d : Z) : Z := Z.quot d Second.
Definition fromSeconds (s : Z) : Z := i64 (s * Second).

Lemma whole_seconds d : is_i64 d → (Second | d) → fromSeconds (toSeconds d) = d.
Proof. intros Hd [k ->]. unfold fromSeconds, toSeconds. rewrite Z.quot_mul by done. by apply i64_id. Qed.

(** [t.Before(u)] and [t.After(u)]. *)
Definition before (t u : Z) : bool := t <? u.
Definition after (t u : Z) : bool := u <? t.

(** * The proleptic Gregorian calendar *)

(** Days since the epoch to (year, month, day). Years are counted from March
    in eras of 400 years, as [time.Date] does internally. *)
Definition civil_from_days (days : Z) : Z * Z * Z :=
  let z := days + 719468 in
  let era := z / 146097 in
  let doe := z mod 146097 in
  let yoe := (doe - doe / 1460 + doe / 36524 - doe / 146096) / 365 in
  let doy := doe - (365 * yoe + yoe / 4 - yoe / 100) in
  let mp := (5 * doy + 2) / 153 in
  let d := doy - (153 * mp + 2) / 5 + 1 in
  let m := if mp <? 10 then mp + 3 else mp - 9 in
  let y := yoe + era * 400 + (if m <=? 2 then 1 else 0) in
  (y, m, d).

Definition days_from_civil (y m d : Z) : Z :=
  let y' := if m <=? 2 then y - 1 else y in
  let era := y' / 400 in
  let yoe := y' mod 400 in
  let mp := if 2 <? m then m - 3 else m + 9 in
  let doy := (153 * mp + 2) / 5 + d - 1 in
  let doe := yoe * 365 + yoe / 4 - yoe / 100 + doy in
  era * 146097 + doe - 719468.

Definition days_of (t : Z) : Z := t / Day.
Definition hour_of (t : Z) : Z := t mod Day / Hour.
Definition minute_of (t : Z) : Z := t mod Hour / Minute.

(** Monday is 0. 1970-01-01 was a Thursday. *)
Definition weekday_of_days (days : Z) : Z := (days + 3) mod 7.

(** [t.ISOWeek()]: the week belongs to the year of its Thursday. *)
Definition iso_week (t : Z) : Z * Z :=
  let days := days_of t in
  let thursday := days - weekday_of_days days + 3 in
  let '(y, _, _) := civil_from_days thursday in
  let yday := thursday - days_from_civil y 1 1 in
  (y, yday / 7 + 1).

(** * Formatting *)

(** Zero-padded decimal, as [fmt]'s [%0wd] and the fields of [Format]. *)
Definition pad (w : nat) (z : Z) : string :=
  let s := pretty (Z.abs z) in
  let zeros := String.concat "" (replicate (w - String.length s) "0"%string) in
  ((if (z <? 0)%Z then "-" else "") +:+ zeros +:+ s)%string.

(** Layout [2006-01-02]. *)
Definition format_date (t : Z) : string :=
  let '(y, m, d) := civil_from_days (days_of t) in
  pad 4 y +:+ "-" +:+ pad 2 m +:+ "-" +:+ pad 2 d.

(** Layout [2006-01-02T15]. *)
Definition format_hour (t : Z) : string := format_date t +:+ "T" +:+ pad 2 (hour_of t).

(** Layout [2006-01]. *)
Definition format_month (t : Z) : string :=
  let '(y, m, _) := civil_from_days (days_of t) in pad 4 y +:+ "-" +:+ pad 2 m.

(** Layout [2006]. *)
Definition format_year (t : Z) : string :=
  let '(y, _, _) := civil_from_days (days_of t) in pad 4 y.

(** [fmt.Sprintf("%d-W%02d", t.ISOWeek())]. *)
Definition format_week (t : Z) : string :=
  let '(y, w) := iso_week t in pretty y +:+ "-W" +:+ pad 2 w.

(** Layout [2006-01-02 15:04]. *)
Definition format_minute (t : Z) : string :=
  format_date t +:+ " " +:+ pad 2 (hour_of t) +:+ ":" +:+ pad 2 (minute_of t).

Section Calendar.
(** The day of a civil date and back. *)
Lemma days_from_civil_from_days z :
  let '(y, m, d) := civil_from_days z in days_from_civil y m d = z.
Proof.
  unfold civil_from_days, days_from_civil.
  set (doe := (z + 719468) mod 146097).
  assert (0 ≤ doe < 146097) by (unfold doe; dlia).
  assert (z = 146097 * ((z + 719468) / 146097) + doe - 719468) as Hz by (unfold doe; dlia).
  generalize dependent doe. generalize ((z + 719468) / 146097) as era.
  intros era doe Hd ->.
  set (yoe := (doe - doe / 1460 + doe / 36524 - doe / 146096) / 365).
  assert (0 ≤ yoe < 400) by (unfold yoe; dlia).
  set (doy := doe - (365 * yoe + yoe / 4 - yoe / 100)).
  assert (0 ≤ doy < 366) by (unfold doy, yoe; dlia).
  set (mp := (5 * doy + 2) / 153).
  assert (0 ≤ mp < 12) by (unfold mp; dlia).
  destruct (Z.ltb_spec mp 10).
  - destruct (Z.leb_spec (mp + 3) 2); [lia|].
    destruct (Z.ltb_spec 2 (mp + 3)); [|lia].
    replace (mp + 3 - 3) with mp by lia.
    rewrite Z.add_0_r, Z.div_add, Z.mod_add, (Z.div_small yoe), (Z.mod_small yoe) by lia. unfold doy. lia.
  - destruct (Z.leb_spec (mp - 9) 2); [|lia].
    destruct (Z.ltb_spec 2 (mp - 9)); [lia|].
    replace (yoe + era * 400 + 1 - 1) with (yoe + era * 400) by lia.
    replace (mp - 9 + 9) with mp by lia.
    rewrite Z.div_add, Z.mod_add, (Z.div_small yoe), (Z.mod_small yoe) by lia. unfold doy. lia.
Qed.

Lemma civil_from_days_inj a b : civil_from_days a = civil_from_days b → a = b.
Proof.
  intros H. pose proof (days_from_civil_from_days a) as Ha.
  pose proof (days_from_civil_from_days b) as Hb. rewrite H in Ha.
  destruct (civil_from_days b) as [[y m] d]. congruence.
Qed.
End Calendar.

Example calendar_ok :
  format_hour 1767225600000000000 = "2026-01-01T00"%string
  ∧ format_week 1767225599000000000 = "2026-W01"%string
  ∧ format_week (-1) = "1970-W01"%string
  ∧ format_minute 951782399000000000 = "2000-02-28 23:59"%string.
Proof. by vm_compute. Qed.

(** [time.Time{}], the first instant of year 1. *)
Definition zero_time : Z := -62135596800 * Second.
