(* ===== verification/GoStr.v ===== *)
(** The string functions of Go's standard library that the handlers use, on
    UTF-8 byte strings. *)

From S2P Require Import Prelude.

Definition byte_of (c : ascii) : Z := Z.of_N (N_of_ascii c).

(** ASCII white space. *)
Definition is_space (c : ascii) : bool :=
  let n := byte_of c in (n =? 32) || ((9 <=? n) && (n <=? 13)).

Fixpoint trim_left (s : string) : string :=
  match s with
  | String c s' => if is_space c then trim_left s' else s
  | EmptyString => s
  end.

Fixpoint rev_string (s acc : string) : string :=
  match s with
  | EmptyString => acc
  | String c s => rev_string s (String c acc)
  end.

(** [strings.TrimSpace], for ASCII white space. *)
Definition TrimSpace (s : string) : string :=
  rev_string (trim_left (rev_string (trim_left s) "")) "".

(** How many bytes the rune at the head of a byte list takes: invalid bytes
    are one rune each. *)
Definition in_range (lo hi n : Z) : bool := (lo <=? n) && (n <=? hi).

Definition rune_width (b : list Z) : nat :=
  match b with
  | [] => 0
  | b0 :: rest =>
    match rest with
    | b1 :: rest =>
      if in_range 194 223 b0 && in_range 128 191 b1 then 2 else
      match rest with
      | b2 :: rest =>
        let lo := if b0 =? 224 then 160 else 128 in
        let hi := if b0 =? 237 then 159 else 191 in
        if in_range 224 239 b0 && in_range lo hi b1 && in_range 128 191 b2 then 3 else
        match rest with
        | b3 :: _ =>
          let lo := if b0 =? 240 then 144 else 128 in
          let hi := if b0 =? 244 then 143 else 191 in
          if in_range 240 244 b0 && in_range lo hi b1 && in_range 128 191 b2 && in_range 128 191 b3
          then 4 else 1
        | [] => 1
        end
      | [] => 1
      end
    | [] => 1
    end
  end.

Fixpoint bytes_of (s : string) : list Z :=
  match s with
  | EmptyString => []
  | String c s => byte_of c :: bytes_of s
  end.

Fixpoint count_runes (fuel : nat) (b : list Z) : Z :=
  match fuel, b with
  | S fuel, _ :: _ => 1 + count_runes fuel (drop (rune_width b) b)
  | _, _ => 0
  end.

(** [len(\[\]rune(s))]: one step per byte is enough. *)
Definition rune_len (s : string) : Z := count_runes (String.length s) (bytes_of s).

(** [strings.Split] by one ASCII character. *)
Fixpoint Split (sep : ascii) (s : string) : list string :=
  match s with
  | EmptyString => [EmptyString]
  | String c s =>
    if Ascii.eqb c sep then EmptyString :: Split sep s else
    match Split sep s with
    | piece :: rest => String c piece :: rest
    | [] => [String c EmptyString]
    end
  end.

(** [strings.ToLower], on ASCII letters. *)
Definition lower (c : ascii) : ascii :=
  let n := byte_of c in
  if (65 <=? n) && (n <=? 90) then ascii_of_N (Z.to_N (n + 32)) else c.

Fixpoint ToLower (s : string) : string :=
  match s with
  | EmptyString => EmptyString
  | String c s => String (lower c) (ToLower s)
  end.

(** [strings.Contains]. *)
Fixpoint Contains (s sub : string) : bool :=
  String.prefix sub s
  || match s with EmptyString => false | String _ s => Contains s sub end.

(** The rune at the head: an invalid byte is [U+FFFD]. *)
Definition rune_at (b : list Z) : Z :=
  match rune_width b, b with
  | 2%nat, b0 :: b1 :: _ => (b0 - 192) * 64 + (b1 - 128)
  | 3%nat, b0 :: b1 :: b2 :: _ => (b0 - 224) * 4096 + (b1 - 128) * 64 + (b2 - 128)
  | 4%nat, b0 :: b1 :: b2 :: b3 :: _ =>
    (b0 - 240) * 262144 + (b1 - 128) * 4096 + (b2 - 128) * 64 + (b3 - 128)
  | _, b0 :: _ => if b0 <? 128 then b0 else 65533
  | _, [] => 65533
  end.

Fixpoint decode_runes (fuel : nat) (b : list Z) : list Z :=
  match fuel, b with
  | S fuel, _ :: _ => rune_at b :: decode_runes fuel (drop (rune_width b) b)
  | _, _ => []
  end.

(** What [for _, r := range s] goes through: one step per byte is enough. *)
Definition runes (s : string) : list Z := decode_runes (String.length s) (bytes_of s).

Definition chr (n : Z) : ascii := ascii_of_N (Z.to_N n).

(** [strings.Trim] by a set of ASCII characters. *)
Fixpoint TrimLeft (cut : ascii → bool) (s : string) : string :=
  match s with
  | String c s' => if cut c then TrimLeft cut s' else s
  | EmptyString => s
  end.

Definition Trim (cut : ascii → bool) (s : string) : string :=
  rev_string (TrimLeft cut (rev_string (TrimLeft cut s) "")) "".

(** [strings.HasSuffix], [TrimSuffix], [TrimPrefix]. *)
Definition HasSuffix (s suffix : string) : bool :=
  (String.length suffix <=? String.length s)%nat
  && String.eqb (String.substring (String.length s - String.length suffix) (String.length suffix) s) suffix.

Definition TrimSuffix (s suffix : string) : string :=
  if HasSuffix s suffix then String.substring 0 (String.length s - String.length suffix) s else s.

Definition TrimPrefix (s prefix : string) : string :=
  if String.prefix prefix s
  then String.substring (String.length prefix) (String.length s - String.length prefix) s else s.

Lemma substring_0 s : ∀ n, (String.length s ≤ n)%nat → String.substring 0 n s = s.
Proof.
  induction s as [|c s IH]; intros [|n] Hn; cbn in *; [done|done|lia|]. rewrite IH by lia. done.
Qed.

Lemma substring_app_r p s : String.substring (String.length p) (String.length s) (p +:+ s) = s.
Proof. induction p as [|c p IH]; [by apply substring_0|exact IH]. Qed.

Lemma substring_app_l p s : String.substring 0 (String.length p) (p +:+ s) = p.
Proof. induction p as [|c p IH]; [by destruct s|].
  change (String c (String.substring 0 (String.length p) (p +:+ s)) = String c p). by rewrite IH.
Qed.

Lemma length_app_string p s : String.length (p +:+ s) = (String.length p + String.length s)%nat.
Proof. induction p as [|c p IH]; [done|]. change (S (String.length (p +:+ s)) = S (String.length p + String.length s)).
  by rewrite IH.
Qed.

Lemma HasSuffix_app p s : HasSuffix (p +:+ s) s = true.
Proof.
  unfold HasSuffix. rewrite length_app_string, Nat.add_sub, substring_app_r, String.eqb_refl, andb_true_r.
  apply Nat.leb_le. lia.
Qed.

Lemma substring_cut n : ∀ s, (n ≤ String.length s)%nat →
  s = String.substring 0 n s +:+ String.substring n (String.length s - n) s.
Proof.
  induction n as [|n IH]; intros [|c s] Hn; cbn in Hn; try lia; try done.
  - cbn [String.length]. rewrite Nat.sub_0_r. cbn -[String.append].
    by rewrite substring_0 by done.
  - cbn -[String.append]. change (String c s = String c (String.substring 0 n s +:+ String.substring n (String.length s - n) s)).
    by rewrite <-IH by lia.
Qed.

Lemma HasSuffix_split s suffix : HasSuffix s suffix = true → ∃ p, s = p +:+ suffix.
Proof.
  unfold HasSuffix. intros [Hlen%Nat.leb_le Heq%String.eqb_eq]%andb_true_iff.
  pose proof (substring_cut (String.length s - String.length suffix) s ltac:(lia)) as Hs.
  replace (String.length s - (String.length s - String.length suffix))%nat with (String.length suffix) in Hs by lia.
  rewrite Heq in Hs. by eexists.
Qed.

Lemma TrimSuffix_app p s : TrimSuffix (p +:+ s) s = p.
Proof. unfold TrimSuffix. by rewrite HasSuffix_app, length_app_string, Nat.add_sub, substring_app_l. Qed.

Example runes_cyrillic : runes "Я-1" = [1071; 45; 49].
Proof. reflexivity. Qed.

Example rune_len_cyrillic : rune_len "копия" = 5.
Proof. reflexivity. Qed.

Example Split_token : Split "."%char "jhvd.ab.cd" = ["jhvd"; "ab"; "cd"]%string.
Proof. reflexivity. Qed.

(** * The order of strings *)
Definition string_lt (a b : string) : Prop := (a <? b)%string = true.

#[export] Instance string_lt_dec a b : Decision (string_lt a b) := decide (_ = _).

Lemma ascii_compare_N a b : Ascii.compare a b = N.compare (Ascii.N_of_ascii a) (Ascii.N_of_ascii b).
Proof. done. Qed.

Lemma string_lt_compare a b : string_lt a b ↔ String.compare a b = Lt.
Proof. unfold string_lt, String.ltb. by destruct (String.compare a b). Qed.

#[export] Instance string_lt_strict : StrictOrder string_lt.
Proof.
  split.
  - intros a Ha%string_lt_compare. pose proof (String.compare_antisym a a) as Hs. rewrite Ha in Hs. done.
  - intros a b c. rewrite !string_lt_compare. revert b c.
    induction a as [|x a IH]; intros [|y b] [|z c]; cbn; try done.
    rewrite !ascii_compare_N.
    destruct (N.compare_spec (Ascii.N_of_ascii x) (Ascii.N_of_ascii y)) as [Hxy|Hxy|Hxy];
    destruct (N.compare_spec (Ascii.N_of_ascii y) (Ascii.N_of_ascii z)) as [Hyz|Hyz|Hyz]; try done.
    + rewrite (proj2 (N.compare_eq_iff _ _)) by congruence. apply IH.
    + rewrite (proj2 (N.compare_lt_iff _ _)) by lia. done.
    + rewrite (proj2 (N.compare_lt_iff _ _)) by lia. done.
    + rewrite (proj2 (N.compare_lt_iff _ _)) by lia. done.
Qed.

Lemma string_lt_total a b : string_lt a b ∨ a = b ∨ string_lt b a.
Proof.
  rewrite !string_lt_compare. destruct (String.compare a b) eqn:Hc.
  - right. left. by apply String.compare_eq_iff.
  - by left.
  - right. right. rewrite String.compare_antisym, Hc. done.
Qed.

(** [sort.Strings]. *)
Definition sort_strings (l : list string) : list string := sort_stable String.ltb l.

Lemma sort_strings_sorted l : StronglySorted (λ a b, ¬ string_lt b a) (sort_strings l).
Proof.
  assert (StronglySorted (not_after String.ltb) (sort_strings l)) as Hs.
  { apply sort_stable_sorted.
    - intros x y Hxy. apply not_true_iff_false. intros Hyx. by apply (asymmetry (R := string_lt) Hxy).
    - intros x y z Hxy%not_true_iff_false Hyz%not_true_iff_false. apply not_true_iff_false. intros Hxz.
      destruct (string_lt_total x y) as [Hlt|[->|?]]; [|done|done].
      apply Hyz. by apply (transitivity (R := string_lt) Hxz). }
  induction Hs as [|a k _ IH Hk]; constructor; [done|]. eapply Forall_impl; [exact Hk|].
  intros b. apply not_true_iff_false.
Qed.
