(* ===== verification/Model.v ===== *)
(** The domain model ([internal/model]): the types every other component
    shares, with the validation and normalisation they carry.

    String-typed enumerations keep one constructor per declared constant and an
    [Other] constructor for any other string a database row or a request may
    hold; the empty string is such a value. Optional instants ([*time.Time])
    are [option Z]. Records keep the fields the modelled code reads, in the
    order of the source; fields that only travel to the interface are left
    out. *)

From S2P Require Import Prelude GoTime.

(** * Backup types *)
Inductive BackupType :=
| BackupFull | BackupIncremental | BackupDifferential
| BackupSnapshot | BackupOVA | BackupConfig
| BackupOther (name : string).

#[export] Instance BackupType_eq_dec : EqDecision BackupType.
Proof. solve_decision. Defined.

Definition AllBackupTypes : list BackupType :=
  [BackupFull; BackupIncremental; BackupDifferential; BackupSnapshot; BackupOVA; BackupConfig].

Definition NeedsParent (t : BackupType) : bool :=
  bool_decide (t = BackupIncremental) || bool_decide (t = BackupDifferential).

Definition UsesCBT (t : BackupType) : bool :=
  bool_decide (t = BackupFull) || bool_decide (t = BackupIncremental)
  || bool_decide (t = BackupDifferential).

(** [LegacyIncrementalMode]: [""] is [LegacyNone]. *)
Inductive LegacyIncrementalMode :=
| LegacyNone | LegacyIncrementalCompare | LegacyIncrementalQcow2
| LegacyOther (name : string).

#[export] Instance LegacyIncrementalMode_eq_dec : EqDecision LegacyIncrementalMode.
Proof. solve_decision. Defined.

Definition LegacyIncrementalMode_Valid (m : LegacyIncrementalMode) : bool :=
  bool_decide (m = LegacyNone) || bool_decide (m = LegacyIncrementalCompare)
  || bool_decide (m = LegacyIncrementalQcow2).

(** * Run statuses *)
Inductive RunStatus :=
| RunPending | RunRunning | RunWaitingCopies | RunSucceeded | RunPartial
| RunFailed | RunCanceled | RunMissed
| RunStatusOther (name : string).

#[export] Instance RunStatus_eq_dec : EqDecision RunStatus.
Proof. solve_decision. Defined.

Definition RunStatus_Terminal (s : RunStatus) : bool :=
  match s with
  | RunSucceeded | RunPartial | RunFailed | RunCanceled | RunMissed => true
  | _ => false
  end.

(** * Storage targets *)
Inductive StorageKind :=
| StorageLocal | StorageS3 | StorageSFTP | StorageSMB | StorageWebDAV
| StorageDomainRepository
| StorageKindOther (name : string).

#[export] Instance StorageKind_eq_dec : EqDecision StorageKind.
Proof. solve_decision. Defined.

Definition AllStorageKinds : list StorageKind :=
  [StorageLocal; StorageDomainRepository; StorageS3; StorageSMB; StorageWebDAV; StorageSFTP].

Definition KnownStorageKind (kind : StorageKind) : bool :=
  existsb (λ k, bool_decide (k = kind)) AllStorageKinds.

(** The address, the credentials and the protection of a repository; the
    check results shown in the interface are left out. *)
Record StorageTarget := mkStorageTarget {
  tgt_ID : string;
  tgt_Name : string;
  tgt_Kind : StorageKind;
  tgt_Enabled : bool;
  tgt_ReadOnly : bool;
  tgt_BasePath : string;
  tgt_ServerID : string;
  tgt_StorageDomainID : string;
  tgt_Endpoint : string;
  tgt_Region : string;
  tgt_Bucket : string;
  tgt_Prefix : string;
  tgt_AccessKey : string;
  tgt_SecretKey : string;
  tgt_ObjectLockEnabled : bool;
  tgt_ObjectLockDays : Z;
  tgt_ImmutabilityState : string;
  tgt_Host : string;
  tgt_Port : Z;
  tgt_Username : string;
  tgt_Password : string;
  tgt_PrivateKey : string;
  tgt_Share : string;
  tgt_Domain : string
}.

(** Whether an edit moves the repository or changes its credentials. *)
Definition Retargeted (t other : StorageTarget) : bool :=
  if negb (bool_decide (tgt_Kind t = tgt_Kind other))
     || negb (bool_decide (tgt_ServerID t = tgt_ServerID other))
     || negb (bool_decide (tgt_StorageDomainID t = tgt_StorageDomainID other))
     || negb (bool_decide (tgt_BasePath t = tgt_BasePath other))
     || negb (bool_decide (tgt_Endpoint t = tgt_Endpoint other))
     || negb (bool_decide (tgt_Region t = tgt_Region other))
     || negb (bool_decide (tgt_Bucket t = tgt_Bucket other))
     || negb (bool_decide (tgt_Prefix t = tgt_Prefix other))
     || negb (bool_decide (tgt_AccessKey t = tgt_AccessKey other))
     || negb (bool_decide (tgt_Host t = tgt_Host other))
     || negb (bool_decide (tgt_Port t = tgt_Port other))
     || negb (bool_decide (tgt_Username t = tgt_Username other))
     || negb (bool_decide (tgt_Share t = tgt_Share other))
     || negb (bool_decide (tgt_Domain t = tgt_Domain other))
  then true
  else
    negb (bool_decide (tgt_SecretKey t = tgt_SecretKey other))
    || negb (bool_decide (tgt_Password t = tgt_Password other))
    || negb (bool_decide (tgt_PrivateKey t = tgt_PrivateKey other)).

Definition HasSecret (t : StorageTarget) : bool :=
  negb (bool_decide (tgt_SecretKey t = ""%string))
  || negb (bool_decide (tgt_Password t = ""%string))
  || negb (bool_decide (tgt_PrivateKey t = ""%string)).

(** * Retention policy *)
Record RetentionPolicy := mkRetentionPolicy {
  KeepLast : Z;
  KeepHourly : Z;
  KeepDaily : Z;
  KeepWeekly : Z;
  KeepMonthly : Z;
  KeepYearly : Z;
  MaxAge : Z
}.

Definition RetentionPolicy_Empty (r : RetentionPolicy) : bool :=
  (KeepLast r =? 0) && (KeepHourly r =? 0) && (KeepDaily r =? 0)
  && (KeepWeekly r =? 0) && (KeepMonthly r =? 0) && (KeepYearly r =? 0)
  && (MaxAge r =? 0).

(** The offending rule, by its JSON name. *)
Inductive RetentionError := NegativeRule (name : string).

Definition RetentionPolicy_Validate (r : RetentionPolicy) : result RetentionError () :=
  let values :=
    [("keep_last", KeepLast r); ("keep_hourly", KeepHourly r); ("keep_daily", KeepDaily r);
     ("keep_weekly", KeepWeekly r); ("keep_monthly", KeepMonthly r);
     ("keep_yearly", KeepYearly r); ("max_age", MaxAge r)]%string in
  match find (λ item : string * Z, item.2 <? 0) values with
  | Some item => Err (NegativeRule item.1)
  | None => Ok ()
  end.

Definition DefaultRetention : RetentionPolicy :=
  {| KeepLast := 3; KeepHourly := 0; KeepDaily := 7; KeepWeekly := 4;
     KeepMonthly := 6; KeepYearly := 0; MaxAge := 0 |}.

(** * Verification modes *)
Inductive VerifyMode :=
| VerifyManifest | VerifyQuick | VerifyChain | VerifyRestore | VerifySource
| VerifyQemu | VerifyStructure | VerifyBoot
| VerifyOther (name : string).

#[export] Instance VerifyMode_eq_dec : EqDecision VerifyMode.
Proof. solve_decision. Defined.

Definition NeedsHypervisor (m : VerifyMode) : bool := bool_decide (m = VerifyBoot).

Record VerifyOptions := mkVerifyOptions {
  vo_BootHostID : string;
  vo_DiskID : string;
  vo_MemoryMiB : Z;
  vo_VCPUs : Z;
  vo_TimeoutSec : Z;
  vo_KeepOnFailure : bool;
  vo_KeepOnSuccess : bool;
  vo_BootEngineID : string;
  vo_BootClusterID : string;
  vo_BootStorageDomainID : string;
  vo_TargetID : string;
  vo_TriggeredBy : string
}.

Inductive VerifyOptionsError :=
| TargetAndManual | HostAndEngine | EngineNeedsClusterAndDomain
| BadMemory | BadVCPUs | BadTimeout.

Definition VerifyOptions_Validate (o : VerifyOptions) : result VerifyOptionsError () :=
  fail_if (negb (bool_decide (vo_TargetID o = ""%string))
           && (negb (bool_decide (vo_BootHostID o = ""%string))
               || negb (bool_decide (vo_BootEngineID o = ""%string)))) TargetAndManual ;;
  fail_if (negb (bool_decide (vo_BootEngineID o = ""%string))
           && negb (bool_decide (vo_BootHostID o = ""%string))) HostAndEngine ;;
  fail_if (negb (bool_decide (vo_BootEngineID o = ""%string))
           && (bool_decide (vo_BootClusterID o = ""%string)
               || bool_decide (vo_BootStorageDomainID o = ""%string)))
          EngineNeedsClusterAndDomain ;;
  fail_if ((vo_MemoryMiB o <? 0) || (Z.shiftl 1 20 <? vo_MemoryMiB o)) BadMemory ;;
  fail_if ((vo_VCPUs o <? 0) || (1024 <? vo_VCPUs o)) BadVCPUs ;;
  fail_if ((vo_TimeoutSec o <? 0) || (24 * 60 * 60 <? vo_TimeoutSec o)) BadTimeout.

(** * Guest consistency *)
Inductive Consistency :=
| ConsistencyCrash | ConsistencyFilesystem | ConsistencyApplication
| ConsistencyOther (name : string).

#[export] Instance Consistency_eq_dec : EqDecision Consistency.
Proof. solve_decision. Defined.

Definition Consistency_Valid (c : Consistency) : bool :=
  match c with
  | ConsistencyCrash | ConsistencyFilesystem | ConsistencyApplication => true
  | _ => false
  end.

Definition NeedsFreeze (c : Consistency) : bool :=
  bool_decide (c = ConsistencyFilesystem) || bool_decide (c = ConsistencyApplication).

Definition Rank (c : Consistency) : Z :=
  match c with
  | ConsistencyCrash => 1
  | ConsistencyFilesystem => 2
  | ConsistencyApplication => 3
  | _ => 0
  end.

Definition Below (c target : Consistency) : bool :=
  if negb (Consistency_Valid c) || negb (Consistency_Valid target) then false
  else Rank c <? Rank target.

(** [FreezeBy]: [""] is [FreezeByDefault]. *)
Inductive FreezeBy :=
| FreezeByDefault | FreezeByService | FreezeByEngine | FreezeByMixed
| FreezeByOther (name : string).

#[export] Instance FreezeBy_eq_dec : EqDecision FreezeBy.
Proof. solve_decision. Defined.

Definition FreezeBy_Valid (f : FreezeBy) : bool :=
  bool_decide (f = FreezeByDefault) || bool_decide (f = FreezeByService)
  || bool_decide (f = FreezeByEngine) || bool_decide (f = FreezeByMixed).

Definition NeedsEngine (f : FreezeBy) : bool :=
  bool_decide (f = FreezeByEngine) || bool_decide (f = FreezeByMixed).

(** * Delivery to several repositories *)
Inductive StorageMode :=
| StorageModeUnset | StorageModeCopy | StorageModeParallel | StorageModeSeparate
| StorageModeOther (name : string).

#[export] Instance StorageMode_eq_dec : EqDecision StorageMode.
Proof. solve_decision. Defined.

(** * Backup jobs *)
Record BackupJob := mkBackupJob {
  job_ID : string;
  job_Name : string;
  job_Enabled : bool;
  job_ServerID : string;
  job_VMIDs : list string;
  job_VMNameRegex : string;
  job_ClusterIDs : list string;
  job_Tags : list string;
  job_ExcludeVMIDs : list string;
  job_ExcludeDiskIDs : list string;
  job_Type : BackupType;
  job_FullEvery : Z;
  job_FallbackType : BackupType;
  job_LegacyIncrementalMode : LegacyIncrementalMode;
  (** A cron expression, empty for a job started by hand only. *)
  job_Schedule : string;
  job_MaxDuration : Z;
  job_StorageTargetIDs : list string;
  job_StorageMode : StorageMode;
  job_ReplicationEnabled : bool;
  job_ForceFullNext : bool;
  job_OVAHostID : string;
  job_OVADirectory : string;
  job_Retention : RetentionPolicy;
  job_Quiesce : bool;
  job_Consistency : Consistency;
  job_RequireConsistency : bool;
  job_MaxFreeze : Z;
  job_FreezeBy : FreezeBy;
  job_FreezeMountpoints : list string;
  job_MaxReadMBps : Z;
  job_VerifyAfter : VerifyMode;
  job_VerifyOptions : VerifyOptions;
  job_ExportQcow2 : bool;
  job_Encrypt : bool;
  job_Priority : Z;
  job_Concurrency : Z;
  job_LastRunAt : option Z;
  job_LastStatus : RunStatus;
  job_NextRunAt : option Z;
  job_CreatedAt : Z;
  job_UpdatedAt : Z
}.

Definition set_job_StorageMode (m : StorageMode) (repl : bool)
    (j : BackupJob) : BackupJob :=
  {| job_ID := job_ID j; job_Name := job_Name j; job_Enabled := job_Enabled j;
     job_ServerID := job_ServerID j; job_VMIDs := job_VMIDs j;
     job_VMNameRegex := job_VMNameRegex j; job_ClusterIDs := job_ClusterIDs j;
     job_Tags := job_Tags j; job_ExcludeVMIDs := job_ExcludeVMIDs j;
     job_ExcludeDiskIDs := job_ExcludeDiskIDs j; job_Type := job_Type j;
     job_FullEvery := job_FullEvery j; job_FallbackType := job_FallbackType j;
     job_LegacyIncrementalMode := job_LegacyIncrementalMode j; job_Schedule := job_Schedule j;
     job_MaxDuration := job_MaxDuration j; job_StorageTargetIDs := job_StorageTargetIDs j;
     job_StorageMode := m; job_ReplicationEnabled := repl;
     job_ForceFullNext := job_ForceFullNext j; job_OVAHostID := job_OVAHostID j;
     job_OVADirectory := job_OVADirectory j; job_Retention := job_Retention j;
     job_Quiesce := job_Quiesce j; job_Consistency := job_Consistency j;
     job_RequireConsistency := job_RequireConsistency j; job_MaxFreeze := job_MaxFreeze j;
     job_FreezeBy := job_FreezeBy j; job_FreezeMountpoints := job_FreezeMountpoints j;
     job_MaxReadMBps := job_MaxReadMBps j; job_VerifyAfter := job_VerifyAfter j;
     job_VerifyOptions := job_VerifyOptions j; job_ExportQcow2 := job_ExportQcow2 j;
     job_Encrypt := job_Encrypt j; job_Priority := job_Priority j;
     job_Concurrency := job_Concurrency j; job_LastRunAt := job_LastRunAt j;
     job_LastStatus := job_LastStatus j; job_NextRunAt := job_NextRunAt j;
     job_CreatedAt := job_CreatedAt j; job_UpdatedAt := job_UpdatedAt j |}.

Definition set_job_consistency (c : Consistency) (quiesce require : bool) (mps : list string)
    (j : BackupJob) : BackupJob :=
  {| job_ID := job_ID j; job_Name := job_Name j; job_Enabled := job_Enabled j;
     job_ServerID := job_ServerID j; job_VMIDs := job_VMIDs j;
     job_VMNameRegex := job_VMNameRegex j; job_ClusterIDs := job_ClusterIDs j;
     job_Tags := job_Tags j; job_ExcludeVMIDs := job_ExcludeVMIDs j;
     job_ExcludeDiskIDs := job_ExcludeDiskIDs j; job_Type := job_Type j;
     job_FullEvery := job_FullEvery j; job_FallbackType := job_FallbackType j;
     job_LegacyIncrementalMode := job_LegacyIncrementalMode j; job_Schedule := job_Schedule j;
     job_MaxDuration := job_MaxDuration j; job_StorageTargetIDs := job_StorageTargetIDs j;
     job_StorageMode := job_StorageMode j; job_ReplicationEnabled := job_ReplicationEnabled j;
     job_ForceFullNext := job_ForceFullNext j; job_OVAHostID := job_OVAHostID j;
     job_OVADirectory := job_OVADirectory j; job_Retention := job_Retention j;
     job_Quiesce := quiesce; job_Consistency := c; job_RequireConsistency := require;
     job_MaxFreeze := job_MaxFreeze j; job_FreezeBy := job_FreezeBy j;
     job_FreezeMountpoints := mps; job_MaxReadMBps := job_MaxReadMBps j;
     job_VerifyAfter := job_VerifyAfter j; job_VerifyOptions := job_VerifyOptions j;
     job_ExportQcow2 := job_ExportQcow2 j; job_Encrypt := job_Encrypt j;
     job_Priority := job_Priority j; job_Concurrency := job_Concurrency j;
     job_LastRunAt := job_LastRunAt j; job_LastStatus := job_LastStatus j;
     job_NextRunAt := job_NextRunAt j; job_CreatedAt := job_CreatedAt j;
     job_UpdatedAt := job_UpdatedAt j |}.

Definition set_job_ForceFullNext (force : bool) (updated : Z)
    (j : BackupJob) : BackupJob :=
  {| job_ID := job_ID j; job_Name := job_Name j; job_Enabled := job_Enabled j;
     job_ServerID := job_ServerID j; job_VMIDs := job_VMIDs j;
     job_VMNameRegex := job_VMNameRegex j; job_ClusterIDs := job_ClusterIDs j;
     job_Tags := job_Tags j; job_ExcludeVMIDs := job_ExcludeVMIDs j;
     job_ExcludeDiskIDs := job_ExcludeDiskIDs j; job_Type := job_Type j;
     job_FullEvery := job_FullEvery j; job_FallbackType := job_FallbackType j;
     job_LegacyIncrementalMode := job_LegacyIncrementalMode j; job_Schedule := job_Schedule j;
     job_MaxDuration := job_MaxDuration j; job_StorageTargetIDs := job_StorageTargetIDs j;
     job_StorageMode := job_StorageMode j; job_ReplicationEnabled := job_ReplicationEnabled j;
     job_ForceFullNext := force; job_OVAHostID := job_OVAHostID j;
     job_OVADirectory := job_OVADirectory j; job_Retention := job_Retention j;
     job_Quiesce := job_Quiesce j; job_Consistency := job_Consistency j;
     job_RequireConsistency := job_RequireConsistency j; job_MaxFreeze := job_MaxFreeze j;
     job_FreezeBy := job_FreezeBy j; job_FreezeMountpoints := job_FreezeMountpoints j;
     job_MaxReadMBps := job_MaxReadMBps j; job_VerifyAfter := job_VerifyAfter j;
     job_VerifyOptions := job_VerifyOptions j; job_ExportQcow2 := job_ExportQcow2 j;
     job_Encrypt := job_Encrypt j; job_Priority := job_Priority j;
     job_Concurrency := job_Concurrency j; job_LastRunAt := job_LastRunAt j;
     job_LastStatus := job_LastStatus j; job_NextRunAt := job_NextRunAt j;
     job_CreatedAt := job_CreatedAt j; job_UpdatedAt := updated |}.

Definition set_job_columns (id : string) (fallback : BackupType) (concurrency created updated : Z)
    (j : BackupJob) : BackupJob :=
  {| job_ID := id; job_Name := job_Name j; job_Enabled := job_Enabled j;
     job_ServerID := job_ServerID j; job_VMIDs := job_VMIDs j;
     job_VMNameRegex := job_VMNameRegex j; job_ClusterIDs := job_ClusterIDs j;
     job_Tags := job_Tags j; job_ExcludeVMIDs := job_ExcludeVMIDs j;
     job_ExcludeDiskIDs := job_ExcludeDiskIDs j; job_Type := job_Type j;
     job_FullEvery := job_FullEvery j; job_FallbackType := fallback;
     job_LegacyIncrementalMode := job_LegacyIncrementalMode j; job_Schedule := job_Schedule j;
     job_MaxDuration := job_MaxDuration j; job_StorageTargetIDs := job_StorageTargetIDs j;
     job_StorageMode := job_StorageMode j; job_ReplicationEnabled := job_ReplicationEnabled j;
     job_ForceFullNext := job_ForceFullNext j; job_OVAHostID := job_OVAHostID j;
     job_OVADirectory := job_OVADirectory j; job_Retention := job_Retention j;
     job_Quiesce := job_Quiesce j; job_Consistency := job_Consistency j;
     job_RequireConsistency := job_RequireConsistency j; job_MaxFreeze := job_MaxFreeze j;
     job_FreezeBy := job_FreezeBy j; job_FreezeMountpoints := job_FreezeMountpoints j;
     job_MaxReadMBps := job_MaxReadMBps j; job_VerifyAfter := job_VerifyAfter j;
     job_VerifyOptions := job_VerifyOptions j; job_ExportQcow2 := job_ExportQcow2 j;
     job_Encrypt := job_Encrypt j; job_Priority := job_Priority j;
     job_Concurrency := concurrency; job_LastRunAt := job_LastRunAt j;
     job_LastStatus := job_LastStatus j; job_NextRunAt := job_NextRunAt j;
     job_CreatedAt := created; job_UpdatedAt := updated |}.

Definition set_job_durations (max freeze : Z)
    (j : BackupJob) : BackupJob :=
  {| job_ID := job_ID j; job_Name := job_Name j; job_Enabled := job_Enabled j;
     job_ServerID := job_ServerID j; job_VMIDs := job_VMIDs j;
     job_VMNameRegex := job_VMNameRegex j; job_ClusterIDs := job_ClusterIDs j;
     job_Tags := job_Tags j; job_ExcludeVMIDs := job_ExcludeVMIDs j;
     job_ExcludeDiskIDs := job_ExcludeDiskIDs j; job_Type := job_Type j;
     job_FullEvery := job_FullEvery j; job_FallbackType := job_FallbackType j;
     job_LegacyIncrementalMode := job_LegacyIncrementalMode j; job_Schedule := job_Schedule j;
     job_MaxDuration := max; job_StorageTargetIDs := job_StorageTargetIDs j;
     job_StorageMode := job_StorageMode j; job_ReplicationEnabled := job_ReplicationEnabled j;
     job_ForceFullNext := job_ForceFullNext j; job_OVAHostID := job_OVAHostID j;
     job_OVADirectory := job_OVADirectory j; job_Retention := job_Retention j;
     job_Quiesce := job_Quiesce j; job_Consistency := job_Consistency j;
     job_RequireConsistency := job_RequireConsistency j; job_MaxFreeze := freeze;
     job_FreezeBy := job_FreezeBy j; job_FreezeMountpoints := job_FreezeMountpoints j;
     job_MaxReadMBps := job_MaxReadMBps j; job_VerifyAfter := job_VerifyAfter j;
     job_VerifyOptions := job_VerifyOptions j; job_ExportQcow2 := job_ExportQcow2 j;
     job_Encrypt := job_Encrypt j; job_Priority := job_Priority j;
     job_Concurrency := job_Concurrency j; job_LastRunAt := job_LastRunAt j;
     job_LastStatus := job_LastStatus j; job_NextRunAt := job_NextRunAt j;
     job_CreatedAt := job_CreatedAt j; job_UpdatedAt := job_UpdatedAt j |}.

Definition set_job_StorageTargetIDs (ids : list string)
    (j : BackupJob) : BackupJob :=
  {| job_ID := job_ID j; job_Name := job_Name j; job_Enabled := job_Enabled j;
     job_ServerID := job_ServerID j; job_VMIDs := job_VMIDs j;
     job_VMNameRegex := job_VMNameRegex j; job_ClusterIDs := job_ClusterIDs j;
     job_Tags := job_Tags j; job_ExcludeVMIDs := job_ExcludeVMIDs j;
     job_ExcludeDiskIDs := job_ExcludeDiskIDs j; job_Type := job_Type j;
     job_FullEvery := job_FullEvery j; job_FallbackType := job_FallbackType j;
     job_LegacyIncrementalMode := job_LegacyIncrementalMode j; job_Schedule := job_Schedule j;
     job_MaxDuration := job_MaxDuration j; job_StorageTargetIDs := ids;
     job_StorageMode := job_StorageMode j; job_ReplicationEnabled := job_ReplicationEnabled j;
     job_ForceFullNext := job_ForceFullNext j; job_OVAHostID := job_OVAHostID j;
     job_OVADirectory := job_OVADirectory j; job_Retention := job_Retention j;
     job_Quiesce := job_Quiesce j; job_Consistency := job_Consistency j;
     job_RequireConsistency := job_RequireConsistency j; job_MaxFreeze := job_MaxFreeze j;
     job_FreezeBy := job_FreezeBy j; job_FreezeMountpoints := job_FreezeMountpoints j;
     job_MaxReadMBps := job_MaxReadMBps j; job_VerifyAfter := job_VerifyAfter j;
     job_VerifyOptions := job_VerifyOptions j; job_ExportQcow2 := job_ExportQcow2 j;
     job_Encrypt := job_Encrypt j; job_Priority := job_Priority j;
     job_Concurrency := job_Concurrency j; job_LastRunAt := job_LastRunAt j;
     job_LastStatus := job_LastStatus j; job_NextRunAt := job_NextRunAt j;
     job_CreatedAt := job_CreatedAt j; job_UpdatedAt := job_UpdatedAt j |}.

Definition set_job_VerifyOptions (o : VerifyOptions)
    (j : BackupJob) : BackupJob :=
  {| job_ID := job_ID j; job_Name := job_Name j; job_Enabled := job_Enabled j;
     job_ServerID := job_ServerID j; job_VMIDs := job_VMIDs j;
     job_VMNameRegex := job_VMNameRegex j; job_ClusterIDs := job_ClusterIDs j;
     job_Tags := job_Tags j; job_ExcludeVMIDs := job_ExcludeVMIDs j;
     job_ExcludeDiskIDs := job_ExcludeDiskIDs j; job_Type := job_Type j;
     job_FullEvery := job_FullEvery j; job_FallbackType := job_FallbackType j;
     job_LegacyIncrementalMode := job_LegacyIncrementalMode j; job_Schedule := job_Schedule j;
     job_MaxDuration := job_MaxDuration j; job_StorageTargetIDs := job_StorageTargetIDs j;
     job_StorageMode := job_StorageMode j; job_ReplicationEnabled := job_ReplicationEnabled j;
     job_ForceFullNext := job_ForceFullNext j; job_OVAHostID := job_OVAHostID j;
     job_OVADirectory := job_OVADirectory j; job_Retention := job_Retention j;
     job_Quiesce := job_Quiesce j; job_Consistency := job_Consistency j;
     job_RequireConsistency := job_RequireConsistency j; job_MaxFreeze := job_MaxFreeze j;
     job_FreezeBy := job_FreezeBy j; job_FreezeMountpoints := job_FreezeMountpoints j;
     job_MaxReadMBps := job_MaxReadMBps j; job_VerifyAfter := job_VerifyAfter j;
     job_VerifyOptions := o; job_ExportQcow2 := job_ExportQcow2 j;
     job_Encrypt := job_Encrypt j; job_Priority := job_Priority j;
     job_Concurrency := job_Concurrency j; job_LastRunAt := job_LastRunAt j;
     job_LastStatus := job_LastStatus j; job_NextRunAt := job_NextRunAt j;
     job_CreatedAt := job_CreatedAt j; job_UpdatedAt := job_UpdatedAt j |}.

(** ** The VM selector *)
Record VM := mkVM {
  vm_ID : string;
  vm_Name : string;
  vm_ClusterID : string;
  vm_Tags : list string
}.

(** A compiled regular expression is the set of strings it matches. *)
Record VMSelector := mkVMSelector {
  sel_job : BackupJob;
  sel_nameRE : option (string → bool)
}.

Inductive MatchReason :=
| MatchNoVM | MatchExcluded | MatchNoSelector | MatchByID | MatchByCluster
| MatchByName | MatchByTag | MatchNothing.

#[export] Instance MatchReason_eq_dec : EqDecision MatchReason.
Proof. solve_decision. Defined.

Definition contains (l : list string) (x : string) : bool := bool_decide (x ∈ l).

Section Selector.
(** [regexp.Compile] followed by [MatchString]. *)
Variable regexp_compile : string → option (string → bool).

Definition NewVMSelector (job : BackupJob) : option VMSelector :=
  if bool_decide (job_VMNameRegex job = ""%string)
  then Some {| sel_job := job; sel_nameRE := None |}
  else match regexp_compile (job_VMNameRegex job) with
       | Some re => Some {| sel_job := job; sel_nameRE := Some re |}
       | None => None
       end.
End Selector.

Definition Match (s : VMSelector) (vm : option VM) : bool * MatchReason :=
  match vm with
  | None => (false, MatchNoVM)
  | Some vm =>
    let job := sel_job s in
    if contains (job_ExcludeVMIDs job) (vm_ID vm) then (false, MatchExcluded) else
    let empty := bool_decide (job_VMIDs job = []) && negb (bool_decide (is_Some (sel_nameRE s)))
                 && bool_decide (job_ClusterIDs job = []) && bool_decide (job_Tags job = []) in
    if empty then (true, MatchNoSelector) else
    if contains (job_VMIDs job) (vm_ID vm) then (true, MatchByID) else
    if contains (job_ClusterIDs job) (vm_ClusterID vm) then (true, MatchByCluster) else
    if (match sel_nameRE s with Some re => re (vm_Name vm) | None => false end)
    then (true, MatchByName) else
    if existsb (contains (vm_Tags vm)) (job_Tags job) then (true, MatchByTag)
    else (false, MatchNothing)
  end.

(** ** Validation *)
Definition MaxFreezeMountpoints : nat := 32.
Definition MinReadLimitMBps : Z := 10.
Definition MaxFreezeLimit : Z := 10 * Minute.

Definition is_letter (c : Ascii.ascii) : bool :=
  let n := Z.of_N (Ascii.N_of_ascii c) in
  ((65 <=? n) && (n <=? 90)) || ((97 <=? n) && (n <=? 122)).

(** The expression [^[A-Za-z]:\\?$]. *)
Definition windowsVolume (mp : string) : bool :=
  match mp with
  | String c (String ":"%char EmptyString) => is_letter c
  | String c (String ":"%char (String "\"%char EmptyString)) => is_letter c
  | _ => false
  end.

(** [strings.ContainsFunc(mp, r < 0x20 || r == 0x7f)]. Control runes are
    single bytes in UTF-8. *)
Fixpoint has_control (mp : string) : bool :=
  match mp with
  | EmptyString => false
  | String c mp' =>
    let n := Z.of_N (Ascii.N_of_ascii c) in
    (n <? 32) || (n =? 127) || has_control mp'
  end.

Inductive JobError :=
| JobNoName | JobNoServer | JobNoStorage | JobBadRegex | JobBadStorageMode
| JobOVANeedsHost | JobOVAWithStorage | JobBadType | JobBadLegacyMode
| JobQcow2Differential | JobNeedsFullEvery | JobBadRetention (e : RetentionError)
| JobBadConsistency | JobBadReadLimit | JobBadFreezeBy | JobBadMaxFreeze
| JobTooManyMountpoints | JobBadMountpointLength | JobMountpointControl (mp : string)
| JobMountpointRelative (mp : string).

Definition ValidateMountpoint (mp : string) : result JobError () :=
  fail_if (Nat.eqb (String.length mp) 0 || Nat.ltb 1024 (String.length mp))
          JobBadMountpointLength ;;
  fail_if (has_control mp) (JobMountpointControl mp) ;;
  fail_if (negb (String.prefix "/" mp) && negb (windowsVolume mp)) (JobMountpointRelative mp).

Fixpoint each_mountpoint (list : list string) : result JobError () :=
  match list with
  | [] => Ok ()
  | mp :: rest => ValidateMountpoint mp ;; each_mountpoint rest
  end.

Definition ValidateFreezeMountpoints (list : list string) : result JobError () :=
  fail_if (Nat.ltb MaxFreezeMountpoints (length list)) JobTooManyMountpoints ;;
  each_mountpoint list.

Definition known_type (t : BackupType) : bool :=
  match t with BackupOther _ => false | _ => true end.

Definition known_storage_mode (m : StorageMode) : bool :=
  match m with StorageModeOther _ => false | _ => true end.

Section Validate.
Variable regexp_compile : string → option (string → bool).

Definition BackupJob_Validate (j : BackupJob) : result JobError () :=
  fail_if (bool_decide (job_Name j = ""%string)) JobNoName ;;
  fail_if (bool_decide (job_ServerID j = ""%string)) JobNoServer ;;
  fail_if (negb (bool_decide (job_Type j = BackupOVA))
           && bool_decide (job_StorageTargetIDs j = [])) JobNoStorage ;;
  of_option JobBadRegex (NewVMSelector regexp_compile j) ;;
  fail_if (negb (known_storage_mode (job_StorageMode j))) JobBadStorageMode ;;
  fail_if (bool_decide (job_Type j = BackupOVA)
           && (bool_decide (job_OVAHostID j = ""%string)
               || bool_decide (job_OVADirectory j = ""%string))) JobOVANeedsHost ;;
  fail_if (bool_decide (job_Type j = BackupOVA)
           && (job_ReplicationEnabled j
               || negb (bool_decide (job_StorageTargetIDs j = [])))) JobOVAWithStorage ;;
  fail_if (negb (known_type (job_Type j))) JobBadType ;;
  fail_if (negb (LegacyIncrementalMode_Valid (job_LegacyIncrementalMode j))) JobBadLegacyMode ;;
  fail_if (bool_decide (job_LegacyIncrementalMode j = LegacyIncrementalQcow2)
           && bool_decide (job_Type j = BackupDifferential)) JobQcow2Differential ;;
  fail_if (NeedsParent (job_Type j) && (job_FullEvery j <=? 0)) JobNeedsFullEvery ;;
  map_err JobBadRetention (RetentionPolicy_Validate (job_Retention j)) ;;
  fail_if (negb (bool_decide (job_Consistency j = ConsistencyOther ""%string))
           && negb (Consistency_Valid (job_Consistency j))) JobBadConsistency ;;
  fail_if ((job_MaxReadMBps j <? 0)
           || ((0 <? job_MaxReadMBps j) && (job_MaxReadMBps j <? MinReadLimitMBps)))
          JobBadReadLimit ;;
  fail_if (negb (FreezeBy_Valid (job_FreezeBy j))) JobBadFreezeBy ;;
  fail_if ((job_MaxFreeze j <? 0) || (MaxFreezeLimit <? job_MaxFreeze j)) JobBadMaxFreeze ;;
  ValidateFreezeMountpoints (job_FreezeMountpoints j).
End Validate.

(** ** Normalisation of jobs saved by earlier versions *)
Definition NormalizeStorageMode (j : BackupJob) : BackupJob :=
  let mode :=
    match job_StorageMode j with
    | StorageModeCopy | StorageModeParallel | StorageModeSeparate => job_StorageMode j
    | _ => if job_ReplicationEnabled j then StorageModeCopy else StorageModeSeparate
    end in
  set_job_StorageMode mode (bool_decide (mode = StorageModeCopy)) j.

Definition NormalizeConsistency (j : BackupJob) : BackupJob :=
  let level :=
    if negb (Consistency_Valid (job_Consistency j))
    then (if job_Quiesce j then ConsistencyFilesystem else ConsistencyCrash)
    else job_Consistency j in
  let quiesce := NeedsFreeze level in
  if quiesce
  then set_job_consistency level quiesce (job_RequireConsistency j) (job_FreezeMountpoints j) j
  else set_job_consistency level quiesce false [] j.

(** * Backup runs *)
Record BackupDisk := mkBackupDisk {
  bd_DiskID : string;
  bd_Alias : string;
  bd_VirtualSize : Z;
  bd_ManifestKey : string;
  bd_DataKey : string;
  bd_StoredBytes : Z;
  bd_Status : RunStatus
}.

Record BackupRun := mkBackupRun {
  run_ID : string;
  run_JobRunID : string;
  run_JobID : string;
  run_ServerID : string;
  run_VMID : string;
  run_VMName : string;
  run_Type : BackupType;
  run_Status : RunStatus;
  run_ParentRunID : string;
  run_ChainID : string;
  run_ChainIndex : Z;
  run_StorageTargetID : string;
  run_RepoPath : string;
  run_EngineBackupID : string;
  run_FromCheckpointID : string;
  run_ToCheckpointID : string;
  run_SnapshotID : string;
  run_LegacyIncrementalMode : LegacyIncrementalMode;
  run_DiskCount : Z;
  run_ReadBytes : Z;
  run_StoredBytes : Z;
  run_ConfigStored : bool;
  run_Error : string;
  run_ManifestSHA256 : string;
  run_Deleted : bool;
  run_PurgeAfter : option Z;
  run_DeleteReason : string;
  run_DeletedAt : option Z;
  run_ExpiresAt : option Z;
  run_StartedAt : option Z;
  run_EndedAt : option Z;
  run_CreatedAt : Z;
  run_Disks : list BackupDisk
}.

(** Assignments to the fields. *)
Definition run_set_ExpiresAt (v : option Z) (r : BackupRun) : BackupRun :=
  mkBackupRun (run_ID r) (run_JobRunID r) (run_JobID r) (run_ServerID r) (run_VMID r)
    (run_VMName r) (run_Type r) (run_Status r) (run_ParentRunID r) (run_ChainID r)
    (run_ChainIndex r) (run_StorageTargetID r) (run_RepoPath r) (run_EngineBackupID r)
    (run_FromCheckpointID r) (run_ToCheckpointID r) (run_SnapshotID r)
    (run_LegacyIncrementalMode r) (run_DiskCount r) (run_ReadBytes r) (run_StoredBytes r)
    (run_ConfigStored r) (run_Error r) (run_ManifestSHA256 r) (run_Deleted r) (run_PurgeAfter r)
    (run_DeleteReason r) (run_DeletedAt r) v (run_StartedAt r) (run_EndedAt r) (run_CreatedAt r)
    (run_Disks r).
Definition run_set_ID (v : string) (r : BackupRun) : BackupRun :=
  mkBackupRun v (run_JobRunID r) (run_JobID r) (run_ServerID r) (run_VMID r) (run_VMName r)
    (run_Type r) (run_Status r) (run_ParentRunID r) (run_ChainID r) (run_ChainIndex r)
    (run_StorageTargetID r) (run_RepoPath r) (run_EngineBackupID r) (run_FromCheckpointID r)
    (run_ToCheckpointID r) (run_SnapshotID r) (run_LegacyIncrementalMode r) (run_DiskCount r)
    (run_ReadBytes r) (run_StoredBytes r) (run_ConfigStored r) (run_Error r)
    (run_ManifestSHA256 r) (run_Deleted r) (run_PurgeAfter r) (run_DeleteReason r)
    (run_DeletedAt r) (run_ExpiresAt r) (run_StartedAt r) (run_EndedAt r) (run_CreatedAt r)
    (run_Disks r).
Definition run_set_ConfigStored (v : bool) (r : BackupRun) : BackupRun :=
  mkBackupRun (run_ID r) (run_JobRunID r) (run_JobID r) (run_ServerID r) (run_VMID r)
    (run_VMName r) (run_Type r) (run_Status r) (run_ParentRunID r) (run_ChainID r)
    (run_ChainIndex r) (run_StorageTargetID r) (run_RepoPath r) (run_EngineBackupID r)
    (run_FromCheckpointID r) (run_ToCheckpointID r) (run_SnapshotID r)
    (run_LegacyIncrementalMode r) (run_DiskCount r) (run_ReadBytes r) (run_StoredBytes r) v
    (run_Error r) (run_ManifestSHA256 r) (run_Deleted r) (run_PurgeAfter r) (run_DeleteReason r)
    (run_DeletedAt r) (run_ExpiresAt r) (run_StartedAt r) (run_EndedAt r) (run_CreatedAt r)
    (run_Disks r).
Definition run_set_CreatedAt (v : Z) (r : BackupRun) : BackupRun :=
  mkBackupRun (run_ID r) (run_JobRunID r) (run_JobID r) (run_ServerID r) (run_VMID r)
    (run_VMName r) (run_Type r) (run_Status r) (run_ParentRunID r) (run_ChainID r)
    (run_ChainIndex r) (run_StorageTargetID r) (run_RepoPath r) (run_EngineBackupID r)
    (run_FromCheckpointID r) (run_ToCheckpointID r) (run_SnapshotID r)
    (run_LegacyIncrementalMode r) (run_DiskCount r) (run_ReadBytes r) (run_StoredBytes r)
    (run_ConfigStored r) (run_Error r) (run_ManifestSHA256 r) (run_Deleted r) (run_PurgeAfter r)
    (run_DeleteReason r) (run_DeletedAt r) (run_ExpiresAt r) (run_StartedAt r) (run_EndedAt r) v
    (run_Disks r).
Definition run_set_Type (v : BackupType) (r : BackupRun) : BackupRun :=
  mkBackupRun (run_ID r) (run_JobRunID r) (run_JobID r) (run_ServerID r) (run_VMID r)
    (run_VMName r) v (run_Status r) (run_ParentRunID r) (run_ChainID r) (run_ChainIndex r)
    (run_StorageTargetID r) (run_RepoPath r) (run_EngineBackupID r) (run_FromCheckpointID r)
    (run_ToCheckpointID r) (run_SnapshotID r) (run_LegacyIncrementalMode r) (run_DiskCount r)
    (run_ReadBytes r) (run_StoredBytes r) (run_ConfigStored r) (run_Error r)
    (run_ManifestSHA256 r) (run_Deleted r) (run_PurgeAfter r) (run_DeleteReason r)
    (run_DeletedAt r) (run_ExpiresAt r) (run_StartedAt r) (run_EndedAt r) (run_CreatedAt r)
    (run_Disks r).
Definition run_set_Status (v : RunStatus) (r : BackupRun) : BackupRun :=
  mkBackupRun (run_ID r) (run_JobRunID r) (run_JobID r) (run_ServerID r) (run_VMID r)
    (run_VMName r) (run_Type r) v (run_ParentRunID r) (run_ChainID r) (run_ChainIndex r)
    (run_StorageTargetID r) (run_RepoPath r) (run_EngineBackupID r) (run_FromCheckpointID r)
    (run_ToCheckpointID r) (run_SnapshotID r) (run_LegacyIncrementalMode r) (run_DiskCount r)
    (run_ReadBytes r) (run_StoredBytes r) (run_ConfigStored r) (run_Error r)
    (run_ManifestSHA256 r) (run_Deleted r) (run_PurgeAfter r) (run_DeleteReason r)
    (run_DeletedAt r) (run_ExpiresAt r) (run_StartedAt r) (run_EndedAt r) (run_CreatedAt r)
    (run_Disks r).
Definition run_set_ParentRunID (v : string) (r : BackupRun) : BackupRun :=
  mkBackupRun (run_ID r) (run_JobRunID r) (run_JobID r) (run_ServerID r) (run_VMID r)
    (run_VMName r) (run_Type r) (run_Status r) v (run_ChainID r) (run_ChainIndex r)
    (run_StorageTargetID r) (run_RepoPath r) (run_EngineBackupID r) (run_FromCheckpointID r)
    (run_ToCheckpointID r) (run_SnapshotID r) (run_LegacyIncrementalMode r) (run_DiskCount r)
    (run_ReadBytes r) (run_StoredBytes r) (run_ConfigStored r) (run_Error r)
    (run_ManifestSHA256 r) (run_Deleted r) (run_PurgeAfter r) (run_DeleteReason r)
    (run_DeletedAt r) (run_ExpiresAt r) (run_StartedAt r) (run_EndedAt r) (run_CreatedAt r)
    (run_Disks r).
Definition run_set_ChainID (v : string) (r : BackupRun) : BackupRun :=
  mkBackupRun (run_ID r) (run_JobRunID r) (run_JobID r) (run_ServerID r) (run_VMID r)
    (run_VMName r) (run_Type r) (run_Status r) (run_ParentRunID r) v (run_ChainIndex r)
    (run_StorageTargetID r) (run_RepoPath r) (run_EngineBackupID r) (run_FromCheckpointID r)
    (run_ToCheckpointID r) (run_SnapshotID r) (run_LegacyIncrementalMode r) (run_DiskCount r)
    (run_ReadBytes r) (run_StoredBytes r) (run_ConfigStored r) (run_Error r)
    (run_ManifestSHA256 r) (run_Deleted r) (run_PurgeAfter r) (run_DeleteReason r)
    (run_DeletedAt r) (run_ExpiresAt r) (run_StartedAt r) (run_EndedAt r) (run_CreatedAt r)
    (run_Disks r).
Definition run_set_ChainIndex (v : Z) (r : BackupRun) : BackupRun :=
  mkBackupRun (run_ID r) (run_JobRunID r) (run_JobID r) (run_ServerID r) (run_VMID r)
    (run_VMName r) (run_Type r) (run_Status r) (run_ParentRunID r) (run_ChainID r) v
    (run_StorageTargetID r) (run_RepoPath r) (run_EngineBackupID r) (run_FromCheckpointID r)
    (run_ToCheckpointID r) (run_SnapshotID r) (run_LegacyIncrementalMode r) (run_DiskCount r)
    (run_ReadBytes r) (run_StoredBytes r) (run_ConfigStored r) (run_Error r)
    (run_ManifestSHA256 r) (run_Deleted r) (run_PurgeAfter r) (run_DeleteReason r)
    (run_DeletedAt r) (run_ExpiresAt r) (run_StartedAt r) (run_EndedAt r) (run_CreatedAt r)
    (run_Disks r).
Definition run_set_RepoPath (v : string) (r : BackupRun) : BackupRun :=
  mkBackupRun (run_ID r) (run_JobRunID r) (run_JobID r) (run_ServerID r) (run_VMID r)
    (run_VMName r) (run_Type r) (run_Status r) (run_ParentRunID r) (run_ChainID r)
    (run_ChainIndex r) (run_StorageTargetID r) v (run_EngineBackupID r) (run_FromCheckpointID r)
    (run_ToCheckpointID r) (run_SnapshotID r) (run_LegacyIncrementalMode r) (run_DiskCount r)
    (run_ReadBytes r) (run_StoredBytes r) (run_ConfigStored r) (run_Error r)
    (run_ManifestSHA256 r) (run_Deleted r) (run_PurgeAfter r) (run_DeleteReason r)
    (run_DeletedAt r) (run_ExpiresAt r) (run_StartedAt r) (run_EndedAt r) (run_CreatedAt r)
    (run_Disks r).
Definition run_set_EngineBackupID (v : string) (r : BackupRun) : BackupRun :=
  mkBackupRun (run_ID r) (run_JobRunID r) (run_JobID r) (run_ServerID r) (run_VMID r)
    (run_VMName r) (run_Type r) (run_Status r) (run_ParentRunID r) (run_ChainID r)
    (run_ChainIndex r) (run_StorageTargetID r) (run_RepoPath r) v (run_FromCheckpointID r)
    (run_ToCheckpointID r) (run_SnapshotID r) (run_LegacyIncrementalMode r) (run_DiskCount r)
    (run_ReadBytes r) (run_StoredBytes r) (run_ConfigStored r) (run_Error r)
    (run_ManifestSHA256 r) (run_Deleted r) (run_PurgeAfter r) (run_DeleteReason r)
    (run_DeletedAt r) (run_ExpiresAt r) (run_StartedAt r) (run_EndedAt r) (run_CreatedAt r)
    (run_Disks r).
Definition run_set_FromCheckpointID (v : string) (r : BackupRun) : BackupRun :=
  mkBackupRun (run_ID r) (run_JobRunID r) (run_JobID r) (run_ServerID r) (run_VMID r)
    (run_VMName r) (run_Type r) (run_Status r) (run_ParentRunID r) (run_ChainID r)
    (run_ChainIndex r) (run_StorageTargetID r) (run_RepoPath r) (run_EngineBackupID r) v
    (run_ToCheckpointID r) (run_SnapshotID r) (run_LegacyIncrementalMode r) (run_DiskCount r)
    (run_ReadBytes r) (run_StoredBytes r) (run_ConfigStored r) (run_Error r)
    (run_ManifestSHA256 r) (run_Deleted r) (run_PurgeAfter r) (run_DeleteReason r)
    (run_DeletedAt r) (run_ExpiresAt r) (run_StartedAt r) (run_EndedAt r) (run_CreatedAt r)
    (run_Disks r).
Definition run_set_ToCheckpointID (v : string) (r : BackupRun) : BackupRun :=
  mkBackupRun (run_ID r) (run_JobRunID r) (run_JobID r) (run_ServerID r) (run_VMID r)
    (run_VMName r) (run_Type r) (run_Status r) (run_ParentRunID r) (run_ChainID r)
    (run_ChainIndex r) (run_StorageTargetID r) (run_RepoPath r) (run_EngineBackupID r)
    (run_FromCheckpointID r) v (run_SnapshotID r) (run_LegacyIncrementalMode r) (run_DiskCount r)
    (run_ReadBytes r) (run_StoredBytes r) (run_ConfigStored r) (run_Error r)
    (run_ManifestSHA256 r) (run_Deleted r) (run_PurgeAfter r) (run_DeleteReason r)
    (run_DeletedAt r) (run_ExpiresAt r) (run_StartedAt r) (run_EndedAt r) (run_CreatedAt r)
    (run_Disks r).
Definition run_set_SnapshotID (v : string) (r : BackupRun) : BackupRun :=
  mkBackupRun (run_ID r) (run_JobRunID r) (run_JobID r) (run_ServerID r) (run_VMID r)
    (run_VMName r) (run_Type r) (run_Status r) (run_ParentRunID r) (run_ChainID r)
    (run_ChainIndex r) (run_StorageTargetID r) (run_RepoPath r) (run_EngineBackupID r)
    (run_FromCheckpointID r) (run_ToCheckpointID r) v (run_LegacyIncrementalMode r)
    (run_DiskCount r) (run_ReadBytes r) (run_StoredBytes r) (run_ConfigStored r) (run_Error r)
    (run_ManifestSHA256 r) (run_Deleted r) (run_PurgeAfter r) (run_DeleteReason r)
    (run_DeletedAt r) (run_ExpiresAt r) (run_StartedAt r) (run_EndedAt r) (run_CreatedAt r)
    (run_Disks r).
Definition run_set_LegacyIncrementalMode (v : LegacyIncrementalMode) (r : BackupRun) : BackupRun :=
  mkBackupRun (run_ID r) (run_JobRunID r) (run_JobID r) (run_ServerID r) (run_VMID r)
    (run_VMName r) (run_Type r) (run_Status r) (run_ParentRunID r) (run_ChainID r)
    (run_ChainIndex r) (run_StorageTargetID r) (run_RepoPath r) (run_EngineBackupID r)
    (run_FromCheckpointID r) (run_ToCheckpointID r) (run_SnapshotID r) v (run_DiskCount r)
    (run_ReadBytes r) (run_StoredBytes r) (run_ConfigStored r) (run_Error r)
    (run_ManifestSHA256 r) (run_Deleted r) (run_PurgeAfter r) (run_DeleteReason r)
    (run_DeletedAt r) (run_ExpiresAt r) (run_StartedAt r) (run_EndedAt r) (run_CreatedAt r)
    (run_Disks r).
Definition run_set_DiskCount (v : Z) (r : BackupRun) : BackupRun :=
  mkBackupRun (run_ID r) (run_JobRunID r) (run_JobID r) (run_ServerID r) (run_VMID r)
    (run_VMName r) (run_Type r) (run_Status r) (run_ParentRunID r) (run_ChainID r)
    (run_ChainIndex r) (run_StorageTargetID r) (run_RepoPath r) (run_EngineBackupID r)
    (run_FromCheckpointID r) (run_ToCheckpointID r) (run_SnapshotID r)
    (run_LegacyIncrementalMode r) v (run_ReadBytes r) (run_StoredBytes r) (run_ConfigStored r)
    (run_Error r) (run_ManifestSHA256 r) (run_Deleted r) (run_PurgeAfter r) (run_DeleteReason r)
    (run_DeletedAt r) (run_ExpiresAt r) (run_StartedAt r) (run_EndedAt r) (run_CreatedAt r)
    (run_Disks r).
Definition run_set_Deleted (v : bool) (r : BackupRun) : BackupRun :=
  mkBackupRun (run_ID r) (run_JobRunID r) (run_JobID r) (run_ServerID r) (run_VMID r)
    (run_VMName r) (run_Type r) (run_Status r) (run_ParentRunID r) (run_ChainID r)
    (run_ChainIndex r) (run_StorageTargetID r) (run_RepoPath r) (run_EngineBackupID r)
    (run_FromCheckpointID r) (run_ToCheckpointID r) (run_SnapshotID r)
    (run_LegacyIncrementalMode r) (run_DiskCount r) (run_ReadBytes r) (run_StoredBytes r)
    (run_ConfigStored r) (run_Error r) (run_ManifestSHA256 r) v (run_PurgeAfter r)
    (run_DeleteReason r) (run_DeletedAt r) (run_ExpiresAt r) (run_StartedAt r) (run_EndedAt r)
    (run_CreatedAt r) (run_Disks r).
Definition run_set_PurgeAfter (v : option Z) (r : BackupRun) : BackupRun :=
  mkBackupRun (run_ID r) (run_JobRunID r) (run_JobID r) (run_ServerID r) (run_VMID r)
    (run_VMName r) (run_Type r) (run_Status r) (run_ParentRunID r) (run_ChainID r)
    (run_ChainIndex r) (run_StorageTargetID r) (run_RepoPath r) (run_EngineBackupID r)
    (run_FromCheckpointID r) (run_ToCheckpointID r) (run_SnapshotID r)
    (run_LegacyIncrementalMode r) (run_DiskCount r) (run_ReadBytes r) (run_StoredBytes r)
    (run_ConfigStored r) (run_Error r) (run_ManifestSHA256 r) (run_Deleted r) v
    (run_DeleteReason r) (run_DeletedAt r) (run_ExpiresAt r) (run_StartedAt r) (run_EndedAt r)
    (run_CreatedAt r) (run_Disks r).
Definition run_set_DeleteReason (v : string) (r : BackupRun) : BackupRun :=
  mkBackupRun (run_ID r) (run_JobRunID r) (run_JobID r) (run_ServerID r) (run_VMID r)
    (run_VMName r) (run_Type r) (run_Status r) (run_ParentRunID r) (run_ChainID r)
    (run_ChainIndex r) (run_StorageTargetID r) (run_RepoPath r) (run_EngineBackupID r)
    (run_FromCheckpointID r) (run_ToCheckpointID r) (run_SnapshotID r)
    (run_LegacyIncrementalMode r) (run_DiskCount r) (run_ReadBytes r) (run_StoredBytes r)
    (run_ConfigStored r) (run_Error r) (run_ManifestSHA256 r) (run_Deleted r) (run_PurgeAfter r)
    v (run_DeletedAt r) (run_ExpiresAt r) (run_StartedAt r) (run_EndedAt r) (run_CreatedAt r)
    (run_Disks r).
Definition run_set_DeletedAt (v : option Z) (r : BackupRun) : BackupRun :=
  mkBackupRun (run_ID r) (run_JobRunID r) (run_JobID r) (run_ServerID r) (run_VMID r)
    (run_VMName r) (run_Type r) (run_Status r) (run_ParentRunID r) (run_ChainID r)
    (run_ChainIndex r) (run_StorageTargetID r) (run_RepoPath r) (run_EngineBackupID r)
    (run_FromCheckpointID r) (run_ToCheckpointID r) (run_SnapshotID r)
    (run_LegacyIncrementalMode r) (run_DiskCount r) (run_ReadBytes r) (run_StoredBytes r)
    (run_ConfigStored r) (run_Error r) (run_ManifestSHA256 r) (run_Deleted r) (run_PurgeAfter r)
    (run_DeleteReason r) v (run_ExpiresAt r) (run_StartedAt r) (run_EndedAt r) (run_CreatedAt r)
    (run_Disks r).
Definition run_set_StartedAt (v : option Z) (r : BackupRun) : BackupRun :=
  mkBackupRun (run_ID r) (run_JobRunID r) (run_JobID r) (run_ServerID r) (run_VMID r)
    (run_VMName r) (run_Type r) (run_Status r) (run_ParentRunID r) (run_ChainID r)
    (run_ChainIndex r) (run_StorageTargetID r) (run_RepoPath r) (run_EngineBackupID r)
    (run_FromCheckpointID r) (run_ToCheckpointID r) (run_SnapshotID r)
    (run_LegacyIncrementalMode r) (run_DiskCount r) (run_ReadBytes r) (run_StoredBytes r)
    (run_ConfigStored r) (run_Error r) (run_ManifestSHA256 r) (run_Deleted r) (run_PurgeAfter r)
    (run_DeleteReason r) (run_DeletedAt r) (run_ExpiresAt r) v (run_EndedAt r) (run_CreatedAt r)
    (run_Disks r).
Definition run_set_EndedAt (v : option Z) (r : BackupRun) : BackupRun :=
  mkBackupRun (run_ID r) (run_JobRunID r) (run_JobID r) (run_ServerID r) (run_VMID r)
    (run_VMName r) (run_Type r) (run_Status r) (run_ParentRunID r) (run_ChainID r)
    (run_ChainIndex r) (run_StorageTargetID r) (run_RepoPath r) (run_EngineBackupID r)
    (run_FromCheckpointID r) (run_ToCheckpointID r) (run_SnapshotID r)
    (run_LegacyIncrementalMode r) (run_DiskCount r) (run_ReadBytes r) (run_StoredBytes r)
    (run_ConfigStored r) (run_Error r) (run_ManifestSHA256 r) (run_Deleted r) (run_PurgeAfter r)
    (run_DeleteReason r) (run_DeletedAt r) (run_ExpiresAt r) (run_StartedAt r) v
    (run_CreatedAt r) (run_Disks r).
Definition run_set_Error (v : string) (r : BackupRun) : BackupRun :=
  mkBackupRun (run_ID r) (run_JobRunID r) (run_JobID r) (run_ServerID r) (run_VMID r)
    (run_VMName r) (run_Type r) (run_Status r) (run_ParentRunID r) (run_ChainID r)
    (run_ChainIndex r) (run_StorageTargetID r) (run_RepoPath r) (run_EngineBackupID r)
    (run_FromCheckpointID r) (run_ToCheckpointID r) (run_SnapshotID r)
    (run_LegacyIncrementalMode r) (run_DiskCount r) (run_ReadBytes r) (run_StoredBytes r)
    (run_ConfigStored r) v (run_ManifestSHA256 r) (run_Deleted r) (run_PurgeAfter r)
    (run_DeleteReason r) (run_DeletedAt r) (run_ExpiresAt r) (run_StartedAt r) (run_EndedAt r)
    (run_CreatedAt r) (run_Disks r).
Definition run_set_Disks (v : list BackupDisk) (r : BackupRun) : BackupRun :=
  mkBackupRun (run_ID r) (run_JobRunID r) (run_JobID r) (run_ServerID r) (run_VMID r)
    (run_VMName r) (run_Type r) (run_Status r) (run_ParentRunID r) (run_ChainID r)
    (run_ChainIndex r) (run_StorageTargetID r) (run_RepoPath r) (run_EngineBackupID r)
    (run_FromCheckpointID r) (run_ToCheckpointID r) (run_SnapshotID r)
    (run_LegacyIncrementalMode r) (run_DiskCount r) (run_ReadBytes r) (run_StoredBytes r)
    (run_ConfigStored r) (run_Error r) (run_ManifestSHA256 r) (run_Deleted r) (run_PurgeAfter r)
    (run_DeleteReason r) (run_DeletedAt r) (run_ExpiresAt r) (run_StartedAt r) (run_EndedAt r)
    (run_CreatedAt r) v.

(** [EndedAt - StartedAt], 0 while the run is going. *)
Definition BackupRun_Duration (r : BackupRun) : Z :=
  match run_StartedAt r, run_EndedAt r with
  | Some s, Some e => e - s
  | _, _ => 0
  end.

(** * Physical copies *)
Inductive BackupCopyRole := CopyPrimary | CopyReplica | CopyRoleOther (name : string).

#[export] Instance BackupCopyRole_eq_dec : EqDecision BackupCopyRole.
Proof. solve_decision. Defined.

Inductive BackupCopyStatus :=
| CopyPending | CopyCopying | CopyVerifying | CopySucceeded | CopyFailed
| CopyCanceled | CopyLocked | CopyDeleted
| CopyStatusOther (name : string).

#[export] Instance BackupCopyStatus_eq_dec : EqDecision BackupCopyStatus.
Proof. solve_decision. Defined.

Record BackupCopy := mkBackupCopy {
  cp_ID : string;
  cp_RunID : string;
  cp_StorageTargetID : string;
  cp_Role : BackupCopyRole;
  cp_Required : bool;
  cp_Status : BackupCopyStatus;
  cp_RepoPath : string;
  cp_SourceCopyID : string;
  cp_ManifestSHA256 : string;
  cp_ObjectCount : Z;
  cp_CopiedObjects : Z;
  cp_TotalBytes : Z;
  cp_CopiedBytes : Z;
  cp_AttemptCount : Z;
  cp_LockedBy : string;
  cp_NextRetryAt : option Z;
  cp_LastError : string;
  cp_VerifiedAt : option Z;
  cp_LockedUntil : option Z;
  cp_StartedAt : option Z;
  cp_EndedAt : option Z;
  cp_CreatedAt : Z;
  cp_UpdatedAt : Z
}.

(** Assignments to the fields. *)
Definition cp_set_Required (v : bool) (p : BackupCopy) : BackupCopy :=
  mkBackupCopy (cp_ID p) (cp_RunID p) (cp_StorageTargetID p) (cp_Role p) v (cp_Status p)
    (cp_RepoPath p) (cp_SourceCopyID p) (cp_ManifestSHA256 p) (cp_ObjectCount p)
    (cp_CopiedObjects p) (cp_TotalBytes p) (cp_CopiedBytes p) (cp_AttemptCount p) (cp_LockedBy p)
    (cp_NextRetryAt p) (cp_LastError p) (cp_VerifiedAt p) (cp_LockedUntil p) (cp_StartedAt p)
    (cp_EndedAt p) (cp_CreatedAt p) (cp_UpdatedAt p).
Definition cp_set_Status (v : BackupCopyStatus) (p : BackupCopy) : BackupCopy :=
  mkBackupCopy (cp_ID p) (cp_RunID p) (cp_StorageTargetID p) (cp_Role p) (cp_Required p) v
    (cp_RepoPath p) (cp_SourceCopyID p) (cp_ManifestSHA256 p) (cp_ObjectCount p)
    (cp_CopiedObjects p) (cp_TotalBytes p) (cp_CopiedBytes p) (cp_AttemptCount p) (cp_LockedBy p)
    (cp_NextRetryAt p) (cp_LastError p) (cp_VerifiedAt p) (cp_LockedUntil p) (cp_StartedAt p)
    (cp_EndedAt p) (cp_CreatedAt p) (cp_UpdatedAt p).
Definition cp_set_SourceCopyID (v : string) (p : BackupCopy) : BackupCopy :=
  mkBackupCopy (cp_ID p) (cp_RunID p) (cp_StorageTargetID p) (cp_Role p) (cp_Required p)
    (cp_Status p) (cp_RepoPath p) v (cp_ManifestSHA256 p) (cp_ObjectCount p) (cp_CopiedObjects p)
    (cp_TotalBytes p) (cp_CopiedBytes p) (cp_AttemptCount p) (cp_LockedBy p) (cp_NextRetryAt p)
    (cp_LastError p) (cp_VerifiedAt p) (cp_LockedUntil p) (cp_StartedAt p) (cp_EndedAt p)
    (cp_CreatedAt p) (cp_UpdatedAt p).
Definition cp_set_AttemptCount (v : Z) (p : BackupCopy) : BackupCopy :=
  mkBackupCopy (cp_ID p) (cp_RunID p) (cp_StorageTargetID p) (cp_Role p) (cp_Required p)
    (cp_Status p) (cp_RepoPath p) (cp_SourceCopyID p) (cp_ManifestSHA256 p) (cp_ObjectCount p)
    (cp_CopiedObjects p) (cp_TotalBytes p) (cp_CopiedBytes p) v (cp_LockedBy p)
    (cp_NextRetryAt p) (cp_LastError p) (cp_VerifiedAt p) (cp_LockedUntil p) (cp_StartedAt p)
    (cp_EndedAt p) (cp_CreatedAt p) (cp_UpdatedAt p).
Definition cp_set_ObjectCount (v : Z) (p : BackupCopy) : BackupCopy :=
  mkBackupCopy (cp_ID p) (cp_RunID p) (cp_StorageTargetID p) (cp_Role p) (cp_Required p)
    (cp_Status p) (cp_RepoPath p) (cp_SourceCopyID p) (cp_ManifestSHA256 p) v
    (cp_CopiedObjects p) (cp_TotalBytes p) (cp_CopiedBytes p) (cp_AttemptCount p) (cp_LockedBy p)
    (cp_NextRetryAt p) (cp_LastError p) (cp_VerifiedAt p) (cp_LockedUntil p) (cp_StartedAt p)
    (cp_EndedAt p) (cp_CreatedAt p) (cp_UpdatedAt p).
Definition cp_set_CopiedObjects (v : Z) (p : BackupCopy) : BackupCopy :=
  mkBackupCopy (cp_ID p) (cp_RunID p) (cp_StorageTargetID p) (cp_Role p) (cp_Required p)
    (cp_Status p) (cp_RepoPath p) (cp_SourceCopyID p) (cp_ManifestSHA256 p) (cp_ObjectCount p) v
    (cp_TotalBytes p) (cp_CopiedBytes p) (cp_AttemptCount p) (cp_LockedBy p) (cp_NextRetryAt p)
    (cp_LastError p) (cp_VerifiedAt p) (cp_LockedUntil p) (cp_StartedAt p) (cp_EndedAt p)
    (cp_CreatedAt p) (cp_UpdatedAt p).
Definition cp_set_TotalBytes (v : Z) (p : BackupCopy) : BackupCopy :=
  mkBackupCopy (cp_ID p) (cp_RunID p) (cp_StorageTargetID p) (cp_Role p) (cp_Required p)
    (cp_Status p) (cp_RepoPath p) (cp_SourceCopyID p) (cp_ManifestSHA256 p) (cp_ObjectCount p)
    (cp_CopiedObjects p) v (cp_CopiedBytes p) (cp_AttemptCount p) (cp_LockedBy p)
    (cp_NextRetryAt p) (cp_LastError p) (cp_VerifiedAt p) (cp_LockedUntil p) (cp_StartedAt p)
    (cp_EndedAt p) (cp_CreatedAt p) (cp_UpdatedAt p).
Definition cp_set_CopiedBytes (v : Z) (p : BackupCopy) : BackupCopy :=
  mkBackupCopy (cp_ID p) (cp_RunID p) (cp_StorageTargetID p) (cp_Role p) (cp_Required p)
    (cp_Status p) (cp_RepoPath p) (cp_SourceCopyID p) (cp_ManifestSHA256 p) (cp_ObjectCount p)
    (cp_CopiedObjects p) (cp_TotalBytes p) v (cp_AttemptCount p) (cp_LockedBy p)
    (cp_NextRetryAt p) (cp_LastError p) (cp_VerifiedAt p) (cp_LockedUntil p) (cp_StartedAt p)
    (cp_EndedAt p) (cp_CreatedAt p) (cp_UpdatedAt p).
Definition cp_set_LockedBy (v : string) (p : BackupCopy) : BackupCopy :=
  mkBackupCopy (cp_ID p) (cp_RunID p) (cp_StorageTargetID p) (cp_Role p) (cp_Required p)
    (cp_Status p) (cp_RepoPath p) (cp_SourceCopyID p) (cp_ManifestSHA256 p) (cp_ObjectCount p)
    (cp_CopiedObjects p) (cp_TotalBytes p) (cp_CopiedBytes p) (cp_AttemptCount p) v
    (cp_NextRetryAt p) (cp_LastError p) (cp_VerifiedAt p) (cp_LockedUntil p) (cp_StartedAt p)
    (cp_EndedAt p) (cp_CreatedAt p) (cp_UpdatedAt p).
Definition cp_set_NextRetryAt (v : option Z) (p : BackupCopy) : BackupCopy :=
  mkBackupCopy (cp_ID p) (cp_RunID p) (cp_StorageTargetID p) (cp_Role p) (cp_Required p)
    (cp_Status p) (cp_RepoPath p) (cp_SourceCopyID p) (cp_ManifestSHA256 p) (cp_ObjectCount p)
    (cp_CopiedObjects p) (cp_TotalBytes p) (cp_CopiedBytes p) (cp_AttemptCount p) (cp_LockedBy p)
    v (cp_LastError p) (cp_VerifiedAt p) (cp_LockedUntil p) (cp_StartedAt p) (cp_EndedAt p)
    (cp_CreatedAt p) (cp_UpdatedAt p).
Definition cp_set_LastError (v : string) (p : BackupCopy) : BackupCopy :=
  mkBackupCopy (cp_ID p) (cp_RunID p) (cp_StorageTargetID p) (cp_Role p) (cp_Required p)
    (cp_Status p) (cp_RepoPath p) (cp_SourceCopyID p) (cp_ManifestSHA256 p) (cp_ObjectCount p)
    (cp_CopiedObjects p) (cp_TotalBytes p) (cp_CopiedBytes p) (cp_AttemptCount p) (cp_LockedBy p)
    (cp_NextRetryAt p) v (cp_VerifiedAt p) (cp_LockedUntil p) (cp_StartedAt p) (cp_EndedAt p)
    (cp_CreatedAt p) (cp_UpdatedAt p).
Definition cp_set_VerifiedAt (v : option Z) (p : BackupCopy) : BackupCopy :=
  mkBackupCopy (cp_ID p) (cp_RunID p) (cp_StorageTargetID p) (cp_Role p) (cp_Required p)
    (cp_Status p) (cp_RepoPath p) (cp_SourceCopyID p) (cp_ManifestSHA256 p) (cp_ObjectCount p)
    (cp_CopiedObjects p) (cp_TotalBytes p) (cp_CopiedBytes p) (cp_AttemptCount p) (cp_LockedBy p)
    (cp_NextRetryAt p) (cp_LastError p) v (cp_LockedUntil p) (cp_StartedAt p) (cp_EndedAt p)
    (cp_CreatedAt p) (cp_UpdatedAt p).
Definition cp_set_LockedUntil (v : option Z) (p : BackupCopy) : BackupCopy :=
  mkBackupCopy (cp_ID p) (cp_RunID p) (cp_StorageTargetID p) (cp_Role p) (cp_Required p)
    (cp_Status p) (cp_RepoPath p) (cp_SourceCopyID p) (cp_ManifestSHA256 p) (cp_ObjectCount p)
    (cp_CopiedObjects p) (cp_TotalBytes p) (cp_CopiedBytes p) (cp_AttemptCount p) (cp_LockedBy p)
    (cp_NextRetryAt p) (cp_LastError p) (cp_VerifiedAt p) v (cp_StartedAt p) (cp_EndedAt p)
    (cp_CreatedAt p) (cp_UpdatedAt p).
Definition cp_set_StartedAt (v : option Z) (p : BackupCopy) : BackupCopy :=
  mkBackupCopy (cp_ID p) (cp_RunID p) (cp_StorageTargetID p) (cp_Role p) (cp_Required p)
    (cp_Status p) (cp_RepoPath p) (cp_SourceCopyID p) (cp_ManifestSHA256 p) (cp_ObjectCount p)
    (cp_CopiedObjects p) (cp_TotalBytes p) (cp_CopiedBytes p) (cp_AttemptCount p) (cp_LockedBy p)
    (cp_NextRetryAt p) (cp_LastError p) (cp_VerifiedAt p) (cp_LockedUntil p) v (cp_EndedAt p)
    (cp_CreatedAt p) (cp_UpdatedAt p).
Definition cp_set_EndedAt (v : option Z) (p : BackupCopy) : BackupCopy :=
  mkBackupCopy (cp_ID p) (cp_RunID p) (cp_StorageTargetID p) (cp_Role p) (cp_Required p)
    (cp_Status p) (cp_RepoPath p) (cp_SourceCopyID p) (cp_ManifestSHA256 p) (cp_ObjectCount p)
    (cp_CopiedObjects p) (cp_TotalBytes p) (cp_CopiedBytes p) (cp_AttemptCount p) (cp_LockedBy p)
    (cp_NextRetryAt p) (cp_LastError p) (cp_VerifiedAt p) (cp_LockedUntil p) (cp_StartedAt p) v
    (cp_CreatedAt p) (cp_UpdatedAt p).
Definition cp_set_UpdatedAt (v : Z) (p : BackupCopy) : BackupCopy :=
  mkBackupCopy (cp_ID p) (cp_RunID p) (cp_StorageTargetID p) (cp_Role p) (cp_Required p)
    (cp_Status p) (cp_RepoPath p) (cp_SourceCopyID p) (cp_ManifestSHA256 p) (cp_ObjectCount p)
    (cp_CopiedObjects p) (cp_TotalBytes p) (cp_CopiedBytes p) (cp_AttemptCount p) (cp_LockedBy p)
    (cp_NextRetryAt p) (cp_LastError p) (cp_VerifiedAt p) (cp_LockedUntil p) (cp_StartedAt p)
    (cp_EndedAt p) (cp_CreatedAt p) v.

Definition Healthy (c : option BackupCopy) : bool :=
  match c with
  | None => false
  | Some c =>
    bool_decide (cp_Status c = CopySucceeded)
    || (bool_decide (cp_Status c = CopyLocked) && bool_decide (is_Some (cp_LockedUntil c)))
  end.

(** * Lemmas *)
Section ModelLemmas.
Lemma RetentionPolicy_Validate_ok r :
  RetentionPolicy_Validate r = Ok () ↔
  0 ≤ KeepLast r ∧ 0 ≤ KeepHourly r ∧ 0 ≤ KeepDaily r ∧ 0 ≤ KeepWeekly r
  ∧ 0 ≤ KeepMonthly r ∧ 0 ≤ KeepYearly r ∧ 0 ≤ MaxAge r.
Proof.
  unfold RetentionPolicy_Validate; cbn.
  repeat match goal with |- context [?x <? 0] => destruct (Z.ltb_spec x 0); cbn end;
    split; try discriminate; try done; lia.
Qed.
End ModelLemmas.

(** * Sample data for the witnesses of the components *)
Definition sample_run (id : string) (t : BackupType) (parent : string) (created : Z) : BackupRun :=
  {| run_ID := id; run_JobRunID := ""; run_JobID := "job"; run_ServerID := "srv"; run_VMID := "vm";
     run_VMName := "vm"; run_Type := t; run_Status := RunSucceeded;
     run_ParentRunID := parent; run_ChainID := "chain"; run_ChainIndex := 0;
     run_StorageTargetID := "tgt"; run_RepoPath := "path"; run_EngineBackupID := "";
     run_FromCheckpointID := ""; run_ToCheckpointID := ""; run_SnapshotID := ""; run_LegacyIncrementalMode := LegacyNone; run_DiskCount := 1; run_ReadBytes := 0;
     run_StoredBytes := 0; run_ConfigStored := false; run_Error := ""; run_ManifestSHA256 := "";
     run_Deleted := false; run_PurgeAfter := None;
     run_DeleteReason := ""; run_DeletedAt := None; run_ExpiresAt := None; run_StartedAt := None; run_EndedAt := None;
     run_CreatedAt := created; run_Disks := [] |}%string.
