(* ===== verification/Layout.v ===== *)
(** The names of objects in a repository ([internal/repo/layout.go]): how a name
    becomes one component of a path, the prefix of a run and the keys in it. *)

From S2P Require Import Prelude GoTime GoStr.

(** The tables of package [unicode] beyond ASCII. *)
Class Unicode := { IsLetter : Z → bool; IsDigit : Z → bool; ToLowerRune : Z → Z }.

Definition Root : string := "jhvirt".

(** The letters from а to я, and ё. *)
Definition translit : list (Z * string) := [
  (1072, "a"); (1073, "b"); (1074, "v"); (1075, "g"); (1076, "d"); (1077, "e"); (1105, "e");
  (1078, "zh"); (1079, "z"); (1080, "i"); (1081, "y"); (1082, "k"); (1083, "l"); (1084, "m");
  (1085, "n"); (1086, "o"); (1087, "p"); (1088, "r"); (1089, "s"); (1090, "t"); (1091, "u");
  (1092, "f"); (1093, "h"); (1094, "c"); (1095, "ch"); (1096, "sh"); (1097, "sch");
  (1098, ""); (1099, "y"); (1100, ""); (1101, "e"); (1102, "yu"); (1103, "ya")]%string.

Definition transliterate (r : Z) : option string :=
  snd <$> List.find (λ p, fst p =? r) translit.

(** [r < 128 && (unicode.IsLetter(r) || unicode.IsDigit(r))]. *)
Definition ascii_alnum (r : Z) : bool :=
  in_range 48 57 r || in_range 65 90 r || in_range 97 122 r.

(** ['-'], ['_'] and ['.']. *)
Definition joiner (r : Z) : bool := (r =? 45) || (r =? 95) || (r =? 46).

Section Segment.
Context `{Unicode}.

(** The loop over the runes: [written] is [b.Len() > 0]. *)
Fixpoint sanitize (rs : list Z) (written lastDash : bool) : string :=
  match rs with
  | [] => ""
  | r :: rs =>
    if ascii_alnum r then String (lower (chr r)) (sanitize rs true false)
    else if joiner r then
      if lastDash then sanitize rs written false else String (chr r) (sanitize rs true false)
    else if IsLetter r || IsDigit r then
      match transliterate (ToLowerRune r) with
      | Some tr => tr +:+ sanitize rs (written || negb (bool_decide (tr = ""%string))) false
      | None => if lastDash then sanitize rs written true
                else String (chr 45) (sanitize rs true true)
      end
    else if negb lastDash && written then String (chr 45) (sanitize rs true true)
    else sanitize rs written lastDash
  end.

(** [strings.Trim(_, "-.")]. *)
Definition edge (c : ascii) : bool := (byte_of c =? 45) || (byte_of c =? 46).

Definition Segment (s : string) : string :=
  if bool_decide (s = ""%string) then "unnamed" else
  let out := Trim edge (sanitize (runes s) false false) in
  if bool_decide (out = ""%string) then "unnamed" else
  if 96 <? Z.of_nat (String.length out) then Trim edge (String.substring 0 96 out) else out.

Definition vmSegment (vmID vmName : string) : string :=
  let short := if 8 <? Z.of_nat (String.length vmID) then String.substring 0 8 vmID else vmID in
  if bool_decide (vmName = ""%string) then Segment vmID
  else Segment vmName +:+ "-" +:+ Segment short.

Definition ServerPrefix (serverName : string) : string :=
  Root +:+ "/" +:+ Segment serverName +:+ "/".

Definition VMPrefix (serverName vmID vmName : string) : string :=
  Root +:+ "/" +:+ Segment serverName +:+ "/" +:+ vmSegment vmID vmName +:+ "/".

Definition RunPrefix (serverName vmID vmName : string) (at_ : Z) (runID : string) : string :=
  let '(y, m, d) := civil_from_days (days_of at_) in
  Root +:+ "/" +:+ Segment serverName +:+ "/" +:+ vmSegment vmID vmName +:+ "/"
    +:+ pad 4 y +:+ "/" +:+ pad 2 m +:+ "/" +:+ pad 2 d +:+ "/" +:+ Segment runID +:+ "/".

(** The document of the run, written last. *)
Definition RunManifestKey (runPrefix : string) : string := runPrefix +:+ "run.json".
Definition VMConfigKey (runPrefix : string) : string := runPrefix +:+ "vm-config.json".
Definition LibvirtConfigKey (runPrefix : string) : string := runPrefix +:+ "vm-config.xml".

Definition DiskManifestKey (runPrefix : string) (index : Z) (diskID : string) : string :=
  runPrefix +:+ "disk-" +:+ pad 2 index +:+ "-" +:+ Segment diskID +:+ ".manifest".
Definition DiskDataKey (runPrefix : string) (index : Z) (diskID : string) : string :=
  runPrefix +:+ "disk-" +:+ pad 2 index +:+ "-" +:+ Segment diskID +:+ ".data".
Definition ArtifactManifestKey (runPrefix : string) (index : Z) (diskID kind : string) : string :=
  runPrefix +:+ "artifact-" +:+ pad 2 index +:+ "-" +:+ Segment diskID +:+ "." +:+ Segment kind
    +:+ ".manifest".
Definition ArtifactDataKey (runPrefix : string) (index : Z) (diskID kind : string) : string :=
  runPrefix +:+ "artifact-" +:+ pad 2 index +:+ "-" +:+ Segment diskID +:+ "." +:+ Segment kind
    +:+ ".data".
Definition OVAKey (runPrefix vmName : string) : string := runPrefix +:+ Segment vmName +:+ ".ova".
End Segment.

(** * Characters of a string *)
Fixpoint all_chars (P : ascii → bool) (s : string) : bool :=
  match s with
  | EmptyString => true
  | String c s => P c && all_chars P s
  end.

Definition first_is (P : ascii → bool) (s : string) : bool :=
  match s with EmptyString => false | String c _ => P c end.

(** What [Segment] promises: one component of a path on every backend. *)
Definition safe_char (c : ascii) : bool :=
  let n := byte_of c in in_range 97 122 n || in_range 48 57 n || joiner n.

Record safe_segment (s : string) : Prop := {
  ss_some : s ≠ ""%string;
  ss_short : (String.length s ≤ 96)%nat;
  ss_chars : all_chars safe_char s = true;
  ss_first : first_is edge s = false;
  ss_last : first_is edge (rev_string s "") = false
}.

Section Strings.
Lemma app_String c s t : (String c s +:+ t)%string = String c (s +:+ t).
Proof. done. Qed.

Lemma app_Empty t : ("" +:+ t)%string = t.
Proof. done. Qed.

Lemma app_right s : (s +:+ "")%string = s.
Proof. induction s as [|c s IH]; [done|]. by rewrite app_String, IH. Qed.

Lemma app_assoc_string s t u : ((s +:+ t) +:+ u)%string = (s +:+ (t +:+ u))%string.
Proof. induction s as [|c s IH]; [done|]. by rewrite !app_String, IH. Qed.

Lemma all_chars_app P s t : all_chars P (s +:+ t) = all_chars P s && all_chars P t.
Proof.
  induction s as [|c s IH]; [done|]. rewrite app_String. cbn. rewrite IH. apply andb_assoc.
Qed.

Lemma rev_string_app s : ∀ acc, rev_string s acc = (rev_string s "" +:+ acc)%string.
Proof.
  induction s as [|c s IH]; intros acc; cbn; [done|].
  rewrite IH, (IH (String c "")), app_assoc_string. done.
Qed.

Lemma rev_string_snoc c s : rev_string (String c s) "" = (rev_string s "" +:+ String c "")%string.
Proof. cbn. apply rev_string_app. Qed.

Lemma rev_string_rev s : ∀ acc, rev_string (rev_string s acc) "" = (rev_string acc "" +:+ s)%string.
Proof.
  induction s as [|c s IH]; intros acc; cbn; [by rewrite app_right|].
  rewrite IH, rev_string_snoc, app_assoc_string. done.
Qed.

Lemma rev_string_concat s t :
  rev_string (s +:+ t) "" = (rev_string t "" +:+ rev_string s "")%string.
Proof.
  induction s as [|c s IH]; [by rewrite app_Empty, app_right|].
  rewrite app_String, !rev_string_snoc, IH, app_assoc_string. done.
Qed.

Lemma rev_string_involutive s : rev_string (rev_string s "") "" = s.
Proof. rewrite rev_string_rev. done. Qed.

Lemma rev_string_length s : ∀ acc,
  String.length (rev_string s acc) = (String.length s + String.length acc)%nat.
Proof. induction s as [|c s IH]; intros acc; cbn; [done|]. rewrite IH. cbn. lia. Qed.

Lemma all_chars_rev P s : ∀ acc, all_chars P (rev_string s acc) = all_chars P s && all_chars P acc.
Proof.
  induction s as [|c s IH]; intros acc; cbn; [done|]. rewrite IH. cbn.
  by destruct (P c), (all_chars P s).
Qed.

Lemma TrimLeft_cases cut s :
  (String.length (TrimLeft cut s) ≤ String.length s)%nat
  ∧ first_is cut (TrimLeft cut s) = false
  ∧ ∃ pre, s = (pre +:+ TrimLeft cut s)%string ∧ all_chars cut pre = true.
Proof.
  induction s as [|c s (IHl & IHf & pre & IHp & IHc)]; cbn.
  { split_and!; [lia|done|]. by exists ""%string. }
  destruct (cut c) eqn:Hc; cbn.
  - split_and!; [lia|done|]. exists (String c pre). rewrite app_String. cbn. by rewrite <-IHp, Hc.
  - split_and!; [lia|done|]. by exists ""%string.
Qed.

Lemma TrimLeft_chars P cut s : all_chars P s = true → all_chars P (TrimLeft cut s) = true.
Proof.
  destruct (TrimLeft_cases cut s) as (_ & _ & pre & Hs & _). intros Hp.
  rewrite Hs, all_chars_app in Hp. by apply andb_true_iff in Hp as [_ ?].
Qed.

Lemma TrimLeft_id cut s : first_is cut s = false → TrimLeft cut s = s.
Proof. destruct s as [|c s]; cbn; [done|]. by intros ->. Qed.

Lemma Trim_first cut s : first_is cut (Trim cut s) = false.
Proof.
  unfold Trim. set (t := TrimLeft cut s).
  assert (first_is cut t = false) as Ht by apply TrimLeft_cases.
  destruct (TrimLeft_cases cut (rev_string t "")) as (_ & _ & pre & Hp & _).
  set (u := TrimLeft cut (rev_string t "")) in *.
  assert (t = (rev_string u "" +:+ rev_string pre "")%string) as Ht'.
  { by rewrite <-rev_string_concat, <-Hp, rev_string_involutive. }
  rewrite Ht' in Ht. destruct (rev_string u ""); [done|]. by rewrite app_String in Ht.
Qed.

Lemma Trim_last cut s : first_is cut (rev_string (Trim cut s) "") = false.
Proof. unfold Trim. rewrite rev_string_involutive. apply TrimLeft_cases. Qed.

Lemma Trim_chars P cut s : all_chars P s = true → all_chars P (Trim cut s) = true.
Proof.
  intros Hp. unfold Trim. rewrite all_chars_rev. cbn. rewrite andb_true_r.
  apply TrimLeft_chars. rewrite all_chars_rev. cbn. rewrite andb_true_r. by apply TrimLeft_chars.
Qed.

Lemma Trim_length cut s : (String.length (Trim cut s) ≤ String.length s)%nat.
Proof.
  unfold Trim. rewrite rev_string_length. cbn.
  destruct (TrimLeft_cases cut (rev_string (TrimLeft cut s) "")) as [H1 _].
  destruct (TrimLeft_cases cut s) as [H2 _]. rewrite rev_string_length in H1. cbn in H1. lia.
Qed.

Lemma Trim_id cut s :
  first_is cut s = false → first_is cut (rev_string s "") = false → Trim cut s = s.
Proof.
  intros Hf Hl. unfold Trim. rewrite (TrimLeft_id cut s) by done. rewrite TrimLeft_id by done.
  apply rev_string_involutive.
Qed.

(** What is not in the set survives the trimming. *)
Lemma Trim_some cut s : all_chars cut s = false → Trim cut s ≠ ""%string.
Proof.
  intros Hs Hempty. unfold Trim in Hempty. set (t := TrimLeft cut s) in *.
  destruct (TrimLeft_cases cut s) as (_ & _ & pre & Hp & Hpre). fold t in Hp.
  destruct (TrimLeft_cases cut (rev_string t "")) as (_ & _ & pre' & Hp' & Hpre').
  set (u := TrimLeft cut (rev_string t "")) in *.
  assert (u = ""%string) as Hu by (rewrite <-(rev_string_involutive u), Hempty; done).
  rewrite Hu, app_right in Hp'.
  assert (all_chars cut t = true) as Ht.
  { rewrite <-(andb_true_r (all_chars cut t)). change true with (all_chars cut "") at 1.
    rewrite <-all_chars_rev, Hp'. done. }
  rewrite Hp, all_chars_app, Hpre, Ht in Hs. done.
Qed.

Lemma first_not_all P s : s ≠ ""%string → first_is P s = false → all_chars P s = false.
Proof. destruct s as [|c s]; cbn; [done|]. by intros _ ->. Qed.

Lemma substring_split n s : ∃ rest,
  s = (String.substring 0 n s +:+ rest)%string ∧ (String.length (String.substring 0 n s) ≤ n)%nat.
Proof.
  revert n. induction s as [|c s IH]; intros [|n]; cbn.
  - by exists ""%string.
  - exists ""%string. split; [done|cbn; lia].
  - by exists (String c s).
  - destruct (IH n) as (rest & Hs & Hl). exists rest. rewrite app_String, <-Hs. split; [done|lia].
Qed.
End Strings.

(** * One component of a path *)
Section Safe.
Context `{Unicode}.

Lemma byte_of_chr n : 0 ≤ n < 256 → byte_of (chr n) = n.
Proof.
  intros Hn. unfold byte_of, chr. rewrite N_ascii_embedding; [|lia]. rewrite Z2N.id; lia.
Qed.

Lemma lower_safe r : ascii_alnum r = true → safe_char (lower (chr r)) = true.
Proof.
  unfold ascii_alnum, safe_char, lower, in_range. intros Hr.
  assert (48 ≤ r ≤ 122) by lia. rewrite (byte_of_chr r) by lia.
  destruct ((65 <=? r) && (r <=? 90)) eqn:Hup.
  - change (ascii_of_N (Z.to_N (r + 32))) with (chr (r + 32)). rewrite byte_of_chr by lia. lia.
  - rewrite byte_of_chr by lia. lia.
Qed.

Lemma joiner_safe r : joiner r = true → safe_char (chr r) = true.
Proof.
  unfold joiner, safe_char. intros Hr. rewrite byte_of_chr by lia. unfold joiner. rewrite Hr.
  apply orb_true_r.
Qed.

Lemma transliterate_safe r tr : transliterate r = Some tr → all_chars safe_char tr = true.
Proof.
  unfold transliterate. intros (p & Hp & ->)%fmap_Some. apply find_some in Hp as [Hp _].
  assert (forallb (λ q, all_chars safe_char (snd q)) translit = true) as Hall by by vm_compute.
  exact (proj1 (forallb_forall _ _) Hall p Hp).
Qed.

Lemma sanitize_safe rs : ∀ w d, all_chars safe_char (sanitize rs w d) = true.
Proof.
  induction rs as [|r rs IH]; intros w d; cbn [sanitize]; [done|].
  destruct (ascii_alnum r) eqn:Ha; [cbn; by rewrite lower_safe, IH|].
  destruct (joiner r) eqn:Hj; [destruct d; [apply IH|cbn; by rewrite joiner_safe, IH]|].
  destruct (IsLetter r || IsDigit r).
  - destruct (transliterate _) as [tr|] eqn:Htr; [by rewrite all_chars_app, IH, (transliterate_safe _ _ Htr)|].
    destruct d; [apply IH|cbn; by rewrite IH].
  - destruct (negb d && w); [cbn; by rewrite IH|apply IH].
Qed.

Lemma substring_chars P n s : all_chars P s = true → all_chars P (String.substring 0 n s) = true.
Proof.
  destruct (substring_split n s) as (rest & Hs & _). intros Hp. rewrite Hs, all_chars_app in Hp.
  by apply andb_true_iff in Hp as [? _].
Qed.

Lemma substring_first P n s :
  (0 < n)%nat → first_is P (String.substring 0 n s) = first_is P s.
Proof. intros Hn. destruct n; [lia|]. by destruct s. Qed.

Lemma trimmed_safe s :
  all_chars safe_char s = true → Trim edge s ≠ ""%string → (String.length s ≤ 96)%nat →
  safe_segment (Trim edge s).
Proof.
  intros Hs Hne Hl. constructor; [done| |by apply Trim_chars|apply Trim_first|apply Trim_last].
  pose proof (Trim_length edge s). lia.
Qed.

Lemma Segment_safe s : safe_segment (Segment s).
Proof.
  assert (safe_segment "unnamed") as Hun by (constructor; [done|cbn; lia|done..]).
  unfold Segment. case_bool_decide; [done|]. set (raw := sanitize _ _ _).
  assert (all_chars safe_char raw = true) as Hraw by apply sanitize_safe.
  case_bool_decide as Hout; [done|].
  destruct (Z.ltb_spec 96 (Z.of_nat (String.length (Trim edge raw)))) as [Hl|Hl].
  - destruct (substring_split 96 (Trim edge raw)) as (rest & Hsub & Hlen).
    apply trimmed_safe; [by apply substring_chars, Trim_chars| |done].
    apply Trim_some, first_not_all.
    + intros Hempty. destruct (Trim edge raw); [done|]. discriminate Hempty.
    + rewrite substring_first by lia. apply Trim_first.
  - constructor; [done|lia|by apply Trim_chars|apply Trim_first|apply Trim_last].
Qed.

Lemma chr_byte_of c : chr (byte_of c) = c.
Proof. unfold chr, byte_of. by rewrite N2Z.id, ascii_N_embedding. Qed.

Lemma safe_ascii c : safe_char c = true → 0 ≤ byte_of c < 128.
Proof. unfold safe_char, in_range, joiner. intros. lia. Qed.

Lemma rune_ascii b0 rest :
  0 ≤ b0 < 128 → rune_width (b0 :: rest) = 1%nat ∧ rune_at (b0 :: rest) = b0.
Proof.
  intros Hb.
  assert (rune_width (b0 :: rest) = 1%nat) as Hw.
  { unfold rune_width, in_range.
    rewrite (proj2 (Z.leb_gt 194 b0)), (proj2 (Z.leb_gt 224 b0)), (proj2 (Z.leb_gt 240 b0)) by lia.
    by destruct rest as [|b1 [|b2 [|b3 rest]]]. }
  split; [done|]. unfold rune_at. rewrite Hw. destruct (Z.ltb_spec b0 128); [done|lia].
Qed.

Lemma runes_ascii s : all_chars safe_char s = true → runes s = bytes_of s.
Proof.
  unfold runes. induction s as [|c s IH]; cbn [all_chars]; [done|].
  intros [Hc Hs]%andb_true_iff. apply safe_ascii in Hc.
  destruct (rune_ascii (byte_of c) (bytes_of s) Hc) as [Hw Hr].
  cbn [String.length bytes_of decode_runes]. rewrite Hr, Hw. cbn [drop]. rewrite drop_0, IH; done.
Qed.

Lemma sanitize_id s : ∀ w, all_chars safe_char s = true → sanitize (bytes_of s) w false = s.
Proof.
  induction s as [|c s IH]; intros w; cbn [all_chars bytes_of sanitize]; [done|].
  intros [Hc Hs]%andb_true_iff. unfold safe_char in Hc.
  destruct (ascii_alnum (byte_of c)) eqn:Ha.
  - rewrite IH, chr_byte_of by done. f_equal. unfold lower.
    destruct ((65 <=? byte_of c) && (byte_of c <=? 90)) eqn:Hup; [|done].
    unfold in_range, joiner in Hc. lia.
  - assert (joiner (byte_of c) = true) as ->.
    { unfold ascii_alnum, in_range in *. destruct (joiner _); [done|]. lia. }
    by rewrite IH, chr_byte_of.
Qed.

(** A safe component is kept as it is: identifiers of runs and disks, which are
    UUIDs in lower case, appear in the paths unchanged. *)
Lemma Segment_id s : safe_segment s → Segment s = s.
Proof.
  intros [Hne Hl Hc Hf Hla]. unfold Segment. rewrite bool_decide_false by done.
  rewrite runes_ascii, sanitize_id, Trim_id by done. rewrite bool_decide_false by done.
  destruct (Z.ltb_spec 96 (Z.of_nat (String.length s))); [lia|done].
Qed.

(** The component of a machine: one or two of these, with a hyphen between. *)
Lemma vmSegment_safe id name : let c := vmSegment id name in
  c ≠ ""%string ∧ (String.length c ≤ 193)%nat ∧ all_chars safe_char c = true
  ∧ first_is edge c = false ∧ first_is edge (rev_string c "") = false.
Proof.
  cbv zeta. unfold vmSegment. case_bool_decide.
  - destruct (Segment_safe id) as [? Hlen ? ? ?]. split_and!; [done|lia|done..].
  - generalize (if 8 <? Z.of_nat (String.length id) then String.substring 0 8 id else id). intros short.
    destruct (Segment_safe name) as [Hs Hl Hc Hf _], (Segment_safe short) as [Hs' Hl' Hc' _ Hf'].
    destruct (Segment name) as [|c t]; [done|]. clear Hs.
    destruct (rev_string (Segment short) "") as [|c' t'] eqn:Hr.
    { apply (f_equal String.length) in Hr. rewrite rev_string_length in Hr. cbn in Hr.
      destruct (Segment short); [done|]. cbn in Hr. lia. }
    split_and!; [done| | |done|].
    + rewrite !length_app_string. cbn in Hl |- *. lia.
    + rewrite !all_chars_app, Hc, Hc'. done.
    + rewrite !rev_string_concat, Hr. done.
Qed.

(** C37. The component of a path that [Segment] makes from a name is non-empty,
    at most 96 bytes long, made of lower-case letters, digits, hyphens, underscores
    and dots, and neither starts nor ends with a hyphen or a dot, so it contains no
    separator and is never [.] or [..]; and a component of this form is its own:
    naming it again changes nothing. The component of a machine, made of two of
    these, has the same letters and the same ends and is at most 193 bytes long (it
    may be longer than 96, and then naming it again would cut it). *)
Theorem segment_canonical s :
  safe_segment (Segment s) ∧ (∀ t, safe_segment t → Segment t = t)
  ∧ Segment (Segment s) = Segment s
  ∧ ∀ id name, let c := vmSegment id name in
      c ≠ ""%string ∧ (String.length c ≤ 193)%nat ∧ all_chars safe_char c = true
      ∧ first_is edge c = false ∧ first_is edge (rev_string c "") = false.
Proof.
  split; [apply Segment_safe|]. split; [apply Segment_id|]. split; [apply Segment_id, Segment_safe|].
  apply vmSegment_safe.
Qed.
End Safe.

(** * Where a run's objects are *)
Definition slash : ascii := "/".
Definition without (sep c : ascii) : bool := negb (Ascii.eqb c sep).
Abbreviation no_slash := (without slash).

Section Paths.
Context `{Unicode}.

Lemma all_chars_impl (P Q : ascii → bool) s :
  (∀ c, P c = true → Q c = true) → all_chars P s = true → all_chars Q s = true.
Proof.
  intros HPQ. induction s as [|c s IH]; cbn; [done|].
  intros [Hc Hs]%andb_true_iff. by rewrite (HPQ c Hc), IH.
Qed.

Lemma safe_no_slash s : all_chars safe_char s = true → all_chars no_slash s = true.
Proof.
  apply all_chars_impl. intros c Hc. unfold without. apply negb_true_iff.
  destruct (Ascii.eqb_spec c slash) as [->|]; [|done]. by vm_compute in Hc.
Qed.

Lemma segment_no_slash s : all_chars no_slash (Segment s) = true.
Proof. apply safe_no_slash. apply Segment_safe. Qed.

Lemma vmSegment_no_slash id name : all_chars no_slash (vmSegment id name) = true.
Proof.
  unfold vmSegment. case_bool_decide; [apply segment_no_slash|].
  by rewrite !all_chars_app, !segment_no_slash.
Qed.

Lemma prefix_app_l s t : String.prefix s (s +:+ t) = true.
Proof.
  induction s as [|c s IH]; [by destruct t|]. rewrite app_String. cbn.
  by destruct (ascii_dec c c).
Qed.

Lemma prefix_split s k : String.prefix s k = true → ∃ t, k = (s +:+ t)%string.
Proof.
  revert k. induction s as [|c s IH]; intros k; [by exists k|]. destruct k as [|d k]; cbn; [done|].
  destruct (ascii_dec c d) as [<-|]; [|done]. intros (t & ->)%IH. by exists t.
Qed.

(** The component before a separator is determined by the path. *)
Lemma component_inj sep x y s t :
  all_chars (without sep) x = true → all_chars (without sep) y = true →
  (x +:+ String sep s = y +:+ String sep t)%string → x = y ∧ s = t.
Proof.
  revert y. induction x as [|c x IH]; intros [|d y]; rewrite ?app_String, ?app_Empty;
    cbn [all_chars]; intros Hx Hy Heq.
  - by injection Heq as ->.
  - injection Heq as <- _. apply andb_true_iff in Hy as [Hy _]. unfold without in Hy.
    by rewrite Ascii.eqb_refl in Hy.
  - injection Heq as -> _. apply andb_true_iff in Hx as [Hx _]. unfold without in Hx.
    by rewrite Ascii.eqb_refl in Hx.
  - apply andb_true_iff in Hx as [_ Hx], Hy as [_ Hy]. injection Heq as <- Heq.
    by destruct (IH y Hx Hy Heq) as [-> ->].
Qed.

(** *** Decimal numbers *)
Definition is_digit (c : ascii) : bool := in_range 48 57 (byte_of c).

Fixpoint decimal_value (s : string) : Z :=
  match s with
  | EmptyString => 0
  | String c s => (byte_of c - 48) * 10 ^ Z.of_nat (String.length s) + decimal_value s
  end.

Lemma digit_char x : (x < 10)%N → byte_of (pretty_N_char x) = 48 + Z.of_N x.
Proof.
  intros Hx. assert (x = 0 ∨ x = 1 ∨ x = 2 ∨ x = 3 ∨ x = 4 ∨ x = 5 ∨ x = 6 ∨ x = 7 ∨ x = 8 ∨ x = 9)%N
    as Hc by lia.
  by repeat (destruct Hc as [->|Hc]); subst.
Qed.

Lemma pretty_N_go_decimal x : ∀ s, all_chars is_digit s = true →
  all_chars is_digit (pretty_N_go x s) = true
  ∧ decimal_value (pretty_N_go x s) = Z.of_N x * 10 ^ Z.of_nat (String.length s) + decimal_value s.
Proof.
  induction x as [x IH] using (well_founded_ind N.lt_wf_0). intros s Hs.
  destruct (decide (x = 0)%N) as [->|Hx]; [rewrite pretty_N_go_0; split; [done|lia]|].
  rewrite pretty_N_go_step by lia.
  assert (x `mod` 10 < 10)%N as Hm by (apply N.mod_lt; lia).
  pose proof (digit_char _ Hm) as Hd.
  destruct (IH (x `div` 10)%N) with (s := String (pretty_N_char (x `mod` 10)) s) as [Hc Hv].
  - apply N.div_lt; lia.
  - cbn [all_chars]. rewrite Hs, andb_true_r. unfold is_digit, in_range. rewrite Hd.
    clear -Hm. generalize dependent (x `mod` 10)%N. intros r Hr. lia.
  - split; [done|]. rewrite Hv. cbn [decimal_value String.length]. rewrite Hd.
    rewrite Nat2Z.inj_succ, Z.pow_succ_r by lia.
    assert (Z.of_N x = 10 * Z.of_N (x `div` 10) + Z.of_N (x `mod` 10)) as Hdm.
    { rewrite N2Z.inj_div, N2Z.inj_mod. apply Z.div_mod. lia. }
    rewrite Hdm. ring.
Qed.

Lemma pretty_decimal z : 0 ≤ z →
  all_chars is_digit (pretty z) = true ∧ decimal_value (pretty z) = z.
Proof.
  intros Hz. assert (pretty z = pretty (Z.to_N z)) as ->.
  { destruct z; [done| |lia]. done. }
  unfold pretty, pretty_N. destruct (decide _) as [Hn|Hn].
  - split; [done|]. by replace z with 0 by lia.
  - destruct (pretty_N_go_decimal (Z.to_N z) ""%string eq_refl) as [Hc Hv].
    rewrite Hv. split; [done|]. change (10 ^ Z.of_nat (String.length "")) with 1.
    cbn [decimal_value]. lia.
Qed.

Lemma zeros_decimal n s :
  all_chars is_digit s = true →
  all_chars is_digit (String.concat "" (replicate n "0"%string) +:+ s) = true
  ∧ decimal_value (String.concat "" (replicate n "0"%string) +:+ s) = decimal_value s.
Proof.
  intros Hs. induction n as [|n IH]; [done|].
  assert (String.concat "" (replicate (S n) "0"%string)
    = String "0" (String.concat "" (replicate n "0"%string))) as -> by by destruct n.
  rewrite app_String. cbn [all_chars decimal_value]. destruct IH as [-> ->].
  split; [done|]. change (byte_of "0"%char) with 48. lia.
Qed.

Lemma pad_decimal w z : 0 ≤ z →
  all_chars is_digit (pad w z) = true ∧ decimal_value (pad w z) = z.
Proof.
  intros Hz. unfold pad. destruct (Z.ltb_spec z 0); [lia|]. rewrite Z.abs_eq by lia.
  rewrite app_Empty. destruct (pretty_decimal z Hz) as [Hc Hv].
  rewrite <-Hv at 5. by apply zeros_decimal.
Qed.

Lemma pad_inj w a b : 0 ≤ a → 0 ≤ b → pad w a = pad w b → a = b.
Proof.
  intros Ha Hb Heq. destruct (pad_decimal w a Ha) as [_ <-], (pad_decimal w b Hb) as [_ <-].
  by rewrite Heq.
Qed.

Lemma pad_no_slash w z : all_chars no_slash (pad w z) = true.
Proof.
  assert (∀ s, all_chars is_digit s = true → all_chars no_slash s = true) as Hdig.
  { intros s. apply all_chars_impl. intros c Hc. unfold without. apply negb_true_iff.
    destruct (Ascii.eqb_spec c slash) as [->|]; [|done]. by vm_compute in Hc. }
  unfold pad. rewrite !all_chars_app. apply andb_true_iff. split; [by destruct (_ <? _)|].
  destruct (pretty_decimal (Z.abs z)) as [Hc _]; [lia|].
  destruct (zeros_decimal (w - String.length (pretty (Z.abs z))) _ Hc) as [Hz _].
  rewrite all_chars_app in Hz. apply andb_true_iff in Hz as [Hz _].
  by rewrite (Hdig _ Hz), (Hdig _ Hc).
Qed.

(** *** Prefixes of runs *)
Lemma RunPrefix_inj srv vm name t run srv' vm' name' t' run' k :
  String.prefix (RunPrefix srv vm name t run) k = true →
  String.prefix (RunPrefix srv' vm' name' t' run') k = true →
  Segment srv = Segment srv' ∧ vmSegment vm name = vmSegment vm' name' ∧ Segment run = Segment run'.
Proof.
  intros (s & Hs)%prefix_split (s' & Hs')%prefix_split. rewrite Hs in Hs'. clear Hs k. revert Hs'.
  unfold RunPrefix. destruct (civil_from_days _) as [[y m] d], (civil_from_days _) as [[y' m'] d'].
  rewrite !app_assoc_string. unfold Root. intros Heq.
  assert (∀ x y s t, all_chars no_slash x = true → all_chars no_slash y = true →
    (x +:+ "/" +:+ s = y +:+ "/" +:+ t)%string → x = y ∧ s = t) as Hinj.
  { intros x0 y0 s0 t0. rewrite !app_String, !app_Empty. apply (component_inj slash). }
  apply Hinj in Heq as [_ Heq]; [|done..].
  apply Hinj in Heq as [Hsrv Heq]; [|apply segment_no_slash..].
  apply Hinj in Heq as [Hvm Heq]; [|apply vmSegment_no_slash..].
  apply Hinj in Heq as [_ Heq]; [|apply pad_no_slash..].
  apply Hinj in Heq as [_ Heq]; [|apply pad_no_slash..].
  apply Hinj in Heq as [_ Heq]; [|apply pad_no_slash..].
  by apply Hinj in Heq as [Hrun _]; [|apply segment_no_slash..].
Qed.

(** *** Keys of one run *)
Lemma app_inj_l p s t : (p +:+ s = p +:+ t)%string → s = t.
Proof. induction p as [|c p IH]; [done|]. rewrite !app_String. intros [=]. by apply IH. Qed.

Definition last_char (s : string) : option ascii :=
  match rev_string s "" with String c _ => Some c | EmptyString => None end.

Lemma last_char_app s c t : last_char (s +:+ String c t) = last_char (String c t).
Proof.
  unfold last_char. rewrite rev_string_concat. destruct (rev_string (String c t) "") eqn:E.
  - rewrite rev_string_snoc in E. by destruct (rev_string t "").
  - by rewrite app_String.
Qed.

Lemma pad_no_dash w z : 0 ≤ z → all_chars (without "-") (pad w z) = true.
Proof.
  intros Hz. destruct (pad_decimal w z Hz) as [Hd _]. revert Hd. apply all_chars_impl.
  intros c Hc. unfold without. apply negb_true_iff.
  destruct (Ascii.eqb_spec c "-") as [->|]; [|done]. by vm_compute in Hc.
Qed.

(** Two keys of disks of one run with the same ending have the same index. *)
Lemma disk_key_index prefix i j s t :
  0 ≤ i → 0 ≤ j →
  (prefix +:+ "disk-" +:+ pad 2 i +:+ "-" +:+ s = prefix +:+ "disk-" +:+ pad 2 j +:+ "-" +:+ t)%string →
  i = j.
Proof.
  intros Hi Hj Heq. apply app_inj_l, app_inj_l in Heq. rewrite !app_String, !app_Empty in Heq.
  apply component_inj in Heq as [Hp _]; [|by apply pad_no_dash..]. by apply (pad_inj 2).
Qed.

(** Runs with different identifiers never share an object: no key lies
    under the prefixes of both, whatever their servers, machines and dates, so
    deleting the prefix of one run leaves every object of the others. Within a
    run the keys of disks with different indexes differ, and no manifest is a
    data object or the document of the run. *)
Theorem objects_apart srv vm name t run srv' vm' name' t' run' :
  (safe_segment run → safe_segment run' → run ≠ run' →
   ∀ k, String.prefix (RunPrefix srv vm name t run) k = true →
     String.prefix (RunPrefix srv' vm' name' t' run') k = false)
  ∧ ∀ prefix i j d e, 0 ≤ i → 0 ≤ j →
    (i ≠ j → DiskDataKey prefix i d ≠ DiskDataKey prefix j e
       ∧ DiskManifestKey prefix i d ≠ DiskManifestKey prefix j e)
    ∧ DiskManifestKey prefix i d ≠ DiskDataKey prefix j e
    ∧ DiskManifestKey prefix i d ≠ RunManifestKey prefix
    ∧ DiskDataKey prefix i d ≠ RunManifestKey prefix.
Proof.
  split.
  - intros Hs Hs' Hne k Hk. destruct (String.prefix (RunPrefix srv' _ _ _ _) k) eqn:Hk'; [|done].
    destruct (RunPrefix_inj _ _ _ _ _ _ _ _ _ _ _ Hk Hk') as (_ & _ & Heq).
    rewrite !Segment_id in Heq by done. done.
  - intros prefix i j d e Hi Hj. split_and!.
    + intros Hne. split; intros Heq; apply Hne; eapply disk_key_index; done.
    + intros Heq%(f_equal last_char). unfold DiskManifestKey, DiskDataKey in Heq.
      rewrite <-!app_assoc_string, !last_char_app in Heq. done.
    + intros Heq. unfold DiskManifestKey, RunManifestKey in Heq. by apply app_inj_l in Heq.
    + intros Heq. unfold DiskDataKey, RunManifestKey in Heq. by apply app_inj_l in Heq.
Qed.
End Paths.

(** * Samples *)

(** The Cyrillic block. *)
Definition cyrillic : Unicode := {|
  IsLetter := in_range 1040 1103;
  IsDigit := λ _, false;
  ToLowerRune := λ r, if in_range 1040 1071 r then r + 32 else r
|}.

Example Segment_sample :
  @Segment cyrillic "БД-Продакшн №1" = "bd-prodakshn-1"%string
  ∧ @Segment cyrillic "../../etc" = "etc"%string ∧ @Segment cyrillic "…" = "unnamed"%string
  ∧ @Segment cyrillic "a\b/c" = "a-b-c"%string.
Proof. by vm_compute. Qed.

Lemma segment_canonical_witness :
  @Segment cyrillic "0d1f-77" = "0d1f-77"%string.
Proof.
  apply (@segment_canonical cyrillic ""). constructor; [done|cbn; lia|done..].
Defined.

Lemma objects_apart_witness :
  String.prefix (@RunPrefix cyrillic "srv" "vm-2" "БД" Day "run-2")
    (@RunPrefix cyrillic "srv" "vm-1" "БД" 0 "run-1" +:+ "run.json") = false.
Proof.
  apply (proj1 (@objects_apart cyrillic "srv" "vm-1" "БД" 0 "run-1" "srv" "vm-2" "БД" Day "run-2")).
  - constructor; [done|cbn; lia|done..].
  - constructor; [done|cbn; lia|done..].
  - done.
  - by vm_compute.
Defined.
