(* ===== verification/Retention.v ===== *)
(** Retention ([internal/retention]): which backups a policy deletes.

    [Apply] is the grandfather-father-son selection followed by the rule that
    keeps every ancestor of a kept point; [BuildPlan] and
    [WithDeletionConditions] are the preview an operator confirms.

    The ancestor walk of the source is a loop over parent links that stops at a
    link with no parent or with a parent outside the candidates; here it takes
    fuel and [None] means the fuel ran out. [Apply_kept] shows that on parent
    links without a cycle as many steps as there are candidates are enough;
    [Apply_diverges] shows that on a cycle no number of steps is. *)

From S2P Require Import Prelude GoTime Model.

(** * Decisions *)

(** The reason strings of the source, by their format and arguments. *)
Inductive Reason :=
| ReasonNoPolicy
| ReasonLast (n : Z)
| ReasonBucket (label bucket : string)
| ReasonSurvivor
| ReasonNeeded (type : BackupType) (created : string)
| ReasonUnclaimed.

#[export] Instance Reason_eq_dec : EqDecision Reason.
Proof. solve_decision. Defined.

Record Decision_ := mkDecision {
  Keep : list string;
  Delete : list string;
  Reasons : gmap string Reason
}.

(** [markKeep]: the first reason stays. *)
Definition markKeep (keep : gmap string Reason) (id : string) (reason : Reason) :
    gmap string Reason :=
  match keep !! id with
  | Some _ => keep
  | None => <[id := reason]> keep
  end.

(** [applyBucket]: the newest run of each of the first [limit] periods. *)
Section Bucket.
Context (limit : Z) (label : string) (bucketOf : Z → string).

Fixpoint bucket_loop (runs : list BackupRun) (seen : gset string) (kept : Z)
    (keep : gmap string Reason) : gmap string Reason :=
  match runs with
  | [] => keep
  | r :: runs' =>
    if limit <=? kept then keep else
    let bucket := bucketOf (run_CreatedAt r) in
    if bool_decide (bucket ∈ seen) then bucket_loop runs' seen kept keep else
    bucket_loop runs' ({[bucket]} ∪ seen) (kept + 1)
      (markKeep keep (run_ID r) (ReasonBucket label bucket))
  end.
End Bucket.

Definition applyBucket (keep : gmap string Reason) (runs : list BackupRun) (limit : Z)
    (label : string) (bucketOf : Z → string) : gmap string Reason :=
  if limit <=? 0 then keep else bucket_loop limit label bucketOf runs ∅ 0 keep.

(** Only live, successful runs take part. *)
Definition candidate (r : BackupRun) : bool :=
  negb (run_Deleted r)
  && (bool_decide (run_Status r = RunSucceeded) || bool_decide (run_Status r = RunPartial)).

Definition newer (a b : BackupRun) : bool := after (run_CreatedAt a) (run_CreatedAt b).

Definition candidates_of (runs : list BackupRun) : list BackupRun :=
  sort_stable newer (List.filter candidate runs).

(** The [KeepLast] loop. *)
Fixpoint keep_last (limit i : Z) (runs : list BackupRun) (keep : gmap string Reason) :
    gmap string Reason :=
  match runs with
  | [] => keep
  | r :: runs' =>
    if limit <=? i then keep
    else keep_last limit (i + 1) runs' (markKeep keep (run_ID r) (ReasonLast limit))
  end.

(** The buckets in the order they claim a run. *)
Definition buckets (policy : RetentionPolicy) : list (Z * string * (Z → string)) :=
  [(KeepHourly policy, "почасовой"%string, format_hour);
   (KeepDaily policy, "суточный"%string, format_date);
   (KeepWeekly policy, "недельный"%string, format_week);
   (KeepMonthly policy, "месячный"%string, format_month);
   (KeepYearly policy, "годовой"%string, format_year)].

Definition apply_buckets (policy : RetentionPolicy) (runs : list BackupRun)
    (keep : gmap string Reason) : gmap string Reason :=
  fold_left (λ keep b, applyBucket keep runs b.1.1 b.1.2 b.2) (buckets policy) keep.

(** [MaxAge] overrides the buckets. *)
Definition expired (policy : RetentionPolicy) (now : Z) (r : BackupRun) : bool :=
  (0 <? MaxAge policy) && before (run_CreatedAt r) (now - MaxAge policy).

Definition drop_expired (policy : RetentionPolicy) (now : Z) (runs : list BackupRun)
    (keep : gmap string Reason) : gmap string Reason :=
  fold_left (λ keep r, if expired policy now r then delete (run_ID r) keep else keep) runs keep.

(** What the rules claim, less what is expired. *)
Definition claimed (policy : RetentionPolicy) (now : Z) (runs : list BackupRun) :
    gmap string Reason :=
  let keep := if 0 <? KeepLast policy then keep_last (KeepLast policy) 0 runs ∅ else ∅ in
  drop_expired policy now runs (apply_buckets policy runs keep).

(** What survives before ancestors are protected. *)
Definition survivors (policy : RetentionPolicy) (now : Z) (runs : list BackupRun) :
    gmap string Reason :=
  let keep := claimed policy now runs in
  match runs with
  | newest :: _ => if bool_decide (keep = ∅) then markKeep keep (run_ID newest) ReasonSurvivor
                   else keep
  | [] => keep
  end.

(** Chain safety. *)
Definition by_id (runs : list BackupRun) : gmap string BackupRun :=
  fold_left (λ m r, <[run_ID r := r]> m) runs ∅.

Fixpoint protect (fuel : nat) (byID : gmap string BackupRun) (r cur : BackupRun)
    (keep : gmap string Reason) : option (gmap string Reason) :=
  if bool_decide (run_ParentRunID cur = ""%string) then Some keep else
  match fuel with
  | O => None
  | S fuel =>
    match byID !! run_ParentRunID cur with
    | None => Some keep
    | Some parent =>
      protect fuel byID r parent
        (markKeep keep (run_ID parent)
           (ReasonNeeded (run_Type r) (format_minute (run_CreatedAt r))))
    end
  end.

Fixpoint protect_all (fuel : nat) (byID : gmap string BackupRun) (runs : list BackupRun)
    (keep : gmap string Reason) : option (gmap string Reason) :=
  match runs with
  | [] => Some keep
  | r :: runs' =>
    match keep !! run_ID r with
    | None => protect_all fuel byID runs' keep
    | Some _ =>
      match protect fuel byID r r keep with
      | None => None
      | Some keep => protect_all fuel byID runs' keep
      end
    end
  end.

Fixpoint decide_all (keep : gmap string Reason) (runs : list BackupRun) (d : Decision_) :
    Decision_ :=
  match runs with
  | [] => d
  | r :: runs' =>
    let d' :=
      match keep !! run_ID r with
      | Some reason => mkDecision (Keep d ++ [run_ID r]) (Delete d)
                                  (<[run_ID r := reason]> (Reasons d))
      | None => mkDecision (Keep d) (Delete d ++ [run_ID r])
                           (<[run_ID r := ReasonUnclaimed]> (Reasons d))
      end in
    decide_all keep runs' d'
  end.

Definition no_decision : Decision_ := mkDecision [] [] ∅.

Definition Apply (fuel : nat) (policy : RetentionPolicy) (runs : list BackupRun) (now : Z) :
    option Decision_ :=
  let cands := candidates_of runs in
  if bool_decide (cands = []) then Some no_decision else
  if RetentionPolicy_Empty policy
  then Some (fold_left (λ d r, mkDecision (Keep d ++ [run_ID r]) (Delete d)
                                 (<[run_ID r := ReasonNoPolicy]> (Reasons d)))
               cands no_decision)
  else match protect_all fuel (by_id cands) cands (survivors policy now cands) with
       | None => None
       | Some keep => Some (decide_all keep cands no_decision)
       end.

(** * The plan an operator confirms *)
Record RunNote := mkRunNote {
  note_RunID : string;
  note_Type : BackupType;
  note_CreatedAt : Z;
  note_Bytes : Z;
  note_Reason : option Reason
}.

#[export] Instance RunNote_eq_dec : EqDecision RunNote.
Proof. solve_decision. Defined.

Inductive PlanWarning :=
| WarnReadOnly | WarnQuarantine (delay : Z) | WarnObjectLock (days : Z) | WarnProtected.

Record Plan := mkPlan {
  plan_ServerID : string;
  plan_VMID : string;
  plan_VMName : string;
  plan_TargetID : string;
  plan_Keep : list RunNote;
  plan_Delete : list RunNote;
  plan_FreedBytes : Z;
  plan_PurgeDelaySeconds : Z;
  plan_Warnings : list PlanWarning;
  plan_Token : string
}.

(** What the token is computed from. *)
Record PlanPayload := mkPlanPayload {
  pp_ServerID : string;
  pp_VMID : string;
  pp_TargetID : string;
  pp_Keep : list RunNote;
  pp_Delete : list RunNote;
  pp_PurgeDelaySeconds : Z;
  pp_Warnings : list PlanWarning
}.

Definition plan_payload (plan : Plan) : PlanPayload :=
  mkPlanPayload (plan_ServerID plan) (plan_VMID plan) (plan_TargetID plan) (plan_Keep plan)
    (plan_Delete plan) (plan_PurgeDelaySeconds plan) (plan_Warnings plan).

Section PlanToken.
(** [hex(sha256(json.Marshal(payload)))]. *)
Variable digest : PlanPayload → string.

Definition planToken (plan : Plan) : string := digest (plan_payload plan).

Definition with_token (plan : Plan) : Plan :=
  mkPlan (plan_ServerID plan) (plan_VMID plan) (plan_VMName plan) (plan_TargetID plan)
    (plan_Keep plan) (plan_Delete plan) (plan_FreedBytes plan)
    (plan_PurgeDelaySeconds plan) (plan_Warnings plan) (planToken plan).

Definition note_of (d : Decision_) (r : BackupRun) (id : string) : RunNote :=
  mkRunNote id (run_Type r) (run_CreatedAt r) (run_StoredBytes r) (Reasons d !! id).

(** The notes of the listed runs the catalogue knows, and their sizes added
    up as [int64]. *)
Fixpoint notes (byID : gmap string BackupRun) (d : Decision_) (ids : list string)
    (acc : list RunNote) (freed : Z) : list RunNote * Z :=
  match ids with
  | [] => (acc, freed)
  | id :: ids' =>
    match byID !! id with
    | Some r => notes byID d ids' (acc ++ [note_of d r id]) (i64 (freed + run_StoredBytes r))
    | None => notes byID d ids' acc freed
    end
  end.

Definition BuildPlan (serverID vmID vmName targetID : string) (runs : list BackupRun)
    (d : Decision_) : Plan :=
  let byID := by_id runs in
  let '(keep, _) := notes byID d (Keep d) [] 0 in
  let '(del, freed) := notes byID d (Delete d) [] 0 in
  with_token (mkPlan serverID vmID vmName targetID keep del freed 0 [] ""%string).

Definition WithDeletionConditions (plan : Plan) (delay : Z) (target : StorageTarget) : Plan :=
  let warnings :=
    plan_Warnings plan
    ++ (if tgt_ReadOnly target then [WarnReadOnly] else [])
    ++ (if bool_decide (plan_Delete plan = []) then []
        else (if 0 <? delay then [WarnQuarantine delay] else [])
             ++ (if tgt_ObjectLockEnabled target then [WarnObjectLock (tgt_ObjectLockDays target)]
                 else if bool_decide (tgt_ImmutabilityState target = "protected"%string)
                 then [WarnProtected] else [])) in
  with_token (mkPlan (plan_ServerID plan) (plan_VMID plan) (plan_VMName plan)
    (plan_TargetID plan) (plan_Keep plan) (plan_Delete plan) (plan_FreedBytes plan)
    (Z.quot delay Second) warnings (plan_Token plan)).
End PlanToken.

(** * The selection, declaratively *)

(** The periods of the first [i] runs. *)
Definition periods (bucketOf : Z → string) (runs : list BackupRun) (i : nat) : gset string :=
  list_to_set (fmap (bucketOf ∘ run_CreatedAt) (take i runs)).

(** [r] is the newest run of its period and fewer than [limit] periods are
    newer than it. *)
Definition claims (limit : Z) (bucketOf : Z → string) (runs : list BackupRun)
    (r : BackupRun) : Prop :=
  ∃ i, runs !! i = Some r ∧ (bucketOf (run_CreatedAt r) ∉ periods bucketOf runs i)
       ∧ Z.of_nat (size (periods bucketOf runs i)) < limit.

(** [r] is wanted by one of the rules of the policy. *)
Definition wanted (policy : RetentionPolicy) (runs : list BackupRun) (r : BackupRun) : Prop :=
  r ∈ take (Z.to_nat (KeepLast policy)) runs
  ∨ ∃ b, b ∈ buckets policy ∧ claims b.1.1 b.2 runs r.

(** The points the policy itself retains: wanted and not expired, or the newest
    point when no such point exists. *)
Definition retained (policy : RetentionPolicy) (now : Z) (runs : list BackupRun)
    (r : BackupRun) : Prop :=
  (r ∈ runs ∧ wanted policy runs r ∧ expired policy now r = false)
  ∨ (head runs = Some r ∧ ∀ q, q ∈ runs → ¬ (wanted policy runs q ∧ expired policy now q = false)).

(** [p] is reached from [r] by zero or more parent links. *)
Inductive ancestor (byID : gmap string BackupRun) : BackupRun → BackupRun → Prop :=
| ancestor_self r : ancestor byID r r
| ancestor_parent r p q :
    run_ParentRunID r ≠ ""%string → byID !! run_ParentRunID r = Some p →
    ancestor byID p q → ancestor byID r q.

(** Parent links without a cycle: some rank decreases along every link. *)
Definition acyclic (runs : list BackupRun) : Prop :=
  ∃ rank : string → nat, ∀ r p, r ∈ runs → p ∈ runs →
    run_ParentRunID r ≠ ""%string → run_ParentRunID r = run_ID p →
    (rank (run_ID p) < rank (run_ID r))%nat.

(** * Lemmas *)
Section Marks.
Implicit Types (keep : gmap string Reason) (runs : list BackupRun).

Lemma dom_markKeep keep id reason : dom (markKeep keep id reason) = {[id]} ∪ dom keep.
Proof.
  unfold markKeep. destruct (keep !! id) eqn:E; [|by rewrite dom_insert_L].
  apply elem_of_dom_2 in E. set_solver.
Qed.

Lemma dom_keep_last limit i runs keep :
  dom (keep_last limit i runs keep)
  = dom keep ∪ list_to_set (fmap run_ID (take (Z.to_nat (limit - i)) runs)).
Proof.
  revert i keep. induction runs as [|r runs IH]; intros i keep; cbn.
  { rewrite take_nil. set_solver. }
  destruct (Z.leb_spec limit i).
  { replace (Z.to_nat (limit - i)) with 0%nat by lia. set_solver. }
  rewrite IH, dom_markKeep.
  replace (Z.to_nat (limit - i)) with (S (Z.to_nat (limit - (i + 1)))) by lia.
  cbn. set_solver.
Qed.

Lemma periods_0 bucketOf runs : periods bucketOf runs 0 = ∅.
Proof. done. Qed.

Lemma periods_cons bucketOf r runs i :
  periods bucketOf (r :: runs) (S i) = {[bucketOf (run_CreatedAt r)]} ∪ periods bucketOf runs i.
Proof. done. Qed.

(** The bucket loop after a prefix whose periods are [seen]. *)
Lemma bucket_loop_spec limit label bucketOf runs seen keep id :
  id ∈ dom (bucket_loop limit label bucketOf runs seen (Z.of_nat (size seen)) keep) ↔
  id ∈ dom keep ∨ ∃ i r, runs !! i = Some r ∧ run_ID r = id
    ∧ (bucketOf (run_CreatedAt r) ∉ seen ∪ periods bucketOf runs i)
    ∧ Z.of_nat (size (seen ∪ periods bucketOf runs i)) < limit.
Proof.
  revert seen keep. induction runs as [|r runs IH]; intros seen keep; cbn -[periods].
  { split; [by left|]. intros [?|(i & r & Hi & _)]; [done|]. by rewrite lookup_nil in Hi. }
  destruct (Z.leb_spec limit (Z.of_nat (size seen))) as [Hfull|Hroom].
  { split; [by left|]. intros [?|(i & q & _ & _ & _ & Hlt)]; [done|]. exfalso.
    assert (size seen ≤ size (seen ∪ periods bucketOf (r :: runs) i))%nat
      by (apply subseteq_size; set_solver). lia. }
  case_bool_decide as Hseen.
  - assert (∀ i, seen ∪ periods bucketOf (r :: runs) (S i) = seen ∪ periods bucketOf runs i)
      as Hs by (intros; rewrite periods_cons; set_solver).
    rewrite IH. split; (intros [?|(i & q & Hi & Hid & Hn & Hlt)]; [by left|]).
    + right. exists (S i), q. rewrite Hs. done.
    + destruct i as [|i]; cbn in Hi; simplify_eq; [set_solver|].
      rewrite Hs in Hn, Hlt. right. by exists i, q.
  - assert (∀ i, seen ∪ periods bucketOf (r :: runs) (S i)
                 = ({[bucketOf (run_CreatedAt r)]} ∪ seen) ∪ periods bucketOf runs i)
      as Hs by (intros; rewrite periods_cons; set_solver).
    assert (Z.of_nat (size seen) + 1
            = Z.of_nat (size ({[bucketOf (run_CreatedAt r)]} ∪ seen))) as ->.
    { rewrite size_union, size_singleton by set_solver. lia. }
    rewrite IH, dom_markKeep. split.
    + intros [[->%elem_of_singleton|?]%elem_of_union|(i & q & Hi & Hid & Hn & Hlt)];
        [| by left |]; right.
      * exists 0%nat, r. by rewrite periods_0, union_empty_r_L.
      * exists (S i), q. by rewrite Hs.
    + intros [?|(i & q & Hi & Hid & Hn & Hlt)]; [left; set_solver|].
      destruct i as [|i]; cbn in Hi; simplify_eq; [left; set_solver|].
      rewrite Hs in Hn, Hlt. right. by exists i, q.
Qed.

Lemma dom_applyBucket keep runs limit label bucketOf id :
  id ∈ dom (applyBucket keep runs limit label bucketOf) ↔
  id ∈ dom keep ∨ ∃ r, run_ID r = id ∧ claims limit bucketOf runs r.
Proof.
  unfold applyBucket, claims. destruct (Z.leb_spec limit 0) as [Hl|Hl].
  { split; [by left|]. intros [?|(r & _ & i & _ & _ & ?)]; [done|lia]. }
  change 0 with (Z.of_nat (size (∅ : gset string))). rewrite bucket_loop_spec.
  setoid_rewrite union_empty_l_L. naive_solver.
Qed.

Lemma dom_apply_buckets policy runs keep id :
  id ∈ dom (apply_buckets policy runs keep) ↔
  id ∈ dom keep ∨ ∃ r b, run_ID r = id ∧ b ∈ buckets policy ∧ claims b.1.1 b.2 runs r.
Proof.
  unfold apply_buckets. generalize (buckets policy) as bs. intros bs.
  revert keep. induction bs as [|b bs IH]; intros keep; cbn [fold_left].
  { split; [by left|]. intros [?|(r & b & _ & Hb & _)]; [done|]. by apply elem_of_nil in Hb. }
  rewrite IH, dom_applyBucket. setoid_rewrite elem_of_cons. naive_solver.
Qed.

Lemma dom_drop_expired policy now runs keep id :
  id ∈ dom (drop_expired policy now runs keep) ↔
  id ∈ dom keep ∧ ∀ r, r ∈ runs → run_ID r = id → expired policy now r = false.
Proof.
  unfold drop_expired. revert keep. induction runs as [|r runs IH]; intros keep; cbn.
  { split; [|by intros [? _]]. split; [done|]. intros r Hr. by apply elem_of_nil in Hr. }
  rewrite IH. setoid_rewrite elem_of_cons.
  destruct (expired policy now r) eqn:E; [|naive_solver].
  rewrite dom_delete_L. split.
  - intros [? H]. split; [set_solver|]. intros q [->|?] <-; [set_solver|by eapply H].
  - intros [? H]. split; [|naive_solver].
    apply elem_of_difference. split; [done|]. intros ->%elem_of_singleton.
    rewrite H in E; [done|by left|done].
Qed.

Lemma lookup_by_id runs id r :
  NoDup (run_ID <$> runs) → by_id runs !! id = Some r ↔ r ∈ runs ∧ run_ID r = id.
Proof.
  unfold by_id. intros Hnd.
  assert (∀ (m : gmap string BackupRun), (∀ q, q ∈ runs → m !! run_ID q = None) →
    fold_left (λ m r, <[run_ID r := r]> m) runs m !! id = Some r
    ↔ (r ∈ runs ∧ run_ID r = id) ∨ m !! id = Some r) as H.
  { induction runs as [|q runs IH]; intros m Hm; cbn.
    { split; [by right|]. intros [[Hr _]|?]; [by apply elem_of_nil in Hr|done]. }
    cbn in Hnd. apply NoDup_cons in Hnd as [Hq Hnd]. rewrite IH; [|done|].
    - setoid_rewrite elem_of_cons. rewrite lookup_insert. case_decide as Hid.
      + split; [intros [[??]|?]; simplify_eq; eauto|].
        intros [[[->|?] ?]|?]; [by right|left; done|]. rewrite <-Hid, Hm in H by by left. done.
      + naive_solver.
    - intros p Hp. rewrite lookup_insert_ne.
      + apply Hm. by right.
      + intros E. apply Hq. rewrite E. by apply list_elem_of_fmap_2. }
  rewrite H by done. rewrite lookup_empty. naive_solver.
Qed.
End Marks.

Section Chains.
Implicit Types (keep : gmap string Reason) (runs : list BackupRun).

#[local] Hint Constructors ancestor : core.

Lemma ancestor_trans byID a b c : ancestor byID a b → ancestor byID b c → ancestor byID a c.
Proof. induction 1; eauto. Qed.

Lemma ancestor_in runs a b :
  NoDup (run_ID <$> runs) → a ∈ runs → ancestor (by_id runs) a b → b ∈ runs.
Proof.
  intros Hnd Ha. induction 1 as [|r p q _ Hp _ IH]; [done|].
  apply IH. by apply lookup_by_id in Hp as [? _].
Qed.

Lemma protect_dom fuel byID r cur keep keep' id :
  protect fuel byID r cur keep = Some keep' →
  id ∈ dom keep' ↔ id ∈ dom keep ∨ ∃ p q, run_ParentRunID cur ≠ ""%string
    ∧ byID !! run_ParentRunID cur = Some p ∧ ancestor byID p q ∧ run_ID q = id.
Proof.
  revert cur keep. induction fuel as [|fuel IH]; intros cur keep; cbn;
    (case_bool_decide as Hroot; [intros [= <-]; naive_solver|]); [done|].
  destruct (byID !! run_ParentRunID cur) as [p|] eqn:Hp; [|intros [= <-]; naive_solver].
  intros Hrun. rewrite (IH _ _ Hrun), dom_markKeep. split.
  - intros [[->%elem_of_singleton|?]%elem_of_union|(p' & q & ?)]; [|by left|]; right.
    + exists p, p. eauto.
    + exists p, q. naive_solver.
  - intros [?|(p' & q & _ & [= <-] & Hanc & <-)]; [left; set_solver|].
    inversion Hanc; subst; [left; set_solver|]. right. naive_solver.
Qed.

Definition below (rank : string → nat) (q p : BackupRun) : Prop :=
  (rank (run_ID p) < rank (run_ID q))%nat.
#[local] Instance below_dec rank q p : Decision (below rank q p).
Proof. unfold below. apply _. Defined.

Lemma protect_total runs r cur keep fuel :
  NoDup (run_ID <$> runs) → acyclic runs → cur ∈ runs → (length runs ≤ fuel)%nat →
  is_Some (protect fuel (by_id runs) r cur keep).
Proof.
  intros Hnd [rank Hrank] Hcur Hfuel.
  assert (length (filter (below rank cur) runs) < fuel)%nat as Hm.
  { eapply Nat.lt_le_trans; [|exact Hfuel].
    apply (length_filter_lt _ _ cur); [done|]. unfold below. lia. }
  clear Hfuel. revert fuel cur keep Hcur Hm.
  induction fuel as [|fuel IH]; intros cur keep Hcur Hm; [lia|]. cbn.
  case_bool_decide as Hroot; [done|].
  destruct (by_id runs !! run_ParentRunID cur) as [p|] eqn:Hp; [|done].
  apply lookup_by_id in Hp as [Hpin Hpid]; [|done].
  apply IH; [done|]. eapply Nat.lt_le_trans; [|apply Nat.lt_succ_r, Hm].
  assert (rank (run_ID p) < rank (run_ID cur))%nat by (by apply Hrank).
  apply (length_filter_strict _ _ _ p); unfold below; [lia|done|lia|lia].
Qed.

Lemma protect_all_total runs rs keep fuel :
  NoDup (run_ID <$> runs) → acyclic runs → rs ⊆ runs → (length runs ≤ fuel)%nat →
  is_Some (protect_all fuel (by_id runs) rs keep).
Proof.
  intros Hnd Hac Hrs Hfuel. revert keep. induction rs as [|r rs IH]; intros keep; cbn; [done|].
  assert (rs ⊆ runs) by set_solver.
  destruct (keep !! run_ID r); [|by apply IH].
  destruct (protect_total runs r r keep fuel) as [keep' ->]; [set_solver..|done|]. by apply IH.
Qed.

Lemma protect_all_mono fuel byID rs keep keep' :
  protect_all fuel byID rs keep = Some keep' → dom keep ⊆ dom keep'.
Proof.
  revert keep. induction rs as [|r rs IH]; intros keep; cbn; [by intros [= ->]|].
  destruct (keep !! run_ID r); [|by apply IH].
  destruct (protect fuel byID r r keep) as [k|] eqn:E; [|done]. intros Hk.
  etransitivity; [|by apply IH]. intros id Hid. apply (protect_dom _ _ _ _ _ _ id) in E.
  apply E. by left.
Qed.

(** Every ancestor of a point that is kept when its turn comes is kept. *)
Lemma protect_all_complete fuel runs rs keep keep' r q :
  protect_all fuel (by_id runs) rs keep = Some keep' →
  r ∈ rs → run_ID r ∈ dom keep → ancestor (by_id runs) r q → run_ID q ∈ dom keep'.
Proof.
  revert keep. induction rs as [|r' rs IH]; intros keep Hk Hr Hid Hanc;
    [by apply elem_of_nil in Hr|]. cbn in Hk.
  apply elem_of_cons in Hr as [->|Hr].
  - apply elem_of_dom in Hid as Hid'. destruct Hid' as [x Hx]. rewrite Hx in Hk.
    destruct (protect _ _ r' r' keep) as [k|] eqn:E; [|done].
    eapply protect_all_mono; [exact Hk|]. apply (protect_dom _ _ _ _ _ _ (run_ID q)) in E.
    apply E. inversion Hanc; subst; [by left|]. right. naive_solver.
  - destruct (keep !! run_ID r'); [|by eapply IH].
    destruct (protect _ _ r' r' keep) as [k|] eqn:E; [|done].
    eapply IH; [done..| |done]. apply (protect_dom _ _ _ _ _ _ (run_ID r)) in E. apply E. by left.
Qed.

(** Nothing else is added. *)
Lemma protect_all_sound fuel runs rs keep keep' (S0 : BackupRun → Prop) :
  NoDup (run_ID <$> runs) → rs ⊆ runs →
  (∀ id, id ∈ dom keep → ∃ r q, r ∈ runs ∧ S0 r ∧ ancestor (by_id runs) r q ∧ run_ID q = id) →
  protect_all fuel (by_id runs) rs keep = Some keep' →
  ∀ id, id ∈ dom keep' → ∃ r q, r ∈ runs ∧ S0 r ∧ ancestor (by_id runs) r q ∧ run_ID q = id.
Proof.
  intros Hnd Hrs. revert keep. induction rs as [|r rs IH]; intros keep Hkeep; cbn;
    [by intros [= <-]|].
  assert (rs ⊆ runs) by set_solver.
  destruct (keep !! run_ID r) eqn:Hr; [|by apply IH].
  destruct (protect _ _ r r keep) as [k|] eqn:E; [|done]. apply IH; [done|].
  intros id Hid. apply (protect_dom _ _ _ _ _ _ id) in E.
  apply E in Hid as [Hid|(p & q & Hne & Hp & Hanc & Hq)]; [by apply Hkeep|].
  apply elem_of_dom_2, Hkeep in Hr as (s & t & Hs & HS & Hanc0 & Hid0).
  assert (t = r) as ->.
  { eapply (NoDup_fmap_inj run_ID runs); [done| |set_solver|done]. by eapply ancestor_in. }
  exists s, q. split_and!; [done..| |done]. eapply ancestor_trans; eauto.
Qed.
End Chains.

Section Decide.
Implicit Types (keep : gmap string Reason) (runs : list BackupRun).

Lemma decide_all_keep keep runs d :
  Keep (decide_all keep runs d)
  = Keep d ++ (run_ID <$> filter (λ r, run_ID r ∈ dom keep) runs).
Proof.
  revert d. induction runs as [|r runs IH]; intros d; [cbn; by rewrite app_nil_r|].
  cbn [decide_all]. rewrite IH, filter_cons. destruct (keep !! run_ID r) eqn:E; cbn [Keep Delete].
  - rewrite decide_True by (by apply elem_of_dom_2 in E). by rewrite <-app_assoc.
  - by rewrite decide_False by (by apply not_elem_of_dom).
Qed.

Lemma decide_all_delete keep runs d :
  Delete (decide_all keep runs d)
  = Delete d ++ (run_ID <$> filter (λ r, run_ID r ∉ dom keep) runs).
Proof.
  revert d. induction runs as [|r runs IH]; intros d; [cbn; by rewrite app_nil_r|].
  cbn [decide_all]. rewrite IH, filter_cons. destruct (keep !! run_ID r) eqn:E; cbn [Keep Delete].
  - rewrite decide_False; [done|]. apply elem_of_dom_2 in E. naive_solver.
  - rewrite decide_True by (by apply not_elem_of_dom). by rewrite <-app_assoc.
Qed.

Lemma candidates_of_elem runs r : r ∈ candidates_of runs ↔ r ∈ runs ∧ candidate r = true.
Proof.
  unfold candidates_of. rewrite sort_stable_elem_of, !list_elem_of_In, filter_In. done.
Qed.

Lemma candidates_of_NoDup runs :
  NoDup (run_ID <$> runs) → NoDup (run_ID <$> candidates_of runs).
Proof.
  intros H. unfold candidates_of. rewrite sort_stable_perm.
  induction runs as [|r runs IH]; [done|]. cbn in *. apply NoDup_cons in H as [Hr H].
  specialize (IH H). destruct (candidate r); [|done]. cbn. apply NoDup_cons. split; [|done].
  intros Hin. apply Hr. apply list_elem_of_fmap in Hin as (q & -> & Hq).
  apply list_elem_of_fmap_2. apply list_elem_of_In, filter_In in Hq as [? _].
  by apply list_elem_of_In.
Qed.

Lemma newer_trans : Transitive (not_after newer).
Proof. intros a b c. unfold not_after, newer, after. lia. Qed.

Lemma candidates_of_sorted runs :
  StronglySorted (λ a b, run_CreatedAt b ≤ run_CreatedAt a) (candidates_of runs).
Proof.
  assert (StronglySorted (not_after newer) (candidates_of runs)) as H.
  { apply sort_stable_sorted; [|apply newer_trans]. unfold newer, after. lia. }
  induction H as [|r l Hl IH Hr]; constructor; [done|].
  eapply Forall_impl; [exact Hr|]. cbn. unfold not_after, newer, after. lia.
Qed.

Lemma wanted_in policy runs r : wanted policy runs r → r ∈ runs.
Proof.
  intros [(i & ? & _)%elem_of_take|(b & _ & i & ? & _)]; by eapply list_elem_of_lookup_2.
Qed.

Lemma dom_claimed policy now runs id :
  id ∈ dom (claimed policy now runs) ↔
  (∃ r, run_ID r = id ∧ wanted policy runs r)
  ∧ ∀ r, r ∈ runs → run_ID r = id → expired policy now r = false.
Proof.
  unfold claimed. rewrite dom_drop_expired, dom_apply_buckets. unfold wanted.
  set (keep0 := if 0 <? KeepLast policy then _ else _).
  assert (id ∈ dom keep0 ↔ ∃ r, run_ID r = id ∧ r ∈ take (Z.to_nat (KeepLast policy)) runs)
    as ->; [|naive_solver].
  unfold keep0. destruct (Z.ltb_spec 0 (KeepLast policy)).
  - rewrite dom_keep_last, dom_empty_L, union_empty_l_L, Z.sub_0_r.
    rewrite elem_of_list_to_set, list_elem_of_fmap. naive_solver.
  - replace (Z.to_nat (KeepLast policy)) with 0%nat by lia. rewrite take_0. set_solver.
Qed.

Lemma claimed_spec policy now runs r :
  NoDup (run_ID <$> runs) → r ∈ runs →
  run_ID r ∈ dom (claimed policy now runs) ↔
  wanted policy runs r ∧ expired policy now r = false.
Proof.
  intros Hnd Hr. rewrite dom_claimed. split.
  - intros [(q & Hid & Hw) He]. rewrite <-(NoDup_fmap_inj run_ID runs q r);
      eauto using wanted_in.
  - intros [Hw He]. split; [by exists r|]. intros p Hp Hid.
    by rewrite (NoDup_fmap_inj run_ID runs p r).
Qed.

(** The survivors are exactly the points the policy retains. *)
Lemma survivors_spec policy now runs r :
  NoDup (run_ID <$> runs) → r ∈ runs →
  run_ID r ∈ dom (survivors policy now runs) ↔ retained policy now runs r.
Proof.
  intros Hnd Hr. unfold survivors, retained.
  destruct runs as [|newest rest]; [by apply elem_of_nil in Hr|].
  set (runs := newest :: rest) in *. case_bool_decide as Hempty.
  - assert (∀ q, q ∈ runs → ¬ (wanted policy runs q ∧ expired policy now q = false)) as Hno.
    { intros q Hq Hw. apply claimed_spec in Hw; [|done..]. rewrite Hempty in Hw. set_solver. }
    rewrite dom_markKeep, Hempty, dom_empty_L, union_empty_r_L, elem_of_singleton. split.
    + intros Hid. right. split; [|done]. cbn. f_equal.
      symmetry. apply (NoDup_fmap_inj run_ID runs); [done..|by left|done].
    + intros [(_ & Hw)|[[= ->] _]]; [|done]. by destruct (Hno r Hr).
  - rewrite claimed_spec by done. split; [by left; eauto|].
    intros [(_ & Hw)|[Hhd Hno]]; [done|].
    exfalso. apply Hempty, dom_empty_inv_L, elem_of_equiv_empty_L. intros id Hid.
    apply dom_claimed in Hid as [(q & <- & Hw) He].
    apply (Hno q); eauto using wanted_in.
Qed.

Lemma survivors_in policy now runs id :
  id ∈ dom (survivors policy now runs) → ∃ q, q ∈ runs ∧ run_ID q = id.
Proof.
  assert (id ∈ dom (claimed policy now runs) → ∃ q, q ∈ runs ∧ run_ID q = id) as H.
  { rewrite dom_claimed. intros [(q & <- & Hq) _]. eauto using wanted_in. }
  unfold survivors. destruct runs as [|newest rest]; [done|].
  case_bool_decide; [|done]. rewrite dom_markKeep, elem_of_union, elem_of_singleton.
  intros [->|?]; [|by apply H]. exists newest. split; [by left|done].
Qed.
End Decide.

(** Some candidate is retained. *)
Lemma retained_exists policy now runs :
  NoDup (run_ID <$> runs) → runs ≠ [] → ∃ q, q ∈ runs ∧ retained policy now runs q.
Proof.
  intros Hnd Hne.
  assert (∃ id, id ∈ dom (survivors policy now runs)) as [id Hid].
  { unfold survivors. destruct runs as [|newest rest]; [done|]. case_bool_decide as E.
    - exists (run_ID newest). rewrite dom_markKeep. set_solver.
    - apply set_choose_L. intros Hd. by apply E, dom_empty_inv_L. }
  apply survivors_in in Hid as Hq. destruct Hq as (q & Hq & <-).
  exists q. split; [done|]. by apply survivors_spec.
Qed.

(** An empty policy keeps every candidate. *)
Lemma apply_no_policy fuel policy runs now :
  RetentionPolicy_Empty policy = true →
  ∃ d, Apply fuel policy runs now = Some d
    ∧ Keep d = run_ID <$> candidates_of runs ∧ Delete d = [].
Proof.
  intros Hpol. unfold Apply. case_bool_decide as Hnil; [by exists no_decision; rewrite Hnil|].
  rewrite Hpol. eexists. split; [done|]. generalize (candidates_of runs) as cands. intros cands.
  assert (∀ d, Keep (fold_left (λ d r, mkDecision (Keep d ++ [run_ID r]) (Delete d)
                                 (<[run_ID r := ReasonNoPolicy]> (Reasons d))) cands d)
               = Keep d ++ (run_ID <$> cands)
             ∧ Delete (fold_left (λ d r, mkDecision (Keep d ++ [run_ID r]) (Delete d)
                                 (<[run_ID r := ReasonNoPolicy]> (Reasons d))) cands d)
               = Delete d) as H; [|apply (H no_decision)].
  induction cands as [|r cands IH]; intros d; cbn; [by rewrite app_nil_r|].
  destruct (IH (mkDecision (Keep d ++ [run_ID r]) (Delete d)
                 (<[run_ID r := ReasonNoPolicy]> (Reasons d)))) as [-> ->].
  cbn. by rewrite <-app_assoc.
Qed.

(** The selection on acyclic parent links. *)
Lemma apply_spec (policy : RetentionPolicy) (runs : list BackupRun) (now : Z) (fuel : nat) :
  NoDup (run_ID <$> runs) → acyclic runs → (length runs ≤ fuel)%nat →
  RetentionPolicy_Empty policy = false →
  let cands := candidates_of runs in
  ∃ d, Apply fuel policy runs now = Some d
    ∧ Keep d ++ Delete d ≡ₚ run_ID <$> cands
    ∧ ∀ r, r ∈ cands →
        (run_ID r ∈ Keep d ↔
         ∃ q, q ∈ cands ∧ retained policy now cands q ∧ ancestor (by_id cands) q r).
Proof.
  intros Hnd Hac Hfuel Hpol cands. unfold Apply. fold cands. rewrite Hpol.
  assert (NoDup (run_ID <$> cands)) as Hcnd by by apply candidates_of_NoDup.
  case_bool_decide as Hnil.
  { exists no_decision. split; [done|]. rewrite Hnil. split; [done|].
    intros r Hr. by apply elem_of_nil in Hr. }
  assert (acyclic cands) as Hcac.
  { destruct Hac as [rank Hrank]. exists rank. intros r p Hr Hp.
    apply candidates_of_elem in Hr as [? _], Hp as [? _]. by apply Hrank. }
  assert (length cands ≤ length runs)%nat as Hlen.
  { unfold cands, candidates_of. rewrite sort_stable_length. apply filter_length_le. }
  destruct (protect_all_total cands cands (survivors policy now cands) fuel)
    as [keep Hkeep]; [done..|lia|]. rewrite Hkeep.
  eexists. split; [done|]. rewrite decide_all_keep, decide_all_delete. cbn [Keep Delete no_decision app].
  rewrite <-fmap_app. split; [by rewrite filter_app_complement|].
  intros r Hr. rewrite list_elem_of_fmap. split.
  - intros (r' & Hid & Hr'). apply list_elem_of_filter in Hr' as [Hdom _]. rewrite <-Hid in Hdom.
    eapply (protect_all_sound fuel cands cands _ _ (retained policy now cands)) in Hdom
      as (q & p & Hq & Hret & Hanc & Hpid); [|done..| |done].
    + exists q. split_and!; [done..|]. assert (p = r) as ->; [|done].
      apply (NoDup_fmap_inj run_ID cands); eauto using ancestor_in.
    + intros id Hid'. assert (∃ q, q ∈ cands ∧ run_ID q = id) as (q & Hq & <-).
      { apply survivors_in in Hid'. done. }
      apply survivors_spec in Hid'; [|done..]. exists q, q. split_and!; eauto using ancestor.
  - intros (q & Hq & Hret & Hanc). exists r. split; [done|]. apply list_elem_of_filter.
    split; [|done]. eapply protect_all_complete; [done..| |done]. by apply survivors_spec.
Qed.

Lemma apply_diverges_step (S : gset string) fuel byID r cur keep :
  (∀ q, q ∈ S → ∃ p, byID !! q = Some p ∧ run_ParentRunID p ≠ ""%string ∧ run_ParentRunID p ∈ S) →
  run_ParentRunID cur ≠ ""%string → run_ParentRunID cur ∈ S →
  protect fuel byID r cur keep = None.
Proof.
  intros HS. revert cur keep. induction fuel as [|fuel IH]; intros cur keep Hne Hin; cbn;
    rewrite bool_decide_eq_false_2 by done; [done|].
  destruct (HS _ Hin) as (p & -> & Hp & Hpin). by apply IH.
Qed.

Lemma protect_all_diverges (S : gset string) fuel byID rs keep r :
  (∀ q, q ∈ S → ∃ p, byID !! q = Some p ∧ run_ParentRunID p ≠ ""%string ∧ run_ParentRunID p ∈ S) →
  r ∈ rs → run_ID r ∈ dom keep → run_ParentRunID r ≠ ""%string → run_ParentRunID r ∈ S →
  protect_all fuel byID rs keep = None.
Proof.
  intros HS Hr. revert keep. induction rs as [|r' rs IH]; [by apply elem_of_nil in Hr|].
  intros keep Hid Hne HpS. cbn. apply elem_of_cons in Hr as [<-|Hr].
  - apply elem_of_dom in Hid as [x ->]. by rewrite (apply_diverges_step S).
  - destruct (keep !! run_ID r'); [|by apply IH].
    destruct (protect fuel byID r' r' keep) as [k|] eqn:E; [|done].
    apply IH; [done|..|done|done]. apply (protect_dom _ _ _ _ _ _ (run_ID r)) in E.
    apply E. by left.
Qed.

(** * Properties *)

(** C11. The retention selection is what the policy says: on parent links
    without a cycle [Apply] terminates, every live successful run gets exactly
    one fate, and a run is kept exactly when it is an ancestor of a point the
    policy retains - wanted by a rule and not expired, or the newest point when
    there is no such point. *)
Theorem Apply_kept (policy : RetentionPolicy) (runs : list BackupRun) (now : Z) (fuel : nat) :
  NoDup (run_ID <$> runs) → acyclic runs → (length runs ≤ fuel)%nat →
  RetentionPolicy_Empty policy = false →
  let cands := candidates_of runs in
  ∃ d, Apply fuel policy runs now = Some d
    ∧ Keep d ++ Delete d ≡ₚ run_ID <$> cands
    ∧ ∀ r, r ∈ cands →
        (run_ID r ∈ Keep d ↔
         ∃ q, q ∈ cands ∧ retained policy now cands q ∧ ancestor (by_id cands) q r).
Proof. apply apply_spec. Qed.

(** C22. Retention never orphans an incremental and never deletes everything:
    whatever the policy and the expiry, nothing a kept run depends on is
    deleted, and at least one restore point survives when there is one. *)
Theorem Apply_safe (policy : RetentionPolicy) (runs : list BackupRun) (now : Z) (fuel : nat) :
  NoDup (run_ID <$> runs) → acyclic runs → (length runs ≤ fuel)%nat →
  ∃ d, Apply fuel policy runs now = Some d
    ∧ (∀ r p, r ∈ candidates_of runs → p ∈ candidates_of runs → run_ID r ∈ Keep d →
         run_ParentRunID r ≠ ""%string → run_ParentRunID r = run_ID p → run_ID p ∉ Delete d)
    ∧ (candidates_of runs ≠ [] → Keep d ≠ []).
Proof.
  intros Hnd Hac Hfuel.
  destruct (RetentionPolicy_Empty policy) eqn:Hpol.
  { destruct (apply_no_policy fuel policy runs now Hpol) as (d & -> & Hk & Hd).
    exists d. rewrite Hk, Hd. split; [done|]. split; [set_solver|].
    intros Hne Hnil%fmap_nil_inv. done. }
  destruct (apply_spec policy runs now fuel Hnd Hac Hfuel Hpol) as (d & -> & Hperm & Hkeep).
  exists d. split; [done|].
  assert (NoDup (run_ID <$> candidates_of runs)) as Hcnd by by apply candidates_of_NoDup.
  split.
  - intros r p Hr Hp Hkr Hne Hpar Hdel.
    apply Hkeep in Hkr as (q & Hq & Hret & Hanc); [|done].
    assert (run_ID p ∈ Keep d) as Hkp.
    { apply Hkeep; [done|]. exists q. split_and!; [done..|]. eapply ancestor_trans; [done|].
      eapply ancestor_parent; [done| |constructor]. by apply lookup_by_id. }
    rewrite <-Hperm in Hcnd. apply NoDup_app in Hcnd as (_ & Hdisj & _). by apply (Hdisj (run_ID p)).
  - intros Hne Hnil. destruct (retained_exists policy now (candidates_of runs) Hcnd Hne) as (q & Hq & Hret).
    assert (run_ID q ∈ Keep d) as Hk by (apply Hkeep; [done|]; exists q; eauto using ancestor).
    rewrite Hnil in Hk. by apply elem_of_nil in Hk.
Qed.

(** A parent cycle makes the retention pass loop forever: when a retained
    candidate reaches a set of candidates whose parent links stay inside the
    set, no number of steps of the ancestor walk is enough. (The chain loader
    guards the same walk with a visited set; [Apply] does not.) *)
Theorem Apply_diverges (policy : RetentionPolicy) (runs : list BackupRun) (now : Z)
    (cycle : gset string) (r : BackupRun) (fuel : nat) :
  NoDup (run_ID <$> runs) → RetentionPolicy_Empty policy = false →
  let cands := candidates_of runs in
  (∀ id, id ∈ cycle → ∃ p, p ∈ cands ∧ run_ID p = id
      ∧ run_ParentRunID p ≠ ""%string ∧ run_ParentRunID p ∈ cycle) →
  r ∈ cands → run_ID r ∈ cycle → retained policy now cands r →
  Apply fuel policy runs now = None.
Proof.
  intros Hnd Hpol cands Hcycle Hr Hrc Hret. unfold Apply. fold cands.
  assert (NoDup (run_ID <$> cands)) as Hcnd by by apply candidates_of_NoDup.
  rewrite bool_decide_eq_false_2 by (intros E; rewrite E in Hr; by apply elem_of_nil in Hr).
  rewrite Hpol. destruct (Hcycle _ Hrc) as (p & Hp & Hid & Hne & Hpc).
  apply (NoDup_fmap_inj run_ID cands) in Hid as ->; [|done..].
  rewrite (protect_all_diverges cycle _ _ _ _ r); [done| |done| |done..].
  - intros id Hc. destruct (Hcycle id Hc) as (q & Hq & <- & ? & ?).
    exists q. split; [by apply lookup_by_id|done].
  - by apply survivors_spec.
Qed.

(** * Witnesses *)
Definition sample_policy : RetentionPolicy :=
  {| KeepLast := 1; KeepHourly := 0; KeepDaily := 0; KeepWeekly := 0; KeepMonthly := 0;
     KeepYearly := 0; MaxAge := 2 * Day |}.

(** An old full, its increment, and an unrelated newer full with increment. *)
Definition sample_runs : list BackupRun :=
  [sample_run "f1" BackupFull "" (1 * Day); sample_run "i1" BackupIncremental "f1" (2 * Day);
   sample_run "f2" BackupFull "" (3 * Day); sample_run "i2" BackupIncremental "f2" (6 * Day)].

Definition sample_cycle : list BackupRun :=
  [sample_run "a" BackupIncremental "b" (1 * Day); sample_run "b" BackupIncremental "a" (2 * Day)].

Lemma sample_runs_NoDup : NoDup (run_ID <$> sample_runs).
Proof. apply (bool_decide_unpack _). by vm_compute. Qed.

Lemma sample_runs_acyclic : acyclic sample_runs.
Proof.
  exists (λ id, if decide (id = "i1" ∨ id = "i2")%string then 1%nat else 0%nat).
  unfold sample_runs. intros r p Hr Hp. rewrite !elem_of_cons, elem_of_nil in Hr, Hp.
  destruct_or!; subst; cbn; try done; intros; vm_compute; try lia; by vm_compute in *.
Qed.

Example sample_apply :
  Apply 4 sample_policy sample_runs (7 * Day)
  = Some (mkDecision ["i2"; "f2"]%string ["i1"; "f1"]%string
            (<["f1" := ReasonUnclaimed]> (<["i1" := ReasonUnclaimed]>
              (<["f2" := ReasonNeeded BackupIncremental "1970-01-07 00:00"]>
                (<["i2" := ReasonLast 1]> ∅)))))%string.
Proof. by vm_compute. Qed.

Lemma Apply_kept_witness :
  ∃ d, Apply 4 sample_policy sample_runs (7 * Day) = Some d
    ∧ Keep d ++ Delete d ≡ₚ run_ID <$> candidates_of sample_runs
    ∧ ∀ r, r ∈ candidates_of sample_runs →
        (run_ID r ∈ Keep d ↔
         ∃ q, q ∈ candidates_of sample_runs
           ∧ retained sample_policy (7 * Day) (candidates_of sample_runs) q
           ∧ ancestor (by_id (candidates_of sample_runs)) q r).
Proof.
  apply (Apply_kept sample_policy sample_runs (7 * Day) 4);
    [apply sample_runs_NoDup|apply sample_runs_acyclic|cbn; lia|reflexivity].
Defined.

Lemma Apply_safe_witness :
  ∃ d, Apply 4 sample_policy sample_runs (7 * Day) = Some d
    ∧ (∀ r p, r ∈ candidates_of sample_runs → p ∈ candidates_of sample_runs → run_ID r ∈ Keep d →
         run_ParentRunID r ≠ ""%string → run_ParentRunID r = run_ID p → run_ID p ∉ Delete d)
    ∧ (candidates_of sample_runs ≠ [] → Keep d ≠ []).
Proof.
  apply (Apply_safe sample_policy sample_runs (7 * Day) 4);
    [apply sample_runs_NoDup|apply sample_runs_acyclic|cbn; lia].
Defined.

Lemma Apply_diverges_witness : Apply 100 sample_policy sample_cycle (3 * Day) = None.
Proof.
  set (a := sample_run "a" BackupIncremental "b" (1 * Day)).
  set (b := sample_run "b" BackupIncremental "a" (2 * Day)).
  assert (candidates_of sample_cycle = [b; a]) as E by reflexivity.
  apply (Apply_diverges sample_policy sample_cycle (3 * Day) {["a"; "b"]}%string b 100).
  - apply (bool_decide_unpack _). by vm_compute.
  - reflexivity.
  - rewrite E. intros id Hid.
    apply elem_of_union in Hid as [->%elem_of_singleton| ->%elem_of_singleton].
    + exists a. split_and!; [set_solver|done|done|cbn; set_solver].
    + exists b. split_and!; [set_solver|done|done|cbn; set_solver].
  - rewrite E. set_solver.
  - cbn. set_solver.
  - rewrite E. left. split; [set_solver|]. split; [left; cbn; set_solver|reflexivity].
Defined.
