(* ===== verification/Grid.v ===== *)
(** The chunk grid ([internal/backup/grid.go]): byte ranges to grid cells and
    grid cells to batched reads.

    Offsets are [int64]: the additions and products the source computes wrap
    here too. [NewChunkSelector] is [None] where [make] panics on a negative
    length. *)

From S2P Require Import Prelude.

Definition DefaultChunkSize : Z := Z.shiftl 4 20.

(** * Selecting chunks *)
Record ChunkSelector := mkChunkSelector {
  cs_chunkSize : Z;
  cs_virtualSize : Z;
  cs_gridChunks : Z;
  cs_marked : list bool;
  cs_count : Z
}.

Definition NewChunkSelector (chunkSize virtualSize : Z) : option ChunkSelector :=
  let chunkSize := if chunkSize <=? 0 then DefaultChunkSize else chunkSize in
  let grid := if 0 <? virtualSize
              then Z.quot (i64 (i64 (virtualSize + chunkSize) - 1)) chunkSize else 0 in
  if grid <? 0 then None
  else Some (mkChunkSelector chunkSize virtualSize grid (replicate (Z.to_nat grid) false) 0).

(** [if !s.marked[i] { s.marked[i] = true; s.count++ }]. *)
Definition mark (s : ChunkSelector) (i : Z) : ChunkSelector :=
  match cs_marked s !! Z.to_nat i with
  | Some false =>
    mkChunkSelector (cs_chunkSize s) (cs_virtualSize s) (cs_gridChunks s)
      (<[Z.to_nat i := true]> (cs_marked s)) (cs_count s + 1)
  | _ => s
  end.

(** Marks every chunk overlapping [start, start+length). *)
Definition Add (s : ChunkSelector) (start length : Z) : ChunkSelector :=
  if (length <=? 0) || (cs_gridChunks s =? 0) then s else
  let end_ := i64 (start + length) in
  let start := if start <? 0 then 0 else start in
  let end_ := if cs_virtualSize s <? end_ then cs_virtualSize s else end_ in
  if end_ <=? start then s else
  let first := Z.quot start (cs_chunkSize s) in
  let last := Z.quot (end_ - 1) (cs_chunkSize s) in
  fold_left mark (seqZ first (Z.min last (cs_gridChunks s - 1) - first + 1)) s.

(** The selected chunk numbers, ascending. *)
Fixpoint marked_from (i : Z) (marked : list bool) : list Z :=
  match marked with
  | [] => []
  | m :: marked' => (if m : bool then [i] else []) ++ marked_from (i + 1) marked'
  end.

Definition Indices (s : ChunkSelector) : list Z := marked_from 0 (cs_marked s).

(** The logical length of a grid cell; the last one may be short. *)
Definition ChunkLength (index chunkSize virtualSize : Z) : Z :=
  let offset := i64 (index * chunkSize) in
  if virtualSize <=? offset then 0 else
  let remaining := i64 (virtualSize - offset) in
  if remaining <? chunkSize then remaining else chunkSize.

(** * Grouping chunks into batched reads *)
Record ChunkGroup := mkChunkGroup {
  cg_Offset : Z;
  cg_Length : Z;
  cg_Indices : list Z;
  cg_Starts : list Z;
  cg_Lengths : list Z
}.

Definition add_chunk (cur : ChunkGroup) (index offset length : Z) : ChunkGroup :=
  mkChunkGroup (cg_Offset cur) (i64 (cg_Length cur + length)) (cg_Indices cur ++ [index])
    (cg_Starts cur ++ [offset]) (cg_Lengths cur ++ [length]).

Definition contiguous (cur : ChunkGroup) (offset length maxBatch : Z) : bool :=
  (i64 (cg_Offset cur + cg_Length cur) =? offset)
  && (i64 (cg_Length cur + length) <=? maxBatch).

Section Group.
Context (chunkSize virtualSize maxBatch : Z).

Fixpoint group_loop (sorted : list Z) (cur : option ChunkGroup) (groups : list ChunkGroup) :
    list ChunkGroup :=
  match sorted with
  | [] => match cur with Some g => groups ++ [g] | None => groups end
  | index :: sorted' =>
    let offset := i64 (index * chunkSize) in
    let length := ChunkLength index chunkSize virtualSize in
    if length <=? 0 then group_loop sorted' cur groups else
    match cur with
    | Some g =>
      if contiguous g offset length maxBatch
      then group_loop sorted' (Some (add_chunk g index offset length)) groups
      else group_loop sorted' (Some (add_chunk (mkChunkGroup offset 0 [] [] []) index offset length))
             (groups ++ [g])
    | None =>
      group_loop sorted' (Some (add_chunk (mkChunkGroup offset 0 [] [] []) index offset length)) groups
    end
  end.
End Group.

Definition GroupChunks (indices : list Z) (chunkSize virtualSize maxBatch : Z) : list ChunkGroup :=
  let maxBatch := if maxBatch <=? 0 then Z.shiftl 32 20 else maxBatch in
  group_loop chunkSize virtualSize maxBatch (sort_stable Z.ltb indices) None [].

(** * Sizes for which the arithmetic does not wrap *)
Class GridSizes (chunkSize virtualSize : Z) : Prop := {
  grid_chunk_pos : 0 < chunkSize;
  grid_size_nonneg : 0 ≤ virtualSize;
  grid_no_wrap : virtualSize + chunkSize < 2 ^ 63
}.

(** The number of cells of a whole image. *)
Definition grid_cells (chunkSize virtualSize : Z) : Z :=
  (virtualSize + chunkSize - 1) / chunkSize.

Section GridLemmas.
Context {chunkSize virtualSize : Z} `{GS : !GridSizes chunkSize virtualSize}.

Lemma grid_cells_spec i :
  0 ≤ i → i < grid_cells chunkSize virtualSize ↔ i * chunkSize < virtualSize.
Proof using GS.
  destruct GS. intros Hi. unfold grid_cells. split; intros H.
  - assert (i * chunkSize ≤ (virtualSize + chunkSize - 1) / chunkSize * chunkSize - chunkSize) by nia.
    pose proof (Z.mul_div_le (virtualSize + chunkSize - 1) chunkSize). lia.
  - apply Z.lt_le_trans with ((i + 1) * chunkSize / chunkSize); [rewrite Z.div_mul; lia|].
    apply Z.div_le_mono; lia.
Qed.

Lemma grid_cells_nonneg : 0 ≤ grid_cells chunkSize virtualSize.
Proof using GS. destruct GS. apply Z.div_pos; lia. Qed.

Lemma cell_offset_i64 i :
  0 ≤ i < grid_cells chunkSize virtualSize → i64 (i * chunkSize) = i * chunkSize.
Proof using GS.
  intros [Hi H]. apply grid_cells_spec in H; [|done]. destruct GS. apply i64_id.
  unfold is_i64. nia.
Qed.

Lemma ChunkLength_in i :
  0 ≤ i < grid_cells chunkSize virtualSize →
  ChunkLength i chunkSize virtualSize = Z.min chunkSize (virtualSize - i * chunkSize)
  ∧ 0 < ChunkLength i chunkSize virtualSize.
Proof using GS.
  intros Hi. pose proof Hi as [H0 H]. apply grid_cells_spec in H; [|done].
  unfold ChunkLength. rewrite cell_offset_i64 by done. destruct GS.
  destruct (Z.leb_spec virtualSize (i * chunkSize)); [lia|].
  rewrite i64_id by (unfold is_i64; nia).
  destruct (Z.ltb_spec (virtualSize - i * chunkSize) chunkSize); lia.
Qed.

Lemma NewChunkSelector_some :
  NewChunkSelector chunkSize virtualSize
  = Some (mkChunkSelector chunkSize virtualSize (grid_cells chunkSize virtualSize)
            (replicate (Z.to_nat (grid_cells chunkSize virtualSize)) false) 0).
Proof using GS.
  pose proof grid_cells_nonneg as Hg. destruct GS. unfold NewChunkSelector.
  destruct (Z.leb_spec chunkSize 0); [lia|].
  assert ((if 0 <? virtualSize
           then Z.quot (i64 (i64 (virtualSize + chunkSize) - 1)) chunkSize else 0)
          = grid_cells chunkSize virtualSize) as ->.
  { unfold grid_cells in *. destruct (Z.ltb_spec 0 virtualSize).
    - rewrite !i64_id by (unfold is_i64; rewrite ?i64_id by (unfold is_i64; lia); lia).
      rewrite Z.quot_div_nonneg by lia. done.
    - replace virtualSize with 0 by lia. rewrite Z.div_small by lia. done. }
  destruct (Z.ltb_spec (grid_cells chunkSize virtualSize) 0); [lia|done].
Qed.
End GridLemmas.

(** Some byte of [start, start+length) inside the image lies in cell [i]. *)
Definition touches (chunkSize virtualSize start length i : Z) : Prop :=
  ∃ p, start ≤ p < start + length ∧ 0 ≤ p < virtualSize ∧ p / chunkSize = i.

Section SelectorLemmas.
Context {chunkSize virtualSize : Z} `{GS : !GridSizes chunkSize virtualSize}.
Abbreviation grid := (grid_cells chunkSize virtualSize).

Record sel_wf (s : ChunkSelector) : Prop := {
  wf_cs : cs_chunkSize s = chunkSize;
  wf_vs : cs_virtualSize s = virtualSize;
  wf_grid : cs_gridChunks s = grid;
  wf_len : Z.of_nat (length (cs_marked s)) = grid;
  wf_count : cs_count s = Z.of_nat (length (Indices s))
}.

Definition is_marked (s : ChunkSelector) (i : Z) : Prop :=
  0 ≤ i < grid ∧ cs_marked s !! Z.to_nat i = Some true.

Lemma marked_from_elem i k marked :
  i ∈ marked_from k marked ↔ k ≤ i ∧ marked !! Z.to_nat (i - k) = Some true.
Proof.
  revert k. induction marked as [|m marked IH]; intros k; cbn [marked_from].
  { rewrite lookup_nil, elem_of_nil. naive_solver. }
  assert (i ∈ (if m then [k] else []) ↔ m = true ∧ i = k) as Hk by (destruct m; set_solver).
  rewrite elem_of_app, IH, Hk. destruct (decide (i = k)) as [->|Hne].
  - rewrite Z.sub_diag. cbn. split; [|naive_solver].
    intros [[-> _]|[? _]]; [done|lia].
  - split.
    + intros [[_ ?]|[Hi H]]; [done|]. split; [lia|].
      replace (Z.to_nat (i - k)) with (S (Z.to_nat (i - (k + 1)))) by lia. done.
    + intros [Hi H]. right. split; [lia|].
      replace (Z.to_nat (i - k)) with (S (Z.to_nat (i - (k + 1)))) in H by lia. done.
Qed.

Lemma marked_from_sorted k marked : StronglySorted Z.lt (marked_from k marked).
Proof.
  revert k. induction marked as [|m marked IH]; intros k; cbn; [constructor|].
  destruct m; cbn; [|apply IH]. constructor; [apply IH|].
  apply Forall_forall. intros i Hi. apply marked_from_elem in Hi. lia.
Qed.

Lemma length_marked_from_insert k marked n :
  marked !! n = Some false →
  length (marked_from k (<[n := true]> marked)) = S (length (marked_from k marked)).
Proof.
  revert k n. induction marked as [|m marked IH]; intros k [|n] Hn; cbn in *; simplify_eq; [done|].
  rewrite !length_app, IH by done. lia.
Qed.

Lemma marked_from_length k marked : (length (marked_from k marked) ≤ length marked)%nat.
Proof.
  revert k. induction marked as [|[] marked IH]; intros k; cbn; [done|..];
    specialize (IH (k + 1)); lia.
Qed.

Lemma Indices_elem s i : sel_wf s → i ∈ Indices s ↔ is_marked s i.
Proof.
  intros [_ _ _ Hlen _]. unfold Indices, is_marked. rewrite marked_from_elem, Z.sub_0_r.
  split; [|naive_solver]. intros [Hi H]. split_and!; [done| |done].
  apply lookup_lt_Some in H. lia.
Qed.

Lemma Indices_sorted s : StronglySorted Z.lt (Indices s).
Proof. apply marked_from_sorted. Qed.

Lemma mark_spec s i :
  sel_wf s → 0 ≤ i < grid →
  sel_wf (mark s i) ∧ ∀ j, is_marked (mark s i) j ↔ j = i ∨ is_marked s j.
Proof.
  intros Hwf Hi. pose proof Hwf as [H1 H2 H3 H4 H5]. unfold mark.
  destruct (lookup_lt_is_Some_2 (cs_marked s) (Z.to_nat i)) as [b Hb]; [lia|].
  rewrite Hb. destruct b.
  - split; [done|]. intros j. split; [by right|]. by intros [->|?].
  - split.
    + constructor; cbn; [done..|by rewrite length_insert|].
      unfold Indices in *. cbn. rewrite length_marked_from_insert by done. lia.
    + intros j. unfold is_marked. cbn. destruct (decide (j = i)) as [->|Hne].
      * rewrite list_lookup_insert_eq by (apply lookup_lt_Some in Hb; lia). naive_solver.
      * split.
        -- intros [Hj H]. rewrite list_lookup_insert_ne in H by lia. by right.
        -- intros [?|[Hj H]]; [done|]. by rewrite list_lookup_insert_ne by lia.
Qed.

Lemma fold_mark_spec l s :
  sel_wf s → Forall (λ i, 0 ≤ i < grid) l →
  sel_wf (fold_left mark l s) ∧ ∀ j, is_marked (fold_left mark l s) j ↔ j ∈ l ∨ is_marked s j.
Proof.
  intros Hwf Hl. revert s Hwf. induction Hl as [|i l Hi Hl IH]; intros s Hwf; cbn.
  { split; [done|]. intros j. rewrite elem_of_nil. naive_solver. }
  destruct (mark_spec s i Hwf Hi) as [Hwf' Hm]. destruct (IH _ Hwf') as [? Hf].
  split; [done|]. intros j. rewrite Hf, Hm, elem_of_cons. naive_solver.
Qed.

Lemma touches_bounds start length i :
  touches chunkSize virtualSize start length i →
  0 < length ∧ 0 ≤ i < grid ∧ Z.max 0 start < Z.min (start + length) virtualSize.
Proof using GS.
  intros (p & Hp & Hpv & <-). destruct GS.
  split_and!; [lia|apply Z.div_pos; lia| |lia].
  apply grid_cells_spec; [apply Z.div_pos; lia|].
  pose proof (Z.mul_div_le p chunkSize). lia.
Qed.

Lemma touches_cells start length i :
  let lo := Z.max 0 start in
  let hi := Z.min (start + length) virtualSize in
  lo < hi →
  (lo / chunkSize ≤ i ≤ (hi - 1) / chunkSize ↔ touches chunkSize virtualSize start length i).
Proof using GS.
  intros lo hi Hlt. destruct GS. split.
  - intros [Hli Hih]. exists (Z.max lo (i * chunkSize)).
    assert (i * chunkSize ≤ hi - 1).
    { pose proof (Z.mul_div_le (hi - 1) chunkSize). nia. }
    assert (lo < (i + 1) * chunkSize).
    { pose proof (Z.mul_succ_div_gt lo chunkSize). nia. }
    split_and!; [lia..|].
    symmetry. apply (Z.div_unique _ _ _ (Z.max lo (i * chunkSize) - i * chunkSize)); lia.
  - intros (p & Hp & Hpv & <-). split; apply Z.div_le_mono; lia.
Qed.

(** Without wrap-around, [Add] marks exactly the cells the range touches. *)
Lemma Add_marks s start length :
  sel_wf s → - 2 ^ 63 ≤ start → start + length < 2 ^ 63 →
  sel_wf (Add s start length)
  ∧ ∀ i, is_marked (Add s start length) i ↔
         is_marked s i ∨ touches chunkSize virtualSize start length i.
Proof using GS.
  intros Hwf Hlo Hhi. pose proof Hwf as [H1 H2 H3 _ _].
  pose proof grid_cells_nonneg as Hg. unfold Add. rewrite H1, H2, H3.
  assert ((∀ i, ¬ touches chunkSize virtualSize start length i) → sel_wf s ∧ ∀ i,
            is_marked s i ↔ is_marked s i ∨ touches chunkSize virtualSize start length i)
    as Hnone by naive_solver.
  destruct (Z.leb_spec length 0); cbn [orb].
  { apply Hnone. intros i Hi%touches_bounds. lia. }
  destruct (Z.eqb_spec grid 0); [apply Hnone; intros i Hi%touches_bounds; lia|].
  rewrite i64_id by (unfold is_i64; lia).
  replace (if start <? 0 then 0 else start) with (Z.max 0 start)
    by (destruct (Z.ltb_spec start 0); lia).
  replace (if virtualSize <? start + length then virtualSize else start + length)
    with (Z.min (start + length) virtualSize)
    by (destruct (Z.ltb_spec virtualSize (start + length)); lia).
  destruct (Z.leb_spec (Z.min (start + length) virtualSize) (Z.max 0 start)) as [Hle|Hlt].
  { apply Hnone. intros i Hi%touches_bounds. lia. }
  setoid_rewrite <-touches_cells; [|exact Hlt].
  set (lo := Z.max 0 start) in *. set (hi := Z.min (start + length) virtualSize) in *.
  destruct GS. rewrite !Z.quot_div_nonneg by lia.
  assert ((hi - 1) / chunkSize < grid).
  { apply grid_cells_spec; [apply Z.div_pos; lia|].
    pose proof (Z.mul_div_le (hi - 1) chunkSize). lia. }
  assert (0 ≤ lo / chunkSize) by (apply Z.div_pos; lia).
  rewrite Z.min_l by lia.
  destruct (fold_mark_spec (seqZ (lo / chunkSize) ((hi - 1) / chunkSize - lo / chunkSize + 1))
              s Hwf) as [Hwf' Hf].
  { apply Forall_forall. intros i Hi. apply elem_of_seqZ in Hi. lia. }
  split; [done|]. intros i. rewrite Hf, elem_of_seqZ.
  split; intros [?|?]; [right; lia|by left|by right|left; lia].
Qed.
End SelectorLemmas.

Section GroupLemmas.
Context {chunkSize virtualSize : Z} `{GS : !GridSizes chunkSize virtualSize}.
Abbreviation grid := (grid_cells chunkSize virtualSize).

(** [g] is the run of [n] adjacent cells from [first], with their offsets and
    lengths, and does not exceed the batch unless it is a single cell. *)
Record group_at (maxBatch first n : Z) (g : ChunkGroup) : Prop := {
  ga_pos : 0 < n;
  ga_range : 0 ≤ first ∧ first + n ≤ grid;
  ga_Indices : cg_Indices g = seqZ first n;
  ga_Starts : cg_Starts g = (λ i, i * chunkSize) <$> seqZ first n;
  ga_Lengths : cg_Lengths g = (λ i, ChunkLength i chunkSize virtualSize) <$> seqZ first n;
  ga_Offset : cg_Offset g = first * chunkSize;
  ga_Length : cg_Length g = Z.min (n * chunkSize) (virtualSize - first * chunkSize);
  ga_batch : cg_Length g ≤ maxBatch ∨ n = 1
}.

Definition group_wf (maxBatch : Z) (g : ChunkGroup) : Prop :=
  ∃ first n, group_at maxBatch first n g.

Lemma group_single maxBatch i :
  0 ≤ i < grid →
  group_at maxBatch i 1 (add_chunk (mkChunkGroup (i * chunkSize) 0 [] [] []) i
                           (i * chunkSize) (ChunkLength i chunkSize virtualSize)).
Proof using GS.
  intros Hi. destruct (ChunkLength_in i Hi) as [Hlen Hpos].
  pose proof (proj1 (grid_cells_spec i (proj1 Hi)) (proj2 Hi)).
  assert (seqZ i 1 = [i]) as E by (rewrite seqZ_cons, seqZ_nil by lia; done).
  constructor; cbn [cg_Indices cg_Starts cg_Lengths cg_Offset cg_Length add_chunk app];
    rewrite ?E; try done; [lia| |by right].
  rewrite Hlen, i64_id; [lia|]. destruct GS. unfold is_i64. lia.
Qed.

Lemma group_extend maxBatch first n g i :
  group_at maxBatch first n g → 0 ≤ i < grid →
  contiguous g (i * chunkSize) (ChunkLength i chunkSize virtualSize) maxBatch = true →
  i = first + n
  ∧ group_at maxBatch first (n + 1)
      (add_chunk g i (i * chunkSize) (ChunkLength i chunkSize virtualSize)).
Proof using GS.
  intros [Hn Hr HI HS HL HO Hlen Hb] Hi Hc.
  destruct (ChunkLength_in i Hi) as [Hcl Hpos].
  pose proof (proj1 (grid_cells_spec i (proj1 Hi)) (proj2 Hi)) as Hiv.
  unfold contiguous in Hc. apply andb_true_iff in Hc as [Hoff%Z.eqb_eq Hmax%Z.leb_le].
  assert (first * chunkSize < virtualSize) as Hfv by (apply grid_cells_spec; lia).
  rewrite HO, Hlen in Hoff. rewrite Hlen in Hmax. destruct GS.
  rewrite i64_id in Hoff by (unfold is_i64; nia).
  assert (first * chunkSize + n * chunkSize = i * chunkSize) as Heq by lia.
  assert (i = first + n) as -> by nia.
  rewrite i64_id in Hmax by (unfold is_i64; nia).
  split; [done|].
  constructor; cbn [cg_Indices cg_Starts cg_Lengths cg_Offset cg_Length add_chunk];
    rewrite ?HI, ?HS, ?HL, ?HO, ?Hlen, ?seqZ_app, ?fmap_app by lia; try done; [lia|lia| |].
  - rewrite i64_id by (unfold is_i64; nia). lia.
  - left. rewrite i64_id by (unfold is_i64; nia). lia.
Qed.

Definition pending (cur : option ChunkGroup) : list ChunkGroup :=
  match cur with Some g => [g] | None => [] end.

Lemma group_loop_spec maxBatch sorted cur groups :
  Forall (λ i, 0 ≤ i < grid) sorted → Forall (group_wf maxBatch) (groups ++ pending cur) →
  let out := group_loop chunkSize virtualSize maxBatch sorted cur groups in
  Forall (group_wf maxBatch) out
  ∧ (out ≫= cg_Indices) = ((groups ++ pending cur) ≫= cg_Indices) ++ sorted.
Proof using GS.
  intros Hs. revert cur groups. induction Hs as [|i sorted Hi Hs IH]; intros cur groups Hg.
  { cbn. destruct cur; cbn [pending] in *; rewrite ?app_nil_r in *; done. }
  cbn [group_loop]. destruct (ChunkLength_in i Hi) as [_ Hpos].
  rewrite cell_offset_i64 by done.
  destruct (Z.leb_spec (ChunkLength i chunkSize virtualSize) 0); [lia|].
  assert (∀ cur' groups', Forall (group_wf maxBatch) (groups' ++ pending (Some cur')) →
    ((groups' ++ pending (Some cur')) ≫= cg_Indices)
      = ((groups ++ pending cur) ≫= cg_Indices) ++ [i] →
    let out := group_loop chunkSize virtualSize maxBatch sorted (Some cur') groups' in
    Forall (group_wf maxBatch) out
    ∧ (out ≫= cg_Indices) = ((groups ++ pending cur) ≫= cg_Indices) ++ i :: sorted) as step.
  { intros cur' groups' Hg' E. destruct (IH (Some cur') groups' Hg') as [HF HE].
    split; [exact HF|]. etransitivity; [exact HE|]. by rewrite E, <-app_assoc. }
  pose proof (group_single maxBatch i Hi) as Hnew.
  destruct cur as [g|]; [destruct (contiguous _ _ _ _) eqn:Hc|]; apply step; cbn [pending] in *.
  - apply Forall_app in Hg as [Hgs (first & n & Hg)%Forall_singleton].
    destruct (group_extend _ _ _ _ _ Hg Hi Hc) as [_ Hg'].
    apply Forall_app. split; [done|]. apply Forall_singleton. by eexists _, _.
  - rewrite !bind_app. cbn. by rewrite !app_nil_r, <-!app_assoc.
  - apply Forall_app. split; [done|]. apply Forall_singleton. by eexists _, _.
  - rewrite !bind_app. cbn. by rewrite !app_nil_r.
  - rewrite app_nil_r in *. apply Forall_app. split; [done|].
    apply Forall_singleton. by eexists _, _.
  - rewrite !bind_app. cbn. by rewrite !app_nil_r.
Qed.

(** The groups are well formed and, in order, enumerate the sorted indices. *)
Lemma GroupChunks_spec indices maxBatch :
  Forall (λ i, 0 ≤ i < grid) indices → 0 < maxBatch →
  Forall (group_wf maxBatch) (GroupChunks indices chunkSize virtualSize maxBatch)
  ∧ (GroupChunks indices chunkSize virtualSize maxBatch ≫= cg_Indices)
    = sort_stable Z.ltb indices.
Proof using GS.
  intros Hi Hm. unfold GroupChunks. destruct (Z.leb_spec maxBatch 0); [lia|].
  destruct (group_loop_spec maxBatch (sort_stable Z.ltb indices) None []) as [HF HE];
    [by rewrite sort_stable_perm|constructor|]. split; [exact HF|exact HE].
Qed.
End GroupLemmas.

(** * The properties *)
Section GridTheorems.
Context {chunkSize virtualSize : Z} `{GS : !GridSizes chunkSize virtualSize}.

Lemma fold_Add_marks ranges : ∀ s,
  sel_wf (chunkSize := chunkSize) (virtualSize := virtualSize) s →
  Forall (λ r, - 2 ^ 63 ≤ r.1 ∧ r.1 + r.2 < 2 ^ 63) ranges →
  let s' := fold_left (λ s r, Add s r.1 r.2) ranges s in
  sel_wf (chunkSize := chunkSize) (virtualSize := virtualSize) s'
  ∧ ∀ i, is_marked (chunkSize := chunkSize) (virtualSize := virtualSize) s' i ↔
      is_marked (chunkSize := chunkSize) (virtualSize := virtualSize) s i
      ∨ ∃ r, r ∈ ranges ∧ touches chunkSize virtualSize r.1 r.2 i.
Proof using GS.
  induction ranges as [|r ranges IH]; intros s Hwf Hr; cbn.
  { split; [done|]. intros i. split; [by left|]. intros [?|(r & Hr0 & _)]; [done|].
    by apply elem_of_nil in Hr0. }
  apply Forall_cons in Hr as [[H1 H2] Hr].
  destruct (Add_marks s r.1 r.2 Hwf H1 H2) as [Hwf' Hm].
  destruct (IH _ Hwf' Hr) as [Hwf'' Hm']. split; [done|]. intros i. rewrite Hm', Hm.
  setoid_rewrite elem_of_cons. split.
  - intros [[?|?]|(r' & ? & ?)]; [by left|right; exists r; by split; [left|]|right].
    exists r'. split; [by right|done].
  - intros [?|(r' & [->|?] & ?)]; [by left; left|by left; right|]. right. by exists r'.
Qed.

Lemma new_selector_wf s :
  NewChunkSelector chunkSize virtualSize = Some s →
  sel_wf (chunkSize := chunkSize) (virtualSize := virtualSize) s
  ∧ ∀ i, ¬ is_marked (chunkSize := chunkSize) (virtualSize := virtualSize) s i.
Proof using GS.
  rewrite NewChunkSelector_some. intros [= <-].
  pose proof (grid_cells_nonneg (chunkSize := chunkSize) (virtualSize := virtualSize)) as Hg. split.
  - split; [done..|cbn; rewrite length_replicate; lia|]. cbn. unfold Indices. cbn.
    destruct (marked_from 0 _) as [|i l] eqn:E; [done|].
    assert (i ∈ marked_from 0 (replicate (Z.to_nat (grid_cells chunkSize virtualSize)) false)) as Hi
      by (rewrite E; left).
    apply marked_from_elem in Hi as [_ Hi]. by apply lookup_replicate_1 in Hi as [? _].
  - intros i [_ Hi]. cbn in Hi. by apply lookup_replicate_1 in Hi as [? _].
Qed.

(** After any sequence of [Add] calls on a new selector, [Indices] lists in
    increasing order, each once and with the right count, exactly the cells a
    byte of one of the ranges lies in. *)
Theorem selector_exact ranges s :
  NewChunkSelector chunkSize virtualSize = Some s →
  Forall (λ r, - 2 ^ 63 ≤ r.1 ∧ r.1 + r.2 < 2 ^ 63) ranges →
  let s' := fold_left (λ s r, Add s r.1 r.2) ranges s in
  StronglySorted Z.lt (Indices s') ∧ cs_count s' = Z.of_nat (length (Indices s'))
  ∧ ∀ i, i ∈ Indices s' ↔ ∃ r, r ∈ ranges ∧ touches chunkSize virtualSize r.1 r.2 i.
Proof using GS.
  intros Hs Hr s'. destruct (new_selector_wf s Hs) as [Hwf Hno].
  destruct (fold_Add_marks ranges s Hwf Hr) as [Hwf' Hm]. fold s' in Hwf', Hm.
  split_and!; [apply Indices_sorted|apply (wf_count _ Hwf')|].
  intros i. rewrite (Indices_elem _ _ Hwf'), Hm. split; [|by right]. by intros [?%Hno|?].
Qed.

(** Batched reads cover the requested cells exactly once and in order; each
    batch is one contiguous range of the image that lists its cells' own
    offsets and lengths, and exceeds the limit only when it is a single cell. *)
Theorem GroupChunks_partition indices maxBatch :
  Forall (λ i, 0 ≤ i < grid_cells chunkSize virtualSize) indices → 0 < maxBatch →
  (GroupChunks indices chunkSize virtualSize maxBatch ≫= cg_Indices) = sort_stable Z.ltb indices
  ∧ Forall (λ g, ∃ first n, 0 < n ∧ cg_Indices g = seqZ first n
       ∧ cg_Starts g = (λ i, i * chunkSize) <$> seqZ first n
       ∧ cg_Lengths g = (λ i, ChunkLength i chunkSize virtualSize) <$> seqZ first n
       ∧ cg_Offset g = first * chunkSize
       ∧ cg_Offset g + cg_Length g = Z.min ((first + n) * chunkSize) virtualSize
       ∧ (cg_Length g ≤ maxBatch ∨ n = 1))
      (GroupChunks indices chunkSize virtualSize maxBatch).
Proof using GS.
  intros Hi Hm. destruct (GroupChunks_spec indices maxBatch Hi Hm) as [Hwf Hidx]. split; [done|].
  eapply Forall_impl; [exact Hwf|]. intros g (first & n & []). exists first, n.
  split_and!; [done..|lia|done].
Qed.
End GridTheorems.

Lemma grid_sample : GridSizes 4 10.
Proof. split; lia. Qed.

Lemma selector_exact_witness :
  ∃ s, NewChunkSelector 4 10 = Some s
    ∧ Indices (fold_left (λ s r, Add s r.1 r.2) [(5, 1); (9, 40)] s) = [1; 2]
    ∧ ∀ i, i ∈ Indices (fold_left (λ s r, Add s r.1 r.2) [(5, 1); (9, 40)] s)
           ↔ ∃ r, r ∈ [(5, 1); (9, 40)] ∧ touches 4 10 r.1 r.2 i.
Proof.
  eexists. split; [reflexivity|]. split; [reflexivity|].
  apply (selector_exact (GS := grid_sample) [(5, 1); (9, 40)] _ eq_refl).
  repeat (apply Forall_cons; split; [cbn; lia|]). constructor.
Defined.

Lemma GroupChunks_partition_witness :
  GroupChunks [2; 0; 1] 4 10 8
  = [mkChunkGroup 0 8 [0; 1] [0; 4] [4; 4]; mkChunkGroup 8 2 [2] [8] [2]]
  ∧ (GroupChunks [2; 0; 1] 4 10 8 ≫= cg_Indices) = sort_stable Z.ltb [2; 0; 1].
Proof.
  split; [reflexivity|]. apply (GroupChunks_partition (GS := grid_sample) [2; 0; 1] 8); [|lia].
  repeat (apply Forall_cons; split; [vm_compute; intuition congruence|]). constructor.
Defined.
