(* ===== verification/Format.v ===== *)
(** The storage format ([internal/backup/format.go], [EffectiveChain] of
    [reader.go]): manifests, their validation, and which part of a chain a
    restore reads. *)

From S2P Require Import Prelude Model Grid.
From Stdlib.Strings Require Export Byte.

Abbreviation bytes := (list byte).

#[export] Instance byte_eq_decision : EqDecision byte := Byte.byte_eq_dec.

Definition FormatName : string := "jhvirt-disk".
Definition FormatVersion : Z := 1.

Definition CompressionNone : string := "none".
Definition CompressionZstd : string := "zstd".
Definition CompressionGzip : string := "gzip".
Definition CompressionS2 : string := "s2".

Definition Compressions : list string :=
  [CompressionZstd; CompressionGzip; CompressionS2; CompressionNone].

Definition KnownCompression (name : string) : bool :=
  existsb (λ c, bool_decide (c = name)) Compressions.

(** One grid cell present in a data object. *)
Record Chunk := mkChunk {
  ch_Index : Z;
  ch_Length : Z;
  ch_BlobOffset : Z;
  ch_StoredLength : Z;
  ch_Hash : string
}.

Definition Chunk_Offset (c : Chunk) (chunkSize : Z) : Z := i64 (ch_Index c * chunkSize).

(** The manifest of one disk of one run. The presentation fields (VM and disk
    names, bus, checkpoints, source checksum) are left out. *)
Record DiskManifest := mkDiskManifest {
  dm_Format : string;
  dm_Version : Z;
  dm_RunID : string;
  dm_Type : BackupType;
  dm_DiskID : string;
  dm_VirtualSize : Z;
  dm_ChunkSize : Z;
  dm_Compression : string;
  dm_Encrypted : bool;
  dm_DataKey : string;
  dm_DataSHA256 : string;
  dm_LogicalBytes : Z;
  dm_StoredBytes : Z;
  dm_Chunks : list Chunk
}.

Definition ChunkCount (m : DiskManifest) : Z := Z.of_nat (length (dm_Chunks m)).

Definition GridChunks (m : DiskManifest) : Z :=
  if dm_ChunkSize m <=? 0 then 0
  else Z.quot (i64 (i64 (dm_VirtualSize m + dm_ChunkSize m) - 1)) (dm_ChunkSize m).

Inductive ManifestError :=
| ForeignFormat (f : string) | NewerVersion (v : Z) | BadChunkSize (n : Z)
| BadVirtualSize (n : Z) | UnknownCompression (c : string).

Definition DiskManifest_Validate (m : DiskManifest) : result ManifestError () :=
  fail_if (negb (bool_decide (dm_Format m = FormatName))) (ForeignFormat (dm_Format m)) ;;
  fail_if (FormatVersion <? dm_Version m) (NewerVersion (dm_Version m)) ;;
  fail_if (dm_ChunkSize m <=? 0) (BadChunkSize (dm_ChunkSize m)) ;;
  fail_if (dm_VirtualSize m <? 0) (BadVirtualSize (dm_VirtualSize m)) ;;
  fail_if (negb (KnownCompression (dm_Compression m))) (UnknownCompression (dm_Compression m)).

(** Whether a manifest starts a chain on its own. *)
Definition is_base (m : DiskManifest) : bool :=
  bool_decide (dm_Type m = BackupFull) || bool_decide (dm_Type m = BackupSnapshot).

(** The loop [for i := len-1; i > 0; i--]: the suffix from the last base that
    is not the first element, else the whole chain. *)
Fixpoint effective_from (i : nat) (manifests : list DiskManifest) : list DiskManifest :=
  match i with
  | O => manifests
  | S i' =>
    match manifests !! i with
    | Some m => if is_base m then drop i manifests else effective_from i' manifests
    | None => effective_from i' manifests
    end
  end.

Definition EffectiveChain (manifests : list DiskManifest) : list DiskManifest :=
  effective_from (length manifests - 1) manifests.

Section FormatLemmas.
Lemma DiskManifest_Validate_ok m :
  DiskManifest_Validate m = Ok () ↔
  dm_Format m = FormatName ∧ dm_Version m ≤ FormatVersion ∧ 0 < dm_ChunkSize m
  ∧ 0 ≤ dm_VirtualSize m ∧ KnownCompression (dm_Compression m) = true.
Proof.
  unfold DiskManifest_Validate. repeat setoid_rewrite result_bind_ok.
  setoid_rewrite fail_if_ok. split.
  - intros (_ & H1 & _ & H2 & _ & H3 & _ & H4 & H5). bprop. split_and!; [done|lia..|done].
  - intros (H1 & H2 & H3 & H4 & H5). rewrite H5.
    do 4 (exists (); split; [first [apply negb_false_iff, bool_decide_eq_true_2, H1|lia]|]). done.
Qed.

(** The effective chain is a suffix with nothing but increments after its
    head, and a base at its head unless it is the whole chain. *)
Lemma effective_from_spec i manifests :
  (i < length manifests)%nat →
  (∀ j m, (i < j)%nat → manifests !! j = Some m → is_base m = false) →
  ∃ k, (k < length manifests)%nat ∧ effective_from i manifests = drop k manifests
    ∧ (∀ j m, (k < j)%nat → manifests !! j = Some m → is_base m = false)
    ∧ (k ≠ 0%nat → ∃ m, manifests !! k = Some m ∧ is_base m = true).
Proof.
  induction i as [|i IH]; intros Hi Hafter; cbn.
  { exists 0%nat. rewrite drop_0. done. }
  destruct (lookup_lt_is_Some_2 _ _ Hi) as [m Hm]. rewrite Hm.
  destruct (is_base m) eqn:Hb.
  - exists (S i). split_and!; [done..|by exists m].
  - apply IH; [lia|]. intros j m' Hj Hm'. destruct (decide (j = S i)) as [->|]; [congruence|].
    apply (Hafter j); [lia|done].
Qed.

Lemma EffectiveChain_spec manifests :
  manifests ≠ [] →
  ∃ k, (k < length manifests)%nat ∧ EffectiveChain manifests = drop k manifests
    ∧ (∀ j m, (k < j)%nat → manifests !! j = Some m → is_base m = false)
    ∧ (k ≠ 0%nat → ∃ m, manifests !! k = Some m ∧ is_base m = true).
Proof.
  intros Hne. assert (0 < length manifests)%nat by (destruct manifests; [done|cbn; lia]).
  apply effective_from_spec; [lia|]. intros j m Hj Hm. apply lookup_lt_Some in Hm. lia.
Qed.

(** It is idempotent: loading a chain and opening a reader agree. *)
Lemma EffectiveChain_idemp manifests :
  EffectiveChain (EffectiveChain manifests) = EffectiveChain manifests.
Proof.
  destruct (decide (manifests = [])) as [->|Hne]; [done|].
  destruct (EffectiveChain_spec manifests Hne) as (k & Hk & -> & Hafter & _).
  assert (drop k manifests ≠ []) as Hne'.
  { intros E. apply (f_equal length) in E. rewrite length_drop in E. cbn in E. lia. }
  destruct (EffectiveChain_spec _ Hne') as (k' & Hk' & -> & _ & Hb).
  destruct (decide (k' = 0%nat)) as [->|Hk0]; [by rewrite drop_0|].
  destruct (Hb Hk0) as (m & Hm & Hbm). rewrite lookup_drop in Hm.
  rewrite (Hafter (k + k')%nat m) in Hbm; [done|lia|done].
Qed.
End FormatLemmas.
