(* ===== verification/Repo.v ===== *)
(** The repository interface ([internal/repo/backend.go]) as a type class.

    A backend keeps objects by key. [Put] reports how many bytes it accepted;
    [Get] and [GetRange] are the bytes a reader of the opened object delivers
    before it ends, which may be fewer than asked for. The six implementations
    (local directory, S3, SFTP, SMB, WebDAV, data domain) are behind the class;
    [BackendLaws] is what the backup engine relies on, and the instance at the
    end, a plain object map, shows the laws can hold. *)

From S2P Require Import Prelude Format.

Inductive RepoError :=
| ErrNotExist (key : string) | ErrReadOnly | RepoFailure (detail : string).

Record ObjectInfo := mkObjectInfo { oi_Key : string; oi_Size : Z }.

Class Backend (B : Type) := {
  Put : B → string → bytes → result RepoError (Z * B);
  Get : B → string → result RepoError bytes;
  GetRange : B → string → Z → Z → result RepoError bytes;
  Stat : B → string → result RepoError ObjectInfo;
  Delete : B → string → result RepoError B
}.

(** [\[offset, offset+length)] of a byte string, cut at its end. *)
Definition slice (offset length : Z) (data : bytes) : bytes :=
  take (Z.to_nat length) (drop (Z.to_nat offset) data).

Class BackendLaws (B : Type) `{Backend B} : Prop := {
  put_stores b key data n b' :
    Put b key data = Ok (n, b') →
    n = Z.of_nat (length data) ∧ Get b' key = Ok data
    ∧ ∀ key', key' ≠ key → Get b' key' = Get b key';
  range_of_object b key data offset len :
    Get b key = Ok data → 0 ≤ offset → 0 ≤ len →
    GetRange b key offset len = Ok (slice offset len data);
  stat_of_object b key data :
    Get b key = Ok data → Stat b key = Ok (mkObjectInfo key (Z.of_nat (length data)));
  delete_removes b key b' :
    Delete b key = Ok b' →
    (∃ e, Get b' key = Err e) ∧ ∀ key', key' ≠ key → Get b' key' = Get b key'
}.

(** * An object map *)
Section ObjectMap.
Definition om_get (b : gmap string bytes) (key : string) : result RepoError bytes :=
  of_option (ErrNotExist key) (b !! key).

#[export] Instance object_map : Backend (gmap string bytes) := {
  Put b key data := Ok (Z.of_nat (length data), <[key := data]> b);
  Get := om_get;
  GetRange b key offset len := slice offset len <$> om_get b key;
  Stat b key := (λ d, mkObjectInfo key (Z.of_nat (length d))) <$> om_get b key;
  Delete b key := Ok (delete key b)
}.

#[export] Instance object_map_laws : BackendLaws (gmap string bytes).
Proof.
  split; cbn; unfold om_get.
  - intros b key data n b' [= <- <-]. rewrite lookup_insert_eq. split_and!; [done..|].
    intros key' Hne. by rewrite lookup_insert_ne.
  - intros b key data offset len Hg _ _. by rewrite Hg.
  - intros b key data Hg. by rewrite Hg.
  - intros b key b' [= <-]. rewrite lookup_delete_eq. split; [by eexists|].
    intros key' Hne. by rewrite lookup_delete_ne.
Qed.
End ObjectMap.

Section SliceLemmas.
Lemma length_slice off len d :
  0 ≤ off → 0 ≤ len → off + len ≤ Z.of_nat (length d) →
  Z.of_nat (length (slice off len d)) = len.
Proof. intros. unfold slice. rewrite length_take, length_drop. lia. Qed.

Lemma slice_slice off len off' len' d :
  0 ≤ off → 0 ≤ off' → 0 ≤ len' → off' + len' ≤ len →
  slice off' len' (slice off len d) = slice (off + off') len' d.
Proof.
  intros. unfold slice. rewrite skipn_firstn_comm, take_take, drop_drop.
  f_equal; [lia|]. f_equal. lia.
Qed.

Lemma slice_app_l off len d d' :
  0 ≤ off → 0 ≤ len → off + len ≤ Z.of_nat (length d) →
  slice off len (d ++ d') = slice off len d.
Proof.
  intros. unfold slice. rewrite drop_app_le by lia.
  rewrite take_app_le; [done|]. rewrite length_drop. lia.
Qed.

Lemma slice_app_r d d' :
  slice (Z.of_nat (length d)) (Z.of_nat (length d')) (d ++ d') = d'.
Proof.
  unfold slice. rewrite !Nat2Z.id, drop_app_length, firstn_all. done.
Qed.

Lemma lookup_slice off len d i :
  0 ≤ off → 0 ≤ i < len → slice off len d !! Z.to_nat i = d !! Z.to_nat (off + i).
Proof.
  intros. unfold slice. rewrite lookup_take_lt by lia. rewrite lookup_drop.
  f_equal. lia.
Qed.

Lemma slice_split off n m d :
  0 ≤ off → 0 ≤ n → 0 ≤ m → slice off (n + m) d = slice off n d ++ slice (off + n) m d.
Proof.
  intros. unfold slice. rewrite Z2Nat.inj_add by done. rewrite <-take_take_drop, drop_drop.
  do 3 f_equal. lia.
Qed.

Lemma take_slice off n d :
  0 ≤ off → 0 ≤ n → take (Z.to_nat (off + n)) d = take (Z.to_nat off) d ++ slice off n d.
Proof. intros. unfold slice. by rewrite Z2Nat.inj_add, <-take_take_drop by done. Qed.

Lemma slice_all d n : Z.of_nat (length d) ≤ n → slice 0 n d = d.
Proof. intros. unfold slice. cbn. apply take_ge. lia. Qed.
End SliceLemmas.

(** Writing bytes over a disk image at an offset, inside the image. *)
Definition write_at (off : Z) (data img : bytes) : bytes :=
  take (Z.to_nat off) img ++ data ++ drop (Z.to_nat off + length data) img.

Lemma length_write_at off data img :
  0 ≤ off → off + Z.of_nat (length data) ≤ Z.of_nat (length img) →
  length (write_at off data img) = length img.
Proof. intros. unfold write_at. rewrite !length_app, length_take, length_drop. lia. Qed.

(** Writing the right bytes after a right prefix extends the prefix. *)
Lemma write_at_prefix off data img s :
  0 ≤ off → length s = length img → off + Z.of_nat (length data) ≤ Z.of_nat (length img) →
  take (Z.to_nat off) s = take (Z.to_nat off) img →
  data = slice off (Z.of_nat (length data)) img →
  take (Z.to_nat (off + Z.of_nat (length data))) (write_at off data s)
  = take (Z.to_nat (off + Z.of_nat (length data))) img.
Proof.
  intros Ho Hl Hin Hp Hd. rewrite (take_slice off _ img) by lia. rewrite <-Hd. unfold write_at.
  rewrite Hp, app_assoc, take_app_length'; [done|]. rewrite length_app, length_take. lia.
Qed.
