(* ===== verification/Mirror.v ===== *)
(** Writing to several storages in one pass ([internal/repo/mirror.go]).

    The source is read once and every piece goes through a pipe to each storage.
    A storage is its objects and what its next uploads do: the schedule of the
    goroutines does not matter, because a write to a pipe returns only when the
    storage has taken the piece or has closed its end. *)

From S2P Require Import Prelude StateM Format Repo.

(** What one upload does: it reads its stream to the end and stores it; or it
    closes its end after so many bytes, leaves an object or the old one, and
    returns an error or, wrongly, none. *)
Inductive Behaviour :=
| Reads
| Stops (n : nat) (kept : option bytes) (e : option RepoError).

Record Storage := mkStorage {
  st_Name : string;
  st_objects : gmap string bytes;
  st_next : list Behaviour;
  (** What the next deletions answer. *)
  st_deletes : list (option RepoError);
  st_check : option RepoError
}.

(** How the source ends. *)
Inductive Ending := EOF | ReadError (e : RepoError).

Definition ErrClosedPipe : RepoError := RepoFailure "io: read/write on closed pipe".

Definition put_object (key : string) (o : option bytes) (s : Storage) : Storage :=
  mkStorage (st_Name s) (match o with Some d => <[key := d]> (st_objects s) | None => st_objects s end)
    (tail (st_next s)) (st_deletes s) (st_check s).

(** [b.Put] at the end of its stream: bytes received, and whether the writer
    closed the stream with an error. *)
Definition settle (key : string) (received : bytes) (broken : option RepoError) (s : Storage) :
    Storage * Z * option RepoError :=
  match head (st_next s) with
  | Some (Stops n kept e) =>
    if (n <? length received)%nat || bool_decide (e ≠ None) then
      (put_object key kept s, Z.of_nat (length (default [] kept)), e)
    else
      match broken with
      | Some b => (put_object key None s, 0, Some b)
      | None => (put_object key (Some received) s, Z.of_nat (length received), None)
      end
  | Some Reads | None =>
    match broken with
    | Some b => (put_object key None s, 0, Some b)
    | None => (put_object key (Some received) s, Z.of_nat (length received), None)
    end
  end.

Record Pipe := mkPipe { pi_storage : Storage; pi_received : bytes; pi_active : bool }.

(** [pipe.writer.Write]: the pipe after it, and the error. *)
Definition pipe_write (chunk : bytes) (p : Pipe) : Pipe * option RepoError :=
  let total := pi_received p ++ chunk in
  match head (st_next (pi_storage p)) with
  | Some (Stops n _ e) =>
    if (length total <=? n)%nat then (mkPipe (pi_storage p) total true, None)
    else (mkPipe (pi_storage p) total false, Some (default ErrClosedPipe e))
  | Some Reads | None => (mkPipe (pi_storage p) total true, None)
  end.

Record Mirror := mkMirror {
  mi_primary : Storage;
  mi_mirrors : list Storage;
  mi_failed : gmap string RepoError
}.

(** A wrapper only when there are mirrors. *)
Definition NewMirror (primary : Storage) (mirrors : list (option Storage)) : Storage + Mirror :=
  match omap id mirrors with
  | [] => inl primary
  | live => inr (mkMirror primary live ∅)
  end.

Definition note (name : string) (e : RepoError) (failed : gmap string RepoError) : gmap string RepoError :=
  match failed !! name with Some _ => failed | None => <[name := e]> failed end.

Definition broken (failed : gmap string RepoError) (s : Storage) : bool :=
  bool_decide (is_Some (failed !! st_Name s)).

Definition healthy (m : Mirror) : list Storage :=
  List.filter (λ s, negb (broken (mi_failed m) s)) (mi_mirrors m).

(** One piece to the mirrors that are still active. *)
Fixpoint feed_mirrors (chunk : bytes) (ps : list Pipe) (failed : gmap string RepoError) :
    list Pipe * gmap string RepoError :=
  match ps with
  | [] => ([], failed)
  | p :: ps =>
    if negb (pi_active p) then
      let '(ps, failed) := feed_mirrors chunk ps failed in (p :: ps, failed)
    else
      let '(p, e) := pipe_write chunk p in
      let failed := match e with Some e => note (st_Name (pi_storage p)) e failed | None => failed end in
      let '(ps, failed) := feed_mirrors chunk ps failed in (p :: ps, failed)
  end.

(** The loop over the pieces: the primary comes first in the list of pipes, and
    its failure ends the loop at once. *)
Fixpoint feed (chunks : list bytes) (ending : Ending) (primary : Pipe) (ps : list Pipe)
    (failed : gmap string RepoError) : Pipe * list Pipe * gmap string RepoError * option RepoError :=
  match chunks with
  | [] => (primary, ps, failed, match ending with EOF => None | ReadError e => Some e end)
  | chunk :: chunks =>
    let '(primary, e) := pipe_write chunk primary in
    match e with
    | Some e => (primary, ps, failed, Some e)
    | None =>
      let '(ps, failed) := feed_mirrors chunk ps failed in
      feed chunks ending primary ps failed
    end
  end.

Definition open_pipe (s : Storage) : Pipe := mkPipe s [] true.

(** The end of one pipe: an active one is closed with the error of the copy. *)
Definition close_pipe (key : string) (copyErr : option RepoError) (p : Pipe) :
    Storage * Z * option RepoError :=
  settle key (pi_received p) (if pi_active p then copyErr else Some ErrClosedPipe) (pi_storage p).

(** The results of the mirrors: the storages, and who failed. *)
Fixpoint collect (key : string) (copyErr : option RepoError) (ps : list Pipe)
    (failed : gmap string RepoError) : list Storage * gmap string RepoError :=
  match ps with
  | [] => ([], failed)
  | p :: ps =>
    let '(s, _, e) := close_pipe key copyErr p in
    let failed := match e with Some e => note (st_Name s) e failed | None => failed end in
    let '(ss, failed) := collect key copyErr ps failed in
    (s :: ss, failed)
  end.

(** The mirrors with the ones that took part replaced. *)
Fixpoint put_back (failed : gmap string RepoError) (all used : list Storage) : list Storage :=
  match all with
  | [] => []
  | s :: all =>
    if broken failed s then s :: put_back failed all used
    else match used with
      | u :: used => u :: put_back failed all used
      | [] => s :: put_back failed all []
      end
  end.

(** A storage that reads the source itself. *)
Definition put_direct (key : string) (chunks : list bytes) (ending : Ending) (s : Storage) :
    Storage * Z * option RepoError :=
  let '(p, _, _, copyErr) := feed chunks ending (open_pipe s) [] ∅ in
  close_pipe key copyErr p.

Definition Mirror_Put (key : string) (chunks : list bytes) (ending : Ending) (m : Mirror) :
    Mirror * Z * option RepoError :=
  match healthy m with
  | [] =>
    let '(s, n, e) := put_direct key chunks ending (mi_primary m) in
    (mkMirror s (mi_mirrors m) (mi_failed m), n, e)
  | targets =>
    let '(primary, ps, failed, copyErr) :=
      feed chunks ending (open_pipe (mi_primary m)) (open_pipe <$> targets) (mi_failed m) in
    let '(s, written, primaryErr) := close_pipe key copyErr primary in
    let '(used, failed') := collect key copyErr ps failed in
    (mkMirror s (put_back (mi_failed m) (mi_mirrors m) used) failed', written,
     match primaryErr with Some e => Some e | None => copyErr end)
  end.

(** A deletion that fails has removed nothing. *)
Definition delete_where (gone : string → bool) (s : Storage) : Storage * option RepoError :=
  let rest objects := mkStorage (st_Name s) objects (st_next s) (tail (st_deletes s)) (st_check s) in
  match head (st_deletes s) with
  | Some (Some e) => (rest (st_objects s), Some e)
  | _ => (rest (filter (λ kv, gone kv.1 = false) (st_objects s)), None)
  end.

(** The mirrors first, their failures only noted; [to] is who was healthy. *)
Fixpoint delete_mirrors (gone : string → bool) (before failed : gmap string RepoError)
    (ss : list Storage) : list Storage * gmap string RepoError :=
  match ss with
  | [] => ([], failed)
  | s :: ss =>
    if broken before s then
      let '(ss, failed) := delete_mirrors gone before failed ss in (s :: ss, failed)
    else
      let '(s, e) := delete_where gone s in
      let failed := match e with Some e => note (st_Name s) e failed | None => failed end in
      let '(ss, failed) := delete_mirrors gone before failed ss in (s :: ss, failed)
  end.

Definition Mirror_delete (gone : string → bool) (m : Mirror) : Mirror * option RepoError :=
  let '(ss, failed) := delete_mirrors gone (mi_failed m) (mi_failed m) (mi_mirrors m) in
  let '(s, e) := delete_where gone (mi_primary m) in
  (mkMirror s ss failed, e).

Definition Mirror_Delete (key : string) : Mirror → Mirror * option RepoError :=
  Mirror_delete (λ k, bool_decide (k = key)).

Definition Mirror_DeletePrefix (prefix : string) : Mirror → Mirror * option RepoError :=
  Mirror_delete (String.prefix prefix).

(** The primary's problem, or those of all the mirrors. *)
Definition Mirror_Check (m : Mirror) : list RepoError :=
  match st_check (mi_primary m) with
  | Some e => [e]
  | None => omap st_check (mi_mirrors m)
  end.

(** Reading comes from the primary only. *)
Definition Mirror_Get (m : Mirror) (key : string) : result RepoError bytes :=
  of_option (ErrNotExist key) (st_objects (mi_primary m) !! key).

Definition Failed (m : Mirror) : gmap string RepoError := mi_failed m.

(** * What the primary sees *)
Section Primary.
Lemma feed_primary chunks ending : ∀ p ps failed,
  let '(p1, _, _, e1) := feed chunks ending p ps failed in
  let '(p2, _, _, e2) := feed chunks ending p [] ∅ in
  p1 = p2 ∧ e1 = e2.
Proof.
  induction chunks as [|chunk chunks IH]; intros p ps failed; cbn [feed]; [done|].
  destruct (pipe_write chunk p) as [p' [e|]]; [done|].
  destruct (feed_mirrors chunk ps failed) as [ps' failed'].
  change (feed_mirrors chunk [] ∅) with (([] : list Pipe), (∅ : gmap string RepoError)).
  pose proof (IH p' ps' failed') as H. destruct (feed chunks ending p' ps' failed') as [[[? ?] ?] ?]. done.
Qed.

(** A pipe after some pieces went through it. *)
Definition pipe_state (s : Storage) (taken : bytes) (p : Pipe) : Prop :=
  pi_storage p = s ∧ pi_received p = taken ∧ pi_active p = true
  ∧ match head (st_next s) with Some (Stops n _ _) => (length taken ≤ n)%nat | _ => True end.

Lemma pipe_write_ok s taken chunk p :
  pipe_state s taken p →
  match pipe_write chunk p with
  | (p', None) => pipe_state s (taken ++ chunk) p'
  | (p', Some e) => pi_storage p' = s ∧ pi_active p' = false
      ∧ ∃ n kept e', head (st_next s) = Some (Stops n kept e')
         ∧ (n < length (pi_received p'))%nat ∧ e = default ErrClosedPipe e'
  end.
Proof.
  intros (Hs & Ht & Ha & Hn). unfold pipe_write. rewrite Hs, Ht.
  destruct (head (st_next s)) as [[|n kept e]|] eqn:Hh.
  - by repeat split; rewrite ?Hh.
  - destruct (Nat.leb_spec (length (taken ++ chunk)) n).
    + repeat split. rewrite Hh. done.
    + split_and!; [done|done|]. exists n, kept, e. split_and!; [done|cbn; lia|done].
  - by repeat split; rewrite ?Hh.
Qed.

Lemma open_pipe_state s : pipe_state s [] (open_pipe s).
Proof. repeat split. destruct (head _) as [[]|]; cbn; [done|lia|done]. Qed.
End Primary.

(** * Mirrors in step with the primary *)

(** An upload that reports success has read its stream to the end. *)
Definition honest (s : Storage) : Prop := ∀ n kept, Stops n kept None ∉ st_next s.

(** The keys of one map of failures stay in the next. *)
Definition grows (f g : gmap string RepoError) : Prop := ∀ k, is_Some (f !! k) → is_Some (g !! k).

Section Feeding.
#[export] Instance grows_refl : Reflexive grows.
Proof. by intros f k. Qed.
#[export] Instance grows_trans : Transitive grows.
Proof. intros f g h Hfg Hgh k Hk. by apply Hgh, Hfg. Qed.

Lemma note_grows name e f : grows f (note name e f) ∧ is_Some (note name e f !! name).
Proof.
  unfold note. destruct (f !! name) as [e'|] eqn:Hf; [by split; [|exists e']|].
  split; [|rewrite lookup_insert_eq; by eexists].
  intros k [x Hx]. destruct (decide (k = name)) as [->|]; [by rewrite Hx in Hf|].
  rewrite lookup_insert_ne by congruence. by exists x.
Qed.

Definition note_opt (name : string) (e : option RepoError) (f : gmap string RepoError) :
    gmap string RepoError := match e with Some e => note name e f | None => f end.

Lemma note_opt_grows name e f : grows f (note_opt name e f).
Proof. destruct e; [apply note_grows|done]. Qed.

(** A mirror's pipe: it has everything so far, or its failure is noted. *)
Definition good_pipe (failed : gmap string RepoError) (taken : bytes) (s : Storage) (p : Pipe) : Prop :=
  pi_storage p = s ∧ (pipe_state s taken p ∨ (pi_active p = false ∧ is_Some (failed !! st_Name s))).

Lemma good_pipe_grows f g taken s p : grows f g → good_pipe f taken s p → good_pipe g taken s p.
Proof. intros Hg [Hs [?|[? Hf]]]; (split; [done|]); [by left|right; auto]. Qed.

Lemma feed_mirrors_good chunk taken ss ps : ∀ failed,
  Forall2 (good_pipe failed taken) ss ps →
  let '(ps', failed') := feed_mirrors chunk ps failed in
  grows failed failed' ∧ Forall2 (good_pipe failed' (taken ++ chunk)) ss ps'.
Proof.
  revert ps. induction ss as [|s ss IH]; intros ps failed Hall; inversion Hall as [|? p ? ps0 Hp Hps]; subst;
    cbn [feed_mirrors]; [by split|].
  destruct Hp as [Hs Hcase]. destruct (pi_active p) eqn:Ha; cbn [negb].
  - destruct Hcase as [Hst|[? _]]; [|congruence]. pose proof (pipe_write_ok s taken chunk p Hst) as Hw.
    destruct (pipe_write chunk p) as [p' e]. fold (note_opt (st_Name (pi_storage p')) e failed).
    specialize (IH ps0 (note_opt (st_Name (pi_storage p')) e failed)).
    destruct (feed_mirrors chunk ps0 _) as [ps' failed'].
    destruct IH as [Hg Hall'].
    { eapply Forall2_impl; [exact Hps|]. intros. eapply good_pipe_grows; [apply note_opt_grows|done]. }
    split; [etrans; [apply note_opt_grows|exact Hg]|]. constructor; [|done].
    destruct e as [e|].
    + destruct Hw as (Hs' & Ha' & _). split; [done|]. right. split; [done|]. apply Hg. rewrite Hs'.
      apply note_grows.
    + split; [|by left]. by destruct Hw.
  - specialize (IH ps0 failed Hps). destruct (feed_mirrors chunk ps0 failed) as [ps' failed'].
    destruct IH as [Hg Hall']. split; [done|]. constructor; [|done]. split; [done|]. right. split; [done|].
    apply Hg. destruct Hcase as [(_ & _ & ? & _)|[_ ?]]; [congruence|done].
Qed.

Lemma feed_good chunks ending s ss : ∀ p taken ps failed,
  pipe_state s taken p → Forall2 (good_pipe failed taken) ss ps →
  let '(p', ps', failed', e) := feed chunks ending p ps failed in
  grows failed failed' ∧
  (e = None → ending = EOF ∧ pipe_state s (taken ++ concat chunks) p'
     ∧ Forall2 (good_pipe failed' (taken ++ concat chunks)) ss ps').
Proof.
  induction chunks as [|chunk chunks IH]; intros p taken ps failed Hp Hps; cbn [feed concat].
  { split; [done|]. rewrite (right_id_L [] (++)). by destruct ending. }
  pose proof (pipe_write_ok s taken chunk p Hp) as Hw. destruct (pipe_write chunk p) as [p' [e|]]; [done|].
  pose proof (feed_mirrors_good chunk taken ss ps failed Hps) as Hm.
  destruct (feed_mirrors chunk ps failed) as [ps' failed']. destruct Hm as [Hg Hall].
  specialize (IH p' (taken ++ chunk) ps' failed' Hw Hall).
  destruct (feed chunks ending p' ps' failed') as [[[p2 ps2] failed2] e2]. destruct IH as [Hg2 Hok].
  split; [by etrans|]. intros He. rewrite (assoc_L (++)). by apply Hok.
Qed.

(** An upload whose stream ended well. *)
Lemma close_pipe_done key s taken p :
  honest s → pipe_state s taken p →
  let '(s', n, e) := close_pipe key None p in
  st_Name s' = st_Name s ∧ honest s'
  ∧ (e = None → st_objects s' = <[key := taken]> (st_objects s)).
Proof.
  intros Hh (Hs & Ht & Ha & Hn). unfold close_pipe, settle. rewrite Ha, Hs, Ht.
  assert (∀ o, honest (put_object key o s)) as Hh'.
  { intros o n kept Hin. apply (Hh n kept). cbn in Hin. destruct (st_next s); [done|by right]. }
  destruct (head (st_next s)) as [[|n kept e]|] eqn:Hhd; cbn; [done| |done].
  destruct e as [e|].
  - rewrite orb_true_r. done.
  - exfalso. destruct (st_next s) as [|b bs] eqn:Hb; [done|]. injection Hhd as ->.
    apply (Hh n kept). rewrite Hb. by left.
Qed.

Lemma close_pipe_name key copyErr p : st_Name (close_pipe key copyErr p).1.1 = st_Name (pi_storage p).
Proof. unfold close_pipe, settle. by repeat case_match. Qed.

(** What became of one mirror. *)
Definition mirrored (key : string) (data : bytes) (failed : gmap string RepoError) (s s' : Storage) : Prop :=
  st_Name s' = st_Name s ∧ honest s'
  ∧ (is_Some (failed !! st_Name s) ∨ st_objects s' = <[key := data]> (st_objects s)).

Lemma close_honest key copyErr p : honest (pi_storage p) → honest (close_pipe key copyErr p).1.1.
Proof.
  intros Hh. assert (∀ o, honest (put_object key o (pi_storage p))) as Hh'.
  { intros o n kept Hin. apply (Hh n kept). cbn in Hin. destruct (st_next (pi_storage p)); [done|by right]. }
  unfold close_pipe, settle. repeat case_match; apply Hh'.
Qed.

Lemma collect_mirrored key data ss ps : ∀ failed,
  (∀ s, s ∈ ss → honest s) → Forall2 (good_pipe failed data) ss ps →
  let '(used, failed') := collect key None ps failed in
  grows failed failed' ∧ Forall2 (mirrored key data failed') ss used.
Proof.
  revert ps. induction ss as [|s ss IH]; intros ps failed Hh Hall; inversion Hall as [|? p ? ps0 Hp Hps]; subst;
    cbn [collect]; [by split|].
  destruct Hp as [Hs Hcase].
  pose proof (close_pipe_name key None p) as Hname. pose proof (close_honest key None p) as Hhon.
  pose proof (close_pipe_done key s data p) as Hdone.
  destruct (close_pipe key None p) as [[s' n] e]. cbn in Hname, Hhon. rewrite Hs in Hname, Hhon.
  fold (note_opt (st_Name s') e failed).
  specialize (IH ps0 (note_opt (st_Name s') e failed)).
  destruct (collect key None ps0 _) as [used failed'].
  destruct IH as [Hg Hall']; [intros x Hx; apply Hh; by right| |].
  { eapply Forall2_impl; [exact Hps|]. intros. eapply good_pipe_grows; [apply note_opt_grows|done]. }
  split; [etrans; [apply note_opt_grows|exact Hg]|]. constructor; [|done].
  split; [done|]. split; [apply Hhon, Hh; by left|]. destruct Hcase as [Hst|[_ Hf]].
  - destruct Hdone as (_ & _ & Hobj); [apply Hh; by left|done|].
    destruct e as [e|]; [left|right; by apply Hobj]. apply Hg. rewrite <-Hname. apply note_grows.
  - left. by apply Hg, note_opt_grows.
Qed.

Lemma put_back_mirrored key data before failed' all : ∀ used,
  grows before failed' → (∀ s, s ∈ all → honest s) →
  Forall2 (mirrored key data failed') (List.filter (λ s, negb (broken before s)) all) used →
  Forall2 (mirrored key data failed') all (put_back before all used).
Proof.
  induction all as [|s all IH]; intros used Hg Hh Hall; cbn in *; [constructor|].
  destruct (broken before s) eqn:Hb; cbn in Hall.
  - constructor; [|apply IH; [done|intros x Hx; apply Hh; by right|done]].
    split; [done|]. split; [apply Hh; by left|]. left. apply Hg. by apply bool_decide_eq_true in Hb.
  - inversion Hall as [|? u ? used0 Hu Hrest]; subst. constructor; [done|].
    apply IH; [done|intros x Hx; apply Hh; by right|done].
Qed.
End Feeding.

(** * A sequence of operations against one map of objects *)

Inductive Op :=
| OpPut (key : string) (chunks : list bytes) (ending : Ending)
| OpDelete (key : string)
| OpDeletePrefix (prefix : string).

Definition run_op (m : Mirror) (o : Op) : Mirror * option RepoError :=
  match o with
  | OpPut key chunks ending => let '(m, _, e) := Mirror_Put key chunks ending m in (m, e)
  | OpDelete key => Mirror_Delete key m
  | OpDeletePrefix prefix => Mirror_DeletePrefix prefix m
  end.

(** The run goes on until an operation reports an error. *)
Fixpoint run_ops (m : Mirror) (os : list Op) : Mirror * option RepoError :=
  match os with
  | [] => (m, None)
  | o :: os => match run_op m o with (m, None) => run_ops m os | stop => stop end
  end.

(** What an operation promises: a change of one map. *)
Definition meaning (o : Op) (objects : gmap string bytes) : gmap string bytes :=
  match o with
  | OpPut key chunks _ => <[key := concat chunks]> objects
  | OpDelete key => delete key objects
  | OpDeletePrefix prefix => filter (λ kv, String.prefix prefix kv.1 = false) objects
  end.

(** A mirror that nobody noted as failed has exactly these objects. *)
Definition holds (objects : gmap string bytes) (failed : gmap string RepoError) (s : Storage) : Prop :=
  honest s ∧ (is_Some (failed !! st_Name s) ∨ st_objects s = objects).

Record in_step (objects : gmap string bytes) (m : Mirror) : Prop := {
  is_primary : st_objects (mi_primary m) = objects;
  is_honest : honest (mi_primary m);
  is_mirrors : ∀ s, s ∈ mi_mirrors m → holds objects (mi_failed m) s
}.

Section InStep.
Lemma settle_broken key received b s : honest s → (settle key received (Some b) s).2 ≠ None.
Proof.
  intros Hh. unfold settle. destruct (head (st_next s)) as [[|n kept [e|]]|] eqn:Hhd; cbn; try done.
  - by rewrite orb_true_r.
  - exfalso. destruct (st_next s) as [|x xs] eqn:Hn; [done|]. injection Hhd as ->.
    apply (Hh n kept). rewrite Hn. by left.
Qed.

Lemma close_broken key b p : honest (pi_storage p) → (close_pipe key (Some b) p).2 ≠ None.
Proof. intros Hh. unfold close_pipe. destruct (pi_active p); by apply settle_broken. Qed.

Lemma pipe_write_storage chunk p : pi_storage (pipe_write chunk p).1 = pi_storage p.
Proof. unfold pipe_write. by repeat case_match. Qed.

Lemma feed_storage chunks ending : ∀ p ps failed,
  pi_storage (feed chunks ending p ps failed).1.1.1 = pi_storage p.
Proof.
  induction chunks as [|c cs IH]; intros p ps failed; cbn [feed]; [done|].
  pose proof (pipe_write_storage c p) as Hp. destruct (pipe_write c p) as [p' [e|]]; [done|].
  destruct (feed_mirrors c ps failed). by rewrite IH.
Qed.

Lemma Mirror_Put_primary key chunks ending m m' n e :
  honest (mi_primary m) →
  Mirror_Put key chunks ending m = (m', n, e) →
  put_direct key chunks ending (mi_primary m) = (mi_primary m', n, e).
Proof.
  intros Hh. unfold Mirror_Put. destruct (healthy m) as [|t ts].
  { destruct (put_direct _ _ _ _) as [[s k] e']. by intros [= <- <- <-]. }
  unfold put_direct.
  pose proof (feed_primary chunks ending (open_pipe (mi_primary m)) (open_pipe <$> t :: ts) (mi_failed m)) as Hf.
  pose proof (feed_storage chunks ending (open_pipe (mi_primary m)) [] ∅) as Hs.
  destruct (feed chunks ending _ (open_pipe <$> _) _) as [[[p1 ps] failed] e1].
  destruct (feed chunks ending _ [] ∅) as [[[p2 ?] ?] e2]. destruct Hf as [<- <-]. cbn in Hs.
  assert (∀ b, e1 = Some b → (close_pipe key e1 p1).2 ≠ None) as Hb.
  { intros b ->. apply close_broken. by rewrite Hs. }
  destruct (close_pipe key e1 p1) as [[s w] pe]. destruct (collect key e1 ps failed) as [used failed'].
  intros [= <- <- <-]. cbn in *. destruct pe; [done|]. destruct e1 as [b|]; [|done]. by destruct (Hb b).
Qed.

Lemma mirrored_holds key data failed s s' objects :
  mirrored key data failed s s' → st_objects s = objects → holds (<[key := data]> objects) failed s'.
Proof.
  intros (Hn & Hh & Hd) Ho. split; [done|]. rewrite Hn.
  destruct Hd as [Hd|Hd]; [by left|]. right. by rewrite Hd, Ho.
Qed.
End InStep.

Section Steps.
Lemma put_direct_done key chunks ending s s' n :
  honest s → put_direct key chunks ending s = (s', n, None) →
  st_objects s' = <[key := concat chunks]> (st_objects s) ∧ honest s'.
Proof.
  intros Hh. unfold put_direct.
  pose proof (feed_good chunks ending s [] (open_pipe s) [] [] ∅ (open_pipe_state s) (proj2 (Forall2_nil _) I)) as Hf.
  pose proof (feed_storage chunks ending (open_pipe s) [] ∅) as Hs.
  destruct (feed _ _ _ _ _) as [[[p ?] ?] e]. destruct Hf as [_ Hok]. cbn in Hs. intros Hc.
  destruct e as [b|].
  - pose proof (close_broken key b p) as Hb. rewrite Hs, Hc in Hb. by destruct (Hb Hh).
  - destruct (Hok eq_refl) as (_ & Hp & _). cbn [app] in Hp.
    pose proof (close_pipe_done key s _ p Hh Hp) as Hd. rewrite Hc in Hd. destruct Hd as (_ & ? & Hd). auto.
Qed.

Lemma healthy_good m failed :
  Forall2 (good_pipe failed []) (healthy m) (open_pipe <$> healthy m).
Proof.
  induction (healthy m) as [|s ss IH]; cbn; constructor; [|done].
  split; [done|left; apply open_pipe_state].
Qed.

Lemma unhealthy_holds m objects s :
  healthy m = [] → s ∈ mi_mirrors m → honest s → holds objects (mi_failed m) s.
Proof.
  intros Hh Hs Ho. split; [done|left]. destruct (broken (mi_failed m) s) eqn:Hb; [by apply bool_decide_eq_true in Hb|].
  assert (s ∈ healthy m) as Hin by (apply elem_of_filter_bool; by rewrite Hb). rewrite Hh in Hin. set_solver.
Qed.

Lemma Mirror_Put_mirrors key chunks ending m m' n :
  honest (mi_primary m) → (∀ s, s ∈ mi_mirrors m → honest s) →
  Mirror_Put key chunks ending m = (m', n, None) → healthy m ≠ [] →
  grows (mi_failed m) (mi_failed m')
  ∧ Forall2 (mirrored key (concat chunks) (mi_failed m')) (mi_mirrors m) (mi_mirrors m').
Proof.
  intros Hp Hm. pose proof (healthy_good m (mi_failed m)) as Hgood. unfold Mirror_Put.
  assert (∀ s, s ∈ healthy m → honest s) as Hh by (intros s Hs; apply elem_of_filter_bool in Hs; apply Hm, Hs).
  pose proof (feed_good chunks ending (mi_primary m) (healthy m) (open_pipe (mi_primary m)) []
    (open_pipe <$> healthy m) (mi_failed m) (open_pipe_state _) Hgood) as Hf.
  pose proof (feed_storage chunks ending (open_pipe (mi_primary m)) (open_pipe <$> healthy m) (mi_failed m)) as Hs.
  destruct (healthy m) as [|t ts] eqn:Hts; [done|]. intros Hput _. revert Hput.
  destruct (feed _ _ _ _ _) as [[[p ps] failed] e]. cbn in Hs. destruct Hf as [Hg Hok].
  destruct (close_pipe key e p) as [[s w] pe] eqn:Hc.
  destruct (collect key e ps failed) as [used failed'] eqn:Hcol. intros [= <- _ He]. cbn.
  destruct pe; [done|]. subst e. destruct (Hok eq_refl) as (_ & _ & Hps).
  pose proof (collect_mirrored key _ (t :: ts) ps failed Hh Hps) as Hmir. rewrite Hcol in Hmir.
  destruct Hmir as [Hg' Hmir]. assert (grows (mi_failed m) failed') as Hgg by (by etrans).
  split; [done|]. apply put_back_mirrored; [done|done|]. unfold healthy in Hts. by rewrite Hts.
Qed.

Lemma Put_in_step key chunks ending objects m m' n :
  in_step objects m → Mirror_Put key chunks ending m = (m', n, None) →
  in_step (<[key := concat chunks]> objects) m'.
Proof.
  intros [Hp Hh Hm] Hput. pose proof (Mirror_Put_primary _ _ _ _ _ _ _ Hh Hput) as Hdir.
  destruct (put_direct_done _ _ _ _ _ _ Hh Hdir) as [Ho Hh'].
  split; [by rewrite Ho, Hp|done|].
  destruct (decide (healthy m = [])) as [He|He].
  - assert (mi_mirrors m' = mi_mirrors m ∧ mi_failed m' = mi_failed m) as [-> ->].
    { revert Hput. unfold Mirror_Put. rewrite He. destruct (put_direct _ _ _ _) as [[? ?] ?]. by intros [= <- _ _]. }
    intros s Hs. apply unhealthy_holds; [done|done|apply Hm, Hs].
  - destruct (Mirror_Put_mirrors _ _ _ _ _ _ Hh (λ s Hs, proj1 (Hm s Hs)) Hput He) as [Hg Hall].
    intros s' Hs'. destruct (list_elem_of_lookup_1 _ _ Hs') as [i Hi].
    destruct (Forall2_lookup_r _ _ _ _ _ Hall Hi) as (s & Hsi & Hmir).
    destruct (Hm s) as [Hhs [Hf|Hobj]]; [by eapply list_elem_of_lookup_2| |by eapply mirrored_holds].
    destruct Hmir as (Hn & Hh2 & _). split; [done|left]. rewrite Hn. by apply Hg.
Qed.

Lemma delete_where_done gone s s' e :
  honest s → delete_where gone s = (s', e) →
  st_Name s' = st_Name s ∧ honest s'
  ∧ (e = None → st_objects s' = filter (λ kv, gone kv.1 = false) (st_objects s)).
Proof.
  intros Hh. unfold delete_where. destruct (head (st_deletes s)) as [[x|]|]; intros [= <- <-];
    (split_and!; [done|exact Hh|done]).
Qed.

Lemma delete_mirrors_holds gone before objects ss : ∀ failed,
  grows before failed → (∀ s, s ∈ ss → holds objects before s) →
  let '(ss', failed') := delete_mirrors gone before failed ss in
  grows failed failed'
  ∧ ∀ s, s ∈ ss' → holds (filter (λ kv, gone kv.1 = false) objects) failed' s.
Proof.
  induction ss as [|s ss IH]; intros failed Hg Hss; cbn [delete_mirrors]; [split; [done|set_solver]|].
  destruct (Hss s) as [Hh Hs]; [by left|].
  assert (∀ s, s ∈ ss → holds objects before s) as Hss' by (intros x Hx; apply Hss; by right).
  destruct (broken before s) eqn:Hb.
  - specialize (IH failed Hg Hss'). destruct (delete_mirrors gone before failed ss) as [ss' failed'].
    destruct IH as [Hg' Hall]. split; [done|]. intros x [->|Hx]%elem_of_cons; [|by apply Hall].
    split; [done|left]. apply Hg', Hg. by apply bool_decide_eq_true in Hb.
  - destruct (delete_where gone s) as [s' e] eqn:Hd. apply delete_where_done in Hd as (Hn & Hh' & Hobj); [|done].
    fold (note_opt (st_Name s') e failed).
    specialize (IH (note_opt (st_Name s') e failed)).
    destruct (delete_mirrors gone before _ ss) as [ss' failed'].
    destruct IH as [Hg' Hall]; [etrans; [done|apply note_opt_grows]|done|].
    split; [etrans; [apply note_opt_grows|done]|]. intros x [->|Hx]%elem_of_cons; [|by apply Hall].
    split; [done|]. destruct e as [e|]; [left; apply Hg', note_grows|right]. rewrite Hobj by done.
    destruct Hs as [Hs|<-]; [|done]. unfold broken in Hb. by apply bool_decide_eq_false in Hb.
Qed.

Lemma delete_in_step gone objects m m' :
  in_step objects m → Mirror_delete gone m = (m', None) →
  in_step (filter (λ kv, gone kv.1 = false) objects) m'.
Proof.
  intros [Hp Hh Hm]. unfold Mirror_delete.
  pose proof (delete_mirrors_holds gone (mi_failed m) objects (mi_mirrors m) (mi_failed m) (reflexivity _) Hm) as Hd.
  destruct (delete_mirrors _ _ _ _) as [ss failed]. destruct Hd as [_ Hall].
  destruct (delete_where gone (mi_primary m)) as [s e] eqn:Hs. intros [= <- ->].
  apply delete_where_done in Hs as (_ & Hh' & Hobj); [|done]. split; cbn; [by rewrite Hobj, Hp|done|done].
Qed.

Lemma run_op_in_step o objects m m' :
  in_step objects m → run_op m o = (m', None) → in_step (meaning o objects) m'.
Proof.
  intros Hm. destruct o as [key chunks ending|key|prefix]; cbn.
  - destruct (Mirror_Put key chunks ending m) as [[m1 n] e] eqn:Hput. intros [= -> ->].
    by eapply Put_in_step.
  - intros Hd. apply (delete_in_step _ objects) in Hd; [|done].
    replace (delete key objects) with (filter (λ kv : string * bytes, bool_decide (kv.1 = key) = false) objects); [done|].
    apply map_eq. intros k. rewrite map_lookup_filter. destruct (decide (k = key)) as [->|Hk].
    + rewrite lookup_delete_eq. destruct (objects !! key); cbn; [|done]. by rewrite option_guard_False by (by rewrite bool_decide_true).
    + rewrite lookup_delete_ne by congruence. destruct (objects !! k); cbn; [|done].
      by rewrite option_guard_True by (by rewrite bool_decide_false).
  - intros Hd. by apply (delete_in_step _ objects) in Hd.
Qed.

Lemma run_ops_in_step os : ∀ objects m m',
  in_step objects m → run_ops m os = (m', None) →
  in_step (fold_left (λ objects o, meaning o objects) os objects) m'.
Proof.
  induction os as [|o os IH]; intros objects m m' Hm; cbn; [by intros [= ->]|].
  destruct (run_op m o) as [m1 [e|]] eqn:Ho; [done|]. apply IH. by eapply run_op_in_step.
Qed.
End Steps.

(** * What is claimed *)

(** C20. A mirror implements one storage. Start with storages that hold the
    same objects, with no failure noted; let every upload that reports success
    have read its stream. Whatever the mirrors do -- stop in the middle of an
    upload, fail at its end, refuse a deletion -- after any sequence of uploads
    and deletions that ended without an error the primary storage holds exactly
    what the same operations make of one map of objects, and so does every
    mirror [Failed] does not name: no mirror that fell behind goes unnoted. *)
Theorem mirrors_in_step (primary : Storage) (mirrors : list (option Storage)) (m m' : Mirror)
    (os : list Op)
    (Hnew : NewMirror primary mirrors = inr m)
    (Hhonest : honest primary ∧ ∀ s, Some s ∈ mirrors → honest s)
    (Hsame : ∀ s, Some s ∈ mirrors → st_objects s = st_objects primary)
    (Hrun : run_ops m os = (m', None)) :
  let objects := fold_left (λ objects o, meaning o objects) os (st_objects primary) in
  st_objects (mi_primary m') = objects
  ∧ ∀ s, s ∈ mi_mirrors m' → Failed m' !! st_Name s = None → st_objects s = objects.
Proof.
  assert (m = mkMirror primary (omap id mirrors) ∅) as ->.
  { unfold NewMirror in Hnew. destruct (omap id mirrors); by inversion Hnew. }
  apply (run_ops_in_step os (st_objects primary)) in Hrun as [Hp _ Hm].
  - split; [done|]. intros s Hs Hf. destruct (Hm s Hs) as [_ [[e He]|?]]; [|done].
    unfold Failed in Hf. congruence.
  - split; cbn; [done|exact (proj1 Hhonest)|]. intros s Hs.
    apply list_elem_of_omap in Hs as (o & Ho & Hoe). cbn in Hoe. subst o.
    split; [exact (proj2 Hhonest s Ho)|right; by apply Hsame].
Qed.

(** The mirrors cannot hurt the backup: whatever they do and however many
    there are, an upload through the mirror leaves the primary storage, the
    count of bytes and the error exactly as the same upload into the primary
    alone, as long as the primary's own success means it read its stream. *)
Theorem mirror_refines_primary (key : string) (chunks : list bytes) (ending : Ending) (m m' : Mirror)
    (n : Z) (e : option RepoError)
    (Hhonest : honest (mi_primary m))
    (Hput : Mirror_Put key chunks ending m = (m', n, e)) :
  put_direct key chunks ending (mi_primary m) = (mi_primary m', n, e).
Proof. by eapply Mirror_Put_primary. Qed.

(** * Samples *)
Module Sample.
Definition store (name : string) (next : list Behaviour) : Storage := mkStorage name ∅ next [] None.
Definition full : RepoError := RepoFailure "no space left on device".

(** Three storages: the second runs out of space after one byte. *)
Definition three : Mirror :=
  mkMirror (store "local" []) [store "s3" [Stops 1 None (Some full)]; store "nas" []] ∅.

Definition work : list Op :=
  [OpPut "a" [[x01; x02]; [x03]] EOF; OpPut "b" [[x04]] EOF; OpDelete "a"].

Lemma mirrors_in_step_witness :
  Failed (run_ops three work).1 !! "s3" = Some full
  ∧ st_objects (mi_primary (run_ops three work).1) = {["b" := [x04]]}.
Proof.
  split; [vm_compute; reflexivity|].
  refine (proj1 (mirrors_in_step (mi_primary three) (Some <$> mi_mirrors three) three
    (run_ops three work).1 work _ _ _ _)).
  - reflexivity.
  - split; [intros ? ? H; inversion H|]. intros s H n kept Hin. cbn in H.
    apply elem_of_cons in H as [[= ->]|[[= ->]|H]%elem_of_cons]; [|inversion Hin|inversion H].
    apply list_elem_of_singleton in Hin. discriminate Hin.
  - intros s H. cbn in H.
    apply elem_of_cons in H as [[= ->]|[[= ->]|H]%elem_of_cons]; [reflexivity|reflexivity|inversion H].
  - vm_compute. reflexivity.
Defined.

Lemma mirror_refines_primary_witness :
  put_direct "a" [[x01; x02]; [x03]] EOF (store "local" [])
  = (mi_primary (Mirror_Put "a" [[x01; x02]; [x03]] EOF three).1.1, 3, None).
Proof.
  apply (mirror_refines_primary "a" [[x01; x02]; [x03]] EOF three (Mirror_Put "a" [[x01; x02]; [x03]] EOF three).1.1 3 None).
  - intros n kept H. inversion H.
  - vm_compute. reflexivity.
Defined.
End Sample.
