(* ===== verification/Codec.v ===== *)
(** Chunk encoding ([internal/backup/codec.go], [internal/secret/cipher.go]):
    per-chunk compression and AES-GCM encryption, with the SHA-256 of the
    plaintext.

    The compression libraries, the AEAD primitive and SHA-256 are parameters;
    [Compressor] and [AEAD] state what the code relies on of them. *)

From S2P Require Import Prelude Format Repo.

Inductive CodecError :=
| BadLevel (level : Z) | UnknownAlgorithm (name : string)
| CompressFailed | DecompressFailed | SealedTooShort | OpenFailed
| WrongLength (got want : Z) | DigestMismatch (got want : string).

(** The three algorithms with their own implementation. *)
Inductive Algo := AlgoZstd | AlgoGzip | AlgoS2.

#[export] Instance Algo_eq_dec : EqDecision Algo.
Proof. solve_decision. Defined.

(** Compression libraries: decompressing what the same algorithm produced
    restores it. [wantLen] is the length hint the code passes. *)
Class Compressor := {
  compress : Algo → Z → bytes → result CodecError bytes;
  decompress : Algo → bytes → Z → result CodecError bytes;
  decompress_compress algo level plain stored :
    compress algo level plain = Ok stored →
    decompress algo stored (Z.of_nat (length plain)) = Ok plain
}.

(** An AEAD with a fixed key, nonce size and tag. *)
Class AEAD (C : Type) := {
  NonceSize : C → nat;
  seal : C → bytes → bytes → bytes;
  open : C → bytes → bytes → option bytes;
  aead_Overhead : C → nat;
  open_seal c nonce plain :
    length nonce = NonceSize c → open c nonce (seal c nonce plain) = Some plain;
  seal_length c nonce plain :
    length nonce = NonceSize c → (length (seal c nonce plain) ≤ length plain + aead_Overhead c)%nat
}.

Section Cipher.
Context {C : Type} `{AEAD C}.

(** [EncryptBytes] with the nonce [crypto/rand] produced. *)
Definition EncryptBytes (c : C) (nonce plain : bytes) : bytes := nonce ++ seal c nonce plain.

Definition DecryptBytes (c : C) (sealed : bytes) : result CodecError bytes :=
  let ns := NonceSize c in
  if Nat.ltb (length sealed) ns then Err SealedTooShort
  else of_option OpenFailed (open c (take ns sealed) (drop ns sealed)).

(** [Overhead]: how many bytes encryption adds to a chunk. *)
Definition Overhead (c : C) : nat := NonceSize c + aead_Overhead c.

Lemma EncryptBytes_length c nonce plain :
  length nonce = NonceSize c →
  (length (EncryptBytes c nonce plain) ≤ length plain + Overhead c)%nat.
Proof.
  intros Hn. unfold EncryptBytes, Overhead. rewrite length_app, Hn.
  pose proof (seal_length c nonce plain Hn). lia.
Qed.

Lemma DecryptBytes_EncryptBytes c nonce plain :
  length nonce = NonceSize c → DecryptBytes c (EncryptBytes c nonce plain) = Ok plain.
Proof.
  intros Hn. unfold DecryptBytes, EncryptBytes. rewrite length_app, <-Hn.
  destruct (Nat.ltb_spec (length nonce + length (seal c nonce plain)) (length nonce)); [lia|].
  rewrite take_app_length, drop_app_length, open_seal by done. done.
Qed.
End Cipher.

Section Codec.
Context {C : Type} `{!AEAD C} `{!Compressor}.
(** [hex(sha256(data))]. *)
Variable sha256hex : bytes → string.

Record codec := mkCodec {
  cd_compression : string;
  cd_algo : option (Algo * Z);
  cd_cipher : option C
}.

Definition newCodec (compression : string) (level : Z) (cipher : option C) :
    result CodecError codec :=
  fail_if (negb (bool_decide (compression = ""%string))
           && negb (bool_decide (compression = CompressionNone))
           && ((level <? 1) || (9 <? level))) (BadLevel level) ;;
  if bool_decide (compression = ""%string) || bool_decide (compression = CompressionNone)
  then Ok (mkCodec compression None cipher)
  else if bool_decide (compression = CompressionZstd)
  then Ok (mkCodec compression (Some (AlgoZstd, level)) cipher)
  else if bool_decide (compression = CompressionGzip)
  then Ok (mkCodec compression (Some (AlgoGzip, level)) cipher)
  else if bool_decide (compression = CompressionS2)
  then Ok (mkCodec compression (Some (AlgoS2, level)) cipher)
  else Err (UnknownAlgorithm compression).

(** The stored form of a chunk and the digest of its plaintext. *)
Definition encode (c : codec) (nonce plain : bytes) : result CodecError (bytes * string) :=
  let digest := sha256hex plain in
  out ← match cd_algo c with
        | Some (algo, level) =>
          compressed ← compress algo level plain;
          Ok (if Nat.ltb (length compressed) (length plain) then compressed else plain)
        | None => Ok plain
        end;
  Ok (match cd_cipher c with
      | Some cipher => EncryptBytes cipher nonce out
      | None => out
      end, digest).

(** Equal lengths mean the encoder kept the chunk uncompressed. *)
Definition decode (c : codec) (stored : bytes) (wantLen : Z) : result CodecError bytes :=
  buf ← match cd_cipher c with
        | Some cipher => DecryptBytes cipher stored
        | None => Ok stored
        end;
  buf ← match cd_algo c with
        | Some (algo, _) =>
          if Z.of_nat (length buf) =? wantLen then Ok buf else decompress algo buf wantLen
        | None => Ok buf
        end;
  if Z.of_nat (length buf) =? wantLen then Ok buf
  else Err (WrongLength (Z.of_nat (length buf)) wantLen).

Definition verifyDigest (plain : bytes) (want : string) : result CodecError () :=
  let got := sha256hex plain in
  fail_if (negb (bool_decide (got = want))) (DigestMismatch got want).

Definition nonce_ok (c : codec) (nonce : bytes) : Prop :=
  match cd_cipher c with Some cipher => length nonce = NonceSize cipher | None => True end.

(** Two codecs read the same stored bytes: the same cipher, the same
    algorithm at any level. *)
Definition same_reader (c c' : codec) : Prop :=
  cd_cipher c = cd_cipher c' ∧ fst <$> cd_algo c = fst <$> cd_algo c'.

Lemma newCodec_ok compression level cipher c :
  newCodec compression level cipher = Ok c →
  cd_compression c = compression ∧ cd_cipher c = cipher.
Proof.
  unfold newCodec. rewrite result_bind_ok. intros (_ & _ & Hc).
  repeat case_match; simplify_eq/=; done.
Qed.

Lemma newCodec_same_reader compression level level' cipher c c' :
  newCodec compression level cipher = Ok c → newCodec compression level' cipher = Ok c' →
  same_reader c c'.
Proof.
  unfold newCodec, same_reader. rewrite !result_bind_ok. intros (_ & _ & Hc) (_ & _ & Hc').
  repeat case_match; simplify_eq/=; done.
Qed.

(** The codec a reader opens, at its own level, for what a writer recorded. *)
Lemma newCodec_reopen compression level cipher c :
  newCodec compression level cipher = Ok c → compression ≠ ""%string →
  KnownCompression compression = true
  ∧ ∃ c', newCodec compression 3 cipher = Ok c' ∧ same_reader c c'.
Proof.
  unfold newCodec. rewrite result_bind_ok. intros (_ & _ & Hc) Hne.
  assert (KnownCompression compression = true) as Hk.
  { unfold KnownCompression, Compressions. cbn [existsb].
    repeat (case_bool_decide; [by subst; rewrite ?orb_true_r|]); done. }
  split; [done|]. rewrite andb_false_r. unfold fail_if. cbn [mbind result_bind].
  repeat case_bool_decide; simplify_eq/=; by eexists.
Qed.

Lemma decode_encode c c' nonce plain stored digest :
  same_reader c c' → nonce_ok c nonce →
  encode c nonce plain = Ok (stored, digest) →
  decode c' stored (Z.of_nat (length plain)) = Ok plain ∧ digest = sha256hex plain.
Proof.
  intros [Hci Hal] Hn He. unfold encode in He. apply result_bind_ok in He as (out & Hout & [= <- <-]).
  split; [|done]. unfold decode. rewrite <-Hci.
  assert ((match cd_cipher c with
           | Some cipher => DecryptBytes cipher
               (match cd_cipher c with
                | Some cipher => EncryptBytes cipher nonce out
                | None => out
                end)
           | None => Ok (match cd_cipher c with
                         | Some cipher => EncryptBytes cipher nonce out
                         | None => out
                         end)
           end) = Ok out) as Hd.
  { unfold nonce_ok in Hn. destruct (cd_cipher c); [by apply DecryptBytes_EncryptBytes|done]. }
  apply result_bind_ok. exists out. split; [destruct (cd_cipher c); exact Hd|].
  apply result_bind_ok. exists plain. rewrite Z.eqb_refl. split; [|done].
  destruct (cd_algo c) as [[algo level]|], (cd_algo c') as [[algo' level']|]; simplify_eq/=;
    [|done].
  apply result_bind_ok in Hout as (compressed & Hcomp & [= <-]).
  destruct (Nat.ltb_spec (length compressed) (length plain)).
  - destruct (Z.eqb_spec (Z.of_nat (length compressed)) (Z.of_nat (length plain))); [lia|].
    by eapply decompress_compress.
  - by rewrite Z.eqb_refl.
Qed.

Definition codec_overhead (c : codec) : Z :=
  match cd_cipher c with Some cipher => Z.of_nat (Overhead cipher) | None => 0 end.

(** A stored chunk is never larger than the plain one plus the cipher's
    overhead: an encoder that expands its input is ignored. *)
Lemma encode_length c nonce plain stored digest :
  nonce_ok c nonce → encode c nonce plain = Ok (stored, digest) →
  Z.of_nat (length stored) ≤ Z.of_nat (length plain) + codec_overhead c.
Proof.
  intros Hn He. unfold encode in He. apply result_bind_ok in He as (out & Hout & [= <- _]).
  assert (length out ≤ length plain)%nat as Hle.
  { destruct (cd_algo c) as [[algo level]|]; [|by simplify_eq/=].
    apply result_bind_ok in Hout as (compressed & _ & [= <-]).
    destruct (Nat.ltb_spec (length compressed) (length plain)); lia. }
  unfold nonce_ok, codec_overhead in *. destruct (cd_cipher c) as [cipher|]; [|lia].
  pose proof (EncryptBytes_length cipher nonce out Hn). lia.
Qed.

(** What [decode] accepts always has the recorded length. *)
Lemma decode_length c stored wantLen plain :
  decode c stored wantLen = Ok plain → Z.of_nat (length plain) = wantLen.
Proof.
  unfold decode. rewrite result_bind_ok. intros (b & _ & Hd).
  apply result_bind_ok in Hd as (b' & _ & Hd).
  destruct (Z.eqb_spec (Z.of_nat (length b')) wantLen); by simplify_eq.
Qed.
(** A chunk entry that a reader with codec [c] turns back into a cell. *)
Record holds_cell (c : codec) (blob : bytes) (ch : Chunk) (cell : Z * bytes) : Prop := {
  hc_index : ch_Index ch = cell.1;
  hc_length : ch_Length ch = Z.of_nat (length cell.2);
  hc_nonempty : cell.2 ≠ [];
  hc_offset : 0 ≤ ch_BlobOffset ch;
  hc_stored : 0 ≤ ch_StoredLength ch < 2 ^ 31;
  hc_inside : ch_BlobOffset ch + ch_StoredLength ch ≤ Z.of_nat (length blob);
  hc_decode : decode c (slice (ch_BlobOffset ch) (ch_StoredLength ch) blob) (ch_Length ch)
              = Ok cell.2;
  hc_hash : ch_Hash ch = sha256hex cell.2
}.

(** A manifest's chunk list describes the cells kept in a data object, for
    every reader of the codec that wrote it. *)
Definition describes (c : codec) (blob : bytes) (chunks : list Chunk)
    (cells : list (Z * bytes)) : Prop :=
  ∀ c', same_reader c c' → Forall2 (holds_cell c' blob) chunks cells.

Lemma holds_cell_app c blob blob' ch cell :
  holds_cell c blob ch cell → holds_cell c (blob ++ blob') ch cell.
Proof.
  intros [? ? ? ? ? Hin Hd ?]. split; try done.
  - rewrite length_app. lia.
  - rewrite slice_app_l by lia. done.
Qed.
End Codec.
Arguments codec C : clear implicits.

(** * Instances showing that the laws can hold *)

(** Storing without compressing. *)
#[export] Program Instance store_compressor : Compressor := {
  compress _ _ plain := Ok plain;
  decompress _ stored _ := Ok stored
}.
Next Obligation. by intros _ _ plain stored [= ->]. Qed.

Definition tag_open (nonce sealed : bytes) : option bytes :=
  let n := (length sealed - length nonce)%nat in
  if bool_decide (drop n sealed = nonce) then Some (take n sealed) else None.

Lemma tag_open_seal nonce plain : tag_open nonce (plain ++ nonce) = Some plain.
Proof.
  unfold tag_open. rewrite length_app, Nat.add_sub, drop_app_length, take_app_length.
  by rewrite bool_decide_eq_true_2.
Qed.

(** A one-byte nonce and a one-byte tag: the nonce again. *)
#[export] Program Instance tag_aead : AEAD () := {
  NonceSize _ := 1%nat;
  seal _ nonce plain := plain ++ nonce;
  open _ := tag_open;
  aead_Overhead _ := 1%nat
}.
Next Obligation. intros. apply tag_open_seal. Qed.
Next Obligation. intros c nonce plain Hn. cbn in *. rewrite length_app. lia. Qed.

(** * The round trip *)

(** C24. A chunk encoded at any level, compressed or not, encrypted or not, is
    restored by the codec a reader opens for the recorded algorithm, with the
    digest of the plain bytes; and a stored chunk never exceeds the plain one by
    more than the cipher's overhead. *)
Theorem codec_roundtrip {C} `{!AEAD C} `{!Compressor} sha256hex compression level cipher
    (c : codec C) nonce plain stored digest :
  newCodec compression level cipher = Ok c → compression ≠ ""%string → nonce_ok c nonce →
  encode sha256hex c nonce plain = Ok (stored, digest) →
  ∃ c', newCodec compression 3 cipher = Ok c'
    ∧ decode c' stored (Z.of_nat (length plain)) = Ok plain
    ∧ verifyDigest sha256hex plain digest = Ok ()
    ∧ Z.of_nat (length stored) ≤ Z.of_nat (length plain) + codec_overhead c.
Proof.
  intros Hc Hne Hn He. destruct (newCodec_reopen _ _ _ _ Hc Hne) as (_ & c' & Hc' & Hs).
  exists c'. destruct (decode_encode sha256hex c c' nonce plain stored digest Hs Hn He) as [Hd ->].
  split_and!; [done..| |by eapply encode_length].
  unfold verifyDigest. by rewrite bool_decide_eq_true_2.
Qed.

Lemma codec_roundtrip_witness :
  ∃ c', newCodec CompressionGzip 3 (Some ()) = Ok c'
    ∧ decode c' [Byte.x07; Byte.x01; Byte.x02; Byte.x07]
        (Z.of_nat (length [Byte.x01; Byte.x02])) = Ok [Byte.x01; Byte.x02]
    ∧ verifyDigest (λ d, pretty (length d)) [Byte.x01; Byte.x02] "2"%string = Ok ()
    ∧ Z.of_nat (length [Byte.x07; Byte.x01; Byte.x02; Byte.x07])
      ≤ Z.of_nat (length [Byte.x01; Byte.x02])
        + codec_overhead (mkCodec CompressionGzip (Some (AlgoGzip, 9)) (Some ())).
Proof.
  apply (codec_roundtrip (λ d, pretty (length d)) CompressionGzip 9 (Some ())
           (mkCodec CompressionGzip (Some (AlgoGzip, 9)) (Some ())) [Byte.x07]
           [Byte.x01; Byte.x02] [Byte.x07; Byte.x01; Byte.x02; Byte.x07] "2"%string);
    [reflexivity|discriminate|reflexivity|reflexivity].
Defined.
