(* ===== verification/Writer.v ===== *)
(** The disk writer ([internal/backup/writer.go]): chunks streamed into one
    repository object while the manifest is built.

    [NewDiskWriter] starts a goroutine that runs [Backend.Put] on the read end
    of a pipe. Here the writer's state holds the bytes pushed into the pipe and
    what has become of the goroutine; it may give up at any moment
    ([uploader_stops]). The nonce of an encrypted chunk is an argument. *)

From S2P Require Import Prelude Model Grid Format Repo Codec.

(** The uploader goroutine: still reading the pipe, or finished early with
    [Put]'s result before the writer closed the pipe. *)
Inductive Uploader :=
| UploaderReading
| UploaderStopped (res : result RepoError Z).

Inductive WriterError :=
| WriteAfterClose (key : string)
| OutOfOrder (index last : Z)
| EncodeFailed (e : CodecError)
| UploadInterrupted (e : RepoError) | ClosedPipe
| UploadFailed (e : RepoError)
| ShortUpload (accepted produced : Z).

Section Writer.
Context {B C : Type} `{!Backend B} `{!AEAD C} `{!Compressor}.
Variable sha256hex : bytes → string.

Record WriterOptions := mkWriterOptions {
  wo_DataKey : string;
  wo_ChunkSize : Z;
  wo_Compression : string;
  wo_Level : Z;
  wo_Cipher : option C
}.

Record DiskWriter := mkDiskWriter {
  dw_manifest : DiskManifest;
  dw_codec : codec C;
  dw_pipe : bytes;
  dw_uploader : Uploader;
  dw_blobHash : bytes;
  dw_blobOffset : Z;
  dw_closed : bool
}.

(** The fields [NewDiskWriter] fills in. *)
Definition open_manifest (m : DiskManifest) (chunkSize : Z) (compression key : string)
    (encrypted : bool) : DiskManifest :=
  {| dm_Format := FormatName; dm_Version := FormatVersion; dm_RunID := dm_RunID m;
     dm_Type := dm_Type m; dm_DiskID := dm_DiskID m; dm_VirtualSize := dm_VirtualSize m;
     dm_ChunkSize := chunkSize; dm_Compression := compression; dm_Encrypted := encrypted;
     dm_DataKey := key; dm_DataSHA256 := dm_DataSHA256 m; dm_LogicalBytes := dm_LogicalBytes m;
     dm_StoredBytes := dm_StoredBytes m; dm_Chunks := dm_Chunks m |}.

(** One more chunk in the manifest. *)
Definition append_chunk (m : DiskManifest) (ch : Chunk) (logical : Z) : DiskManifest :=
  {| dm_Format := dm_Format m; dm_Version := dm_Version m; dm_RunID := dm_RunID m;
     dm_Type := dm_Type m; dm_DiskID := dm_DiskID m; dm_VirtualSize := dm_VirtualSize m;
     dm_ChunkSize := dm_ChunkSize m; dm_Compression := dm_Compression m;
     dm_Encrypted := dm_Encrypted m; dm_DataKey := dm_DataKey m;
     dm_DataSHA256 := dm_DataSHA256 m; dm_LogicalBytes := i64 (dm_LogicalBytes m + logical);
     dm_StoredBytes := dm_StoredBytes m; dm_Chunks := dm_Chunks m ++ [ch] |}.

(** The totals [Close] records. *)
Definition seal_manifest (m : DiskManifest) (stored : Z) (digest : string) : DiskManifest :=
  {| dm_Format := dm_Format m; dm_Version := dm_Version m; dm_RunID := dm_RunID m;
     dm_Type := dm_Type m; dm_DiskID := dm_DiskID m; dm_VirtualSize := dm_VirtualSize m;
     dm_ChunkSize := dm_ChunkSize m; dm_Compression := dm_Compression m;
     dm_Encrypted := dm_Encrypted m; dm_DataKey := dm_DataKey m; dm_DataSHA256 := digest;
     dm_LogicalBytes := dm_LogicalBytes m; dm_StoredBytes := stored;
     dm_Chunks := dm_Chunks m |}.

Definition NewDiskWriter (m : DiskManifest) (opts : WriterOptions) :
    result CodecError DiskWriter :=
  let chunkSize := if wo_ChunkSize opts <=? 0 then DefaultChunkSize else wo_ChunkSize opts in
  let compression :=
    if bool_decide (wo_Compression opts = ""%string) then CompressionNone
    else wo_Compression opts in
  let level := if wo_Level opts =? 0 then 3 else wo_Level opts in
  cd ← newCodec compression level (wo_Cipher opts);
  let m := open_manifest m chunkSize compression (wo_DataKey opts)
             (bool_decide (is_Some (wo_Cipher opts))) in
  Ok (mkDiskWriter m cd [] UploaderReading [] 0 false).

(** The goroutine returns from [Put] before the pipe is closed. *)
Definition uploader_stops (w : DiskWriter) (res : result RepoError Z) : DiskWriter :=
  match dw_uploader w with
  | UploaderReading =>
    mkDiskWriter (dw_manifest w) (dw_codec w) (dw_pipe w) (UploaderStopped res)
      (dw_blobHash w) (dw_blobOffset w) (dw_closed w)
  | UploaderStopped _ => w
  end.

(** [uploadError]: what a failed pipe write reports. *)
Definition uploadError (res : result RepoError Z) : WriterError :=
  match res with Err e => UploadInterrupted e | Ok _ => ClosedPipe end.

Definition last_index (m : DiskManifest) : option Z := ch_Index <$> last (dm_Chunks m).

Definition WriteChunk (w : DiskWriter) (nonce : bytes) (index : Z) (plain : bytes) :
    result WriterError DiskWriter :=
  if dw_closed w then Err (WriteAfterClose (dm_DataKey (dw_manifest w))) else
  if Nat.eqb (length plain) 0 then Ok w else
  fail_if (match last_index (dw_manifest w) with Some l => index <=? l | None => false end)
          (OutOfOrder index (default 0 (last_index (dw_manifest w)))) ;;
  '(stored, digest) ← map_err EncodeFailed (encode sha256hex (dw_codec w) nonce plain);
  match dw_uploader w with
  | UploaderStopped res => Err (uploadError res)
  | UploaderReading =>
    let ch := mkChunk index (i32 (Z.of_nat (length plain))) (dw_blobOffset w)
                (i32 (Z.of_nat (length stored))) digest in
    Ok (mkDiskWriter (append_chunk (dw_manifest w) ch (Z.of_nat (length plain))) (dw_codec w)
          (dw_pipe w ++ stored) UploaderReading (dw_blobHash w ++ stored)
          (i64 (dw_blobOffset w + Z.of_nat (length stored))) false)
  end.

(** [Close] and the end of the goroutine: the repository afterwards, the
    writer afterwards, and the manifest or the error. *)
Definition Close (b : B) (w : DiskWriter) : B * DiskWriter * result WriterError DiskManifest :=
  if dw_closed w then (b, w, Ok (dw_manifest w)) else
  let '(b', res) :=
    match dw_uploader w with
    | UploaderStopped res => (b, res)
    | UploaderReading =>
      match Put b (dm_DataKey (dw_manifest w)) (dw_pipe w) with
      | Ok (n, b') => (b', Ok n)
      | Err e => (b, Err e)
      end
    end in
  let closed m := mkDiskWriter m (dw_codec w) (dw_pipe w) (UploaderStopped res)
                    (dw_blobHash w) (dw_blobOffset w) true in
  match res with
  | Err e => (b', closed (dw_manifest w), Err (UploadFailed e))
  | Ok written =>
    let m := seal_manifest (dw_manifest w) (dw_blobOffset w) (sha256hex (dw_blobHash w)) in
    (b', closed m,
     if written =? dw_blobOffset w then Ok m
     else Err (ShortUpload written (dw_blobOffset w)))
  end.

(** [Abort]: the goroutine sees the error, and the partial object goes. [partial]
    is what the failed [Put] left in the repository. *)
Definition Abort (partial b : B) (w : DiskWriter) : B * DiskWriter :=
  if dw_closed w then (b, w) else
  let b := match dw_uploader w with UploaderReading => partial | _ => b end in
  (match Delete b (dm_DataKey (dw_manifest w)) with Ok b' => b' | Err _ => b end,
   mkDiskWriter (dw_manifest w) (dw_codec w) (dw_pipe w) (dw_uploader w)
     (dw_blobHash w) (dw_blobOffset w) true).

(** The cells of a disk in the order the copy loop supplies them. *)
Fixpoint write_cells (w : DiskWriter) (cells : list (bytes * Z * bytes)) :
    result WriterError DiskWriter :=
  match cells with
  | [] => Ok w
  | (nonce, index, plain) :: cells =>
    w ← WriteChunk w nonce index plain;
    write_cells w cells
  end.

(** * What a writer has stored *)
Definition plain_bytes (cells : list (Z * bytes)) : Z :=
  foldr (λ cell n, Z.of_nat (length cell.2) + n) 0 cells.

Lemma plain_bytes_app cells cells' :
  plain_bytes (cells ++ cells') = plain_bytes cells + plain_bytes cells'.
Proof. unfold plain_bytes. induction cells as [|? ? IH]; cbn; [lia|]. rewrite IH. lia. Qed.

Record written (w : DiskWriter) (cells : list (Z * bytes)) : Prop := {
  wr_describes : describes sha256hex (dw_codec w) (dw_pipe w) (dm_Chunks (dw_manifest w)) cells;
  wr_order : StronglySorted Z.lt (fst <$> cells);
  wr_offset : dw_blobOffset w = Z.of_nat (length (dw_pipe w));
  wr_hash : dw_blobHash w = dw_pipe w;
  wr_logical : dm_LogicalBytes (dw_manifest w) = plain_bytes cells;
  wr_space : Z.of_nat (length (dw_pipe w))
             ≤ plain_bytes cells + Z.of_nat (length cells) * codec_overhead (dw_codec w);
  wr_open : dw_closed w = false
}.

(** A cell the format can record: not empty, and its stored form fits the
    [int32] length field. *)
Definition cell_fits (c : codec C) (p : bytes) : Prop :=
  p ≠ [] ∧ Z.of_nat (length p) + codec_overhead c < 2 ^ 31.

Lemma codec_overhead_nonneg (c : codec C) : 0 ≤ codec_overhead c.
Proof. unfold codec_overhead. case_match; lia. Qed.

Lemma last_index_written w cells :
  written w cells → last_index (dw_manifest w) = last (fst <$> cells).
Proof.
  intros [Hd _ _ _ _ _ _]. unfold last_index. rewrite fmap_last. rewrite <-!fmap_last.
  f_equal. assert (same_reader (dw_codec w) (dw_codec w)) as Hs by done.
  specialize (Hd _ Hs). clear Hs. induction Hd as [|ch cell chs cells' Hc _ IH]; cbn; [done|].
  by rewrite IH, (hc_index _ _ _ _ _ Hc).
Qed.

Lemma StronglySorted_snoc (l : list Z) x :
  StronglySorted Z.lt l → (∀ y, last l = Some y → y < x) → StronglySorted Z.lt (l ++ [x]).
Proof.
  intros Hl. induction Hl as [|y l Hl IH Hy]; intros Hlast; cbn.
  - repeat constructor.
  - constructor.
    + apply IH. intros z Hz. apply Hlast. destruct l; [done|exact Hz].
    + apply Forall_app. split; [done|]. constructor; [|done].
      destruct (last l) as [z|] eqn:E.
      * pose proof (last_Some_elem_of _ _ E) as Hin. rewrite Forall_forall in Hy.
        specialize (Hy z Hin). assert (z < x); [|lia]. apply Hlast. destruct l; [done|exact E].
      * apply last_None in E as ->. by apply Hlast.
Qed.

Lemma NewDiskWriter_written m opts w :
  dm_Chunks m = [] → dm_LogicalBytes m = 0 → NewDiskWriter m opts = Ok w → written w [].
Proof.
  intros Hc Hl Hw. unfold NewDiskWriter in Hw. apply result_bind_ok in Hw as (cd & _ & [= <-]).
  split; cbn; try done.
  - intros c' _. rewrite Hc. constructor.
  - constructor.
Qed.

Lemma new_chunk_holds c c' pipe nonce index plain stored digest :
  cell_fits c plain → nonce_ok c nonce → same_reader c c' →
  encode sha256hex c nonce plain = Ok (stored, digest) →
  holds_cell sha256hex c' (pipe ++ stored)
    (mkChunk index (i32 (Z.of_nat (length plain))) (Z.of_nat (length pipe))
       (i32 (Z.of_nat (length stored))) digest) (index, plain).
Proof.
  intros [Hne Hfit] Hn Hs He. pose proof (codec_overhead_nonneg c).
  pose proof (encode_length _ _ _ _ _ _ Hn He).
  destruct (decode_encode _ _ _ _ _ _ _ Hs Hn He) as [Hd ->].
  split; cbn; try done; rewrite ?i32_id by (unfold is_i32; lia); try lia.
  - rewrite length_app. lia.
  - by rewrite slice_app_r.
Qed.

Lemma WriteChunk_written w cells nonce index plain w' :
  written w cells → cell_fits (dw_codec w) plain → nonce_ok (dw_codec w) nonce →
  plain_bytes (cells ++ [(index, plain)])
    + Z.of_nat (length (cells ++ [(index, plain)])) * codec_overhead (dw_codec w) < 2 ^ 63 →
  WriteChunk w nonce index plain = Ok w' →
  written w' (cells ++ [(index, plain)]) ∧ dw_codec w' = dw_codec w
  ∧ (∃ ch, dw_manifest w' = append_chunk (dw_manifest w) ch (Z.of_nat (length plain)))
  ∧ dw_uploader w' = UploaderReading.
Proof.
  intros Hw Hfit Hn Hroom Hok. pose proof (last_index_written _ _ Hw) as Hlast.
  pose proof (codec_overhead_nonneg (dw_codec w)).
  destruct Hw as [Hd Hord Hoff Hhash Hlog Hsp Hop], Hfit as [Hne Hfit].
  unfold WriteChunk in Hok. rewrite Hop in Hok.
  destruct (Nat.eqb_spec (length plain) 0) as [E|E]; [by destruct plain|].
  apply result_bind_ok in Hok as (u & Hcmp & Hok). apply fail_if_ok in Hcmp. clear u.
  apply result_bind_ok in Hok as ([stored digest] & He & Hok).
  destruct (encode sha256hex (dw_codec w) nonce plain) as [[? ?]|] eqn:He'; simplify_eq/=.
  destruct (dw_uploader w); simplify_eq/=.
  pose proof (encode_length _ _ _ _ _ _ Hn He') as Hel.
  rewrite plain_bytes_app, length_app in Hroom. cbn in Hroom.
  assert (0 ≤ plain_bytes cells).
  { clear. unfold plain_bytes. induction cells; cbn; lia. }
  split_and!; [|done|by eexists|done]. split; cbn.
  - intros c' Hs. apply Forall2_app.
    + eapply Forall2_impl; [apply (Hd _ Hs)|]. intros. by apply holds_cell_app.
    + constructor; [|constructor]. rewrite Hoff. by eapply new_chunk_holds.
  - rewrite fmap_app. apply StronglySorted_snoc; [done|]. intros y Hy. rewrite <-Hlast in Hy.
    rewrite Hy in Hcmp. cbn. lia.
  - rewrite length_app, Hoff. rewrite i64_id; [lia|unfold is_i64; nia].
  - by rewrite Hhash.
  - rewrite plain_bytes_app, Hlog. cbn. rewrite i64_id; [lia|unfold is_i64; nia].
  - rewrite !length_app, plain_bytes_app. cbn. nia.
  - done.
Qed.

(** The whole job of a writer, over a list of cells with their nonces. *)
Definition job_fits (c : codec C) (cells : list (bytes * Z * bytes)) : Prop :=
  Forall (λ x, cell_fits c x.2 ∧ nonce_ok c x.1.1) cells
  ∧ plain_bytes ((λ x, (x.1.2, x.2)) <$> cells)
    + Z.of_nat (length cells) * codec_overhead c < 2 ^ 63.

Definition cells_of (job : list (bytes * Z * bytes)) : list (Z * bytes) :=
  (λ x, (x.1.2, x.2)) <$> job.

Lemma plain_bytes_nonneg cells : 0 ≤ plain_bytes cells.
Proof. unfold plain_bytes. induction cells; cbn; lia. Qed.

(** The identity of a manifest, which writing does not touch. *)
Definition same_disk (m m' : DiskManifest) : Prop :=
  dm_Format m' = dm_Format m ∧ dm_Version m' = dm_Version m ∧ dm_RunID m' = dm_RunID m
  ∧ dm_Type m' = dm_Type m ∧ dm_DiskID m' = dm_DiskID m ∧ dm_VirtualSize m' = dm_VirtualSize m
  ∧ dm_ChunkSize m' = dm_ChunkSize m ∧ dm_Compression m' = dm_Compression m
  ∧ dm_Encrypted m' = dm_Encrypted m ∧ dm_DataKey m' = dm_DataKey m.

Lemma same_disk_append m m' ch n : same_disk m m' → same_disk m (append_chunk m' ch n).
Proof. done. Qed.

Lemma write_cells_written job : ∀ w cells w',
  written w cells → Forall (λ x, cell_fits (dw_codec w) x.2 ∧ nonce_ok (dw_codec w) x.1.1) job →
  plain_bytes (cells ++ cells_of job)
    + Z.of_nat (length (cells ++ cells_of job)) * codec_overhead (dw_codec w) < 2 ^ 63 →
  write_cells w job = Ok w' →
  written w' (cells ++ cells_of job) ∧ dw_codec w' = dw_codec w
  ∧ same_disk (dw_manifest w) (dw_manifest w').
Proof.
  induction job as [|[[nonce index] plain] job IH]; intros w cells w' Hw Hall Hroom Hok.
  { cbn in *. simplify_eq. by rewrite app_nil_r. }
  cbn in Hok. apply result_bind_ok in Hok as (w1 & H1 & Hok).
  apply Forall_cons in Hall as [[Hfit Hn] Hall].
  pose proof (codec_overhead_nonneg (dw_codec w)).
  change (cells_of ((nonce, index, plain) :: job)) with ((index, plain) :: cells_of job) in *.
  rewrite cons_middle, app_assoc in *.
  destruct (WriteChunk_written w cells nonce index plain w1) as (Hw1 & Hcd & (ch & Hm) & _);
    [done..| |done|].
  { rewrite plain_bytes_app, length_app in Hroom.
    pose proof (plain_bytes_nonneg (cells_of job)). nia. }
  destruct (IH w1 _ w' Hw1) as (Hw' & Hcd' & Hs); [by rewrite Hcd|by rewrite Hcd|done|].
  split_and!; [done|congruence|]. destruct Hs as (?&?&?&?&?&?&?&?&?&?). rewrite Hm in *.
  unfold same_disk in *. cbn in *. split_and!; congruence.
Qed.

(** ** A data object and its manifest *)

(** What a successful [Close] leaves: the object holds the bytes the manifest
    describes, with their size and digest. *)
Record stored_run (b : B) (c : codec C) (m : DiskManifest) (cells : list (Z * bytes)) : Prop :=
  mkStoredRun {
  sr_blob : ∃ blob, Get b (dm_DataKey m) = Ok blob
      ∧ describes sha256hex c blob (dm_Chunks m) cells
      ∧ dm_StoredBytes m = Z.of_nat (length blob) ∧ dm_DataSHA256 m = sha256hex blob
      ∧ Z.of_nat (length blob) < 2 ^ 63;
  sr_order : StronglySorted Z.lt (fst <$> cells);
  sr_logical : dm_LogicalBytes m = plain_bytes cells
}.

Context `{!BackendLaws B}.

Lemma Close_stored b w cells b' w' m :
  written w cells → dw_uploader w = UploaderReading →
  plain_bytes cells + Z.of_nat (length cells) * codec_overhead (dw_codec w) < 2 ^ 63 →
  Close b w = (b', w', Ok m) →
  stored_run b' (dw_codec w) m cells ∧ same_disk (dw_manifest w) m
  ∧ ∀ key, key ≠ dm_DataKey (dw_manifest w) → Get b' key = Get b key.
Proof.
  intros [Hd Hord Hoff Hhash Hlog Hsp Hop] Hup Hroom Hc. unfold Close in Hc. rewrite Hop, Hup in Hc.
  destruct (Put b (dm_DataKey (dw_manifest w)) (dw_pipe w)) as [[n b1]|e] eqn:Hput; [|simplify_eq].
  destruct (put_stores _ _ _ _ _ Hput) as (-> & Hget & Hframe). rewrite Hoff, Z.eqb_refl in Hc.
  simplify_eq. split_and!; [|done|done]. split; [|done|done].
  exists (dw_pipe w). cbn. rewrite Hhash. split_and!; [done..|lia].
Qed.

Lemma WriteChunk_uploader w nonce index plain w' :
  WriteChunk w nonce index plain = Ok w' → dw_uploader w = UploaderReading →
  dw_uploader w' = UploaderReading.
Proof.
  unfold WriteChunk. intros Hok Hup. destruct (dw_closed w), (Nat.eqb (length plain) 0); [done..| |].
  { by simplify_eq. }
  apply result_bind_ok in Hok as (? & _ & Hok).
  apply result_bind_ok in Hok as ([stored digest] & _ & Hok). rewrite Hup in Hok. by simplify_eq/=.
Qed.

Lemma write_cells_uploader job : ∀ w w',
  write_cells w job = Ok w' → dw_uploader w = UploaderReading → dw_uploader w' = UploaderReading.
Proof.
  induction job as [|[[nonce index] plain] job IH]; intros w w' Hok Hup; cbn in Hok.
  - by simplify_eq.
  - apply result_bind_ok in Hok as (w1 & H1 & Hok). by eauto using WriteChunk_uploader.
Qed.

(** A whole run of the writer. *)
Definition write_disk (b : B) (m : DiskManifest) (opts : WriterOptions)
    (job : list (bytes * Z * bytes)) : result WriterError (B * DiskManifest) :=
  w ← map_err EncodeFailed (NewDiskWriter m opts);
  w ← write_cells w job;
  let '(b', _, res) := Close b w in
  m ← res;
  Ok (b', m).

(** The codec a writer with these options uses. *)
Definition writer_codec (opts : WriterOptions) : result CodecError (codec C) :=
  newCodec (if bool_decide (wo_Compression opts = ""%string) then CompressionNone
            else wo_Compression opts)
    (if wo_Level opts =? 0 then 3 else wo_Level opts) (wo_Cipher opts).

Lemma write_disk_stored b m opts job b' m' c :
  dm_Chunks m = [] → dm_LogicalBytes m = 0 → writer_codec opts = Ok c → job_fits c job →
  write_disk b m opts job = Ok (b', m') →
  stored_run b' c m' (cells_of job)
  ∧ dm_VirtualSize m' = dm_VirtualSize m ∧ dm_Type m' = dm_Type m
  ∧ dm_DataKey m' = wo_DataKey opts
  ∧ dm_Encrypted m' = bool_decide (is_Some (wo_Cipher opts))
  ∧ dm_Compression m' = cd_compression c
  ∧ dm_ChunkSize m' = (if wo_ChunkSize opts <=? 0 then DefaultChunkSize else wo_ChunkSize opts)
  ∧ dm_Format m' = FormatName ∧ dm_Version m' = FormatVersion
  ∧ ∀ key, key ≠ wo_DataKey opts → Get b' key = Get b key.
Proof.
  intros Hch Hlog Hc [Hall Hroom] Hok. unfold write_disk in Hok.
  apply result_bind_ok in Hok as (w0 & Hnew & Hok).
  apply result_bind_ok in Hok as (w & Hcells & Hok).
  destruct (NewDiskWriter m opts) as [w0'|] eqn:Hn; simplify_eq/=.
  pose proof (NewDiskWriter_written _ _ _ Hch Hlog Hn) as Hw0.
  unfold NewDiskWriter in Hn. unfold writer_codec in Hc. rewrite Hc in Hn. simplify_eq/=.
  destruct (write_cells_written job _ [] w Hw0) as (Hw & Hcd & Hs); [done| |done|].
  { cbn. unfold cells_of. by rewrite length_fmap. }
  destruct (Close b w) as [[b1 w1] res] eqn:Hcl.
  apply result_bind_ok in Hok as (m1 & -> & [= -> ->]).
  assert (dw_uploader w = UploaderReading) as Hup by (eapply write_cells_uploader; [exact Hcells|done]).
  destruct (Close_stored b w _ b' w1 m' Hw Hup) as (Hst & Hs' & Hfr); [|done|].
  { rewrite Hcd. cbn. unfold cells_of. by rewrite length_fmap. }
  apply newCodec_ok in Hc as [Hcc _]. rewrite Hcd in Hst. cbn in Hst, Hs.
  destruct Hs as (?&?&?&?&?&?&?&?&?&Hk), Hs' as (?&?&?&?&?&?&?&?&?&?). cbn in *.
  rewrite Hk in Hfr. split_and!; [done|congruence..|exact Hfr].
Qed.
End Writer.
