(* ===== verification/Reader.v ===== *)
(** The chain reader ([internal/backup/reader.go]): a chain of manifests, a
    full run and its increments, read as one image.

    [batches] of the code map a chunk to a pointer; here each manifest has a
    list of batches and a map from chunk index to a position in it, and the
    cache remembers the position. Go iterates over [owner] in an unspecified
    order: the order is the argument [iter]. Progress callbacks have no effect
    on the result and are left out. *)

From S2P Require Import Prelude Model Grid Format Repo Codec Writer.

Definition maxBatchBytes : Z := Z.shiftl 32 20.

Record batch := mkBatch { b_start : Z; b_length : Z; b_first : Z }.

Inductive ReaderError :=
| EmptyChain
| BadManifest (run : string) (e : ManifestError)
| MixedChunkSize (n want : Z)
| KeyUnavailable (run : string)
| BadCodec (e : CodecError)
| FetchFailed (e : RepoError) | FetchShort (got want : Z)
| OutsideBatch (index : Z)
| BadChunk (index : Z) (run : string) (e : CodecError)
| ReaderPanic.

Section Reader.
Context {B C : Type} `{!Backend B} `{!AEAD C} `{!Compressor}.
Variable sha256hex : bytes → string.
(** The order in which [range r.owner] visits a map. *)
Variable iter : gmap Z nat → list (Z * nat).

Record ChainReader := mkChainReader {
  r_backend : B;
  r_manifests : list DiskManifest;
  r_codecs : list (codec C);
  r_chunkSize : Z;
  r_virtualSize : Z;
  r_owner : gmap Z nat;
  r_chunkAt : list (gmap Z Chunk);
  r_batches : list (list batch * gmap Z nat);
  r_cache : gmap nat (nat * bytes)
}.

(** ** Opening a chain *)

(** What the loop over the manifests builds. *)
Record Loading := mkLoading {
  ld_chunkSize : Z;
  ld_virtualSize : Z;
  ld_codecs : list (codec C);
  ld_owner : gmap Z nat;
  ld_chunkAt : list (gmap Z Chunk)
}.

Definition index_chunks (chunks : list Chunk) : gmap Z Chunk :=
  fold_insert ch_Index id chunks ∅.

Definition claim_chunks (i : nat) (chunks : list Chunk) (owner : gmap Z nat) : gmap Z nat :=
  fold_insert ch_Index (λ _, i) chunks owner.

Definition reader_codec (cipher : option C) (m : DiskManifest) : result ReaderError (codec C) :=
  if dm_Encrypted m then
    match cipher with
    | None => Err (KeyUnavailable (dm_RunID m))
    | Some _ => map_err BadCodec (newCodec (dm_Compression m) 3 cipher)
    end
  else map_err BadCodec (newCodec (dm_Compression m) 3 None).

Definition load_manifest (cipher : option C) (i : nat) (m : DiskManifest) (l : Loading) :
    result ReaderError Loading :=
  map_err (BadManifest (dm_RunID m)) (DiskManifest_Validate m) ;;
  let chunkSize := if Nat.eqb i 0 then dm_ChunkSize m else ld_chunkSize l in
  fail_if (negb (Nat.eqb i 0) && negb (dm_ChunkSize m =? ld_chunkSize l))
          (MixedChunkSize (dm_ChunkSize m) (ld_chunkSize l)) ;;
  let virtualSize :=
    if ld_virtualSize l <? dm_VirtualSize m then dm_VirtualSize m else ld_virtualSize l in
  c ← reader_codec cipher m;
  Ok (mkLoading chunkSize virtualSize (ld_codecs l ++ [c])
        (claim_chunks i (dm_Chunks m) (ld_owner l))
        (ld_chunkAt l ++ [index_chunks (dm_Chunks m)])).

Fixpoint load_manifests (cipher : option C) (i : nat) (ms : list DiskManifest) (l : Loading) :
    result ReaderError Loading :=
  match ms with
  | [] => Ok l
  | m :: ms =>
    l ← load_manifest cipher i m l;
    load_manifests cipher (S i) ms l
  end.

(** ** Batches *)
Definition grow (n : Z) (b : batch) : batch :=
  mkBatch (b_start b) (i64 (b_length b + n)) (b_first b).

Definition adjacent (b : batch) (ch : Chunk) : bool :=
  (i64 (b_start b + b_length b) =? ch_BlobOffset ch)
  && (i64 (b_length b + ch_StoredLength ch) <=? maxBatchBytes).

(** One chunk of the inner loop; the current batch is the last of the list. *)
Definition batch_chunk (st : list batch * gmap Z nat) (ch : Chunk) : list batch * gmap Z nat :=
  let '(bs, groups) := st in
  let bs :=
    match last bs with
    | Some cur => if adjacent cur ch then bs
                  else bs ++ [mkBatch (ch_BlobOffset ch) 0 (ch_Index ch)]
    | None => bs ++ [mkBatch (ch_BlobOffset ch) 0 (ch_Index ch)]
    end in
  let cur := (length bs - 1)%nat in
  (alter (grow (ch_StoredLength ch)) cur bs, <[ch_Index ch := cur]> groups).

Definition by_offset (a b : Chunk) : bool := ch_BlobOffset a <? ch_BlobOffset b.

(** The chunks manifest [mi] is responsible for after merging. *)
Definition needed (owner : gmap Z nat) (chunkAt : list (gmap Z Chunk)) (mi : nat) : list Chunk :=
  omap (λ '(index, owner_mi),
          if Nat.eqb owner_mi mi then chunkAt !! mi ≫= λ byIndex, byIndex !! index else None)
       (iter owner).

Definition buildBatches (owner : gmap Z nat) (chunkAt : list (gmap Z Chunk)) :
    list (list batch * gmap Z nat) :=
  (λ mi, fold_left batch_chunk (sort_stable by_offset (needed owner chunkAt mi)) ([], ∅))
  <$> seq 0 (length chunkAt).

Definition NewChainReader (b : B) (cipher : option C) (manifests : list DiskManifest) :
    result ReaderError ChainReader :=
  if bool_decide (manifests = []) then Err EmptyChain else
  let ms := EffectiveChain manifests in
  l ← load_manifests cipher 0 ms (mkLoading 0 0 [] ∅ []);
  Ok (mkChainReader b ms (ld_codecs l) (ld_chunkSize l) (ld_virtualSize l) (ld_owner l)
        (ld_chunkAt l) (buildBatches (ld_owner l) (ld_chunkAt l)) ∅).

(** ** Reading one chunk *)
Definition r_GridChunks (r : ChainReader) : Z :=
  if r_chunkSize r <=? 0 then 0
  else Z.quot (i64 (i64 (r_virtualSize r + r_chunkSize r) - 1)) (r_chunkSize r).

Definition r_ChunkLength (r : ChainReader) (index : Z) : Z :=
  let offset := i64 (index * r_chunkSize r) in
  if r_virtualSize r <=? offset then 0 else
  let remaining := i64 (r_virtualSize r - offset) in
  if remaining <? r_chunkSize r then remaining else r_chunkSize r.

Definition PresentChunks (r : ChainReader) : Z := Z.of_nat (size (r_owner r)).

Definition PresentBytes (r : ChainReader) : Z :=
  fold_left (λ total '(index, _), i64 (total + r_ChunkLength r index)) (iter (r_owner r)) 0.

Definition fetch (r : ChainReader) (mi : nat) (offset length : Z) : result ReaderError bytes :=
  match r_manifests r !! mi with
  | None => Err ReaderPanic
  | Some m =>
    data ← map_err FetchFailed (GetRange (r_backend r) (dm_DataKey m) offset length);
    fail_if (length <? 0) ReaderPanic ;;
    let got := Z.of_nat (List.length data) in
    if got <? length then Err (FetchShort got length)
    else Ok (take (Z.to_nat length) data)
  end.

Definition set_cache (r : ChainReader) (mi id : nat) (data : bytes) : ChainReader :=
  mkChainReader (r_backend r) (r_manifests r) (r_codecs r) (r_chunkSize r) (r_virtualSize r)
    (r_owner r) (r_chunkAt r) (r_batches r) (<[mi := (id, data)]> (r_cache r)).

(** The batch of a chunk: its position and the batch. *)
Definition batch_of (r : ChainReader) (mi : nat) (index : Z) : option (nat * batch) :=
  '(bs, groups) ← r_batches r !! mi;
  id ← groups !! index;
  b ← bs !! id;
  Some (id, b).

(** The bytes of the batch, from the cache when it holds this batch. *)
Definition load_batch (r : ChainReader) (mi id : nat) (b : batch) :
    result ReaderError (ChainReader * bytes) :=
  match r_cache r !! mi with
  | Some (id', data) =>
    if Nat.eqb id id' then Ok (r, data)
    else data ← fetch r mi (b_start b) (b_length b); Ok (set_cache r mi id data, data)
  | None => data ← fetch r mi (b_start b) (b_length b); Ok (set_cache r mi id data, data)
  end.

Definition storedBytes (r : ChainReader) (mi : nat) (ch : Chunk) :
    result ReaderError (ChainReader * bytes) :=
  match batch_of r mi (ch_Index ch) with
  | None =>
    data ← fetch r mi (ch_BlobOffset ch) (ch_StoredLength ch);
    Ok (r, data)
  | Some (id, b) =>
    '(r, data) ← load_batch r mi id b;
    let from := i64 (ch_BlobOffset ch - b_start b) in
    let to := i64 (from + ch_StoredLength ch) in
    fail_if ((from <? 0) || (Z.of_nat (length data) <? to)) (OutsideBatch (ch_Index ch)) ;;
    fail_if (to <? from) ReaderPanic ;;
    Ok (r, slice from (to - from) data)
  end.

(** [None] is a region no run stored: it reads as zero. *)
Definition ReadChunk (r : ChainReader) (index : Z) :
    result ReaderError (ChainReader * option bytes) :=
  match r_owner r !! index with
  | None => Ok (r, None)
  | Some mi =>
    match r_chunkAt r !! mi ≫= (λ byIndex, byIndex !! index), r_codecs r !! mi,
          r_manifests r !! mi with
    | Some ch, Some c, Some m =>
      '(r, stored) ← storedBytes r mi ch;
      plain ← map_err (BadChunk index (dm_RunID m)) (decode c stored (ch_Length ch));
      map_err (BadChunk index (dm_RunID m)) (verifyDigest sha256hex plain (ch_Hash ch)) ;;
      Ok (r, Some plain)
    | _, _, _ => Err ReaderPanic
    end
  end.

(** ** Streaming the image *)

(** [sink(ctx, offset, data, zeroLength)]: data, or a zero region. *)
Inductive SinkCall :=
| SinkData (offset : Z) (data : bytes)
| SinkZero (offset : Z) (zeroLength : Z).

Inductive StreamError (SE : Type) :=
| StreamCancelled | StreamRead (e : ReaderError) | StreamSink (e : SE).
Arguments StreamCancelled {SE}.
Arguments StreamRead {SE} e.
Arguments StreamSink {SE} e.

Section Stream.
Context {S SE : Type} (sink : S → SinkCall → result SE S).
(** Whether the context is cancelled when cell [i] begins. *)
Variable cancelled : Z → bool.

(** The pending zero region: its start ([-1] for none) and its length. *)
Record Zeros := mkZeros { z_start : Z; z_len : Z }.

Definition flushZeros (z : Zeros) (s : S) : result (StreamError SE) (Zeros * S) :=
  if z_start z <? 0 then Ok (z, s) else
  s ← map_err StreamSink (sink s (SinkZero (z_start z) (z_len z)));
  Ok (mkZeros (-1) 0, s).

Definition stream_cell (i : Z) (r : ChainReader) (z : Zeros) (s : S) :
    result (StreamError SE) (ChainReader * Zeros * S) :=
  fail_if (cancelled i) StreamCancelled ;;
  let offset := i64 (i * r_chunkSize r) in
  let length := r_ChunkLength r i in
  '(r, data) ← map_err StreamRead (ReadChunk r i);
  match data with
  | None =>
    Ok (r, mkZeros (if z_start z <? 0 then offset else z_start z) (i64 (z_len z + length)), s)
  | Some data =>
    '(z, s) ← flushZeros z s;
    s ← map_err StreamSink (sink s (SinkData offset data));
    Ok (r, z, s)
  end.

Fixpoint stream_cells (cells : list Z) (r : ChainReader) (z : Zeros) (s : S) :
    result (StreamError SE) (ChainReader * Zeros * S) :=
  match cells with
  | [] => Ok (r, z, s)
  | i :: cells =>
    '(r, z, s) ← stream_cell i r z s;
    stream_cells cells r z s
  end.

Definition stream (r : ChainReader) (s : S) : result (StreamError SE) (ChainReader * S) :=
  '(r, z, s) ← stream_cells (seqZ 0 (r_GridChunks r)) r (mkZeros (-1) 0) s;
  '(_, s) ← flushZeros z s;
  Ok (r, s).
End Stream.

(** ** Random access *)
Inductive ReadAtError :=
| NegativeOffset | EndOfFile | ReadAtCancelled | ReadAtChunk (e : ReaderError)
| ChunkTooShort (index : Z).

(** The loop: what is filled so far grows until [want] bytes are there. The
    result is the bytes placed in [p] and the error. *)
Fixpoint read_at_loop (cancelled : Z → bool) (fuel : nat) (r : ChainReader) (off want : Z)
    (filled : bytes) : option (ChainReader * bytes * option ReadAtError) :=
  let n := Z.of_nat (length filled) in
  if want <=? n then Some (r, filled, None) else
  match fuel with
  | O => None
  | Datatypes.S fuel =>
    if cancelled n then Some (r, filled, Some ReadAtCancelled) else
    let position := i64 (off + n) in
    let index := Z.quot position (r_chunkSize r) in
    let within := Z.rem position (r_chunkSize r) in
    let chunkLen := r_ChunkLength r index in
    if chunkLen <=? 0 then Some (r, filled, None) else
    let take := if want - n <? chunkLen - within then want - n else chunkLen - within in
    match ReadChunk r index with
    | Err e => Some (r, filled, Some (ReadAtChunk e))
    | Ok (r, None) =>
      read_at_loop cancelled fuel r off want (filled ++ replicate (Z.to_nat take) Byte.x00)
    | Ok (r, Some data) =>
      if Z.of_nat (length data) <? within + take
      then Some (r, filled, Some (ChunkTooShort index))
      else read_at_loop cancelled fuel r off want (filled ++ slice within take data)
    end
  end.

Definition ReadAt (cancelled : Z → bool) (fuel : nat) (r : ChainReader) (len off : Z) :
    option (ChainReader * bytes * option ReadAtError) :=
  if off <? 0 then Some (r, [], Some NegativeOffset) else
  if r_virtualSize r <=? off then Some (r, [], Some EndOfFile) else
  let truncated := r_virtualSize r <? i64 (off + len) in
  let want := if truncated then r_virtualSize r - off else len in
  match read_at_loop cancelled fuel r off want [] with
  | None => None
  | Some (r, filled, Some e) => Some (r, filled, Some e)
  | Some (r, filled, None) =>
    Some (r, filled,
          if truncated || (Z.of_nat (length filled) <? len) then Some EndOfFile else None)
  end.

(** ** The data object's digest *)
Inductive VerifyError :=
| NoDigest (run : string) | VerifyRepo (e : RepoError)
| SizeMismatch (got want : Z) | ObjectDigest (got want : string).

(** [VerifyDataObject], when the context is not cancelled. *)
Definition VerifyDataObject (b : B) (m : DiskManifest) : result VerifyError () :=
  fail_if (bool_decide (dm_DataSHA256 m = ""%string)) (NoDigest (dm_RunID m)) ;;
  info ← map_err VerifyRepo (Stat b (dm_DataKey m));
  fail_if (negb (oi_Size info =? dm_StoredBytes m)) (SizeMismatch (oi_Size info) (dm_StoredBytes m)) ;;
  data ← map_err VerifyRepo (Get b (dm_DataKey m));
  let got := sha256hex data in
  fail_if (negb (bool_decide (got = dm_DataSHA256 m))) (ObjectDigest got (dm_DataSHA256 m)).
End Reader.
Arguments ChainReader B C : clear implicits.
