(* ===== verification/Restore.v ===== *)
(** What the chain reader delivers: "the newest run that stored a cell wins,
    and a cell nobody stored is zero", and the image a restore streams.

    The specification side keeps a run as the list of its cells; [newest] is
    the merge of a chain, and [full_of]/[increment_of] say what a run has to
    capture of an image. *)

From S2P Require Import Prelude Model Grid Format Repo Codec Writer Reader.

Definition lookup_cell (cells : list (Z * bytes)) (i : Z) : option bytes :=
  (list_to_map cells : gmap Z bytes) !! i.

Definition newest (runs : list (list (Z * bytes))) (i : Z) : option bytes :=
  fold_left (λ acc cells, match lookup_cell cells i with Some p => Some p | None => acc end)
    runs None.

Lemma newest_snoc runs cells i :
  newest (runs ++ [cells]) i
  = match lookup_cell cells i with Some p => Some p | None => newest runs i end.
Proof. unfold newest. by rewrite fold_left_app. Qed.

Lemma lookup_cell_some cells i p :
  NoDup (fst <$> cells) → lookup_cell cells i = Some p ↔ (i, p) ∈ cells.
Proof. intros. unfold lookup_cell. by rewrite elem_of_list_to_map. Qed.

Lemma lookup_cell_none cells i : lookup_cell cells i = None ↔ i ∉ fst <$> cells.
Proof. unfold lookup_cell. by rewrite not_elem_of_list_to_map. Qed.

Section Chain.
Context {B C : Type} `{!Backend B} `{!BackendLaws B} `{!AEAD C} `{!Compressor}.
Variable sha256hex : bytes → string.
Variable iter : gmap Z nat → list (Z * nat).
Hypothesis iter_perm : ∀ m, iter m ≡ₚ map_to_list m.

(** A manifest and its object, as one run of a chain. *)
Record run_at (b : B) (c : codec C) (m : DiskManifest) (cells : list (Z * bytes)) (blob : bytes) :
    Prop := {
  ra_blob : Get b (dm_DataKey m) = Ok blob;
  ra_size : Z.of_nat (length blob) < 2 ^ 63;
  ra_cells : Forall2 (holds_cell sha256hex c blob) (dm_Chunks m) cells;
  ra_nodup : NoDup (fst <$> cells)
}.

Lemma run_at_indices b c m cells blob :
  run_at b c m cells blob → ch_Index <$> dm_Chunks m = fst <$> cells.
Proof.
  intros [_ _ Hf _]. induction Hf as [|ch cell chs cs Hc _ IH]; cbn; [done|].
  by rewrite IH, (hc_index _ _ _ _ _ Hc).
Qed.

Lemma index_chunks_lookup b c m cells blob i ch :
  run_at b c m cells blob → index_chunks (dm_Chunks m) !! i = Some ch →
  ∃ p, holds_cell sha256hex c blob ch (i, p) ∧ (i, p) ∈ cells.
Proof.
  intros Hr Hi. pose proof (run_at_indices _ _ _ _ _ Hr) as Hidx.
  unfold index_chunks in Hi. apply fold_insert_inv in Hi as [Hi|(x & Hx & <- & <-)]; [done|].
  apply list_elem_of_lookup in Hx as [k Hk].
  destruct (Forall2_lookup_l _ _ _ _ _ (ra_cells _ _ _ _ _ Hr) Hk) as ([j p] & Hp & Hc).
  pose proof (hc_index _ _ _ _ _ Hc) as Hj. cbn in Hj. exists p. unfold id in *. rewrite Hj.
  split; [done|]. by eapply list_elem_of_lookup_2.
Qed.

Lemma index_chunks_some b c m cells blob i :
  run_at b c m cells blob → i ∈ fst <$> cells →
  ∃ ch, index_chunks (dm_Chunks m) !! i = Some ch ∧ ch_Index ch = i.
Proof.
  intros Hr Hi. pose proof (run_at_indices _ _ _ _ _ Hr) as Hidx.
  rewrite <-Hidx in Hi. apply list_elem_of_fmap in Hi as (ch & -> & Hch).
  exists ch. split; [|done]. unfold index_chunks. rewrite fold_insert_in; [done| |done].
  rewrite Hidx. by apply (ra_nodup _ _ _ _ _ Hr).
Qed.

(** ** Batches cover the chunks they are for *)
Definition covers (bs : list batch) (groups : gmap Z nat) (ch : Chunk) : Prop :=
  ∃ id b, groups !! ch_Index ch = Some id ∧ bs !! id = Some b
    ∧ b_start b ≤ ch_BlobOffset ch
    ∧ ch_BlobOffset ch + ch_StoredLength ch ≤ b_start b + b_length b.

Definition batches_inside (bs : list batch) (len : Z) : Prop :=
  ∀ id b, bs !! id = Some b → 0 ≤ b_start b ∧ 0 ≤ b_length b ∧ b_start b + b_length b ≤ len.

Lemma batch_list_some (bs : list batch) b : last bs = Some b → bs !! (length bs - 1)%nat = Some b ∧ bs ≠ [].
Proof.
  rewrite last_lookup. intros Hl. replace (length bs - 1)%nat with (pred (length bs)) by lia.
  split; [done|]. by intros ->.
Qed.

(** The list of batches before the current chunk is counted in. *)
Lemma batch_open_inside bs ch len :
  batches_inside bs len → 0 ≤ ch_BlobOffset ch → 0 ≤ ch_StoredLength ch →
  ch_BlobOffset ch + ch_StoredLength ch ≤ len → len < 2 ^ 63 →
  let bs' := match last bs with
             | Some cur => if adjacent cur ch then bs
                           else bs ++ [mkBatch (ch_BlobOffset ch) 0 (ch_Index ch)]
             | None => bs ++ [mkBatch (ch_BlobOffset ch) 0 (ch_Index ch)]
             end in
  batches_inside bs' len
  ∧ (∀ id b, bs !! id = Some b → bs' !! id = Some b)
  ∧ ∃ b, bs' !! (length bs' - 1)%nat = Some b ∧ b_start b + b_length b = ch_BlobOffset ch.
Proof.
  intros Hin Ho Hs Hl Hlen bs'.
  assert (batches_inside (bs ++ [mkBatch (ch_BlobOffset ch) 0 (ch_Index ch)]) len) as Hnew.
  { intros id b Hb. apply lookup_app_Some in Hb as [Hb|[_ Hb]]; [by eapply Hin|].
    apply list_lookup_singleton_Some in Hb as [_ <-]. cbn. lia. }
  assert (∀ id b, bs !! id = Some b →
      (bs ++ [mkBatch (ch_BlobOffset ch) 0 (ch_Index ch)]) !! id = Some b) as Hkeep.
  { intros id b Hb. by apply lookup_app_l_Some. }
  assert (∃ b, (bs ++ [mkBatch (ch_BlobOffset ch) 0 (ch_Index ch)])
      !! (length (bs ++ [mkBatch (ch_BlobOffset ch) 0 (ch_Index ch)]) - 1)%nat = Some b
      ∧ b_start b + b_length b = ch_BlobOffset ch) as Hlast.
  { eexists. rewrite length_app. cbn. rewrite Nat.add_sub. rewrite lookup_app_r by lia.
    rewrite Nat.sub_diag. cbn. split; [done|]. cbn. lia. }
  subst bs'. destruct (last bs) as [cur|] eqn:El; [|done].
  destruct (adjacent cur ch) eqn:Ea; [|done].
  apply batch_list_some in El as [El _]. destruct (Hin _ _ El) as (?&?&?).
  split_and!; [done..|]. exists cur. split; [done|]. unfold adjacent in Ea. bprop.
  pose proof (i64_id (b_start cur + b_length cur)) as E1. unfold is_i64 in E1. lia.
Qed.

Definition chunk_inside (len : Z) (ch : Chunk) : Prop :=
  0 ≤ ch_BlobOffset ch ∧ 0 ≤ ch_StoredLength ch ∧ ch_BlobOffset ch + ch_StoredLength ch ≤ len.

Lemma batch_chunk_spec bs groups ch len bs' groups' :
  batches_inside bs len → chunk_inside len ch → len < 2 ^ 63 →
  batch_chunk (bs, groups) ch = (bs', groups') →
  batches_inside bs' len ∧ covers bs' groups' ch
  ∧ ∀ ch', ch_Index ch' ≠ ch_Index ch → covers bs groups ch' → covers bs' groups' ch'.
Proof.
  intros Hin (Ho & Hs & Hl) Hlen Hb.
  destruct (batch_open_inside bs ch len Hin Ho Hs Hl Hlen) as (Hin' & Hkeep & b & Hb' & Hend).
  unfold batch_chunk in Hb. set (mid := match last bs with Some _ => _ | None => _ end) in *.
  set (cur := (length mid - 1)%nat) in *.
  assert (bs' = alter (grow (ch_StoredLength ch)) cur mid) as Ebs by congruence.
  assert (groups' = <[ch_Index ch := cur]> groups) as -> by congruence. clear Hb.
  destruct (Hin' _ _ Hb') as (Hb0 & Hb1 & Hb2).
  assert (b_length (grow (ch_StoredLength ch) b) = b_length b + ch_StoredLength ch) as Hgrow.
  { cbn. rewrite i64_id; [done|unfold is_i64; lia]. }
  assert (∀ id b0, bs' !! id = Some b0 → (id ≠ cur ∧ mid !! id = Some b0)
            ∨ id = cur ∧ b0 = grow (ch_StoredLength ch) b) as Hinv.
  { intros id b0 H0. rewrite Ebs, list_lookup_alter in H0. case_decide; [|left; split; congruence].
    right. subst id. rewrite Hb' in H0. by simplify_eq/=. }
  assert (bs' !! cur = Some (grow (ch_StoredLength ch) b)) as Hcur.
  { by rewrite Ebs, list_lookup_alter_eq, Hb'. }
  split_and!.
  - intros id b0 H0. destruct (Hinv _ _ H0) as [[_ Hm]|[-> ->]]; [by eapply Hin'|].
    rewrite Hgrow. cbn. lia.
  - exists cur, (grow (ch_StoredLength ch) b). rewrite lookup_insert_eq, Hgrow. cbn.
    split_and!; [done|done|lia..].
  - intros ch' Hne (id & b0 & Hg & Hl0 & Hs0 & He0). pose proof (Hkeep _ _ Hl0) as Hm0.
    destruct (decide (id = cur)) as [->|Hid].
    + assert (b0 = b) as -> by congruence. exists cur, (grow (ch_StoredLength ch) b).
      rewrite lookup_insert_ne, Hgrow by done. cbn. split_and!; [done|done|lia..].
    + exists id, b0. rewrite lookup_insert_ne by done. split_and!; [done| |done..].
      rewrite Ebs, list_lookup_alter_ne by done. done.
Qed.

Lemma batch_chunks_spec chunks len : ∀ bs groups bs' groups',
  NoDup (ch_Index <$> chunks) → Forall (chunk_inside len) chunks → len < 2 ^ 63 →
  batches_inside bs len →
  fold_left batch_chunk chunks (bs, groups) = (bs', groups') →
  batches_inside bs' len ∧ (∀ ch, ch ∈ chunks → covers bs' groups' ch)
  ∧ ∀ ch', ch_Index ch' ∉ ch_Index <$> chunks → covers bs groups ch' → covers bs' groups' ch'.
Proof.
  induction chunks as [|ch chunks IH]; intros bs groups bs' groups' Hnd Hall Hlen Hin Hf.
  { cbn in Hf. simplify_eq. split_and!; [done| |done]. by intros ch ?%elem_of_nil. }
  apply Forall_cons in Hall as [Hch Hall]. rewrite fmap_cons, NoDup_cons in Hnd.
  destruct Hnd as [Hni Hnd]. cbn [fold_left] in Hf.
  destruct (batch_chunk (bs, groups) ch) as [bs1 groups1] eqn:E1.
  destruct (batch_chunk_spec _ _ _ _ _ _ Hin Hch Hlen E1) as (Hin1 & Hc1 & Hk1).
  destruct (IH _ _ _ _ Hnd Hall Hlen Hin1 Hf) as (Hin' & Hc & Hk).
  split_and!; [done| |].
  - intros ch' [->|Hch']%elem_of_cons; [by apply Hk|by apply Hc].
  - intros ch' Hni' Hcov. rewrite fmap_cons, not_elem_of_cons in Hni'. destruct Hni' as [Hne Hni'].
    apply Hk; [done|]. by apply Hk1.
Qed.

(** ** The merge *)
Definition chunks_keyed (byIndex : gmap Z Chunk) : Prop :=
  ∀ i ch, byIndex !! i = Some ch → ch_Index ch = i.

Lemma index_chunks_keyed chunks : chunks_keyed (index_chunks chunks).
Proof. intros i ch Hi. unfold index_chunks in Hi. by apply fold_insert_inv in Hi as [?|(?&?&?&<-)]. Qed.

Lemma elem_of_needed owner chunkAt mi ch :
  ch ∈ needed iter owner chunkAt mi ↔
  ∃ i byIndex, owner !! i = Some mi ∧ chunkAt !! mi = Some byIndex ∧ byIndex !! i = Some ch.
Proof using iter_perm.
  unfold needed. rewrite list_elem_of_omap. split.
  - intros ([i mi'] & Hin & Hc). rewrite iter_perm, elem_of_map_to_list in Hin.
    destruct (Nat.eqb_spec mi' mi) as [->|]; [|done].
    destruct (chunkAt !! mi) as [byIndex|] eqn:E; [|done]. by exists i, byIndex.
  - intros (i & byIndex & Ho & Hb & Hc). exists (i, mi). split.
    + by rewrite iter_perm, elem_of_map_to_list.
    + by rewrite Nat.eqb_refl, Hb.
Qed.

Lemma omap_indices_NoDup (owner : list (Z * nat)) (chunkAt : list (gmap Z Chunk)) mi :
  NoDup (fst <$> owner) → (∀ byIndex, chunkAt !! mi = Some byIndex → chunks_keyed byIndex) →
  NoDup (ch_Index <$> omap (λ '(index, owner_mi),
     if Nat.eqb owner_mi mi then chunkAt !! mi ≫= λ byIndex, byIndex !! index else None) owner).
Proof using.
  intros Hnd Hk. induction owner as [|[i mi'] owner IH]; cbn; [constructor|].
  rewrite fmap_cons, NoDup_cons in Hnd. destruct Hnd as [Hi Hnd]. specialize (IH Hnd).
  destruct (Nat.eqb_spec mi' mi) as [->|]; [|done].
  destruct (chunkAt !! mi) as [byIndex|] eqn:E; cbn; [|done].
  destruct (byIndex !! i) as [ch|] eqn:Ei; [|done]. rewrite fmap_cons. constructor; [|done].
  intros Hin. apply Hi. rewrite (Hk _ eq_refl _ _ Ei) in Hin.
  apply list_elem_of_fmap in Hin as (ch' & Hc & Hin). apply list_elem_of_omap in Hin as ([j mj] & Hj & Ho).
  destruct (Nat.eqb_spec mj mi) as [->|]; [|done]. cbn in Ho.
  rewrite <-(Hk _ eq_refl _ _ Ho) in Hj. rewrite <-Hc in Hj. by apply (list_elem_of_fmap_2 fst) in Hj.
Qed.

Lemma needed_NoDup owner chunkAt mi :
  (∀ byIndex, chunkAt !! mi = Some byIndex → chunks_keyed byIndex) →
  NoDup (ch_Index <$> needed iter owner chunkAt mi).
Proof using iter_perm.
  intros Hk. apply omap_indices_NoDup; [|done].
  rewrite iter_perm. apply NoDup_fst_map_to_list.
Qed.

(** The owner map points at the run whose cell [newest] picks. *)
Definition owner_ok (owner : gmap Z nat) (runs : list (list (Z * bytes))) : Prop :=
  ∀ i, match owner !! i with
       | Some k => ∃ cells p, runs !! k = Some cells ∧ (i, p) ∈ cells ∧ newest runs i = Some p
       | None => newest runs i = None
       end.

Lemma owner_ok_snoc owner runs chunks cells :
  owner_ok owner runs → ch_Index <$> chunks = fst <$> cells → NoDup (fst <$> cells) →
  owner_ok (claim_chunks (length runs) chunks owner) (runs ++ [cells]).
Proof using.
  intros Ho Hidx Hnd i. rewrite newest_snoc. unfold claim_chunks.
  destruct (decide (i ∈ fst <$> cells)) as [Hi|Hi].
  - pose proof Hi as Hi'. rewrite <-Hidx in Hi'. apply list_elem_of_fmap in Hi' as (ch & -> & Hch).
    rewrite fold_insert_in; [|by rewrite Hidx|done].
    apply list_elem_of_fmap in Hi as ([j p] & Hj & Hp). cbn in Hj. subst j.
    exists cells, p. rewrite lookup_app_r, Nat.sub_diag by lia. split_and!; [done..|].
    apply lookup_cell_some in Hp; [|done]. by rewrite Hp.
  - rewrite fold_insert_ne by (by rewrite Hidx). apply lookup_cell_none in Hi. rewrite Hi.
    specialize (Ho i). destruct (owner !! i) as [k|]; [|done].
    destruct Ho as (cs & p & Hk & Hp & Hn). exists cs, p. split_and!; [|done..].
    by apply lookup_app_l_Some.
Qed.

(** ** Opening *)
Record loaded (b : B) (chunkSize : Z) (done_ : list DiskManifest)
    (runs : list (list (Z * bytes))) (l : Loading) : Prop := {
  lo_owner : owner_ok (ld_owner l) runs;
  lo_runs : length runs = length done_;
  lo_chunkAt : ld_chunkAt l = (index_chunks ∘ dm_Chunks) <$> done_;
  lo_codecs : length (ld_codecs l) = length done_;
  lo_each : ∀ k m, done_ !! k = Some m → ∃ c cells blob,
      ld_codecs l !! k = Some c ∧ runs !! k = Some cells ∧ run_at b c m cells blob
      ∧ dm_ChunkSize m = chunkSize ∧ 0 < chunkSize ∧ dm_VirtualSize m ≤ ld_virtualSize l;
  lo_size : ld_virtualSize l = foldr Z.max 0 (dm_VirtualSize <$> done_);
  lo_grid : done_ ≠ [] → ld_chunkSize l = chunkSize
}.

(** A link as its writer left it, readable with this cipher. *)
Definition readable (b : B) (cipher : option C) (m : DiskManifest) (cells : list (Z * bytes)) :
    Prop :=
  ∃ c, stored_run sha256hex b c m cells
    ∧ (∀ c', reader_codec cipher m = Ok c' → same_reader c c').

Lemma readable_run_at b cipher m cells c' :
  readable b cipher m cells → reader_codec cipher m = Ok c' → ∃ blob, run_at b c' m cells blob.
Proof using.
  intros (c & [(blob & Hg & Hd & _ & _ & Hsz) Hord _] & Hs) Hc. exists blob.
  split; [done|done|by apply Hd, Hs|]. clear -Hord. induction Hord as [|x l _ IH Hx]; constructor; [|done].
  intros Hin. rewrite Forall_forall in Hx. specialize (Hx _ Hin). lia.
Qed.

Lemma foldr_max_snoc l x : foldr Z.max 0 (l ++ [x]) = Z.max (foldr Z.max 0 l) x ∨ x < 0.
Proof using. induction l as [|y l IH]; cbn; [lia|]. destruct IH; lia. Qed.

Lemma load_manifest_loaded b cipher chunkSize done_ runs l m cells l' :
  loaded b chunkSize done_ runs l → (done_ = [] → dm_ChunkSize m = chunkSize) →
  readable b cipher m cells → load_manifest cipher (length done_) m l = Ok l' →
  loaded b chunkSize (done_ ++ [m]) (runs ++ [cells]) l'.
Proof using.
  intros [Ho Hr Hca Hco Heach Hsz Hgrid] Hfirst Hread Hl.
  unfold load_manifest in Hl. apply result_bind_ok in Hl as (u & Hv & Hl).
  destruct (DiskManifest_Validate m) as [[]|] eqn:Hval; [|done]. clear Hv u.
  apply DiskManifest_Validate_ok in Hval as (_ & _ & Hcs & Hvs & _).
  apply result_bind_ok in Hl as (u & Hmix & Hl). apply fail_if_ok in Hmix.
  apply result_bind_ok in Hl as (c' & Hc' & [= <-]).
  destruct (readable_run_at _ _ _ _ _ Hread Hc') as [blob Hrun].
  assert (dm_ChunkSize m = chunkSize) as Hmcs.
  { destruct done_ as [|m0 done_]; [by apply Hfirst|]. cbn in Hmix. bprop.
    rewrite <-Hgrid by done. lia. }
  assert (∀ v, (if ld_virtualSize l <? v then v else ld_virtualSize l)
               = Z.max (ld_virtualSize l) v) as Hmax.
  { intros v. destruct (Z.ltb_spec (ld_virtualSize l) v); lia. }
  split; cbn [ld_owner ld_chunkAt ld_codecs ld_virtualSize ld_chunkSize].
  - rewrite <-Hr. apply owner_ok_snoc; [done|by eapply run_at_indices|by apply (ra_nodup _ _ _ _ _ Hrun)].
  - rewrite !length_app. cbn. lia.
  - by rewrite Hca, fmap_app.
  - rewrite !length_app. cbn. lia.
  - intros k m' Hk. rewrite Hmax. apply lookup_app_Some in Hk as [Hk|[Hge Hk]].
    + destruct (Heach _ _ Hk) as (c & cs & bl & H1 & H2 & H3 & H4 & H5 & H6). exists c, cs, bl.
      split_and!; [by apply lookup_app_l_Some..|done|done|done|lia].
    + apply list_lookup_singleton_Some in Hk as [Hz ->].
      assert (k = length done_) as -> by lia. exists c', cells, blob.
      rewrite lookup_app_r, Hco, Nat.sub_diag by lia. rewrite <-Hr, lookup_app_r, Nat.sub_diag by lia.
      split_and!; [done..|lia|lia].
  - rewrite Hmax, Hsz, fmap_app. cbn. destruct (foldr_max_snoc (dm_VirtualSize <$> done_) (dm_VirtualSize m)); lia.
  - intros _. destruct (Nat.eqb_spec (length done_) 0); [done|]. rewrite Hgrid; [done|].
    by intros ->.
Qed.

Lemma load_manifests_loaded b cipher chunkSize ms : ∀ runs' done_ runs l l',
  loaded b chunkSize done_ runs l → (done_ = [] → dm_ChunkSize <$> head ms = Some chunkSize) →
  Forall2 (readable b cipher) ms runs' → load_manifests cipher (length done_) ms l = Ok l' →
  loaded b chunkSize (done_ ++ ms) (runs ++ runs') l'.
Proof using.
  induction ms as [|m ms IH]; intros runs' done_ runs l l' Hlo Hfirst Hread Hl.
  { apply Forall2_nil_inv_l in Hread as ->. cbn in Hl. simplify_eq. by rewrite !app_nil_r. }
  apply Forall2_cons_inv_l in Hread as (cells & runs1 & Hm & Hread & ->). cbn in Hl.
  apply result_bind_ok in Hl as (l1 & H1 & Hl). rewrite (cons_middle m), (cons_middle cells), !app_assoc.
  eapply (IH _ _ _ l1); [| |done|].
  - eapply load_manifest_loaded; [done| |done|done]. intros E. specialize (Hfirst E). cbn in Hfirst. congruence.
  - intros E. by destruct done_.
  - rewrite length_app. cbn. by rewrite Nat.add_comm.
Qed.

(** ** An opened reader *)

(** The batches of one run, and what the cache may hold of them. *)
Definition batches_ok (owner : gmap Z nat) (byIndex : gmap Z Chunk) (mi : nat) (blob : bytes)
    (st : list batch * gmap Z nat) : Prop :=
  batches_inside (fst st) (Z.of_nat (length blob))
  ∧ ∀ i ch, owner !! i = Some mi → byIndex !! i = Some ch → covers (fst st) (snd st) ch.

Record link_ok (r : ChainReader B C) (mi : nat) (cells : list (Z * bytes)) (m : DiskManifest)
    (c : codec C) (blob : bytes) (st : list batch * gmap Z nat) : Prop := {
  lk_manifest : r_manifests r !! mi = Some m;
  lk_codec : r_codecs r !! mi = Some c;
  lk_run : run_at (r_backend r) c m cells blob;
  lk_chunkAt : r_chunkAt r !! mi = Some (index_chunks (dm_Chunks m));
  lk_batches : r_batches r !! mi = Some st;
  lk_cover : batches_ok (r_owner r) (index_chunks (dm_Chunks m)) mi blob st;
  lk_cache : ∀ id data, r_cache r !! mi = Some (id, data) →
      ∃ b, fst st !! id = Some b ∧ data = slice (b_start b) (b_length b) blob
}.

Record reads (r : ChainReader B C) (runs : list (list (Z * bytes))) : Prop := {
  rd_owner : owner_ok (r_owner r) runs;
  rd_links : ∀ mi cells, runs !! mi = Some cells → ∃ m c blob st, link_ok r mi cells m c blob st
}.

(** Readers that differ in the cache only. *)
Definition same_chain (r r' : ChainReader B C) : Prop := ∃ cache, r' =
  mkChainReader (r_backend r) (r_manifests r) (r_codecs r) (r_chunkSize r) (r_virtualSize r)
    (r_owner r) (r_chunkAt r) (r_batches r) cache.

Lemma same_chain_refl r : same_chain r r.
Proof using. exists (r_cache r). by destruct r. Qed.

Lemma same_chain_trans r r' r'' : same_chain r r' → same_chain r' r'' → same_chain r r''.
Proof using. intros [c ->] [c' ->]. by exists c'. Qed.

Lemma chunk_inside_lookup b c m cells blob i ch :
  run_at b c m cells blob → index_chunks (dm_Chunks m) !! i = Some ch →
  chunk_inside (Z.of_nat (length blob)) ch.
Proof using.
  intros Hr Hi. destruct (index_chunks_lookup _ _ _ _ _ _ _ Hr Hi) as (p & [] & _).
  unfold chunk_inside. lia.
Qed.

Lemma buildBatches_ok b c m cells blob owner chunkAt mi :
  run_at b c m cells blob → chunkAt !! mi = Some (index_chunks (dm_Chunks m)) →
  ∃ st, buildBatches iter owner chunkAt !! mi = Some st
    ∧ batches_ok owner (index_chunks (dm_Chunks m)) mi blob st.
Proof using iter_perm.
  intros Hr Hca. set (chunks := sort_stable by_offset (needed iter owner chunkAt mi)).
  destruct (fold_left batch_chunk chunks ([], ∅)) as [bs groups] eqn:E. exists (bs, groups). split.
  { unfold buildBatches. rewrite list_lookup_fmap. pose proof (lookup_lt_Some _ _ _ Hca).
    rewrite lookup_seq_lt by done. cbn. f_equal. exact E. }
  assert (chunks ≡ₚ needed iter owner chunkAt mi) as Hp by apply sort_stable_perm.
  edestruct (batch_chunks_spec chunks (Z.of_nat (length blob)) [] ∅ bs groups) as (Hin & Hc & _).
  - rewrite Hp. apply needed_NoDup. intros byIndex ?. simplify_eq. apply index_chunks_keyed.
  - apply Forall_forall. intros ch Hch. rewrite Hp in Hch.
    apply elem_of_needed in Hch as (i & byIndex & _ & ? & Hi). simplify_eq.
    by eapply chunk_inside_lookup.
  - apply (ra_size _ _ _ _ _ Hr).
  - intros id b0 Hb0. done.
  - exact E.
  - split; [exact Hin|]. intros i ch Ho Hi. apply Hc. rewrite Hp. apply elem_of_needed.
    by exists i, (index_chunks (dm_Chunks m)).
Qed.

Lemma fetch_ok r mi cells m c blob st off len :
  link_ok r mi cells m c blob st → 0 ≤ off → 0 ≤ len → off + len ≤ Z.of_nat (length blob) →
  fetch r mi off len = Ok (slice off len blob).
Proof using All.
  intros Hlk Ho Hl Hin. unfold fetch. rewrite (lk_manifest _ _ _ _ _ _ _ Hlk).
  erewrite range_of_object; [|apply (ra_blob _ _ _ _ _ (lk_run _ _ _ _ _ _ _ Hlk))|done..]. cbn.
  destruct (Z.ltb_spec len 0); [lia|]. cbn. rewrite length_slice by done.
  rewrite Z.ltb_irrefl. f_equal. apply take_ge.
  pose proof (length_slice off len blob Ho Hl Hin). lia.
Qed.

Lemma load_batch_ok r mi cells m c blob st id b :
  link_ok r mi cells m c blob st → fst st !! id = Some b →
  ∃ r', load_batch r mi id b = Ok (r', slice (b_start b) (b_length b) blob)
    ∧ (r' = r ∨ r' = set_cache r mi id (slice (b_start b) (b_length b) blob)).
Proof using All.
  intros Hlk Hid. destruct (lk_cover _ _ _ _ _ _ _ Hlk) as [Hin _].
  destruct (Hin _ _ Hid) as (?&?&?).
  pose proof (fetch_ok _ _ _ _ _ _ _ (b_start b) (b_length b) Hlk) as Hf.
  unfold load_batch. destruct (r_cache r !! mi) as [[id' data]|] eqn:Ec.
  - destruct (lk_cache _ _ _ _ _ _ _ Hlk _ _ Ec) as (b' & Hb' & ->).
    destruct (Nat.eqb_spec id id') as [<-|].
    + simplify_eq. exists r. split; [done|by left].
    + rewrite Hf by done. cbn. eexists. split; [done|by right].
  - rewrite Hf by done. cbn. eexists. split; [done|by right].
Qed.

Lemma link_ok_cache r mi cells m c blob st k id b data :
  link_ok r mi cells m c blob st →
  (k = mi → fst st !! id = Some b ∧ data = slice (b_start b) (b_length b) blob) →
  link_ok (set_cache r k id data) mi cells m c blob st.
Proof using.
  intros [] Hk. split; try done. intros id' data' Hl. cbn in Hl.
  destruct (decide (k = mi)) as [->|Hne].
  - rewrite lookup_insert_eq in Hl. simplify_eq. destruct (Hk eq_refl). by exists b.
  - rewrite lookup_insert_ne in Hl by done. by apply lk_cache0.
Qed.

Lemma reads_cache r runs mi cells m c blob st id b :
  reads r runs → link_ok r mi cells m c blob st → fst st !! id = Some b →
  reads (set_cache r mi id (slice (b_start b) (b_length b) blob)) runs.
Proof using.
  intros [Ho Hl] Hlk Hb. split; [done|]. intros k cells' Hk.
  destruct (Hl _ _ Hk) as (m' & c' & blob' & st' & Hlk'). exists m', c', blob', st'.
  apply (link_ok_cache _ _ _ _ _ _ _ _ _ b); [done|]. intros <-.
  assert (m' = m) as -> by (pose proof (lk_manifest _ _ _ _ _ _ _ Hlk);
    pose proof (lk_manifest _ _ _ _ _ _ _ Hlk'); congruence).
  assert (st' = st) as -> by (pose proof (lk_batches _ _ _ _ _ _ _ Hlk);
    pose proof (lk_batches _ _ _ _ _ _ _ Hlk'); congruence).
  pose proof (ra_blob _ _ _ _ _ (lk_run _ _ _ _ _ _ _ Hlk)).
  pose proof (ra_blob _ _ _ _ _ (lk_run _ _ _ _ _ _ _ Hlk')).
  split; [done|]. congruence.
Qed.

Lemma storedBytes_ok r runs mi cells m c blob st i ch :
  reads r runs → link_ok r mi cells m c blob st → r_owner r !! i = Some mi →
  index_chunks (dm_Chunks m) !! i = Some ch →
  ∃ r', storedBytes r mi ch = Ok (r', slice (ch_BlobOffset ch) (ch_StoredLength ch) blob)
    ∧ reads r' runs ∧ same_chain r r'.
Proof using All.
  intros Hr Hlk Ho Hi. destruct (lk_cover _ _ _ _ _ _ _ Hlk) as [Hin Hcov].
  destruct (Hcov _ _ Ho Hi) as (id & b & Hg & Hb & Hs & He). destruct (Hin _ _ Hb) as (?&?&?).
  destruct (chunk_inside_lookup _ _ _ _ _ _ _ (lk_run _ _ _ _ _ _ _ Hlk) Hi) as (?&?&?).
  pose proof (ra_size _ _ _ _ _ (lk_run _ _ _ _ _ _ _ Hlk)).
  destruct (load_batch_ok _ _ _ _ _ _ _ _ _ Hlk Hb) as (r' & Hload & Hr').
  exists r'. split.
  - unfold storedBytes, batch_of. rewrite (lk_batches _ _ _ _ _ _ _ Hlk). cbn.
    destruct st as [bs groups]. cbn in Hg, Hb. rewrite Hg. cbn. rewrite Hb. cbn.
    rewrite Hload. cbn. rewrite length_slice by done.
    rewrite (i64_id (ch_BlobOffset ch - b_start b)) by (unfold is_i64; lia).
    rewrite i64_id by (unfold is_i64; lia).
    assert (((ch_BlobOffset ch - b_start b <? 0)
             || (b_length b <? ch_BlobOffset ch - b_start b + ch_StoredLength ch)) = false) as -> by lia.
    assert ((ch_BlobOffset ch - b_start b + ch_StoredLength ch <? ch_BlobOffset ch - b_start b)
            = false) as -> by lia.
    cbn. rewrite slice_slice by lia. do 3 f_equal; lia.
  - destruct Hr' as [->| ->]; [split; [done|apply same_chain_refl]|].
    split; [by eapply reads_cache|]. by eexists.
Qed.

(** Reading a cell delivers what the newest run that stored it put there. *)
Lemma ReadChunk_reads r runs i :
  reads r runs →
  ∃ r', ReadChunk sha256hex r i = Ok (r', newest runs i) ∧ reads r' runs ∧ same_chain r r'.
Proof using All.
  intros Hr. pose proof (rd_owner _ _ Hr i) as Ho. unfold ReadChunk.
  destruct (r_owner r !! i) as [mi|] eqn:E.
  - destruct Ho as (cells & p & Hk & Hp & ->).
    destruct (rd_links _ _ Hr _ _ Hk) as (m & c & blob & st & Hlk).
    pose proof (lk_run _ _ _ _ _ _ _ Hlk) as Hrun.
    destruct (index_chunks_some _ _ _ _ _ i Hrun) as (ch & Hch & _); [by apply (list_elem_of_fmap_2 fst) in Hp|].
    destruct (storedBytes_ok _ _ _ _ _ _ _ _ _ _ Hr Hlk E Hch) as (r' & Hst & Hr' & Hsc).
    destruct (index_chunks_lookup _ _ _ _ _ _ _ Hrun Hch) as (p' & Hc & Hp').
    assert (p' = p) as ->.
    { pose proof (ra_nodup _ _ _ _ _ Hrun) as Hnd.
      by apply (NoDup_fmap_inj fst cells (i, p') (i, p)) in Hnd; simplify_eq. }
    exists r'. rewrite (lk_chunkAt _ _ _ _ _ _ _ Hlk). cbn. rewrite Hch, (lk_codec _ _ _ _ _ _ _ Hlk),
      (lk_manifest _ _ _ _ _ _ _ Hlk), Hst. cbn. rewrite (hc_decode _ _ _ _ _ Hc). cbn.
    unfold verifyDigest. rewrite (hc_hash _ _ _ _ _ Hc), bool_decide_eq_true_2 by done. done.
  - rewrite Ho. exists r. split_and!; [done..|apply same_chain_refl].
Qed.

(** ** Opening a chain succeeds and yields such a reader *)
Definition chain_valid (cipher : option C) (chunkSize : Z) (ms : list DiskManifest) : Prop :=
  Forall (λ m, DiskManifest_Validate m = Ok () ∧ dm_ChunkSize m = chunkSize
               ∧ is_ok (reader_codec cipher m) = true) ms.

Lemma load_manifests_total cipher chunkSize ms : ∀ i l,
  chain_valid cipher chunkSize ms → (i ≠ 0%nat → ld_chunkSize l = chunkSize) →
  ∃ l', load_manifests cipher i ms l = Ok l'.
Proof using.
  induction ms as [|m ms IH]; intros i l Hv Hi; cbn; [by eexists|].
  apply Forall_cons in Hv as [(Hval & Hcs & Hc) Hv].
  destruct (reader_codec cipher m) as [c|] eqn:Ec; [|done].
  assert (∃ l1, load_manifest cipher i m l = Ok l1 ∧ ld_chunkSize l1 = chunkSize) as (l1 & -> & H1).
  { unfold load_manifest. rewrite Hval, Ec. cbn. destruct (Nat.eqb_spec i 0); cbn.
    - by eexists.
    - rewrite Hi by done. rewrite Hcs, Z.eqb_refl. cbn. by eexists. }
  cbn. by apply IH.
Qed.

Lemma loaded_nil b chunkSize : loaded b chunkSize [] [] (mkLoading 0 0 [] ∅ []).
Proof using. by split. Qed.

Lemma chain_valid_drop cipher chunkSize k ms :
  chain_valid cipher chunkSize ms → chain_valid cipher chunkSize (drop k ms).
Proof using. apply Forall_drop. Qed.

Lemma loaded_reads b chunkSize ms runs l :
  loaded b chunkSize ms runs l →
  reads (mkChainReader b ms (ld_codecs l) (ld_chunkSize l) (ld_virtualSize l) (ld_owner l)
           (ld_chunkAt l) (buildBatches iter (ld_owner l) (ld_chunkAt l)) ∅) runs.
Proof using All.
  intros Hlo. split; [apply (lo_owner _ _ _ _ _ Hlo)|]. intros mi cells Hmi.
  assert (is_Some (ms !! mi)) as [m Hm].
  { apply lookup_lt_is_Some. rewrite <-(lo_runs _ _ _ _ _ Hlo). by eapply lookup_lt_Some. }
  destruct (lo_each _ _ _ _ _ Hlo _ _ Hm) as (c & cells' & blob & Hc & Hcells & Hrun & _).
  assert (cells' = cells) as -> by congruence.
  assert (ld_chunkAt l !! mi = Some (index_chunks (dm_Chunks m))) as Hca.
  { by rewrite (lo_chunkAt _ _ _ _ _ Hlo), list_lookup_fmap, Hm. }
  destruct (buildBatches_ok _ _ _ _ _ (ld_owner l) _ _ Hrun Hca) as (st & Hst & Hok).
  exists m, c, blob, st. by split.
Qed.

Lemma NewChainReader_reads b cipher chunkSize ms runs :
  ms ≠ [] → chain_valid cipher chunkSize ms → Forall2 (readable b cipher) ms runs →
  ∃ r k, NewChainReader iter b cipher ms = Ok r ∧ EffectiveChain ms = drop k ms
    ∧ (k < length ms)%nat
    ∧ (∀ j m, (k < j)%nat → ms !! j = Some m → is_base m = false)
    ∧ (k ≠ 0%nat → ∃ m, ms !! k = Some m ∧ is_base m = true)
    ∧ reads r (drop k runs) ∧ r_chunkSize r = chunkSize
    ∧ r_virtualSize r = foldr Z.max 0 (dm_VirtualSize <$> drop k ms).
Proof using All.
  intros Hne Hv Hread. destruct (EffectiveChain_spec ms Hne) as (k & Hk & He & Hafter & Hbase).
  apply (chain_valid_drop _ _ k) in Hv. pose proof (Forall2_drop _ _ _ k Hread) as Hread'.
  assert (drop k ms ≠ []) as Hne'.
  { intros E. apply (f_equal length) in E. rewrite length_drop in E. cbn in E. lia. }
  destruct (load_manifests_total cipher chunkSize (drop k ms) 0 (mkLoading 0 0 [] ∅ []) Hv) as [l Hl];
    [done|].
  assert (loaded b chunkSize (drop k ms) (drop k runs) l) as Hlo.
  { apply (load_manifests_loaded b cipher chunkSize (drop k ms) (drop k runs) [] []
             (mkLoading 0 0 [] ∅ []) l); [apply loaded_nil| |done|done].
    intros _. destruct (drop k ms) as [|m ms'] eqn:E; [done|]. cbn.
    apply Forall_cons in Hv as [(_ & -> & _) _]. done. }
  eexists _, k. unfold NewChainReader. rewrite bool_decide_eq_false_2 by done. rewrite He, Hl. cbn.
  split_and!; [done..|by eapply loaded_reads|by apply (lo_grid _ _ _ _ _ Hlo)|apply (lo_size _ _ _ _ _ Hlo)].
Qed.

(** ** Streaming *)

(** A destination that keeps the image: what the file and block device sinks
    do with a call. *)
Definition image_sink {SE} (s : bytes) (call : SinkCall) : result SE bytes :=
  match call with
  | SinkData offset data => Ok (write_at offset data s)
  | SinkZero offset n => Ok (write_at offset (replicate (Z.to_nat n) Byte.x00) s)
  end.

(** Cell [i] of an image. *)
Definition cell (chunkSize : Z) (img : bytes) (i : Z) : bytes :=
  slice (i * chunkSize) (ChunkLength i chunkSize (Z.of_nat (length img))) img.

Definition zeros (n : nat) : bytes := replicate n Byte.x00.

(** A merge renders an image: stored cells are the image's, others are zero. *)
Definition renders (chunkSize : Z) (img : bytes) (at_ : Z → option bytes) : Prop :=
  ∀ i, 0 ≤ i < grid_cells chunkSize (Z.of_nat (length img)) →
    match at_ i with
    | Some p => p = cell chunkSize img i
    | None => cell chunkSize img i = zeros (length (cell chunkSize img i))
    end.

(** A run on top of a merge: stored cells are the image's, for the others the merge
    is right already. *)
Definition increment_of (chunkSize : Z) (at_ : Z → option bytes) (img : bytes) (cells : list (Z * bytes)) : Prop :=
  ∀ i, 0 ≤ i < grid_cells chunkSize (Z.of_nat (length img)) →
    match lookup_cell cells i, at_ i with
    | Some p, _ | None, Some p => p = cell chunkSize img i
    | None, None => cell chunkSize img i = zeros (length (cell chunkSize img i))
    end.

Section Streaming.
Context (chunkSize : Z) (img : bytes).
Context `{GS : !GridSizes chunkSize (Z.of_nat (length img))}.
#[local] Abbreviation vs := (Z.of_nat (length img)).

(** Where the cells before [i] end. *)
Definition cells_end (i : Z) : Z := Z.min (i * chunkSize) vs.

Lemma cell_bounds i :
  0 ≤ i < grid_cells chunkSize vs →
  0 ≤ i * chunkSize < vs ∧ i64 (i * chunkSize) = i * chunkSize ∧ cells_end i = i * chunkSize
  ∧ 0 < ChunkLength i chunkSize vs
  ∧ cells_end (i + 1) = i * chunkSize + ChunkLength i chunkSize vs
  ∧ Z.of_nat (length (cell chunkSize img i)) = ChunkLength i chunkSize vs.
Proof using GS.
  intros Hi. pose proof Hi as [H0 H1]. apply grid_cells_spec in H1; [|done].
  pose proof (cell_offset_i64 i Hi). destruct (ChunkLength_in i Hi) as [Hcl Hpos].
  destruct GS. unfold cells_end, cell. rewrite length_slice by nia.
  split_and!; nia.
Qed.

Definition stream_inv (i : Z) (z : Zeros) (s : bytes) : Prop :=
  length s = length img
  ∧ ((z_start z = -1 ∧ z_len z = 0
      ∧ take (Z.to_nat (cells_end i)) s = take (Z.to_nat (cells_end i)) img)
     ∨ (0 ≤ z_start z ∧ 0 ≤ z_len z ∧ z_start z + z_len z = cells_end i
        ∧ take (Z.to_nat (z_start z)) s = take (Z.to_nat (z_start z)) img
        ∧ slice (z_start z) (z_len z) img = zeros (Z.to_nat (z_len z)))).

Lemma flushZeros_ok {SE} i z s :
  0 ≤ i → stream_inv i z s →
  ∃ s', flushZeros (SE := SE) image_sink z s = Ok (mkZeros (-1) 0, s') ∧ stream_inv i (mkZeros (-1) 0) s'.
Proof using GS.
  intros Hi [Hl [(Hz & Hn & Ht)|(Hz & Hn & He & Ht & Hsl)]]; unfold flushZeros.
  - rewrite Hz. cbn. exists s. split; [destruct z; cbn in *; congruence|].
    split; [done|]. left. done.
  - destruct (Z.ltb_spec (z_start z) 0); [lia|]. cbn.
    eexists. split; [done|]. assert (length (zeros (Z.to_nat (z_len z))) = Z.to_nat (z_len z)) as Hlz
      by apply length_replicate.
    assert (cells_end i ≤ vs) by (unfold cells_end; lia).
    fold (zeros (Z.to_nat (z_len z))).
    assert (z_start z + Z.of_nat (length (zeros (Z.to_nat (z_len z)))) = cells_end i) as E by lia.
    split; [rewrite length_write_at; [done|lia|rewrite Hl; lia]|]. left. split_and!; [done..|].
    rewrite <-E. apply write_at_prefix; [done|done|lia|done|].
    rewrite Hlz, Z2Nat.id by done. done.
Qed.

Lemma stream_cell_ok {SE} runs r z s i :
  reads r runs → r_chunkSize r = chunkSize → r_virtualSize r = vs →
  renders chunkSize img (newest runs) → 0 ≤ i < grid_cells chunkSize vs → stream_inv i z s →
  ∃ r' z' s', stream_cell (SE := SE) sha256hex image_sink (λ _, false) i r z s = Ok (r', z', s')
    ∧ reads r' runs ∧ same_chain r r' ∧ stream_inv (i + 1) z' s'.
Proof using All.
  intros Hr Hcs Hvs Hren Hi Hinv. destruct (cell_bounds i Hi) as (Hb & Hi64 & He & Hcl & He' & Hlen).
  destruct (ReadChunk_reads r runs i Hr) as (r' & Hrc & Hr' & Hsc).
  pose proof (Hren i Hi) as Hcell. unfold stream_cell. cbn. rewrite Hrc. cbn.
  assert (r_ChunkLength r i = ChunkLength i chunkSize vs) as -> by (by rewrite <-Hcs, <-Hvs).
  rewrite Hcs, Hi64. destruct (newest runs i) as [p|].
  - destruct (flushZeros_ok (SE := SE) i z s) as (s' & -> & Hl' & Hinv'); [lia|done|]. cbn.
    destruct Hinv' as [(_ & _ & Ht)|(? & _)]; [|done].
    eexists _, _, _. split_and!; [done..|]. subst p. split.
    + rewrite length_write_at; [done|lia|]. rewrite Hl', Hlen. unfold cells_end in *. lia.
    + left. split_and!; [done..|]. rewrite He', <-Hlen. rewrite He in Ht.
      apply write_at_prefix; [lia|done|rewrite Hlen; unfold cells_end in *; lia|done|].
      unfold cell at 1. by rewrite Hlen.
  - eexists _, _, _. split_and!; [done..|]. destruct Hinv as [Hl Hinv]. split; [done|]. right. cbn.
    assert (slice (i * chunkSize) (ChunkLength i chunkSize vs) img
            = zeros (Z.to_nat (ChunkLength i chunkSize vs))) as Hz.
    { unfold cell in Hcell at 1.  rewrite Hcell. f_equal. lia. }
    destruct GS as [? _ ?]. 
    destruct Hinv as [(Hz1 & Hz2 & Ht)|(Hz1 & Hz2 & He2 & Ht & Hsl)].
    + rewrite Hz1, Hz2. cbn. rewrite i64_id by (unfold is_i64, cells_end in *; lia).
      rewrite He in Ht. split_and!; [lia..|done|done].
    + destruct (Z.ltb_spec (z_start z) 0); [lia|].
      rewrite i64_id by (unfold is_i64, cells_end in *; lia).
      split_and!; [lia..|done|]. rewrite slice_split, Hsl by lia.
      replace (z_start z + z_len z) with (i * chunkSize) by lia. rewrite Hz. unfold zeros.
      rewrite <-replicate_add. f_equal. lia.
Qed.

Lemma stream_cells_ok {SE} runs n : ∀ r z s i,
  reads r runs → r_chunkSize r = chunkSize → r_virtualSize r = vs →
  renders chunkSize img (newest runs) → 0 ≤ i →
  i + Z.of_nat n = grid_cells chunkSize vs → stream_inv i z s →
  ∃ r' z' s', stream_cells (SE := SE) sha256hex image_sink (λ _, false) (seqZ i (Z.of_nat n)) r z s
              = Ok (r', z', s')
    ∧ reads r' runs ∧ same_chain r r' ∧ stream_inv (grid_cells chunkSize vs) z' s'.
Proof using All.
  induction n as [|n IH]; intros r z s i Hr Hcs Hvs Hren Hi Hn Hinv.
  { cbn. eexists _, _, _. split_and!; [done..|apply same_chain_refl|]. by rewrite <-Hn, Z.add_0_r. }
  rewrite seqZ_cons by lia. replace (Z.pred (Z.of_nat (S n))) with (Z.of_nat n) by lia. cbn [stream_cells].
  destruct (stream_cell_ok (SE := SE) runs r z s i) as (r1 & z1 & s1 & -> & Hr1 & Hsc & Hinv1);
    [done..|lia|done|]. cbn.
  destruct (IH r1 z1 s1 (Z.succ i)) as (r' & z' & s' & -> & Hr' & Hsc' & Hinv');
    [done|by destruct Hsc as [? ->]|by destruct Hsc as [? ->]|done|lia|lia|done|].
  eexists _, _, _. split_and!; [done..|by eapply same_chain_trans|done].
Qed.

(** A whole stream writes the image, whatever the destination held. *)
Lemma stream_ok {SE} runs r s :
  reads r runs → r_chunkSize r = chunkSize → r_virtualSize r = vs →
  renders chunkSize img (newest runs) → length s = length img →
  ∃ r', stream (SE := SE) sha256hex image_sink (λ _, false) r s = Ok (r', img)
    ∧ reads r' runs ∧ same_chain r r'.
Proof using All.
  intros Hr Hcs Hvs Hren Hl. pose proof (@grid_cells_nonneg _ _ GS) as Hg.
  assert (r_GridChunks r = Z.of_nat (Z.to_nat (grid_cells chunkSize vs))) as Hgrid.
  { unfold r_GridChunks. rewrite Hcs, Hvs, Z2Nat.id by done. destruct GS.
    destruct (Z.leb_spec chunkSize 0); [lia|].
    rewrite (i64_id (vs + chunkSize)), i64_id, Z.quot_div_nonneg by (unfold is_i64; lia). done. }
  unfold stream. rewrite Hgrid.
  destruct (stream_cells_ok (SE := SE) runs (Z.to_nat (grid_cells chunkSize vs)) r (mkZeros (-1) 0) s 0)
    as (r' & z' & s' & -> & Hr' & Hsc & Hinv); [done..|lia|lia| |].
  { split; [done|]. left. split_and!; [done..|]. unfold cells_end.
    replace (Z.min (0 * chunkSize) vs) with 0 by lia. done. }
  cbn. destruct (flushZeros_ok (SE := SE) (grid_cells chunkSize vs) z' s' Hg Hinv)
    as (s2 & -> & Hl2 & Hinv2). cbn.
  exists r'. split_and!; [|done..]. do 2 f_equal.
  destruct Hinv2 as [(_ & _ & Ht)|(? & _)]; [|done].
  assert (cells_end (grid_cells chunkSize vs) = vs) as E.
  { unfold cells_end. destruct (Z.le_gt_cases vs (grid_cells chunkSize vs * chunkSize)); [lia|].
    assert (grid_cells chunkSize vs < grid_cells chunkSize vs) by (apply grid_cells_spec; lia). lia. }
  rewrite E in Ht. rewrite !Nat2Z.id in Ht. rewrite firstn_all, <-Hl2, firstn_all in Ht. done.
Qed.

(** ** Random access *)
Lemma slice_zeros off n m : 0 ≤ off → 0 ≤ n → off + n ≤ m →
  slice off n (zeros (Z.to_nat m)) = zeros (Z.to_nat n).
Proof using.
  intros. unfold slice, zeros. rewrite drop_replicate, take_replicate. f_equal. lia.
Qed.

(** One step of the loop lands inside the cell of the position. *)
Lemma position_cell pos :
  0 ≤ pos < vs →
  0 ≤ pos / chunkSize < grid_cells chunkSize vs
  ∧ pos mod chunkSize < ChunkLength (pos / chunkSize) chunkSize vs
  ∧ 0 ≤ pos mod chunkSize
  ∧ pos = pos / chunkSize * chunkSize + pos mod chunkSize.
Proof using GS.
  intros Hpos. assert (0 < chunkSize) by (by destruct GS).
  pose proof (Z.mod_pos_bound pos chunkSize). pose proof (Z.div_mod pos chunkSize).
  assert (0 ≤ pos / chunkSize) by (apply Z.div_pos; lia).
  assert (0 ≤ pos / chunkSize < grid_cells chunkSize vs) as Hi.
  { split; [done|]. apply grid_cells_spec; [done|]. lia. }
  destruct (ChunkLength_in _ Hi) as [-> _]. split_and!; lia.
Qed.

Lemma read_at_loop_ok runs off want fuel : ∀ r filled,
  reads r runs → r_chunkSize r = chunkSize → r_virtualSize r = vs →
  renders chunkSize img (newest runs) → 0 ≤ off → off + want ≤ vs →
  Z.of_nat (length filled) ≤ want → filled = slice off (Z.of_nat (length filled)) img →
  want - Z.of_nat (length filled) ≤ Z.of_nat fuel →
  ∃ r', read_at_loop sha256hex (λ _, false) fuel r off want filled
        = Some (r', slice off want img, None)
    ∧ reads r' runs ∧ same_chain r r'.
Proof using All.
  induction fuel as [|fuel IH]; intros r filled Hr Hcs Hvs Hren Ho Hin Hle Hf Hfuel; cbn [read_at_loop].
  { destruct (Z.leb_spec want (Z.of_nat (length filled))); [|lia].
    exists r. split_and!; [|done|apply same_chain_refl]. do 2 f_equal.
    rewrite Hf. do 2 f_equal. lia. }
  destruct (Z.leb_spec want (Z.of_nat (length filled))).
  { exists r. split_and!; [|done|apply same_chain_refl]. do 2 f_equal. rewrite Hf. do 2 f_equal. lia. }
  set (n := Z.of_nat (length filled)) in *.
  assert (0 ≤ off + n < vs) as Hpos by lia.
  destruct (position_cell (off + n) Hpos) as (Hi & Hlt & Hw0 & Heq).
  assert (0 < chunkSize ∧ vs + chunkSize < 2 ^ 63) as [Hcs0 Hbig] by (by destruct GS).
  rewrite (i64_id (off + n)) by (unfold is_i64; lia).
  rewrite Hcs, Z.quot_div_nonneg, Z.rem_mod_nonneg by lia.
  set (i := (off + n) / chunkSize) in *. set (within := (off + n) mod chunkSize) in *.
  assert (r_ChunkLength r i = ChunkLength i chunkSize vs) as -> by (by rewrite <-Hcs, <-Hvs).
  destruct (cell_bounds i Hi) as (Hb & _ & _ & Hcl & _ & Hlen).
  destruct (Z.leb_spec (ChunkLength i chunkSize vs) 0); [lia|].
  set (tk := if want - n <? ChunkLength i chunkSize vs - within then want - n
             else ChunkLength i chunkSize vs - within).
  assert (0 < tk ≤ want - n ∧ within + tk ≤ ChunkLength i chunkSize vs) as [Htk Hwt].
  { subst tk. destruct (Z.ltb_spec (want - n) (ChunkLength i chunkSize vs - within)); lia. }
  assert (slice within tk (cell chunkSize img i) = slice (off + n) tk img) as Hsl.
  { unfold cell. rewrite slice_slice by lia. f_equal. lia. }
  assert (length (slice (off + n) tk img) = Z.to_nat tk) as Hsll.
  { apply Nat2Z.inj. rewrite length_slice; lia. }
  destruct (ReadChunk_reads r runs i Hr) as (r1 & -> & Hr1 & Hsc).
  assert (∃ r', read_at_loop sha256hex (λ _, false) fuel r1 off want (filled ++ slice (off + n) tk img)
            = Some (r', slice off want img, None) ∧ reads r' runs ∧ same_chain r r')
    as (r' & Hloop & Hr' & Hsc').
  { destruct (IH r1 (filled ++ slice (off + n) tk img)) as (r' & Hl & Hr' & Hsc'); try done.
    - by destruct Hsc as [? ->].
    - by destruct Hsc as [? ->].
    - rewrite length_app, Hsll. lia.
    - rewrite length_app, Nat2Z.inj_add, Hsll. fold n. rewrite Z2Nat.id, slice_split by lia. by rewrite <-Hf.
    - rewrite length_app, Hsll. lia.
    - exists r'. split_and!; [done..|by eapply same_chain_trans]. }
  exists r'. specialize (Hren i Hi). destruct (newest runs i) as [data|].
  - subst data. rewrite Hlen. destruct (Z.ltb_spec (ChunkLength i chunkSize vs) (within + tk)); [lia|].
    by rewrite Hsl.
  - assert (replicate (Z.to_nat tk) Byte.x00 = slice (off + n) tk img) as ->; [|done].
    rewrite <-Hsl, Hren, <-(Nat2Z.id (length (cell chunkSize img i))), Hlen.
    by rewrite slice_zeros by lia.
Qed.

(** [ReadAt] is the image's slice; a read past the end is cut there. *)
Lemma ReadAt_ok runs r off len :
  reads r runs → r_chunkSize r = chunkSize → r_virtualSize r = vs →
  renders chunkSize img (newest runs) → 0 ≤ off < vs → 0 ≤ len → off + len < 2 ^ 63 →
  ∃ r', ReadAt sha256hex (λ _, false) (Z.to_nat len) r len off
        = Some (r', slice off len img, if vs <? off + len then Some EndOfFile else None)
    ∧ reads r' runs ∧ same_chain r r'.
Proof using All.
  intros Hr Hcs Hvs Hren [Ho Hlt] Hlen Hbig. unfold ReadAt.
  destruct (Z.ltb_spec off 0); [lia|]. rewrite Hvs. destruct (Z.leb_spec vs off); [lia|].
  rewrite i64_id by (unfold is_i64; lia).
  set (want := if vs <? off + len then vs - off else len).
  assert (0 ≤ want ≤ len ∧ off + want ≤ vs) as [Hw1 Hw2]
    by (subst want; destruct (Z.ltb_spec vs (off + len)); lia).
  destruct (read_at_loop_ok runs off want (Z.to_nat len) r []) as (r' & -> & Hr' & Hsc);
    [done..|cbn; lia|done|cbn; lia|].
  exists r'. split_and!; [|done..].
  assert (slice off want img = slice off len img) as Hsl.
  { subst want. destruct (Z.ltb_spec vs (off + len)); [|done]. unfold slice.
    rewrite !take_ge by (rewrite length_drop; lia). done. }
  assert (Z.of_nat (length (slice off want img)) = want) as -> by (apply length_slice; lia).
  rewrite Hsl. subst want. destruct (Z.ltb_spec vs (off + len)); cbn; [done|].
  by rewrite Z.ltb_irrefl.
Qed.
End Streaming.
End Chain.
