(* ===== verification/CopyDisk.v ===== *)
(** Copying one disk from ovirt-imageio into the repository
    ([internal/backup/diskcopy.go], the error classes of
    [internal/imageio/client.go], the comparison closure of [copyOneDisk]).

    Everything outside the program (the imageio daemon, the engine's transfers,
    the clock, the context, the uploader's fate, random nonces) is an
    environment with a state [W]: each call is a function of it. Loops whose
    bound is not structural take fuel. *)

From S2P Require Import Prelude GoTime GoStr Model Grid Format Repo Codec Writer Reader.

(** * Errors of the imageio client *)
Inductive SourceError :=
| HTTPError (status : Z) (body : string)
| SourceCancelled
| PathError
| TransportError (detail : string).

Definition IsTicketGone (e : SourceError) : bool :=
  match e with
  | HTTPError status body => (status =? 403) && Contains (ToLower body) "no such ticket"
  | _ => false
  end.

Definition IsNetworkError (e : SourceError) : bool :=
  match e with TransportError _ => true | _ => false end.

Record Extent := mkExtent {
  ext_Start : Z;
  ext_Length : Z;
  ext_Zero : bool;
  ext_Hole : bool;
  ext_Dirty : bool
}.

Inductive ExtentContext := ContextZero | ContextDirty.

#[export] Instance ExtentContext_eq_dec : EqDecision ExtentContext.
Proof. solve_decision. Defined.

(** * Which cells to copy *)
Definition wanted_extent (context : ExtentContext) (e : Extent) : bool :=
  (0 <? ext_Length e)
  && match context with
     | ContextDirty => ext_Dirty e
     | ContextZero => negb (ext_Zero e || ext_Hole e)
     end.

(** [None] when the grid cannot be allocated. *)
Definition selectChunks (extents : list Extent) (context : ExtentContext)
    (chunkSize virtualSize : Z) : option (list Z) :=
  s ← NewChunkSelector chunkSize virtualSize;
  Some (Indices (fold_left (λ s e, if wanted_extent context e
                                   then Add s (ext_Start e) (ext_Length e) else s) extents s)).

Definition maxReadBatch : Z := Z.shiftl 32 20.

Definition groupChunks (indices : list Z) (chunkSize virtualSize : Z) : list ChunkGroup :=
  GroupChunks indices chunkSize virtualSize maxReadBatch.

Definition allZero (data : bytes) : bool := forallb (λ x, Byte.eqb x Byte.x00) data.

(** * Errors of a copy *)
Inductive CopyError :=
| NoChunkSize | CopyCancelled
| MapFailed (e : SourceError)
| HostUnreachable (offset length : Z) (e : SourceError)
| ReadGaveUp (offset length attempts : Z) (e : SourceError)
| ReopenFailed (e : SourceError)
| CompareFailed (e : ReaderError)
| WriteFailed (e : WriterError)
| CopyPanic.

(** The imageio error an error of the copy wraps. *)
Definition cause (e : CopyError) : option SourceError :=
  match e with
  | MapFailed e | HostUnreachable _ _ e | ReadGaveUp _ _ _ e => Some e
  | _ => None
  end.

Definition ticket_gone (e : CopyError) : bool :=
  match cause e with Some e => IsTicketGone e | None => false end.

Definition network_error (e : CopyError) : bool :=
  match cause e with Some e => IsNetworkError e | None => false end.

Definition extentsRetryDelay : Z := 10 * Second.
Definition directRetryWindow : Z := Minute.
Definition networkRetryWindow : Z := 5 * Minute.
Definition maxReopens : Z := 3.

(** * The environment *)
Class Environment (W Client : Type) := {
  env_Extents : Client → ExtentContext → W → result SourceError (list Extent) * W;
  env_ReadRange : Client → Z → Z → W → result SourceError bytes * W;
  (** [ctx.Err() != nil] *)
  env_done : W → bool;
  (** [select] on [ctx.Done()] and [time.After(d)]: whether the context won *)
  env_sleep : Z → W → bool * W;
  env_Now : W → Z;
  (** [Pacer.Wait]: whether it failed *)
  env_pace : Z → W → bool * W;
  env_nonce : W → bytes * W;
  (** whether the uploader goroutine has given up *)
  env_uploader : W → option (result RepoError Z)
}.

Section CopyDisk.
Context {W Client C : Type} `{!Environment W Client} `{!AEAD C} `{!Compressor}.
Variable sha256hex : bytes → string.

Record copyParams := mkCopyParams {
  p_ChunkSize : Z;
  p_VirtualSize : Z;
  p_ExtentContext : ExtentContext;
  p_RangeRetries : Z;
  p_Reopen : option (CopyError → W → result SourceError Client * W);
  p_Alternate : option (W → option Client * W);
  p_Compare : option (Z → bytes → W → result ReaderError bool * W)
}.

(** * Reading a range *)
Definition retry_delay (attempt : Z) : Z :=
  Z.min (Z.shiftl 1 (Z.min (attempt - 1) 5) * Second) (30 * Second).

Section ReadRetry.
Context (src : Client) (offset length retries deadline : Z).

Fixpoint read_loop (fuel : nat) (attempt httpFailures : Z) (w : W) :
    option (result CopyError bytes * W) :=
  match fuel with
  | O => None
  | S fuel =>
    let '(done, w) := if attempt =? 0 then (false, w) else env_sleep (retry_delay attempt) w in
    if done : bool then Some (Err CopyCancelled, w) else
    match env_ReadRange src offset length w with
    | (Ok data, w) => Some (Ok data, w)
    | (Err e, w) =>
      if env_done w then Some (Err CopyCancelled, w) else
      if IsTicketGone e then Some (Err (ReadGaveUp offset length (httpFailures + 1) e), w) else
      if IsNetworkError e then
        if deadline <? env_Now w then Some (Err (HostUnreachable offset length e), w)
        else read_loop fuel (attempt + 1) httpFailures w
      else
        let httpFailures := httpFailures + 1 in
        if retries <? httpFailures
        then Some (Err (ReadGaveUp offset length (httpFailures + 1) e), w)
        else read_loop fuel (attempt + 1) httpFailures w
    end
  end.
End ReadRetry.

Definition readWithRetry (fuel : nat) (src : Client) (offset length retries window : Z) (w : W) :
    option (result CopyError bytes * W) :=
  let retries := if retries <? 0 then 0 else retries in
  read_loop src offset length retries (env_Now w + window) fuel 0 0 w.

(** * The state of a copy *)
Record copyState := mkCopyState {
  cp_world : W;
  cp_src : Client;
  cp_writer : DiskWriter (C := C);
  cp_LogicalBytes : Z;
  cp_ReadBytes : Z;
  cp_ChunkCount : Z;
  cp_MapUnavailable : option SourceError;
  cp_Reopens : Z;
  cp_ViaProxy : option CopyError
}.

Definition with_world (w : W) (s : copyState) : copyState :=
  mkCopyState w (cp_src s) (cp_writer s) (cp_LogicalBytes s) (cp_ReadBytes s) (cp_ChunkCount s)
    (cp_MapUnavailable s) (cp_Reopens s) (cp_ViaProxy s).

Definition with_src (src : Client) (reopens : Z) (via : option CopyError) (s : copyState) :
    copyState :=
  mkCopyState (cp_world s) src (cp_writer s) (cp_LogicalBytes s) (cp_ReadBytes s)
    (cp_ChunkCount s) (cp_MapUnavailable s) reopens via.

Definition with_map_error (e : SourceError) (s : copyState) : copyState :=
  mkCopyState (cp_world s) (cp_src s) (cp_writer s) (cp_LogicalBytes s) (cp_ReadBytes s)
    (cp_ChunkCount s) (Some e) (cp_Reopens s) (cp_ViaProxy s).

Definition count_read (n : Z) (s : copyState) : copyState :=
  mkCopyState (cp_world s) (cp_src s) (cp_writer s) (cp_LogicalBytes s)
    (i64 (cp_ReadBytes s + n)) (cp_ChunkCount s) (cp_MapUnavailable s) (cp_Reopens s)
    (cp_ViaProxy s).

Definition count_written (wr : DiskWriter (C := C)) (n : Z) (s : copyState) : copyState :=
  mkCopyState (cp_world s) (cp_src s) wr (i64 (cp_LogicalBytes s + n)) (cp_ReadBytes s)
    (cp_ChunkCount s + 1) (cp_MapUnavailable s) (cp_Reopens s) (cp_ViaProxy s).

Section Params.
Variable p : copyParams.

(** [toProxy]: whether the source was switched to the engine's proxy. *)
Definition toProxy (e : CopyError) (s : copyState) : bool * copyState :=
  match p_Alternate p with
  | None => (false, s)
  | Some alternate =>
    if bool_decide (is_Some (cp_ViaProxy s)) || negb (network_error e) then (false, s) else
    match alternate (cp_world s) with
    | (None, w) => (false, with_world w s)
    | (Some alt, w) => (true, with_src alt (cp_Reopens s) (Some e) (with_world w s))
    end
  end.

Definition reopen (e : CopyError) (s : copyState) : result CopyError () * copyState :=
  match p_Reopen p with
  | None => (Err e, s)
  | Some open =>
    if negb (ticket_gone e) || (maxReopens <=? cp_Reopens s) then (Err e, s) else
    match open e (cp_world s) with
    | (Err oe, w) => (Err (ReopenFailed oe), with_world w s)
    | (Ok next, w) =>
      let s := with_src next (cp_Reopens s + 1) (cp_ViaProxy s) (with_world w s) in
      match cp_ViaProxy s, p_Alternate p with
      | Some _, Some alternate =>
        match alternate (cp_world s) with
        | (Some alt, w) => (Ok (), with_src alt (cp_Reopens s) (cp_ViaProxy s) (with_world w s))
        | (None, w) => (Ok (), with_world w s)
        end
      | _, _ => (Ok (), s)
      end
    end
  end.

Definition window (s : copyState) : Z :=
  match p_Alternate p, cp_ViaProxy s with
  | Some _, None => directRetryWindow
  | _, _ => networkRetryWindow
  end.

(** * The extent map *)
Definition ask_extents (s : copyState) : result SourceError (list Extent) * copyState :=
  let '(r, w) := env_Extents (cp_src s) (p_ExtentContext p) (cp_world s) in
  (r, with_world w s).

Fixpoint extents_loop (fuel : nat) (r : result SourceError (list Extent)) (s : copyState) :
    option (result SourceError (list Extent) * copyState) :=
  match r with
  | Ok _ => Some (r, s)
  | Err e =>
    if env_done (cp_world s) then Some (r, s) else
    match fuel with
    | O => None
    | S fuel =>
      if IsTicketGone e then
        match reopen (MapFailed e) s with
        | (Err _, s) => Some (r, s)
        | (Ok _, s) => let '(r, s) := ask_extents s in extents_loop fuel r s
        end
      else
        match toProxy (MapFailed e) s with
        | (false, s) => Some (r, s)
        | (true, s) => let '(r, s) := ask_extents s in extents_loop fuel r s
        end
    end
  end.

(** The extents to copy and whether zero cells are skipped. *)
Definition choose_extents (fuel : nat) (s : copyState) :
    option (result CopyError (list Extent * bool) * copyState) :=
  let '(r, s) :=
    match p_Compare p with
    | Some _ => (Ok [mkExtent 0 (p_VirtualSize p) false false true], s)
    | None => ask_extents s
    end in
  '(r, s) ← extents_loop fuel r s;
  let '(cancelled, r, s) :=
    match r with
    | Err _ =>
      if env_done (cp_world s) then (false, r, s) else
      let '(done, w) := env_sleep extentsRetryDelay (cp_world s) in
      let s := with_world w s in
      if done : bool then (true, r, s)
      else let '(r, s) := ask_extents s in (false, r, s)
    | Ok _ => (false, r, s)
    end in
  if cancelled : bool then Some (Err CopyCancelled, s) else
  match r with
  | Ok extents => Some (Ok (extents, false), s)
  | Err e =>
    if bool_decide (p_ExtentContext p = ContextDirty) || env_done (cp_world s)
    then Some (Err (MapFailed e), s)
    else Some (Ok ([mkExtent 0 (p_VirtualSize p) false false false], true), with_map_error e s)
  end.

(** * One batched read *)
Fixpoint read_group (fuel : nat) (retry_fuel : nat) (group : ChunkGroup) (s : copyState) :
    option (result CopyError bytes * copyState) :=
  '(r, w) ← readWithRetry retry_fuel (cp_src s) (cg_Offset group) (cg_Length group)
              (p_RangeRetries p) (window s) (cp_world s);
  let s := with_world w s in
  match r with
  | Ok buf => Some (Ok buf, s)
  | Err e =>
    if env_done (cp_world s) then Some (Err CopyCancelled, s) else
    match fuel with
    | O => None
    | S fuel =>
      if ticket_gone e then
        match reopen e s with
        | (Err e', s) => Some (Err e', s)
        | (Ok _, s) => read_group fuel retry_fuel group s
        end
      else
        match toProxy e s with
        | (false, s) => Some (Err e, s)
        | (true, s) => read_group fuel retry_fuel group s
        end
    end
  end.

(** [p.Compare]: whether the chunk carries new information. *)
Definition keep_chunk (index : Z) (chunk : bytes) (s : copyState) :
    result CopyError bool * copyState :=
  match p_Compare p with
  | None => (Ok true, s)
  | Some compare =>
    let '(r, w) := compare index chunk (cp_world s) in
    (map_err CompareFailed r, with_world w s)
  end.

(** Handing a chunk to the writer, whose uploader may have given up. *)
Definition write_chunk (index : Z) (chunk : bytes) (s : copyState) :
    result CopyError () * copyState :=
  let '(nonce, w) := env_nonce (cp_world s) in
  let s := with_world w s in
  let wr := match env_uploader w with
            | Some res => uploader_stops (cp_writer s) res
            | None => cp_writer s
            end in
  match WriteChunk sha256hex wr nonce index chunk with
  | Err e => (Err (WriteFailed e), s)
  | Ok wr => (Ok (), count_written wr (Z.of_nat (length chunk)) s)
  end.

Definition copy_chunk (skipZero : bool) (index : Z) (chunk : bytes) (s : copyState) :
    result CopyError () * copyState :=
  match keep_chunk index chunk s with
  | (Err e, s) => (Err e, s)
  | (Ok false, s) => (Ok (), s)
  | (Ok true, s) =>
    if skipZero && allZero chunk then (Ok (), s) else write_chunk index chunk s
  end.

(** The inner loop over a group's cells; [buf\[from:from+length\]] out of range
    panics. *)
Fixpoint copy_cells (skipZero : bool) (group : ChunkGroup) (buf : bytes)
    (cells : list (Z * (Z * Z))) (s : copyState) : result CopyError () * copyState :=
  match cells with
  | [] => (Ok (), s)
  | (index, (start, length)) :: cells =>
    let from := i64 (start - cg_Offset group) in
    if (from <? 0) || (length <? 0) || (Z.of_nat (List.length buf) <? i64 (from + length))
    then (Err CopyPanic, s)
    else match copy_chunk skipZero index (slice from length buf) s with
         | (Err e, s) => (Err e, s)
         | (Ok _, s) => copy_cells skipZero group buf cells s
         end
  end.

Definition group_cells (group : ChunkGroup) : list (Z * (Z * Z)) :=
  zip (cg_Indices group) (zip (cg_Starts group) (cg_Lengths group)).

Fixpoint copy_groups (fuel retry_fuel : nat) (skipZero : bool) (groups : list ChunkGroup)
    (s : copyState) : option (result CopyError () * copyState) :=
  match groups with
  | [] => Some (Ok (), s)
  | group :: groups =>
    if env_done (cp_world s) then Some (Err CopyCancelled, s) else
    let '(failed, w) := env_pace (cg_Length group) (cp_world s) in
    let s := with_world w s in
    if failed : bool then Some (Err CopyCancelled, s) else
    '(r, s) ← read_group fuel retry_fuel group s;
    match r with
    | Err e => Some (Err e, s)
    | Ok buf =>
      match copy_cells skipZero group buf (group_cells group) (count_read (cg_Length group) s) with
      | (Err e, s) => Some (Err e, s)
      | (Ok _, s) => copy_groups fuel retry_fuel skipZero groups s
      end
    end
  end.

Definition start_copy (w : W) (src : Client) (wr : DiskWriter (C := C)) : copyState :=
  mkCopyState w src wr 0 0 0 None 0 None.

(** [copyDisk]: the error or nothing, and the state it ended in, which carries
    the result's counters. *)
Definition copyDisk (fuel retry_fuel : nat) (s : copyState) :
    option (result CopyError () * copyState) :=
  if p_ChunkSize p <=? 0 then Some (Err NoChunkSize, s) else
  '(r, s) ← choose_extents fuel s;
  match r with
  | Err e => Some (Err e, s)
  | Ok (extents, skipZero) =>
    match selectChunks extents (p_ExtentContext p) (p_ChunkSize p) (p_VirtualSize p) with
    | None => Some (Err CopyPanic, s)
    | Some wanted =>
      copy_groups fuel retry_fuel skipZero
        (groupChunks (sort_stable Z.ltb wanted) (p_ChunkSize p) (p_VirtualSize p)) s
    end
  end.
End Params.

(** * The comparison [copyOneDisk] installs

    The closure is installed in every copy; [parent] is the parent's reader in
    compare mode and absent in every other. *)
Definition compare_parent (parent : option (Z → result ReaderError (option bytes)))
    (index : Z) (current : bytes) (w : W) : result ReaderError bool * W :=
  match parent with
  | None => (Ok true, w)
  | Some read =>
    match read index with
    | Err e => (Err e, w)
    | Ok None => (Ok (negb (allZero current)), w)
    | Ok (Some previous) => (Ok (negb (bool_decide (previous = current))), w)
    end
  end.

(** * One disk of a run

    The part of [copyOneDisk] between opening the transfer and recording the
    disk: the writer, the copy, and [Close] or [Abort]. [partial] is what an
    interrupted [Put] leaves behind. *)
Inductive DiskError := DiskCopyFailed (e : CopyError) | DiskWriteFailed (e : WriterError).

Definition copyOneDisk {B : Type} `{!Backend B} (fuel retry_fuel : nat) (p : copyParams)
    (opts : WriterOptions (C := C)) (m : DiskManifest) (src : Client) (w : W) (partial b : B) :
    option (B * result DiskError DiskManifest) :=
  match NewDiskWriter m opts with
  | Err e => Some (b, Err (DiskWriteFailed (EncodeFailed e)))
  | Ok wr =>
    '(r, s) ← copyDisk p fuel retry_fuel (start_copy w src wr);
    match r with
    | Err e => Some ((Abort partial b (cp_writer s)).1, Err (DiskCopyFailed e))
    | Ok _ =>
      let '(b, _, r) := Close sha256hex b (cp_writer s) in
      Some (b, map_err DiskWriteFailed r)
    end
  end.
End CopyDisk.
Arguments copyParams W Client : clear implicits.
Arguments copyState W Client C : clear implicits.
