(* ===== verification/CopyFacts.v ===== *)
(** What a disk copy does: it ends, and the cells it stores capture the image
    it was given ([CopyDisk]). *)

From S2P Require Import Prelude GoTime Model Grid Format Repo Codec Writer Reader Restore CopyDisk.

(** * Termination *)
Section Termination.
Context {W Client C : Type} `{!Environment W Client} `{!AEAD C} `{!Compressor}.
Variable sha256hex : bytes → string.
Variable p : copyParams W Client.

(** The clock does not run backwards while a range is read, and a timer that
    fires has waited its time. *)
Class Clock : Prop := {
  clock_read cl off len w : env_Now w ≤ env_Now (env_ReadRange cl off len w).2;
  clock_sleep d w : (env_sleep d w).1 = false → env_Now w + d ≤ env_Now (env_sleep d w).2
}.
Context {CK : Clock}.

Lemma retry_delay_pos attempt : 0 < attempt → Second ≤ retry_delay attempt.
Proof using.
  intros Ha. unfold retry_delay. set (k := Z.min (attempt - 1) 5).
  assert (1 ≤ Z.shiftl 1 k). { rewrite Z.shiftl_1_l. apply (Z.pow_le_mono_r 2 0 k); lia. }
  assert (0 < Second) by (vm_compute; done). nia.
Qed.

Definition retry_measure (window retries attempt httpFailures : Z) : nat :=
  Z.to_nat (retries - httpFailures) + Z.to_nat (window / Second + 1 - attempt).

Lemma read_loop_total src off len retries start window fuel : ∀ attempt httpFailures w,
  0 ≤ attempt → 0 ≤ httpFailures ≤ retries →
  start + (if attempt =? 0 then 0 else (attempt - 1) * Second) ≤ env_Now w →
  (retry_measure window retries attempt httpFailures < fuel)%nat →
  ∃ r, read_loop src off len retries (start + window) fuel attempt httpFailures w = Some r.
Proof using CK.
  assert (0 < Second) as Hsec by (vm_compute; done).
  induction fuel as [|fuel IH]; intros attempt httpFailures w Ha Hh Hnow Hfuel; [lia|].
  cbn [read_loop].
  assert (∃ done w1, (if attempt =? 0 then (false, w) else env_sleep (retry_delay attempt) w)
            = (done, w1) ∧ (done = false → start + attempt * Second ≤ env_Now w1))
    as (done & w1 & -> & Hw1).
  { destruct (Z.eqb_spec attempt 0) as [->|Hne].
    - exists false, w. split; [done|]. intros _. lia.
    - pose proof (clock_sleep (retry_delay attempt) w) as Hs.
      destruct (env_sleep (retry_delay attempt) w) as [d w1]. exists d, w1. split; [done|].
      intros Hd. specialize (Hs Hd). cbn in Hs. pose proof (retry_delay_pos attempt). lia. }
  destruct done; [by eexists|]. specialize (Hw1 eq_refl).
  pose proof (clock_read src off len w1) as Hr.
  destruct (env_ReadRange src off len w1) as [[data|e] w2]; [by eexists|]. cbn in Hr.
  destruct (env_done w2); [by eexists|]. destruct (IsTicketGone e); [by eexists|].
  assert (Z.of_nat (length ([] : list unit)) = 0) as _ by done.
  unfold retry_measure in *. destruct (IsNetworkError e).
  - destruct (Z.ltb_spec (start + window) (env_Now w2)); [by eexists|].
    assert (attempt ≤ window / Second) by (apply Z.div_le_lower_bound; lia).
    apply IH; [lia|done| |lia]. destruct (Z.eqb_spec (attempt + 1) 0); lia.
  - destruct (Z.ltb_spec retries (httpFailures + 1)); [by eexists|].
    apply IH; [lia|lia| |lia]. destruct (Z.eqb_spec (attempt + 1) 0); lia.
Qed.

(** How many attempts one range can take. *)
Definition enough_retries (retries : Z) : nat :=
  Z.to_nat (Z.max 0 retries + networkRetryWindow / Second + 2).

Lemma readWithRetry_total fuel src off len retries win w :
  win ≤ networkRetryWindow → (enough_retries retries ≤ fuel)%nat →
  ∃ r, readWithRetry fuel src off len retries win w = Some r.
Proof using CK.
  intros Hwin Hfuel. unfold readWithRetry.
  replace (if retries <? 0 then 0 else retries) with (Z.max 0 retries)
    by (destruct (Z.ltb_spec retries 0); lia).
  apply read_loop_total; [lia|lia|cbn; lia|].
  unfold retry_measure, enough_retries in *.
  assert (win / Second ≤ networkRetryWindow / Second) by (apply Z.div_le_mono; [by vm_compute|lia]).
  assert (networkRetryWindow / Second = 300) as E by by vm_compute. rewrite E in *. lia.
Qed.

Lemma window_le (s : copyState W Client C) : window p s ≤ networkRetryWindow.
Proof using. unfold window. repeat case_match; by vm_compute. Qed.

(** What is left of the ways to change the source. *)
Definition switches_left (s : copyState W Client C) : nat :=
  Z.to_nat (maxReopens - cp_Reopens s) + match cp_ViaProxy s with Some _ => 0 | None => 1 end.

Lemma reopen_switches e (s : copyState W Client C) s' :
  reopen p e s = (Ok (), s') → (switches_left s' < switches_left s)%nat.
Proof using.
  unfold reopen, switches_left. destruct (p_Reopen p) as [open|]; [|done].
  destruct (negb (ticket_gone e) || (maxReopens <=? cp_Reopens s)) eqn:E; [done|].
  apply orb_false_iff in E as [_ E]. destruct (open e (cp_world s)) as [[next|oe] w]; [|done].
  cbn. destruct (cp_ViaProxy s); [destruct (p_Alternate p) as [alt|]|];
    [destruct (alt w) as [[a|] w']|..]; intros [= <-]; cbn; lia.
Qed.

Lemma toProxy_switches e (s : copyState W Client C) s' :
  toProxy p e s = (true, s') → (switches_left s' < switches_left s)%nat.
Proof using.
  unfold toProxy, switches_left. destruct (p_Alternate p) as [alt|]; [|done].
  destruct (cp_ViaProxy s); cbn; [done|]. destruct (network_error e); cbn; [|done].
  destruct (alt (cp_world s)) as [[a|] w]; intros [= <-]; cbn; lia.
Qed.

Lemma reopen_err_switches e e' (s : copyState W Client C) s' :
  reopen p e s = (Err e', s') → (switches_left s' ≤ switches_left s)%nat.
Proof using.
  unfold reopen. destruct (p_Reopen p) as [open|]; [|by intros [= <- <-]].
  destruct (negb (ticket_gone e) || _); [by intros [= <- <-]|].
  destruct (open e (cp_world s)) as [[next|oe] w]; [|by intros [= <- <-]].
  repeat case_match; by intros [= ].
Qed.

Lemma toProxy_no_switches e (s : copyState W Client C) s' :
  toProxy p e s = (false, s') → (switches_left s' ≤ switches_left s)%nat.
Proof using.
  unfold toProxy. destruct (p_Alternate p) as [alt|]; [|by intros [= <-]].
  destruct (_ || _); [by intros [= <-]|].
  destruct (alt (cp_world s)) as [[a|] w]; by intros [= <-].
Qed.

Lemma copy_chunk_switches skipZero index chunk s r s' :
  copy_chunk sha256hex p skipZero index chunk s = (r, s') → switches_left s' = switches_left s.
Proof using.
  unfold copy_chunk, keep_chunk, write_chunk. intros Hc.
  repeat (case_match; simplify_eq/=); done.
Qed.

Lemma ask_extents_switches r (s : copyState W Client C) s' :
  ask_extents p s = (r, s') → switches_left s' = switches_left s.
Proof using. unfold ask_extents. destruct (env_Extents _ _ _). by intros [= <- <-]. Qed.

Lemma extents_loop_total fuel : ∀ r (s : copyState W Client C),
  (switches_left s < fuel)%nat →
  ∃ r' s', extents_loop p fuel r s = Some (r', s') ∧ (switches_left s' ≤ switches_left s)%nat.
Proof using.
  induction fuel as [|fuel IH]; intros r s Hf; [lia|].
  destruct r as [exts|e]; cbn; [by eexists _, _|].
  destruct (env_done (cp_world s)); [by eexists _, _|]. destruct (IsTicketGone e).
  - destruct (reopen p (MapFailed e) s) as [[[]|e'] s'] eqn:E.
    + apply reopen_switches in E. destruct (ask_extents p s') as [r s''] eqn:Ea.
      apply ask_extents_switches in Ea. destruct (IH r s'') as (r1 & s1 & -> & H1); [lia|].
      exists r1, s1. split; [done|lia].
    + eexists _, _. split; [done|]. by eapply reopen_err_switches.
  - destruct (toProxy p (MapFailed e) s) as [[] s'] eqn:E.
    + apply toProxy_switches in E. destruct (ask_extents p s') as [r s''] eqn:Ea.
      apply ask_extents_switches in Ea. destruct (IH r s'') as (r1 & s1 & -> & H1); [lia|].
      exists r1, s1. split; [done|lia].
    + eexists _, _. split; [done|]. by eapply toProxy_no_switches.
Qed.

Lemma choose_extents_total fuel (s : copyState W Client C) :
  (switches_left s < fuel)%nat →
  ∃ r s', choose_extents p fuel s = Some (r, s') ∧ (switches_left s' ≤ switches_left s)%nat.
Proof using.
  intros Hf. unfold choose_extents.
  destruct (match p_Compare p with
            | Some _ => (Ok [mkExtent 0 (p_VirtualSize p) false false true], s)
            | None => ask_extents p s
            end) as [r s1] eqn:E1.
  assert (switches_left s1 = switches_left s) as H1.
  { destruct (p_Compare p); [by simplify_eq|]. by eapply ask_extents_switches. }
  destruct (extents_loop_total fuel r s1) as (r2 & s2 & -> & H2); [lia|]. cbn.
  destruct r2 as [exts|e]; [by eexists _, _; split; [done|lia]|].
  destruct (env_done (cp_world s2)) eqn:Ed.
  { rewrite Ed, orb_true_r. eexists _, _. split; [done|lia]. }
  destruct (env_sleep extentsRetryDelay (cp_world s2)) as [done w].
  destruct done; [eexists _, _; split; [done|]; change (switches_left s2 ≤ switches_left s)%nat; lia|].
  destruct (ask_extents p (with_world w s2)) as [r3 s3] eqn:E3.
  apply ask_extents_switches in E3. change (switches_left (with_world w s2)) with (switches_left s2) in E3.
  destruct r3 as [exts|e']; [eexists _, _; split; [done|lia]|].
  destruct (bool_decide _ || _); eexists _, _; (split; [reflexivity|]); [lia|].
  change (switches_left (with_map_error e' s3)) with (switches_left s3). lia.
Qed.

Lemma read_group_total fuel retry_fuel group : ∀ (s : copyState W Client C),
  (switches_left s < fuel)%nat → (enough_retries (p_RangeRetries p) ≤ retry_fuel)%nat →
  ∃ r s', read_group p fuel retry_fuel group s = Some (r, s')
    ∧ (switches_left s' ≤ switches_left s)%nat.
Proof using CK.
  induction fuel as [|fuel IH]; intros s Hf Hrf; [lia|]. cbn [read_group].
  destruct (readWithRetry_total retry_fuel (cp_src s) (cg_Offset group) (cg_Length group)
              (p_RangeRetries p) (window p s) (cp_world s)) as [[r w] ->];
    [apply window_le|done|]. cbn.
  set (s1 := with_world w s). assert (switches_left s1 = switches_left s) as H1 by done.
  destruct r as [buf|e]; [by eexists _, _; split; [done|lia]|].
  destruct (env_done w); [by eexists _, _; split; [done|lia]|].
  destruct (ticket_gone e).
  - destruct (reopen p e s1) as [[[]|e'] s2] eqn:E.
    + apply reopen_switches in E. destruct (IH s2) as (r' & s' & -> & H2); [lia|done|].
      eexists _, _. split; [done|lia].
    + apply reopen_err_switches in E. eexists _, _. split; [done|lia].
  - destruct (toProxy p e s1) as [[] s2] eqn:E.
    + apply toProxy_switches in E. destruct (IH s2) as (r' & s' & -> & H2); [lia|done|].
      eexists _, _. split; [done|lia].
    + apply toProxy_no_switches in E. eexists _, _. split; [done|lia].
Qed.

Lemma copy_cells_switches skipZero group buf cells : ∀ s r s',
  copy_cells sha256hex p skipZero group buf cells s = (r, s') → switches_left s' = switches_left s.
Proof using.
  induction cells as [|[index [start len]] cells IH]; intros s r s' Hc; cbn in Hc; [by simplify_eq|].
  case_match; [by simplify_eq|].
  destruct (copy_chunk sha256hex p skipZero index _ s) as [[[]|e] s1] eqn:E.
  - rewrite (IH _ _ _ Hc). by eapply copy_chunk_switches.
  - simplify_eq. by eapply copy_chunk_switches.
Qed.

Lemma copy_groups_total fuel retry_fuel skipZero groups : ∀ s,
  (switches_left s < fuel)%nat → (enough_retries (p_RangeRetries p) ≤ retry_fuel)%nat →
  ∃ r s', copy_groups sha256hex p fuel retry_fuel skipZero groups s = Some (r, s').
Proof using CK.
  induction groups as [|group groups IH]; intros s Hf Hrf; cbn [copy_groups]; [by eexists _, _|].
  destruct (env_done (cp_world s)); [by eexists _, _|].
  destruct (env_pace (cg_Length group) (cp_world s)) as [[] w]; [by eexists _, _|].
  destruct (read_group_total fuel retry_fuel group (with_world w s)) as (r & s1 & -> & H1); [done..|].
  cbn. change (switches_left (with_world w s)) with (switches_left s) in H1.
  destruct r as [buf|e]; [|by eexists _, _].
  destruct (copy_cells sha256hex p skipZero group buf (group_cells group)
              (count_read (cg_Length group) s1)) as [[[]|e] s2] eqn:E; [|by eexists _, _].
  apply copy_cells_switches in E. apply IH; [|done].
  change (switches_left (count_read (cg_Length group) s1)) with (switches_left s1) in E. lia.
Qed.

Lemma copyDisk_total retry_fuel s :
  cp_Reopens s = 0 → (enough_retries (p_RangeRetries p) ≤ retry_fuel)%nat →
  ∃ r s', copyDisk sha256hex p 5 retry_fuel s = Some (r, s').
Proof using CK.
  intros H0 Hrf. unfold copyDisk. destruct (p_ChunkSize p <=? 0); [by eexists _, _|].
  assert (switches_left s < 5)%nat as Hsw.
  { unfold switches_left. rewrite H0. destruct (cp_ViaProxy s); vm_compute; lia. }
  destruct (choose_extents_total 5 s Hsw) as (r & s1 & -> & H1). cbn.
  destruct r as [[exts skip]|e]; [|by eexists _, _].
  destruct (selectChunks exts _ _ _); [|by eexists _, _]. apply copy_groups_total; [lia|done].
Qed.
End Termination.

(** * What is copied *)
Section Capture.
Context {W Client C : Type} `{!Environment W Client} `{!AEAD C} `{!Compressor}.
Variable sha256hex : bytes → string.
Variable p : copyParams W Client.
Variable img : bytes.
Variable c : codec C.

#[local] Abbreviation cs := (p_ChunkSize p).
#[local] Abbreviation vs := (Z.of_nat (length img)).
#[local] Abbreviation grid := (grid_cells cs vs).

(** The source is the image: what a range read returns is that range. *)
Class Source : Prop := {
  src_read cl off len w d w' :
    env_ReadRange cl off len w = (Ok d, w') → 0 ≤ off → 0 < len → off + len ≤ vs →
    d = slice off len img;
  src_nonce w : nonce_ok c (env_nonce w).1
}.

(** The sizes fit the format. *)
Class CopySizes : Prop := {
  sz_grid :: GridSizes cs vs;
  sz_virtual : p_VirtualSize p = vs;
  sz_chunk : cs + codec_overhead c < 2 ^ 31;
  sz_total : grid * (cs + codec_overhead c) < 2 ^ 63
}.
Context {SRC : Source} {SZ : CopySizes}.

(** What the comparison decides, as a function of the cell. *)
Variable keep : Z → bytes → bool.
Hypothesis keep_spec : ∀ i d s b s',
  keep_chunk (C := C) p i d s = (Ok b, s') → b = keep i d.

Definition picked (skipZero : bool) (indices : list Z) : list (Z * bytes) :=
  (λ i, (i, cell cs img i)) <$>
  filter (λ i, keep i (cell cs img i) = true ∧ (skipZero && allZero (cell cs img i)) = false) indices.

Lemma picked_app skipZero l l' : picked skipZero (l ++ l') = picked skipZero l ++ picked skipZero l'.
Proof using. unfold picked. by rewrite filter_app, fmap_app. Qed.

Lemma plain_bytes_picked skipZero l :
  Forall (λ i, 0 ≤ i < grid) l →
  plain_bytes (picked skipZero l) ≤ Z.of_nat (length (picked skipZero l)) * cs
  ∧ Z.of_nat (length (picked skipZero l)) ≤ Z.of_nat (length l).
Proof using SZ.
  intros Hl. split.
  - unfold picked. assert (Forall (λ i, 0 ≤ i < grid) (filter (λ i, keep i (cell cs img i) = true
      ∧ (skipZero && allZero (cell cs img i)) = false) l)) as Hf.
    { apply Forall_forall. intros i Hi. apply list_elem_of_filter in Hi as [_ Hi].
      by rewrite Forall_forall in Hl; apply Hl. }
    clear Hl. induction Hf as [|i l' Hi _ IH]; cbn; [lia|].
    destruct (cell_bounds cs img i Hi) as (_ & _ & _ & _ & _ & ->).
    destruct (ChunkLength_in i Hi) as [-> _]. unfold plain_bytes in IH. cbn in IH. lia.
  - unfold picked. rewrite length_fmap. pose proof (filter_length_le (λ i, bool_decide (keep i (cell cs img i) = true
      ∧ (skipZero && allZero (cell cs img i)) = false)) l). apply inj_le, length_filter.
Qed.

(** The copy after the indices [done_]. *)
Record copied (wr0 : DiskWriter (C := C)) (skipZero : bool) (done_ : list Z)
    (s : copyState W Client C) : Prop := {
  cpd_written : written sha256hex (cp_writer s) (picked skipZero done_);
  cpd_codec : dw_codec (cp_writer s) = c;
  cpd_uploader : dw_uploader (cp_writer s) = UploaderReading;
  cpd_disk : same_disk (dw_manifest wr0) (dw_manifest (cp_writer s))
}.

Lemma copied_writer wr0 skipZero done_ s s' :
  cp_writer s' = cp_writer s → copied wr0 skipZero done_ s → copied wr0 skipZero done_ s'.
Proof using. intros E [? ? ? ?]. split; by rewrite E. Qed.

Lemma cell_fits_cell i : 0 ≤ i < grid → cell_fits c (cell cs img i).
Proof using SZ.
  intros Hi. destruct (cell_bounds cs img i Hi) as (_ & _ & _ & Hpos & _ & Hl).
  destruct (ChunkLength_in i Hi) as [Hcl _]. destruct SZ. split; [|lia].
  intros E. rewrite E in Hl. cbn in Hl. lia.
Qed.

Lemma write_chunk_copied wr0 skipZero done_ i s s' :
  0 ≤ i < grid → Forall (λ j, 0 ≤ j < grid) (done_ ++ [i]) →
  Z.of_nat (length (done_ ++ [i])) ≤ grid → copied wr0 skipZero done_ s →
  keep i (cell cs img i) = true → (skipZero && allZero (cell cs img i)) = false →
  write_chunk sha256hex i (cell cs img i) s = (Ok (), s') →
  copied wr0 skipZero (done_ ++ [i]) s'.
Proof using SRC SZ.
  intros Hi Hall Hlen [Hw Hc Hu Hd] Hk Hz Hwr. unfold write_chunk in Hwr.
  pose proof (src_nonce (cp_world s)) as Hn. destruct (env_nonce (cp_world s)) as [nonce w].
  cbn in Hn, Hwr. assert (picked skipZero (done_ ++ [i])
    = picked skipZero done_ ++ [(i, cell cs img i)]) as Epick.
  { rewrite picked_app. f_equal. unfold picked. by rewrite filter_cons_True. }
  destruct (plain_bytes_picked skipZero (done_ ++ [i]) Hall) as [Hpb Hpl].
  pose proof (codec_overhead_nonneg c) as Hov.
  destruct (env_uploader w) as [res|].
  { unfold uploader_stops in Hwr. rewrite Hu in Hwr. unfold WriteChunk in Hwr. cbn in Hwr.
    pose proof (wr_open _ _ _ Hw) as Hop. rewrite Hop in Hwr.
    destruct (cell_fits_cell i Hi) as [Hne _].
    destruct (Nat.eqb_spec (length (cell cs img i)) 0); [by destruct (cell cs img i)|].
    destruct (fail_if _ _); cbn in Hwr; [|done]. destruct (encode _ _ _ _) as [[? ?]|]; done. }
  destruct (WriteChunk sha256hex (cp_writer s) nonce i (cell cs img i)) as [wr|e] eqn:E; [|done].
  simplify_eq/=. rewrite <-Hc in Hn.
  destruct (WriteChunk_written sha256hex (cp_writer s) _ nonce i (cell cs img i) wr Hw)
    as (Hw' & Hc' & (ch & Hm) & Hu'); [rewrite Hc; by apply cell_fits_cell|done| |done|].
  { rewrite <-Epick, Hc. destruct SZ. nia. }
  split; cbn; [by rewrite Epick|congruence|done|]. rewrite Hm. by apply same_disk_append.
Qed.

Lemma copy_chunk_copied wr0 skipZero done_ i s s' :
  0 ≤ i < grid → Forall (λ j, 0 ≤ j < grid) (done_ ++ [i]) →
  Z.of_nat (length (done_ ++ [i])) ≤ grid → copied wr0 skipZero done_ s →
  copy_chunk sha256hex p skipZero i (cell cs img i) s = (Ok (), s') →
  copied wr0 skipZero (done_ ++ [i]) s'.
Proof using All.
  intros Hi Hall Hlen Hcp Hc. unfold copy_chunk in Hc.
  destruct (keep_chunk p i (cell cs img i) s) as [[b|e] s1] eqn:Ek; [|done].
  pose proof (keep_spec _ _ _ _ _ Ek) as Hb.
  assert (cp_writer s1 = cp_writer s) as E1.
  { unfold keep_chunk in Ek. destruct (p_Compare p) as [cmp|]; [|by simplify_eq].
    destruct (cmp i (cell cs img i) (cp_world s)). by simplify_eq. }
  apply (copied_writer _ _ _ _ _ E1) in Hcp.
  assert (¬ (keep i (cell cs img i) = true ∧ (skipZero && allZero (cell cs img i)) = false) →
          copied wr0 skipZero (done_ ++ [i]) s1) as Hskip.
  { intros Hno. destruct Hcp as [Hw ? ? ?]. split; [|done..]. rewrite picked_app.
    unfold picked at 2. rewrite filter_cons_False by done. by rewrite app_nil_r. }
  destruct b.
  - destruct (skipZero && allZero (cell cs img i)) eqn:Ez.
    + simplify_eq. apply Hskip. intros [_ ?]. done.
    + by eapply write_chunk_copied.
  - simplify_eq. apply Hskip. intros [? _]. congruence.
Qed.

(** The cells of a group, and a buffer that holds the group. *)
Lemma group_cells_seq maxBatch first n g :
  group_at (chunkSize := cs) (virtualSize := vs) maxBatch first n g →
  group_cells g = (λ i, (i, (i * cs, ChunkLength i cs vs))) <$> seqZ first n.
Proof using.
  intros [_ _ HI HS HL _ _ _]. unfold group_cells. rewrite HI, HS, HL. clear.
  induction (seqZ first n) as [|i l IH]; cbn; [done|]. by rewrite IH.
Qed.

Lemma copy_cells_copied wr0 skipZero maxBatch first n g cells : ∀ done_ s s',
  group_at (chunkSize := cs) (virtualSize := vs) maxBatch first n g →
  Forall (λ i, first ≤ i < first + n) cells → Forall (λ j, 0 ≤ j < grid) (done_ ++ cells) →
  Z.of_nat (length (done_ ++ cells)) ≤ grid → copied wr0 skipZero done_ s →
  copy_cells sha256hex p skipZero g (slice (cg_Offset g) (cg_Length g) img)
    ((λ i, (i, (i * cs, ChunkLength i cs vs))) <$> cells) s = (Ok (), s') →
  copied wr0 skipZero (done_ ++ cells) s'.
Proof using All.
  induction cells as [|i cells IH]; intros done_ s s' Hg Hin Hall Hlen Hcp Hc; cbn in Hc.
  { simplify_eq. by rewrite app_nil_r. }
  apply Forall_cons in Hin as [Hi Hin].
  assert (0 ≤ i < grid) as Hgi.
  { rewrite Forall_forall in Hall. apply Hall. set_solver. }
  destruct (cell_bounds cs img i Hgi) as (Hb & Hi64 & _ & Hpos & _ & Hl).
  destruct (ChunkLength_in i Hgi) as [Hcl _].
  pose proof Hg as [Hn [Hf0 Hf1] _ _ _ Ho HLen _].
  assert (0 < cs ∧ vs + cs < 2 ^ 63) as [Hcs Hvs63] by (destruct SZ as [[]]; lia).
  assert (i * cs - cg_Offset g = (i - first) * cs) as Hfrom by (rewrite Ho; ring).
  assert (0 ≤ (i - first) * cs ∧ (i - first) * cs + ChunkLength i cs vs ≤ cg_Length g) as [H1 H2].
  { rewrite Hcl, HLen. nia. }
  assert (cg_Offset g + cg_Length g ≤ vs) as Hgv by (rewrite Ho, HLen; lia).
  assert (0 ≤ cg_Offset g) as Ho0 by (rewrite Ho; nia).
  rewrite Hfrom, (i64_id ((i - first) * cs)), i64_id in Hc by (unfold is_i64; lia).
  rewrite length_slice in Hc by lia.
  destruct (_ || _ || _) eqn:Eb; [done|].
  rewrite slice_slice in Hc by lia. replace (cg_Offset g + (i - first) * cs) with (i * cs) in Hc by lia.
  change (slice (i * cs) (ChunkLength i cs vs) img) with (cell cs img i) in Hc.
  destruct (copy_chunk sha256hex p skipZero i (cell cs img i) s) as [[[]|e] s1] eqn:Ec; [|done].
  rewrite cons_middle, app_assoc in *.
  eapply (IH _ s1); [done..| |done]. eapply copy_chunk_copied; [done| | |done|done].
  - by apply Forall_app in Hall as [? _].
  - rewrite !length_app in Hlen. rewrite length_app. lia.
Qed.

Lemma read_loop_data src off len retries deadline fuel : ∀ attempt failures w d w',
  0 ≤ off → 0 < len → off + len ≤ vs →
  read_loop src off len retries deadline fuel attempt failures w = Some (Ok d, w') →
  d = slice off len img.
Proof using SRC.
  induction fuel as [|fuel IH]; intros attempt failures w d w' Ho Hl Hin Hr; cbn [read_loop] in Hr; [done|].
  destruct (if attempt =? 0 then (false, w) else env_sleep (retry_delay attempt) w) as [[] w1]; [done|].
  destruct (env_ReadRange src off len w1) as [[data|e] w2] eqn:E.
  - simplify_eq. by eapply src_read.
  - repeat (case_match; simplify_eq/=; try done); by eapply IH.
Qed.

Lemma reopen_writer e r (s s' : copyState W Client C) :
  reopen p e s = (r, s') → cp_writer s' = cp_writer s.
Proof using. unfold reopen. intros Hr. repeat (case_match; simplify_eq/=; try done). Qed.

Lemma toProxy_writer e r (s s' : copyState W Client C) :
  toProxy p e s = (r, s') → cp_writer s' = cp_writer s.
Proof using. unfold toProxy. intros Hr. repeat (case_match; simplify_eq/=; try done). Qed.

Lemma read_group_data fuel retry_fuel g : ∀ (s : copyState W Client C) d s',
  0 ≤ cg_Offset g → 0 < cg_Length g → cg_Offset g + cg_Length g ≤ vs →
  read_group p fuel retry_fuel g s = Some (Ok d, s') →
  d = slice (cg_Offset g) (cg_Length g) img ∧ cp_writer s' = cp_writer s.
Proof using SRC.
  induction fuel as [|fuel IH]; intros s d s' Ho Hl Hin Hr; cbn [read_group] in Hr;
    destruct (readWithRetry _ _ _ _ _ _ _) as [[[buf|e] w]|] eqn:E; cbn in Hr; try done.
  - simplify_eq. split; [|done]. unfold readWithRetry in E. by eapply read_loop_data in E.
  - by case_match.
  - simplify_eq. split; [|done]. unfold readWithRetry in E. by eapply read_loop_data in E.
  - destruct (env_done w); [done|]. destruct (ticket_gone e).
    + destruct (reopen p e (with_world w s)) as [[[]|e'] s1] eqn:E1; [|done].
      apply reopen_writer in E1. destruct (IH _ _ _ Ho Hl Hin Hr) as [-> ->]. done.
    + destruct (toProxy p e (with_world w s)) as [[] s1] eqn:E1; [|done].
      apply toProxy_writer in E1. destruct (IH _ _ _ Ho Hl Hin Hr) as [-> ->]. done.
Qed.

Lemma copy_groups_copied wr0 skipZero maxBatch fuel retry_fuel groups : ∀ done_ s s',
  Forall (group_wf (chunkSize := cs) (virtualSize := vs) maxBatch) groups →
  Forall (λ j, 0 ≤ j < grid) done_ →
  Z.of_nat (length (done_ ++ (groups ≫= cg_Indices))) ≤ grid → copied wr0 skipZero done_ s →
  copy_groups sha256hex p fuel retry_fuel skipZero groups s = Some (Ok (), s') →
  copied wr0 skipZero (done_ ++ (groups ≫= cg_Indices)) s'.
Proof using All.
  induction groups as [|g groups IH]; intros done_ s s' Hwf Hdone Hlen Hcp Hc; cbn [copy_groups] in Hc.
  { simplify_eq. by rewrite app_nil_r. }
  apply Forall_cons in Hwf as [(first & n & Hg) Hwf].
  destruct (env_done (cp_world s)); [done|].
  destruct (env_pace (cg_Length g) (cp_world s)) as [[] w]; [done|].
  destruct (read_group p fuel retry_fuel g (with_world w s)) as [[[buf|e] s1]|] eqn:E; cbn in Hc; try done.
  pose proof Hg as [Hn [Hf0 Hf1] HI _ _ Ho HLen _].
  assert (0 < cs) as Hcs by (destruct SZ as [[]]; lia).
  assert (Forall (λ j, 0 ≤ j < grid) (seqZ first n)) as Hseq.
  { apply Forall_forall. intros j Hj%elem_of_seqZ. lia. }
  assert (first * cs < vs) by (apply grid_cells_spec; lia).
  assert (0 ≤ cg_Offset g) by (rewrite Ho; nia).
  assert (0 < cg_Length g) by (rewrite HLen; nia).
  destruct (read_group_data _ _ _ _ _ _ ltac:(done) ltac:(done) ltac:(rewrite Ho, HLen; lia) E) as [-> E1].
  destruct (copy_cells sha256hex p skipZero g _ (group_cells g) _) as [[[]|e] s2] eqn:E2; [|done].
  rewrite (group_cells_seq _ _ _ _ Hg) in E2.
  cbn [mbind list_bind] in *. rewrite HI, app_assoc in *.
  eapply (IH _ s2); [done| |done| |done].
  - by apply Forall_app.
  - eapply copy_cells_copied; [exact Hg| |by apply Forall_app| | |exact E2].
    + apply Forall_forall. intros j Hj%elem_of_seqZ. lia.
    + rewrite length_app in Hlen. lia.
    + eapply copied_writer; [|exact Hcp]. cbn. by rewrite E1.
Qed.

Lemma ask_extents_writer r (s s' : copyState W Client C) :
  ask_extents p s = (r, s') → cp_writer s' = cp_writer s.
Proof using. unfold ask_extents. destruct (env_Extents _ _ _). by intros [= <- <-]. Qed.

(** A map obtained from the source, or the whole image. *)
Definition from_source (exts : list Extent) : Prop :=
  ∃ cl w w', env_Extents cl (p_ExtentContext p) w = (Ok exts, w').

Lemma ask_extents_source exts (s s' : copyState W Client C) :
  ask_extents p s = (Ok exts, s') → from_source exts.
Proof using.
  unfold ask_extents, from_source. destruct (env_Extents _ _ _) as [r w] eqn:E.
  intros [= -> <-]. by eexists _, _, _.
Qed.

Lemma extents_loop_source fuel : ∀ r (s : copyState W Client C) r' s',
  (∀ exts, r = Ok exts → from_source exts) →
  extents_loop p fuel r s = Some (r', s') →
  (∀ exts, r' = Ok exts → from_source exts) ∧ cp_writer s' = cp_writer s.
Proof using.
  induction fuel as [|fuel IH]; intros r s r' s' Hr He; destruct r as [exts|e]; cbn in He.
  1, 3: simplify_eq; split; [intros ? [= <-]; by apply Hr|done].
  - case_match; simplify_eq. split; [by intros|done].
  - destruct (env_done (cp_world s)); [by simplify_eq|]. destruct (IsTicketGone e).
    + destruct (reopen p (MapFailed e) s) as [[[]|e'] s1] eqn:E1; apply reopen_writer in E1.
      * destruct (ask_extents p s1) as [r1 s2] eqn:E2. pose proof (ask_extents_writer _ _ _ E2) as E3.
        destruct (IH r1 s2 r' s') as [? ->]; [|done|by rewrite E3, E1].
        intros exts ->. by eapply ask_extents_source.
      * simplify_eq. done.
    + destruct (toProxy p (MapFailed e) s) as [[] s1] eqn:E1; apply toProxy_writer in E1.
      * destruct (ask_extents p s1) as [r1 s2] eqn:E2. pose proof (ask_extents_writer _ _ _ E2) as E3.
        destruct (IH r1 s2 r' s') as [? ->]; [|done|by rewrite E3, E1].
        intros exts ->. by eapply ask_extents_source.
      * simplify_eq. done.
Qed.

Lemma sorted_grid_length l :
  StronglySorted Z.lt l → Forall (λ i, 0 ≤ i < grid) l → Z.of_nat (length l) ≤ grid.
Proof using SZ.
  intros Hs Hl. pose proof (@grid_cells_nonneg cs vs _) as Hg.
  assert (NoDup l) as Hnd.
  { clear Hl. induction Hs as [|x l _ IH Hx]; constructor; [|done]. intros Hin.
    rewrite Forall_forall in Hx. specialize (Hx _ Hin). lia. }
  assert (l ⊆+ seqZ 0 grid) as Hsub.
  { apply NoDup_submseteq; [done|]. intros i Hi. rewrite Forall_forall in Hl.
    apply elem_of_seqZ. specialize (Hl i Hi). lia. }
  apply submseteq_length in Hsub. rewrite length_seqZ in Hsub. lia.
Qed.

(** What [choose_extents] can settle on. *)
Inductive chosen : list Extent → bool → Prop :=
| chosen_map exts : p_Compare p = None → from_source exts → chosen exts false
| chosen_compare cmp : p_Compare p = Some cmp → chosen [mkExtent 0 vs false false true] false
| chosen_whole : p_Compare p = None → p_ExtentContext p = ContextZero →
    chosen [mkExtent 0 vs false false false] true.

Lemma choose_extents_chosen fuel (s : copyState W Client C) exts skip s' :
  choose_extents p fuel s = Some (Ok (exts, skip), s') →
  chosen exts skip ∧ cp_writer s' = cp_writer s.
Proof using SZ.
  pose proof (sz_virtual (CopySizes := SZ)) as Hvs.
  unfold choose_extents. destruct (p_Compare p) as [cmp|] eqn:Ec.
  { destruct fuel; cbn; intros [= <- <- <-]; rewrite Hvs; (split; [by eapply chosen_compare|done]). }
  destruct (ask_extents p s) as [r s1] eqn:E1. pose proof (ask_extents_writer _ _ _ E1) as W1.
  destruct (extents_loop p fuel r s1) as [[r2 s2]|] eqn:E2; cbn; [|done].
  apply extents_loop_source in E2 as [Hr2 W2];
    [|intros ? ->; by eapply ask_extents_source].
  assert (∀ s'' : copyState W Client C, Some (Ok (E := CopyError) ([mkExtent 0 (p_VirtualSize p) false false false], true), s'')
            = Some (Ok (exts, skip), s') → p_ExtentContext p ≠ ContextDirty →
          cp_writer s'' = cp_writer s → chosen exts skip ∧ cp_writer s' = cp_writer s) as Hwhole.
  { intros s'' [= <- <- <-] Hne Hw. rewrite Hvs. split; [|done]. apply chosen_whole; [done|].
    by destruct (p_ExtentContext p). }
  destruct r2 as [exts2|e].
  { intros [= <- <- <-]. split; [apply chosen_map; [done|by apply Hr2]|congruence]. }
  destruct (env_done (cp_world s2)) eqn:Ed; [by rewrite Ed, orb_true_r|].
  destruct (env_sleep extentsRetryDelay (cp_world s2)) as [[] w]; [done|].
  destruct (ask_extents p (with_world w s2)) as [r3 s3] eqn:E3.
  pose proof (ask_extents_writer _ _ _ E3) as W3. cbn in W3. destruct r3 as [exts3|e3].
  { intros [= <- <- <-]. split; [|congruence]. apply chosen_map; [done|]. by eapply ask_extents_source. }
  destruct (bool_decide (p_ExtentContext p = ContextDirty)) eqn:Eb; cbn; [done|].
  destruct (env_done (cp_world s3)); [done|]. intros E. eapply Hwhole; [exact E|by bprop|].
  cbn. congruence.
Qed.

(** ** The selected cells *)

(** Offsets a 64-bit extent can name without wrapping. *)
Definition sane (e : Extent) : Prop :=
  - 2 ^ 63 ≤ ext_Start e ∧ ext_Start e + ext_Length e < 2 ^ 63.

Definition selected (context : ExtentContext) (exts : list Extent) (i : Z) : Prop :=
  ∃ e, e ∈ exts ∧ wanted_extent context e = true ∧ touches cs vs (ext_Start e) (ext_Length e) i.

Lemma add_extents_spec context exts : ∀ s,
  Forall sane exts → sel_wf (chunkSize := cs) (virtualSize := vs) s →
  let s' := fold_left (λ s e, if wanted_extent context e
                              then Add s (ext_Start e) (ext_Length e) else s) exts s in
  sel_wf (chunkSize := cs) (virtualSize := vs) s'
  ∧ ∀ i, is_marked (chunkSize := cs) (virtualSize := vs) s' i
         ↔ is_marked (chunkSize := cs) (virtualSize := vs) s i ∨ selected context exts i.
Proof using SZ.
  induction exts as [|e exts IH]; intros s Hs Hwf; cbn.
  { split; [done|]. intros i. split; [by left|]. intros [?|(e & He & _)]; [done|].
    by apply elem_of_nil in He. }
  apply Forall_cons in Hs as [[He1 He2] Hs].
  destruct (wanted_extent context e) eqn:Ew.
  - destruct (Add_marks s (ext_Start e) (ext_Length e) Hwf He1 He2) as [Hwf' Hm].
    destruct (IH _ Hs Hwf') as [Hwf'' Hm']. split; [done|]. intros i. rewrite Hm', Hm.
    unfold selected. setoid_rewrite elem_of_cons. split.
    + intros [[?|?]|(e' & ? & ?)]; [by left|right; exists e; by split; [left|]|right].
      exists e'. split; [by right|done].
    + intros [?|(e' & [->|?] & ? & ?)]; [by left; left|by left; right|].
      right. by exists e'.
  - destruct (IH _ Hs Hwf) as [Hwf' Hm]. split; [done|]. intros i. rewrite Hm.
    unfold selected. setoid_rewrite elem_of_cons. split.
    + intros [?|(e' & ? & ?)]; [by left|right]. exists e'. split; [by right|done].
    + intros [?|(e' & [->|?] & ? & ?)]; [by left|congruence|]. right. by exists e'.
Qed.

Lemma selectChunks_spec context exts :
  Forall sane exts →
  ∃ l, selectChunks exts context cs vs = Some l ∧ StronglySorted Z.lt l
    ∧ Forall (λ i, 0 ≤ i < grid) l ∧ Z.of_nat (length l) ≤ grid
    ∧ ∀ i, i ∈ l ↔ selected context exts i.
Proof using SZ.
  intros Hs. unfold selectChunks. rewrite NewChunkSelector_some. cbn.
  pose proof (@grid_cells_nonneg cs vs _) as Hg.
  set (s0 := mkChunkSelector _ _ _ _ _).
  assert (Forall (λ b, b = false) (cs_marked s0)) as Hfalse by (cbn; apply Forall_replicate; done).
  assert (∀ i, ¬ is_marked (chunkSize := cs) (virtualSize := vs) s0 i) as Hno.
  { intros i [_ Hi]. apply Forall_lookup_1 with (i := Z.to_nat i) (x := true) in Hfalse; done. }
  assert (marked_from 0 (replicate (Z.to_nat grid) false) = []) as Hnone.
  { destruct (marked_from 0 _) as [|i l] eqn:E; [done|].
    assert (i ∈ marked_from 0 (replicate (Z.to_nat grid) false)) as Hi by (rewrite E; left).
    apply marked_from_elem in Hi as [_ Hi]. by apply lookup_replicate_1 in Hi as [? _]. }
  assert (sel_wf (chunkSize := cs) (virtualSize := vs) s0) as Hwf.
  { split; [done..|cbn; rewrite length_replicate; lia|]. cbn. unfold Indices. cbn. by rewrite Hnone. }
  destruct (add_extents_spec context exts s0 Hs Hwf) as [Hwf' Hm].
  eexists. split; [done|]. split_and!.
  - apply Indices_sorted.
  - apply Forall_forall. intros i Hi. apply (Indices_elem _ _ Hwf') in Hi. by destruct Hi.
  - rewrite <-(wf_len _ Hwf'). unfold Indices. apply inj_le, marked_from_length.
  - intros i. rewrite (Indices_elem _ _ Hwf'), Hm. split; [|by right]. by intros [?%Hno|?].
Qed.

Lemma sort_ltb_id l : StronglySorted Z.lt l → sort_stable Z.ltb l = l.
Proof using.
  intros Hl. apply sort_stable_id. induction Hl as [|x l _ IH Hx]; constructor; [done|].
  eapply Forall_impl; [exact Hx|]. intros y Hy. unfold not_after. lia.
Qed.

Hypothesis source_sane : ∀ exts, from_source exts → Forall sane exts.

Lemma chosen_sane exts skip : chosen exts skip → Forall sane exts.
Proof using SZ source_sane.
  destruct SZ as [[] ? ? ?].
  destruct 1 as [exts _ Hf|cmp _|]; [by apply source_sane|..]; (constructor; [|done]);
    unfold sane; cbn; lia.
Qed.

(** A successful copy stored exactly the selected cells it was to keep. *)
Lemma copyDisk_copied wr fuel retry_fuel w src s' :
  written sha256hex wr [] → dw_codec wr = c → dw_uploader wr = UploaderReading →
  copyDisk sha256hex p fuel retry_fuel (start_copy w src wr) = Some (Ok (), s') →
  ∃ exts skip wanted, chosen exts skip ∧ copied wr skip wanted s'
    ∧ StronglySorted Z.lt wanted ∧ Forall (λ i, 0 ≤ i < grid) wanted
    ∧ ∀ i, i ∈ wanted ↔ selected (p_ExtentContext p) exts i.
Proof using All.
  intros Hw Hc Hu Hcp. unfold copyDisk in Hcp.
  destruct (Z.leb_spec cs 0); [done|].
  destruct (choose_extents p fuel (start_copy w src wr)) as [[[[exts skip]|e] s1]|] eqn:E; cbn in Hcp; try done.
  apply choose_extents_chosen in E as [Hch W1].
  destruct (selectChunks_spec (p_ExtentContext p) exts (chosen_sane _ _ Hch))
    as (wanted & Hsel & Hsort & Hall & Hlen & Hmem).
  rewrite (sz_virtual (CopySizes := SZ)), Hsel, sort_ltb_id in Hcp by done.
  exists exts, skip, wanted. split_and!; [done| |done..].
  destruct (GroupChunks_spec wanted maxReadBatch Hall ltac:(by vm_compute)) as [Hwf Hidx].
  rewrite sort_ltb_id in Hidx by done. rewrite <-Hidx.
  apply (copy_groups_copied wr skip maxReadBatch fuel retry_fuel
           (groupChunks wanted cs vs) [] s1 s'); [exact Hwf|done| | |exact Hcp].
  - unfold groupChunks. cbn [app]. rewrite Hidx. exact Hlen.
  - apply (copied_writer _ _ _ (start_copy w src wr)); [exact W1|]. split; cbn; done.
Qed.

(** ** What the stored cells capture *)
Lemma picked_lookup skip l i :
  StronglySorted Z.lt l →
  lookup_cell (picked skip l) i
  = if decide (i ∈ l ∧ keep i (cell cs img i) = true ∧ (skip && allZero (cell cs img i)) = false)
    then Some (cell cs img i) else None.
Proof using.
  intros Hs. assert (NoDup l) as Hnd.
  { induction Hs as [|x l _ IH Hx]; constructor; [|done]. intros Hin.
    rewrite Forall_forall in Hx. specialize (Hx _ Hin). lia. }
  assert (fst <$> picked skip l
          = filter (λ i, keep i (cell cs img i) = true ∧ (skip && allZero (cell cs img i)) = false) l) as Efst.
  { unfold picked. rewrite <-list_fmap_compose. rewrite (list_fmap_ext _ id); [by rewrite list_fmap_id|done]. }
  assert (NoDup (fst <$> picked skip l)) as Hndp by (rewrite Efst; by apply NoDup_filter).
  case_decide as Hd.
  - apply lookup_cell_some; [done|]. unfold picked. apply list_elem_of_fmap. exists i. split; [done|].
    apply list_elem_of_filter. destruct Hd as (? & ? & ?). done.
  - apply lookup_cell_none. rewrite Efst, list_elem_of_filter. intros ([? ?] & ?). by apply Hd.
Qed.

Lemma allZero_zeros d : allZero d = true → d = zeros (length d).
Proof using.
  induction d as [|x d IH]; cbn; [done|]. intros [Hx Hd]%andb_true_iff.
  apply Byte.byte_dec_bl in Hx as ->.
  change (Byte.x00 :: d = Byte.x00 :: zeros (length d)). by rewrite <-IH.
Qed.

(** Cells agree when the images agree on every byte of them. *)
Lemma cell_ext (img' : bytes) i :
  GridSizes cs (Z.of_nat (length img')) → (length img' ≤ length img)%nat → 0 ≤ i < grid →
  (∀ pos, 0 ≤ pos < vs → pos / cs = i → img !! Z.to_nat pos = img' !! Z.to_nat pos) →
  0 ≤ i < grid_cells cs (Z.of_nat (length img')) ∧ cell cs img i = cell cs img' i.
Proof using SZ.
  intros Hg Hl Hi Heq. destruct (cell_bounds cs img i Hi) as (Hb & _ & _ & Hpos & He & Hlen).
  destruct (ChunkLength_in i Hi) as [Hcl _]. assert (0 < cs) by (destruct SZ as [[]]; lia).
  set (n := ChunkLength i cs vs) in *.
  assert (∀ pos, i * cs ≤ pos < i * cs + n → img !! Z.to_nat pos = img' !! Z.to_nat pos) as Heq'.
  { intros pos Hp. apply Heq; [lia|]. symmetry. apply (Z.div_unique pos cs i (pos - i * cs)); lia. }
  assert (i * cs + n ≤ Z.of_nat (length img')) as Hfit.
  { assert (is_Some (img' !! Z.to_nat (i * cs + n - 1))) as Hs%lookup_lt_is_Some; [|lia].
    rewrite <-Heq' by lia. apply lookup_lt_is_Some. lia. }
  assert (0 ≤ i < grid_cells cs (Z.of_nat (length img'))) as Hi' by (split; [lia|apply grid_cells_spec; lia]).
  split; [done|]. destruct (cell_bounds cs img' i Hi') as (_ & _ & _ & _ & _ & Hlen').
  destruct (ChunkLength_in (virtualSize := Z.of_nat (length img')) i Hi') as [Hcl' _].
  assert (ChunkLength i cs (Z.of_nat (length img')) = n) as Hn by lia.
  apply (list_eq_same_length _ _ (length (cell cs img i))); [lia|done|].
  intros k x y Hk Hx Hy. unfold cell in Hx, Hy. rewrite Hn in Hy. fold n in Hx.
  rewrite <-(Nat2Z.id k) in Hx, Hy. rewrite lookup_slice in Hx, Hy by lia.
  rewrite Heq' in Hx by lia. congruence.
Qed.

(** The map of data covers every byte that is not zero. *)
Definition data_map (exts : list Extent) : Prop :=
  ∀ pos, 0 ≤ pos < vs → img !! Z.to_nat pos ≠ Some Byte.x00 →
    ∃ e, e ∈ exts ∧ wanted_extent ContextZero e = true
      ∧ ext_Start e ≤ pos < ext_Start e + ext_Length e.

(** The map of changes covers every byte that differs from [prev]. *)
Definition dirty_map (prev : bytes) (exts : list Extent) : Prop :=
  ∀ pos, 0 ≤ pos < vs → img !! Z.to_nat pos ≠ prev !! Z.to_nat pos →
    ∃ e, e ∈ exts ∧ wanted_extent ContextDirty e = true
      ∧ ext_Start e ≤ pos < ext_Start e + ext_Length e.

Lemma not_selected context exts i pos :
  ¬ selected context exts i → 0 ≤ pos < vs → pos / cs = i →
  ¬ ∃ e, e ∈ exts ∧ wanted_extent context e = true
      ∧ ext_Start e ≤ pos < ext_Start e + ext_Length e.
Proof using.
  intros Hno Hpos Hi (e & He & Hw & Hin). apply Hno. exists e. split_and!; [done..|]. by exists pos.
Qed.

(** An extent spanning the image selects every cell. *)
Lemma whole_selected context e i :
  ext_Start e = 0 → ext_Length e = vs → (0 < vs → wanted_extent context e = true) →
  0 ≤ i < grid → selected context [e] i.
Proof using SZ.
  intros Hs Hl Hw Hi. destruct (cell_bounds cs img i Hi) as (Hb & _).
  exists e. split_and!; [left|apply Hw; lia|]. exists (i * cs). rewrite Hs, Hl.
  split_and!; [lia..|]. apply Z.div_mul. destruct SZ as [[]]; lia.
Qed.

Lemma zero_image_cell i :
  0 ≤ i < grid → cell cs (zeros (length img)) i = zeros (length (cell cs img i)).
Proof using SZ.
  intros Hi. destruct (cell_bounds cs img i Hi) as (Hb & _ & _ & Hpos & _ & Hlen).
  destruct (ChunkLength_in i Hi) as [Hcl _].
  unfold cell at 1, slice, zeros. rewrite length_replicate, drop_replicate, take_replicate.
  f_equal. lia.
Qed.

Lemma full_copy_renders exts skip wanted :
  p_Compare p = None → p_ExtentContext p = ContextZero → (∀ i d, keep i d = true) →
  (∀ exts, from_source exts → data_map exts) → chosen exts skip →
  StronglySorted Z.lt wanted → (∀ i, i ∈ wanted ↔ selected ContextZero exts i) →
  renders cs img (lookup_cell (picked skip wanted)).
Proof using SZ.
  intros Hcmp Hctx Hkeep Hmap Hch Hsort Hmem i Hi. rewrite picked_lookup by done.
  case_decide as Hd; [done|].
  destruct (decide (i ∈ wanted)) as [Hin|Hin].
  - rewrite Hkeep in Hd. apply allZero_zeros.
    destruct (skip && allZero (cell cs img i)) eqn:E; [by apply andb_true_iff in E as [_ E]|].
    exfalso. by apply Hd.
  - rewrite <-zero_image_cell by done. apply cell_ext; unfold zeros; rewrite ?length_replicate; [apply SZ|done|done|].
    intros pos Hpos Hcell. fold (zeros (length img)). rewrite Hmem in Hin.
    assert (zeros (length img) !! Z.to_nat pos = Some Byte.x00) as -> by (apply lookup_replicate_2; lia).
    destruct (decide (img !! Z.to_nat pos = Some Byte.x00)) as [|Hne]; [done|]. exfalso.
    destruct Hch as [exts _ Hf|cmp Hc|].
    + by eapply (not_selected ContextZero exts i pos), Hmap.
    + congruence.
    + apply Hin, whole_selected; [done..| |done]. intros Hv0. unfold wanted_extent. cbn [ext_Length ext_Zero ext_Hole orb negb]. lia.
Qed.

(** A map of the changes since [prev], a disk that was not larger. *)
Lemma dirty_copy_increment prev at_ exts skip wanted :
  GridSizes cs (Z.of_nat (length prev)) → (length prev ≤ length img)%nat → renders cs prev at_ →
  p_Compare p = None → p_ExtentContext p = ContextDirty →
  (∀ i d, keep i d = true) → (∀ exts, from_source exts → dirty_map prev exts) →
  chosen exts skip → StronglySorted Z.lt wanted →
  (∀ i, i ∈ wanted ↔ selected ContextDirty exts i) →
  increment_of cs at_ img (picked skip wanted).
Proof using SZ.
  intros Hg Hlen Hren Hcmp Hctx Hkeep Hmap Hch Hsort Hmem i Hi. rewrite picked_lookup by done.
  destruct Hch as [exts _ Hf|cmp Hc|? Hz]; [|congruence..].
  case_decide as Hd; [done|]. rewrite Hkeep in Hd. cbn in Hd.
  destruct (cell_ext prev i) as [Hi' ->]; [done..| |by apply Hren]. intros pos Hpos Hcell.
  destruct (decide (img !! Z.to_nat pos = prev !! Z.to_nat pos)) as [|Hne]; [done|]. exfalso.
  apply (not_selected ContextDirty exts i pos); [|done|done|by apply Hmap].
  rewrite <-Hmem. intros Hin. by apply Hd.
Qed.

(** Every cell is selected when the comparison decides. *)
Lemma compare_copy_wanted exts skip (wanted : list Z) cmp :
  p_Compare p = Some cmp → chosen exts skip →
  (∀ i, i ∈ wanted ↔ selected (p_ExtentContext p) exts i) →
  skip = false ∧ ∀ i, 0 ≤ i < grid → i ∈ wanted.
Proof using SZ.
  intros Hcmp Hch Hmem. destruct Hch as [exts Hc _|cmp' _|Hc _]; [congruence| |congruence].
  split; [done|]. intros i Hi. apply Hmem, whole_selected; [done..| |done].
  intros Hv. unfold wanted_extent. cbn [ext_Length ext_Zero ext_Hole ext_Dirty orb negb].
  destruct (p_ExtentContext p); lia.
Qed.

(** Comparing with the merge of the parent's chain stores what differs from it. *)
Definition differs (at_ : Z → option bytes) (i : Z) (d : bytes) : bool :=
  match at_ i with
  | None => negb (allZero d)
  | Some previous => negb (bool_decide (previous = d))
  end.

Lemma compare_copy_increment at_ exts wanted cmp :
  (∀ i d, keep i d = differs at_ i d) →
  p_Compare p = Some cmp → chosen exts false → StronglySorted Z.lt wanted →
  (∀ i, i ∈ wanted ↔ selected (p_ExtentContext p) exts i) →
  increment_of cs at_ img (picked false wanted).
Proof using SZ.
  intros Hkeep Hcmp Hch Hsort Hmem i Hi. rewrite picked_lookup by done.
  destruct (compare_copy_wanted _ _ _ _ Hcmp Hch Hmem) as [_ Hall].
  case_decide as Hd; [done|]. assert (differs at_ i (cell cs img i) = false) as Hdf.
  { rewrite <-Hkeep. destruct (keep i (cell cs img i)) eqn:E; [|done]. exfalso. apply Hd.
    split_and!; [by apply Hall|done..]. }
  unfold differs in Hdf. destruct (at_ i) as [previous|]; apply negb_false_iff in Hdf.
  - bprop. congruence.
  - by apply allZero_zeros.
Qed.

(** What any successful copy with a comparison that keeps everything stores. *)
Lemma keep_all_picked exts wanted cmp i :
  (∀ i d, keep i d = true) → p_Compare p = Some cmp → chosen exts false →
  StronglySorted Z.lt wanted → (∀ i, i ∈ wanted ↔ selected (p_ExtentContext p) exts i) →
  0 ≤ i < grid → lookup_cell (picked false wanted) i = Some (cell cs img i).
Proof using SZ.
  intros Hkeep Hcmp Hch Hsort Hmem Hi. rewrite picked_lookup by done.
  destruct (compare_copy_wanted _ _ _ _ Hcmp Hch Hmem) as [_ Hall].
  rewrite decide_True; [done|]. split_and!; [by apply Hall|apply Hkeep|done].
Qed.
End Capture.

(** * The properties *)

(** C38. A disk copy ends: with a clock that moves on, five source changes
    (three reopened transfers, one switch to the engine's proxy) and as many
    read attempts per range as fit in the retry window and the retry count are
    enough, whatever the daemon, the engine and the network do. *)
Theorem copyDisk_terminates {W Client C} `{!Environment W Client} `{!AEAD C} `{!Compressor}
    sha256hex (p : copyParams W Client) {CK : Clock (W := W) (Client := Client)} retry_fuel
    (w : W) (src : Client) (wr : DiskWriter (C := C)) :
  (Z.to_nat (Z.max 0 (p_RangeRetries p) + 302) ≤ retry_fuel)%nat →
  ∃ r s', copyDisk sha256hex p 5 retry_fuel (start_copy w src wr) = Some (r, s').
Proof.
  intros Hf. apply copyDisk_total; [exact CK|done|]. unfold enough_retries.
  assert (networkRetryWindow / Second = 300) as -> by by vm_compute. lia.
Qed.

(** The comparison [copyOneDisk] installs is never absent, so outside
    compare mode (no parent reader) the extent map is not used: every successful
    copy, a dirty-bitmap increment included, stores every cell of the disk, the
    zero ones too. *)
Theorem copyDisk_stores_everything {W Client C} `{!Environment W Client} `{!AEAD C} `{!Compressor}
    sha256hex (p : copyParams W Client) img (c : codec C) fuel retry_fuel w src
    (wr : DiskWriter (C := C)) s' i :
  Source (W := W) (Client := Client) img c → CopySizes p img c →
  p_Compare p = Some (compare_parent None) →
  (∀ exts, from_source p exts → Forall sane exts) →
  written sha256hex wr [] → dw_codec wr = c → dw_uploader wr = UploaderReading →
  copyDisk sha256hex p fuel retry_fuel (start_copy w src wr) = Some (Ok (), s') →
  0 ≤ i < grid_cells (p_ChunkSize p) (Z.of_nat (length img)) →
  ∃ cells, written sha256hex (cp_writer s') cells
    ∧ lookup_cell cells i = Some (cell (p_ChunkSize p) img i).
Proof.
  intros HS HZ Hcmp Hsane Hw Hcd Hu Hcopy Hi.
  assert (∀ j d (s : copyState W Client C) b s1, keep_chunk p j d s = (Ok b, s1) → b = true) as Hk.
  { intros j d s b s1 Hk. unfold keep_chunk in Hk. rewrite Hcmp in Hk. by simplify_eq/=. }
  destruct (copyDisk_copied sha256hex p img c (λ _ _, true) Hk Hsane wr fuel retry_fuel w src s'
              Hw Hcd Hu Hcopy) as (exts & skip & wanted & Hch & [Hwr _ _ _] & Hsort & _ & Hmem).
  destruct (compare_copy_wanted p img c exts skip wanted _ Hcmp Hch Hmem) as [-> _].
  eexists. split; [exact Hwr|]. by eapply keep_all_picked.
Qed.
