(* ===== verification/BackupRestore.v ===== *)
(** Backup and restore end to end: a history of disk copies into one
    repository, then a restore of the last manifest's chain. *)

From S2P Require Import Prelude GoTime Model Grid Format Repo Codec Writer Reader Restore.
From S2P Require Import CopyDisk CopyFacts.

(** * One copy *)
Section OneCopy.
Context {B C : Type} `{!Backend B} `{!BackendLaws B} `{!AEAD C} `{!Compressor}.
Variable sha256hex : bytes → string.

(** The chain's grid, the disk's size and the service's key. *)
Context (chunkSize size : Z) (cipher : option C).

(** The requests [copyOneDisk] makes: the chain's grid, a fresh manifest, and
    the service's key when the run is encrypted. *)
Record copy_request {W Client} (p : copyParams W Client) (opts : WriterOptions (C := C))
    (m : DiskManifest) : Prop := {
  cr_grid : p_ChunkSize p = chunkSize;
  cr_opts : wo_ChunkSize opts = chunkSize;
  cr_size : dm_VirtualSize m = size;
  cr_fresh : dm_Chunks m = [] ∧ dm_LogicalBytes m = 0;
  cr_key : wo_Cipher opts = None ∨ wo_Cipher opts = cipher
}.

(** A manifest in the repository that the chain's reader can use. *)
Record chain_link (b : B) (m : DiskManifest) (cells : list (Z * bytes)) : Prop := {
  cl_readable : readable sha256hex b cipher m cells;
  cl_valid : DiskManifest_Validate m = Ok ();
  cl_grid : dm_ChunkSize m = chunkSize;
  cl_codec : is_ok (reader_codec cipher m) = true;
  cl_size : dm_VirtualSize m = size
}.

Lemma written_link b' c opts m cells :
  0 < chunkSize → 0 ≤ size → writer_codec opts = Ok c →
  (wo_Cipher opts = None ∨ wo_Cipher opts = cipher) →
  stored_run sha256hex b' c m cells →
  dm_Format m = FormatName → dm_Version m = FormatVersion → dm_ChunkSize m = chunkSize →
  dm_VirtualSize m = size → dm_Compression m = cd_compression c →
  dm_Encrypted m = bool_decide (is_Some (wo_Cipher opts)) →
  chain_link b' m cells.
Proof using.
  intros Hcs Hsz Hc Hkey Hst Hf Hv Hg Hvs Hcomp Henc.
  unfold writer_codec in Hc. pose proof (newCodec_ok _ _ _ _ Hc) as [Hcc Hci].
  set (comp := if bool_decide (wo_Compression opts = ""%string) then CompressionNone
               else wo_Compression opts) in *.
  assert (comp ≠ ""%string) as Hne.
  { subst comp. case_bool_decide; done. }
  destruct (newCodec_reopen _ _ _ _ Hc Hne) as (Hk & c' & Hc' & Hsame).
  assert (reader_codec cipher m = Ok c') as Hrc.
  { unfold reader_codec. rewrite Henc, Hcomp, Hcc. destruct (wo_Cipher opts) as [ci|] eqn:E.
    - rewrite bool_decide_eq_true_2 by done. destruct Hkey as [|<-]; [done|]. by rewrite Hc'.
    - rewrite bool_decide_eq_false_2 by (by intros [? ?]). by rewrite Hc'. }
  split; [|apply DiskManifest_Validate_ok|done|by rewrite Hrc|done].
  - exists c. split; [done|]. intros c2 Hc2. rewrite Hrc in Hc2. by simplify_eq.
  - rewrite Hf, Hv, Hg, Hvs, Hcomp, Hcc. split_and!; [done|lia|done|done|done].
Qed.

(** A successful [copyOneDisk] leaves a link with the cells its copy picked,
    and touches no other object. *)
Lemma copyOneDisk_link {W Client} `{!Environment W Client} fuel retry_fuel
    (p : copyParams W Client) opts m src w partial b b' m' img c keep :
  copy_request p opts m → size = Z.of_nat (length img) → writer_codec opts = Ok c →
  Source (W := W) (Client := Client) img c → CopySizes p img c →
  (∀ i d (s : copyState W Client C) x s', keep_chunk p i d s = (Ok x, s') → x = keep i d) →
  (∀ exts, from_source p exts → Forall sane exts) →
  copyOneDisk sha256hex fuel retry_fuel p opts m src w partial b = Some (b', Ok m') →
  ∃ exts skip wanted, chosen p img exts skip
    ∧ StronglySorted Z.lt wanted
    ∧ (∀ i, i ∈ wanted ↔ selected p img (p_ExtentContext p) exts i)
    ∧ chain_link b' m' (picked p img keep skip wanted)
    ∧ dm_DataKey m' = wo_DataKey opts ∧ dm_Type m' = dm_Type m
    ∧ ∀ key, key ≠ wo_DataKey opts → Get b' key = Get b key.
Proof using BackendLaws0.
  intros [Hg Hog Hsz [Hch0 Hl0] Hkey] Hsize Hc HS HZ Hkeep Hsane Hrun. unfold copyOneDisk in Hrun.
  destruct (NewDiskWriter m opts) as [wr|e] eqn:Hn; [|done].
  pose proof (NewDiskWriter_written sha256hex _ _ _ Hch0 Hl0 Hn) as Hw0.
  assert (dw_codec wr = c ∧ dw_uploader wr = UploaderReading
          ∧ dw_manifest wr = open_manifest m (if wo_ChunkSize opts <=? 0 then DefaultChunkSize else wo_ChunkSize opts)
               (if bool_decide (wo_Compression opts = ""%string) then CompressionNone else wo_Compression opts)
               (wo_DataKey opts) (bool_decide (is_Some (wo_Cipher opts)))) as (Hcd & Hup & Hm0).
  { unfold NewDiskWriter in Hn. unfold writer_codec in Hc. rewrite Hc in Hn. by simplify_eq/=. }
  destruct (copyDisk sha256hex p fuel retry_fuel (start_copy w src wr)) as [[[[]|e] s]|] eqn:Hcopy;
    cbn in Hrun; try done.
  destruct (copyDisk_copied sha256hex p img c keep Hkeep Hsane wr fuel retry_fuel w src s Hw0 Hcd Hup Hcopy)
    as (exts & skip & wanted & Hch & [Hw Hcc Hu Hd] & Hsort & Hall & Hmem).
  exists exts, skip, wanted. do 3 (split; [done|]).
  destruct (Close sha256hex b (cp_writer s)) as [[b1 w1] r] eqn:Hcl. cbn in Hrun.
  destruct r as [m1|e]; [|done]. injection Hrun as -> ->.
  destruct (Close_stored sha256hex b (cp_writer s) _ b' w1 m' Hw Hu) as (Hst & Hsd & Hfr); [|done|].
  { rewrite Hcc. destruct (plain_bytes_picked p img c keep skip wanted Hall) as [Hp Hp2].
    pose proof (sorted_grid_length p img c wanted Hsort Hall). destruct HZ as [HGS ? ? ?].
    pose proof (codec_overhead_nonneg c). nia. }
  rewrite Hm0 in Hd. destruct Hd as (?&?&?&?&?&?&?&?&?&?), Hsd as (?&?&?&?&?&?&?&?&?&?).
  cbn [open_manifest dm_Format dm_Version dm_RunID dm_Type dm_DiskID dm_VirtualSize dm_ChunkSize
       dm_Compression dm_Encrypted dm_DataKey] in *.
  assert (0 < chunkSize) by (destruct HZ as [[]]; lia).
  assert (dm_Compression m' = cd_compression c).
  { unfold writer_codec in Hc. apply newCodec_ok in Hc as [-> _]. congruence. }
  rewrite Hcc in Hst. split_and!; [|congruence|congruence|by intros; apply Hfr; congruence].
  eapply written_link; [done|lia|exact Hc|done|exact Hst|congruence|congruence| |congruence|done|congruence].
  rewrite Hog in *. destruct (Z.leb_spec chunkSize 0); [lia|]. congruence.
Qed.

Lemma chain_link_frame b b' m cells :
  Get b' (dm_DataKey m) = Get b (dm_DataKey m) → chain_link b m cells → chain_link b' m cells.
Proof using.
  intros Hk [(c & [(blob & Hg & Hrest) Hord Hlog] & Hs) ? ? ? ?]. split; try done.
  exists c. split; [|done]. split; [|done..]. exists blob. split; [by rewrite Hk|done].
Qed.

End OneCopy.

(** * Histories of backups *)
Section BackupRestore.
Context {B C : Type} `{!Backend B} `{!BackendLaws B} `{!AEAD C} `{!Compressor}.
Variable sha256hex : bytes → string.
Variable iter : gmap Z nat → list (Z * nat).
Hypothesis iter_perm : ∀ m, iter m ≡ₚ map_to_list m.

(** The chain's grid and the service's key; the size of the disk is that of the
    image of each copy. *)
Context (chunkSize : Z) (cipher : option C).

Abbreviation link := (λ b m cells, chain_link sha256hex chunkSize (dm_VirtualSize m) cipher b m cells).

(** A cell of the parent chain, as compare mode reads it. *)
Definition parent_read (b : B) (ms : list DiskManifest) (i : Z) :
    result ReaderError (option bytes) :=
  r ← NewChainReader iter b cipher ms;
  '(_, data) ← ReadChunk sha256hex r i;
  Ok data.

(** A copy of the disk's image [img] from a truthful source. *)
Record copy_job {W Client} `{!Environment W Client} (p : copyParams W Client)
    (opts : WriterOptions (C := C)) (m : DiskManifest) (img : bytes) (c : codec C) : Prop := {
  cj_request : copy_request chunkSize (Z.of_nat (length img)) cipher p opts m;
  cj_codec : writer_codec opts = Ok c;
  cj_source : Source (W := W) (Client := Client) img c;
  cj_sizes : CopySizes p img c;
  cj_sane : ∀ exts, from_source p exts → Forall sane exts
}.

(** How a base run learns what to copy: the data map, or the comparison
    without a parent. *)
Definition base_source {W Client} `{!Environment W Client} (p : copyParams W Client)
    (img : bytes) : Prop :=
  (p_Compare p = None ∧ p_ExtentContext p = ContextZero
   ∧ ∀ exts, from_source p exts → data_map img exts)
  ∨ p_Compare p = Some (compare_parent None).

(** How an increment does: the dirty map since [prev], the comparison with the
    parent chain, or the comparison without a parent. *)
Definition increment_source {W Client} `{!Environment W Client} (p : copyParams W Client)
    (b : B) (ms : list DiskManifest) (prev img : bytes) : Prop :=
  (p_Compare p = None ∧ p_ExtentContext p = ContextDirty
   ∧ ∀ exts, from_source p exts → dirty_map img prev exts)
  ∨ p_Compare p = Some (compare_parent (Some (parent_read b ms)))
  ∨ p_Compare p = Some (compare_parent None).

(** What was backed up, newest last. A disk may grow from one increment to the
    next; when it shrank, a new base follows. *)
Inductive history : B → list DiskManifest → list bytes → Prop :=
| history_start b : history b [] []
| history_base {W Client} `{!Environment W Client} b ms imgs fuel retry_fuel
    (p : copyParams W Client) opts m src w partial b' m' img c :
    history b ms imgs → copy_job p opts m img c → is_base m = true → base_source p img →
    wo_DataKey opts ∉ dm_DataKey <$> ms →
    copyOneDisk sha256hex fuel retry_fuel p opts m src w partial b = Some (b', Ok m') →
    history b' (ms ++ [m']) (imgs ++ [img])
| history_increment {W Client} `{!Environment W Client} b ms imgs prev fuel retry_fuel
    (p : copyParams W Client) opts m src w partial b' m' img c :
    history b ms (imgs ++ [prev]) → copy_job p opts m img c → is_base m = false →
    (length prev ≤ length img)%nat →
    increment_source p b ms prev img →
    wo_DataKey opts ∉ dm_DataKey <$> ms →
    copyOneDisk sha256hex fuel retry_fuel p opts m src w partial b = Some (b', Ok m') →
    history b' (ms ++ [m']) ((imgs ++ [prev]) ++ [img]).

(** Where a restore starts: at the last base, or at the oldest run. *)
Record chain_start (ms : list DiskManifest) (k : nat) : Prop := {
  st_inside : (k < length ms)%nat;
  st_base : k ≠ 0%nat → ∃ m, ms !! k = Some m ∧ is_base m = true;
  st_after : ∀ j m, (k < j)%nat → ms !! j = Some m → is_base m = false
}.

Lemma chain_start_unique ms k k' : chain_start ms k → chain_start ms k' → k = k'.
Proof using.
  assert (∀ k k', chain_start ms k → chain_start ms k' → ¬ (k < k')%nat) as Hlt; [|intros H1 H2; pose proof (Hlt _ _ H1 H2); pose proof (Hlt _ _ H2 H1); lia].
  intros k1 k2 [_ _ H1] [_ H2 _] Hlt. destruct (H2 ltac:(lia)) as (m & Hm & Hb). rewrite (H1 k2 m) in Hb; done.
Qed.

(** The part of the chain from where a restore starts renders the newest image. *)
Definition chain_renders (ms : list DiskManifest) (runs : list (list (Z * bytes)))
    (imgs : list bytes) : Prop :=
  ∀ k img, last imgs = Some img → chain_start ms k → renders chunkSize img (newest (drop k runs)).

Record backed_up (b : B) (ms : list DiskManifest) (imgs : list bytes)
    (runs : list (list (Z * bytes))) : Prop := {
  bu_links : Forall2 (link b) ms runs;
  bu_sizes : Forall2 (λ m img, dm_VirtualSize m = Z.of_nat (length img)) ms imgs;
  bu_grids : Forall (λ img, GridSizes chunkSize (Z.of_nat (length img))) imgs;
  bu_growing : ∀ j m m', ms !! j = Some m → ms !! S j = Some m' → is_base m' = false →
    dm_VirtualSize m ≤ dm_VirtualSize m';
  bu_renders : chain_renders ms runs imgs
}.

Lemma links_frame b b' ms runs key :
  (∀ key', key' ≠ key → Get b' key' = Get b key') → key ∉ dm_DataKey <$> ms →
  Forall2 (link b) ms runs → Forall2 (link b') ms runs.
Proof using.
  intros Hfr Hk Hl. induction Hl as [|m cells ms runs Hm _ IH]; constructor.
  - eapply chain_link_frame; [|exact Hm]. apply Hfr. intros E. apply Hk. rewrite fmap_cons, <-E. left.
  - apply IH. intros Hin. apply Hk. rewrite fmap_cons. by right.
Qed.

(** The largest size of a chain that grows is the last one. *)
Lemma growing_max (l : list Z) n :
  (∀ j a b, l !! j = Some a → l !! S j = Some b → a ≤ b) → Forall (λ a, 0 ≤ a) l → last l = Some n →
  foldr Z.max 0 l = n.
Proof using.
  induction l as [|a [|b l] IH]; [done| |]; intros Hgrow [H0 Hl]%Forall_cons Hlast.
  - cbn in *. injection Hlast as ->. lia.
  - assert (foldr Z.max 0 (b :: l) = n) as Hr.
    { apply IH; [|done|done]. intros j x y. apply (Hgrow (S j)). }
    pose proof (Hgrow 0%nat a b eq_refl eq_refl). cbn in *. lia.
Qed.

(** Opening the chain of a history. *)
Lemma backed_up_reader b ms imgs runs img :
  backed_up b ms imgs runs → last imgs = Some img →
  ∃ r k, chain_start ms k ∧ NewChainReader iter b cipher ms = Ok r
    ∧ reads sha256hex r (drop k runs) ∧ r_chunkSize r = chunkSize ∧ r_virtualSize r = Z.of_nat (length img)
    ∧ renders chunkSize img (newest (drop k runs)).
Proof using All.
  intros [Hl Hi Hg Hgrow Hr] Hlast. pose proof (Forall2_length _ _ _ Hi) as Hlen.
  assert (ms ≠ []) as Hne by (intros ->; by destruct imgs).
  destruct (NewChainReader_reads sha256hex iter iter_perm b cipher chunkSize ms runs Hne)
    as (r & k & Hnew & _ & Hk & Hafter & Hbase & Hreads & Hcs & Hvs).
  - apply Forall_forall. intros m Hm. apply list_elem_of_lookup in Hm as [j Hj].
    destruct (Forall2_lookup_l _ _ _ _ _ Hl Hj) as (cells & _ & Hc). by destruct Hc.
  - eapply Forall2_impl; [exact Hl|]. intros m cells Hc. by destruct Hc.
  - exists r, k. assert (chain_start ms k) as Hst by done. split_and!; [done..| |by apply Hr]. rewrite Hvs. apply growing_max.
    + intros j x y. rewrite !list_lookup_fmap, !lookup_drop.
      destruct (ms !! (k + j)%nat) as [m|] eqn:Hm; [|done].
      destruct (ms !! (k + S j)%nat) as [m'|] eqn:Hm'; [|done]. intros [= <-] [= <-].
      rewrite Nat.add_succ_r in Hm'. apply (Hgrow (k + j)%nat); [done..|]. apply (Hafter (S (k + j))); [lia|done].
    + apply Forall_fmap, Forall_drop, Forall_forall. intros m Hm. apply list_elem_of_lookup in Hm as [j Hj].
      destruct (Forall2_lookup_l _ _ _ _ _ Hi Hj) as (img' & _ & Hs). cbn in *. lia.
    + rewrite fmap_last, !last_lookup, lookup_drop, length_drop in *.
      replace (k + pred (length ms - k))%nat with (pred (length imgs)) by lia.
      destruct (Forall2_lookup_r _ _ _ _ _ Hi Hlast) as (m & Hm & Hs). cbn in *. by rewrite Hm, <-Hs.
Qed.

Lemma renders_snoc ms runs imgs m cells img :
  length runs = length ms →
  (is_base m = true → renders chunkSize img (lookup_cell cells)) →
  (is_base m = false → ∃ k, chain_start ms k ∧ increment_of chunkSize (newest (drop k runs)) img cells) →
  chain_renders (ms ++ [m]) (runs ++ [cells]) (imgs ++ [img]).
Proof using.
  intros Hlen Hbase Hinc k img' Hlast [Hk Hkb Hafter].
  rewrite last_snoc in Hlast. simplify_eq. rewrite length_app in Hk. cbn in Hk.
  destruct (is_base m) eqn:Em.
  - assert (k = length ms) as ->.
    { destruct (decide (k = length ms)) as [|Hne]; [done|]. exfalso.
      rewrite (Hafter (length ms) m) in Em; [done|lia|by apply list_lookup_middle]. }
    rewrite <-Hlen, drop_app_length. intros i Hi. specialize (Hbase eq_refl i Hi).
    change [cells] with ([] ++ [cells]). rewrite newest_snoc. cbn.
    destruct (lookup_cell cells i); done.
  - destruct (Hinc eq_refl) as (k' & Hk' & Hincr). pose proof (st_inside _ _ Hk').
    assert (k < length ms)%nat as Hklt.
    { destruct (decide (k = length ms)) as [->|]; [|lia]. exfalso.
      destruct Hkb as (m1 & Hm1 & Hb1); [lia|].
      rewrite list_lookup_middle in Hm1 by done. congruence. }
    assert (k' = k) as ->.
    { apply (chain_start_unique ms); [done|]. split; [done| |].
      - intros Hk0. destruct (Hkb Hk0) as (m1 & Hm1 & Hb1). exists m1. split; [|done].
        by rewrite lookup_app_l in Hm1 by done.
      - intros j m1 Hj Hm1. apply (Hafter j); [done|]. by apply lookup_app_l_Some. }
    rewrite drop_app_le by lia. intros i Hi. rewrite newest_snoc.
    specialize (Hincr i Hi). by destruct (lookup_cell cells i).
Qed.

Section Job.
Context {W Client : Type} `{!Environment W Client}.
Context (p : copyParams W Client) (opts : WriterOptions (C := C)) (m : DiskManifest).
Context (img : bytes) (c : codec C).
Hypothesis job : copy_job p opts m img c.

Lemma keep_true_spec i d (s : copyState W Client C) x s' :
  p_Compare p = None ∨ p_Compare p = Some (compare_parent None) →
  keep_chunk p i d s = (Ok x, s') → x = true.
Proof using. unfold keep_chunk. intros [-> | ->]; cbn; by intros [= <- _]. Qed.

Lemma keep_differs_spec read at_ i d (s : copyState W Client C) x s' :
  p_Compare p = Some (compare_parent (Some read)) → (∀ i, read i = Ok (at_ i)) →
  keep_chunk p i d s = (Ok x, s') → x = differs at_ i d.
Proof using.
  unfold keep_chunk, differs. intros -> Hread. cbn. rewrite Hread.
  destruct (at_ i); cbn; by intros [= <- _].
Qed.

(** One copy with a known comparison, as a chain link. *)
Lemma job_link fuel retry_fuel src w partial b b' m' keep :
  (∀ i d (s : copyState W Client C) x s', keep_chunk p i d s = (Ok x, s') → x = keep i d) →
  copyOneDisk sha256hex fuel retry_fuel p opts m src w partial b = Some (b', Ok m') →
  ∃ exts skip wanted, chosen p img exts skip ∧ StronglySorted Z.lt wanted
    ∧ (∀ i, i ∈ wanted ↔ selected p img (p_ExtentContext p) exts i)
    ∧ (link b' m' (picked p img keep skip wanted) ∧ dm_VirtualSize m' = Z.of_nat (length img))
    ∧ is_base m' = is_base m
    ∧ ∀ key, key ≠ wo_DataKey opts → Get b' key = Get b key.
Proof using All.
  intros Hkeep Hrun. destruct job as [Hreq Hc HS HZ Hsane].
  destruct (copyOneDisk_link _ _ _ _ _ _ _ _ _ _ _ _ _ _ _ _ _ _ Hreq eq_refl Hc HS HZ Hkeep Hsane Hrun)
    as (exts & skip & wanted & ? & ? & ? & Hl & _ & Ht & ?).
  exists exts, skip, wanted. unfold is_base. rewrite Ht. pose proof (cl_size _ _ _ _ _ _ _ Hl) as Hs.
  by rewrite Hs.
Qed.

Lemma all_cells_render cells :
  (∀ i, 0 ≤ i < grid_cells (p_ChunkSize p) (Z.of_nat (length img)) →
        lookup_cell cells i = Some (cell (p_ChunkSize p) img i)) →
  renders chunkSize img (lookup_cell cells) ∧ ∀ at_, increment_of chunkSize at_ img cells.
Proof using job.
  pose proof (cr_grid _ _ _ _ _ _ (cj_request _ _ _ _ _ job)) as ->. intros Hall.
  split; [|intros prev]; intros i Hi; by rewrite Hall.
Qed.

Lemma base_job fuel retry_fuel src w partial b b' m' :
  base_source p img →
  copyOneDisk sha256hex fuel retry_fuel p opts m src w partial b = Some (b', Ok m') →
  ∃ cells, (link b' m' cells ∧ dm_VirtualSize m' = Z.of_nat (length img)) ∧ renders chunkSize img (lookup_cell cells)
    ∧ is_base m' = is_base m ∧ ∀ key, key ≠ wo_DataKey opts → Get b' key = Get b key.
Proof using All.
  intros Hsrc Hrun. pose proof (cj_sizes _ _ _ _ _ job) as HZ.
  assert (p_Compare p = None ∨ p_Compare p = Some (compare_parent None)) as Hk
    by (destruct Hsrc as [(? & _)|?]; [by left|by right]).
  destruct (job_link _ _ _ _ _ _ _ _ (λ _ _, true) (λ i d s x s' , keep_true_spec i d s x s' Hk) Hrun)
    as (exts & skip & wanted & Hch & Hsort & Hmem & Hlink & Hb & Hfr).
  eexists. split; [exact Hlink|]. split; [|done].
  destruct Hsrc as [(Hn & Hctx & Hmap)|Hcmp].
  - rewrite <-(cr_grid _ _ _ _ _ _ (cj_request _ _ _ _ _ job)). rewrite Hctx in Hmem.
    by eapply full_copy_renders.
  - destruct (compare_copy_wanted _ _ _ _ _ _ _ Hcmp Hch Hmem) as [-> _].
    apply all_cells_render. intros i Hi. by eapply keep_all_picked.
Qed.

Lemma increment_job fuel retry_fuel src w partial b ms prev at_ b' m' :
  increment_source p b ms prev img → GridSizes chunkSize (Z.of_nat (length prev)) → (length prev ≤ length img)%nat →
  (∀ i, parent_read b ms i = Ok (at_ i)) → renders chunkSize prev at_ →
  copyOneDisk sha256hex fuel retry_fuel p opts m src w partial b = Some (b', Ok m') →
  ∃ cells, (link b' m' cells ∧ dm_VirtualSize m' = Z.of_nat (length img)) ∧ increment_of chunkSize at_ img cells
    ∧ is_base m' = is_base m ∧ ∀ key, key ≠ wo_DataKey opts → Get b' key = Get b key.
Proof using All.
  intros Hsrc Hgrid Hlen Hread Hren Hrun. pose proof (cj_sizes _ _ _ _ _ job) as HZ.
  pose proof (cr_grid _ _ _ _ _ _ (cj_request _ _ _ _ _ job)) as Hg.
  destruct Hsrc as [(Hn & Hctx & Hmap)|[Hcmp|Hcmp]].
  - destruct (job_link _ _ _ _ _ _ _ _ (λ _ _, true)
                (λ i d s x s' , keep_true_spec i d s x s' (or_introl Hn)) Hrun)
      as (exts & skip & wanted & Hch & Hsort & Hmem & Hlink & Hb & Hfr).
    eexists. split; [exact Hlink|]. split; [|done]. rewrite <-Hg. rewrite Hctx in Hmem.
    eapply dirty_copy_increment with (prev := prev); rewrite ?Hg; done.
  - destruct (job_link _ _ _ _ _ _ _ _ (differs at_)
                (λ i d s x s' , keep_differs_spec _ _ i d s x s' Hcmp Hread) Hrun)
      as (exts & skip & wanted & Hch & Hsort & Hmem & Hlink & Hb & Hfr).
    eexists. split; [exact Hlink|]. split; [|done]. rewrite <-Hg.
    destruct (compare_copy_wanted _ _ _ _ _ _ _ Hcmp Hch Hmem) as [-> _].
    eapply compare_copy_increment; done.
  - destruct (job_link _ _ _ _ _ _ _ _ (λ _ _, true)
                (λ i d s x s' , keep_true_spec i d s x s' (or_intror Hcmp)) Hrun)
      as (exts & skip & wanted & Hch & Hsort & Hmem & Hlink & Hb & Hfr).
    eexists. split; [exact Hlink|]. split; [|done].
    destruct (compare_copy_wanted _ _ _ _ _ _ _ Hcmp Hch Hmem) as [-> _].
    apply all_cells_render. intros i Hi. by eapply keep_all_picked.
Qed.
End Job.

Lemma backed_up_step b b' ms imgs runs m cells img key :
  backed_up b ms imgs runs → GridSizes chunkSize (Z.of_nat (length img)) → key ∉ dm_DataKey <$> ms →
  (∀ key', key' ≠ key → Get b' key' = Get b key') →
  link b' m cells ∧ dm_VirtualSize m = Z.of_nat (length img) →
  (is_base m = true → renders chunkSize img (lookup_cell cells)) →
  (is_base m = false → (∃ prev, last imgs = Some prev ∧ (length prev ≤ length img)%nat)
     ∧ ∃ k, chain_start ms k ∧ increment_of chunkSize (newest (drop k runs)) img cells) →
  backed_up b' (ms ++ [m]) (imgs ++ [img]) (runs ++ [cells]).
Proof using.
  intros [Hl Hi Hg Hgrow Hr] Hgrid Hkey Hfr [Hlink Hsize] Hbase Hinc. split.
  - apply Forall2_app; [by eapply links_frame|]. by constructor.
  - apply Forall2_app; [done|]. by constructor.
  - apply Forall_app. by split; [|constructor].
  - intros j m1 m2 Hm1 Hm2 Hb. pose proof (Forall2_length _ _ _ Hi) as Hlen.
    destruct (decide (S j < length ms)%nat) as [Hlt|Hge].
    { rewrite lookup_app_l in Hm1, Hm2 by lia. by apply (Hgrow j). }
    pose proof (lookup_lt_Some _ _ _ Hm2) as Hlt. rewrite length_app in Hlt. cbn in Hlt.
    assert (S j = length ms) as Hj by lia. rewrite Hj, list_lookup_middle in Hm2 by done. injection Hm2 as <-.
    destruct (Hinc Hb) as [(prev & Hp & Hle) _]. rewrite lookup_app_l in Hm1 by lia.
    destruct (Forall2_lookup_l _ _ _ _ _ Hi Hm1) as (img1 & Himg1 & Hs1). rewrite last_lookup, <-Hlen, <-Hj in Hp.
    cbn in Hp, Hs1. assert (img1 = prev) as -> by congruence. lia.
  - apply renders_snoc; [symmetry; by eapply Forall2_length|done|].
    intros Hb. by destruct (Hinc Hb) as [_ ?].
Qed.

Lemma history_backed_up b ms imgs : history b ms imgs → ∃ runs, backed_up b ms imgs runs.
Proof using All.
  induction 1 as [b|W Client ? b ms imgs fuel retry_fuel p opts m src w partial b' m' img c
                    _ [runs IH] Hjob Hb Hsrc Hkey Hrun
                  |W Client ? b ms imgs prev fuel retry_fuel p opts m src w partial b' m' img c
                    _ [runs IH] Hjob Hb Hgrow Hsrc Hkey Hrun].
  - exists []. split; [constructor|constructor|constructor|done|]. by intros k img.
  - destruct (base_job _ _ _ _ _ Hjob _ _ _ _ _ _ _ _ Hsrc Hrun) as (cells & Hl & Hr & Hbm & Hfr).
    exists (runs ++ [cells]). eapply backed_up_step; [exact IH| |exact Hkey|exact Hfr|exact Hl|done|].
    + rewrite <-(cr_grid _ _ _ _ _ _ (cj_request _ _ _ _ _ Hjob)). apply (cj_sizes _ _ _ _ _ Hjob).
    + congruence.
  - destruct (backed_up_reader _ _ _ _ prev IH) as (r & k & Hst & Hnew & Hreads & _ & _ & Hren);
      [by rewrite last_snoc|].
    assert (GridSizes chunkSize (Z.of_nat (length prev))) as Hgp.
    { pose proof (bu_grids _ _ _ _ IH) as Hi. apply Forall_app in Hi as [_ Hi]. by apply Forall_cons in Hi as [Hi _]. }
    destruct (increment_job _ _ _ _ _ Hjob fuel retry_fuel src w partial b ms prev
                (newest (drop k runs)) b' m' Hsrc Hgp Hgrow) as (cells & Hl & Hr & Hbm & Hfr); [|done..|].
    { intros i. unfold parent_read. rewrite Hnew. cbn.
      destruct (ReadChunk_reads sha256hex iter iter_perm r _ i Hreads) as (r' & -> & _). done. }
    exists (runs ++ [cells]). eapply backed_up_step; [exact IH| |exact Hkey|exact Hfr|exact Hl| |].
    + rewrite <-(cr_grid _ _ _ _ _ _ (cj_request _ _ _ _ _ Hjob)). apply (cj_sizes _ _ _ _ _ Hjob).
    + congruence.
    + intros _. split; [|by exists k]. exists prev. by rewrite last_snoc.
Qed.

(** The reader of a history, and the sizes of its last image. *)
Lemma history_reader b ms imgs img :
  history b ms imgs → last imgs = Some img →
  GridSizes chunkSize (Z.of_nat (length img)) ∧
  ∃ r runs, NewChainReader iter b cipher ms = Ok r
    ∧ reads sha256hex r runs ∧ r_chunkSize r = chunkSize ∧ r_virtualSize r = Z.of_nat (length img)
    ∧ renders chunkSize img (newest runs).
Proof using All.
  intros Hh Hlast. destruct (history_backed_up _ _ _ Hh) as [runs Hb]. split.
  - pose proof (bu_grids _ _ _ _ Hb) as Hg. rewrite Forall_forall in Hg. by apply Hg, last_Some_elem_of.
  - destruct (backed_up_reader _ _ _ _ img Hb Hlast) as (r & k & _ & ?). by exists r, (drop k runs).
Qed.

Lemma restore_ok b ms imgs img dest :
  history b ms imgs → last imgs = Some img → length dest = length img →
  ∃ r r', NewChainReader iter b cipher ms = Ok r
    ∧ stream (SE := Empty_set) sha256hex image_sink (λ _, false) r dest = Ok (r', img).
Proof using All.
  intros Hh Hlast Hd. destruct (history_reader _ _ _ _ Hh Hlast) as (GS & r & runs & Hnew & Hreads & Hcs & Hvs & Hren).
  destruct (stream_ok (SE := Empty_set) sha256hex iter iter_perm chunkSize img
    runs r dest Hreads Hcs Hvs Hren Hd) as (r' & Hs & _).
  by exists r, r'.
Qed.

(** C1. Whatever sequence of full and incremental copies put the images of a
    disk into one repository (extent maps, dirty maps or comparison with the
    parent chain, any compression, with or without encryption), opening the
    chain succeeds and streaming it writes exactly the last image, whatever the
    destination held before. The disk may grow between the copies, the dirty map
    then covering what was added; an increment is not made of a disk that shrank.
    The sources tell the truth: ranges read are the image's, and the maps miss
    nothing. *)
Theorem backup_restore_exact b ms imgs img dest :
  history b ms imgs → last imgs = Some img → length dest = length img →
  ∃ r r', NewChainReader iter b cipher ms = Ok r
    ∧ stream (SE := Empty_set) sha256hex image_sink (λ _, false) r dest = Ok (r', img).
Proof using All. apply restore_ok. Qed.

(** C23. Reading at an offset of the restored chain returns the image's bytes
    there, cut at the end of the image with the end-of-file error exactly when
    the read runs past it; the chain is that of a history as in C1, of a disk that
    may have grown. *)
Theorem read_at_exact b ms imgs img off len :
  history b ms imgs → last imgs = Some img →
  0 ≤ off < Z.of_nat (length img) → 0 ≤ len → off + len < 2 ^ 63 →
  ∃ r r', NewChainReader iter b cipher ms = Ok r
    ∧ ReadAt sha256hex (λ _, false) (Z.to_nat len) r len off
      = Some (r', slice off len img, if Z.of_nat (length img) <? off + len then Some EndOfFile else None).
Proof using All.
  intros Hh Hlast Hoff Hlen Hbig.
  destruct (history_reader _ _ _ _ Hh Hlast) as (GS & r & runs & Hnew & Hreads & Hcs & Hvs & Hren).
  destruct (ReadAt_ok sha256hex iter iter_perm chunkSize img runs r off len)
    as (r' & Hr & _); [done..|]. by exists r, r'.
Qed.

(** A data object that was just written passes verification, and
    verification accepts an object exactly when its size and its digest are the
    recorded ones. *)
Theorem verify_exact (b : B) m :
  dm_DataSHA256 m ≠ ""%string → (∃ data, Get b (dm_DataKey m) = Ok data) →
  VerifyDataObject sha256hex b m = Ok ()
  ↔ ∃ data, Get b (dm_DataKey m) = Ok data ∧ Z.of_nat (length data) = dm_StoredBytes m
            ∧ sha256hex data = dm_DataSHA256 m.
Proof using BackendLaws0.
  intros Hne [data Hg]. unfold VerifyDataObject.
  rewrite (stat_of_object _ _ _ Hg), Hg, bool_decide_eq_false_2 by done. cbn. split.
  - intros Hv. destruct (Z.eqb_spec (Z.of_nat (length data)) (dm_StoredBytes m)); [|done].
    case_bool_decide; [|done]. by exists data.
  - intros (d & [= <-] & -> & ->). rewrite Z.eqb_refl. cbn. by rewrite bool_decide_eq_true_2.
Qed.
End BackupRestore.

(** * A concrete history *)
Section Sample.
Definition sample_env (img : bytes) (exts : list Extent) : Environment () () := {|
  env_Extents _ _ w := (Ok exts, w);
  env_ReadRange _ off len w := (Ok (slice off len img), w);
  env_done _ := false;
  env_sleep _ w := (false, w);
  env_Now _ := 0;
  env_pace _ w := (false, w);
  env_nonce w := ([Byte.x2a], w);
  env_uploader _ := None
|}.

Definition sample_full : bytes := [Byte.x01; Byte.x00; Byte.x00; Byte.x00; Byte.x07].
(** The disk has grown, its tail in the last chunk too. *)
Definition sample_next : bytes :=
  [Byte.x01; Byte.x00; Byte.x09; Byte.x00; Byte.x07; Byte.x00; Byte.x00; Byte.x00].
Definition sample_data_map : list Extent :=
  [mkExtent 0 2 false false false; mkExtent 2 2 true true false; mkExtent 4 1 false false false].
Definition sample_dirty_map : list Extent := [mkExtent 2 1 false false true; mkExtent 5 3 false false true].

Definition sample_params (size : Z) (context : ExtentContext) : copyParams () () :=
  mkCopyParams 2 size context 3 None None None.

Definition sample_opts (key : string) : WriterOptions (C := ()) :=
  mkWriterOptions key 2 CompressionZstd 0 (Some ()).

Definition sample_manifest (size : Z) (t : BackupType) : DiskManifest :=
  mkDiskManifest "" 0 "run" t "disk" size 0 "" false "" "" 0 0 [].

Definition sample_sha (d : bytes) : string := pretty (length d).

Definition sample_run (img : bytes) (exts : list Extent) (context : ExtentContext) (t : BackupType)
    (key : string) (b : gmap string bytes) : option (gmap string bytes * DiskManifest) :=
  match copyOneDisk (Environment0 := sample_env img exts) sample_sha 5 400 (sample_params (Z.of_nat (length img)) context)
          (sample_opts key) (sample_manifest (Z.of_nat (length img)) t) () () b b with
  | Some (b', Ok m) => Some (b', m)
  | _ => None
  end.

Definition sample_repo1 := default (∅, sample_manifest 5 BackupFull)
  (sample_run sample_full sample_data_map ContextZero BackupFull "full" ∅).
Definition sample_repo2 := default (∅, sample_manifest 5 BackupFull)
  (sample_run sample_next sample_dirty_map ContextDirty BackupIncremental "next" sample_repo1.1).

Definition sample_codec : codec () := mkCodec CompressionZstd (Some (AlgoZstd, 3)) (Some ()).

Lemma sample_job img exts context t key :
  Z.of_nat (length img) ≤ 8 → Forall sane exts →
  copy_job (W := ()) (Client := ()) (Environment0 := sample_env img exts) 2 (Some ())
    (sample_params (Z.of_nat (length img)) context) (sample_opts key) (sample_manifest (Z.of_nat (length img)) t) img sample_codec.
Proof.
  intros Hl Hs. split.
  - split; [done..|by right].
  - done.
  - split; [|done]. by intros cl off len w d w' [= <- <-] _ _ _.
  - split; cbn [p_ChunkSize sample_params]; [split; lia|done|done|].
    change (codec_overhead sample_codec) with 2. unfold grid_cells.
    pose proof (Z.div_le_upper_bound (Z.of_nat (length img) + 2 - 1) 2 5 ltac:(lia) ltac:(lia)). lia.
  - by intros exts' (cl & w & w' & [= <- <-]).
Qed.

(** Decides a statement about every position of a disk of eight bytes. *)
Lemma all_positions (P : Z → Prop) :
  P 0 → P 1 → P 2 → P 3 → P 4 → P 5 → P 6 → P 7 → ∀ pos, 0 ≤ pos < 8 → P pos.
Proof.
  intros P0 P1 P2 P3 P4 P5 P6 P7 pos Hp.
  assert (pos = 0 ∨ pos = 1 ∨ pos = 2 ∨ pos = 3 ∨ pos = 4 ∨ pos = 5 ∨ pos = 6 ∨ pos = 7) as Hc by lia.
  by destruct Hc as [-> |[-> |[-> |[-> |[-> |[-> |[-> | ->]]]]]]].
Qed.

Lemma sample_maps_sane : Forall sane sample_data_map ∧ Forall sane sample_dirty_map.
Proof. split; repeat (apply Forall_cons; split; [unfold sane; cbn [ext_Start ext_Length]; lia|]); constructor. Qed.

Lemma sample_data_map_ok : data_map sample_full sample_data_map.
Proof.
  intros pos Hpos. assert (0 ≤ pos < 8) as H8 by (cbn in Hpos; lia). revert Hpos.
  pattern pos. revert pos H8. apply all_positions; intros Hpos Hne; try (by destruct Hne); try (cbn in Hpos; lia).
  - exists (mkExtent 0 2 false false false). split_and!; [left|done|done|cbn; lia].
  - exists (mkExtent 4 1 false false false). split_and!; [right; right; left|done|done|cbn; lia].
Qed.

Lemma sample_dirty_map_ok : dirty_map sample_next sample_full sample_dirty_map.
Proof.
  intros pos Hpos. pattern pos. revert pos Hpos. apply all_positions; intros Hne; try by destruct Hne.
  - exists (mkExtent 2 1 false false true). split_and!; [left|done|done|cbn; lia].
  - exists (mkExtent 5 3 false false true). split_and!; [right; left|done|done|cbn; lia].
  - exists (mkExtent 5 3 false false true). split_and!; [right; left|done|done|cbn; lia].
  - exists (mkExtent 5 3 false false true). split_and!; [right; left|done|done|cbn; lia].
Qed.

Lemma sample_history :
  history sample_sha map_to_list 2 (Some ()) sample_repo2.1
    ([sample_repo1.2] ++ [sample_repo2.2]) (([] ++ [sample_full]) ++ [sample_next]).
Proof.
  eapply (history_increment _ _ _ _ sample_repo1.1 _ _ sample_full 5 400 (sample_params 8 ContextDirty)
            (sample_opts "next") (sample_manifest 8 BackupIncremental) () () sample_repo1.1).
  - eapply (history_base _ _ _ _ ∅ [] [] 5 400 (sample_params 5 ContextZero) (sample_opts "full")
              (sample_manifest 5 BackupFull) () () ∅); [apply history_start| |reflexivity| |apply not_elem_of_nil|].
    + apply (sample_job sample_full sample_data_map); [cbn; lia|apply sample_maps_sane].
    + left. split_and!; [done..|]. intros exts (cl & w & w' & [= <- <-]). apply sample_data_map_ok.
    + vm_compute. reflexivity.
  - apply (sample_job sample_next sample_dirty_map); [cbn; lia|apply sample_maps_sane].
  - done.
  - cbn. lia.
  - left. split_and!; [done..|]. intros exts (cl & w & w' & [= <- <-]). apply sample_dirty_map_ok.
  - vm_compute. set_solver.
  - vm_compute. reflexivity.
Qed.

Lemma backup_restore_exact_witness :
  ∃ r r', NewChainReader map_to_list sample_repo2.1 (Some ()) [sample_repo1.2; sample_repo2.2] = Ok r
    ∧ stream (SE := Empty_set) sample_sha image_sink (λ _, false) r (replicate 8 Byte.xff)
      = Ok (r', sample_next).
Proof.
  apply (backup_restore_exact sample_sha map_to_list (λ m, reflexivity _) 2 (Some ())
           sample_repo2.1 [sample_repo1.2; sample_repo2.2]
           [sample_full; sample_next]); [exact sample_history|reflexivity|reflexivity].
Defined.

Lemma read_at_exact_witness :
  ∃ r r', NewChainReader map_to_list sample_repo2.1 (Some ()) [sample_repo1.2; sample_repo2.2] = Ok r
    ∧ ReadAt sample_sha (λ _, false) (Z.to_nat 4) r 4 5
      = Some (r', [Byte.x00; Byte.x00; Byte.x00], Some EndOfFile).
Proof.
  apply (read_at_exact sample_sha map_to_list (λ m, reflexivity _) 2 (Some ())
           sample_repo2.1 [sample_repo1.2; sample_repo2.2]
           [sample_full; sample_next] sample_next 5 4); [exact sample_history|reflexivity|cbn; lia..].
Defined.

Lemma verify_exact_witness :
  VerifyDataObject sample_sha sample_repo2.1 sample_repo2.2 = Ok ()
  ↔ ∃ data, Get sample_repo2.1 (dm_DataKey sample_repo2.2) = Ok data
            ∧ Z.of_nat (length data) = dm_StoredBytes sample_repo2.2
            ∧ sample_sha data = dm_DataSHA256 sample_repo2.2.
Proof.
  apply (verify_exact sample_sha); [by vm_compute|]. eexists. vm_compute. reflexivity.
Defined.

(** Copies on a clock: every range read is lost, every sleep passes. *)
Definition lost_env : Environment Z () := {|
  env_Extents _ _ w := (Ok sample_data_map, w);
  env_ReadRange _ _ _ w := (Err (TransportError "reset"), w + 1);
  env_done _ := false;
  env_sleep d w := (false, w + d);
  env_Now w := w;
  env_pace _ w := (false, w);
  env_nonce w := ([Byte.x2a], w);
  env_uploader _ := None
|}.

Lemma lost_clock : Clock (Environment0 := lost_env).
Proof. split; cbn; lia. Qed.

Definition sample_writer : DiskWriter (C := ()) :=
  mkDiskWriter (open_manifest (sample_manifest 5 BackupFull) 2 CompressionZstd "full" true)
    sample_codec [] UploaderReading [] 0 false.

Lemma copyDisk_terminates_witness :
  ∃ r s', copyDisk (Environment0 := lost_env) sample_sha (mkCopyParams 2 5 ContextZero 3 None None None)
            5 305 (start_copy 0 () sample_writer) = Some (r, s').
Proof.
  apply (copyDisk_terminates (Environment0 := lost_env) sample_sha
           (mkCopyParams 2 5 ContextZero 3 None None None) (CK := lost_clock) 305 0 () sample_writer).
  cbn. lia.
Defined.

(** An unchanged disk, an empty dirty map, and still the whole disk is stored. *)
Definition everything_params : copyParams () () :=
  mkCopyParams 2 5 ContextDirty 3 None None (Some (compare_parent None)).

Definition everything_state : copyState () () () :=
  match copyDisk (Environment0 := sample_env sample_full []) sample_sha everything_params 5 305
          (start_copy () () sample_writer) with
  | Some (_, s) => s
  | None => start_copy () () sample_writer
  end.

Lemma copyDisk_stores_everything_witness :
  ∃ cells, written sample_sha (cp_writer everything_state) cells
    ∧ lookup_cell cells 1 = Some (cell 2 sample_full 1).
Proof.
  apply (copyDisk_stores_everything (Environment0 := sample_env sample_full []) sample_sha
           everything_params sample_full sample_codec 5 305 () () sample_writer everything_state 1).
  - split; [|done]. by intros cl off len w d w' [= <- <-] _ _ _.
  - split; [split; cbn; lia|done|done|by vm_compute].
  - done.
  - intros exts (cl & w & w' & [= <- <-]). constructor.
  - split; try done; constructor.
  - done.
  - done.
  - vm_compute. reflexivity.
  - vm_compute. intuition congruence.
Defined.
End Sample.
