(* ===== verification/Catalog.v ===== *)
(** The catalogue of backups in the database, and the repositories behind it:
    the queries of [internal/store/backup_runs.go], [replication.go],
    [storage_targets.go] and [vm_transfers.go] that reading a chain and
    deleting a backup use.

    What the next statements, connections, deletions and uploads do is part of
    the state. *)

From S2P Require Import Prelude StateM GoTime Model Format.

Inductive CatalogError :=
| CatNotFound | CatDB | ErrOpen (target : string)
| TransferProtects | TargetReadOnly (target : string)
| HasDependents (run : string) (dependents : list string)
| RequiredReplicaUnfinished (target : string) | CopyIsLocked (target : string) (until : Z)
| DeletionFailed (target : string)
(* reading a chain *)
| RunDeleted (run : string) | OVANotRestorable | ConfigHasNoDisks
| ForeignCopy (copy : string) | CopyNotReady (copy : string) (status : BackupCopyStatus)
| TargetDisabled (target : string) | NoHealthyCopy (run : string)
| CycleAt (run : string) | ParentMissing (parent run : string) | ParentDeleted (parent run : string)
| RootNotFull (run : string) (t : BackupType) | ChainCopyNotReady (run target : string)
| BadManifest (key : string) | NoManifest (disk : string) | BaseLost (disk run : string)
| NoDisks (run : string)
| PlanChanged | TokenMissing | BadPolicy
(* replication *)
| CatConflict | ErrMissing (target key : string) | UploadFailed (target : string)
| OVANotReplicated | PrimaryUnpublished | NoSource (run : string) | ParentErased (run : string)
| NotReplica | NotCancelable (status : BackupCopyStatus)
| ParentPending (run : string) | ParentNoCopy (run : string)
| ParentBlocked (copy : string) (status : BackupCopyStatus)
| NotPublished | DigestDiffers (key : string) | Canceled | Unverified
(* planning a backup *)
| TransferOwns | BadLegacyMode (m : LegacyIncrementalMode) | QcowDifferential | NoQemuImg
| NotQcow (disk format : string) | EngineError | NoClient | NoDiskData | AllInactive
| OutOfFuel.

(** What a deletion by prefix does: it removes everything under the prefix, or
    fails after removing some of it. *)
Inductive Deletion := DeletesAll | FailsAfter (removed : list string).

(** What an upload does: it stores the object; it fails and leaves the old
    object or a part of the new one; or it reports success and has stored
    something else. *)
Inductive Upload := Stores | StoresThenFails (left : option bytes) | StoresWrong (left : bytes).

Record ReplicationAttempt := mkReplicationAttempt {
  ra_ID : string;
  ra_CopyID : string;
  ra_SourceCopyID : string;
  ra_Status : RunStatus;
  ra_Attempt : Z;
  ra_ObjectCount : Z;
  ra_CopiedObjects : Z;
  ra_TotalBytes : Z;
  ra_CopiedBytes : Z;
  ra_Error : string;
  ra_StartedAt : option Z;
  ra_EndedAt : option Z;
  ra_CreatedAt : Z
}.

Record ReplicationObject := mkReplicationObject {
  ro_CopyID : string;
  ro_ObjectKey : string;
  ro_SizeBytes : Z;
  ro_SHA256 : string;
  ro_Status : string;
  ro_Error : string
}.

(** A migration of a VM between servers. *)
Record VMTransfer := mkVMTransfer {
  vt_ID : string;
  vt_SourceServerID : string;
  vt_SourceVMID : string;
  vt_TargetServerID : string;
  vt_TargetVMID : string;
  vt_Status : string
}.

(** Marks in the history of a run; the others only tell the operator what
    happened. *)
Inductive RunEventKind := RunEventDowngradedFull | RunEventOther (kind : string).

#[export] Instance RunEventKind_eq_dec : EqDecision RunEventKind.
Proof. solve_decision. Defined.

Record Catalog := mkCatalog {
  (** Which of the next statements and connections fail. *)
  ca_faults : list bool;
  (** What the next deletions and uploads do. *)
  ca_deletions : list Deletion;
  ca_uploads : list Upload;
  ca_runs : gmap string BackupRun;
  ca_copies : list BackupCopy;
  ca_targets : gmap string StorageTarget;
  ca_transfers : list VMTransfer;
  (** The objects of the repositories, by target and key. *)
  ca_objects : gmap (string * string) bytes;
  (** [replication_objects], by copy and key, and [replication_attempts]. *)
  ca_verified : gmap (string * string) ReplicationObject;
  ca_attempts : gmap string ReplicationAttempt;
  (** [backup_run_events]: the run, what happened, and when. *)
  ca_events : list (string * RunEventKind * Z)
}.

Definition with_cat_faults (fs : list bool) (c : Catalog) : Catalog :=
  mkCatalog fs (ca_deletions c) (ca_uploads c) (ca_runs c) (ca_copies c) (ca_targets c)
    (ca_transfers c) (ca_objects c) (ca_verified c) (ca_attempts c) (ca_events c).
Definition with_deletions (ds : list Deletion) (c : Catalog) : Catalog :=
  mkCatalog (ca_faults c) ds (ca_uploads c) (ca_runs c) (ca_copies c) (ca_targets c)
    (ca_transfers c) (ca_objects c) (ca_verified c) (ca_attempts c) (ca_events c).
Definition with_uploads (us : list Upload) (c : Catalog) : Catalog :=
  mkCatalog (ca_faults c) (ca_deletions c) us (ca_runs c) (ca_copies c) (ca_targets c)
    (ca_transfers c) (ca_objects c) (ca_verified c) (ca_attempts c) (ca_events c).
Definition with_runs (rs : gmap string BackupRun) (c : Catalog) : Catalog :=
  mkCatalog (ca_faults c) (ca_deletions c) (ca_uploads c) rs (ca_copies c) (ca_targets c)
    (ca_transfers c) (ca_objects c) (ca_verified c) (ca_attempts c) (ca_events c).
Definition with_copies (cs : list BackupCopy) (c : Catalog) : Catalog :=
  mkCatalog (ca_faults c) (ca_deletions c) (ca_uploads c) (ca_runs c) cs (ca_targets c)
    (ca_transfers c) (ca_objects c) (ca_verified c) (ca_attempts c) (ca_events c).
Definition with_objects (os : gmap (string * string) bytes) (c : Catalog) : Catalog :=
  mkCatalog (ca_faults c) (ca_deletions c) (ca_uploads c) (ca_runs c) (ca_copies c)
    (ca_targets c) (ca_transfers c) os (ca_verified c) (ca_attempts c) (ca_events c).
Definition with_verified (rs : gmap (string * string) ReplicationObject) (c : Catalog) : Catalog :=
  mkCatalog (ca_faults c) (ca_deletions c) (ca_uploads c) (ca_runs c) (ca_copies c)
    (ca_targets c) (ca_transfers c) (ca_objects c) rs (ca_attempts c) (ca_events c).
Definition with_attempts (rs : gmap string ReplicationAttempt) (c : Catalog) : Catalog :=
  mkCatalog (ca_faults c) (ca_deletions c) (ca_uploads c) (ca_runs c) (ca_copies c)
    (ca_targets c) (ca_transfers c) (ca_objects c) (ca_verified c) rs (ca_events c).
Definition with_events (es : list (string * RunEventKind * Z)) (c : Catalog) : Catalog :=
  mkCatalog (ca_faults c) (ca_deletions c) (ca_uploads c) (ca_runs c) (ca_copies c)
    (ca_targets c) (ca_transfers c) (ca_objects c) (ca_verified c) (ca_attempts c) es.

Abbreviation CM := (ST Catalog CatalogError).

(** One statement or connection that fails with [e]. *)
Definition attempt (e : CatalogError) : CM () := λ c,
  match ca_faults c with
  | true :: fs => (with_cat_faults fs c, Err e)
  | false :: fs => (with_cat_faults fs c, Ok ())
  | [] => (c, Ok ())
  end.

Definition statement : CM () := attempt CatDB.

(** ** Runs *)
Definition GetBackupRun (id : string) : CM BackupRun :=
  statement ;; c ← get ; lift (of_option CatNotFound (ca_runs c !! id)).

(** The rows of the disks are kept in the run here. *)
Definition ListBackupDisks (id : string) : CM (list BackupDisk) :=
  statement ;; c ← get ; mret (match ca_runs c !! id with Some r => run_Disks r | None => [] end).

Definition GetBackupRunFull (id : string) : CM BackupRun :=
  run ← GetBackupRun id ;
  disks ← ListBackupDisks id ;
  mret (run_set_Disks disks run).

Record RunFilter := mkRunFilter {
  rf_ServerID : string;
  rf_VMID : string;
  rf_JobID : string;
  rf_JobRunID : string;
  rf_ChainID : string;
  rf_TargetID : string;
  rf_Statuses : list RunStatus;
  rf_Types : list BackupType;
  rf_Since : option Z;
  rf_Until : option Z;
  rf_IncludeDeleted : bool;
  rf_Limit : Z;
  rf_Offset : Z
}.

(** [RunFilter{}]. *)
Definition no_filter : RunFilter := mkRunFilter "" "" "" "" "" "" [] [] None None false 0 0.

Definition unset_or (filter value : string) : bool :=
  bool_decide (filter = ""%string) || bool_decide (value = filter).

Definition none_or_in {A} `{EqDecision A} (xs : list A) (x : A) : bool :=
  bool_decide (xs = []) || bool_decide (x ∈ xs).

(** The [WHERE] clause. *)
Definition selects (f : RunFilter) (r : BackupRun) : bool :=
  unset_or (rf_ServerID f) (run_ServerID r) && unset_or (rf_VMID f) (run_VMID r)
  && unset_or (rf_JobID f) (run_JobID r) && unset_or (rf_JobRunID f) (run_JobRunID r)
  && unset_or (rf_ChainID f) (run_ChainID r) && unset_or (rf_TargetID f) (run_StorageTargetID r)
  && (rf_IncludeDeleted f || negb (run_Deleted r))
  && none_or_in (rf_Statuses f) (run_Status r) && none_or_in (rf_Types f) (run_Type r)
  && match rf_Since f with Some t => t <=? run_CreatedAt r | None => true end
  && match rf_Until f with Some t => run_CreatedAt r <=? t | None => true end.

(** [LIMIT] and [OFFSET]; an offset needs a limit. *)
Definition page {A} (f : RunFilter) (rs : list A) : list A :=
  if 0 <? rf_Limit f
  then take (Z.to_nat (rf_Limit f)) (if 0 <? rf_Offset f then drop (Z.to_nat (rf_Offset f)) rs else rs)
  else rs.

Definition all_runs (c : Catalog) : list BackupRun := (map_to_list (ca_runs c)).*2.

(** Newest first. *)
Definition ListBackupRuns (f : RunFilter) : CM (list BackupRun) :=
  statement ;; c ← get ;
  mret (page f (sort_stable (λ a b, run_CreatedAt b <? run_CreatedAt a)
    (List.filter (selects f) (all_runs c)))).

(** [UPDATE backup_runs ... WHERE id=?], and whether a row matched. *)
Definition update_run (id : string) (f : BackupRun → BackupRun) : CM bool :=
  statement ;; c ← get ;
  modify (with_runs (alter f id (ca_runs c))) ;;
  mret (bool_decide (is_Some (ca_runs c !! id))).

Definition set_deletion (deleted : bool) (purge : option Z) (reason : string) (at_ : option Z)
    (r : BackupRun) : BackupRun :=
  run_set_Deleted deleted (run_set_PurgeAfter purge
    (run_set_DeleteReason reason (run_set_DeletedAt at_ r))).

Definition MarkRunDeleted (id : string) : CM () :=
  update_run id (λ r, set_deletion true (run_PurgeAfter r) (run_DeleteReason r) (run_DeletedAt r) r) ;;
  mret ().

Definition QuarantineRun (now : Z) (id : string) (purgeAfter : Z) (reason : string) : CM () :=
  found ← update_run id (set_deletion true (Some purgeAfter) reason (Some now)) ;
  if negb found then fail CatNotFound else mret ().

(** Only a run that still has a purge date; the last statement closes the alert. *)
Definition RestoreRunFromQuarantine (id : string) : CM () :=
  statement ;; c ← get ;
  match ca_runs c !! id with
  | Some r =>
    if bool_decide (run_PurgeAfter r = None) then fail CatNotFound
    else modify (with_runs (<[id := set_deletion false None "" None r]> (ca_runs c))) ;; statement
  | None => fail CatNotFound
  end.

Definition NoteRunErased (id reason : string) (at_ : Z) : CM () :=
  update_run id (λ r, set_deletion (run_Deleted r) None reason
    (Some (default at_ (run_DeletedAt r))) r) ;;
  mret ().

Definition ClearRunPurge (id : string) : CM () :=
  update_run id (λ r, set_deletion (run_Deleted r) None (run_DeleteReason r) (run_DeletedAt r) r) ;;
  mret ().

Definition due_for_purge (now : Z) (r : BackupRun) : bool :=
  match run_PurgeAfter r with Some t => t <=? now | None => false end.

Definition RunsDueForPurge (now : Z) (limit : nat) : CM (list BackupRun) :=
  statement ;; c ← get ;
  mret (take (if decide (limit = 0%nat) then 50%nat else limit)
    (sort_stable (λ a b, default 0 (run_PurgeAfter a) <? default 0 (run_PurgeAfter b))
      (List.filter (due_for_purge now) (all_runs c)))).

(** ** Copies and targets *)
Definition GetBackupCopy (id : string) : CM BackupCopy :=
  statement ;; c ← get ;
  lift (of_option CatNotFound (List.find (λ p, bool_decide (cp_ID p = id)) (ca_copies c))).

Definition is_copy_of (run target : string) (p : BackupCopy) : bool :=
  bool_decide (cp_RunID p = run) && bool_decide (cp_StorageTargetID p = target).

Definition GetBackupCopyForTarget (run target : string) : CM BackupCopy :=
  statement ;; c ← get ;
  lift (of_option CatNotFound (List.find (is_copy_of run target) (ca_copies c))).

Definition copy_rank (p : BackupCopy) : Z := if bool_decide (cp_Role p = CopyPrimary) then 0 else 1.

(** The primary first, then by age. *)
Definition ListBackupCopies (run : string) : CM (list BackupCopy) :=
  statement ;; c ← get ;
  mret (sort_stable (λ a b, (copy_rank a <? copy_rank b)
      || ((copy_rank a =? copy_rank b) && (cp_CreatedAt a <? cp_CreatedAt b)))
    (List.filter (λ p, bool_decide (cp_RunID p = run)) (ca_copies c))).

(** The columns the statement writes: what identifies the copy, and the worker
    that holds it, are left as they are in the row. *)
Definition update_columns (p q : BackupCopy) : BackupCopy :=
  mkBackupCopy (cp_ID q) (cp_RunID q) (cp_StorageTargetID q) (cp_Role q) (cp_Required p)
    (cp_Status p) (cp_RepoPath q) (cp_SourceCopyID p) (cp_ManifestSHA256 p) (cp_ObjectCount p)
    (cp_CopiedObjects p) (cp_TotalBytes p) (cp_CopiedBytes p) (cp_AttemptCount p) (cp_LockedBy q)
    (cp_NextRetryAt p) (cp_LastError p) (cp_VerifiedAt p) (cp_LockedUntil p) (cp_StartedAt p)
    (cp_EndedAt p) (cp_CreatedAt q) (cp_UpdatedAt p).

(** [UPDATE backup_copies ... WHERE], and how many rows matched. *)
Definition update_copies (matches : BackupCopy → bool) (f : BackupCopy → BackupCopy) : CM nat :=
  statement ;; c ← get ;
  modify (with_copies ((λ q, if matches q then f q else q) <$> ca_copies c)) ;;
  mret (length (List.filter matches (ca_copies c))).

Definition has_copy_id (id : string) (q : BackupCopy) : bool := bool_decide (cp_ID q = id).

Definition UpdateBackupCopy (now : Z) (p : BackupCopy) : CM () :=
  n ← update_copies (has_copy_id (cp_ID p)) (update_columns (cp_set_UpdatedAt now p)) ;
  if decide (n = 0%nat) then fail CatNotFound else mret ().

Definition GetStorageTarget (id : string) : CM StorageTarget :=
  statement ;; c ← get ; lift (of_option CatNotFound (ca_targets c !! id)).

Definition protects (r : BackupRun) (t : VMTransfer) : bool :=
  bool_decide (vt_SourceServerID t = run_ServerID r) && bool_decide (vt_SourceVMID t = run_VMID r)
  && bool_decide (vt_Status t ∉ ["canceled"; "rolled_back"; "completed"]%string).

Definition VMTransferProtectsRun (r : BackupRun) : CM () :=
  statement ;; c ← get ;
  if existsb (protects r) (ca_transfers c)
  then fail TransferProtects else mret ().

(** ** Repositories *)
Definition Open (t : StorageTarget) : CM () := attempt (ErrOpen (tgt_Name t)).

Definition under (target prefix : string) (o : string * string) : bool :=
  bool_decide (o.1 = target) && String.prefix prefix o.2.

(** [backend.DeletePrefix]. *)
Definition DeletePrefix (t : StorageTarget) (prefix : string) : CM () := λ c,
  match ca_deletions c with
  | FailsAfter removed :: ds =>
    (with_deletions ds (with_objects (filter (λ kv, under (tgt_ID t) prefix kv.1 = false
        ∨ kv.1.2 ∉ removed) (ca_objects c)) c),
     Err (DeletionFailed (tgt_Name t)))
  | _ :: ds =>
    (with_deletions ds (with_objects
      (filter (λ kv, under (tgt_ID t) prefix kv.1 = false) (ca_objects c)) c), Ok ())
  | [] => (with_objects (filter (λ kv, under (tgt_ID t) prefix kv.1 = false) (ca_objects c)) c, Ok ())
  end.

(** [backend.Get], read to its end. *)
Definition GetObject (t : StorageTarget) (key : string) : CM bytes :=
  attempt (ErrOpen (tgt_Name t)) ;; c ← get ;
  lift (of_option (ErrMissing (tgt_Name t) key) (ca_objects c !! (tgt_ID t, key))).

(** [backend.Put]. *)
Definition PutObject (t : StorageTarget) (key : string) (data : bytes) : CM () := λ c,
  let put d := with_objects (<[(tgt_ID t, key) := d]> (ca_objects c)) in
  match ca_uploads c with
  | [] => (put data c, Ok ())
  | Stores :: us => (with_uploads us (put data c), Ok ())
  | StoresWrong d :: us => (with_uploads us (put d c), Ok ())
  | StoresThenFails (Some d) :: us => (with_uploads us (put d c), Err (UploadFailed (tgt_Name t)))
  | StoresThenFails None :: us => (with_uploads us c, Err (UploadFailed (tgt_Name t)))
  end.

(** [backend.List]: key and size, in no particular order. *)
Definition ListObjects (t : StorageTarget) (prefix : string) : CM (list (string * Z)) :=
  attempt (ErrOpen (tgt_Name t)) ;; c ← get ;
  mret ((λ kv, (kv.1.2, Z.of_nat (length kv.2)))
    <$> List.filter (λ kv, under (tgt_ID t) prefix kv.1) (map_to_list (ca_objects c))).

(** The object exists. *)
Definition stored (c : Catalog) (o : string * string) : Prop := is_Some (ca_objects c !! o).

(** * Reading leaves everything but the list of failures alone *)
Definition contents (c : Catalog) : Catalog := with_cat_faults [] c.

(** Every run is stored under its own identifier. *)
Definition catalog_keyed (c : Catalog) : Prop := ∀ id r, ca_runs c !! id = Some r → run_ID r = id.

Section Reading.
Lemma attempt_reads e : leaves contents (attempt e).
Proof. intros c. unfold attempt. by destruct (ca_faults c) as [|[]]. Qed.
Lemma statement_reads : leaves contents statement.
Proof. apply attempt_reads. Qed.

Ltac reads_tac :=
  repeat first [apply statement_reads | apply attempt_reads
    | apply leaves_ret | apply leaves_fail | apply leaves_lift | apply leaves_get
    | apply leaves_try | apply leaves_bind; [|intros ?] | progress case_match].

Lemma GetBackupRun_reads id : leaves contents (GetBackupRun id).
Proof. reads_tac. Qed.
Lemma GetBackupRunFull_reads id : leaves contents (GetBackupRunFull id).
Proof. unfold GetBackupRunFull, ListBackupDisks. repeat (apply leaves_bind; [|intros ?]); reads_tac. Qed.
Lemma ListBackupRuns_reads f : leaves contents (ListBackupRuns f).
Proof. reads_tac. Qed.
Lemma RunsDueForPurge_reads now n : leaves contents (RunsDueForPurge now n).
Proof. reads_tac. Qed.
Lemma GetBackupCopy_reads id : leaves contents (GetBackupCopy id).
Proof. reads_tac. Qed.
Lemma GetBackupCopyForTarget_reads r t : leaves contents (GetBackupCopyForTarget r t).
Proof. reads_tac. Qed.
Lemma ListBackupCopies_reads r : leaves contents (ListBackupCopies r).
Proof. reads_tac. Qed.
Lemma GetStorageTarget_reads id : leaves contents (GetStorageTarget id).
Proof. reads_tac. Qed.
Lemma VMTransferProtectsRun_reads r : leaves contents (VMTransferProtectsRun r).
Proof. reads_tac. Qed.
Lemma Open_reads t : leaves contents (Open t).
Proof. reads_tac. Qed.

(** A view of the catalogue that does not look at the copies, nor at the
    failures, is left alone by an update of copies. *)
Lemma update_copies_leaves {V} (v : Catalog → V) matches f :
  (∀ c fs, v (with_cat_faults fs c) = v c) → (∀ c cs, v (with_copies cs c) = v c) →
  leaves v (update_copies matches f).
Proof.
  intros Hf Hv. apply leaves_bind.
  - intros c. unfold statement, attempt. destruct (ca_faults c) as [|[]]; cbn; auto.
  - intros _. apply leaves_bind; [apply leaves_get|intros c].
    apply leaves_bind; [apply leaves_modify; auto|intros _; apply leaves_ret].
Qed.

Lemma UpdateBackupCopy_leaves {V} (v : Catalog → V) now p :
  (∀ c fs, v (with_cat_faults fs c) = v c) → (∀ c cs, v (with_copies cs c) = v c) →
  leaves v (UpdateBackupCopy now p).
Proof.
  intros Hf Hv. apply leaves_bind; [by apply update_copies_leaves|]. intros n.
  case_match; [apply leaves_fail|apply leaves_ret].
Qed.
End Reading.
#[export] Hint Resolve attempt_reads statement_reads GetBackupRun_reads GetBackupRunFull_reads
  ListBackupRuns_reads RunsDueForPurge_reads GetBackupCopy_reads GetBackupCopyForTarget_reads
  ListBackupCopies_reads GetStorageTarget_reads VMTransferProtectsRun_reads Open_reads : backup.

Section Lookups.
Lemma contents_runs c c' : contents c = contents c' → ca_runs c = ca_runs c'.
Proof. destruct c, c'. by intros [=]. Qed.

Lemma contents_copies c c' : contents c = contents c' → ca_copies c = ca_copies c'.
Proof. destruct c, c'. by intros [=]. Qed.

Lemma contents_targets c c' : contents c = contents c' → ca_targets c = ca_targets c'.
Proof. destruct c, c'. by intros [=]. Qed.

Lemma catalog_keyed_contents c c' : contents c = contents c' → catalog_keyed c → catalog_keyed c'.
Proof. unfold catalog_keyed. intros Hc. by rewrite (contents_runs _ _ Hc). Qed.

Lemma statement_ok {B} (f : () → CM B) c c' b :
  (statement ≫= f) c = (c', Ok b) → ∃ c1, contents c1 = contents c ∧ f () c1 = (c', Ok b).
Proof.
  intros Hrun. apply bind_ok in Hrun as (c1 & [] & Hq & Hrun). exists c1. split; [|done].
  eapply leaves_run; [apply statement_reads|exact Hq].
Qed.

Lemma GetBackupRun_ok id c c' r :
  GetBackupRun id c = (c', Ok r) → ca_runs c !! id = Some r ∧ contents c' = contents c.
Proof.
  intros Hrun. split; [|eapply leaves_run; [apply GetBackupRun_reads|exact Hrun]].
  apply statement_ok in Hrun as (c1 & Hc & Hrun). rewrite get_run in Hrun. injection Hrun as _ Hr.
  apply of_option_ok in Hr. by rewrite <-(contents_runs _ _ Hc).
Qed.

Lemma GetStorageTarget_ok id c c' t :
  GetStorageTarget id c = (c', Ok t) → ca_targets c !! id = Some t ∧ contents c' = contents c.
Proof.
  intros Hrun. split; [|eapply leaves_run; [apply GetStorageTarget_reads|exact Hrun]].
  apply statement_ok in Hrun as (c1 & Hc & Hrun). rewrite get_run in Hrun. injection Hrun as _ Ht.
  apply of_option_ok in Ht. by rewrite <-(contents_targets _ _ Hc).
Qed.

Lemma set_disks_id r : run_set_Disks (run_Disks r) r = r.
Proof. by destruct r. Qed.

Lemma GetBackupRunFull_ok id c c' r :
  GetBackupRunFull id c = (c', Ok r) → ca_runs c !! id = Some r ∧ contents c' = contents c.
Proof.
  intros Hrun. split; [|eapply leaves_run; [apply GetBackupRunFull_reads|exact Hrun]].
  apply bind_ok in Hrun as (c1 & r1 & Hget & Hrun). apply GetBackupRun_ok in Hget as [Hr Hc].
  apply bind_ok in Hrun as (c2 & ds & Hds & Hrun). apply statement_ok in Hds as (c3 & Hc3 & Hds).
  rewrite get_run in Hds. injection Hds as _ Hds. injection Hrun as _ Hrun. subst ds r.
  rewrite (contents_runs _ _ Hc3), (contents_runs _ _ Hc), Hr. by rewrite set_disks_id.
Qed.

Lemma all_runs_elem c r : catalog_keyed c → r ∈ all_runs c ↔ ca_runs c !! run_ID r = Some r.
Proof.
  intros Hk. unfold all_runs. rewrite list_elem_of_fmap. split.
  - intros ([id r'] & -> & Hin%elem_of_map_to_list). cbn. by rewrite (Hk _ _ Hin).
  - intros Hr. exists (run_ID r, r). split; [done|]. by apply elem_of_map_to_list.
Qed.

Lemma all_runs_nodup c : catalog_keyed c → NoDup (run_ID <$> all_runs c).
Proof.
  intros Hk. unfold all_runs. rewrite <-list_fmap_compose.
  rewrite (list_fmap_ext _ fst); [apply NoDup_fst_map_to_list|].
  intros i [id r] Hi. cbn. apply Hk, elem_of_map_to_list. by eapply list_elem_of_lookup_2.
Qed.

Lemma ListBackupRuns_ok f c c' rs :
  catalog_keyed c → rf_Limit f = 0 → ListBackupRuns f c = (c', Ok rs) →
  contents c' = contents c ∧ NoDup (run_ID <$> rs)
  ∧ ∀ r, r ∈ rs ↔ ca_runs c !! run_ID r = Some r ∧ selects f r = true.
Proof.
  intros Hk Hlim Hrun. split; [eapply leaves_run; [apply ListBackupRuns_reads|exact Hrun]|].
  apply statement_ok in Hrun as (c1 & Hc & Hrun). rewrite get_run in Hrun. injection Hrun as _ <-.
  unfold page. rewrite Hlim. cbn [Z.ltb Z.compare].
  assert (catalog_keyed c1) as Hk1 by by eapply catalog_keyed_contents.
  rewrite <-(contents_runs _ _ Hc). split.
  - rewrite sort_stable_perm. by apply NoDup_fmap_filter_bool, all_runs_nodup.
  - intros r. rewrite sort_stable_elem_of, list_elem_of_In, filter_In, <-list_elem_of_In.
    by rewrite all_runs_elem.
Qed.
End Lookups.

(** * When nothing fails *)
Section NoFaults.
Lemma statement_run c : ca_faults c = [] → statement c = (c, Ok ()).
Proof. intros Hf. unfold statement, attempt. by rewrite Hf. Qed.

Lemma statement_then {B} (f : () → CM B) c : ca_faults c = [] → (statement ≫= f) c = f () c.
Proof. intros Hf. run_st. by rewrite statement_run. Qed.

Lemma update_copies_run matches f c : ca_faults c = [] →
  update_copies matches f c
  = (with_copies ((λ q, if matches q then f q else q) <$> ca_copies c) c,
     Ok (length (List.filter matches (ca_copies c)))).
Proof. intros Hf. unfold update_copies. by rewrite statement_then. Qed.

Lemma update_run_ok id f c q : ca_faults c = [] → ca_runs c !! id = Some q →
  update_run id f c = (with_runs (<[id := f q]> (ca_runs c)) c, Ok true).
Proof.
  intros Hf Hq. unfold update_run. rewrite statement_then by done. run_st.
  rewrite Hq, bool_decide_true by by eexists. do 2 f_equal.
  apply map_eq. intros i. destruct (decide (i = id)) as [->|].
  - by rewrite lookup_alter_eq, lookup_insert_eq, Hq.
  - by rewrite lookup_alter_ne, lookup_insert_ne.
Qed.
End NoFaults.
