(* ===== verification/Chain.v ===== *)
(** Resolving a restore point ([internal/backup/chain.go]): the chain of runs it
    depends on, one target that holds them all, and the manifests of its disks
    from the root to the leaf. *)

From S2P Require Import Prelude StateM GoTime Model Layout Grid Format Catalog.

Record Artifact := mkArtifact { art_Kind : string; art_ManifestKey : string; art_DataKey : string }.

Record RunManifestDisk := mkRunManifestDisk {
  rmd_DiskID : string;
  rmd_ManifestKey : string;
  rmd_DataKey : string
}.

Record RunManifest := mkRunManifest {
  rm_Format : string;
  rm_Version : Z;
  rm_RunID : string;
  rm_ParentRunID : string;
  rm_Type : BackupType;
  rm_VMID : string;
  rm_VMName : string;
  rm_ToCheckpointID : string;
  rm_CreatedAt : Z;
  rm_Disks : list RunManifestDisk;
  rm_Provider : option string;
  rm_Artifacts : list Artifact
}.

Definition ArtifactProxmoxVZDUMP : string := "proxmox-vzdump".

Record ChainSet := mkChainSet {
  cs_Leaf : BackupRun;
  cs_Runs : list BackupRun;
  cs_Manifests : string → list DiskManifest;
  cs_DiskOrder : list string;
  cs_RunManifest : option RunManifest;
  cs_Target : StorageTarget;
  cs_Copy : BackupCopy
}.

(** Reading the documents of a repository: an object by key, decompressed,
    parsed and validated. *)
Class Documents := {
  loadDiskManifest : StorageTarget → string → option DiskManifest;
  ReadRunManifest : StorageTarget → string → option RunManifest
}.

(** ** The copy to read *)
Fixpoint first_healthy (copies : list BackupCopy) : CM (option (BackupCopy * StorageTarget)) :=
  match copies with
  | [] => mret None
  | p :: copies =>
    if negb (Healthy (Some p)) then first_healthy copies else
    target ← try (GetStorageTarget (cp_StorageTargetID p)) ;
    match target with
    | Ok t => if tgt_Enabled t then mret (Some (p, t)) else first_healthy copies
    | Err _ => first_healthy copies
    end
  end.

Definition selectHealthyCopy (run : BackupRun) (copyID : string) (allowVerifying : bool) :
    CM (BackupCopy * StorageTarget) :=
  if negb (bool_decide (copyID = ""%string)) then
    p ← GetBackupCopy copyID ;
    if negb (bool_decide (cp_RunID p = run_ID run)) then fail (ForeignCopy copyID) else
    if negb (Healthy (Some p)) && negb (allowVerifying && bool_decide (cp_Status p = CopyVerifying))
    then fail (CopyNotReady copyID (cp_Status p)) else
    target ← GetStorageTarget (cp_StorageTargetID p) ;
    if negb (tgt_Enabled target) then fail (TargetDisabled (tgt_Name target)) else
    mret (p, target)
  else
    copies ← ListBackupCopies (run_ID run) ;
    found ← first_healthy copies ;
    match found with
    | Some r => mret r
    | None => fail (NoHealthyCopy (run_ID run))
    end.

(** ** The chain of runs *)

(** The loop that walks up from the leaf: [seen] and [runs] as in the code,
    the newest first. *)
Fixpoint walk (fuel : nat) (seen : list string) (runs : list BackupRun) (cur : BackupRun) :
    CM (list BackupRun) :=
  match fuel with
  | O => fail OutOfFuel
  | S fuel =>
    if existsb (λ id, bool_decide (id = run_ID cur)) seen then fail (CycleAt (run_ID cur)) else
    let seen := run_ID cur :: seen in
    let runs := cur :: runs in
    if bool_decide (run_ParentRunID cur = ""%string) then mret runs else
    found ← try (GetBackupRunFull (run_ParentRunID cur)) ;
    match found with
    | Err CatNotFound => fail (ParentMissing (run_ParentRunID cur) (run_ID cur))
    | Err e => fail e
    | Ok parent =>
      if run_Deleted parent then fail (ParentDeleted (run_ID parent) (run_ID cur))
      else walk fuel seen runs parent
    end
  end.

Definition root_ok (allowConfig : bool) (root : BackupRun) : bool :=
  bool_decide (run_Type root = BackupFull) || bool_decide (run_Type root = BackupSnapshot)
  || (allowConfig && bool_decide (run_Type root = BackupConfig)).

(** Whether the run can be read from the target of the selected copy. *)
Definition copy_ready (leaf : BackupRun) (selected : BackupCopy) (allowVerifying : bool)
    (run : BackupRun) : CM bool :=
  found ← try (GetBackupCopyForTarget (run_ID run) (cp_StorageTargetID selected)) ;
  mret (match found with
    | Ok p => Healthy (Some p) || (allowVerifying && bool_decide (run_ID run = run_ID leaf)
        && bool_decide (cp_ID p = cp_ID selected) && bool_decide (cp_Status p = CopyVerifying))
    | Err _ => false
    end).

Fixpoint check_copies (leaf : BackupRun) (selected : BackupCopy) (target : StorageTarget)
    (allowVerifying : bool) (runs : list BackupRun) : CM () :=
  match runs with
  | [] => mret ()
  | run :: runs =>
    ready ← copy_ready leaf selected allowVerifying run ;
    if negb ready then fail (ChainCopyNotReady (run_ID run) (tgt_Name target))
    else check_copies leaf selected target allowVerifying runs
  end.

Section Load.
Context `{Documents}.

Definition succeeded (d : BackupDisk) : bool := bool_decide (bd_Status d = RunSucceeded).

Definition disk_order (leaf : BackupRun) : list string :=
  bd_DiskID <$> List.filter succeeded (run_Disks leaf).

(** The manifests of the chain, root first: the disks of a run that are in the
    leaf. *)
Definition wanted_disk (order : list string) (d : BackupDisk) : bool :=
  succeeded d && negb (bool_decide (bd_ManifestKey d = ""%string))
  && existsb (λ id, bool_decide (id = bd_DiskID d)) order.

Fixpoint load_disks (target : StorageTarget) (disks : list BackupDisk)
    (ms : string → list DiskManifest) : result CatalogError (string → list DiskManifest) :=
  match disks with
  | [] => Ok ms
  | d :: disks =>
    m ← of_option (BadManifest (bd_ManifestKey d)) (loadDiskManifest target (bd_ManifestKey d)) ;
    load_disks target disks (λ id, if bool_decide (id = bd_DiskID d) then ms id ++ [m] else ms id)
  end.

Definition chain_disks (order : list string) (runs : list BackupRun) : list BackupDisk :=
  List.filter (wanted_disk order) (mjoin (run_Disks <$> runs)).

Definition is_increment (t : BackupType) : bool :=
  bool_decide (t = BackupIncremental) || bool_decide (t = BackupDifferential).

(** The effective chain of every disk must start with a base. *)
Fixpoint check_chains (order : list string) (ms : string → list DiskManifest) :
    result CatalogError () :=
  match order with
  | [] => Ok ()
  | id :: order =>
    match EffectiveChain (ms id) with
    | [] => Err (NoManifest id)
    | root :: _ => if is_increment (dm_Type root) then Err (BaseLost id (dm_RunID root))
                   else check_chains order ms
    end
  end.

(** The map after the loop: the disks of the leaf hold their effective chain. *)
Definition effective (order : list string) (ms : string → list DiskManifest) (id : string) :
    list DiskManifest :=
  if existsb (λ i, bool_decide (i = id)) order then EffectiveChain (ms id) else ms id.

Definition native_artifact (rm : option RunManifest) : bool :=
  match rm with
  | Some rm =>
    bool_decide (rm_Provider rm = Some "proxmox"%string)
    && existsb (λ a, bool_decide (art_Kind a = ArtifactProxmoxVZDUMP)
         && negb (bool_decide (art_ManifestKey a = ""%string))
         && negb (bool_decide (art_DataKey a = ""%string))) (rm_Artifacts rm)
  | None => false
  end.

(** Everything after the repository is open. *)
Definition read_documents (allowConfig : bool) (leaf : BackupRun) (runs : list BackupRun)
    (selected : BackupCopy) (target : StorageTarget) : result CatalogError ChainSet :=
  let rm := ReadRunManifest target (RunManifestKey (cp_RepoPath selected)) in
  let order := disk_order leaf in
  ms ← load_disks target (chain_disks order runs) (λ _, []) ;
  check_chains order ms ;;
  if bool_decide (order = []) && negb (allowConfig && bool_decide (run_Type leaf = BackupConfig))
     && negb (native_artifact rm)
  then Err (NoDisks (run_ID leaf))
  else Ok (mkChainSet leaf runs (effective order ms) order rm target selected).

Definition loadChainCopy (fuel : nat) (runID copyID : string) (allowVerifying allowConfig : bool) :
    CM ChainSet :=
  leaf ← GetBackupRunFull runID ;
  if run_Deleted leaf then fail (RunDeleted runID) else
  if bool_decide (run_Type leaf = BackupOVA) then fail OVANotRestorable else
  if bool_decide (run_Type leaf = BackupConfig) && negb allowConfig then fail ConfigHasNoDisks else
  picked ← selectHealthyCopy leaf copyID allowVerifying ;
  let '(selected, target) := picked in
  runs ← walk fuel [] [] leaf ;
  match runs with
  | [] => fail (NoDisks runID)
  | root :: _ =>
    if negb (root_ok allowConfig root) then fail (RootNotFull (run_ID root) (run_Type root)) else
    check_copies leaf selected target allowVerifying runs ;;
    Open target ;;
    lift (read_documents allowConfig leaf runs selected target)
  end.

Definition LoadChainCopy (fuel : nat) (runID copyID : string) : CM ChainSet :=
  loadChainCopy fuel runID copyID false false.

Definition LoadChain (fuel : nat) (runID : string) : CM ChainSet := LoadChainCopy fuel runID "".

Definition LoadVMChainCopy (fuel : nat) (runID copyID : string) : CM ChainSet :=
  loadChainCopy fuel runID copyID false true.
End Load.

(** * What a loaded chain is *)

(** Each run's parent is the run before it. *)
Definition linked (rs : list BackupRun) : Prop :=
  ∀ i r s, rs !! i = Some r → rs !! S i = Some s → run_ParentRunID s = run_ID r.

Definition live_in (c : Catalog) (r : BackupRun) : Prop :=
  ca_runs c !! run_ID r = Some r ∧ run_Deleted r = false.

(** The data of a run is on a target, finished; or it is the copy under
    verification itself. *)
Definition readable_on (c : Catalog) (target : string) (verifying : option (string * string))
    (r : BackupRun) : Prop :=
  ∃ p, p ∈ ca_copies c ∧ cp_RunID p = run_ID r ∧ cp_StorageTargetID p = target
    ∧ (Healthy (Some p) = true
       ∨ (verifying = Some (run_ID r, cp_ID p) ∧ cp_Status p = CopyVerifying)).

Section Walk.
Lemma linked_cons r s rs :
  run_ParentRunID s = run_ID r → linked (s :: rs) → linked (r :: s :: rs).
Proof.
  intros Hrs Hl i x y Hx Hy. destruct i as [|i]; cbn in *; [by simplify_eq|]. by apply (Hl i).
Qed.

Lemma walk_ok fuel : ∀ seen runs cur c c' rs,
  catalog_keyed c → ca_runs c !! run_ID cur = Some cur → run_Deleted cur = false →
  walk fuel seen runs cur c = (c', Ok rs) →
  contents c' = contents c ∧ ∃ up, rs = up ++ runs ∧ last up = Some cur ∧ linked up
    ∧ Forall (live_in c) up ∧ NoDup (run_ID <$> up)
    ∧ Forall (λ id, id ∉ seen) (run_ID <$> up)
    ∧ (∃ root, head up = Some root ∧ run_ParentRunID root = ""%string).
Proof.
  induction fuel as [|fuel IH]; intros seen runs cur c c' rs Hk Hcur Hlive Hrun; [done|].
  cbn [walk] in Hrun. destruct (existsb _ seen) eqn:Hseen; [done|].
  assert (run_ID cur ∉ seen) as Hnew.
  { intros Hin. apply not_true_iff_false in Hseen. apply Hseen, existsb_exists.
    exists (run_ID cur). rewrite <-list_elem_of_In, bool_decide_eq_true. done. }
  case_bool_decide as Hp.
  { injection Hrun as <- <-. split; [done|]. exists [cur]. split_and!; try done.
    - by apply Forall_singleton.
    - apply NoDup_singleton.
    - by apply Forall_singleton.
    - by exists cur. }
  destruct (GetBackupRunFull (run_ParentRunID cur) c) as [c1 found] eqn:Hget.
  rewrite (try_run _ _ _ _ _ Hget) in Hrun.
  destruct found as [parent|e]; [|by destruct e].
  apply GetBackupRunFull_ok in Hget as [Hparent Hc1].
  destruct (run_Deleted parent) eqn:Hdel; [done|].
  pose proof (Hk _ _ Hparent) as Hid.
  apply IH in Hrun as (Hc' & up & -> & Hlast & Hlink & Hall & Hnd & Hfresh & root & Hhead & Hroot);
    [|by eapply catalog_keyed_contents|by rewrite (contents_runs _ _ Hc1), Hid|done].
  split; [by rewrite Hc'|]. exists (up ++ [cur]). split_and!.
  - by rewrite <-app_assoc.
  - by rewrite last_snoc.
  - intros i r s Hr Hs. destruct (decide (S i < length up)%nat) as [Hi|Hi].
    + rewrite lookup_app_l in Hr, Hs by lia. by apply (Hlink i).
    + apply lookup_lt_Some in Hs as Hlen. rewrite length_app in Hlen. cbn in Hlen.
      assert (length up = S i) as Hup by lia.
      rewrite lookup_app_l in Hr by lia. rewrite last_lookup, Hup in Hlast. cbn in Hlast.
      rewrite lookup_app_r in Hs by lia. rewrite Hup, Nat.sub_diag in Hs. cbn in Hs.
      simplify_eq. done.
  - apply Forall_app. split; [|by apply Forall_singleton].
    eapply Forall_impl; [exact Hall|]. unfold live_in. intros r.
    by rewrite (contents_runs _ _ Hc1).
  - rewrite fmap_app. apply NoDup_app. split_and!; [done| |apply NoDup_singleton].
    intros id Hin Heq. apply list_elem_of_singleton in Heq as ->.
    rewrite Forall_forall in Hfresh. apply (Hfresh _ Hin). by left.
  - rewrite fmap_app. apply Forall_app. split; [|by apply Forall_singleton].
    eapply Forall_impl; [exact Hfresh|]. cbn. intros id Hn Hin. apply Hn. by right.
  - exists root. split; [|done]. destruct up; [done|]. done.
Qed.

(** ** Termination *)
Definition no_fuel_error {A} (m : CM A) : Prop := ∀ c, (m c).2 ≠ Err OutOfFuel.

Lemma nofuel_bind {A B} (m : CM A) (f : A → CM B) :
  no_fuel_error m → (∀ a, no_fuel_error (f a)) → no_fuel_error (m ≫= f).
Proof.
  intros Hm Hf c. specialize (Hm c). run_st. destruct (m c) as [c' [a|e]]; cbn in *; [apply Hf|congruence].
Qed.
Lemma nofuel_ret {A} (a : A) : no_fuel_error (mret a).
Proof. done. Qed.
Lemma nofuel_fail {A} e : e ≠ OutOfFuel → no_fuel_error (@fail Catalog CatalogError A e).
Proof. intros He c. cbn. congruence. Qed.
Lemma nofuel_try {A} (m : CM A) : no_fuel_error (try m).
Proof. intros c. unfold try. by destruct (m c). Qed.
Lemma nofuel_get : no_fuel_error get.
Proof. done. Qed.
Lemma nofuel_lift {A} (r : result CatalogError A) : r ≠ Err OutOfFuel → no_fuel_error (lift r).
Proof. by intros Hr c. Qed.
Lemma nofuel_attempt e : e ≠ OutOfFuel → no_fuel_error (attempt e).
Proof. intros He c. unfold attempt. destruct (ca_faults c) as [|[]]; cbn; congruence. Qed.
Lemma nofuel_option {A} e (o : option A) : e ≠ OutOfFuel → of_option e o ≠ Err OutOfFuel.
Proof. destruct o; cbn; congruence. Qed.

Ltac nofuel_tac :=
  repeat first
    [ apply nofuel_ret | apply nofuel_fail; discriminate | apply nofuel_try | apply nofuel_get
    | apply nofuel_lift; first [apply nofuel_option; discriminate | assumption]
    | apply nofuel_attempt; discriminate
    | apply nofuel_bind; [|intros ?] | progress case_match ].

Lemma nofuel_run_full id : no_fuel_error (GetBackupRunFull id).
Proof. apply nofuel_bind; [nofuel_tac|]. intros ?. nofuel_tac. Qed.

Lemma nofuel_select leaf id av : no_fuel_error (selectHealthyCopy leaf id av).
Proof.
  assert (∀ ps, no_fuel_error (first_healthy ps)) as Hfirst.
  { induction ps as [|p ps IH]; cbn; [nofuel_tac|]. destruct (negb _); [done|].
    apply nofuel_bind; [nofuel_tac|]. intros [t|e]; [destruct (tgt_Enabled t)|]; done. }
  unfold selectHealthyCopy. case_match.
  - apply nofuel_bind; [nofuel_tac|]. intros p. nofuel_tac.
  - apply nofuel_bind; [nofuel_tac|]. intros ps. apply nofuel_bind; [done|]. intros ?. nofuel_tac.
Qed.

Lemma nofuel_copies leaf sel t av runs : no_fuel_error (check_copies leaf sel t av runs).
Proof.
  induction runs as [|r runs IH]; cbn; [nofuel_tac|].
  apply nofuel_bind; [unfold copy_ready; nofuel_tac|]. intros ready.
  destruct (negb ready); [nofuel_tac|done].
Qed.

Lemma nofuel_walk fuel : ∀ seen runs cur c,
  catalog_keyed c → NoDup seen → (∀ id, id ∈ seen → is_Some (ca_runs c !! id)) →
  ca_runs c !! run_ID cur = Some cur →
  (size (ca_runs c) < fuel + length seen)%nat →
  (walk fuel seen runs cur c).2 ≠ Err OutOfFuel.
Proof.
  assert (∀ seen c, NoDup seen → (∀ id, id ∈ seen → is_Some (ca_runs c !! id)) →
    (length seen ≤ size (ca_runs c))%nat) as Hbound.
  { intros seen c Hnd Hin. rewrite <-size_dom, <-(size_list_to_set (C := gset string)) by done.
    apply subseteq_size. intros id. rewrite elem_of_list_to_set, elem_of_dom. apply Hin. }
  induction fuel as [|fuel IH]; intros seen runs cur c Hk Hnd Hin Hcur Hfuel.
  { exfalso. specialize (Hbound seen c Hnd Hin). cbn in Hfuel. lia. }
  cbn [walk]. destruct (existsb _ seen) eqn:Hseen; [done|].
  assert (run_ID cur ∉ seen) as Hnew.
  { intros Hc. apply not_true_iff_false in Hseen. apply Hseen, existsb_exists.
    exists (run_ID cur). rewrite <-list_elem_of_In, bool_decide_eq_true. done. }
  case_bool_decide; [done|].
  destruct (GetBackupRunFull (run_ParentRunID cur) c) as [c1 found] eqn:Hget.
  rewrite (try_run _ _ _ _ _ Hget). destruct found as [parent|e].
  - apply GetBackupRunFull_ok in Hget as [Hparent Hc1].
    destruct (run_Deleted parent); [done|]. pose proof (Hk _ _ Hparent) as Hid.
    apply IH.
    + by eapply catalog_keyed_contents.
    + by apply NoDup_cons.
    + rewrite (contents_runs _ _ Hc1). intros id [->|Hi]%elem_of_cons; [by exists cur|by apply Hin].
    + by rewrite (contents_runs _ _ Hc1), Hid.
    + rewrite (contents_runs _ _ Hc1). cbn. lia.
  - pose proof (nofuel_run_full (run_ParentRunID cur) c) as He. rewrite Hget in He. cbn in He.
    destruct e; cbn; congruence.
Qed.
End Walk.

Section LoadFacts.
Context `{Documents}.

Lemma selectHealthyCopy_reads leaf id av : leaves contents (selectHealthyCopy leaf id av).
Proof.
  assert (∀ ps, leaves contents (first_healthy ps)) as Hfirst.
  { induction ps as [|p ps IH]; cbn; [apply leaves_ret|]. destruct (negb _); [done|].
    apply leaves_bind; [apply leaves_try; auto with backup|].
    intros [t|e]; [destruct (tgt_Enabled t)|]; done || apply leaves_ret. }
  unfold selectHealthyCopy. case_match.
  - apply leaves_bind; [auto with backup|]. intros p. repeat case_match; try apply leaves_fail.
    apply leaves_bind; [auto with backup|]. intros t. case_match; [apply leaves_fail|apply leaves_ret].
  - apply leaves_bind; [auto with backup|]. intros ps. apply leaves_bind; [done|].
    intros []; [apply leaves_ret|apply leaves_fail].
Qed.

Lemma check_copies_ok leaf sel t av runs : ∀ c c' u,
  check_copies leaf sel t av runs c = (c', Ok u) →
  contents c' = contents c ∧ Forall (readable_on c (cp_StorageTargetID sel)
    (if av then Some (run_ID leaf, cp_ID sel) else None)) runs.
Proof.
  induction runs as [|r runs IH]; intros c c' u Hrun; cbn in Hrun.
  { injection Hrun as <- _. by split. }
  apply bind_ok in Hrun as (c1 & ready & Hready & Hrun). destruct ready; [|done]. cbn in Hrun.
  unfold copy_ready in Hready.
  destruct (GetBackupCopyForTarget (run_ID r) (cp_StorageTargetID sel) c) as [c2 found] eqn:Hget.
  rewrite (try_run _ _ _ _ _ Hget) in Hready. injection Hready as -> Hready.
  pose proof (leaves_run _ _ _ _ _ (GetBackupCopyForTarget_reads _ _) Hget) as Hc1.
  apply IH in Hrun as [Hc' Hall]. split; [congruence|].
  apply Forall_cons. split.
  - destruct found as [p|e]; [|done].
    apply statement_ok in Hget as (c3 & Hc3 & Hget). rewrite get_run in Hget. injection Hget as _ Hp.
    apply of_option_ok in Hp. rewrite (contents_copies _ _ Hc3) in Hp.
    apply find_some in Hp as [Hin Hof]. unfold is_copy_of in Hof. bprop.
    exists p. split_and!; [by apply list_elem_of_In|done|done|].
    apply orb_true_iff in Hready as [Hh|Hv]; [left; exact Hh|right]. bprop.
    destruct av; [|done]. split; congruence.
  - eapply Forall_impl; [exact Hall|]. intros s (p & Hp & ?). exists p.
    by rewrite <-(contents_copies _ _ Hc1).
Qed.

Lemma selectHealthyCopy_ok leaf id av c c' p t :
  selectHealthyCopy leaf id av c = (c', Ok (p, t)) → tgt_Enabled t = true.
Proof.
  assert (∀ ps c c' q u, first_healthy ps c = (c', Ok (Some (q, u))) → tgt_Enabled u = true) as Hfirst.
  { induction ps as [|q ps IH]; intros c1 c1' q' u Hrun; cbn in Hrun; [done|].
    destruct (negb _); [by eapply IH|].
    apply bind_ok in Hrun as (c2 & [t'|e] & _ & Hrun); [|by eapply IH].
    destruct (tgt_Enabled t') eqn:Ht; [|by eapply IH]. injection Hrun as _ _ <-. done. }
  unfold selectHealthyCopy. destruct (negb _).
  - intros Hrun. apply bind_ok in Hrun as (c1 & q & _ & Hrun). destruct (negb _); [done|].
    destruct (_ && _); [done|]. apply bind_ok in Hrun as (c2 & u & _ & Hrun).
    destruct (tgt_Enabled u) eqn:Hu; [|done]. injection Hrun as _ _ <-. done.
  - intros Hrun. apply bind_ok in Hrun as (c1 & ps & _ & Hrun).
    apply bind_ok in Hrun as (c2 & found & Hf & Hrun). destruct found as [[q u]|]; [|done].
    injection Hrun as _ _ <-. by eapply Hfirst.
Qed.

Lemma check_chains_ok order ms u :
  check_chains order ms = Ok u →
  ∀ id, id ∈ order → ∃ root rest, EffectiveChain (ms id) = root :: rest ∧ is_increment (dm_Type root) = false.
Proof.
  induction order as [|i order IH]; cbn; intros Hrun id Hid; [by apply elem_of_nil in Hid|].
  destruct (EffectiveChain (ms i)) as [|root rest] eqn:Hi; [done|].
  destruct (is_increment (dm_Type root)) eqn:Hb; [done|].
  apply elem_of_cons in Hid as [->|Hid]; [by exists root, rest|by apply IH].
Qed.

(** The manifests of one disk, in the order of the runs. *)
Lemma load_disks_ok target disks : ∀ ms ms',
  load_disks target disks ms = Ok ms' →
  ∀ id, ∃ loaded, ms' id = ms id ++ loaded ∧
    Forall2 (λ d m, loadDiskManifest target (bd_ManifestKey d) = Some m)
      (List.filter (λ d, bool_decide (bd_DiskID d = id)) disks) loaded.
Proof.
  induction disks as [|d disks IH]; intros ms ms' Hrun id; cbn in Hrun.
  { injection Hrun as <-. exists []. rewrite app_nil_r. by split. }
  apply result_bind_ok in Hrun as (m & Hm & Hrun). apply of_option_ok in Hm.
  destruct (IH _ _ Hrun id) as (loaded & -> & Hall). cbn.
  case_bool_decide; case_bool_decide; try congruence.
  - exists (m :: loaded). rewrite <-app_assoc. split; [done|]. by constructor.
  - by exists loaded.
Qed.

(** C40. Resolving a restore point ends whatever the parent links are: with
    more steps than there are runs in the catalogue the loop that walks up
    never runs out, because it stops at a run it has seen. *)
Theorem chain_terminates fuel runID copyID av ac c :
  catalog_keyed c → (size (ca_runs c) < fuel)%nat →
  (loadChainCopy fuel runID copyID av ac c).2 ≠ Err OutOfFuel.
Proof.
  intros Hk Hfuel. unfold loadChainCopy. run_st.
  pose proof (nofuel_run_full runID c) as Hleaf.
  destruct (GetBackupRunFull runID c) as [c1 [leaf|e]] eqn:Hget; [|cbn in *; congruence].
  apply GetBackupRunFull_ok in Hget as [Hl Hc1]. clear Hleaf.
  repeat (case_match; [done|]).
  pose proof (nofuel_select leaf copyID av c1) as Hsel.
  pose proof (selectHealthyCopy_reads leaf copyID av c1) as Hc2.
  destruct (selectHealthyCopy leaf copyID av c1) as [c2 [[sel t]|e]]; [|cbn in *; congruence].
  cbn in Hc2. rewrite Hc1 in Hc2.
  assert ((walk fuel [] [] leaf c2).2 ≠ Err OutOfFuel) as Hwalk.
  { apply nofuel_walk.
    - by eapply catalog_keyed_contents.
    - by constructor.
    - intros id Hid. by apply elem_of_nil in Hid.
    - rewrite (contents_runs _ _ Hc2). by rewrite (Hk _ _ Hl).
    - rewrite (contents_runs _ _ Hc2). cbn. lia. }
  destruct (walk fuel [] [] leaf c2) as [c3 [runs|e]]; [|cbn in *; congruence].
  destruct runs as [|root runs]; [done|]. case_match; [done|].
  pose proof (nofuel_copies leaf sel t av (root :: runs) c3) as Hcop.
  destruct (check_copies _ _ _ _ _ c3) as [c4 [[]|e]]; [|cbn in *; congruence].
  pose proof (nofuel_attempt (ErrOpen (tgt_Name t)) ltac:(done) c4) as Hopen. unfold Open.
  destruct (attempt _ c4) as [c5 [[]|e]]; [|cbn in *; congruence]. cbn. intros [=Hr]. revert Hr.
  unfold read_documents. cbv zeta.
  assert (∀ ds ms, load_disks t ds ms ≠ Err OutOfFuel) as Hload.
  { induction ds as [|d ds IH]; intros ms; cbn; [done|].
    destruct (loadDiskManifest t (bd_ManifestKey d)); cbn; [apply IH|done]. }
  assert (∀ order ms, check_chains order ms ≠ Err OutOfFuel) as Hchains.
  { induction order as [|i order IH]; intros ms; cbn; [done|]. repeat case_match; done. }
  specialize (Hload (chain_disks (disk_order leaf) (root :: runs)) (λ _, [])).
  destruct (load_disks _ _ _) as [ms|e]; cbn; [|congruence].
  specialize (Hchains (disk_order leaf) ms).
  destruct (check_chains _ _) as [u|e]; cbn; [|congruence]. by case_match.
Qed.

(** A load that succeeds, step by step. *)
Lemma load_steps fuel runID copyID c c' set :
  LoadChainCopy fuel runID copyID c = (c', Ok set) →
  ∃ c2 c3 c4 leaf sel t root rest u, contents c2 = contents c ∧ ca_runs c !! runID = Some leaf
    ∧ run_Deleted leaf = false ∧ tgt_Enabled t = true
    ∧ walk fuel [] [] leaf c2 = (c3, Ok (root :: rest)) ∧ root_ok false root = true
    ∧ check_copies leaf sel t false (root :: rest) c3 = (c4, Ok u)
    ∧ read_documents false leaf (root :: rest) sel t = Ok set.
Proof.
  intros Hrun. unfold LoadChainCopy, loadChainCopy in Hrun.
  apply bind_ok in Hrun as (c1 & leaf & Hleaf & Hrun). apply GetBackupRunFull_ok in Hleaf as [Hl Hc1].
  destruct (run_Deleted leaf) eqn:Hdel; [done|]. case_match; [done|]. case_match; [done|].
  apply bind_ok in Hrun as (c2 & [sel t] & Hsel & Hrun).
  pose proof (leaves_run _ _ _ _ _ (selectHealthyCopy_reads _ _ _) Hsel) as Hc2. rewrite Hc1 in Hc2.
  apply selectHealthyCopy_ok in Hsel as Henabled.
  apply bind_ok in Hrun as (c3 & runs & Hwalk & Hrun). destruct runs as [|root rest]; [done|].
  destruct (root_ok false root) eqn:Hok; [|done]. cbn [negb] in Hrun.
  apply bind_ok in Hrun as (c4 & u & Hcheck & Hrun).
  apply bind_ok in Hrun as (c5 & u' & _ & Hrun). injection Hrun as _ Hrun.
  exists c2, c3, c4, leaf, sel, t, root, rest, u. done.
Qed.

Lemma read_documents_runs ac leaf runs sel t set :
  read_documents ac leaf runs sel t = Ok set → cs_Runs set = runs ∧ cs_Leaf set = leaf.
Proof.
  unfold read_documents. cbv zeta. intros Hrun.
  apply result_bind_ok in Hrun as (ms & _ & Hrun). apply result_bind_ok in Hrun as (u & _ & Hrun).
  case_match; [done|]. by injection Hrun as <-.
Qed.

(** C7. A restore point that loads is readable: its runs lead from a full (or
    snapshot) root without a parent to the requested run, each the parent of
    the next, all different, stored and not deleted; all of them have a
    finished copy on one enabled target; and every disk saved in the leaf has a
    chain of manifests loaded from that target, in the order of the runs, that
    starts with a base. *)
Theorem chain_sound fuel runID copyID c c' set :
  catalog_keyed c → LoadChainCopy fuel runID copyID c = (c', Ok set) →
  let runs := cs_Runs set in
  ca_runs c !! runID = Some (cs_Leaf set) ∧ last runs = Some (cs_Leaf set)
  ∧ linked runs ∧ Forall (live_in c) runs ∧ NoDup (run_ID <$> runs)
  ∧ (∃ root, head runs = Some root ∧ run_ParentRunID root = ""%string
       ∧ (run_Type root = BackupFull ∨ run_Type root = BackupSnapshot))
  ∧ tgt_Enabled (cs_Target set) = true
  ∧ Forall (readable_on c (cp_StorageTargetID (cs_Copy set)) None) runs
  ∧ ∀ disk, disk ∈ cs_DiskOrder set → ∃ loaded root rest,
      Forall2 (λ d m, loadDiskManifest (cs_Target set) (bd_ManifestKey d) = Some m)
        (List.filter (λ d, bool_decide (bd_DiskID d = disk))
          (chain_disks (cs_DiskOrder set) runs)) loaded
      ∧ cs_Manifests set disk = EffectiveChain loaded
      ∧ EffectiveChain loaded = root :: rest ∧ is_increment (dm_Type root) = false.
Proof.
  intros Hk Hrun.
  apply load_steps in Hrun as (c2 & c3 & c4 & leaf & sel & t & root & tl & u & Hc2 & Hl & Hdel & Henabled
    & Hwalk & Hok & Hcheck & Hrun).
  pose proof (Hk _ _ Hl) as Hlid.
  apply walk_ok in Hwalk as (Hc3 & up & Hup & Hlast & Hlink & Hall & Hnd & _ & root' & Hhead & Hroot);
    [|by eapply catalog_keyed_contents|by rewrite (contents_runs _ _ Hc2), Hlid|done].
  rewrite app_nil_r in Hup. subst up. rewrite Hc2 in Hc3. injection Hhead as <-.
  apply check_copies_ok in Hcheck as [Hc4 Hready].
  unfold read_documents in Hrun. cbv zeta in Hrun.
  apply result_bind_ok in Hrun as (ms & Hms & Hrun). apply result_bind_ok in Hrun as (u2 & Hch & Hrun).
  case_match; [done|]. injection Hrun as <-. cbn -[chain_disks].
  split_and!; try done.
  - eapply Forall_impl; [exact Hall|]. unfold live_in. intros r. by rewrite (contents_runs _ _ Hc2).
  - exists root. split_and!; [done..|]. unfold root_ok in Hok.
    rewrite !orb_true_iff, andb_false_l, !bool_decide_eq_true in Hok. naive_solver.
  - eapply Forall_impl; [exact Hready|]. intros r (p & Hp & ?). exists p.
    by rewrite <-(contents_copies _ _ Hc3).
  - intros disk Hdisk. destruct (load_disks_ok _ _ _ _ Hms disk) as (loaded & Heq & Hall2).
    cbn in Heq. destruct (check_chains_ok _ _ _ Hch disk Hdisk) as (root' & rest & Hroot' & Hinc).
    exists loaded, root', rest. rewrite Heq in Hroot'. split_and!; try done.
    unfold effective. rewrite (proj2 (existsb_exists _ _)); [by rewrite Heq|].
    exists disk. split; [by apply list_elem_of_In|]. by apply bool_decide_true.
Qed.
End LoadFacts.
