(* ===== verification/Prune.v ===== *)
(** Deleting backups ([internal/backup/prune.go]): the runs that depend on a
    run, the quarantine, the physical deletion of the copies, and the passes
    that apply a retention policy or an expiry.

    One operation reads the clock once. Alerts and the log are left out. *)

From S2P Require Import Prelude StateM GoTime Model Retention Catalog Chain.

(** [e.cfg.PurgeDelay]. *)
Class Config := { PurgeDelay : Z }.

(** * The runs that depend on a run *)
Definition candidates_for (run : BackupRun) (chain : list BackupRun) : list BackupRun :=
  List.filter (λ r, negb (run_Deleted r || bool_decide (run_ID r = run_ID run))) chain.

Definition by_parent (rs : list BackupRun) (id : string) : list BackupRun :=
  List.filter (λ r, bool_decide (run_ParentRunID r = id)) rs.

(** The loop over the queue. *)
Fixpoint bfs (fuel : nat) (rs : list BackupRun) (queue out : list string) : option (list string) :=
  match queue with
  | [] => Some out
  | id :: queue =>
    match fuel with
    | O => None
    | S fuel =>
      let children := run_ID <$> by_parent rs id in
      bfs fuel rs (queue ++ children) (out ++ children)
    end
  end.

Definition chain_filter (chainID : string) : RunFilter :=
  mkRunFilter "" "" "" "" chainID "" [] [] None None false 0 0.

(** As many steps as runs in the listing, and one for the run itself. *)
Definition dependents (run : BackupRun) : CM (list string) :=
  chain ← ListBackupRuns (chain_filter (run_ChainID run)) ;
  let rs := candidates_for run chain in
  lift (of_option OutOfFuel (bfs (S (length rs)) rs [run_ID run] [])).

(** * Deletion *)
Fixpoint check_targets (run : BackupRun) (copies : list BackupCopy) : CM () :=
  match copies with
  | [] => mret ()
  | p :: copies =>
    if bool_decide (cp_Status p = CopyDeleted)
       || bool_decide (cp_StorageTargetID p = run_StorageTargetID run)
    then check_targets run copies else
    target ← GetStorageTarget (cp_StorageTargetID p) ;
    if tgt_ReadOnly target then fail (TargetReadOnly (tgt_Name target))
    else check_targets run copies
  end.

Definition checkRunDeletionAccess (run : BackupRun) : CM () :=
  VMTransferProtectsRun run ;;
  if bool_decide (run_RepoPath run = ""%string) || bool_decide (run_Type run = BackupOVA)
  then mret () else
  target ← GetStorageTarget (run_StorageTargetID run) ;
  if tgt_ReadOnly target then fail (TargetReadOnly (tgt_Name target)) else
  copies ← ListBackupCopies (run_ID run) ;
  check_targets run copies.

Definition set_copy (s : BackupCopyStatus) (until ended : option Z) (p : BackupCopy) : BackupCopy :=
  cp_set_Status s (cp_set_LockedUntil until (cp_set_EndedAt ended p)).

Definition unfinished_replica (p : BackupCopy) : bool :=
  bool_decide (cp_Role p = CopyReplica) && cp_Required p && negb (Healthy (Some p))
  && negb (bool_decide (cp_Status p = CopyDeleted)).

(** Replicas first, the primary last. *)
Definition deleted_before (a b : BackupCopy) : bool :=
  negb (bool_decide (cp_Role a = CopyPrimary)) && bool_decide (cp_Role b = CopyPrimary).

Definition purge_copy (now : Z) (p : BackupCopy) : CM () :=
  if bool_decide (cp_Status p = CopyDeleted) then mret () else
  match cp_LockedUntil p with
  | Some until =>
    if after until now then
      try (UpdateBackupCopy now (set_copy CopyLocked (cp_LockedUntil p) (cp_EndedAt p) p)) ;;
      fail (CopyIsLocked (cp_StorageTargetID p) until)
    else mret ()
  | None => mret ()
  end ;;
  target ← GetStorageTarget (cp_StorageTargetID p) ;
  Open target ;;
  outcome ← try (DeletePrefix target (cp_RepoPath p)) ;
  match outcome with
  | Err e =>
    (if tgt_ObjectLockEnabled target then
      let until := default (now + tgt_ObjectLockDays target * Day) (cp_LockedUntil p) in
      try (UpdateBackupCopy now (set_copy CopyLocked (Some until) (cp_EndedAt p) p)) ;; mret ()
     else mret ()) ;;
    fail e
  | Ok _ => UpdateBackupCopy now (set_copy CopyDeleted (cp_LockedUntil p) (Some now) p)
  end.

Definition purgeRunObjects (now : Z) (run : BackupRun) : CM () :=
  deps ← dependents run ;
  if negb (bool_decide (deps = [])) then fail (HasDependents (run_ID run) deps) else
  if bool_decide (run_Type run = BackupOVA) then MarkRunDeleted (run_ID run) else
  if bool_decide (run_RepoPath run = ""%string) then MarkRunDeleted (run_ID run) else
  copies ← ListBackupCopies (run_ID run) ;
  match List.find unfinished_replica copies with
  | Some p => fail (RequiredReplicaUnfinished (cp_StorageTargetID p))
  | None =>
    for_each (purge_copy now) (sort_stable deleted_before copies) ;;
    MarkRunDeleted (run_ID run)
  end.

Definition purgeRunData (now : Z) (run : BackupRun) : CM () :=
  checkRunDeletionAccess run ;;
  purgeRunObjects now run.

Section Delete.
Context `{Config}.

Definition DeleteRunData (now : Z) (runID reason : string) : CM () :=
  run ← GetBackupRun runID ;
  if run_Deleted run then mret () else
  checkRunDeletionAccess run ;;
  if 0 <? PurgeDelay then
    deps ← dependents run ;
    if negb (bool_decide (deps = [])) then fail (HasDependents runID deps) else
    QuarantineRun now runID (now + PurgeDelay) reason
  else
    purgeRunData now run ;;
    NoteRunErased runID reason now.

(** One run of the collector's batch, as it was when the batch was read. *)
Definition purge_due (now : Z) (run : BackupRun) : CM () :=
  outcome ← try (purgeRunData now run) ;
  match outcome with
  | Err _ => mret ()
  | Ok _ => try (ClearRunPurge (run_ID run)) ;; mret ()
  end.

Definition PurgeExpired (now : Z) : CM () :=
  batch ← try (RunsDueForPurge now 50) ;
  match batch with
  | Err _ => mret ()
  | Ok runs => for_each (purge_due now) runs
  end.

Definition PurgeRunData (now : Z) (runID reason : string) : CM () :=
  run ← GetBackupRun runID ;
  purgeRunData now run ;;
  let reason := if bool_decide (reason = ""%string) then run_DeleteReason run
    else if negb (bool_decide (run_DeleteReason run = ""%string))
    then (run_DeleteReason run +:+ "; " +:+ reason)%string else reason in
  NoteRunErased runID reason now.

Definition deleteReasonExpired : string := "истёк срок хранения точки".

Definition retentionDeleteReason (why : string) : string :=
  if bool_decide (why = ""%string) then "политика хранения" else "политика хранения: " +:+ why.

(** How many of the runs were deleted, and the first error. *)
Fixpoint delete_each (now : Z) (runs : list (string * string)) (n : nat)
    (first : option CatalogError) : CM (nat * option CatalogError) :=
  match runs with
  | [] => mret (n, first)
  | (id, reason) :: runs =>
    outcome ← try (DeleteRunData now id reason) ;
    match outcome with
    | Ok _ => delete_each now runs (S n) first
    | Err e => delete_each now runs n (Some (default e first))
    end
  end.

Definition run_expired (now : Z) (r : BackupRun) : bool :=
  match run_ExpiresAt r with Some t => negb (after t now) | None => false end.

Definition PruneExpired (now : Z) : CM nat :=
  runs ← ListBackupRuns (mkRunFilter "" "" "" "" "" "" [RunSucceeded; RunPartial; RunFailed] []
    None None false 0 0) ;
  r ← delete_each now ((λ r, (run_ID r, deleteReasonExpired)) <$> List.filter (run_expired now) runs)
    0 None ;
  mret r.1.
End Delete.

Section RetentionPass.
Context `{Config} (digest : PlanPayload → string) (reason_text : option Reason → string).

(** The plan, and the error the pass ends with. [vm] is the name of the VM in
    the inventory, [fuel] bounds the walks of [Apply]. *)
Definition applyRetention (fuel : nat) (now : Z) (vm : option string)
    (serverID vmID targetID : string) (policy : RetentionPolicy) (dryRun : bool)
    (expectedToken : string) : CM (Plan * option CatalogError) :=
  lift (map_err (λ _, BadPolicy) (RetentionPolicy_Validate policy)) ;;
  target ← GetStorageTarget targetID ;
  if tgt_ReadOnly target && negb dryRun then fail (TargetReadOnly targetID) else
  runs ← ListBackupRuns (mkRunFilter serverID vmID "" "" "" targetID [] [] None None false 0 0) ;
  let vmName := match vm, runs with
    | Some name, _ => name
    | None, r :: _ => run_VMName r
    | None, [] => vmID
    end in
  decision ← lift (of_option OutOfFuel (Apply fuel policy runs now)) ;
  let plan := WithDeletionConditions digest
    (BuildPlan digest serverID vmID vmName targetID runs decision) PurgeDelay target in
  if negb (bool_decide (expectedToken = ""%string)) && negb (bool_decide (plan_Token plan = expectedToken))
  then mret (plan, Some PlanChanged) else
  if dryRun then mret (plan, None) else
  r ← delete_each now
    ((λ note, (note_RunID note, retentionDeleteReason (reason_text (note_Reason note))))
       <$> plan_Delete plan) 0 None ;
  mret (plan, r.2).

Definition ApplyRetention (fuel : nat) (now : Z) (vm : option string)
    (serverID vmID targetID : string) (policy : RetentionPolicy) (dryRun : bool) :
    CM (Plan * option CatalogError) :=
  applyRetention fuel now vm serverID vmID targetID policy dryRun "".

Definition ApplyRetentionConfirmed (fuel : nat) (now : Z) (vm : option string)
    (serverID vmID targetID : string) (policy : RetentionPolicy) (planToken : string) :
    CM (Plan * option CatalogError) :=
  if bool_decide (planToken = ""%string) then fail TokenMissing
  else applyRetention fuel now vm serverID vmID targetID policy false planToken.
End RetentionPass.
