(* ===== verification/PruneFacts.v ===== *)
(** Deletion keeps every live backup restorable: the search for dependent runs
    is exact and ends, no deletion breaks a chain, and the physical deletion
    removes the replicas before the primary and nothing else. *)

From S2P Require Import Prelude StateM GoTime Model Retention Catalog Chain Prune.

(** * The search *)
Section Search.
Context (rs : list BackupRun) (root : string).
Hypothesis rs_ids : NoDup (run_ID <$> rs).
Hypothesis rs_root : root ∉ run_ID <$> rs.

(** A run of the listing whose chain of parents leads to the root. *)
Inductive descends : BackupRun → Prop :=
| descends_child r : r ∈ rs → run_ParentRunID r = root → descends r
| descends_step r s : descends s → r ∈ rs → run_ParentRunID r = run_ID s → descends r.

Lemma by_parent_elem r id : r ∈ by_parent rs id ↔ r ∈ rs ∧ run_ParentRunID r = id.
Proof.
  unfold by_parent. rewrite !list_elem_of_In, filter_In, bool_decide_eq_true. done.
Qed.

Lemma by_parent_nodup id : NoDup (run_ID <$> by_parent rs id).
Proof using rs_ids.
  unfold by_parent. revert rs_ids. clear. induction rs as [|r l IH]; cbn; [done|].
  intros [Hr Hnd]%NoDup_cons. case_bool_decide; [|by apply IH]. cbn. apply NoDup_cons.
  split; [|by apply IH]. intros (s & Hs & Hin)%list_elem_of_fmap. apply Hr. rewrite Hs.
  apply list_elem_of_fmap_2. by apply list_elem_of_In, filter_In, proj1, list_elem_of_In in Hin.
Qed.

(** What has been taken from the queue, what is in it, what has been found. *)
Record search_ok (popped queue out : list string) : Prop := {
  so_nodup : NoDup (popped ++ queue);
  so_reached : ∀ id, id ∈ popped ++ queue → id = root ∨ ∃ r, r ∈ rs ∧ run_ID r = id
    ∧ descends r ∧ run_ParentRunID r ∈ popped;
  so_closed : ∀ r, r ∈ rs → run_ParentRunID r ∈ popped → run_ID r ∈ popped ++ queue;
  so_out : ∀ id, id ∈ out ↔ id ∈ popped ++ queue ∧ id ≠ root;
  so_root : root ∈ popped ++ queue
}.

Lemma search_start : search_ok [] [root] [].
Proof.
  constructor; cbn.
  - apply NoDup_singleton.
  - intros id ->%list_elem_of_singleton. by left.
  - intros r _ Hr. by apply elem_of_nil in Hr.
  - intros id. rewrite list_elem_of_singleton. split; [intros Hid; by apply elem_of_nil in Hid|naive_solver].
  - by apply list_elem_of_singleton.
Qed.

Lemma search_step popped id queue out :
  search_ok popped (id :: queue) out →
  search_ok (popped ++ [id]) (queue ++ (run_ID <$> by_parent rs id))
    (out ++ (run_ID <$> by_parent rs id)).
Proof using rs_ids rs_root.
  intros [Hnd Hreach Hclosed Hout Hroot].
  assert (id ∉ popped) as Hid.
  { intros Hin. apply NoDup_app in Hnd as (_ & Hdisj & _). apply (Hdisj id Hin). by left. }
  assert (∀ x, x ∈ (popped ++ [id]) ++ queue ++ (run_ID <$> by_parent rs id)
    ↔ x ∈ popped ++ id :: queue ∨ x ∈ run_ID <$> by_parent rs id) as Hset by set_solver.
  assert (∀ x, x ∈ run_ID <$> by_parent rs id → x ∉ popped ++ id :: queue) as Hfresh.
  { intros x (r & -> & [Hr Hp]%by_parent_elem)%list_elem_of_fmap Hx.
    destruct (Hreach _ Hx) as [Hxr|(s & Hs & Hsr & _ & Hsp)].
    - apply rs_root. rewrite <-Hxr. by apply list_elem_of_fmap_2.
    - assert (s = r) as -> by (by eapply NoDup_fmap_inj). congruence. }
  constructor.
  - rewrite <-app_assoc. cbn. rewrite app_comm_cons, app_assoc. apply NoDup_app. split_and!.
    + done.
    + intros x Hx Hc. by apply (Hfresh x).
    + apply by_parent_nodup.
  - intros x [Hx|Hx]%Hset.
    + destruct (Hreach x Hx) as [?|(r & ? & ? & ? & Hp)]; [by left|right]. exists r.
      split_and!; try done. apply elem_of_app. by left.
    + apply list_elem_of_fmap in Hx as (r & -> & [Hr Hp]%by_parent_elem). right. exists r.
      split_and!; [done|done| |apply elem_of_app; right; by apply list_elem_of_singleton].
      destruct (Hreach id) as [->|(s & Hs & Hsid & Hds & _)].
      * apply elem_of_app. right. by left.
      * by apply descends_child.
      * apply (descends_step r s); congruence || done.
  - intros r Hr Hp. apply Hset. apply elem_of_app in Hp as [Hp|Hp%list_elem_of_singleton].
    + left. by apply Hclosed.
    + right. apply list_elem_of_fmap_2, by_parent_elem. done.
  - intros x. rewrite elem_of_app, Hset, Hout. split; [|naive_solver].
    intros [[? ?]|Hx]; [by split; [left|]|]. split; [by right|]. intros ->. by apply (Hfresh root).
  - apply Hset. by left.
Qed.

Lemma search_bound popped queue out :
  search_ok popped queue out → (length popped + length queue ≤ S (length rs))%nat.
Proof using rs_ids.
  intros [Hnd Hreach _ _ _]. rewrite <-length_app.
  assert (popped ++ queue ⊆ root :: (run_ID <$> rs)) as Hsub.
  { intros x Hx. destruct (Hreach x Hx) as [->|(r & Hr & <- & _)]; [by left|right].
    by apply list_elem_of_fmap_2. }
  assert (length (root :: (run_ID <$> rs)) = S (length rs)) as <- by (cbn; by rewrite length_fmap).
  by apply submseteq_length, NoDup_submseteq.
Qed.

Lemma search_ends fuel : ∀ popped queue out,
  search_ok popped queue out → (S (length rs) ≤ fuel + length popped)%nat →
  ∃ out' popped', bfs fuel rs queue out = Some out' ∧ search_ok popped' [] out'.
Proof using rs_ids rs_root.
  induction fuel as [|fuel IH]; intros popped queue out Hok Hfuel;
    pose proof (search_bound _ _ _ Hok) as Hb; destruct queue as [|id queue]; cbn [bfs].
  1, 3: by exists out, popped.
  - cbn in *. lia.
  - apply (IH (popped ++ [id])); [by apply search_step|]. rewrite length_app. cbn. lia.
Qed.

Lemma search_exact out popped :
  search_ok popped [] out → ∀ id, id ∈ out ↔ ∃ r, run_ID r = id ∧ descends r.
Proof using rs_root.
  intros [Hnd Hreach Hclosed Hout Hroot] id. rewrite Hout, app_nil_r in *. split.
  - intros [Hid Hne]. destruct (Hreach id Hid) as [?|(r & ? & ? & ? & _)]; [done|by exists r].
  - intros (r & <- & Hd). split.
    + induction Hd as [r Hr Hp|r s Hs IH Hr Hp].
      * apply (Hclosed r Hr). by rewrite Hp.
      * apply (Hclosed r Hr). by rewrite Hp.
    + intros Heq. apply rs_root. rewrite <-Heq. apply list_elem_of_fmap_2. by destruct Hd.
Qed.
End Search.

(** * The dependents of a run in the catalogue *)

(** A live run whose chain of parents leads to the root. *)
Inductive depends_on (c : Catalog) (root : string) : BackupRun → Prop :=
| dep_child r : live_in c r → run_ID r ≠ root → run_ParentRunID r = root → depends_on c root r
| dep_step r s : depends_on c root s → live_in c r → run_ID r ≠ root →
    run_ParentRunID r = run_ID s → depends_on c root r.

(** A run and its parent are in one chain. *)
Definition one_chain (c : Catalog) : Prop := ∀ r p,
  ca_runs c !! run_ID r = Some r → ca_runs c !! run_ID p = Some p →
  run_ParentRunID r = run_ID p → run_ChainID r = run_ChainID p.

(** A run that was read from the catalogue at some time. *)
Definition once_read (c : Catalog) (run : BackupRun) : Prop :=
  ∃ r, ca_runs c !! run_ID run = Some r ∧ run_ChainID r = run_ChainID run.

Section Dependents.
Lemma depends_live c root r : depends_on c root r → live_in c r ∧ run_ID r ≠ root.
Proof. by destruct 1. Qed.

Lemma depends_chain c run r :
  catalog_keyed c → one_chain c → once_read c run → depends_on c (run_ID run) r →
  run_ChainID r = run_ChainID run.
Proof.
  intros Hk Hone (r0 & Hr0 & Hchain) Hd.
  induction Hd as [r Hl Hne Hp|r s Hs IH Hl Hne Hp].
  - rewrite <-Hchain. apply Hone; [apply Hl|by rewrite (Hk _ _ Hr0)|]. by rewrite (Hk _ _ Hr0).
  - rewrite <-IH. apply Hone; [apply Hl|apply (depends_live _ _ _ Hs)|done].
Qed.

Lemma depends_selected c run r :
  catalog_keyed c → one_chain c → once_read c run → depends_on c (run_ID run) r →
  unset_or (run_ChainID run) (run_ChainID r) = true.
Proof.
  intros. rewrite (depends_chain c run r) by done. unfold unset_or.
  rewrite (bool_decide_true (run_ChainID run = run_ChainID run)) by done. apply orb_true_r.
Qed.

Lemma candidates_elem run f c chain r :
  f = chain_filter (run_ChainID run) →
  (∀ s, s ∈ chain ↔ ca_runs c !! run_ID s = Some s ∧ selects f s = true) →
  r ∈ candidates_for run chain ↔
    live_in c r ∧ run_ID r ≠ run_ID run ∧ unset_or (run_ChainID run) (run_ChainID r) = true.
Proof.
  intros -> Hc. unfold candidates_for. rewrite list_elem_of_In, filter_In, <-list_elem_of_In, Hc.
  unfold selects, live_in, none_or_in, unset_or. cbn.
  rewrite !andb_true_iff, !negb_true_iff, orb_false_iff, bool_decide_eq_false. naive_solver.
Qed.

Lemma descends_depends c run chain r :
  catalog_keyed c → one_chain c → once_read c run →
  (∀ s, s ∈ candidates_for run chain ↔
    live_in c s ∧ run_ID s ≠ run_ID run ∧ unset_or (run_ChainID run) (run_ChainID s) = true) →
  descends (candidates_for run chain) (run_ID run) r ↔ depends_on c (run_ID run) r.
Proof.
  intros Hk Hone Hread Hc. split.
  - induction 1 as [r Hr Hp|r s Hs IH Hr Hp]; apply Hc in Hr as (Hl & Hne & _).
    + by apply dep_child.
    + by apply (dep_step _ _ r s).
  - intros Hd. pose proof (depends_selected c run r Hk Hone Hread Hd) as Hchain.
    induction Hd as [r Hl Hne Hp|r s Hs IH Hl Hne Hp].
    + apply descends_child; [by apply Hc|done].
    + apply (descends_step _ _ r s); [|by apply Hc|done]. by apply IH, (depends_selected c).
Qed.

Lemma dependents_run c run :
  catalog_keyed c → one_chain c → once_read c run →
  contents (dependents run c).1 = contents c ∧
  match (dependents run c).2 with
  | Ok ids => ∀ id, id ∈ ids ↔ ∃ r, run_ID r = id ∧ depends_on c (run_ID run) r
  | Err e => e = CatDB
  end.
Proof.
  intros Hk Hone Hread. unfold dependents. set (f := chain_filter _).
  pose proof (ListBackupRuns_ok f c) as Hlist. pose proof (ListBackupRuns_reads f c) as Hreads.
  assert (∀ e, (ListBackupRuns f c).2 = Err e → e = CatDB) as Herr.
  { intros e. unfold ListBackupRuns, statement, attempt. run_st.
    destruct (ca_faults c) as [|[] fs]; cbn; congruence. }
  run_st. destruct (ListBackupRuns f c) as [c' [chain|e]]; cbn in *; [|split; [done|by apply Herr]].
  destruct (Hlist c' chain Hk eq_refl eq_refl) as (_ & Hnd & Hin). split; [done|].
  pose proof (candidates_elem run f c chain) as Hc. specialize (Hc) as Hc.
  assert (NoDup (run_ID <$> candidates_for run chain)) as Hnd'.
  { by apply NoDup_fmap_filter_bool. }
  assert (run_ID run ∉ run_ID <$> candidates_for run chain) as Hroot.
  { intros (r & Hr & Hcand)%list_elem_of_fmap. apply Hc in Hcand as (_ & Hne & _); done. }
  destruct (search_ends _ _ Hnd' Hroot (S (length (candidates_for run chain))) [] [run_ID run] []
    (search_start _ _)) as (out & popped & Hbfs & Hok); [cbn; lia|].
  cbn in Hbfs |- *. rewrite Hbfs. cbn. intros id.
  rewrite (search_exact _ _ Hroot _ _ Hok). apply exist_proper. intros r.
  rewrite (descends_depends c run chain) by (done || intros s; by apply Hc). done.
Qed.

(** The search for dependent runs always ends, and unless the database
    fails it finds exactly the live runs whose chain of parents leads to the
    run. *)
Theorem dependents_exact c run :
  catalog_keyed c → one_chain c → once_read c run →
  match (dependents run c).2 with
  | Ok ids => ∀ id, id ∈ ids ↔ ∃ r, run_ID r = id ∧ depends_on c (run_ID run) r
  | Err e => e = CatDB
  end.
Proof. intros Hk Hone Hread. by apply dependents_run. Qed.
End Dependents.

(** * No deletion breaks a chain *)

(** Every live run that has a parent has a live one. *)
Definition chains_live (c : Catalog) : Prop := ∀ r,
  live_in c r → run_ParentRunID r ≠ ""%string → ∃ p, live_in c p ∧ run_ID p = run_ParentRunID r.

Record sound_catalog (seen : list BackupRun) (c : Catalog) : Prop := {
  sc_keyed : catalog_keyed c;
  sc_chain : one_chain c;
  sc_live : chains_live c;
  sc_seen : ∀ run, run ∈ seen → once_read c run
}.

Definition childless (c : Catalog) (id : string) : Prop :=
  ∀ r, live_in c r → run_ID r ≠ id → run_ParentRunID r ≠ id.

Section Sound.
Context (seen : list BackupRun).
Local Abbreviation I := (sound_catalog seen).

Lemma sound_runs c c' : ca_runs c' = ca_runs c → I c → I c'.
Proof.
  intros Hr [H1 H2 H3 H4]. constructor; unfold catalog_keyed, one_chain, chains_live, once_read, live_in in *;
    rewrite Hr; done.
Qed.

Lemma childless_runs c c' id : ca_runs c' = ca_runs c → childless c id → childless c' id.
Proof. intros Hr H. unfold childless, live_in in *. by rewrite Hr. Qed.

(** Operations that do not write runs. *)
Lemma keeps_leaves {A} (P : Catalog → Prop) (m : CM A) :
  (∀ c c', ca_runs c' = ca_runs c → P c → P c') → leaves ca_runs m → keeps P m.
Proof. intros HP Hm c Hc. by apply (HP c), Hc. Qed.

Lemma reads_runs {A} (m : CM A) : leaves contents m → leaves ca_runs m.
Proof. intros Hm c. apply contents_runs, Hm. Qed.

(** A change of a run that leaves its place in the chain. *)
Definition same_place (f : BackupRun → BackupRun) : Prop := ∀ r,
  run_ID (f r) = run_ID r ∧ run_ParentRunID (f r) = run_ParentRunID r ∧ run_ChainID (f r) = run_ChainID r.

Lemma alter_sound c id f :
  same_place f → (∀ r, run_Deleted r = true → run_Deleted (f r) = true) →
  ((∃ r, ca_runs c !! id = Some r ∧ run_Deleted r = false ∧ run_Deleted (f r) = true) → childless c id) →
  I c → I (with_runs (alter f id (ca_runs c)) c).
Proof.
  intros Hf Hdel Hchild [H1 H2 H3 H4].
  assert (∀ i r, alter f id (ca_runs c) !! i = Some r →
    ∃ r0, ca_runs c !! i = Some r0 ∧ run_ID r = run_ID r0 ∧ run_ParentRunID r = run_ParentRunID r0
      ∧ run_ChainID r = run_ChainID r0 ∧ (run_Deleted r = false → run_Deleted r0 = false)
      ∧ (i ≠ id → r = r0) ∧ (i = id → r = f r0)) as Hback.
  { intros i r Hi. destruct (decide (i = id)) as [->|Hne].
    - rewrite lookup_alter_eq in Hi. destruct (ca_runs c !! id) as [r0|]; [|done]. injection Hi as <-.
      exists r0. destruct (Hf r0) as (? & ? & ?). split_and!; try done.
      intros Hd. destruct (run_Deleted r0) eqn:E; [|done]. by rewrite (Hdel _ E) in Hd.
    - rewrite lookup_alter_ne in Hi by done. by exists r. }
  constructor; unfold catalog_keyed, one_chain, chains_live, once_read, live_in in *; cbn.
  - intros i r Hi. destruct (Hback i r Hi) as (r0 & Hr0 & Hid & _). rewrite Hid. by apply H1.
  - intros r p Hr Hp Hrp. destruct (Hback _ _ Hr) as (r0 & Hr0 & Hr1 & Hr2 & Hr3 & _).
    destruct (Hback _ _ Hp) as (p0 & Hp0 & Hp1 & _ & Hp3 & _).
    rewrite Hr3, Hp3. apply H2; congruence.
  - intros r [Hr Hlive] Hpar. destruct (Hback _ _ Hr) as (r0 & Hr0 & Hr1 & Hr2 & _ & Hd & _ & Hfr).
    destruct (H3 r0) as (p & [Hp Hpl] & Hpid); [by rewrite <-Hr1; auto|congruence|].
    destruct (decide (run_ID p = id)) as [Heq|Hne].
    + exists (f p). destruct (Hf p) as (Hf1 & _ & _). rewrite Hf1, Heq. split; [split|congruence].
      * rewrite lookup_alter_eq, <-Heq, Hp. done.
      * destruct (run_Deleted (f p)) eqn:E; [|done]. exfalso.
        assert (childless c id) as Hch by (apply Hchild; exists p; by rewrite <-Heq).
        destruct (decide (run_ID r0 = id)) as [Hid|Hid].
        -- rewrite Hr1, Hid, <-Heq, Hp in Hr0. injection Hr0 as <-.
           rewrite Hfr in Hlive by congruence. congruence.
        -- apply (Hch r0); [split; [by rewrite <-Hr1|by apply Hd]|done|congruence].
    + exists p. split; [split; [by rewrite lookup_alter_ne|done]|congruence].
  - intros run Hrun. destruct (H4 run Hrun) as (r & Hr & Hch).
    destruct (decide (run_ID run = id)) as [<-|Hne].
    + exists (f r). rewrite lookup_alter_eq, Hr. split; [done|].
      destruct (Hf r) as (_ & _ & ->). done.
    + exists r. by rewrite lookup_alter_ne.
Qed.

Lemma update_run_sound id f (P : Catalog → Prop) :
  same_place f → (∀ r, run_Deleted r = true → run_Deleted (f r) = true) →
  (∀ c c', ca_runs c' = ca_runs c → P c → P c') →
  (∀ c, P c → (∃ r, ca_runs c !! id = Some r ∧ run_Deleted r = false ∧ run_Deleted (f r) = true)
     → childless c id) →
  hoare (λ c, I c ∧ P c) (update_run id f) (λ _, I).
Proof.
  intros Hf Hdel HP Hchild c [HI Hc]. unfold update_run, statement.
  pose proof (reads_runs _ (attempt_reads CatDB) c) as Hr. run_st.
  destruct (attempt CatDB c) as [c1 [[]|e]]; cbn in *; [|by apply (sound_runs c)].
  apply alter_sound; [done|done| |by apply (sound_runs c)]. apply Hchild. by apply (HP c).
Qed.

Lemma MarkRunDeleted_sound id :
  hoare (λ c, I c ∧ childless c id) (MarkRunDeleted id) (λ _, I).
Proof.
  apply (hoare_bind _ _ _ (λ _, I)); [|intros ?; apply keeps_ret].
  eapply hoare_weaken; [apply (update_run_sound id _ (λ c, childless c id))|done|by intros []]; try done.
  intros c c' Hr. by apply childless_runs.
Qed.

Lemma QuarantineRun_sound now id t reason :
  hoare (λ c, I c ∧ childless c id) (QuarantineRun now id t reason) (λ _, I).
Proof.
  apply (hoare_bind _ _ _ (λ _, I)).
  - eapply hoare_weaken; [apply (update_run_sound id _ (λ c, childless c id))|done|by intros []]; try done.
    intros c c' Hr. by apply childless_runs.
  - intros found. case_match; [apply keeps_fail|apply keeps_ret].
Qed.

Lemma note_sound id f :
  same_place f → (∀ r, run_Deleted (f r) = run_Deleted r) → keeps I (update_run id f ;; mret ()).
Proof.
  intros Hf Hd. apply (hoare_bind _ _ _ (λ _, I)); [|intros ?; apply keeps_ret].
  eapply hoare_weaken; [apply (update_run_sound id f (λ _, True))| |by intros []]; try done.
  - intros r. by rewrite Hd.
  - intros c _ (r & _ & Hlive & Hdel). rewrite Hd in Hdel. congruence.
Qed.

Lemma NoteRunErased_sound id reason t : keeps I (NoteRunErased id reason t).
Proof. by apply note_sound. Qed.

Lemma ClearRunPurge_sound id : keeps I (ClearRunPurge id).
Proof. by apply note_sound. Qed.
End Sound.

(** ** The operations of the engine *)
Section Engine.
Context (seen : list BackupRun).
Local Abbreviation I := (sound_catalog seen).

Lemma dependents_sound run :
  hoare (λ c, I c ∧ once_read c run) (dependents run)
    (λ r c, I c ∧ match r with Ok ids => ids = [] → childless c (run_ID run) | Err _ => True end).
Proof.
  intros c [HI Hread]. destruct (dependents_run c run) as [Hc Hids]; [apply HI..|done|].
  split; [by apply (sound_runs seen c); [apply contents_runs|]|].
  destruct (dependents run c) as [c' [ids|e]]; cbn in *; [|done]. intros ->.
  apply (childless_runs c); [by apply contents_runs|].
  intros r Hl Hne Hp. apply (not_elem_of_nil (run_ID r)), Hids. exists r. split; [done|].
  by apply dep_child.
Qed.

Lemma check_targets_reads run ps : leaves contents (check_targets run ps).
Proof.
  induction ps as [|p ps IH]; cbn; [apply leaves_ret|]. case_match; [done|].
  apply leaves_bind; [auto with backup|]. intros t. case_match; [apply leaves_fail|done].
Qed.

Lemma checkRunDeletionAccess_reads run : leaves contents (checkRunDeletionAccess run).
Proof.
  apply leaves_bind; [auto with backup|]. intros _. case_match; [apply leaves_ret|].
  apply leaves_bind; [auto with backup|]. intros t. case_match; [apply leaves_fail|].
  apply leaves_bind; [auto with backup|]. intros ps. apply check_targets_reads.
Qed.

Lemma UpdateBackupCopy_runs now p : leaves ca_runs (UpdateBackupCopy now p).
Proof. by apply UpdateBackupCopy_leaves. Qed.

Lemma DeletePrefix_runs t prefix : leaves ca_runs (DeletePrefix t prefix).
Proof. intros c. unfold DeletePrefix. by destruct (ca_deletions c) as [|[]]. Qed.

Lemma purge_copy_runs now p : leaves ca_runs (purge_copy now p).
Proof.
  unfold purge_copy. case_match; [apply leaves_ret|].
  apply leaves_bind.
  { repeat case_match; try apply leaves_ret.
    apply leaves_bind; [apply leaves_try, UpdateBackupCopy_runs|intros ?; apply leaves_fail]. }
  intros _. apply leaves_bind; [apply reads_runs; auto with backup|]. intros t.
  apply leaves_bind; [apply reads_runs; auto with backup|]. intros _.
  apply leaves_bind; [apply leaves_try, DeletePrefix_runs|]. intros [u|e]; [apply UpdateBackupCopy_runs|].
  apply leaves_bind; [|intros _; apply leaves_fail]. case_match; [|apply leaves_ret].
  apply leaves_bind; [apply leaves_try, UpdateBackupCopy_runs|intros ?; apply leaves_ret].
Qed.

Lemma leaves_for_each {A V} (v : Catalog → V) (f : A → CM ()) l :
  (∀ a, leaves v (f a)) → leaves v (for_each f l).
Proof.
  intros Hf. induction l as [|a l IH]; cbn; [apply leaves_ret|]. apply leaves_bind; [apply Hf|done].
Qed.

Lemma keeps_both (id : string) {A} (m : CM A) :
  leaves ca_runs m → keeps (λ c, I c ∧ childless c id) m.
Proof.
  apply keeps_leaves. intros c c' Hr [HI Hc].
  split; [by apply (sound_runs seen c)|by apply (childless_runs c)].
Qed.

Lemma hoare_keeps {A B} (P : Catalog → Prop) (m : CM A) (f : A → CM B) Q :
  keeps P m → (∀ c e, P c → Q (Err e) c) → (∀ a, hoare P (f a) Q) → hoare P (m ≫= f) Q.
Proof.
  intros Hm He Hf. apply (hoare_bind _ _ _ (λ _, P)); [|done].
  intros c Hc. specialize (Hm c Hc). destruct (m c) as [c' [a|e]]; cbn in *; [done|by apply He].
Qed.

Lemma purgeRunObjects_sound now run :
  hoare (λ c, I c ∧ once_read c run) (purgeRunObjects now run) (λ _, I).
Proof.
  unfold purgeRunObjects.
  apply (hoare_bind _ _ _ (λ ids c, I c ∧ (ids = [] → childless c (run_ID run)))).
  { eapply hoare_weaken; [apply dependents_sound|done|]. by intros [] c []. }
  intros deps. case_bool_decide as Hd; cbn [negb]; [|by intros c []].
  apply (hoare_weaken _ (λ c, I c ∧ childless c (run_ID run)) _ _ (λ _, I)); [|intros c []; auto|done].
  case_match; [apply MarkRunDeleted_sound|]. case_match; [apply MarkRunDeleted_sound|].
  apply hoare_keeps; [apply keeps_both, reads_runs; auto with backup|by intros c e []|].
  intros copies. case_match; [by intros c []|].
  apply hoare_keeps; [|by intros c e []|intros _; apply MarkRunDeleted_sound].
  apply keeps_both, leaves_for_each. intros p. apply purge_copy_runs.
Qed.

Lemma purgeRunData_sound now run :
  hoare (λ c, I c ∧ once_read c run) (purgeRunData now run) (λ _, I).
Proof.
  apply hoare_keeps; [|by intros c e []|intros _; apply purgeRunObjects_sound].
  apply keeps_leaves; [|apply reads_runs, checkRunDeletionAccess_reads].
  intros c c' Hr [HI Hread]. split; [by apply (sound_runs seen c)|].
  unfold once_read in *. by rewrite Hr.
Qed.

Lemma GetBackupRun_once id :
  hoare I (GetBackupRun id) (λ r c, I c ∧ match r with Ok run => once_read c run | Err _ => True end).
Proof.
  intros c HI. pose proof (GetBackupRun_reads id c) as Hreads.
  destruct (GetBackupRun id c) as [c' [r|e]] eqn:Hget; cbn in *.
  - apply GetBackupRun_ok in Hget as [Hr Hc]. split.
    + by apply (sound_runs seen c); [apply contents_runs|].
    + exists r. split; [|done]. rewrite (contents_runs _ _ Hc). by rewrite (sc_keyed _ _ HI _ _ Hr).
  - split; [|done]. by apply (sound_runs seen c); [apply contents_runs|].
Qed.

Context `{Config}.

Lemma DeleteRunData_sound now id reason : keeps I (DeleteRunData now id reason).
Proof.
  unfold DeleteRunData. apply (hoare_bind _ _ _ (λ run c, (I c ∧ once_read c run) ∧ ca_runs c !! id = Some run)).
  { intros c HI. pose proof (GetBackupRun_once id c HI) as Hr.
    destruct (GetBackupRun id c) as [c' [r|e]] eqn:Hget; cbn in *; [|by destruct Hr].
    split; [done|]. apply GetBackupRun_ok in Hget as [Hr' Hc]. by rewrite (contents_runs _ _ Hc). }
  intros run. apply (hoare_weaken _ (λ c, (I c ∧ once_read c run) ∧ run_ID run = id) _ _ (λ _, I)); [| |done].
  2:{ intros c [[HI Hr] Hid]. split; [done|]. by apply (sc_keyed _ _ HI). }
  intros c [[HI Hread] <-]. revert c HI Hread.
  cut (hoare (λ c, I c ∧ once_read c run)
    (if run_Deleted run then mret () else checkRunDeletionAccess run ;;
      if 0 <? PurgeDelay then deps ← dependents run ;
        if negb (bool_decide (deps = [])) then fail (HasDependents (run_ID run) deps)
        else QuarantineRun now (run_ID run) (now + PurgeDelay) reason
      else purgeRunData now run ;; NoteRunErased (run_ID run) reason now) (λ _, I)).
  { intros Hh c HI Hread. by apply Hh. }
  case_match; [by intros c []|].
  apply hoare_keeps; [|by intros c e []|].
  { apply keeps_leaves; [|apply reads_runs, checkRunDeletionAccess_reads].
    intros c c' Hr [HI Hread]. split; [by apply (sound_runs seen c)|].
    unfold once_read in *. by rewrite Hr. }
  intros _. case_match.
  - apply (hoare_bind _ _ _ (λ ids c, I c ∧ (ids = [] → childless c (run_ID run)))).
    { eapply hoare_weaken; [apply dependents_sound|done|]. by intros [] c []. }
    intros deps. case_bool_decide as Hd; cbn [negb]; [|by intros c []].
    eapply (hoare_weaken _ (λ c, I c ∧ childless c (run_ID run)) _ _ (λ _, I));
      [apply QuarantineRun_sound|intros c []; auto|done].
  - apply (hoare_bind _ _ _ (λ _, I)); [|intros _; apply NoteRunErased_sound].
    eapply hoare_weaken; [apply purgeRunData_sound|done|by intros []].
Qed.

Lemma PurgeRunData_sound now id reason : keeps I (PurgeRunData now id reason).
Proof.
  unfold PurgeRunData. apply (hoare_bind _ _ _ (λ run c, I c ∧ once_read c run)).
  { eapply hoare_weaken; [apply GetBackupRun_once|done|]. by intros [] c []. }
  intros run. apply (hoare_bind _ _ _ (λ _, I)); [|intros _; apply NoteRunErased_sound].
  eapply hoare_weaken; [apply purgeRunData_sound|done|by intros []].
Qed.

Lemma purge_due_sound now run : run ∈ seen → keeps I (purge_due now run).
Proof.
  intros Hrun. apply (hoare_bind _ _ _ (λ _, I)).
  - apply hoare_try. eapply hoare_weaken; [apply purgeRunData_sound| |by intros []].
    intros c HI. split; [done|]. by apply (sc_seen _ _ HI).
  - intros [|]; [|apply keeps_ret]. apply keeps_bind; [apply keeps_try, ClearRunPurge_sound|].
    intros ?. apply keeps_ret.
Qed.

Lemma delete_each_sound now l : ∀ n first, keeps I (delete_each now l n first).
Proof.
  induction l as [|[id reason] l IH]; intros n first; cbn; [apply keeps_ret|].
  apply keeps_bind; [apply keeps_try, DeleteRunData_sound|]. intros [|]; apply IH.
Qed.

Lemma PruneExpired_sound now : keeps I (PruneExpired now).
Proof.
  apply keeps_bind.
  - apply keeps_leaves; [apply sound_runs|]. apply reads_runs. auto with backup.
  - intros rs. apply keeps_bind; [apply delete_each_sound|]. intros ?. apply keeps_ret.
Qed.

Lemma applyRetention_sound digest text fuel now vm srv vmid tgt policy dry token :
  keeps I (applyRetention digest text fuel now vm srv vmid tgt policy dry token).
Proof.
  assert (∀ A (m : CM A), leaves contents m → keeps I m) as Hread.
  { intros A m Hm. apply keeps_leaves; [apply sound_runs|by apply reads_runs]. }
  unfold applyRetention. apply keeps_bind; [apply keeps_lift|]. intros _.
  apply keeps_bind; [apply Hread; auto with backup|]. intros t.
  destruct (tgt_ReadOnly t && negb dry); [apply keeps_fail|].
  apply keeps_bind; [apply Hread; auto with backup|]. intros rs. cbv zeta.
  apply keeps_bind; [apply keeps_lift|]. intros d.
  match goal with |- context [BuildPlan _ _ _ ?n _ _ _] => generalize n; intros vmName end.
  destruct (_ && _); [apply keeps_ret|]. destruct dry; [apply keeps_ret|].
  apply keeps_bind; [apply delete_each_sound|]. intros ?. apply keeps_ret.
Qed.
End Engine.

(** ** The engine at work *)

(** A new backup: a full one, or one on a live parent and in its chain. *)
Definition extends_chain (c : Catalog) (r : BackupRun) : Prop :=
  ca_runs c !! run_ID r = None ∧ run_Deleted r = false
  ∧ (∀ s, ca_runs c !! run_ID s = Some s → run_ParentRunID s ≠ run_ID r)
  ∧ (run_ParentRunID r = ""%string ∧ ca_runs c !! ""%string = None
     ∨ ∃ p, live_in c p ∧ run_ParentRunID r = run_ID p ∧ run_ChainID r = run_ChainID p).

Section Steps.
Context `{Config} (digest : PlanPayload → string) (reason_text : option Reason → string).

(** [seen]: the runs of the batches the collector has read and may still
    process. *)
Inductive deletion_step : Catalog * list BackupRun → Catalog * list BackupRun → Prop :=
| ds_failures c seen fs ds : deletion_step (c, seen) (with_cat_faults fs (with_deletions ds c), seen)
| ds_backup c seen r :
    extends_chain c r → run_ID r ≠ run_ParentRunID r →
    deletion_step (c, seen) (with_runs (<[run_ID r := r]> (ca_runs c)) c, seen)
| ds_read_due c seen now n c' l :
    RunsDueForPurge now n c = (c', Ok l) → deletion_step (c, seen) (c', l ++ seen)
| ds_purge_due c seen now run :
    run ∈ seen → deletion_step (c, seen) ((purge_due now run c).1, seen)
| ds_delete c seen now id reason :
    deletion_step (c, seen) ((DeleteRunData now id reason c).1, seen)
| ds_purge c seen now id reason :
    deletion_step (c, seen) ((PurgeRunData now id reason c).1, seen)
| ds_prune c seen now : deletion_step (c, seen) ((PruneExpired now c).1, seen)
| ds_retention c seen fuel now vm srv vmid tgt policy dry token :
    deletion_step (c, seen)
      ((applyRetention digest reason_text fuel now vm srv vmid tgt policy dry token c).1, seen).

Lemma backup_sound seen c r :
  extends_chain c r → run_ID r ≠ run_ParentRunID r → sound_catalog seen c →
  sound_catalog seen (with_runs (<[run_ID r := r]> (ca_runs c)) c).
Proof.
  intros (Hnew & Hlive & Hchild & Hpar) Hself [H1 H2 H3 H4].
  assert (∀ s, live_in c s → live_in (with_runs (<[run_ID r := r]> (ca_runs c)) c) s) as Hkeep.
  { intros s [Hs Hsl]. split; [|done]. cbn. rewrite lookup_insert_ne; [done|]. congruence. }
  constructor.
  - intros id s. cbn. intros [[<- <-]|[_ Hs]]%lookup_insert_Some; [done|by apply H1].
  - intros s p. cbn. intros [[Hid <-]|[Hne Hs]]%lookup_insert_Some [[Hid' <-]|[Hne' Hp]]%lookup_insert_Some Hsp.
    + done.
    + destruct Hpar as [[Hp0 Hn]|(q & [Hq _] & Hq1 & ->)]; [congruence|]. f_equal. congruence.
    + exfalso. by apply (Hchild s).
    + by apply H2.
  - intros s [Hs Hsl] Hsp. cbn in Hs. apply lookup_insert_Some in Hs as [[_ <-]|[_ Hs]].
    + destruct Hpar as [[? _]|(q & Hq & -> & _)]; [done|]. exists q. split; [by apply Hkeep|done].
    + destruct (H3 s) as (q & Hq & ?); [done|done|]. exists q. split; [by apply Hkeep|done].
  - intros run Hrun. destruct (H4 run Hrun) as (q & Hq & ?). exists q. split; [|done]. cbn.
    rewrite lookup_insert_ne; [done|]. congruence.
Qed.

Lemma read_due_sound seen now n c c' l :
  sound_catalog seen c → RunsDueForPurge now n c = (c', Ok l) → sound_catalog (l ++ seen) c'.
Proof.
  intros HI Hrun. pose proof (leaves_run _ _ _ _ _ (RunsDueForPurge_reads now n) Hrun) as Hc.
  apply statement_ok in Hrun as (c1 & Hc1 & Hrun). rewrite get_run in Hrun. injection Hrun as _ <-.
  destruct (sound_runs seen c c' (contents_runs _ _ Hc) HI) as [H1 H2 H3 H4].
  constructor; try done. intros run [Hin|Hin]%elem_of_app; [|by apply H4].
  apply elem_of_take in Hin as (i & Hin & _). apply list_elem_of_lookup_2 in Hin.
  rewrite sort_stable_elem_of, list_elem_of_In, filter_In, <-list_elem_of_In in Hin.
  destruct Hin as [Hin _]. apply all_runs_elem in Hin.
  - exists run. split; [|done]. by rewrite (contents_runs _ _ Hc), <-(contents_runs _ _ Hc1).
  - eapply catalog_keyed_contents; [symmetry; exact Hc1|apply HI].
Qed.

Lemma step_sound s s' : deletion_step s s' → sound_catalog s.2 s.1 → sound_catalog s'.2 s'.1.
Proof.
  destruct 1; cbn; intros HI.
  - by apply (sound_runs _ c).
  - by apply backup_sound.
  - by eapply read_due_sound.
  - by apply purge_due_sound.
  - by apply DeleteRunData_sound.
  - by apply PurgeRunData_sound.
  - by apply PruneExpired_sound.
  - by apply applyRetention_sound.
Qed.

(** C2. Whatever sequence of deletions, retention passes, expiry passes, passes
    of the collector (on batches read at any earlier moment) and new backups
    runs, with any statement, connection or physical deletion failing, every
    live run keeps a live parent: no deletion takes the base of a live backup
    away. Bringing runs back from the quarantine is not among the steps. *)
Theorem deletions_keep_chains c c' seen :
  catalog_keyed c → one_chain c → chains_live c →
  rtc deletion_step (c, []) (c', seen) → chains_live c'.
Proof.
  intros Hk Hone Hlive Hsteps.
  assert (sound_catalog [] c) as HI.
  { constructor; try done. intros run Hrun. by apply elem_of_nil in Hrun. }
  assert (∀ s s', rtc deletion_step s s' → sound_catalog s.2 s.1 → sound_catalog s'.2 s'.1) as Hall.
  { intros s s' Hs. induction Hs; [done|]. eauto using step_sound. }
  apply (Hall _ _ Hsteps HI).
Qed.
End Steps.
