(* ===== verification/Purge.v ===== *)
(** What the physical deletion of a run removes, and in which order; and two
    ways the quarantine loses a backup. *)

From S2P Require Import Prelude StateM GoTime Model Format Retention Catalog Chain Prune PruneFacts.

(** The objects of a copy. *)
Definition object_of (p : BackupCopy) (o : string * string) : bool :=
  under (cp_StorageTargetID p) (cp_RepoPath p) o.

(** Every target is stored under its own identifier. *)
Definition targets_keyed (c : Catalog) : Prop :=
  ∀ id t, ca_targets c !! id = Some t → tgt_ID t = id.

Section Objects.
Definition storage (c : Catalog) : gmap (string * string) bytes * gmap string StorageTarget :=
  (ca_objects c, ca_targets c).

Lemma reads_storage {A} (m : CM A) : leaves contents m → leaves storage m.
Proof.
  intros Hm c. pose proof (f_equal ca_objects (Hm c)) as Ho. pose proof (f_equal ca_targets (Hm c)) as Ht.
  unfold storage. cbn in *. congruence.
Qed.

Lemma UpdateBackupCopy_storage now p : leaves storage (UpdateBackupCopy now p).
Proof. by apply UpdateBackupCopy_leaves. Qed.

Lemma update_run_storage id f : leaves storage (update_run id f).
Proof.
  apply leaves_bind; [apply reads_storage; auto with backup|]. intros _.
  apply leaves_bind; [apply leaves_get|]. intros c.
  apply leaves_bind; [by apply leaves_modify|]. intros _. apply leaves_ret.
Qed.

Lemma MarkRunDeleted_storage id : leaves storage (MarkRunDeleted id).
Proof. apply leaves_bind; [apply update_run_storage|]. intros _. apply leaves_ret. Qed.

(** What a step may do to the objects: remove some that satisfy [own], all of
    them if [all]. *)
Record removes (own : string * string → bool) (all : bool) (c c' : Catalog) : Prop := {
  rm_targets : ca_targets c' = ca_targets c;
  rm_shrinks : ∀ o, stored c' o → stored c o;
  rm_own : ∀ o, stored c o → own o = false → stored c' o;
  rm_all : all = true → ∀ o, own o = true → ¬ stored c' o
}.

Lemma removes_none own c c' : storage c' = storage c → removes own false c c'.
Proof. intros [= Ho Ht]. constructor; unfold stored; rewrite ?Ho; done. Qed.

Lemma removes_trans own c c1 c2 a b :
  removes own a c c1 → removes own b c1 c2 → removes own (a || b) c c2.
Proof.
  intros [T1 S1 O1 A1] [T2 S2 O2 A2]. constructor; [congruence|by auto|by auto|].
  intros [Ha|Hb]%orb_true_iff o Ho; [|by apply A2]. intros Hin. by apply (A1 Ha o Ho), S2.
Qed.

Lemma stored_filter c c' (P : (string * string) * bytes → Prop) `{∀ x, Decision (P x)} o :
  ca_objects c' = filter P (ca_objects c) → stored c' o ↔ ∃ d, ca_objects c !! o = Some d ∧ P (o, d).
Proof.
  intros Hf. unfold stored, is_Some. rewrite Hf. split; intros [d Hd]; exists d;
    [by apply map_lookup_filter_Some in Hd|by apply map_lookup_filter_Some].
Qed.

Lemma filtered_removes c c' own (P : (string * string) * bytes → Prop) `{∀ x, Decision (P x)} all :
  ca_targets c' = ca_targets c → ca_objects c' = filter P (ca_objects c) →
  (∀ o d, own o = false → P (o, d)) → (all = true → ∀ o d, own o = true → ¬ P (o, d)) →
  removes own all c c'.
Proof.
  intros Ht Hf Hout Hall. constructor; [done|..]; intros o; rewrite ?(stored_filter c c' P) by done.
  - intros (d & Hd & _). by exists d.
  - intros [d Hd] Hown. exists d. auto.
  - intros o' Hown (d & _ & HP)%(stored_filter c c' P); [|done]. by apply (Hall o o' d).
Qed.

Lemma DeletePrefix_removes t prefix c :
  removes (under (tgt_ID t) prefix) (is_ok (DeletePrefix t prefix c).2) c (DeletePrefix t prefix c).1.
Proof.
  unfold DeletePrefix. destruct (ca_deletions c) as [|[|removed] ds]; cbn [fst snd is_ok];
    (eapply filtered_removes; [done|done|cbn; by auto|cbn; try done; intros; congruence]).
Qed.

Lemma purge_copy_removes now p c :
  targets_keyed c →
  removes (object_of p) (is_ok (purge_copy now p c).2 && negb (bool_decide (cp_Status p = CopyDeleted)))
    c (purge_copy now p c).1.
Proof.
  intros Hk. unfold purge_copy. case_bool_decide as Hd; [by apply removes_none|]. cbn [negb].
  rewrite andb_true_r.
  assert (∀ (m : CM ()) (k : () → CM ()) c0, leaves storage m → storage c0 = storage c →
    (∀ c1, storage c1 = storage c → removes (object_of p) (is_ok (k () c1).2) c (k () c1).1) →
    removes (object_of p) (is_ok ((m ≫= k) c0).2) c ((m ≫= k) c0).1) as Hseq.
  { intros m k c0 Hm Hc0 Hkk. specialize (Hm c0). run_st. destruct (m c0) as [c1 [[]|e]]; cbn in *.
    - apply Hkk. congruence.
    - apply removes_none. congruence. }
  apply Hseq; [|done|].
  { repeat case_match; try apply leaves_ret.
    apply leaves_bind; [apply leaves_try, UpdateBackupCopy_storage|intros ?; apply leaves_fail]. }
  intros c1 Hc1. run_st.
  pose proof (reads_storage _ (GetStorageTarget_reads (cp_StorageTargetID p)) c1) as Hc2.
  destruct (GetStorageTarget (cp_StorageTargetID p) c1) as [c2 [t|e]] eqn:Hget; cbn in Hc2;
    [|apply removes_none; cbn; congruence].
  assert (tgt_ID t = cp_StorageTargetID p) as Ht.
  { apply statement_ok in Hget as (c3 & Hc3 & Hget). rewrite get_run in Hget. injection Hget as _ Hget.
    apply of_option_ok in Hget. apply Hk. rewrite (contents_targets _ _ Hc3) in Hget.
    injection Hc1 as _ Hc1. by rewrite <-Hc1. }
  pose proof (reads_storage _ (Open_reads t) c2) as Hc3.
  destruct (Open t c2) as [c3 [[]|e]]; cbn in Hc3; [|apply removes_none; cbn; congruence].
  pose proof (DeletePrefix_removes t (cp_RepoPath p) c3) as Hrem. rewrite Ht in Hrem.
  fold (object_of p) in Hrem.
  assert (removes (object_of p) false c c3) as H03 by (apply removes_none; congruence).
  destruct (DeletePrefix t (cp_RepoPath p) c3) as [c4 [[]|e]]; cbn in Hrem.
  - pose proof (UpdateBackupCopy_storage now (set_copy CopyDeleted (cp_LockedUntil p) (Some now) p) c4) as Hu.
    pose proof (removes_trans _ _ _ _ _ _ (removes_trans _ _ _ _ _ _ H03 Hrem)
      (removes_none _ _ _ Hu)) as Hall. cbn in Hall.
    destruct (UpdateBackupCopy _ _ c4) as [c5 [[]|e]]; cbn in *; [done|].
    by destruct Hall; constructor.
  - assert (∀ c5, storage c5 = storage c4 → removes (object_of p) false c c5) as Hfin.
    { intros c5 Hc5. by apply (removes_trans _ _ _ _ _ _ (removes_trans _ _ _ _ _ _ H03 Hrem)
        (removes_none _ _ _ Hc5)). }
    destruct (tgt_ObjectLockEnabled t); [|by apply Hfin].
    pose proof (UpdateBackupCopy_storage now (set_copy CopyLocked
      (Some (default (now + tgt_ObjectLockDays t * Day) (cp_LockedUntil p))) (cp_EndedAt p) p) c4) as Hu.
    destruct (UpdateBackupCopy _ _ c4) as [c5 r]; cbn in *. by apply Hfin.
Qed.

(** The loop over the copies, up to the first that fails. *)
Lemma purge_list_removes now l : ∀ c c' r,
  targets_keyed c → for_each (purge_copy now) l c = (c', r) →
  ca_targets c' = ca_targets c ∧ (∀ o, stored c' o → stored c o)
  ∧ (∀ o, stored c o → (∀ p, p ∈ l → object_of p o = false) → stored c' o)
  ∧ (is_ok r = true → ∀ p o, p ∈ l → cp_Status p ≠ CopyDeleted → object_of p o = true →
       ¬ stored c' o).
Proof.
  induction l as [|p l IH]; intros c c' r Hk Hrun; cbn [for_each] in Hrun.
  { injection Hrun as <- <-. split_and!; try done. intros _ p o Hp. by apply elem_of_nil in Hp. }
  pose proof (purge_copy_removes now p c Hk) as [T S O A]. revert Hrun. run_st.
  destruct (purge_copy now p c) as [c1 [[]|e]]; cbn in *.
  - intros Hrun. destruct (IH c1 c' r) as (T' & S' & O' & A'); [by unfold targets_keyed; rewrite T|done|].
    split_and!; [congruence|by auto| |].
    + intros o Ho Hown. apply O'; [apply O; [done|apply Hown; left]|]. intros q Hq. apply Hown. by right.
    + intros Hok q o [->|Hq]%elem_of_cons Hst Hown Hin; [|by apply (A' Hok q o)].
      apply (A (proj2 (negb_true_iff _) (bool_decide_eq_false_2 _ Hst)) o Hown). by apply S'.
  - intros [= <- <-]. split_and!; [done|done| |done].
    intros o Ho Hown. apply O; [done|apply Hown; left].
Qed.
End Objects.

Section Order.
Definition primary (p : BackupCopy) : bool := bool_decide (cp_Role p = CopyPrimary).

Lemma copies_sorted l : StronglySorted (not_after deleted_before) (sort_stable deleted_before l).
Proof.
  apply sort_stable_sorted.
  - intros x y. unfold deleted_before. rewrite andb_true_iff, negb_true_iff. intros [-> ->]. done.
  - intros x y z. unfold not_after, deleted_before.
    destruct (bool_decide (cp_Role x = CopyPrimary)), (bool_decide (cp_Role y = CopyPrimary)),
      (bool_decide (cp_Role z = CopyPrimary)); done.
Qed.

Lemma replicas_gone_first now l o : ∀ c c' r,
  targets_keyed c → StronglySorted (not_after deleted_before) l →
  (∀ q, q ∈ l → primary q = false → object_of q o = false) →
  for_each (purge_copy now) l c = (c', r) →
  stored c o → ¬ stored c' o →
  ∀ q o', q ∈ l → primary q = false → cp_Status q ≠ CopyDeleted → object_of q o' = true →
  ¬ stored c' o'.
Proof.
  induction l as [|p l IH]; intros c c' r Hk Hsort Hdis Hrun Ho Hgone q o' Hq; [by apply elem_of_nil in Hq|].
  apply StronglySorted_inv in Hsort as [Hsort Hfirst].
  destruct (primary p) eqn:Hp.
  - intros Hqp. exfalso. apply elem_of_cons in Hq as [->|Hq]; [congruence|].
    rewrite Forall_forall in Hfirst. specialize (Hfirst q Hq). unfold not_after, deleted_before in Hfirst.
    unfold primary in *. by rewrite Hqp, Hp in Hfirst.
  - cbn [for_each] in Hrun. pose proof (purge_copy_removes now p c Hk) as [T S O A]. revert Hrun. run_st.
    destruct (purge_copy now p c) as [c1 [[]|e]]; cbn in *.
    + intros Hrun. pose proof (purge_list_removes now l c1 c' r) as Hrest.
      destruct Hrest as (_ & S' & _ & _); [by unfold targets_keyed; rewrite T|done|].
      intros Hqp Hst Hown. apply elem_of_cons in Hq as [->|Hq].
      * intros Hin. apply (A (proj2 (negb_true_iff _) (bool_decide_eq_false_2 _ Hst)) o' Hown). by apply S'.
      * apply (IH c1 c' r) with (q := q); try done.
        -- unfold targets_keyed. by rewrite T.
        -- intros x Hx. apply Hdis. by right.
        -- apply O; [done|]. apply Hdis; [by left|done].
    + intros [= <- <-]. exfalso. apply Hgone, O; [done|]. apply Hdis; [by left|done].
Qed.

Lemma dependents_reads run : leaves contents (dependents run).
Proof.
  apply leaves_bind; [auto with backup|]. intros chain. apply leaves_lift.
Qed.

Lemma contents_storage c c' : contents c = contents c' → storage c = storage c'.
Proof.
  intros H. unfold storage. pose proof (f_equal ca_objects H) as Ho. pose proof (f_equal ca_targets H) as Ht.
  cbn in *. congruence.
Qed.

Lemma ListBackupCopies_ok run c c' l :
  ListBackupCopies run c = (c', Ok l) →
  contents c' = contents c ∧ ∀ p, p ∈ l ↔ p ∈ ca_copies c ∧ cp_RunID p = run.
Proof.
  intros Hrun. split; [eapply leaves_run; [apply ListBackupCopies_reads|exact Hrun]|].
  apply statement_ok in Hrun as (c1 & Hc & Hrun). rewrite get_run in Hrun. injection Hrun as _ <-.
  intros p. rewrite sort_stable_elem_of, list_elem_of_In, filter_In, <-list_elem_of_In.
  by rewrite bool_decide_eq_true, (contents_copies _ _ Hc).
Qed.

(** What a purge does to the objects is what the loop over the copies does. *)
Lemma purge_run_objects now run c c' r :
  purgeRunData now run c = (c', r) →
  storage c' = storage c ∨
  ∃ c1 c2 l u, storage c1 = storage c ∧ storage c' = storage c2
    ∧ for_each (purge_copy now) (sort_stable deleted_before l) c1 = (c2, u)
    ∧ ∀ p, p ∈ l ↔ p ∈ ca_copies c ∧ cp_RunID p = run_ID run.
Proof.
  unfold purgeRunData, purgeRunObjects. run_st.
  pose proof (checkRunDeletionAccess_reads run c) as Hc1.
  destruct (checkRunDeletionAccess run c) as [c1 [[]|e]]; cbn in Hc1;
    [|intros [= <- <-]; left; by apply contents_storage].
  pose proof (dependents_reads run c1) as Hc2. rewrite Hc1 in Hc2.
  destruct (dependents run c1) as [c2 [deps|e]]; cbn in Hc2;
    [|intros [= <- <-]; left; by apply contents_storage].
  assert (∀ c3 r3, MarkRunDeleted (run_ID run) c2 = (c3, r3) → storage c3 = storage c) as Hmark.
  { intros c3 r3 Hm. rewrite <-(contents_storage _ _ Hc2).
    by apply (leaves_run _ _ _ _ _ (MarkRunDeleted_storage _) Hm). }
  destruct (negb _); [intros [= <- <-]; left; by apply contents_storage|].
  case_match; [intros Hm; left; by eapply Hmark|]. case_match; [intros Hm; left; by eapply Hmark|].
  destruct (ListBackupCopies (run_ID run) c2) as [c3 [l|e]] eqn:Hl.
  2:{ intros [= <- <-]. left. apply contents_storage. rewrite <-Hc2.
      by apply (leaves_run _ _ _ _ _ (ListBackupCopies_reads _) Hl). }
  apply ListBackupCopies_ok in Hl as [Hc3 Hin]. rewrite Hc2 in Hc3.
  setoid_rewrite (contents_copies _ _ Hc2) in Hin.
  destruct (List.find _ l); [intros [= <- <-]; left; by apply contents_storage|].
  destruct (for_each _ _ c3) as [c4 u] eqn:Hfor. intros Hrun. right. exists c3, c4, l, u.
  split_and!; [by apply contents_storage| |done|done].
  destruct u as [[]|e]; [|by injection Hrun as <- _].
  by apply (leaves_run _ _ _ _ _ (MarkRunDeleted_storage _) Hrun).
Qed.

(** The physical deletion of a run removes objects of that run's copies
    only, and the primary copy last: when any object of the primary is gone,
    every object of every replica that was not deleted before is gone too, so a
    refusing repository always leaves a whole copy to read. *)
Theorem purge_order now run c c' r :
  targets_keyed c →
  (∀ p q, p ∈ ca_copies c → q ∈ ca_copies c → cp_RunID p = run_ID run → cp_RunID q = run_ID run →
     cp_Role p = CopyPrimary → cp_Role q ≠ CopyPrimary → cp_StorageTargetID p ≠ cp_StorageTargetID q) →
  purgeRunData now run c = (c', r) →
  (∀ o, stored c o → (∀ p, p ∈ ca_copies c → cp_RunID p = run_ID run → object_of p o = false) →
     stored c' o)
  ∧ ∀ p o, p ∈ ca_copies c → cp_RunID p = run_ID run → cp_Role p = CopyPrimary → object_of p o = true →
    stored c o → ¬ stored c' o →
    ∀ q o', q ∈ ca_copies c → cp_RunID q = run_ID run → cp_Role q ≠ CopyPrimary →
      cp_Status q ≠ CopyDeleted → object_of q o' = true → ¬ stored c' o'.
Proof.
  intros Hk Hdis Hrun. apply purge_run_objects in Hrun as [[= Ho _]|(c1 & c2 & l & u & [= Ho1 Ht1] & [= Ho2 _] & Hfor & Hl)].
  { unfold stored. rewrite Ho. by split. }
  unfold stored. rewrite Ho2, <-Ho1. fold (stored c2) (stored c1).
  assert (targets_keyed c1) as Hk1 by (unfold targets_keyed; by rewrite Ht1).
  assert (∀ p, p ∈ sort_stable deleted_before l ↔ p ∈ ca_copies c ∧ cp_RunID p = run_ID run) as Hin.
  { intros p. by rewrite sort_stable_elem_of. }
  split.
  - intros o Hoin Hown. destruct (purge_list_removes now _ _ _ _ Hk1 Hfor) as (_ & _ & Hconf & _).
    apply Hconf; [done|]. intros p [Hp Hid]%Hin. by apply Hown.
  - intros p o Hp Hpid Hrole Hpo Hoin Hgone q o' Hq Hqid Hqrole Hst Hqo.
    apply (replicas_gone_first now (sort_stable deleted_before l) o c1 c2 u) with (q := q); try done.
    + apply copies_sorted.
    + intros x [Hx Hxid]%Hin Hxr. unfold primary in Hxr. bprop.
      assert (cp_StorageTargetID p ≠ cp_StorageTargetID x) as Hne by by apply Hdis.
      unfold object_of, under in *. bprop. apply andb_false_iff. left. apply bool_decide_eq_false. congruence.
    + by apply Hin.
    + unfold primary. by apply bool_decide_eq_false.
Qed.
End Order.

(** * What the quarantine does not protect *)
Section Quarantine.
(** A run can be brought back from the quarantine without its base: the
    restore looks only at the run itself, so a live backup whose parent is
    deleted results, and it cannot be read. *)
Theorem restore_ignores_parent c r p t :
  ca_faults c = [] → ca_runs c !! run_ID r = Some r → run_PurgeAfter r = Some t →
  ca_runs c !! run_ParentRunID r = Some p → run_ID p = run_ParentRunID r → run_ID p ≠ run_ID r →
  run_ParentRunID r ≠ ""%string → run_Deleted p = true →
  let c' := (RestoreRunFromQuarantine (run_ID r) c).1 in
  (∃ r', live_in c' r' ∧ run_ID r' = run_ID r) ∧ ¬ chains_live c'.
Proof.
  intros Hf Hr Ht Hp Hpid Hne Hpar Hdel c'.
  set (r' := set_deletion false None "" None r).
  assert (c' = with_runs (<[run_ID r := r']> (ca_runs c)) c) as Hc'.
  { unfold c', RestoreRunFromQuarantine, statement, attempt. run_st. rewrite Hf. cbn. rewrite Hr.
    rewrite bool_decide_false by congruence. cbn. rewrite Hf. done. }
  assert (live_in c' r') as Hlive.
  { split; [|done]. rewrite Hc'. cbn. by rewrite lookup_insert_eq. }
  split; [by exists r'|]. intros Hchains.
  destruct (Hchains r' Hlive) as (q & [Hq Hql] & Hqid); [done|].
  rewrite Hc' in Hq. cbn in Hq, Hqid. rewrite Hqid, lookup_insert_ne in Hq by congruence.
  congruence.
Qed.
End Quarantine.
