(* ===== verification/CatalogSamples.v ===== *)
(** A small catalogue, at which the theorems on chains and deletion apply: a
    full backup [f1] and an increment [i1] on it, each with a primary copy in
    [t1] and a replica in [t2]. *)

From S2P Require Import Prelude StateM GoTime Model Layout Grid Format Retention Catalog Chain Prune PruneFacts Purge.

Definition sample_target (id : string) : StorageTarget :=
  mkStorageTarget id id StorageLocal true false "/backups" "" "" "" "" "" "" "" "" false 0 "" "" 0
    "" "" "" "" "".

Definition sample_disk (run : string) : BackupDisk :=
  mkBackupDisk "disk" "vda" 4096 (run +:+ "/disk.manifest") (run +:+ "/disk.data") 100 RunSucceeded.

Definition sample_backup (id : string) (t : BackupType) (parent : string) : BackupRun :=
  mkBackupRun id "" "job" "srv" "vm" "vm" t RunSucceeded parent "f1" 0 "t1" (id +:+ "/") "" "" "" ""
    LegacyNone 1 0 100 false "" "" false None "" None None None None 0 [sample_disk id].

Definition sample_copy (id run target : string) (role : BackupCopyRole) : BackupCopy :=
  mkBackupCopy id run target role true CopySucceeded (run +:+ "/") "" "" 3 3 100 100 0 "" None "" None
    None None None 0 0.

Definition f1 : BackupRun := sample_backup "f1" BackupFull "".
Definition i1 : BackupRun := sample_backup "i1" BackupIncremental "f1".

Definition sample_catalog : Catalog :=
  mkCatalog [] [] [] {["f1"%string := f1; "i1"%string := i1]}
    [sample_copy "c1" "f1" "t1" CopyPrimary; sample_copy "c2" "f1" "t2" CopyReplica;
     sample_copy "c3" "i1" "t1" CopyPrimary; sample_copy "c4" "i1" "t2" CopyReplica]
    {["t1"%string := sample_target "t1"; "t2"%string := sample_target "t2"]} []
    {[("t1", "f1/disk.data") := [Byte.x01]; ("t2", "f1/disk.data") := [Byte.x01];
      ("t1", "i1/disk.data") := [Byte.x02]; ("t2", "i1/disk.data") := [Byte.x02]]}%string ∅ ∅ [].

Lemma sample_run_cases id r :
  ca_runs sample_catalog !! id = Some r → (id = "f1"%string ∧ r = f1) ∨ (id = "i1"%string ∧ r = i1).
Proof.
  cbn [sample_catalog ca_runs]. rewrite lookup_insert_Some, lookup_singleton_Some. naive_solver.
Qed.

Lemma sample_keyed : catalog_keyed sample_catalog.
Proof. intros id r [[-> ->]|[-> ->]]%sample_run_cases; done. Qed.

Lemma sample_one_chain : one_chain sample_catalog.
Proof.
  intros r p Hr Hp _. apply sample_run_cases in Hr, Hp.
  destruct Hr as [[_ ->]|[_ ->]], Hp as [[_ ->]|[_ ->]]; done.
Qed.

Lemma sample_chains_live : chains_live sample_catalog.
Proof.
  intros r [Hr _] Hp. apply sample_run_cases in Hr as [[_ ->]|[_ ->]]; [done|].
  exists f1. done.
Qed.

Lemma sample_targets_keyed : targets_keyed sample_catalog.
Proof.
  intros id t. cbn [sample_catalog ca_targets]. rewrite lookup_insert_Some, lookup_singleton_Some.
  naive_solver.
Qed.

(** ** Reading the chain *)
Definition document (run : string) (t : BackupType) : DiskManifest :=
  mkDiskManifest FormatName FormatVersion run t "disk" 4096 4096 "none" false
    (run +:+ "/disk.data") "" 0 0 [].

#[export] Instance sample_documents : Documents := {
  loadDiskManifest := λ _ key,
    if bool_decide (key = "f1/disk.manifest"%string) then Some (document "f1" BackupFull)
    else if bool_decide (key = "i1/disk.manifest"%string) then Some (document "i1" BackupIncremental)
    else None;
  ReadRunManifest := λ _ _, None
}.

Definition loaded_set : ChainSet :=
  match (LoadChainCopy 3 "i1" "" sample_catalog).2 with
  | Ok set => set
  | Err _ => mkChainSet f1 [] (λ _, []) [] None (sample_target "t1") (sample_copy "c1" "f1" "t1" CopyPrimary)
  end.

Example loaded_runs : run_ID <$> cs_Runs loaded_set = ["f1"; "i1"]%string.
Proof. vm_compute. reflexivity. Qed.

Example loaded_manifests :
  dm_RunID <$> cs_Manifests loaded_set "disk" = ["f1"; "i1"]%string ∧ cs_DiskOrder loaded_set = ["disk"%string].
Proof. vm_compute. split; reflexivity. Qed.

Lemma chain_sound_witness :
  linked (cs_Runs loaded_set) ∧ ∃ root, head (cs_Runs loaded_set) = Some root
    ∧ run_ParentRunID root = ""%string ∧ (run_Type root = BackupFull ∨ run_Type root = BackupSnapshot).
Proof.
  destruct (chain_sound 3 "i1" "" sample_catalog sample_catalog loaded_set) as (_ & _ & Hl & _ & _ & Hr & _).
  - exact sample_keyed.
  - reflexivity.
  - split; [exact Hl|exact Hr].
Defined.

(** Two runs that name each other as parents. *)
Definition cyclic_catalog : Catalog :=
  with_runs {["f1"%string := sample_backup "f1" BackupIncremental "i1"; "i1"%string := i1]} sample_catalog.

Lemma cyclic_keyed : catalog_keyed cyclic_catalog.
Proof.
  intros id r. cbn [cyclic_catalog with_runs ca_runs]. rewrite lookup_insert_Some, lookup_singleton_Some.
  naive_solver.
Qed.

Lemma chain_terminates_witness :
  (loadChainCopy 3 "i1" "" false false cyclic_catalog).2 ≠ Err OutOfFuel.
Proof.
  apply (chain_terminates 3 "i1" "" false false cyclic_catalog).
  - exact cyclic_keyed.
  - vm_compute. lia.
Defined.

(** ** Deletion *)
#[export] Instance sample_config : Config := { PurgeDelay := 3 * Day }.

Lemma dependents_exact_witness :
  match (dependents f1 sample_catalog).2 with
  | Ok ids => ∀ id, id ∈ ids ↔ ∃ r, run_ID r = id ∧ depends_on sample_catalog "f1" r
  | Err e => e = CatDB
  end.
Proof.
  apply (dependents_exact sample_catalog f1).
  - exact sample_keyed.
  - exact sample_one_chain.
  - exists f1. split; reflexivity.
Defined.

Example f1_refused :
  (DeleteRunData 0 "f1" "manual" sample_catalog).2 = Err (HasDependents "f1" ["i1"%string]).
Proof. vm_compute. reflexivity. Qed.

Definition after_i1 : Catalog := (DeleteRunData 0 "i1" "manual" sample_catalog).1.
Definition after_both : Catalog := (DeleteRunData 5 "f1" "manual" after_i1).1.

Example both_quarantined :
  run_PurgeAfter <$> (ca_runs after_both !! "f1"%string) = Some (Some (5 + 3 * Day))
  ∧ run_Deleted <$> (ca_runs after_both !! "i1"%string) = Some true.
Proof. vm_compute. split; reflexivity. Qed.

Lemma deletions_keep_chains_witness : chains_live after_both.
Proof.
  apply (deletions_keep_chains (λ _, ""%string) (λ _, ""%string) sample_catalog after_both []).
  - exact sample_keyed.
  - exact sample_one_chain.
  - exact sample_chains_live.
  - eapply rtc_l; [apply (ds_delete _ _ sample_catalog [] 0 "i1" "manual")|].
    apply rtc_once. apply (ds_delete _ _ after_i1 [] 5 "f1" "manual").
Defined.

(** The replica in [t2] refuses its deletion. *)
Definition refusing_catalog : Catalog := with_deletions [FailsAfter []] sample_catalog.

Lemma purge_order_witness :
  (purgeRunData 10 i1 refusing_catalog).2 = Err (DeletionFailed "t2") ∧
  ∀ p o, p ∈ ca_copies refusing_catalog → cp_RunID p = "i1"%string → cp_Role p = CopyPrimary →
    object_of p o = true → stored refusing_catalog o →
    ¬ stored (purgeRunData 10 i1 refusing_catalog).1 o →
    ∀ q o', q ∈ ca_copies refusing_catalog → cp_RunID q = "i1"%string → cp_Role q ≠ CopyPrimary →
      cp_Status q ≠ CopyDeleted → object_of q o' = true →
      ¬ stored (purgeRunData 10 i1 refusing_catalog).1 o'.
Proof.
  split; [vm_compute; reflexivity|].
  refine (proj2 (purge_order 10 i1 refusing_catalog (purgeRunData 10 i1 refusing_catalog).1
    (purgeRunData 10 i1 refusing_catalog).2 _ _ _)).
  - exact sample_targets_keyed.
  - intros p q Hp Hq _ _ Hpr Hqr.
    assert (∀ x, x ∈ ca_copies refusing_catalog →
      (cp_Role x = CopyPrimary ∧ cp_StorageTargetID x = "t1"%string)
      ∨ (cp_Role x = CopyReplica ∧ cp_StorageTargetID x = "t2"%string)) as Hall.
    { apply Forall_forall. repeat (apply Forall_cons; split; [cbn; auto|]). apply Forall_nil. done. }
    destruct (Hall p Hp) as [[_ ->]|[? _]]; [|congruence].
    destruct (Hall q Hq) as [[? _]|[_ ->]]; congruence.
  - destruct (purgeRunData 10 i1 refusing_catalog); reflexivity.
Defined.

(** ** The quarantine *)

(** [i1] is in the quarantine; then [f1], on which nothing live depends any
    more, is erased at once. *)
Definition base_erased : Catalog := (PurgeRunData 10 "f1" "space" after_i1).1.

Definition i1_quarantined : BackupRun :=
  set_deletion true (Some (3 * Day)) "manual" (Some 0) i1.
Definition f1_erased : BackupRun := set_deletion true None "space" (Some 10) f1.

Lemma restore_ignores_parent_witness :
  let c' := (RestoreRunFromQuarantine "i1" base_erased).1 in
  (∃ r', live_in c' r' ∧ run_ID r' = "i1"%string) ∧ ¬ chains_live c'.
Proof.
  apply (restore_ignores_parent base_erased i1_quarantined f1_erased (3 * Day)).
  - vm_compute. reflexivity.
  - vm_compute. reflexivity.
  - vm_compute. reflexivity.
  - vm_compute. reflexivity.
  - reflexivity.
  - discriminate.
  - discriminate.
  - reflexivity.
Defined.

(** The collector reads its batch while [i1] is in it; the operator brings [i1]
    back; the collector goes on with the run as it was. *)
Definition restored_i1 : Catalog := (RestoreRunFromQuarantine "i1" after_i1).1.

(** The collector erases a backup that was brought back: the batch it
    works through is not looked up again, so a run restored after the batch was
    read is live, and its data are removed and it is marked deleted all the
    same. *)
Theorem collector_erases_restored :
  ∃ batch, (RunsDueForPurge (3 * Day) 50 after_i1).2 = Ok batch ∧ i1_quarantined ∈ batch
    ∧ (RestoreRunFromQuarantine "i1" after_i1).2 = Ok ()
    ∧ run_Deleted <$> (ca_runs restored_i1 !! "i1"%string) = Some false
    ∧ stored restored_i1 ("t1", "i1/disk.data")%string
    ∧ run_Deleted <$> (ca_runs (purge_due (3 * Day) i1_quarantined restored_i1).1 !! "i1"%string) = Some true
    ∧ (map_to_list (ca_objects (purge_due (3 * Day) i1_quarantined restored_i1).1)).*1
      ≡ₚ [("t1", "f1/disk.data"); ("t2", "f1/disk.data")]%string.
Proof.
  exists [i1_quarantined]. split_and!; try (vm_compute; reflexivity); try (by left).
  by exists [Byte.x02].
Qed.
