(* ===== verification/Scan.v ===== *)
(** A repository read without the database ([internal/backup/scan.go]): the runs
    found by listing it, the chain of a run, the base of the next increment, and
    the manifests of its disks. *)

From S2P Require Import Prelude StateM GoTime GoStr Model Layout Grid Format Retention Catalog Chain.
From S2P Require Import Prune PruneFacts Purge CatalogSamples.

Inductive ScanError :=
| RunUnknown (id : string) | ScanCycle (id : string) | ScanParentMissing (parent id : string)
| ScanRoot (id : string) (t : BackupType) | ScanManifest (key : string) | ScanNoManifest (disk : string)
| ScanFuel.

Record StoredRun := mkStoredRun { sr_Prefix : string; sr_Manifest : RunManifest }.

Definition sr_ID (r : StoredRun) : string := rm_RunID (sr_Manifest r).
Definition sr_Parent (r : StoredRun) : string := rm_ParentRunID (sr_Manifest r).

(** The decoding of a document and of the manifest of a disk: JSON, zstd and
    [DiskManifest.Validate]. *)
Class Decoding := {
  DecodeManifest : bytes → option RunManifest;
  decode_disk : bytes → option DiskManifest
}.

Section Scan.
Context `{Decoding}.

Definition read_run_manifest (objects : gmap string bytes) (key : string) : option RunManifest :=
  data ← objects !! key ;
  doc ← DecodeManifest data ;
  if negb (bool_decide (rm_Format doc = FormatName)) then None
  else if FormatVersion <? rm_Version doc then None
  else Some doc.

(** One object of the listing. *)
Definition scan_object (objects : gmap string bytes) (key : string) : option StoredRun :=
  if negb (HasSuffix key "/run.json") then None else
  doc ← read_run_manifest objects key ;
  Some (mkStoredRun (TrimSuffix key "run.json") doc).

Definition created_before (a b : StoredRun) : bool :=
  rm_CreatedAt (sr_Manifest a) <? rm_CreatedAt (sr_Manifest b).

Definition ScanRepository (objects : gmap string bytes) (prefix : string) : list StoredRun :=
  let prefix := if bool_decide (prefix = ""%string) then Root +:+ "/" else prefix in
  sort_stable created_before
    (omap (scan_object objects) (List.filter (String.prefix prefix) (map_to_list objects).*1)).

Definition loadManifest (objects : gmap string bytes) (key : string) : option DiskManifest :=
  data ← objects !! key ; decode_disk data.

(** Where the manifest of a disk is, when the document does not say. *)
Definition manifest_key (prefix : string) (d : RunManifestDisk) : string :=
  if bool_decide (rmd_ManifestKey d = ""%string) then prefix +:+ TrimPrefix (rmd_DataKey d) prefix
  else rmd_ManifestKey d.

(** The manifests of the disks the leaf has, root first. *)
Fixpoint load_stored (objects : gmap string bytes) (present : list string)
    (disks : list (string * RunManifestDisk)) (ms : string → list DiskManifest) :
    result ScanError (string → list DiskManifest) :=
  match disks with
  | [] => Ok ms
  | (prefix, d) :: disks =>
    if negb (bool_decide (rmd_DiskID d ∈ present)) then load_stored objects present disks ms else
    m ← of_option (ScanManifest (manifest_key prefix d)) (loadManifest objects (manifest_key prefix d)) ;
    load_stored objects present disks
      (λ id, if bool_decide (id = rmd_DiskID d) then ms id ++ [m] else ms id)
  end.

Definition LoadChainManifests (objects : gmap string bytes) (chain : list StoredRun) :
    option (result ScanError ((string → list DiskManifest) * list string)) :=
  leaf ← last chain ;
  let order := rmd_DiskID <$> rm_Disks (sr_Manifest leaf) in
  let disks := r ← chain ; (λ d, (sr_Prefix r, d)) <$> rm_Disks (sr_Manifest r) in
  Some (ms ← load_stored objects order disks (λ _, []) ;
        match List.find (λ id, bool_decide (ms id = [])) order with
        | Some id => Err (ScanNoManifest id)
        | None => Ok (ms, order)
        end).
End Scan.

(** ** Chains *)
Definition by_run (runs : list StoredRun) : gmap string StoredRun := fold_insert sr_ID id runs ∅.

(** The walk up from [cur]; the chain is root first at its end. *)
Fixpoint climb (fuel : nat) (byID : gmap string StoredRun) (seen : list string) (chain : list StoredRun)
    (cur : StoredRun) : result ScanError (list StoredRun) :=
  match fuel with
  | O => Err ScanFuel
  | S fuel =>
    if bool_decide (sr_ID cur ∈ seen) then Err (ScanCycle (sr_ID cur)) else
    if bool_decide (sr_Parent cur = ""%string) then Ok (cur :: chain) else
    match byID !! sr_Parent cur with
    | None => Err (ScanParentMissing (sr_Parent cur) (sr_ID cur))
    | Some parent => climb fuel byID (sr_ID cur :: seen) (cur :: chain) parent
    end
  end.

Definition base_type (t : BackupType) : bool := bool_decide (t = BackupFull) || bool_decide (t = BackupSnapshot).

Definition FindChain (runs : list StoredRun) (leafRunID : string) : result ScanError (list StoredRun) :=
  let byID := by_run runs in
  leaf ← of_option (RunUnknown leafRunID) (byID !! leafRunID) ;
  chain ← climb (S (length runs)) byID [] [] leaf ;
  match chain with
  | root :: _ => if base_type (rm_Type (sr_Manifest root)) then Ok chain
                 else Err (ScanRoot (sr_ID root) (rm_Type (sr_Manifest root)))
  | [] => Ok []
  end.

(** ** The base of the next increment *)
Definition may_base (runs : list StoredRun) (vmID : string) (onlyFull : bool) (r : StoredRun) : bool :=
  let m := sr_Manifest r in
  (bool_decide (rm_VMID m = vmID) || bool_decide (rm_VMName m = vmID))
  && negb (bool_decide (rm_ToCheckpointID m = ""%string))
  && negb (onlyFull && negb (bool_decide (rm_Type m = BackupFull)))
  && is_ok (FindChain runs (sr_ID r)).

Definition better (best : option StoredRun) (r : StoredRun) : option StoredRun :=
  match best with
  | Some b => if created_before b r then Some r else best
  | None => Some r
  end.

Definition LatestUsable (runs : list StoredRun) (vmID : string) (onlyFull : bool) : option StoredRun :=
  foldl (λ best r, if may_base runs vmID onlyFull r then better best r else best) None runs.

(** * The chain that is found is the chain there is *)

(** The way from the root of a run to the run, through the parents. *)
Inductive upto (byID : gmap string StoredRun) : StoredRun → list StoredRun → Prop :=
| upto_root r : sr_Parent r = ""%string → upto byID r [r]
| upto_step r p l : sr_Parent r ≠ ""%string → byID !! sr_Parent r = Some p → upto byID p l →
    upto byID r (l ++ [r]).

Section Climb.
Context (byID : gmap string StoredRun).
Hypothesis keyed : ∀ id r, byID !! id = Some r → sr_ID r = id.

Lemma upto_length r l : upto byID r l → (0 < length l)%nat.
Proof. destruct 1; rewrite ?length_app; cbn; lia. Qed.

Lemma upto_det r l l' : upto byID r l → upto byID r l' → l = l'.
Proof.
  intros Hl. revert l'. induction Hl as [r Hr|r p l Hr Hp Hl IH]; intros l' Hl';
    inversion Hl' as [? Hr'|? p' l2 Hr' Hp' Hl2]; subst; try done.
  assert (p' = p) as -> by congruence. by rewrite (IH l2).
Qed.

(** Every run on the way has its own, shorter way. *)
Lemma upto_elem r l s : upto byID r l → s ∈ l → s = r ∨ ∃ k, upto byID s k ∧ (length k < length l)%nat.
Proof.
  induction 1 as [r Hr|r p l Hr Hp Hl IH]; [intros ->%list_elem_of_singleton; by left|].
  intros [Hs| ->%list_elem_of_singleton]%elem_of_app; [|by left]. right. rewrite length_app. cbn.
  destruct (IH Hs) as [->|(k & Hk & Hlen)]; [exists l; split; [done|lia]|exists k; split; [done|lia]].
Qed.

Lemma upto_found r l : byID !! sr_ID r = Some r → upto byID r l → ∀ s, s ∈ l → byID !! sr_ID s = Some s.
Proof.
  intros Hr Hl. induction Hl as [r Hp|r p l Hp Hpl Hl IH]; intros s.
  - by intros ->%list_elem_of_singleton.
  - intros [Hs| ->%list_elem_of_singleton]%elem_of_app; [|done].
    apply IH; [|done]. by rewrite (keyed _ _ Hpl).
Qed.

Lemma upto_nodup r l : byID !! sr_ID r = Some r → upto byID r l → NoDup (sr_ID <$> l).
Proof using keyed.
  intros Hr Hl. induction Hl as [r Hp|r p l Hp Hpl Hl IH]; [apply NoDup_singleton|].
  assert (byID !! sr_ID p = Some p) as Hpp by by rewrite (keyed _ _ Hpl).
  rewrite fmap_app. apply NoDup_app. split_and!; [by apply IH| |apply NoDup_singleton].
  intros id Hin Heq. apply list_elem_of_singleton in Heq as ->. apply list_elem_of_fmap in Hin as (s & Hid & Hs).
  assert (s = r) as ->.
  { pose proof (upto_found p l Hpp Hl s Hs) as Hs'. rewrite <-Hid, Hr in Hs'. congruence. }
  assert (upto byID r (l ++ [r])) as Hfull by by eapply upto_step.
  destruct (upto_elem p l r Hl Hs) as [->|(k & Hk & Hlen)].
  - pose proof (upto_det _ _ _ Hl Hfull) as Hd. apply (f_equal length) in Hd. rewrite length_app in Hd. cbn in Hd. lia.
  - pose proof (upto_det _ _ _ Hk Hfull) as ->. rewrite length_app in Hlen. cbn in Hlen. lia.
Qed.

Lemma climb_ok fuel : ∀ seen chain cur out,
  climb fuel byID seen chain cur = Ok out → ∃ l, upto byID cur l ∧ out = l ++ chain.
Proof.
  induction fuel as [|fuel IH]; intros seen chain cur out; cbn; [done|].
  case_bool_decide; [done|]. case_bool_decide as Hp.
  - intros [= <-]. exists [cur]. split; [by constructor|done].
  - destruct (byID !! sr_Parent cur) as [p|] eqn:Hpar; [|done]. intros (l & Hl & ->)%IH.
    exists (l ++ [cur]). split; [by eapply upto_step|]. by rewrite <-(assoc_L (++)).
Qed.

Lemma climb_finds cur l : upto byID cur l → ∀ fuel seen chain,
  (length l ≤ fuel)%nat → NoDup (sr_ID <$> l) → (∀ id, id ∈ sr_ID <$> l → id ∉ seen) →
  climb fuel byID seen chain cur = Ok (l ++ chain).
Proof.
  induction 1 as [r Hp|r p l Hp Hpl Hl IH]; intros fuel seen chain Hlen Hnd Hseen.
  - destruct fuel as [|fuel]; [cbn in Hlen; lia|]. cbn. rewrite bool_decide_false by (apply Hseen; by left).
    by rewrite bool_decide_true.
  - rewrite length_app in Hlen. cbn in Hlen. destruct fuel as [|fuel]; [lia|]. cbn.
    rewrite fmap_app in Hnd, Hseen. apply NoDup_app in Hnd as (Hnd & Hdis & _).
    rewrite bool_decide_false by (apply Hseen, elem_of_app; right; by left).
    rewrite bool_decide_false, Hpl by done. rewrite IH; [by rewrite <-(assoc_L (++))|lia|done|].
    intros id Hid [->|Hs]%elem_of_cons; [apply (Hdis _ Hid); by left|].
    apply (Hseen id); [apply elem_of_app; by left|done].
Qed.

(** As many steps as runs, and one more, are enough: a repeated run is met
    before the steps run out. *)
Lemma climb_ends fuel : ∀ seen chain cur,
  NoDup seen → (∀ id, id ∈ seen → is_Some (byID !! id)) → byID !! sr_ID cur = Some cur →
  (size byID < fuel + length seen)%nat → climb fuel byID seen chain cur ≠ Err ScanFuel.
Proof using keyed.
  induction fuel as [|fuel IH]; intros seen chain cur Hnd Hin Hcur Hlen.
  { exfalso. assert (length seen ≤ size byID)%nat; [|cbn in Hlen; lia].
    rewrite <-size_dom, <-(size_list_to_set (C := gset string)) by done.
    apply subseteq_size. intros id. rewrite elem_of_list_to_set, elem_of_dom. apply Hin. }
  cbn. case_bool_decide as Hs; [done|]. case_bool_decide; [done|].
  destruct (byID !! sr_Parent cur) as [p|] eqn:Hp; [|done]. apply IH.
  - by apply NoDup_cons.
  - intros id [->|Hi]%elem_of_cons; [by exists cur|by apply Hin].
  - by rewrite (keyed _ _ Hp).
  - cbn. lia.
Qed.
End Climb.

Section Find.
Lemma by_run_keyed runs id r : by_run runs !! id = Some r → sr_ID r = id ∧ r ∈ runs.
Proof. intros [?|(x & Hx & <- & <-)]%fold_insert_inv; [done|]. done. Qed.

Lemma by_run_has runs id : id ∈ sr_ID <$> runs → is_Some (by_run runs !! id).
Proof. intros Hin. apply fold_insert_has. by right. Qed.

Lemma by_run_size runs : (size (by_run runs) ≤ length runs)%nat.
Proof. etrans; [apply fold_insert_size|]. by rewrite map_size_empty. Qed.

Lemma FindChain_ok runs id chain :
  FindChain runs id = Ok chain ↔ ∃ leaf, by_run runs !! id = Some leaf ∧ upto (by_run runs) leaf chain
    ∧ ∃ root, head chain = Some root ∧ base_type (rm_Type (sr_Manifest root)) = true.
Proof.
  assert (∀ i r, by_run runs !! i = Some r → sr_ID r = i) as Hk by (intros i r Hi; by destruct (by_run_keyed _ _ _ Hi)).
  unfold FindChain. cbv zeta. split.
  - intros Hrun. apply result_bind_ok in Hrun as (leaf & Hleaf%of_option_ok & Hrun).
    apply result_bind_ok in Hrun as (l & Hl & Hrun). apply climb_ok in Hl as (k & Hup & ->).
    rewrite app_nil_r in Hrun. pose proof (upto_length _ _ _ Hup) as Hlen.
    destruct k as [|root k]; [cbn in Hlen; lia|]. destruct (base_type _) eqn:Ht; [|done].
    injection Hrun as <-. exists leaf. split_and!; [done|done|]. by exists root.
  - intros (leaf & Hleaf & Hup & root & Hhead & Ht). rewrite Hleaf. cbn [of_option mbind result_bind].
    assert (by_run runs !! sr_ID leaf = Some leaf) as Hl by by rewrite (Hk _ _ Hleaf).
    pose proof (upto_nodup _ Hk _ _ Hl Hup) as Hnd.
    assert (length chain ≤ S (length runs))%nat as Hlen.
    { etrans; [|apply le_S, by_run_size].
      rewrite <-(length_fmap sr_ID), <-size_dom, <-(size_list_to_set (C := gset string)) by done.
      apply subseteq_size. intros i. rewrite elem_of_list_to_set, list_elem_of_fmap, elem_of_dom.
      intros (s & -> & Hs). exists s. by eapply upto_found. }
    rewrite (climb_finds _ _ _ Hup) by (done || (intros ? _ Hn; by apply elem_of_nil in Hn)).
    rewrite app_nil_r. cbn. destruct chain as [|r chain]; [done|]. injection Hhead as ->. by rewrite Ht.
Qed.

Lemma FindChain_ends runs id : FindChain runs id ≠ Err ScanFuel.
Proof.
  assert (∀ i r, by_run runs !! i = Some r → sr_ID r = i) as Hk by (intros i r Hi; by destruct (by_run_keyed _ _ _ Hi)).
  unfold FindChain. cbv zeta. destruct (by_run runs !! id) as [leaf|] eqn:Hleaf; [|done].
  cbn [of_option mbind result_bind].
  pose proof (climb_ends (by_run runs) Hk (S (length runs)) [] [] leaf) as He.
  destruct (climb _ _ _ _ _) as [[|root l]|e]; cbn; [done|by destruct (base_type _)|]. intros [= ->]. apply He; try done.
  - apply NoDup_nil_2.
  - by intros ? ?%elem_of_nil.
  - by rewrite (Hk _ _ Hleaf).
  - pose proof (by_run_size runs). cbn. lia.
Qed.
End Find.

(** ** The newest base *)
Section Newest.
Context (keep : StoredRun → bool).

Definition newest_step (best : option StoredRun) (r : StoredRun) : option StoredRun :=
  if keep r then better best r else best.

Lemma newest_some runs : ∀ best r,
  foldl newest_step best runs = Some r →
  (best = Some r ∨ (r ∈ runs ∧ keep r = true))
  ∧ ∀ s, best = Some s ∨ (s ∈ runs ∧ keep s = true) →
      rm_CreatedAt (sr_Manifest s) <= rm_CreatedAt (sr_Manifest r).
Proof.
  induction runs as [|x runs IH]; intros best r Hrun; cbn in Hrun.
  { subst best. split; [by left|]. intros s [[= ->]|[?%elem_of_nil _]]; [lia|done]. }
  apply IH in Hrun as (Hor & Hall). unfold newest_step in Hor, Hall.
  assert (∀ s, s ∈ runs ∧ keep s = true → rm_CreatedAt (sr_Manifest s) <= rm_CreatedAt (sr_Manifest r)) as Hrest
    by (intros s Hs; apply Hall; by right).
  setoid_rewrite elem_of_cons. destruct (keep x) eqn:Hx.
  - assert (∃ b, better best x = Some b ∧ (best = Some b ∨ b = x)
      ∧ ∀ s, best = Some s ∨ s = x → rm_CreatedAt (sr_Manifest s) <= rm_CreatedAt (sr_Manifest b))
      as (b & Hb & Hor' & Hmax).
    { destruct best as [b|]; cbn.
      - unfold created_before. case_match eqn:Hlt.
        + exists x. split_and!; [done|by right|]. intros s [[= ->]| ->]; lia.
        + exists b. split_and!; [done|by left|]. intros s [[= ->]| ->]; lia.
      - exists x. split_and!; [done|by right|]. intros s [?| ->]; [done|lia]. }
    rewrite Hb in Hor, Hall. assert (rm_CreatedAt (sr_Manifest b) <= rm_CreatedAt (sr_Manifest r)) as Hbr
      by (apply Hall; by left).
    split.
    + destruct Hor as [[= <-]|[Hin Hk]]; [|right; split; [by right|done]].
      destruct Hor' as [?| ->]; [by left|]. right. split; [by left|done].
    + intros s [Hs|[[->|Hs] Hk]]; [|etrans; [apply Hmax; by right|done]|by apply Hrest].
      etrans; [apply Hmax; by left|done].
  - split.
    + destruct Hor as [?|[Hin Hk]]; [by left|]. right. split; [by right|done].
    + intros s [Hs|[[->|Hs] Hk]]; [apply Hall; by left|congruence|by apply Hrest].
Qed.

Lemma newest_none runs : ∀ best,
  foldl newest_step best runs = None ↔ best = None ∧ ∀ s, s ∈ runs → keep s = false.
Proof.
  induction runs as [|x runs IH]; intros best; cbn.
  { split; [intros ->; split; [done|by intros s ?%elem_of_nil]|by intros [-> _]]. }
  rewrite IH. unfold newest_step. setoid_rewrite elem_of_cons. destruct (keep x) eqn:Hx.
  - assert (better best x ≠ None) as Hb.
    { destruct best as [b|]; cbn; [|done]. by destruct (created_before b x). }
    split; [by intros [? _]|]. intros [_ Hall]. specialize (Hall x (or_introl eq_refl)). congruence.
  - split; intros [Hb Hall]; (split; [done|]).
    + intros s [->|Hs]; [done|by apply Hall].
    + intros s Hs. apply Hall. by right.
Qed.
End Newest.

(** ** The database and the repository *)

(** Every one of these rows has a document in the repository, and what the
    documents of its identifier say of the parent and of the kind is what the row
    says. Nothing is asked of other rows and of other documents. *)
Definition documented (rs : list BackupRun) (runs : list StoredRun) : Prop :=
  ∀ r, r ∈ rs → run_ID r ≠ ""%string ∧ run_ID r ∈ sr_ID <$> runs
    ∧ ∀ s, s ∈ runs → sr_ID s = run_ID r →
        sr_Parent s = run_ParentRunID r ∧ rm_Type (sr_Manifest s) = run_Type r.

Lemma linked_snoc rs q r : linked ((rs ++ [q]) ++ [r]) → linked (rs ++ [q]) ∧ run_ParentRunID r = run_ID q.
Proof.
  intros Hl. split.
  - intros i a b Ha Hb. apply (Hl i); by apply lookup_app_l_Some.
  - apply (Hl (length rs)).
    + rewrite lookup_app_l by (rewrite length_app; cbn; lia). by rewrite lookup_app_r, Nat.sub_diag by lia.
    + rewrite lookup_app_r by (rewrite length_app; cbn; lia). rewrite length_app. cbn.
      by replace (S (length rs) - (length rs + 1))%nat with 0%nat by lia.
Qed.

Lemma documented_found rs runs r : documented rs runs → r ∈ rs →
  ∃ s, by_run runs !! run_ID r = Some s ∧ sr_ID s = run_ID r
    ∧ sr_Parent s = run_ParentRunID r ∧ rm_Type (sr_Manifest s) = run_Type r.
Proof.
  intros Hd (_ & Hin & Hs)%Hd. destruct (by_run_has runs (run_ID r) Hin) as [s Hf].
  destruct (by_run_keyed _ _ _ Hf) as [Hid Hx]. exists s. destruct (Hs s Hx Hid). by split_and!.
Qed.

Lemma documented_app rs rs' runs : documented (rs ++ rs') runs → documented rs runs.
Proof. intros Hd r Hr. apply Hd, elem_of_app. by left. Qed.

Lemma linked_upto runs rs : documented rs runs →
  ∀ leaf root, last rs = Some leaf → head rs = Some root → run_ParentRunID root = ""%string → linked rs →
  ∃ chain s t, by_run runs !! run_ID leaf = Some s ∧ upto (by_run runs) s chain
    ∧ sr_ID <$> chain = run_ID <$> rs ∧ head chain = Some t ∧ rm_Type (sr_Manifest t) = run_Type root.
Proof.
  induction rs as [|r rs IH] using rev_ind; intros Hd leaf root Hlast Hhead Hroot Hl; [done|].
  rewrite last_snoc in Hlast. injection Hlast as ->.
  assert (leaf ∈ rs ++ [leaf]) as Hin by (apply elem_of_app; right; by left).
  destruct (documented_found _ _ _ Hd Hin) as (s & Hs & Hid & Hp & Ht).
  destruct (decide (rs = [])) as [->|Hrs].
  - injection Hhead as ->. exists [s], s, s. split_and!; try done; [|cbn; by rewrite Hid].
    constructor. by rewrite Hp.
  - destruct (List.exists_last Hrs) as (rs' & q & ->). apply linked_snoc in Hl as [Hl Hq].
    assert (head (rs' ++ [q]) = Some root) as Hh by (by destruct rs').
    destruct (IH (documented_app _ _ _ Hd) q root) as (chain & sq & t & Hsq & Hup & Hids & Hht & Htt);
      try done; [by rewrite last_snoc|].
    assert (q ∈ (rs' ++ [q]) ++ [leaf]) as Hinq by (apply elem_of_app; left; apply elem_of_app; right; by left).
    exists (chain ++ [s]), s, t. split_and!; try done.
    + eapply upto_step; [|by rewrite Hp, Hq|done]. rewrite Hp, Hq. by apply Hd.
    + rewrite (fmap_app sr_ID), Hids, (fmap_app run_ID (rs' ++ [q])). cbn. by rewrite Hid.
    + by destruct chain.
Qed.

(** * What the functions promise *)
Lemma scan_object_some `{Decoding} objects key r :
  scan_object objects key = Some r ↔ key = Layout.RunManifestKey (sr_Prefix r)
    ∧ HasSuffix key "/run.json" = true ∧ read_run_manifest objects key = Some (sr_Manifest r).
Proof.
  unfold scan_object. destruct (HasSuffix key "/run.json") eqn:Hs; cbn; [|naive_solver].
  apply HasSuffix_split in Hs as [p ->].
  assert (p +:+ "/run.json" = (p +:+ "/") +:+ "run.json")%string as Hsplit by (by rewrite app_assoc_string).
  rewrite Hsplit, TrimSuffix_app. unfold RunManifestKey. destruct r as [pre m]. cbn. split.
  - destruct (read_run_manifest _ _) as [doc|] eqn:Hd; [|done]. cbn. intros [= <- <-]. done.
  - intros (Heq & _ & ->). apply (f_equal (λ k, TrimSuffix k "run.json")) in Heq. rewrite !TrimSuffix_app in Heq. by subst.
Qed.

Section Promises.
Context `{Decoding}.

(** Listing a repository finds the published runs and nothing else: a run
    is found exactly when its [run.json] under its own prefix, inside the prefix
    searched, can be read, is of this format and not of a newer version. *)
Theorem scan_exact objects prefix r :
  prefix ≠ ""%string →
  r ∈ ScanRepository objects prefix ↔
    ∃ data, objects !! RunManifestKey (sr_Prefix r) = Some data
      ∧ DecodeManifest data = Some (sr_Manifest r)
      ∧ rm_Format (sr_Manifest r) = FormatName ∧ rm_Version (sr_Manifest r) <= FormatVersion
      ∧ String.prefix prefix (RunManifestKey (sr_Prefix r)) = true
      ∧ HasSuffix (RunManifestKey (sr_Prefix r)) "/run.json" = true.
Proof.
  intros Hp. unfold ScanRepository. rewrite bool_decide_false by done.
  rewrite sort_stable_elem_of, list_elem_of_omap.
  setoid_rewrite elem_of_filter_bool. setoid_rewrite list_elem_of_fmap.
  setoid_rewrite scan_object_some. unfold read_run_manifest. split.
  - intros (key & [(kv & -> & Hkv) Hpre] & Hkey & Hsuf & Hread). rewrite Hkey in *.
    destruct (objects !! RunManifestKey (sr_Prefix r)) as [data|]; [|done]. cbn in Hread.
    destruct (DecodeManifest data) as [doc|] eqn:Hdoc; [|done]. cbn in Hread.
    destruct (bool_decide (rm_Format doc = FormatName)) eqn:Hf; [|done]. cbn in Hread.
    apply bool_decide_eq_true in Hf. destruct (Z.ltb_spec FormatVersion (rm_Version doc)); [done|].
    injection Hread as ->. by exists data.
  - intros (data & Hdata & Hdoc & Hf & Hv & Hpre & Hsuf). exists (RunManifestKey (sr_Prefix r)). split_and!; try done.
    + exists (RunManifestKey (sr_Prefix r), data). split; [done|]. by apply elem_of_map_to_list.
    + rewrite Hdata. cbn. rewrite Hdoc. cbn. rewrite bool_decide_true by done. cbn.
      by destruct (Z.ltb_spec FormatVersion (rm_Version (sr_Manifest r))); [lia|].
Qed.
End Promises.

(** The chain found in a repository is the way from the requested run to
    its root through the parents, root first and each run once, and the root is
    a full or snapshot backup; there is an answer whatever the parents are, and
    a chain exactly when there is such a way. *)
Theorem find_chain_exact runs id :
  FindChain runs id ≠ Err ScanFuel
  ∧ ∀ chain, FindChain runs id = Ok chain ↔
      ∃ leaf root, by_run runs !! id = Some leaf ∧ upto (by_run runs) leaf chain
        ∧ NoDup (sr_ID <$> chain) ∧ (∀ r, r ∈ chain → r ∈ runs)
        ∧ head chain = Some root ∧ base_type (rm_Type (sr_Manifest root)) = true.
Proof.
  split; [apply FindChain_ends|]. intros chain. rewrite FindChain_ok.
  assert (∀ i r, by_run runs !! i = Some r → sr_ID r = i) as Hk by (intros i r Hi; by destruct (by_run_keyed _ _ _ Hi)).
  split; [|naive_solver]. intros (leaf & Hleaf & Hup & root & Hhead & Ht). exists leaf, root.
  assert (by_run runs !! sr_ID leaf = Some leaf) as Hl by by rewrite (Hk _ _ Hleaf).
  split_and!; try done; [by eapply upto_nodup|].
  intros r Hr. apply (by_run_keyed runs (sr_ID r)). by eapply upto_found.
Qed.

(** The base offered to an increment taken without the database is the
    newest run of the machine, by identifier or by name, that has a checkpoint
    and whose chain is whole (and is a full backup, when only those may serve);
    none is offered only when there is none. *)
Theorem latest_usable_newest runs vm onlyFull :
  match LatestUsable runs vm onlyFull with
  | Some r => r ∈ runs ∧ may_base runs vm onlyFull r = true
      ∧ (∃ chain, FindChain runs (sr_ID r) = Ok chain)
      ∧ ∀ s, s ∈ runs → may_base runs vm onlyFull s = true →
          rm_CreatedAt (sr_Manifest s) <= rm_CreatedAt (sr_Manifest r)
  | None => ∀ s, s ∈ runs → may_base runs vm onlyFull s = false
  end.
Proof.
  change (LatestUsable runs vm onlyFull) with (foldl (newest_step (may_base runs vm onlyFull)) None runs).
  destruct (foldl _ _ _) as [r|] eqn:Hrun; [|by apply newest_none in Hrun as [_ Hall]].
  apply newest_some in Hrun as [[?|[Hin Hmay]] Hall]; [done|]. split_and!; try done.
  - unfold may_base in Hmay. apply andb_true_iff in Hmay as [_ Hok].
    destruct (FindChain runs (sr_ID r)) as [chain|]; [by exists chain|done].
  - intros s Hs Hk. apply Hall. by right.
Qed.

(** C34. The database is a convenience. For a restore point that loads through
    the database, provided the repository holds a document of each run of this
    chain and what the documents of these runs say of parent and kind is what the
    rows say, the listing of the repository alone leads to the same chain: its
    climb starts at the same run, ends, and passes the same runs in the same
    order. Nothing is asked of the other rows (running, failed, kept elsewhere)
    and of the other documents found beside these. *)
Theorem scan_agrees `{Decoding} `{Documents} objects prefix c fuel runID copyID c' set :
  catalog_keyed c → LoadChainCopy fuel runID copyID c = (c', Ok set) →
  documented (cs_Runs set) (ScanRepository objects prefix) →
  ∃ chain, FindChain (ScanRepository objects prefix) runID = Ok chain
    ∧ sr_ID <$> chain = run_ID <$> cs_Runs set.
Proof.
  intros Hk Hrun Hd. set (runs := ScanRepository objects prefix) in *.
  apply load_steps in Hrun as (c2 & c3 & c4 & leaf & sel & t & root & tl & u & Hc2 & Hl & Hdel & _
    & Hwalk & Hok & _ & Hrun).
  apply read_documents_runs in Hrun as [Hset _]. rewrite Hset in *. pose proof (Hk _ _ Hl) as Hlid.
  apply walk_ok in Hwalk as (_ & up & Hup & Hlast & Hlink & Hall & _ & _ & root' & Hhead & Hroot);
    [|by eapply catalog_keyed_contents|by rewrite (contents_runs _ _ Hc2), Hlid|done].
  rewrite app_nil_r in Hup. subst up.
  destruct (linked_upto runs (root :: tl) Hd leaf root') as (chain & s & t' & Hs & Hupto & Hids & Hh & Ht); try done.
  exists chain. split; [|done]. apply FindChain_ok. exists s. rewrite <-Hlid. split_and!; try done.
  exists t'. split; [done|]. rewrite Ht. injection Hhead as <-. unfold root_ok in Hok. by rewrite andb_false_l, orb_false_r in Hok.
Qed.

(** * The documents of the sample catalogue *)
Definition published (r : BackupRun) (created : Z) : RunManifest :=
  mkRunManifest FormatName FormatVersion (run_ID r) (run_ParentRunID r) (run_Type r) "vm" "vm" "cp" created
    [mkRunManifestDisk "disk" (run_ID r +:+ "/disk.manifest") (run_ID r +:+ "/disk.data")] None [].

(** A document is one byte here, the number of the run. *)
#[export] Instance sample_decoding : Decoding := {
  DecodeManifest := λ data,
    match data with
    | [Byte.x01] => Some (published f1 1)
    | [Byte.x02] => Some (published i1 2)
    | _ => None
    end;
  decode_disk := λ _, Some (document "f1" BackupFull)
}.

(** The third key is a run that never finished: its document cannot be read. *)
Definition stored_objects : gmap string bytes :=
  {["r/f1/run.json" := [Byte.x01]; "r/i1/run.json" := [Byte.x02]; "r/half/run.json" := [];
    "r/f1/disk.data" := [Byte.x05]]}%string.

Definition stored_runs : list StoredRun := ScanRepository stored_objects "r/".

Example stored_runs_found : sr_Prefix <$> stored_runs = ["r/f1/"; "r/i1/"]%string.
Proof. vm_compute. reflexivity. Qed.

Example stored_chain :
  match FindChain stored_runs "i1" with Ok l => sr_ID <$> l | Err _ => [] end = ["f1"; "i1"]%string.
Proof. vm_compute. reflexivity. Qed.

Lemma scan_exact_witness :
  mkStoredRun "r/f1/" (published f1 1) ∈ ScanRepository stored_objects "r/".
Proof.
  apply (scan_exact stored_objects "r/"); [done|]. exists [Byte.x01].
  split_and!; vm_compute; reflexivity || done.
Defined.

Lemma loaded_run : LoadChainCopy 3 "i1" "" sample_catalog = (sample_catalog, Ok loaded_set).
Proof. reflexivity. Qed.

Lemma scan_agrees_witness :
  ∃ chain, FindChain stored_runs "i1" = Ok chain ∧ sr_ID <$> chain = run_ID <$> cs_Runs loaded_set.
Proof.
  apply (scan_agrees stored_objects "r/" sample_catalog 3 "i1" "" sample_catalog loaded_set sample_keyed loaded_run).
  assert (cs_Runs loaded_set = [f1; i1]) as -> by (vm_compute; reflexivity).
  assert (ScanRepository stored_objects "r/"
    = [mkStoredRun "r/f1/" (published f1 1); mkStoredRun "r/i1/" (published i1 2)]) as -> by (vm_compute; reflexivity).
  intros r [->|[->|?%elem_of_nil]%elem_of_cons]%elem_of_cons; [| |done]; (split; [done|split]).
  - by left.
  - by intros s [->|[->|?%elem_of_nil]%elem_of_cons]%elem_of_cons.
  - right. by left.
  - by intros s [->|[->|?%elem_of_nil]%elem_of_cons]%elem_of_cons.
Defined.
