(* ===== verification/Replicas.v ===== *)
(** The queue of replicas ([internal/store/replication.go]): physical copies of a
    run, the leases of the workers, attempts, and the objects of a copy that are
    already verified. *)

From S2P Require Import Prelude StateM GoTime GoStr Model Format Catalog.

(** How many objects a run has, known without listing them. *)
Definition runObjectCount (run : BackupRun) : Z :=
  if bool_decide (run_Type run = BackupOVA) then 0 else
  let config := if run_ConfigStored run then 1 else 0 in
  if run_DiskCount run <=? 0 then
    if bool_decide (run_RepoPath run = ""%string) && negb (run_ConfigStored run) then 0 else 1 + config
  else run_DiskCount run * 2 + 1 + config.

(** The state of the primary copy follows that of the run. *)
Definition primary_status (s : RunStatus) : BackupCopyStatus :=
  match s with
  | RunRunning => CopyCopying
  | RunSucceeded | RunPartial => CopySucceeded
  | RunFailed => CopyFailed
  | RunCanceled => CopyCanceled
  | _ => CopyPending
  end.

(** A copy is unique for its run and target; its run exists. *)
Definition CreateBackupCopy (now : Z) (p : BackupCopy) : CM BackupCopy :=
  let p := mkBackupCopy (cp_ID p) (cp_RunID p) (cp_StorageTargetID p) (cp_Role p) (cp_Required p)
    (cp_Status p) (cp_RepoPath p) (cp_SourceCopyID p) (cp_ManifestSHA256 p) (cp_ObjectCount p)
    (cp_CopiedObjects p) (cp_TotalBytes p) (cp_CopiedBytes p) (cp_AttemptCount p) "" (cp_NextRetryAt p)
    (cp_LastError p) (cp_VerifiedAt p) (cp_LockedUntil p) (cp_StartedAt p) (cp_EndedAt p) now now in
  statement ;; c ← get ;
  if existsb (λ q, has_copy_id (cp_ID p) q || is_copy_of (cp_RunID p) (cp_StorageTargetID p) q) (ca_copies c)
  then fail CatConflict else
  match ca_runs c !! cp_RunID p with
  | None => fail CatDB
  | Some _ => modify (with_copies (ca_copies c ++ [p])) ;; mret p
  end.

(** [id] is the fresh identifier. *)
Definition EnsurePrimaryCopy (now : Z) (id : string) (run : BackupRun) : CM BackupCopy :=
  let status := primary_status (run_Status run) in
  let objects := runObjectCount run in
  let copied := if bool_decide (status = CopySucceeded) then objects else 0 in
  created ← try (CreateBackupCopy now (mkBackupCopy id (run_ID run) (run_StorageTargetID run) CopyPrimary
    true status (run_RepoPath run) "" (run_ManifestSHA256 run) objects copied (run_StoredBytes run)
    (run_StoredBytes run) 0 "" None "" None None (run_StartedAt run) (run_EndedAt run) 0 0)) ;
  match created with
  | Ok p => mret p
  | Err CatConflict => GetBackupCopyForTarget (run_ID run) (run_StorageTargetID run)
  | Err e => fail e
  end.

(** [artifacts] is how many finished artifacts of the run the target has, if that
    query succeeds. *)
Definition SyncPrimaryCopy (now : Z) (artifacts : option Z) (run : BackupRun) : CM () :=
  let status := primary_status (run_Status run) in
  let objects := runObjectCount run + default 0 artifacts * 2 in
  let copied := if bool_decide (status = CopySucceeded) then objects else 0 in
  update_copies (λ q, bool_decide (cp_RunID q = run_ID run) && bool_decide (cp_Role q = CopyPrimary))
    (λ q, mkBackupCopy (cp_ID q) (cp_RunID q) (cp_StorageTargetID q) (cp_Role q) (cp_Required q) status
      (run_RepoPath run) (cp_SourceCopyID q) (run_ManifestSHA256 run)
      (Z.max (cp_ObjectCount q) objects) (Z.max (cp_CopiedObjects q) copied)
      (run_StoredBytes run) (run_StoredBytes run) (cp_AttemptCount q) (cp_LockedBy q)
      (cp_NextRetryAt q) (run_Error run) (cp_VerifiedAt q) (cp_LockedUntil q) (run_StartedAt run)
      (run_EndedAt run) (cp_CreatedAt q) now) ;;
  mret ().

(** ** The queue *)
Definition target_enabled (c : Catalog) (id : string) : bool :=
  match ca_targets c !! id with Some t => tgt_Enabled t | None => false end.

(** No date, or a date that has come. *)
Definition copy_due (now : Z) (t : option Z) : bool :=
  match t with None => true | Some t => t <=? now end.

(** Waiting and due, or in work without a live lease. *)
Definition claimable (now : Z) (c : Catalog) (p : BackupCopy) : bool :=
  bool_decide (cp_Role p = CopyReplica) && cp_Required p && target_enabled c (cp_StorageTargetID p)
  && ((bool_decide (cp_Status p = CopyPending ∨ cp_Status p = CopyFailed) && copy_due now (cp_NextRetryAt p))
      || (bool_decide (cp_Status p = CopyCopying ∨ cp_Status p = CopyVerifying)
          && copy_due now (cp_LockedUntil p))).

Definition older (a b : BackupCopy) : bool := cp_CreatedAt a <? cp_CreatedAt b.

(** The rows the statement takes, the oldest first. *)
Definition claimed_copies (now : Z) (limit : nat) (c : Catalog) : list BackupCopy :=
  take limit (sort_stable older (List.filter (claimable now c) (ca_copies c))).

Definition take_lease (worker : string) (until now : Z) (p : BackupCopy) : BackupCopy :=
  cp_set_Status CopyCopying (cp_set_LockedUntil (Some until)
    (cp_set_LockedBy worker (cp_set_UpdatedAt now p))).

Fixpoint get_copies (ids : list string) : CM (list BackupCopy) :=
  match ids with
  | [] => mret []
  | id :: ids => p ← GetBackupCopy id ; ps ← get_copies ids ; mret (p :: ps)
  end.

Definition ClaimBackupCopies (now : Z) (worker : string) (limit lease : Z) : CM (list BackupCopy) :=
  let limit := if limit <=? 0 then 1 else limit in
  let lease := if lease <=? 0 then 5 * Minute else lease in
  statement ;; c ← get ;
  let ids := cp_ID <$> claimed_copies now (Z.to_nat limit) c in
  modify (with_copies ((λ q, if bool_decide (cp_ID q ∈ ids) then take_lease worker (now + lease) now q else q)
    <$> ca_copies c)) ;;
  get_copies ids.

Definition held_by (id worker : string) (q : BackupCopy) : bool :=
  has_copy_id id q && bool_decide (cp_LockedBy q = worker).

(** Only the owner may; whether it still is. *)
Definition RenewCopyLease (now : Z) (id worker : string) (lease : Z) : CM bool :=
  n ← update_copies (held_by id worker)
    (λ q, cp_set_LockedUntil (Some (now + lease)) (cp_set_UpdatedAt now q)) ;
  mret (bool_decide (0 < n)%nat).

Definition free_lease (now : Z) (q : BackupCopy) : BackupCopy :=
  cp_set_LockedUntil None (cp_set_LockedBy "" (cp_set_UpdatedAt now q)).

Definition ReleaseCopyLease (now : Z) (id worker : string) : CM () :=
  update_copies (held_by id worker) (free_lease now) ;; mret ().

(** A transaction: what it wrote is undone when it fails. *)
Definition in_tx {A} (m : CM A) : CM A := λ c,
  match m c with
  | (c', Ok a) => (c', Ok a)
  | (c', Err e) => (with_cat_faults (ca_faults c') c, Err e)
  end.

Definition interrupted_text : string := "прервано остановкой службы; передача будет продолжена".
Definition stopped_text : string := "прервано остановкой службы".

Definition text_or (s t : string) : string := if bool_decide (s = ""%string) then t else s.

Definition recover_copy (now : Z) (q : BackupCopy) : BackupCopy :=
  cp_set_Status CopyPending (cp_set_NextRetryAt None
    (cp_set_LastError (text_or (cp_LastError q) interrupted_text) (cp_set_UpdatedAt now q))).

Definition in_work (q : BackupCopy) : bool :=
  bool_decide (cp_Role q = CopyReplica)
  && bool_decide (cp_Status q = CopyCopying ∨ cp_Status q = CopyVerifying).

Definition stop_attempt (now : Z) (a : ReplicationAttempt) : ReplicationAttempt :=
  if bool_decide (ra_Status a = RunRunning) then
    mkReplicationAttempt (ra_ID a) (ra_CopyID a) (ra_SourceCopyID a) RunFailed (ra_Attempt a)
      (ra_ObjectCount a) (ra_CopiedObjects a) (ra_TotalBytes a) (ra_CopiedBytes a)
      (text_or (ra_Error a) stopped_text) (ra_StartedAt a) (Some now) (ra_CreatedAt a)
  else a.

Definition RecoverInterruptedReplications (now : Z) : CM nat :=
  in_tx (
    n ← update_copies in_work (recover_copy now) ;
    statement ;; c ← get ;
    modify (with_attempts (stop_attempt now <$> ca_attempts c)) ;;
    mret n).

Definition SetCopyProgress (now : Z) (id : string) (objects bytes : Z) : CM () :=
  update_copies (has_copy_id id)
    (λ q, cp_set_CopiedObjects objects (cp_set_CopiedBytes bytes (cp_set_UpdatedAt now q))) ;;
  mret ().

Definition MarkBackupCopyVerified (now : Z) (id : string) (at_ : Z) : CM () :=
  n ← update_copies (has_copy_id id) (λ q, cp_set_VerifiedAt (Some at_) (cp_set_UpdatedAt now q)) ;
  if decide (n = 0%nat) then fail CatNotFound else mret ().

(** ** Attempts and objects *)
Definition CreateReplicationAttempt (a : ReplicationAttempt) : CM () :=
  statement ;; c ← get ;
  match ca_attempts c !! ra_ID a with
  | Some _ => fail CatDB
  | None => modify (with_attempts (<[ra_ID a := a]> (ca_attempts c)))
  end.

(** The columns the statement writes. *)
Definition attempt_columns (a b : ReplicationAttempt) : ReplicationAttempt :=
  mkReplicationAttempt (ra_ID b) (ra_CopyID b) (ra_SourceCopyID b) (ra_Status a) (ra_Attempt b)
    (ra_ObjectCount a) (ra_CopiedObjects a) (ra_TotalBytes a) (ra_CopiedBytes a) (ra_Error a)
    (ra_StartedAt a) (ra_EndedAt a) (ra_CreatedAt b).

Definition UpdateReplicationAttempt (a : ReplicationAttempt) : CM () :=
  statement ;; c ← get ;
  modify (with_attempts (alter (attempt_columns a) (ra_ID a) (ca_attempts c))).

Definition UpsertReplicationObject (o : ReplicationObject) : CM () :=
  statement ;; c ← get ;
  modify (with_verified (<[(ro_CopyID o, ro_ObjectKey o) := o]> (ca_verified c))).

(** The objects of a copy by key. *)
Definition ListReplicationObjects (copyID : string) : CM (string → option ReplicationObject) :=
  statement ;; c ← get ; mret (λ key, ca_verified c !! (copyID, key)).
