(* ===== verification/Runs.v ===== *)
(** The statements on backup runs that planning and executing a backup use
    ([internal/store/backup_runs.go], [run_events.go]): creating a run, saving it,
    and the queries for the base of an increment and for the checkpoints still in
    use.

    The current time and fresh identifiers are arguments. *)

From S2P Require Import Prelude StateM GoTime Model Catalog Replicas.

(** ** Creating *)
Definition run_defaults (now : Z) (fresh : string) (r : BackupRun) : BackupRun :=
  let r := if bool_decide (run_ID r = ""%string) then run_set_ID fresh r else r in
  let r := if run_CreatedAt r =? zero_time then run_set_CreatedAt now r else r in
  let r := if bool_decide (run_Status r = RunStatusOther "") then run_set_Status RunPending r else r in
  if bool_decide (run_ChainID r = ""%string) then run_set_ChainID (run_ID r) r else r.

(** The migration that owns the machine of the run. *)
Definition holds_machine (r : BackupRun) (t : VMTransfer) : bool :=
  (bool_decide (vt_SourceServerID t = run_ServerID r) && bool_decide (vt_SourceVMID t = run_VMID r)
   && bool_decide (vt_Status t ∉ ["canceled"; "rolled_back"]%string))
  || (bool_decide (vt_TargetServerID t = run_ServerID r) && bool_decide (vt_TargetVMID t = run_VMID r)
   && bool_decide (vt_Status t ∉ ["canceled"; "rolled_back"; "completed"]%string)).

(** The columns of a new row: the disks are rows of their own, and whether the
    configuration was stored, the quarantine and its reason have no value. *)
Definition insert_columns (r : BackupRun) : BackupRun :=
  run_set_ConfigStored false (run_set_PurgeAfter None (run_set_DeleteReason ""
    (run_set_DeletedAt None (run_set_Disks [] r)))).

(** The row goes with its copies. *)
Definition PurgeRunRecord (id : string) : CM () :=
  statement ;; c ← get ;
  modify (λ c, with_copies (List.filter (λ q, negb (bool_decide (cp_RunID q = id))) (ca_copies c))
    (with_runs (delete id (ca_runs c)) c)).

Definition insert_run (transferID : string) (r : BackupRun) : CM () := in_tx (
  statement ;;
  statement ;; c ← get ;
  match List.find (holds_machine r) (ca_transfers c) with
  | Some t =>
    if negb (bool_decide (vt_ID t = ""%string)) && negb (bool_decide (vt_ID t = transferID))
    then fail TransferOwns else mret ()
  | None => mret ()
  end ;;
  statement ;; c ← get ;
  if bool_decide (is_Some (ca_runs c !! run_ID r)) then fail CatDB
  else modify (with_runs (<[run_ID r := insert_columns r]> (ca_runs c)))).

(** The run as it is after the call, in the caller's hands. *)
Definition CreateTransferBackupRun (now : Z) (fresh copyID : string) (r : BackupRun)
    (transferID : string) : CM BackupRun :=
  let r := run_defaults now fresh r in
  insert_run transferID r ;;
  copy ← try (EnsurePrimaryCopy now copyID r) ;
  match copy with
  | Ok _ => mret r
  | Err e => try (PurgeRunRecord (run_ID r)) ;; fail e
  end.

(** ** Saving *)

(** The columns the statement writes; the kind of the run, its machine and its
    date are not among them, nor are the quarantine and its reason. *)
Definition update_run_columns (r q : BackupRun) : BackupRun :=
  mkBackupRun (run_ID q) (run_JobRunID q) (run_JobID q) (run_ServerID q) (run_VMID q) (run_VMName q)
    (run_Type q) (run_Status r) (run_ParentRunID r) (run_ChainID r) (run_ChainIndex r)
    (run_StorageTargetID r) (run_RepoPath r) (run_EngineBackupID r) (run_FromCheckpointID r)
    (run_ToCheckpointID r) (run_SnapshotID r) (run_LegacyIncrementalMode r) (run_DiskCount r)
    (run_ReadBytes r) (run_StoredBytes r) (run_ConfigStored q) (run_Error r) (run_ManifestSHA256 r)
    (run_Deleted r) (run_PurgeAfter q) (run_DeleteReason q) (run_DeletedAt q) (run_ExpiresAt r)
    (run_StartedAt r) (run_EndedAt r) (run_CreatedAt q) (run_Disks q).

(** [artifacts]: see [SyncPrimaryCopy]. *)
Definition UpdateBackupRun (now : Z) (artifacts : option Z) (r : BackupRun) : CM () :=
  found ← update_run (run_ID r) (update_run_columns r) ;
  if negb found then fail CatNotFound else SyncPrimaryCopy now artifacts r.

Definition AddRunEvent (now : Z) (runID : string) (kind : RunEventKind) : CM () :=
  statement ;; modify (λ c, with_events (ca_events c ++ [(runID, kind, now)]) c).

(** ** The base of an increment *)
Definition finished (r : BackupRun) : bool :=
  bool_decide (run_Status r = RunSucceeded ∨ run_Status r = RunPartial).

Definition of_machine (serverID vmID targetID : string) (r : BackupRun) : bool :=
  bool_decide (run_ServerID r = serverID) && bool_decide (run_VMID r = vmID)
  && bool_decide (run_StorageTargetID r = targetID) && negb (run_Deleted r).

(** [ORDER BY created_at DESC LIMIT 1]. *)
Definition newest_run (matches : BackupRun → bool) (c : Catalog) : option BackupRun :=
  head (sort_stable (λ a b, run_CreatedAt b <? run_CreatedAt a) (List.filter matches (all_runs c))).

Definition latest (matches : BackupRun → bool) : CM BackupRun :=
  statement ;; c ← get ; lift (of_option CatNotFound (newest_run matches c)).

Definition usable (serverID vmID targetID : string) (onlyFull : bool) (r : BackupRun) : bool :=
  of_machine serverID vmID targetID r && finished r
  && negb (bool_decide (run_ToCheckpointID r = ""%string))
  && (negb onlyFull || bool_decide (run_Type r = BackupFull)).

Definition LatestUsableRun (serverID vmID targetID : string) (onlyFull : bool) : CM BackupRun :=
  latest (usable serverID vmID targetID onlyFull).

Definition legacy_usable (serverID vmID targetID : string) (onlyFull : bool) (r : BackupRun) : bool :=
  of_machine serverID vmID targetID r && finished r
  && bool_decide (run_Type r ∈ if onlyFull then [BackupFull; BackupSnapshot]
       else [BackupFull; BackupIncremental; BackupDifferential; BackupSnapshot]).

Definition LatestLegacyRun (serverID vmID targetID : string) (onlyFull : bool) : CM BackupRun :=
  latest (legacy_usable serverID vmID targetID onlyFull).

Definition event_of (c : Catalog) (serverID vmID : string) (kind : RunEventKind)
    (e : string * RunEventKind * Z) : bool :=
  bool_decide (e.1.2 = kind)
  && match ca_runs c !! e.1.1 with
     | Some r => bool_decide (run_ServerID r = serverID) && bool_decide (run_VMID r = vmID)
     | None => false
     end.

Definition latest_time (ts : list Z) : option Z :=
  match ts with [] => None | t :: ts => Some (foldr Z.max t ts) end.

Definition LastRunEventAt (serverID vmID : string) (kind : RunEventKind) : CM (option Z) :=
  statement ;; c ← get ;
  mret (latest_time (snd <$> List.filter (event_of c serverID vmID kind) (ca_events c))).

(** ** Checkpoints *)
Definition has_checkpoint (serverID vmID : string) (r : BackupRun) : bool :=
  bool_decide (run_ServerID r = serverID) && bool_decide (run_VMID r = vmID)
  && negb (bool_decide (run_ToCheckpointID r = ""%string)).

Fixpoint keep_bases (serverID vmID : string) (bases : list (string * bool)) (keep : gset string) :
    CM (gset string) :=
  match bases with
  | [] => mret keep
  | (target, onlyFull) :: bases =>
    found ← try (LatestUsableRun serverID vmID target onlyFull) ;
    match found with
    | Ok r => keep_bases serverID vmID bases ({[run_ToCheckpointID r]} ∪ keep)
    | Err CatNotFound => keep_bases serverID vmID bases keep
    | Err e => fail e
    end
  end.

Definition CheckpointsInUse (serverID vmID : string) : CM (gset string) :=
  statement ;; c ← get ;
  let rs := List.filter (λ r, has_checkpoint serverID vmID r && negb (run_Deleted r)) (all_runs c) in
  let targets := remove_dups (run_StorageTargetID <$> rs) in
  keep_bases serverID vmID (target ← targets; [(target, false); (target, true)]) ∅.

Definition OwnCheckpoints (serverID vmID : string) : CM (gset string) :=
  statement ;; c ← get ;
  mret (list_to_set (run_ToCheckpointID <$> List.filter (has_checkpoint serverID vmID) (all_runs c))).
