(* ===== verification/PlaceLimiter.v ===== *)
(** The queue of hot backups on a storage place ([internal/backup/place_limiter.go],
    [storage_queue.go]).

    A channel of capacity [limit] is the number of the values in it. A run is at
    one point of [Acquire], or holds its places, or has released them; the
    goroutines interleave at the operations on channels, so that each event is
    one of those. *)

From S2P Require Import Prelude GoStr Model.

(** ** Keys *)
Definition HoldsStorage (t : BackupType) : bool := UsesCBT t || bool_decide (t = BackupSnapshot).

Definition nul : string := String Ascii.zero "".

Definition StorageQueueKey (serverID place : string) : string := serverID +:+ nul +:+ place.

(** The loop skips a key equal to the one before it. *)
Fixpoint skip_repeats (previous : option string) (keys : list string) : list string :=
  match keys with
  | [] => []
  | key :: keys =>
    if bool_decide (previous = Some key) then skip_repeats (Some key) keys
    else key :: skip_repeats (Some key) keys
  end.

Definition places_of (keys : list string) : list string := skip_repeats None (sort_strings keys).

(** ** The limiter and the runs *)

(** Where a run is. [Trying]: before the first [select] for the place with index
    [taken]; [Blocked]: in the second one; [told]: [onWait] has been called. *)
Inductive Run :=
| Trying (places : list string) (taken : nat) (told : bool)
| Blocked (places : list string) (taken : nat)
| Holding (places : list string)
| Released
| Canceled.

Record Limiter := mkLimiter { limit : Z; slots : gmap string nat; runs : list Run }.

Definition NewPlaceLimiter (limit : Z) : Limiter := mkLimiter limit ∅ [].

Definition in_channel (l : Limiter) (key : string) : nat := default 0%nat (slots l !! key).

Definition set_run (i : nat) (r : Run) (l : Limiter) : Limiter :=
  mkLimiter (limit l) (slots l) (<[i := r]> (runs l)).

(** A send that succeeds, a receive. *)
Definition send (key : string) (l : Limiter) : Limiter :=
  mkLimiter (limit l) (<[key := S (in_channel l key)]> (slots l)) (runs l).
Definition receive (key : string) (l : Limiter) : Limiter :=
  mkLimiter (limit l) (<[key := pred (in_channel l key)]> (slots l)) (runs l).

Definition has_room (l : Limiter) (key : string) : bool := Z.of_nat (in_channel l key) <? limit l.

(** [releaseFirst]: from the last to the first. *)
Definition releaseFirst (places : list string) (n : nat) (l : Limiter) : Limiter :=
  foldr receive l (take n places).

(** The channels of new places are made. *)
Definition make_channels (places : list string) (m : gmap string nat) : gmap string nat :=
  foldr (λ key m, match m !! key with Some _ => m | None => <[key := 0%nat]> m end) m places.

(** The part of [Acquire] under the mutex: a new run. *)
Definition Acquire (keys : list string) (l : Limiter) : Limiter :=
  if (limit l <=? 0) || bool_decide (keys = []) then mkLimiter (limit l) (slots l) (runs l ++ [Holding []])
  else
    let places := places_of keys in
    mkLimiter (limit l) (make_channels places (slots l)) (runs l ++ [Trying places 0 false]).

Inductive Event := EArrive (keys : list string) | EGo (i : nat) | ECancel (i : nat) | ERelease (i : nat).

(** The next operation of a run, if it can be done now. A run with no place left
    to take has its places. *)
Definition go (i : nat) (r : Run) (l : Limiter) : option Limiter :=
  match r with
  | Trying places taken told =>
    match places !! taken with
    | None => Some (set_run i (Holding places) l)
    | Some key =>
      if has_room l key then Some (set_run i (Trying places (S taken) told) (send key l))
      else Some (set_run i (Blocked places taken) l)
    end
  | Blocked places taken =>
    match places !! taken with
    | None => None
    | Some key =>
      if has_room l key then Some (set_run i (Trying places (S taken) true) (send key l)) else None
    end
  | _ => None
  end.

Definition happens (e : Event) (l : Limiter) : option Limiter :=
  match e with
  | EArrive keys => Some (Acquire keys l)
  | EGo i => r ← runs l !! i ; go i r l
  | ECancel i =>
    r ← runs l !! i ;
    match r with
    | Blocked places taken => Some (set_run i Canceled (releaseFirst places taken l))
    | _ => None
    end
  | ERelease i =>
    r ← runs l !! i ;
    match r with
    | Holding places => Some (set_run i Released (releaseFirst places (length places) l))
    | Released => Some l
    | _ => None
    end
  end.

Fixpoint happen (es : list Event) (l : Limiter) : option Limiter :=
  match es with
  | [] => Some l
  | e :: es => l' ← happens e l ; happen es l'
  end.

(** * Who holds what *)
Definition places (r : Run) : list string :=
  match r with Trying p _ _ | Blocked p _ | Holding p => p | _ => [] end.

Definition taken (r : Run) : list string :=
  match r with Trying p n _ | Blocked p n => take n p | Holding p => p | _ => [] end.

Definition holds (key : string) (r : Run) : nat := if bool_decide (key ∈ taken r) then 1 else 0.

(** How many runs have the place now. *)
Definition holders (key : string) (l : Limiter) : nat := sum_list_with (holds key) (runs l).

Definition waits_for (r : Run) : option string :=
  match r with Blocked p n => p !! n | _ => None end.

Definition run_ok (limit : Z) (r : Run) : Prop :=
  StronglySorted string_lt (places r)
  ∧ match r with
    | Trying p n _ => 0 < limit ∧ (n ≤ length p)%nat
    | Blocked p n => 0 < limit ∧ is_Some (p !! n)
    | _ => True
    end.

Definition limiter_ok (l : Limiter) : Prop :=
  Forall (run_ok (limit l)) (runs l)
  ∧ ∀ key, in_channel l key = holders key l ∧ Z.of_nat (in_channel l key) <= Z.max 0 (limit l).

Section Places.
Lemma skip_repeats_elem keys : ∀ p x, x ∈ skip_repeats p keys → x ∈ keys.
Proof.
  induction keys as [|k keys IH]; intros p x; cbn; [done|].
  case_bool_decide; [intros Hx%IH; by right|].
  intros [->|Hx%IH]%elem_of_cons; [by left|by right].
Qed.

Lemma skip_repeats_all keys : ∀ p x, x ∈ keys → p = Some x ∨ x ∈ skip_repeats p keys.
Proof.
  induction keys as [|k keys IH]; intros p x; cbn; [by intros ?%elem_of_nil|].
  intros [->|Hx]%elem_of_cons; case_bool_decide as Hp; [by left|right; by left| |].
  - destruct (IH (Some k) x Hx) as [[= ->]|?]; [by left|by right].
  - right. destruct (IH (Some k) x Hx) as [[= ->]|?]; [by left|by right].
Qed.

Lemma skip_repeats_sorted keys : StronglySorted (λ a b, ¬ string_lt b a) keys →
  ∀ p, (∀ q, p = Some q → Forall (λ k, ¬ string_lt k q) keys) →
  StronglySorted string_lt (skip_repeats p keys) ∧ ∀ q, p = Some q → Forall (string_lt q) (skip_repeats p keys).
Proof.
  induction 1 as [|k keys Hs IH Hk]; intros p Hp; cbn.
  { split; [constructor|]. intros. constructor. }
  destruct (IH (Some k)) as [Hsort Hall]; [by intros q [= <-]|]. specialize (Hall _ eq_refl).
  case_bool_decide as Heq.
  - split; [done|]. intros q Hq. assert (q = k) as -> by congruence. done.
  - split; [by constructor|]. intros q Hq. specialize (Hp _ Hq). apply Forall_cons in Hp as [Hqk Hp].
    assert (string_lt q k) as Hlt by (destruct (string_lt_total q k) as [?|[->|?]]; (congruence || done)).
    constructor; [done|]. eapply Forall_impl; [exact Hall|]. intros b. by apply (transitivity (R := string_lt)).
Qed.

Lemma places_of_spec keys :
  StronglySorted string_lt (places_of keys) ∧ ∀ key, key ∈ places_of keys ↔ key ∈ keys.
Proof.
  split.
  - by apply (skip_repeats_sorted (sort_strings keys) (sort_strings_sorted keys) None).
  - intros key. unfold places_of. split.
    + intros Hin%skip_repeats_elem. unfold sort_strings in Hin. by apply sort_stable_elem_of in Hin.
    + intros Hin. destruct (skip_repeats_all (sort_strings keys) None key) as [?|?]; [|done|done].
      by apply sort_stable_elem_of.
Qed.

Lemma make_channels_same ps m key : default 0%nat (make_channels ps m !! key) = default 0%nat (m !! key).
Proof.
  induction ps as [|p ps IH]; cbn; [done|]. rewrite <-IH. fold (make_channels ps m).
  destruct (make_channels ps m !! p) eqn:Hp; [done|].
  destruct (decide (p = key)) as [->|]; [by rewrite lookup_insert_eq, Hp|by rewrite lookup_insert_ne].
Qed.

Lemma in_channel_send k key l :
  in_channel (send k l) key = (in_channel l key + if bool_decide (key = k) then 1 else 0)%nat.
Proof.
  unfold in_channel at 1, send. cbn. case_bool_decide as Hk.
  - subst. rewrite lookup_insert_eq. cbn. lia.
  - rewrite lookup_insert_ne by done. unfold in_channel. lia.
Qed.

Lemma in_channel_receive k key l :
  in_channel (receive k l) key = (in_channel l key - if bool_decide (key = k) then 1 else 0)%nat.
Proof.
  unfold in_channel at 1, receive. cbn. case_bool_decide as Hk.
  - subst. rewrite lookup_insert_eq. cbn. lia.
  - rewrite lookup_insert_ne by done. unfold in_channel. lia.
Qed.

Lemma release_keeps ps n l :
  limit (releaseFirst ps n l) = limit l ∧ runs (releaseFirst ps n l) = runs l.
Proof. unfold releaseFirst. induction (take n ps) as [|k ks IH]; cbn; [done|]. done. Qed.

(** Every place is given back once. *)
Lemma release_channel ps n l key : NoDup ps →
  in_channel (releaseFirst ps n l) key = (in_channel l key - if bool_decide (key ∈ take n ps) then 1 else 0)%nat.
Proof.
  intros Hnd. unfold releaseFirst. assert (NoDup (take n ps)) as Hk.
  { rewrite <-(take_drop n ps) in Hnd. by apply NoDup_app in Hnd as [? _]. }
  clear Hnd. induction Hk as [|k ks Hk Hks IH]; cbn.
  { rewrite bool_decide_false by apply not_elem_of_nil. lia. }
  rewrite in_channel_receive, IH. repeat case_bool_decide; set_solver by lia.
Qed.

Lemma sorted_nodup ps : StronglySorted string_lt ps → NoDup ps.
Proof.
  induction 1 as [|k ks _ IH Hk]; constructor; [|done]. intros Hin.
  rewrite Forall_forall in Hk. specialize (Hk _ Hin). by apply (irreflexivity string_lt) in Hk.
Qed.

Lemma sorted_before ps k k' n : StronglySorted string_lt ps → ps !! n = Some k' → k ∈ take n ps → string_lt k k'.
Proof.
  intros Hs. revert n. induction Hs as [|x ps _ IH Hx]; intros n; [done|].
  destruct n as [|n]; cbn; [by intros _ ?%elem_of_nil|].
  intros Hn [->|Hin]%elem_of_cons; [|by eapply IH].
  rewrite Forall_forall in Hx. apply Hx. by eapply list_elem_of_lookup_2.
Qed.

Lemma holders_set i r r' l key : runs l !! i = Some r →
  (holders key (set_run i r' l) + holds key r = holders key l + holds key r')%nat.
Proof.
  unfold holders, set_run. cbn. generalize (runs l). intros rs. revert i.
  induction rs as [|x rs IH]; intros [|i]; cbn; try done; [intros [= ->]; lia|].
  intros Hi%IH. rewrite <-!Nat.add_assoc. f_equal. exact Hi.
Qed.

Lemma holders_le i r l key : runs l !! i = Some r → (holds key r ≤ holders key l)%nat.
Proof.
  unfold holders. generalize (runs l). intros rs. revert i. induction rs as [|x rs IH]; intros [|i]; cbn; try done.
  - intros [= ->]. lia.
  - intros Hi%IH. lia.
Qed.

Lemma holders_some l key : (0 < holders key l)%nat → ∃ i r, runs l !! i = Some r ∧ key ∈ taken r.
Proof.
  unfold holders. generalize (runs l). intros rs. induction rs as [|x rs IH]; cbn; [lia|].
  intros Hpos. destruct (decide (key ∈ taken x)) as [Hx|Hx]; [by exists 0%nat, x|].
  unfold holds in Hpos at 1. rewrite bool_decide_false in Hpos by done.
  destruct IH as (i & r & Hi & Hr); [lia|]. by exists (S i), r.
Qed.
End Places.

(** * Every event keeps the account *)
Section Account.
Lemma run_ok_taken limit r key : run_ok limit r → waits_for r = Some key → key ∉ taken r.
Proof.
  destruct r as [p n t|p n| | |]; try done. cbn. intros [Hs _] Hn Hin.
  by apply (irreflexivity string_lt key), (sorted_before p key key n).
Qed.

(** A run takes the place it tries to take. *)
Lemma holds_take p n k t key : p !! n = Some k → StronglySorted string_lt p →
  holds key (Trying p (S n) t) = (holds key (Blocked p n) + if bool_decide (key = k) then 1 else 0)%nat.
Proof.
  intros Hn Hs. unfold holds. cbn [taken]. rewrite (take_S_r _ _ _ Hn).
  pose proof (sorted_before p key k n Hs Hn) as Hb.
  destruct (bool_decide (key = k)) eqn:Hk; bprop.
  - subst. rewrite bool_decide_true by (apply elem_of_app; right; by left).
    rewrite bool_decide_false; [done|]. intros Hin. by apply (irreflexivity string_lt k), Hb.
  - rewrite Nat.add_0_r. destruct (bool_decide (key ∈ take n p)) eqn:Hin; bprop.
    + by rewrite bool_decide_true by (apply elem_of_app; by left).
    + rewrite bool_decide_false; [done|]. intros [?|?%list_elem_of_singleton]%elem_of_app; done.
Qed.

Lemma take_place i r p n k t l :
  limiter_ok l → runs l !! i = Some r → places r = p → taken r = take n p → run_ok (limit l) r →
  p !! n = Some k → 0 < limit l → has_room l k = true →
  limiter_ok (set_run i (Trying p (S n) t) (send k l)).
Proof.
  intros [Hall Hch] Hi Hp Ht Hr Hn Hpos Hroom%Z.ltb_lt. destruct Hr as [Hs _]. rewrite Hp in Hs.
  split.
  - apply Forall_insert; [done|]. split; [done|]. split; [done|]. by apply lookup_lt_Some in Hn.
  - intros key. destruct (Hch key) as [Heq Hle].
    assert (in_channel (set_run i (Trying p (S n) t) (send k l)) key = in_channel (send k l) key) as -> by done.
    rewrite in_channel_send.
    pose proof (holders_set i r (Trying p (S n) t) (send k l) key Hi) as Hset.
    assert (holders key (send k l) = holders key l) as Hsame by done. rewrite Hsame in Hset.
    rewrite (holds_take p n k t key Hn Hs) in Hset.
    assert (holds key r = holds key (Blocked p n)) as Hr by (unfold holds; by rewrite Ht). rewrite Hr in Hset.
    change (limit (set_run i (Trying p (S n) t) (send k l))) with (limit l).
    destruct (bool_decide (key = k)) eqn:Hk; bprop; [subst|]; split; lia.
Qed.

Lemma same_places i r r' l :
  limiter_ok l → runs l !! i = Some r → taken r' = taken r → run_ok (limit l) r' → limiter_ok (set_run i r' l).
Proof.
  intros [Hall Hch] Hi Ht Hr'. split; [by apply Forall_insert|]. intros key. destruct (Hch key) as [Heq Hle].
  split; [|done]. pose proof (holders_set i r r' l key Hi) as Hset.
  assert (holds key r' = holds key r) as Hh by (unfold holds; by rewrite Ht).
  assert (in_channel (set_run i r' l) key = in_channel l key) as -> by done. lia.
Qed.

Lemma give_back i r r' ps n l :
  limiter_ok l → runs l !! i = Some r → StronglySorted string_lt ps → taken r = take n ps → taken r' = [] →
  run_ok (limit l) r' → limiter_ok (set_run i r' (releaseFirst ps n l)).
Proof.
  intros [Hall Hch] Hi Hs Ht Ht' Hr'. destruct (release_keeps ps n l) as [Hlim Hruns].
  split; [cbn; rewrite Hlim, Hruns; by apply Forall_insert|].
  intros key. destruct (Hch key) as [Heq Hle].
  assert (in_channel (set_run i r' (releaseFirst ps n l)) key = in_channel (releaseFirst ps n l) key) as -> by done.
  rewrite release_channel by (by apply sorted_nodup).
  change (limit (set_run i r' (releaseFirst ps n l))) with (limit (releaseFirst ps n l)). rewrite Hlim.
  assert (runs (releaseFirst ps n l) !! i = Some r) as Hi' by by rewrite Hruns.
  pose proof (holders_set i r r' _ key Hi') as Hset. pose proof (holders_le i r l key Hi) as Hin.
  assert (holders key (releaseFirst ps n l) = holders key l) as Hsame by (unfold holders; by rewrite Hruns).
  rewrite Hsame in Hset. unfold holds in Hset, Hin. rewrite Ht, Ht' in Hset. rewrite Ht in Hin.
  rewrite (bool_decide_false (key ∈ [])) in Hset by apply not_elem_of_nil. lia.
Qed.

Lemma arrives_ok keys l : limiter_ok l → limiter_ok (Acquire keys l).
Proof.
  intros [Hall Hch]. unfold Acquire. destruct (_ || _) eqn:Hc.
  - split; cbn.
    + apply Forall_app. split; [done|]. apply Forall_singleton. split; [constructor|done].
    + intros key. destruct (Hch key) as [Heq Hle]. unfold holders, in_channel in *. cbn.
      rewrite sum_list_with_app. cbn. unfold holds at 2. cbn.
      rewrite bool_decide_false by apply not_elem_of_nil. split; [lia|done].
  - bprop. destruct (places_of_spec keys) as [Hs _]. split; cbn.
    + apply Forall_app. split; [done|]. apply Forall_singleton. split; [done|]. split; [|lia].
      match goal with H : (_ <=? 0) = false |- _ => apply Z.leb_gt in H; done end.
    + intros key. destruct (Hch key) as [Heq Hle]. unfold holders, in_channel in *. cbn.
      rewrite make_channels_same, sum_list_with_app. cbn. unfold holds at 2. cbn [taken take].
      rewrite bool_decide_false by apply not_elem_of_nil. split; [lia|done].
Qed.

Lemma happens_ok e l l' : limiter_ok l → happens e l = Some l' → limiter_ok l'.
Proof.
  intros Hok. pose proof Hok as [Hall _]. rewrite Forall_lookup in Hall. destruct e as [keys|i|i|i]; cbn.
  - intros [= <-]. by apply arrives_ok.
  - destruct (runs l !! i) as [r|] eqn:Hi; [|done]. cbn. pose proof (Hall _ _ Hi) as Hr.
    destruct r as [p n t|p n| | |]; cbn; try done; pose proof Hr as [Hs Hn]; cbn in Hs, Hn.
    + destruct (p !! n) as [k|] eqn:Hk.
      * destruct (has_room l k) eqn:Hroom; intros [= <-].
        -- by apply (take_place _ _ p n k _ _ Hok Hi); try apply Hn.
        -- eapply same_places; [done..|]. split; [done|]. split; [apply Hn|by exists k].
      * intros [= <-]. eapply same_places; [done..| |by split]. cbn. symmetry. apply take_ge.
        by apply lookup_ge_None.
    + destruct (p !! n) as [k|] eqn:Hk; [|done]. destruct (has_room l k) eqn:Hroom; [|done]. intros [= <-].
      by apply (take_place _ _ p n k _ _ Hok Hi); try apply Hn.
  - destruct (runs l !! i) as [r|] eqn:Hi; [|done]. cbn. pose proof (Hall _ _ Hi) as [Hs _].
    destruct r; try done. intros [= <-]. eapply give_back; try done. split; [constructor|done].
  - destruct (runs l !! i) as [r|] eqn:Hi; [|done]. cbn. pose proof (Hall _ _ Hi) as [Hs _].
    destruct r as [| |p| |]; try done; intros [= <-]; [|done].
    eapply give_back; try done; [|split; [constructor|done]]. cbn. by rewrite firstn_all.
Qed.

Lemma happen_ok es : ∀ l l', limiter_ok l → happen es l = Some l' → limiter_ok l'.
Proof.
  induction es as [|e es IH]; intros l l' Hl; cbn; [by intros [= <-]|].
  destruct (happens e l) as [l1|] eqn:He; [|done]. cbn. apply IH. by eapply happens_ok.
Qed.

Lemma new_ok n : limiter_ok (NewPlaceLimiter n).
Proof. split; [constructor|]. intros key. unfold in_channel, holders, NewPlaceLimiter. cbn. rewrite lookup_empty. cbn. lia. Qed.
End Account.

(** * Nobody waits for ever *)

Definition done_with (r : Run) : bool := match r with Released | Canceled => true | _ => false end.

(** A run goes on, or gives back the places it has; nobody arrives or gives up. *)
Inductive advances : Limiter → Limiter → Prop :=
| advance_go i l l' : happens (EGo i) l = Some l' → advances l l'
| advance_release i p l l' : runs l !! i = Some (Holding p) → happens (ERelease i) l = Some l' → advances l l'.

Inductive advances_by : nat → Limiter → Limiter → Prop :=
| by_none l : advances_by 0 l l
| by_one n l l1 l' : advances l l1 → advances_by n l1 l' → advances_by (S n) l l'.

(** What a run has left to do, at most. *)
Definition left_to_do (r : Run) : nat :=
  match r with
  | Trying p n _ => 2 * (length p - n) + 2
  | Blocked p n => 2 * (length p - n) + 1
  | Holding _ => 1
  | _ => 0
  end.

Definition work (l : Limiter) : nat := sum_list_with left_to_do (runs l).

Section Progress.
Lemma work_set i r r' l : runs l !! i = Some r → (work (set_run i r' l) + left_to_do r = work l + left_to_do r')%nat.
Proof.
  unfold work, set_run. cbn. generalize (runs l). intros rs. revert i.
  induction rs as [|x rs IH]; intros [|i]; cbn; try done; [intros [= ->]; lia|].
  intros Hi%IH. rewrite <-!Nat.add_assoc. f_equal. exact Hi.
Qed.

Lemma work_shrinks l l' : limiter_ok l → advances l l' → (work l' < work l)%nat.
Proof.
  intros [Hall _]. rewrite Forall_lookup in Hall.
  destruct 1 as [i l l' He|i p l l' Hi He]; revert He; cbn -[work].
  - destruct (runs l !! i) as [r|] eqn:Hi; [|done]. cbn -[work]. pose proof (Hall _ _ Hi) as [_ Hn].
    destruct r as [p n t|p n| | |]; cbn -[work]; try done; destruct (p !! n) as [k|] eqn:Hk; try done.
    + apply lookup_lt_Some in Hk. destruct (has_room l k); intros [= <-].
      * pose proof (work_set i _ (Trying p (S n) t) (send k l) Hi) as Hw. cbn [left_to_do] in Hw.
        change (work (send k l)) with (work l) in Hw. lia.
      * pose proof (work_set i _ (Blocked p n) l Hi) as Hw. cbn [left_to_do] in Hw. lia.
    + intros [= <-]. pose proof (work_set i _ (Holding p) l Hi) as Hw. cbn [left_to_do] in Hw. lia.
    + apply lookup_lt_Some in Hk. destruct (has_room l k); [|done]. intros [= <-].
      pose proof (work_set i _ (Trying p (S n) true) (send k l) Hi) as Hw. cbn [left_to_do] in Hw.
      change (work (send k l)) with (work l) in Hw. lia.
  - rewrite Hi. cbn -[work]. intros [= <-]. destruct (release_keeps p (length p) l) as [_ Hr].
    pose proof (work_set i (Holding p) Released (releaseFirst p (length p) l)) as Hw. rewrite Hr in Hw.
    specialize (Hw Hi). assert (work (releaseFirst p (length p) l) = work l) as Hsame by (unfold work; by rewrite Hr).
    rewrite Hsame in Hw. cbn [left_to_do] in Hw. lia.
Qed.

Lemma advances_ok l l' : limiter_ok l → advances l l' → limiter_ok l'.
Proof. intros Hok. destruct 1; by eapply happens_ok. Qed.

(** A run that waits for nobody. *)
Definition ready (r : Run) : bool := match r with Trying _ _ _ | Holding _ => true | _ => false end.

(** The waiting run with the greatest key can go: the holders of the place wait
    for nothing, or for a greater one. *)
Lemma some_advance l i r : limiter_ok l → runs l !! i = Some r → done_with r = false → ∃ l', advances l l'.
Proof.
  intros Hok Hi Hd. pose proof Hok as [Hall Hch]. rewrite Forall_lookup in Hall.
  destruct (decide (Exists (λ r, ready r = true) (runs l))) as [Hex|Hex].
  { apply Exists_exists in Hex as (s & [j Hj]%list_elem_of_lookup & Hs). destruct s as [p n t| |p| |]; try done.
    - assert (∃ l', happens (EGo j) l = Some l') as [l' Hl']; [|exists l'; by eapply advance_go].
      cbn. rewrite Hj. cbn. destruct (p !! n); [|by eexists]. destruct (has_room l s); by eexists.
    - eexists. eapply advance_release; [exact Hj|]. cbn. rewrite Hj. done. }
  rewrite <-Forall_Exists_neg, Forall_lookup in Hex.
  set (W := list_to_set (C := gset string) (omap waits_for (runs l))).
  assert (W ≠ ∅) as HW.
  { pose proof (Hall _ _ Hi) as [_ Hr]. pose proof (Hex _ _ Hi) as Hn. destruct r as [|p n| | |]; try done.
    destruct Hr as [_ [k Hk]]. assert (k ∈ W); [|set_solver]. apply elem_of_list_to_set, list_elem_of_omap.
    eexists. split; [by eapply list_elem_of_lookup_2|]. done. }
  destruct (minimal_exists_elem_of_L (flip string_lt) W HW) as (k & Hk & Hmin).
  apply elem_of_list_to_set, list_elem_of_omap in Hk as (s & [j Hj]%list_elem_of_lookup & Hw).
  destruct s as [|p n| | |]; try done. cbn in Hw. pose proof (Hall _ _ Hj) as (_ & Hpos & _).
  destruct (has_room l k) eqn:Hroom.
  { eexists. eapply (advance_go j). cbn. rewrite Hj. cbn. rewrite Hw, Hroom. done. }
  apply Z.ltb_ge in Hroom. destruct (Hch k) as [Heq _].
  destruct (holders_some l k) as (q & t & Hq & Hin); [lia|]. exfalso.
  pose proof (Hall _ _ Hq) as [Hs Hr]. pose proof (Hex _ _ Hq) as Hn.
  destruct t as [|p' n'| | |]; try done; [|by apply elem_of_nil in Hin|by apply elem_of_nil in Hin].
  destruct Hr as [_ [k' Hk']]. assert (string_lt k k') as Hlt by (by eapply sorted_before).
  assert (k' ∈ W) as HkW.
  { apply elem_of_list_to_set, list_elem_of_omap. exists (Blocked p' n'). split; [by eapply list_elem_of_lookup_2|done]. }
  specialize (Hmin k' HkW Hlt). cbn in Hmin. by apply (asymmetry (R := string_lt) Hlt).
Qed.
End Progress.

(** * The runs between two events *)
Definition follows (r r' : Run) : Prop :=
  done_with r' = true ∨ (done_with r = false ∧ places r' = places r).

Section Follow.
Lemma follows_refl r : follows r r.
Proof. unfold follows. destruct (done_with r); [by left|by right]. Qed.

Lemma follows_trans r s t : follows r s → follows s t → follows r t.
Proof. intros [Hs|[Hr Hp]] [Ht|[Hd Ht]]; [by left|congruence|by left|right; split; [done|congruence]]. Qed.

Lemma set_follows i r r' l l0 j s : runs l0 = runs l → runs l !! i = Some r → follows r r' → runs l !! j = Some s →
  ∃ s', runs (set_run i r' l0) !! j = Some s' ∧ follows s s'.
Proof.
  intros H0 Hi Hf Hj. cbn. rewrite H0. destruct (decide (i = j)) as [<-|Hne].
  - rewrite list_lookup_insert_eq by (by eapply lookup_lt_Some). assert (s = r) as -> by congruence. by exists r'.
  - rewrite list_lookup_insert_ne by done. exists s. split; [done|apply follows_refl].
Qed.

Lemma go_sets i r l l' : go i r l = Some l' →
  ∃ r' l0, l' = set_run i r' l0 ∧ runs l0 = runs l ∧ limit l0 = limit l ∧ follows r r'.
Proof.
  destruct r as [p n t|p n| | |]; cbn; try done; (destruct (p !! n) as [k|]; [destruct (has_room l k)|]); try done;
    intros [= <-]; do 2 eexists; (split; [reflexivity|]); (split; [done|]); (split; [done|]); by right.
Qed.

Lemma happens_sets e l l' : happens e l = Some l' →
  limit l' = limit l ∧ ((∃ r, runs l' = runs l ++ [r]) ∨ runs l' = runs l
    ∨ ∃ i r r' l0, runs l !! i = Some r ∧ l' = set_run i r' l0 ∧ runs l0 = runs l ∧ follows r r').
Proof.
  assert (∀ ps n, limit (releaseFirst ps n l) = limit l ∧ runs (releaseFirst ps n l) = runs l) as Hrel
    by (intros; apply release_keeps).
  destruct e as [keys|i|i|i]; cbn.
  - intros [= <-]. unfold Acquire. case_match; (split; [done|]); left; by eexists.
  - destruct (runs l !! i) as [r|] eqn:Hi; [|done]. cbn. intros (r' & l0 & -> & H0 & Hlim & Hf)%go_sets.
    split; [done|]. right. right. by exists i, r, r', l0.
  - destruct (runs l !! i) as [r|] eqn:Hi; [|done]. cbn. destruct r as [|p n| | |]; try done. intros [= <-].
    split; [apply Hrel|]. right. right. do 4 eexists. split_and!; [exact Hi|reflexivity|apply Hrel|by left].
  - destruct (runs l !! i) as [r|] eqn:Hi; [|done]. cbn. destruct r as [| |p| |]; try done; intros [= <-].
    + split; [apply Hrel|]. right. right. do 4 eexists. split_and!; [exact Hi|reflexivity|apply Hrel|by left].
    + split; [done|]. by right; left.
Qed.

Lemma happens_follows e l l' j s : happens e l = Some l' → runs l !! j = Some s →
  ∃ s', runs l' !! j = Some s' ∧ follows s s'.
Proof.
  intros (_ & [[r Hr]|[Hr|(i & r & r' & l0 & Hi & -> & H0 & Hf)]])%happens_sets Hj.
  - rewrite Hr. exists s. split; [by apply lookup_app_l_Some|apply follows_refl].
  - rewrite Hr. exists s. split; [done|apply follows_refl].
  - by eapply set_follows.
Qed.

Lemma happen_follows es : ∀ l l' j s, happen es l = Some l' → runs l !! j = Some s →
  ∃ s', runs l' !! j = Some s' ∧ follows s s'.
Proof.
  induction es as [|e es IH]; intros l l' j s; cbn.
  { intros [= <-] Hj. exists s. split; [done|apply follows_refl]. }
  destruct (happens e l) as [l1|] eqn:He; [|done]. cbn. intros Hes Hj.
  destruct (happens_follows _ _ _ _ _ He Hj) as (s1 & Hs1 & Hf).
  destruct (IH _ _ _ _ Hes Hs1) as (s' & Hs' & Hf'). exists s'. split; [done|]. by eapply follows_trans.
Qed.

Lemma happen_limit es : ∀ l l', happen es l = Some l' → limit l' = limit l.
Proof.
  induction es as [|e es IH]; intros l l'; cbn; [by intros [= <-]|].
  destruct (happens e l) as [l1|] eqn:He; [|done]. cbn. intros Hl%IH. by rewrite Hl, (proj1 (happens_sets _ _ _ He)).
Qed.

Lemma happen_app es1 es2 l : happen (es1 ++ es2) l = happen es1 l ≫= happen es2.
Proof.
  revert l. induction es1 as [|e es1 IH]; intros l; cbn; [done|]. destruct (happens e l); [apply IH|done].
Qed.

Lemma advances_by_ok k l l' : advances_by k l l' → limiter_ok l → limiter_ok l' ∧ (k + work l' ≤ work l)%nat.
Proof.
  induction 1 as [l|k l l1 l' H1 _ IH]; intros Hl; [split; [done|lia]|].
  destruct (IH (advances_ok _ _ Hl H1)) as [Hok Hk]. split; [done|].
  pose proof (work_shrinks _ _ Hl H1). lia.
Qed.
End Follow.

(** * What the queue promises *)

(** C32. However the runs interleave, arrive, give up and finish, no place is held
    by more runs than the limit, and the channels count exactly the runs that
    hold the place: nothing is leaked when a run gives up half-way, nothing is
    given back twice. A run that has its places has every place it asked for. *)
Theorem places_bounded n es l :
  happen es (NewPlaceLimiter n) = Some l →
  (∀ key, in_channel l key = holders key l ∧ Z.of_nat (holders key l) <= Z.max 0 n)
  ∧ ∀ es1 keys es2 l1 p, es = es1 ++ EArrive keys :: es2 → happen es1 (NewPlaceLimiter n) = Some l1 →
      runs l !! length (runs l1) = Some (Holding p) → 0 < n → ∀ key, key ∈ keys → key ∈ p.
Proof.
  intros Hes. pose proof (happen_ok _ _ _ (new_ok n) Hes) as [_ Hch].
  pose proof (happen_limit _ _ _ Hes) as Hlim. cbn in Hlim. rewrite Hlim in Hch. split.
  { intros key. destruct (Hch key) as [Heq Hle]. split; [done|]. by rewrite <-Heq. }
  intros es1 keys es2 l1 p -> H1 Hp Hn key Hkey. rewrite happen_app, H1 in Hes. cbn in Hes.
  pose proof (happen_limit _ _ _ H1) as Hlim1. cbn in Hlim1.
  unfold Acquire in Hes. rewrite Hlim1 in Hes.
  destruct ((n <=? 0) || bool_decide (keys = [])) eqn:Hc.
  { apply orb_true_iff in Hc as [Hc%Z.leb_le|Hc%bool_decide_eq_true]; [lia|]. subst. by apply elem_of_nil in Hkey. }
  eapply (happen_follows _ _ _ (length (runs l1))) in Hes as (s' & Hs' & Hf).
  2:{ cbn. by rewrite lookup_app_r, Nat.sub_diag by lia. }
  rewrite Hp in Hs'. injection Hs' as <-. destruct Hf as [?|[_ Hf]]; [done|]. cbn in Hf. subst.
  by apply (places_of_spec keys).
Qed.

(** C31. The queue never locks up: once no new run arrives, the runs that wait and
    the runs that finish can take only as many steps as [work] counts, whatever
    their order, and when no step is left every run has been served and has given
    its places back. Runs that wait for several places take them in one order, so
    they never wait for each other in a circle. *)
Theorem everyone_served n es l :
  happen es (NewPlaceLimiter n) = Some l →
  (∀ k l', advances_by k l l' → (k ≤ work l)%nat)
  ∧ ∀ k l', advances_by k l l' → (∀ l'', ¬ advances l' l'') →
      ∀ i r, runs l' !! i = Some r → done_with r = true.
Proof.
  intros Hes. pose proof (happen_ok _ _ _ (new_ok n) Hes) as Hok. split.
  - intros k l' Hk. destruct (advances_by_ok _ _ _ Hk Hok) as [_ Hw]. lia.
  - intros k l' Hk Hstuck i r Hi. destruct (advances_by_ok _ _ _ Hk Hok) as [Hok' _].
    apply not_false_iff_true. intros Hd. destruct (some_advance _ _ _ Hok' Hi Hd) as [l'' Hl'']. by apply (Hstuck l'').
Qed.

(** * Samples *)

(** Two runs with the same two places, asked for in different orders, and one
    place on each: the second waits until the first has finished. *)
Definition crossing : list Event :=
  [EArrive ["b"; "a"]; EArrive ["a"; "b"; "a"]; EGo 0; EGo 1; EGo 0; EGo 0]%string.

Definition crossed : Limiter := default (NewPlaceLimiter 1) (happen crossing (NewPlaceLimiter 1)).

Example crossed_runs : runs crossed = [Holding ["a"; "b"]; Blocked ["a"; "b"] 0]%string.
Proof. vm_compute. reflexivity. Qed.

Lemma places_bounded_witness : (holders "a" crossed ≤ 1)%nat.
Proof.
  destruct (places_bounded 1 crossing crossed eq_refl) as [Hb _]. destruct (Hb "a"%string) as [_ Hle].
  cbn [Z.max Z.compare] in Hle. lia.
Defined.

(** The first run finishes, the second takes both places and finishes. *)
Definition served : Limiter :=
  default crossed (happen [ERelease 0; EGo 1; EGo 1; EGo 1; ERelease 1] crossed).

Lemma everyone_served_witness : (5 ≤ work crossed)%nat.
Proof.
  refine (proj1 (everyone_served 1 crossing crossed eq_refl) 5%nat served _).
  eapply by_one; [by eapply (advance_release 0)|].
  eapply by_one; [by eapply (advance_go 1)|].
  eapply by_one; [by eapply (advance_go 1)|].
  eapply by_one; [by eapply (advance_go 1)|].
  eapply by_one; [by eapply (advance_release 1)|]. apply by_none.
Defined.
