(* ===== verification/Plan.v ===== *)
(** Planning a backup ([internal/backup/runner.go]): which disks take part, which
    kind of backup can be made, on which base, and the record of the run.

    The engine and the presence of [qemu-img] are outside the source: what the
    engine answers is an argument. The notes for the operator are constructors. *)

From S2P Require Import Prelude StateM GoTime Model Layout Grid Format Catalog Chain Replicas Runs.

(** ** Disks *)

(** [ovirt.Disk], as far as planning looks at it. *)
Record Disk := mkDisk {
  d_ID : string;
  d_Alias : string;
  d_Name : string;
  d_ContentType : string;
  d_StorageType : string;
  d_LunStorage : bool;
  d_Shareable : bool;
  d_Format : string;
  d_Backup : string;
  d_Inactive : bool
}.

Definition AliasOrName (d : Disk) : string :=
  if negb (bool_decide (d_Alias d = ""%string)) then d_Alias d else d_Name d.

Definition IsDirectLUN (d : Disk) : bool := bool_decide (d_StorageType d = "lun"%string) || d_LunStorage d.

(** Why a disk is left out. *)
Inductive SkipReason := SkipExcluded | SkipNotData (content : string) | SkipLUN | SkipShared | SkipInactive.

Record SkippedDisk := mkSkippedDisk { sk_DiskID : string; sk_Name : string; sk_Reason : SkipReason }.

Definition skip_reason (exclude : list string) (d : Disk) : option SkipReason :=
  if bool_decide (d_ID d ∈ exclude) then Some SkipExcluded
  else if negb (bool_decide (d_ContentType d = ""%string))
          && negb (bool_decide (d_ContentType d = "data"%string)) then Some (SkipNotData (d_ContentType d))
  else if IsDirectLUN d then Some SkipLUN
  else if d_Shareable d then Some SkipShared
  else None.

(** The loops over the disks: the ones kept, and the ones left out and why. *)
Fixpoint split_disks (why : Disk → option SkipReason) (disks : list Disk) :
    list Disk * list SkippedDisk :=
  match disks with
  | [] => ([], [])
  | d :: disks =>
    let '(out, skipped) := split_disks why disks in
    match why d with
    | Some reason => (out, mkSkippedDisk (d_ID d) (AliasOrName d) reason :: skipped)
    | None => (d :: out, skipped)
    end
  end.

Definition selectDisks (exclude : list string) (all : list Disk) : list Disk * list SkippedDisk :=
  split_disks (skip_reason exclude) all.

Definition dropInactiveDisks (disks : list Disk) : list Disk * list SkippedDisk :=
  split_disks (λ d, if d_Inactive d then Some SkipInactive else None) disks.

(** ** The request and the plan *)
Record RunRequest := mkRunRequest {
  rq_TransferID : string;
  rq_ServerID : string;
  rq_VMID : string;
  rq_Type : BackupType;
  rq_JobRunID : string;
  rq_JobID : string;
  rq_JobName : string;
  rq_FullEvery : Z;
  rq_FallbackType : BackupType;
  rq_LegacyIncrementalMode : LegacyIncrementalMode;
  rq_StorageTargetID : string;
  rq_MirrorTargetIDs : list string;
  rq_ExcludeDiskIDs : list string;
  rq_Quiesce : bool;
  rq_Consistency : Consistency;
  rq_RequireConsistency : bool;
  rq_MaxFreeze : Z;
  rq_MaxReadMBps : Z;
  rq_FreezeBy : FreezeBy;
  rq_FreezeMountpoints : list string;
  rq_Encrypt : bool;
  rq_ExportQcow2 : bool;
  rq_VerifyAfter : VerifyMode;
  rq_VerifyOptions : VerifyOptions;
  rq_Retention : RetentionPolicy;
  rq_OVAHostID : string;
  rq_OVADirectory : string;
  rq_TriggeredBy : string
}.

Record Server := mkServer { srv_ID : string; srv_Name : string; srv_SupportsCBT : bool }.

Inductive Note :=
| NoteNone | NoteNoCBT (server : string) (used : BackupType) | NoteNoTracking | NoteNoParent
| NoteMissing (disks : list string) | NoteChainLength (n : Z) | NoteCheckpointGone (id : string)
| NoteRejected (last : Z) | NoteMixed (disks : list string)
| NoteLegacyNoParent | NoteLegacyMissing | NoteLegacyChainLength (n : Z) | NoteLegacyBase
| NoteLegacy (mode : LegacyIncrementalMode).

Record plan := mkPlan {
  p_Type : BackupType;
  p_ParentRunID : string;
  p_ChainID : string;
  p_ChainIndex : Z;
  p_FromCheckpointID : string;
  p_ChunkSize : Z;
  p_Note : Note;
  p_FullDisks : list (string * string);
  p_LegacyMode : LegacyIncrementalMode
}.

(** A plan without a base: a new chain. *)
Definition root_plan (t : BackupType) (chunk : Z) (n : Note) (mode : LegacyIncrementalMode) : plan :=
  mkPlan t "" "" 0 "" chunk n [] mode.

Definition markFullDisk (id reason : string) (p : plan) : plan :=
  mkPlan (p_Type p) (p_ParentRunID p) (p_ChainID p) (p_ChainIndex p) (p_FromCheckpointID p)
    (p_ChunkSize p) (p_Note p)
    (if existsb (λ d, bool_decide (d.1 = id)) (p_FullDisks p) then p_FullDisks p
     else p_FullDisks p ++ [(id, reason)])
    (p_LegacyMode p).

Definition usesBackupAPI (p : plan) : bool :=
  if negb (bool_decide (p_LegacyMode p = LegacyNone)) then false
  else bool_decide (p_Type p = BackupFull) || bool_decide (p_Type p = BackupIncremental)
    || bool_decide (p_Type p = BackupDifferential).

(** What the engine answers about a machine. *)
Inductive Lookup := Found | Missing | Failed_.

Class Engine := {
  (** The checkpoints of a machine, if the engine answers. *)
  ListCheckpoints : string → option (list string);
  GetSnapshot : string → string → Lookup;
  qemu_img : bool;
  cfg_ChunkSize : Z
}.

Section Plan.
Context `{Documents, Engine}.

Definition HasCheckpoint (vmID id : string) : CM bool :=
  if bool_decide (id = ""%string) then mret false else
  match ListCheckpoints vmID with
  | None => fail EngineError
  | Some ids => mret (existsb (λ i, bool_decide (i = id)) ids)
  end.

Definition validateLegacyMode (req : RunRequest) (disks : list Disk) : CM () :=
  let mode := rq_LegacyIncrementalMode req in
  if negb (LegacyIncrementalMode_Valid mode) then fail (BadLegacyMode mode) else
  if negb (bool_decide (mode = LegacyIncrementalQcow2)) then mret () else
  if bool_decide (rq_Type req = BackupDifferential) then fail QcowDifferential else
  if negb qemu_img then fail NoQemuImg else
  match List.find (λ d, negb (bool_decide (d_Format d = "cow"%string))
                        && negb (bool_decide (d_Format d = "qcow2"%string))) disks with
  | Some d => fail (NotQcow (AliasOrName d) (d_Format d))
  | None => mret ()
  end.

Definition saved_disk (saved : list BackupDisk) (d : Disk) : bool :=
  existsb (λ s, succeeded s && bool_decide (bd_DiskID s = d_ID d)) saved.

Definition disksMissingIn (parent : BackupRun) (disks : list Disk) : CM (list string) :=
  saved ← ListBackupDisks (run_ID parent) ;
  mret (AliasOrName <$> List.filter (λ d, negb (saved_disk saved d)) disks).

Definition chainChunkSize (parent : BackupRun) (fallback : Z) : CM Z :=
  saved ← try (ListBackupDisks (run_ID parent)) ;
  match saved with
  | Err _ | Ok [] => mret fallback
  | Ok (d :: _) =>
    found ← try (GetStorageTarget (run_StorageTargetID parent)) ;
    match found with
    | Err _ => mret fallback
    | Ok target =>
      opened ← try (Open target) ;
      match opened with
      | Err _ => mret fallback
      | Ok _ =>
        mret (match loadDiskManifest target (bd_ManifestKey d) with
              | Some m => if dm_ChunkSize m <=? 0 then fallback else dm_ChunkSize m
              | None => fallback
              end)
      end
    end
  end.

Definition mixedRejectionRetry : Z := 7 * 24 * Hour.

Definition recentMixedRejection (now : Z) (serverID vmID : string) (parent : BackupRun) :
    CM (option Z) :=
  last ← try (LastRunEventAt serverID vmID RunEventDowngradedFull) ;
  mret (match last with
        | Err _ | Ok None => None
        | Ok (Some t) =>
          if mixedRejectionRetry <=? now - t then None
          else if negb (bool_decide (run_Type parent = BackupFull)) && after (run_CreatedAt parent) t
          then None else Some t
        end).

(** The base of a qcow2 chain is not there any more, or never was. *)
Definition qcow_base_missing (mode : LegacyIncrementalMode) (client : bool) (vmID : string)
    (parent : BackupRun) : CM bool :=
  if negb (bool_decide (mode = LegacyIncrementalQcow2)) then mret false else
  if negb (bool_decide (run_LegacyIncrementalMode parent = LegacyIncrementalQcow2))
     || bool_decide (run_SnapshotID parent = ""%string) then mret true else
  if negb client then fail NoClient else
  match GetSnapshot vmID (run_SnapshotID parent) with
  | Found => mret false
  | Missing => mret true
  | Failed_ => fail EngineError
  end.

Definition resolveLegacyPlan (client : bool) (req : RunRequest) (disks : list Disk) (chunk : Z) :
    CM plan :=
  let mode := rq_LegacyIncrementalMode req in
  let base n := mret (root_plan BackupSnapshot chunk n mode) in
  validateLegacyMode req disks ;;
  found ← try (LatestLegacyRun (rq_ServerID req) (rq_VMID req) (rq_StorageTargetID req)
    (bool_decide (rq_Type req = BackupDifferential))) ;
  match found with
  | Err CatNotFound => base NoteLegacyNoParent
  | Err e => fail e
  | Ok parent =>
    missing ← disksMissingIn parent disks ;
    if negb (bool_decide (missing = [])) then base NoteLegacyMissing else
    if (0 <? rq_FullEvery req) && (rq_FullEvery req <=? run_ChainIndex parent + 1)
    then base (NoteLegacyChainLength (rq_FullEvery req)) else
    gone ← qcow_base_missing mode client (rq_VMID req) parent ;
    if (gone : bool) then base NoteLegacyBase else
    size ← chainChunkSize parent chunk ;
    mret (mkPlan (rq_Type req) (run_ID parent) (run_ChainID parent) (run_ChainIndex parent + 1) "" size
      (NoteLegacy mode) [] mode)
  end.

Definition tracked (d : Disk) : bool := bool_decide (d_Backup d = "incremental"%string).

(** On a base: the disks without tracking are copied whole. *)
Definition mixed_plan (req : RunRequest) (parent : BackupRun) (size : Z) (without : list Disk) : plan :=
  foldl (λ p d, markFullDisk (d_ID d) "режим incremental не включён" p)
    (mkPlan (rq_Type req) (run_ID parent) (run_ChainID parent) (run_ChainIndex parent + 1)
      (run_ToCheckpointID parent) size
      (if bool_decide (without = []) then NoteNone else NoteMixed (AliasOrName <$> without)) []
      LegacyNone) without.

(** The engine tracks changes: an increment on the newest point that can carry
    it, or a full backup. *)
Definition resolve_increment (now : Z) (srv : Server) (req : RunRequest) (disks : list Disk)
    (chunk : Z) : CM plan :=
  let full n := mret (root_plan BackupFull chunk n LegacyNone) in
  let without := List.filter (λ d, negb (tracked d)) disks in
  if bool_decide (length without = length disks) then full NoteNoTracking else
  found ← try (LatestUsableRun (rq_ServerID req) (rq_VMID req) (rq_StorageTargetID req)
    (bool_decide (rq_Type req = BackupDifferential))) ;
  match found with
  | Err CatNotFound => full NoteNoParent
  | Err e => fail e
  | Ok parent =>
    missing ← disksMissingIn parent disks ;
    if negb (bool_decide (missing = [])) then full (NoteMissing missing) else
    if (0 <? rq_FullEvery req) && (rq_FullEvery req <=? run_ChainIndex parent + 1)
    then full (NoteChainLength (rq_FullEvery req)) else
    known ← HasCheckpoint (rq_VMID req) (run_ToCheckpointID parent) ;
    if negb known then full (NoteCheckpointGone (run_ToCheckpointID parent)) else
    rejected ← (if negb (bool_decide (without = [])) && negb (bool_decide (rq_JobID req = ""%string))
      then recentMixedRejection now (srv_ID srv) (rq_VMID req) parent else mret None) ;
    match rejected with
    | Some last => full (NoteRejected last)
    | None =>
      size ← chainChunkSize parent chunk ;
      mret (mixed_plan req parent size without)
    end
  end.

Definition resolvePlan (now : Z) (client : bool) (srv : Server) (req : RunRequest) (disks : list Disk) :
    CM plan :=
  let chunk := if cfg_ChunkSize <=? 0 then DefaultChunkSize else cfg_ChunkSize in
  if negb (UsesCBT (rq_Type req)) then mret (root_plan (rq_Type req) chunk NoteNone LegacyNone) else
  let fallback := if bool_decide (rq_FallbackType req = BackupOther "") || UsesCBT (rq_FallbackType req)
    then BackupSnapshot else rq_FallbackType req in
  let legacy := negb (bool_decide (rq_LegacyIncrementalMode req = LegacyNone)) in
  if negb (srv_SupportsCBT srv) && legacy && NeedsParent (rq_Type req)
  then resolveLegacyPlan client req disks chunk else
  if negb (srv_SupportsCBT srv) then
    (if legacy then validateLegacyMode req disks else mret ()) ;;
    mret (root_plan fallback chunk (NoteNoCBT (srv_Name srv) fallback) (rq_LegacyIncrementalMode req))
  else
  if bool_decide (rq_Type req = BackupFull) then mret (root_plan BackupFull chunk NoteNone LegacyNone)
  else resolve_increment now srv req disks chunk.

(** ** From the request to the record *)

Definition new_run (now : Z) (id : string) (req : RunRequest) (srv : Server) (vmName : string)
    (target : StorageTarget) : BackupRun :=
  mkBackupRun id (rq_JobRunID req) (rq_JobID req) (srv_ID srv) (rq_VMID req) vmName (rq_Type req)
    RunPending "" "" 0 (tgt_ID target) "" "" "" "" "" (rq_LegacyIncrementalMode req) 0 0 0 false "" ""
    false None "" None None None None now [].

(** The run after the plan is made. *)
Definition set_plan (p : plan) (prefix : string) (disks : nat) (r : BackupRun) : BackupRun :=
  let chain := if bool_decide (p_ChainID p = ""%string) then run_ID r else p_ChainID p in
  run_set_Type (p_Type p) (run_set_LegacyIncrementalMode (p_LegacyMode p)
    (run_set_ParentRunID (p_ParentRunID p) (run_set_ChainID chain (run_set_ChainIndex (p_ChainIndex p)
    (run_set_FromCheckpointID (p_FromCheckpointID p) (run_set_RepoPath prefix
    (run_set_DiskCount (Z.of_nat disks) r))))))).

Context `{Unicode} (error_text : CatalogError → string).

(** The failure is saved when the run is in the catalogue. *)
Definition failRun {A} (now : Z) (artifacts : option Z) (r : BackupRun) (e : CatalogError) : CM A :=
  let r := run_set_Status RunFailed (run_set_EndedAt (Some now) r) in
  let r := if bool_decide (run_Error r = ""%string) then run_set_Error (error_text e) r else r in
  found ← try (GetBackupRun (run_ID r)) ;
  match found with
  | Ok _ => try (UpdateBackupRun now artifacts r) ;;
            try (AddRunEvent now (run_ID r) (RunEventOther "run_failed")) ;; mret ()
  | Err _ => mret ()
  end ;;
  fail e.

(** What [Execute] finds before it copies anything: the time, the identifiers of
    the run and of its primary copy, and the machine. *)
Record Start := mkStart {
  st_now : Z;
  st_id : string;
  st_copy : string;
  st_server : Server;
  st_vmName : string;
  st_client : bool;
  (** [client.ListVMDisks]. *)
  st_disks : option (list Disk)
}.

(** [Execute] until the run is in the catalogue, for a request that is not an
    export to OVA: the run, the plan, and the disks to copy. The sizes, the
    encryption and compression flags and the list of skipped disks, which only
    describe the run, are not kept. *)
Definition begin_run (s : Start) (req : RunRequest) : CM (BackupRun * plan * list Disk) :=
  target ← GetStorageTarget (rq_StorageTargetID req) ;
  if negb (tgt_Enabled target) then fail (TargetDisabled (tgt_Name target)) else
  if tgt_ReadOnly target then fail (TargetReadOnly (tgt_Name target)) else
  let run := new_run (st_now s) (st_id s) req (st_server s) (st_vmName s) target in
  let fails e := failRun (st_now s) None run e in
  match st_disks s with
  | None => fails EngineError
  | Some all =>
    let disks := (selectDisks (rq_ExcludeDiskIDs req) all).1 in
    if bool_decide (disks = []) && negb (bool_decide (rq_Type req = BackupConfig))
    then fails NoDiskData else
    planned ← try (resolvePlan (st_now s) (st_client s) (st_server s) req disks) ;
    match planned with
    | Err e => fails e
    | Ok p =>
      let active := if usesBackupAPI p then (dropInactiveDisks disks).1 else disks in
      if usesBackupAPI p && bool_decide (active = []) && negb (bool_decide (rq_Type req = BackupConfig))
      then fails AllInactive else
      let prefix := RunPrefix (srv_Name (st_server s)) (rq_VMID req) (st_vmName s) (run_CreatedAt run)
        (run_ID run) in
      r ← CreateTransferBackupRun (st_now s) (st_id s) (st_copy s)
        (set_plan p prefix (length active) run) (rq_TransferID req) ;
      mret (r, p, active)
    end
  end.

(** The engine refused the increment: a new chain without a base. The failure to
    save it is only logged. *)
Definition downgraded (r : BackupRun) : BackupRun :=
  run_set_Type BackupFull (run_set_ParentRunID "" (run_set_ChainIndex 0 (run_set_FromCheckpointID ""
    (run_set_ChainID (run_ID r) r)))).

Definition downgradeToFull (now : Z) (artifacts : option Z) (r : BackupRun) : CM BackupRun :=
  let r := downgraded r in
  try (UpdateBackupRun now artifacts r) ;; mret r.

(** The last save of a run that ended well. *)
Definition finish_run (now : Z) (artifacts : option Z) (req : RunRequest) (r : BackupRun) :
    CM BackupRun :=
  let r := run_set_EndedAt (Some now)
    (if bool_decide (run_Status r = RunPartial) then r else run_set_Status RunSucceeded r) in
  let r := if bool_decide (run_ExpiresAt r = None) && (0 <? MaxAge (rq_Retention req))
    then run_set_ExpiresAt (Some (now + MaxAge (rq_Retention req))) r else r in
  try (UpdateBackupRun now artifacts r) ;; mret r.
End Plan.
