(* ===== verification/PlanFacts.v ===== *)
(** What a plan promises, and what the catalogue is after the run is recorded. *)

From S2P Require Import Prelude StateM GoTime Model Layout Grid Format Retention Catalog Chain Prune PruneFacts Replicas Runs Plan.

(** * The queries *)
Section Queries.
Lemma latest_reads f : leaves contents (latest f).
Proof.
  apply leaves_bind; [auto with backup|]. intros _. apply leaves_bind; [apply leaves_get|]. intros c.
  apply leaves_lift.
Qed.

Lemma newest_contents f c c' : contents c = contents c' → newest_run f c = newest_run f c'.
Proof. intros Hc. unfold newest_run, all_runs. by rewrite (contents_runs _ _ Hc). Qed.

(** The run found is in the catalogue, matches, and is the newest that does. *)
Lemma newest_ok f c r :
  catalog_keyed c → newest_run f c = Some r →
  ca_runs c !! run_ID r = Some r ∧ f r = true
  ∧ ∀ s, ca_runs c !! run_ID s = Some s → f s = true → run_CreatedAt s ≤ run_CreatedAt r.
Proof.
  intros Hk Hr. unfold newest_run in Hr.
  assert (∀ s, s ∈ sort_stable (λ a b, run_CreatedAt b <? run_CreatedAt a) (List.filter f (all_runs c))
    ↔ ca_runs c !! run_ID s = Some s ∧ f s = true) as Hin.
  { intros s. by rewrite sort_stable_elem_of, elem_of_filter_bool, all_runs_elem. }
  assert (StronglySorted (not_after (λ a b, run_CreatedAt b <? run_CreatedAt a))
    (sort_stable (λ a b, run_CreatedAt b <? run_CreatedAt a) (List.filter f (all_runs c)))) as Hs.
  { apply sort_stable_sorted; unfold not_after; [intros x y|intros x y z]; intros; bprop; lia. }
  destruct (sort_stable _ _) as [|r' rs]; [done|]. injection Hr as ->.
  apply StronglySorted_inv in Hs as [_ Hs]. rewrite Forall_forall in Hs.
  destruct (proj1 (Hin r)) as [Hr Hf]; [by left|]. split_and!; [done|done|]. intros s Hs1 Hs2.
  pose proof (proj2 (Hin s) (conj Hs1 Hs2)) as Hsin. apply elem_of_cons in Hsin as [->|Hx]; [lia|].
  specialize (Hs s Hx). unfold not_after in Hs. bprop. lia.
Qed.

Lemma latest_newest f c c' r : latest f c = (c', Ok r) → contents c' = contents c ∧ newest_run f c = Some r.
Proof.
  intros Hrun. split; [eapply leaves_run; [apply latest_reads|exact Hrun]|].
  apply statement_ok in Hrun as (c1 & Hc & Hrun). rewrite get_run in Hrun. injection Hrun as _ Hr.
  apply of_option_ok in Hr. by rewrite <-(newest_contents _ _ _ Hc).
Qed.

Lemma latest_ok f c c' r :
  catalog_keyed c → latest f c = (c', Ok r) →
  contents c' = contents c ∧ ca_runs c !! run_ID r = Some r ∧ f r = true
  ∧ ∀ s, ca_runs c !! run_ID s = Some s → f s = true → run_CreatedAt s ≤ run_CreatedAt r.
Proof. intros Hk [Hc Hr]%latest_newest. split; [done|]. by apply newest_ok. Qed.
End Queries.

(** * What a plan stands on *)
Section Planning.
Context `{Documents, Engine}.

Ltac reads_tac :=
  repeat first [apply latest_reads | apply statement_reads | apply attempt_reads | apply GetStorageTarget_reads
    | apply leaves_ret | apply leaves_fail | apply leaves_lift | apply leaves_get
    | apply leaves_try | apply leaves_bind; [|intros ?] | progress case_match].

Lemma ListBackupDisks_reads id : leaves contents (ListBackupDisks id).
Proof. reads_tac. Qed.
Lemma LastRunEventAt_reads srv vm k : leaves contents (LastRunEventAt srv vm k).
Proof. reads_tac. Qed.
Lemma disksMissingIn_reads p ds : leaves contents (disksMissingIn p ds).
Proof. apply leaves_bind; [apply ListBackupDisks_reads|intros ?; apply leaves_ret]. Qed.
Lemma chainChunkSize_reads p n : leaves contents (chainChunkSize p n).
Proof. unfold chainChunkSize. apply leaves_bind; [apply leaves_try, ListBackupDisks_reads|]. intros ?. reads_tac. Qed.
Lemma recentMixedRejection_reads now srv vm p : leaves contents (recentMixedRejection now srv vm p).
Proof. apply leaves_bind; [apply leaves_try, LastRunEventAt_reads|intros ?; apply leaves_ret]. Qed.
Lemma HasCheckpoint_reads vm id : leaves contents (HasCheckpoint vm id).
Proof. unfold HasCheckpoint. reads_tac. Qed.
Lemma validateLegacyMode_reads req ds : leaves contents (validateLegacyMode req ds).
Proof. unfold validateLegacyMode. reads_tac. Qed.
Lemma qcow_base_missing_reads m cl vm p : leaves contents (qcow_base_missing m cl vm p).
Proof. unfold qcow_base_missing. reads_tac. Qed.

Lemma disksMissingIn_ok p ds c c' m :
  ca_runs c !! run_ID p = Some p → disksMissingIn p ds c = (c', Ok m) →
  contents c' = contents c ∧ m = AliasOrName <$> List.filter (λ d, negb (saved_disk (run_Disks p) d)) ds.
Proof.
  intros Hp Hrun. split; [eapply leaves_run; [apply disksMissingIn_reads|exact Hrun]|].
  apply bind_ok in Hrun as (c1 & saved & Hs & Hrun). injection Hrun as _ <-.
  apply statement_ok in Hs as (c2 & Hc & Hs). rewrite get_run in Hs. injection Hs as _ <-.
  by rewrite (contents_runs _ _ Hc), Hp.
Qed.

Lemma none_missing p ds :
  AliasOrName <$> List.filter (λ d, negb (saved_disk (run_Disks p) d)) ds = [] →
  ∀ d, d ∈ ds → saved_disk (run_Disks p) d = true.
Proof.
  intros Hnil d Hd. destruct (saved_disk (run_Disks p) d) eqn:Hs; [done|].
  assert (d ∈ List.filter (λ d, negb (saved_disk (run_Disks p) d)) ds) as Hin.
  { apply elem_of_filter_bool. by rewrite Hs. }
  apply fmap_nil_inv in Hnil. rewrite Hnil in Hin. by apply elem_of_nil in Hin.
Qed.

(** The base of a plan. *)
Record base_of (c : Catalog) (req : RunRequest) (disks : list Disk) (p : plan) (parent : BackupRun) :
    Prop := {
  bo_live : live_in c parent;
  bo_machine : of_machine (rq_ServerID req) (rq_VMID req) (rq_StorageTargetID req) parent = true;
  bo_finished : finished parent = true;
  bo_parent : p_ParentRunID p = run_ID parent;
  bo_chain : p_ChainID p = run_ChainID parent;
  bo_index : p_ChainIndex p = run_ChainIndex parent + 1;
  bo_type : p_Type p = rq_Type req ∧ NeedsParent (p_Type p) = true;
  bo_differential : rq_Type req = BackupDifferential →
    run_Type parent = BackupFull ∨ run_Type parent = BackupSnapshot;
  bo_disks : ∀ d, d ∈ disks → saved_disk (run_Disks parent) d = true;
  bo_length : 0 < rq_FullEvery req → p_ChainIndex p < rq_FullEvery req
}.

(** A plan that starts a chain. *)
Definition starts_chain (p : plan) : Prop :=
  p_ParentRunID p = ""%string ∧ p_ChainID p = ""%string ∧ p_ChainIndex p = 0
  ∧ p_FromCheckpointID p = ""%string ∧ NeedsParent (p_Type p) = false.

Lemma root_starts t chunk n m : NeedsParent t = false → starts_chain (root_plan t chunk n m).
Proof. by repeat split. Qed.

Lemma markFull_keeps ds : ∀ p, let q := foldl (λ p d, markFullDisk (d_ID d) "режим incremental не включён" p) p ds in
  p_Type q = p_Type p ∧ p_ParentRunID q = p_ParentRunID p ∧ p_ChainID q = p_ChainID p
  ∧ p_ChainIndex q = p_ChainIndex p ∧ p_FromCheckpointID q = p_FromCheckpointID p
  ∧ p_LegacyMode q = p_LegacyMode p.
Proof. induction ds as [|d ds IH]; intros p; cbn; [done|]. apply (IH (markFullDisk _ _ p)). Qed.

Lemma of_machine_live srv vm t c r :
  ca_runs c !! run_ID r = Some r → of_machine srv vm t r = true → live_in c r.
Proof. intros Hr Hm. split; [done|]. unfold of_machine in Hm.
  apply andb_true_iff in Hm as [_ Hm]. by apply negb_true_iff. Qed.

Lemma resolveLegacy_ok client req disks chunk c c' p :
  catalog_keyed c → NeedsParent (rq_Type req) = true →
  resolveLegacyPlan client req disks chunk c = (c', Ok p) →
  contents c' = contents c
  ∧ (starts_chain p ∨ (p_FromCheckpointID p = ""%string ∧ ∃ parent, base_of c req disks p parent)).
Proof.
  intros Hk Hnp Hrun. unfold resolveLegacyPlan in Hrun.
  apply bind_ok in Hrun as (c1 & [] & Hv & Hrun).
  pose proof (leaves_run _ _ _ _ _ (validateLegacyMode_reads _ _) Hv) as Hc1.
  assert (∀ n cc, (mret (root_plan BackupSnapshot chunk n (rq_LegacyIncrementalMode req)) : CM plan) cc = (c', Ok p) →
    contents cc = contents c → contents c' = contents c ∧ (starts_chain p ∨ (p_FromCheckpointID p = ""%string
      ∧ ∃ parent, base_of c req disks p parent))) as Hroot.
  { intros n cc [= <- <-] Hcc. split; [done|left]. by apply root_starts. }
  apply try_inv in Hrun as (c2 & found & Hl & Hrun).
  pose proof (leaves_run _ _ _ _ _ (latest_reads _) Hl) as Hc2. rewrite Hc1 in Hc2.
  destruct found as [parent|e]; [|destruct e; try done; by apply (Hroot _ _ Hrun)].
  apply latest_ok in Hl as (_ & Hp & Hu & _); [|by eapply catalog_keyed_contents].
  rewrite (contents_runs _ _ Hc1) in Hp.
  apply bind_ok in Hrun as (c3 & missing & Hm & Hrun).
  apply disksMissingIn_ok in Hm as [Hc3 Hmiss]; [|by rewrite (contents_runs _ _ Hc2)]. rewrite Hc2 in Hc3.
  case_bool_decide as Hnil; cbn [negb] in Hrun; [|by apply (Hroot _ _ Hrun)].
  destruct (_ && _) eqn:Hlen; [by apply (Hroot _ _ Hrun)|].
  apply bind_ok in Hrun as (c4 & gone & Hg & Hrun).
  pose proof (leaves_run _ _ _ _ _ (qcow_base_missing_reads _ _ _ _) Hg) as Hc4. rewrite Hc3 in Hc4.
  destruct gone; [by apply (Hroot _ _ Hrun)|].
  apply bind_ok in Hrun as (c5 & size & Hz & Hrun).
  pose proof (leaves_run _ _ _ _ _ (chainChunkSize_reads _ _) Hz) as Hc5. injection Hrun as <- <-.
  split; [congruence|right]. split; [done|]. exists parent. unfold legacy_usable in Hu.
  apply andb_true_iff in Hu as [[Hma Hfin]%andb_true_iff Hty%bool_decide_eq_true]. subst missing.
  constructor; cbn; try done.
  - by eapply of_machine_live.
  - intros Hd. rewrite (bool_decide_true _ Hd) in Hty. cbn in Hty. set_solver.
  - by apply none_missing.
  - intros Hfe. apply andb_false_iff in Hlen as [Hlen|Hlen]; bprop; lia.
Qed.

(** An increment of the engine: from a checkpoint it still knows. *)
Definition from_checkpoint (c : Catalog) (req : RunRequest) (p : plan) (parent : BackupRun) : Prop :=
  p_FromCheckpointID p = run_ToCheckpointID parent ∧ p_FromCheckpointID p ≠ ""%string
  ∧ (∃ ids, ListCheckpoints (rq_VMID req) = Some ids ∧ p_FromCheckpointID p ∈ ids)
  ∧ ∃ onlyFull, newest_run (usable (rq_ServerID req) (rq_VMID req) (rq_StorageTargetID req) onlyFull) c
      = Some parent.

Lemma HasCheckpoint_ok vm id c c' : HasCheckpoint vm id c = (c', Ok true) →
  contents c' = contents c ∧ id ≠ ""%string ∧ ∃ ids, ListCheckpoints vm = Some ids ∧ id ∈ ids.
Proof.
  intros Hrun. split; [eapply leaves_run; [apply HasCheckpoint_reads|exact Hrun]|].
  unfold HasCheckpoint in Hrun. case_bool_decide; [done|]. destruct (ListCheckpoints vm) as [ids|]; [|done].
  injection Hrun as _ Hin. split; [done|]. exists ids. split; [done|].
  apply existsb_exists in Hin as (x & Hx & ->%bool_decide_eq_true). by apply list_elem_of_In.
Qed.

Lemma rejected_reads now srv req parent (b : bool) :
  leaves contents (if b then recentMixedRejection now srv (rq_VMID req) parent else mret None).
Proof. destruct b; [apply recentMixedRejection_reads|apply leaves_ret]. Qed.

Lemma resolve_increment_ok now srv req disks chunk c c' p :
  catalog_keyed c → NeedsParent (rq_Type req) = true →
  resolve_increment now srv req disks chunk c = (c', Ok p) →
  contents c' = contents c
  ∧ (starts_chain p ∨ ∃ parent, base_of c req disks p parent ∧ from_checkpoint c req p parent).
Proof.
  intros Hk Hnp Hrun. unfold resolve_increment in Hrun.
  assert (∀ n cc, (mret (root_plan BackupFull chunk n LegacyNone) : CM plan) cc = (c', Ok p) →
    contents cc = contents c → contents c' = contents c ∧ (starts_chain p ∨ ∃ parent,
      base_of c req disks p parent ∧ from_checkpoint c req p parent)) as Hroot.
  { intros n cc [= <- <-] Hcc. split; [done|left]. by apply root_starts. }
  set (without := List.filter _ disks) in Hrun. clearbody without.
  destruct (bool_decide (length without = length disks)); [by apply (Hroot _ _ Hrun)|].
  apply try_inv in Hrun as (c2 & found & Hl & Hrun).
  pose proof (leaves_run _ _ _ _ _ (latest_reads _) Hl) as Hc2.
  destruct found as [parent|e]; [|destruct e; try done; by apply (Hroot _ _ Hrun)].
  apply latest_newest in Hl as [_ Hnew]. destruct (newest_ok _ _ _ Hk Hnew) as (Hp & Hu & _).
  apply bind_ok in Hrun as (c3 & missing & Hm & Hrun).
  apply disksMissingIn_ok in Hm as [Hc3 Hmiss]; [|by rewrite (contents_runs _ _ Hc2)]. rewrite Hc2 in Hc3.
  destruct (bool_decide (missing = [])) eqn:Hnil; cbn [negb] in Hrun; [|by apply (Hroot _ _ Hrun)].
  apply bool_decide_eq_true in Hnil.
  destruct (_ && _) eqn:Hlen in Hrun; [by apply (Hroot _ _ Hrun)|].
  apply bind_ok in Hrun as (c4 & known & Hg & Hrun).
  pose proof (leaves_run _ _ _ _ _ (HasCheckpoint_reads _ _) Hg) as Hc4. rewrite Hc3 in Hc4.
  destruct known; cbn [negb] in Hrun; [|by apply (Hroot _ _ Hrun)].
  apply HasCheckpoint_ok in Hg as (_ & Hne & ids & Hids & Hid).
  apply bind_ok in Hrun as (c5 & rejected & Hr & Hrun).
  pose proof (leaves_run _ _ _ _ _ (rejected_reads _ _ _ _ _) Hr) as Hc5. rewrite Hc4 in Hc5.
  destruct rejected as [last|]; [by apply (Hroot _ _ Hrun)|].
  apply bind_ok in Hrun as (c6 & size & Hz & Hrun).
  pose proof (leaves_run _ _ _ _ _ (chainChunkSize_reads _ _) Hz) as Hc6. injection Hrun as <- <-.
  split; [congruence|right]. exists parent. unfold usable in Hu.
  apply andb_true_iff in Hu as [[[Hma Hfin]%andb_true_iff _]%andb_true_iff Hty]. subst missing.
  unfold mixed_plan.
  match goal with |- base_of _ _ _ (foldl _ ?p0 _) _ ∧ _ => set (p1 := p0) end.
  destruct (markFull_keeps without p1) as (E1 & E2 & E3 & E4 & E5 & _).
  unfold from_checkpoint. rewrite E5. split; [|by split_and!; [done| |exists ids|eexists]].
  constructor; rewrite ?E1, ?E2, ?E3, ?E4; cbn; try done.
  - by eapply of_machine_live.
  - intros Hd. rewrite (bool_decide_true _ Hd) in Hty. cbn in Hty. left. by bprop.
  - by apply none_missing.
  - intros Hfe. apply andb_false_iff in Hlen as [Hlen|Hlen]; bprop; lia.
Qed.

Lemma needs_uses_cbt t : UsesCBT t = true → t = BackupFull ∨ NeedsParent t = true.
Proof. unfold UsesCBT, NeedsParent. destruct t; cbn; auto. Qed.

Lemma resolvePlan_ok now client srv req disks c c' p :
  catalog_keyed c → resolvePlan now client srv req disks c = (c', Ok p) →
  contents c' = contents c
  ∧ (starts_chain p ∨ ∃ parent, base_of c req disks p parent
       ∧ if srv_SupportsCBT srv then from_checkpoint c req p parent else p_FromCheckpointID p = ""%string).
Proof.
  intros Hk Hrun. unfold resolvePlan in Hrun. cbv zeta in Hrun. set (chunk := if _ <=? 0 then _ else _) in Hrun.
  destruct (UsesCBT (rq_Type req)) eqn:Hcbt; cbn [negb] in Hrun; cycle 1.
  { injection Hrun as <- <-. split; [done|left]. apply root_starts. unfold NeedsParent, UsesCBT in *.
    by destruct (rq_Type req). }
  destruct (srv_SupportsCBT srv); cbn [negb andb] in Hrun.
  - case_bool_decide as Hfull; [injection Hrun as <- <-; split; [done|left]; by apply root_starts|].
    destruct (needs_uses_cbt _ Hcbt) as [?|Hnp]; [done|].
    by apply resolve_increment_ok in Hrun.
  - destruct (_ && NeedsParent (rq_Type req)) eqn:Hleg.
    + apply andb_true_iff in Hleg as [_ Hnp]. apply resolveLegacy_ok in Hrun as [Hc Hp]; [|done..].
      split; [done|]. destruct Hp as [?|(Hf & parent & Hb)]; [by left|right; by exists parent].
    + apply bind_ok in Hrun as (c1 & [] & Hv & Hrun). injection Hrun as <- <-. split.
      { destruct (negb _); [|by injection Hv as <-].
        eapply leaves_run; [apply validateLegacyMode_reads|exact Hv]. }
      left. apply root_starts. destruct (_ || _) eqn:Hfb; [done|]. apply orb_false_iff in Hfb as [_ Hfb].
      unfold NeedsParent, UsesCBT in *. by destruct (rq_FallbackType req).
Qed.

Lemma resolvePlan_reads now client srv req disks : leaves contents (resolvePlan now client srv req disks).
Proof.
  unfold resolvePlan, resolve_increment, resolveLegacyPlan. cbv zeta.
  repeat first [apply latest_reads | apply validateLegacyMode_reads | apply disksMissingIn_reads
    | apply qcow_base_missing_reads | apply chainChunkSize_reads | apply HasCheckpoint_reads
    | apply recentMixedRejection_reads | apply leaves_ret | apply leaves_fail | apply leaves_try
    | apply leaves_bind; [|intros ?] | progress case_match].
Qed.

(** C16. A plan that has a base names a run that exists, is live, finished, of the
    same machine and storage, and has a saved copy of every disk the plan was
    made for; the new run is one further in the same chain, shorter than the
    configured length; a differential plan's base is a full point; and with an
    engine that tracks changes the increment starts at the checkpoint of the
    base, which the engine still knows. A plan without a base starts a chain and
    is not an increment. Planning writes nothing. *)
Theorem plan_has_base now client srv req disks c c' p :
  catalog_keyed c → resolvePlan now client srv req disks c = (c', Ok p) →
  contents c' = contents c
  ∧ ((p_ParentRunID p = ""%string ∧ p_ChainID p = ""%string ∧ p_ChainIndex p = 0
      ∧ p_FromCheckpointID p = ""%string ∧ NeedsParent (p_Type p) = false)
     ∨ ∃ parent, live_in c parent ∧ p_ParentRunID p = run_ID parent
        ∧ run_ServerID parent = rq_ServerID req ∧ run_VMID parent = rq_VMID req
        ∧ run_StorageTargetID parent = rq_StorageTargetID req
        ∧ (run_Status parent = RunSucceeded ∨ run_Status parent = RunPartial)
        ∧ (∀ d, d ∈ disks → ∃ s, s ∈ run_Disks parent ∧ bd_DiskID s = d_ID d ∧ bd_Status s = RunSucceeded)
        ∧ p_Type p = rq_Type req ∧ NeedsParent (p_Type p) = true
        ∧ (p_Type p = BackupDifferential → run_Type parent = BackupFull ∨ run_Type parent = BackupSnapshot)
        ∧ p_ChainID p = run_ChainID parent ∧ p_ChainIndex p = run_ChainIndex parent + 1
        ∧ (0 < rq_FullEvery req → p_ChainIndex p < rq_FullEvery req)
        ∧ (srv_SupportsCBT srv = true → p_FromCheckpointID p = run_ToCheckpointID parent
             ∧ p_FromCheckpointID p ≠ ""%string
             ∧ ∃ ids, ListCheckpoints (rq_VMID req) = Some ids ∧ p_FromCheckpointID p ∈ ids)).
Proof.
  intros Hk Hrun. apply resolvePlan_ok in Hrun as [Hc Hp]; [|done]. split; [done|].
  destruct Hp as [Hs|(parent & [Hb1 Hb2 Hb3 Hb4 Hb5 Hb6 [Hb7 Hb7'] Hb8 Hb9 Hb10] & Hcp)]; [by left|right].
  exists parent. unfold of_machine in Hb2. unfold finished in Hb3.
  apply andb_true_iff in Hb2 as [[[? ?]%andb_true_iff ?]%andb_true_iff _]. bprop.
  split_and!; try done.
  - intros d Hd. specialize (Hb9 d Hd). unfold saved_disk in Hb9. apply existsb_exists in Hb9 as (s & Hs & Hsd).
    apply andb_true_iff in Hsd as [Hs1 Hs2]. unfold succeeded in Hs1. exists s.
    split_and!; [by apply list_elem_of_In|by bprop|by bprop].
  - rewrite Hb7. done.
  - intros Hcbt. rewrite Hcbt in Hcp. by destruct Hcp as (? & ? & ? & _).
Qed.
End Planning.

(** * Recording a run *)
Section Record.
Lemma in_tx_err {A} (m : CM A) c c' e : in_tx m c = (c', Err e) → contents c' = contents c.
Proof. unfold in_tx. destruct (m c) as [c1 [a|e1]]; [done|]. by intros [= <- _]. Qed.

Lemma in_tx_ok {A} (m : CM A) c c' a : in_tx m c = (c', Ok a) → m c = (c', Ok a).
Proof. unfold in_tx. by destruct (m c) as [c1 [a1|e]]. Qed.

Lemma insert_run_ok tid r c c' : insert_run tid r c = (c', Ok ()) →
  ca_runs c !! run_ID r = None ∧ ca_runs c' = <[run_ID r := insert_columns r]> (ca_runs c).
Proof.
  intros Hrun%in_tx_ok. apply statement_ok in Hrun as (c1 & Hc1 & Hrun).
  apply statement_ok in Hrun as (c2 & Hc2 & Hrun). rewrite get_run in Hrun.
  apply bind_ok in Hrun as (c3 & [] & Hq & Hrun).
  assert (c3 = c2) as ->.
  { destruct (List.find _ _); [|by injection Hq]. destruct (_ && _); [done|by injection Hq]. }
  apply statement_ok in Hrun as (c4 & Hc4 & Hrun). rewrite get_run in Hrun.
  assert (ca_runs c4 = ca_runs c) as Hr by (apply contents_runs; congruence).
  case_bool_decide as Hin; [done|]. injection Hrun as <-. rewrite Hr in Hin. cbn [ca_runs with_runs].
  split; [|by rewrite Hr]. destruct (ca_runs c !! run_ID r); [|done]. destruct Hin. by eexists.
Qed.

Lemma EnsurePrimary_runs now id r : leaves ca_runs (EnsurePrimaryCopy now id r).
Proof.
  unfold EnsurePrimaryCopy, CreateBackupCopy. apply leaves_bind.
  - apply leaves_try. apply leaves_bind; [apply reads_runs, statement_reads|intros _]. leaves_tac.
  - intros [p|e]; [apply leaves_ret|]. destruct e; try apply leaves_fail.
    apply reads_runs, GetBackupCopyForTarget_reads.
Qed.

Lemma PurgeRunRecord_runs id c c' res : PurgeRunRecord id c = (c', res) →
  ca_runs c' = ca_runs c ∨ ca_runs c' = delete id (ca_runs c).
Proof.
  unfold PurgeRunRecord. destruct (statement c) as [c1 [[]|e]] eqn:Hst;
    pose proof (leaves_run _ _ _ _ _ (statement_reads) Hst) as Hc.
  - rewrite (bind_run _ _ _ _ _ Hst), get_run. intros [= <- _]. right. cbn. by rewrite (contents_runs _ _ Hc).
  - run_st. rewrite Hst. intros [= <- _]. left. by apply contents_runs.
Qed.

(** Creating a run adds at most one row, and only where there was none. *)
Lemma create_run_cases now fresh copyID r tid c c' res :
  let r' := run_defaults now fresh r in
  CreateTransferBackupRun now fresh copyID r tid c = (c', res) →
  (ca_runs c' = ca_runs c ∧ is_ok res = false)
  ∨ (ca_runs c !! run_ID r' = None ∧ ca_runs c' = <[run_ID r' := insert_columns r']> (ca_runs c)
     ∧ (∀ x, res = Ok x → x = r')).
Proof.
  cbv zeta. unfold CreateTransferBackupRun. set (r' := run_defaults now fresh r).
  destruct (insert_run tid r' c) as [c1 [[]|e]] eqn:Hins; cycle 1.
  { run_st. rewrite Hins. intros [= <- <-]. left. split; [|done]. by apply in_tx_err, contents_runs in Hins. }
  rewrite (bind_run _ _ _ _ _ Hins). apply insert_run_ok in Hins as [Hno Hc1].
  intros Hrun. apply try_inv in Hrun as (c2 & found & Hen & Hrun).
  pose proof (leaves_run _ _ _ _ _ (EnsurePrimary_runs _ _ _) Hen) as Hc2. rewrite Hc1 in Hc2.
  destruct found as [p|e].
  - injection Hrun as <- <-. right. split_and!; [done|done|]. by intros x [= <-].
  - apply try_inv in Hrun as (c3 & u & Hp & Hrun). injection Hrun as <- <-.
    apply PurgeRunRecord_runs in Hp as [Hc3|Hc3]; rewrite Hc3, Hc2; [by right|left].
    split; [|done]. by rewrite delete_insert_id.
Qed.

Lemma run_defaults_place now fresh r :
  run_ID r ≠ ""%string → run_ChainID r ≠ ""%string →
  let r' := run_defaults now fresh r in
  run_ID r' = run_ID r ∧ run_ParentRunID r' = run_ParentRunID r ∧ run_ChainID r' = run_ChainID r
  ∧ run_Deleted r' = run_Deleted r.
Proof.
  intros Hid Hch. unfold run_defaults. rewrite (bool_decide_false (run_ID r = _)) by done. cbv zeta.
  repeat case_match; cbn in *; bprop; done.
Qed.
End Record.

Section Begin.
Context `{Documents, Engine, Unicode} (error_text : CatalogError → string).

Lemma failRun_runs {A} now art r e c :
  ca_runs c !! run_ID r = None → ca_runs (failRun (A := A) error_text now art r e c).1 = ca_runs c.
Proof.
  intros Hno. unfold failRun. cbv zeta. set (r' := if bool_decide _ then _ else _).
  assert (run_ID r' = run_ID r) as Hid by (unfold r'; by case_bool_decide).
  rewrite Hid. destruct (GetBackupRun (run_ID r) c) as [c1 found] eqn:Hg.
  rewrite (try_run _ _ _ _ _ Hg). destruct found as [q|e'].
  - apply GetBackupRun_ok in Hg as [Hq _]. congruence.
  - pose proof (leaves_run _ _ _ _ _ (GetBackupRun_reads _) Hg) as Hc. run_st. by apply contents_runs.
Qed.

(** The identifier of the new run is fresh. *)
Definition fresh_id (c : Catalog) (id : string) : Prop :=
  id ≠ ""%string ∧ ca_runs c !! id = None ∧ ca_runs c !! ""%string = None
  ∧ ∀ s, ca_runs c !! run_ID s = Some s → run_ParentRunID s ≠ id.

Definition chains_named (c : Catalog) : Prop := ∀ id r, ca_runs c !! id = Some r → run_ChainID r ≠ ""%string.

Lemma set_plan_extends c req disks p prefix n r0 :
  fresh_id c (run_ID r0) → chains_named c → run_Deleted r0 = false →
  (starts_chain p ∨ ∃ parent, base_of c req disks p parent) →
  let r := set_plan p prefix n r0 in
  run_ID r = run_ID r0 ∧ run_ChainID r ≠ ""%string ∧ run_Deleted r = false
  ∧ run_ID r0 ≠ run_ParentRunID r
  ∧ (run_ParentRunID r = ""%string ∨ ∃ q, live_in c q ∧ run_ParentRunID r = run_ID q
       ∧ run_ChainID r = run_ChainID q).
Proof.
  intros (Hne & Hno & Hemp & Hchild) Hnamed Hdel Hp. cbn.
  destruct Hp as [(Hp1 & Hp2 & _)|(q & Hb)].
  - rewrite Hp1, Hp2, bool_decide_true by done. split_and!; try done. by left.
  - pose proof (bo_parent _ _ _ _ _ Hb) as Hpar. pose proof (bo_chain _ _ _ _ _ Hb) as Hchain.
    destruct (bo_live _ _ _ _ _ Hb) as [Hq Hql]. pose proof (Hnamed _ _ Hq) as Hqn.
    rewrite Hpar, Hchain, bool_decide_false by done. split_and!; try done.
    + intros Heq. rewrite Heq in Hno. congruence.
    + right. by exists q.
Qed.

Lemma insert_extends c seen r :
  sound_catalog seen c → fresh_id c (run_ID r) → run_ID r ≠ run_ParentRunID r → run_Deleted r = false →
  (run_ParentRunID r = ""%string ∨ ∃ q, live_in c q ∧ run_ParentRunID r = run_ID q
     ∧ run_ChainID r = run_ChainID q) →
  sound_catalog seen (with_runs (<[run_ID r := insert_columns r]> (ca_runs c)) c).
Proof.
  intros Hs (Hne & Hno & Hemp & Hchild) Hself Hdel Hpar.
  change (run_ID r) with (run_ID (insert_columns r)). apply backup_sound; [|done|done].
  split_and!; [done|done|done|]. destruct Hpar as [Hp|(q & ?)]; [by left|right; by exists q].
Qed.

(** The state in which chains are what they should be. *)
Record good_catalog (c : Catalog) : Prop := {
  gc_sound : sound_catalog [] c;
  gc_named : chains_named c
}.

Lemma good_runs c c' : ca_runs c' = ca_runs c → good_catalog c → good_catalog c'.
Proof.
  intros Hr [H1' H2']. split; [by apply (sound_runs _ c)|]. unfold chains_named. by rewrite Hr.
Qed.

Lemma create_good now copyID tid req disks p prefix n r0 c c' res :
  good_catalog c → fresh_id c (run_ID r0) → run_Deleted r0 = false →
  (starts_chain p ∨ ∃ parent, base_of c req disks p parent) →
  CreateTransferBackupRun now (run_ID r0) copyID (set_plan p prefix n r0) tid c = (c', res) →
  good_catalog c' ∧ (∀ x, res = Ok x → ca_runs c' = <[run_ID x := insert_columns x]> (ca_runs c)
    ∧ run_ID x = run_ID r0 ∧ run_ParentRunID x = p_ParentRunID p).
Proof.
  intros [Hs Hn] Hfr Hdel Hp Hrun.
  destruct (set_plan_extends c req disks p prefix n r0 Hfr Hn Hdel Hp) as (Hid & Hch & Hd & Hself & Hpar).
  set (r := set_plan p prefix n r0) in *.
  destruct (run_defaults_place now (run_ID r0) r) as (E1 & E2 & E3 & E4).
  { rewrite Hid. apply Hfr. } { done. }
  apply create_run_cases in Hrun as [[Hc Hf]|(Hno & Hc & Hx)].
  - split; [by apply (good_runs c)|]. intros x ->. done.
  - split; [|intros x Hok; rewrite (Hx x Hok); split; [done|]; by rewrite E1, E2].
    apply (good_runs (with_runs (<[run_ID r := insert_columns (run_defaults now (run_ID r0) r)]> (ca_runs c)) c)).
    { cbn. by rewrite Hc, E1. }
    rewrite <-E1. split.
    + apply insert_extends; rewrite ?E1, ?E2, ?E3, ?E4; try done; rewrite ?Hid; try done.
    + intros id q. cbn. intros [[_ <-]|[_ Hq]]%lookup_insert_Some; [cbn; by rewrite E3|by apply (Hn id)].
Qed.

(** C17. Recording a new backup keeps the catalogue's chains whole, whatever fails
    on the way: if every live run had a live parent in its own chain before
    [Execute] planned and recorded the run, every live run has one afterwards, the
    new one included; and the row that is stored is the planned run. *)
Theorem begin_keeps_chains s req c c' res :
  good_catalog c → fresh_id c (st_id s) →
  begin_run error_text s req c = (c', res) →
  good_catalog c' ∧ ∀ run p disks, res = Ok (run, p, disks) →
    ca_runs c' = <[st_id s := insert_columns run]> (ca_runs c)
    ∧ run_ID run = st_id s ∧ run_ParentRunID run = p_ParentRunID p.
Proof.
  intros Hg Hfr Hrun. unfold begin_run in Hrun.
  assert (∀ c1 c2, contents c2 = contents c1 → good_catalog c1 → good_catalog c2) as Hgc.
  { intros c1 c2 Hc. by apply good_runs, contents_runs. }
  destruct (GetStorageTarget (rq_StorageTargetID req) c) as [c1 found] eqn:Ht.
  pose proof (leaves_run _ _ _ _ _ (GetStorageTarget_reads _) Ht) as Hc1.
  destruct found as [target|e]; cycle 1.
  { revert Hrun. run_st. rewrite Ht. intros [= <- <-]. split; [by apply (Hgc c)|done]. }
  rewrite (bind_run _ _ _ _ _ Ht) in Hrun.
  destruct (negb _); [injection Hrun as <- <-; split; [by apply (Hgc c)|done]|].
  destruct (tgt_ReadOnly _); [injection Hrun as <- <-; split; [by apply (Hgc c)|done]|].
  cbv zeta in Hrun. set (run := new_run _ _ _ _ _ _) in Hrun.
  assert (∀ c2 e, contents c2 = contents c →
    failRun error_text (st_now s) None run e c2 = (c', res) → good_catalog c'
      ∧ ∀ r p ds, res = Ok (r, p, ds) → ca_runs c' = <[st_id s := insert_columns r]> (ca_runs c)
        ∧ run_ID r = st_id s ∧ run_ParentRunID r = p_ParentRunID p) as Hfail.
  { intros c2 e Hc2 Hf. assert (ca_runs c2 = ca_runs c) as Hr2 by (by apply contents_runs).
    pose proof (failRun_runs (A := BackupRun * plan * list Disk) (st_now s) None run e c2) as Hr.
    rewrite Hf in Hr. cbn [fst] in Hr. rewrite Hr2 in Hr. split; [apply (good_runs c); [apply Hr, Hfr|done]|].
    intros r p ds ->. exfalso. revert Hf. unfold failRun. cbv zeta. intros Hf.
    apply try_inv in Hf as (c3 & o & _ & Hf). apply bind_ok in Hf as (c4 & u & _ & Hf). done. }
  destruct (st_disks s) as [all|]; [|by apply (Hfail c1 EngineError)].
  destruct (_ && _); [by apply (Hfail c1 NoDiskData)|].
  apply try_inv in Hrun as (c2 & planned & Hp & Hrun).
  destruct planned as [p|e].
  - apply resolvePlan_ok in Hp as [Hc2 Hb]; [|eapply catalog_keyed_contents; [symmetry; exact Hc1|apply Hg]].
    destruct (_ && _ && _); [apply (Hfail c2 AllInactive); [congruence|done]|].
    assert (ca_runs c1 = ca_runs c) as Hr1 by (by apply contents_runs).
    assert (ca_runs c2 = ca_runs c) as Hr2 by (apply contents_runs; congruence).
    assert (good_catalog c2 ∧ fresh_id c2 (run_ID run) ∧ (starts_chain p ∨ ∃ q,
      base_of c2 req (selectDisks (rq_ExcludeDiskIDs req) all).1 p q)) as (Hg2 & Hfr2 & Hb2).
    { split; [by apply (good_runs c)|]. split; [by unfold fresh_id; rewrite Hr2|].
      destruct Hb as [?|(q & Hq & _)]; [by left|right; exists q]. destruct Hq. constructor; try done.
      unfold live_in in *. by rewrite Hr2, <-Hr1. }
    apply bind_inv in Hrun as [(c3 & r & Hcr & Hrun)|(c3 & e & Hcr & Hrun)];
      apply (create_good _ _ _ req (selectDisks (rq_ExcludeDiskIDs req) all).1) in Hcr as [Hg3 Hok]; try done.
    + injection Hrun as <- <-. split; [done|]. intros r' p' ds [= <- <- <-].
      destruct (Hok r eq_refl) as (Hc3 & Hid & Hpar). by rewrite Hc3, Hid, Hr2.
    + by injection Hrun as -> ->.
  - apply (Hfail c2 e); [|done]. pose proof (leaves_run _ _ _ _ _ (resolvePlan_reads _ _ _ _ _) Hp). congruence.
Qed.
End Begin.

(** * A run that was turned into a full one *)
Section Downgrade.
Context `{Documents}.

(** A run that is not a full point and has no parent is in no chain that loads. *)
Lemma orphan_not_loaded fuel runID copyID c c' set q :
  catalog_keyed c → ca_runs c !! ""%string = None → ca_runs c !! run_ID q = Some q →
  NeedsParent (run_Type q) = true → run_ParentRunID q = ""%string →
  LoadChainCopy fuel runID copyID c = (c', Ok set) → (q ∉ cs_Runs set) ∧ cs_Leaf set ∈ cs_Runs set.
Proof.
  intros Hk Hemp Hq Hty Hpar Hrun.
  apply load_steps in Hrun as (c2 & c3 & c4 & leaf & sel & t & root & rest & u & Hc2 & Hl & Hdel & _
    & Hwalk & Hok & _ & Hrun).
  apply read_documents_runs in Hrun as [-> ->]. pose proof (Hk _ _ Hl) as Hlid.
  apply walk_ok in Hwalk as (Hc3 & up & Hup & Hlast & Hlink & Hall & Hnd & _ & root' & Hhead & Hroot);
    [|by eapply catalog_keyed_contents|by rewrite (contents_runs _ _ Hc2), Hlid|done].
  rewrite app_nil_r in Hup. subst up. injection Hhead as <-. split.
  - intros Hin. apply list_elem_of_lookup_1 in Hin as [[|i] Hi].
    + injection Hi as ->. unfold root_ok, NeedsParent in *. destruct (run_Type q); done.
    + destruct (lookup_lt_is_Some_2 (root :: rest) i) as [r Hr]; [apply lookup_lt_Some in Hi; lia|].
      pose proof (Hlink i r q Hr Hi) as Hrq. rewrite Forall_forall in Hall.
      destruct (Hall r) as [Hrl _]; [by eapply list_elem_of_lookup_2|].
      rewrite <-Hrq, Hpar, (contents_runs _ _ Hc2), Hemp in Hrl. done.
  - rewrite last_Some in Hlast. destruct Hlast as [l ->]. apply elem_of_app. right. by left.
Qed.

Lemma UpdateBackupRun_run now art r c q :
  ca_faults c = [] → ca_runs c !! run_ID r = Some q →
  ∃ c', UpdateBackupRun now art r c = (c', Ok ()) ∧ ca_faults c' = []
    ∧ ca_runs c' = <[run_ID r := update_run_columns r q]> (ca_runs c).
Proof.
  intros Hf Hq. unfold UpdateBackupRun. rewrite (bind_run _ _ _ _ _ (update_run_ok _ _ _ _ Hf Hq)).
  cbn [negb]. unfold SyncPrimaryCopy. cbv zeta.
  erewrite bind_run by (apply update_copies_run; exact Hf). by eexists.
Qed.

(** A run the engine made the service turn into a full one cannot be restored.
    The run in memory is a full point of a new chain, but saving a run never
    writes its kind: after it has ended well and every statement has succeeded,
    the row is still an increment, now without a parent, and neither the run
    itself nor any run based on it ever loads. *)
Theorem downgraded_unreadable now now' art art' req r q c :
  ca_faults c = [] → catalog_keyed c → ca_runs c !! ""%string = None →
  ca_runs c !! run_ID r = Some q → NeedsParent (run_Type q) = true →
  ∃ c1 r1 c2 r2 row, downgradeToFull now art r c = (c1, Ok r1)
    ∧ finish_run now' art' req r1 c1 = (c2, Ok r2)
    ∧ run_Type r2 = BackupFull ∧ run_ChainID r2 = run_ID r
    ∧ ca_runs c2 !! run_ID r = Some row ∧ run_Type row = run_Type q ∧ finished row = true
    ∧ ∀ fuel id copyID c3 set, LoadChainCopy fuel id copyID c2 = (c3, Ok set) →
        id ≠ run_ID r ∧ ¬ row ∈ cs_Runs set.
Proof.
  intros Hf Hk Hemp Hq Hty. unfold downgradeToFull. cbv zeta.
  destruct (UpdateBackupRun_run now art (downgraded r) c q Hf Hq) as (c1 & Hup1 & Hf1 & Hr1).
  rewrite (try_run _ _ _ _ _ Hup1). cbn [run_ID downgraded run_set_Type] in Hr1.
  set (q1 := update_run_columns (downgraded r) q) in Hr1.
  exists c1, (downgraded r). unfold finish_run. cbv zeta.
  set (e := if bool_decide (run_Status _ = _) then _ else _). set (r2 := if _ && _ then _ else _).
  assert (run_ID r2 = run_ID r ∧ run_Type r2 = BackupFull ∧ run_ChainID r2 = run_ID r
    ∧ run_ParentRunID r2 = ""%string ∧ finished r2 = true) as (Hid & Ht2 & Hch2 & Hpar2 & Hfin).
  { unfold r2, e. destruct (_ && _); case_bool_decide as Hst; unfold finished; cbn; split_and!; try done;
      by apply bool_decide_eq_true; auto. }
  assert (ca_runs c1 !! run_ID r2 = Some q1) as Hq1 by (by rewrite Hid, Hr1, lookup_insert_eq).
  destruct (UpdateBackupRun_run now' art' r2 c1 q1 Hf1 Hq1) as (c2 & Hup2 & _ & Hr2).
  rewrite (try_run _ _ _ _ _ Hup2). exists c2, r2, (update_run_columns r2 q1).
  rewrite Hid in Hr2. split_and!; try done.
  { by rewrite Hr2, lookup_insert_eq. }
  assert (run_ID q = run_ID r) as Hqid by by apply Hk.
  intros fuel id copyID c3 set Hload.
  destruct (orphan_not_loaded fuel id copyID c2 c3 set (update_run_columns r2 q1)) as [Hno Hleaf]; try done.
  - intros i x. rewrite Hr2, Hr1. intros [[<- <-]|[_ [[<- <-]|[_ Hx]]%lookup_insert_Some]]%lookup_insert_Some;
      [exact Hqid|exact Hqid|by apply Hk].
  - rewrite Hr2, Hr1, !lookup_insert_ne; [done|..]; cbn; intros Heq; by rewrite Heq, Hemp in Hq.
  - change (run_ID (update_run_columns r2 q1)) with (run_ID q). by rewrite Hr2, Hqid, lookup_insert_eq.
  - split; [|done]. intros ->. apply Hno. apply load_steps in Hload as (? & ? & ? & leaf & ? & ? & ? & ? & ?
      & ? & Hl & ? & ? & ? & ? & ? & Hrd). apply read_documents_runs in Hrd as [_ Hlf].
    rewrite Hr2, lookup_insert_eq in Hl. injection Hl as ->. by rewrite Hlf in Hleaf.
Qed.
End Downgrade.
