(* ===== verification/Checkpoints.v ===== *)
(** Rotation of checkpoints ([internal/backup/checkpoints.go],
    [checkpoint_prune.go]): which checkpoints of a machine the service deletes on
    the engine after a backup.

    What the engine lists, and which deletions it refuses, are arguments. *)

From S2P Require Import Prelude StateM GoTime Model Grid Format Catalog Chain Runs Plan PlanFacts.

Record Checkpoint := mkCheckpoint { ck_ID : string; ck_ParentID : string; ck_Created : Z }.

(** ** The order of the checkpoints *)

(** Without a parent among the listed ones. *)
Definition is_root (known : list string) (cp : Checkpoint) : bool :=
  bool_decide (ck_ParentID cp = ""%string) || negb (bool_decide (ck_ParentID cp ∈ known)).

(** The loop over the links: the children by parent, the roots, and whether a
    parent has two children. *)
Fixpoint link_checkpoints (known : list string) (cps : list Checkpoint) (children : gmap string string)
    (roots : list string) (branched : bool) : gmap string string * list string * bool :=
  match cps with
  | [] => (children, roots, branched)
  | cp :: cps =>
    if is_root known cp then link_checkpoints known cps children (roots ++ [ck_ID cp]) branched
    else link_checkpoints known cps (<[ck_ParentID cp := ck_ID cp]> children) roots
           (branched || bool_decide (is_Some (children !! ck_ParentID cp)))
  end.

(** From the root on, at most [n] links. *)
Fixpoint follow (n : nat) (children : gmap string string) (id : string) : list string :=
  match n with
  | O => []
  | S n => if bool_decide (id = ""%string) then []
           else id :: follow n children (default ""%string (children !! id))
  end.

Definition by_age (cps : list Checkpoint) : list string :=
  ck_ID <$> sort_stable (λ a b, ck_Created a <? ck_Created b) cps.

Definition ovirtCheckpointChain (cps : list Checkpoint) : list string :=
  let '(children, roots, branched) := link_checkpoints (ck_ID <$> cps) cps ∅ [] false in
  match roots with
  | [root] =>
    let chain := follow (length cps) children root in
    if negb branched && bool_decide (length chain = length cps) then chain else by_age cps
  | _ => by_age cps
  end.

(** ** What may go *)
Definition removable (ours : string → bool) (keep : gset string) (id : string) : bool :=
  negb (bool_decide (id = ""%string)) && ours id && negb (bool_decide (id ∈ keep)).

(** The loop over the candidates; [break] where only the root can go. *)
Fixpoint drop_loop (ours : string → bool) (keep : gset string) (rootOnly : bool) (ids : list string) :
    list string :=
  match ids with
  | [] => []
  | id :: ids =>
    if removable ours keep id then id :: drop_loop ours keep rootOnly ids
    else if rootOnly then [] else drop_loop ours keep rootOnly ids
  end.

Definition CheckpointsToDrop (chain : list string) (ours : string → bool) (keep : gset string)
    (rootOnly : bool) : list string :=
  if (length chain <? 2)%nat || bool_decide (keep = ∅) then []
  else drop_loop ours keep rootOnly (removelast chain).

(** Deletions on the engine until the first one it refuses. *)
Fixpoint delete_roots (refused : string → bool) (ids : list string) : list string :=
  match ids with
  | [] => []
  | id :: ids => if refused id then [] else id :: delete_roots refused ids
  end.

(** The checkpoints deleted on the engine after the run. An error only skips the
    rotation. *)
Definition pruneCheckpoints (cps : option (list Checkpoint)) (refused : string → bool)
    (serverID vmID : string) (run : BackupRun) : CM (list string) :=
  if bool_decide (run_ToCheckpointID run = ""%string) then mret [] else
  used ← try (CheckpointsInUse serverID vmID) ;
  match used with
  | Err _ => mret []
  | Ok keep =>
    let keep := {[run_ToCheckpointID run]} ∪ keep in
    own ← try (OwnCheckpoints serverID vmID) ;
    match own, cps with
    | Err _, _ | _, None => mret []
    | Ok own, Some cps =>
      mret (delete_roots refused
        (CheckpointsToDrop (ovirtCheckpointChain cps) (λ id, bool_decide (id ∈ own)) keep true))
    end
  end.

(** * What is kept *)
Section Drop.
Context (ours : string → bool) (keep : gset string).

Lemma drop_loop_elem rootOnly ids id :
  id ∈ drop_loop ours keep rootOnly ids → id ∈ ids ∧ removable ours keep id = true.
Proof.
  induction ids as [|x ids IH]; cbn; [by intros ?%elem_of_nil|].
  destruct (removable ours keep x) eqn:Hx.
  - intros [->|Hin]%elem_of_cons; [by split; [left|]|]. destruct (IH Hin). split; [by right|done].
  - destruct rootOnly; [by intros ?%elem_of_nil|]. intros Hin. destruct (IH Hin). split; [by right|done].
Qed.

Lemma drop_loop_prefix ids : drop_loop ours keep true ids `prefix_of` ids.
Proof.
  induction ids as [|x ids IH]; cbn; [done|]. destruct (removable ours keep x); [|by apply prefix_nil].
  by apply prefix_cons.
Qed.

Lemma removelast_prefix {A} (l : list A) : removelast l `prefix_of` l.
Proof.
  destruct (decide (l = [])) as [->|Hl]; [done|]. destruct (exists_last Hl) as (l' & x & ->).
  rewrite removelast_last. by exists [x].
Qed.

Lemma ToDrop_prefix chain : CheckpointsToDrop chain ours keep true `prefix_of` chain.
Proof.
  unfold CheckpointsToDrop. case_match; [apply prefix_nil|].
  etrans; [apply drop_loop_prefix|apply removelast_prefix].
Qed.

Lemma ToDrop_elem chain b id : id ∈ CheckpointsToDrop chain ours keep b →
  id ∈ removelast chain ∧ removable ours keep id = true.
Proof.
  unfold CheckpointsToDrop. case_match; [by intros ?%elem_of_nil|]. apply drop_loop_elem.
Qed.

Lemma delete_roots_prefix refused ids : delete_roots refused ids `prefix_of` ids.
Proof.
  induction ids as [|x ids IH]; cbn; [done|]. destruct (refused x); [apply prefix_nil|by apply prefix_cons].
Qed.
End Drop.

Lemma prefix_elem {A} (l1 l2 : list A) x : l1 `prefix_of` l2 → x ∈ l1 → x ∈ l2.
Proof. intros [k ->] Hx. apply elem_of_app. by left. Qed.

Section InUse.
Lemma keep_bases_reads srv vm bases : ∀ keep, leaves contents (keep_bases srv vm bases keep).
Proof.
  induction bases as [|[t b] bases IH]; intros keep; cbn; [apply leaves_ret|].
  apply leaves_bind; [apply leaves_try, latest_reads|]. intros [r|e]; [apply IH|].
  destruct e; try apply leaves_fail. apply IH.
Qed.

Lemma keep_bases_ok srv vm bases : ∀ keep c c' out,
  keep_bases srv vm bases keep c = (c', Ok out) →
  keep ⊆ out ∧ ∀ t b r, (t, b) ∈ bases → newest_run (usable srv vm t b) c = Some r → run_ToCheckpointID r ∈ out.
Proof.
  induction bases as [|[t b] bases IH]; intros keep c c' out Hrun; cbn in Hrun.
  { injection Hrun as _ <-. split; [done|]. by intros ? ? ? ?%elem_of_nil. }
  apply try_inv in Hrun as (c1 & found & Hl & Hrun).
  pose proof (leaves_run _ _ _ _ _ (latest_reads _) Hl) as Hc1.
  destruct found as [r|e].
  - apply latest_newest in Hl as [_ Hnew]. apply IH in Hrun as [Hsub Hall]. split; [set_solver|].
    intros t' b' r' [[= -> ->]|Hin]%elem_of_cons Hr'; [|by apply (Hall t' b'); [|rewrite (newest_contents _ _ c)]].
    assert (r' = r) as -> by congruence. set_solver.
  - destruct e; try done. apply IH in Hrun as [Hsub Hall]. split; [done|].
    intros t' b' r' [[= -> ->]|Hin]%elem_of_cons Hr'; [|by apply (Hall t' b'); [|rewrite (newest_contents _ _ c)]].
    exfalso. unfold LatestUsableRun, latest in Hl.
    destruct (statement c) as [c2 [[]|e]] eqn:Hst; pose proof (leaves_run _ _ _ _ _ statement_reads Hst) as Hc2.
    + rewrite (bind_run _ _ _ _ _ Hst), get_run in Hl. unfold lift in Hl.
      rewrite (newest_contents _ _ _ Hc2), Hr' in Hl. done.
    + unfold statement, attempt in Hst. revert Hl. run_st. unfold statement, attempt.
      destruct (ca_faults c) as [|[] fs]; done.
Qed.

Lemma CheckpointsInUse_ok srv vm c c' keep :
  catalog_keyed c → CheckpointsInUse srv vm c = (c', Ok keep) →
  contents c' = contents c ∧ ∀ t b r, newest_run (usable srv vm t b) c = Some r → run_ToCheckpointID r ∈ keep.
Proof.
  intros Hk Hrun. unfold CheckpointsInUse in Hrun. apply statement_ok in Hrun as (c1 & Hc1 & Hrun).
  rewrite get_run in Hrun. cbv zeta in Hrun.
  pose proof (leaves_run _ _ _ _ _ (keep_bases_reads _ _ _ _) Hrun) as Hc. split; [congruence|].
  apply keep_bases_ok in Hrun as [_ Hall]. intros t b r Hr.
  apply (Hall t b); [|by rewrite (newest_contents _ _ c)].
  destruct (newest_ok _ _ _ Hk Hr) as (Hin & Hu & _). unfold usable, of_machine in Hu.
  apply list_elem_of_bind. exists t. split; [destruct b; set_solver|].
  apply elem_of_remove_dups, list_elem_of_fmap. exists r. bprop. split; [done|].
  apply elem_of_filter_bool. split.
  - apply all_runs_elem; [by apply (catalog_keyed_contents c)|]. by rewrite (contents_runs _ _ Hc1).
  - unfold has_checkpoint. rewrite !andb_true_iff, !negb_true_iff, !bool_decide_eq_true, bool_decide_eq_false. done.
Qed.

Lemma OwnCheckpoints_ok srv vm c c' own :
  catalog_keyed c → OwnCheckpoints srv vm c = (c', Ok own) →
  ∀ id, id ∈ own → ∃ r, ca_runs c !! run_ID r = Some r ∧ run_ServerID r = srv ∧ run_VMID r = vm
    ∧ run_ToCheckpointID r = id.
Proof.
  intros Hk Hrun id Hid. unfold OwnCheckpoints in Hrun. apply statement_ok in Hrun as (c1 & Hc1 & Hrun).
  rewrite get_run in Hrun. injection Hrun as _ <-.
  apply elem_of_list_to_set, list_elem_of_fmap in Hid as (r & -> & Hr).
  apply elem_of_filter_bool in Hr as [Hr Hh]. apply all_runs_elem in Hr; [|by eapply catalog_keyed_contents].
  rewrite (contents_runs _ _ Hc1) in Hr. unfold has_checkpoint in Hh. exists r. by bprop.
Qed.
End InUse.

Section Rotation.
Context `{Documents, Engine}.

Lemma removelast_proper {A} (l : list A) : l ≠ [] → ∃ x, l = removelast l ++ [x].
Proof. intros Hl. destruct (exists_last Hl) as (l' & x & ->). exists x. by rewrite removelast_last. Qed.

Lemma prune_ok cps refused srv vm run c c' removed :
  catalog_keyed c → pruneCheckpoints cps refused srv vm run c = (c', Ok removed) →
  removed = [] ∨ ∃ l keep own, cps = Some l
    ∧ removed = delete_roots refused (CheckpointsToDrop (ovirtCheckpointChain l)
        (λ id, bool_decide (id ∈ own)) keep true)
    ∧ run_ToCheckpointID run ∈ keep
    ∧ (∀ t b r, newest_run (usable srv vm t b) c = Some r → run_ToCheckpointID r ∈ keep)
    ∧ ∀ id : string, id ∈ (own : gset string) → ∃ r, ca_runs c !! run_ID r = Some r ∧ run_ServerID r = srv
        ∧ run_VMID r = vm ∧ run_ToCheckpointID r = id.
Proof.
  intros Hk Hrun. unfold pruneCheckpoints in Hrun. case_bool_decide; [left; by injection Hrun as _ <-|].
  apply try_inv in Hrun as (c1 & used & Hu & Hrun). destruct used as [keep|e]; [|left; by injection Hrun as _ <-].
  apply CheckpointsInUse_ok in Hu as [Hc1 Hin]; [|done].
  apply try_inv in Hrun as (c2 & own & Ho & Hrun).
  destruct own as [own|e]; [|left; by injection Hrun as _ <-].
  destruct cps as [l|]; [|left; by injection Hrun as _ <-]. injection Hrun as _ <-. right.
  exists l, ({[run_ToCheckpointID run]} ∪ keep), own. split_and!; [done|done|set_solver|set_solver|].
  intros id Hid. apply (OwnCheckpoints_ok _ _ _ _ _ (catalog_keyed_contents _ _ (eq_sym Hc1) Hk) Ho) in Hid
    as (r & Hr & ?). rewrite (contents_runs _ _ Hc1) in Hr. by exists r.
Qed.

(** C29. Rotation never takes away what the next backup needs. What it deletes on
    the engine are the oldest checkpoints, in order and never all of them; each
    was made by a recorded backup of this machine, is not that of the run just
    finished, and is not the one the next increment or differential backup, into
    whatever storage, is planned from: whatever is planned on the same
    catalogue, its starting checkpoint is still there. *)
Theorem rotation_keeps_bases cps refused srv vm run c c' removed :
  catalog_keyed c → pruneCheckpoints (Some cps) refused srv vm run c = (c', Ok removed) →
  (removed = [] ∨ ∃ kept, kept ≠ [] ∧ ovirtCheckpointChain cps = removed ++ kept)
  ∧ (∀ id, id ∈ removed → id ≠ run_ToCheckpointID run
       ∧ ∃ r, ca_runs c !! run_ID r = Some r ∧ run_ServerID r = srv ∧ run_VMID r = vm
           ∧ run_ToCheckpointID r = id)
  ∧ ∀ now client server req disks c2 p,
      rq_ServerID req = srv → rq_VMID req = vm → srv_SupportsCBT server = true →
      resolvePlan now client server req disks c = (c2, Ok p) → p_FromCheckpointID p ∉ removed.
Proof.
  intros Hk Hrun. apply prune_ok in Hrun as [->|(l & keep & own & [= <-] & -> & Hself & Hin & Hown)]; [| |done].
  { split; [by left|]. split; [by intros ? ?%elem_of_nil|]. by intros * _ _ _ _ ?%elem_of_nil. }
  set (ours := λ id, bool_decide (id ∈ own)) in *. set (chain := ovirtCheckpointChain cps).
  assert (∀ id, id ∈ delete_roots refused (CheckpointsToDrop chain ours keep true) →
    removable ours keep id = true) as Hrem.
  { intros id Hid. eapply ToDrop_elem, prefix_elem; [apply delete_roots_prefix|exact Hid]. }
  assert (∀ id, removable ours keep id = true → id ≠ ""%string ∧ id ∈ own ∧ id ∉ keep) as Hr.
  { unfold removable, ours. intros id. rewrite !andb_true_iff, !negb_true_iff, bool_decide_eq_true,
      !bool_decide_eq_false. naive_solver. }
  split_and!.
  - destruct (decide (chain = [])) as [Hc|Hc]; [left; by rewrite Hc|]. right.
    destruct (removelast_proper _ Hc) as [x Hx].
    assert (delete_roots refused (CheckpointsToDrop chain ours keep true) `prefix_of` removelast chain) as [k Hkp].
    { etrans; [apply delete_roots_prefix|]. unfold CheckpointsToDrop.
      case_match; [apply prefix_nil|apply drop_loop_prefix]. }
    exists (k ++ [x]). split; [by destruct k|]. by rewrite (assoc_L (++)), <-Hkp.
  - intros id Hid. destruct (Hr _ (Hrem id Hid)) as (_ & Ho & Hn). split; [intros ->; done|by apply Hown].
  - intros now client server req disks c2 p <- <- Hcbt Hp Hid. apply resolvePlan_ok in Hp as [_ Hb]; [|done].
    destruct (Hr _ (Hrem _ Hid)) as (Hne & _ & Hn). destruct Hb as [(_ & _ & _ & Hf & _)|(q & _ & Hq)]; [done|].
    rewrite Hcbt in Hq. destruct Hq as (Hf & _ & _ & b & Hnew). apply Hn. rewrite Hf. by eapply Hin.
Qed.
End Rotation.
