(* ===== verification/Jobs.v ===== *)
(** Backup jobs and their runs in the database ([store/backup_jobs.go],
    [store/backup_quality.go]), the machines a job covers, and what the handlers
    of the API make of a submitted job.

    The row of a job has its columns, in the order of the statements; JSON columns
    hold values, not their text, and times are those the database gives back.

    The state also holds the queue of tasks and the jobs that the process of the
    scheduler takes for running; their operations are in [JobQueue]. *)

From S2P Require Import Prelude StateM GoTime GoStr Model Format Catalog Replicas Plan.

(** ** Rows *)
Record BackupJobRun := mkBackupJobRun {
  jr_ID : string;
  jr_JobID : string;
  jr_JobName : string;
  jr_ServerID : string;
  jr_TriggeredBy : string;
  jr_ScheduledAt : option Z;
  jr_MissedIntervals : Z;
  jr_Status : RunStatus;
  jr_VMCount : Z;
  jr_ReplicaCount : Z;
  jr_SucceededCount : Z;
  jr_PartialCount : Z;
  jr_FailedCount : Z;
  jr_CanceledCount : Z;
  jr_Error : string;
  jr_StartedAt : option Z;
  jr_EndedAt : option Z;
  jr_CreatedAt : Z
}.

Definition jr_set_Status (v : RunStatus) (r : BackupJobRun) : BackupJobRun :=
  mkBackupJobRun (jr_ID r) (jr_JobID r) (jr_JobName r) (jr_ServerID r) (jr_TriggeredBy r)
    (jr_ScheduledAt r) (jr_MissedIntervals r) v (jr_VMCount r) (jr_ReplicaCount r)
    (jr_SucceededCount r) (jr_PartialCount r) (jr_FailedCount r) (jr_CanceledCount r) (jr_Error r)
    (jr_StartedAt r) (jr_EndedAt r) (jr_CreatedAt r).

(** The outcome of a run: its counts, status and end. *)
Definition jr_set_outcome (s p f k : Z) (status : RunStatus) (ended : option Z) (r : BackupJobRun) :
    BackupJobRun :=
  mkBackupJobRun (jr_ID r) (jr_JobID r) (jr_JobName r) (jr_ServerID r) (jr_TriggeredBy r)
    (jr_ScheduledAt r) (jr_MissedIntervals r) status (jr_VMCount r) (jr_ReplicaCount r)
    s p f k (jr_Error r) (jr_StartedAt r) ended (jr_CreatedAt r).

(** A run that does not go on, and why. *)
Definition jr_set_failure (status : RunStatus) (error : string) (missed : Z) (ended : option Z)
    (r : BackupJobRun) : BackupJobRun :=
  mkBackupJobRun (jr_ID r) (jr_JobID r) (jr_JobName r) (jr_ServerID r) (jr_TriggeredBy r)
    (jr_ScheduledAt r) missed status (jr_VMCount r) (jr_ReplicaCount r)
    (jr_SucceededCount r) (jr_PartialCount r) (jr_FailedCount r) (jr_CanceledCount r) error
    (jr_StartedAt r) ended (jr_CreatedAt r).

Inductive BackupTaskStatus :=
| BackupTaskQueued | BackupTaskRunning | BackupTaskSucceeded | BackupTaskFailed.

#[export] Instance BackupTaskStatus_eq_dec : EqDecision BackupTaskStatus.
Proof. solve_decision. Defined.

(** The document of a task, decoded. *)
Record queuedBackupTask := mkQueued { qt_Request : RunRequest; qt_Job : BackupJob }.

Record BackupTask := mkBackupTask {
  tk_ID : string;
  tk_JobRunID : string;
  tk_JobID : string;
  tk_ServerID : string;
  tk_VMID : string;
  tk_Priority : Z;
  tk_Concurrency : Z;
  (** [None]: a document that is not that of a task. *)
  tk_Payload : option queuedBackupTask;
  tk_Status : BackupTaskStatus;
  tk_LeaseOwner : string;
  tk_LeaseUntil : option Z;
  tk_HeartbeatAt : option Z;
  tk_Error : string;
  tk_CreatedAt : Z;
  tk_UpdatedAt : Z
}.

(** ** The columns of a job *)

(** A JSON column holds a value; its text is the business of [encoding/json]. *)
Inductive Json :=
| JNull
| JBool (b : bool)
| JNumber (n : Z)
| JString (s : string)
| JArray (vs : list Json)
| JObject (fields : list (string * Json)).

(** A list without elements; whether it is a slice without elements or no slice
    at all makes no difference here. *)
Definition encode_strings (l : list string) : Json := JArray (JString <$> l).

(** [decodeJSON] into a list of strings: what is no string stays empty, what is no
    array is passed over. *)
Definition string_of (v : Json) : string := match v with JString s => s | _ => "" end.
Definition decode_strings (v : Json) : list string :=
  match v with JArray vs => string_of <$> vs | _ => [] end.

(** The value of a field; of a repeated one, the last. *)
Fixpoint json_field (key : string) (fields : list (string * Json)) : option Json :=
  match fields with
  | [] => None
  | (k, v) :: fields =>
    match json_field key fields with
    | Some v => Some v
    | None => if bool_decide (k = key) then Some v else None
    end
  end.

Definition number_field (key : string) (fields : list (string * Json)) : Z :=
  match json_field key fields with Some (JNumber n) => n | _ => 0 end.
Definition string_field (key : string) (fields : list (string * Json)) : string :=
  match json_field key fields with Some (JString s) => s | _ => "" end.
Definition bool_field (key : string) (fields : list (string * Json)) : bool :=
  match json_field key fields with Some (JBool b) => b | _ => false end.

Definition encode_retention (p : RetentionPolicy) : Json := JObject [
  ("keep_last", JNumber (KeepLast p)); ("keep_hourly", JNumber (KeepHourly p));
  ("keep_daily", JNumber (KeepDaily p)); ("keep_weekly", JNumber (KeepWeekly p));
  ("keep_monthly", JNumber (KeepMonthly p)); ("keep_yearly", JNumber (KeepYearly p));
  ("max_age", JNumber (MaxAge p))]%string.

Definition decode_retention (v : Json) : RetentionPolicy :=
  let fields := match v with JObject fields => fields | _ => [] end in
  {| KeepLast := number_field "keep_last" fields; KeepHourly := number_field "keep_hourly" fields;
     KeepDaily := number_field "keep_daily" fields; KeepWeekly := number_field "keep_weekly" fields;
     KeepMonthly := number_field "keep_monthly" fields; KeepYearly := number_field "keep_yearly" fields;
     MaxAge := number_field "max_age" fields |}.

(** [omitempty]. *)
Definition omit_string (key : string) (s : string) : list (string * Json) :=
  if bool_decide (s = ""%string) then [] else [(key, JString s)].
Definition omit_number (key : string) (n : Z) : list (string * Json) :=
  if n =? 0 then [] else [(key, JNumber n)].
Definition omit_bool (key : string) (b : bool) : list (string * Json) :=
  if b then [(key, JBool b)] else [].

(** Who started the verification is not stored. *)
Definition encode_options (o : VerifyOptions) : Json := JObject (
  omit_string "boot_host_id" (vo_BootHostID o) ++ omit_string "disk_id" (vo_DiskID o)
  ++ omit_number "memory_mib" (vo_MemoryMiB o) ++ omit_number "vcpus" (vo_VCPUs o)
  ++ omit_number "timeout_sec" (vo_TimeoutSec o) ++ omit_bool "keep_on_failure" (vo_KeepOnFailure o)
  ++ omit_bool "keep_on_success" (vo_KeepOnSuccess o) ++ omit_string "boot_engine_id" (vo_BootEngineID o)
  ++ omit_string "boot_cluster_id" (vo_BootClusterID o)
  ++ omit_string "boot_storage_domain_id" (vo_BootStorageDomainID o)
  ++ omit_string "target_id" (vo_TargetID o)).

Definition decode_options (v : Json) : VerifyOptions :=
  let fields := match v with JObject fields => fields | _ => [] end in
  {| vo_BootHostID := string_field "boot_host_id" fields; vo_DiskID := string_field "disk_id" fields;
     vo_MemoryMiB := number_field "memory_mib" fields; vo_VCPUs := number_field "vcpus" fields;
     vo_TimeoutSec := number_field "timeout_sec" fields;
     vo_KeepOnFailure := bool_field "keep_on_failure" fields;
     vo_KeepOnSuccess := bool_field "keep_on_success" fields;
     vo_BootEngineID := string_field "boot_engine_id" fields;
     vo_BootClusterID := string_field "boot_cluster_id" fields;
     vo_BootStorageDomainID := string_field "boot_storage_domain_id" fields;
     vo_TargetID := string_field "target_id" fields; vo_TriggeredBy := "" |}.

(** [jobColumnsWithLegacy], in this order; the kinds and modes are strings in the
    code and in the table. *)
Record JobRow := mkJobRow {
  c_id : string;
  c_name : string;
  c_enabled : bool;
  c_server_id : string;
  c_vm_ids : Json;
  c_vm_name_regex : string;
  c_cluster_ids : Json;
  c_tags : Json;
  c_exclude_vm_ids : Json;
  c_exclude_disk_ids : Json;
  c_type : BackupType;
  c_full_every : Z;
  c_fallback_type : BackupType;
  c_schedule : string;
  c_max_duration_sec : Z;
  c_storage_target_ids : Json;
  c_retention : Json;
  c_quiesce : bool;
  c_verify_after : VerifyMode;
  c_verify_options : Json;
  c_export_qcow2 : bool;
  c_encrypt : bool;
  c_priority : Z;
  c_concurrency : Z;
  c_last_run_at : option Z;
  c_last_status : RunStatus;
  c_next_run_at : option Z;
  c_created_at : Z;
  c_updated_at : Z;
  c_replication_enabled : bool;
  c_force_full_next : bool;
  c_storage_mode : StorageMode;
  c_ova_host_id : string;
  c_ova_directory : string;
  c_consistency : Consistency;
  c_require_consistency : bool;
  c_max_freeze_sec : Z;
  c_freeze_by : FreezeBy;
  c_max_read_mbps : Z;
  c_freeze_mountpoints : Json;
  c_legacy_incremental_mode : LegacyIncrementalMode
}.

(** [qu_active] is the memory of the process, the rest is the database. *)
Record Queue := mkQueue {
  qu_catalog : Catalog;
  qu_jobs : gmap string JobRow;
  (** The cached machines with their servers. *)
  qu_vms : list (string * VM);
  qu_job_runs : gmap string BackupJobRun;
  qu_tasks : list BackupTask;
  qu_active : gset string
}.

Definition with_catalog (c : Catalog) (q : Queue) : Queue :=
  mkQueue c (qu_jobs q) (qu_vms q) (qu_job_runs q) (qu_tasks q) (qu_active q).
Definition with_jobs (js : gmap string JobRow) (q : Queue) : Queue :=
  mkQueue (qu_catalog q) js (qu_vms q) (qu_job_runs q) (qu_tasks q) (qu_active q).
Definition with_job_runs (rs : gmap string BackupJobRun) (q : Queue) : Queue :=
  mkQueue (qu_catalog q) (qu_jobs q) (qu_vms q) rs (qu_tasks q) (qu_active q).
Definition with_tasks (ts : list BackupTask) (q : Queue) : Queue :=
  mkQueue (qu_catalog q) (qu_jobs q) (qu_vms q) (qu_job_runs q) ts (qu_active q).
Definition with_active (a : gset string) (q : Queue) : Queue :=
  mkQueue (qu_catalog q) (qu_jobs q) (qu_vms q) (qu_job_runs q) (qu_tasks q) a.

Inductive QueueError :=
| QCatalog (e : CatalogError)
| ErrJobBusy (job : string)
| JobHasNoStorage (job : string)
| BadSelector (expression : string)
| NotInJob
| BadPayload (task : string).

Abbreviation QM := (ST Queue QueueError).

(** A query of the catalogue. *)
Definition in_catalog {A} (m : CM A) : QM A := λ q,
  let '(c, r) := m (qu_catalog q) in (with_catalog c q, map_err QCatalog r).

Definition query : QM () := in_catalog statement.

(** [ErrNotFound]. *)
Definition not_found : QueueError := QCatalog CatNotFound.

(** ** Jobs *)

(** The arguments of the INSERT, in their order. *)
Definition job_row (j : BackupJob) : JobRow :=
  mkJobRow (job_ID j) (job_Name j) (job_Enabled j) (job_ServerID j) (encode_strings (job_VMIDs j))
    (job_VMNameRegex j) (encode_strings (job_ClusterIDs j)) (encode_strings (job_Tags j))
    (encode_strings (job_ExcludeVMIDs j)) (encode_strings (job_ExcludeDiskIDs j)) (job_Type j)
    (job_FullEvery j) (job_FallbackType j) (job_Schedule j) (toSeconds (job_MaxDuration j))
    (encode_strings (job_StorageTargetIDs j)) (encode_retention (job_Retention j)) (job_Quiesce j)
    (job_VerifyAfter j) (encode_options (job_VerifyOptions j)) (job_ExportQcow2 j) (job_Encrypt j)
    (job_Priority j) (job_Concurrency j) (job_LastRunAt j) (job_LastStatus j) (job_NextRunAt j)
    (job_CreatedAt j) (job_UpdatedAt j) (job_ReplicationEnabled j) (job_ForceFullNext j)
    (job_StorageMode j) (job_OVAHostID j) (job_OVADirectory j) (job_Consistency j)
    (job_RequireConsistency j) (toSeconds (job_MaxFreeze j)) (job_FreezeBy j) (job_MaxReadMBps j)
    (encode_strings (job_FreezeMountpoints j)) (job_LegacyIncrementalMode j).

(** The SET clauses of the UPDATE; the rest of the row stays. *)
Definition job_update (j : BackupJob) (row : JobRow) : JobRow :=
  mkJobRow (c_id row) (job_Name j) (job_Enabled j) (job_ServerID j) (encode_strings (job_VMIDs j))
    (job_VMNameRegex j) (encode_strings (job_ClusterIDs j)) (encode_strings (job_Tags j))
    (encode_strings (job_ExcludeVMIDs j)) (encode_strings (job_ExcludeDiskIDs j)) (job_Type j)
    (job_FullEvery j) (job_FallbackType j) (job_Schedule j) (toSeconds (job_MaxDuration j))
    (encode_strings (job_StorageTargetIDs j)) (encode_retention (job_Retention j)) (job_Quiesce j)
    (job_VerifyAfter j) (encode_options (job_VerifyOptions j)) (job_ExportQcow2 j) (job_Encrypt j)
    (job_Priority j) (job_Concurrency j) (c_last_run_at row) (c_last_status row) (c_next_run_at row)
    (c_created_at row) (job_UpdatedAt j) (job_ReplicationEnabled j) (job_ForceFullNext j)
    (job_StorageMode j) (job_OVAHostID j) (job_OVADirectory j) (job_Consistency j)
    (job_RequireConsistency j) (toSeconds (job_MaxFreeze j)) (job_FreezeBy j) (job_MaxReadMBps j)
    (encode_strings (job_FreezeMountpoints j)) (job_LegacyIncrementalMode j).

(** The columns as they are read into a job. *)
Definition scan_columns (row : JobRow) : BackupJob :=
  {| job_ID := c_id row;
     job_Name := c_name row;
     job_Enabled := c_enabled row;
     job_ServerID := c_server_id row;
     job_VMIDs := decode_strings (c_vm_ids row);
     job_VMNameRegex := c_vm_name_regex row;
     job_ClusterIDs := decode_strings (c_cluster_ids row);
     job_Tags := decode_strings (c_tags row);
     job_ExcludeVMIDs := decode_strings (c_exclude_vm_ids row);
     job_ExcludeDiskIDs := decode_strings (c_exclude_disk_ids row);
     job_Type := c_type row;
     job_FullEvery := c_full_every row;
     job_FallbackType := c_fallback_type row;
     job_LegacyIncrementalMode := c_legacy_incremental_mode row;
     job_Schedule := c_schedule row;
     job_MaxDuration := fromSeconds (c_max_duration_sec row);
     job_StorageTargetIDs := decode_strings (c_storage_target_ids row);
     job_StorageMode := c_storage_mode row;
     job_ReplicationEnabled := c_replication_enabled row;
     job_ForceFullNext := c_force_full_next row;
     job_OVAHostID := c_ova_host_id row;
     job_OVADirectory := c_ova_directory row;
     job_Retention := decode_retention (c_retention row);
     job_Quiesce := c_quiesce row;
     job_Consistency := c_consistency row;
     job_RequireConsistency := c_require_consistency row;
     job_MaxFreeze := fromSeconds (c_max_freeze_sec row);
     job_FreezeBy := c_freeze_by row;
     job_FreezeMountpoints := decode_strings (c_freeze_mountpoints row);
     job_MaxReadMBps := c_max_read_mbps row;
     job_VerifyAfter := c_verify_after row;
     job_VerifyOptions := decode_options (c_verify_options row);
     job_ExportQcow2 := c_export_qcow2 row;
     job_Encrypt := c_encrypt row;
     job_Priority := c_priority row;
     job_Concurrency := c_concurrency row;
     job_LastRunAt := c_last_run_at row;
     job_LastStatus := c_last_status row;
     job_NextRunAt := c_next_run_at row;
     job_CreatedAt := c_created_at row;
     job_UpdatedAt := c_updated_at row |}.

Definition scanJob (row : JobRow) : BackupJob := NormalizeConsistency (NormalizeStorageMode (scan_columns row)).

Definition positive_or_one (n : Z) : Z := if n <=? 0 then 1 else n.

Definition unset_type (t : BackupType) : bool := bool_decide (t = BackupOther "").

(** [fresh] is a new identifier. *)
Definition CreateBackupJob (now : Z) (fresh : string) (j : BackupJob) : QM BackupJob :=
  let j := set_job_columns (if bool_decide (job_ID j = ""%string) then fresh else job_ID j)
    (if unset_type (job_FallbackType j) then BackupSnapshot else job_FallbackType j)
    (positive_or_one (job_Concurrency j)) now now j in
  let j := NormalizeConsistency (NormalizeStorageMode j) in
  query ;; q ← get ;
  match qu_jobs q !! job_ID j with
  | Some _ => fail (QCatalog CatDB)
  | None => modify (with_jobs (<[job_ID j := job_row j]> (qu_jobs q))) ;; mret j
  end.

(** The row keeps its creation and what the scheduler writes. *)
Definition UpdateBackupJob (now : Z) (j : BackupJob) : QM BackupJob :=
  let j := set_job_columns (job_ID j) (job_FallbackType j) (positive_or_one (job_Concurrency j))
    (job_CreatedAt j) now j in
  let j := NormalizeConsistency (NormalizeStorageMode j) in
  query ;; q ← get ;
  match qu_jobs q !! job_ID j with
  | None => fail not_found
  | Some row => modify (with_jobs (<[job_ID j := job_update j row]> (qu_jobs q))) ;; mret j
  end.

Definition GetBackupJob (id : string) : QM BackupJob :=
  query ;; q ← get ; lift (scanJob <$> of_option not_found (qu_jobs q !! id)).

Definition DeleteBackupJob (id : string) : QM () :=
  query ;; q ← get ;
  if bool_decide (is_Some (qu_jobs q !! id))
  then modify (with_jobs (delete id (qu_jobs q))) else fail not_found.

(** [UPDATE backup_jobs SET ... WHERE id=?]. *)
Definition update_job (id : string) (f : JobRow → JobRow) : QM bool :=
  query ;; q ← get ;
  modify (with_jobs (alter f id (qu_jobs q))) ;;
  mret (bool_decide (is_Some (qu_jobs q !! id))).

(** [SET last_run_at=?, last_status=?, next_run_at=?, updated_at=?]. *)
Definition set_bookkeeping (last : option Z) (status : RunStatus) (next : option Z) (updated : Z)
    (row : JobRow) : JobRow :=
  mkJobRow (c_id row) (c_name row) (c_enabled row) (c_server_id row) (c_vm_ids row)
    (c_vm_name_regex row) (c_cluster_ids row) (c_tags row) (c_exclude_vm_ids row)
    (c_exclude_disk_ids row) (c_type row) (c_full_every row) (c_fallback_type row) (c_schedule row)
    (c_max_duration_sec row) (c_storage_target_ids row) (c_retention row) (c_quiesce row)
    (c_verify_after row) (c_verify_options row) (c_export_qcow2 row) (c_encrypt row)
    (c_priority row) (c_concurrency row) last status next (c_created_at row) updated
    (c_replication_enabled row) (c_force_full_next row) (c_storage_mode row) (c_ova_host_id row)
    (c_ova_directory row) (c_consistency row) (c_require_consistency row) (c_max_freeze_sec row)
    (c_freeze_by row) (c_max_read_mbps row) (c_freeze_mountpoints row)
    (c_legacy_incremental_mode row).

(** [SET replication_enabled=?, force_full_next=?, updated_at=?]. *)
Definition set_switches (replication force : bool) (updated : Z) (row : JobRow) : JobRow :=
  mkJobRow (c_id row) (c_name row) (c_enabled row) (c_server_id row) (c_vm_ids row)
    (c_vm_name_regex row) (c_cluster_ids row) (c_tags row) (c_exclude_vm_ids row)
    (c_exclude_disk_ids row) (c_type row) (c_full_every row) (c_fallback_type row) (c_schedule row)
    (c_max_duration_sec row) (c_storage_target_ids row) (c_retention row) (c_quiesce row)
    (c_verify_after row) (c_verify_options row) (c_export_qcow2 row) (c_encrypt row)
    (c_priority row) (c_concurrency row) (c_last_run_at row) (c_last_status row) (c_next_run_at row)
    (c_created_at row) updated replication force (c_storage_mode row) (c_ova_host_id row)
    (c_ova_directory row) (c_consistency row) (c_require_consistency row) (c_max_freeze_sec row)
    (c_freeze_by row) (c_max_read_mbps row) (c_freeze_mountpoints row)
    (c_legacy_incremental_mode row).

Definition SetJobSchedulingState (now : Z) (id : string) (last : option Z) (status : RunStatus)
    (next : option Z) : QM () :=
  update_job id (set_bookkeeping last status next now) ;; mret ().

Definition SetJobLastStatus (now : Z) (id : string) (status : RunStatus) : QM () :=
  update_job id (λ row, set_bookkeeping (c_last_run_at row) status (c_next_run_at row) now row) ;; mret ().

Definition EnableJobReplication (now : Z) (id : string) : QM () :=
  found ← update_job id (set_switches true true now) ;
  if negb found then fail not_found else mret ().

Definition ClearForceFullNext (now : Z) (id : string) : QM () :=
  update_job id (λ row, set_switches (c_replication_enabled row) false now row) ;; mret ().

(** [targetID] first, the others as they were. *)
Definition promote (targetID : string) (ids : list string) : list string :=
  targetID :: match list_find (λ x, x = targetID) ids with
              | Some (i, _) => take i ids ++ drop (S i) ids
              | None => ids
              end.

Definition ChangeJobPrimary (now : Z) (id targetID : string) : QM BackupJob :=
  job ← GetBackupJob id ;
  if negb (bool_decide (targetID ∈ job_StorageTargetIDs job)) then fail NotInJob else
  UpdateBackupJob now (set_job_ForceFullNext true (job_UpdatedAt job)
    (set_job_StorageTargetIDs (promote targetID (job_StorageTargetIDs job)) job)).

(** ** Runs of jobs *)
Definition CreateBackupJobRun (now : Z) (fresh : string) (r : BackupJobRun) : QM BackupJobRun :=
  let r := mkBackupJobRun (if bool_decide (jr_ID r = ""%string) then fresh else jr_ID r) (jr_JobID r)
    (jr_JobName r) (jr_ServerID r) (jr_TriggeredBy r) (jr_ScheduledAt r) (jr_MissedIntervals r)
    (if bool_decide (jr_Status r = RunStatusOther "") then RunPending else jr_Status r)
    (jr_VMCount r) (jr_ReplicaCount r) (jr_SucceededCount r) (jr_PartialCount r) (jr_FailedCount r)
    (jr_CanceledCount r) (jr_Error r) (jr_StartedAt r) (jr_EndedAt r)
    (if jr_CreatedAt r =? 0 then now else jr_CreatedAt r) in
  query ;; q ← get ;
  match qu_job_runs q !! jr_ID r with
  | Some _ => fail (QCatalog CatDB)
  | None => modify (with_job_runs (<[jr_ID r := r]> (qu_job_runs q))) ;; mret r
  end.

(** The columns the statement writes. *)
Definition job_run_columns (r row : BackupJobRun) : BackupJobRun :=
  mkBackupJobRun (jr_ID row) (jr_JobID row) (jr_JobName row) (jr_ServerID row) (jr_TriggeredBy row)
    (jr_ScheduledAt row) (jr_MissedIntervals row) (jr_Status r) (jr_VMCount r) (jr_ReplicaCount r)
    (jr_SucceededCount r) (jr_PartialCount r) (jr_FailedCount r) (jr_CanceledCount r) (jr_Error r)
    (jr_StartedAt r) (jr_EndedAt r) (jr_CreatedAt row).

Definition UpdateBackupJobRun (r : BackupJobRun) : QM () :=
  query ;; q ← get ;
  match qu_job_runs q !! jr_ID r with
  | None => fail not_found
  | Some row => modify (with_job_runs (<[jr_ID r := job_run_columns r row]> (qu_job_runs q)))
  end.

Definition GetBackupJobRun (id : string) : QM BackupJobRun :=
  query ;; q ← get ; lift (of_option not_found (qu_job_runs q !! id)).

(** Whether this caller is the one to finish the run. *)
Definition ClaimBackupJobRunFinalization (id : string) : QM bool :=
  query ;; q ← get ;
  match qu_job_runs q !! id with
  | Some r =>
    if bool_decide (jr_Status r = RunRunning)
    then modify (with_job_runs (<[id := jr_set_Status RunWaitingCopies r]> (qu_job_runs q))) ;; mret true
    else mret false
  | None => mret false
  end.

Record JobRunFilter := mkJobRunFilter {
  jf_JobID : string;
  jf_ServerID : string;
  jf_Statuses : list RunStatus;
  jf_Since : option Z;
  jf_Limit : Z
}.

Definition job_run_selected (f : JobRunFilter) (r : BackupJobRun) : bool :=
  unset_or (jf_JobID f) (jr_JobID r) && unset_or (jf_ServerID f) (jr_ServerID r)
  && match jf_Since f with Some t => t <=? jr_CreatedAt r | None => true end
  && none_or_in (jf_Statuses f) (jr_Status r).

(** Newest first. *)
Definition ListBackupJobRuns (f : JobRunFilter) : QM (list BackupJobRun) :=
  query ;; q ← get ;
  let rs := sort_stable (λ a b, jr_CreatedAt b <? jr_CreatedAt a)
    (List.filter (job_run_selected f) (map_to_list (qu_job_runs q)).*2) in
  mret (if 0 <? jf_Limit f then take (Z.to_nat (jf_Limit f)) rs else rs).

(** ** The machines of a job *)

(** By name; every server if none is given. *)
Definition ListVMs (serverID : string) : QM (list VM) :=
  query ;; q ← get ;
  mret (sort_stable (λ a b, String.ltb (vm_Name a) (vm_Name b))
    (List.filter (λ row, unset_or serverID row.1) (qu_vms q)).*2).

Section Selection.
Context (regexp_compile : string → option (string → bool)).

Definition resolveVMs (job : BackupJob) : QM (list VM) :=
  all ← ListVMs (job_ServerID job) ;
  selector ← lift (of_option (BadSelector (job_VMNameRegex job)) (NewVMSelector regexp_compile job)) ;
  mret (List.filter (λ vm, (Match selector (Some vm)).1) all).
End Selection.
