(* ===== verification/Leftovers.v ===== *)
(** Snapshots left behind ([internal/backup/snapshot_leftovers.go],
    [transfer_owner.go], [otherActiveRun] of [legacy_presweep.go]): which
    snapshots of a machine the service takes for its own abandoned ones and
    deletes.

    What the engine lists, which volumes it keeps locked, and what becomes of a
    deletion are arguments; the clock is read once. The transfers of images that
    are closed before a deletion are [abandonedTransfers]; the sweep itself does
    not change the catalogue, except for the timeline, which is left out with the
    commands for the administrator. *)

From S2P Require Import Prelude StateM GoTime GoStr Model Layout Grid Format Catalog Chain Replicas Runs.

(** [ovirt.Snapshot]. *)
Record Snapshot := mkSnapshot {
  sn_ID : string;
  sn_Description : string;
  sn_SnapshotStatus : string;
  sn_SnapshotType : string;
  sn_Date : Z
}.

Definition SnapshotMarkerPrefix : string := "jhvirt backup ".
Definition SnapshotMarker (runID : string) : string := SnapshotMarkerPrefix +:+ runID.

Definition unknownSnapshotAge : Z := 6 * Hour.

Inductive snapshotVerdict := snapshotNotOurs | snapshotRemove | snapshotBusy | snapshotLive.

#[export] Instance snapshotVerdict_eq_dec : EqDecision snapshotVerdict.
Proof. solve_decision. Defined.

Definition active (r : BackupRun) : bool :=
  bool_decide (run_Status r = RunPending) || bool_decide (run_Status r = RunRunning).

Definition disk_point (r : BackupRun) : bool :=
  bool_decide (run_Type r ∈ [BackupFull; BackupIncremental; BackupDifferential; BackupSnapshot]).

(** A newer point, or a child, has taken the place of the base. *)
Definition supersedes (r child : BackupRun) : bool :=
  disk_point child && negb (run_Deleted child) && finished child
  && (bool_decide (run_ParentRunID child = run_ID r)
      || (bool_decide (run_StorageTargetID child = run_StorageTargetID r)
          && (run_CreatedAt r <? run_CreatedAt child))).

Definition legacyQcowLeaf (runs : list BackupRun) (r : BackupRun) : bool :=
  bool_decide (run_LegacyIncrementalMode r = LegacyIncrementalQcow2) && negb (run_Deleted r) && finished r
  && negb (existsb (supersedes r) runs).

Definition busy (s : Snapshot) : bool :=
  negb (bool_decide (sn_SnapshotStatus s = ""%string)) && negb (bool_decide (sn_SnapshotStatus s = "ok"%string)).

(** A snapshot known to be of run [r]. *)
Definition of_run (runs : list BackupRun) (s : Snapshot) (r : BackupRun) : snapshotVerdict :=
  if active r then snapshotLive
  else if legacyQcowLeaf runs r then snapshotLive
  else if busy s then snapshotBusy else snapshotRemove.

(** The snapshot is recorded for the run. *)
Definition recorded (s : Snapshot) (r : BackupRun) : bool :=
  negb (bool_decide (run_SnapshotID r = ""%string)) && bool_decide (run_SnapshotID r = sn_ID s).

(** The owner and the verdict; the reason in words is left out. *)
Definition leftoverSnapshot (s : Snapshot) (runs : list BackupRun) (now : Z) : string * snapshotVerdict :=
  if negb (bool_decide (sn_SnapshotType s = ""%string)) && negb (bool_decide (sn_SnapshotType s = "regular"%string))
  then (""%string, snapshotNotOurs) else
  match List.find (recorded s) runs with
  | Some r => (run_ID r, of_run runs s r)
  | None =>
    if negb (String.prefix SnapshotMarkerPrefix (sn_Description s)) then (""%string, snapshotNotOurs) else
    let owner := TrimSpace (TrimPrefix (sn_Description s) SnapshotMarkerPrefix) in
    if bool_decide (owner = ""%string) || Contains owner " " || Contains owner (String (chr 9) "")
    then (""%string, snapshotNotOurs) else
    match List.find (λ r, bool_decide (run_ID r = owner)) runs with
    | Some r => (run_ID r, of_run runs s r)
    | None =>
      if bool_decide (sn_Date s = zero_time) || (now - sn_Date s <? unknownSnapshotAge)
      then (owner, snapshotNotOurs)
      else if busy s then (owner, snapshotBusy) else (owner, snapshotRemove)
    end
  end.

(** ** Transfers of images *)
Record ImageTransfer := mkImageTransfer {
  it_ID : string;
  it_Phase : string;
  it_Disk : string;
  it_Snapshot : string;
  it_Image : string
}.

Definition Terminal (t : ImageTransfer) : bool :=
  bool_decide (it_Phase t ∈ ["finished_success"; "finished_failure"; "cancelled"; "unknown"]%string).

Definition transferMatchesRefs (t : ImageTransfer) (refs : list string) : bool :=
  bool_decide (it_Snapshot t ∈ refs) || bool_decide (it_Image t ∈ refs).

(** The run that opened a transfer, and whether it has ended. *)
Definition ownTransfer (transferID : string) (owners : gmap string string) (runs : list BackupRun) :
    string * bool :=
  let runID := default ""%string (owners !! transferID) in
  if bool_decide (runID = ""%string) then (""%string, false)
  else if existsb (λ r, bool_decide (run_ID r = runID) && active r) runs then (runID, false)
  else (runID, true).

Definition abandoned (owners : gmap string string) (runs : list BackupRun) (refs : list string)
    (exclude : string) (t : ImageTransfer) : bool :=
  if Terminal t then false else
  let '(runID, own) := ownTransfer (it_ID t) owners runs in
  if negb (bool_decide (runID = ""%string)) && bool_decide (runID = exclude) then false
  else own || (bool_decide (runID = ""%string) && transferMatchesRefs t refs).

Definition abandonedTransfers (transfers : list ImageTransfer) (owners : gmap string string)
    (runs : list BackupRun) (refs : list string) (exclude : string) : list ImageTransfer :=
  List.filter (abandoned owners runs refs exclude) transfers.

Definition anyPendingTransfer (transfers : list ImageTransfer) : bool :=
  existsb (λ t, negb (Terminal t)) transfers.

Definition transfersOnDisks (transfers : list ImageTransfer) (diskIDs refs : list string) : list ImageTransfer :=
  List.filter (λ t, negb (Terminal t) && (bool_decide (it_Disk t ∈ diskIDs) || transferMatchesRefs t refs)) transfers.

(** ** The sweep *)
Definition otherActiveRun (runs : list BackupRun) (current : string) : bool :=
  existsb (λ r, negb (bool_decide (run_ID r = current))) runs.

(** What becomes of a deletion: the snapshot is gone, the engine still merges
    when the time is up, or it did not work out. *)
Inductive Deletion := DeletionDone | DeletionMerging | DeletionRefused.

Definition history_filter (serverID vmID : string) : RunFilter :=
  mkRunFilter serverID vmID "" "" "" "" [] [] None None true 500 0.

Definition active_filter (serverID vmID : string) : RunFilter :=
  mkRunFilter serverID vmID "" "" "" "" [RunPending; RunRunning] [] None None false 2 0.

Section Sweep.
Context (now : Z) (serverID vmID current : string).
Context (stuck : Snapshot → bool) (deletes : Snapshot → Deletion).

(** How many of the service's snapshots are left, and the ones the engine was
    asked to delete. *)
Fixpoint sweep_loop (runs : list BackupRun) (pending : Z) (snaps : list Snapshot) : CM (Z * list string) :=
  match snaps with
  | [] => mret (pending, [])
  | s :: rest =>
    let verdict := (leftoverSnapshot s runs now).2 in
    if negb (bool_decide (verdict = snapshotRemove)) then
      sweep_loop runs (if bool_decide (verdict = snapshotBusy) then pending + 1 else pending) rest
    else
      listed ← try (ListBackupRuns (active_filter serverID vmID)) ;
      match listed with
      | Err _ => mret (0, [])
      | Ok others =>
        if otherActiveRun others current then mret (0, []) else
        if stuck s then sweep_loop runs (pending + 1) rest else
        match deletes s with
        | DeletionDone =>
          left ← sweep_loop runs pending rest ;
          mret (left.1, sn_ID s :: left.2)
        | DeletionMerging => mret (pending + Z.of_nat (length snaps), [sn_ID s])
        | DeletionRefused => mret (pending + Z.of_nat (length snaps), [sn_ID s])
        end
      end
  end.

Definition sweepSnapshots (snaps : option (list Snapshot)) : CM (Z * list string) :=
  match snaps with
  | None => mret (1, [])
  | Some snaps =>
    if existsb (λ s, bool_decide (sn_SnapshotStatus s = "in_preview"%string)) snaps then mret (0, []) else
    listed ← try (ListBackupRuns (history_filter serverID vmID)) ;
    match listed with
    | Err _ => mret (1, [])
    | Ok runs => sweep_loop runs 0 snaps
    end
  end.
End Sweep.

(** * Listings with a limit *)
Definition matching (f : RunFilter) (c : Catalog) : list BackupRun := List.filter (selects f) (all_runs c).

Section Listings.
Lemma matching_contents f c c' : contents c = contents c' → matching f c = matching f c'.
Proof. intros Hc. unfold matching, all_runs. by rewrite (contents_runs _ _ Hc). Qed.

Lemma listed f c c' rs : catalog_keyed c → 0 < rf_Limit f → rf_Offset f = 0 → ListBackupRuns f c = (c', Ok rs) →
  (∀ r, r ∈ rs → ca_runs c !! run_ID r = Some r ∧ selects f r = true) ∧ NoDup (run_ID <$> rs)
  ∧ ((length (matching f c) ≤ Z.to_nat (rf_Limit f))%nat ∨ (length rs < Z.to_nat (rf_Limit f))%nat →
     ∀ r, ca_runs c !! run_ID r = Some r → selects f r = true → r ∈ rs).
Proof.
  intros Hk Hlim Hoff Hrun. apply statement_ok in Hrun as (c1 & Hc & Hrun). rewrite get_run in Hrun.
  injection Hrun as _ <-. unfold page. rewrite (proj2 (Z.ltb_lt 0 (rf_Limit f)) Hlim), Hoff. cbn [Z.ltb Z.compare].
  change (List.filter (selects f) (all_runs c1)) with (matching f c1).
  rewrite (matching_contents f c1 c Hc).
  set (l := sort_stable _ (matching f c)). assert (l ≡ₚ matching f c) as Hperm by apply sort_stable_perm.
  assert (∀ r, r ∈ l ↔ ca_runs c !! run_ID r = Some r ∧ selects f r = true) as Hin.
  { intros r. rewrite Hperm. unfold matching. by rewrite elem_of_filter_bool, all_runs_elem. }
  assert (NoDup (run_ID <$> l)) as Hnd by (rewrite Hperm; by apply NoDup_fmap_filter_bool, all_runs_nodup).
  split_and!.
  - intros r Hr. apply Hin. rewrite <-(take_drop (Z.to_nat (rf_Limit f)) l). apply elem_of_app. by left.
  - rewrite <-(take_drop (Z.to_nat (rf_Limit f)) l), fmap_app in Hnd. by apply NoDup_app in Hnd as [? _].
  - intros Hlen r Hr Hs. rewrite take_ge; [by apply Hin|]. rewrite Hperm.
    destruct Hlen as [?|Hlen]; [done|]. rewrite length_take, Hperm in Hlen. lia.
Qed.

(** A listing of two at most that names only one run is complete. *)
Lemma nobody_else srv vm current c c' rs : catalog_keyed c →
  ListBackupRuns (active_filter srv vm) c = (c', Ok rs) → otherActiveRun rs current = false →
  ∀ r, ca_runs c !! run_ID r = Some r → selects (active_filter srv vm) r = true → run_ID r = current.
Proof.
  intros Hk Hrun Hother. destruct (listed (active_filter srv vm) c c' rs Hk eq_refl eq_refl Hrun) as (_ & Hnd & Hall).
  assert (∀ r, r ∈ rs → run_ID r = current) as Hcur.
  { intros r Hr. apply not_true_iff_false in Hother. apply dec_stable. intros Hne. apply Hother, existsb_exists.
    exists r. split; [by apply list_elem_of_In|]. by rewrite bool_decide_false. }
  intros r Hr Hs. apply Hcur, Hall; [|done|done]. right.
  destruct rs as [|x [|y rs]]; [cbn; lia|cbn; lia|]. exfalso. cbn in Hnd. apply NoDup_cons in Hnd as [Hx _].
  apply Hx. rewrite (Hcur x), <-(Hcur y); [by left|right; by left|by left].
Qed.
End Listings.

(** * What the sweep deletes *)

(** Every run starts after its base, into the same storage. *)
Definition bases_older (c : Catalog) : Prop :=
  ∀ r p, ca_runs c !! run_ID r = Some r → ca_runs c !! run_ID p = Some p → run_ParentRunID r = run_ID p →
    run_StorageTargetID r = run_StorageTargetID p ∧ run_CreatedAt p < run_CreatedAt r.

Definition snapshots_apart (c : Catalog) : Prop :=
  ∀ r q, ca_runs c !! run_ID r = Some r → ca_runs c !! run_ID q = Some q →
    run_SnapshotID r ≠ ""%string → run_SnapshotID r = run_SnapshotID q → r = q.

Section Verdicts.
Context (c : Catalog) (srv vm : string) (runs : list BackupRun).
Hypothesis Hkeyed : catalog_keyed c.
Hypothesis Hruns : ∀ r, r ∈ runs → ca_runs c !! run_ID r = Some r ∧ selects (history_filter srv vm) r = true.

(** The base the next qcow2 increment would take has not been superseded. *)
Lemma base_is_leaf target p : srv ≠ ""%string → vm ≠ ""%string → bases_older c →
  newest_run (legacy_usable srv vm target false) c = Some p →
  ca_runs c !! run_ID p = Some p → legacy_usable srv vm target false p = true →
  (∀ s, ca_runs c !! run_ID s = Some s → legacy_usable srv vm target false s = true → run_CreatedAt s ≤ run_CreatedAt p) →
  run_LegacyIncrementalMode p = LegacyIncrementalQcow2 → legacyQcowLeaf runs p = true.
Proof.
  intros Hsrv Hvm Hold _ Hp Huse Hnew Hmode. unfold legacyQcowLeaf. unfold legacy_usable, of_machine in Huse.
  rewrite !andb_true_iff, !bool_decide_eq_true, negb_true_iff in Huse.
  destruct Huse as [[[[[Hs Hv] Ht] Hd] Hf] Hty].
  rewrite bool_decide_true, Hd, Hf by done. cbn. apply negb_true_iff, not_true_iff_false.
  intros (x & Hx%list_elem_of_In & Hsup)%existsb_exists. destruct (Hruns x Hx) as [Hcx Hsel].
  unfold supersedes, disk_point in Hsup. rewrite !andb_true_iff, orb_true_iff, andb_true_iff, !bool_decide_eq_true,
    negb_true_iff, Z.ltb_lt in Hsup. destruct Hsup as [[[Hdp Hdx] Hfx] Hrel].
  assert (run_StorageTargetID x = run_StorageTargetID p ∧ run_CreatedAt p < run_CreatedAt x) as [Htx Hlt].
  { destruct Hrel as [Hpar|?]; [by apply (Hold x p)|done]. }
  assert (legacy_usable srv vm target false x = true) as Hux.
  { unfold legacy_usable, of_machine. unfold selects, unset_or in Hsel. cbn in Hsel.
    rewrite !andb_true_iff, !orb_true_iff, !bool_decide_eq_true in Hsel.
    rewrite !andb_true_iff, !bool_decide_eq_true, negb_true_iff. split_and!; try done; naive_solver congruence. }
  specialize (Hnew x Hcx Hux). lia.
Qed.

(** A verdict to delete, taken apart. *)
Definition grounds (s : Snapshot) (now : Z) : Prop :=
  sn_SnapshotType s ∈ [""; "regular"]%string ∧ sn_SnapshotStatus s ∈ [""; "ok"]%string
  ∧ ((∃ r, ca_runs c !! run_ID r = Some r ∧ active r = false ∧ legacyQcowLeaf runs r = false
       ∧ (run_SnapshotID r = sn_ID s
          ∨ String.prefix SnapshotMarkerPrefix (sn_Description s) = true
            ∧ run_ID r = TrimSpace (TrimPrefix (sn_Description s) SnapshotMarkerPrefix)))
     ∨ (String.prefix SnapshotMarkerPrefix (sn_Description s) = true ∧ unknownSnapshotAge <= now - sn_Date s)).

Lemma of_run_remove s r : of_run runs s r = snapshotRemove →
  active r = false ∧ legacyQcowLeaf runs r = false ∧ busy s = false.
Proof. unfold of_run. by destruct (active r), (legacyQcowLeaf runs r), (busy s). Qed.

Lemma busy_false s : busy s = false → sn_SnapshotStatus s ∈ [""; "ok"]%string.
Proof.
  unfold busy. rewrite andb_false_iff, !negb_false_iff, !bool_decide_eq_true.
  intros [->| ->]; [left|right; left].
Qed.

Lemma find_some {A} (f : A → bool) l x : List.find f l = Some x → x ∈ l ∧ f x = true.
Proof. intros [Hin Hf]%List.find_some. by rewrite list_elem_of_In. Qed.

Lemma remove_grounds s now : (leftoverSnapshot s runs now).2 = snapshotRemove → grounds s now.
Proof.
  unfold leftoverSnapshot, grounds.
  destruct (negb _ && negb _) eqn:Htype; [done|].
  apply andb_false_iff in Htype. rewrite !negb_false_iff, !bool_decide_eq_true in Htype.
  assert (sn_SnapshotType s ∈ [""; "regular"]%string) as Ht by (destruct Htype as [->| ->]; [left|right; left]).
  destruct (List.find (recorded s) runs) as [r|] eqn:Hfind.
  { apply find_some in Hfind as [Hr Hid]. apply andb_true_iff in Hid as [_ Hid%bool_decide_eq_true].
    intros (Ha & Hl & Hb)%of_run_remove. split_and!; [done|by apply busy_false|]. left. exists r.
    split_and!; [by apply Hruns|done|done|by left]. }
  destruct (String.prefix _ _) eqn:Hmark; [|done]. cbn [negb]. cbv zeta.
  clear Hfind. destruct (_ || _ || _); [done|]. destruct (List.find _ runs) as [r|] eqn:Howner.
  { apply find_some in Howner as [Hr Hid%bool_decide_eq_true].
    intros (Ha & Hl & Hb)%of_run_remove. split_and!; [done|by apply busy_false|]. left. exists r.
    split_and!; [by apply Hruns|done|done|by right]. }
  destruct (_ || _) eqn:Hage; [done|]. apply orb_false_iff in Hage as [_ Hage%Z.ltb_ge].
  destruct (busy s) eqn:Hb; [done|]. intros _. split_and!; [done|by apply busy_false|]. by right.
Qed.

(** A snapshot recorded for a run that is still a base stays. *)
Lemma base_stays s p now : snapshots_apart c → p ∈ runs → legacyQcowLeaf runs p = true →
  run_SnapshotID p ≠ ""%string → sn_ID s = run_SnapshotID p → (leftoverSnapshot s runs now).2 ≠ snapshotRemove.
Proof.
  intros Hapart Hp Hleaf Hne Hid. unfold leftoverSnapshot. destruct (_ && _); [done|].
  destruct (List.find (recorded s) runs) as [r|] eqn:Hfind.
  - apply find_some in Hfind as [Hr Hsn]. apply andb_true_iff in Hsn as [_ Hsn%bool_decide_eq_true].
    assert (r = p) as ->.
    { destruct (Hruns r Hr) as [Hcr _], (Hruns p Hp) as [Hcp _]. symmetry. apply Hapart; congruence. }
    cbn. intros (_ & Hl & _)%of_run_remove. congruence.
  - apply (List.find_none _ _) with (x := p) in Hfind; [|by apply list_elem_of_In].
    unfold recorded in Hfind. rewrite bool_decide_false, bool_decide_true in Hfind by done. done.
Qed.
End Verdicts.
