(* ===== verification/LeftoverFacts.v ===== *)
(** What the sweep of snapshots may touch ([Leftovers]): only the service's own,
    of runs that have ended, and never the base of the next increment. *)

From S2P Require Import Prelude StateM GoTime GoStr Model Layout Grid Format Retention Catalog Chain Prune PruneFacts CatalogSamples Replicas Runs Plan PlanFacts Leftovers.

Section Sweeping.
Context (now : Z) (srv vm current : string) (stuck : Snapshot → bool) (deletes : Snapshot → Deletion).

Abbreviation sweep := (sweep_loop now srv vm current stuck deletes).

(** Nobody else backs the machine up. *)
Definition machine_idle (c : Catalog) : Prop :=
  ∀ r, ca_runs c !! run_ID r = Some r → run_ServerID r = srv → run_VMID r = vm → run_Deleted r = false →
    active r = true → run_ID r = current.

Lemma selects_active r : srv ≠ ""%string → vm ≠ ""%string → run_ServerID r = srv → run_VMID r = vm →
  run_Deleted r = false → active r = true → selects (active_filter srv vm) r = true.
Proof.
  intros Hs Hv H1 H2 Hd Ha. unfold selects, unset_or, none_or_in. cbn. rewrite H1, H2. unfold active in Ha.
  rewrite !andb_true_iff, !orb_true_iff, !bool_decide_eq_true in *. rewrite Hd.
  split_and!; try done; try (by right); try (by left).
  rewrite elem_of_cons, list_elem_of_singleton. exact Ha.
Qed.

Lemma sweep_reads runs snaps : ∀ pending, leaves contents (sweep runs pending snaps).
Proof.
  induction snaps as [|s snaps IH]; intros pending; cbn [sweep_loop]; [apply leaves_ret|]. cbv zeta.
  case_match; [apply IH|]. apply leaves_bind; [apply leaves_try, ListBackupRuns_reads|]. intros [others|e]; [|apply leaves_ret].
  case_match; [apply leaves_ret|]. case_match; [apply IH|].
  case_match; [|apply leaves_ret..]. apply leaves_bind; [apply IH|]. intros ?. apply leaves_ret.
Qed.

Lemma sweep_asked runs snaps : ∀ pending c c' left asked, catalog_keyed c → srv ≠ ""%string → vm ≠ ""%string →
  sweep runs pending snaps c = (c', Ok (left, asked)) →
  ∀ id, id ∈ asked → ∃ s, s ∈ snaps ∧ sn_ID s = id ∧ (leftoverSnapshot s runs now).2 = snapshotRemove
    ∧ stuck s = false ∧ machine_idle c.
Proof.
  induction snaps as [|s snaps IH]; intros pending c c' left asked Hk Hsrv Hvm; cbn [sweep_loop]; cbv zeta.
  { intros [= _ _ <-] id ?%elem_of_nil. done. }
  assert (∀ p cx leftx askedx, contents cx = contents c → sweep runs p snaps cx = (c', Ok (leftx, askedx)) →
    ∀ id, id ∈ askedx → ∃ x, x ∈ s :: snaps ∧ sn_ID x = id ∧ (leftoverSnapshot x runs now).2 = snapshotRemove
      ∧ stuck x = false ∧ machine_idle c) as Hrest.
  { intros p cx leftx askedx Hcx Hrun id Hid.
    destruct (IH p cx c' leftx askedx) with (id := id) as (x & Hx & Hxid & Hr & Hst & Hidle); try done.
    { by eapply catalog_keyed_contents. }
    exists x. split_and!; try done; [by right|]. unfold machine_idle in *. by rewrite <-(contents_runs _ _ Hcx). }
  case_match eqn:Hv; [by apply Hrest|]. apply negb_false_iff, bool_decide_eq_true in Hv.
  intros (c1 & listed & Hlist & Hrun)%try_inv.
  pose proof (leaves_run _ _ _ _ _ (ListBackupRuns_reads _) Hlist) as Hc1.
  destruct listed as [others|e]; [|injection Hrun as _ _ <-; by intros ? ?%elem_of_nil].
  destruct (otherActiveRun others current) eqn:Hother; [injection Hrun as _ _ <-; by intros ? ?%elem_of_nil|].
  destruct (stuck s) eqn:Hstuck; [by eapply Hrest|].
  assert (machine_idle c) as Hidle.
  { intros r Hr H1 H2 H3 H4. eapply nobody_else; [exact Hk|exact Hlist|exact Hother|exact Hr|by apply selects_active]. }
  assert (∃ x, x ∈ s :: snaps ∧ sn_ID x = sn_ID s ∧ (leftoverSnapshot x runs now).2 = snapshotRemove
      ∧ stuck x = false ∧ machine_idle c) as Hs by (exists s; split_and!; try done; by left).
  destruct (deletes s).
  - apply bind_ok in Hrun as (c2 & [l k] & Hloop & Hrun). injection Hrun as <- _ <-.
    intros id [->|Hin]%elem_of_cons; [done|]. by eapply Hrest.
  - injection Hrun as _ _ <-. by intros id ->%list_elem_of_singleton.
  - injection Hrun as _ _ <-. by intros id ->%list_elem_of_singleton.
Qed.
End Sweeping.

(** C30. The sweep asks the engine to delete only regular snapshots in no operation,
    while no other backup of the machine is under way, each of them recorded for,
    or named after, a run of the machine that has ended, or named after a run
    nobody knows and at least six hours old. As long as the machine has no more
    than five hundred recorded runs, it never asks for the snapshot that the next
    qcow2 increment, into whatever storage, would be based on. It writes nothing. *)
Theorem sweep_keeps_bases now srv vm current stuck deletes snaps c c' left asked :
  catalog_keyed c → srv ≠ ""%string → vm ≠ ""%string →
  sweepSnapshots now srv vm current stuck deletes (Some snaps) c = (c', Ok (left, asked)) →
  contents c' = contents c
  ∧ (∀ id, id ∈ asked → machine_idle srv vm current c ∧ ∃ s runs, s ∈ snaps ∧ sn_ID s = id ∧ grounds c runs s now)
  ∧ (bases_older c → snapshots_apart c → (length (matching (history_filter srv vm) c) ≤ 500)%nat →
     ∀ target p, newest_run (legacy_usable srv vm target false) c = Some p →
       run_LegacyIncrementalMode p = LegacyIncrementalQcow2 → run_SnapshotID p ≠ ""%string → run_SnapshotID p ∉ asked).
Proof.
  intros Hk Hsrv Hvm. unfold sweepSnapshots. case_match.
  { intros [= <- _ <-]. split_and!; [done|by intros ? ?%elem_of_nil|]. intros _ _ _ t p _ _ _. apply not_elem_of_nil. }
  intros (c1 & listed' & Hlist & Hrun)%try_inv.
  pose proof (leaves_run _ _ _ _ _ (ListBackupRuns_reads _) Hlist) as Hc1.
  destruct listed' as [runs|e].
  2:{ injection Hrun as <- _ <-. split_and!; [done|by intros ? ?%elem_of_nil|]. intros _ _ _ t p _ _ _. apply not_elem_of_nil. }
  destruct (listed (history_filter srv vm) c c1 runs Hk eq_refl eq_refl Hlist) as (Hruns & _ & Hall).
  assert (catalog_keyed c1) as Hk1 by by eapply catalog_keyed_contents.
  pose proof (sweep_asked now srv vm current stuck deletes runs snaps 0 c1 c' left asked Hk1 Hsrv Hvm Hrun) as Hasked.
  split_and!.
  - rewrite <-Hc1. eapply leaves_run; [apply sweep_reads|exact Hrun].
  - intros id Hid. destruct (Hasked id Hid) as (s & Hs & Hsid & Hv & _ & Hidle). split.
    + unfold machine_idle in *. by rewrite <-(contents_runs _ _ Hc1).
    + exists s, runs. split_and!; [done|done|]. by eapply remove_grounds.
  - intros Hold Hapart Hlen target p Hp Hmode Hne Hin. destruct (newest_ok _ _ _ Hk Hp) as (Hcp & Huse & Hnew).
    assert (p ∈ runs) as Hpin.
    { apply Hall; [left; exact Hlen|done|]. unfold legacy_usable, of_machine in Huse.
      rewrite !andb_true_iff, !bool_decide_eq_true in Huse. destruct Huse as [[[[[<- <-] _] _] _] _].
      unfold selects, unset_or, none_or_in. cbn. rewrite !andb_true_iff.
      split_and!; try done; apply orb_true_iff; right; by apply bool_decide_true. }
    destruct (Hasked _ Hin) as (s & _ & Hsid & Hv & _). revert Hv.
    apply (base_stays c srv vm runs Hruns s p now Hapart Hpin); [|done|done].
    by eapply base_is_leaf.
Qed.

(** * Samples *)

(** A base [q1] of a qcow2 chain with the snapshot [s1], and a failed run [o1]
    that left the snapshot [s0]. *)
Definition q1 : BackupRun :=
  run_set_SnapshotID "s1" (run_set_LegacyIncrementalMode LegacyIncrementalQcow2
    (run_set_CreatedAt 1 (sample_backup "q1" BackupSnapshot ""))).
Definition o1 : BackupRun :=
  run_set_SnapshotID "s0" (run_set_Status RunFailed (sample_backup "o1" BackupSnapshot "")).

Definition left_catalog : Catalog :=
  with_runs {["q1"%string := q1; "o1"%string := o1]} sample_catalog.

Definition left_snapshots : list Snapshot :=
  [mkSnapshot "s0" "jhvirt backup o1" "ok" "regular" 0; mkSnapshot "s1" "jhvirt backup q1" "ok" "regular" 0;
   mkSnapshot "mine" "before the upgrade" "ok" "regular" 0].

Lemma left_cases id r : ca_runs left_catalog !! id = Some r → (id = "q1"%string ∧ r = q1) ∨ (id = "o1"%string ∧ r = o1).
Proof.
  cbn [left_catalog with_runs ca_runs]. rewrite lookup_insert_Some, lookup_singleton_Some. naive_solver.
Qed.

Lemma left_run : sweepSnapshots Day "srv" "vm" "" (λ _, false) (λ _, DeletionDone) (Some left_snapshots) left_catalog
  = (left_catalog, Ok (0, ["s0"%string])).
Proof. vm_compute. reflexivity. Qed.

Lemma sweep_keeps_bases_witness : "s1"%string ∉ ["s0"%string].
Proof.
  refine (proj2 (proj2 (sweep_keeps_bases Day "srv" "vm" "" (λ _, false) (λ _, DeletionDone) left_snapshots
    left_catalog left_catalog 0 ["s0"%string] _ _ _ left_run)) _ _ _ "t1"%string q1 _ _ _).
  - intros id r [[-> ->]|[-> ->]]%left_cases; done.
  - done.
  - done.
  - intros r p [[_ ->]|[_ ->]]%left_cases [[_ ->]|[_ ->]]%left_cases; done.
  - intros r p [[_ ->]|[_ ->]]%left_cases [[_ ->]|[_ ->]]%left_cases; done.
  - vm_compute. lia.
  - vm_compute. reflexivity.
  - reflexivity.
  - done.
Defined.
