(* ===== verification/PlanSamples.v ===== *)
(** A machine with a full backup [f1] at checkpoint [cp-1] and an increment [i1]
    at [cp-2], at which the theorems on planning apply. *)

From S2P Require Import Prelude StateM GoTime Model Layout Grid Format Retention Catalog Chain Prune PruneFacts Purge CatalogSamples Replicas Runs Plan PlanFacts Checkpoints.

Definition at_checkpoint (id : string) (created : Z) (r : BackupRun) : BackupRun :=
  run_set_ToCheckpointID id (run_set_CreatedAt created r).

Definition tf : BackupRun := at_checkpoint "cp-1" 1 f1.
Definition ti : BackupRun := run_set_ChainIndex 1 (at_checkpoint "cp-2" 2 i1).

Definition tracked_catalog : Catalog :=
  with_runs {["f1"%string := tf; "i1"%string := ti]} sample_catalog.

Lemma tracked_cases id r :
  ca_runs tracked_catalog !! id = Some r → (id = "f1"%string ∧ r = tf) ∨ (id = "i1"%string ∧ r = ti).
Proof.
  cbn [tracked_catalog with_runs ca_runs]. rewrite lookup_insert_Some, lookup_singleton_Some. naive_solver.
Qed.

Lemma tracked_keyed : catalog_keyed tracked_catalog.
Proof. intros id r [[-> ->]|[-> ->]]%tracked_cases; done. Qed.

Lemma tracked_good : good_catalog tracked_catalog.
Proof.
  split.
  - constructor.
    + exact tracked_keyed.
    + intros r p Hr Hp _. apply tracked_cases in Hr, Hp.
      destruct Hr as [[_ ->]|[_ ->]], Hp as [[_ ->]|[_ ->]]; done.
    + intros r [Hr _] Hp. apply tracked_cases in Hr as [[_ ->]|[_ ->]]; [done|]. by exists tf.
    + by intros run ?%elem_of_nil.
  - intros id r [[_ ->]|[_ ->]]%tracked_cases; done.
Qed.

Lemma tracked_fresh : fresh_id tracked_catalog "i2".
Proof.
  split_and!; try done. intros s [[_ ->]|[_ ->]]%tracked_cases; done.
Qed.

#[export] Instance sample_engine : Engine := {
  ListCheckpoints := λ _, Some ["cp-1"; "cp-2"]%string;
  GetSnapshot := λ _ _, Missing;
  qemu_img := false;
  cfg_ChunkSize := 0
}.

Definition sample_server : Server := mkServer "srv" "engine" true.
Definition vda : Disk := mkDisk "disk" "vda" "" "data" "image" false false "cow" "incremental" false.

Definition increment (t : BackupType) (every : Z) : RunRequest :=
  {| rq_TransferID := ""; rq_ServerID := "srv"; rq_VMID := "vm"; rq_Type := t; rq_JobRunID := "";
     rq_JobID := "job"; rq_JobName := "nightly"; rq_FullEvery := every;
     rq_FallbackType := BackupSnapshot; rq_LegacyIncrementalMode := LegacyNone;
     rq_StorageTargetID := "t1"; rq_MirrorTargetIDs := []; rq_ExcludeDiskIDs := [];
     rq_Quiesce := false; rq_Consistency := ConsistencyCrash; rq_RequireConsistency := false;
     rq_MaxFreeze := 0; rq_MaxReadMBps := 0; rq_FreezeBy := FreezeByService;
     rq_FreezeMountpoints := []; rq_Encrypt := false; rq_ExportQcow2 := false;
     rq_VerifyAfter := VerifyOther ""; rq_VerifyOptions := mkVerifyOptions "" "" 0 0 0 false false "" "" "" "" "";
     rq_Retention := mkRetentionPolicy 0 0 0 0 0 0 0; rq_OVAHostID := ""; rq_OVADirectory := "";
     rq_TriggeredBy := "scheduler" |}.

Definition plan_of (t : BackupType) (every : Z) : option plan :=
  match (resolvePlan 10 true sample_server (increment t every) [vda] tracked_catalog).2 with
  | Ok p => Some p
  | Err _ => None
  end.

(** The increment follows [i1], the differential backup [f1], and a chain of two
    is full. *)
Example plans :
  (p_ParentRunID <$> plan_of BackupIncremental 5) = Some "i1"%string
  ∧ (p_ParentRunID <$> plan_of BackupDifferential 5) = Some "f1"%string
  ∧ (p_ParentRunID <$> plan_of BackupIncremental 2) = Some ""%string
  ∧ (p_ChunkSize <$> plan_of BackupIncremental 5) = Some 4096.
Proof. vm_compute. done. Qed.

Definition the_plan : plan := default (root_plan BackupFull 0 NoteNone LegacyNone) (plan_of BackupIncremental 5).

Lemma plan_has_base_witness :
  p_ParentRunID the_plan = "i1"%string ∧ p_ChainIndex the_plan < 5 ∧ p_FromCheckpointID the_plan ≠ ""%string.
Proof.
  destruct (plan_has_base 10 true sample_server (increment BackupIncremental 5) [vda] tracked_catalog
    tracked_catalog the_plan tracked_keyed) as [_ [Hno|(parent & _ & _ & _ & _ & _ & _ & _ & _ & _ & _ & _ & _ & Hlen & Hcp)]].
  - vm_compute. reflexivity.
  - exfalso. assert (p_ParentRunID the_plan = "i1"%string) as Hp by (vm_compute; reflexivity).
    rewrite (proj1 Hno) in Hp. discriminate Hp.
  - split; [vm_compute; reflexivity|]. split; [apply Hlen; vm_compute; reflexivity|].
    apply Hcp. reflexivity.
Defined.

(** The new run [i2]. *)
Definition starting : Start := mkStart 10 "i2" "c9" sample_server "vm" true (Some [vda]).
Definition no_text (e : CatalogError) : string := "".
Definition begun : Catalog * result CatalogError (BackupRun * plan * list Disk) :=
  @begin_run _ _ Layout.cyrillic no_text starting (increment BackupIncremental 5) tracked_catalog.

Lemma begun_run :
  @begin_run _ _ Layout.cyrillic no_text starting (increment BackupIncremental 5) tracked_catalog
  = (begun.1, begun.2).
Proof. unfold begun. apply surjective_pairing. Qed.

Lemma begin_keeps_chains_witness :
  good_catalog begun.1 ∧ is_ok begun.2 = true ∧ run_ParentRunID <$> ca_runs begun.1 !! "i2"%string = Some "i1"%string.
Proof.
  split; [|split; vm_compute; reflexivity].
  exact (proj1 (@begin_keeps_chains _ _ Layout.cyrillic no_text starting (increment BackupIncremental 5)
    tracked_catalog begun.1 begun.2 tracked_good tracked_fresh begun_run)).
Defined.

(** The increment [i1], refused by the engine and made full. *)
Lemma downgraded_unreadable_witness :
  ∃ c2 row, ca_runs c2 !! "i1"%string = Some row ∧ run_Type row = BackupIncremental ∧ finished row = true
    ∧ ∀ fuel copyID c3 set, LoadChainCopy fuel "i1" copyID c2 ≠ (c3, Ok set).
Proof.
  destruct (downgraded_unreadable 10 20 None None (increment BackupIncremental 5) ti ti tracked_catalog)
    as (c1 & r1 & c2 & r2 & row & _ & _ & _ & _ & Hrow & Hty & Hfin & Hno).
  - reflexivity.
  - exact tracked_keyed.
  - reflexivity.
  - reflexivity.
  - reflexivity.
  - exists c2, row. split; [exact Hrow|]. split; [exact Hty|]. split; [exact Hfin|].
    intros fuel copyID c3 set Hload. exact (proj1 (Hno fuel "i1"%string copyID c3 set Hload) eq_refl).
Defined.

(** Three checkpoints, the first from a deleted backup. *)
Definition old : BackupRun := run_set_Deleted true (at_checkpoint "cp-0" 0 (sample_backup "f0" BackupFull "")).
Definition rotated_catalog : Catalog := with_runs (<["f0"%string := old]> (ca_runs tracked_catalog)) tracked_catalog.

Lemma rotated_keyed : catalog_keyed rotated_catalog.
Proof.
  intros id r. cbn [rotated_catalog with_runs ca_runs].
  intros [[<- <-]|[_ Hr]]%lookup_insert_Some; [done|by apply tracked_keyed].
Qed.

Definition listed : list Checkpoint :=
  [mkCheckpoint "cp-1" "cp-0" 1; mkCheckpoint "cp-2" "cp-1" 2; mkCheckpoint "cp-0" "" 0].

Lemma rotation_keeps_bases_witness :
  pruneCheckpoints (Some listed) (λ _, false) "srv" "vm" ti rotated_catalog = (rotated_catalog, Ok ["cp-0"%string])
  ∧ p_FromCheckpointID the_plan ∉ ["cp-0"%string].
Proof.
  assert (pruneCheckpoints (Some listed) (λ _, false) "srv" "vm" ti rotated_catalog
    = (rotated_catalog, Ok ["cp-0"%string])) as Hrun by (vm_compute; reflexivity).
  split; [exact Hrun|].
  refine (proj2 (proj2 (rotation_keeps_bases listed (λ _, false) "srv" "vm" ti rotated_catalog rotated_catalog
    ["cp-0"%string] rotated_keyed Hrun)) 10 true sample_server (increment BackupIncremental 5) [vda]
    rotated_catalog the_plan eq_refl eq_refl eq_refl _).
  vm_compute. reflexivity.
Defined.
