(* ===== verification/Replicator.v ===== *)
(** Replication ([internal/replication/replicator.go]): queueing the chain of a
    run for other targets, and what a worker does with a copy it holds.

    A worker reads the clock at the start and at the end of its work. Alerts,
    events and the recalculation of the job run after each change are left out
    of the worker; the recalculation is [JobQueue.recalculateJobRun]. *)

From S2P Require Import Prelude StateM GoTime GoStr Model Layout Format Catalog Replicas.

Definition copyLease : Z := 5 * Minute.

Definition retryDelays : list Z :=
  [Minute; 5 * Minute; 15 * Minute; Hour; 4 * Hour; 12 * Hour; 24 * Hour].

(** The delay after so many attempts; there is always at least one. *)
Definition delay_after (attempts : Z) : option Z :=
  if attempts <? 1 then None else retryDelays !! Z.to_nat (Z.min (attempts - 1) (Z.of_nat (length retryDelays) - 1)).

(** Assignments to the fields of an attempt. *)
Definition ra_set_SourceCopyID (v : string) (a : ReplicationAttempt) : ReplicationAttempt :=
  mkReplicationAttempt (ra_ID a) (ra_CopyID a) v (ra_Status a) (ra_Attempt a) (ra_ObjectCount a)
    (ra_CopiedObjects a) (ra_TotalBytes a) (ra_CopiedBytes a) (ra_Error a) (ra_StartedAt a)
    (ra_EndedAt a) (ra_CreatedAt a).
Definition ra_set_Status (v : RunStatus) (a : ReplicationAttempt) : ReplicationAttempt :=
  mkReplicationAttempt (ra_ID a) (ra_CopyID a) (ra_SourceCopyID a) v (ra_Attempt a)
    (ra_ObjectCount a) (ra_CopiedObjects a) (ra_TotalBytes a) (ra_CopiedBytes a) (ra_Error a)
    (ra_StartedAt a) (ra_EndedAt a) (ra_CreatedAt a).
Definition ra_set_ObjectCount (v : Z) (a : ReplicationAttempt) : ReplicationAttempt :=
  mkReplicationAttempt (ra_ID a) (ra_CopyID a) (ra_SourceCopyID a) (ra_Status a) (ra_Attempt a) v
    (ra_CopiedObjects a) (ra_TotalBytes a) (ra_CopiedBytes a) (ra_Error a) (ra_StartedAt a)
    (ra_EndedAt a) (ra_CreatedAt a).
Definition ra_set_CopiedObjects (v : Z) (a : ReplicationAttempt) : ReplicationAttempt :=
  mkReplicationAttempt (ra_ID a) (ra_CopyID a) (ra_SourceCopyID a) (ra_Status a) (ra_Attempt a)
    (ra_ObjectCount a) v (ra_TotalBytes a) (ra_CopiedBytes a) (ra_Error a) (ra_StartedAt a)
    (ra_EndedAt a) (ra_CreatedAt a).
Definition ra_set_TotalBytes (v : Z) (a : ReplicationAttempt) : ReplicationAttempt :=
  mkReplicationAttempt (ra_ID a) (ra_CopyID a) (ra_SourceCopyID a) (ra_Status a) (ra_Attempt a)
    (ra_ObjectCount a) (ra_CopiedObjects a) v (ra_CopiedBytes a) (ra_Error a) (ra_StartedAt a)
    (ra_EndedAt a) (ra_CreatedAt a).
Definition ra_set_CopiedBytes (v : Z) (a : ReplicationAttempt) : ReplicationAttempt :=
  mkReplicationAttempt (ra_ID a) (ra_CopyID a) (ra_SourceCopyID a) (ra_Status a) (ra_Attempt a)
    (ra_ObjectCount a) (ra_CopiedObjects a) (ra_TotalBytes a) v (ra_Error a) (ra_StartedAt a)
    (ra_EndedAt a) (ra_CreatedAt a).
Definition ra_set_Error (v : string) (a : ReplicationAttempt) : ReplicationAttempt :=
  mkReplicationAttempt (ra_ID a) (ra_CopyID a) (ra_SourceCopyID a) (ra_Status a) (ra_Attempt a)
    (ra_ObjectCount a) (ra_CopiedObjects a) (ra_TotalBytes a) (ra_CopiedBytes a) v
    (ra_StartedAt a) (ra_EndedAt a) (ra_CreatedAt a).
Definition ra_set_EndedAt (v : option Z) (a : ReplicationAttempt) : ReplicationAttempt :=
  mkReplicationAttempt (ra_ID a) (ra_CopyID a) (ra_SourceCopyID a) (ra_Status a) (ra_Attempt a)
    (ra_ObjectCount a) (ra_CopiedObjects a) (ra_TotalBytes a) (ra_CopiedBytes a) (ra_Error a)
    (ra_StartedAt a) v (ra_CreatedAt a).

(** ** The source *)
Fixpoint first_source (exclude : string) (copies : list BackupCopy) :
    CM (option (BackupCopy * StorageTarget)) :=
  match copies with
  | [] => mret None
  | p :: copies =>
    if negb (Healthy (Some p)) || bool_decide (cp_StorageTargetID p = exclude)
    then first_source exclude copies else
    target ← try (GetStorageTarget (cp_StorageTargetID p)) ;
    match target with
    | Ok t => if tgt_Enabled t then mret (Some (p, t)) else first_source exclude copies
    | Err _ => first_source exclude copies
    end
  end.

Definition primary_first (a b : BackupCopy) : bool :=
  bool_decide (cp_Role a = CopyPrimary) && negb (bool_decide (cp_Role b = CopyPrimary)).

Definition healthySource (run : BackupRun) (exclude : string) : CM (BackupCopy * StorageTarget) :=
  copies ← ListBackupCopies (run_ID run) ;
  found ← first_source exclude (sort_stable primary_first copies) ;
  lift (of_option (NoSource (run_ID run)) found).

(** ** Queueing *)
Definition by_index (a b : BackupRun) : bool := run_ChainIndex a <? run_ChainIndex b.

Definition whole_chain (chainID : string) : RunFilter :=
  mkRunFilter "" "" "" "" chainID "" [] [] None None true 0 0.

(** An existing copy of a link that is not wanted any more is wanted again. *)
Definition requeue (p : BackupCopy) : BackupCopy :=
  let p := cp_set_Required true p in
  if negb (Healthy (Some p))
  then cp_set_Status CopyPending (cp_set_NextRetryAt None (cp_set_LastError "" p)) else p.

Section Queue.
(** The identifier of a new copy, by run and target. *)
Context (fresh : string → string → string).

Definition queue_link (now : Z) (targetID : string) (link : BackupRun) : CM BackupCopy :=
  if run_Deleted link then fail (ParentErased (run_ID link)) else
  existing ← try (GetBackupCopyForTarget (run_ID link) targetID) ;
  match existing with
  | Ok p =>
    if negb (cp_Required p) || bool_decide (cp_Status p = CopyCanceled)
       || bool_decide (cp_Status p = CopyDeleted)
    then UpdateBackupCopy now (requeue p) ;; mret (cp_set_UpdatedAt now (requeue p))
    else mret p
  | Err CatNotFound =>
    source ← try (healthySource link targetID) ;
    match source with
    | Err _ => fail (NoSource (run_ID link))
    | Ok (p, _) =>
      CreateBackupCopy now (mkBackupCopy (fresh (run_ID link) targetID) (run_ID link) targetID
        CopyReplica true CopyPending (run_RepoPath link) (cp_ID p) "" 0 0 0 0 0 "" None "" None None
        None None 0 0)
    end
  | Err e => fail e
  end.

(** Up to the first link beyond the run. *)
Fixpoint queue_links (now : Z) (run : BackupRun) (targetID : string) (links : list BackupRun) :
    CM (list BackupCopy) :=
  match links with
  | [] => mret []
  | link :: links =>
    if run_ChainIndex run <? run_ChainIndex link then mret [] else
    p ← queue_link now targetID link ;
    ps ← queue_links now run targetID links ;
    mret (p :: ps)
  end.

Fixpoint queue_targets (now : Z) (run : BackupRun) (chain : list BackupRun) (targetIDs : list string) :
    CM (list BackupCopy) :=
  match targetIDs with
  | [] => mret []
  | targetID :: targetIDs =>
    if bool_decide (targetID = run_StorageTargetID run) then queue_targets now run chain targetIDs else
    target ← GetStorageTarget targetID ;
    if negb (tgt_Enabled target) then fail (TargetDisabled (tgt_Name target)) else
    if tgt_ReadOnly target then fail (TargetReadOnly (tgt_Name target)) else
    ps ← queue_links now run targetID chain ;
    qs ← queue_targets now run chain targetIDs ;
    mret (ps ++ qs)
  end.

Definition QueueRun (now : Z) (runID : string) (targetIDs : list string) : CM (list BackupCopy) :=
  run ← GetBackupRun runID ;
  if bool_decide (run_Type run = BackupOVA) then fail OVANotReplicated else
  primary ← GetBackupCopyForTarget (run_ID run) (run_StorageTargetID run) ;
  if negb (Healthy (Some primary)) then fail PrimaryUnpublished else
  chain ← ListBackupRuns (whole_chain (run_ChainID run)) ;
  queue_targets now run (sort_stable by_index chain) targetIDs.
End Queue.

Definition Retry (now : Z) (copyID : string) : CM () :=
  p ← GetBackupCopy copyID ;
  if negb (bool_decide (cp_Role p = CopyReplica)) then fail NotReplica else
  UpdateBackupCopy now (cp_set_Status CopyPending (cp_set_NextRetryAt None (cp_set_LastError "" p))).

(** [active]: a worker of this process has the copy in hand; it is told to stop. *)
Definition Cancel (now : Z) (active : bool) (copyID : string) : CM () :=
  p ← GetBackupCopy copyID ;
  if negb (bool_decide (cp_Role p = CopyReplica)) then fail NotReplica else
  match cp_Status p with
  | CopyCanceled => mret ()
  | s =>
    if bool_decide (s = CopySucceeded ∨ s = CopyLocked ∨ s = CopyDeleted) && negb active
    then fail (NotCancelable s)
    else UpdateBackupCopy now (cp_set_Status CopyCanceled (cp_set_EndedAt (Some now)
           (cp_set_NextRetryAt None p)))
  end.

(** ** Copying *)

(** No replica is published before its parent. *)
Definition ensureParentCopyReady (p : BackupCopy) : CM () :=
  run ← GetBackupRun (cp_RunID p) ;
  if bool_decide (run_ParentRunID run = ""%string) then mret () else
  found ← try (GetBackupCopyForTarget (run_ParentRunID run) (cp_StorageTargetID p)) ;
  match found with
  | Err CatNotFound => fail (ParentNoCopy (run_ParentRunID run))
  | Err e => fail e
  | Ok parent =>
    if Healthy (Some parent) then mret () else
    match cp_Status parent with
    | CopyPending | CopyCopying | CopyVerifying | CopyFailed => fail (ParentPending (run_ParentRunID run))
    | s => fail (ParentBlocked (cp_ID parent) s)
    end
  end.

Section Copy.
(** [hex(sha256(data))]; whether the two storages can copy natively; the text of
    an error. *)
Context (sha256hex : bytes → string) (native : StorageTarget → StorageTarget → bool)
  (error_text : CatalogError → string).

Definition hashObject (t : StorageTarget) (key : string) : CM string :=
  data ← GetObject t key ; mret (sha256hex data).

(** [repo.CopyOptimized], where it applies: the storage reads the source. *)
Definition copy_native (src dst : StorageTarget) (key : string) : CM () :=
  c ← get ;
  data ← lift (of_option (ErrMissing (tgt_Name src) key) (ca_objects c !! (tgt_ID src, key))) ;
  PutObject dst key data.

Definition copyOne (src dst : StorageTarget) (key : string) : CM string :=
  expected ← hashObject src key ;
  (if native src dst then copy_native src dst key
   else data ← GetObject src key ; PutObject dst key data) ;;
  actual ← hashObject dst key ;
  if negb (bool_decide (actual = expected)) then fail (DigestDiffers key) else mret expected.

(** The copy and the attempt in the worker's hands. *)
Definition Work : Type := BackupCopy * ReplicationAttempt.

Definition count_object (size : Z) (p : BackupCopy) : BackupCopy :=
  cp_set_CopiedObjects (cp_CopiedObjects p + 1) (cp_set_CopiedBytes (cp_CopiedBytes p + size) p).

Definition note_progress (p : BackupCopy) (a : ReplicationAttempt) : ReplicationAttempt :=
  ra_set_CopiedObjects (cp_CopiedObjects p) (ra_set_CopiedBytes (cp_CopiedBytes p) a).

(** The object was verified in the destination before, and still is. *)
Definition already_there (dst : StorageTarget) (known : option ReplicationObject) (key : string)
    (size : Z) : CM bool :=
  match known with
  | Some done =>
    if bool_decide (ro_Status done = "verified"%string) && (ro_SizeBytes done =? size) then
      actual ← try (hashObject dst key) ;
      mret (match actual with Ok h => bool_decide (h = ro_SHA256 done) | Err _ => false end)
    else mret false
  | None => mret false
  end.

Definition transfer_object (now : Z) (src dst : StorageTarget) (w : Work) (key : string) (size : Z) :
    CM (Work * option CatalogError) :=
  let '(p, a) := w in
  outcome ← try (copyOne src dst key) ;
  match outcome with
  | Err e =>
    try (UpsertReplicationObject (mkReplicationObject (cp_ID p) key size "" "failed" (error_text e))) ;;
    mret (w, Some e)
  | Ok hash =>
    recorded ← try (UpsertReplicationObject (mkReplicationObject (cp_ID p) key size hash "verified" "")) ;
    match recorded with
    | Err e => mret (w, Some e)
    | Ok _ =>
      let p := count_object size p in
      let a := note_progress p a in
      try (SetCopyProgress now (cp_ID p) (cp_CopiedObjects p) (cp_CopiedBytes p)) ;;
      try (UpdateReplicationAttempt a) ;;
      mret ((p, a), None)
    end
  end.

Fixpoint transfer_all (now : Z) (src dst : StorageTarget) (known : string → option ReplicationObject)
    (w : Work) (objects : list (string * Z)) : CM (Work * option CatalogError) :=
  match objects with
  | [] => mret (w, None)
  | (key, size) :: objects =>
    there ← already_there dst (known key) key size ;
    if (there : bool) then transfer_all now src dst known (count_object size w.1, w.2) objects else
    r ← transfer_object now src dst w key size ;
    match r with
    | (w, Some e) => mret (w, Some e)
    | (w, None) => transfer_all now src dst known w objects
    end
  end.

(** By key, the document of the run last. *)
Definition published_last (manifest : string) (a b : string * Z) : bool :=
  if bool_decide (a.1 = manifest) then false
  else if bool_decide (b.1 = manifest) then true
  else String.ltb a.1 b.1.

(** [if err != nil { return err }] with the work as it is. *)
Definition or_return {A} (w : Work) (m : CM A) (k : A → CM (Work * option CatalogError)) :
    CM (Work * option CatalogError) :=
  outcome ← try m ;
  match outcome with Ok a => k a | Err e => mret (w, Some e) end.

Definition total_size (objects : list (string * Z)) : Z := foldr (λ o n, o.2 + n) 0 objects.

Definition start_counts (objects : list (string * Z)) (p : BackupCopy) : BackupCopy :=
  cp_set_ObjectCount (Z.of_nat (length objects)) (cp_set_CopiedObjects 0
    (cp_set_TotalBytes (total_size objects) (cp_set_CopiedBytes 0 p))).

Definition attempt_counts (p : BackupCopy) (a : ReplicationAttempt) : ReplicationAttempt :=
  ra_set_ObjectCount (cp_ObjectCount p) (ra_set_TotalBytes (cp_TotalBytes p) a).

(** From the list of objects on. *)
Definition copy_objects (now : Z) (src dst : StorageTarget) (path : string) (w : Work) :
    CM (Work * option CatalogError) :=
  or_return w (ListObjects src path) (λ listed,
  let manifest := RunManifestKey path in
  if negb (existsb (λ o, bool_decide (o.1 = manifest)) listed) then mret (w, Some NotPublished) else
  let objects := sort_stable (published_last manifest) listed in
  let p := start_counts objects w.1 in
  let a := attempt_counts p w.2 in
  try (UpdateBackupCopy now p) ;;
  try (UpdateReplicationAttempt a) ;;
  or_return (p, a) (ListReplicationObjects (cp_ID p)) (λ known,
  r ← transfer_all now src dst known (p, a) objects ;
  match r with
  | (w, Some e) => mret (w, Some e)
  | ((p, a), None) =>
    let p := cp_set_Status CopyVerifying p in
    try (UpdateBackupCopy now p) ;;
    mret ((p, a), None)
  end)).

Definition copy (now : Z) (w : Work) : CM (Work * option CatalogError) :=
  or_return w (GetBackupRun (cp_RunID w.1)) (λ run,
  or_return w (GetStorageTarget (cp_StorageTargetID w.1)) (λ dst,
  if negb (tgt_Enabled dst) then mret (w, Some (TargetDisabled (tgt_Name dst))) else
  if tgt_ReadOnly dst then mret (w, Some (TargetReadOnly (tgt_Name dst))) else
  or_return w (healthySource run (cp_StorageTargetID w.1)) (λ source,
  let '(from, src) := source in
  let w := (cp_set_SourceCopyID (cp_ID from) w.1, ra_set_SourceCopyID (cp_ID from) w.2) in
  or_return w (Open src) (λ _,
  or_return w (Open dst) (λ _,
  copy_objects now src dst (cp_RepoPath from) w))))).

(** ** The worker *)

(** What happens around the work: the identifier of the attempt, the clock at
    the start and at the end, the verification of the new copy if the job wants
    one, whether the operator cancelled the copy, the service is stopping, and
    the error is that of a cancelled context. *)
Record Circumstances := mkCircumstances {
  ci_attempt : string;
  ci_now : Z;
  ci_ended : Z;
  ci_verify : option (CM ());
  ci_manual : bool;
  ci_stopped : bool;
  ci_canceled : bool
}.

Definition canceled_text : string := "отменено оператором".

Definition all_counts (p : BackupCopy) (a : ReplicationAttempt) : ReplicationAttempt :=
  attempt_counts p (note_progress p a).

(** The work ended because it was cancelled. *)
Definition finish_canceled (ended : Z) (manual : bool) (w : Work) : CM () :=
  let '(p, a) := w in
  let p := cp_set_EndedAt (Some ended) (cp_set_NextRetryAt None p) in
  let text := if manual then canceled_text else stopped_text in
  let p := cp_set_Status (if manual then CopyCanceled else CopyPending) (cp_set_LastError text p) in
  try (UpdateBackupCopy ended p) ;;
  try (UpdateReplicationAttempt (all_counts p (ra_set_Error text
    (ra_set_EndedAt (Some ended) (ra_set_Status RunCanceled a))))) ;;
  mret ().

Definition finish_ok (ended : Z) (w : Work) : CM () :=
  let '(p, a) := w in
  let p := cp_set_Status CopySucceeded (cp_set_EndedAt (Some ended) (cp_set_NextRetryAt None
    (cp_set_LastError "" (cp_set_VerifiedAt (Some ended) p)))) in
  target ← try (GetStorageTarget (cp_StorageTargetID p)) ;
  let p := match target with
    | Ok t => if tgt_ObjectLockEnabled t
              then cp_set_LockedUntil (Some (ended + tgt_ObjectLockDays t * Day)) p else p
    | Err _ => p
    end in
  try (UpdateBackupCopy ended p) ;;
  try (UpdateReplicationAttempt (all_counts p (ra_set_EndedAt (Some ended) (ra_set_Status RunSucceeded a)))) ;;
  mret ().

Definition finish_failed (ended : Z) (e : CatalogError) (w : Work) : CM () :=
  let '(p, a) := w in
  let p := cp_set_Status CopyFailed (cp_set_EndedAt (Some ended) (cp_set_LastError (error_text e)
    (cp_set_NextRetryAt (Some (ended + default 0 (delay_after (cp_AttemptCount p)))) p))) in
  try (UpdateBackupCopy ended p) ;;
  try (UpdateReplicationAttempt (all_counts p (ra_set_Error (error_text e)
    (ra_set_EndedAt (Some ended) (ra_set_Status RunFailed a))))) ;;
  mret ().

Definition finish (env : Circumstances) (w : Work) (err : option CatalogError) : CM () :=
  let err := if ci_manual env then Some Canceled else err in
  match err with
  | None => finish_ok (ci_ended env) w
  | Some e =>
    if (ci_manual env || ci_canceled env) && (ci_manual env || ci_stopped env)
    then finish_canceled (ci_ended env) (ci_manual env) w
    else finish_failed (ci_ended env) e w
  end.

(** The attempt is counted and the copy made. *)
Definition start (now : Z) (p : BackupCopy) : BackupCopy :=
  cp_set_Status CopyCopying (cp_set_StartedAt (Some now) (cp_set_EndedAt None
    (cp_set_AttemptCount (cp_AttemptCount p + 1) (cp_set_NextRetryAt None (cp_set_LastError "" p))))).

Definition work_on (env : Circumstances) (p : BackupCopy) : CM () :=
  let now := ci_now env in
  let p := start now p in
  updated ← try (UpdateBackupCopy now p) ;
  match updated with
  | Err _ => mret ()
  | Ok _ =>
    let a := mkReplicationAttempt (ci_attempt env) (cp_ID p) (cp_SourceCopyID p) RunRunning
      (cp_AttemptCount p) 0 0 0 0 "" (Some now) None now in
    try (CreateReplicationAttempt a) ;;
    r ← copy now (p, a) ;
    let '(w, err) := r in
    err ← match err, ci_verify env with
      | None, Some verify =>
        checked ← try verify ; mret (match checked with Ok _ => None | Err e => Some e end)
      | err, _ => mret err
      end ;
    finish env w err
  end.

(** The parent is not in the storage yet, or never will be. *)
Definition not_ready (now : Z) (e : CatalogError) (p : BackupCopy) : CM () :=
  try (UpdateBackupCopy now (match e with
    | ParentPending _ => cp_set_Status CopyPending (cp_set_NextRetryAt (Some (now + 10 * Second)) p)
    | e => cp_set_Status CopyLocked (cp_set_LastError (error_text e) (cp_set_NextRetryAt None p))
    end)) ;;
  mret ().

Definition attempt_copy (env : Circumstances) (p : BackupCopy) : CM () :=
  ready ← try (ensureParentCopyReady p) ;
  match ready with
  | Err e => not_ready (ci_now env) e p
  | Ok _ => work_on env p
  end.

(** [busy]: another worker of this process has the copy in hand. The lease is
    given up whatever happened. *)
Definition process (env : Circumstances) (busy : bool) (p : BackupCopy) : CM () :=
  if busy then mret () else
  attempt_copy env p ;;
  try (ReleaseCopyLease (ci_ended env) (cp_ID p) (cp_LockedBy p)) ;;
  mret ().
End Copy.

(** ** The outcome of a job run *)
Record Tally := mkTally { ta_Succeeded : Z; ta_Failed : Z; ta_Canceled : Z; ta_Waiting : Z; ta_PrimaryFailed : bool }.

(** One required copy in a target of the job. *)
Definition tally_copy (t : Tally) (p : BackupCopy) : Tally :=
  let '(mkTally s f k w b) := t in
  let b := b || (bool_decide (cp_Role p = CopyPrimary) && negb (Healthy (Some p))) in
  if Healthy (Some p) then mkTally (s + 1) f k w b else
  match cp_Status p with
  | CopyCanceled => mkTally s f (k + 1) w b
  | CopyPending | CopyCopying | CopyVerifying => mkTally s f k (w + 1) b
  | CopyFailed => if bool_decide (is_Some (cp_NextRetryAt p)) then mkTally s f k (w + 1) b
                  else mkTally s (f + 1) k w b
  | _ => mkTally s (f + 1) k w b
  end.

Definition expected_copy (targets : option (list string)) (p : BackupCopy) : bool :=
  cp_Required p
  && match targets with Some ts => bool_decide (cp_StorageTargetID p ∈ ts) | None => true end.
