(* ===== verification/ReplicaFacts.v ===== *)
(** What replication guarantees: the delays between attempts, the leases, and
    that a replica is published only when everything it needs is in place. *)

From S2P Require Import Prelude StateM GoTime GoStr Model Layout Format Catalog Replicas Replicator Purge.

(** * Delays *)
Section Delays.
Lemma retry_delay_some n : 1 ≤ n →
  ∃ d, delay_after n = Some d ∧ retryDelays !! Z.to_nat (Z.min (n - 1) 6) = Some d.
Proof.
  intros Hn. unfold delay_after. destruct (Z.ltb_spec n 1); [lia|].
  change (Z.of_nat (length retryDelays) - 1) with 6.
  destruct (lookup_lt_is_Some_2 retryDelays (Z.to_nat (Z.min (n - 1) 6))) as [d Hd].
  { change (length retryDelays) with 7%nat. lia. }
  by exists d.
Qed.

Lemma retryDelays_sorted : StronglySorted Z.le retryDelays.
Proof. repeat constructor; vm_compute; discriminate. Qed.

Lemma sorted_lookup_le l i j x y :
  StronglySorted Z.le l → (i ≤ j)%nat → l !! i = Some x → l !! j = Some y → x ≤ y.
Proof.
  intros Hs. revert i j. induction Hs as [|z l Hs IH Hz]; intros i j Hij; [done|].
  destruct i as [|i], j as [|j]; cbn; intros Hx Hy; simplify_eq; [lia| |lia|].
  - rewrite Forall_forall in Hz. by eapply Hz, list_elem_of_lookup_2.
  - apply (IH i j); [lia|done..].
Qed.

Lemma delay_bounds i d : retryDelays !! i = Some d → Minute ≤ d ≤ Day.
Proof.
  intros Hd. apply list_elem_of_lookup_2 in Hd.
  revert d Hd. apply (proj1 (Forall_forall (λ d, Minute ≤ d ≤ Day) retryDelays)).
  repeat (apply Forall_cons; split; [vm_compute; split; discriminate|]). by apply Forall_nil.
Qed.

(** However often a copy has failed, the delay before its next attempt is
    defined, lies between a minute and a day, and never shrinks as the attempts
    grow; a worker always counts the attempt first, so the table is never read
    before its first entry. *)
Theorem retry_delays now p m :
  0 ≤ cp_AttemptCount p → cp_AttemptCount (start now p) ≤ m →
  ∃ d d', delay_after (cp_AttemptCount (start now p)) = Some d ∧ delay_after m = Some d'
    ∧ Minute ≤ d ≤ d' ∧ d' ≤ Day.
Proof.
  intros Hp Hm. change (cp_AttemptCount (start now p)) with (cp_AttemptCount p + 1) in *.
  destruct (retry_delay_some (cp_AttemptCount p + 1)) as (d & Hd & Hi); [lia|].
  destruct (retry_delay_some m) as (d' & Hd' & Hj); [lia|].
  exists d, d'. split_and!; [done|done|by eapply delay_bounds| |by eapply delay_bounds].
  eapply sorted_lookup_le; [apply retryDelays_sorted| |exact Hi|exact Hj]. lia.
Qed.
End Delays.

(** * What the statements leave alone *)
Section Leaves.
Lemma Upsert_objects o : leaves ca_objects (UpsertReplicationObject o).
Proof. intros c. unfold UpsertReplicationObject, statement, attempt. run_st. by destruct (ca_faults c) as [|[]]. Qed.
Lemma UpdateAttempt_objects a : leaves ca_objects (UpdateReplicationAttempt a).
Proof. intros c. unfold UpdateReplicationAttempt, statement, attempt. run_st. by destruct (ca_faults c) as [|[]]. Qed.
Lemma UpdateCopy_objects now p : leaves ca_objects (UpdateBackupCopy now p).
Proof. by apply UpdateBackupCopy_leaves. Qed.
Lemma SetCopyProgress_objects now id n b : leaves ca_objects (SetCopyProgress now id n b).
Proof. apply leaves_bind; [by apply update_copies_leaves|intros ?; apply leaves_ret]. Qed.

Lemma reads_objects {A} (m : CM A) : leaves contents m → leaves ca_objects m.
Proof. intros Hm c. specialize (Hm c). by destruct (m c) as [[] r], c; injection Hm. Qed.

Lemma GetObject_reads t key : leaves contents (GetObject t key).
Proof.
  apply leaves_bind; [apply attempt_reads|intros _].
  apply leaves_bind; [apply leaves_get|intros c; apply leaves_lift].
Qed.
Lemma ListObjects_reads t prefix : leaves contents (ListObjects t prefix).
Proof.
  apply leaves_bind; [apply attempt_reads|intros _].
  apply leaves_bind; [apply leaves_get|intros c; apply leaves_ret].
Qed.
Lemma ListReplicationObjects_reads id : leaves contents (ListReplicationObjects id).
Proof.
  apply leaves_bind; [apply attempt_reads|intros _].
  apply leaves_bind; [apply leaves_get|intros c; apply leaves_ret].
Qed.

Lemma first_source_reads exclude ps : leaves contents (first_source exclude ps).
Proof.
  induction ps as [|p ps IH]; cbn [first_source]; [apply leaves_ret|].
  case_match; [done|]. apply leaves_bind; [apply leaves_try, GetStorageTarget_reads|].
  intros [t|e]; [case_match; [apply leaves_ret|done]|done].
Qed.
Lemma healthySource_reads run exclude : leaves contents (healthySource run exclude).
Proof.
  apply leaves_bind; [apply ListBackupCopies_reads|intros ps].
  apply leaves_bind; [apply first_source_reads|intros o; apply leaves_lift].
Qed.

Lemma GetObject_ok t key c c' d :
  GetObject t key c = (c', Ok d) → ca_objects c !! (tgt_ID t, key) = Some d ∧ ca_objects c' = ca_objects c.
Proof.
  unfold GetObject, attempt. run_st. destruct (ca_faults c) as [|[]]; cbn; [|done|];
    destruct (ca_objects c !! _) eqn:E; cbn; intros [=]; subst; done.
Qed.
End Leaves.

(** * Copying *)
Section Copying.
Context (sha256hex : bytes → string) (native : StorageTarget → StorageTarget → bool)
  (error_text : CatalogError → string).
Context (src dst : StorageTarget).
Hypothesis apart : tgt_ID src ≠ tgt_ID dst.

Abbreviation source c key := (ca_objects c !! (tgt_ID src, key)).
Abbreviation replica c key := (ca_objects c !! (tgt_ID dst, key)).

(** Only the object [key] of the destination may differ. *)
Definition only_key (key : string) (c c' : Catalog) : Prop :=
  ∀ o, o ≠ (tgt_ID dst, key) → ca_objects c' !! o = ca_objects c !! o.

(** The destination has an object with the digest of the source. *)
Definition delivered (c c' : Catalog) (key : string) : Prop :=
  ∃ d d', source c key = Some d ∧ replica c' key = Some d' ∧ sha256hex d' = sha256hex d.

Lemma PutObject_only key data c : only_key key c (PutObject dst key data c).1.
Proof.
  intros o Ho. unfold PutObject.
  destruct (ca_uploads c) as [|[|[d|]|d] us]; cbn; rewrite ?lookup_insert_ne by congruence; done.
Qed.

Lemma hashObject_run t key c :
  ca_objects (hashObject sha256hex t key c).1 = ca_objects c
  ∧ ∀ h, (hashObject sha256hex t key c).2 = Ok h →
      ∃ d, ca_objects c !! (tgt_ID t, key) = Some d ∧ h = sha256hex d.
Proof.
  unfold hashObject. run_st. pose proof (reads_objects _ (GetObject_reads t key) c) as Hl.
  destruct (GetObject t key c) as [c1 [d|e]] eqn:Hg; cbn in *; (split; [done|]); [|done].
  intros h [= <-]. exists d. by apply GetObject_ok in Hg as [? _].
Qed.

Lemma move_only key c :
  only_key key c ((if native src dst then copy_native src dst key
    else data ← GetObject src key ; PutObject dst key data) c).1.
Proof.
  destruct (native src dst); unfold copy_native; run_st.
  - destruct (ca_objects c !! _) as [d|] eqn:E; cbn; [apply PutObject_only|done].
  - pose proof (reads_objects _ (GetObject_reads src key) c) as Hl.
    destruct (GetObject src key c) as [c1 [d|e]]; cbn in *; intros o Ho; rewrite <-Hl; [|done].
    by apply PutObject_only.
Qed.

Lemma copyOne_run key c c' r :
  copyOne sha256hex native src dst key c = (c', r) →
  only_key key c c' ∧ (∀ h, r = Ok h → delivered c c' key ∧ ∀ d, source c key = Some d → h = sha256hex d).
Proof.
  unfold copyOne. run_st. destruct (hashObject_run src key c) as [Hs Hh].
  destruct (hashObject sha256hex src key c) as [c1 [h|e]]; cbn in *.
  2:{ intros [= <- <-]. split; [intros o _; by rewrite Hs|done]. }
  destruct (Hh h eq_refl) as (d & Hd & Hhd). pose proof (move_only key c1) as Hm. revert Hm. run_st.
  match goal with |- context [(if native src dst then ?a else ?b) c1] =>
    destruct ((if native src dst then a else b) c1) as [c2 [[]|e]] end; cbn; intros Hm.
  2:{ intros [= <- <-]. split; [intros o Ho; rewrite Hm by done; by rewrite Hs|done]. }
  destruct (hashObject_run dst key c2) as [Ht Hk].
  destruct (hashObject sha256hex dst key c2) as [c3 [k|e]]; cbn in *;
    (assert (only_key key c c3) as Hall by (intros o Ho; rewrite Ht, Hm, Hs; done)).
  2:{ intros [= <- <-]. done. }
  destruct (Hk k eq_refl) as (d' & Hd' & Hkd).
  destruct (bool_decide (k = h)) eqn:E; cbn; intros [= <- <-]; (split; [done|]); [|done].
  apply bool_decide_eq_true in E. intros h' [= <-]. split.
  - exists d, d'. rewrite Ht. split_and!; [done|done|congruence].
  - intros d2 Hd2. congruence.
Qed.

Lemma only_key_source key c c' k : only_key key c c' → source c' k = source c k.
Proof. intros H. apply H. congruence. Qed.

Lemma delivered_later c c1 c2 c' key :
  (∀ k, source c1 k = source c k) → replica c' key = replica c2 key →
  delivered c1 c2 key → delivered c c' key.
Proof.
  intros Hs Hr (d & d' & Hd & Hd' & Heq). exists d, d'. rewrite <-Hs, Hr. done.
Qed.

Lemma transfer_object_run now w key size c :
  ∃ c' w' err, transfer_object sha256hex native error_text now src dst w key size c = (c', Ok (w', err))
    ∧ only_key key c c' ∧ (err = None → delivered c c' key).
Proof.
  unfold transfer_object. destruct w as [p a]. run_st.
  destruct (copyOne sha256hex native src dst key c) as [c1 [h|e]] eqn:Hc;
    apply copyOne_run in Hc as [Hout Hdel].
  - pose proof (Upsert_objects (mkReplicationObject (cp_ID p) key size h "verified" "") c1) as Hu.
    destruct (UpsertReplicationObject _ c1) as [c2 [[]|e]]; cbn in *.
    2:{ eexists _, _, _. split; [done|]. split; [intros o Ho; rewrite Hu; by apply Hout|done]. }
    match goal with |- context [SetCopyProgress now ?i ?n ?b c2] =>
      pose proof (SetCopyProgress_objects now i n b c2) as Hp;
      destruct (SetCopyProgress now i n b c2) as [c3 r3] end; cbn in *.
    match goal with |- context [UpdateReplicationAttempt ?a c3] =>
      pose proof (UpdateAttempt_objects a c3) as Hq;
      destruct (UpdateReplicationAttempt a c3) as [c4 r4] end; cbn in *.
    assert (ca_objects c4 = ca_objects c1) as Hobj by congruence.
    eexists _, _, _. split; [done|]. split; [intros o Ho; rewrite Hobj; by apply Hout|intros _].
    destruct (Hdel h eq_refl) as [(d & d' & Hd & Hd' & Heq) _]. exists d, d'. by rewrite Hobj.
  - match goal with |- context [UpsertReplicationObject ?o c1] =>
      pose proof (Upsert_objects o c1) as Hu; destruct (UpsertReplicationObject o c1) as [c2 r2] end.
    cbn in *. eexists _, _, _. split; [done|]. split; [intros o Ho; rewrite Hu; by apply Hout|done].
Qed.

(** A record says the truth about the source. *)
Definition truthful (c : Catalog) (known : string → option ReplicationObject) : Prop :=
  ∀ key o d, known key = Some o → ro_Status o = "verified"%string → source c key = Some d →
    ro_SizeBytes o = Z.of_nat (length d) → ro_SHA256 o = sha256hex d.

Lemma already_there_run known key c d :
  truthful c known → source c key = Some d →
  ∃ c' b, already_there sha256hex dst (known key) key (Z.of_nat (length d)) c = (c', Ok b)
    ∧ ca_objects c' = ca_objects c ∧ (b = true → delivered c c key).
Proof.
  intros Ht Hd. unfold already_there. destruct (known key) as [o|] eqn:Hk; [|by eexists _, _].
  destruct (bool_decide (ro_Status o = "verified"%string) && _) eqn:Hv; [|by eexists _, _].
  bprop. apply Z.eqb_eq in H0. run_st. destruct (hashObject_run dst key c) as [Hs Hh].
  destruct (hashObject sha256hex dst key c) as [c1 [h|e]]; cbn in *; eexists _, _; (split; [done|]);
    (split; [done|]); [|done].
  intros Hb%bool_decide_eq_true. destruct (Hh h eq_refl) as (d' & Hd' & Hhd).
  exists d, d'. split_and!; [done|done|]. rewrite <-Hhd, Hb. by eapply Ht.
Qed.

(** A list of objects as the source has them. *)
Definition listed (c : Catalog) (objects : list (string * Z)) : Prop :=
  ∀ key size, (key, size) ∈ objects → ∃ d, source c key = Some d ∧ size = Z.of_nat (length d).

Lemma first_failure_not (key : string) (keys sent rest : list string) :
  key ∉ keys → keys = sent ++ rest → key ∉ sent ++ take 1 rest.
Proof.
  intros Hkey -> Hin. apply Hkey. apply elem_of_app in Hin as [?|Hin]; apply elem_of_app; [by left|].
  right. destruct rest; [done|]. apply elem_of_cons in Hin as [->|Hin%elem_of_nil]; [by left|done].
Qed.

(** The objects before the first failure are delivered, those after it are as
    they were. *)
Lemma transfer_all_run now known objects : ∀ w c,
  listed c objects → truthful c known → NoDup objects.*1 →
  ∃ c' w' err sent rest,
    transfer_all sha256hex native error_text now src dst known w objects c = (c', Ok (w', err))
    ∧ objects.*1 = sent ++ rest
    ∧ (err = None → rest = [])
    ∧ (∀ key, key ∈ sent → delivered c c' key)
    ∧ (∀ o, o.1 ≠ tgt_ID dst ∨ o.2 ∉ sent ++ take 1 rest → ca_objects c' !! o = ca_objects c !! o).
Proof.
  induction objects as [|[key size] objects IH]; intros w c Hl Ht Hnd; cbn [transfer_all].
  { eexists c, _, _, [], []. split_and!; try done. intros key Hkey. by apply elem_of_nil in Hkey. }
  cbn in Hnd. apply NoDup_cons in Hnd as [Hkey Hnd].
  destruct (Hl key size) as (d & Hd & ->); [by left|].
  destruct (already_there_run known key c d Ht Hd) as (c1 & b & Hrun & Hobj & Hb).
  assert (∀ c2, (∀ k, source c2 k = source c k) → listed c2 objects ∧ truthful c2 known) as Hpre.
  { intros c2 Hs. split.
    - intros k s Hin. rewrite Hs. apply Hl. by right.
    - intros k o d2. rewrite Hs. apply Ht. }
  rewrite (bind_run _ _ _ _ _ Hrun). destruct b.
  - destruct (Hpre c1) as [Hl1 Ht1]; [by intros k; rewrite Hobj|].
    destruct (IH (count_object (Z.of_nat (length d)) w.1, w.2) c1 Hl1 Ht1 Hnd)
      as (c' & w' & err & sent & rest & Hr & Hsplit & Herr & Hsent & Hout).
    exists c', w', err, (key :: sent), rest. split_and!; [done|by cbn; rewrite Hsplit|done| |].
    + intros k [->|Hk]%elem_of_cons.
      * eapply (delivered_later c c c); [done| |by apply Hb].
        rewrite Hout, Hobj; [done|]. right. by eapply first_failure_not.
      * destruct (Hsent k Hk) as (e & e' & He & He' & Heq). exists e, e'. by rewrite <-Hobj.
    + intros o Ho. rewrite Hout, Hobj; [done|]. destruct Ho as [?|Ho]; [by left|right].
      intros Hin. apply Ho. by right.
  - destruct (transfer_object_run now w key (Z.of_nat (length d)) c1) as (c2 & w2 & err & Hr & Hok & Hdel).
    rewrite (bind_run _ _ _ _ _ Hr). destruct err as [e|].
    + exists c2, w2, (Some e), [], (key :: objects.*1). split_and!; try done.
      * intros k Hk. by apply elem_of_nil in Hk.
      * intros o Ho. rewrite Hok, Hobj; [done|]. intros ->. cbn in Ho.
        destruct Ho as [Ho|Ho]; [done|]. apply Ho. by left.
    + assert (∀ k, source c2 k = source c k) as Hs2.
      { intros k. rewrite (only_key_source _ _ _ _ Hok). by rewrite Hobj. }
      destruct (Hpre c2 Hs2) as [Hl2 Ht2].
      destruct (IH w2 c2 Hl2 Ht2 Hnd) as (c' & w' & err & sent & rest & Hr' & Hsplit & Herr & Hsent & Hout).
      exists c', w', err, (key :: sent), rest. split_and!; [done|by cbn; rewrite Hsplit|done| |].
      * intros k [->|Hk]%elem_of_cons.
        -- eapply (delivered_later c c1 c2); [by intros k; rewrite Hobj| |by apply Hdel].
           apply Hout. right. by eapply first_failure_not.
        -- destruct (Hsent k Hk) as (e & e' & He & He' & Heq). exists e, e'. by rewrite <-Hs2.
      * intros o Ho. rewrite Hout, Hok, Hobj; [done| |].
        -- intros ->. cbn in Ho. destruct Ho as [Ho|Ho]; [done|]. apply Ho. by left.
        -- destruct Ho as [?|Ho]; [by left|right]. intros Hin. apply Ho. by right.
Qed.
End Copying.

(** * The order of publication *)
Section Order.
Context (manifest : string).
Abbreviation last_less := (published_last manifest).

Lemma insert_before_last x l m :
  x.1 ≠ manifest → m.1 = manifest →
  ∃ l', insert_stable last_less x (l ++ [m]) = l' ++ [m] ∧ l' ≡ₚ x :: l.
Proof.
  intros Hx Hm. induction l as [|y l (l' & Hl & Hp)]; cbn.
  - unfold published_last. rewrite (bool_decide_true (m.1 = manifest)) by done. by exists [x].
  - destruct (last_less y x).
    + rewrite Hl. exists (y :: l'). split; [done|]. rewrite Hp. apply perm_swap.
    + by exists (x :: y :: l).
Qed.

Lemma insert_at_end m l :
  m.1 = manifest → (∀ x, x ∈ l → x.1 ≠ manifest) → insert_stable last_less m l = l ++ [m].
Proof.
  intros Hm. induction l as [|y l IH]; intros Hl; cbn; [done|].
  unfold published_last at 1. rewrite bool_decide_false by (apply Hl; by left).
  rewrite bool_decide_true by done. rewrite IH; [done|]. intros x Hx. apply Hl. by right.
Qed.

Lemma manifest_last objects m :
  NoDup objects.*1 → m ∈ objects → m.1 = manifest →
  ∃ init, sort_stable last_less objects = init ++ [m] ∧ init ++ [m] ≡ₚ objects.
Proof.
  intros Hnd Hin Hm.
  assert (∃ init, sort_stable last_less objects = init ++ [m]) as (init & Hs).
  { revert Hnd Hin. induction objects as [|x objects IH]; cbn; [by intros _ ?%elem_of_nil|].
    intros [Hx Hnd]%NoDup_cons [->|Hin]%elem_of_cons.
    - exists (sort_stable last_less objects). apply insert_at_end; [done|].
      intros y Hy Hym. rewrite sort_stable_elem_of in Hy. apply Hx. rewrite Hm, <-Hym.
      by apply list_elem_of_fmap_2.
    - destruct (IH Hnd Hin) as (init & ->).
      destruct (insert_before_last x init m) as (l' & Hl & _); [|done|by exists l'].
      intros Hxm. apply Hx. rewrite Hxm, <-Hm. by apply list_elem_of_fmap_2. }
  exists init. split; [done|]. rewrite <-Hs. apply sort_stable_perm.
Qed.
End Order.

Section Listing.
Lemma ListObjects_ok t prefix c c' objects :
  ListObjects t prefix c = (c', Ok objects) →
  ca_objects c' = ca_objects c ∧ NoDup objects.*1
  ∧ ∀ key size, (key, size) ∈ objects ↔
      String.prefix prefix key = true
      ∧ ∃ d, ca_objects c !! (tgt_ID t, key) = Some d ∧ size = Z.of_nat (length d).
Proof.
  intros Hrun. split; [eapply leaves_run; [apply reads_objects, ListObjects_reads|exact Hrun]|].
  apply bind_ok in Hrun as (c1 & [] & Hq & Hrun). rewrite get_run in Hrun. injection Hrun as _ <-.
  assert (ca_objects c1 = ca_objects c) as ->.
  { eapply leaves_run; [apply reads_objects, attempt_reads|exact Hq]. }
  rewrite <-list_fmap_compose. set (own := List.filter _ _).
  assert (∀ kv, kv ∈ own ↔ ca_objects c !! kv.1 = Some kv.2 ∧ under (tgt_ID t) prefix kv.1 = true) as Hown.
  { intros [k v]. unfold own. by rewrite elem_of_filter_bool, elem_of_map_to_list. }
  assert (∀ kv, kv ∈ own → kv.1 = (tgt_ID t, kv.1.2) ∧ String.prefix prefix kv.1.2 = true) as Hkey.
  { intros [[k1 k2] v] [_ Hu]%Hown. unfold under in Hu. bprop. cbn in *. by subst. }
  split.
  - apply NoDup_fmap_2_strong.
    + intros x y Hx Hy Heq. cbn in Heq. destruct (Hkey x Hx) as [Ex _], (Hkey y Hy) as [Ey _].
      apply Hown in Hx as [Hx _], Hy as [Hy _]. rewrite Ex in Hx. rewrite Ey, <-Heq in Hy.
      destruct x as [kx vx], y as [ky vy]. cbn in *. congruence.
    + rewrite <-(list_fmap_id own). apply NoDup_fmap_filter_bool. rewrite list_fmap_id. apply NoDup_map_to_list.
  - intros key size. rewrite list_elem_of_fmap. split.
    + intros ([[k1 k2] v] & [= -> ->] & Hin). destruct (Hkey _ Hin) as [[= ->] Hp]. cbn in *.
      apply Hown in Hin as [Hin _]. split; [done|]. by exists v.
    + intros (Hp & d & Hd & ->). exists ((tgt_ID t, key), d). split; [done|]. apply Hown. cbn.
      split; [done|]. unfold under. cbn. by rewrite bool_decide_true, Hp.
Qed.
End Listing.

(** * The whole copy *)
Definition transfer_view (c : Catalog) :
    gmap (string * string) bytes * gmap (string * string) ReplicationObject :=
  (ca_objects c, ca_verified c).

(** The objects recorded as verified for a copy have the digest of every source
    object of the same size. *)
Definition records_truthful (sha256hex : bytes → string) (c : Catalog) (p : BackupCopy) : Prop :=
  ∀ t key o d, t ≠ cp_StorageTargetID p → ca_verified c !! (cp_ID p, key) = Some o →
    ro_Status o = "verified"%string → ca_objects c !! (t, key) = Some d →
    ro_SizeBytes o = Z.of_nat (length d) → ro_SHA256 o = sha256hex d.

(** Everything the source has under [path] is in the destination, but for the
    objects [except]. *)
Definition all_delivered (sha256hex : bytes → string) (src dst : string) (path : string)
    (except : string → Prop) (c c' : Catalog) : Prop :=
  ∀ key d, String.prefix path key = true → ca_objects c !! (src, key) = Some d → ¬ except key →
    ∃ d', ca_objects c' !! (dst, key) = Some d' ∧ sha256hex d' = sha256hex d.

Section WholeCopy.
Context (sha256hex : bytes → string) (native : StorageTarget → StorageTarget → bool)
  (error_text : CatalogError → string).

Lemma reads_view {A} (m : CM A) : leaves contents m → leaves transfer_view m.
Proof.
  intros Hm c. specialize (Hm c). destruct (m c) as [[] r], c; injection Hm; intros. unfold transfer_view.
  cbn in *. congruence.
Qed.

Lemma UpdateCopy_view now p : leaves transfer_view (UpdateBackupCopy now p).
Proof. by apply UpdateBackupCopy_leaves. Qed.

Lemma UpdateAttempt_view a : leaves transfer_view (UpdateReplicationAttempt a).
Proof. intros c. unfold UpdateReplicationAttempt, statement, attempt. run_st. by destruct (ca_faults c) as [|[]]. Qed.

(** An error that is returned with the work as it is. *)
Lemma or_return_run {A} w (m : CM A) k c c' w' err :
  or_return w m k c = (c', Ok (w', err)) →
  (∃ e, m c = (c', Err e) ∧ err = Some e) ∨ ∃ c1 a, m c = (c1, Ok a) ∧ k a c1 = (c', Ok (w', err)).
Proof.
  unfold or_return. run_st. destruct (m c) as [c1 [a|e]]; cbn.
  - intros H. right. by exists c1, a.
  - intros [= <- <- <-]. left. by exists e.
Qed.

Lemma ListReplicationObjects_ok id c c' known :
  ListReplicationObjects id c = (c', Ok known) →
  contents c' = contents c ∧ ∀ key, known key = ca_verified c !! (id, key).
Proof.
  intros Hrun. split; [eapply leaves_run; [apply ListReplicationObjects_reads|exact Hrun]|].
  apply statement_ok in Hrun as (c1 & Hc & Hrun). rewrite get_run in Hrun. injection Hrun as _ <-.
  intros key. apply (f_equal ca_verified) in Hc. cbn in Hc. by rewrite Hc.
Qed.

(** What a transfer has done to the repositories. *)
Record published (src dst path : string) (c c' : Catalog) (err : option CatalogError) : Prop := {
  pb_only : ∀ o, o.1 ≠ dst → ca_objects c' !! o = ca_objects c !! o;
  pb_last : ¬ stored c (dst, RunManifestKey path) → stored c' (dst, RunManifestKey path) →
    all_delivered sha256hex src dst path (eq (RunManifestKey path)) c c';
  pb_done : err = None → stored c (src, RunManifestKey path)
    ∧ all_delivered sha256hex src dst path (λ _, False) c c'
}.

Lemma published_nothing src dst path c c' e :
  ca_objects c' = ca_objects c → published src dst path c c' (Some e).
Proof.
  intros Hobj. constructor; [by intros; rewrite Hobj| |done].
  unfold stored. rewrite Hobj. by intros Hno Hyes.
Qed.

Lemma published_view src dst path c c0 c' err :
  ca_objects c0 = ca_objects c → published src dst path c0 c' err → published src dst path c c' err.
Proof.
  intros Hobj [O L D]. constructor; unfold stored, all_delivered in *; rewrite <-?Hobj; done.
Qed.

Lemma transfer_published now src dst path known w objects c :
  tgt_ID src ≠ tgt_ID dst → truthful sha256hex src c known →
  NoDup objects.*1 →
  (∀ key size, (key, size) ∈ objects ↔ String.prefix path key = true
     ∧ ∃ d, ca_objects c !! (tgt_ID src, key) = Some d ∧ size = Z.of_nat (length d)) →
  existsb (λ o, bool_decide (o.1 = RunManifestKey path)) objects = true →
  ∃ c' w' err, transfer_all sha256hex native error_text now src dst known w
      (sort_stable (published_last (RunManifestKey path)) objects) c = (c', Ok (w', err))
    ∧ published (tgt_ID src) (tgt_ID dst) path c c' err.
Proof.
  intros Hne Ht Hnd Hin Hman. set (man := RunManifestKey path) in *.
  apply existsb_exists in Hman as ([k size] & Hm%list_elem_of_In & Hk%bool_decide_eq_true). cbn in Hk.
  subst k. destruct (manifest_last man objects (man, size) Hnd Hm eq_refl) as (init & Hsort & Hperm).
  rewrite Hsort.
  destruct (transfer_all_run sha256hex native error_text src dst Hne now known (init ++ [(man, size)]) w c)
    as (c' & w' & err & sent & rest & Hrun & Hsplit & Herr & Hsent & Hout).
  { intros key s Hks. rewrite Hperm in Hks. by apply Hin in Hks as [_ ?]. }
  { done. }
  { by rewrite Hperm. }
  exists c', w', err. split; [done|].
  assert (∀ key d, String.prefix path key = true → ca_objects c !! (tgt_ID src, key) = Some d →
    key ∈ init.*1 ++ [man]) as Hall.
  { intros key d Hp Hd. change [man] with ([(man, size)].*1). rewrite <-fmap_app, Hperm.
    apply (list_elem_of_fmap_2 fst _ (key, Z.of_nat (length d))), Hin. split; [done|by exists d]. }
  rewrite fmap_app in Hsplit. cbn in Hsplit.
  assert (∀ key, key ∈ sent → ∀ d, ca_objects c !! (tgt_ID src, key) = Some d →
    ∃ d', ca_objects c' !! (tgt_ID dst, key) = Some d' ∧ sha256hex d' = sha256hex d) as Hdel.
  { intros key Hks d Hd. destruct (Hsent key Hks) as (e & d' & He & Hd' & Heq). exists d'.
    rewrite Hd in He. injection He as <-. done. }
  constructor.
  - intros o Ho. apply Hout. by left.
  - intros Hno Hyes key d Hp Hd Hkey.
    assert (key ∈ init.*1) as Hki.
    { specialize (Hall key d Hp Hd). apply elem_of_app in Hall as [?|Hk%list_elem_of_singleton]; [done|].
      by subst key. }
    apply (Hdel key); [|done].
    destruct rest as [|r rest] using rev_ind.
    { rewrite (right_id_L [] (++)) in Hsplit. rewrite <-Hsplit. apply elem_of_app. by left. }
    rewrite (assoc_L (++)) in Hsplit. apply app_inj_tail in Hsplit as [Hinit <-]. clear IHrest.
    destruct rest as [|r rest].
    { rewrite (right_id_L [] (++)) in Hinit. by rewrite <-Hinit. }
    exfalso. apply Hno. unfold stored in *. rewrite <-Hout; [done|]. right. cbn.
    assert (NoDup (init.*1 ++ [man])) as Hnd2.
    { change [man] with ([(man, size)].*1). by rewrite <-fmap_app, Hperm. }
    rewrite Hinit in Hnd2. apply NoDup_app in Hnd2 as (_ & Hdis & _).
    intros Hmin. apply (Hdis man); [|by left].
    apply elem_of_app in Hmin as [?|Hr]; apply elem_of_app; [by left|right].
    apply list_elem_of_singleton in Hr as <-. by left.
  - intros ->. split.
    + apply Hin in Hm as (_ & d & Hd & _). by exists d.
    + intros key d Hp Hd _. apply (Hdel key); [|done].
      rewrite (Herr eq_refl), (right_id_L [] (++)) in Hsplit. rewrite <-Hsplit. by eapply Hall.
Qed.

Lemma copy_objects_run now src dst path w c c' w' err :
  tgt_ID src ≠ tgt_ID dst → tgt_ID src ≠ cp_StorageTargetID w.1 →
  records_truthful sha256hex c w.1 →
  copy_objects sha256hex native error_text now src dst path w c = (c', Ok (w', err)) →
  published (tgt_ID src) (tgt_ID dst) path c c' err.
Proof.
  intros Hne Hex Ht Hrun. unfold copy_objects in Hrun.
  apply or_return_run in Hrun as [(e & Hl & ->)|(c1 & objects & Hl & Hrun)].
  { apply published_nothing. eapply leaves_run; [apply reads_objects, ListObjects_reads|exact Hl]. }
  assert (transfer_view c1 = transfer_view c) as Hv1.
  { eapply leaves_run; [apply reads_view, ListObjects_reads|exact Hl]. }
  apply ListObjects_ok in Hl as (Hobj1 & Hnd & Hin).
  destruct (existsb _ objects) eqn:Hman; cbn [negb] in Hrun.
  2:{ injection Hrun as <- _ <-. by apply published_nothing. }
  revert Hrun. cbv zeta. set (p := start_counts _ w.1). set (a := attempt_counts p w.2). run_st.
  pose proof (UpdateCopy_view now p c1) as Hv2. destruct (UpdateBackupCopy now p c1) as [c2 r2]. cbn in Hv2 |- *.
  pose proof (UpdateAttempt_view a c2) as Hv3. destruct (UpdateReplicationAttempt a c2) as [c3 r3]. cbn in Hv3 |- *.
  assert (transfer_view c3 = transfer_view c) as Hv by congruence.
  injection Hv as Hobj3 Hver3.
  intros Hrun. apply or_return_run in Hrun as [(e & Hk & ->)|(c4 & known & Hk & Hrun)].
  { apply published_nothing. rewrite <-Hobj3.
    eapply leaves_run; [apply reads_objects, ListReplicationObjects_reads|exact Hk]. }
  apply ListReplicationObjects_ok in Hk as [Hc4 Hknown].
  assert (ca_objects c4 = ca_objects c) as Hobj4.
  { apply (f_equal ca_objects) in Hc4. cbn in Hc4. congruence. }
  apply (published_view _ _ _ c c4); [done|].
  destruct (transfer_published now src dst path known (p, a) objects c4)
    as (c5 & w5 & err5 & Htr & Hpub); [done| |done| |done|].
  { intros key o d. rewrite Hknown, Hobj4, Hver3. by apply Ht. }
  { intros key size. by rewrite Hin, Hobj4. }
  cbv beta in Hrun. rewrite Htr in Hrun. destruct w5 as [p5 a5], err5 as [e|].
  { injection Hrun as <- _ <-. done. }
  revert Hrun. run_st. set (p6 := cp_set_Status CopyVerifying p5).
  pose proof (UpdateCopy_objects now p6 c5) as Hv6. destruct (UpdateBackupCopy now p6 c5) as [c6 r6].
  cbn in Hv6 |- *. intros [= <- _ <-]. destruct Hpub as [O L D].
  constructor; unfold stored, all_delivered in *; rewrite ?Hv6; done.
Qed.

Lemma first_source_ok exclude ps : ∀ c c' p t,
  first_source exclude ps c = (c', Ok (Some (p, t))) →
  p ∈ ps ∧ Healthy (Some p) = true ∧ cp_StorageTargetID p ≠ exclude
  ∧ ca_targets c !! cp_StorageTargetID p = Some t.
Proof.
  induction ps as [|q ps IH]; intros c c' p t; cbn [first_source]; [done|].
  destruct (negb (Healthy (Some q)) || _) eqn:Hq.
  { intros (Hp & Hrest)%IH. split; [by right|done]. }
  bprop. run_st. pose proof (GetStorageTarget_reads (cp_StorageTargetID q) c) as Hreads.
  destruct (GetStorageTarget (cp_StorageTargetID q) c) as [c1 [t'|e]] eqn:Hget; cbn in *.
  - destruct (tgt_Enabled t').
    + intros [= <- <- <-]. split_and!; [by left|done|done|].
      by apply GetStorageTarget_ok in Hget as [? _].
    + intros (Hp & Hh & Hne & Ht)%IH. rewrite (contents_targets _ _ Hreads) in Ht.
      split; [by right|done].
  - intros (Hp & Hh & Hne & Ht)%IH. rewrite (contents_targets _ _ Hreads) in Ht. split; [by right|done].
Qed.

Lemma healthySource_ok run exclude c c' p t :
  healthySource run exclude c = (c', Ok (p, t)) →
  contents c' = contents c ∧ p ∈ ca_copies c ∧ cp_RunID p = run_ID run ∧ Healthy (Some p) = true
  ∧ cp_StorageTargetID p ≠ exclude ∧ ca_targets c !! cp_StorageTargetID p = Some t.
Proof.
  intros Hrun. split; [eapply leaves_run; [apply healthySource_reads|exact Hrun]|].
  apply bind_ok in Hrun as (c1 & ps & Hl & Hrun). apply ListBackupCopies_ok in Hl as [Hc1 Hps].
  apply bind_ok in Hrun as (c2 & o & Hf & Hrun). injection Hrun as _ Ho. apply of_option_ok in Ho as ->.
  apply first_source_ok in Hf as (Hp & Hh & Hne & Ht). rewrite sort_stable_elem_of in Hp.
  apply Hps in Hp as [Hp Hid]. rewrite (contents_targets _ _ Hc1) in Ht. done.
Qed.

(** C12. Whatever fails on the way, making a replica changes objects of its own
    target only. It reads one healthy copy of the same run in another target,
    and the document of the run, which makes the replica visible, is written
    last: once it is there, every other object of the source has been stored in
    the replica and read back with the digest of the source. A copy that ends
    without an error has them all, a silently corrupted upload included. *)
Theorem copy_publishes now p a c c' w' err :
  catalog_keyed c → targets_keyed c → records_truthful sha256hex c p →
  copy sha256hex native error_text now (p, a) c = (c', Ok (w', err)) →
  (∀ o, o.1 ≠ cp_StorageTargetID p → ca_objects c' !! o = ca_objects c !! o)
  ∧ ((ca_objects c' = ca_objects c ∧ err ≠ None)
     ∨ ∃ from, from ∈ ca_copies c ∧ cp_RunID from = cp_RunID p ∧ Healthy (Some from) = true
        ∧ cp_StorageTargetID from ≠ cp_StorageTargetID p
        ∧ published (cp_StorageTargetID from) (cp_StorageTargetID p) (cp_RepoPath from) c c' err).
Proof.
  intros Hck Htk Htr Hrun.
  match goal with |- ?G => assert (contents c' = contents c → err ≠ None → G) as Hno end.
  { intros Hc He. apply (f_equal ca_objects) in Hc. cbn in Hc. rewrite Hc. split; [done|by left]. }
  unfold copy in Hrun.
  apply or_return_run in Hrun as [(e & Hq & ->)|(c1 & run & Hq & Hrun)].
  { apply Hno; [|done]. eapply leaves_run; [apply GetBackupRun_reads|exact Hq]. }
  apply GetBackupRun_ok in Hq as [Hr Hc1]. apply Hck in Hr as Hid. cbn in Hid.
  apply or_return_run in Hrun as [(e & Hq & ->)|(c2 & dst & Hq & Hrun)].
  { apply Hno; [|done]. rewrite <-Hc1. eapply leaves_run; [apply GetStorageTarget_reads|exact Hq]. }
  apply GetStorageTarget_ok in Hq as [Hdst Hc2]. rewrite (contents_targets _ _ Hc1) in Hdst.
  rewrite Hc1 in Hc2. assert (tgt_ID dst = cp_StorageTargetID p) as Hdid by by apply Htk.
  cbn [fst] in Hrun. destruct (negb (tgt_Enabled dst)); [injection Hrun as <- _ <-; by apply Hno|].
  destruct (tgt_ReadOnly dst); [injection Hrun as <- _ <-; by apply Hno|].
  apply or_return_run in Hrun as [(e & Hq & ->)|(c3 & [from src] & Hq & Hrun)].
  { apply Hno; [|done]. rewrite <-Hc2. eapply leaves_run; [apply healthySource_reads|exact Hq]. }
  apply healthySource_ok in Hq as (Hc3 & Hfrom & Hfid & Hfh & Hfne & Hsrc).
  rewrite (contents_copies _ _ Hc2) in Hfrom. rewrite (contents_targets _ _ Hc2) in Hsrc.
  assert (tgt_ID src = cp_StorageTargetID from) as Hsid by by apply Htk.
  rewrite Hc2 in Hc3. cbv zeta in Hrun.
  apply or_return_run in Hrun as [(e & Hq & ->)|(c4 & [] & Hq & Hrun)].
  { apply Hno; [|done]. rewrite <-Hc3. eapply leaves_run; [apply Open_reads|exact Hq]. }
  assert (contents c4 = contents c) as Hc4.
  { rewrite <-Hc3. eapply leaves_run; [apply Open_reads|exact Hq]. }
  apply or_return_run in Hrun as [(e & Hq2 & ->)|(c5 & [] & Hq2 & Hrun)].
  { apply Hno; [|done]. rewrite <-Hc4. eapply leaves_run; [apply Open_reads|exact Hq2]. }
  assert (contents c5 = contents c) as Hc5.
  { rewrite <-Hc4. eapply leaves_run; [apply Open_reads|exact Hq2]. }
  assert (ca_objects c5 = ca_objects c ∧ ca_verified c5 = ca_verified c) as [Hobj5 Hver5].
  { split; [by apply (f_equal ca_objects) in Hc5|by apply (f_equal ca_verified) in Hc5]. }
  apply copy_objects_run in Hrun; [|congruence|cbn; congruence|].
  2:{ unfold records_truthful. rewrite Hver5, Hobj5. exact Htr. }
  rewrite Hsid, Hdid in Hrun. apply (published_view _ _ _ c) in Hrun; [|done].
  split; [by destruct Hrun|]. right. exists from. split_and!; try done. congruence.
Qed.
End WholeCopy.
