(* ===== verification/JobQueue.v ===== *)
(** The queue of backups ([store/backup_tasks.go]) and the scheduler that feeds
    and empties it ([scheduler/scheduler.go]): the start of a job, the tasks and
    their leases, the outcome of a run.

    Between the statements of one call other workers run, so what several
    workers do at once is in [Workers]; here a call runs to its end. Alerts,
    events and log lines are left out. *)

From S2P Require Import Prelude StateM GoTime GoStr Model Format Catalog Replicas Plan Jobs Replicator.

(** ** Tasks *)
Definition tk_set_lease (status : BackupTaskStatus) (owner : string) (until beat : option Z) (updated : Z)
    (t : BackupTask) : BackupTask :=
  mkBackupTask (tk_ID t) (tk_JobRunID t) (tk_JobID t) (tk_ServerID t) (tk_VMID t) (tk_Priority t)
    (tk_Concurrency t) (tk_Payload t) status owner until beat (tk_Error t) (tk_CreatedAt t) updated.

Definition tk_set_outcome (status : BackupTaskStatus) (error : string) (updated : Z) (t : BackupTask) :
    BackupTask :=
  mkBackupTask (tk_ID t) (tk_JobRunID t) (tk_JobID t) (tk_ServerID t) (tk_VMID t) (tk_Priority t)
    (tk_Concurrency t) (tk_Payload t) status "" None (tk_HeartbeatAt t) error (tk_CreatedAt t) updated.

(** The row of a task that is put into the queue, [fresh] its identifier if it
    has none. *)
Definition queued_row (now : Z) (fresh : string) (t : BackupTask) : BackupTask :=
  mkBackupTask (if bool_decide (tk_ID t = ""%string) then fresh else tk_ID t) (tk_JobRunID t)
    (tk_JobID t) (tk_ServerID t) (tk_VMID t) (tk_Priority t)
    (if tk_Concurrency t <=? 0 then 1 else tk_Concurrency t) (tk_Payload t) BackupTaskQueued ""
    None None "" now now.

Definition has_task_id (id : string) (t : BackupTask) : bool := bool_decide (tk_ID t = id).

(** One row: its run exists, its identifier is new. *)
Definition insert_task (row : BackupTask) : QM () :=
  query ;; q ← get ;
  if bool_decide (is_Some (qu_job_runs q !! tk_JobRunID row))
     && negb (existsb (has_task_id (tk_ID row)) (qu_tasks q))
  then modify (with_tasks (qu_tasks q ++ [row])) else fail (QCatalog CatDB).

(** All of them or none: the failures of statements are all that is left of a
    transaction that fails. *)
Definition in_transaction {A} (m : QM A) : QM A := λ q,
  match m q with
  | (q', Ok a) => (q', Ok a)
  | (q', Err e) => (with_catalog (with_cat_faults (ca_faults (qu_catalog q')) (qu_catalog q)) q, Err e)
  end.

(** [fresh] gives the identifiers. *)
Definition EnqueueBackupTasks (now : Z) (fresh : nat → string) (tasks : list BackupTask) : QM () :=
  in_transaction (for_each insert_task (imap (λ i, queued_row now (fresh i)) tasks)).

(** Waiting, or in work under a lease that is over. *)
Definition task_claimable (now : Z) (t : BackupTask) : bool :=
  match tk_Status t with
  | BackupTaskQueued => true
  | BackupTaskRunning => copy_due now (tk_LeaseUntil t)
  | _ => false
  end.

(** [ORDER BY priority DESC, created_at ASC]. *)
Definition task_before (a b : BackupTask) : bool :=
  (tk_Priority b <? tk_Priority a)
  || ((tk_Priority a =? tk_Priority b) && (tk_CreatedAt a <? tk_CreatedAt b)).

Definition take_task (owner : string) (until now : Z) (t : BackupTask) : BackupTask :=
  tk_set_lease BackupTaskRunning owner (Some until) (Some now) now t.

Definition claimed_tasks (now : Z) (limit : nat) (ts : list BackupTask) : list BackupTask :=
  take limit (sort_stable task_before (List.filter (task_claimable now) ts)).

Definition ClaimBackupTasks (now : Z) (owner : string) (limit lease : Z) : QM (list BackupTask) :=
  let limit := if limit <=? 0 then 1 else limit in
  let lease := if lease <=? 0 then 2 * Minute else lease in
  query ;; q ← get ;
  let ids := tk_ID <$> claimed_tasks now (Z.to_nat limit) (qu_tasks q) in
  let rows := (λ t, if bool_decide (tk_ID t ∈ ids) then take_task owner (now + lease) now t else t)
    <$> qu_tasks q in
  modify (with_tasks rows) ;;
  mret (List.filter (λ t, bool_decide (tk_ID t ∈ ids)) rows).

(** [UPDATE backup_tasks SET ... WHERE ...]: how many rows matched. *)
Definition update_tasks (matches : BackupTask → bool) (f : BackupTask → BackupTask) : QM nat :=
  query ;; q ← get ;
  modify (with_tasks ((λ t, if matches t then f t else t) <$> qu_tasks q)) ;;
  mret (length (List.filter matches (qu_tasks q))).

Definition RenewBackupTaskLease (now : Z) (id owner : string) (lease : Z) : QM bool :=
  n ← update_tasks (λ t, has_task_id id t && bool_decide (tk_Status t = BackupTaskRunning)
        && bool_decide (tk_LeaseOwner t = owner))
      (λ t, tk_set_lease (tk_Status t) (tk_LeaseOwner t) (Some (now + lease)) (Some now) now t) ;
  mret (bool_decide (0 < n)%nat).

Definition owned_task (id owner : string) (t : BackupTask) : bool :=
  has_task_id id t && bool_decide (tk_LeaseOwner t = owner).

Definition FinishBackupTask (now : Z) (id owner : string) (status : BackupTaskStatus) (error : string) :
    QM () :=
  n ← update_tasks (owned_task id owner) (tk_set_outcome status error now) ;
  if decide (n = 0%nat) then fail not_found else mret ().

Definition task_open (t : BackupTask) : bool :=
  match tk_Status t with BackupTaskQueued | BackupTaskRunning => true | _ => false end.

(** An empty identifier does not restrict the search. *)
Definition open_task_of (jobID jobRunID : string) (t : BackupTask) : bool :=
  task_open t && unset_or jobID (tk_JobID t) && unset_or jobRunID (tk_JobRunID t).

Definition HasOpenBackupTasks (jobID jobRunID : string) : QM bool :=
  query ;; q ← get ; mret (existsb (open_task_of jobID jobRunID) (qu_tasks q)).

Definition GetBackupTaskForJobRun (jobRunID : string) : QM BackupTask :=
  query ;; q ← get ;
  lift (of_option not_found (head (sort_stable (λ a b, tk_CreatedAt a <? tk_CreatedAt b)
    (List.filter (λ t, bool_decide (tk_JobRunID t = jobRunID)) (qu_tasks q))))).

(** ** The jobs of this process *)

(** Whether the job was free. *)
Definition claimJob (jobID : string) : QM bool :=
  q ← get ;
  if bool_decide (jobID ∈ qu_active q) then mret false else
  modify (with_active ({[jobID]} ∪ qu_active q)) ;; mret true.

Definition releaseJob (jobID : string) : QM () :=
  q ← get ; modify (with_active (qu_active q ∖ {[jobID]})).

Definition JobActive (jobID : string) : QM bool :=
  q ← get ; mret (bool_decide (jobID ∈ qu_active q)).

(** ** The start of a job *)

(** The storages that get the data from the hypervisor in runs of their own, and
    those that are written along with the first one. *)
Definition write_targets (job : BackupJob) : list string * list string :=
  let ids := job_StorageTargetIDs job in
  if bool_decide (job_Type job = BackupOVA) then ([""%string], []) else
  match job_StorageMode job with
  | StorageModeCopy => (take 1 ids, [])
  | StorageModeParallel => (take 1 ids, drop 1 ids)
  | _ => (ids, [])
  end.

Definition job_request (job : BackupJob) (jobRunID triggeredBy : string) (mirrors : list string)
    (vm : VM) (targetID : string) : RunRequest :=
  {| rq_TransferID := ""; rq_ServerID := job_ServerID job; rq_VMID := vm_ID vm;
     rq_Type := if job_ForceFullNext job then BackupFull else job_Type job;
     rq_JobRunID := jobRunID; rq_JobID := job_ID job; rq_JobName := job_Name job;
     rq_FullEvery := job_FullEvery job; rq_FallbackType := job_FallbackType job;
     rq_LegacyIncrementalMode := job_LegacyIncrementalMode job; rq_StorageTargetID := targetID;
     rq_MirrorTargetIDs := mirrors; rq_ExcludeDiskIDs := job_ExcludeDiskIDs job;
     rq_Quiesce := job_Quiesce job; rq_Consistency := job_Consistency job;
     rq_RequireConsistency := job_RequireConsistency job; rq_MaxFreeze := job_MaxFreeze job;
     rq_MaxReadMBps := job_MaxReadMBps job; rq_FreezeBy := job_FreezeBy job;
     rq_FreezeMountpoints := job_FreezeMountpoints job; rq_Encrypt := job_Encrypt job;
     rq_ExportQcow2 := job_ExportQcow2 job; rq_VerifyAfter := job_VerifyAfter job;
     rq_VerifyOptions := job_VerifyOptions job; rq_Retention := job_Retention job;
     rq_OVAHostID := job_OVAHostID job; rq_OVADirectory := job_OVADirectory job;
     rq_TriggeredBy := triggeredBy |}.

(** Machine by machine, storage by storage. *)
Definition job_requests (job : BackupJob) (jobRunID triggeredBy : string) (vms : list VM) :
    list RunRequest :=
  let '(targets, mirrors) := write_targets job in
  vms ≫= λ vm, job_request job jobRunID triggeredBy mirrors vm <$> targets.

(** The task of a request, with a copy of the job as it is now. *)
Definition job_task (job : BackupJob) (jobRunID : string) (req : RunRequest) : BackupTask :=
  mkBackupTask "" jobRunID (job_ID job) (rq_ServerID req) (rq_VMID req) (job_Priority job)
    (Z.max 1 (job_Concurrency job)) (Some (mkQueued req job)) BackupTaskQueued "" None None "" 0 0.

Definition busy_text : string := "предыдущий запуск ещё выполняется".
Definition no_vms_text : string := "задание не выбрало ни одной ВМ".

Definition replica_count (job : BackupJob) (vms : list VM) : Z :=
  Z.of_nat (if bool_decide (job_Type job = BackupOVA) then length vms
            else length vms * length (job_StorageTargetIDs job)).

Section Trigger.
(** The regular expressions, the next time of a schedule, the text of an error. *)
Context (regexp_compile : string → option (string → bool)) (next_time : string → option Z)
  (error_text : QueueError → string).

(** [ValidateSchedule] for a job that has a schedule. *)
Definition next_run (job : BackupJob) : option Z :=
  if bool_decide (job_Schedule job = ""%string) then None else next_time (job_Schedule job).

Definition new_job_run (now : Z) (job : BackupJob) (triggeredBy : string) (scheduledAt : option Z)
    (vms : list VM) : BackupJobRun :=
  mkBackupJobRun "" (job_ID job) (job_Name job) (job_ServerID job) triggeredBy scheduledAt 0 RunRunning
    (Z.of_nat (length vms)) (replica_count job vms) 0 0 0 0 "" (Some now) None 0.

(** The job, its machines and the row of the run, before anything is written. *)
Definition plan_job (now : Z) (jobID triggeredBy : string) (scheduledAt : option Z) :
    QM (BackupJob * list VM * BackupJobRun) :=
  job ← GetBackupJob jobID ;
  if negb (bool_decide (job_Type job = BackupOVA)) && bool_decide (job_StorageTargetIDs job = [])
  then fail (JobHasNoStorage (job_Name job)) else
  vms ← resolveVMs regexp_compile job ;
  mret (job, vms, new_job_run now job triggeredBy scheduledAt vms).

(** The identifiers of the run and of its tasks, and the clock. *)
Record Fresh := mkFresh { fr_now : Z; fr_run : string; fr_tasks : nat → string }.

(** The previous run goes on: this one is only recorded. *)
Definition refuse_busy (e : Fresh) (jobRun : BackupJobRun) : QM BackupJobRun :=
  let jobRun := match jr_ScheduledAt jobRun with
    | Some _ => jr_set_failure RunMissed busy_text 1 (Some (fr_now e)) jobRun
    | None => jr_set_failure RunFailed busy_text (jr_MissedIntervals jobRun) (Some (fr_now e)) jobRun
    end in
  CreateBackupJobRun (fr_now e) (fr_run e) jobRun.

(** The tasks of a run that is recorded; if they cannot be queued, the job is
    free again and the run has failed. *)
Definition enqueue_job (e : Fresh) (job : BackupJob) (vms : list VM) (jobRun : BackupJobRun) : QM () :=
  let reqs := job_requests job (jr_ID jobRun) (jr_TriggeredBy jobRun) vms in
  done ← try (EnqueueBackupTasks (fr_now e) (fr_tasks e) (job_task job (jr_ID jobRun) <$> reqs)) ;
  match done with
  | Ok _ => mret ()
  | Err err =>
    releaseJob (job_ID job) ;;
    try (UpdateBackupJobRun (jr_set_failure RunFailed (error_text err) (jr_MissedIntervals jobRun)
      (Some (fr_now e)) jobRun)) ;;
    fail err
  end.

(** The run is recorded and the state of the job shown. *)
Definition record_job_run (e : Fresh) (job : BackupJob) (jobRun : BackupJobRun) : QM BackupJobRun :=
  created ← try (CreateBackupJobRun (fr_now e) (fr_run e) jobRun) ;
  match created with
  | Err err => releaseJob (job_ID job) ;; fail err
  | Ok jobRun =>
    try (SetJobSchedulingState (fr_now e) (job_ID job) (Some (fr_now e)) RunRunning (next_run job)) ;;
    mret jobRun
  end.

(** The answer is the run, and whether it was refused because the job is busy. *)
Definition TriggerJob (e : Fresh) (jobID triggeredBy : string) (scheduledAt : option Z) :
    QM (BackupJobRun * bool) :=
  p ← plan_job (fr_now e) jobID triggeredBy scheduledAt ;
  let '(job, vms, jobRun) := p in
  if bool_decide (vms = []) then
    jobRun ← CreateBackupJobRun (fr_now e) (fr_run e)
      (jr_set_failure RunFailed no_vms_text (jr_MissedIntervals jobRun) (Some (fr_now e)) jobRun) ;
    mret (jobRun, false)
  else
  busy ← HasOpenBackupTasks (job_ID job) "" ;
  free ← (if (busy : bool) then mret false else claimJob (job_ID job)) ;
  if negb free then jobRun ← refuse_busy e jobRun ; mret (jobRun, true) else
  jobRun ← record_job_run e job jobRun ;
  enqueue_job e job vms jobRun ;;
  mret (jobRun, false).
End Trigger.

(** ** The outcome of a run *)

(** Partial backups beside the counts of [tally_copy]. *)
Record JobTally := mkJobTally { jt_Partial : Z; jt_Tally : Tally }.

Definition count_run (t : JobTally) (r : BackupRun) : JobTally :=
  let '(mkJobTally p (mkTally s f k w b)) := t in
  match run_Status r with
  | RunSucceeded => mkJobTally p (mkTally (s + 1) f k w b)
  | RunPartial => mkJobTally (p + 1) (mkTally s f k w b)
  | RunCanceled => mkJobTally p (mkTally s f (k + 1) w b)
  | _ => mkJobTally p (mkTally s (f + 1) k w b)
  end.

(** The copies of a run that the job expects; if they cannot be listed, all are lost. *)
Definition count_copies (job : BackupJob) (t : JobTally) (r : BackupRun) : QM JobTally :=
  copies ← try (in_catalog (ListBackupCopies (run_ID r))) ;
  match copies with
  | Err _ =>
    let '(mkTally s f k w b) := jt_Tally t in
    mret (mkJobTally (jt_Partial t)
      (mkTally s (f + Z.of_nat (length (job_StorageTargetIDs job))) k w b))
  | Ok copies =>
    mret (mkJobTally (jt_Partial t) (foldl tally_copy (jt_Tally t)
      (List.filter (expected_copy (Some (job_StorageTargetIDs job))) copies)))
  end.

(** One reading of the hypervisor for all storages. *)
Definition read_once (m : StorageMode) : bool :=
  bool_decide (m = StorageModeCopy) || bool_decide (m = StorageModeParallel).

Fixpoint count_runs (job : BackupJob) (t : JobTally) (rs : list BackupRun) : QM JobTally :=
  match rs with
  | [] => mret t
  | r :: rs =>
    t ← (if read_once (job_StorageMode job) then count_copies job t r else mret (count_run t r)) ;
    count_runs job t rs
  end.

(** What is missing counts as failed. *)
Definition account (replicas : Z) (t : JobTally) : JobTally :=
  let '(mkJobTally p (mkTally s f k w b)) := t in
  let accounted := s + p + f + k + w in
  if accounted <? replicas then mkJobTally p (mkTally s (f + (replicas - accounted)) k w b) else t.

Definition job_status (replicas : Z) (t : JobTally) : RunStatus :=
  let '(mkJobTally p (mkTally s f k w b)) := t in
  if b then RunFailed
  else if 0 <? w then RunWaitingCopies
  else if (0 <? f) && (s =? 0) && (p =? 0) then RunFailed
  else if (0 <? f) || (0 <? p) then RunPartial
  else if k =? replicas then RunCanceled
  else if 0 <? k then RunPartial
  else RunSucceeded.

Definition of_job_run (id : string) : RunFilter := mkRunFilter "" "" "" id "" "" [] [] None None true 0 0.

(** The run with its counts and status. *)
Definition with_tally (now : Z) (t : JobTally) (status : RunStatus) (r : BackupJobRun) : BackupJobRun :=
  jr_set_outcome (ta_Succeeded (jt_Tally t)) (jt_Partial t) (ta_Failed (jt_Tally t))
    (ta_Canceled (jt_Tally t)) status (if RunStatus_Terminal status then Some now else None) r.

Section Finish.
Context (next_time : string → option Z).

Definition finishJob (now : Z) (job : BackupJob) (jobRun : BackupJobRun) : QM () :=
  runs ← try (in_catalog (ListBackupRuns (of_job_run (jr_ID jobRun)))) ;
  match runs with
  | Err _ => mret ()
  | Ok runs =>
    t ← count_runs job (mkJobTally 0 (mkTally 0 0 0 0 false)) runs ;
    let t := account (jr_ReplicaCount jobRun) t in
    let status := job_status (jr_ReplicaCount jobRun) t in
    try (UpdateBackupJobRun (with_tally now t status jobRun)) ;;
    (if job_ForceFullNext job && negb (ta_PrimaryFailed (jt_Tally t))
     then try (ClearForceFullNext now (job_ID job)) else mret (Ok ())) ;;
    try (SetJobSchedulingState now (job_ID job) (Some now) status (next_run next_time job)) ;;
    mret ()
  end.

(** The outcome of a run whose finalization is won; [job] is that of the
    document of the task, if readable. *)
Definition summarize (now : Z) (jobID jobRunID : string) (job : option BackupJob) : QM () :=
  found ← try (match job with Some job => mret job | None => GetBackupJob jobID end) ;
  match found with
  | Err _ => mret ()
  | Ok job =>
    jobRun ← try (GetBackupJobRun jobRunID) ;
    match jobRun with Ok jobRun => finishJob now job jobRun | Err _ => mret () end
  end.

Definition maybeFinalizeBackupTaskGroup (now : Z) (task : BackupTask) (job : option BackupJob) : QM () :=
  open ← try (HasOpenBackupTasks "" (tk_JobRunID task)) ;
  match open with
  | Ok false =>
    claimed ← try (ClaimBackupJobRunFinalization (tk_JobRunID task)) ;
    match claimed with
    | Ok true => releaseJob (tk_JobID task) ;; summarize now (tk_JobID task) (tk_JobRunID task) job
    | _ => mret ()
    end
  | _ => mret ()
  end.

(** ** After a restart *)
Definition unfinished_job_runs : JobRunFilter := mkJobRunFilter "" "" [RunRunning; RunWaitingCopies] None 1000.

(** One run that was unfinished when the process started. *)
Definition recover_run (now : Z) (run : BackupJobRun) : QM () :=
  open ← HasOpenBackupTasks "" (jr_ID run) ;
  if (open : bool) then mret () else
  claimed ← (if bool_decide (jr_Status run = RunRunning)
             then ClaimBackupJobRunFinalization (jr_ID run) else mret true) ;
  if negb claimed then mret () else
  task ← try (GetBackupTaskForJobRun (jr_ID run)) ;
  match task with
  | Err _ => mret ()
  | Ok task =>
    job ← (match tk_Payload task with Some p => mret (qt_Job p) | None => GetBackupJob (jr_JobID run) end) ;
    releaseJob (jr_JobID run) ;;
    finishJob now job run
  end.

Definition recoverTaskFinalizations (now : Z) : QM () :=
  runs ← ListBackupJobRuns unfinished_job_runs ;
  for_each (recover_run now) runs.
End Finish.

(** ** The recalculation after a change of a replica *)
Fixpoint recount (targets : option (list string)) (t : Tally) (rs : list BackupRun) : QM Tally :=
  match rs with
  | [] => mret t
  | r :: rs =>
    copies ← try (in_catalog (ListBackupCopies (run_ID r))) ;
    recount targets (match copies with
      | Ok copies => foldl tally_copy t (List.filter (expected_copy targets) copies)
      | Err _ => t
      end) rs
  end.

(** From the counted copies on. *)
Definition settle_copies (replicas : Z) (t : Tally) : Tally * RunStatus :=
  let '(mkTally s f k w b) := t in
  let accounted := s + f + k + w in
  let f := if accounted <? replicas then f + (replicas - accounted) else f in
  (mkTally s f k w b,
   if b then RunFailed
   else if 0 <? w then RunWaitingCopies
   else if s =? replicas then RunSucceeded
   else if 0 <? s then RunPartial
   else if k =? replicas then RunCanceled
   else RunFailed).

(** The storages that the job of a run expects, if it has one that is still there. *)
Definition job_targets (run : BackupRun) : QM (option BackupJob) :=
  if bool_decide (run_JobID run = ""%string) then mret None else
  job ← try (GetBackupJob (run_JobID run)) ;
  mret (match job with Ok job => Some job | Err _ => None end).

Definition recalculate_with (now : Z) (jobRun : BackupJobRun) (job : option BackupJob) : QM () :=
  runs ← try (in_catalog (ListBackupRuns (of_job_run (jr_ID jobRun)))) ;
  match runs with
  | Err _ => mret ()
  | Ok runs =>
    t ← recount (job_StorageTargetIDs <$> job) (mkTally 0 0 0 0 false) runs ;
    let '(t, status) := settle_copies (jr_ReplicaCount jobRun) t in
    try (UpdateBackupJobRun (with_tally now (mkJobTally 0 t) status jobRun)) ;;
    match job with
    | Some job => if RunStatus_Terminal status
                  then try (SetJobLastStatus now (job_ID job) status) ;; mret () else mret ()
    | None => mret ()
    end
  end.

Definition recalculateJobRun (now : Z) (runID changedTargetID : string) : QM () :=
  found ← try (in_catalog (GetBackupRun runID)) ;
  match found with
  | Err _ => mret ()
  | Ok run =>
    if bool_decide (run_JobRunID run = ""%string) then mret () else
    jobRun ← try (GetBackupJobRun (run_JobRunID run)) ;
    match jobRun with
    | Err _ => mret ()
    | Ok jobRun =>
      job ← job_targets run ;
      match job with
      | Some j => if bool_decide (changedTargetID ∈ job_StorageTargetIDs j)
                  then recalculate_with now jobRun job else mret ()
      | None => recalculate_with now jobRun None
      end
    end
  end.
