(* ===== verification/Workers.v ===== *)
(** The scheduler at work: any number of workers and of calls that start a job,
    their statements interleaved in any order, leases that may end at any
    moment, statements that may fail, the replicator and the other users of the
    database, and restarts of the process.

    A phase is where a call is between two statements. One step does what others
    cannot see the parts of, with two exceptions that only touch the row of the
    job and the outcome of the run: the state of a job is shown together with the
    creation of the run, and [finishJob] and the recalculation are one step. *)

From S2P Require Import Prelude StateM GoTime GoStr Model Format Catalog Replicas Plan Jobs Replicator JobQueue.

(** ** The worker ([taskWorker], [executeBackupTask]) *)
Inductive Worker :=
| Took (t : BackupTask)
| Waiting (t : BackupTask)
| Executing (t : BackupTask)
| Ended (t : BackupTask) (status : BackupTaskStatus) (error : string)
| Counting (t : BackupTask)
| Electing (t : BackupTask)
| Elected (t : BackupTask)
| Summing (t : BackupTask).

Definition task_of (p : Worker) : BackupTask :=
  match p with
  | Took t | Waiting t | Executing t | Ended t _ _ | Counting t | Electing t | Elected t | Summing t => t
  end.

(** [backupTaskLease]. *)
Definition backupTaskLease : Z := 2 * Minute.

(** The text of a document that cannot be read. *)
Definition payload_error : string := "json".

Section Step.
Context (regexp_compile : string → option (string → bool)) (next_time : string → option Z)
  (error_text : QueueError → string).

(** What a worker does next; [None] is a worker that asks for a task. The waiting
    for a slot and the backup itself are below. *)
Definition worker_step (now : Z) (owner : string) (p : option Worker) : QM (option Worker) :=
  match p with
  | None =>
    ts ← try (ClaimBackupTasks now owner 1 backupTaskLease) ;
    mret (match ts with Ok (t :: _) => Some (Took t) | _ => None end)
  | Some (Took t) =>
    match tk_Payload t with
    | None =>
      try (FinishBackupTask now (tk_ID t) owner BackupTaskFailed payload_error) ;;
      mret (Some (Counting t))
    | Some _ =>
      q ← get ; modify (with_active ({[tk_JobID t]} ∪ qu_active q)) ;; mret (Some (Waiting t))
    end
  | Some (Ended t status error) =>
    done ← try (FinishBackupTask now (tk_ID t) owner status error) ;
    mret (match done with Ok _ => Some (Counting t) | Err _ => None end)
  | Some (Counting t) =>
    open ← try (HasOpenBackupTasks "" (tk_JobRunID t)) ;
    mret (match open with Ok false => Some (Electing t) | _ => None end)
  | Some (Electing t) =>
    claimed ← try (ClaimBackupJobRunFinalization (tk_JobRunID t)) ;
    mret (match claimed with Ok true => Some (Elected t) | _ => None end)
  | Some (Elected t) => releaseJob (tk_JobID t) ;; mret (Some (Summing t))
  | Some (Summing t) =>
    summarize next_time now (tk_JobID t) (tk_JobRunID t) (qt_Job <$> tk_Payload t) ;; mret None
  | Some p => mret (Some p)
  end.

(** ** The call that starts a job ([TriggerJob]) *)
Inductive Call :=
| Planned (job : BackupJob) (vms : list VM) (run : BackupJobRun)
| Checked (job : BackupJob) (vms : list VM) (run : BackupJobRun)
| Refusing (run : BackupJobRun)
| Reserved (job : BackupJob) (vms : list VM) (run : BackupJobRun)
| Recorded (job : BackupJob) (vms : list VM) (run : BackupJobRun).

(** [None]: the call is over. *)
Definition call_start (e : Fresh) (jobID by_ : string) (at_ : option Z) : QM (option Call) :=
  p ← try (plan_job regexp_compile (fr_now e) jobID by_ at_) ;
  match p with
  | Err _ => mret None
  | Ok (job, vms, run) =>
    if bool_decide (vms = []) then
      try (CreateBackupJobRun (fr_now e) (fr_run e)
        (jr_set_failure RunFailed no_vms_text (jr_MissedIntervals run) (Some (fr_now e)) run)) ;;
      mret None
    else mret (Some (Planned job vms run))
  end.

Definition call_step (e : Fresh) (p : Call) : QM (option Call) :=
  match p with
  | Planned job vms run =>
    busy ← try (HasOpenBackupTasks (job_ID job) "") ;
    mret (match busy with
      | Ok false => Some (Checked job vms run)
      | Ok true => Some (Refusing run)
      | Err _ => None
      end)
  | Checked job vms run =>
    free ← claimJob (job_ID job) ;
    mret (Some (if (free : bool) then Reserved job vms run else Refusing run))
  | Refusing run => try (refuse_busy e run) ;; mret None
  | Reserved job vms run =>
    done ← try (record_job_run next_time e job run) ;
    mret (match done with Ok run => Some (Recorded job vms run) | Err _ => None end)
  | Recorded job vms run => try (enqueue_job error_text e job vms run) ;; mret None
  end.

(** ** All of them *)
Record System := mkSystem {
  sy_queue : Queue;
  (** The workers by owner and the calls, each with a name. *)
  sy_workers : gmap string Worker;
  sy_calls : gmap string Call;
  (** [taskSlots]: the capacity of the channel of a job. *)
  sy_slots : gmap string nat
}.

(** The channel is made once, by the first task of the job. *)
Definition slots_of (s : System) (t : BackupTask) : nat :=
  default (Z.to_nat (positive_or_one (tk_Concurrency t))) (sy_slots s !! tk_JobID t).

(** A slot is held until the worker asks for the next task. *)
Definition in_slot (jobID : string) (p : Worker) : bool :=
  match p with
  | Took _ | Waiting _ => false
  | p => bool_decide (tk_JobID (task_of p) = jobID) && bool_decide (is_Some (tk_Payload (task_of p)))
  end.

Definition slots_used (s : System) (jobID : string) : nat :=
  length (List.filter (in_slot jobID) (map_to_list (sy_workers s)).*2).

Definition set_worker (owner : string) (p : option Worker) (q : Queue) (s : System) : System :=
  mkSystem q (partial_alter (λ _, p) owner (sy_workers s)) (sy_calls s) (sy_slots s).

Definition set_call (c : string) (p : option Call) (q : Queue) (s : System) : System :=
  mkSystem q (sy_workers s) (partial_alter (λ _, p) c (sy_calls s)) (sy_slots s).

Definition set_queue (q : Queue) (s : System) : System :=
  mkSystem q (sy_workers s) (sy_calls s) (sy_slots s).

(** What others do to the database: anything but to the queue and the runs of
    jobs. The failures to come are theirs too. *)
Definition elsewhere (q q' : Queue) : Prop :=
  qu_job_runs q' = qu_job_runs q ∧ qu_tasks q' = qu_tasks q ∧ qu_active q' = qu_active q.

(** A new process. *)
Definition restarted (now : Z) (s : System) : System :=
  mkSystem (recoverTaskFinalizations next_time now (with_active ∅ (sy_queue s))).1 ∅ ∅ ∅.

(** The steps within one life of the process. *)
Inductive step (s : System) : System → Prop :=
| step_worker now owner q' p :
    owner ≠ ""%string →
    worker_step now owner (sy_workers s !! owner) (sy_queue s) = (q', Ok p) →
    step s (set_worker owner p q' s)
| step_slot owner t :
    sy_workers s !! owner = Some (Waiting t) →
    (slots_used s (tk_JobID t) < slots_of s t)%nat →
    step s (mkSystem (sy_queue s) (<[owner := Executing t]> (sy_workers s)) (sy_calls s)
      (<[tk_JobID t := slots_of s t]> (sy_slots s)))
| step_executed owner t q' status error :
    sy_workers s !! owner = Some (Executing t) →
    status = BackupTaskSucceeded ∨ status = BackupTaskFailed →
    elsewhere (sy_queue s) q' →
    step s (set_worker owner (Some (Ended t status error)) q' s)
| step_heartbeat now owner t :
    sy_workers s !! owner = Some (Executing t) →
    step s (set_queue (RenewBackupTaskLease now (tk_ID t) owner backupTaskLease (sy_queue s)).1 s)
| step_stopped owner t :
    sy_workers s !! owner = Some (Waiting t) →
    step s (set_worker owner None (sy_queue s) s)
| step_call e c jobID by_ at_ q' p :
    sy_calls s !! c = None →
    call_start e jobID by_ at_ (sy_queue s) = (q', Ok p) →
    step s (set_call c p q' s)
| step_called e c p q' p' :
    sy_calls s !! c = Some p →
    call_step e p (sy_queue s) = (q', Ok p') →
    step s (set_call c p' q' s)
| step_replicator now runID targetID :
    step s (set_queue (recalculateJobRun now runID targetID (sy_queue s)).1 s)
| step_elsewhere q' :
    elsewhere (sy_queue s) q' → step s (set_queue q' s).

(** And across lives. *)
Inductive moves (s : System) : System → Prop :=
| moves_step s' : step s s' → moves s s'
| moves_restart now : moves s (restarted now s).
End Step.
