(* ===== verification/WorkerFacts.v ===== *)
(** What the operations of the scheduler do to the runs of jobs, the queue and
    the jobs taken for running. *)

From S2P Require Import Prelude StateM GoTime GoStr Model Format Catalog Replicas Plan Jobs Replicator JobQueue.
From S2P Require Import Workers.

Definition status_of (q : Queue) (run : string) : option RunStatus := jr_Status <$> qu_job_runs q !! run.
Definition job_of (q : Queue) (run : string) : option string := jr_JobID <$> qu_job_runs q !! run.

(** The queue and the jobs that no operation but those of the queue touches. *)
Definition core (q : Queue) := (qu_job_runs q, qu_tasks q, qu_active q).

(** * Runs of jobs go forward *)

(** No run is forgotten or changes its job, none comes back to the running state. *)
Definition forward (q q' : Queue) : Prop :=
  ∀ id r, qu_job_runs q !! id = Some r → ∃ r', qu_job_runs q' !! id = Some r'
    ∧ jr_JobID r' = jr_JobID r ∧ (jr_Status r' = RunRunning → jr_Status r = RunRunning).

#[export] Instance forward_preorder : PreOrder forward.
Proof.
  split.
  - intros q id r Hr. by exists r.
  - intros q1 q2 q3 H12 H23 id r Hr. destruct (H12 _ _ Hr) as (r2 & Hr2 & Hj2 & Hs2).
    destruct (H23 _ _ Hr2) as (r3 & Hr3 & Hj3 & Hs3). exists r3. rewrite Hj3, Hj2. auto.
Qed.

Definition forwards {A} (m : QM A) : Prop := ∀ q, forward q (m q).1.

Section Forwards.
Context {A B : Type}.

Lemma forwards_bind (m : QM A) (f : A → QM B) :
  forwards m → (∀ a, forwards (f a)) → forwards (m ≫= f).
Proof.
  intros Hm Hf q. specialize (Hm q). run_st. destruct (m q) as [q1 [a|e]]; cbn in *; [|done].
  etrans; [exact Hm|apply Hf].
Qed.

Lemma forwards_try (m : QM A) : forwards m → forwards (try m).
Proof. intros Hm q. specialize (Hm q). unfold try. by destruct (m q). Qed.

Lemma forwards_same (m : QM A) : leaves qu_job_runs m → forwards m.
Proof. intros Hm q id r Hr. exists r. by rewrite Hm. Qed.
End Forwards.

Lemma forwards_for_each {A} (f : A → QM ()) l : (∀ a, forwards (f a)) → forwards (for_each f l).
Proof.
  intros Hf. induction l as [|a l IH]; cbn; [by intros q|].
  apply forwards_bind; [apply Hf|intros _; exact IH].
Qed.

(** * Operations that leave the queue alone *)
Lemma in_catalog_leaves {A V} (v : Queue → V) (m : CM A) :
  (∀ c q, v (with_catalog c q) = v q) → leaves v (in_catalog m).
Proof. intros Hv q. unfold in_catalog. destruct (m (qu_catalog q)) as [c r]. apply Hv. Qed.

Lemma query_leaves {V} (v : Queue → V) : (∀ c q, v (with_catalog c q) = v q) → leaves v query.
Proof. apply in_catalog_leaves. Qed.

(** Computations whose parts leave a view alone; [done] settles the views that do
    not look at what an update changes. *)
Ltac leaves_view :=
  repeat first
    [ apply leaves_ret | apply leaves_fail | apply leaves_lift | apply leaves_get
    | apply leaves_try | apply in_catalog_leaves; intros ??; reflexivity
    | apply leaves_bind; [|intros ?] | apply leaves_modify; intros ?; reflexivity
    | progress case_match ].

Lemma update_job_core id f : leaves core (update_job id f).
Proof. unfold update_job, query. leaves_view. Qed.
Lemma GetBackupJob_core id : leaves core (GetBackupJob id).
Proof. unfold GetBackupJob, query. leaves_view. Qed.
Lemma GetBackupJobRun_core id : leaves core (GetBackupJobRun id).
Proof. unfold GetBackupJobRun, query. leaves_view. Qed.
Lemma HasOpenBackupTasks_core job run : leaves core (HasOpenBackupTasks job run).
Proof. unfold HasOpenBackupTasks, query. leaves_view. Qed.
Lemma GetBackupTaskForJobRun_core run : leaves core (GetBackupTaskForJobRun run).
Proof. unfold GetBackupTaskForJobRun, query. leaves_view. Qed.
Lemma ListBackupJobRuns_core f : leaves core (ListBackupJobRuns f).
Proof. unfold ListBackupJobRuns, query. leaves_view. Qed.

(** A view of the core. *)
Lemma core_leaves {A V} (v : Queue → V) (m : QM A) :
  leaves core m → (∀ q q', core q' = core q → v q' = v q) → leaves v m.
Proof. intros Hm Hv q. apply Hv, Hm. Qed.

Lemma core_runs q q' : core q' = core q → qu_job_runs q' = qu_job_runs q.
Proof. by intros [=]. Qed.
Lemma core_tasks q q' : core q' = core q → qu_tasks q' = qu_tasks q.
Proof. by intros [=]. Qed.
Lemma core_active q q' : core q' = core q → qu_active q' = qu_active q.
Proof. by intros [=]. Qed.

#[export] Hint Resolve update_job_core GetBackupJob_core GetBackupJobRun_core HasOpenBackupTasks_core
  GetBackupTaskForJobRun_core ListBackupJobRuns_core core_runs core_tasks core_active : backup.

(** * Operations on the runs of jobs *)

(** An operation on the runs of jobs: the queue and the marks stay. *)
Definition queue_part (q : Queue) := (qu_tasks q, qu_active q).

Record runs_only {A} (m : QM A) : Prop := {
  ro_forwards : forwards m;
  ro_tasks : leaves qu_tasks m;
  ro_active : leaves qu_active m
}.

Lemma runs_only_core {A} (m : QM A) : leaves core m → runs_only m.
Proof.
  intros Hm. split; [apply forwards_same|..]; apply (core_leaves _ _ Hm); auto with backup.
Qed.

Section RunsOnly.
Context {A B : Type}.

Lemma runs_only_ret (a : A) : runs_only (mret a : QM A).
Proof. by apply runs_only_core. Qed.
Lemma runs_only_bind (m : QM A) (f : A → QM B) :
  runs_only m → (∀ a, runs_only (f a)) → runs_only (m ≫= f).
Proof.
  intros Hm Hf. split.
  - apply forwards_bind; [apply Hm|intros a; apply Hf].
  - apply leaves_bind; [apply Hm|intros a; apply Hf].
  - apply leaves_bind; [apply Hm|intros a; apply Hf].
Qed.
Lemma runs_only_try (m : QM A) : runs_only m → runs_only (try m).
Proof. intros [??]. split; [by apply forwards_try|by apply leaves_try..]. Qed.
Lemma runs_only_catalog (m : CM A) : runs_only (in_catalog m).
Proof. apply runs_only_core, in_catalog_leaves. by intros. Qed.
End RunsOnly.

Lemma query_ok (st st1 : Queue) : query st = (st1, Ok ()) → core st1 = core st.
Proof. intros Hq. eapply (leaves_run core); [|exact Hq]. by apply query_leaves. Qed.

(** A query and a decision on the state it leaves. *)
Lemma forwards_query {A} (f : Queue → QM A) :
  (∀ q, forward q (f q q).1) → forwards (query ;; q ← get ; f q).
Proof.
  intros Hf. apply forwards_bind.
  - apply forwards_same. by apply query_leaves.
  - intros _ q. rewrite get_run. apply Hf.
Qed.

Lemma CreateBackupJobRun_only now fresh r : runs_only (CreateBackupJobRun now fresh r).
Proof.
  unfold CreateBackupJobRun. set (row := mkBackupJobRun _ _ _ _ _ _ _ _ _ _ _ _ _ _ _ _ _ _).
  clearbody row. split; [|unfold query; leaves_view..].
  apply forwards_query. intros q. destruct (qu_job_runs q !! jr_ID row) eqn:Hr; [done|].
  intros id r0 Hid. run_st. cbn. exists r0. rewrite lookup_insert_ne; [done|]. intros <-. congruence.
Qed.

Lemma UpdateBackupJobRun_only r : jr_Status r ≠ RunRunning → runs_only (UpdateBackupJobRun r).
Proof.
  intros Hs. split; [|unfold UpdateBackupJobRun, query; leaves_view..].
  apply forwards_query. intros q. destruct (qu_job_runs q !! jr_ID r) as [row|] eqn:Hr; [|done].
  intros id r0 Hid. run_st. cbn. destruct (decide (id = jr_ID r)) as [->|Hne].
  - rewrite lookup_insert_eq. eexists. split; [done|]. cbn. split; [congruence|done].
  - exists r0. by rewrite lookup_insert_ne.
Qed.

Lemma ClaimBackupJobRunFinalization_only run : runs_only (ClaimBackupJobRunFinalization run).
Proof.
  split; [|unfold ClaimBackupJobRunFinalization, query; leaves_view..].
  apply forwards_query. intros q. destruct (qu_job_runs q !! run) as [row|] eqn:Hr; [|done].
  case_bool_decide; [|done]. intros id r0 Hid. run_st. cbn. destruct (decide (id = run)) as [->|Hne].
  - rewrite lookup_insert_eq. eexists. split; [done|]. cbn. split; [congruence|done].
  - exists r0. by rewrite lookup_insert_ne.
Qed.

#[export] Hint Resolve runs_only_ret runs_only_try runs_only_catalog CreateBackupJobRun_only
  ClaimBackupJobRunFinalization_only runs_only_core : backup.

Ltac runs_only_tac :=
  repeat first
    [ apply runs_only_ret | apply runs_only_try | apply runs_only_catalog
    | apply runs_only_core; solve [auto with backup]
    | apply runs_only_bind; [|intros ?]
    | solve [auto with backup] | progress case_match ].

Lemma job_status_done replicas t : job_status replicas t ≠ RunRunning.
Proof. destruct t as [p [s f k w b]]. cbn. by repeat case_match. Qed.

Lemma count_runs_only job rs t : runs_only (count_runs job t rs).
Proof.
  revert t. induction rs as [|r rs IH]; intros t; cbn; [apply runs_only_ret|].
  apply runs_only_bind; [|intros t1; apply IH].
  unfold count_copies. runs_only_tac.
Qed.

Lemma SetJobSchedulingState_core now id last st next : leaves core (SetJobSchedulingState now id last st next).
Proof. apply leaves_bind; [apply update_job_core|intros ?; apply leaves_ret]. Qed.
Lemma SetJobLastStatus_core now id st : leaves core (SetJobLastStatus now id st).
Proof. apply leaves_bind; [apply update_job_core|intros ?; apply leaves_ret]. Qed.
Lemma ClearForceFullNext_core now id : leaves core (ClearForceFullNext now id).
Proof. apply leaves_bind; [apply update_job_core|intros ?; apply leaves_ret]. Qed.
#[export] Hint Resolve count_runs_only SetJobSchedulingState_core SetJobLastStatus_core
  ClearForceFullNext_core : backup.

Section Outcomes.
Context (next_time : string → option Z).

Lemma finishJob_only now job r : runs_only (finishJob next_time now job r).
Proof.
  apply runs_only_bind; [apply runs_only_try, runs_only_catalog|intros [runs|e]; [|apply runs_only_ret]].
  apply runs_only_bind; [auto with backup|intros t]. cbn zeta.
  apply runs_only_bind; [apply runs_only_try, UpdateBackupJobRun_only, job_status_done|intros _].
  runs_only_tac.
Qed.

Lemma summarize_only now jobID run job : runs_only (summarize next_time now jobID run job).
Proof.
  apply runs_only_bind; [runs_only_tac|intros [j|e]; [|apply runs_only_ret]].
  apply runs_only_bind; [runs_only_tac|intros [r|e]; [apply finishJob_only|apply runs_only_ret]].
Qed.

Lemma recount_only targets rs t : runs_only (recount targets t rs).
Proof.
  revert t. induction rs as [|r rs IH]; intros t; cbn; [apply runs_only_ret|].
  apply runs_only_bind; [runs_only_tac|intros ?; apply IH].
Qed.

Lemma settle_done replicas t : (settle_copies replicas t).2 ≠ RunRunning.
Proof. destruct t as [s f k w b]. cbn. by repeat case_match. Qed.

Lemma recalculateJobRun_only now run target : runs_only (recalculateJobRun now run target).
Proof.
  assert (∀ jr j, runs_only (recalculate_with now jr j)).
  { intros jr j. apply runs_only_bind; [runs_only_tac|intros [runs|e]; [|apply runs_only_ret]].
    apply runs_only_bind; [apply recount_only|intros t].
    pose proof (settle_done (jr_ReplicaCount jr) t) as Hs. destruct (settle_copies _ t) as [t' st].
    apply runs_only_bind; [by apply runs_only_try, UpdateBackupJobRun_only|intros _].
    runs_only_tac. }
  apply runs_only_bind; [runs_only_tac|intros [r|e]; [|apply runs_only_ret]].
  case_bool_decide; [apply runs_only_ret|].
  apply runs_only_bind; [runs_only_tac|intros [jr|e]; [|apply runs_only_ret]].
  apply runs_only_bind; [unfold job_targets; runs_only_tac|intros [j|]; [|done]].
  case_bool_decide; [done|apply runs_only_ret].
Qed.
End Outcomes.

(** * Operations on the queue *)

(** What never changes in a row. *)
Definition identity (t : BackupTask) := (tk_ID t, tk_JobRunID t, tk_JobID t, tk_Payload t).

(** The rows are the same, their states may not be. *)
Definition rows_by (f : BackupTask → BackupTask) (q q' : Queue) : Prop :=
  qu_job_runs q' = qu_job_runs q ∧ qu_active q' = qu_active q ∧ qu_tasks q' = f <$> qu_tasks q
  ∧ ∀ t, t ∈ qu_tasks q → identity (f t) = identity t.

Lemma rows_by_id q q' : core q' = core q → rows_by (λ t, t) q q'.
Proof. intros [= Hr Ht Ha]. split_and!; [done..| |done]. by rewrite Ht, list_fmap_id. Qed.

Lemma update_tasks_run matches f q q' r :
  (∀ t, identity (f t) = identity t) → update_tasks matches f q = (q', r) →
  match r with
  | Ok n => rows_by (λ t, if matches t then f t else t) q q' ∧ n = length (List.filter matches (qu_tasks q))
  | Err _ => rows_by (λ t, t) q q'
  end.
Proof.
  intros Hf Hrun. apply bind_inv in Hrun as [(q1 & [] & Hq & Hrun)|(q1 & e & Hq & [= -> ->])]; cycle 1.
  { apply rows_by_id. by eapply (leaves_run core); [apply query_leaves|exact Hq]. }
  apply query_ok in Hq as [= Hr Ht Ha]. revert Hrun. run_st. cbn. intros [= <- <-].
  rewrite Ht. split; [|done]. split_and!; cbn; [done..|].
  intros t _. destruct (matches t); auto.
Qed.

Lemma task_by_id (ts : list BackupTask) t u :
  NoDup (tk_ID <$> ts) → t ∈ ts → u ∈ ts → tk_ID t = tk_ID u → t = u.
Proof.
  intros Hnd Ht Hu Hid. apply list_elem_of_lookup in Ht as [i Hi], Hu as [j Hj].
  assert (i = j) as ->; [|congruence].
  eapply NoDup_lookup; [exact Hnd|..]; rewrite list_lookup_fmap.
  - by rewrite Hi.
  - rewrite Hj. cbn. by f_equal.
Qed.

Lemma claimable_open now t : task_claimable now t = true → task_open t = true.
Proof. unfold task_claimable, task_open. by destruct (tk_Status t). Qed.

Lemma claimed_in now limit ts t : t ∈ claimed_tasks now limit ts → t ∈ ts ∧ task_claimable now t = true.
Proof.
  intros Ht. apply elem_of_take in Ht as (i & Ht & _). apply list_elem_of_lookup_2 in Ht.
  by apply sort_stable_elem_of, elem_of_filter_bool in Ht.
Qed.

(** A claim gives leases on waiting tasks, and hands over rows as they are now. *)
Lemma ClaimBackupTasks_run now owner limit lease q q' r :
  NoDup (tk_ID <$> qu_tasks q) → ClaimBackupTasks now owner limit lease q = (q', r) →
  ∃ f, rows_by f q q'
    ∧ (∀ t, t ∈ qu_tasks q → f t = t
         ∨ (task_open t = true ∧ task_open (f t) = true ∧ tk_LeaseOwner (f t) = owner))
    ∧ match r with Ok ts => ∀ t, t ∈ ts → t ∈ qu_tasks q' | Err _ => True end.
Proof.
  intros Hnd Hrun.
  apply bind_inv in Hrun as [(q1 & [] & Hq & Hrun)|(q1 & e & Hq & [= -> ->])]; cycle 1.
  { exists (λ t, t). split_and!; [|by left|done].
    apply rows_by_id. by eapply (leaves_run core); [apply query_leaves|exact Hq]. }
  apply query_ok in Hq as [= Hr Ht Ha]. revert Hrun. run_st. cbn zeta.
  set (ids := tk_ID <$> _). set (f := λ t, if bool_decide (tk_ID t ∈ ids) then _ else t).
  cbn. intros [= <- <-]. exists f. split_and!.
  - split_and!; cbn; [done|done|by rewrite Ht|].
    intros t _. unfold f. by case_bool_decide.
  - intros t Hin. unfold f. case_bool_decide as Hid; [right|by left].
    split_and!; [|done|done]. apply list_elem_of_fmap in Hid as (u & Heq & Hu).
    apply claimed_in in Hu as [Hu Hc]. rewrite Ht in Hu.
    rewrite (task_by_id _ _ _ Hnd Hin Hu Heq). by eapply claimable_open.
  - intros t Hin. by apply elem_of_filter_bool in Hin as [Hin _].
Qed.

Lemma FinishBackupTask_run now id owner status err q q' r :
  FinishBackupTask now id owner status err q = (q', r) →
  let f := λ t, if owned_task id owner t then tk_set_outcome status err now t else t in
  match r with
  | Ok _ => rows_by f q q' ∧ ∃ t, t ∈ qu_tasks q ∧ tk_ID t = id ∧ tk_LeaseOwner t = owner
  | Err _ => rows_by (λ t, t) q q'
  end.
Proof.
  intros Hrun f. unfold FinishBackupTask in Hrun.
  apply bind_inv in Hrun as [(q1 & n & Hu & Hrun)|(q1 & e & Hu & [= -> ->])];
    apply update_tasks_run in Hu; [|done| |done]; [|done].
  destruct Hu as [Hrows ->]. case_decide as Hn.
  - injection Hrun as <- <-. destruct Hrows as (Hr & Ha & Ht & Hi).
    split_and!; [done..| |done]. rewrite Ht, list_fmap_id. rewrite <-(list_fmap_id (qu_tasks q)) at 2.
    apply list_fmap_ext. intros i t Hin%list_elem_of_lookup_2. cbn. apply nil_length_inv in Hn. destruct (owned_task id owner t) eqn:Ho; [|done].
    exfalso. assert (t ∈ List.filter (owned_task id owner) (qu_tasks q)) as Hf; [|by rewrite Hn in Hf; inversion Hf].
    by apply elem_of_filter_bool.
  - injection Hrun as <- <-. split; [done|].
    destruct (List.filter (owned_task id owner) (qu_tasks q)) as [|t l] eqn:Hf; [done|].
    assert (t ∈ List.filter (owned_task id owner) (qu_tasks q)) as Hin by (rewrite Hf; left).
    apply elem_of_filter_bool in Hin as [Hin Ho]. exists t.
    unfold owned_task, has_task_id in Ho. rewrite andb_true_iff, !bool_decide_eq_true in Ho.
    done.
Qed.

Lemma RenewBackupTaskLease_run now id owner lease q q' r :
  RenewBackupTaskLease now id owner lease q = (q', r) →
  ∃ f, rows_by f q q' ∧ ∀ t, tk_Status (f t) = tk_Status t ∧ tk_LeaseOwner (f t) = tk_LeaseOwner t.
Proof.
  intros Hrun. unfold RenewBackupTaskLease in Hrun.
  apply bind_inv in Hrun as [(q1 & n & Hu & [= -> _])|(q1 & e & Hu & [= -> _])];
    apply update_tasks_run in Hu; [|done| |done].
  - destruct Hu as [Hrows _]. eexists. split; [exact Hrows|]. intros t. cbn beta. by case_match.
  - by exists (λ t, t).
Qed.

Lemma HasOpenBackupTasks_run job run q q' r :
  HasOpenBackupTasks job run q = (q', r) →
  core q' = core q ∧ match r with
    | Ok b => b = existsb (open_task_of job run) (qu_tasks q)
    | Err _ => True
    end.
Proof.
  intros Hrun. split; [by eapply (leaves_run core); [apply HasOpenBackupTasks_core|exact Hrun]|].
  apply bind_inv in Hrun as [(q1 & [] & Hq & Hrun)|(q1 & e & Hq & [= -> ->])]; [|done].
  apply query_ok in Hq as [= Hr Ht Ha]. revert Hrun. run_st. intros [= <- <-]. by rewrite Ht.
Qed.

(** The answer no: no open task of that job, or of that run. *)
Lemma no_open_task job run ts t :
  existsb (open_task_of job run) ts = false → t ∈ ts → task_open t = true →
  tk_JobID t = job ∨ job = ""%string → tk_JobRunID t = run ∨ run = ""%string → False.
Proof.
  intros He Hin Ho Hj Hr. assert (existsb (open_task_of job run) ts = true); [|congruence].
  apply existsb_exists. exists t. split; [by apply list_elem_of_In|].
  unfold open_task_of, unset_or. rewrite Ho. cbn. apply andb_true_iff.
  split; apply orb_true_iff; rewrite !bool_decide_eq_true; tauto.
Qed.

(** * Operations of a call that starts a job *)
Lemma CreateBackupJobRun_run now fresh r q q' res :
  CreateBackupJobRun now fresh r q = (q', res) →
  match res with
  | Ok jr => jr_JobID jr = jr_JobID r ∧ qu_job_runs q !! jr_ID jr = None
      ∧ qu_job_runs q' = <[jr_ID jr := jr]> (qu_job_runs q) ∧ queue_part q' = queue_part q
  | Err _ => core q' = core q
  end.
Proof.
  unfold CreateBackupJobRun. set (row := mkBackupJobRun _ _ _ _ _ _ _ _ _ _ _ _ _ _ _ _ _ _).
  assert (jr_JobID row = jr_JobID r) as Hj by done. clearbody row. intros Hrun.
  apply bind_inv in Hrun as [(q1 & [] & Hq & Hrun)|(q1 & e & Hq & [= -> ->])]; cycle 1.
  { by eapply (leaves_run core); [apply query_leaves|exact Hq]. }
  apply query_ok in Hq as [= Hr Ht Ha]. rewrite get_run in Hrun.
  destruct (qu_job_runs q1 !! jr_ID row) eqn:Hrow; injection Hrun as <- <-.
  - unfold core. congruence.
  - unfold queue_part. cbn. by rewrite Ht, Ha, <-Hr.
Qed.

Lemma releaseJob_run job q : releaseJob job q = (with_active (qu_active q ∖ {[job]}) q, Ok ()).
Proof. done. Qed.

Lemma try_core {A} (m : QM A) q q' r : leaves core m → try m q = (q', r) → core q' = core q.
Proof. intros Hm Hrun. eapply (leaves_run core); [|exact Hrun]. by apply leaves_try. Qed.

Lemma record_job_run_run next e job r q q' res :
  record_job_run next e job r q = (q', res) →
  match res with
  | Ok jr => jr_JobID jr = jr_JobID r ∧ qu_job_runs q !! jr_ID jr = None
      ∧ qu_job_runs q' = <[jr_ID jr := jr]> (qu_job_runs q) ∧ queue_part q' = queue_part q
  | Err _ => qu_job_runs q' = qu_job_runs q ∧ qu_tasks q' = qu_tasks q
      ∧ qu_active q' = qu_active q ∖ {[job_ID job]}
  end.
Proof.
  intros Hrun. apply try_inv in Hrun as (q1 & [jr|err] & Hc & Hrun);
    apply CreateBackupJobRun_run in Hc.
  - destruct Hc as (Hj & Hnone & Hruns & Hpart).
    apply bind_inv in Hrun as [(q2 & x & Hs & [= <- <-])|(q2 & x & Hs & _)]; cycle 1.
    { revert Hs. unfold try. by destruct (SetJobSchedulingState _ _ _ _ _ _). }
    apply try_core in Hs as [= Hr2 Ht2 Ha2]; [|apply SetJobSchedulingState_core].
    unfold queue_part in *. split_and!; congruence.
  - apply core_runs in Hc as Hr. apply core_tasks in Hc as Ht. apply core_active in Hc as Ha.
    rewrite <-Hr, <-Ht, <-Ha. revert Hrun. run_st. cbn. by intros [= <- <-].
Qed.

Lemma insert_task_run row q q' r :
  insert_task row q = (q', r) → r = Ok () →
  qu_job_runs q' = qu_job_runs q ∧ qu_active q' = qu_active q ∧ qu_tasks q' = qu_tasks q ++ [row]
  ∧ tk_ID row ∉ tk_ID <$> qu_tasks q.
Proof.
  intros Hrun ->. apply bind_ok in Hrun as (q1 & [] & Hq & Hrun).
  apply query_ok in Hq as [= Hr Ht Ha]. rewrite get_run in Hrun.
  destruct (_ && _) eqn:Hc in Hrun; [|done]. injection Hrun as <-. cbn. rewrite Ht.
  split_and!; [done..|]. apply andb_true_iff in Hc as [_ Hc].
  intros (t & Heq & Hin)%list_elem_of_fmap. apply negb_true_iff in Hc.
  assert (existsb (has_task_id (tk_ID row)) (qu_tasks q1) = true); [|congruence].
  apply existsb_exists. exists t. rewrite Ht. split; [by apply list_elem_of_In|].
  by apply bool_decide_eq_true.
Qed.

Lemma insert_tasks_run rows q q' :
  for_each insert_task rows q = (q', Ok ()) →
  qu_job_runs q' = qu_job_runs q ∧ qu_active q' = qu_active q ∧ qu_tasks q' = qu_tasks q ++ rows
  ∧ (NoDup (tk_ID <$> qu_tasks q) → NoDup (tk_ID <$> qu_tasks q')).
Proof.
  revert q. induction rows as [|row rows IH]; intros q Hrun; cbn in Hrun.
  { injection Hrun as <-. by rewrite app_nil_r. }
  apply bind_ok in Hrun as (q1 & [] & Hi & Hrun).
  apply insert_task_run in Hi as (Hr & Ha & Ht & Hnew); [|done].
  apply IH in Hrun as (Hr' & Ha' & Ht' & Hnd). split_and!; [congruence..| |].
  - by rewrite Ht', Ht, <-app_assoc.
  - intros H0. apply Hnd. rewrite Ht, fmap_app. apply NoDup_app.
    split_and!; [done| |apply NoDup_singleton].
    intros x Hx ->%list_elem_of_singleton. done.
Qed.

Lemma in_transaction_run {A} (m : QM A) q q' r :
  in_transaction m q = (q', r) →
  match r with Ok a => m q = (q', Ok a) | Err _ => core q' = core q end.
Proof. unfold in_transaction. destruct (m q) as [q1 [a|e]]; by intros [= <- <-]. Qed.

(** A task that a call puts into the queue. *)
Definition new_row (job : BackupJob) (run : BackupJobRun) (t : BackupTask) : Prop :=
  tk_JobRunID t = jr_ID run ∧ tk_JobID t = job_ID job ∧ is_Some (tk_Payload t)
  ∧ task_open t = true ∧ tk_LeaseOwner t = ""%string.

Lemma enqueue_job_run text e job vms run q q' r :
  enqueue_job text e job vms run q = (q', r) →
  match r with
  | Ok _ => qu_job_runs q' = qu_job_runs q ∧ qu_active q' = qu_active q
      ∧ (NoDup (tk_ID <$> qu_tasks q) → NoDup (tk_ID <$> qu_tasks q'))
      ∧ ∃ rows, qu_tasks q' = qu_tasks q ++ rows ∧ ∀ t, t ∈ rows → new_row job run t
  | Err _ => forward q q' ∧ qu_tasks q' = qu_tasks q ∧ qu_active q' = qu_active q ∖ {[job_ID job]}
  end.
Proof.
  intros Hrun. apply try_inv in Hrun as (q1 & [[]|err] & Hc & Hrun);
    apply in_transaction_run in Hc.
  - injection Hrun as <- <-. apply insert_tasks_run in Hc as (Hr & Ha & Ht & Hnd).
    split_and!; [done..|]. eexists. split; [exact Ht|].
    intros t Hin. apply list_elem_of_lookup in Hin as [i Hi].
    rewrite list_lookup_imap, list_lookup_fmap in Hi.
    destruct (job_requests job (jr_ID run) (jr_TriggeredBy run) vms !! i); [|done].
    by injection Hi as <-.
  - assert (forward q q1) as Hf by (intros id x Hx; exists x; by rewrite (core_runs _ _ Hc)).
    rewrite <-(core_tasks _ _ Hc), <-(core_active _ _ Hc).
    revert Hrun. rewrite (bind_run _ _ _ _ _ (releaseJob_run _ _)).
    set (q2 := with_active _ q1). set (failed := jr_set_failure _ _ _ _ _). intros Hrun.
    assert (runs_only (UpdateBackupJobRun failed)) as [Hfw Htk Hac] by by apply UpdateBackupJobRun_only.
    specialize (Hfw q2). specialize (Htk q2). specialize (Hac q2). revert Hrun. run_st.
    destruct (UpdateBackupJobRun failed q2) as [q3 x]. cbn in *. intros [= <- <-].
    split_and!; [|done|done]. etrans; [exact Hf|]. etrans; [|exact Hfw]. intros id r0 Hr0. exists r0. auto.
Qed.
