(* ===== verification/Exclusive.v ===== *)
(** No job has two runs at once, whatever the workers, the calls and the failing
    statements do, and across restarts; and what happens when the replicator
    settles a run too early. *)

From S2P Require Import Prelude StateM GoTime GoStr Model Format Catalog Replicas Plan Jobs Replicator JobQueue.
From S2P Require Import Workers WorkerFacts.

(** ** Who holds a job *)

(** A run of a job, or a call that has marked the job and not yet queued it. *)
Inductive Holder := ByRun (run : string) | ByCall (call : string).

Definition reserved (p : Call) : option string :=
  match p with Reserved job _ _ | Recorded job _ _ => Some (job_ID job) | _ => None end.

(** About to ask for the finalization of its run. *)
Definition counting_for (p : Worker) : option BackupTask :=
  match p with Counting t | Electing t => Some t | _ => None end.

(** A holder without an open task: only the mark keeps others away. *)
Inductive marked (s : System) (job : string) : Holder → Prop :=
| marked_candidate owner p t :
    sy_workers s !! owner = Some p → counting_for p = Some t → tk_JobID t = job →
    status_of (sy_queue s) (tk_JobRunID t) = Some RunRunning →
    marked s job (ByRun (tk_JobRunID t))
| marked_elected owner t :
    sy_workers s !! owner = Some (Elected t) → tk_JobID t = job →
    marked s job (ByRun (tk_JobRunID t))
| marked_call c p :
    sy_calls s !! c = Some p → reserved p = Some job → marked s job (ByCall c).

Inductive holds (s : System) (job : string) : Holder → Prop :=
| holds_open t :
    t ∈ qu_tasks (sy_queue s) → task_open t = true → tk_JobID t = job →
    holds s job (ByRun (tk_JobRunID t))
| holds_marked h : marked s job h → holds s job h.

(** A worker that has marked the job of its task and works on it. *)
Definition at_work (p : Worker) : bool :=
  match p with Waiting _ | Executing _ | Ended _ _ _ => true | _ => false end.

(** A worker that has seen no open task of its run. *)
Definition saw_none (p : Worker) : bool :=
  match p with Electing _ | Elected _ => true | _ => false end.

Definition planned_for (p : Call) : option (BackupJob * BackupJobRun) :=
  match p with
  | Planned job _ run | Checked job _ run | Reserved job _ run | Recorded job _ run => Some (job, run)
  | Refusing _ => None
  end.

Definition outcome_ok (p : Worker) : Prop :=
  match p with Ended _ st _ => st = BackupTaskSucceeded ∨ st = BackupTaskFailed | _ => True end.

(** ** The invariant *)

(** Every row of the queue. *)
Definition row_ok (q : Queue) (t : BackupTask) : Prop :=
  job_of q (tk_JobRunID t) = Some (tk_JobID t) ∧ is_Some (tk_Payload t)
  ∧ (tk_LeaseOwner t ≠ ""%string → task_open t = true).

Record Inv (s : System) : Prop := {
  inv_ids : NoDup (tk_ID <$> qu_tasks (sy_queue s));
  inv_rows : ∀ t, t ∈ qu_tasks (sy_queue s) → row_ok (sy_queue s) t;
  inv_work : ∀ owner p, sy_workers s !! owner = Some p →
    owner ≠ ""%string ∧ outcome_ok p
    ∧ ∃ t, t ∈ qu_tasks (sy_queue s) ∧ identity t = identity (task_of p);
  inv_none : ∀ owner p t, sy_workers s !! owner = Some p → saw_none p = true →
    t ∈ qu_tasks (sy_queue s) → tk_JobRunID t = tk_JobRunID (task_of p) → task_open t = false;
  inv_elected : ∀ owner t, sy_workers s !! owner = Some (Elected t) →
    status_of (sy_queue s) (tk_JobRunID t) ≠ Some RunRunning;
  inv_elected_one : ∀ owner owner' t t', sy_workers s !! owner = Some (Elected t) →
    sy_workers s !! owner' = Some (Elected t') → tk_JobRunID t = tk_JobRunID t' → owner = owner';
  inv_lease : ∀ owner p t, sy_workers s !! owner = Some p → at_work p = true →
    t ∈ qu_tasks (sy_queue s) → tk_ID t = tk_ID (task_of p) → tk_LeaseOwner t = owner →
    tk_JobID t ∈ qu_active (sy_queue s);
  inv_planned : ∀ c p job run, sy_calls s !! c = Some p → planned_for p = Some (job, run) →
    jr_JobID run = job_ID job;
  inv_recorded : ∀ c job vms run, sy_calls s !! c = Some (Recorded job vms run) →
    job_of (sy_queue s) (jr_ID run) = Some (job_ID job)
    ∧ ∀ t, t ∈ qu_tasks (sy_queue s) → tk_JobRunID t ≠ jr_ID run;
  inv_checked : ∀ c job vms run t, sy_calls s !! c = Some (Checked job vms run) →
    job_ID job ∉ qu_active (sy_queue s) → t ∈ qu_tasks (sy_queue s) → task_open t = true →
    tk_JobID t ≠ job_ID job;
  inv_one : ∀ job h h', holds s job h → holds s job h' → h = h';
  inv_active : ∀ job h, marked s job h → job ∈ qu_active (sy_queue s)
}.

(** The empty queue of a first start. *)
Definition first_start (q : Queue) : System := mkSystem q ∅ ∅ ∅.

Lemma inv_start q : qu_tasks q = [] → Inv (first_start q).
Proof.
  intros Ht. assert (∀ job h, ¬ marked (first_start q) job h) as Hm.
  { intros job h [?????|???|???]; cbn in *; by simplify_map_eq. }
  assert (∀ job h, ¬ holds (first_start q) job h) as Hh.
  { intros job h [t Hin|h' Hh']; [|by apply Hm in Hh']. cbn in Hin. rewrite Ht in Hin. inversion Hin. }
  split; cbn; rewrite ?Ht; try (by intros; simplify_map_eq).
  - constructor.
  - intros t Hin. inversion Hin.
  - intros job h h' Hb. by apply Hh in Hb.
  - intros job h Hb. by apply Hm in Hb.
Qed.

(** ** Changes of the queue, the phases staying as they are *)

Lemma forward_status q q' run :
  forward q q' → is_Some (job_of q run) → status_of q' run = Some RunRunning →
  status_of q run = Some RunRunning.
Proof.
  unfold job_of, status_of. intros Hf [j Hj] Hs.
  destruct (qu_job_runs q !! run) as [r|] eqn:Hr; [|done].
  destruct (Hf _ _ Hr) as (r' & Hr' & _ & Hrun). rewrite Hr' in Hs. injection Hs as Hs.
  cbn. f_equal. auto.
Qed.

Lemma forward_job q q' run j : forward q q' → job_of q run = Some j → job_of q' run = Some j.
Proof.
  unfold job_of. intros Hf Hj. destruct (qu_job_runs q !! run) as [r|] eqn:Hr; [|done].
  destruct (Hf _ _ Hr) as (r' & -> & Heq & _). cbn in *. congruence.
Qed.

Lemma identity_fields t u :
  identity t = identity u → tk_ID t = tk_ID u ∧ tk_JobRunID t = tk_JobRunID u
    ∧ tk_JobID t = tk_JobID u ∧ tk_Payload t = tk_Payload u.
Proof. by intros [=]. Qed.

(** The run of the task of a worker is known, with its job. *)
Lemma work_job s owner p :
  Inv s → sy_workers s !! owner = Some p →
  job_of (sy_queue s) (tk_JobRunID (task_of p)) = Some (tk_JobID (task_of p))
  ∧ is_Some (tk_Payload (task_of p)).
Proof.
  intros HI Hp. destruct (inv_work s HI _ _ Hp) as (_ & _ & t & Hin & Hid).
  apply identity_fields in Hid as (_ & Hr & Hj & Hpl).
  destruct (inv_rows s HI t Hin) as (Hjob & Hsome & _). by rewrite <-Hr, <-Hj, <-Hpl.
Qed.

Lemma candidate_task p t : counting_for p = Some t → task_of p = t.
Proof. destruct p; cbn; congruence. Qed.

(** The queue and the marks stay, the runs of jobs go on: nobody gets a hold. *)
Lemma holds_forward s q' job h :
  Inv s → forward (sy_queue s) q' → qu_tasks q' = qu_tasks (sy_queue s) →
  (marked (set_queue q' s) job h → marked s job h) ∧ (holds (set_queue q' s) job h → holds s job h).
Proof.
  intros HI Hf Ht.
  assert (∀ h, marked (set_queue q' s) job h → marked s job h) as Hm.
  { intros g [owner p t Hp Hc Hj Hs|owner t Hp Hj|c p Hp Hr]; cbn in *.
    - eapply marked_candidate; try done. eapply forward_status; [exact Hf| |exact Hs].
      apply candidate_task in Hc as <-. destruct (work_job _ _ _ HI Hp) as [-> _]. done.
    - by eapply marked_elected.
    - by eapply marked_call. }
  split; [apply Hm|]. intros [t Hin Ho Hj|h' Hh']; [|by apply holds_marked, Hm].
  cbn in Hin. rewrite Ht in Hin. by apply holds_open.
Qed.

Lemma inv_forward s q' :
  Inv s → forward (sy_queue s) q' → queue_part q' = queue_part (sy_queue s) → Inv (set_queue q' s).
Proof.
  intros HI Hf [= Ht Ha]. pose proof (λ job h, holds_forward s q' job h HI Hf Ht) as Hback.
  destruct HI as [Hids Hrows Hwork Hnone Hel Hone Hlease Hpl Hrec Hchk Hex Hact] eqn:HIeq.
  split; cbn; rewrite ?Ht, ?Ha; try done.
  - intros t Hin. destruct (Hrows t Hin) as (Hj & Hp & Ho). split_and!; [by eapply forward_job|done..].
  - intros owner t Hp Hs. apply (Hel _ _ Hp). eapply forward_status; [exact Hf| |exact Hs].
    destruct (work_job s _ _ HI Hp) as [Hj _]. cbn in Hj. by rewrite Hj.
  - intros c job vms run Hc. destruct (Hrec _ _ _ _ Hc) as [Hj Hno]. split; [by eapply forward_job|done].
  - intros job h h' H1%Hback H2%Hback. eauto.
  - intros job h Hm1%Hback. eauto.
Qed.

(** Rows that end or change hands. *)
Lemma inv_rows_by s q' f :
  Inv s → rows_by f (sy_queue s) q' →
  (∀ t, t ∈ qu_tasks (sy_queue s) →
     (task_open (f t) = true → task_open t = true)
     ∧ (tk_LeaseOwner (f t) ≠ ""%string → task_open (f t) = true)
     ∧ (tk_LeaseOwner (f t) = tk_LeaseOwner t ∨ tk_LeaseOwner (f t) = ""%string
        ∨ sy_workers s !! tk_LeaseOwner (f t) = None)) →
  Inv (set_queue q' s).
Proof.
  intros HI (Hr & Ha & Ht & Hid) Hf.
  assert (∀ u, u ∈ qu_tasks q' → ∃ t, u = f t ∧ t ∈ qu_tasks (sy_queue s) ∧ identity u = identity t) as Hback.
  { intros u Hu. rewrite Ht in Hu. apply list_elem_of_fmap in Hu as (t & -> & Hin). eauto. }
  assert (∀ run, status_of q' run = status_of (sy_queue s) run) as Hst
    by (intros run; unfold status_of; by rewrite Hr).
  assert (∀ run, job_of q' run = job_of (sy_queue s) run) as Hjb
    by (intros run; unfold job_of; by rewrite Hr).
  assert (∀ job h, marked (set_queue q' s) job h → marked s job h) as Hm.
  { intros job h [owner p t Hp Hc Hj Hs|owner t Hp Hj|c p Hp Hrs]; cbn in *.
    - rewrite Hst in Hs. by eapply marked_candidate.
    - by eapply marked_elected.
    - by eapply marked_call. }
  assert (∀ job h, holds (set_queue q' s) job h → holds s job h) as Hh.
  { intros job h [u Hin Ho Hj|h' Hh']; [|by apply holds_marked, Hm].
    destruct (Hback u Hin) as (t & -> & Hin' & (_ & -> & Hj' & _)%identity_fields).
    apply holds_open; [done|by apply Hf|congruence]. }
  split; cbn; rewrite ?Ha; try apply HI.
  - rewrite Ht, <-list_fmap_compose. rewrite (list_fmap_ext _ tk_ID (qu_tasks (sy_queue s))); [apply HI|].
    intros i t Hi%list_elem_of_lookup_2. by apply Hid, identity_fields in Hi as [? _].
  - intros u Hu. destruct (Hback u Hu) as (t & -> & Hin & Hi).
    apply identity_fields in Hi as (_ & Hi2 & Hi3 & Hi4).
    destruct (inv_rows s HI t Hin) as (Hj & Hp & _). split_and!.
    + by rewrite Hjb, Hi2, Hi3.
    + by rewrite Hi4.
    + by apply Hf.
  - intros owner p Hp. destruct (inv_work s HI _ _ Hp) as (Hne & Hout & t & Hin & Hi).
    split_and!; [done..|]. exists (f t). rewrite (Hid _ Hin). split; [|done].
    rewrite Ht. by apply list_elem_of_fmap_2.
  - intros owner p u Hp Hsaw Hu Hrun. destruct (Hback u Hu) as (t & -> & Hin & Hi).
    apply identity_fields in Hi as (_ & Hi2 & _). apply not_true_is_false. intros Ho.
    apply (proj1 (Hf t Hin)) in Ho. rewrite (inv_none s HI _ _ _ Hp Hsaw Hin) in Ho; congruence.
  - intros owner t Hp. rewrite Hst. by apply (inv_elected s HI owner).
  - intros owner p u Hp Hw Hu Hi Ho. destruct (Hback u Hu) as (t & -> & Hin & Hids).
    apply identity_fields in Hids as (Hi1 & _ & Hi3 & _). rewrite Hi3.
    apply (inv_lease s HI _ _ _ Hp Hw Hin); [congruence|].
    destruct (Hf t Hin) as (_ & _ & [Heq|[Heq|Heq]]); [congruence| |].
    + destruct (inv_work s HI _ _ Hp) as [Hne _]. congruence.
    + rewrite Ho in Heq. congruence.
  - intros c job vms run Hc. rewrite Hjb. destruct (inv_recorded s HI _ _ _ _ Hc) as [Hj Hno].
    split; [done|]. intros u Hu. destruct (Hback u Hu) as (t & -> & Hin & (_ & -> & _)%identity_fields).
    by apply Hno.
  - intros c job vms run u Hc Hna Hu Ho. destruct (Hback u Hu) as (t & -> & Hin & Hi).
    apply identity_fields in Hi as (_ & _ & -> & _).
    apply (inv_checked s HI c job vms run t Hc Hna Hin). by apply Hf.
  - intros job h h' H1 H2. eapply (inv_one s HI); eauto.
  - intros job h H1. eapply (inv_active s HI); eauto.
Qed.

(** ** Changes of a phase, the queue staying as it is *)

(** A phase that a worker may enter. *)
Record may_enter (s : System) (owner : string) (p : Worker) : Prop := {
  me_owner : owner ≠ ""%string;
  me_outcome : outcome_ok p;
  me_row : ∃ t, t ∈ qu_tasks (sy_queue s) ∧ identity t = identity (task_of p);
  me_none : saw_none p = true → ∀ t, t ∈ qu_tasks (sy_queue s) →
    tk_JobRunID t = tk_JobRunID (task_of p) → task_open t = false;
  me_lease : at_work p = true → ∀ t, t ∈ qu_tasks (sy_queue s) →
    tk_ID t = tk_ID (task_of p) → tk_LeaseOwner t = owner → tk_JobID t ∈ qu_active (sy_queue s);
  me_elected : ∀ t, p = Elected t → status_of (sy_queue s) (tk_JobRunID t) ≠ Some RunRunning
    ∧ ∀ owner' t', sy_workers s !! owner' = Some (Elected t') →
        tk_JobRunID t' = tk_JobRunID t → owner' = owner;
  (** Its run is the only holder of the job. *)
  me_holder : is_Some (counting_for p)
      ∧ status_of (sy_queue s) (tk_JobRunID (task_of p)) = Some RunRunning ∨ p = Elected (task_of p) →
    tk_JobID (task_of p) ∈ qu_active (sy_queue s)
    ∧ ∀ h, holds s (tk_JobID (task_of p)) h → h = ByRun (tk_JobRunID (task_of p))
}.

Lemma inv_worker s owner p :
  Inv s → (∀ p', p = Some p' → may_enter s owner p') → Inv (set_worker owner p (sy_queue s) s).
Proof.
  intros HI Hp. set (s' := set_worker _ _ _ _).
  assert (∀ o p', sy_workers s' !! o = Some p' →
    (o = owner ∧ p = Some p' ∧ may_enter s owner p') ∨ sy_workers s !! o = Some p') as Hback.
  { intros o p' Ho. cbn in Ho. destruct (decide (o = owner)) as [->|Hne].
    - rewrite lookup_partial_alter_eq in Ho. left. auto.
    - rewrite lookup_partial_alter_ne in Ho by done. by right. }
  assert (∀ job h, marked s' job h → marked s job h
    ∨ (∃ p', p = Some p' ∧ may_enter s owner p' ∧ job = tk_JobID (task_of p') ∧ h = ByRun (tk_JobRunID (task_of p'))
         ∧ (is_Some (counting_for p') ∧ status_of (sy_queue s) (tk_JobRunID (task_of p')) = Some RunRunning
            ∨ p' = Elected (task_of p')))) as Hm.
  { intros job h [o p' t Ho Hc Hj Hs|o t Ho Hj|c p' Hc Hr].
    - destruct (Hback _ _ Ho) as [(-> & Hp' & He)|Ho']; [right|left; by eapply marked_candidate].
      exists p'. rewrite (candidate_task _ _ Hc). split_and!; eauto 6.
    - destruct (Hback _ _ Ho) as [(-> & Hp' & He)|Ho']; [right|left; by eapply marked_elected].
      exists (Elected t). split_and!; auto.
    - left. by eapply marked_call. }
  assert (∀ job h, holds s' job h → holds s job h
    ∨ (∃ p', p = Some p' ∧ may_enter s owner p' ∧ job = tk_JobID (task_of p') ∧ h = ByRun (tk_JobRunID (task_of p'))
         ∧ (is_Some (counting_for p') ∧ status_of (sy_queue s) (tk_JobRunID (task_of p')) = Some RunRunning
            ∨ p' = Elected (task_of p')))) as Hh.
  { intros job h [t Hin Ho Hj|h' Hh']; [left; by apply holds_open|].
    destruct (Hm _ _ Hh') as [?|?]; [left; by apply holds_marked|by right]. }
  split; cbn; try apply HI.
  - intros o p' Ho. destruct (Hback _ _ Ho) as [(-> & Hp' & He)|Ho']; [|by apply (inv_work s HI)].
    destruct He. auto.
  - intros o p' t Ho. destruct (Hback _ _ Ho) as [(-> & Hp' & He)|Ho']; [|by apply (inv_none s HI _ _ _ Ho')].
    intros Hs. by apply (me_none _ _ _ He).
  - intros o t Ho. destruct (Hback _ _ Ho) as [(-> & Hp' & He)|Ho']; [|by apply (inv_elected s HI _ _ Ho')].
    by apply (me_elected _ _ _ He).
  - intros o o' t t' Ho Ho'.
    destruct (Hback _ _ Ho) as [(-> & Hp' & He)|Hs], (Hback _ _ Ho') as [(-> & Hp'' & He')|Hs']; [done|..]; intros Heq.
    + symmetry. by eapply (me_elected _ _ _ He).
    + by eapply (me_elected _ _ _ He').
    + by eapply (inv_elected_one s HI).
  - intros o p' t Ho Hw Hin. destruct (Hback _ _ Ho) as [(-> & Hp' & He)|Ho'].
    + by apply (me_lease _ _ _ He).
    + by apply (inv_lease s HI _ _ _ Ho').
  - intros job h h' H1 H2.
    destruct (Hh _ _ H1) as [Hs1|(p1 & Hp1 & He1 & -> & -> & Hc1)],
      (Hh _ _ H2) as [Hs2|(p2 & Hp2 & He2 & Hj2 & -> & Hc2)].
    + by eapply (inv_one s HI).
    + subst job. by apply (me_holder _ _ _ He2).
    + symmetry. by apply (me_holder _ _ _ He1).
    + congruence.
  - intros job h H1. destruct (Hm _ _ H1) as [Hs1|(p1 & Hp1 & He1 & -> & -> & Hc1)].
    + by eapply (inv_active s HI).
    + by apply (me_holder _ _ _ He1).
Qed.

(** A phase that a call may enter. *)
Record may_call (s : System) (c : string) (p : Call) : Prop := {
  mc_planned : ∀ job run, planned_for p = Some (job, run) → jr_JobID run = job_ID job;
  mc_checked : ∀ job vms run, p = Checked job vms run → ∀ t, t ∈ qu_tasks (sy_queue s) →
    task_open t = true → tk_JobID t ≠ job_ID job;
  mc_recorded : ∀ job vms run, p = Recorded job vms run →
    job_of (sy_queue s) (jr_ID run) = Some (job_ID job)
    ∧ ∀ t, t ∈ qu_tasks (sy_queue s) → tk_JobRunID t ≠ jr_ID run;
  (** It is the only holder of the job. *)
  mc_holder : ∀ job, reserved p = Some job →
    job ∈ qu_active (sy_queue s) ∧ ∀ h, holds s job h → h = ByCall c
}.

Lemma inv_call s c p :
  Inv s → (∀ p', p = Some p' → may_call s c p') → Inv (set_call c p (sy_queue s) s).
Proof.
  intros HI Hp. set (s' := set_call _ _ _ _).
  assert (∀ o p', sy_calls s' !! o = Some p' →
    (o = c ∧ p = Some p' ∧ may_call s c p') ∨ sy_calls s !! o = Some p') as Hback.
  { intros o p' Ho. cbn in Ho. destruct (decide (o = c)) as [->|Hne].
    - rewrite lookup_partial_alter_eq in Ho. left. auto.
    - rewrite lookup_partial_alter_ne in Ho by done. by right. }
  assert (∀ job h, marked s' job h → marked s job h
    ∨ (∃ p', may_call s c p' ∧ reserved p' = Some job ∧ h = ByCall c)) as Hm.
  { intros job h [o p' t Ho Hc Hj Hs|o t Ho Hj|o p' Hc Hr].
    - left. by eapply marked_candidate.
    - left. by eapply marked_elected.
    - destruct (Hback _ _ Hc) as [(-> & Hp' & He)|Ho']; [right; eauto|left; by eapply marked_call]. }
  assert (∀ job h, holds s' job h → holds s job h
    ∨ (∃ p', may_call s c p' ∧ reserved p' = Some job ∧ h = ByCall c)) as Hh.
  { intros job h [t Hin Ho Hj|h' Hh']; [left; by apply holds_open|].
    destruct (Hm _ _ Hh') as [?|?]; [left; by apply holds_marked|by right]. }
  split; cbn; try apply HI.
  - intros o p' job run Ho. destruct (Hback _ _ Ho) as [(-> & Hp' & He)|Ho'].
    + by apply (mc_planned _ _ _ He).
    + by apply (inv_planned s HI _ _ _ _ Ho').
  - intros o job vms run Ho. destruct (Hback _ _ Ho) as [(-> & Hp' & He)|Ho'].
    + by eapply (mc_recorded _ _ _ He).
    + by apply (inv_recorded s HI _ _ _ _ Ho').
  - intros o job vms run t Ho. destruct (Hback _ _ Ho) as [(-> & Hp' & He)|Ho'].
    + intros _. by eapply (mc_checked _ _ _ He).
    + by apply (inv_checked s HI _ _ _ _ _ Ho').
  - intros job h h' H1 H2.
    destruct (Hh _ _ H1) as [Hs1|(p1 & He1 & Hr1 & ->)], (Hh _ _ H2) as [Hs2|(p2 & He2 & Hr2 & ->)]; [|..|done].
    + by eapply (inv_one s HI).
    + by apply (mc_holder _ _ _ He2 _ Hr2).
    + symmetry. by apply (mc_holder _ _ _ He1 _ Hr1).
  - intros job h H1. destruct (Hm _ _ H1) as [Hs1|(p1 & He1 & Hr1 & ->)].
    + by eapply (inv_active s HI).
    + by apply (mc_holder _ _ _ He1 _ Hr1).
Qed.

Definition mark_with (f : gset string → gset string) (s : System) : System :=
  set_queue (with_active (f (qu_active (sy_queue s))) (sy_queue s)) s.

(** The holders do not depend on the marks. *)
Lemma marked_mark f s job h : marked (mark_with f s) job h ↔ marked s job h.
Proof.
  split; intros [o p t Ho Hc Hj Hs|o t Ho Hj|o p Hc Hr]; cbn in *.
  1,4: by eapply marked_candidate. 1,3: by eapply marked_elected. all: by eapply marked_call.
Qed.

Lemma holds_mark f s job h : holds (mark_with f s) job h ↔ holds s job h.
Proof.
  split; intros [t Hin Ho Hj|h' Hm]; try (by apply holds_open); by apply holds_marked, (marked_mark f).
Qed.

Lemma inv_mark f s :
  Inv s →
  (∀ job, job ∈ qu_active (sy_queue s) → job ∈ f (qu_active (sy_queue s)) ∨ ∀ h, ¬ holds s job h) →
  Inv (mark_with f s).
Proof.
  intros HI Hf. split; cbn; try apply HI.
  - intros o p t Ho Hw Hin Hid How.
    destruct (Hf _ (inv_lease s HI _ _ _ Ho Hw Hin Hid How)) as [?|Hnone]; [done|].
    exfalso. eapply Hnone, holds_open; [done| |done].
    apply (inv_rows s HI t Hin). rewrite How. apply (inv_work s HI _ _ Ho).
  - intros c job vms run t Hc Hna Hin Ho Hj.
    destruct (decide (job_ID job ∈ qu_active (sy_queue s))) as [Ha|Ha].
    + destruct (Hf _ Ha) as [?|Hnone]; [done|]. eapply Hnone. by apply holds_open.
    + by apply (inv_checked s HI _ _ _ _ _ Hc Ha Hin Ho).
  - intros job h h'. rewrite !holds_mark. apply (inv_one s HI).
  - intros job h Hm%marked_mark.
    destruct (Hf _ (inv_active s HI _ _ Hm)) as [?|Hnone]; [done|].
    exfalso. by eapply Hnone, holds_marked.
Qed.

(** A marked job that nobody holds gets a new run with its tasks. *)
Lemma inv_enqueue s q' job run rows :
  Inv s → job_ID job ∈ qu_active (sy_queue s) → (∀ h, ¬ holds s (job_ID job) h) →
  job_of (sy_queue s) (jr_ID run) = Some (job_ID job) →
  (∀ t, t ∈ qu_tasks (sy_queue s) → tk_JobRunID t ≠ jr_ID run) →
  qu_job_runs q' = qu_job_runs (sy_queue s) → qu_active q' = qu_active (sy_queue s) →
  qu_tasks q' = qu_tasks (sy_queue s) ++ rows → NoDup (tk_ID <$> qu_tasks q') →
  (∀ t, t ∈ rows → new_row job run t) →
  Inv (set_queue q' s).
Proof.
  intros HI Hact Hfree Hjob Hnew Hr Ha Ht Hnd Hrows.
  assert (∀ run, status_of q' run = status_of (sy_queue s) run) as Hst
    by (intros u; unfold status_of; by rewrite Hr).
  assert (∀ run, job_of q' run = job_of (sy_queue s) run) as Hjb
    by (intros u; unfold job_of; by rewrite Hr).
  assert (∀ t, t ∈ qu_tasks q' → t ∈ qu_tasks (sy_queue s) ∨ new_row job run t) as Hback.
  { intros t Hin. rewrite Ht in Hin. apply elem_of_app in Hin as [?|?]; auto. }
  assert (∀ j h, marked (set_queue q' s) j h → marked s j h) as Hm.
  { intros j h [o p t Ho Hc Hj Hs|o t Ho Hj|c p Hc Hrs]; cbn in *.
    - rewrite Hst in Hs. by eapply marked_candidate.
    - by eapply marked_elected.
    - by eapply marked_call. }
  assert (∀ o p t, sy_workers s !! o = Some p → new_row job run t →
    tk_JobRunID t ≠ tk_JobRunID (task_of p)) as Hother.
  { intros o p t Ho (Hrun & _) Heq. destruct (inv_work s HI _ _ Ho) as (_ & _ & u & Hin & Hid).
    apply identity_fields in Hid as (_ & Hi & _). apply (Hnew _ Hin). congruence. }
  assert (∀ j h, holds (set_queue q' s) j h → holds s j h ∨ (j = job_ID job ∧ h = ByRun (jr_ID run))) as Hh.
  { intros j h [t Hin Ho Hj|h' Hh']; [|left; by apply holds_marked, Hm].
    destruct (Hback t Hin) as [?|(Hrun & Hj' & _)]; [left; by apply holds_open|right].
    split; congruence. }
  split; cbn; rewrite ?Ha; try apply HI; try done.
  - intros t Hin. destruct (Hback t Hin) as [Hold|(Hrun & Hj & Hp & Ho & How)].
    + destruct (inv_rows s HI t Hold) as (Hj & Hp & Ho). split_and!; [by rewrite Hjb|done..].
    + split_and!; [|done|by rewrite How]. by rewrite Hjb, Hrun, Hj.
  - intros o p Ho. destruct (inv_work s HI _ _ Ho) as (? & ? & t & Hin & Hid).
    split_and!; [done..|]. exists t. rewrite Ht. split; [|done]. apply elem_of_app. by left.
  - intros o p t Ho Hsaw Hin Hrun. destruct (Hback t Hin) as [Hold|Hn].
    + by apply (inv_none s HI _ _ _ Ho).
    + by destruct (Hother _ _ _ Ho Hn).
  - intros o t Ho. rewrite Hst. by apply (inv_elected s HI o).
  - intros o p t Ho Hw Hin Hid How. destruct (Hback t Hin) as [Hold|(_ & _ & _ & _ & Hno)].
    + by apply (inv_lease s HI _ _ _ Ho).
    + destruct (inv_work s HI _ _ Ho) as [Hne _]. congruence.
  - intros c j vms r Hc. rewrite Hjb. destruct (inv_recorded s HI _ _ _ _ Hc) as [Hj Hno].
    split; [done|]. intros t Hin. destruct (Hback t Hin) as [Hold|(Hrun & _)]; [by apply Hno|].
    intros Heq. apply (Hfree (ByCall c)), holds_marked. eapply marked_call; [exact Hc|]. cbn. congruence.
  - intros c j vms r t Hc Hna Hin Ho. destruct (Hback t Hin) as [Hold|(_ & Hj & _)].
    + by apply (inv_checked s HI _ _ _ _ _ Hc).
    + intros Heq. congruence.
  - intros j h h' H1 H2. destruct (Hh _ _ H1) as [Hs1|[-> ->]], (Hh _ _ H2) as [Hs2|[Hj2 ->]]; [|..|done].
    + by eapply (inv_one s HI).
    + subst j. by apply Hfree in Hs1.
    + by apply Hfree in Hs2.
  - intros j h H1. eapply (inv_active s HI); eauto.
Qed.

(** ** The steps of a worker *)

(** A counting_for whose run is in the running state is the holder of its job. *)
Lemma sole_candidate s owner p t :
  Inv s → sy_workers s !! owner = Some p → counting_for p = Some t →
  status_of (sy_queue s) (tk_JobRunID t) = Some RunRunning →
  tk_JobID t ∈ qu_active (sy_queue s) ∧ ∀ h, holds s (tk_JobID t) h → h = ByRun (tk_JobRunID t).
Proof.
  intros HI Hp Hc Hs. assert (marked s (tk_JobID t) (ByRun (tk_JobRunID t))) as Hm
    by by eapply marked_candidate.
  split; [by eapply inv_active|]. intros h Hh. eapply (inv_one s HI); [exact Hh|by apply holds_marked].
Qed.

(** The answer to a claim: the run was in the running state and is not any more. *)
Lemma ClaimBackupJobRunFinalization_won run q q' :
  ClaimBackupJobRunFinalization run q = (q', Ok true) →
  status_of q run = Some RunRunning ∧ status_of q' run = Some RunWaitingCopies.
Proof.
  intros Hrun. apply bind_ok in Hrun as (q1 & [] & Hq & Hrun). apply query_ok in Hq as [= Hr _ _].
  rewrite get_run, Hr in Hrun. unfold status_of.
  destruct (qu_job_runs q !! run) as [r|] eqn:Hlk; [|done].
  case_bool_decide as Hs; [|done]. injection Hrun as <-. cbn.
  rewrite lookup_insert_eq. cbn. by rewrite Hs.
Qed.

(** After an election the run holds its job by its worker alone. *)
Lemma elected_releases s owner t :
  Inv s → sy_workers s !! owner = Some (Elected t) →
  ∀ h, ¬ holds (set_worker owner (Some (Summing t)) (sy_queue s) s) (tk_JobID t) h.
Proof.
  intros HI Hw h Hh. set (s1 := set_worker _ _ _ _) in Hh.
  assert (∀ o p, sy_workers s1 !! o = Some p → (o = owner ∧ p = Summing t) ∨ (o ≠ owner ∧ sy_workers s !! o = Some p)) as Hback.
  { intros o p Ho. cbn in Ho. destruct (decide (o = owner)) as [->|Hne].
    - rewrite lookup_partial_alter_eq in Ho. left. by injection Ho.
    - rewrite lookup_partial_alter_ne in Ho by done. by right. }
  assert (holds s (tk_JobID t) (ByRun (tk_JobRunID t))) as Hmine by by eapply holds_marked, marked_elected.
  destruct Hh as [u Hin Ho Hj|h [o p u Ho Hc Hj Hs|o u Ho Hj|c p Hc Hr]].
  - assert (ByRun (tk_JobRunID u) = ByRun (tk_JobRunID t)) as [= Heq]
      by (eapply (inv_one s HI); [by apply holds_open|done]).
    rewrite (inv_none s HI _ _ _ Hw eq_refl Hin Heq) in Ho. done.
  - destruct (Hback _ _ Ho) as [[-> ->]|[_ Ho']]; [done|].
    assert (ByRun (tk_JobRunID u) = ByRun (tk_JobRunID t)) as [= Heq].
    { eapply (inv_one s HI); [by eapply holds_marked, marked_candidate|done]. }
    destruct (inv_elected s HI _ _ Hw). by rewrite <-Heq.
  - destruct (Hback _ _ Ho) as [[-> ?]|[Hne Ho']]; [done|].
    assert (ByRun (tk_JobRunID u) = ByRun (tk_JobRunID t)) as [= Heq].
    { eapply (inv_one s HI); [by eapply holds_marked, marked_elected|done]. }
    apply Hne. by eapply (inv_elected_one s HI).
  - assert (ByCall c = ByRun (tk_JobRunID t)); [|done].
    eapply (inv_one s HI); [by eapply holds_marked, marked_call|done].
Qed.

(** ** The steps of a worker, one by one *)
Section WorkerSteps.
Context (next_time : string → option Z) (s : System) (HI : Inv s).

Lemma phase_after q' owner p :
  Inv (set_queue q' s) → (∀ p', p = Some p' → may_enter (set_queue q' s) owner p') →
  Inv (set_worker owner p q' s).
Proof. intros H1 H2. exact (inv_worker (set_queue q' s) owner p H1 H2). Qed.

Lemma phase_gone q' owner : Inv (set_queue q' s) → Inv (set_worker owner None q' s).
Proof. intros H1. by apply phase_after. Qed.

(** A phase that neither holds a job nor works on the task. *)
Lemma may_enter_plain (s0 : System) owner p :
  owner ≠ ""%string → (∃ t, t ∈ qu_tasks (sy_queue s0) ∧ identity t = identity (task_of p)) →
  (∃ t, p = Took t ∨ p = Summing t) → may_enter s0 owner p.
Proof.
  intros Hne Hrow (t & [-> | ->]); split; cbn in *; try done; intros [[[? [=]] _]|[=]].
Qed.

Lemma step_claim now owner q' p :
  owner ≠ ""%string → sy_workers s !! owner = None →
  worker_step next_time now owner None (sy_queue s) = (q', Ok p) → Inv (set_worker owner p q' s).
Proof.
  intros Hne Hidle Hrun. apply try_inv in Hrun as (q1 & ts & Hc & [= <- <-]).
  apply ClaimBackupTasks_run in Hc as (f & Hrows & Hf & Hts); [|apply HI].
  apply phase_after.
  - apply (inv_rows_by _ _ f HI Hrows). intros t Hin. destruct (Hf t Hin) as [->|(Ho & Ho' & How)].
    + split_and!; [done|by apply (inv_rows s HI)|by left].
    + split_and!; [done|done|]. right. right. by rewrite How.
  - intros p' Hp'. destruct ts as [[|t ts]|]; try done. injection Hp' as <-.
    apply may_enter_plain; [done| |eauto]. exists t. split; [|done]. apply Hts. left.
Qed.

Lemma step_take now owner t q' p :
  sy_workers s !! owner = Some (Took t) →
  worker_step next_time now owner (Some (Took t)) (sy_queue s) = (q', Ok p) →
  Inv (set_worker owner p q' s).
Proof.
  intros Hw Hrun. destruct (work_job s _ _ HI Hw) as [_ [d Hd]]. cbn in Hd, Hrun. rewrite Hd in Hrun.
  rewrite get_run in Hrun. injection Hrun as <- <-.
  destruct (inv_work s HI _ _ Hw) as (Hne & _ & Hrow).
  change (with_active _ _) with (sy_queue (mark_with (λ a, {[tk_JobID t]} ∪ a) s)).
  apply phase_after.
  - apply (inv_mark (λ a, {[tk_JobID t]} ∪ a)); [done|]. intros job Hj. left. set_solver.
  - intros p' [= <-]. split; cbn; try done; [|by intros [[[? [=]] _]|[=]]].
    intros _ u Hin Hid _. destruct Hrow as (u' & Hin' & (Hi1 & _ & Hi3 & _)%identity_fields).
    cbn in Hi1, Hi3. rewrite (task_by_id _ u u' (inv_ids s HI)); [|done|done|congruence]. set_solver.
Qed.

Lemma step_finish now owner t status err q' p :
  sy_workers s !! owner = Some (Ended t status err) →
  worker_step next_time now owner (Some (Ended t status err)) (sy_queue s) = (q', Ok p) →
  Inv (set_worker owner p q' s).
Proof.
  intros Hw Hrun. apply try_inv in Hrun as (q1 & [[]|x] & Hc & [= <- <-]);
    apply FinishBackupTask_run in Hc.
  - destruct Hc as [Hrows (u & Hin & Hid & How)].
    destruct (inv_work s HI _ _ Hw) as (Hne & Hout & v & Hin' & Hids).
    apply identity_fields in Hids as Hi. cbn in Hi, Hout. destruct Hi as (Hi1 & Hi2 & Hi3 & _).
    assert (v = u) as -> by (apply (task_by_id _ _ _ (inv_ids s HI)); congruence).
    assert (task_open u = true) as Hopen by (apply (inv_rows s HI u Hin); congruence).
    assert (Inv (set_worker owner (Some (Counting t)) (sy_queue s) s)) as HI'.
    { apply inv_worker; [done|]. intros p' [= <-]. split; cbn; try done; [by exists u|].
      intros _. rewrite <-Hi3. split.
      - by apply (inv_lease s HI _ _ u Hw).
      - intros h Hh. eapply (inv_one s HI); [exact Hh|]. rewrite <-Hi2. by apply holds_open. }
    change (set_worker owner (Some (Counting t)) q1 s)
      with (set_queue q1 (set_worker owner (Some (Counting t)) (sy_queue s) s)).
    eapply inv_rows_by; [exact HI'|exact Hrows|]. cbn. intros w Hwin.
    destruct (owned_task _ _ _) eqn:Ho; [|split_and!; [done|by apply (inv_rows s HI)|by left]].
    split_and!; [|done|by right; left]. cbn. unfold task_open. by destruct Hout as [-> | ->].
  - apply phase_gone. eapply inv_rows_by; [done|exact Hc|]. cbn. intros w Hwin.
    split_and!; [done|by apply (inv_rows s HI)|by left].
Qed.

Lemma step_count now owner t q' p :
  sy_workers s !! owner = Some (Counting t) →
  worker_step next_time now owner (Some (Counting t)) (sy_queue s) = (q', Ok p) →
  Inv (set_worker owner p q' s).
Proof.
  intros Hw Hrun. apply try_inv in Hrun as (q1 & b & Hc & [= <- <-]).
  apply HasOpenBackupTasks_run in Hc as [Hcore Hb].
  assert (Inv (set_queue q1 s)) as HI1.
  { apply inv_forward; [done| |by injection Hcore as _ ?; unfold queue_part; congruence].
    intros id r Hr. exists r. by rewrite (core_runs _ _ Hcore). }
  apply phase_after; [done|]. intros p' Hp'. destruct b as [[]|]; try done. injection Hp' as <-.
  destruct (inv_work s HI _ _ Hw) as (Hne & _ & Hrow). split; cbn; try done.
  - by rewrite (core_tasks _ _ Hcore).
  - intros _ u Hin Hrun. apply not_true_is_false. intros Ho.
    rewrite (core_tasks _ _ Hcore) in Hin. eapply no_open_task; [by symmetry|done..|by right|by left].
  - intros [[_ Hs]|[=]]. by apply (sole_candidate (set_queue q1 s) owner (Counting t) t).
Qed.

Lemma step_elect now owner t q' p :
  sy_workers s !! owner = Some (Electing t) →
  worker_step next_time now owner (Some (Electing t)) (sy_queue s) = (q', Ok p) →
  Inv (set_worker owner p q' s).
Proof.
  intros Hw Hrun. apply try_inv in Hrun as (q1 & b & Hc & [= <- <-]).
  pose proof (ClaimBackupJobRunFinalization_only (tk_JobRunID t)) as [Hf Htk Hac].
  specialize (Hf (sy_queue s)). specialize (Htk (sy_queue s)). specialize (Hac (sy_queue s)).
  rewrite Hc in Hf, Htk, Hac. cbn in Hf, Htk, Hac.
  assert (Inv (set_queue q1 s)) as HI1 by (apply inv_forward; [done..|unfold queue_part; congruence]).
  apply phase_after; [done|]. intros p' Hp'. destruct b as [[]|]; try done. injection Hp' as <-.
  apply ClaimBackupJobRunFinalization_won in Hc as [Hbefore Hafter].
  destruct (inv_work s HI _ _ Hw) as (Hne & _ & Hrow). split; cbn; try done.
  - by rewrite Htk.
  - intros _ u. rewrite Htk. by apply (inv_none s HI _ _ _ Hw).
  - intros t' [= <-]. rewrite Hafter. split; [done|]. intros o' t' Ho' Heq.
    destruct (inv_elected s HI _ _ Ho'). by rewrite Heq.
  - intros _. rewrite Hac. destruct (sole_candidate s owner (Electing t) t) as [Ha Hone]; [done..|].
    split; [done|]. intros h Hh. apply Hone. by eapply (holds_forward s q1).
Qed.

Lemma step_release now owner t q' p :
  sy_workers s !! owner = Some (Elected t) →
  worker_step next_time now owner (Some (Elected t)) (sy_queue s) = (q', Ok p) →
  Inv (set_worker owner p q' s).
Proof.
  intros Hw Hrun. cbn [worker_step] in Hrun. rewrite (bind_run _ _ _ _ _ (releaseJob_run _ _)) in Hrun.
  injection Hrun as <- <-.
  destruct (inv_work s HI _ _ Hw) as (Hne & _ & Hrow).
  set (s1 := set_worker owner (Some (Summing t)) (sy_queue s) s).
  assert (Inv s1) as HI1 by (apply inv_worker; [done|]; intros p' [= <-]; apply may_enter_plain; eauto).
  apply (inv_mark (λ a, a ∖ {[tk_JobID t]}) s1 HI1). intros job Hj.
  destruct (decide (job = tk_JobID t)) as [->|Hjob]; [right|left; set_solver].
  by apply elected_releases.
Qed.
End WorkerSteps.

(** ** The steps of a call *)
Section CallSteps.
Context (regexp_compile : string → option (string → bool)) (next_time : string → option Z)
  (error_text : QueueError → string) (s : System) (HI : Inv s).

Lemma call_after q' c p :
  Inv (set_queue q' s) → (∀ p', p = Some p' → may_call (set_queue q' s) c p') →
  Inv (set_call c p q' s).
Proof. intros H1 H2. exact (inv_call (set_queue q' s) c p H1 H2). Qed.

Lemma runs_only_inv {A} (m : QM A) q' r : runs_only m → m (sy_queue s) = (q', r) → Inv (set_queue q' s).
Proof.
  intros [Hf Ht Ha] Hm. specialize (Hf (sy_queue s)). specialize (Ht (sy_queue s)).
  specialize (Ha (sy_queue s)). rewrite Hm in Hf, Ht, Ha. apply inv_forward; [done..|].
  unfold queue_part. cbn in *. congruence.
Qed.

(** A call that holds nothing. *)
Lemma may_call_plain (s0 : System) c p :
  reserved p = None → (∀ job run, planned_for p = Some (job, run) → jr_JobID run = job_ID job) →
  (∀ job vms run, p ≠ Checked job vms run) → may_call s0 c p.
Proof.
  intros Hr Hp Hc. split; [done|..].
  - intros job vms run ->. by destruct (Hc job vms run).
  - by intros job vms run ->.
  - intros job. by rewrite Hr.
Qed.

Lemma plan_job_core now jobID by_ at_ : leaves core (plan_job regexp_compile now jobID by_ at_).
Proof. unfold plan_job, resolveVMs, ListVMs, GetBackupJob, query. leaves_view. Qed.

Lemma plan_job_run now jobID by_ at_ q q' job vms run :
  plan_job regexp_compile now jobID by_ at_ q = (q', Ok (job, vms, run)) → jr_JobID run = job_ID job.
Proof.
  intros Hrun. apply bind_ok in Hrun as (q1 & j & Hj & Hrun). destruct (_ && _); [done|].
  by apply bind_ok in Hrun as (q2 & v & Hv & [= <- <- <- <-]).
Qed.

Lemma call_start_only e jobID by_ at_ : runs_only (call_start regexp_compile e jobID by_ at_).
Proof.
  apply runs_only_bind; [apply runs_only_try, runs_only_core, plan_job_core|].
  intros [[[job vms] run]|]; [|apply runs_only_ret]. case_bool_decide; [|apply runs_only_ret].
  apply runs_only_bind; [auto with backup|intros ?; apply runs_only_ret].
Qed.

Lemma step_start e c jobID by_ at_ q' p :
  call_start regexp_compile e jobID by_ at_ (sy_queue s) = (q', Ok p) → Inv (set_call c p q' s).
Proof.
  intros Hrun. apply call_after; [eapply runs_only_inv; [apply call_start_only|exact Hrun]|]. intros p' ->.
  apply try_inv in Hrun as (q1 & [[[job vms] run]|] & Hp & Hrun); [|done].
  case_bool_decide; [by apply try_inv in Hrun as (q2 & r & _ & [=])|].
  injection Hrun as <- <-. apply plan_job_run in Hp.
  apply may_call_plain; [done|by intros j r0 [= <- <-]|done].
Qed.

Lemma step_check e c job vms run q' p :
  sy_calls s !! c = Some (Planned job vms run) →
  call_step next_time error_text e (Planned job vms run) (sy_queue s) = (q', Ok p) →
  Inv (set_call c p q' s).
Proof.
  intros Hc Hrun. apply try_inv in Hrun as (q1 & b & Hb & [= <- <-]).
  assert (Inv (set_queue q1 s)) as HI1
    by (eapply runs_only_inv; [apply runs_only_core, HasOpenBackupTasks_core|exact Hb]).
  apply HasOpenBackupTasks_run in Hb as [Hcore Hb].
  pose proof (inv_planned s HI _ _ _ _ Hc eq_refl) as Hj.
  apply call_after; [done|]. intros p' Hp'. destruct b as [[]|]; try done; injection Hp' as <-.
  - by apply may_call_plain.
  - split; cbn; [by intros ?? [= <- <-]| |done..].
    intros ??? [= <- <- <-] t Hin Ho Heq. rewrite (core_tasks _ _ Hcore) in Hin.
    eapply no_open_task; [by symmetry|done..|by left|by right].
Qed.

Lemma step_reserve e c job vms run q' p :
  sy_calls s !! c = Some (Checked job vms run) →
  call_step next_time error_text e (Checked job vms run) (sy_queue s) = (q', Ok p) →
  Inv (set_call c p q' s).
Proof.
  intros Hc Hrun. pose proof (inv_planned s HI _ _ _ _ Hc eq_refl) as Hj.
  cbn [call_step] in Hrun. unfold claimJob in Hrun. revert Hrun. run_st.
  case_bool_decide as Ha; intros [= <- <-].
  - apply (inv_call s); [done|]. intros p' [= <-]. by apply may_call_plain.
  - change (with_active _ _) with (sy_queue (mark_with (λ a, {[job_ID job]} ∪ a) s)).
    apply (call_after (sy_queue (mark_with _ s))).
    + apply (inv_mark (λ a, {[job_ID job]} ∪ a) s HI). intros j Hin. left. set_solver.
    + intros p' [= <-]. split; cbn; [by intros ?? [= <- <-]|done..|]. intros j [= <-].
      split; [set_solver|]. intros h Hh. apply (holds_mark (λ a, {[job_ID job]} ∪ a) s) in Hh.
      destruct Hh as [t Hin Ho Heq|h Hm].
      * by destruct (inv_checked s HI _ _ _ _ _ Hc Ha Hin Ho).
      * by apply (inv_active s HI) in Hm.
Qed.

Lemma step_refuse e c run q' p :
  sy_calls s !! c = Some (Refusing run) →
  call_step next_time error_text e (Refusing run) (sy_queue s) = (q', Ok p) →
  Inv (set_call c p q' s).
Proof.
  intros Hc Hrun. apply try_inv in Hrun as (q1 & b & Hb & [= <- <-]). apply call_after; [|done].
  eapply runs_only_inv; [|exact Hb]. unfold refuse_busy. apply CreateBackupJobRun_only.
Qed.

(** What holds a job once its call is gone. *)
Lemma call_releases c p job :
  sy_calls s !! c = Some p → reserved p = Some job →
  ∀ h, ¬ holds (set_call c None (sy_queue s) s) job h.
Proof.
  intros Hc Hr h Hh.
  assert (holds s job (ByCall c)) as Hmine by by eapply holds_marked, marked_call.
  assert (∀ o q, partial_alter (λ _, None) c (sy_calls s) !! o = Some q → o ≠ c ∧ sy_calls s !! o = Some q) as Hback.
  { intros o q Ho. destruct (decide (o = c)) as [->|Hne].
    - by rewrite lookup_partial_alter_eq in Ho.
    - by rewrite lookup_partial_alter_ne in Ho. }
  destruct Hh as [u Hin Ho Hj|h [o q u Ho Hcd Hj Hs|o u Ho Hj|o q Ho Hres]]; cbn in *.
  - assert (ByRun (tk_JobRunID u) = ByCall c); [|done]. eapply (inv_one s HI); [by apply holds_open|done].
  - assert (ByRun (tk_JobRunID u) = ByCall c); [|done].
    eapply (inv_one s HI); [by eapply holds_marked, marked_candidate|done].
  - assert (ByRun (tk_JobRunID u) = ByCall c); [|done].
    eapply (inv_one s HI); [by eapply holds_marked, marked_elected|done].
  - apply Hback in Ho as [Hne Ho]. assert (ByCall o = ByCall c) as [= Heq]; [|done].
    eapply (inv_one s HI); [by eapply holds_marked, marked_call|done].
Qed.

(** The end of a call that gives the job back. *)
Lemma call_gives_back c p job q' :
  sy_calls s !! c = Some p → reserved p = Some job → forward (sy_queue s) q' →
  qu_tasks q' = qu_tasks (sy_queue s) → qu_active q' = qu_active (sy_queue s) ∖ {[job]} →
  Inv (set_call c None q' s).
Proof.
  intros Hc Hr Hf Ht Ha. set (s1 := set_call c None (sy_queue s) s).
  assert (Inv s1) as HI1 by by apply inv_call.
  assert (Inv (mark_with (λ a, a ∖ {[job]}) s1)) as HI2.
  { apply inv_mark; [done|]. intros j Hj. destruct (decide (j = job)) as [->|]; [right|left; set_solver].
    by eapply call_releases. }
  apply (inv_forward _ q' HI2); [exact Hf|]. unfold queue_part. cbn. congruence.
Qed.

Lemma step_record e c job vms run q' p :
  sy_calls s !! c = Some (Reserved job vms run) →
  call_step next_time error_text e (Reserved job vms run) (sy_queue s) = (q', Ok p) →
  Inv (set_call c p q' s).
Proof.
  intros Hc Hrun. pose proof (inv_planned s HI _ _ _ _ Hc eq_refl) as Hj.
  apply try_inv in Hrun as (q1 & [jr|err] & Hb & [= <- <-]); apply record_job_run_run in Hb; cycle 1.
  { destruct Hb as (Hr & Ht & Ha). eapply call_gives_back; [exact Hc|done| |done..].
    intros id r Hid. exists r. by rewrite Hr. }
  destruct Hb as (Hjr & Hnone & Hruns & [= Ht Ha]).
  assert (forward (sy_queue s) q1) as Hf.
  { intros id r Hid. exists r. rewrite Hruns, lookup_insert_ne; [done|]. intros <-. congruence. }
  assert (Inv (set_queue q1 s)) as HI1 by (apply inv_forward; [done..|unfold queue_part; congruence]).
  apply call_after; [done|]. intros p' [= <-]. split; cbn; [intros ?? [= <- <-]; congruence|done|..].
  - intros ??? [= <- <- <-]. unfold job_of. rewrite Hruns, lookup_insert_eq. cbn. split; [congruence|].
    intros t Hin Heq. rewrite Ht in Hin. destruct (inv_rows s HI t Hin) as (Hjob & _).
    unfold job_of in Hjob. by rewrite Heq, Hnone in Hjob.
  - intros j [= <-]. rewrite Ha.
    assert (marked s (job_ID job) (ByCall c)) as Hm by by eapply marked_call.
    split; [by eapply (inv_active s HI)|]. intros h Hh. eapply (inv_one s HI); [|by apply holds_marked].
    by eapply (holds_forward s q1).
Qed.

Lemma step_enqueue e c job vms run q' p :
  sy_calls s !! c = Some (Recorded job vms run) →
  call_step next_time error_text e (Recorded job vms run) (sy_queue s) = (q', Ok p) →
  Inv (set_call c p q' s).
Proof.
  intros Hc Hrun. apply try_inv in Hrun as (q1 & b & Hb & [= <- <-]).
  apply enqueue_job_run in Hb. destruct b as [[]|err]; cycle 1.
  { destruct Hb as (Hf & Ht & Ha). by eapply call_gives_back. }
  destruct Hb as (Hr & Ha & Hnd & rows & Ht & Hrows).
  destruct (inv_recorded s HI _ _ _ _ Hc) as [Hjob Hnew].
  set (s1 := set_call c None (sy_queue s) s). assert (Inv s1) as HI1 by by apply inv_call.
  apply (inv_enqueue s1 q1 job run rows HI1); try done.
  - eapply (inv_active s HI). by eapply marked_call.
  - by eapply call_releases.
  - apply Hnd, HI.
Qed.
End CallSteps.

(** ** Any sequence of steps *)
Section Steps.
Context (regexp_compile : string → option (string → bool)) (next_time : string → option Z)
  (error_text : QueueError → string).

Abbreviation sys_step := (step regexp_compile next_time error_text).
Abbreviation moves := (moves regexp_compile next_time error_text).

Lemma inv_worker_step s now owner q' p :
  Inv s → owner ≠ ""%string →
  worker_step next_time now owner (sy_workers s !! owner) (sy_queue s) = (q', Ok p) →
  Inv (set_worker owner p q' s).
Proof.
  intros HI Hne Hrun. destruct (sy_workers s !! owner) as [[t|t|t|t st x|t|t|t|t]|] eqn:Hw.
  - by eapply step_take.
  - injection Hrun as <- <-. rewrite <-Hw. unfold set_worker.
    replace (partial_alter (λ _, sy_workers s !! owner) owner (sy_workers s)) with (sy_workers s);
      [by destruct s|]. by rewrite partial_alter_self.
  - injection Hrun as <- <-. rewrite <-Hw. unfold set_worker.
    replace (partial_alter (λ _, sy_workers s !! owner) owner (sy_workers s)) with (sy_workers s);
      [by destruct s|]. by rewrite partial_alter_self.
  - by eapply step_finish.
  - by eapply step_count.
  - by eapply step_elect.
  - by eapply step_release.
  - apply bind_inv in Hrun as [(q1 & [] & Hsum & [= <- <-])|(q1 & x & _ & [=])].
    apply phase_gone. eapply (runs_only_inv s HI); [apply summarize_only|exact Hsum].
  - by eapply step_claim.
Qed.

(** From waiting for a slot to work, to its end: the same task in the same hands. *)
Lemma inv_same_task s owner p p' :
  Inv s → sy_workers s !! owner = Some p → at_work p = true → at_work p' = true →
  task_of p' = task_of p → outcome_ok p' → Inv (set_worker owner (Some p') (sy_queue s) s).
Proof.
  intros HI Hw Hp Hp' Heq Hout. destruct (inv_work s HI _ _ Hw) as (Hne & _ & Hrow).
  apply inv_worker; [done|]. intros p1 [= <-]. split; rewrite ?Heq; try done.
  - by destruct p'.
  - intros _ t. by apply (inv_lease s HI).
  - by destruct p'.
  - destruct p'; cbn; try done; intros [[[? [=]] _]|[=]].
Qed.

(** The slots matter to no other part. *)
Lemma inv_slots s slots :
  Inv s → Inv (mkSystem (sy_queue s) (sy_workers s) (sy_calls s) slots).
Proof.
  intros HI. assert (∀ job h, marked (mkSystem (sy_queue s) (sy_workers s) (sy_calls s) slots) job h →
    marked s job h) as Hm.
  { intros job h [o p t Ho Hc Hj Hs|o t Ho Hj|o p Hc Hr]; cbn in *;
      [by eapply marked_candidate|by eapply marked_elected|by eapply marked_call]. }
  split; cbn; try apply HI.
  - intros job h h' H1 H2. apply (inv_one s HI job).
    + destruct H1; [by apply holds_open|by apply holds_marked, Hm].
    + destruct H2; [by apply holds_open|by apply holds_marked, Hm].
  - intros job h H1. by eapply (inv_active s HI), Hm.
Qed.

Lemma inv_step s s' : Inv s → sys_step s s' → Inv s'.
Proof.
  intros HI Hstep. destruct Hstep as
    [now owner q' p Hne Hrun|owner t Hw Hslot|owner t q' st x Hw Hst (Hr & Ht & Ha)|now owner t Hw
    |owner t Hw|e c jobID by_ at_ q' p Hc Hrun|e c p q' p' Hc Hrun|now run target|q' (Hr & Ht & Ha)].
  - by eapply inv_worker_step.
  - apply (inv_slots (set_worker owner (Some (Executing t)) (sy_queue s) s)).
    by eapply inv_same_task.
  - eapply (inv_same_task (set_queue q' s) owner (Executing t)); try done.
    apply inv_forward; [done| |unfold queue_part; congruence]. intros id r Hid. exists r. by rewrite Hr.
  - destruct (RenewBackupTaskLease now (tk_ID t) owner backupTaskLease (sy_queue s)) as [q' r] eqn:Hn.
    apply RenewBackupTaskLease_run in Hn as (f & Hrows & Hf).
    eapply inv_rows_by; [done|exact Hrows|]. intros u Hin. destruct (Hf u) as [Hs Ho].
    unfold task_open. rewrite Hs, Ho. split_and!; [done|by apply (inv_rows s HI)|by left].
  - by apply (inv_worker s).
  - by eapply step_start.
  - destruct p.
    + by eapply step_check.
    + by eapply step_reserve.
    + by eapply step_refuse.
    + by eapply step_record.
    + by eapply step_enqueue.
  - destruct (recalculateJobRun now run target (sy_queue s)) as [q' r] eqn:Hn.
    eapply (runs_only_inv s HI); [apply recalculateJobRun_only|exact Hn].
  - apply inv_forward; [done| |unfold queue_part; congruence]. intros id r Hid. exists r. by rewrite Hr.
Qed.

(** The recovery touches the runs of jobs only, and takes marks away. *)
Lemma recover_run_keeps now run :
  forwards (recover_run next_time now run) ∧ leaves qu_tasks (recover_run next_time now run)
  ∧ keeps (λ q, qu_active q = ∅) (recover_run next_time now run).
Proof.
  assert (∀ A (m : QM A), runs_only m → keeps (λ q, qu_active q = ∅) m) as Hk.
  { intros A m [_ _ Ha] q Hq. by rewrite Ha. }
  assert (∀ job, keeps (λ q, qu_active q = ∅) (releaseJob job)) as Hrel.
  { intros job q Hq. rewrite releaseJob_run. cbn. rewrite Hq. set_solver. }
  assert (runs_only (if bool_decide (jr_Status run = RunRunning)
    then ClaimBackupJobRunFinalization (jr_ID run) else mret true)) as Hclaim
    by (case_bool_decide; auto with backup).
  assert (∀ task, runs_only (match tk_Payload task with
    | Some p => mret (qt_Job p) | None => GetBackupJob (jr_JobID run) end)) as Hjob
    by (intros task; destruct (tk_Payload task); auto with backup).
  assert (runs_only (try (GetBackupTaskForJobRun (jr_ID run)))) as Htask by auto with backup.
  unfold recover_run. split_and!.
  - apply forwards_bind; [apply runs_only_core, HasOpenBackupTasks_core|intros []; [by intros q|]].
    apply forwards_bind; [apply Hclaim|intros []; [|by intros q]].
    apply forwards_bind; [apply Htask|intros [task|]; [|by intros q]].
    apply forwards_bind; [apply Hjob|intros job].
    apply forwards_bind; [by apply forwards_same|intros _; apply finishJob_only].
  - apply leaves_bind; [apply runs_only_core, HasOpenBackupTasks_core|intros []; [done|]].
    apply leaves_bind; [apply Hclaim|intros []; [|done]].
    apply leaves_bind; [apply Htask|intros [task|]; [|done]].
    apply leaves_bind; [apply Hjob|intros job].
    apply leaves_bind; [done|intros _; apply finishJob_only].
  - apply keeps_bind; [apply Hk, runs_only_core, HasOpenBackupTasks_core|intros []; [apply keeps_ret|]].
    apply keeps_bind; [apply Hk, Hclaim|intros []; [|apply keeps_ret]].
    apply keeps_bind; [apply Hk, Htask|intros [task|]; [|apply keeps_ret]].
    apply keeps_bind; [apply Hk, Hjob|intros job].
    apply keeps_bind; [apply Hrel|intros _; apply Hk, finishJob_only].
Qed.

Lemma recover_keeps now :
  forwards (recoverTaskFinalizations next_time now)
  ∧ leaves qu_tasks (recoverTaskFinalizations next_time now)
  ∧ keeps (λ q, qu_active q = ∅) (recoverTaskFinalizations next_time now).
Proof.
  pose proof (runs_only_core _ (ListBackupJobRuns_core unfinished_job_runs)) as [Hf Ht Ha].
  unfold recoverTaskFinalizations. split_and!.
  - apply forwards_bind; [done|intros runs]. apply forwards_for_each. intros r. apply recover_run_keeps.
  - apply leaves_bind; [done|intros runs]. induction runs as [|r runs IH]; cbn; [done|].
    apply leaves_bind; [apply recover_run_keeps|intros _; exact IH].
  - apply keeps_bind; [intros q Hq; by rewrite Ha|intros runs].
    apply keeps_for_each. intros r _. apply recover_run_keeps.
Qed.

Lemma inv_restart s now : Inv s → Inv (restarted next_time now s).
Proof.
  intros HI. destruct (recover_keeps now) as (Hf & Ht & Ha).
  set (q0 := with_active ∅ (sy_queue s)). specialize (Hf q0). specialize (Ht q0).
  specialize (Ha q0 eq_refl). unfold restarted. fold q0.
  set (q1 := (recoverTaskFinalizations next_time now q0).1) in *.
  assert (∀ job h, ¬ marked (mkSystem q1 ∅ ∅ ∅) job h) as Hm.
  { intros job h [o p t Ho|o t Ho|c p Hc]; cbn in *; by simplify_map_eq. }
  split; cbn; try (by intros; simplify_map_eq).
  - rewrite Ht. apply HI.
  - intros t Hin. rewrite Ht in Hin. destruct (inv_rows s HI t Hin) as (Hj & Hp & Ho).
    split_and!; [|done..]. by apply (forward_job _ _ _ _ Hf).
  - intros job h h' H1 H2. apply (inv_one s HI job).
    + destruct H1 as [t Hin Ho Hj|h Hh]; [|by apply Hm in Hh]. cbn in Hin. rewrite Ht in Hin. by apply holds_open.
    + destruct H2 as [t Hin Ho Hj|h' Hh]; [|by apply Hm in Hh]. cbn in Hin. rewrite Ht in Hin. by apply holds_open.
  - intros job h Hh. by apply Hm in Hh.
Qed.

Lemma inv_moves s s' : Inv s → rtc moves s s' → Inv s'.
Proof.
  intros HI Hrtc. induction Hrtc as [|s s1 s' [s2 Hs|now] _ IH]; [done|..]; apply IH.
  - by eapply inv_step.
  - by apply inv_restart.
Qed.

(** C10. However many workers and calls run, whatever statements and leases fail,
    and across restarts of the process: two tasks of one job that are open at the same
    moment belong to the same run. (A worker that has lost its lease may still be at
    work on a task that others have ended since: the claim is about the tasks, not
    about what such a worker does.) *)
Theorem runs_exclusive q s t u :
  qu_tasks q = [] → rtc moves (first_start q) s →
  t ∈ qu_tasks (sy_queue s) → u ∈ qu_tasks (sy_queue s) →
  task_open t = true → task_open u = true → tk_JobID t = tk_JobID u →
  tk_JobRunID t = tk_JobRunID u.
Proof.
  intros Hq Hrtc Ht Hu Hto Huo Hj. pose proof (inv_moves _ _ (inv_start q Hq) Hrtc) as HI.
  assert (ByRun (tk_JobRunID t) = ByRun (tk_JobRunID u)) as [=]; [|done].
  apply (inv_one s HI (tk_JobID u)); by apply holds_open.
Qed.
End Steps.
