(* ===== verification/Stuck.v ===== *)
(** What becomes of a job when the outcome of its run is written while tasks of
    the run are still open: the finalization is never won, the mark stays, and
    every later start of the job is refused until the process is restarted. *)

From S2P Require Import Prelude StateM GoTime GoStr Model Format Catalog Replicas Plan Jobs Replicator JobQueue.
From S2P Require Import Workers WorkerFacts Exclusive.

(** The job is marked, no call or worker is about to release it, and no open task
    belongs to a run that could still be finished. *)
Record Stuck (job : string) (s : System) : Prop := {
  st_active : job ∈ qu_active (sy_queue s);
  st_marked : ∀ h, ¬ marked s job h;
  st_open : ∀ t, t ∈ qu_tasks (sy_queue s) → task_open t = true → tk_JobID t = job →
    status_of (sy_queue s) (tk_JobRunID t) ≠ Some RunRunning
}.

(** No task of the job that was not there before. *)
Definition no_new_task (job : string) (s s' : System) : Prop :=
  ∀ u, u ∈ qu_tasks (sy_queue s') → tk_JobID u = job →
    ∃ t, t ∈ qu_tasks (sy_queue s) ∧ identity u = identity t.

#[export] Instance no_new_task_preorder job : PreOrder (no_new_task job).
Proof.
  split.
  - intros s u Hu _. by exists u.
  - intros s1 s2 s3 H12 H23 u Hu Hj. destruct (H23 u Hu Hj) as (t & Ht & Hid).
    destruct (H12 t Ht) as (t' & Ht' & Hid'); [|exists t'; by rewrite Hid].
    apply identity_fields in Hid as (_ & _ & Heq & _). congruence.
Qed.

Definition stays_stuck (job : string) (s s' : System) : Prop := Stuck job s' ∧ no_new_task job s s'.

Section Stuck.
Context (job : string) (s : System) (HI : Inv s) (HS : Stuck job s).

(** The queue changes, the phases stay. *)
Lemma stuck_queue q' :
  forward (sy_queue s) q' → job ∈ qu_active q' →
  (∀ u, u ∈ qu_tasks q' → tk_JobID u = job →
     ∃ t, t ∈ qu_tasks (sy_queue s) ∧ identity u = identity t ∧ (task_open u = true → task_open t = true)) →
  stays_stuck job s (set_queue q' s).
Proof.
  intros Hf Ha Hrows. split; [split|].
  - done.
  - intros h Hm. apply (st_marked _ _ HS h). destruct Hm as [o p t Ho Hc Hj Hs|o t Ho Hj|c p Hc Hr]; cbn in *.
    + eapply marked_candidate; try done. eapply forward_status; [exact Hf| |exact Hs].
      apply candidate_task in Hc as <-. by destruct (work_job _ _ _ HI Ho) as [-> _].
    + by eapply marked_elected.
    + by eapply marked_call.
  - cbn. intros u Hin Ho Hj Hs. destruct (Hrows u Hin Hj) as (t & Ht & Hid & Hopen).
    apply identity_fields in Hid as (_ & Hrun & Hjob & _).
    apply (st_open _ _ HS t Ht); [by apply Hopen|congruence|]. rewrite <-Hrun.
    eapply forward_status; [exact Hf| |exact Hs]. destruct (inv_rows s HI t Ht) as (Hjb & _).
    by rewrite Hrun, Hjb.
  - intros u Hu Hj. destruct (Hrows u Hu Hj) as (t & Ht & Hid & _). by exists t.
Qed.

(** Any operation on the runs of jobs. *)
Lemma stuck_runs_only {A} (m : QM A) q' r :
  runs_only m → m (sy_queue s) = (q', r) → stays_stuck job s (set_queue q' s).
Proof.
  intros [Hf Ht Ha] Hm. specialize (Hf (sy_queue s)). specialize (Ht (sy_queue s)).
  specialize (Ha (sy_queue s)). rewrite Hm in Hf, Ht, Ha. cbn in *. apply stuck_queue; [done| |].
  - rewrite Ha. apply HS.
  - intros u Hu _. rewrite Ht in Hu. by exists u.
Qed.

Lemma stuck_rows_by q' f :
  rows_by f (sy_queue s) q' →
  (∀ t, t ∈ qu_tasks (sy_queue s) → task_open (f t) = true → task_open t = true) →
  stays_stuck job s (set_queue q' s).
Proof.
  intros (Hr & Ha & Ht & Hid) Hf. apply stuck_queue.
  - intros id r Hlk. exists r. by rewrite Hr.
  - rewrite Ha. apply HS.
  - intros u Hu _. rewrite Ht in Hu. apply list_elem_of_fmap in Hu as (t & -> & Hin).
    exists t. split_and!; [done|by apply Hid|by apply Hf].
Qed.

(** Marks of other jobs come and go. *)
Lemma stuck_mark q' :
  qu_job_runs q' = qu_job_runs (sy_queue s) → qu_tasks q' = qu_tasks (sy_queue s) →
  job ∈ qu_active q' → stays_stuck job s (set_queue q' s).
Proof.
  intros Hr Ht Ha. apply stuck_queue; [|done|].
  - intros id r Hlk. exists r. by rewrite Hr.
  - intros u Hu _. rewrite Ht in Hu. by exists u.
Qed.
End Stuck.

(** A phase that does not hold the job. *)
Lemma stuck_worker job s owner p :
  Stuck job s →
  (∀ p', p = Some p' → tk_JobID (task_of p') = job → (∀ t, p' ≠ Elected t)
     ∧ (is_Some (counting_for p') → status_of (sy_queue s) (tk_JobRunID (task_of p')) ≠ Some RunRunning)) →
  Stuck job (set_worker owner p (sy_queue s) s).
Proof.
  intros HS Hp. split; cbn; try apply HS. intros h Hm.
  assert (∀ o p', partial_alter (λ _, p) owner (sy_workers s) !! o = Some p' →
    p = Some p' ∨ sy_workers s !! o = Some p') as Hback.
  { intros o p' Ho. destruct (decide (o = owner)) as [->|Hne].
    - rewrite lookup_partial_alter_eq in Ho. by left.
    - rewrite lookup_partial_alter_ne in Ho by done. by right. }
  destruct Hm as [o p' t Ho Hc Hj Hs|o t Ho Hj|c p' Hc Hr]; cbn in *.
  - destruct (Hback _ _ Ho) as [Heq|Ho']; [|by eapply (st_marked _ _ HS), marked_candidate].
    apply candidate_task in Hc as Ht. subst t. by destruct (Hp _ Heq Hj) as [_ []].
  - destruct (Hback _ _ Ho) as [Heq|Ho']; [|by eapply (st_marked _ _ HS), marked_elected].
    by destruct (Hp _ Heq Hj) as [Hne _], (Hne t).
  - by eapply (st_marked _ _ HS), marked_call.
Qed.

Lemma stuck_call job s c p :
  Stuck job s → (∀ p', p = Some p' → reserved p' ≠ Some job) →
  Stuck job (set_call c p (sy_queue s) s).
Proof.
  intros HS Hp. split; cbn; try apply HS. intros h Hm.
  destruct Hm as [o p' t Ho Hc Hj Hs|o t Ho Hj|o p' Hc Hr]; cbn in *.
  - by eapply (st_marked _ _ HS), marked_candidate.
  - by eapply (st_marked _ _ HS), marked_elected.
  - destruct (decide (o = c)) as [->|Hne].
    + rewrite lookup_partial_alter_eq in Hc. by destruct (Hp _ Hc).
    + rewrite lookup_partial_alter_ne in Hc by done. by eapply (st_marked _ _ HS), marked_call.
Qed.

(** A step of a worker and one of a call, from their two halves. *)
Lemma stuck_work_step job s owner p q' :
  stays_stuck job s (set_queue q' s) →
  (∀ p', p = Some p' → tk_JobID (task_of p') = job → (∀ t, p' ≠ Elected t)
     ∧ (is_Some (counting_for p') → status_of q' (tk_JobRunID (task_of p')) ≠ Some RunRunning)) →
  stays_stuck job s (set_worker owner p q' s).
Proof. intros [HS Hn] Hp. split; [|done]. exact (stuck_worker job (set_queue q' s) owner p HS Hp). Qed.

Lemma stuck_call_step job s c p q' :
  stays_stuck job s (set_queue q' s) → (∀ p', p = Some p' → reserved p' ≠ Some job) →
  stays_stuck job s (set_call c p q' s).
Proof. intros [HS Hn] Hp. split; [|done]. exact (stuck_call job (set_queue q' s) c p HS Hp). Qed.

Section StuckSteps.
Context (regexp_compile : string → option (string → bool)) (next_time : string → option Z)
  (error_text : QueueError → string) (job : string) (s : System) (HI : Inv s) (HS : Stuck job s).

Abbreviation sys_step := (step regexp_compile next_time error_text).

Lemma plain_phase q' (p : Worker) :
  counting_for p = None → (∀ t, p ≠ Elected t) →
  (∀ t, p ≠ Elected t)
  ∧ (is_Some (counting_for p) → status_of q' (tk_JobRunID (task_of p)) ≠ Some RunRunning).
Proof. intros Hc He. split; [done|]. rewrite Hc. by intros []. Qed.

Lemma stuck_finish now owner t status err q' p :
  sy_workers s !! owner = Some (Ended t status err) →
  worker_step next_time now owner (Some (Ended t status err)) (sy_queue s) = (q', Ok p) →
  stays_stuck job s (set_worker owner p q' s).
Proof.
  intros Hw Hrun. apply try_inv in Hrun as (q1 & [[]|x] & Hc & [= <- <-]);
    apply FinishBackupTask_run in Hc; cycle 1.
  { apply stuck_work_step; [|done]. by eapply stuck_rows_by. }
  destruct Hc as [Hrows (u & Hin & Hid & How)].
  destruct (inv_work s HI _ _ Hw) as (Hne & Hout & v & Hin' & Hids). cbn in Hout.
  apply identity_fields in Hids as (Hi1 & Hi2 & Hi3 & _). cbn in Hi1, Hi2, Hi3.
  assert (v = u) as -> by (apply (task_by_id _ _ _ (inv_ids s HI)); congruence).
  apply stuck_work_step.
  - eapply stuck_rows_by; [done..|exact Hrows|]. intros w _. cbn.
    destruct (owned_task _ _ _); [|done]. unfold task_open. cbn. by destruct Hout as [-> | ->].
  - intros p' [= <-] Hj. split; [done|]. intros _. cbn in *.
    destruct Hrows as (Hr & _). unfold status_of. rewrite Hr.
    rewrite <-Hi2. apply (st_open _ _ HS u Hin); [|congruence].
    apply (inv_rows s HI u Hin). congruence.
Qed.

Lemma stuck_worker_step now owner q' p :
  owner ≠ ""%string →
  worker_step next_time now owner (sy_workers s !! owner) (sy_queue s) = (q', Ok p) →
  stays_stuck job s (set_worker owner p q' s).
Proof.
  intros Hne Hrun.
  destruct (sy_workers s !! owner) as [[t|t|t|t st x|t|t|t|t]|] eqn:Hw; cbn [worker_step] in Hrun.
  - destruct (work_job s _ _ HI Hw) as [_ [d Hd]]. cbn in Hd. rewrite Hd in Hrun.
    rewrite get_run in Hrun. injection Hrun as <- <-. apply stuck_work_step.
    + apply stuck_mark; [done..|]. cbn. pose proof (st_active _ _ HS). set_solver.
    + intros p' [= <-] _. by apply plain_phase.
  - injection Hrun as <- <-. apply stuck_work_step; [apply stuck_mark; [done..|apply HS]|].
    intros p' [= <-] _. by apply plain_phase.
  - injection Hrun as <- <-. apply stuck_work_step; [apply stuck_mark; [done..|apply HS]|].
    intros p' [= <-] _. by apply plain_phase.
  - by eapply stuck_finish.
  - apply try_inv in Hrun as (q1 & b & Hb & [= <- <-]). apply stuck_work_step.
    + eapply stuck_runs_only; [done..|apply runs_only_core, HasOpenBackupTasks_core|exact Hb].
    + apply HasOpenBackupTasks_run in Hb as [Hcore _]. intros p' Hp' Hj.
      destruct b as [[]|]; try done. injection Hp' as <-. split; [done|]. intros _ Hs.
      unfold status_of in Hs. rewrite (core_runs _ _ Hcore) in Hs.
      by eapply (st_marked _ _ HS), (marked_candidate s job owner (Counting t) t).
  - apply try_inv in Hrun as (q1 & b & Hb & [= <- <-]). apply stuck_work_step.
    + eapply stuck_runs_only; [done..|apply ClaimBackupJobRunFinalization_only|exact Hb].
    + intros p' Hp' Hj. destruct b as [[]|]; try done. injection Hp' as <-. exfalso.
      apply ClaimBackupJobRunFinalization_won in Hb as [Hs _].
      by eapply (st_marked _ _ HS), (marked_candidate s job owner (Electing t) t).
  - rewrite (bind_run _ _ _ _ _ (releaseJob_run _ _)) in Hrun. injection Hrun as <- <-.
    apply stuck_work_step; [|intros p' [= <-] _; by apply plain_phase].
    apply stuck_mark; [done..|]. cbn. pose proof (st_active _ _ HS).
    assert (tk_JobID t ≠ job); [|set_solver].
    intros Hj. by eapply (st_marked _ _ HS), marked_elected.
  - apply bind_inv in Hrun as [(q1 & [] & Hsum & [= <- <-])|(q1 & x & _ & [=])].
    apply stuck_work_step; [|done]. by eapply stuck_runs_only; [..|apply summarize_only|exact Hsum].
  - apply try_inv in Hrun as (q1 & ts & Hc & [= <- <-]).
    apply ClaimBackupTasks_run in Hc as (f & Hrows & Hf & _); [|apply HI]. apply stuck_work_step.
    + eapply stuck_rows_by; [done..|exact Hrows|]. intros u Hu. by destruct (Hf u Hu) as [->|[? _]].
    + intros p' Hp' _. destruct ts as [[|u ts]|]; try done. injection Hp' as <-. by apply plain_phase.
Qed.

(** A call of another job. *)
Lemma other_call c p other :
  sy_calls s !! c = Some p → reserved p = Some other → other ≠ job.
Proof. intros Hc Hr ->. by eapply (st_marked _ _ HS), marked_call. Qed.

Lemma stuck_given_back other q' :
  other ≠ job → forward (sy_queue s) q' → qu_tasks q' = qu_tasks (sy_queue s) →
  qu_active q' = qu_active (sy_queue s) ∖ {[other]} → stays_stuck job s (set_queue q' s).
Proof.
  intros Hne Hf Ht Ha. apply stuck_queue; [done..| |].
  - rewrite Ha. pose proof (st_active _ _ HS). set_solver.
  - intros u Hu _. rewrite Ht in Hu. by exists u.
Qed.

Lemma stuck_called e c p q' p' :
  sy_calls s !! c = Some p → call_step next_time error_text e p (sy_queue s) = (q', Ok p') →
  stays_stuck job s (set_call c p' q' s).
Proof.
  intros Hc Hrun. destruct p as [jb vms run|jb vms run|run|jb vms run|jb vms run]; cbn [call_step] in Hrun.
  - apply try_inv in Hrun as (q1 & b & Hb & [= <- <-]). apply stuck_call_step.
    + eapply stuck_runs_only; [done..|apply runs_only_core, HasOpenBackupTasks_core|exact Hb].
    + intros p1 Hp1. by destruct b as [[]|]; try done; injection Hp1 as <-.
  - unfold claimJob in Hrun. revert Hrun. run_st. case_bool_decide as Ha; intros [= <- <-].
    + apply stuck_call_step; [apply stuck_mark; [done..|apply HS]|]. by intros p1 [= <-].
    + apply stuck_call_step.
      * apply stuck_mark; [done..|]. cbn. pose proof (st_active _ _ HS). set_solver.
      * intros p1 [= <-] [= Heq]. rewrite Heq in Ha. by apply Ha, HS.
  - apply try_inv in Hrun as (q1 & b & Hb & [= <- <-]). apply stuck_call_step; [|done].
    eapply stuck_runs_only; [done..| |exact Hb]. apply CreateBackupJobRun_only.
  - pose proof (other_call _ _ _ Hc eq_refl) as Hne.
    apply try_inv in Hrun as (q1 & [jr|err] & Hb & [= <- <-]); apply record_job_run_run in Hb.
    + destruct Hb as (_ & Hnone & Hruns & [= Ht Ha]). apply stuck_call_step.
      * apply stuck_queue; [done..| | |].
        -- intros id r Hid. exists r. rewrite Hruns, lookup_insert_ne; [done|]. intros <-. congruence.
        -- rewrite Ha. apply HS.
        -- intros u Hu _. rewrite Ht in Hu. by exists u.
      * intros p1 [= <-] [= Heq]. done.
    + destruct Hb as (Hr & Ht & Ha). apply stuck_call_step; [|done].
      eapply stuck_given_back; [exact Hne| |done..]. intros id r Hid. exists r. by rewrite Hr.
  - pose proof (other_call _ _ _ Hc eq_refl) as Hne.
    apply try_inv in Hrun as (q1 & [[]|err] & Hb & [= <- <-]); apply enqueue_job_run in Hb.
    + destruct Hb as (Hr & Ha & _ & rows & Ht & Hrows). apply stuck_call_step; [|done].
      apply stuck_queue; [done..| | |].
      * intros id r Hid. exists r. by rewrite Hr.
      * rewrite Ha. apply HS.
      * intros u Hu Hj. rewrite Ht in Hu. apply elem_of_app in Hu as [Hu|Hu]; [by exists u|].
        destruct (Hrows u Hu) as (_ & Hj' & _). congruence.
    + destruct Hb as (Hf & Ht & Ha). apply stuck_call_step; [|done]. by eapply stuck_given_back.
Qed.

Lemma stuck_step s' : sys_step s s' → stays_stuck job s s'.
Proof.
  intros Hstep. destruct Hstep as
    [now owner q' p Hne Hrun|owner t Hw Hslot|owner t q' st x Hw Hst (Hr & Ht & Ha)|now owner t Hw
    |owner t Hw|e c jobID by_ at_ q' p Hc Hrun|e c p q' p' Hc Hrun|now run target|q' (Hr & Ht & Ha)].
  - by eapply stuck_worker_step.
  - destruct (stuck_work_step job s owner (Some (Executing t)) (sy_queue s)) as [HS1 Hn1].
    { apply stuck_mark; [done..|apply HS]. }
    { intros p' [= <-] _. by apply plain_phase. }
    split; [|exact Hn1]. split; [apply HS1| |apply HS1]. intros h Hm. apply (st_marked _ _ HS1 h).
    destruct Hm; [by eapply marked_candidate|by eapply marked_elected|by eapply marked_call].
  - apply stuck_work_step.
    + apply stuck_mark; [done..|]. rewrite Ha. apply HS.
    + intros p' [= <-] _. by apply plain_phase.
  - destruct (RenewBackupTaskLease now (tk_ID t) owner backupTaskLease (sy_queue s)) as [q' r] eqn:Hn.
    apply RenewBackupTaskLease_run in Hn as (f & Hrows & Hf).
    eapply stuck_rows_by; [done..|exact Hrows|]. intros u _. unfold task_open. by destruct (Hf u) as [-> _].
  - apply stuck_work_step; [|done]. apply stuck_mark; [done..|apply HS].
  - apply stuck_call_step; [by eapply stuck_runs_only; [..|apply (call_start_only regexp_compile)|exact Hrun]|].
    intros p1 ->. apply try_inv in Hrun as (q1 & [[[jb vms] run]|] & Hp & Hrun); [|done].
    case_bool_decide; [by apply try_inv in Hrun as (q2 & r & _ & [=])|]. by injection Hrun as <- <-.
  - by eapply stuck_called.
  - destruct (recalculateJobRun now run target (sy_queue s)) as [q' r] eqn:Hn.
    eapply stuck_runs_only; [done..|apply recalculateJobRun_only|exact Hn].
  - apply stuck_mark; [done..|]. rewrite Ha. apply HS.
Qed.
End StuckSteps.

Section Forever.
Context (regexp_compile : string → option (string → bool)) (next_time : string → option Z)
  (error_text : QueueError → string).

Lemma stuck_forever job s s' :
  Inv s → Stuck job s → rtc (step regexp_compile next_time error_text) s s' → stays_stuck job s s'.
Proof.
  intros HI HS Hrtc. induction Hrtc as [s|s s1 s' Hs _ IH]; [by split|].
  destruct (stuck_step _ _ _ job s HI HS s1 Hs) as [HS1 Hn1].
  destruct IH as [HS' Hn']; [by eapply inv_step|done|]. split; [done|by etrans].
Qed.

(** An outcome written too early: the run is the only holder of its job. *)
Lemma early_outcome_stuck s t :
  Inv s → t ∈ qu_tasks (sy_queue s) → task_open t = true → tk_JobID t ∈ qu_active (sy_queue s) →
  status_of (sy_queue s) (tk_JobRunID t) ≠ Some RunRunning → Stuck (tk_JobID t) s.
Proof.
  intros HI Ht Ho Ha Hs.
  assert (∀ h, holds s (tk_JobID t) h → h = ByRun (tk_JobRunID t)) as Hone.
  { intros h Hh. eapply (inv_one s HI); [exact Hh|by apply holds_open]. }
  split; [done| |].
  - intros h Hm. pose proof (Hone _ (holds_marked _ _ _ Hm)) as Heq.
    destruct Hm as [o p u Hp Hc Hj Hrun|o u Hp Hj|c p Hp Hr]; try injection Heq as Heq.
    + by rewrite Heq in Hrun.
    + assert (task_open t = false); [|congruence].
      by apply (inv_none s HI _ (Elected u) t Hp eq_refl).
    + done.
  - intros u Hu Huo Hj. assert (ByRun (tk_JobRunID u) = ByRun (tk_JobRunID t)) as [= ->]; [|done].
    apply Hone. by apply holds_open.
Qed.

(** C27. If the outcome of a run is written while one of its tasks is still open,
    which is what the replicator does when a replica of one machine is ready
    before the backup of another, then in this life of the process the job stays
    marked as running: no later start queues a task for it, whatever happens. *)
Theorem early_outcome_blocks_job q s s' t :
  qu_tasks q = [] → rtc (moves regexp_compile next_time error_text) (first_start q) s →
  t ∈ qu_tasks (sy_queue s) → task_open t = true → tk_JobID t ∈ qu_active (sy_queue s) →
  status_of (sy_queue s) (tk_JobRunID t) ≠ Some RunRunning →
  rtc (step regexp_compile next_time error_text) s s' →
  tk_JobID t ∈ qu_active (sy_queue s')
  ∧ ∀ u, u ∈ qu_tasks (sy_queue s') → tk_JobID u = tk_JobID t →
      ∃ v, v ∈ qu_tasks (sy_queue s) ∧ tk_ID v = tk_ID u.
Proof.
  intros Hq Hrtc Ht Ho Ha Hs Hsteps.
  pose proof (inv_moves _ _ _ _ _ (inv_start q Hq) Hrtc) as HI.
  destruct (stuck_forever _ _ _ HI (early_outcome_stuck _ _ HI Ht Ho Ha Hs) Hsteps) as [HS Hn].
  split; [apply HS|]. intros u Hu Hj. destruct (Hn u Hu Hj) as (v & Hv & (Hid & _)%identity_fields). eauto.
Qed.
End Forever.
