(* ===== verification/LastWorker.v ===== *)
(** The last worker of a run finishes it, as long as statements succeed: no run
    is left behind in the running state when its tasks have ended. *)

From S2P Require Import Prelude StateM GoTime GoStr Model Format Catalog Replicas Plan Jobs Replicator JobQueue.
From S2P Require Import Workers WorkerFacts Exclusive.

(** No statement fails for now. *)
Definition calm (q : Queue) : Prop := ca_faults (qu_catalog q) = [].

Lemma query_calm q : calm q → query q = (q, Ok ()).
Proof.
  unfold calm, query, in_catalog, statement, attempt. intros ->. by destruct q.
Qed.

Lemma HasOpenBackupTasks_calm job run q :
  calm q → HasOpenBackupTasks job run q = (q, Ok (existsb (open_task_of job run) (qu_tasks q))).
Proof. intros Hq. unfold HasOpenBackupTasks. by rewrite (bind_run _ _ _ _ _ (query_calm q Hq)). Qed.

Lemma ClaimBackupJobRunFinalization_calm run q :
  calm q → status_of q run = Some RunRunning → ∃ q', ClaimBackupJobRunFinalization run q = (q', Ok true).
Proof.
  intros Hq Hs. unfold ClaimBackupJobRunFinalization, status_of in *.
  rewrite (bind_run _ _ _ _ _ (query_calm q Hq)), get_run.
  destruct (qu_job_runs q !! run) as [r|]; [|done]. injection Hs as Hs.
  rewrite bool_decide_eq_true_2 by done. eauto.
Qed.

(** ** Runs without open tasks *)
Definition ended (s : System) (run : string) : Prop :=
  ∀ u, u ∈ qu_tasks (sy_queue s) → tk_JobRunID u = run → task_open u = false.

Definition has_candidate (s : System) (run : string) : Prop :=
  ∃ owner p u, sy_workers s !! owner = Some p ∧ counting_for p = Some u ∧ tk_JobRunID u = run.

Definition covered (s : System) : Prop :=
  ∀ t, t ∈ qu_tasks (sy_queue s) → tk_JobRunID t ≠ ""%string → ended s (tk_JobRunID t) →
    status_of (sy_queue s) (tk_JobRunID t) = Some RunRunning → has_candidate s (tk_JobRunID t).

Lemma ended_or_open s run :
  ended s run ∨ ∃ v, v ∈ qu_tasks (sy_queue s) ∧ tk_JobRunID v = run ∧ task_open v = true.
Proof.
  destruct (existsb (λ v, task_open v && bool_decide (tk_JobRunID v = run)) (qu_tasks (sy_queue s))) eqn:He.
  - right. apply existsb_exists in He as (v & Hv & Hc). apply andb_true_iff in Hc as [Ho Hr].
    exists v. by apply list_elem_of_In in Hv; apply bool_decide_eq_true in Hr.
  - left. intros u Hu Hr. apply not_true_is_false. intros Ho.
    assert (existsb (λ v, task_open v && bool_decide (tk_JobRunID v = run)) (qu_tasks (sy_queue s)) = true);
      [|congruence].
    apply existsb_exists. exists u. split; [by apply list_elem_of_In|]. by rewrite Ho, bool_decide_eq_true_2.
Qed.

(** Nothing opens or ends unseen, and the candidates stay. *)
Lemma covered_keeps s s' :
  Inv s → covered s → forward (sy_queue s) (sy_queue s') →
  (∀ t, t ∈ qu_tasks (sy_queue s') → (∃ u, u ∈ qu_tasks (sy_queue s) ∧ tk_JobRunID u = tk_JobRunID t)
     ∨ task_open t = true) →
  (∀ u, u ∈ qu_tasks (sy_queue s) → task_open u = true →
     has_candidate s' (tk_JobRunID u)
     ∨ ∃ t, t ∈ qu_tasks (sy_queue s') ∧ tk_JobRunID t = tk_JobRunID u ∧ task_open t = true) →
  (∀ run, run ≠ ""%string → has_candidate s run → ended s run →
     status_of (sy_queue s') run = Some RunRunning → has_candidate s' run) →
  covered s'.
Proof.
  intros HI HC Hf Hrows Hopen Hcand t Ht Hne He Hs.
  destruct (Hrows t Ht) as [(u & Hu & Hru)|Ho]; [|by rewrite (He t Ht eq_refl) in Ho].
  rewrite <-Hru in *. destruct (ended_or_open s (tk_JobRunID u)) as [Hend|(v & Hv & Hrv & Hov)].
  - apply Hcand; [done| |done|done]. apply HC; [done..|].
    eapply forward_status; [exact Hf| |exact Hs]. by destruct (inv_rows s HI u Hu) as (-> & _).
  - destruct (Hopen v Hv Hov) as [Hc|(w & Hw & Hrw & How)]; [by rewrite <-Hrv|].
    rewrite (He w Hw) in How; congruence.
Qed.

(** The same when every row is kept. *)
Lemma covered_same s s' f :
  Inv s → covered s → forward (sy_queue s) (sy_queue s') →
  qu_tasks (sy_queue s') = f <$> qu_tasks (sy_queue s) →
  (∀ u, u ∈ qu_tasks (sy_queue s) → identity (f u) = identity u
     ∧ (task_open u = true → task_open (f u) = true ∨ has_candidate s' (tk_JobRunID u))) →
  (∀ run, run ≠ ""%string → has_candidate s run → ended s run →
     status_of (sy_queue s') run = Some RunRunning → has_candidate s' run) →
  covered s'.
Proof.
  intros HI HC Hf Ht Hid Hc. eapply covered_keeps; [done..| | |done].
  - intros t Hin. rewrite Ht in Hin. apply list_elem_of_fmap in Hin as (u & -> & Hu). left. exists u.
    split; [done|]. by destruct (Hid u Hu) as [(_ & ? & _)%identity_fields _].
  - intros u Hu Ho. destruct (Hid u Hu) as [(_ & Hr & _)%identity_fields Hopen].
    destruct (Hopen Ho) as [Ho'|?]; [right|by left]. exists (f u).
    split_and!; [|done|done]. rewrite Ht. by apply list_elem_of_fmap_2.
Qed.

(** A worker that is no counting_for changes its phase. *)
Lemma candidates_other s owner p q' run :
  (∀ p0, sy_workers s !! owner = Some p0 → counting_for p0 = None) →
  has_candidate s run → has_candidate (set_worker owner p q' s) run.
Proof.
  intros Hno (o & p0 & u & Ho & Hc & Hr). exists o, p0, u. split_and!; [|done..]. cbn.
  rewrite lookup_partial_alter_ne; [done|]. intros ->. specialize (Hno _ Ho). congruence.
Qed.

(** A counting_for changes its phase: only its own run may lose it. *)
Lemma candidates_own s owner p0 t p q' run :
  sy_workers s !! owner = Some p0 → counting_for p0 = Some t → has_candidate s run →
  has_candidate (set_worker owner p q' s) run ∨ run = tk_JobRunID t.
Proof.
  intros Hw Hc0 (o & p1 & u & Ho & Hc & Hr). destruct (decide (o = owner)) as [->|Hne]; [right|left].
  - assert (p1 = p0) as -> by congruence. congruence.
  - exists o, p1, u. split_and!; [|done..]. cbn. by rewrite lookup_partial_alter_ne.
Qed.

Lemma becomes_candidate s owner p t q' :
  counting_for p = Some t → has_candidate (set_worker owner (Some p) q' s) (tk_JobRunID t).
Proof. intros Hc. exists owner, p, t. split_and!; [|done..]. apply lookup_partial_alter_eq. Qed.

Section Last.
Context (regexp_compile : string → option (string → bool)) (next_time : string → option Z)
  (error_text : QueueError → string).

Abbreviation sys_step := (step regexp_compile next_time error_text).

(** An operation on the runs of jobs by one that is no counting_for. *)
Lemma covered_runs_only {A} s (m : QM A) q' r s' :
  Inv s → covered s → runs_only m → m (sy_queue s) = (q', r) → sy_queue s' = q' →
  (∀ run, has_candidate s run → has_candidate s' run) → covered s'.
Proof.
  intros HI HC [Hf Ht _] Hm Hq Hc. specialize (Hf (sy_queue s)). specialize (Ht (sy_queue s)).
  rewrite Hm in Hf, Ht. cbn in Hf, Ht. rewrite <-Hq in Hf, Ht.
  apply (covered_same s s' (λ t, t)); [done..|by rewrite Ht, list_fmap_id| |auto].
  intros u _. split; [done|by left].
Qed.

Lemma covered_elsewhere s s' :
  Inv s → covered s → qu_job_runs (sy_queue s') = qu_job_runs (sy_queue s) →
  qu_tasks (sy_queue s') = qu_tasks (sy_queue s) →
  (∀ run, has_candidate s run → has_candidate s' run) → covered s'.
Proof.
  intros HI HC Hr Ht Hc. apply (covered_same s s' (λ t, t)); [done..| |by rewrite Ht, list_fmap_id| |auto].
  - intros id r Hid. exists r. by rewrite Hr.
  - intros u _. split; [done|by left].
Qed.

Lemma covered_finish s now owner t status err q' p :
  Inv s → covered s → sy_workers s !! owner = Some (Ended t status err) →
  worker_step next_time now owner (Some (Ended t status err)) (sy_queue s) = (q', Ok p) →
  covered (set_worker owner p q' s).
Proof.
  intros HI HC Hw Hrun. apply try_inv in Hrun as (q1 & r & Hc & [= <- <-]).
  assert (∀ p0, sy_workers s !! owner = Some p0 → counting_for p0 = None) as Hno
    by (intros p0; rewrite Hw; by intros [= <-]).
  apply FinishBackupTask_run in Hc. destruct r as [[]|x].
  - destruct Hc as [(Hr & _ & Ht & Hid) _]. eapply covered_same; [exact HI|done| |exact Ht| |].
    + intros id r Hlk. exists r. cbn. by rewrite Hr.
    + intros u Hu. split; [by apply Hid|]. cbn. destruct (owned_task _ _ _) eqn:Hown; [|by left].
      intros _. right. apply andb_true_iff in Hown as [Hi%bool_decide_eq_true _].
      destruct (inv_work s HI _ _ Hw) as (_ & _ & v & Hv & Hvid).
      apply identity_fields in Hvid as (Hv1 & Hv2 & _). cbn in Hv1, Hv2.
      rewrite (task_by_id _ u v (inv_ids s HI)) by congruence. rewrite Hv2. by apply becomes_candidate.
    + intros run _ Hrc _ _. by apply candidates_other.
  - destruct Hc as (Hr & _ & Ht & _). apply (covered_elsewhere s); [done..|by rewrite list_fmap_id in Ht|].
    intros run. by apply candidates_other.
Qed.

Lemma covered_count s now owner t q' p :
  Inv s → covered s → calm (sy_queue s) → sy_workers s !! owner = Some (Counting t) →
  worker_step next_time now owner (Some (Counting t)) (sy_queue s) = (q', Ok p) →
  covered (set_worker owner p q' s).
Proof.
  intros HI HC Hcalm Hw Hrun. cbn [worker_step] in Hrun.
  rewrite (try_run _ _ _ _ _ (HasOpenBackupTasks_calm "" (tk_JobRunID t) _ Hcalm)) in Hrun.
  injection Hrun as <- <-.
  apply (covered_same s _ (λ t, t)); [done..|by rewrite list_fmap_id|by intros u _; split; [|left]|].
  intros run Hne Hrc Hend _.
  destruct (candidates_own s owner (Counting t) t
    (if existsb (open_task_of "" (tk_JobRunID t)) (qu_tasks (sy_queue s)) then None else Some (Electing t))
    (sy_queue s) run Hw eq_refl Hrc) as [Hc|Hrun]; [by destruct (existsb _ _)|].
  destruct (existsb _ _) eqn:He; [|rewrite Hrun; by apply becomes_candidate].
  exfalso. apply existsb_exists in He as (v & Hv%list_elem_of_In & Ho).
  unfold open_task_of, unset_or in Ho. rewrite !andb_true_iff, !orb_true_iff, !bool_decide_eq_true in Ho.
  destruct Ho as [[Ho _] [Hr|Hr]]; [congruence|]. rewrite (Hend v Hv) in Ho; congruence.
Qed.

Lemma covered_elect s now owner t q' p :
  Inv s → covered s → calm (sy_queue s) → sy_workers s !! owner = Some (Electing t) →
  worker_step next_time now owner (Some (Electing t)) (sy_queue s) = (q', Ok p) →
  covered (set_worker owner p q' s).
Proof.
  intros HI HC Hcalm Hw Hrun. apply try_inv in Hrun as (q1 & r & Hc & [= <- <-]).
  pose proof (ClaimBackupJobRunFinalization_only (tk_JobRunID t)) as [Hf Ht _].
  specialize (Hf (sy_queue s)). specialize (Ht (sy_queue s)). rewrite Hc in Hf, Ht. cbn in Hf, Ht.
  apply (covered_same s _ (λ t, t)); [done..|by rewrite list_fmap_id|by intros u _; split; [|left]|].
  intros run Hne Hrc _ Hs. destruct (candidates_own s owner (Electing t) t
    (match r with Ok true => Some (Elected t) | _ => None end) q1 run Hw eq_refl Hrc) as [?|Hrun]; [done|].
  exfalso. subst run. cbn in Hs.
  assert (status_of (sy_queue s) (tk_JobRunID t) = Some RunRunning) as Hs0.
  { eapply forward_status; [exact Hf| |exact Hs]. destruct (work_job s _ _ HI Hw) as [Hj _]. cbn in Hj. by rewrite Hj. }
  destruct (ClaimBackupJobRunFinalization_calm _ _ Hcalm Hs0) as [q2 Hq2].
  rewrite Hc in Hq2. injection Hq2 as <- ->.
  apply ClaimBackupJobRunFinalization_won in Hc as [_ Hw2]. by rewrite Hw2 in Hs.
Qed.

Lemma covered_worker_step s now owner q' p :
  Inv s → covered s → calm (sy_queue s) → owner ≠ ""%string →
  worker_step next_time now owner (sy_workers s !! owner) (sy_queue s) = (q', Ok p) →
  covered (set_worker owner p q' s).
Proof.
  intros HI HC Hcalm Hne Hrun.
  destruct (sy_workers s !! owner) as [[t|t|t|t st x|t|t|t|t]|] eqn:Hw; cbn [worker_step] in Hrun.
  - destruct (work_job s _ _ HI Hw) as [_ [d Hd]]. cbn in Hd. rewrite Hd in Hrun.
    rewrite get_run in Hrun. injection Hrun as <- <-.
    apply (covered_elsewhere s); [done..|]. intros run. apply candidates_other. intros p0. by rewrite Hw; intros [= <-].
  - injection Hrun as <- <-. apply (covered_elsewhere s); [done..|]. intros run.
    apply candidates_other. intros p0. by rewrite Hw; intros [= <-].
  - injection Hrun as <- <-. apply (covered_elsewhere s); [done..|]. intros run.
    apply candidates_other. intros p0. by rewrite Hw; intros [= <-].
  - by eapply (covered_finish s now).
  - by eapply (covered_count s now).
  - by eapply (covered_elect s now).
  - rewrite (bind_run _ _ _ _ _ (releaseJob_run _ _)) in Hrun. injection Hrun as <- <-.
    apply (covered_elsewhere s); [done..|]. intros run. apply candidates_other. intros p0. by rewrite Hw; intros [= <-].
  - apply bind_inv in Hrun as [(q1 & [] & Hsum & [= <- <-])|(q1 & x & _ & [=])].
    eapply (covered_runs_only s); [done..|apply summarize_only|exact Hsum|done|].
    intros run. apply candidates_other. intros p0. by rewrite Hw; intros [= <-].
  - apply try_inv in Hrun as (q1 & ts & Hc & [= <- <-]).
    apply ClaimBackupTasks_run in Hc as (f & (Hr & _ & Ht & Hid) & Hf & _); [|apply HI].
    apply (covered_same s _ f); [done..| |done| |].
    + intros id r Hlk. exists r. cbn. by rewrite Hr.
    + intros u Hu. split; [by apply Hid|]. destruct (Hf u Hu) as [->|(_ & ? & _)]; by left.
    + intros run _ Hc _ _. apply candidates_other; [|done]. intros p0. by rewrite Hw.
Qed.

(** A phase of a call is no counting_for. *)
Lemma candidates_call s c p q' run : has_candidate s run → has_candidate (set_call c p q' s) run.
Proof. done. Qed.

Lemma covered_called s e c p q' p' :
  Inv s → covered s → call_step next_time error_text e p (sy_queue s) = (q', Ok p') →
  covered (set_call c p' q' s).
Proof.
  intros HI HC Hrun. destruct p as [jb vms run|jb vms run|run|jb vms run|jb vms run]; cbn [call_step] in Hrun.
  - apply try_inv in Hrun as (q1 & b & Hb & [= <- <-]).
    eapply (covered_runs_only s); [done..|apply runs_only_core, HasOpenBackupTasks_core|exact Hb|done|done].
  - unfold claimJob in Hrun. revert Hrun. run_st.
    case_bool_decide; intros [= <- <-]; by apply (covered_elsewhere s).
  - apply try_inv in Hrun as (q1 & b & Hb & [= <- <-]).
    eapply (covered_runs_only s); [done..| |exact Hb|done|done]. apply CreateBackupJobRun_only.
  - apply try_inv in Hrun as (q1 & [jr|err] & Hb & [= <- <-]); apply record_job_run_run in Hb.
    + destruct Hb as (_ & Hnone & Hruns & [= Ht Ha]).
      apply (covered_same s _ (λ t, t)); [done..| |by rewrite list_fmap_id|by intros u _; split; [|left]|done].
      intros id r Hid. exists r. cbn. rewrite Hruns, lookup_insert_ne; [done|]. intros <-. congruence.
    + destruct Hb as (Hr & Ht & Ha). by apply (covered_elsewhere s).
  - apply try_inv in Hrun as (q1 & [[]|err] & Hb & [= <- <-]); apply enqueue_job_run in Hb.
    + destruct Hb as (Hr & Ha & _ & rows & Ht & Hrows). apply (covered_keeps s); [done..| | | |done].
      * intros id r Hid. exists r. cbn. by rewrite Hr.
      * intros u Hu. cbn in Hu. rewrite Ht in Hu. apply elem_of_app in Hu as [Hu|Hu]; [left; eauto|right].
        by destruct (Hrows u Hu) as (_ & _ & _ & ? & _).
      * intros u Hu Ho. right. exists u. split_and!; [|done..]. cbn. rewrite Ht. apply elem_of_app. by left.
    + destruct Hb as (Hf & Ht & Ha).
      apply (covered_same s _ (λ t, t)); [done..|by rewrite list_fmap_id|by intros u _; split; [|left]|done].
Qed.

Lemma covered_step s s' :
  Inv s → covered s → calm (sy_queue s) → sys_step s s' → covered s'.
Proof.
  intros HI HC Hcalm Hstep. destruct Hstep as
    [now owner q' p Hne Hrun|owner t Hw Hslot|owner t q' st x Hw Hst (Hr & Ht & Ha)|now owner t Hw
    |owner t Hw|e c jobID by_ at_ q' p Hc Hrun|e c p q' p' Hc Hrun|now run target|q' (Hr & Ht & Ha)].
  - by eapply covered_worker_step.
  - apply (covered_elsewhere s); [done..|]. intros run Hrc.
    apply (candidates_other s owner (Some (Executing t)) (sy_queue s)); [|done].
    intros p0. rewrite Hw. by intros [= <-].
  - apply (covered_elsewhere s); [done..|]. intros run. apply candidates_other.
    intros p0. rewrite Hw. by intros [= <-].
  - destruct (RenewBackupTaskLease now (tk_ID t) owner backupTaskLease (sy_queue s)) as [q' r] eqn:Hn.
    apply RenewBackupTaskLease_run in Hn as (f & (Hr & _ & Ht & Hid) & Hf).
    apply (covered_same s _ f); [done..| |done| |done].
    + intros id r0 Hlk. exists r0. cbn. by rewrite Hr.
    + intros u Hu. split; [by apply Hid|]. unfold task_open. destruct (Hf u) as [-> _]. by left.
  - apply (covered_elsewhere s); [done..|]. intros run. apply candidates_other.
    intros p0. rewrite Hw. by intros [= <-].
  - eapply (covered_runs_only s); [done..|apply (call_start_only regexp_compile)|exact Hrun|done|done].
  - by eapply covered_called.
  - destruct (recalculateJobRun now run target (sy_queue s)) as [q' r] eqn:Hn.
    eapply (covered_runs_only s); [done..|apply recalculateJobRun_only|exact Hn|done|done].
  - by apply (covered_elsewhere s).
Qed.

(** A step while no statement fails. *)
Definition calm_step (s s' : System) : Prop := calm (sy_queue s) ∧ sys_step s s'.

Lemma covered_steps s s' : Inv s → covered s → rtc calm_step s s' → Inv s' ∧ covered s'.
Proof.
  intros HI HC Hrtc. induction Hrtc as [|s s1 s' [Hc Hs] _ IH]; [done|]. apply IH.
  - by eapply inv_step.
  - by eapply covered_step.
Qed.

(** C26. While statements succeed, a run whose tasks have all ended either has left
    the running state or has a worker that is about to count the open tasks or to
    claim the finalization: no run is forgotten. *)
Theorem last_worker_finishes q s t :
  qu_tasks q = [] → rtc calm_step (first_start q) s →
  t ∈ qu_tasks (sy_queue s) → tk_JobRunID t ≠ ""%string →
  (∀ u, u ∈ qu_tasks (sy_queue s) → tk_JobRunID u = tk_JobRunID t → task_open u = false) →
  status_of (sy_queue s) (tk_JobRunID t) = Some RunRunning →
  ∃ owner u, (sy_workers s !! owner = Some (Counting u) ∨ sy_workers s !! owner = Some (Electing u))
    ∧ tk_JobRunID u = tk_JobRunID t.
Proof.
  intros Hq Hrtc Ht Hne Hend Hs.
  assert (covered (first_start q)) as HC0 by (intros u Hu; cbn in Hu; rewrite Hq in Hu; inversion Hu).
  destruct (covered_steps _ _ (inv_start q Hq) HC0 Hrtc) as [HI HC].
  destruct (HC t Ht Hne Hend Hs) as (owner & p & u & Hw & Hc & Hr).
  exists owner, u. split; [|done]. destruct p; try done; injection Hc as ->; auto.
Qed.
End Last.
