(* ===== verification/Outcome.v ===== *)
(** What the outcome of a run of a job says: the counts and the status that
    [finishJob] writes, against a plain reading of the backups and copies of the
    run; and the recalculation of the replicator, which must say the same. *)

From S2P Require Import Prelude StateM GoTime GoStr Model Format Catalog Replicas Plan Jobs Replicator JobQueue.
From S2P Require Import Workers WorkerFacts LastWorker.

(** ** The plain reading *)

(** What the job is to deliver: a backup, or a copy in one of its storages. *)
Inductive Delivery := Delivered | Incomplete | Lost | Abandoned | Pending.

#[export] Instance Delivery_eq_dec : EqDecision Delivery.
Proof. solve_decision. Defined.

Definition runs_of (c : Catalog) (id : string) : list BackupRun :=
  List.filter (λ r, bool_decide (run_JobRunID r = id)) (all_runs c).

(** The required copies of a run in the storages of the job. *)
Definition expected_copies (c : Catalog) (job : BackupJob) (r : BackupRun) : list BackupCopy :=
  List.filter (expected_copy (Some (job_StorageTargetIDs job)))
    (List.filter (λ p, bool_decide (cp_RunID p = run_ID r)) (ca_copies c)).

(** What is looked at: the copies of each backup, where a machine is read once, else
    the backups. *)
Abbreviation Item := (BackupRun + BackupCopy)%type.

Definition items (c : Catalog) (job : BackupJob) (id : string) : list Item :=
  runs_of c id ≫= λ r,
    if read_once (job_StorageMode job) then inr <$> expected_copies c job r else [inl r].

(** A backup that succeeded; a copy that is healthy, also one of a backup that is
    partial. *)
Definition is_there (x : Item) : bool :=
  match x with inl r => bool_decide (run_Status r = RunSucceeded) | inr p => Healthy (Some p) end.
Definition is_half (x : Item) : bool :=
  match x with inl r => bool_decide (run_Status r = RunPartial) | inr _ => false end.
Definition is_given_up (x : Item) : bool :=
  match x with inl r => bool_decide (run_Status r = RunCanceled) | inr p => bool_decide (cp_Status p = CopyCanceled) end.
(** A copy somebody works on or will try again. *)
Definition is_to_come (x : Item) : bool :=
  match x with
  | inl _ => false
  | inr p =>
    match cp_Status p with
    | CopyPending | CopyCopying | CopyVerifying => true
    | CopyFailed => bool_decide (is_Some (cp_NextRetryAt p))
    | _ => false
    end
  end.

Definition delivery (x : Item) : Delivery :=
  if is_there x then Delivered else if is_half x then Incomplete else if is_given_up x then Abandoned
  else if is_to_come x then Pending else Lost.

Definition deliveries (c : Catalog) (job : BackupJob) (id : string) : list Delivery := delivery <$> items c job id.

Lemma deliveries_runs c job id :
  deliveries c job id = runs_of c id ≫= λ r,
    if read_once (job_StorageMode job) then delivery ∘ inr <$> expected_copies c job r else [delivery (inl r)].
Proof.
  unfold deliveries, items. induction (runs_of c id) as [|r rs IH]; [done|]. rewrite !bind_cons, fmap_app, IH.
  f_equal. destruct (read_once _); [|done]. by rewrite <-list_fmap_compose.
Qed.

Definition lost_primary (p : BackupCopy) : bool :=
  bool_decide (cp_Role p = CopyPrimary) && negb (Healthy (Some p)).


Definition count (d : Delivery) (ds : list Delivery) : Z :=
  Z.of_nat (length (List.filter (λ x, bool_decide (x = d)) ds)).




(** ** Counting *)
Lemma count_cons d x ds : count d (x :: ds) = (if bool_decide (x = d) then 1 else 0) + count d ds.
Proof. unfold count. cbn. case_bool_decide; cbn; lia. Qed.

Lemma count_app d ds es : count d (ds ++ es) = count d ds + count d es.
Proof. unfold count. rewrite List.filter_app, length_app. lia. Qed.

Lemma count_perm d ds es : ds ≡ₚ es → count d ds = count d es.
Proof.
  induction 1; rewrite ?count_cons; lia.
Qed.

Lemma count_nonneg d ds : 0 ≤ count d ds.
Proof. unfold count. lia. Qed.

Lemma count_total ds :
  Z.of_nat (length ds) = count Delivered ds + count Incomplete ds + count Lost ds + count Abandoned ds
    + count Pending ds.
Proof.
  induction ds as [|x ds IH]; [done|]. rewrite !count_cons, length_cons, Nat2Z.inj_succ, IH.
  destruct x; repeat case_bool_decide; try congruence; lia.
Qed.




(** A tally that counts deliveries. *)
Definition tallies (t : JobTally) (lost : bool) (ds : list Delivery) : Prop :=
  t = mkJobTally (count Incomplete ds)
        (mkTally (count Delivered ds) (count Lost ds) (count Abandoned ds) (count Pending ds) lost).


(** ** What the code counts *)
Lemma tally_delivered p ds t lost p0 :
  tallies (mkJobTally p0 t) lost ds →
  tallies (mkJobTally p0 (tally_copy t p)) (lost || lost_primary p) (delivery (inr p) :: ds).
Proof.
  intros [= -> ->]. unfold tallies, tally_copy, delivery, lost_primary. cbn [is_there is_half is_given_up is_to_come].
  rewrite !count_cons.
  destruct (Healthy (Some p)); [f_equal; repeat case_bool_decide; try congruence; f_equal; lia|].
  destruct (cp_Status p), (bool_decide (is_Some (cp_NextRetryAt p))); cbn;
    repeat case_bool_decide; try congruence; f_equal; f_equal; lia.
Qed.

Lemma tally_all ps p0 t lost ds :
  tallies (mkJobTally p0 t) lost ds →
  ∃ es, tallies (mkJobTally p0 (foldl tally_copy t ps)) (lost || existsb lost_primary ps) es
    ∧ es ≡ₚ (delivery ∘ inr <$> ps) ++ ds.
Proof.
  revert t lost ds. induction ps as [|p ps IH]; intros t lost ds Ht; cbn [foldl existsb fmap list_fmap].
  { exists ds. by rewrite orb_false_r. }
  destruct (IH _ _ _ (tally_delivered p _ _ _ _ Ht)) as (es & Hes & Hp).
  exists es. rewrite orb_assoc. split; [done|]. rewrite Hp. symmetry. apply Permutation_middle.
Qed.


Lemma in_catalog_calm {A} (m : CM A) q a :
  calm q → (∀ c, ca_faults c = [] → m c = (c, Ok (a c))) → in_catalog m q = (q, Ok (a (qu_catalog q))).
Proof. intros Hq Hm. unfold in_catalog. rewrite (Hm _ Hq). by destruct q. Qed.

Lemma existsb_perm {A} (f : A → bool) l l' : l ≡ₚ l' → existsb f l = existsb f l'.
Proof.
  induction 1 as [|x l l' _ IH|x y l|l1 l2 l3 _ IH1 _ IH2]; cbn; [done|by rewrite IH| |congruence].
  by destruct (f x), (f y).
Qed.

Lemma filter_perm {A} (f : A → bool) l l' : l ≡ₚ l' → List.filter f l ≡ₚ List.filter f l'.
Proof.
  induction 1 as [|x l l' _ IH|x y l|l1 l2 l3 _ IH1 _ IH2]; cbn; [done|..].
  - case_match; by rewrite IH.
  - repeat case_match; [apply perm_swap|done..].
  - by etrans.
Qed.

Section Calm.
Context (q : Queue) (Hq : calm q).

Lemma list_copies_calm run :
  ∃ ps, in_catalog (ListBackupCopies run) q = (q, Ok ps)
    ∧ ps ≡ₚ List.filter (λ p, bool_decide (cp_RunID p = run)) (ca_copies (qu_catalog q)).
Proof.
  eexists. split; [|apply sort_stable_perm]. unfold in_catalog, ListBackupCopies.
  rewrite statement_then by done. rewrite get_run. cbn. by destruct q.
Qed.

Lemma list_runs_calm id :
  id ≠ ""%string →
  ∃ rs, in_catalog (ListBackupRuns (of_job_run id)) q = (q, Ok rs) ∧ rs ≡ₚ runs_of (qu_catalog q) id.
Proof.
  intros Hid. eexists. split.
  { unfold in_catalog, ListBackupRuns. rewrite statement_then by done. rewrite get_run. cbn. by destruct q. }
  unfold page. cbn. rewrite sort_stable_perm. unfold runs_of.
  erewrite filter_ext; [reflexivity|]. intros r. cbn. unfold selects, unset_or. cbn.
  by rewrite (bool_decide_eq_false_2 (id = _)), !andb_true_r.
Qed.

Lemma count_runs_calm job rs t lost ds :
  tallies t lost ds →
  ∃ t' es, count_runs job t rs q = (q, Ok t')
    ∧ tallies t' (lost || (read_once (job_StorageMode job)
        && existsb (λ r, existsb lost_primary (expected_copies (qu_catalog q) job r)) rs)) es
    ∧ es ≡ₚ (rs ≫= λ r, if read_once (job_StorageMode job)
        then delivery ∘ inr <$> expected_copies (qu_catalog q) job r else [delivery (inl r)]) ++ ds.
Proof.
  revert t lost ds. induction rs as [|r rs IH]; intros t lost ds Ht; cbn [count_runs].
  { exists t, ds. by rewrite andb_false_r, orb_false_r. }
  destruct (read_once (job_StorageMode job)) eqn:Hmode.
  - destruct (list_copies_calm (run_ID r)) as (ps & Hps & Hperm).
    destruct t as [p0 t].
    set (qs := List.filter (expected_copy (Some (job_StorageTargetIDs job))) ps).
    assert (qs ≡ₚ expected_copies (qu_catalog q) job r) as Hqs by by apply filter_perm.
    destruct (tally_all qs p0 t lost ds Ht) as (es & Hes & Hp).
    destruct (IH _ _ _ Hes) as (t' & es' & Hrun & Ht' & Hp').
    exists t', es'. split_and!.
    + unfold count_copies. rewrite (bind_run _ _ q q (mkJobTally p0 (foldl tally_copy t qs))); [done|].
      by rewrite (try_run _ _ _ _ _ Hps).
    + cbn [existsb]. rewrite <-(existsb_perm lost_primary _ _ Hqs). cbn [andb] in Ht' |- *. by rewrite orb_assoc.
    + rewrite Hp', Hp. rewrite (fmap_Permutation _ _ _ Hqs). cbn. rewrite <-app_assoc.
      rewrite !app_assoc. by rewrite (Permutation_app_comm (rs ≫= _)).
  - assert (tallies (count_run t r) lost (delivery (inl r) :: ds)) as Ht1.
    { rewrite Ht. unfold tallies, count_run, delivery. cbn [is_there is_half is_given_up is_to_come]. rewrite !count_cons.
      destruct (run_Status r); cbn; repeat case_bool_decide; try congruence; f_equal; try lia; f_equal; lia. }
    destruct (IH _ _ _ Ht1) as (t' & es' & Hrun & Ht' & Hp').
    exists t', es'. split_and!; [done|exact Ht'|]. rewrite Hp'. cbn. symmetry. apply Permutation_middle.
Qed.
End Calm.

Lemma UpdateBackupJobRun_calm r row q :
  calm q → qu_job_runs q !! jr_ID r = Some row →
  UpdateBackupJobRun r q = (with_job_runs (<[jr_ID r := job_run_columns r row]> (qu_job_runs q)) q, Ok ()).
Proof.
  intros Hq Hrow. unfold UpdateBackupJobRun. rewrite (bind_run _ _ _ _ _ (query_calm q Hq)), get_run.
  by rewrite Hrow.
Qed.

(** What is left of a computation that leaves the runs of jobs alone. *)
Lemma then_runs {A B} (m : QM A) (k : A → QM B) q q1 a :
  m q = (q1, Ok a) → (∀ a, leaves qu_job_runs (k a)) → qu_job_runs (((m ≫= k) q).1) = qu_job_runs q1.
Proof. intros Hm Hk. rewrite (bind_run _ _ _ _ _ Hm). apply Hk. Qed.

Section Finish.
Context (next_time : string → option Z) (now : Z) (job : BackupJob).

(** The row written, from the runs listed and what they count to. *)
Lemma finishJob_writes jr row q rs t :
  calm q → qu_job_runs q !! jr_ID jr = Some row →
  in_catalog (ListBackupRuns (of_job_run (jr_ID jr))) q = (q, Ok rs) →
  count_runs job (mkJobTally 0 (mkTally 0 0 0 0 false)) rs q = (q, Ok t) →
  let t := account (jr_ReplicaCount jr) t in
  qu_job_runs (finishJob next_time now job jr q).1 !! jr_ID jr
  = Some (job_run_columns (with_tally now t (job_status (jr_ReplicaCount jr) t) jr) row).
Proof.
  intros Hq Hrow Hrs Hcount. unfold finishJob.
  rewrite (try_run _ _ _ _ _ Hrs), (bind_run _ _ _ _ _ Hcount). cbn zeta.
  set (status := job_status _ _). set (r := with_tally _ _ _ _).
  erewrite then_runs; [|unfold try; by rewrite (UpdateBackupJobRun_calm r row)|].
  - cbn. by rewrite lookup_insert_eq.
  - intros _. apply leaves_bind; [|intros _; apply leaves_bind; [|intros _; apply leaves_ret]].
    + destruct (job_ForceFullNext job && _); [|apply leaves_ret].
      apply leaves_try, (core_leaves _ _ (ClearForceFullNext_core now _)). auto with backup.
    + apply leaves_try, (core_leaves _ _ (SetJobSchedulingState_core now _ _ _ _)). auto with backup.
Qed.










End Finish.

(** ** The two places that settle a run *)
Lemma recount_same job rs p t q :
  calm q → read_once (job_StorageMode job) = true →
  ∃ t', count_runs job (mkJobTally p t) rs q = (q, Ok (mkJobTally p t'))
    ∧ recount (Some (job_StorageTargetIDs job)) t rs q = (q, Ok t').
Proof.
  intros Hq Hmode. revert t. induction rs as [|r rs IH]; intros t; cbn [count_runs recount]; [by exists t|].
  rewrite Hmode. destruct (list_copies_calm q Hq (run_ID r)) as (ps & Hps & _).
  destruct (IH (foldl tally_copy t (List.filter (expected_copy (Some (job_StorageTargetIDs job))) ps)))
    as (t' & Hc & Hr).
  exists t'. split.
  - erewrite bind_run; [exact Hc|]. unfold count_copies. by rewrite (try_run _ _ _ _ _ Hps).
  - by rewrite (try_run _ _ _ _ _ Hps).
Qed.

Lemma settle_same replicas s f k w b :
  0 < replicas → 0 ≤ s → 0 ≤ f → 0 ≤ k → 0 ≤ w → s + f + k + w ≤ replicas →
  account replicas (mkJobTally 0 (mkTally s f k w b)) = mkJobTally 0 (settle_copies replicas (mkTally s f k w b)).1
  ∧ job_status replicas (account replicas (mkJobTally 0 (mkTally s f k w b)))
    = (settle_copies replicas (mkTally s f k w b)).2.
Proof.
  intros Hr Hs Hf Hk Hw Hle. unfold account, settle_copies. rewrite Z.add_0_r.
  destruct (Z.ltb_spec (s + f + k + w) replicas); cbn; (split; [done|]); destruct b; try done.
  all: repeat first
    [ match goal with |- context [?a <? ?b] => destruct (Z.ltb_spec a b) end
    | match goal with |- context [?a =? ?b] => destruct (Z.eqb_spec a b) end ]; cbn; try done; lia.
Qed.

Lemma no_copy_incomplete c job id :
  read_once (job_StorageMode job) = true → count Incomplete (deliveries c job id) = 0.
Proof.
  intros Hmode. rewrite deliveries_runs, Hmode. induction (runs_of c id) as [|r rs IH]; [done|].
  rewrite bind_cons, count_app, IH.
  enough (∀ ps, count Incomplete (delivery ∘ inr <$> ps) = 0) as Hps by by rewrite Hps.
  intros ps. induction ps as [|p ps IHp]; [done|]. cbn [fmap list_fmap]. rewrite count_cons, IHp.
  rewrite bool_decide_eq_false_2; [done|]. unfold delivery. cbn -[Healthy]. by repeat case_match.
Qed.

Lemma GetBackupJob_calm id row q :
  calm q → qu_jobs q !! id = Some row → GetBackupJob id q = (q, Ok (scanJob row)).
Proof.
  intros Hq Hrow. unfold GetBackupJob. rewrite (bind_run _ _ _ _ _ (query_calm q Hq)), get_run, Hrow. done.
Qed.

Lemma GetBackupJobRun_calm id row q :
  calm q → qu_job_runs q !! id = Some row → GetBackupJobRun id q = (q, Ok row).
Proof.
  intros Hq Hrow. unfold GetBackupJobRun.
  rewrite (bind_run _ _ _ _ _ (query_calm q Hq)), get_run, Hrow. done.
Qed.

Lemma GetBackupRun_calm id run q :
  calm q → ca_runs (qu_catalog q) !! id = Some run → in_catalog (GetBackupRun id) q = (q, Ok run).
Proof.
  intros Hq Hrow. unfold in_catalog, GetBackupRun. rewrite statement_then by done.
  rewrite get_run, Hrow. cbn. by destruct q.
Qed.

Lemma recalculate_writes now jr job rs t t' st q :
  calm q → qu_job_runs q !! jr_ID jr = Some jr →
  in_catalog (ListBackupRuns (of_job_run (jr_ID jr))) q = (q, Ok rs) →
  recount (Some (job_StorageTargetIDs job)) (mkTally 0 0 0 0 false) rs q = (q, Ok t) →
  settle_copies (jr_ReplicaCount jr) t = (t', st) →
  qu_job_runs (recalculate_with now jr (Some job) q).1 !! jr_ID jr
  = Some (job_run_columns (with_tally now (mkJobTally 0 t') st jr) jr).
Proof.
  intros Hq Hrow Hrs Hrecount Hsettle. unfold recalculate_with.
  rewrite (try_run _ _ _ _ _ Hrs). cbn [fmap option_fmap option_map].
  rewrite (bind_run _ _ _ _ _ Hrecount), Hsettle.
  erewrite then_runs; [|unfold try; by rewrite (UpdateBackupJobRun_calm _ jr)|].
  - cbn [qu_job_runs with_job_runs]. by rewrite lookup_insert_eq.
  - intros _. destruct (RunStatus_Terminal st); [|apply leaves_ret].
    apply leaves_bind; [|intros _; apply leaves_ret]. apply leaves_try.
    apply (core_leaves _ _ (SetJobLastStatus_core now _ _)). auto with backup.
Qed.

(** The recalculation for a job that is still there and has the storage. *)
Lemma recalculate_here now jobrow jr run runID targetID q :
  calm q → ca_runs (qu_catalog q) !! runID = Some run → run_JobRunID run = jr_ID jr →
  jr_ID jr ≠ ""%string → qu_job_runs q !! jr_ID jr = Some jr →
  run_JobID run ≠ ""%string → qu_jobs q !! run_JobID run = Some jobrow →
  targetID ∈ job_StorageTargetIDs (scanJob jobrow) →
  recalculateJobRun now runID targetID q = recalculate_with now jr (Some (scanJob jobrow)) q.
Proof.
  intros Hq Hrun Hjr Hid Hrow Hjid Hjob Htg.
  unfold recalculateJobRun. rewrite (try_run _ _ _ _ _ (GetBackupRun_calm _ _ _ Hq Hrun)), Hjr.
  rewrite bool_decide_eq_false_2 by done.
  rewrite (try_run _ _ _ _ _ (GetBackupJobRun_calm _ _ _ Hq Hrow)).
  erewrite bind_run; [|unfold job_targets; rewrite bool_decide_eq_false_2 by done;
    by rewrite (try_run _ _ _ _ _ (GetBackupJob_calm _ _ _ Hq Hjob))].
  cbn iota. by rewrite bool_decide_eq_true_2.
Qed.

(** C28. For a job that reads the hypervisor once, the recalculation after a
    change of a replica writes the same outcome as the end of the run would write
    at that moment, as long as no task was executed twice and the job is unchanged. *)
Theorem outcomes_agree next_time now jobrow jr run runID targetID q :
  let job := scanJob jobrow in
  calm q → ca_runs (qu_catalog q) !! runID = Some run → run_JobRunID run = jr_ID jr →
  jr_ID jr ≠ ""%string → qu_job_runs q !! jr_ID jr = Some jr →
  run_JobID run ≠ ""%string → qu_jobs q !! run_JobID run = Some jobrow →
  targetID ∈ job_StorageTargetIDs job → read_once (job_StorageMode job) = true →
  0 < jr_ReplicaCount jr →
  Z.of_nat (length (deliveries (qu_catalog q) job (jr_ID jr))) ≤ jr_ReplicaCount jr →
  qu_job_runs (recalculateJobRun now runID targetID q).1 !! jr_ID jr
  = qu_job_runs (finishJob next_time now job jr q).1 !! jr_ID jr.
Proof.
  intros job Hq Hrun Hjr Hid Hrow Hjid Hjob Htg Hmode Hpos Hle.
  destruct (list_runs_calm q Hq (jr_ID jr) Hid) as (rs & Hrs & Hperm).
  assert (tallies (mkJobTally 0 (mkTally 0 0 0 0 false)) false []) as Ht0 by done.
  destruct (count_runs_calm q Hq job rs _ _ _ Ht0) as (t & es & Hcount & Ht & Hes).
  destruct (recount_same job rs 0 (mkTally 0 0 0 0 false) q Hq Hmode) as (t' & Hcount' & Hrecount).
  rewrite Hcount in Hcount'. injection Hcount' as ->.
  assert (es ≡ₚ deliveries (qu_catalog q) job (jr_ID jr)) as Hds
    by (rewrite Hes, app_nil_r, deliveries_runs; by rewrite Hperm).
  rewrite <-Hds in Hle. rewrite count_total in Hle. unfold tallies in Ht. injection Ht as Hinc Ht.
  rewrite (count_perm _ _ _ Hds), no_copy_incomplete in Hinc by done.
  rewrite (count_perm Incomplete _ _ Hds), no_copy_incomplete in Hle by done.
  destruct (settle_same (jr_ReplicaCount jr) (count Delivered es) (count Lost es) (count Abandoned es)
    (count Pending es) (ta_PrimaryFailed t')) as [Hacc Hstat]; [done|apply count_nonneg..|lia|].
  assert (t' = mkTally (count Delivered es) (count Lost es) (count Abandoned es) (count Pending es)
    (ta_PrimaryFailed t')) as Heq by (rewrite Ht; done).
  rewrite <-Heq in Hacc, Hstat.
  rewrite (recalculate_here now jobrow jr run) by done. fold job.
  destruct (settle_copies (jr_ReplicaCount jr) t') as [ts st] eqn:Hsettle. cbn [fst snd] in Hacc, Hstat.
  rewrite (recalculate_writes now jr job rs t' ts st) by done.
  rewrite (finishJob_writes next_time now job jr jr q rs _ Hq Hrow Hrs Hcount).
  rewrite Hacc in Hstat. by rewrite Hacc, Hstat.
Qed.
