(* ===== verification/JobFacts.v ===== *)
(** What the rows of jobs keep, and what a start of a job puts into the queue. *)

From S2P Require Import Prelude StateM GoTime GoStr Model Format Catalog Replicas Plan Jobs Replicator JobQueue.
From S2P Require Import LastWorker Outcome.
From S2P Require Import Workers WorkerFacts.

(** ** Columns *)
Section Columns.
Lemma decode_encode_strings l : decode_strings (encode_strings l) = l.
Proof. induction l as [|x l IH]; [done|]. cbn in *. by rewrite IH. Qed.

Lemma decode_encode_retention p : decode_retention (encode_retention p) = p.
Proof. by destruct p. Qed.

(** The last field of a name counts, and the others do not matter. *)
Lemma field_app key l k : json_field key (l ++ k) = match json_field key k with Some v => Some v | None => json_field key l end.
Proof. induction l as [|[k0 v] l IH]; cbn; [by case_match|]. rewrite IH. by destruct (json_field key k). Qed.

Lemma field_string key k s : json_field key (omit_string k s)
  = if bool_decide (k = key) && negb (bool_decide (s = ""%string)) then Some (JString s) else None.
Proof. unfold omit_string. do 2 case_bool_decide; cbn; by rewrite ?bool_decide_true, ?bool_decide_false by done. Qed.
Lemma field_number key k n : json_field key (omit_number k n)
  = if bool_decide (k = key) && negb (n =? 0) then Some (JNumber n) else None.
Proof. unfold omit_number. destruct (n =? 0); case_bool_decide; cbn; by rewrite ?bool_decide_true, ?bool_decide_false by done. Qed.
Lemma field_bool key k b : json_field key (omit_bool k b) = if bool_decide (k = key) && b then Some (JBool b) else None.
Proof. unfold omit_bool. destruct b; case_bool_decide; cbn; by rewrite ?bool_decide_true, ?bool_decide_false by done. Qed.

(** What is left of the options of a verification: all but who started it. *)
Definition stored_options (o : VerifyOptions) : VerifyOptions :=
  mkVerifyOptions (vo_BootHostID o) (vo_DiskID o) (vo_MemoryMiB o) (vo_VCPUs o) (vo_TimeoutSec o) (vo_KeepOnFailure o)
    (vo_KeepOnSuccess o) (vo_BootEngineID o) (vo_BootClusterID o) (vo_BootStorageDomainID o) (vo_TargetID o) "".

Lemma decode_encode_options o : decode_options (encode_options o) = stored_options o.
Proof.
  unfold decode_options, encode_options, stored_options. cbv zeta.
  f_equal; unfold string_field, number_field, bool_field; rewrite !field_app, ?field_string, ?field_number, ?field_bool;
    repeat match goal with |- context [bool_decide (?a = ?b :> string)] =>
      let v := eval vm_compute in (bool_decide (a = b)) in
      match v with true => idtac | false => idtac end; change (bool_decide (a = b)) with v end; cbn;
    first [ by destruct (vo_KeepOnFailure o) | by destruct (vo_KeepOnSuccess o)
          | by case_bool_decide | match goal with |- context [?n =? 0] => by destruct (Z.eqb_spec n 0) end ].
Qed.
End Columns.

(** ** Normal jobs *)

(** Reading settles what the mode and the consistency say. *)
Definition normal (j : BackupJob) : BackupJob := NormalizeConsistency (NormalizeStorageMode j).

Lemma normal_mode j :
  job_StorageMode j = StorageModeCopy ∨ job_StorageMode j = StorageModeParallel ∨ job_StorageMode j = StorageModeSeparate →
  NormalizeStorageMode j = set_job_StorageMode (job_StorageMode j) (bool_decide (job_StorageMode j = StorageModeCopy)) j.
Proof. unfold NormalizeStorageMode. by intros [-> | [-> | ->]]. Qed.

Lemma normal_normal j : normal (normal j) = normal j.
Proof.
  unfold normal. rewrite (normal_mode (NormalizeConsistency _)); unfold NormalizeConsistency; cbv zeta; cbn.
  - unfold NormalizeStorageMode.
    destruct (job_Consistency j), (job_Quiesce j); reflexivity.
  - unfold NormalizeStorageMode. destruct (job_Consistency j), (job_Quiesce j); cbn;
      destruct (job_StorageMode j), (job_ReplicationEnabled j); auto.
Qed.

(** A job as its columns have it: durations in whole seconds, and the options of
    the verification without who started it. *)
Definition stored_job (j : BackupJob) : BackupJob :=
  set_job_durations (fromSeconds (toSeconds (job_MaxDuration j))) (fromSeconds (toSeconds (job_MaxFreeze j)))
    (set_job_VerifyOptions (stored_options (job_VerifyOptions j)) j).

Lemma scan_job_row j : scan_columns (job_row j) = stored_job j.
Proof.
  unfold scan_columns, stored_job, set_job_durations, set_job_VerifyOptions.
  f_equal; first [reflexivity | apply decode_encode_strings | apply decode_encode_retention | apply decode_encode_options].
Qed.

Lemma scanJob_row j : scanJob (job_row j) = normal (stored_job j).
Proof. unfold scanJob. by rewrite scan_job_row. Qed.

Lemma stored_normal j : normal (stored_job j) = stored_job (normal j).
Proof. unfold normal, NormalizeConsistency. cbn. destruct (job_Consistency j), (job_Quiesce j); reflexivity. Qed.

(** What normalisation leaves alone. *)
Definition untouched (j : BackupJob) :=
  (job_ID j, job_StorageTargetIDs j, job_ForceFullNext j, job_MaxDuration j, job_MaxFreeze j).

Lemma normal_untouched j : untouched (normal j) = untouched j.
Proof. unfold normal, NormalizeConsistency. cbv zeta. by destruct (NeedsFreeze _). Qed.

Lemma normal_options j : job_VerifyOptions (normal j) = job_VerifyOptions j ∧ job_NextRunAt (normal j) = job_NextRunAt j.
Proof. unfold normal, NormalizeConsistency. cbv zeta. by destruct (NeedsFreeze _). Qed.

Lemma scanJob_untouched row : untouched (scanJob row) = untouched (scan_columns row).
Proof. apply normal_untouched. Qed.

Lemma untouched_inv j j' : untouched j = untouched j' →
  job_ID j = job_ID j' ∧ job_StorageTargetIDs j = job_StorageTargetIDs j'
  ∧ job_ForceFullNext j = job_ForceFullNext j' ∧ job_MaxDuration j = job_MaxDuration j'
  ∧ job_MaxFreeze j = job_MaxFreeze j'.
Proof. unfold untouched. naive_solver. Qed.

Lemma set_durations_same j : set_job_durations (job_MaxDuration j) (job_MaxFreeze j) j = j.
Proof. by destruct j. Qed.
Lemma set_options_same j : set_job_VerifyOptions (job_VerifyOptions j) j = j.
Proof. by destruct j. Qed.

Lemma stored_same j :
  fromSeconds (toSeconds (job_MaxDuration j)) = job_MaxDuration j → fromSeconds (toSeconds (job_MaxFreeze j)) = job_MaxFreeze j →
  vo_TriggeredBy (job_VerifyOptions j) = ""%string → stored_job j = j.
Proof.
  intros Hd Hf Hby. unfold stored_job. rewrite Hd, Hf.
  assert (stored_options (job_VerifyOptions j) = job_VerifyOptions j) as ->
    by (destruct (job_VerifyOptions j); cbn in *; by subst).
  by rewrite set_options_same, set_durations_same.
Qed.

(** ** Reading and writing while statements succeed *)
Lemma update_job_calm id f q :
  calm q → update_job id f q
  = (with_jobs (alter f id (qu_jobs q)) q, Ok (bool_decide (is_Some (qu_jobs q !! id)))).
Proof. intros Hq. unfold update_job. by rewrite (bind_run _ _ _ _ _ (query_calm q Hq)), get_run. Qed.

Lemma UpdateBackupJob_calm now j row q :
  calm q → qu_jobs q !! job_ID j = Some row → ∃ q' j' stored,
    UpdateBackupJob now j q = (q', Ok j') ∧ calm q' ∧ qu_jobs q' = <[job_ID j := stored]> (qu_jobs q)
    ∧ job_StorageTargetIDs (scanJob stored) = job_StorageTargetIDs j
    ∧ job_ForceFullNext (scanJob stored) = job_ForceFullNext j
    ∧ c_last_run_at stored = c_last_run_at row ∧ c_next_run_at stored = c_next_run_at row.
Proof.
  intros Hq Hrow. unfold UpdateBackupJob. set (j0 := set_job_columns _ _ _ _ _ _).
  change (NormalizeConsistency (NormalizeStorageMode j0)) with (normal j0).
  destruct (untouched_inv _ _ (normal_untouched j0)) as (Hid & Ht & Hf & _).
  rewrite (bind_run _ _ _ _ _ (query_calm q Hq)), get_run, Hid. cbn [job_ID j0 set_job_columns]. rewrite Hrow.
  eexists _, _, _. split; [done|]. cbn [qu_jobs with_jobs].
  destruct (untouched_inv _ _ (scanJob_untouched (job_update (normal j0) row))) as (_ & -> & -> & _).
  split_and!; [done..| | |done|done].
  - etrans; [apply decode_encode_strings|]. exact Ht.
  - exact Hf.
Qed.

(** ** A job that is written and read back *)

(** C35. A new job is read back as the call that stored it returned it: each of its
    columns is written where it is read from, lists, retention and verification
    options survive as JSON, and the normal form is stable. Only its durations are
    cut to whole seconds, and who started a verification is not kept. *)
Theorem job_roundtrip now fresh j q :
  calm q → qu_jobs q !! (if bool_decide (job_ID j = ""%string) then fresh else job_ID j) = None →
  ∃ q' j', CreateBackupJob now fresh j q = (q', Ok j')
    ∧ GetBackupJob (job_ID j') q' = (q', Ok (stored_job j'))
    ∧ (is_i64 (job_MaxDuration j) → is_i64 (job_MaxFreeze j) →
       (Second | job_MaxDuration j) → (Second | job_MaxFreeze j) → vo_TriggeredBy (job_VerifyOptions j) = ""%string →
       stored_job j' = j').
Proof.
  intros Hq Hnew. unfold CreateBackupJob. set (j0 := set_job_columns _ _ _ _ _ _).
  destruct (untouched_inv _ _ (normal_untouched j0)) as (Hid & _ & _ & Hd' & Hf').
  change (NormalizeConsistency (NormalizeStorageMode j0)) with (normal j0).
  rewrite (bind_run _ _ _ _ _ (query_calm q Hq)), get_run, Hid. cbn [job_ID j0 set_job_columns]. rewrite Hnew.
  eexists _, _. split; [done|]. split.
  - rewrite (GetBackupJob_calm _ (job_row (normal j0))).
    + by rewrite scanJob_row, stored_normal, normal_normal.
    + done.
    + rewrite Hid. apply lookup_insert_eq.
  - intros ? ? Hd Hf Hby. destruct (normal_options j0) as [Hopt _].
    apply stored_same; [rewrite Hd'|rewrite Hf'|by rewrite Hopt]; by apply whole_seconds.
Qed.

(** ** Switching to replication *)
Lemma scanJob_other_mode row :
  c_storage_mode row = StorageModeSeparate ∨ c_storage_mode row = StorageModeParallel →
  job_StorageMode (scanJob row) = c_storage_mode row ∧ job_ReplicationEnabled (scanJob row) = false
  ∧ job_Type (scanJob row) = c_type row.
Proof.
  intros Hm. unfold scanJob. rewrite normal_mode by (cbn; naive_solver). unfold NormalizeConsistency. cbv zeta.
  cbn [job_StorageMode scan_columns]. destruct (NeedsFreeze _), Hm as [-> | ->]; done.
Qed.

(** The call that moves a job to one reading and copies has no such effect on a
    job whose row names another mode: the mode decides, the switch is derived from
    it on every reading, and only the full backup is forced. *)
Theorem enable_replication_ineffective now id row q :
  calm q → qu_jobs q !! id = Some row →
  c_storage_mode row = StorageModeSeparate ∨ c_storage_mode row = StorageModeParallel →
  ∃ q' job, EnableJobReplication now id q = (q', Ok ()) ∧ GetBackupJob id q' = (q', Ok job)
    ∧ job_ReplicationEnabled job = false ∧ job_StorageMode job = c_storage_mode row
    ∧ write_targets job = write_targets (scanJob row) ∧ job_ForceFullNext job = true.
Proof.
  intros Hq Hrow Hmode. unfold EnableJobReplication.
  rewrite (bind_run _ _ _ _ _ (update_job_calm _ _ q Hq)), Hrow. eexists _, _. split; [done|].
  set (row' := set_switches true true now row).
  split; [apply (GetBackupJob_calm id row'); [done|]; cbn; by rewrite lookup_alter_eq, Hrow|].
  destruct (scanJob_other_mode row Hmode) as (Hm & _ & Ht).
  destruct (scanJob_other_mode row' Hmode) as (Hm' & Hr' & Ht').
  destruct (untouched_inv _ _ (scanJob_untouched row)) as (_ & Hids & _).
  destruct (untouched_inv _ _ (scanJob_untouched row')) as (_ & Hids' & Hf' & _).
  split_and!; [exact Hr'|exact Hm'| |exact Hf'].
  fold row'. unfold write_targets. by rewrite Hm, Hm', Ht, Ht', Hids, Hids'.
Qed.

(** ** Another primary storage *)
Lemma promote_perm id ids : id ∈ ids → promote id ids ≡ₚ ids.
Proof.
  intros Hin. unfold promote. destruct (list_find (λ x, x = id) ids) as [[i x]|] eqn:Hf.
  - apply list_find_Some in Hf as (Hi & -> & _). rewrite <-(take_drop_middle _ _ _ Hi) at 3.
    by rewrite Permutation_middle.
  - apply list_find_None in Hf. rewrite Forall_forall in Hf. by destruct (Hf id Hin).
Qed.

(** A storage of the job becomes its first one, the others stay in their order and
    none is added; the next run is forced to be full and the schedule stays. *)
Theorem change_primary now row id targetID q :
  calm q → qu_jobs q !! id = Some row → c_id row = id → targetID ∈ job_StorageTargetIDs (scanJob row) →
  ∃ q' j' stored, ChangeJobPrimary now id targetID q = (q', Ok j') ∧ qu_jobs q' !! id = Some stored
    ∧ head (job_StorageTargetIDs (scanJob stored)) = Some targetID
    ∧ job_StorageTargetIDs (scanJob stored) ≡ₚ job_StorageTargetIDs (scanJob row)
    ∧ job_ForceFullNext (scanJob stored) = true ∧ c_next_run_at stored = c_next_run_at row.
Proof.
  intros Hq Hrow Hid Hin. unfold ChangeJobPrimary.
  rewrite (bind_run _ _ _ _ _ (GetBackupJob_calm id row q Hq Hrow)).
  destruct (untouched_inv _ _ (scanJob_untouched row)) as (Hids & _).
  rewrite bool_decide_eq_true_2 by done. cbn [negb]. set (j := set_job_ForceFullNext _ _ _).
  assert (job_ID j = id) as Hj by (cbn; by rewrite Hids).
  destruct (UpdateBackupJob_calm now j row q Hq) as (q' & j' & stored & Hrun & _ & Hjobs & Ht & Hf & _ & Hn);
    [by rewrite Hj|].
  exists q', j', stored. rewrite Hjobs, Hj, lookup_insert_eq, Ht, Hf, Hn. split_and!; try done.
  by apply promote_perm.
Qed.

(** * The start of a job *)
(** The backup of a machine reaches a storage: it is read for it, written along,
    or replicated to it afterwards. *)
Definition reaches (job : BackupJob) (vmID targetID : string) (req : RunRequest) : bool :=
  bool_decide (rq_VMID req = vmID)
  && (bool_decide (rq_StorageTargetID req = targetID) || bool_decide (targetID ∈ rq_MirrorTargetIDs req)
      || job_ReplicationEnabled job).

(** A mode as reading a job leaves it. *)
Definition known_mode (job : BackupJob) : Prop :=
  job_ReplicationEnabled job = bool_decide (job_StorageMode job = StorageModeCopy)
  ∧ (job_StorageMode job = StorageModeCopy ∨ job_StorageMode job = StorageModeParallel
     ∨ job_StorageMode job = StorageModeSeparate).

Lemma scanJob_mode row : known_mode (scanJob row).
Proof.
  assert (∀ j, job_StorageMode (NormalizeConsistency j) = job_StorageMode j
    ∧ job_ReplicationEnabled (NormalizeConsistency j) = job_ReplicationEnabled j) as Hc.
  { intros j. unfold NormalizeConsistency. by destruct (NeedsFreeze _). }
  unfold known_mode, scanJob. generalize (scan_columns row). intros j.
  destruct (Hc (NormalizeStorageMode j)) as [-> ->].
  unfold NormalizeStorageMode. cbn. split; [done|].
  destruct (job_StorageMode j); auto; destruct (job_ReplicationEnabled j); auto.
Qed.

(** ** One request for each machine and storage *)
Lemma filter_none {A} (p : A → bool) l : (∀ x, x ∈ l → p x = false) → List.filter p l = [].
Proof.
  induction l as [|x l IH]; intros Hp; cbn; [done|]. rewrite Hp by by left.
  apply IH. intros y Hy. apply Hp. by right.
Qed.

Lemma filter_one {A} (p : A → bool) l x :
  NoDup l → x ∈ l → p x = true → (∀ y, y ∈ l → p y = true → y = x) → List.filter p l = [x].
Proof.
  induction l as [|y l IH]; intros Hnd Hx Hp Hone; [inversion Hx|]. apply NoDup_cons in Hnd as [Hy Hnd].
  cbn. destruct (p y) eqn:Hpy.
  - assert (y = x) as -> by (apply Hone; [left|done]). f_equal. apply filter_none.
    intros z Hz. apply not_true_is_false. intros Hpz.
    assert (z = x) as -> by (apply Hone; [by right|done]). done.
  - apply IH; [done| |done|]; [|intros z Hz; apply Hone; by right].
    apply elem_of_cons in Hx as [->|?]; [congruence|done].
Qed.

(** The requests of one machine. *)
Definition vm_requests (job : BackupJob) (run by_ : string) (vm : VM) : list RunRequest :=
  job_request job run by_ (write_targets job).2 vm <$> (write_targets job).1.

Lemma job_requests_bind job run by_ vms : job_requests job run by_ vms = vms ≫= vm_requests job run by_.
Proof. unfold job_requests, vm_requests. by destruct (write_targets job). Qed.

Lemma other_machine job run by_ vm vmID targetID :
  vm_ID vm ≠ vmID → List.filter (reaches job vmID targetID) (vm_requests job run by_ vm) = [].
Proof.
  intros Hne. apply filter_none. intros r Hr. apply list_elem_of_fmap in Hr as (t & -> & _).
  unfold reaches. cbn. by rewrite bool_decide_eq_false_2.
Qed.

Lemma own_machine job run by_ vm targetID :
  known_mode job → job_Type job ≠ BackupOVA → NoDup (job_StorageTargetIDs job) →
  targetID ∈ job_StorageTargetIDs job →
  ∃ r, List.filter (reaches job (vm_ID vm) targetID) (vm_requests job run by_ vm) = [r].
Proof.
  intros [Hrepl Hmode] Hova Hnd Hin. unfold vm_requests, write_targets.
  rewrite (bool_decide_eq_false_2 (job_Type job = _)) by done.
  destruct (job_StorageTargetIDs job) as [|t0 ids] eqn:Hids; [inversion Hin|].
  assert (∀ mirrors t, reaches job (vm_ID vm) targetID (job_request job run by_ mirrors vm t)
    = bool_decide (t = targetID) || bool_decide (targetID ∈ mirrors) || job_ReplicationEnabled job) as Hre.
  { intros mirrors t. unfold reaches. cbn. by rewrite bool_decide_eq_true_2. }
  destruct Hmode as [Hm|[Hm|Hm]]; rewrite Hm in *; cbn [fst snd].
  - exists (job_request job run by_ [] vm t0). cbn. by rewrite Hre, Hrepl, !orb_true_r.
  - exists (job_request job run by_ ids vm t0). cbn. rewrite Hre.
    apply elem_of_cons in Hin as [->|Hin]; [by rewrite bool_decide_eq_true_2|].
    by rewrite (bool_decide_eq_true_2 (targetID ∈ ids)), orb_true_r.
  - exists (job_request job run by_ [] vm targetID).
    rewrite (filter_one _ _ (job_request job run by_ [] vm targetID)); [done|..].
    + apply NoDup_fmap_2_strong; [|done]. intros x y _ _ [= Heq]. done.
    + by apply list_elem_of_fmap_2.
    + rewrite Hre. by rewrite bool_decide_eq_true_2.
    + intros r Hr. apply list_elem_of_fmap in Hr as (t & -> & _). rewrite Hre, Hrepl.
      rewrite (bool_decide_eq_false_2 (targetID ∈ [])) by (intros Hx; inversion Hx). cbn.
      rewrite !orb_false_r. by intros ->%bool_decide_eq_true.
Qed.

Lemma requests_cover job run by_ vms vm targetID :
  known_mode job → job_Type job ≠ BackupOVA → NoDup (job_StorageTargetIDs job) →
  NoDup (vm_ID <$> vms) → vm ∈ vms → targetID ∈ job_StorageTargetIDs job →
  ∃ r, List.filter (reaches job (vm_ID vm) targetID) (job_requests job run by_ vms) = [r].
Proof.
  intros Hmode Hova Hids Hnd Hvm Ht. rewrite job_requests_bind.
  destruct (own_machine job run by_ vm targetID Hmode Hova Hids Ht) as [r Hr]. exists r.
  induction vms as [|v vms IH]; [inversion Hvm|]. rewrite bind_cons, List.filter_app.
  cbn in Hnd. apply NoDup_cons in Hnd as [Hv Hnd].
  apply elem_of_cons in Hvm as [->|Hvm].
  - rewrite Hr. cbn. f_equal. apply filter_none. intros x Hx.
    apply list_elem_of_bind in Hx as (w & Hx & Hw). apply not_true_is_false. intros Hp.
    assert (vm_ID w ≠ vm_ID v) as Hne.
    { intros Heq. apply Hv. rewrite <-Heq. by apply list_elem_of_fmap_2. }
    assert (x ∈ List.filter (reaches job (vm_ID v) targetID) (vm_requests job run by_ w)) as Hin
      by by apply elem_of_filter_bool.
    rewrite other_machine in Hin by done. inversion Hin.
  - rewrite other_machine; [by apply IH|]. intros Heq. apply Hv. rewrite Heq. by apply list_elem_of_fmap_2.
Qed.

(** ** The whole call *)

(** The machines of the server of a job that its selector takes. *)
Definition selected (regexp_compile : string → option (string → bool)) (q : Queue) (job : BackupJob)
    (vm : VM) : Prop :=
  (∃ server, (server, vm) ∈ qu_vms q ∧ (job_ServerID job = ""%string ∨ server = job_ServerID job))
  ∧ ∃ sel, NewVMSelector regexp_compile job = Some sel ∧ (Match sel (Some vm)).1 = true.

(** The primary key of the machines. *)
Definition vms_keyed (q : Queue) : Prop := NoDup ((λ row, (row.1, vm_ID row.2)) <$> qu_vms q).

Section Call.
Context (regexp_compile : string → option (string → bool)) (next_time : string → option Z)
  (error_text : QueueError → string).

Lemma resolveVMs_run job q q' vms :
  resolveVMs regexp_compile job q = (q', Ok vms) →
  core q' = core q ∧ (∀ vm, vm ∈ vms ↔ selected regexp_compile q job vm)
  ∧ (vms_keyed q → job_ServerID job ≠ ""%string → NoDup (vm_ID <$> vms)).
Proof.
  intros Hrun. assert (leaves core (resolveVMs regexp_compile job)) as Hcore
    by (unfold resolveVMs, ListVMs, query; leaves_view).
  split; [by eapply (leaves_run core)|].
  apply bind_ok in Hrun as (q1 & all & Hall & Hrun). apply bind_ok in Hrun as (q2 & sel & Hsel & [= <- <-]).
  unfold lift in Hsel. destruct (NewVMSelector regexp_compile job) as [sel'|] eqn:Hnew; [|done].
  injection Hsel as <- <-.
  apply bind_ok in Hall as (q3 & [] & Hq & [= <- <-]).
  assert (qu_vms q3 = qu_vms q) as Hv.
  { eapply (leaves_run qu_vms); [|exact Hq]. by apply query_leaves. }
  rewrite Hv. split.
  - intros vm. rewrite elem_of_filter_bool, sort_stable_elem_of, list_elem_of_fmap. unfold selected.
    rewrite Hnew. split.
    + intros [([server v] & -> & [Hin Hs]%elem_of_filter_bool) Hm]. split; [|eauto]. exists server.
      split; [done|]. unfold unset_or in Hs. rewrite orb_true_iff, !bool_decide_eq_true in Hs. naive_solver.
    + intros [(server & Hin & Hs) (s & [= <-] & Hm)]. split; [|done]. exists (server, vm). split; [done|].
      apply elem_of_filter_bool. split; [done|]. unfold unset_or.
      rewrite orb_true_iff, !bool_decide_eq_true. naive_solver.
  - intros Hkey Hserver. apply NoDup_fmap_filter_bool.
    rewrite (fmap_Permutation _ _ _ (sort_stable_perm _ _)). rewrite <-list_fmap_compose.
    unfold vms_keyed in Hkey. clear Hv. induction (qu_vms q) as [|[server v] rows IH]; cbn; [constructor|].
    cbn in Hkey. apply NoDup_cons in Hkey as [Hnew' Hkey].
    destruct (unset_or (job_ServerID job) server) eqn:Hs; [|by apply IH]. cbn.
    unfold unset_or in Hs. rewrite orb_true_iff, !bool_decide_eq_true in Hs. destruct Hs as [?|Hs]; [done|]. apply NoDup_cons. split; [|by apply IH].
    intros ([server' v'] & Heq & [Hin Hs']%elem_of_filter_bool)%list_elem_of_fmap. cbn in *.
    unfold unset_or in Hs'. rewrite orb_true_iff, !bool_decide_eq_true in Hs'.
    destruct Hs' as [?|Hs']; [done|]. apply Hnew'. apply list_elem_of_fmap.
    exists (server', v'). cbn. split; [congruence|done].
Qed.

Lemma plan_job_spec now jobID by_ at_ q q' job vms run :
  plan_job regexp_compile now jobID by_ at_ q = (q', Ok (job, vms, run)) →
  core q' = core q ∧ (∃ row, qu_jobs q !! jobID = Some row ∧ job = scanJob row)
  ∧ run = new_job_run now job by_ at_ vms
  ∧ (∀ vm, vm ∈ vms ↔ selected regexp_compile q job vm)
  ∧ (vms_keyed q → job_ServerID job ≠ ""%string → NoDup (vm_ID <$> vms)).
Proof.
  intros Hrun. apply bind_ok in Hrun as (q1 & j & Hj & Hrun).
  apply bind_ok in Hj as (q2 & [] & Hq & Hj).
  assert (qu_vms q2 = qu_vms q ∧ qu_jobs q2 = qu_jobs q) as [Hv Hjobs].
  { split; [eapply (leaves_run qu_vms)|eapply (leaves_run qu_jobs)]; [|exact Hq| |exact Hq]; by apply query_leaves. }
  apply query_ok in Hq. rewrite get_run in Hj. unfold lift in Hj.
  destruct (qu_jobs q2 !! jobID) as [row|] eqn:Hrow; [|done]. injection Hj as <- <-.
  destruct (_ && _); [done|]. apply bind_ok in Hrun as (q3 & v & Hvms & [= <- <- <- <-]).
  apply resolveVMs_run in Hvms as (Hcore & Hsel & Hnd). split_and!; [congruence| |done|..].
  - exists row. by rewrite <-Hjobs.
  - intros vm. rewrite Hsel. unfold selected. by rewrite Hv.
  - unfold vms_keyed in *. by rewrite <-Hv.
Qed.

Lemma record_job_run_fields e job r q q' jr :
  record_job_run next_time e job r q = (q', Ok jr) →
  jr_TriggeredBy jr = jr_TriggeredBy r ∧ jr_ReplicaCount jr = jr_ReplicaCount r.
Proof.
  intros Hrun. apply try_inv in Hrun as (q1 & [jr'|err] & Hc & Hrun).
  - apply bind_ok in Hrun as (q2 & x & _ & [= <- <-]).
    apply bind_ok in Hc as (q3 & [] & _ & Hc). rewrite get_run in Hc.
    case_match; [done|]. by injection Hc as <- <-.
  - by rewrite (bind_run _ _ _ _ _ (releaseJob_run _ _)) in Hrun.
Qed.

Lemma enqueued_payloads now fresh (job : BackupJob) run reqs :
  tk_Payload <$> imap (λ i, queued_row now (fresh i)) (job_task job run <$> reqs)
  = (λ r, Some (mkQueued r job)) <$> reqs.
Proof.
  apply list_eq. intros i. rewrite !list_lookup_fmap, list_lookup_imap, list_lookup_fmap.
  by destruct (reqs !! i).
Qed.

Lemma enqueue_job_payloads e job vms run q q' :
  enqueue_job error_text e job vms run q = (q', Ok ()) →
  ∃ rows, qu_tasks q' = qu_tasks q ++ rows
    ∧ tk_Payload <$> rows
      = (λ r, Some (mkQueued r job)) <$> job_requests job (jr_ID run) (jr_TriggeredBy run) vms.
Proof.
  intros Hrun. apply try_inv in Hrun as (q1 & [[]|err] & Hc & Hrun).
  - apply in_transaction_run in Hc. injection Hrun as <-.
    apply insert_tasks_run in Hc as (_ & _ & Ht & _). eexists. split; [exact Ht|].
    apply enqueued_payloads.
  - exfalso. rewrite (bind_run _ _ _ _ _ (releaseJob_run _ _)) in Hrun.
    by apply try_inv in Hrun as (q2 & r & _ & [=]).
Qed.

(** C18. A start of a job that is not refused records one run with as many
    deliveries as the selected machines times the storages of the job, marks the
    job, and queues tasks with a copy of the job such that every selected machine
    reaches every storage of the job by exactly one of them. *)
Theorem trigger_covers e jobID by_ at_ q q' jr :
  TriggerJob regexp_compile next_time error_text e jobID by_ at_ q = (q', Ok (jr, false)) →
  jr_Status jr = RunRunning →
  ∃ row vms rows, let job := scanJob row in
    qu_jobs q !! jobID = Some row
    ∧ (∀ vm, vm ∈ vms ↔ selected regexp_compile q job vm)
    ∧ qu_tasks q' = qu_tasks q ++ rows ∧ (∀ t, t ∈ rows → new_row job jr t)
    ∧ tk_Payload <$> rows = (λ r, Some (mkQueued r job)) <$> job_requests job (jr_ID jr) by_ vms
    ∧ qu_job_runs q' !! jr_ID jr = Some jr ∧ jr_JobID jr = job_ID job ∧ job_ID job ∈ qu_active q'
    ∧ (job_Type job ≠ BackupOVA → vms_keyed q → job_ServerID job ≠ ""%string →
       NoDup (job_StorageTargetIDs job) →
       jr_ReplicaCount jr = Z.of_nat (length vms) * Z.of_nat (length (job_StorageTargetIDs job))
       ∧ ∀ vm targetID, vm ∈ vms → targetID ∈ job_StorageTargetIDs job →
           ∃ r, List.filter (reaches job (vm_ID vm) targetID) (job_requests job (jr_ID jr) by_ vms) = [r]).
Proof.
  intros Hrun Hst. apply bind_ok in Hrun as (q1 & [[job vms] run] & Hp & Hrun).
  apply plan_job_spec in Hp as (Hcore1 & (row & Hrow & ->) & -> & Hsel & Hnd).
  case_bool_decide as Hvms.
  { apply bind_ok in Hrun as (q2 & jr' & Hc & [= <- <-]). exfalso. revert Hc Hst.
    unfold CreateBackupJobRun. cbn. intros Hc. apply bind_ok in Hc as (q3 & [] & _ & Hc).
    rewrite get_run in Hc. case_match; [done|]. by injection Hc as <- <-. }
  apply bind_ok in Hrun as (q2 & busy & Hb & Hrun). apply HasOpenBackupTasks_run in Hb as [Hcore2 _].
  apply bind_ok in Hrun as (q3 & free & Hf & Hrun).
  destruct free; cbn [negb] in Hrun; [|by apply bind_ok in Hrun as (q4 & r & _ & [=])].
  assert (qu_tasks q3 = qu_tasks q ∧ job_ID (scanJob row) ∈ qu_active q3) as [Ht3 Ha3].
  { destruct busy; [done|]. unfold claimJob in Hf. revert Hf. run_st. case_bool_decide; [done|].
    intros [= <-]. cbn. split; [|set_solver].
    apply core_tasks in Hcore1, Hcore2. congruence. }
  apply bind_ok in Hrun as (q4 & jr' & Hr & Hrun). apply bind_ok in Hrun as (q5 & [] & He & [= <- <-]).
  pose proof (enqueue_job_payloads _ _ _ _ _ _ He) as (rows & Ht5 & Hpay).
  apply enqueue_job_run in He as (Hruns5 & Ha5 & _ & rows' & Ht5' & Hnew).
  rewrite Ht5 in Ht5'. apply app_inv_head in Ht5' as <-.
  pose proof (record_job_run_fields _ _ _ _ _ _ Hr) as (Hby & Hrep).
  apply record_job_run_run in Hr as (Hj & Hnone & Hruns4 & [= Ht4 Ha4]).
  exists row, vms, rows. cbn zeta. split_and!; try done.
  - by rewrite Ht5, Ht4, Ht3.
  - by rewrite Hpay, Hby.
  - by rewrite Hruns5, Hruns4, lookup_insert_eq.
  - by rewrite Ha5, Ha4.
  - intros Hova Hkey Hserver Hids. split.
    + rewrite Hrep. cbn. unfold replica_count. rewrite bool_decide_eq_false_2 by done. lia.
    + intros vm targetID Hvm Hin. apply requests_cover; try done; [apply scanJob_mode|by apply Hnd].
Qed.
End Call.
