(* ===== verification/JobSamples.v ===== *)
(** Runs of the scheduler that can be computed, step by step, and the theorems on
    jobs, tasks and outcomes at them: a job with two machines and two storages. *)

From S2P Require Import Prelude StateM GoTime GoStr Model Format Catalog Replicas Plan Jobs Replicator JobQueue.
From S2P Require Import Workers WorkerFacts Exclusive Stuck LastWorker Outcome JobFacts CatalogSamples.

(** ** Scripts *)

(** No regular expression compiles, no schedule has a next time. *)
Definition no_regexp (_ : string) : option (string → bool) := None.
Definition no_schedule (_ : string) : option Z := None.
Definition no_text (_ : QueueError) : string := "".

Inductive Action :=
| ToWorker (now : Z) (owner : string)
| ToSlot (owner : string)
| ToEnd (owner : string) (status : BackupTaskStatus) (effect : Catalog → Catalog)
| ToBeat (now : Z) (owner : string)
| ToStart (e : Fresh) (call job : string)
| ToCall (e : Fresh) (call : string)
| ToReplicator (now : Z) (run target : string).

Definition done_status (st : BackupTaskStatus) : bool :=
  match st with BackupTaskSucceeded | BackupTaskFailed => true | _ => false end.

Definition outcome_of {A B} (r : A * result QueueError B) (f : A → B → System) : option System :=
  match r with (q, Ok b) => Some (f q b) | _ => None end.

Definition act (a : Action) (s : System) : option System :=
  match a with
  | ToWorker now owner =>
    if bool_decide (owner = ""%string) then None else
    outcome_of (worker_step no_schedule now owner (sy_workers s !! owner) (sy_queue s))
      (λ q p, set_worker owner p q s)
  | ToSlot owner =>
    match sy_workers s !! owner with
    | Some (Waiting t) =>
      if bool_decide (slots_used s (tk_JobID t) < slots_of s t)%nat
      then Some (mkSystem (sy_queue s) (<[owner := Executing t]> (sy_workers s)) (sy_calls s)
        (<[tk_JobID t := slots_of s t]> (sy_slots s))) else None
    | _ => None
    end
  | ToEnd owner status effect =>
    match sy_workers s !! owner with
    | Some (Executing t) =>
      if done_status status
      then Some (set_worker owner (Some (Ended t status "")) (with_catalog (effect (qu_catalog (sy_queue s))) (sy_queue s)) s)
      else None
    | _ => None
    end
  | ToBeat now owner =>
    match sy_workers s !! owner with
    | Some (Executing t) =>
      Some (set_queue (RenewBackupTaskLease now (tk_ID t) owner backupTaskLease (sy_queue s)).1 s)
    | _ => None
    end
  | ToStart e c job =>
    match sy_calls s !! c with
    | None => outcome_of (call_start no_regexp e job "operator" None (sy_queue s)) (λ q p, set_call c p q s)
    | Some _ => None
    end
  | ToCall e c =>
    match sy_calls s !! c with
    | Some p => outcome_of (call_step no_schedule no_text e p (sy_queue s)) (λ q p', set_call c p' q s)
    | None => None
    end
  | ToReplicator now run target => Some (set_queue (recalculateJobRun now run target (sy_queue s)).1 s)
  end.

Lemma outcome_of_Some {A B} (r : A * result QueueError B) f s :
  outcome_of r f = Some s → ∃ q b, r = (q, Ok b) ∧ s = f q b.
Proof. destruct r as [q [b|e]]; cbn; [|done]. intros [= <-]. by exists q, b. Qed.

Lemma perform_step a s s' : act a s = Some s' → step no_regexp no_schedule no_text s s'.
Proof.
  destruct a; cbn; intros Hp.
  - case_bool_decide; [done|]. apply outcome_of_Some in Hp as (q & p & Hrun & ->). by eapply step_worker.
  - destruct (sy_workers s !! owner) as [[| t | | | | | |]|] eqn:Hw; try done.
    case_bool_decide; [|done]. injection Hp as <-. by apply step_slot.
  - destruct (sy_workers s !! owner) as [[| | t | | | | |]|] eqn:Hw; try done.
    destruct status; try done; injection Hp as <-; apply (step_executed _ _ _ _ _ t); try done; auto.
  - destruct (sy_workers s !! owner) as [[| | t | | | | |]|] eqn:Hw; try done.
    injection Hp as <-. by apply step_heartbeat.
  - destruct (sy_calls s !! call) eqn:Hc; [done|]. apply outcome_of_Some in Hp as (q & p & Hrun & ->).
    by eapply step_call.
  - destruct (sy_calls s !! call) eqn:Hc; [|done]. apply outcome_of_Some in Hp as (q & p & Hrun & ->).
    by eapply step_called.
  - injection Hp as <-. apply step_replicator.
Qed.

(** Every step from a state in which no statement fails. *)
Fixpoint play (actions : list Action) (s : System) : option System :=
  match actions with
  | [] => Some s
  | a :: actions =>
    if bool_decide (ca_faults (qu_catalog (sy_queue s)) = [])
    then match act a s with Some s' => play actions s' | None => None end else None
  end.

Lemma play_calm actions s s' :
  play actions s = Some s' → rtc (calm_step no_regexp no_schedule no_text) s s'.
Proof.
  revert s. induction actions as [|a actions IH]; intros s; cbn; [by intros [= ->]|].
  case_bool_decide; [|done]. destruct (act a s) as [s1|] eqn:Hp; [|done].
  intros Hplay. eapply rtc_l; [|by apply IH]. split; [done|by eapply perform_step].
Qed.

Lemma play_steps actions s s' : play actions s = Some s' → rtc (step no_regexp no_schedule no_text) s s'.
Proof. intros Hp%play_calm. eapply (rtc_congruence id); [|exact Hp]. by intros x y [_ H]. Qed.

(** ** Two machines, two storages *)
Definition nightly : BackupJob := {|
  job_ID := "job"; job_Name := "nightly"; job_Enabled := true; job_ServerID := "srv"; job_VMIDs := [];
  job_VMNameRegex := ""; job_ClusterIDs := []; job_Tags := []; job_ExcludeVMIDs := [];
  job_ExcludeDiskIDs := []; job_Type := BackupFull; job_FullEvery := 0;
  job_FallbackType := BackupSnapshot; job_LegacyIncrementalMode := LegacyNone; job_Schedule := "";
  job_MaxDuration := 90 * Second; job_StorageTargetIDs := ["t1"; "t2"];
  job_StorageMode := StorageModeCopy; job_ReplicationEnabled := true; job_ForceFullNext := false;
  job_OVAHostID := ""; job_OVADirectory := ""; job_Retention := mkRetentionPolicy 0 0 0 0 0 0 0;
  job_Quiesce := false; job_Consistency := ConsistencyCrash; job_RequireConsistency := false;
  job_MaxFreeze := 0; job_FreezeBy := FreezeByService; job_FreezeMountpoints := [];
  job_MaxReadMBps := 0; job_VerifyAfter := VerifyOther "";
  job_VerifyOptions := mkVerifyOptions "" "" 0 0 0 false false "" "" "" "" ""; job_ExportQcow2 := false;
  job_Encrypt := false; job_Priority := 0; job_Concurrency := 1; job_LastRunAt := None;
  job_LastStatus := RunStatusOther ""; job_NextRunAt := None; job_CreatedAt := 0; job_UpdatedAt := 0
|}%string.

Definition empty_catalog : Catalog :=
  mkCatalog [] [] [] ∅ [] {["t1"%string := sample_target "t1"; "t2"%string := sample_target "t2"]} [] ∅ ∅ ∅ [].

Definition first_queue : Queue :=
  mkQueue empty_catalog {["job"%string := job_row nightly]}
    [("srv", mkVM "vm1" "alpha" "" []); ("srv", mkVM "vm2" "beta" "" [])]%string ∅ [] ∅.

Definition names (run : string) (now : Z) : Fresh := mkFresh now run (λ i, run +:+ "-" +:+ pretty i).

(** What the backup of a machine leaves in the catalogue: its run, a primary
    copy, a replica that waits. *)
Definition vm_backup (run vm : string) : BackupRun :=
  mkBackupRun run "jr" "job" "srv" vm vm BackupFull RunSucceeded "" run 0 "t1" (run +:+ "/") "" "" "" ""
    LegacyNone 1 0 100 false "" "" false None "" None None None None 0 [].

Definition copy_of (run target : string) (role : BackupCopyRole) (st : BackupCopyStatus) : BackupCopy :=
  mkBackupCopy (run +:+ target) run target role true st (run +:+ "/") "" "" 3 3 100 100 0 "" None "" None
    None None None 0 0.

Definition backed_up (run vm : string) (replica : BackupCopyStatus) (c : Catalog) : Catalog :=
  with_copies (ca_copies c ++ [copy_of run "t1" CopyPrimary CopySucceeded; copy_of run "t2" CopyReplica replica])
    (with_runs (<[run := vm_backup run vm]> (ca_runs c)) c).

(** The start of the job by a call [c]: five statements. *)
Definition starts (c run : string) (now : Z) : list Action :=
  ToStart (names run now) c "job" :: replicate 4 (ToCall (names run now) c).

(** A worker takes a task, marks the job, gets a slot and backs the machine up. *)
Definition executes (owner run vm : string) (replica : BackupCopyStatus) : list Action :=
  [ToWorker 5 owner; ToWorker 5 owner; ToSlot owner; ToBeat 6 owner;
   ToEnd owner BackupTaskSucceeded (backed_up run vm replica)].

Definition after (actions : list Action) : System :=
  default (first_start first_queue) (play actions (first_start first_queue)).

Definition the_task (s : System) (i : nat) : BackupTask :=
  default (mkBackupTask "" "" "" "" "" 0 0 None BackupTaskFailed "" None None "" 0 0) (qu_tasks (sy_queue s) !! i).

Definition plays (actions : list Action) (s : System) : bool :=
  match play actions s with Some _ => true | None => false end.

Lemma after_calm actions :
  plays actions (first_start first_queue) = true →
  rtc (calm_step no_regexp no_schedule no_text) (first_start first_queue) (after actions).
Proof.
  unfold plays, after. destruct (play actions (first_start first_queue)) as [s|] eqn:Hp; [|done].
  intros _. by eapply play_calm.
Qed.

Lemma calm_moves s s' :
  rtc (calm_step no_regexp no_schedule no_text) s s' → rtc (moves no_regexp no_schedule no_text) s s'.
Proof. apply (rtc_congruence id). intros x y [_ H]. by apply moves_step. Qed.

Lemma default_steps actions s :
  rtc (step no_regexp no_schedule no_text) s (default s (play actions s)).
Proof. destruct (play actions s) as [s'|] eqn:Hp; [by eapply play_steps|apply rtc_refl]. Qed.

Lemma none_open s :
  existsb task_open (qu_tasks (sy_queue s)) = false → ∀ u, u ∈ qu_tasks (sy_queue s) → task_open u = false.
Proof.
  intros Hnone u Hu. apply not_true_is_false. intros Ho. rewrite (proj2 (existsb_exists _ _)) in Hnone; [done|].
  exists u. by rewrite <-list_elem_of_In.
Qed.

Definition in_queue (s : System) (i : nat) : bool := (i <? length (qu_tasks (sy_queue s)))%nat.

Lemma the_task_in s i : in_queue s i = true → the_task s i ∈ qu_tasks (sy_queue s).
Proof.
  unfold in_queue, the_task. rewrite Nat.ltb_lt. intros Hi.
  destruct (lookup_lt_is_Some_2 _ _ Hi) as [t Ht]. rewrite Ht. by eapply list_elem_of_lookup_2.
Qed.

(** Both machines are in work, one by each of two workers; a second call has been
    told that the job is busy. *)
Definition two_workers_script : list Action :=
  starts "c" "jr" 1 ++ [ToWorker 5 "w1"; ToWorker 5 "w1"; ToWorker 5 "w2"; ToSlot "w1";
    ToStart (names "jr2" 7) "d" "job"; ToCall (names "jr2" 7) "d"; ToCall (names "jr2" 7) "d"]%string.
Definition two_workers : System := after two_workers_script.

Lemma runs_exclusive_witness :
  tk_ID (the_task two_workers 0) ≠ tk_ID (the_task two_workers 1)
  ∧ tk_JobRunID (the_task two_workers 0) = tk_JobRunID (the_task two_workers 1)
  ∧ (jr_Status <$> qu_job_runs (sy_queue two_workers) !! "jr2"%string) = Some RunFailed.
Proof.
  split; [by vm_compute|]. split; [|by vm_compute].
  apply (runs_exclusive no_regexp no_schedule no_text first_queue two_workers).
  - reflexivity.
  - apply calm_moves, (after_calm two_workers_script). vm_compute. reflexivity.
  - apply the_task_in. vm_compute. reflexivity.
  - apply the_task_in. vm_compute. reflexivity.
  - vm_compute. reflexivity.
  - vm_compute. reflexivity.
  - vm_compute. reflexivity.
Defined.

(** The replica of the first machine is ready, and the replicator settles the run,
    before the second machine is backed up. *)
Definition settled_early_script : list Action :=
  starts "c" "jr" 1 ++ executes "w1" "run1" "vm1" CopySucceeded ++ [ToReplicator 8 "run1" "t2"]%string.
Definition settled_early : System := after settled_early_script.

(** The second machine is backed up, and the job is started again. *)
Definition later_script : list Action :=
  [ToWorker 9 "w1"; ToWorker 9 "w1"] ++ executes "w1" "run2" "vm2" CopySucceeded
  ++ replicate 3 (ToWorker 10 "w1")
  ++ ToStart (names "jr2" 11) "d" "job" :: replicate 3 (ToCall (names "jr2" 11) "d").
Definition still_stuck : System := default settled_early (play later_script settled_early).

Lemma early_outcome_blocks_job_witness :
  "job"%string ∈ qu_active (sy_queue still_stuck)
  ∧ (task_open <$> qu_tasks (sy_queue still_stuck)) = [false; false]
  ∧ (jr_Status <$> qu_job_runs (sy_queue still_stuck) !! "jr"%string) = Some RunPartial
  ∧ (jr_Error <$> qu_job_runs (sy_queue still_stuck) !! "jr2"%string) = Some busy_text.
Proof.
  split; [|split; [|split]; vm_compute; reflexivity].
  destruct (early_outcome_blocks_job no_regexp no_schedule no_text first_queue settled_early still_stuck
    (the_task settled_early 1)) as [Ha _].
  - reflexivity.
  - apply calm_moves, (after_calm settled_early_script). vm_compute. reflexivity.
  - apply the_task_in. vm_compute. reflexivity.
  - vm_compute. reflexivity.
  - apply (bool_decide_unpack _). vm_compute. exact I.
  - apply (bool_decide_unpack _). vm_compute. exact I.
  - exact (default_steps later_script settled_early).
  - assert (tk_JobID (the_task settled_early 1) = "job"%string) as Hj by (vm_compute; reflexivity).
    by rewrite Hj in Ha.
Defined.

(** Two workers have backed up one machine each and have ended their tasks; both
    are about to count the open ones. *)
Definition both_ended_script : list Action :=
  starts "c" "jr" 1 ++ executes "w1" "run1" "vm1" CopyPending ++ [ToWorker 7 "w1"]
  ++ [ToWorker 8 "w1"] ++ executes "w1" "run2" "vm2" CopySucceeded ++ [ToWorker 9 "w1"].
Definition both_ended : System := after both_ended_script.

Lemma last_worker_finishes_witness :
  ∃ owner u, (sy_workers both_ended !! owner = Some (Counting u) ∨ sy_workers both_ended !! owner = Some (Electing u))
    ∧ tk_JobRunID u = tk_JobRunID (the_task both_ended 0).
Proof.
  apply (last_worker_finishes no_regexp no_schedule no_text first_queue both_ended).
  - reflexivity.
  - apply (after_calm both_ended_script). vm_compute. reflexivity.
  - apply the_task_in. vm_compute. reflexivity.
  - vm_compute. discriminate.
  - intros u Hu _. revert u Hu. apply none_open. vm_compute. reflexivity.
  - vm_compute. reflexivity.
Defined.

(** The worker goes on: a replica is still to be made, the job is free. *)
Example then_finished :
  match play (replicate 4 (ToWorker 10 "w1")) both_ended with
  | Some s => (jr_Status <$> qu_job_runs (sy_queue s) !! "jr"%string, bool_decide (qu_active (sy_queue s) = ∅))
  | None => (None, false)
  end = (Some RunWaitingCopies, true).
Proof. vm_compute. reflexivity. Qed.

(** ** Outcomes *)
Definition ended_queue : Queue := sy_queue both_ended.
Definition ended_run : BackupJobRun :=
  default (new_job_run 0 nightly "" None []) (qu_job_runs ended_queue !! "jr"%string).


Definition ended_job : JobRow := default (job_row nightly) (qu_jobs ended_queue !! "job"%string).

Lemma outcomes_agree_witness :
  qu_job_runs (recalculateJobRun 10 "run1" "t2" ended_queue).1 !! "jr"%string
  = qu_job_runs (finishJob no_schedule 10 (scanJob ended_job) ended_run ended_queue).1 !! "jr"%string.
Proof.
  apply (outcomes_agree no_schedule 10 ended_job ended_run (vm_backup "run1" "vm1") "run1" "t2" ended_queue).
  - vm_compute. reflexivity.
  - vm_compute. reflexivity.
  - vm_compute. reflexivity.
  - vm_compute. discriminate.
  - vm_compute. reflexivity.
  - vm_compute. discriminate.
  - vm_compute. reflexivity.
  - apply (bool_decide_unpack _). vm_compute. exact I.
  - vm_compute. reflexivity.
  - vm_compute. reflexivity.
  - apply (bool_decide_unpack _). vm_compute. exact I.
Defined.

(** ** The start of the job *)
Definition started : Queue * result QueueError (BackupJobRun * bool) :=
  TriggerJob no_regexp no_schedule no_text (names "jr" 1) "job" "operator" None first_queue.
Definition started_run : BackupJobRun :=
  match started.2 with Ok (jr, _) => jr | Err _ => ended_run end.

Lemma trigger_covers_witness :
  ∃ vms rows, qu_tasks started.1 = rows
    ∧ tk_Payload <$> rows = (λ r, Some (mkQueued r nightly)) <$> job_requests nightly "jr" "operator" vms
    ∧ jr_ReplicaCount started_run = Z.of_nat (length vms) * 2 ∧ "job"%string ∈ qu_active started.1.
Proof.
  destruct (trigger_covers no_regexp no_schedule no_text (names "jr" 1) "job" "operator" None first_queue
    started.1 started_run) as (row & vms & rows & Hrow & _ & Ht & _ & Hp & _ & _ & Ha & Hc).
  - vm_compute. reflexivity.
  - vm_compute. reflexivity.
  - assert (row = job_row nightly) as -> by (vm_compute in Hrow; by injection Hrow).
    exists vms, rows. split; [exact Ht|]. split; [exact Hp|]. split; [|exact Ha].
    destruct Hc as [Hn _].
    + discriminate.
    + apply (bool_decide_unpack _). vm_compute. exact I.
    + discriminate.
    + apply (bool_decide_unpack _). vm_compute. exact I.
    + exact Hn.
Defined.

(** ** Jobs *)
Definition named_anew : BackupJob :=
  set_job_VerifyOptions (mkVerifyOptions "" "disk" 512 0 600 true false "engine" "cluster" "" "" "")
    (set_job_columns "" (BackupOther "") 0 0 0 nightly).

Lemma job_roundtrip_witness :
  ∃ q' j', CreateBackupJob 5 "job2" named_anew first_queue = (q', Ok j')
    ∧ job_ID j' = "job2"%string ∧ GetBackupJob "job2" q' = (q', Ok j').
Proof.
  destruct (job_roundtrip 5 "job2" named_anew first_queue) as (q' & j' & Hc & Hg & Hs).
  - reflexivity.
  - vm_compute. reflexivity.
  - assert (job_ID j' = "job2"%string) as Hid by (vm_compute in Hc; by injection Hc as <- <-).
    rewrite Hid, Hs in Hg; [by exists q', j'|..].
    + split; vm_compute; congruence.
    + split; vm_compute; congruence.
    + exists 90. reflexivity.
    + exists 0. reflexivity.
    + reflexivity.
Defined.

Definition separate_queue : Queue :=
  with_jobs {["job"%string := job_row (set_job_StorageMode StorageModeSeparate false nightly)]} first_queue.

Lemma enable_replication_ineffective_witness :
  ∃ q' job, EnableJobReplication 5 "job" separate_queue = (q', Ok ()) ∧ GetBackupJob "job" q' = (q', Ok job)
    ∧ job_ReplicationEnabled job = false ∧ (write_targets job).1 = ["t1"; "t2"]%string.
Proof.
  destruct (enable_replication_ineffective 5 "job" (job_row (set_job_StorageMode StorageModeSeparate false nightly))
    separate_queue) as (q' & job & He & Hg & Hr & _ & Hw & _).
  - reflexivity.
  - reflexivity.
  - left. reflexivity.
  - exists q', job. split; [exact He|]. split; [exact Hg|]. split; [exact Hr|]. rewrite Hw. reflexivity.
Defined.
