(* ===== verification/Leases.v ===== *)
(** The leases of the replication queue: which copies a worker takes, that every
    waiting copy is taken in the end, and how a worker loses a lease it has
    renewed. *)

From stdpp Require Import sorting.
From S2P Require Import Prelude StateM GoTime GoStr Model Format Layout Catalog Replicas Replicator.

(** Identifiers are unique. *)
Definition copies_keyed (c : Catalog) : Prop := NoDup (cp_ID <$> ca_copies c).

Section Updates.
Lemma find_copy c q : copies_keyed c → q ∈ ca_copies c →
  List.find (has_copy_id (cp_ID q)) (ca_copies c) = Some q.
Proof.
  unfold copies_keyed. induction (ca_copies c) as [|x xs IH]; cbn; [by intros _ ?%elem_of_nil|].
  intros [Hx Hnd]%NoDup_cons [->|Hq]%elem_of_cons; unfold has_copy_id at 1.
  - by rewrite bool_decide_true.
  - rewrite bool_decide_false; [by apply IH|]. intros Heq. apply Hx. rewrite Heq. by apply list_elem_of_fmap_2.
Qed.

Lemma GetBackupCopy_run c q : ca_faults c = [] → copies_keyed c → q ∈ ca_copies c →
  GetBackupCopy (cp_ID q) c = (c, Ok q).
Proof.
  intros Hf Hk Hq. unfold GetBackupCopy. rewrite statement_then by done.
  rewrite get_run. unfold lift. change (λ p, bool_decide (cp_ID p = cp_ID q)) with (has_copy_id (cp_ID q)).
  by rewrite find_copy.
Qed.

Lemma get_copies_run c qs : ca_faults c = [] → copies_keyed c → (∀ q, q ∈ qs → q ∈ ca_copies c) →
  get_copies (cp_ID <$> qs) c = (c, Ok qs).
Proof.
  intros Hf Hk. induction qs as [|q qs IH]; intros Hin; cbn; [done|].
  erewrite bind_run by (apply GetBackupCopy_run; [done|done|]; apply Hin; by left).
  erewrite bind_run by (apply IH; intros x Hx; apply Hin; by right). done.
Qed.
End Updates.

(** * What a claim takes *)
Section Claims.
Context (now : Z) (worker : string) (lease : Z).

(** A row after a claim of [ids]. *)
Definition after_claim (ids : list string) (q : BackupCopy) : BackupCopy :=
  if bool_decide (cp_ID q ∈ ids) then take_lease worker (now + lease) now q else q.

Lemma after_claim_id ids q : cp_ID (after_claim ids q) = cp_ID q.
Proof. unfold after_claim. by case_bool_decide. Qed.

Lemma claimed_elem limit c p : p ∈ claimed_copies now limit c → p ∈ ca_copies c ∧ claimable now c p = true.
Proof.
  intros Hp. apply elem_of_filter_bool. rewrite <-(sort_stable_elem_of older).
  rewrite <-(take_drop limit). apply elem_of_app. by left.
Qed.

Lemma claimed_nodup limit c : copies_keyed c → NoDup (cp_ID <$> claimed_copies now limit c).
Proof.
  intros Hk. unfold claimed_copies. rewrite fmap_take. eapply sublist_NoDup; [|apply sublist_take].
  rewrite sort_stable_perm. by apply NoDup_fmap_filter_bool.
Qed.

Lemma claim_run limit c : ca_faults c = [] → copies_keyed c → 0 < limit → 0 < lease →
  ClaimBackupCopies now worker limit lease c
  = (with_copies (after_claim (cp_ID <$> claimed_copies now (Z.to_nat limit) c) <$> ca_copies c) c,
     Ok (take_lease worker (now + lease) now <$> claimed_copies now (Z.to_nat limit) c)).
Proof.
  intros Hf Hk Hlim Hl. unfold ClaimBackupCopies.
  destruct (Z.leb_spec limit 0); [lia|]. destruct (Z.leb_spec lease 0); [lia|].
  rewrite statement_then by done. rewrite get_run. set (qs := claimed_copies now (Z.to_nat limit) c).
  set (c' := with_copies (after_claim (cp_ID <$> qs) <$> ca_copies c) c).
  change (get_copies (cp_ID <$> qs) c' = (c', Ok (take_lease worker (now + lease) now <$> qs))).
  replace (get_copies (cp_ID <$> qs)) with (get_copies (cp_ID <$> (take_lease worker (now + lease) now <$> qs)))
    by by rewrite <-list_fmap_compose.
  apply get_copies_run; [done| |].
  - unfold copies_keyed, c'. cbn. rewrite <-list_fmap_compose.
    rewrite (list_fmap_ext _ cp_ID); [done|]. intros i x _. apply after_claim_id.
  - intros x (q & -> & Hq)%list_elem_of_fmap. cbn. apply list_elem_of_fmap. exists q.
    split; [|by apply claimed_elem in Hq as [? _]].
    unfold after_claim. by rewrite bool_decide_true by by apply list_elem_of_fmap_2.
Qed.

(** A copy under a live lease is not claimable. *)
Lemma leased_not_claimable c q u :
  cp_Status q = CopyCopying ∨ cp_Status q = CopyVerifying → cp_LockedUntil q = Some u → now < u →
  claimable now c q = false.
Proof.
  intros Hst Hu Hnow. unfold claimable, copy_due. rewrite Hu.
  rewrite (bool_decide_false (cp_Status q = CopyPending ∨ cp_Status q = CopyFailed))
    by (destruct Hst as [-> | ->]; by intros [?|?]).
  destruct (Z.leb_spec u now); [lia|]. by rewrite !andb_false_r.
Qed.
End Claims.

Section ClaimFacts.
(** C25. A claim takes copies that wait and are due, or whose lease has run out,
    never more than the limit, never a younger one before an older one, and all
    of them when the limit allows; it hands them over in the worker's name and
    changes no other copy; and until that lease ends nobody else can claim
    them. *)
Theorem claim_exact now worker limit lease c :
  ca_faults c = [] → copies_keyed c → 0 < limit → 0 < lease →
  ∃ qs c', ClaimBackupCopies now worker limit lease c
      = (c', Ok (take_lease worker (now + lease) now <$> qs))
    ∧ (∀ q, q ∈ qs → q ∈ ca_copies c ∧ claimable now c q = true)
    ∧ Z.of_nat (length qs) ≤ limit
    ∧ (∀ q q', q ∈ qs → q' ∈ ca_copies c → claimable now c q' = true → q' ∉ qs →
         cp_CreatedAt q ≤ cp_CreatedAt q' ∧ limit ≤ Z.of_nat (length qs))
    ∧ (∀ q, q ∈ ca_copies c → q ∉ qs → q ∈ ca_copies c')
    ∧ ∀ q now', q ∈ qs → now' < now + lease →
        ∀ q', q' ∈ ca_copies c' → cp_ID q' = cp_ID q → claimable now' c' q' = false.
Proof.
  intros Hf Hk Hlim Hl. rewrite claim_run by done.
  set (qs := claimed_copies now (Z.to_nat limit) c). set (all := List.filter (claimable now c) (ca_copies c)).
  eexists qs, _. split; [done|]. split_and!.
  - apply claimed_elem.
  - unfold qs, claimed_copies. rewrite length_take. lia.
  - intros q q' Hq Hq' Hc' Hno. fold all in qs.
    assert (q' ∈ drop (Z.to_nat limit) (sort_stable older all)) as Hdrop.
    { assert (q' ∈ sort_stable older all) as Hin.
      { rewrite sort_stable_elem_of. by apply elem_of_filter_bool. }
      rewrite <-(take_drop (Z.to_nat limit)) in Hin. by apply elem_of_app in Hin as [?|?]. }
    split.
    + assert (StronglySorted (not_after older) (sort_stable older all)) as Hs.
      { apply sort_stable_sorted; unfold older, not_after.
        - intros x y. lia.
        - intros x y z. lia. }
      rewrite <-(take_drop (Z.to_nat limit)) in Hs.
      pose proof (StronglySorted_app_1_elem_of _ _ _ q q' Hs Hq Hdrop) as Hle.
      unfold not_after, older in Hle. lia.
    + unfold qs, claimed_copies. fold all. rewrite length_take.
      assert (0 < length (drop (Z.to_nat limit) (sort_stable older all)))%nat as Hlen.
      { destruct (drop _ _); [by apply elem_of_nil in Hdrop|cbn; lia]. }
      rewrite length_drop in Hlen. lia.
  - intros q Hq Hno. cbn. apply list_elem_of_fmap. exists q. split; [|done].
    unfold after_claim. rewrite bool_decide_false; [done|].
    intros (x & Hx & Hxq)%list_elem_of_fmap. apply Hno.
    assert (q = x) as ->; [|done]. apply (NoDup_fmap_inj cp_ID (ca_copies c)); [done|done| |done].
    by apply claimed_elem in Hxq as [? _].
  - intros q now' Hq Hnow q' (x & -> & Hx)%list_elem_of_fmap Hid.
    rewrite after_claim_id in Hid. unfold after_claim.
    rewrite bool_decide_true by (rewrite Hid; by apply list_elem_of_fmap_2).
    eapply leased_not_claimable; [by left|done|done].
Qed.
End ClaimFacts.

(** * Every waiting copy is taken *)

(** Workers that ask one after another, each for one copy. *)
Fixpoint drain (now lease : Z) (workers : list string) : CM (list BackupCopy) :=
  match workers with
  | [] => mret []
  | w :: workers =>
    ps ← ClaimBackupCopies now w 1 lease ;
    qs ← drain now lease workers ;
    mret (ps ++ qs)
  end.

Definition waiting_copies (now : Z) (c : Catalog) : list BackupCopy :=
  List.filter (claimable now c) (ca_copies c).

Section Drain.
Context (now lease : Z) (lease_pos : 0 < lease).

Lemma waiting_nodup c : copies_keyed c → NoDup (cp_ID <$> waiting_copies now c).
Proof. apply NoDup_fmap_filter_bool. Qed.

(** One claim takes one waiting copy out of the queue, if there is one. *)
Lemma claim_one w c : ca_faults c = [] → copies_keyed c →
  ∃ ps c', ClaimBackupCopies now w 1 lease c = (c', Ok ps)
    ∧ ca_faults c' = [] ∧ copies_keyed c'
    ∧ cp_ID <$> waiting_copies now c ≡ₚ (cp_ID <$> ps) ++ (cp_ID <$> waiting_copies now c')
    ∧ (waiting_copies now c = [] ∨ length ps = 1%nat).
Proof using lease_pos.
  intros Hf Hk. rewrite claim_run by (done || lia). change (Z.to_nat 1) with 1%nat.
  set (qs := claimed_copies now 1 c). set (c' := with_copies _ c). eexists _, c'. split; [done|]. split; [done|].
  assert (copies_keyed c') as Hk'.
  { unfold copies_keyed, c'. cbn. rewrite <-list_fmap_compose.
    rewrite (list_fmap_ext _ cp_ID); [done|]. intros i x _. apply after_claim_id. }
  split; [done|]. rewrite <-list_fmap_compose. cbn [take_lease cp_ID]. split.
  - apply NoDup_Permutation; [by apply waiting_nodup| |].
    { apply NoDup_app. split; [by apply (claimed_nodup now 1 c)|]. split; [|by apply waiting_nodup].
      intros id (q & -> & Hq)%list_elem_of_fmap (x & Hx & [Hin Hc]%elem_of_filter_bool)%list_elem_of_fmap.
      apply list_elem_of_fmap in Hin as (y & -> & Hy). rewrite after_claim_id in Hx. cbn in Hx.
      unfold after_claim in Hc.
      rewrite bool_decide_true in Hc by (rewrite <-Hx; by apply list_elem_of_fmap_2).
      rewrite (leased_not_claimable now c' _ (now + lease)) in Hc; [done|by left|done|lia]. }
    intros id. rewrite elem_of_app, !list_elem_of_fmap. split.
    + intros (q & -> & [Hq Hc]%elem_of_filter_bool).
      destruct (decide (cp_ID q ∈ cp_ID <$> qs)) as [(x & Hx & Hin)%list_elem_of_fmap|Hno].
      * left. by exists x.
      * right. exists q. split; [done|]. apply elem_of_filter_bool. split; [|done].
        apply list_elem_of_fmap. exists q. split; [|done]. unfold after_claim. by rewrite bool_decide_false.
    + intros [(q & -> & [Hq Hc]%claimed_elem)|(q & -> & [Hq Hc]%elem_of_filter_bool)].
      * exists q. split; [done|]. by apply elem_of_filter_bool.
      * apply list_elem_of_fmap in Hq as (x & -> & Hx). rewrite after_claim_id. exists x. split; [done|].
        apply elem_of_filter_bool. split; [done|]. unfold after_claim in Hc.
        case_bool_decide; [|done].
        rewrite (leased_not_claimable now c' _ (now + lease)) in Hc; [done|by left|done|lia].
  - rewrite length_fmap. unfold qs, claimed_copies. rewrite length_take. fold (waiting_copies now c).
    rewrite sort_stable_length. destruct (waiting_copies now c); [by left|right]. cbn. lia.
Qed.

(** When as many workers ask as there are copies that wait and are due or
    whose worker has died, every one of these copies is handed to a worker, each
    exactly once, and none is left waiting. *)
Theorem queue_drains workers c :
  ca_faults c = [] → copies_keyed c → (length (waiting_copies now c) ≤ length workers)%nat →
  ∃ ps c', drain now lease workers c = (c', Ok ps)
    ∧ cp_ID <$> ps ≡ₚ cp_ID <$> waiting_copies now c ∧ waiting_copies now c' = [].
Proof using lease_pos.
  revert c. induction workers as [|w workers IH]; intros c Hf Hk Hlen; cbn [drain].
  { exists [], c. destruct (waiting_copies now c) eqn:E; [done|cbn in Hlen; lia]. }
  destruct (claim_one w c Hf Hk) as (ps & c1 & Hrun & Hf1 & Hk1 & Hperm & Hone).
  rewrite (bind_run _ _ _ _ _ Hrun).
  assert (length (waiting_copies now c) = length ps + length (waiting_copies now c1))%nat as Hlen1.
  { apply Permutation_length in Hperm. rewrite length_app, !length_fmap in Hperm. done. }
  destruct (IH c1 Hf1 Hk1) as (qs & c' & Hrun' & Hperm' & Hempty).
  { cbn in Hlen. destruct Hone as [Hnil|Hone]; [rewrite Hnil in Hlen1; cbn in Hlen1; lia|lia]. }
  rewrite (bind_run _ _ _ _ _ Hrun'). exists (ps ++ qs), c'. split; [done|]. split; [|done].
  by rewrite fmap_app, Hperm, Hperm'.
Qed.
End Drain.

(** * A lease that was renewed and lost *)
Section Rewind.
(** A worker that has renewed its lease loses it by its own hand: the copy
    it holds in memory still has the date of the claim, and saving the copy
    writes that date back. From then on another worker may claim the copy,
    although the renewed lease has not ended, and before the save nobody
    could. *)
Theorem lease_rewound c p q t claimed renewed now s :
  ca_faults c = [] → copies_keyed c → q ∈ ca_copies c → cp_ID q = cp_ID p →
  cp_Role q = CopyReplica → target_enabled c (cp_StorageTargetID q) = true → cp_Required p = true →
  s = CopyCopying ∨ s = CopyVerifying → cp_Status q = CopyCopying →
  cp_LockedUntil p = Some claimed → cp_LockedUntil q = Some renewed → claimed ≤ now < renewed →
  claimable now c q = false
  ∧ ∃ c' q', UpdateBackupCopy t (cp_set_Status s p) c = (c', Ok ())
    ∧ q' ∈ ca_copies c' ∧ cp_ID q' = cp_ID p ∧ cp_LockedBy q' = cp_LockedBy q
    ∧ claimable now c' q' = true.
Proof.
  intros Hf Hk Hq Hid Hrole Hen Hreq Hs Hst Hcl Hre [Hlo Hhi].
  split; [by apply (leased_not_claimable now c q renewed); [left|..]|].
  unfold UpdateBackupCopy. erewrite bind_run by by apply update_copies_run.
  set (upd := update_columns _).
  assert (q ∈ List.filter (has_copy_id (cp_ID (cp_set_Status s p))) (ca_copies c)) as Hin.
  { apply elem_of_filter_bool. split; [done|]. unfold has_copy_id. by rewrite bool_decide_true. }
  case_decide as Hlen; [by rewrite (nil_length_inv _ Hlen) in Hin; apply elem_of_nil in Hin|].
  eexists _, (upd q). split; [done|]. split_and!; [|done|done|].
  - cbn. apply list_elem_of_fmap. exists q. split; [|done]. unfold has_copy_id. by rewrite bool_decide_true.
  - unfold claimable. cbn. rewrite Hrole, Hreq. unfold target_enabled in *. cbn.
    rewrite Hen, Hcl. unfold copy_due. destruct (Z.leb_spec claimed now); [|lia].
    rewrite (bool_decide_true (s = CopyCopying ∨ s = CopyVerifying)) by done. by rewrite orb_true_r.
Qed.
End Rewind.
