(* ===== verification/ReplicaProps.v ===== *)
(** More on replication: what the end of a worker's turn does to an object lock,
    that a replica waits for its parent, and which runs block a queue. *)

From S2P Require Import Prelude StateM GoTime GoStr Model Layout Format Catalog Replicas Replicator ReplicaFacts Purge.

(** * Who holds a copy *)
Create HintDb holders.

Definition holders (c : Catalog) : list (string * string) :=
  (λ q, (cp_ID q, cp_LockedBy q)) <$> ca_copies c.

Section Holders.
Context (sha256hex : bytes → string) (native : StorageTarget → StorageTarget → bool)
  (error_text : CatalogError → string).

Lemma reads_holders {A} (m : CM A) : leaves contents m → leaves holders m.
Proof. intros Hm c. unfold holders. by rewrite (contents_copies _ _ (Hm c)). Qed.

Lemma update_copies_effect matches f c c' n :
  update_copies matches f c = (c', Ok n) →
  ca_copies c' = (λ q, if matches q then f q else q) <$> ca_copies c.
Proof.
  intros Hrun. apply statement_ok in Hrun as (c1 & Hc & Hrun). rewrite get_run in Hrun.
  injection Hrun as <- _. cbn. by rewrite (contents_copies _ _ Hc).
Qed.

Lemma update_copies_holders matches f :
  (∀ q, cp_ID (f q) = cp_ID q ∧ cp_LockedBy (f q) = cp_LockedBy q) →
  leaves holders (update_copies matches f).
Proof.
  intros Hf c. destruct (update_copies matches f c) as [c' [n|e]] eqn:E; cbn.
  - apply update_copies_effect in E. unfold holders. rewrite E, <-list_fmap_compose.
    apply list_fmap_ext. intros i q _. cbn. destruct (matches q); [|done]. by destruct (Hf q) as [-> ->].
  - revert E. unfold update_copies. run_st. pose proof (reads_holders _ statement_reads c) as Hs.
    destruct (statement c) as [c1 [[]|e1]]; cbn in *; [done|]. by intros [= <- _].
Qed.

Lemma UpdateBackupCopy_holders now p : leaves holders (UpdateBackupCopy now p).
Proof.
  apply leaves_bind; [by apply update_copies_holders|]. intros n. case_match; [apply leaves_fail|apply leaves_ret].
Qed.

Lemma SetCopyProgress_holders now id n b : leaves holders (SetCopyProgress now id n b).
Proof. apply leaves_bind; [by apply update_copies_holders|intros ?; apply leaves_ret]. Qed.

(** Statements on other tables. *)
Ltac elsewhere := intros c; unfold statement, attempt; run_st; destruct (ca_faults c) as [|[]]; cbn;
  try case_match; done.

Lemma Upsert_holders o : leaves holders (UpsertReplicationObject o).
Proof. unfold UpsertReplicationObject. elsewhere. Qed.
Lemma UpdateAttempt_holders a : leaves holders (UpdateReplicationAttempt a).
Proof. unfold UpdateReplicationAttempt. elsewhere. Qed.
Lemma CreateAttempt_holders a : leaves holders (CreateReplicationAttempt a).
Proof. unfold CreateReplicationAttempt. elsewhere. Qed.
Lemma PutObject_holders t key d : leaves holders (PutObject t key d).
Proof. intros c. unfold PutObject. by destruct (ca_uploads c) as [|[|[d'|]|d'] us]. Qed.

Lemma hashObject_holders t key : leaves holders (hashObject sha256hex t key).
Proof. apply leaves_bind; [apply reads_holders, GetObject_reads|intros ?; apply leaves_ret]. Qed.

#[local] Hint Resolve UpdateBackupCopy_holders SetCopyProgress_holders Upsert_holders
  UpdateAttempt_holders CreateAttempt_holders PutObject_holders hashObject_holders
  GetBackupRun_reads GetStorageTarget_reads healthySource_reads Open_reads ListObjects_reads
  ListReplicationObjects_reads GetObject_reads GetBackupCopyForTarget_reads : holders.

Ltac holders_tac :=
  repeat first
    [ solve [eauto with holders nocore] | apply reads_holders; solve [eauto with holders nocore]
    | apply leaves_ret | apply leaves_fail | apply leaves_lift | apply leaves_get
    | apply leaves_try | apply leaves_bind; [|intros ?] | progress case_match ].

Lemma or_return_holders {A} w (m : CM A) k :
  leaves holders m → (∀ a, leaves holders (k a)) → leaves holders (or_return w m k).
Proof. intros Hm Hk. unfold or_return. holders_tac; done. Qed.

Lemma copyOne_holders src dst key : leaves holders (copyOne sha256hex native src dst key).
Proof. unfold copyOne, copy_native. holders_tac. Qed.

Lemma transfer_all_holders now src dst known objects : ∀ w,
  leaves holders (transfer_all sha256hex native error_text now src dst known w objects).
Proof.
  induction objects as [|[key size] objects IH]; intros w; cbn [transfer_all]; [apply leaves_ret|].
  apply leaves_bind; [unfold already_there; holders_tac|]. intros there. case_match; [apply IH|].
  apply leaves_bind.
  - unfold transfer_object. pose proof copyOne_holders. holders_tac; done.
  - intros [w' [e|]]; [apply leaves_ret|apply IH].
Qed.

Lemma copy_objects_holders now src dst path w :
  leaves holders (copy_objects sha256hex native error_text now src dst path w).
Proof.
  apply or_return_holders; [holders_tac|intros listed; cbv zeta beta]. case_match; [apply leaves_ret|].
  apply leaves_bind; [holders_tac|intros _]. apply leaves_bind; [holders_tac|intros _].
  apply or_return_holders; [holders_tac|intros known].
  apply leaves_bind; [apply transfer_all_holders|]. intros [[p a] [e|]]; holders_tac.
Qed.

Lemma copy_holders now w : leaves holders (copy sha256hex native error_text now w).
Proof.
  apply or_return_holders; [holders_tac|intros run]. apply or_return_holders; [holders_tac|intros dst].
  case_match; [apply leaves_ret|]. case_match; [apply leaves_ret|].
  apply or_return_holders; [holders_tac|]. intros [from src].
  apply or_return_holders; [holders_tac|intros _]. apply or_return_holders; [holders_tac|intros _].
  apply copy_objects_holders.
Qed.

Lemma attempt_copy_holders env p :
  (∀ v, ci_verify env = Some v → leaves holders v) →
  leaves holders (attempt_copy sha256hex native error_text env p).
Proof.
  intros Hv. unfold attempt_copy. apply leaves_bind; [unfold ensureParentCopyReady; holders_tac|].
  intros [[]|e]; [|unfold not_ready; holders_tac]. unfold work_on. apply leaves_bind; [holders_tac|].
  intros [[]|e]; [|apply leaves_ret]. apply leaves_bind; [holders_tac|intros _].
  apply leaves_bind; [apply copy_holders|]. intros [w err]. apply leaves_bind.
  { destruct err, (ci_verify env) eqn:E; try apply leaves_ret.
    apply leaves_bind; [by apply leaves_try, Hv|intros ?; apply leaves_ret]. }
  intros err'. unfold finish, finish_ok, finish_canceled, finish_failed. holders_tac.
Qed.
End Holders.

(** * The lease and the object lock share a column *)
Section ObjectLock.
Context (sha256hex : bytes → string) (native : StorageTarget → StorageTarget → bool)
  (error_text : CatalogError → string).

Lemma release_frees now id worker c c' :
  (∀ q, q ∈ ca_copies c → cp_ID q = id → cp_LockedBy q = worker) →
  ReleaseCopyLease now id worker c = (c', Ok ()) →
  ∀ q, q ∈ ca_copies c' → cp_ID q = id → cp_LockedUntil q = None ∧ cp_LockedBy q = ""%string.
Proof.
  intros Hheld Hrun. apply bind_ok in Hrun as (c1 & n & Hup & [= <-]).
  apply update_copies_effect in Hup. rewrite Hup.
  intros q (x & -> & Hx)%list_elem_of_fmap. unfold held_by, has_copy_id.
  destruct (bool_decide (cp_ID x = id)) eqn:Hid; bprop.
  - rewrite (bool_decide_true (cp_LockedBy x = worker)) by by apply Hheld. done.
  - done.
Qed.

(** A worker's turn has no error of its own. *)
Lemma or_return_total {A} w (m : CM A) k : (∀ a, total (k a)) → total (or_return w m k).
Proof. intros Hk. unfold or_return. total_tac. apply Hk. Qed.

Lemma transfer_all_total now src dst known objects : ∀ w,
  total (transfer_all sha256hex native error_text now src dst known w objects).
Proof.
  induction objects as [|[key size] objects IH]; intros w; cbn [transfer_all]; [apply total_ret|].
  apply total_bind; [unfold already_there; total_tac|]. intros there. case_match; [apply IH|].
  apply total_bind; [unfold transfer_object; total_tac|]. intros [w' [e|]]; [apply total_ret|apply IH].
Qed.

Lemma copy_total now w : total (copy sha256hex native error_text now w).
Proof.
  unfold copy. do 2 (apply or_return_total; intros ?). case_match; [apply total_ret|].
  case_match; [apply total_ret|]. apply or_return_total. intros [from src].
  do 2 (apply or_return_total; intros ?). apply or_return_total. intros listed. cbv zeta beta.
  case_match; [apply total_ret|]. do 2 (apply total_bind; [apply total_try|intros ?]).
  apply or_return_total. intros known. apply total_bind; [apply transfer_all_total|].
  intros [[p' a'] [e|]]; total_tac.
Qed.

Lemma attempt_copy_total env p : total (attempt_copy sha256hex native error_text env p).
Proof.
  unfold attempt_copy. apply total_bind; [apply total_try|]. intros [[]|e]; [|unfold not_ready; total_tac].
  unfold work_on. apply total_bind; [apply total_try|]. intros [[]|e]; [|apply total_ret].
  apply total_bind; [apply total_try|intros _]. apply total_bind; [apply copy_total|]. intros [w err].
  apply total_bind; [total_tac|]. intros err'.
  unfold finish, finish_ok, finish_canceled, finish_failed. total_tac.
Qed.

(** The date until which the object lock of a storage protects a new
    replica never survives the worker's turn: the lease is released by clearing
    the same column after the date was written, so a copy the worker has
    finished, in whatever state, has no lock date, and the check that protects
    a locked copy from deletion does not see the lock. *)
Theorem object_lock_released env p c :
  (∀ q, q ∈ ca_copies c → cp_ID q = cp_ID p → cp_LockedBy q = cp_LockedBy p) →
  (∀ v, ci_verify env = Some v → leaves holders v) →
  (ReleaseCopyLease (ci_ended env) (cp_ID p) (cp_LockedBy p)
    (attempt_copy sha256hex native error_text env p c).1).2 = Ok () →
  ∀ q, q ∈ ca_copies (process sha256hex native error_text env false p c).1 → cp_ID q = cp_ID p →
    cp_LockedUntil q = None ∧ cp_LockedBy q = ""%string.
Proof.
  intros Hheld Hv Hrel. unfold process. run_st.
  destruct (total_run _ c (attempt_copy_total env p)) as (c1 & [] & Hatt).
  pose proof (attempt_copy_holders sha256hex native error_text env p Hv c) as Hh.
  rewrite Hatt in Hh, Hrel |- *. cbn in Hh, Hrel |- *.
  destruct (ReleaseCopyLease (ci_ended env) (cp_ID p) (cp_LockedBy p) c1) as [c2 r] eqn:Hr.
  cbn in Hrel |- *. subst r. refine (release_frees _ _ _ _ _ _ Hr).
  intros q Hq Hid.
  assert ((cp_ID q, cp_LockedBy q) ∈ holders c1) as Hin.
  { apply list_elem_of_fmap. by exists q. }
  rewrite Hh in Hin. apply list_elem_of_fmap in Hin as (x & [= Hxid Hxl] & Hx).
  rewrite Hxl. apply Hheld; [done|congruence].
Qed.
End ObjectLock.

(** * Waiting for the parent *)
Section Parent.
Context (sha256hex : bytes → string) (native : StorageTarget → StorageTarget → bool)
  (error_text : CatalogError → string).

Definition parent_ready (c : Catalog) (p : BackupCopy) (run : BackupRun) : Prop :=
  ∃ q, q ∈ ca_copies c ∧ is_copy_of (run_ParentRunID run) (cp_StorageTargetID p) q = true
    ∧ Healthy (Some q) = true.

Lemma ensure_reads p : leaves contents (ensureParentCopyReady p).
Proof.
  apply leaves_bind; [apply GetBackupRun_reads|intros run]. case_match; [apply leaves_ret|].
  apply leaves_bind; [apply leaves_try, GetBackupCopyForTarget_reads|].
  intros [q|[]]; try apply leaves_fail. case_match; [apply leaves_ret|]. case_match; apply leaves_fail.
Qed.

Lemma ensure_ok p c c' run :
  ca_runs c !! cp_RunID p = Some run → ensureParentCopyReady p c = (c', Ok ()) →
  run_ParentRunID run = ""%string ∨ parent_ready c p run.
Proof.
  intros Hr Hrun. apply bind_ok in Hrun as (c1 & run' & Hq & Hrun).
  apply GetBackupRun_ok in Hq as [Hr' Hc1]. assert (run' = run) as -> by congruence.
  case_bool_decide; [by left|right]. apply bind_ok in Hrun as (c2 & found & Hq & Hrun).
  unfold try in Hq. destruct (GetBackupCopyForTarget _ _ c1) as [c3 [q|e]] eqn:Hget;
    injection Hq as <- <-; [|by destruct e].
  destruct (Healthy (Some q)) eqn:Hh; [|by destruct (cp_Status q)].
  apply statement_ok in Hget as (c4 & Hc4 & Hget). rewrite get_run in Hget. injection Hget as _ Hget.
  apply of_option_ok, find_some in Hget as [Hin Hcp]. rewrite (contents_copies _ _ Hc4),
    (contents_copies _ _ Hc1) in Hin. apply list_elem_of_In in Hin. by exists q.
Qed.

(** A replica of an increment is not made before the replica of its parent
    in the same storage is healthy: until then, and when the parent has no copy
    there at all, a worker's turn leaves every object of every storage as it
    is. *)
Theorem replica_after_parent env busy p c run :
  ca_runs c !! cp_RunID p = Some run → run_ParentRunID run ≠ ""%string → ¬ parent_ready c p run →
  ca_objects (process sha256hex native error_text env busy p c).1 = ca_objects c.
Proof.
  intros Hr Hpar Hno. unfold process. destruct busy; [done|].
  assert (leaves ca_objects (ReleaseCopyLease (ci_ended env) (cp_ID p) (cp_LockedBy p))) as Hrel.
  { apply leaves_bind; [by apply update_copies_leaves|intros n; apply leaves_ret]. }
  unfold attempt_copy. run_st.
  pose proof (reads_objects _ (ensure_reads p) c) as Hobj.
  destruct (ensureParentCopyReady p c) as [c1 [[]|e]] eqn:He; cbn in Hobj.
  { by destruct (ensure_ok p c c1 run Hr He). }
  assert (leaves ca_objects (not_ready error_text (ci_now env) e p)) as Hnr.
  { apply leaves_bind; [apply leaves_try, UpdateCopy_objects|intros ?; apply leaves_ret]. }
  specialize (Hnr c1). destruct (not_ready error_text (ci_now env) e p c1) as [c2 [[]|e2]]; cbn in *; [|congruence].
  specialize (Hrel c2). destruct (ReleaseCopyLease _ _ _ c2) as [c3 r3]. cbn in *. congruence.
Qed.
End Parent.

(** * What blocks a queue *)
Section Siblings.
Context (fresh : string → string → string).

Lemma queue_links_deleted now run targetID s links :
  StronglySorted (not_after by_index) links → s ∈ links → run_Deleted s = true →
  run_ChainIndex s ≤ run_ChainIndex run →
  ∀ c, ∃ c' e, queue_links fresh now run targetID links c = (c', Err e).
Proof.
  intros Hs Hin Hdel Hidx. induction Hs as [|link links Hs IH Hhd]; [by apply elem_of_nil in Hin|].
  intros c. cbn [queue_links].
  assert (run_ChainIndex link ≤ run_ChainIndex s) as Hle.
  { apply elem_of_cons in Hin as [->|Hin]; [done|]. rewrite Forall_forall in Hhd.
    specialize (Hhd s Hin). unfold not_after, by_index in Hhd. lia. }
  destruct (Z.ltb_spec (run_ChainIndex run) (run_ChainIndex link)); [lia|].
  run_st. destruct (queue_link fresh now targetID link c) as [c1 [p|e]] eqn:Hq; [|by eexists _, _].
  apply elem_of_cons in Hin as [<-|Hin].
  { unfold queue_link in Hq. by rewrite Hdel in Hq. }
  destruct (IH Hin c1) as (c2 & e & ->). by eexists _, _.
Qed.

(** Replication takes every run of the chain with an index up to that of the
    queued run for its ancestor: one deleted run among them, an ancestor or
    not, makes the request fail for every target. *)
Theorem sibling_blocks_queue now runID targetID targetIDs c run s :
  catalog_keyed c → ca_runs c !! runID = Some run → targetID ≠ run_StorageTargetID run →
  ca_runs c !! run_ID s = Some s → run_ChainID s = run_ChainID run → run_Deleted s = true →
  run_ChainIndex s ≤ run_ChainIndex run →
  ∃ c' e, QueueRun fresh now runID (targetID :: targetIDs) c = (c', Err e).
Proof.
  intros Hk Hr Hne Hs Hchain Hdel Hidx.
  destruct (QueueRun fresh now runID (targetID :: targetIDs) c) as [c' [ps|e]] eqn:Hrun;
    [exfalso|by eexists _, _].
  apply bind_ok in Hrun as (c1 & run' & Hq & Hrun). apply GetBackupRun_ok in Hq as [Hr' Hc1].
  assert (run' = run) as -> by congruence. case_bool_decide; [done|].
  apply bind_ok in Hrun as (c2 & primary & Hq & Hrun). destruct (negb (Healthy (Some primary))); [done|].
  assert (contents c2 = contents c) as Hc2.
  { rewrite <-Hc1. eapply leaves_run; [apply GetBackupCopyForTarget_reads|exact Hq]. }
  apply bind_ok in Hrun as (c3 & chain & Hq2 & Hrun).
  apply ListBackupRuns_ok in Hq2 as (Hc3 & _ & Hin); [|by eapply catalog_keyed_contents|done].
  assert (s ∈ sort_stable by_index chain) as Hsin.
  { rewrite sort_stable_elem_of. apply Hin. rewrite (contents_runs _ _ Hc2). split; [done|].
    unfold selects, unset_or, none_or_in. cbn. rewrite Hchain.
    rewrite (bool_decide_true (run_ChainID run = run_ChainID run)) by done. by rewrite orb_true_r. }
  cbn [queue_targets] in Hrun. rewrite bool_decide_false in Hrun by done.
  apply bind_ok in Hrun as (c4 & t & Hq3 & Hrun). destruct (negb (tgt_Enabled t)); [done|].
  destruct (tgt_ReadOnly t); [done|]. apply bind_ok in Hrun as (c5 & qs & Hlinks & _).
  destruct (queue_links_deleted now run targetID s (sort_stable by_index chain)) with (c := c4)
    as (c6 & e & Herr); [|done..|congruence].
  apply sort_stable_sorted; unfold by_index, not_after; [intros x y; lia|intros x y z; lia].
Qed.
End Siblings.
