(* ===== verification/ReplicaSamples.v ===== *)
(** A small repository pair at which the theorems on replication apply: the full
    backup [f1] and the increment [i1] in [t1], with replicas waiting for [t2],
    which locks its objects. *)

From S2P Require Import Prelude StateM GoTime GoStr Model Layout Format Catalog Replicas Replicator Purge ReplicaFacts Leases ReplicaProps CatalogSamples.

Definition digest (d : bytes) : string := pretty (foldr (λ b n, Byte.to_N b + 256 * n)%N 1%N d).
Definition no_native (_ _ : StorageTarget) : bool := false.
Definition message (_ : CatalogError) : string := "error".

Definition locking_target : StorageTarget :=
  mkStorageTarget "t2" "t2" StorageS3 true false "" "" "" "" "" "" "" "" "" true 30 "" "" 0
    "" "" "" "" "".

Definition queued_copy (id run : string) (created : Z) : BackupCopy :=
  mkBackupCopy id run "t2" CopyReplica true CopyPending (run +:+ "/") "" "" 0 0 0 0 0 "" None "" None
    None None None created 0.

Definition pair_catalog : Catalog :=
  mkCatalog [] [] [] {["f1"%string := f1; "i1"%string := i1]}
    [sample_copy "c1" "f1" "t1" CopyPrimary; queued_copy "c2" "f1" 1;
     sample_copy "c3" "i1" "t1" CopyPrimary; queued_copy "c4" "i1" 2]
    {["t1"%string := sample_target "t1"; "t2"%string := locking_target]} []
    {[("t1", "f1/disk.data") := [Byte.x01]; ("t1", "f1/run.json") := [Byte.x07];
      ("t1", "f1/disk.manifest") := [Byte.x05]; ("t1", "i1/disk.data") := [Byte.x02];
      ("t1", "i1/run.json") := [Byte.x08]]}%string ∅ ∅ [].

Lemma pair_keyed : catalog_keyed pair_catalog.
Proof. exact sample_keyed. Qed.

Lemma pair_targets_keyed : targets_keyed pair_catalog.
Proof.
  intros id t. cbn [pair_catalog ca_targets]. rewrite lookup_insert_Some, lookup_singleton_Some.
  naive_solver.
Qed.

Lemma pair_copies_keyed : copies_keyed pair_catalog.
Proof. apply (bool_decide_unpack _). vm_compute. done. Qed.

Lemma retry_delays_witness :
  ∃ d d', delay_after 1 = Some d ∧ delay_after 9 = Some d' ∧ Minute ≤ d ≤ d' ∧ d' ≤ Day.
Proof. apply (retry_delays 0 (queued_copy "c2" "f1" 1) 9); cbn; lia. Defined.

(** ** The queue *)
Lemma claim_exact_witness :
  ∃ qs c', ClaimBackupCopies 5 "w1" 1 copyLease pair_catalog
      = (c', Ok (take_lease "w1" (5 + copyLease) 5 <$> qs))
    ∧ ∀ q now', q ∈ qs → now' < 5 + copyLease →
        ∀ q', q' ∈ ca_copies c' → cp_ID q' = cp_ID q → claimable now' c' q' = false.
Proof.
  destruct (claim_exact 5 "w1" 1 copyLease pair_catalog) as (qs & c' & Hrun & _ & _ & _ & _ & Hlive).
  - reflexivity.
  - exact pair_copies_keyed.
  - lia.
  - reflexivity.
  - exists qs, c'. split; [exact Hrun|exact Hlive].
Defined.

Example claims_oldest : cp_ID <$> claimed_copies 5 1 pair_catalog = ["c2"]%string.
Proof. vm_compute. reflexivity. Qed.

Lemma queue_drains_witness :
  ∃ ps c', drain 5 copyLease ["w1"; "w2"; "w3"]%string pair_catalog = (c', Ok ps)
    ∧ cp_ID <$> ps ≡ₚ cp_ID <$> waiting_copies 5 pair_catalog ∧ waiting_copies 5 c' = [].
Proof.
  apply (queue_drains 5 copyLease); [reflexivity|reflexivity|exact pair_copies_keyed|vm_compute; lia].
Defined.

(** The worker has held [c2] since 0 and has renewed the lease at four minutes;
    the transfer ends at six. *)
Definition held_copy (until : Z) : BackupCopy :=
  take_lease "w1" until 0 (queued_copy "c2" "f1" 1).

Definition leased_catalog : Catalog :=
  with_copies [sample_copy "c1" "f1" "t1" CopyPrimary; held_copy (4 * Minute + copyLease)] pair_catalog.

Lemma lease_rewound_witness :
  claimable (6 * Minute) leased_catalog (held_copy (4 * Minute + copyLease)) = false
  ∧ ∃ c' q', UpdateBackupCopy (6 * Minute) (cp_set_Status CopyVerifying (held_copy copyLease)) leased_catalog
      = (c', Ok ())
    ∧ q' ∈ ca_copies c' ∧ cp_ID q' = "c2"%string ∧ cp_LockedBy q' = "w1"%string
    ∧ claimable (6 * Minute) c' q' = true.
Proof.
  apply (lease_rewound leased_catalog (held_copy copyLease) (held_copy (4 * Minute + copyLease))
    (6 * Minute) copyLease (4 * Minute + copyLease) (6 * Minute) CopyVerifying).
  - reflexivity.
  - apply (bool_decide_unpack _). vm_compute. done.
  - right. by left.
  - reflexivity.
  - reflexivity.
  - vm_compute. reflexivity.
  - reflexivity.
  - by right.
  - reflexivity.
  - reflexivity.
  - reflexivity.
  - vm_compute. split; [discriminate|reflexivity].
Defined.

(** ** The transfer *)
Definition turn : Circumstances := mkCircumstances "a1" 10 20 None false false false.

Definition new_attempt : ReplicationAttempt :=
  mkReplicationAttempt "a1" "c2" "" RunRunning 1 0 0 0 0 "" (Some 10) None 10.

(** The second upload stores something else and reports success. *)
Definition corrupting_catalog : Catalog := with_uploads [Stores; StoresWrong [Byte.x00]] pair_catalog.

Definition outcome_of {A} (r : result CatalogError A) : option A :=
  match r with Ok a => Some a | Err _ => None end.

Example corruption_found :
  snd <$> outcome_of (copy digest no_native message 10 (queued_copy "c2" "f1" 1, new_attempt) corrupting_catalog).2
  = Some (Some (DigestDiffers "f1/disk.manifest")).
Proof. vm_compute. reflexivity. Qed.

Definition copied : Catalog :=
  (copy digest no_native message 10 (queued_copy "c2" "f1" 1, new_attempt) pair_catalog).1.

Lemma copy_publishes_witness :
  (∀ o, o.1 ≠ "t2"%string → ca_objects copied !! o = ca_objects pair_catalog !! o)
  ∧ ∃ from, from ∈ ca_copies pair_catalog ∧ cp_StorageTargetID from ≠ "t2"%string
    ∧ all_delivered digest (cp_StorageTargetID from) "t2" (cp_RepoPath from) (λ _, False)
        pair_catalog copied.
Proof.
  assert (∃ w, copy digest no_native message 10 (queued_copy "c2" "f1" 1, new_attempt) pair_catalog
    = (copied, Ok (w, None))) as [w Hrun] by (eexists; vm_compute; reflexivity).
  destruct (copy_publishes digest no_native message 10 (queued_copy "c2" "f1" 1) new_attempt pair_catalog
    copied w None) as [Hout [[_ Hne]|(from & Hin & _ & _ & Hf & [_ _ Hall])]].
  - exact pair_keyed.
  - exact pair_targets_keyed.
  - intros t key o d _ Hv. discriminate.
  - exact Hrun.
  - exfalso. exact (Hne eq_refl).
  - split; [exact Hout|]. exists from. split; [exact Hin|]. split; [exact Hf|]. exact (proj2 (Hall eq_refl)).
Defined.

(** The replica of [i1] waits: that of [f1] is not there yet. *)
Lemma replica_after_parent_witness :
  ca_objects (process digest no_native message turn false (queued_copy "c4" "i1" 2) pair_catalog).1
  = ca_objects pair_catalog.
Proof.
  apply (replica_after_parent digest no_native message turn false (queued_copy "c4" "i1" 2) pair_catalog i1).
  - reflexivity.
  - discriminate.
  - intros (q & Hq & Hcp & Hh). revert q Hq Hcp Hh.
    assert (Forall (λ q, is_copy_of "f1" "t2" q = true → Healthy (Some q) = true → False)
      (ca_copies pair_catalog)) as Hall by (repeat constructor; vm_compute; discriminate).
    rewrite Forall_forall in Hall. exact Hall.
Defined.

(** The worker has made the replica of [f1] in a storage that locks objects. *)
Definition claimed_catalog : Catalog := (ClaimBackupCopies 5 "w1" 1 copyLease pair_catalog).1.
Definition claimed_copy : BackupCopy := take_lease "w1" (5 + copyLease) 5 (queued_copy "c2" "f1" 1).
Definition turn_over : Catalog := (process digest no_native message turn false claimed_copy claimed_catalog).1.

Lemma object_lock_released_witness :
  (∃ q, q ∈ ca_copies turn_over ∧ cp_ID q = "c2"%string ∧ cp_Status q = CopySucceeded)
  ∧ ∀ q, q ∈ ca_copies turn_over → cp_ID q = "c2"%string →
    cp_LockedUntil q = None ∧ cp_LockedBy q = ""%string.
Proof.
  split.
  - assert (existsb (λ q, bool_decide (cp_ID q = "c2"%string ∧ cp_Status q = CopySucceeded))
      (ca_copies turn_over) = true) as Hex by (vm_compute; reflexivity).
    apply existsb_exists in Hex as (q & Hq%list_elem_of_In & Hb%bool_decide_eq_true). by exists q.
  - apply (object_lock_released digest no_native message turn claimed_copy claimed_catalog).
    + assert (forallb (λ q, bool_decide (cp_ID q = "c2"%string → cp_LockedBy q = "w1"%string))
        (ca_copies claimed_catalog) = true) as Hall by (vm_compute; reflexivity).
      intros q Hq%list_elem_of_In. rewrite forallb_forall in Hall.
      exact (bool_decide_eq_true_1 _ (Hall q Hq)).
    + intros v Hv. discriminate.
    + vm_compute. reflexivity.
Defined.

(** ** A differential that was deleted blocks the next one *)
Definition d1 : BackupRun := run_set_Deleted true (sample_backup "d1" BackupDifferential "f1").
Definition d2 : BackupRun := sample_backup "d2" BackupDifferential "f1".

Definition siblings_catalog : Catalog :=
  with_runs {["f1"%string := f1; "d1"%string := d1; "d2"%string := d2]}
    (with_copies [sample_copy "c1" "f1" "t1" CopyPrimary; sample_copy "c5" "d2" "t1" CopyPrimary] pair_catalog).

Lemma sibling_blocks_queue_witness :
  ∃ c' e, QueueRun (λ r t, (r +:+ t)%string) 5 "d2" ["t2"]%string siblings_catalog = (c', Err e).
Proof.
  apply (sibling_blocks_queue (λ r t, (r +:+ t)%string) 5 "d2" "t2" [] siblings_catalog d2 d1).
  - intros id r. cbn [siblings_catalog with_runs ca_runs].
    rewrite !lookup_insert_Some, lookup_singleton_Some. naive_solver.
  - reflexivity.
  - discriminate.
  - reflexivity.
  - reflexivity.
  - reflexivity.
  - reflexivity.
Defined.

Example sibling_error :
  (QueueRun (λ r t, (r +:+ t)%string) 5 "d2" ["t2"]%string siblings_catalog).2 = Err (ParentErased "d1").
Proof. vm_compute. reflexivity. Qed.
