(* ===== verification/LoginLimiter.v ===== *)
(** The brake on password guessing ([internal/api/loginlimit.go] and the part of
    [handleLogin] in [auth.go] that uses it).

    The limiter is locked by each of its methods and not by the handler: a request
    asks it ([Allow]), compares the password, and then tells it how that ended
    ([Fail] or [Reset]). Between the two the request is one of those being
    checked, and other requests come, ask and end. One such section is one step
    here, with the clock it read; which request ends next is free. Go visits the
    entries of a map in no fixed order; here it is the order of [map_to_list]. *)

From S2P Require Import Prelude GoTime GoStr Layout.

Definition loginFailureThreshold : Z := 5.
Definition loginBaseCooldown : Z := Minute.
Definition loginMaxCooldown : Z := 15 * Minute.
Definition loginFailureWindow : Z := 30 * Minute.
Definition loginLimiterMaxEntries : nat := Z.to_nat 4096.

Record loginAttempts := mkAttempts { failures : Z; blockedTo : Z; seen : Z }.

Abbreviation loginLimiter := (gmap string loginAttempts).

(** ** The name of an account *)

(** [unicode.IsSpace]. *)
Definition IsSpace (r : Z) : bool :=
  in_range 9 13 r || (r =? 32) || (r =? 133) || (r =? 160) || (r =? 5760) || in_range 8192 8202 r
  || (r =? 8232) || (r =? 8233) || (r =? 8239) || (r =? 8287) || (r =? 12288).

Fixpoint trim_runes (rs : list Z) : list Z :=
  match rs with
  | r :: rs' => if IsSpace r then trim_runes rs' else rs
  | [] => []
  end.

(** [utf8.AppendRune]: what is no rune becomes [U+FFFD]. *)
Definition encode_rune (r : Z) : string :=
  let chars := fold_right (λ n s, String (chr n) s) ""%string in
  let r := if (r <? 0) || in_range 55296 57343 r || (1114111 <? r) then 65533 else r in
  if r <? 128 then chars [r]
  else if r <? 2048 then chars [192 + r / 64; 128 + r `mod` 64]
  else if r <? 65536 then chars [224 + r / 4096; 128 + r / 64 `mod` 64; 128 + r `mod` 64]
  else chars [240 + r / 262144; 128 + r / 4096 `mod` 64; 128 + r / 64 `mod` 64; 128 + r `mod` 64].

Fixpoint encode_runes (rs : list Z) : string :=
  match rs with
  | [] => ""
  | r :: rs => encode_rune r +:+ encode_runes rs
  end.

(** [strings.TrimSpace], then [strings.ToLower], rune by rune. *)
Definition loginKey `{Unicode} (username : string) : string :=
  encode_runes (ToLowerRune <$> reverse (trim_runes (reverse (trim_runes (runes username))))).

#[global] Arguments loginKey {_} _ : simpl never.

(** ** The methods of the limiter *)
Section Methods.
Context `{Unicode}.

(** [Duration.Round(time.Second)] of a positive duration. *)
Definition round_second (d : Z) : Z := (d + Second / 2) / Second * Second.

Definition Allow (l : loginLimiter) (username : string) (now : Z) : bool * Z :=
  match l !! loginKey username with
  | None => (true, 0)
  | Some st => if now <? blockedTo st then (false, round_second (blockedTo st - now)) else (true, 0)
  end.

(** An entry that says nothing any more. *)
Definition stale (now : Z) (st : loginAttempts) : bool :=
  (blockedTo st <? now) && (loginFailureWindow <? now - seen st).

(** The loop that looks for the entry seen first; a zero time stands for none. *)
Definition seen_before (best : string * Z) (e : string * loginAttempts) : string * Z :=
  if bool_decide (best.2 = zero_time) || (seen e.2 <? best.2) then (e.1, seen e.2) else best.

Definition oldest (l : loginLimiter) : string * Z := foldl seen_before (""%string, zero_time) (map_to_list l).

Definition evict (l : loginLimiter) (now : Z) : loginLimiter :=
  if (size l <? loginLimiterMaxEntries)%nat then l else
  let l := filter (λ e, stale now e.2 = false) l in
  if (size l <? loginLimiterMaxEntries)%nat then l else
  let k := (oldest l).1 in
  if bool_decide (k = ""%string) then l else delete k l.

Definition cooldown (failures : Z) : Z :=
  let over := failures - loginFailureThreshold in
  let c := Z.shiftl loginBaseCooldown (Z.min over 8) in
  if (loginMaxCooldown <? c) || (c <=? 0) then loginMaxCooldown else c.

(** One more failure in an entry. *)
Definition count_failure (now : Z) (st : loginAttempts) : loginAttempts :=
  let f := if negb (bool_decide (seen st = zero_time)) && (loginFailureWindow <? now - seen st) then 0
           else failures st in
  let f := f + 1 in
  mkAttempts f (if loginFailureThreshold <=? f then now + cooldown f else blockedTo st) now.

Definition Fail_ (l : loginLimiter) (username : string) (now : Z) : loginLimiter :=
  let key := loginKey username in
  match l !! key with
  | Some st => <[key := count_failure now st]> l
  | None => <[key := count_failure now (mkAttempts 0 zero_time zero_time)]> (evict l now)
  end.

Definition Reset_ (l : loginLimiter) (username : string) : loginLimiter := delete (loginKey username) l.

End Methods.

(** ** The handler *)

(** Package [bcrypt], and the hash of a random password that serves where there
    is no account. *)
Class Bcrypt := { CompareHashAndPassword : string → string → bool; dummyPasswordHash : string }.

Record Account := mkAccount { acc_Disabled : bool; acc_PasswordHash : string }.

Inductive Answer := TooMany (retryAfter : Z) | Unauthorized | LoggedIn.

Section Handler.
Context `{Unicode} `{Bcrypt}.

(** Up to the comparison of the password: an answer, or none yet. *)
Definition handleLogin_asks (l : loginLimiter) (username : string) (now : Z) : option Answer :=
  let '(ok, retryAfter) := Allow l username now in
  if negb ok then Some (TooMany retryAfter) else None.

(** Whether the password opens the account that was found. *)
Definition password_ok (user : option Account) (password : string) : bool :=
  let hash := match user with
              | Some u => if negb (bool_decide (acc_PasswordHash u = ""%string)) then acc_PasswordHash u
                          else dummyPasswordHash
              | None => dummyPasswordHash
              end in
  let passwordOK := CompareHashAndPassword hash password in
  match user with
  | None => false
  | Some u => negb (acc_Disabled u || bool_decide (acc_PasswordHash u = ""%string) || negb passwordOK)
  end.

(** From the comparison on. *)
Definition handleLogin_ends (l : loginLimiter) (username : string) (user : option Account) (password : string)
    (now : Z) : loginLimiter * Answer :=
  if negb (password_ok user password) then (Fail_ l username now, Unauthorized)
  else (Reset_ l username, LoggedIn).

(** ** The requests *)

(** The limiter, and the names of the requests between their two sections. *)
Record Logins := mkLogins { lg_limiter : loginLimiter; lg_checking : list string }.

Inductive Event :=
| Asks (username : string) (now : Z)
| Ends (i : nat) (user : option Account) (password : string) (now : Z).

Definition clock (e : Event) : Z := match e with Asks _ now | Ends _ _ _ now => now end.

Record Reply := mkReply { re_user : string; re_at : Z; re_answer : Answer }.

Definition login_step (s : Logins) (e : Event) : Logins * list Reply :=
  match e with
  | Asks username now =>
    match handleLogin_asks (lg_limiter s) username now with
    | Some answer => (s, [mkReply username now answer])
    | None => (mkLogins (lg_limiter s) (lg_checking s ++ [username]), [])
    end
  | Ends i user password now =>
    match lg_checking s !! i with
    | Some username =>
      let '(l, answer) := handleLogin_ends (lg_limiter s) username user password now in
      (mkLogins l (delete i (lg_checking s)), [mkReply username now answer])
    | None => (s, [])
    end
  end.

(** A history of sections, with the answers in their order. *)
Fixpoint serve (s : Logins) (events : list Event) : Logins * list Reply :=
  match events with
  | [] => (s, [])
  | e :: events =>
    let '(s, answers) := login_step s e in
    let '(s, later) := serve s events in
    (s, answers ++ later)
  end.
End Handler.

(** * The pauses *)

(** How long an account waits after its [f]-th failure in a row. *)
Definition pause (f : Z) : Z := if loginFailureThreshold <=? f then cooldown f else 0.

Fixpoint pauses (f : Z) (n : nat) : Z :=
  match n with O => 0 | S n => pause f + pauses (f + 1) n end.

Definition entry_ok (st : loginAttempts) : Prop :=
  0 <= failures st ∧ seen st + pause (failures st) <= Z.max (seen st) (blockedTo st).

Definition limiter_ok (l : loginLimiter) : Prop := map_Forall (λ _, entry_ok) l.

Section Pauses.
Lemma pause_cases f :
  pause f = if f <? 5 then 0 else if f =? 5 then Minute else if f =? 6 then 2 * Minute
            else if f =? 7 then 4 * Minute else if f =? 8 then 8 * Minute else 15 * Minute.
Proof.
  unfold pause, cooldown, loginFailureThreshold.
  destruct (Z.leb_spec 5 f) as [Hf|Hf]; [|by rewrite (proj2 (Z.ltb_lt f 5)) by lia].
  rewrite (proj2 (Z.ltb_ge f 5)) by lia. set (over := Z.min (f - 5) 8).
  assert (over = 0 ∧ f = 5 ∨ over = 1 ∧ f = 6 ∨ over = 2 ∧ f = 7 ∨ over = 3 ∧ f = 8
    ∨ 9 <= f ∧ (over = 4 ∨ over = 5 ∨ over = 6 ∨ over = 7 ∨ over = 8)) as Hc by (unfold over; lia).
  destruct Hc as [[-> ->]|[[-> ->]|[[-> ->]|[[-> ->]|[H9 Ho]]]]]; [vm_compute; done..|].
  do 4 (rewrite (proj2 (Z.eqb_neq f _)) by lia). destruct Ho as [->|[->|[->|[->| ->]]]]; by vm_compute.
Qed.

Lemma pause_nonneg f : 0 <= pause f.
Proof. rewrite pause_cases. unfold Minute, Second. repeat case_match; lia. Qed.

Lemma pause_mono f g : f <= g → pause f <= pause g.
Proof.
  intros Hfg. rewrite !pause_cases. unfold Minute, Second.
  repeat (match goal with |- context [if ?b then _ else _] => destruct b eqn:? end); lia.
Qed.

Lemma pauses_mono n : ∀ f g, f <= g → pauses f n <= pauses g n.
Proof.
  induction n as [|n IH]; intros f g Hfg; cbn; [lia|].
  pose proof (pause_mono f g Hfg). pose proof (IH (f + 1) (g + 1)). lia.
Qed.

(** Nine failures after the first cost half an hour. *)
Lemma nine_pauses f : 1 <= f → loginFailureWindow <= pauses f 9.
Proof. intros Hf. etrans; [|by apply (pauses_mono 9 1)]. vm_compute. done. Qed.

Lemma count_failure_ok now st : entry_ok st → entry_ok (count_failure now st) ∧ 1 <= failures (count_failure now st).
Proof.
  intros [Hf _]. unfold count_failure, entry_ok. cbn.
  assert (∀ f, 0 <= f → (0 <= f + 1 ∧ now + pause (f + 1)
    <= Z.max now (if loginFailureThreshold <=? f + 1 then now + cooldown (f + 1) else blockedTo st)) ∧ 1 <= f + 1) as Hall.
  { intros f H0. split; [|lia]. split; [lia|]. unfold pause. destruct (Z.leb_spec loginFailureThreshold (f + 1)); lia. }
  apply Hall. destruct (_ && _); lia.
Qed.

Lemma count_failure_next now st :
  seen (count_failure now st) = now
  ∧ (now - seen st <= loginFailureWindow → failures (count_failure now st) = failures st + 1).
Proof.
  unfold count_failure. cbn. split; [done|]. intros Hw.
  rewrite (proj2 (Z.ltb_ge loginFailureWindow (now - seen st))) by lia. by rewrite andb_false_r.
Qed.
End Pauses.

(** * The table *)
Section Table.
Context `{Unicode}.

Lemma evict_subseteq l now : evict l now ⊆ l.
Proof.
  unfold evict. case_match; [done|]. case_match; [apply map_filter_subseteq|].
  case_bool_decide; [apply map_filter_subseteq|].
  etrans; [apply delete_subseteq|apply map_filter_subseteq].
Qed.

Lemma evict_room l now : (size l < loginLimiterMaxEntries)%nat → evict l now = l.
Proof. intros Hs. unfold evict. by rewrite (proj2 (Nat.ltb_lt _ _) Hs). Qed.

Lemma Fail_key l u now : limiter_ok l → ∃ st, Fail_ l u now !! loginKey u = Some st ∧ entry_ok st
  ∧ 1 <= failures st ∧ seen st = now
  ∧ ∀ st0, l !! loginKey u = Some st0 → now - seen st0 <= loginFailureWindow → failures st = failures st0 + 1.
Proof.
  intros Hok. unfold Fail_. cbv zeta. destruct (l !! loginKey u) as [st|] eqn:Hl; eexists; rewrite lookup_insert_eq;
    (split; [reflexivity|]).
  - destruct (count_failure_ok now st) as [? ?]; [by apply (Hok _ _ Hl)|].
    destruct (count_failure_next now st) as [? ?]. split_and!; try done. by intros st0 [= <-].
  - destruct (count_failure_ok now (mkAttempts 0 zero_time zero_time)) as [? ?]; [by split; vm_compute|].
    by split_and!.
Qed.

Lemma Fail_other l u now k : (size l < loginLimiterMaxEntries)%nat → k ≠ loginKey u → Fail_ l u now !! k = l !! k.
Proof.
  intros Hs Hk. unfold Fail_. cbv zeta. destruct (l !! loginKey u); rewrite lookup_insert_ne by done; [done|].
  by rewrite evict_room.
Qed.

Lemma Fail_ok l u now : limiter_ok l → limiter_ok (Fail_ l u now).
Proof.
  intros Hok. unfold Fail_. cbv zeta. destruct (l !! loginKey u) as [st|] eqn:Hl; apply map_Forall_insert_2.
  - apply count_failure_ok. by apply (Hok _ _ Hl).
  - done.
  - apply count_failure_ok. by split; vm_compute.
  - intros k st Hk. apply (Hok k). by eapply lookup_weaken, evict_subseteq.
Qed.

Lemma Fail_size l u now : (size (Fail_ l u now) ≤ S (size l))%nat.
Proof.
  unfold Fail_. cbv zeta. destruct (l !! loginKey u) as [st|] eqn:Hl.
  - rewrite map_size_insert_Some by (by exists st). lia.
  - pose proof (map_subseteq_size _ _ (evict_subseteq l now)). rewrite map_size_insert. case_match; cbn; lia.
Qed.
End Table.

(** * Guessing *)

Section History.
Context `{Unicode} `{Bcrypt}.

(** The times at which a password for the account was found wrong. *)
Definition guesses (key : string) (answers : list Reply) : list Z :=
  omap (λ r, if bool_decide (loginKey (re_user r) = key) && match re_answer r with Unauthorized => true | _ => false end
             then Some (re_at r) else None) answers.

(** Somebody came in. *)
Definition entered (key : string) (answers : list Reply) : bool :=
  existsb (λ r, bool_decide (loginKey (re_user r) = key) && match re_answer r with LoggedIn => true | _ => false end)
    answers.

(** How many requests for the account are between their two sections. *)
Definition crowd (key : string) (s : Logins) : nat :=
  length (filter (λ u, loginKey u = key) (lg_checking s)).

(** A history in which nobody comes in, no name gives way to another, the clock
    does not go back, and never more than [c] requests for the account are checked
    at the same time. *)
Record siege (key : string) (c : nat) (s : Logins) (events : list Event) : Prop := {
  sg_ok : limiter_ok (lg_limiter s);
  sg_room : (size (lg_limiter s) + length events < loginLimiterMaxEntries)%nat;
  sg_shut : entered key (serve s events).2 = false;
  sg_clock : StronglySorted Z.le (clock <$> events);
  sg_after : ∀ st, lg_limiter s !! key = Some st → Forall (λ e, seen st <= clock e) events;
  sg_crowd : ∀ n, (crowd key (serve s (take n events)).1 ≤ c)%nat
}.
End History.

Section Guessing.
Context `{Unicode} `{Bcrypt} (key : string) (c : nat).

Lemma guesses_app l k : guesses key (l ++ k) = guesses key l ++ guesses key k.
Proof. apply omap_app. Qed.

Lemma entered_app l k : entered key (l ++ k) = entered key l || entered key k.
Proof. apply existsb_app. Qed.

Lemma serve_cons s e events :
  serve s (e :: events) = ((serve (login_step s e).1 events).1,
    (login_step s e).2 ++ (serve (login_step s e).1 events).2).
Proof. cbn. destruct (login_step s e) as [s1 out]. cbn. by destruct (serve s1 events). Qed.

Lemma login_step_ok s e : limiter_ok (lg_limiter s) →
  limiter_ok (lg_limiter (login_step s e).1) ∧ (size (lg_limiter (login_step s e).1) ≤ S (size (lg_limiter s)))%nat.
Proof.
  intros Hok. destruct e as [u now|i user pw now]; cbn.
  - destruct (handleLogin_asks _ _ _); cbn; split; done || lia.
  - destruct (lg_checking s !! i) as [u|]; cbn; [|split; done || lia].
    unfold handleLogin_ends. destruct (password_ok user pw); cbn.
    + split; [by apply map_Forall_delete|]. unfold Reset_. rewrite map_size_delete. case_match; cbn; lia.
    + split; [by apply Fail_ok|apply Fail_size].
Qed.

Lemma crowd_delete s i u : lg_checking s !! i = Some u →
  crowd key s = ((if decide (loginKey u = key) then 1 else 0)
    + length (filter (λ u, loginKey u = key) (delete i (lg_checking s))))%nat.
Proof.
  intros Hi. unfold crowd. rewrite (delete_Permutation _ _ _ Hi) at 1. rewrite filter_cons.
  by destruct (decide _).
Qed.

(** A section that is no guess at the account leaves its entry, and lets a request
    for it through only when its pause is over. *)
Definition quiet (s : Logins) (e : Event) : Prop :=
  let s' := (login_step s e).1 in
  guesses key (login_step s e).2 = [] ∧ lg_limiter s' !! key = lg_limiter s !! key
  ∧ (crowd key s' = crowd key s
     ∨ crowd key s' = S (crowd key s) ∧ ∀ st, lg_limiter s !! key = Some st → blockedTo st <= clock e).

(** A guess is one of the requests being checked, and is counted. *)
Definition guess (s : Logins) (e : Event) : Prop :=
  let s' := (login_step s e).1 in
  guesses key (login_step s e).2 = [clock e] ∧ crowd key s = S (crowd key s')
  ∧ ∃ st', lg_limiter s' !! key = Some st' ∧ 1 <= failures st' ∧ seen st' = clock e
      ∧ ∀ st, lg_limiter s !! key = Some st → clock e - seen st <= loginFailureWindow →
          failures st' = failures st + 1.

Lemma step_cases s e : limiter_ok (lg_limiter s) → (size (lg_limiter s) < loginLimiterMaxEntries)%nat →
  entered key (login_step s e).2 = false → quiet s e ∨ guess s e.
Proof.
  intros Hok Hs. destruct e as [u now|i user pw now]; unfold quiet, guess; cbn.
  - unfold handleLogin_asks, Allow. destruct (lg_limiter s !! loginKey u) as [st|] eqn:Hu;
      [destruct (Z.ltb_spec now (blockedTo st)) as [Hb|Hb]|]; cbn; intros _; left.
    + rewrite andb_false_r. split_and!; [done..|by left].
    + split_and!; [done..|]. unfold crowd. cbn. rewrite filter_app, length_app, filter_cons, filter_nil.
      destruct (decide _) as [<-|]; cbn; [|left; lia]. right. split; [lia|]. intros st' Hst'. congruence.
    + split_and!; [done..|]. unfold crowd. cbn. rewrite filter_app, length_app, filter_cons, filter_nil.
      destruct (decide _) as [<-|]; cbn; [|left; lia]. right. split; [lia|]. intros st' Hst'. congruence.
  - destruct (lg_checking s !! i) as [u|] eqn:Hi; cbn; [|intros _; left; split_and!; [done..|by left]].
    pose proof (crowd_delete _ _ _ Hi) as Hcrowd. unfold handleLogin_ends.
    destruct (password_ok user pw); cbn; case_bool_decide as Hk; cbn; intros Hin.
    + done.
    + left. rewrite decide_False in Hcrowd by done. split_and!; [done| |by left].
      unfold Reset_. by rewrite lookup_delete_ne.
    + right. rewrite decide_True in Hcrowd by done. split_and!; [done..|].
      destruct (Fail_key (lg_limiter s) u now Hok) as (st' & Hst' & _ & Hf & Hnow & Hnext). rewrite Hk in Hst', Hnext.
      by exists st'.
    + left. rewrite decide_False in Hcrowd by done. split_and!; [done| |by left]. by apply Fail_other.
Qed.

Lemma siege_step s e events : siege key c s (e :: events) →
  siege key c (login_step s e).1 events ∧ (crowd key s ≤ c)%nat ∧ (quiet s e ∨ guess s e)
  ∧ Forall (λ x, clock e <= clock x) events.
Proof.
  intros [Hok Hroom Hshut Hclock Hafter Hcrowd]. rewrite serve_cons in Hshut. cbn [snd] in Hshut.
  rewrite entered_app in Hshut. apply orb_false_iff in Hshut as [Hnow Hshut]. cbn [length] in Hroom.
  rewrite fmap_cons in Hclock. apply StronglySorted_inv in Hclock as [Hclock Hlater]. rewrite Forall_fmap in Hlater.
  destruct (login_step_ok s e Hok) as [Hok' Hsize]. pose proof (step_cases s e Hok ltac:(lia) Hnow) as Hcase.
  split_and!; [|exact (Hcrowd 0%nat)|done|done]. split; try done; [lia| |].
  - destruct Hcase as [(_ & -> & _)|(_ & _ & st' & Hst' & _ & Hseen & _)]; intros st Hst.
    + apply Hafter in Hst. by apply Forall_cons in Hst as [_ ?].
    + assert (st' = st) as -> by congruence. by rewrite Hseen.
  - intros n. specialize (Hcrowd (S n)). cbn [take] in Hcrowd. by rewrite serve_cons in Hcrowd.
Qed.

Lemma guesses_later t events : ∀ s j b,
  siege key c s events → Forall (λ e, t <= clock e) events → guesses key (serve s events).2 !! j = Some b → t <= b.
Proof.
  induction events as [|e events IH]; intros s j b Hsiege Hall; [done|].
  apply siege_step in Hsiege as (Hsiege & _ & Hcase & _). apply Forall_cons in Hall as [He Hall].
  rewrite serve_cons. cbn [snd]. rewrite guesses_app.
  destruct Hcase as [[-> _]|[-> _]]; [by apply IH|]. destruct j as [|j]; [by intros [= <-]|by apply IH].
Qed.

(** As many guesses later as there are requests being checked now, and one more,
    the pause is over: one of these guesses was let through after it. *)
Lemma hop events : ∀ s st j b, siege key c s events → lg_limiter s !! key = Some st →
  guesses key (serve s events).2 !! j = Some b → (crowd key s ≤ j)%nat →
  loginFailureWindow < b - seen st ∨ pause (failures st) <= b - seen st.
Proof.
  induction events as [|e events IH]; intros s st j b Hsiege Hst Hj Hcrowd; [done|].
  pose proof (sg_after _ _ _ _ Hsiege st Hst) as Hseen. pose proof (sg_ok _ _ _ _ Hsiege key st Hst) as [_ Hblock].
  apply siege_step in Hsiege as (Hsiege & _ & Hcase & Hlater). apply Forall_cons in Hseen as [He _].
  rewrite serve_cons in Hj. cbn [snd] in Hj. rewrite guesses_app in Hj.
  destruct Hcase as [(Hnone & Hsame & Hin)|(Hone & Hout & st' & Hst' & _ & Hnow & Hnext)].
  - rewrite Hnone in Hj. cbn in Hj. destruct Hin as [Hc|[Hc Hopen]].
    + apply (IH _ st j b Hsiege); [congruence|done|lia].
    + right. specialize (Hopen st Hst). pose proof (guesses_later _ _ _ _ _ Hsiege Hlater Hj). lia.
  - rewrite Hone in Hj. destruct j as [|j]; [lia|]. cbn in Hj.
    pose proof (guesses_later _ _ _ _ _ Hsiege Hlater Hj) as Hb.
    destruct (IH _ st' j b Hsiege Hst' Hj ltac:(lia)) as [Hw|Hp]; rewrite Hnow in *; [left; lia|].
    destruct (decide (clock e - seen st <= loginFailureWindow)) as [Hw|]; [|left; lia].
    specialize (Hnext st Hst Hw). right. pose proof (pause_mono (failures st) (failures st')). lia.
Qed.

(** The history from a guess on. *)
Lemma guess_at events : ∀ s j b, siege key c s events → guesses key (serve s events).2 !! j = Some b →
  ∃ s' later st, siege key c s' later ∧ lg_limiter s' !! key = Some st ∧ 1 <= failures st ∧ seen st = b
    ∧ (crowd key s' < c)%nat
    ∧ (∀ k, guesses key (serve s events).2 !! (S j + k)%nat = guesses key (serve s' later).2 !! k)
    ∧ ∀ st0, lg_limiter s !! key = Some st0 →
        loginFailureWindow < b - seen st0 ∨ failures st = failures st0 + Z.of_nat (S j).
Proof.
  induction events as [|e events IH]; intros s j b Hsiege Hj; [done|].
  pose proof (sg_after _ _ _ _ Hsiege) as Hseen.
  apply siege_step in Hsiege as (Hsiege & Hc & Hcase & Hlater).
  rewrite serve_cons in Hj |- *. cbn [snd] in Hj |- *. rewrite guesses_app in Hj |- *.
  destruct Hcase as [(Hnone & Hsame & _)|(Hone & Hout & st' & Hst' & Hpos & Hnow & Hnext)].
  - rewrite Hnone in Hj |- *. cbn [app] in Hj |- *. rewrite <-Hsame. by apply IH.
  - rewrite Hone in Hj |- *. cbn [app] in Hj |- *. destruct j as [|j]; cbn in Hj.
    + injection Hj as <-. exists (login_step s e).1, events, st'. split_and!; try done; [lia|].
      intros st0 Hst0. destruct (decide (clock e - seen st0 <= loginFailureWindow)); [right|left; lia].
      by apply Hnext.
    + pose proof (guesses_later _ _ _ _ _ Hsiege Hlater Hj) as Hb.
      destruct (IH _ j b Hsiege Hj) as (s' & later & st & ? & ? & ? & ? & ? & Hrest & Hcount).
      exists s', later, st. split_and!; try done. intros st0 Hst0.
      pose proof (Hseen st0 Hst0) as [He _]%Forall_cons. destruct (Hcount st' Hst') as [Hw|Hn]; [rewrite Hnow in Hw|].
      * left. lia.
      * destruct (decide (clock e - seen st0 <= loginFailureWindow)) as [Hw|]; [|left; lia].
        right. rewrite Hn, (Hnext st0 Hst0 Hw). lia.
Qed.

(** Every [c] guesses cost one more pause. *)
Lemma guesses_span m : ∀ s events st b, siege key c s events → lg_limiter s !! key = Some st →
  (crowd key s < c)%nat → guesses key (serve s events).2 !! (m * c + (c - 1))%nat = Some b →
  loginFailureWindow < b - seen st ∨ pauses (failures st) (S m) <= b - seen st.
Proof.
  induction m as [|m IH]; intros s events st b Hsiege Hst Hc Hb.
  { cbn [pauses]. rewrite Z.add_0_r. apply (hop events s st _ b Hsiege Hst Hb). lia. }
  assert (is_Some (guesses key (serve s events).2 !! (c - 1)%nat)) as [b1 Hb1].
  { apply lookup_lt_is_Some. apply lookup_lt_Some in Hb. cbn in Hb. lia. }
  pose proof (guesses_later _ _ _ _ _ Hsiege (sg_after _ _ _ _ Hsiege st Hst) Hb1).
  destruct (hop events s st _ b1 Hsiege Hst Hb1 ltac:(lia)) as [Hw|Hp];
    destruct (guess_at events s _ b1 Hsiege Hb1) as (s' & later & st' & Hsiege' & Hst' & Hpos & Hnow & Hc' & Hrest & Hcount);
    replace (S m * c + (c - 1))%nat with (S (c - 1) + (m * c + (c - 1)))%nat in Hb by lia; rewrite Hrest in Hb;
    pose proof (guesses_later (seen st') later s' _ b Hsiege' (sg_after _ _ _ _ Hsiege' st' Hst') Hb) as Hle.
  - left. lia.
  - destruct (IH s' later st' b Hsiege' Hst' Hc' Hb) as [Hw|Hps]; [left; lia|].
    destruct (Hcount st Hst) as [?|Hn]; [left; lia|]. right.
    pose proof (pauses_mono (S m) (failures st + 1) (failures st') ltac:(lia)).
    change (pauses (failures st) (S (S m))) with (pause (failures st) + pauses (failures st + 1) (S m)). lia.
Qed.
End Guessing.

(** * What the brake promises *)

(** C33. However the requests overlap, while never more than [c] of them are
    comparing a password for one account at the same time, nobody gets more than
    nine times [c] guesses at it and one more within half an hour: between a guess
    that failed and the one [9 * c] after it at least [loginFailureWindow] passes,
    whatever else the service is asked meanwhile. It is so as long as nobody logs in
    to the account in between (that forgets the failures), the table has room for
    every name that is tried, and the sections come in the order of the clocks they
    read. The case and the spaces around the name do not matter. Nothing in the code
    bounds [c]: see [parallel_guesses]. *)
Theorem ten_guesses_half_hour `{Unicode} `{Bcrypt} key c s events i a b :
  siege key c s events →
  guesses key (serve s events).2 !! i = Some a →
  guesses key (serve s events).2 !! (i + 9 * c)%nat = Some b → loginFailureWindow <= b - a.
Proof.
  intros Hsiege Ha Hb.
  destruct (guess_at key c events s i a Hsiege Ha) as (s' & later & st & Hsiege' & Hst & Hpos & <- & Hc & Hrest & _).
  replace (i + 9 * c)%nat with (S i + (8 * c + (c - 1)))%nat in Hb by lia. rewrite Hrest in Hb.
  destruct (guesses_span key c 8 s' later st b Hsiege' Hst Hc Hb) as [?|Hp]; [lia|].
  pose proof (nine_pauses _ Hpos). lia.
Qed.

(** Nothing bounds the requests that are between their two sections: any number
    of them pass while the account is open, and all of them guess, at once. *)
Section Parallel.
Context `{Unicode} `{Bcrypt} (username password : string) (now : Z).

Definition all_ask (n : nat) : list Event := replicate n (Asks username now).
Definition all_end (n : nat) : list Event := replicate n (Ends 0 None password now).

Lemma serve_app s e1 e2 :
  serve s (e1 ++ e2) = ((serve (serve s e1).1 e2).1, (serve s e1).2 ++ (serve (serve s e1).1 e2).2).
Proof.
  revert s. induction e1 as [|e e1 IH]; intros s; cbn [app].
  - cbn. by destruct (serve s e2).
  - rewrite !serve_cons, IH. cbn. by rewrite <-(assoc_L (++)).
Qed.

Lemma all_pass n : ∀ s, handleLogin_asks (lg_limiter s) username now = None →
  serve s (all_ask n) = (mkLogins (lg_limiter s) (lg_checking s ++ replicate n username), []).
Proof.
  induction n as [|n IH]; intros s Hopen.
  { cbn. rewrite app_nil_r. by destruct s. }
  unfold all_ask. cbn [replicate]. rewrite serve_cons. cbn [login_step fst snd]. rewrite Hopen. cbn [fst snd].
  fold (all_ask n). rewrite IH by done. cbn. by rewrite <-(assoc_L (++)).
Qed.

Lemma all_guess n : ∀ l, guesses (loginKey username) (serve (mkLogins l (replicate n username)) (all_end n)).2
  = replicate n now.
Proof.
  induction n as [|n IH]; intros l; [done|]. unfold all_end. cbn [replicate]. rewrite serve_cons.
  cbn [login_step lg_checking lookup list_lookup snd fst]. unfold handleLogin_ends. cbn [password_ok negb snd fst].
  rewrite guesses_app. fold (all_end n). cbn [delete list_delete]. rewrite IH. cbn. by rewrite bool_decide_true.
Qed.

Lemma parallel_guesses n l : handleLogin_asks l username now = None →
  guesses (loginKey username) (serve (mkLogins l []) (all_ask n ++ all_end n)).2 = replicate n now.
Proof.
  intros Hopen. rewrite serve_app, all_pass by done. cbn [fst snd lg_limiter lg_checking app]. apply all_guess.
Qed.
End Parallel.

(** ** The size of the table *)
Section Size.
Lemma seen_before_fold es : ∀ best, (foldl seen_before best es).1 = best.1 ∨ (foldl seen_before best es).1 ∈ es.*1.
Proof.
  induction es as [|e es IH]; intros best; cbn; [by left|].
  destruct (IH (seen_before best e)) as [Hh|Hh]; [|right; by right].
  assert ((seen_before best e).1 = e.1 ∨ (seen_before best e).1 = best.1) as [He|He]
    by (unfold seen_before; destruct (_ || _); [by left|by right]).
  - right. rewrite Hh, He. by left.
  - left. congruence.
Qed.

Lemma oldest_elem l : l ≠ ∅ → is_Some (l !! (oldest l).1).
Proof.
  intros Hne. unfold oldest. destruct (map_to_list l) as [|e es] eqn:Hl; [by apply map_to_list_empty_iff in Hl|].
  cbn [foldl]. assert (seen_before (""%string, zero_time) e = (e.1, seen e.2)) as -> by done.
  assert ((foldl seen_before (e.1, seen e.2) es).1 ∈ (e :: es).*1) as Hin.
  { destruct (seen_before_fold es (e.1, seen e.2)) as [->|?]; [by left|by right]. }
  rewrite <-Hl in Hin. apply list_elem_of_fmap in Hin as ([k st] & Hk & Hin).
  apply elem_of_map_to_list in Hin. exists st. by rewrite Hk.
Qed.

Lemma evict_makes_room l now : l !! ""%string = None → (size l ≤ loginLimiterMaxEntries)%nat →
  (size (evict l now) < loginLimiterMaxEntries)%nat.
Proof.
  intros Hempty Hsize. unfold evict. destruct (Nat.ltb_spec (size l) loginLimiterMaxEntries) as [?|Hfull]; [done|].
  set (m := filter _ l). destruct (Nat.ltb_spec (size m) loginLimiterMaxEntries) as [?|Hm]; [done|].
  assert (0 < loginLimiterMaxEntries)%nat as Hpos by (vm_compute; lia).
  assert (m ≠ ∅) as Hne by (intros ->; rewrite map_size_empty in Hm; lia).
  destruct (oldest_elem m Hne) as [st Hst].
  rewrite bool_decide_false by (intros Hk; rewrite Hk in Hst; apply map_lookup_filter_Some in Hst as [Hst _]; congruence).
  rewrite map_size_delete, Hst. pose proof (map_subseteq_size _ _ (map_filter_subseteq _ l : m ⊆ l)).
  cbn. lia.
Qed.
End Size.

(** The table of accounts never holds more than [loginLimiterMaxEntries]
    entries, whatever names are tried, as long as no name tried is empty. *)
Definition asked (e : Event) : option string := match e with Asks u _ => Some u | Ends _ _ _ _ => None end.

Theorem table_bounded `{Unicode} `{Bcrypt} events : ∀ s,
  lg_limiter s !! ""%string = None → (size (lg_limiter s) ≤ loginLimiterMaxEntries)%nat →
  Forall (λ u, loginKey u ≠ ""%string) (lg_checking s ++ omap asked events) →
  lg_limiter (serve s events).1 !! ""%string = None
  ∧ (size (lg_limiter (serve s events).1) ≤ loginLimiterMaxEntries)%nat.
Proof.
  induction events as [|e events IH]; intros s Hempty Hsize Hall; [done|].
  rewrite serve_cons. cbn [fst].
  assert (Forall (λ u, loginKey u ≠ ""%string) (lg_checking (login_step s e).1 ++ omap asked events)
    ∧ lg_limiter (login_step s e).1 !! ""%string = None
    ∧ (size (lg_limiter (login_step s e).1) ≤ loginLimiterMaxEntries)%nat) as (? & ? & ?); [|by apply IH].
  destruct e as [u now|i user pw now]; cbn in Hall |- *.
  - destruct (handleLogin_asks _ _ _); cbn; (split; [|done]).
    + apply Forall_app in Hall as [? [_ ?]%Forall_cons]. by apply Forall_app.
    + by rewrite <-(assoc_L (++)).
  - apply Forall_app in Hall as [Hc Hrest]. destruct (lg_checking s !! i) as [u|] eqn:Hi; cbn; [|by rewrite Forall_app].
    pose proof (Forall_lookup_1 _ _ _ _ Hc Hi) as Hu. unfold handleLogin_ends.
    assert (Forall (λ u, loginKey u ≠ ""%string) (delete i (lg_checking s) ++ omap asked events)) as Hd
      by (apply Forall_app; split; [by apply Forall_delete|done]).
    destruct (password_ok user pw); cbn; (split; [done|]).
    + unfold Reset_. rewrite lookup_delete_ne by done. split; [done|].
      rewrite map_size_delete. case_match; cbn; lia.
    + unfold Fail_. destruct (lg_limiter s !! loginKey u) as [st|] eqn:Hl.
      * rewrite lookup_insert_ne by done. split; [done|]. by rewrite map_size_insert_Some by (by exists st).
      * rewrite lookup_insert_ne by done. split.
        -- by eapply lookup_weaken_None, evict_subseteq.
        -- pose proof (evict_makes_room (lg_limiter s) now Hempty Hsize). rewrite map_size_insert. case_match; cbn; lia.
Qed.

(** ** What the brake does not promise *)
Section Limits.
Context `{Unicode}.

Lemma fold_least es : ∀ best, best.2 ≠ zero_time → Forall (λ e, seen e.2 ≠ zero_time) es →
  (foldl seen_before best es).2 <= best.2 ∧ Forall (λ e, (foldl seen_before best es).2 <= seen e.2) es
  ∧ (foldl seen_before best es = best ∨ ∃ e, e ∈ es ∧ foldl seen_before best es = (e.1, seen e.2)).
Proof.
  induction es as [|e es IH]; intros best Hb Hes; cbn [foldl].
  { split; [done|]. split; [constructor|by left]. }
  apply Forall_cons in Hes as [He Hes].
  assert (seen_before best e = best ∧ best.2 <= seen e.2 ∨ seen_before best e = (e.1, seen e.2) ∧ seen e.2 < best.2) as Ho.
  { unfold seen_before. rewrite bool_decide_false by done. cbn. destruct (Z.ltb_spec (seen e.2) best.2); [by right|by left]. }
  destruct Ho as [[-> Hle]|[-> Hlt]].
  - destruct (IH best Hb Hes) as (H1 & H2 & H3). split; [done|]. split; [constructor; [lia|done]|].
    destruct H3 as [?|(x & Hx & ?)]; [by left|]. right. exists x. split; [by right|done].
  - destruct (IH (e.1, seen e.2) He Hes) as (H1 & H2 & H3). cbn in H1. split; [lia|].
    split; [by constructor|]. right. destruct H3 as [->|(x & Hx & ->)]; [by exists e; split; [left|]|].
    exists x. split; [by right|done].
Qed.

Lemma oldest_least l k st : l !! k = Some st →
  (∀ k' st', l !! k' = Some st' → seen st' ≠ zero_time ∧ (k' ≠ k → seen st < seen st')) → (oldest l).1 = k.
Proof.
  intros Hk Hall. unfold oldest. destruct (map_to_list l) as [|e es] eqn:Hl.
  { apply elem_of_map_to_list in Hk. rewrite Hl in Hk. by apply elem_of_nil in Hk. }
  assert (∀ x, x ∈ e :: es → l !! x.1 = Some x.2) as Hin
    by (intros [a b] Hx; rewrite <-Hl in Hx; by apply elem_of_map_to_list).
  cbn [foldl]. assert (seen_before (""%string, zero_time) e = (e.1, seen e.2)) as -> by done.
  destruct (fold_least es (e.1, seen e.2)) as (H1 & H2 & H3).
  { cbn. by apply (Hall e.1), Hin; left. }
  { apply Forall_forall. intros x Hx. by apply (Hall x.1), Hin; right. }
  assert (∃ x, x ∈ e :: es ∧ foldl seen_before (e.1, seen e.2) es = (x.1, seen x.2)) as (x & Hx & Hres).
  { destruct H3 as [->|(x & Hx & ->)]; [exists e; by split; [left|]|exists x; by split; [right|]]. }
  assert ((k, st) ∈ e :: es) as Hkin by (rewrite <-Hl; by apply elem_of_map_to_list).
  rewrite Hres. cbn. destruct (decide (x.1 = k)) as [|Hne]; [done|]. exfalso.
  destruct (Hall x.1 x.2 (Hin _ Hx)) as [_ Hlt]. specialize (Hlt Hne).
  assert (seen x.2 <= seen st) as Hge; [|lia]. rewrite Hres in H1, H2. cbn in H1.
  apply elem_of_cons in Hkin as [<-|Hkin]; [done|]. rewrite Forall_forall in H2. by apply (H2 _ Hkin).
Qed.

(** The table is full and everything in it is fresh: the account seen first gives
    way. *)
Lemma evict_full l k st now : size l = loginLimiterMaxEntries → l !! k = Some st →
  (∀ k' st', l !! k' = Some st' → stale now st' = false ∧ seen st' ≠ zero_time ∧ (k' ≠ k → seen st < seen st')) →
  evict l now = if bool_decide (k = ""%string) then l else delete k l.
Proof.
  intros Hsize Hk Hall. unfold evict. rewrite Hsize, Nat.ltb_irrefl.
  assert (filter (λ e, stale now e.2 = false) l = l) as ->.
  { apply map_filter_id. intros k' st' H'. by apply (Hall k' st'). }
  rewrite Hsize, Nat.ltb_irrefl, (oldest_least l k st Hk); [done|].
  intros k' st' H'. apply (Hall k' st' H').
Qed.

(** A flood of other names forgets the failures of an account, and with them its
    pause: with a full table of fresh entries, one failure under a new name makes
    a blocked account open again. *)
Lemma flood_unblocks l k st new user now : size l = loginLimiterMaxEntries → l !! k = Some st → k ≠ ""%string →
  (∀ k' st', l !! k' = Some st' → stale now st' = false ∧ seen st' ≠ zero_time ∧ (k' ≠ k → seen st < seen st')) →
  l !! loginKey new = None → loginKey user = k → now < blockedTo st →
  (Allow l user now).1 = false ∧ Allow (Fail_ l new now) user now = (true, 0).
Proof.
  intros Hsize Hk Hne Hall Hnew Huser Hblocked. split.
  - unfold Allow. rewrite Huser, Hk. by rewrite (proj2 (Z.ltb_lt _ _) Hblocked).
  - unfold Allow, Fail_. rewrite Hnew, Huser, (evict_full l k st now Hsize Hk Hall), bool_decide_false by done.
    rewrite lookup_insert_ne by congruence. by rewrite lookup_delete_eq.
Qed.

(** The empty name is never evicted, and while it is the one seen first nothing
    is: the table grows beyond its bound. *)
Lemma empty_name_grows l st new now : size l = loginLimiterMaxEntries → l !! ""%string = Some st →
  (∀ k' st', l !! k' = Some st' → stale now st' = false ∧ seen st' ≠ zero_time ∧ (k' ≠ ""%string → seen st < seen st')) →
  l !! loginKey new = None → size (Fail_ l new now) = S loginLimiterMaxEntries.
Proof.
  intros Hsize Hk Hall Hnew. unfold Fail_. rewrite Hnew, (evict_full l ""%string st now Hsize Hk Hall), bool_decide_true by done.
  by rewrite map_size_insert_None, Hsize.
Qed.
End Limits.

(** * Samples *)
Section Samples.

(** Letters beyond ASCII have no case here. *)
#[local] Instance ascii_only : Unicode := {
  IsLetter := λ r, in_range 65 90 r || in_range 97 122 r;
  IsDigit := in_range 48 57;
  ToLowerRune := λ r, if in_range 65 90 r then r + 32 else r
}.

#[local] Instance plain_text : Bcrypt := {
  CompareHashAndPassword := String.eqb;
  dummyPasswordHash := "!"
}.

Example key_folds : loginKey "  Admin " = "admin"%string ∧ loginKey "ADMIN" = loginKey "admin".
Proof. vm_compute. done. Qed.

Definition admin : Account := mkAccount false "right".

(** Two requests at a time, both wrong, as soon as they are let through; what
    asks during a pause is refused. *)
Definition two_at_once (t : Z) : list Event :=
  [Asks " Admin" (t * Second); Asks "admin" (t * Second);
   Ends 1 (Some admin) "wrong" (t * Second); Ends 0 (Some admin) "no" (t * Second)].

Definition guessing : list Event :=
  two_at_once 1 ++ two_at_once 2 ++ two_at_once 3 ++ [Asks "admin" (4 * Second)]
  ++ two_at_once 123 ++ two_at_once 603 ++ two_at_once 1503 ++ two_at_once 2403 ++ two_at_once 3303
  ++ two_at_once 4203 ++ two_at_once 5103.

Definition guessed : list Z := guesses "admin" (serve (mkLogins ∅ []) guessing).2.

Example guessed_times : guessed
  = (λ t, t * Second) <$> [1; 1; 2; 2; 3; 3; 123; 123; 603; 603; 1503; 1503; 2403; 2403; 3303; 3303; 4203; 4203;
                           5103; 5103].
Proof. vm_compute. reflexivity. Qed.

Example refused : re_answer <$> filter (λ r, re_at r = 4 * Second) (serve (mkLogins ∅ []) guessing).2
  = [TooMany (119 * Second)].
Proof. vm_compute. reflexivity. Qed.

(** A crowd that stays within its bound at every moment. *)
Lemma crowd_bounded `{Unicode} `{Bcrypt} key c s events :
  forallb (λ n, crowd key (serve s (take n events)).1 <=? c)%nat (seq 0 (S (length events))) = true →
  ∀ n, (crowd key (serve s (take n events)).1 ≤ c)%nat.
Proof.
  intros Hall n. rewrite forallb_forall in Hall.
  destruct (decide (n ≤ length events)%nat) as [Hn|Hn].
  - apply Nat.leb_le, Hall, in_seq. lia.
  - rewrite take_ge by lia. rewrite <-(firstn_all events) at 1. apply Nat.leb_le, Hall, in_seq. lia.
Qed.

Lemma guessing_siege : siege "admin" 2 (mkLogins ∅ []) guessing.
Proof.
  split.
  - intros k st Hk. cbn in Hk; by rewrite lookup_empty in Hk.
  - vm_compute. lia.
  - vm_compute. reflexivity.
  - cbn. repeat constructor; vm_compute; discriminate.
  - intros st Hk. cbn in Hk; by rewrite lookup_empty in Hk.
  - apply crowd_bounded. vm_compute. reflexivity.
Qed.

Lemma ten_guesses_half_hour_witness : loginFailureWindow <= 5103 * Second - 1 * Second.
Proof.
  apply (ten_guesses_half_hour "admin" 2 _ _ 0 _ _ guessing_siege); vm_compute; reflexivity.
Defined.

Lemma table_bounded_witness : (size (lg_limiter (serve (mkLogins ∅ []) guessing).1) ≤ loginLimiterMaxEntries)%nat.
Proof.
  refine (proj2 (table_bounded guessing (mkLogins ∅ []) _ _ _)).
  - reflexivity.
  - cbn. rewrite map_size_empty. lia.
  - cbn. repeat constructor; vm_compute; discriminate.
Defined.
End Samples.
