(* ===== verification/Approvals.v ===== *)
(** Approval of dangerous actions: the data ([internal/model/approval.go]) and
    the store ([internal/store/approvals.go], [delegations.go]).

    An operation of the store is a computation in [M]: it takes the store and
    returns the store and a value or an error, and what it has written stays
    written when a later query fails. Which queries the database refuses is
    the list [st_faults]. *)

From S2P Require Import Prelude StateM GoTime GoStr.

(** * Data *)
Inductive ApprovalLevel := LevelQuorum | LevelVeto | LevelAudit | LevelOther (s : string).

#[export] Instance ApprovalLevel_eq_dec : EqDecision ApprovalLevel.
Proof. solve_decision. Defined.

Inductive GuardedAction :=
| GuardStorageDelete | GuardStorageRetarget | GuardAuditDisable | GuardPolicyUpdate
| GuardRetentionApply | GuardJobDelete | GuardServerDelete
| GuardBackupDelete | GuardRemediationManual
| GuardOther (s : string).

#[export] Instance GuardedAction_eq_dec : EqDecision GuardedAction.
Proof. solve_decision. Defined.

(** The catalogue: an action and its default level. *)
Definition guardedActions : list (GuardedAction * ApprovalLevel) :=
  [(GuardStorageDelete, LevelQuorum);
   (GuardStorageRetarget, LevelQuorum);
   (GuardAuditDisable, LevelQuorum);
   (GuardPolicyUpdate, LevelQuorum);
   (GuardRetentionApply, LevelVeto);
   (GuardJobDelete, LevelVeto);
   (GuardServerDelete, LevelVeto);
   (GuardBackupDelete, LevelAudit);
   (GuardRemediationManual, LevelAudit)].

Definition GuardedActionByKey (key : GuardedAction) : option (GuardedAction * ApprovalLevel) :=
  List.find (λ info, bool_decide (info.1 = key)) guardedActions.

Record ApprovalGroup := mkApprovalGroup {
  grp_ID : string;
  grp_Name : string;
  grp_Title : string;
  grp_Members : list string;
  grp_CreatedAt : Z;
  grp_UpdatedAt : Z
}.

Definition Has (g : ApprovalGroup) (username : string) : bool :=
  existsb (λ member, bool_decide (member = username)) (grp_Members g).

Record ApprovalPolicy := mkApprovalPolicy {
  pol_Action : GuardedAction;
  pol_Level : ApprovalLevel;
  pol_Quorum : Z;
  pol_GroupName : string;
  pol_FallbackGroupName : string;
  pol_Timeout : Z;
  pol_VetoWindow : Z
}.

Inductive ApprovalState :=
| ApprovalPending | ApprovalEscalated | ApprovalApproved | ApprovalScheduled
| ApprovalRejected | ApprovalVetoed | ApprovalExpired | ApprovalExecuted.

#[export] Instance ApprovalState_eq_dec : EqDecision ApprovalState.
Proof. solve_decision. Defined.

Definition Final (s : ApprovalState) : bool :=
  match s with
  | ApprovalRejected | ApprovalVetoed | ApprovalExpired | ApprovalExecuted => true
  | _ => false
  end.

Record ApprovalVote := mkApprovalVote {
  vote_RequestID : string;
  vote_Voter : string;
  vote_CastBy : string;
  vote_Approve : bool;
  vote_Comment : string;
  vote_At : Z
}.

Record ApprovalRequest := mkApprovalRequest {
  req_ID : string;
  req_Action : GuardedAction;
  req_ObjectID : string;
  req_ObjectName : string;
  req_Summary : string;
  req_Requester : string;
  req_Reason : string;
  req_State : ApprovalState;
  req_Level : ApprovalLevel;
  req_Quorum : Z;
  req_GroupName : string;
  req_Escalated : bool;
  req_CreatedAt : Z;
  req_ExpiresAt : Z;
  req_DecidedAt : option Z;
  req_ExecuteAfter : option Z;
  req_Payload : string;
  req_Error : string;
  req_Votes : list ApprovalVote
}.

Definition Approvals (r : ApprovalRequest) : Z :=
  Z.of_nat (length (List.filter vote_Approve (req_Votes r))).

Definition VotedBy (r : ApprovalRequest) (username : string) : bool :=
  existsb (λ vote, bool_decide (vote_Voter vote = username)) (req_Votes r).

Record BreakGlassEvent := mkBreakGlassEvent {
  bg_ID : string;
  bg_Actor : string;
  bg_Action : GuardedAction;
  bg_ObjectID : string;
  bg_Reason : string;
  bg_Notified : list string;
  bg_At : Z
}.

Record ApprovalDelegation := mkApprovalDelegation {
  del_ID : string;
  del_Delegator : string;
  del_Delegate : string;
  del_GroupName : string;
  del_Reason : string;
  del_Prefix : string;
  del_TokenHash : string;
  del_PasswordHash : string;
  del_CreatedAt : Z;
  del_ExpiresAt : Z;
  del_RevokedAt : option Z;
  del_UsedCount : Z;
  del_LastUsedAt : option Z
}.

Definition MaxDelegationTTL : Z := 30 * 24 * Hour.

Definition Usable (d : ApprovalDelegation) (now : Z) : bool :=
  bool_decide (del_RevokedAt d = None) && before now (del_ExpiresAt d).

Definition Covers (d : ApprovalDelegation) (group : string) : bool :=
  bool_decide (del_GroupName d = ""%string) || bool_decide (del_GroupName d = group).

(** * The store *)

(** Why a handler refuses a request. *)
Inductive Refusal :=
| AlreadyPlayed (s : ApprovalState)
| OwnRequest | OwnRequestByDelegation
| GroupMissing (group : string)
| NotInGroup (voter group : string) | DelegatorNotInGroup (voter group : string)
| OtherTarget (request : string) | StillInWindow (until : Z) | StateGivesNoRight (s : ApprovalState)
| ReasonTooShort
| UnknownAction | UnknownLevel | QuorumBelowTwo
| NotYourRequest
| BadGroupName | TitleMissing | UnknownMember (member : string) | TooFewMembers
| NotLoggedIn | DelegateMissing | DelegateIsSelf | PasswordTooShort | TTLMissing | TTLTooLong
| DelegateUnknown | NotAnApprover | NotYourDelegation.

#[export] Instance Refusal_eq_dec : EqDecision Refusal.
Proof. solve_decision. Defined.

Inductive Error :=
| ErrNotFound | ErrConflict | ErrDB
| BadRequest (why : Refusal)
| Forbidden_Delegation | Forbidden_Group (group : string)
| ActionFailed (msg : string).

#[export] Instance Error_eq_dec : EqDecision Error.
Proof. solve_decision. Defined.

Record Store := mkStore {
  st_faults : list bool;
  st_groups : list ApprovalGroup;
  st_policies : list ApprovalPolicy;
  st_requests : gmap string ApprovalRequest;
  st_votes : list ApprovalVote;
  st_delegations : list ApprovalDelegation;
  st_breakGlass : list BreakGlassEvent
}.

Definition with_faults (fs : list bool) (st : Store) : Store :=
  mkStore fs (st_groups st) (st_policies st) (st_requests st) (st_votes st) (st_delegations st)
    (st_breakGlass st).
Definition with_groups (gs : list ApprovalGroup) (st : Store) : Store :=
  mkStore (st_faults st) gs (st_policies st) (st_requests st) (st_votes st) (st_delegations st)
    (st_breakGlass st).
Definition with_policies (ps : list ApprovalPolicy) (st : Store) : Store :=
  mkStore (st_faults st) (st_groups st) ps (st_requests st) (st_votes st) (st_delegations st)
    (st_breakGlass st).
Definition with_requests (rs : gmap string ApprovalRequest) (st : Store) : Store :=
  mkStore (st_faults st) (st_groups st) (st_policies st) rs (st_votes st) (st_delegations st)
    (st_breakGlass st).
Definition with_votes (vs : list ApprovalVote) (st : Store) : Store :=
  mkStore (st_faults st) (st_groups st) (st_policies st) (st_requests st) vs (st_delegations st)
    (st_breakGlass st).
Definition with_delegations (ds : list ApprovalDelegation) (st : Store) : Store :=
  mkStore (st_faults st) (st_groups st) (st_policies st) (st_requests st) (st_votes st) ds
    (st_breakGlass st).
Definition with_breakGlass (es : list BreakGlassEvent) (st : Store) : Store :=
  mkStore (st_faults st) (st_groups st) (st_policies st) (st_requests st) (st_votes st)
    (st_delegations st) es.

(** ** Computations on the store *)
Abbreviation M := (ST Store Error).

Definition refuse {A} (why : Refusal) : M A := fail (BadRequest why).
(** One query: the database refuses it or answers. *)
Definition query : M () := λ st,
  match st_faults st with
  | true :: fs => (with_faults fs st, Err ErrDB)
  | false :: fs => (with_faults fs st, Ok ())
  | [] => (st, Ok ())
  end.

(** [UPDATE ... WHERE p]: the rows and how many matched. *)
Definition update {A} (p : A → bool) (f : A → A) (l : list A) : list A :=
  (λ a, if p a then f a else a) <$> l.

Definition same (a b : string) : bool := bool_decide (a = b).

(** ** Groups *)
Definition CreateApprovalGroup (newID : string) (now : Z) (g : ApprovalGroup) : M ApprovalGroup :=
  let id := if same (grp_ID g) "" then newID else grp_ID g in
  let g := mkApprovalGroup id (grp_Name g) (grp_Title g) (grp_Members g) now now in
  query ;;
  st ← get ;
  if existsb (λ h, same (grp_ID h) id || same (grp_Name h) (grp_Name g)) (st_groups st)
  then fail ErrConflict
  else modify (with_groups (st_groups st ++ [g])) ;; mret g.

Definition UpdateApprovalGroup (now : Z) (g : ApprovalGroup) : M () :=
  query ;;
  st ← get ;
  if existsb (λ h, same (grp_ID h) (grp_ID g)) (st_groups st) then
    modify (with_groups (update (λ h, same (grp_ID h) (grp_ID g))
      (λ h, mkApprovalGroup (grp_ID h) (grp_Name h) (grp_Title g) (grp_Members g) (grp_CreatedAt h) now)
      (st_groups st)))
  else fail ErrNotFound.

Definition DeleteApprovalGroup (id : string) : M () :=
  query ;;
  st ← get ;
  if existsb (λ h, same (grp_ID h) id) (st_groups st) then
    modify (with_groups (List.filter (λ h, negb (same (grp_ID h) id)) (st_groups st)))
  else fail ErrNotFound.

Definition ListApprovalGroups : M (list ApprovalGroup) :=
  query ;;
  st ← get ;
  mret (sort_stable (λ g h, (grp_Name g <? grp_Name h)%string) (st_groups st)).

Definition ApprovalGroupByName (name : string) : M ApprovalGroup :=
  query ;;
  st ← get ;
  lift (of_option ErrNotFound (List.find (λ g, same (grp_Name g) name) (st_groups st))).

Definition GetApprovalGroup (id : string) : M ApprovalGroup :=
  query ;;
  st ← get ;
  lift (of_option ErrNotFound (List.find (λ g, same (grp_ID g) id) (st_groups st))).

(** ** Policies *)
(** One row per action: an INSERT, or an UPDATE of the row that is there. *)
Definition SetApprovalPolicy (p : ApprovalPolicy) : M () :=
  let row := mkApprovalPolicy (pol_Action p) (pol_Level p) (pol_Quorum p) (pol_GroupName p)
    (pol_FallbackGroupName p) (fromSeconds (toSeconds (pol_Timeout p)))
    (fromSeconds (toSeconds (pol_VetoWindow p))) in
  query ;;
  modify (λ st, with_policies
    (row :: List.filter (λ q, negb (bool_decide (pol_Action q = pol_Action p))) (st_policies st)) st).

Definition ListApprovalPolicies : M (list ApprovalPolicy) :=
  query ;; st ← get ; mret (st_policies st).

(** ** Requests *)
Definition CreateApprovalRequest (newID : string) (r : ApprovalRequest) : M ApprovalRequest :=
  let id := if same (req_ID r) "" then newID else req_ID r in
  let r := mkApprovalRequest id (req_Action r) (req_ObjectID r) (req_ObjectName r) (req_Summary r)
    (req_Requester r) (req_Reason r) (req_State r) (req_Level r) (req_Quorum r) (req_GroupName r)
    (req_Escalated r) (req_CreatedAt r) (req_ExpiresAt r) (req_DecidedAt r) (req_ExecuteAfter r)
    (req_Payload r) (req_Error r) (req_Votes r) in
  query ;;
  st ← get ;
  match st_requests st !! id with
  | Some _ => fail ErrDB
  | None => modify (with_requests (<[id := r]> (st_requests st))) ;; mret r
  end.

Definition votes_of (id : string) (st : Store) : list ApprovalVote :=
  List.filter (λ v, same (vote_RequestID v) id) (st_votes st).

Definition approvalVotes (id : string) : M (list ApprovalVote) :=
  query ;;
  st ← get ;
  mret (sort_stable (λ v w, vote_At v <? vote_At w) (votes_of id st)).

Definition set_votes (vs : list ApprovalVote) (r : ApprovalRequest) : ApprovalRequest :=
  mkApprovalRequest (req_ID r) (req_Action r) (req_ObjectID r) (req_ObjectName r) (req_Summary r)
    (req_Requester r) (req_Reason r) (req_State r) (req_Level r) (req_Quorum r) (req_GroupName r)
    (req_Escalated r) (req_CreatedAt r) (req_ExpiresAt r) (req_DecidedAt r) (req_ExecuteAfter r)
    (req_Payload r) (req_Error r) vs.

Definition GetApprovalRequest (id : string) : M ApprovalRequest :=
  query ;;
  st ← get ;
  r ← lift (of_option ErrNotFound (st_requests st !! id)) ;
  vs ← approvalVotes id ;
  mret (set_votes vs r).

Definition set_state (s : ApprovalState) (decidedAt executeAfter : option Z) (escalated : bool)
    (groupName : string) (r : ApprovalRequest) : ApprovalRequest :=
  mkApprovalRequest (req_ID r) (req_Action r) (req_ObjectID r) (req_ObjectName r) (req_Summary r)
    (req_Requester r) (req_Reason r) s (req_Level r) (req_Quorum r) groupName
    escalated (req_CreatedAt r) (req_ExpiresAt r) decidedAt executeAfter
    (req_Payload r) (req_Error r) (req_Votes r).

(** An UPDATE by identifier: whatever the state of the row is. *)
Definition SetApprovalState (id : string) (s : ApprovalState) (decidedAt executeAfter : option Z)
    (escalated : bool) (groupName : string) : M () :=
  query ;;
  st ← get ;
  match st_requests st !! id with
  | None => fail ErrNotFound
  | Some r => modify (with_requests
      (<[id := set_state s decidedAt executeAfter escalated groupName r]> (st_requests st)))
  end.


(** The primary key is the pair of the request and the voter. *)
Definition AddApprovalVote (now : Z) (v : ApprovalVote) : M () :=
  let at_ := if vote_At v =? zero_time then now else vote_At v in
  let v := mkApprovalVote (vote_RequestID v) (vote_Voter v) (vote_CastBy v) (vote_Approve v)
    (vote_Comment v) at_ in
  query ;;
  st ← get ;
  if existsb (λ w, same (vote_RequestID w) (vote_RequestID v) && same (vote_Voter w) (vote_Voter v))
    (st_votes st)
  then fail ErrConflict
  else match st_requests st !! vote_RequestID v with
  | None => fail ErrDB
  | Some _ => modify (with_votes (st_votes st ++ [v]))
  end.

Definition all_requests (st : Store) : list ApprovalRequest := (map_to_list (st_requests st)).*2.

Definition waiting (s : ApprovalState) : bool :=
  bool_decide (s = ApprovalPending) || bool_decide (s = ApprovalEscalated).

(** The requests come without their votes. *)
Definition ExpiredApprovalRequests (now : Z) : M (list ApprovalRequest) :=
  query ;;
  st ← get ;
  mret (List.filter (λ r, waiting (req_State r) && (req_ExpiresAt r <=? now)) (all_requests st)).

Definition due (now : Z) (r : ApprovalRequest) : bool :=
  bool_decide (req_State r = ApprovalScheduled) &&
  match req_ExecuteAfter r with Some t => t <=? now | None => false end.

Definition DueApprovalRequests (now : Z) : M (list ApprovalRequest) :=
  query ;;
  st ← get ;
  mret (sort_stable (λ r s, default 0 (req_ExecuteAfter r) <? default 0 (req_ExecuteAfter s))
    (List.filter (due now) (all_requests st))).

Definition set_error (msg : string) (retryAt : Z) (r : ApprovalRequest) : ApprovalRequest :=
  mkApprovalRequest (req_ID r) (req_Action r) (req_ObjectID r) (req_ObjectName r) (req_Summary r)
    (req_Requester r) (req_Reason r) (req_State r) (req_Level r) (req_Quorum r) (req_GroupName r)
    (req_Escalated r) (req_CreatedAt r) (req_ExpiresAt r) (req_DecidedAt r) (Some retryAt)
    (req_Payload r) msg (req_Votes r).

Definition SetApprovalError (id msg : string) (retryAt : Z) : M () :=
  query ;;
  st ← get ;
  match st_requests st !! id with
  | None => fail ErrNotFound
  | Some r => modify (with_requests (<[id := set_error msg retryAt r]> (st_requests st)))
  end.

(** ** Break-glass *)
Definition RecordBreakGlass (newID : string) (now : Z) (e : BreakGlassEvent) : M BreakGlassEvent :=
  let id := if same (bg_ID e) "" then newID else bg_ID e in
  let at_ := if bg_At e =? zero_time then now else bg_At e in
  let e := mkBreakGlassEvent id (bg_Actor e) (bg_Action e) (bg_ObjectID e) (bg_Reason e)
    (bg_Notified e) at_ in
  query ;;
  st ← get ;
  if existsb (λ f, same (bg_ID f) id) (st_breakGlass st) then fail ErrDB
  else modify (with_breakGlass (st_breakGlass st ++ [e])) ;; mret e.

(** ** Delegations *)
Definition CreateApprovalDelegation (newID : string) (now : Z) (d : ApprovalDelegation) :
    M ApprovalDelegation :=
  let id := if same (del_ID d) "" then newID else del_ID d in
  let at_ := if del_CreatedAt d =? zero_time then now else del_CreatedAt d in
  let d := mkApprovalDelegation id (del_Delegator d) (del_Delegate d) (del_GroupName d)
    (del_Reason d) (del_Prefix d) (del_TokenHash d) (del_PasswordHash d) at_ (del_ExpiresAt d)
    None 0 None in
  query ;;
  st ← get ;
  if existsb (λ e, same (del_ID e) id || same (del_Prefix e) (del_Prefix d)) (st_delegations st)
  then fail ErrConflict
  else modify (with_delegations (st_delegations st ++ [d])) ;; mret d.

Definition ApprovalDelegationByPrefix (prefix : string) : M ApprovalDelegation :=
  query ;;
  st ← get ;
  lift (of_option ErrNotFound (List.find (λ d, same (del_Prefix d) prefix) (st_delegations st))).

Definition GetApprovalDelegation (id : string) : M ApprovalDelegation :=
  query ;;
  st ← get ;
  lift (of_option ErrNotFound (List.find (λ d, same (del_ID d) id) (st_delegations st))).

Definition set_revoked (at_ : Z) (d : ApprovalDelegation) : ApprovalDelegation :=
  mkApprovalDelegation (del_ID d) (del_Delegator d) (del_Delegate d) (del_GroupName d)
    (del_Reason d) (del_Prefix d) (del_TokenHash d) (del_PasswordHash d) (del_CreatedAt d)
    (del_ExpiresAt d) (Some at_) (del_UsedCount d) (del_LastUsedAt d).

(** A repeated revocation keeps the time of the first. *)
Definition RevokeApprovalDelegation (id : string) (at_ : Z) : M () :=
  let p := λ d, same (del_ID d) id && bool_decide (del_RevokedAt d = None) in
  query ;;
  st ← get ;
  if existsb p (st_delegations st)
  then modify (with_delegations (update p (set_revoked at_) (st_delegations st)))
  else GetApprovalDelegation id ;; mret ().

Definition RevokeAllApprovalDelegations (at_ : Z) : M Z :=
  let p := λ d, bool_decide (del_RevokedAt d = None) in
  query ;;
  st ← get ;
  modify (with_delegations (update p (set_revoked at_) (st_delegations st))) ;;
  mret (Z.of_nat (length (List.filter p (st_delegations st)))).

Definition touch (at_ : Z) (d : ApprovalDelegation) : ApprovalDelegation :=
  mkApprovalDelegation (del_ID d) (del_Delegator d) (del_Delegate d) (del_GroupName d)
    (del_Reason d) (del_Prefix d) (del_TokenHash d) (del_PasswordHash d) (del_CreatedAt d)
    (del_ExpiresAt d) (del_RevokedAt d) (del_UsedCount d + 1) (Some at_).

Definition TouchApprovalDelegation (id : string) (at_ : Z) : M () :=
  query ;;
  modify (λ st, with_delegations (update (λ d, same (del_ID d) id) (touch at_) (st_delegations st)) st).

Definition PurgeExpiredDelegations (before_ : Z) : M Z :=
  query ;;
  st ← get ;
  let old := λ d, del_ExpiresAt d <? before_ in
  modify (with_delegations (List.filter (λ d, negb (old d)) (st_delegations st))) ;;
  mret (Z.of_nat (length (List.filter old (st_delegations st)))).
