(* ===== verification/Guard.v ===== *)
(** The handlers of the approval of dangerous actions
    ([internal/api/approvals.go], [handlers_approvals.go], [delegations.go],
    [handlers_delegations.go], [autoexecute.go]).

    One handler reads the clock once here; a handler that reads a request and
    writes later takes the request it has read, so that stale reads can be
    stated. Alerts, the audit log and the log are left out: no decision depends
    on them. SHA-256, bcrypt, the table of users and the code of the guarded
    actions are parameters. *)

From S2P Require Import Prelude StateM GoTime GoStr Approvals.

Definition defaultApprovalQuorum : Z := 2.
Definition defaultApprovalTimeout : Z := 72 * Hour.
Definition defaultVetoWindow : Z := 24 * Hour.
Definition defaultApprovalGroup : string := "approvers".
Definition delegationRetention : Z := 7 * 24 * Hour.
Definition retryAfterFailure : Z := 15 * Minute.
Definition MinPasswordLength : Z := 10.
Definition delegationScheme : string := "jhvd".
Definition apiTokenSeparator : ascii := ".".

(** The account of a request, from its context. *)
Record Principal := mkPrincipal { prin_Username : string; prin_CanUsersAdmin : bool }.

Definition username_or (dflt : string) (p : option Principal) : string :=
  match p with Some p => prin_Username p | None => dflt end.

(** The query parameters the guard reads. *)
Record Query := mkQuery { q_approval : string; q_break_glass : string; q_reason : string }.

(** ** Policies *)
Definition override (dflt v : Z) : Z := if 0 <? v then v else dflt.
Definition override_name (dflt v : string) : string := if same v "" then dflt else v.

Definition default_policy (action : GuardedAction) : ApprovalPolicy :=
  let level := match GuardedActionByKey action with Some info => info.2 | None => LevelAudit end in
  mkApprovalPolicy action level defaultApprovalQuorum defaultApprovalGroup "" defaultApprovalTimeout
    defaultVetoWindow.

Definition merge_policy (policy p : ApprovalPolicy) : ApprovalPolicy :=
  mkApprovalPolicy (pol_Action policy) (pol_Level p)
    (override (pol_Quorum policy) (pol_Quorum p))
    (override_name (pol_GroupName policy) (pol_GroupName p))
    (pol_FallbackGroupName p)
    (override (pol_Timeout policy) (pol_Timeout p))
    (override (pol_VetoWindow policy) (pol_VetoWindow p)).

Definition policyFor (action : GuardedAction) : M ApprovalPolicy :=
  let policy := default_policy action in
  stored ← try ListApprovalPolicies ;
  match stored with
  | Err _ => mret policy
  | Ok stored =>
    match List.find (λ p, bool_decide (pol_Action p = action)) stored with
    | Some p => mret (merge_policy policy p)
    | None => mret policy
    end
  end.

Definition signatures_needed (policy : ApprovalPolicy) : Z :=
  if bool_decide (pol_Level policy = LevelVeto) then 1 else pol_Quorum policy.

Definition approversReady (policy : ApprovalPolicy) : M bool :=
  group ← try (ApprovalGroupByName (pol_GroupName policy)) ;
  match group with
  | Err _ => mret false
  | Ok group => mret (signatures_needed policy <? Z.of_nat (length (grp_Members group)))
  end.

Fixpoint group_members (names : list string) : M (list string) :=
  match names with
  | [] => mret []
  | name :: names =>
    if same name "" then group_members names else
    group ← try (ApprovalGroupByName name) ;
    rest ← group_members names ;
    mret (match group with Ok group => grp_Members group ++ rest | Err _ => rest end)
  end.

Definition approverNames (policy : ApprovalPolicy) : M (list string) :=
  group_members [pol_GroupName policy; pol_FallbackGroupName policy].

(** ** The guard *)
Record guardedTarget := mkTarget {
  tgt_ID : string;
  tgt_Name : string;
  tgt_Summary : string;
  tgt_Payload : string
}.

(** What is bound to every change of a policy. *)
Definition policyTarget : guardedTarget :=
  mkTarget "approval-policy" "политика согласования" "изменение правил согласования опасных действий" "".

(** The answer to a guarded request: the action's own status, or a request for
    approval opened. *)
Inductive Response :=
| Performed (status : Z)
| Accepted (req : ApprovalRequest).

(** The guarded action: a handler, and the HTTP status it wrote. *)
Definition Handler : Type := Store → Store * Z.

Definition perform (next : Handler) : M Z := λ st,
  let '(st', status) := next st in (st', Ok status).

(** [strings.EqualFold] with a lower-case ASCII word. *)
Definition EqualFold (s word : string) : bool := same (ToLower s) word.

Definition matches_target (action : GuardedAction) (what : guardedTarget) (req : ApprovalRequest) :
    bool :=
  bool_decide (req_Action req = action) && same (req_ObjectID req) (tgt_ID what) &&
  same (req_Summary req) (tgt_Summary what) && same (req_Payload req) (tgt_Payload what).

(** Whether the request gives the right to act now. *)
Definition gives_right (now : Z) (req : ApprovalRequest) : result Error () :=
  match req_State req with
  | ApprovalApproved => Ok ()
  | ApprovalScheduled =>
    match req_ExecuteAfter req with
    | Some t => fail_if (before now t) (BadRequest (StillInWindow t))
    | None => Ok ()
    end
  | s => Err (BadRequest (StateGivesNoRight s))
  end.

Definition executeApproved (now : Z) (action : GuardedAction) (what : guardedTarget)
    (requestID : string) (next : Handler) : M Response :=
  req ← GetApprovalRequest requestID ;
  if negb (matches_target action what req) then refuse (OtherTarget requestID) else
  lift (gives_right now req) ;;
  status ← perform next ;
  if 400 <=? status then mret (Performed status) else
  try (SetApprovalState (req_ID req) ApprovalExecuted (Some now) (req_ExecuteAfter req)
    (req_Escalated req) (req_GroupName req)) ;;
  mret (Performed status).

Definition executeBreakGlass (now : Z) (newID : string) (q : Query) (action : GuardedAction)
    (what : guardedTarget) (actor : string) (next : Handler) : M Response :=
  let reason := TrimSpace (q_reason q) in
  if rune_len reason <? 20 then refuse ReasonTooShort else
  policy ← policyFor action ;
  notified ← approverNames policy ;
  RecordBreakGlass newID now
    (mkBreakGlassEvent "" actor action (tgt_ID what) reason notified zero_time) ;;
  status ← perform next ;
  mret (Performed status).

Definition openApprovalRequest (now : Z) (newID : string) (q : Query) (policy : ApprovalPolicy)
    (action : GuardedAction) (what : guardedTarget) (actor : string) : M Response :=
  let reason := TrimSpace (q_reason q) in
  if rune_len reason <? 10 then refuse ReasonTooShort else
  req ← CreateApprovalRequest newID
    (mkApprovalRequest "" action (tgt_ID what) (tgt_Name what) (tgt_Summary what) actor reason
      ApprovalPending (pol_Level policy) (signatures_needed policy) (pol_GroupName policy) false now
      (now + pol_Timeout policy) None None (tgt_Payload what) "" []) ;
  mret (Accepted req).

Definition guardAction (now : Z) (newID : string) (p : option Principal) (q : Query)
    (action : GuardedAction) (what : guardedTarget) (next : Handler) : M Response :=
  policy ← policyFor action ;
  if bool_decide (pol_Level policy = LevelAudit) then status ← perform next ; mret (Performed status)
  else
  let actor := username_or "anonymous" p in
  ready ← approversReady policy ;
  if negb ready then status ← perform next ; mret (Performed status) else
  let id := TrimSpace (q_approval q) in
  if negb (same id "") then executeApproved now action what id next else
  if EqualFold (q_break_glass q) "true" then executeBreakGlass now newID q action what actor next else
  openApprovalRequest now newID q policy action what actor.

(** ** Delegated votes *)
Record delegationCredentials := mkCreds { cred_Token : string; cred_Password : string }.

Definition no_creds : delegationCredentials := mkCreds "" "".

Definition present (c : delegationCredentials) : bool :=
  negb (same (TrimSpace (cred_Token c)) "") || negb (same (TrimSpace (cred_Password c)) "").

Definition splitDelegationToken (presented : string) : option (string * string) :=
  match Split apiTokenSeparator presented with
  | [scheme; prefix; secret] =>
    if negb (same scheme delegationScheme) then None else
    if same prefix "" || same secret "" then None else Some (prefix, secret)
  | _ => None
  end.

(** SHA-256 of the secret, bcrypt of the password, and bcrypt's check. *)
Class Hashing := {
  hashAPISecret : string → string;
  GenerateFromPassword : string → string;
  CompareHashAndPassword : string → string → bool
}.

Section Votes.
Context `{Hashing}.

Definition resolveDelegation (now : Z) (creds : delegationCredentials) (caller group : string) :
    M ApprovalDelegation :=
  match splitDelegationToken (TrimSpace (cred_Token creds)) with
  | None => fail Forbidden_Delegation
  | Some (prefix, secret) =>
    if same (cred_Password creds) "" then fail Forbidden_Delegation else
    found ← try (ApprovalDelegationByPrefix prefix) ;
    match found with
    | Err ErrNotFound => fail Forbidden_Delegation
    | Err e => fail e
    | Ok d =>
      if negb (same (del_TokenHash d) (hashAPISecret secret)) then fail Forbidden_Delegation else
      if negb (CompareHashAndPassword (del_PasswordHash d) (cred_Password creds))
      then fail Forbidden_Delegation else
      if negb (Usable d now) then fail Forbidden_Delegation else
      if negb (same (del_Delegate d) caller) then fail Forbidden_Delegation else
      if negb (Covers d group) then fail (Forbidden_Group group) else
      mret d
    end
  end.

(** Whose vote it is, who casts it, and by which delegation. *)
Definition voter_of (now : Z) (req : ApprovalRequest) (caller : string)
    (creds : delegationCredentials) : M (string * string * option ApprovalDelegation) :=
  if present creds then
    d ← resolveDelegation now creds caller (req_GroupName req) ;
    if same caller (req_Requester req) then refuse OwnRequestByDelegation
    else mret (del_Delegator d, caller, Some d)
  else mret (caller, ""%string, None).

(** Where a vote moves the request, from the votes of the request as read. *)
Definition decide_vote (now : Z) (req : ApprovalRequest) (approve : bool) : M ApprovalRequest :=
  let move s executeAfter :=
    SetApprovalState (req_ID req) s (Some now) executeAfter (req_Escalated req) (req_GroupName req) in
  if negb approve then
    move ApprovalRejected None ;;
    mret (set_state ApprovalRejected (Some now) (req_ExecuteAfter req) (req_Escalated req)
      (req_GroupName req) req)
  else if (req_Quorum req <=? Approvals req) && bool_decide (req_Level req = LevelVeto) then
    policy ← policyFor (req_Action req) ;
    let executeAfter := Some (now + pol_VetoWindow policy) in
    move ApprovalScheduled executeAfter ;;
    mret (set_state ApprovalScheduled (Some now) executeAfter (req_Escalated req)
      (req_GroupName req) req)
  else if req_Quorum req <=? Approvals req then
    move ApprovalApproved None ;;
    mret (set_state ApprovalApproved (Some now) (req_ExecuteAfter req) (req_Escalated req)
      (req_GroupName req) req)
  else mret (set_state (req_State req) (Some now) (req_ExecuteAfter req) (req_Escalated req)
      (req_GroupName req) req).

Definition castVote (now : Z) (req : ApprovalRequest) (caller : string) (approve : bool)
    (comment : string) (creds : delegationCredentials) : M ApprovalRequest :=
  if Final (req_State req) then refuse (AlreadyPlayed (req_State req)) else
  who ← voter_of now req caller creds ;
  let '(voter, castBy, delegation) := who in
  if same voter (req_Requester req) then refuse OwnRequest else
  found ← try (ApprovalGroupByName (req_GroupName req)) ;
  match found with
  | Err ErrNotFound => refuse (GroupMissing (req_GroupName req))
  | Err e => fail e
  | Ok group =>
    if negb (Has group voter) then
      refuse (if same castBy "" then NotInGroup voter (req_GroupName req)
              else DelegatorNotInGroup voter (req_GroupName req))
    else
    let vote := mkApprovalVote (req_ID req) voter castBy approve comment zero_time in
    AddApprovalVote now vote ;;
    match delegation with
    | Some d => try (TouchApprovalDelegation (del_ID d) now) ;; mret ()
    | None => mret ()
    end ;;
    decide_vote now (set_votes (req_Votes req ++ [vote]) req) approve
  end.

Definition handleVoteApproval (now : Z) (id : string) (p : option Principal) (approve : bool)
    (comment : string) (creds : delegationCredentials) : M ApprovalRequest :=
  req ← GetApprovalRequest id ;
  castVote now req (username_or "" p) approve comment creds.
End Votes.

(** ** Withdrawal *)
Definition may_cancel (actor : string) (req : ApprovalRequest) : M bool :=
  if same actor (req_Requester req) then mret true else
  found ← try (ApprovalGroupByName (req_GroupName req)) ;
  mret (match found with Ok group => Has group actor | Err _ => false end).

(** The handler after it has read the request. *)
Definition cancel (now : Z) (p : option Principal) (req : ApprovalRequest) : M ApprovalRequest :=
  if Final (req_State req) then refuse (AlreadyPlayed (req_State req)) else
  allowed ← may_cancel (username_or "" p) req ;
  if negb allowed then refuse NotYourRequest else
  let state := if bool_decide (req_State req = ApprovalScheduled) then ApprovalVetoed
    else ApprovalRejected in
  SetApprovalState (req_ID req) state (Some now) None (req_Escalated req) (req_GroupName req) ;;
  mret (set_state state (req_DecidedAt req) (req_ExecuteAfter req) (req_Escalated req)
    (req_GroupName req) req).

Definition handleCancelApproval (now : Z) (id : string) (p : option Principal) : M ApprovalRequest :=
  req ← GetApprovalRequest id ;
  cancel now p req.

(** ** Policies and groups *)
Record approvalPolicyPayload := mkPolicyPayload {
  pp_Action : GuardedAction;
  pp_Level : ApprovalLevel;
  pp_Quorum : Z;
  pp_GroupName : string;
  pp_FallbackGroupName : string;
  pp_TimeoutHours : Z;
  pp_VetoWindowHours : Z
}.

Definition known_level (l : ApprovalLevel) : bool :=
  match l with LevelOther _ => false | _ => true end.

Definition handleSetApprovalPolicy (payload : approvalPolicyPayload) : M ApprovalPolicy :=
  match GuardedActionByKey (pp_Action payload) with
  | None => refuse UnknownAction
  | Some _ =>
    if negb (known_level (pp_Level payload)) then refuse UnknownLevel else
    if bool_decide (pp_Level payload = LevelQuorum) && (pp_Quorum payload <? 2)
    then refuse QuorumBelowTwo else
    let policy := mkApprovalPolicy (pp_Action payload) (pp_Level payload) (pp_Quorum payload)
      (TrimSpace (pp_GroupName payload)) (TrimSpace (pp_FallbackGroupName payload))
      (i64 (pp_TimeoutHours payload * Hour)) (i64 (pp_VetoWindowHours payload * Hour)) in
    SetApprovalPolicy policy ;; mret policy
  end.

Record approvalGroupPayload := mkGroupPayload {
  gp_Name : string;
  gp_Title : string;
  gp_Members : list string
}.

(** [^[a-z][a-z0-9_-]{1,30}$] *)
Definition name_head (c : ascii) : bool := in_range 97 122 (byte_of c).
Definition name_char (c : ascii) : bool :=
  name_head c || in_range 48 57 (byte_of c) || (byte_of c =? 95) || (byte_of c =? 45).

Definition approvalGroupName (s : string) : bool :=
  match list_ascii_of_string s with
  | [] => false
  | c :: rest => name_head c && forallb name_char rest &&
      (1 <=? Z.of_nat (length rest)) && (Z.of_nat (length rest) <=? 30)
  end.

Section Groups.
(** [store.ListUsers], [store.GetUserByName]. *)
Context (ListUsers : M (list string)).

Fixpoint collect_members (known seen : list string) (raw : list string) : result Error (list string) :=
  match raw with
  | [] => Ok []
  | r :: raw =>
    let member := TrimSpace r in
    if same member "" || existsb (same member) seen then collect_members known seen raw else
    if negb (existsb (same member) known) then Err (BadRequest (UnknownMember member)) else
    rest ← collect_members known (member :: seen) raw ;
    Ok (member :: rest)
  end.

(** The payload with the title and the members cleaned. *)
Definition validateGroupMembers (payload : approvalGroupPayload) : M approvalGroupPayload :=
  let title := TrimSpace (gp_Title payload) in
  if same title "" then refuse TitleMissing else
  known ← ListUsers ;
  members ← lift (collect_members known [] (gp_Members payload)) ;
  if Z.of_nat (length members) <? 2 then refuse TooFewMembers else
  mret (mkGroupPayload (gp_Name payload) title members).

Definition handleCreateApprovalGroup (now : Z) (newID : string) (payload : approvalGroupPayload) :
    M ApprovalGroup :=
  let name := ToLower (TrimSpace (gp_Name payload)) in
  if negb (approvalGroupName name) then refuse BadGroupName else
  payload ← validateGroupMembers (mkGroupPayload name (gp_Title payload) (gp_Members payload)) ;
  CreateApprovalGroup newID now
    (mkApprovalGroup "" (gp_Name payload) (TrimSpace (gp_Title payload)) (gp_Members payload)
      zero_time zero_time).

Definition handleUpdateApprovalGroup (now : Z) (id : string) (payload : approvalGroupPayload) :
    M ApprovalGroup :=
  group ← GetApprovalGroup id ;
  payload ← validateGroupMembers payload ;
  let group := mkApprovalGroup (grp_ID group) (grp_Name group) (TrimSpace (gp_Title payload))
    (gp_Members payload) (grp_CreatedAt group) now in
  UpdateApprovalGroup now group ;; mret group.

Definition handleDeleteApprovalGroup (id : string) : M () :=
  group ← GetApprovalGroup id ;
  DeleteApprovalGroup (grp_ID group).
End Groups.

(** ** Delegations *)
Record delegationPayload := mkDelegationPayload {
  dp_Delegate : string;
  dp_GroupName : string;
  dp_Reason : string;
  dp_TTLHours : Z;
  dp_Password : string
}.

Definition checkDelegatorMembership (groups : list ApprovalGroup) (actor groupName : string) :
    result Error () :=
  if negb (same groupName "") then
    match List.find (λ g, same (grp_Name g) groupName) groups with
    | Some g => fail_if (negb (Has g actor)) (BadRequest (NotInGroup actor groupName))
    | None => Err (BadRequest (GroupMissing groupName))
    end
  else fail_if (negb (existsb (λ g, Has g actor) groups)) (BadRequest NotAnApprover).

Section Delegations.
Context `{Hashing} (GetUserByName : string → M ()).

(** [prefix] and [secret] are the random parts of the token. *)
Definition handleCreateDelegation (now : Z) (newID prefix secret : string) (p : option Principal)
    (payload : delegationPayload) : M ApprovalDelegation :=
  let actor := username_or "" p in
  if same actor "" then refuse NotLoggedIn else
  let delegate := TrimSpace (dp_Delegate payload) in
  let groupName := TrimSpace (dp_GroupName payload) in
  if same delegate "" then refuse DelegateMissing else
  if same delegate actor then refuse DelegateIsSelf else
  if Z.of_nat (String.length (dp_Password payload)) <? MinPasswordLength then refuse PasswordTooShort
  else
  let ttl := i64 (dp_TTLHours payload * Hour) in
  if ttl <=? 0 then refuse TTLMissing else
  if MaxDelegationTTL <? ttl then refuse TTLTooLong else
  known ← try (GetUserByName delegate) ;
  match known with
  | Err _ => refuse DelegateUnknown
  | Ok _ =>
    groups ← ListApprovalGroups ;
    lift (checkDelegatorMembership groups actor groupName) ;;
    CreateApprovalDelegation newID now
      (mkApprovalDelegation "" actor delegate groupName (TrimSpace (dp_Reason payload)) prefix
        (hashAPISecret secret) (GenerateFromPassword (dp_Password payload)) now (now + ttl)
        None 0 None)
  end.

Definition handleRevokeDelegation (now : Z) (id : string) (p : option Principal) :
    M ApprovalDelegation :=
  d ← GetApprovalDelegation id ;
  let isAdmin := match p with Some p => prin_CanUsersAdmin p | None => false end in
  if negb (same (username_or "" p) (del_Delegator d)) && negb isAdmin then refuse NotYourDelegation
  else
  RevokeApprovalDelegation (del_ID d) now ;;
  GetApprovalDelegation (del_ID d).
End Delegations.

(** ** The sweeper *)
Definition sweepDelegations (now : Z) : M () :=
  try (PurgeExpiredDelegations (now - delegationRetention)) ;; mret ().

(** What the sweep does with one request whose time is out. *)
Definition sweep_one (now : Z) (req : ApprovalRequest) : M () :=
  policy ← policyFor (req_Action req) ;
  if negb (req_Escalated req) && negb (same (pol_FallbackGroupName policy) "") then
    try (SetApprovalState (req_ID req) ApprovalEscalated None None true (pol_FallbackGroupName policy)) ;;
    mret ()
  else
    try (SetApprovalState (req_ID req) ApprovalExpired (Some now) None (req_Escalated req)
      (req_GroupName req)) ;;
    mret ().

Definition sweepApprovals (now : Z) : M () :=
  expired ← try (ExpiredApprovalRequests now) ;
  match expired with
  | Err _ => mret ()
  | Ok expired => for_each (sweep_one now) expired
  end.

(** The code of the actions the service completes by itself. *)
Class Actions := {
  executeJobDelete : ApprovalRequest → M ();
  executeServerDelete : ApprovalRequest → M ();
  executeRetentionApply : ApprovalRequest → M ()
}.

Section Due.
Context `{Actions}.

Definition executors (action : GuardedAction) : option (ApprovalRequest → M ()) :=
  match action with
  | GuardJobDelete => Some executeJobDelete
  | GuardServerDelete => Some executeServerDelete
  | GuardRetentionApply => Some executeRetentionApply
  | _ => None
  end.

Definition finishDueApproval (now : Z) (req : ApprovalRequest) : M () :=
  try (SetApprovalState (req_ID req) ApprovalExecuted (Some now) None (req_Escalated req)
    (req_GroupName req)) ;; mret ().

(** [msg] is the text of the cause. *)
Definition failDueApproval (now : Z) (req : ApprovalRequest) (msg : string) : M () :=
  try (SetApprovalError (req_ID req) msg (now + retryAfterFailure)) ;; mret ().

Definition error_text (e : Error) : string :=
  match e with
  | ActionFailed msg => msg
  | ErrConflict => "conflict"
  | ErrDB => "database"
  | _ => "refused"
  end.

Definition executeDueApproval (now : Z) (req : ApprovalRequest) (exec : ApprovalRequest → M ()) :
    M () :=
  outcome ← try (exec req) ;
  match outcome with
  | Ok _ => finishDueApproval now req
  | Err ErrNotFound => finishDueApproval now req
  | Err e => failDueApproval now req (error_text e)
  end.

Definition sweepDueApprovals (now : Z) : M () :=
  due ← try (DueApprovalRequests now) ;
  match due with
  | Err _ => mret ()
  | Ok due => for_each (λ req,
      match executors (req_Action req) with
      | None => mret ()
      | Some exec => executeDueApproval now req exec
      end) due
  end.

(** One pass of the sweeper. *)
Definition RunApprovalSweeper (now : Z) : M () :=
  sweepApprovals now ;; sweepDueApprovals now ;; sweepDelegations now.
End Due.
