(* ===== verification/GuardFacts.v ===== *)
(** What the approval of dangerous actions promises: an approved request has
    the votes of enough different accounts whatever the interleaving of the
    handlers, and the guard performs an action only on one of its grounds; and
    what the code does not promise although its comments say so. *)

From S2P Require Import Prelude StateM GoTime GoStr Approvals Guard.

(** * Reasoning about queries *)

(** Assertions that do not see which queries fail. *)
Definition fault_free (P : Store → Prop) : Prop := ∀ fs st, P st ↔ P (with_faults fs st).

Lemma keeps_query P : fault_free P → keeps P query.
Proof.
  intros H st Hst. unfold query. destruct (st_faults st) as [|[] fs]; [done|by apply H..].
Qed.

Lemma hoare_query {A} P (f : () → M A) Q :
  fault_free P → (∀ st e, P st → Q (Err e) st) → hoare P (f ()) Q → hoare P (query ≫= f) Q.
Proof.
  intros HP He Hf. apply (hoare_bind _ _ _ (λ _, P)).
  - intros st Hst. pose proof (keeps_query P HP st Hst) as Hq.
    destruct (query st) as [st' [[]|e]]; cbn in *; [done|by apply He].
  - by intros [].
Qed.

(** * The invariant *)
Definition approved_by (st : Store) (id voter : string) : Prop :=
  ∃ v, v ∈ st_votes st ∧ vote_RequestID v = id ∧ vote_Voter v = voter ∧ vote_Approve v = true.

(** Enough different accounts other than the requester have approved. *)
Definition quorum_met (st : Store) (r : ApprovalRequest) : Prop :=
  ∃ voters, NoDup voters ∧ req_Quorum r ≤ Z.of_nat (length voters) ∧ (req_Requester r ∉ voters)
    ∧ ∀ v, v ∈ voters → approved_by st (req_ID r) v.

Definition decided (s : ApprovalState) : Prop :=
  s = ApprovalApproved ∨ s = ApprovalScheduled ∨ s = ApprovalExecuted.

Definition two_signatures (level : ApprovalLevel) (quorum : Z) : Prop :=
  level = LevelQuorum → 2 ≤ quorum.

Definition vote_key (v : ApprovalVote) : string * string := (vote_RequestID v, vote_Voter v).

(** The fields no handler changes. *)
Definition same_request (s r : ApprovalRequest) : Prop :=
  req_ID s = req_ID r ∧ req_Requester s = req_Requester r ∧ req_Quorum s = req_Quorum r
  ∧ req_Level s = req_Level r.

(** A request as some handler has read it, at some time before. *)
Record snapshot_ok (st : Store) (s : ApprovalRequest) : Prop := {
  snap_stored : ∃ r, st_requests st !! req_ID s = Some r ∧ same_request s r;
  snap_voters : NoDup (vote_Voter <$> req_Votes s);
  snap_votes : ∀ v, v ∈ req_Votes s → v ∈ st_votes st ∧ vote_RequestID v = req_ID s;
  snap_quorum : decided (req_State s) → quorum_met st s
}.

Record Inv (seen : list ApprovalRequest) (st : Store) : Prop := {
  inv_id : ∀ id r, st_requests st !! id = Some r → req_ID r = id;
  inv_no_votes : ∀ id r, st_requests st !! id = Some r → req_Votes r = [];
  inv_uniq : NoDup (vote_key <$> st_votes st);
  inv_voter : ∀ v, v ∈ st_votes st →
    ∃ r, st_requests st !! vote_RequestID v = Some r ∧ vote_Voter v ≠ req_Requester r;
  inv_quorum : ∀ id r, st_requests st !! id = Some r → decided (req_State r) → quorum_met st r;
  inv_level : ∀ id r, st_requests st !! id = Some r → two_signatures (req_Level r) (req_Quorum r);
  inv_policies : ∀ p, p ∈ st_policies st → two_signatures (pol_Level p) (pol_Quorum p);
  inv_seen : ∀ s, s ∈ seen → snapshot_ok st s
}.

Section Frame.
Lemma approved_by_mono st st' id v :
  st_votes st ⊆ st_votes st' → approved_by st id v → approved_by st' id v.
Proof. intros H (w & Hw & ?). exists w. split; [by apply H|done]. Qed.

Lemma quorum_met_mono st st' r :
  st_votes st ⊆ st_votes st' → quorum_met st r → quorum_met st' r.
Proof.
  intros H (vs & Hnd & Hlen & Hreq & Hvs). exists vs. split_and!; try done.
  intros v Hv. eapply approved_by_mono; eauto.
Qed.

Lemma quorum_met_same st s r : same_request s r → quorum_met st s ↔ quorum_met st r.
Proof. intros (H1 & H2 & H3 & _). unfold quorum_met. by rewrite H1, H2, H3. Qed.

Lemma inv_frame seen st st' :
  st_requests st' = st_requests st → st_votes st' = st_votes st →
  (∀ p, p ∈ st_policies st' → two_signatures (pol_Level p) (pol_Quorum p)) →
  Inv seen st → Inv seen st'.
Proof.
  intros Hr Hv Hp [H1 H2 H3 H4 H5 H6 _ H8].
  assert (∀ r, quorum_met st r → quorum_met st' r) as Hq.
  { intros r. apply (quorum_met_mono st). by rewrite Hv. }
  constructor; rewrite ?Hr, ?Hv; try done.
  - intros id r Hid Hd. eauto.
  - intros s Hs. destruct (H8 s Hs) as [S1 S2 S3 S4].
    constructor; rewrite ?Hr, ?Hv; auto.
Qed.

Lemma inv_fault_free seen : fault_free (Inv seen).
Proof.
  intros fs st. split; intros HI; (eapply inv_frame; [..|exact HI]); try done;
    apply (inv_policies _ _ HI).
Qed.

Lemma snapshot_grow seen s st : snapshot_ok st s → Inv seen st → Inv (s :: seen) st.
Proof.
  intros Hs []. constructor; try done. intros s' [->|Hs']%elem_of_cons; auto.
Qed.
End Frame.
#[export] Hint Resolve inv_fault_free : core.

(** Operations that touch neither requests nor votes nor policies. *)
Definition inert {A} (m : M A) : Prop := ∀ seen, keeps (Inv seen) m.

Lemma keeps_inert_modify seen f :
  (∀ st, st_requests (f st) = st_requests st) → (∀ st, st_votes (f st) = st_votes st) →
  (∀ st, st_policies (f st) = st_policies st) → keeps (E := Error) (Inv seen) (modify f).
Proof.
  intros Hr Hv Hp. apply keeps_modify. intros st HI. apply (inv_frame seen st); auto.
  rewrite Hp. apply (inv_policies _ _ HI).
Qed.

Ltac inert_tac :=
  intros ?seen;
  repeat first
    [ apply keeps_ret | apply keeps_fail | apply keeps_lift | apply keeps_get
    | apply keeps_bind; [|intros ?] | apply keeps_try
    | apply keeps_query; solve [auto with core]
    | apply keeps_inert_modify; intros ?; reflexivity
    | progress case_match ].

Create HintDb inert.

Section Inert.
Lemma inert_groups_create id now g : inert (CreateApprovalGroup id now g).
Proof. inert_tac. Qed.
Lemma inert_groups_update now g : inert (UpdateApprovalGroup now g).
Proof. inert_tac. Qed.
Lemma inert_groups_delete id : inert (DeleteApprovalGroup id).
Proof. inert_tac. Qed.
Lemma inert_groups_list : inert ListApprovalGroups.
Proof. inert_tac. Qed.
Lemma inert_group_by_name n : inert (ApprovalGroupByName n).
Proof. inert_tac. Qed.
Lemma inert_group n : inert (GetApprovalGroup n).
Proof. inert_tac. Qed.
Lemma inert_policies : inert ListApprovalPolicies.
Proof. inert_tac. Qed.
Lemma inert_votes id : inert (approvalVotes id).
Proof. inert_tac. Qed.
Lemma inert_request id : inert (GetApprovalRequest id).
Proof. inert_tac. Qed.
Lemma inert_break_glass id now e : inert (RecordBreakGlass id now e).
Proof. inert_tac. Qed.
Lemma inert_delegation_create id now d : inert (CreateApprovalDelegation id now d).
Proof. inert_tac. Qed.
Lemma inert_delegation_prefix n : inert (ApprovalDelegationByPrefix n).
Proof. inert_tac. Qed.
Lemma inert_delegation n : inert (GetApprovalDelegation n).
Proof. inert_tac. Qed.
Lemma inert_delegation_revoke id t : inert (RevokeApprovalDelegation id t).
Proof. inert_tac. Qed.
Lemma inert_delegation_touch id t : inert (TouchApprovalDelegation id t).
Proof. inert_tac. Qed.
Lemma inert_delegation_purge t : inert (PurgeExpiredDelegations t).
Proof. inert_tac. Qed.
End Inert.
#[export] Hint Resolve inert_groups_create inert_groups_update inert_groups_delete
  inert_groups_list inert_group_by_name inert_group inert_policies inert_votes inert_request
  inert_break_glass inert_delegation_create inert_delegation_prefix inert_delegation
  inert_delegation_revoke inert_delegation_touch inert_delegation_purge : inert.

Ltac inert_calls :=
  intros ?seen;
  repeat first
    [ apply keeps_ret | apply keeps_fail | apply keeps_lift | apply keeps_get
    | apply keeps_try
    | match goal with |- keeps (Inv ?s) ?m => cut (inert m); [intros Hm; exact (Hm s)|solve [eauto with inert]] end
    | apply keeps_bind; [|intros ?]
    | progress case_match ].

Section InertHandlers.
Lemma inert_policyFor action : inert (policyFor action).
Proof. inert_calls. Qed.

Lemma inert_approversReady policy : inert (approversReady policy).
Proof. inert_calls. Qed.

Lemma inert_group_members names : inert (group_members names).
Proof.
  induction names as [|n names IH]; intros seen; cbn; [apply keeps_ret|].
  case_match; [apply IH|]. apply keeps_bind; [apply keeps_try, inert_group_by_name|].
  intros ?. apply keeps_bind; [apply IH|]. intros ?. apply keeps_ret.
Qed.

Lemma inert_may_cancel actor req : inert (may_cancel actor req).
Proof. unfold may_cancel. inert_calls. Qed.

Lemma inert_voter_of `{Hashing} now req caller creds : inert (voter_of now req caller creds).
Proof.
  assert (∀ g, inert (resolveDelegation now creds caller g)).
  { intros g. unfold resolveDelegation. inert_calls. }
  unfold voter_of. inert_calls.
Qed.

(** The handlers of groups and delegations. *)
Lemma inert_validateGroupMembers users payload :
  inert users → inert (validateGroupMembers users payload).
Proof. intros Hu. unfold validateGroupMembers. cbv zeta. inert_calls. Qed.

Lemma inert_handleCreateApprovalGroup users now id payload :
  inert users → inert (handleCreateApprovalGroup users now id payload).
Proof. intros Hu. unfold handleCreateApprovalGroup, validateGroupMembers. cbv zeta. inert_calls. Qed.

Lemma inert_handleUpdateApprovalGroup users now id payload :
  inert users → inert (handleUpdateApprovalGroup users now id payload).
Proof. intros Hu. unfold handleUpdateApprovalGroup, validateGroupMembers. inert_calls. Qed.

Lemma inert_handleDeleteApprovalGroup id : inert (handleDeleteApprovalGroup id).
Proof. inert_calls. Qed.

Lemma inert_handleCreateDelegation `{Hashing} users now id prefix secret p payload :
  (∀ n, inert (users n)) → inert (handleCreateDelegation users now id prefix secret p payload).
Proof. intros Hu. unfold handleCreateDelegation. cbv zeta. inert_calls. Qed.

Lemma inert_handleRevokeDelegation now id p : inert (handleRevokeDelegation now id p).
Proof. unfold handleRevokeDelegation. cbv zeta. inert_calls. Qed.

Lemma inert_sweepDelegations now : inert (sweepDelegations now).
Proof. inert_calls. Qed.
End InertHandlers.
#[export] Hint Resolve inert_policyFor inert_approversReady inert_group_members inert_may_cancel
  inert_voter_of inert_sweepDelegations : inert.

(** * The operations that read and write requests *)
Section Requests.
Context (seen : list ApprovalRequest).

(** What a handler has read stays true of the store as it moves on. *)
Definition seen_ok (s : ApprovalRequest) (st : Store) : Prop := Inv (s :: seen) st.

Lemma seen_inv s st : seen_ok s st → Inv seen st ∧ snapshot_ok st s.
Proof.
  intros []. split; [|apply inv_seen0; left]. constructor; try done.
  intros s' Hs'. apply inv_seen0. by right.
Qed.

Lemma votes_of_elem v id st : v ∈ votes_of id st ↔ v ∈ st_votes st ∧ vote_RequestID v = id.
Proof.
  unfold votes_of. rewrite !list_elem_of_In, filter_In. unfold same.
  rewrite bool_decide_eq_true. done.
Qed.

Lemma votes_of_voters id st :
  NoDup (vote_key <$> st_votes st) → NoDup (vote_Voter <$> votes_of id st).
Proof.
  unfold votes_of. induction (st_votes st) as [|v vs IH]; cbn; [by constructor|].
  intros [Hv Hnd]%NoDup_cons. destruct (same (vote_RequestID v) id) eqn:E; cbn; [|by apply IH].
  apply NoDup_cons. split; [|by apply IH].
  intros (w & Hw & Hin)%list_elem_of_fmap. apply Hv.
  apply list_elem_of_In, filter_In in Hin as [Hin Hid].
  unfold same in *. bprop. apply list_elem_of_fmap. exists w. split; [|by apply list_elem_of_In].
  unfold vote_key. congruence.
Qed.

Lemma snapshot_plain st id r :
  Inv seen st → st_requests st !! id = Some r → snapshot_ok st r.
Proof.
  intros HI Hid. pose proof (inv_id _ _ HI _ _ Hid) as Hr.
  pose proof (inv_no_votes _ _ HI _ _ Hid) as Hv. constructor.
  - exists r. split; [by rewrite Hr|]. done.
  - rewrite Hv. constructor.
  - rewrite Hv. intros v Hin. by apply elem_of_nil in Hin.
  - eapply inv_quorum; eauto.
Qed.

Lemma snapshot_votes st id r :
  Inv seen st → st_requests st !! id = Some r →
  snapshot_ok st (set_votes (sort_stable (λ v w, vote_At v <? vote_At w) (votes_of id st)) r).
Proof.
  intros HI Hid. pose proof (inv_id _ _ HI _ _ Hid) as Hr.
  constructor; cbn.
  - exists r. rewrite Hr. split; [done|]. done.
  - rewrite sort_stable_perm. apply votes_of_voters. eapply inv_uniq; eauto.
  - intros v. rewrite sort_stable_elem_of, votes_of_elem, Hr. done.
  - intros Hd. pose proof (inv_quorum _ _ HI _ _ Hid Hd) as Hq. exact Hq.
Qed.

Lemma GetApprovalRequest_seen id :
  hoare (Inv seen) (GetApprovalRequest id)
    (λ r st, Inv seen st ∧ match r with Ok s => snapshot_ok st s | Err _ => True end).
Proof.
  unfold GetApprovalRequest. apply hoare_query; [auto|done|]. intros st HI.
  cbv [mbind ST_bind get lift]. cbn.
  destruct (st_requests st !! id) as [r|] eqn:Hid; cbn; [|done].
  pose proof (keeps_query (Inv seen) (inv_fault_free seen) st HI) as HI'.
  assert (st_requests (query st).1 !! id = Some r) as Hid'.
  { unfold query. by destruct (st_faults st) as [|[]]. }
  unfold approvalVotes. cbv [mbind ST_bind get lift]. destruct (query st) as [st' [[]|e]]; cbn in *; [|done].
  split; [done|]. by apply snapshot_votes.
Qed.

Lemma plain_list_seen (f : Store → list ApprovalRequest) :
  (∀ st r, r ∈ f st → r ∈ all_requests st) →
  hoare (Inv seen) (query ;; st ← get ; mret (f st))
    (λ r st, Inv seen st ∧ match r with Ok l => ∀ s, s ∈ l → snapshot_ok st s | Err _ => True end).
Proof.
  intros Hf. apply hoare_query; [auto|done|]. intros st HI. cbn. split; [done|]. intros s Hs%Hf.
  unfold all_requests in Hs. apply list_elem_of_fmap in Hs as ([id r] & -> & Hin).
  apply elem_of_map_to_list in Hin. by eapply snapshot_plain.
Qed.

Lemma ExpiredApprovalRequests_seen now :
  hoare (Inv seen) (ExpiredApprovalRequests now)
    (λ r st, Inv seen st ∧ match r with Ok l => ∀ s, s ∈ l → snapshot_ok st s | Err _ => True end).
Proof.
  apply plain_list_seen. intros st r. rewrite !list_elem_of_In, filter_In. by intros [].
Qed.

Lemma DueApprovalRequests_seen now :
  hoare (Inv seen) (DueApprovalRequests now)
    (λ r st, Inv seen st ∧ match r with Ok l => ∀ s, s ∈ l → snapshot_ok st s | Err _ => True end).
Proof.
  apply plain_list_seen. intros st r. rewrite sort_stable_elem_of, !list_elem_of_In, filter_In.
  by intros [].
Qed.
End Requests.

Section Writes.
Context (seen : list ApprovalRequest).

Lemma set_request_inv st id r r' :
  Inv seen st → st_requests st !! id = Some r → same_request r' r → req_Votes r' = [] →
  (decided (req_State r') → quorum_met st r') →
  Inv seen (with_requests (<[id := r']> (st_requests st)) st).
Proof.
  intros HI Hid Hsame Hvotes Hq. pose proof (inv_id _ _ HI _ _ Hid) as Hr.
  assert (∀ id' r'', <[id := r']> (st_requests st) !! id' = Some r'' →
    (id' = id ∧ r'' = r') ∨ st_requests st !! id' = Some r'') as Hcase.
  { intros id' r'' [[<- <-]|[_ ?]]%lookup_insert_Some; auto. }
  assert (∀ id' r'', st_requests st !! id' = Some r'' →
    ∃ r3, <[id := r']> (st_requests st) !! id' = Some r3 ∧ same_request r'' r3) as Hkeep.
  { intros id' r'' Hid'. destruct (decide (id = id')) as [<-|Hne].
    - exists r'. rewrite lookup_insert_eq. split; [done|]. simplify_eq.
      destruct Hsame as (? & ? & ? & ?). repeat split; congruence.
    - exists r''. by rewrite lookup_insert_ne. }
  destruct HI as [H1 H2 H3 H4 H5 H6 H7 H8]. destruct Hsame as (Hs1 & Hs2 & Hs3 & Hs4).
  constructor; cbn; try done.
  - intros id' r'' [[-> ->]|?]%Hcase; [congruence|eauto].
  - intros id' r'' [[-> ->]|?]%Hcase; [done|eauto].
  - intros v Hv. destruct (H4 v Hv) as (r0 & Hr0 & Hne).
    destruct (Hkeep _ _ Hr0) as (r3 & Hr3 & (_ & Hreq & _)). exists r3. by rewrite <-Hreq.
  - intros id' r'' [[-> ->]|Hid'']%Hcase Hd; [by apply Hq|]. exact (H5 _ _ Hid'' Hd).
  - intros id' r'' [[-> ->]|?]%Hcase; [rewrite Hs3, Hs4|]; eauto.
  - intros s Hs. destruct (H8 s Hs) as [(r0 & Hr0 & Hrs) S2 S3 S4]. constructor; try done.
    destruct (Hkeep _ _ Hr0) as (r3 & Hr3 & (? & ? & ? & ?)). exists r3. split; [done|].
    destruct Hrs as (? & ? & ? & ?). repeat split; congruence.
Qed.

Lemma fault_free_and (P Q : Store → Prop) :
  fault_free P → fault_free Q → fault_free (λ st, P st ∧ Q st).
Proof. intros HP HQ fs st. by rewrite (HP fs st), (HQ fs st). Qed.

Lemma fault_free_quorum r (s : ApprovalState) :
  fault_free (λ st, decided s → quorum_met st r).
Proof. done. Qed.

(** A handler may move a request it has seen to a state that needs no quorum,
    or whose quorum it knows to be there. *)
Lemma SetApprovalState_inv s state d e esc g :
  s ∈ seen →
  hoare (λ st, Inv seen st ∧ (decided state → quorum_met st s))
    (SetApprovalState (req_ID s) state d e esc g) (λ _, Inv seen).
Proof.
  intros Hs. unfold SetApprovalState.
  apply hoare_query; [apply fault_free_and; [auto|apply fault_free_quorum]|by intros st ? []|].
  intros st [HI Hq]. cbv [mbind ST_bind get].
  destruct (st_requests st !! req_ID s) as [r|] eqn:Hid; cbn; [|done].
  destruct (snap_stored _ _ (inv_seen _ _ HI s Hs)) as (r0 & Hr0 & Hsame). simplify_eq.
  eapply set_request_inv; [done|done|done|cbn; eapply inv_no_votes; eauto|]. cbn.
  intros Hd. apply (quorum_met_same st s); [done|]. by apply Hq.
Qed.

Lemma SetApprovalError_inv id msg t : keeps (Inv seen) (SetApprovalError id msg t).
Proof.
  apply hoare_query; [auto|done|]. intros st HI. cbv [mbind ST_bind get].
  destruct (st_requests st !! id) as [r|] eqn:Hid; cbn; [|done].
  eapply set_request_inv; [done|done|done|cbn; eapply inv_no_votes; eauto|]. cbn.
  intros Hd. apply (inv_quorum _ _ HI _ _ Hid Hd).
Qed.

Lemma CreateApprovalRequest_inv id r :
  req_State r = ApprovalPending → req_Votes r = [] → two_signatures (req_Level r) (req_Quorum r) →
  keeps (Inv seen) (CreateApprovalRequest id r).
Proof.
  intros Hst Hv Hlev. unfold CreateApprovalRequest. cbv zeta.
  set (id' := if same (req_ID r) "" then id else req_ID r).
  apply hoare_query; [auto|done|]. intros st HI. cbv [mbind ST_bind get].
  destruct (st_requests st !! id') as [r0|] eqn:Hid; cbn; [done|].
  assert (∀ i q, st_requests st !! i = Some q → i ≠ id') as Hother by congruence.
  destruct HI as [H1 H2 H3 H4 H5 H6 H7 H8].
  constructor; cbn; try done.
  - by intros i q [[<- <-]|[_ ?]]%lookup_insert_Some; [|eauto].
  - by intros i q [[<- <-]|[_ ?]]%lookup_insert_Some; [|eauto].
  - intros v Hv'. destruct (H4 v Hv') as (r1 & Hr1 & ?). exists r1.
    rewrite lookup_insert_ne; [done|]. intros ->. congruence.
  - intros i q [[<- <-]|[_ Hi]]%lookup_insert_Some Hd.
    + destruct Hd as [Hd|[Hd|Hd]]; cbn in Hd; congruence.
    + exact (H5 _ _ Hi Hd).
  - by intros i q [[<- <-]|[_ ?]]%lookup_insert_Some; [|eauto].
  - intros s Hs. destruct (H8 s Hs) as [(r1 & Hr1 & ?) S2 S3 S4]. constructor; try done.
    exists r1. cbn. rewrite lookup_insert_ne; [done|]. intros ->. congruence.
Qed.

(** The vote is stored, and its voter is none of those in the request as read. *)
Definition vote_cast (s : ApprovalRequest) (v : ApprovalVote) (st : Store) : Prop :=
  (vote_Approve v = true → approved_by st (req_ID s) (vote_Voter v))
  ∧ vote_Voter v ∉ vote_Voter <$> req_Votes s.

Lemma AddApprovalVote_inv now s v :
  s ∈ seen → vote_RequestID v = req_ID s → vote_Voter v ≠ req_Requester s →
  hoare (Inv seen) (AddApprovalVote now v)
    (λ r st, Inv seen st ∧ match r with Ok _ => vote_cast s v st | Err _ => True end).
Proof.
  intros Hs Hid Hne. unfold AddApprovalVote. cbv zeta. apply hoare_query; [auto|done|].
  intros st HI. cbv [mbind ST_bind get]. cbn.
  destruct (existsb _ _) eqn:Hex; cbn; [done|].
  destruct (st_requests st !! vote_RequestID v) as [r|] eqn:Hr; cbn; [|done].
  set (w := mkApprovalVote _ _ _ _ _ _).
  destruct (snap_stored _ _ (inv_seen _ _ HI s Hs)) as (r0 & Hr0 & Hsame).
  rewrite <-Hid in Hr0. simplify_eq.
  assert (∀ u, u ∈ st_votes st → vote_key u ≠ vote_key w) as Hnew.
  { intros u Hu Hk. injection Hk as Hk1 Hk2. assert (existsb (λ w0, same (vote_RequestID w0) (vote_RequestID v)
      && same (vote_Voter w0) (vote_Voter v)) (st_votes st) = true); [|congruence].
    apply existsb_exists. exists u. rewrite <-list_elem_of_In. split; [done|].
    unfold same. rewrite !bool_decide_true by done. done. }
  assert (st_votes st ⊆ st_votes st ++ [w]) as Hsub by set_solver.
  split.
  - destruct HI as [H1 H2 H3 H4 H5 H6 H7 H8]. constructor; cbn; try done.
    + rewrite fmap_app. apply NoDup_app. split_and!; [done| |cbn; apply NoDup_singleton].
      intros k (u & -> & Hu)%list_elem_of_fmap Hk%list_elem_of_singleton. by apply (Hnew u Hu).
    + intros u Hu. apply elem_of_app in Hu as [Hu|Hu]; [by apply H4|].
      apply list_elem_of_singleton in Hu as ->. cbn.
      exists r. destruct Hsame as (_ & Hreq & _). by rewrite <-Hreq.
    + intros id q Hq Hd. apply (quorum_met_mono st); [done|eauto].
    + intros s' Hs'. destruct (H8 s' Hs') as [S1 S2 S3 S4]. constructor; try done.
      * intros u Hu. destruct (S3 u Hu). split; [by apply Hsub|done].
      * intros Hd. apply (quorum_met_mono st); [done|by apply S4].
  - split.
    + intros Ha. exists w. cbn. rewrite elem_of_app, list_elem_of_singleton. auto.
    + intros (u & Hu & Hin)%list_elem_of_fmap.
      destruct (snap_votes _ _ (inv_seen _ _ HI s Hs) u Hin) as [Hst Hrid].
      apply (Hnew u Hst). unfold vote_key. cbn. congruence.
Qed.
End Writes.

(** * The handlers *)
Section Handlers.
Context (seen : list ApprovalRequest).

Lemma keeps_inert {A} (m : M A) : inert m → keeps (Inv seen) m.
Proof. intros H. apply H. Qed.

Lemma hoare_inert {A B} P (m : M A) (f : A → M B) (Q : result Error B → Store → Prop) :
  inert m → (∀ st, P st → Inv seen st) → (∀ st e, Inv seen st → Q (Err e) st) →
  (∀ a, hoare (Inv seen) (f a) Q) → hoare P (m ≫= f) Q.
Proof.
  intros Hm HP He Hf. apply (hoare_bind _ _ _ (λ _, Inv seen)); [|done].
  intros st Hst. pose proof (Hm seen st (HP st Hst)) as HI.
  destruct (m st) as [st' [a|e]]; cbn in *; [done|by apply He].
Qed.

Lemma approving_voters (s : ApprovalRequest) st :
  snapshot_ok st s →
  let voters := vote_Voter <$> List.filter vote_Approve (req_Votes s) in
  NoDup voters ∧ voters ⊆ vote_Voter <$> req_Votes s ∧ ∀ v, v ∈ voters → approved_by st (req_ID s) v.
Proof.
  intros [_ Hnd Hv _] voters. subst voters. split_and!.
  - revert Hnd. generalize (req_Votes s) as vs. induction vs as [|v vs IH]; cbn; [by constructor|].
    intros [Hn Hnd]%NoDup_cons. destruct (vote_Approve v); cbn; [|by apply IH].
    apply NoDup_cons. split; [|by apply IH]. intros (w & Hw & Hin)%list_elem_of_fmap.
    apply Hn. rewrite Hw. apply list_elem_of_fmap_2.
    by apply list_elem_of_In, filter_In, proj1, list_elem_of_In in Hin.
  - intros x (w & -> & Hin)%list_elem_of_fmap. apply list_elem_of_fmap_2.
    by apply list_elem_of_In, filter_In, proj1, list_elem_of_In in Hin.
  - intros x (w & -> & Hin)%list_elem_of_fmap.
    apply list_elem_of_In, filter_In in Hin as [Hin Ha]. apply list_elem_of_In in Hin.
    destruct (Hv w Hin) as [? ?]. by exists w.
Qed.

Lemma voters_not_requester s st v :
  Inv seen st → snapshot_ok st s → v ∈ vote_Voter <$> req_Votes s → v ≠ req_Requester s.
Proof.
  intros HI Hs (w & -> & Hin)%list_elem_of_fmap.
  destruct (snap_votes _ _ Hs w Hin) as [Hw Hid].
  destruct (inv_voter _ _ HI w Hw) as (r & Hr & Hne).
  destruct (snap_stored _ _ Hs) as (r' & Hr' & (_ & Hreq & _)).
  rewrite Hid, Hr' in Hr. simplify_eq. by rewrite Hreq.
Qed.

(** The votes of the request as read and the new one are a quorum when the
    handler counts one. *)
Lemma counted_quorum st s v :
  Inv seen st → s ∈ seen → vote_cast s v st → vote_Approve v = true →
  vote_Voter v ≠ req_Requester s →
  req_Quorum s ≤ Approvals (set_votes (req_Votes s ++ [v]) s) → quorum_met st s.
Proof.
  intros HI Hs [Hcast Hnew] Ha Hne Hq. pose proof (inv_seen _ _ HI s Hs) as Hsnap.
  destruct (approving_voters s st Hsnap) as (Hnd & Hsub & Happ).
  exists ((vote_Voter <$> List.filter vote_Approve (req_Votes s)) ++ [vote_Voter v]). split_and!.
  - apply NoDup_app. split_and!; [done| |apply NoDup_singleton].
    intros x Hx Hv. apply list_elem_of_singleton in Hv as ->. by apply Hnew, Hsub.
  - unfold Approvals in Hq. cbn in Hq. rewrite List.filter_app in Hq. cbn in Hq. rewrite Ha in Hq.
    rewrite length_app in *. rewrite length_fmap. cbn in *. lia.
  - rewrite elem_of_app, list_elem_of_singleton. intros [Hr|Hr]; [|congruence].
    by apply (voters_not_requester s st _ HI Hsnap (Hsub _ Hr)).
  - intros x [Hx|Hx]%elem_of_app; [by apply Happ|].
    apply list_elem_of_singleton in Hx as ->. by apply Hcast.
Qed.

Lemma decide_vote_inv now s v :
  s ∈ seen → vote_Voter v ≠ req_Requester s →
  hoare (λ st, Inv seen st ∧ vote_cast s v st)
    (decide_vote now (set_votes (req_Votes s ++ [v]) s) (vote_Approve v)) (λ _, Inv seen).
Proof.
  intros Hs Hne. unfold decide_vote. cbv zeta.
  set (s' := set_votes (req_Votes s ++ [v]) s).
  assert (∀ state d e esc g, hoare (λ st, Inv seen st ∧ (decided state → quorum_met st s))
    (SetApprovalState (req_ID s') state d e esc g) (λ _, Inv seen)) as Hset.
  { intros. apply (SetApprovalState_inv seen s). done. }
  assert (∀ state d e esc g (k : M ApprovalRequest), (∀ P, keeps P k) →
    hoare (λ st, Inv seen st ∧ (decided state → quorum_met st s))
    (SetApprovalState (req_ID s') state d e esc g ;; k) (λ _, Inv seen)) as Hmove.
  { intros state d e esc g k Hk. apply (hoare_bind _ _ _ (λ _, Inv seen)); [|intros []; apply Hk].
    eapply hoare_weaken; [apply (Hset state d e esc g)|done|]. by intros []. }
  destruct (vote_Approve v) eqn:Ha; cbn [negb].
  - destruct (req_Quorum s' <=? Approvals s') eqn:Hq; cbn [andb].
    2:{ intros st []. done. }
    assert (∀ st, Inv seen st ∧ vote_cast s v st → quorum_met st s) as Hmet.
    { intros st [HI Hc]. apply (counted_quorum st s v); try done. by apply Z.leb_le. }
    case_bool_decide.
    + apply (hoare_bind _ _ _ (λ _ st, Inv seen st ∧ quorum_met st s)).
      * intros st Hst. pose proof (Hmet st Hst) as Hm. destruct Hst as [HI _].
        pose proof (inert_policyFor (req_Action s') seen st HI) as HI'.
        assert (st_votes (policyFor (req_Action s') st).1 = st_votes st) as Hv.
        { unfold policyFor, ListApprovalPolicies, query.
          cbv [mbind ST_bind try get mret ST_ret]. destruct (st_faults st) as [|[]]; cbn;
            repeat case_match; done. }
        destruct (policyFor _ st) as [st' [p|e]]; cbn in *; [|done].
        split; [done|]. by apply (quorum_met_mono st); [rewrite Hv|].
      * intros p. eapply hoare_weaken; [apply Hmove; intros ?; apply keeps_ret| |done].
        by intros st [].
    + eapply hoare_weaken; [apply Hmove; intros ?; apply keeps_ret| |done].
      intros st Hst. split; [apply Hst|]. intros _. by apply Hmet.
  - eapply hoare_weaken; [apply Hmove; intros ?; apply keeps_ret| |done].
    intros st [HI _]. split; [done|]. intros [?|[?|?]]; congruence.
Qed.

Lemma castVote_inv `{Hashing} now s caller approve comment creds :
  s ∈ seen → keeps (Inv seen) (castVote now s caller approve comment creds).
Proof.
  intros Hs. unfold castVote. case_match; [apply keeps_fail|].
  apply hoare_inert; [auto with inert|done|done|]. intros [[voter castBy] delegation].
  case_match; [apply keeps_fail|]. unfold same in *. bprop.
  apply hoare_inert; [|done|done|]. { intros ?. apply keeps_try, inert_group_by_name. }
  intros [group|e]; [|destruct e; apply keeps_fail].
  case_match; [apply keeps_fail|]. cbv zeta. set (v := mkApprovalVote _ _ _ _ _ _).
  apply (hoare_bind _ _ _ (λ _ st, Inv seen st ∧ vote_cast s v st)).
  { eapply hoare_weaken; [apply (AddApprovalVote_inv seen now s v); done|done|].
    intros [] st []; done. }
  intros [].
  apply (hoare_bind _ _ _ (λ _ st, Inv seen st ∧ vote_cast s v st)).
  - destruct delegation as [d|]; [|by intros st Hst].
    intros st [HI Hc]. pose proof (inert_delegation_touch (del_ID d) now seen st HI) as HI'.
    assert (st_votes (TouchApprovalDelegation (del_ID d) now st).1 = st_votes st) as Hv.
    { unfold TouchApprovalDelegation, query, modify. cbv [mbind ST_bind].
      by destruct (st_faults st) as [|[]]. }
    cbv [mbind ST_bind try mret ST_ret].
    destruct (TouchApprovalDelegation _ _ st) as [st' r]; cbn in *. split; [done|].
    destruct Hc as [Hc1 Hc2]. split; [|done]. intros Ha. apply (approved_by_mono st); [by rewrite Hv|auto].
  - intros []. change approve with (vote_Approve v). by apply decide_vote_inv.
Qed.

Lemma cancel_inv now p s : s ∈ seen → keeps (Inv seen) (cancel now p s).
Proof.
  intros Hs. unfold cancel. case_match; [apply keeps_fail|].
  apply hoare_inert; [auto with inert|done|done|]. intros allowed.
  case_match; [apply keeps_fail|]. cbv zeta.
  apply keeps_bind; [|intros ?; apply keeps_ret].
  eapply hoare_weaken; [apply (SetApprovalState_inv seen s); done| |done].
  intros st HI. split; [done|]. case_bool_decide; intros [?|[?|?]]; congruence.
Qed.

Lemma sweep_one_inv now s : s ∈ seen → keeps (Inv seen) (sweep_one now s).
Proof.
  intros Hs. unfold sweep_one. apply hoare_inert; [auto with inert|done|done|]. intros policy.
  case_match; (apply keeps_bind; [apply keeps_try|intros ?; apply keeps_ret]);
    (eapply hoare_weaken; [apply (SetApprovalState_inv seen s); done| |done]);
    intros st HI; (split; [done|]); intros [?|[?|?]]; congruence.
Qed.

Lemma executeDueApproval_inv now s exec :
  s ∈ seen → req_State s = ApprovalScheduled → inert (exec s) →
  keeps (Inv seen) (executeDueApproval now s exec).
Proof.
  intros Hs Hst Hexec. unfold executeDueApproval.
  apply hoare_inert; [intros ?; apply keeps_try, Hexec|done|done|]. intros outcome.
  assert (keeps (Inv seen) (finishDueApproval now s)) as Hfin.
  { apply keeps_bind; [apply keeps_try|intros ?; apply keeps_ret].
    eapply hoare_weaken; [apply (SetApprovalState_inv seen s); done| |done].
    intros st HI. split; [done|]. intros _.
    apply (snap_quorum _ _ (inv_seen _ _ HI s Hs)). right. by left. }
  assert (∀ m, keeps (Inv seen) (failDueApproval now s m)) as Hfail.
  { intros m. apply keeps_bind; [apply keeps_try, SetApprovalError_inv|intros ?; apply keeps_ret]. }
  destruct outcome as [|[]]; first [apply Hfin|apply Hfail].
Qed.
End Handlers.

(** * The guarded actions and the guard *)

(** The code of a guarded action does not write requests or votes, and stores
    only policies that the handler of policies accepts. *)
Definition tame (next : Handler) : Prop := ∀ st,
  st_requests (next st).1 = st_requests st ∧ st_votes (next st).1 = st_votes st ∧
  ((∀ p, p ∈ st_policies st → two_signatures (pol_Level p) (pol_Quorum p)) →
   ∀ p, p ∈ st_policies (next st).1 → two_signatures (pol_Level p) (pol_Quorum p)).

(** A handler as the code of a guarded action: 200 or an error's status. *)
Definition status_of (e : Error) : Z :=
  match e with
  | ErrNotFound => 404 | ErrConflict => 409 | BadRequest _ => 400
  | Forbidden_Delegation | Forbidden_Group _ => 403
  | ErrDB | ActionFailed _ => 500
  end.

Definition as_handler {A} (m : M A) : Handler := λ st,
  let '(st', r) := m st in (st', match r with Ok _ => 200 | Err e => status_of e end).

Section Guard.
Context (seen : list ApprovalRequest).

Lemma handleSetApprovalPolicy_tame payload : tame (as_handler (handleSetApprovalPolicy payload)).
Proof.
  intros st. unfold as_handler, handleSetApprovalPolicy.
  destruct (GuardedActionByKey _); [|done].
  destruct (negb _); [done|].
  destruct (bool_decide (pp_Level payload = LevelQuorum) && (pp_Quorum payload <? 2)) eqn:Hq; [done|].
  cbv zeta. unfold SetApprovalPolicy, query, modify. cbv [mbind ST_bind mret ST_ret].
  destruct (st_faults st) as [|[] fs]; [|done|]; cbn; (split_and!; [done|done|]);
    intros Hp q [->|Hin]%elem_of_cons; cbn.
  1, 3: intros Hl; rewrite bool_decide_true in Hq by done; cbn in Hq; apply Z.ltb_ge in Hq; done.
  all: apply Hp; by apply list_elem_of_In, filter_In, proj1, list_elem_of_In in Hin.
Qed.

Lemma perform_inv next : tame next → keeps (Inv seen) (perform next).
Proof.
  intros Ht st HI. destruct (Ht st) as (Hr & Hv & Hp). unfold perform.
  destruct (next st) as [st' c]. cbn in *. apply (inv_frame seen st); auto.
  apply Hp. apply (inv_policies _ _ HI).
Qed.

Lemma policyFor_level action :
  hoare (Inv seen) (policyFor action)
    (λ r st, Inv seen st ∧ match r with
      | Ok p => two_signatures (pol_Level p) (pol_Quorum p) | Err _ => False end).
Proof.
  intros st HI. pose proof (inert_policyFor action seen st HI) as HI'. split; [done|].
  pose proof (inv_policies _ _ HI) as Hp. revert Hp. clear.
  unfold policyFor, ListApprovalPolicies, query. cbv [mbind ST_bind mret ST_ret try get].
  intros Hp.
  assert (two_signatures (pol_Level (default_policy action)) (pol_Quorum (default_policy action)))
    as Hdef by (intros _; cbn; unfold defaultApprovalQuorum; lia).
  assert (match List.find (λ p, bool_decide (pol_Action p = action)) (st_policies st) with
    | Some p => two_signatures (pol_Level (merge_policy (default_policy action) p))
        (pol_Quorum (merge_policy (default_policy action) p))
    | None => True end) as Hmerge.
  { destruct (List.find _ _) as [p|] eqn:Hf; [|done]. apply find_some in Hf as [Hf _].
    apply list_elem_of_In in Hf. intros Hl. cbn in *. specialize (Hp p Hf Hl).
    unfold override. destruct (Z.ltb_spec 0 (pol_Quorum p)); lia. }
  destruct (st_faults st) as [|[] fs]; cbn; [|done|];
    (destruct (List.find _ _) as [p|] eqn:Hf; [exact Hmerge|exact Hdef]).
Qed.

Lemma inv_forget s st : Inv (s :: seen) st → Inv seen st.
Proof. intros H. exact (proj1 (seen_inv seen s st H)). Qed.
End Guard.

Section GuardInv.
Context (seen : list ApprovalRequest) (next : Handler).
Hypothesis next_tame : tame next.

Lemma executeApproved_inv now action what id :
  keeps (Inv seen) (executeApproved now action what id next).
Proof using next_tame.
  unfold executeApproved. apply (hoare_bind _ _ _ (λ s, Inv (s :: seen))).
  { eapply hoare_weaken; [apply GetApprovalRequest_seen|done|].
    intros [s|e] st [HI Hs]; [by apply snapshot_grow|done]. }
  intros s. eapply (hoare_weaken _ (Inv (s :: seen)) _ _ (λ _, Inv (s :: seen)));
    [|done|intros ?; apply inv_forget].
  destruct (negb _); [by intros st|].
  apply (hoare_bind _ _ _ (λ _ st, Inv (s :: seen) st ∧ decided (req_State s))).
  { intros st HI. cbn. destruct (gives_right now s) as [[]|e] eqn:Hg; [|done]. split; [done|].
    unfold gives_right, decided in *. destruct (req_State s); try discriminate; auto. }
  intros []. apply (hoare_bind _ _ _ (λ _ st, Inv (s :: seen) st ∧ decided (req_State s))).
  { intros st [HI Hd]. pose proof (perform_inv (s :: seen) next next_tame st HI) as HI'.
    unfold perform in *. by destruct (next st). }
  intros status. destruct (400 <=? status); [by intros st []|].
  apply (hoare_bind _ _ _ (λ _, Inv (s :: seen))); [|intros ?; apply keeps_ret].
  apply hoare_try. eapply hoare_weaken; [apply (SetApprovalState_inv (s :: seen) s); left| |done].
  intros st [HI Hd]. split; [done|]. intros _. apply (snap_quorum _ _ (inv_seen _ _ HI s ltac:(left)) Hd).
Qed.

Lemma executeBreakGlass_inv now id q action what actor :
  keeps (Inv seen) (executeBreakGlass now id q action what actor next).
Proof using next_tame.
  unfold executeBreakGlass. cbv zeta. case_match; [apply keeps_fail|].
  apply keeps_bind; [apply inert_policyFor|intros ?].
  apply keeps_bind; [apply inert_group_members|intros ?].
  apply keeps_bind; [apply inert_break_glass|intros ?].
  apply keeps_bind; [by apply perform_inv|intros ?]. apply keeps_ret.
Qed.

Lemma openApprovalRequest_inv now id q policy action what actor :
  two_signatures (pol_Level policy) (pol_Quorum policy) →
  keeps (Inv seen) (openApprovalRequest now id q policy action what actor).
Proof.
  intros Hp. unfold openApprovalRequest. cbv zeta. case_match; [apply keeps_fail|].
  apply keeps_bind; [|intros ?; apply keeps_ret]. apply CreateApprovalRequest_inv; [done|done|].
  cbn. intros Hl. unfold signatures_needed. rewrite bool_decide_false by congruence. by apply Hp.
Qed.

Lemma guardAction_inv now id p q action what :
  keeps (Inv seen) (guardAction now id p q action what next).
Proof using next_tame.
  unfold guardAction.
  apply (hoare_bind _ _ _ (λ p st, Inv seen st ∧ two_signatures (pol_Level p) (pol_Quorum p))).
  { eapply hoare_weaken; [apply policyFor_level|done|]. by intros [] st []. }
  intros policy st [HI Hp]. revert st HI.
  assert (keeps (Inv seen) (status ← perform next; mret (Performed status))) as Hperf.
  { apply keeps_bind; [by apply perform_inv|intros ?; apply keeps_ret]. }
  case_bool_decide; [exact Hperf|]. cbv zeta.
  apply keeps_bind; [apply inert_approversReady|intros ready].
  destruct (negb ready); [exact Hperf|].
  destruct (negb _); [apply executeApproved_inv|].
  destruct (EqualFold _ _); [apply executeBreakGlass_inv|by apply openApprovalRequest_inv].
Qed.
End GuardInv.

(** * The system: any interleaving of the handlers

    [sys_seen] holds every request some handler has read: a handler may act on
    any of them, however old. *)
Record System := mkSystem { sys_store : Store; sys_seen : list ApprovalRequest }.

(** Nothing requested yet; only policies the handler of policies accepts. *)
Definition initial (sys : System) : Prop :=
  st_requests (sys_store sys) = ∅ ∧ st_votes (sys_store sys) = [] ∧ st_policies (sys_store sys) = []
  ∧ sys_seen sys = [].

Section System.
Context `{Hashing, Actions} (ListUsers : M (list string)) (GetUserByName : string → M ()).

Inductive step : System → System → Prop :=
| step_faults st seen fs : step (mkSystem st seen) (mkSystem (with_faults fs st) seen)
| step_read st seen id st' s :
    GetApprovalRequest id st = (st', Ok s) → step (mkSystem st seen) (mkSystem st' (s :: seen))
| step_read_expired st seen now st' l :
    ExpiredApprovalRequests now st = (st', Ok l) → step (mkSystem st seen) (mkSystem st' (l ++ seen))
| step_read_due st seen now st' l :
    DueApprovalRequests now st = (st', Ok l) → step (mkSystem st seen) (mkSystem st' (l ++ seen))
| step_vote st seen now s caller approve comment creds :
    s ∈ seen →
    step (mkSystem st seen) (mkSystem (castVote now s caller approve comment creds st).1 seen)
| step_cancel st seen now p s :
    s ∈ seen → step (mkSystem st seen) (mkSystem (cancel now p s st).1 seen)
| step_sweep st seen now s :
    s ∈ seen → step (mkSystem st seen) (mkSystem (sweep_one now s st).1 seen)
| step_due st seen now s exec :
    s ∈ seen → req_State s = ApprovalScheduled → executors (req_Action s) = Some exec →
    step (mkSystem st seen) (mkSystem (executeDueApproval now s exec st).1 seen)
| step_guard st seen now id p q action what next :
    tame next →
    step (mkSystem st seen) (mkSystem (guardAction now id p q action what next st).1 seen)
| step_create_group st seen now id payload :
    step (mkSystem st seen) (mkSystem (handleCreateApprovalGroup ListUsers now id payload st).1 seen)
| step_update_group st seen now id payload :
    step (mkSystem st seen) (mkSystem (handleUpdateApprovalGroup ListUsers now id payload st).1 seen)
| step_delete_group st seen id :
    step (mkSystem st seen) (mkSystem (handleDeleteApprovalGroup id st).1 seen)
| step_delegate st seen now id prefix secret p payload :
    step (mkSystem st seen) (mkSystem
      (handleCreateDelegation GetUserByName now id prefix secret p payload st).1 seen)
| step_revoke st seen now id p :
    step (mkSystem st seen) (mkSystem (handleRevokeDelegation now id p st).1 seen)
| step_purge st seen now :
    step (mkSystem st seen) (mkSystem (sweepDelegations now st).1 seen).

Definition sys_inv (sys : System) : Prop := Inv (sys_seen sys) (sys_store sys).

Lemma initial_inv sys : initial sys → sys_inv sys.
Proof.
  intros (Hr & Hv & Hp & Hs). unfold sys_inv. rewrite Hs.
  constructor; rewrite ?Hr, ?Hv, ?Hp; try by (intros; set_solver).
  by constructor.
Qed.

Lemma seen_many seen l st :
  Inv seen st → (∀ s, s ∈ l → snapshot_ok st s) → Inv (l ++ seen) st.
Proof.
  intros HI Hl. induction l as [|s l IH]; cbn; [done|].
  apply snapshot_grow; [apply Hl; left|]. apply IH. intros s' Hs'. apply Hl. by right.
Qed.

Hypothesis users_inert : inert ListUsers.
Hypothesis user_inert : ∀ n, inert (GetUserByName n).
Hypothesis actions_inert : ∀ action exec s, executors action = Some exec → inert (exec s).

Lemma step_inv sys sys' : step sys sys' → sys_inv sys → sys_inv sys'.
Proof using users_inert user_inert actions_inert.
  unfold sys_inv. destruct 1; cbn; intros HI.
  - by apply inv_fault_free.
  - pose proof (GetApprovalRequest_seen seen id st HI) as Hs.
    match goal with Hread : _ = (_, Ok _) |- _ => rewrite Hread in Hs end.
    destruct Hs. by apply snapshot_grow.
  - pose proof (ExpiredApprovalRequests_seen seen now st HI) as Hs.
    match goal with Hread : _ = (_, Ok _) |- _ => rewrite Hread in Hs end.
    destruct Hs. by apply seen_many.
  - pose proof (DueApprovalRequests_seen seen now st HI) as Hs.
    match goal with Hread : _ = (_, Ok _) |- _ => rewrite Hread in Hs end.
    destruct Hs. by apply seen_many.
  - by apply (castVote_inv seen now s).
  - by apply (cancel_inv seen now p s).
  - by apply (sweep_one_inv seen now s).
  - apply (executeDueApproval_inv seen now s); try done. by eapply actions_inert.
  - by apply (guardAction_inv seen next).
  - by apply (inert_handleCreateApprovalGroup ListUsers).
  - by apply (inert_handleUpdateApprovalGroup ListUsers).
  - by apply (inert_handleDeleteApprovalGroup id).
  - by apply (inert_handleCreateDelegation GetUserByName).
  - by apply (inert_handleRevokeDelegation now id p).
  - by apply (inert_sweepDelegations now).
Qed.

Lemma reachable_inv sys0 sys : initial sys0 → rtc step sys0 sys → sys_inv sys.
Proof using users_inert user_inert actions_inert.
  intros Hinit%initial_inv Hsteps. induction Hsteps; [done|]. eauto using step_inv.
Qed.

(** C5. In every state that any interleaving of the handlers can reach, with
    handlers acting on requests read at any earlier moment and any query
    failing, a request that is approved, scheduled or executed has approving
    votes stored from at least as many different accounts as its quorum, none
    of them the requester; at the quorum level that is at least two. *)
Theorem quorum_safety sys0 sys id r :
  initial sys0 → rtc step sys0 sys →
  st_requests (sys_store sys) !! id = Some r → decided (req_State r) →
  quorum_met (sys_store sys) r ∧ (req_Level r = LevelQuorum → 2 ≤ req_Quorum r).
Proof using users_inert user_inert actions_inert.
  intros Hinit Hsteps Hid Hd. pose proof (reachable_inv _ _ Hinit Hsteps) as HI.
  split; [exact (inv_quorum _ _ HI _ _ Hid Hd)|exact (inv_level _ _ HI _ _ Hid)].
Qed.
End System.
