(* ===== verification/GuardProps.v ===== *)
(** On what grounds the guard performs an action, what a vote and a sweep do
    exactly, and the behaviours that contradict the comments of the code. *)

From S2P Require Import Prelude StateM GoTime GoStr Approvals Guard GuardFacts.

(** * Operations that only read *)
Definition reads {A} (m : M A) : Prop := ∀ st, ∃ fs, (m st).1 = with_faults fs st.

Section Reads.
Context {A B : Type}.

Lemma reads_ret (a : A) : reads (mret a).
Proof. intros [fs]. by exists fs. Qed.
Lemma reads_fail e : reads (@fail Store Error A e).
Proof. intros [fs]. by exists fs. Qed.
Lemma reads_lift (r : result Error A) : reads (lift r).
Proof. intros [fs]. by exists fs. Qed.
Lemma reads_get : reads get.
Proof. intros [fs]. by exists fs. Qed.
Lemma reads_query : reads query.
Proof.
  intros st. unfold query. destruct st as [[|[] fs]]; cbn; eauto; by eexists (_ :: _) || by exists [].
Qed.
Lemma reads_bind (m : M A) (f : A → M B) : reads m → (∀ a, reads (f a)) → reads (m ≫= f).
Proof.
  intros Hm Hf st. destruct (Hm st) as [fs Hfs]. cbv [mbind ST_bind].
  destruct (m st) as [st' [a|e]]; cbn in *; [|by exists fs].
  destruct (Hf a st') as [fs' ->]. exists fs'. by rewrite Hfs.
Qed.
Lemma reads_try (m : M A) : reads m → reads (try m).
Proof. intros Hm st. destruct (Hm st) as [fs Hfs]. exists fs. unfold try. by destruct (m st). Qed.
End Reads.

Ltac reads_tac :=
  repeat first
    [ apply reads_ret | apply reads_fail | apply reads_lift | apply reads_get | apply reads_query
    | apply reads_try | apply reads_bind; [|intros ?] | progress case_match ].

Section Readers.
Lemma reads_group_by_name n : reads (ApprovalGroupByName n).
Proof. reads_tac. Qed.
Lemma reads_policies : reads ListApprovalPolicies.
Proof. reads_tac. Qed.
Lemma reads_policyFor action : reads (policyFor action).
Proof. apply reads_bind; [apply reads_try, reads_policies|]. intros ?. reads_tac. Qed.
Lemma reads_approversReady policy : reads (approversReady policy).
Proof. apply reads_bind; [apply reads_try, reads_group_by_name|]. intros ?. reads_tac. Qed.
Lemma reads_group_members names : reads (group_members names).
Proof.
  induction names; cbn; [apply reads_ret|]. case_match; [done|].
  apply reads_bind; [apply reads_try, reads_group_by_name|]. intros ?.
  apply reads_bind; [done|]. intros ?. apply reads_ret.
Qed.
Lemma reads_request id : reads (GetApprovalRequest id).
Proof.
  unfold GetApprovalRequest, approvalVotes. reads_tac.
Qed.
End Readers.

Section Grounds.
Lemma reads_run {A} (m : M A) st st1 r : reads m → m st = (st1, r) → ∃ fs, st1 = with_faults fs st.
Proof. intros Hm Hr. destruct (Hm st) as [fs Hfs]. rewrite Hr in Hfs. eauto. Qed.

Lemma perform_ok next st st' s :
  (status ← perform next ; mret (Performed status)) st = (st', Ok s) → st' = (next st).1.
Proof. cbv [mbind ST_bind perform]. destruct (next st) as [st1 c]. by intros [= <- _]. Qed.

(** A request, as stored now, that lets [what] be done now. *)
Definition approved_request (now : Z) (st : Store) (action : GuardedAction) (what : guardedTarget)
    (id : string) : Prop :=
  ∃ r, st_requests st !! id = Some r ∧ matches_target action what r = true
    ∧ gives_right now r = Ok () ∧ quorum_met st r ∧ two_signatures (req_Level r) (req_Quorum r).

(** A bypass written down before the action. *)
Definition recorded_bypass (st : Store) (action : GuardedAction) (what : guardedTarget)
    (actor reason : string) : Prop :=
  ∃ e, e ∈ st_breakGlass st ∧ bg_Actor e = actor ∧ bg_Action e = action ∧ bg_ObjectID e = tgt_ID what
    ∧ bg_Reason e = reason ∧ 20 ≤ rune_len reason.

Lemma executeApproved_grounds seen now action what id next st st' status :
  Inv seen st → executeApproved now action what id next st = (st', Ok (Performed status)) →
  approved_request now st action what id.
Proof.
  intros HI Hrun. unfold executeApproved in Hrun.
  apply bind_ok in Hrun as (st1 & s & Hget & Hrun).
  pose proof (GetApprovalRequest_seen seen id st HI) as [HI1 Hs]. rewrite Hget in HI1, Hs. cbn in *.
  destruct (reads_run _ _ _ _ (reads_request id) Hget) as [fs ->].
  unfold GetApprovalRequest in Hget. apply bind_ok in Hget as (st2 & [] & Hq & Hget).
  destruct (reads_run _ _ _ _ reads_query Hq) as [fs2 ->].
  cbv [mbind ST_bind get lift] in Hget. cbn in Hget.
  destruct (st_requests st !! id) as [r|] eqn:Hid; [|done]. cbn in Hget.
  destruct (approvalVotes id _) as [st3 [vs|e]]; [|done]. injection Hget as -> <-.
  destruct (matches_target action what (set_votes vs r)) eqn:Hm; [|done]. cbn in Hrun.
  apply bind_ok in Hrun as (st4 & [] & Hg & _). injection Hg as _ Hg.
  exists r. split_and!; [done|exact Hm|exact Hg| |exact (inv_level _ _ HI _ _ Hid)].
  assert (decided (req_State r)) as Hd.
  { unfold gives_right, decided in *. cbn in Hg. destruct (req_State r); try discriminate; auto. }
  exact (inv_quorum _ _ HI _ _ Hid Hd).
Qed.

Lemma executeBreakGlass_grounds now id q action what actor next st st' status :
  executeBreakGlass now id q action what actor next st = (st', Ok (Performed status)) →
  ∃ st1, recorded_bypass st1 action what actor (TrimSpace (q_reason q)) ∧ st' = (next st1).1.
Proof.
  unfold executeBreakGlass. cbv zeta. destruct (Z.ltb_spec (rune_len (TrimSpace (q_reason q))) 20); [done|].
  intros Hrun. apply bind_ok in Hrun as (st1 & policy & _ & Hrun).
  apply bind_ok in Hrun as (st2 & names & _ & Hrun).
  apply bind_ok in Hrun as (st3 & e & Hrec & Hrun). apply perform_ok in Hrun.
  exists st3. split; [|done]. unfold RecordBreakGlass in Hrec. cbv zeta in Hrec.
  apply bind_ok in Hrec as (st4 & [] & _ & Hrec). cbv [mbind ST_bind get modify mret ST_ret] in Hrec.
  destruct (existsb _ _); [done|]. injection Hrec as <- He.
  exists e. cbn. rewrite elem_of_app, list_elem_of_singleton. subst e. cbn. auto 10.
Qed.
End Grounds.

Section GuardTheorems.
Context `{Hashing, Actions} (ListUsers : M (list string)) (GetUserByName : string → M ()).
Hypothesis users_inert : inert ListUsers.
Hypothesis user_inert : ∀ n, inert (GetUserByName n).
Hypothesis actions_inert : ∀ action exec s, executors action = Some exec → inert (exec s).

(** C21. When the guard performs an action in a reachable state, it is for one
    of four grounds: the policy in force only audits it; the group of the
    policy was found missing, unreadable or too small; the request named in
    the call is stored for this very action, object, summary and payload, gives
    the right now, and has its quorum of different accounts; or a bypass with a
    reason of at least 20 characters was recorded before the action ran. *)
Theorem guard_grounds sys0 sys now id p q action what next st' status :
  initial sys0 → rtc (step ListUsers GetUserByName) sys0 sys →
  guardAction now id p q action what next (sys_store sys) = (st', Ok (Performed status)) →
  ∃ st1 policy, policyFor action (sys_store sys) = (st1, Ok policy) ∧
    (pol_Level policy = LevelAudit
     ∨ (approversReady policy st1).2 = Ok false
     ∨ approved_request now (sys_store sys) action what (TrimSpace (q_approval q))
     ∨ ∃ st2, recorded_bypass st2 action what (username_or "anonymous" p) (TrimSpace (q_reason q))
         ∧ st' = (next st2).1).
Proof using users_inert user_inert actions_inert.
  intros Hinit Hsteps Hrun.
  pose proof (reachable_inv _ _ users_inert user_inert actions_inert _ _ Hinit Hsteps) as HI.
  unfold sys_inv in HI. set (st := sys_store sys) in *. clearbody st.
  unfold guardAction in Hrun. apply bind_ok in Hrun as (st1 & policy & Hp & Hrun).
  exists st1, policy. split; [done|]. case_bool_decide; [by left|right]. cbv zeta in Hrun.
  apply bind_ok in Hrun as (st2 & ready & Hr & Hrun). rewrite Hr. cbn.
  destruct ready; cbn [negb] in Hrun; [right|by left].
  destruct (reads_run _ _ _ _ (reads_policyFor action) Hp) as [fs1 ->].
  destruct (reads_run _ _ _ _ (reads_approversReady policy) Hr) as [fs2 ->].
  destruct (negb (same _ _)).
  - left. apply (inv_fault_free _ fs2 st) in HI.
    exact (executeApproved_grounds _ _ _ _ _ _ _ _ _ HI Hrun).
  - right. destruct (EqualFold _ _).
    + by apply executeBreakGlass_grounds in Hrun.
    + unfold openApprovalRequest in Hrun. cbv zeta in Hrun. destruct (_ <? 10); [done|].
      by apply bind_ok in Hrun as (? & ? & _ & ?).
Qed.
End GuardTheorems.

(** * What the guard does when it does not perform the action *)

Definition performed (r : result Error Response) : Prop := ∃ status, r = Ok (Performed status).

Section Refusal.
(** [m] and [m'] agree on a store unless [m] performs. *)
Definition agree (m m' : M Response) (st : Store) : Prop :=
  performed (m st).2 ∨ m st = m' st.

Lemma agree_bind {A} (m : M A) (f f' : A → M Response) st :
  (∀ a st1, agree (f a) (f' a) st1) → agree (m ≫= f) (m ≫= f') st.
Proof.
  intros Hf. unfold agree. cbv [mbind ST_bind]. destruct (m st) as [st1 [a|e]]; [apply Hf|by right].
Qed.

Lemma agree_perform next (f : Z → M Response) (m : M Response) st :
  (∀ c st1, performed (f c st1).2) → agree (status ← perform next ; f status) m st.
Proof. intros Hf. left. cbv [mbind ST_bind perform]. destruct (next st). apply Hf. Qed.

(** A guarded call that does not answer with the action's own status has
    not run the action: its answer and the store it leaves are the same
    whatever the action is. *)
Theorem guard_refuses now id p q action what next next' st :
  ¬ performed (guardAction now id p q action what next st).2 →
  guardAction now id p q action what next st = guardAction now id p q action what next' st.
Proof.
  cut (agree (guardAction now id p q action what next) (guardAction now id p q action what next') st).
  { by intros [?|?]. }
  assert (∀ st1 m, agree (status ← perform next ; mret (Performed status)) m st1) as Hperf.
  { intros. apply agree_perform. intros c st2. by exists c. }
  unfold guardAction. apply agree_bind. intros policy st1. case_bool_decide; [apply Hperf|].
  cbv zeta. apply agree_bind. intros [] st2; cbn [negb]; [|apply Hperf].
  destruct (negb (same _ _)).
  - apply agree_bind. intros r st3. destruct (negb _); [by right|].
    apply agree_bind. intros _ st4. apply agree_perform. intros c st5.
    destruct (400 <=? c); [by exists c|]. cbv [mbind ST_bind try mret ST_ret].
    destruct (SetApprovalState _ _ _ _ _ _ _). by exists c.
  - destruct (EqualFold _ _); [|by right]. unfold executeBreakGlass. cbv zeta.
    destruct (_ <? 20); [by right|]. do 3 (apply agree_bind; intros ? ?). apply Hperf.
Qed.
End Refusal.

(** * Exact effects, when no query fails *)
Definition quiet (st : Store) : Prop := st_faults st = [].

Definition policy_in_force (action : GuardedAction) (st : Store) : ApprovalPolicy :=
  match List.find (λ p, bool_decide (pol_Action p = action)) (st_policies st) with
  | Some p => merge_policy (default_policy action) p
  | None => default_policy action
  end.

Section Quiet.
Lemma query_quiet {B} (f : () → M B) st : quiet st → (query ≫= f) st = f () st.
Proof. unfold quiet, query. intros Hq. cbv [mbind ST_bind]. by rewrite Hq. Qed.

Lemma policyFor_quiet action st : quiet st → policyFor action st = (st, Ok (policy_in_force action st)).
Proof.
  intros Hq. unfold policyFor, policy_in_force. erewrite try_run.
  2:{ unfold ListApprovalPolicies. rewrite query_quiet by done. reflexivity. }
  cbn. by destruct (List.find _ _).
Qed.

Lemma group_quiet n st :
  quiet st → ApprovalGroupByName n st
    = (st, of_option ErrNotFound (List.find (λ g, same (grp_Name g) n) (st_groups st))).
Proof. intros Hq. unfold ApprovalGroupByName. by rewrite query_quiet. Qed.

Lemma SetApprovalState_quiet id r s d e esc g st :
  quiet st → st_requests st !! id = Some r →
  SetApprovalState id s d e esc g st
    = (with_requests (<[id := set_state s d e esc g r]> (st_requests st)) st, Ok ()).
Proof. intros Hq Hid. unfold SetApprovalState. rewrite query_quiet, get_run by done. by rewrite Hid. Qed.

(** Where a vote takes the request, by the votes the handler counts. *)
Definition moved (now : Z) (policy : ApprovalPolicy) (s : ApprovalRequest) (approve : bool) :
    option (ApprovalState * option Z) :=
  if negb approve then Some (ApprovalRejected, None)
  else if req_Quorum s <=? Approvals s then
    if bool_decide (req_Level s = LevelVeto)
    then Some (ApprovalScheduled, Some (now + pol_VetoWindow policy))
    else Some (ApprovalApproved, None)
  else None.

Definition move (now : Z) (s : ApprovalRequest) (to : option (ApprovalState * option Z)) (st : Store) :
    Store :=
  match to, st_requests st !! req_ID s with
  | Some (state, ex), Some r => with_requests (<[req_ID s :=
      set_state state (Some now) ex (req_Escalated s) (req_GroupName s) r]> (st_requests st)) st
  | _, _ => st
  end.

Lemma decide_vote_quiet now s approve st r :
  quiet st → st_requests st !! req_ID s = Some r →
  (decide_vote now s approve st).1
    = move now s (moved now (policy_in_force (req_Action s) st) s approve) st
  ∧ is_ok (decide_vote now s approve st).2 = true.
Proof.
  intros Hq Hid. unfold decide_vote, moved, move. cbv zeta.
  destruct (negb approve); cbn [andb].
  { erewrite bind_run by (by apply SetApprovalState_quiet). cbn. by rewrite Hid. }
  destruct (req_Quorum s <=? Approvals s); cbn [andb]; [|done].
  case_bool_decide.
  - erewrite (bind_run (policyFor _)) by (by apply policyFor_quiet).
    erewrite bind_run by (by apply SetApprovalState_quiet). cbn. by rewrite Hid.
  - erewrite bind_run by (by apply SetApprovalState_quiet). cbn. by rewrite Hid.
Qed.

Lemma AddApprovalVote_quiet now v st r :
  quiet st → (∀ w, w ∈ st_votes st → vote_key w ≠ vote_key v) →
  st_requests st !! vote_RequestID v = Some r → vote_At v = zero_time →
  AddApprovalVote now v st = (with_votes (st_votes st ++ [mkApprovalVote (vote_RequestID v)
    (vote_Voter v) (vote_CastBy v) (vote_Approve v) (vote_Comment v) now]) st, Ok ()).
Proof.
  intros Hq Hnew Hr Hat. unfold AddApprovalVote. cbv zeta. rewrite query_quiet, get_run by done.
  rewrite Hat, Z.eqb_refl. cbn. rewrite Hr.
  destruct (existsb _ _) eqn:Hex; [|done]. exfalso.
  apply existsb_exists in Hex as (w & Hw & Hk). unfold same in Hk. bprop.
  apply (Hnew w); [by apply list_elem_of_In|]. unfold vote_key. congruence.
Qed.
End Quiet.

Section VoteEffect.
Context `{Hashing}.

(** The vote of [caller], as the database keeps it. *)
Definition own_vote (now : Z) (s : ApprovalRequest) (caller : string) (approve : bool)
    (comment : string) : ApprovalVote :=
  mkApprovalVote (req_ID s) caller "" approve comment now.

Definition counted (s : ApprovalRequest) (v : ApprovalVote) : ApprovalRequest :=
  set_votes (req_Votes s ++ [v]) s.

(** The vote is one the handler accepts. *)
Record may_vote (st : Store) (s : ApprovalRequest) (caller : string) : Prop := {
  mv_open : Final (req_State s) = false;
  mv_other : caller ≠ req_Requester s;
  mv_group : ∃ g, List.find (λ g, same (grp_Name g) (req_GroupName s)) (st_groups st) = Some g
    ∧ Has g caller = true;
  mv_first : ∀ w, w ∈ st_votes st → vote_key w ≠ (req_ID s, caller);
  mv_stored : is_Some (st_requests st !! req_ID s)
}.

Lemma moved_counted now policy s v now' :
  moved now policy (counted s v) (vote_Approve v) = moved now policy
    (counted s (mkApprovalVote (vote_RequestID v) (vote_Voter v) (vote_CastBy v) (vote_Approve v)
      (vote_Comment v) now')) (vote_Approve v).
Proof.
  unfold moved, counted, Approvals. cbn. rewrite !List.filter_app, !length_app. cbn.
  destruct (vote_Approve v); done.
Qed.

Lemma castVote_run now s caller approve comment st :
  quiet st → may_vote st s caller →
  let v := own_vote now s caller approve comment in
  let st1 := with_votes (st_votes st ++ [v]) st in
  (castVote now s caller approve comment no_creds st).1
    = move now s (moved now (policy_in_force (req_Action s) st) (counted s v) approve) st1
  ∧ is_ok (castVote now s caller approve comment no_creds st).2 = true.
Proof.
  intros Hq [Hopen Hother (g & Hg & Hhas) Hfirst [r Hr]] v st1.
  set (s1 := counted s (mkApprovalVote (req_ID s) caller "" approve comment zero_time)).
  assert (castVote now s caller approve comment no_creds st = decide_vote now s1 approve st1) as ->.
  { unfold castVote. rewrite Hopen.
    erewrite (bind_run (voter_of now s caller no_creds)) by reflexivity. cbv beta iota.
    unfold same at 1. rewrite bool_decide_false by done.
    erewrite try_run by (by apply group_quiet). rewrite Hg. cbn [of_option]. rewrite Hhas.
    cbn [negb]. cbv zeta. erewrite bind_run by (by eapply AddApprovalVote_quiet). reflexivity. }
  destruct (decide_vote_quiet now s1 approve st1 r Hq Hr) as [-> Hok]. split; [|exact Hok].
  change approve with (vote_Approve (mkApprovalVote (req_ID s) caller "" approve comment zero_time))
    at 1.
  unfold s1. rewrite (moved_counted now _ s _ now). reflexivity.
Qed.

(** A vote the handler accepts, no query failing: the vote is stored once,
    under the caller, and the request moves by the votes in the request as
    read and the new one: against, to rejected; at the quorum of a veto-level
    request, to scheduled with the window in force; at the quorum otherwise,
    to approved; below the quorum it stays where it is stored. *)
Theorem vote_effect now s caller approve comment st :
  quiet st → may_vote st s caller →
  let v := own_vote now s caller approve comment in
  (castVote now s caller approve comment no_creds st).1
    = move now s (moved now (policy_in_force (req_Action s) st) (counted s v) approve)
        (with_votes (st_votes st ++ [v]) st)
  ∧ is_ok (castVote now s caller approve comment no_creds st).2 = true.
Proof. apply castVote_run. Qed.

(** Two approvers who vote on the request as it was before either vote
    store two approving votes, the quorum, and the request stays pending: each
    handler counts only the votes it has read. *)
Theorem concurrent_votes_uncounted now now' s r a b ca cb st :
  quiet st → may_vote st s a → may_vote st s b → a ≠ b →
  st_requests st !! req_ID s = Some r → req_Votes s = [] → req_Quorum s = 2 →
  let st1 := (castVote now s a true ca no_creds st).1 in
  let st2 := (castVote now' s b true cb no_creds st1).1 in
  approved_by st2 (req_ID s) a ∧ approved_by st2 (req_ID s) b
  ∧ st_requests st2 !! req_ID s = Some r.
Proof.
  intros Hq Ha Hb Hab Hr Hv Hquo st1 st2.
  assert (∀ now s' v, req_Votes s' = [] → req_Quorum s' = 2 →
    moved now (policy_in_force (req_Action s') st) (counted s' v) true = None) as Hnone.
  { intros t s' v Hv' Hquo'. unfold moved, counted, Approvals. cbn. rewrite Hv', Hquo'. cbn.
    by destruct (vote_Approve v). }
  destruct (castVote_run now s a true ca st Hq Ha) as [Hst1 _]. fold st1 in Hst1.
  cbv zeta in Hst1. rewrite Hnone in Hst1 by done. cbn in Hst1.
  assert (may_vote st1 s b) as Hb1.
  { destruct Hb as [? ? ? Hf ?]. rewrite Hst1. constructor; cbn; try done.
    intros w [Hw|Hw]%elem_of_app; [by apply Hf|]. apply list_elem_of_singleton in Hw as ->.
    unfold vote_key. cbn. congruence. }
  assert (quiet st1) as Hq1 by by rewrite Hst1.
  destruct (castVote_run now' s b true cb st1 Hq1 Hb1) as [Hst2 _]. fold st2 in Hst2.
  cbv zeta in Hst2.
  replace (policy_in_force (req_Action s) st1) with (policy_in_force (req_Action s) st) in Hst2
    by by rewrite Hst1.
  rewrite Hnone in Hst2 by done. cbn in Hst2. rewrite Hst2, Hst1. split_and!; [| |done].
  - exists (own_vote now s a true ca). cbn. split; [set_solver|done].
  - exists (own_vote now' s b true cb). cbn. split; [set_solver|done].
Qed.

(** A vote against does not stop the action: an approver who read the
    request before it was rejected, and whose vote completes the quorum, takes
    it out of the final state [rejected] to approved or scheduled. *)
Theorem rejection_undone now now' s r a b ca cb st :
  quiet st → may_vote st s a → may_vote st s b → a ≠ b →
  st_requests st !! req_ID s = Some r → req_Quorum s ≤ Approvals s + 1 →
  let st1 := (castVote now s a false ca no_creds st).1 in
  let st2 := (castVote now' s b true cb no_creds st1).1 in
  (∃ r1, st_requests st1 !! req_ID s = Some r1 ∧ req_State r1 = ApprovalRejected)
  ∧ ∃ r2, st_requests st2 !! req_ID s = Some r2
    ∧ (req_State r2 = ApprovalApproved ∨ req_State r2 = ApprovalScheduled).
Proof.
  intros Hq Ha Hb Hab Hr Hquo st1 st2.
  destruct (castVote_run now s a false ca st Hq Ha) as [Hst1 _]. fold st1 in Hst1.
  cbv zeta in Hst1. unfold moved, move in Hst1. cbn [negb] in Hst1. cbn in Hst1. rewrite Hr in Hst1.
  set (r1 := set_state _ _ _ _ _ r) in Hst1.
  assert (may_vote st1 s b) as Hb1.
  { destruct Hb as [? ? ? Hf ?]. rewrite Hst1. constructor; cbn; try done.
    - intros w [Hw|Hw]%elem_of_app; [by apply Hf|]. apply list_elem_of_singleton in Hw as ->.
      unfold vote_key. cbn. congruence.
    - rewrite lookup_insert_eq. by exists r1. }
  assert (quiet st1) as Hq1 by by rewrite Hst1.
  assert (st_requests st1 !! req_ID s = Some r1) as Hr1 by (rewrite Hst1; apply lookup_insert_eq).
  split; [by exists r1|].
  destruct (castVote_run now' s b true cb st1 Hq1 Hb1) as [Hst2 _]. fold st2 in Hst2.
  cbv zeta in Hst2. rewrite Hst2. unfold move, moved. cbn [negb].
  destruct (Z.leb_spec (req_Quorum (counted s (own_vote now' s b true cb)))
    (Approvals (counted s (own_vote now' s b true cb)))) as [_|Hlt].
  - case_bool_decide; cbn; rewrite Hr1; cbn; rewrite lookup_insert_eq; eauto.
  - exfalso. revert Hlt. unfold counted, Approvals in *. cbn. rewrite List.filter_app, length_app.
    cbn. lia.
Qed.
End VoteEffect.

(** * The sweep *)
Section Sweep.
(** What a sweep makes of one request. *)
Definition swept (now : Z) (st : Store) (r : ApprovalRequest) : ApprovalRequest :=
  if waiting (req_State r) && (req_ExpiresAt r <=? now) then
    let policy := policy_in_force (req_Action r) st in
    if negb (req_Escalated r) && negb (same (pol_FallbackGroupName policy) "")
    then set_state ApprovalEscalated None None true (pol_FallbackGroupName policy) r
    else set_state ApprovalExpired (Some now) None (req_Escalated r) (req_GroupName r) r
  else r.

(** Every request is stored under its own identifier. *)
Definition keyed (st : Store) : Prop := ∀ id r, st_requests st !! id = Some r → req_ID r = id.

Lemma sweep_one_quiet now s st :
  quiet st → st_requests st !! req_ID s = Some s →
  waiting (req_State s) = true → req_ExpiresAt s <= now →
  sweep_one now s st = (with_requests (<[req_ID s := swept now st s]> (st_requests st)) st, Ok ()).
Proof.
  intros Hq Hs Hw He. unfold sweep_one, swept. rewrite Hw.
  destruct (Z.leb_spec (req_ExpiresAt s) now); [|lia]. cbn [andb].
  erewrite bind_run by (by apply policyFor_quiet). cbv zeta.
  destruct (_ && _); (erewrite try_run by (by apply SetApprovalState_quiet)); reflexivity.
Qed.

Definition expired_at (now : Z) (r : ApprovalRequest) : bool :=
  waiting (req_State r) && (req_ExpiresAt r <=? now).

Lemma sweep_list now l : ∀ st,
  quiet st → NoDup (req_ID <$> l) →
  (∀ s, s ∈ l → st_requests st !! req_ID s = Some s ∧ expired_at now s = true) →
  for_each (sweep_one now) l st
    = (with_requests (fold_insert req_ID (swept now st) l (st_requests st)) st, Ok ()).
Proof.
  induction l as [|s l IH]; intros st Hq Hnd Hl; cbn [for_each].
  { by destruct st. }
  rewrite fmap_cons in Hnd. apply NoDup_cons in Hnd as [Hs Hnd].
  destruct (Hl s ltac:(left)) as [Hst He]. unfold expired_at in He. bprop.
  erewrite bind_run by (apply sweep_one_quiet; [done|done|done|by apply Z.leb_le]).
  set (st1 := with_requests _ st).
  rewrite (IH st1); [|done|done|].
  - reflexivity.
  - intros s' Hs'. destruct (Hl s' ltac:(by right)) as [Hst' He']. split; [|done]. cbn.
    rewrite lookup_insert_ne; [done|]. intros Heq. apply Hs. rewrite Heq.
    by apply list_elem_of_fmap_2.
Qed.

Lemma all_requests_elem st r : keyed st → r ∈ all_requests st ↔ st_requests st !! req_ID r = Some r.
Proof.
  intros Hk. unfold all_requests. rewrite list_elem_of_fmap. split.
  - intros ([id r'] & -> & Hin%elem_of_map_to_list). cbn. by rewrite (Hk _ _ Hin).
  - intros Hr. exists (req_ID r, r). split; [done|]. by apply elem_of_map_to_list.
Qed.

Lemma all_requests_nodup st : keyed st → NoDup (req_ID <$> all_requests st).
Proof.
  intros Hk. unfold all_requests. rewrite <-list_fmap_compose.
  rewrite (list_fmap_ext _ fst).
  - apply NoDup_fst_map_to_list.
  - intros i [id r] Hi. cbn. apply Hk. apply elem_of_map_to_list. by eapply list_elem_of_lookup_2.
Qed.

Lemma sweepApprovals_run now st :
  quiet st → keyed st →
  sweepApprovals now st = (with_requests (swept now st <$> st_requests st) st, Ok ()).
Proof.
  intros Hq Hk. unfold sweepApprovals. erewrite try_run.
  2:{ unfold ExpiredApprovalRequests. rewrite query_quiet by done. reflexivity. }
  change (λ r, waiting (req_State r) && (req_ExpiresAt r <=? now)) with (expired_at now).
  cbv beta iota. set (l := List.filter _ _).
  assert (∀ s, s ∈ l ↔ st_requests st !! req_ID s = Some s ∧ expired_at now s = true) as Hl.
  { intros s. unfold l. rewrite list_elem_of_In, filter_In, <-list_elem_of_In.
    by rewrite all_requests_elem. }
  assert (NoDup (req_ID <$> l)) as Hnd.
  { unfold l. pose proof (all_requests_nodup st Hk) as Hnd. revert Hnd.
    generalize (all_requests st). induction l0 as [|x xs IH]; cbn; [done|].
    intros [Hx Hnd]%NoDup_cons. destruct (expired_at now x); cbn; [|by apply IH].
    apply NoDup_cons. split; [|by apply IH]. intros (y & Hy & Hin)%list_elem_of_fmap. apply Hx.
    rewrite Hy. apply list_elem_of_fmap_2.
    by apply list_elem_of_In, filter_In, proj1, list_elem_of_In in Hin. }
  rewrite (sweep_list now l st Hq Hnd) by apply Hl. f_equal. f_equal.
  apply map_eq. intros id. rewrite lookup_fmap.
  destruct (st_requests st !! id) as [r|] eqn:Hid; cbn.
  - pose proof (Hk _ _ Hid) as Hr. destruct (expired_at now r) eqn:He.
    + rewrite <-Hr at 1. apply fold_insert_in; [done|]. apply Hl. by rewrite Hr.
    + rewrite fold_insert_ne, Hid; [|].
      * f_equal. unfold swept, expired_at in *. by rewrite He.
      * intros (s & Hs & Hin)%list_elem_of_fmap. apply Hl in Hin as [Hin He']. congruence.
  - rewrite fold_insert_ne; [done|].
    intros (s & Hs & Hin)%list_elem_of_fmap. apply Hl in Hin as [Hin He']. congruence.
Qed.

(** One sweep, no query failing: every waiting request whose time is out
    goes to the fallback group once, when its policy names one, and is expired
    otherwise; every other request and every other table stay as they are. No
    action is performed. *)
Theorem sweep_effect now st :
  quiet st → keyed st →
  sweepApprovals now st = (with_requests (swept now st <$> st_requests st) st, Ok ()).
Proof. apply sweepApprovals_run. Qed.

(** The fallback group gets no time of its own: the request that one sweep
    hands over is expired by the next sweep, whenever it comes, because the
    time the request waits until is not moved. *)
Theorem escalation_expires_at_once now now' st id r :
  quiet st → keyed st → now ≤ now' →
  st_requests st !! id = Some r → waiting (req_State r) = true → req_ExpiresAt r ≤ now →
  req_Escalated r = false → pol_FallbackGroupName (policy_in_force (req_Action r) st) ≠ ""%string →
  let st1 := (sweepApprovals now st).1 in
  let st2 := (sweepApprovals now' st1).1 in
  (∃ r1, st_requests st1 !! id = Some r1 ∧ req_State r1 = ApprovalEscalated
    ∧ req_GroupName r1 = pol_FallbackGroupName (policy_in_force (req_Action r) st))
  ∧ ∃ r2, st_requests st2 !! id = Some r2 ∧ req_State r2 = ApprovalExpired.
Proof.
  intros Hq Hk Hnow Hid Hw He Hesc Hfb st1 st2.
  assert (swept now st r = set_state ApprovalEscalated None None true
    (pol_FallbackGroupName (policy_in_force (req_Action r) st)) r) as Hswept.
  { unfold swept, same. rewrite Hw, Hesc, bool_decide_false by done.
    by destruct (Z.leb_spec (req_ExpiresAt r) now); [|lia]. }
  unfold st2, st1. rewrite (sweepApprovals_run now st) by done. cbn.
  set (st1' := with_requests _ st).
  assert (st_requests st1' !! id = Some (swept now st r)) as Hid1.
  { cbn. by rewrite lookup_fmap, Hid. }
  assert (keyed st1') as Hk1.
  { intros i x. cbn. rewrite lookup_fmap, fmap_Some. intros (y & Hy & ->).
    rewrite <-(Hk _ _ Hy). unfold swept. cbv zeta.
    by destruct (waiting _ && _); [destruct (negb (req_Escalated y) && _)|]. }
  split.
  { exists (swept now st r). split; [exact Hid1|]. by rewrite Hswept. }
  rewrite (sweepApprovals_run now' st1') by done. cbn. exists (swept now' st1' (swept now st r)).
  change (swept now st <$> st_requests st) with (st_requests st1'). rewrite lookup_fmap, Hid1.
  split; [done|]. rewrite Hswept. unfold swept. cbn.
  by destruct (Z.leb_spec (req_ExpiresAt r) now'); [|lia].
Qed.
End Sweep.

(** * When the guard lets an action through *)
Section Bypass.
Lemma guard_not_ready now id p q action what next st st1 st2 policy :
  policyFor action st = (st1, Ok policy) → approversReady policy st1 = (st2, Ok false) →
  pol_Level policy ≠ LevelAudit →
  guardAction now id p q action what next st = (let '(st', c) := next st2 in (st', Ok (Performed c))).
Proof.
  intros Hp Hr Hl. unfold guardAction. erewrite bind_run by exact Hp. rewrite bool_decide_false by done.
  cbv zeta. erewrite bind_run by exact Hr. cbn [negb]. cbv [mbind ST_bind perform].
  by destruct (next st2).
Qed.

(** A database error opens the guard: when the query for the group of the
    policy fails, an action of any level runs without approval, although the
    group is configured. *)
Theorem unreadable_group_unguards now id p q action what next st fs :
  st_faults st = false :: true :: fs → pol_Level (policy_in_force action st) ≠ LevelAudit →
  guardAction now id p q action what next st
    = (let '(st', c) := next (with_faults fs st) in (st', Ok (Performed c))).
Proof.
  intros Hf Hl. apply (guard_not_ready _ _ _ _ _ _ _ _ (with_faults (true :: fs) st) _
    (policy_in_force action st)); [| |done].
  - unfold policyFor, policy_in_force. erewrite try_run.
    2:{ unfold ListApprovalPolicies, query. cbv [mbind ST_bind]. rewrite Hf. reflexivity. }
    cbn. by destruct (List.find _ _).
  - reflexivity.
Qed.

(** A database error can lower the level of an action: when the query for
    the policies fails, an action that is audited by default runs at once,
    whatever level the administrator has set. *)
Theorem unreadable_policies_weaken now id p q action what next st fs :
  st_faults st = true :: fs → GuardedActionByKey action = Some (action, LevelAudit) →
  guardAction now id p q action what next st
    = (let '(st', c) := next (with_faults fs st) in (st', Ok (Performed c))).
Proof.
  intros Hf Hl. unfold guardAction.
  assert (policyFor action st = (with_faults fs st, Ok (default_policy action))) as Hp.
  { unfold policyFor. erewrite try_run.
    2:{ unfold ListApprovalPolicies, query. cbv [mbind ST_bind]. rewrite Hf. reflexivity. }
    done. }
  assert (pol_Level (default_policy action) = LevelAudit) as Hd by (unfold default_policy; by rewrite Hl).
  erewrite bind_run by exact Hp. rewrite bool_decide_true by done. cbv [mbind ST_bind perform].
  by destruct (next (with_faults fs st)).
Qed.

(** One account can switch the approval off: deleting the group of the
    policy asks for no approval, and afterwards every action of that policy
    runs at once. *)
Theorem deleting_the_group_unguards now id p q action what next st g :
  quiet st → g ∈ st_groups st → grp_Name g = pol_GroupName (policy_in_force action st) →
  (∀ h, h ∈ st_groups st → grp_Name h = grp_Name g → h = g) →
  (∀ h, h ∈ st_groups st → grp_ID h = grp_ID g → h = g) →
  pol_Level (policy_in_force action st) ≠ LevelAudit →
  ∃ st1, handleDeleteApprovalGroup (grp_ID g) st = (st1, Ok ()) ∧
    guardAction now id p q action what next st1
      = (let '(st', c) := next st1 in (st', Ok (Performed c))).
Proof.
  intros Hq Hg Hname Huniq Hids Hl.
  set (st1 := with_groups (List.filter (λ h, negb (same (grp_ID h) (grp_ID g))) (st_groups st)) st).
  exists st1. split.
  - unfold handleDeleteApprovalGroup.
    assert (List.find (λ h, same (grp_ID h) (grp_ID g)) (st_groups st) = Some g) as Hfind.
    { destruct (List.find _ _) as [h|] eqn:Hf.
      - apply find_some in Hf as [Hin Hs]. unfold same in Hs. bprop. f_equal.
        apply Hids; [by apply list_elem_of_In|done].
      - apply list_elem_of_In in Hg. pose proof (find_none _ _ Hf _ Hg) as Hs. cbn in Hs.
        unfold same in Hs. bprop. done. }
    erewrite bind_run by (unfold GetApprovalGroup; rewrite query_quiet by done; cbn;
      rewrite get_run; unfold lift; rewrite Hfind; reflexivity).
    unfold DeleteApprovalGroup. rewrite query_quiet, get_run by done.
    rewrite (proj2 (existsb_exists _ _)); [done|]. exists g. split; [by apply list_elem_of_In|].
    unfold same. by apply bool_decide_true.
  - apply (guard_not_ready _ _ _ _ _ _ _ st1 st1 st1 (policy_in_force action st)); [|..|done].
    + exact (policyFor_quiet action st1 Hq).
    + unfold approversReady. erewrite try_run by (by apply group_quiet).
      destruct (List.find _ _) as [h|] eqn:Hf; [|done]. exfalso.
      apply find_some in Hf as [Hin Hs]. unfold same in Hs. bprop. cbn in Hin.
      apply filter_In in Hin as [Hin Hne]. unfold same in Hne. bprop. apply Hne. f_equal.
      apply Huniq; [by apply list_elem_of_In|congruence].
Qed.

(** An approval of a change of policies approves any change: a request
    approved for one change lets its holder store any other policy, because
    what is bound to the request does not name the change. *)
Theorem policy_approval_unbound now id p q payload st r policy :
  quiet st → TrimSpace (q_approval q) = req_ID r → req_ID r ≠ ""%string →
  st_requests st !! req_ID r = Some r → req_State r = ApprovalApproved →
  matches_target GuardPolicyUpdate policyTarget r = true →
  pol_Level (policy_in_force GuardPolicyUpdate st) ≠ LevelAudit →
  (approversReady (policy_in_force GuardPolicyUpdate st) st).2 = Ok true →
  (handleSetApprovalPolicy payload st).2 = Ok policy →
  ∃ st', guardAction now id p q GuardPolicyUpdate policyTarget
      (as_handler (handleSetApprovalPolicy payload)) st = (st', Ok (Performed 200))
    ∧ st_policies st' = st_policies (handleSetApprovalPolicy payload st).1.
Proof.
  intros Hq Hid Hne Hr Happ Hm Hl Hready Hok.
  assert (∀ n, ApprovalGroupByName n st = (st, (ApprovalGroupByName n st).2)) as Hgroup.
  { intros n. by rewrite group_quiet. }
  assert (approversReady (policy_in_force GuardPolicyUpdate st) st = (st, Ok true)) as Hready'.
  { rewrite <-Hready. unfold approversReady. erewrite try_run by (by apply group_quiet).
    by destruct (of_option _ _). }
  unfold guardAction. erewrite bind_run by (by apply policyFor_quiet).
  rewrite bool_decide_false by done. cbv zeta. erewrite bind_run by exact Hready'. cbn [negb].
  rewrite Hid. unfold same at 1. rewrite bool_decide_false by done. cbn [negb].
  unfold executeApproved. set (vs := sort_stable (λ v w, vote_At v <? vote_At w) (votes_of (req_ID r) st)).
  assert (GetApprovalRequest (req_ID r) st = (st, Ok (set_votes vs r))) as Hget.
  { unfold GetApprovalRequest. rewrite query_quiet, get_run by done.
    erewrite bind_run by (unfold lift; rewrite Hr; reflexivity).
    erewrite bind_run by (unfold approvalVotes; rewrite query_quiet by done; reflexivity). done. }
  erewrite bind_run by exact Hget.
  change (matches_target GuardPolicyUpdate policyTarget (set_votes vs r))
    with (matches_target GuardPolicyUpdate policyTarget r). rewrite Hm. cbn [negb].
  unfold gives_right. cbn [req_State set_votes]. rewrite Happ. cbv [mbind ST_bind lift perform as_handler].
  destruct (handleSetApprovalPolicy payload st) as [st1 [pol|e]]; [|done]. cbn.
  unfold try. destruct (SetApprovalState _ _ _ _ _ _ st1) as [st2 x] eqn:Hset. exists st2.
  split; [done|]. clear -Hset. unfold SetApprovalState, query in Hset.
  cbv [mbind ST_bind get modify fail] in Hset.
  destruct (st_faults st1) as [|[] fs]; cbn in Hset; repeat case_match; by simplify_eq/=.
Qed.
End Bypass.
