(* ===== verification/GuardSamples.v ===== *)
(** Concrete installations: a run that approves, performs and closes a
    deletion of a storage, and the inputs at which the theorems of the guard
    apply. *)

From S2P Require Import Prelude StateM GoTime GoStr Approvals Guard GuardFacts GuardProps.

#[export] Instance sample_hashing : Hashing := {
  hashAPISecret := λ s, ("sha256:" +:+ s)%string;
  GenerateFromPassword := λ s, ("bcrypt:" +:+ s)%string;
  CompareHashAndPassword := λ h s, same h ("bcrypt:" +:+ s)
}.

#[export] Instance sample_actions : Actions := {
  executeJobDelete := λ _, mret ();
  executeServerDelete := λ _, mret ();
  executeRetentionApply := λ _, mret ()
}.

Definition sample_users : M (list string) := mret ["alice"; "bob"; "carol"; "mallory"]%string.
Definition sample_user (name : string) : M () :=
  users ← sample_users ; if existsb (same name) users then mret () else fail ErrNotFound.

Definition approvers : ApprovalGroup :=
  mkApprovalGroup "g1" "approvers" "Approvers" ["alice"; "bob"; "carol"]%string 0 0.

Definition sample_store : Store := mkStore [] [approvers] [] ∅ [] [] [].

Definition dave : option Principal := Some (mkPrincipal "dave" true).
Definition storage : guardedTarget := mkTarget "s1" "nightly" "delete the storage nightly" "".
Definition ask : Query := mkQuery "" "" "the array is being retired".
Definition with_approval : Query := mkQuery "r1" "" "".

(** The deletion itself touches no table of the approvals. *)
Definition delete_storage : Handler := λ st, (st, 204).

Lemma delete_storage_tame : tame delete_storage.
Proof. by intros st. Qed.

Lemma sample_users_inert : inert sample_users.
Proof. by intros seen st. Qed.

Lemma sample_user_inert n : inert (sample_user n).
Proof. intros seen st. unfold sample_user. cbv [mbind ST_bind sample_users mret ST_ret fail]. by case_match. Qed.

Lemma sample_actions_inert action exec s : executors action = Some exec → inert (exec s).
Proof. unfold executors. destruct action; intros [= <-]; by intros seen st. Qed.

(** The run: opened by dave, read, approved by alice, read again, approved by
    bob. *)
Definition run0 : System := mkSystem sample_store [].
Definition run1 : System :=
  mkSystem (guardAction 0 "r1" dave ask GuardStorageDelete storage delete_storage sample_store).1 [].
Definition read (sys : System) : System :=
  match GetApprovalRequest "r1" (sys_store sys) with
  | (st, Ok s) => mkSystem st (s :: sys_seen sys)
  | (st, Err _) => mkSystem st (sys_seen sys)
  end.
Definition newest (sys : System) : option ApprovalRequest := head (sys_seen sys).
Definition vote_by (now : Z) (who : string) (sys : System) : System :=
  match newest sys with
  | Some s => mkSystem (castVote now s who true "" no_creds (sys_store sys)).1 (sys_seen sys)
  | None => sys
  end.
Definition run2 : System := vote_by 10 "alice" (read run1).
Definition run3 : System := vote_by 20 "bob" (read run2).

Local Abbreviation sample_step := (step sample_users sample_user).

Lemma read_step sys : rtc sample_step sys (read sys).
Proof.
  unfold read. destruct sys as [st seen]. cbn.
  destruct (GetApprovalRequest "r1" st) as [st' [s|e]] eqn:Hr.
  - apply rtc_once. by eapply step_read.
  - destruct (reads_run _ _ _ _ (reads_request "r1") Hr) as [fs ->]. apply rtc_once, step_faults.
Qed.

Lemma vote_step now who sys : rtc sample_step sys (vote_by now who sys).
Proof.
  unfold vote_by, newest. destruct sys as [st [|s seen]]; cbn; [constructor|].
  apply rtc_once. apply step_vote. left.
Qed.

Lemma run3_reachable : rtc sample_step run0 run3.
Proof.
  etrans; [|apply vote_step]. etrans; [|apply read_step]. etrans; [|apply vote_step].
  etrans; [|apply read_step]. apply rtc_once, step_guard, delete_storage_tame.
Qed.

Definition approved_request3 : ApprovalRequest :=
  mkApprovalRequest "r1" GuardStorageDelete "s1" "nightly" "delete the storage nightly" "dave"
    "the array is being retired" ApprovalApproved LevelQuorum 2 "approvers" false 0 (72 * Hour)
    (Some 20) None "" "" [].

Lemma run0_initial : initial run0.
Proof. done. Qed.

Lemma quorum_safety_witness :
  quorum_met (sys_store run3) approved_request3 ∧ (LevelQuorum = LevelQuorum → 2 ≤ 2).
Proof.
  apply (quorum_safety sample_users sample_user sample_users_inert sample_user_inert
    sample_actions_inert run0 run3 "r1" approved_request3 run0_initial run3_reachable).
  - vm_compute. reflexivity.
  - left. reflexivity.
Defined.

Lemma guard_grounds_witness :
  ∃ st1 policy, policyFor GuardStorageDelete (sys_store run3) = (st1, Ok policy) ∧
    (pol_Level policy = LevelAudit
     ∨ (approversReady policy st1).2 = Ok false
     ∨ approved_request 30 (sys_store run3) GuardStorageDelete storage "r1"
     ∨ ∃ st2, recorded_bypass st2 GuardStorageDelete storage "dave" ""
         ∧ (guardAction 30 "r2" dave with_approval GuardStorageDelete storage delete_storage
              (sys_store run3)).1 = (delete_storage st2).1).
Proof.
  apply (guard_grounds sample_users sample_user sample_users_inert sample_user_inert
    sample_actions_inert run0 run3 30 "r2" dave with_approval GuardStorageDelete storage
    delete_storage _ 204 run0_initial run3_reachable).
  vm_compute. reflexivity.
Defined.

Lemma guard_refuses_witness (next' := λ st, (with_groups [] st, 500) : Store * Z) :
  ¬ performed (guardAction 0 "r1" dave ask GuardStorageDelete storage delete_storage sample_store).2 ∧
  guardAction 0 "r1" dave ask GuardStorageDelete storage delete_storage sample_store
    = guardAction 0 "r1" dave ask GuardStorageDelete storage next' sample_store.
Proof.
  assert (¬ performed (guardAction 0 "r1" dave ask GuardStorageDelete storage delete_storage
    sample_store).2) as Hno by (intros [c Hc]; vm_compute in Hc; discriminate Hc).
  split; [exact Hno|]. apply guard_refuses. exact Hno.
Defined.

(** The request as every approver reads it before the first vote. *)
Definition fresh : ApprovalRequest :=
  mkApprovalRequest "r1" GuardStorageDelete "s1" "nightly" "delete the storage nightly" "dave"
    "the array is being retired" ApprovalPending LevelQuorum 2 "approvers" false 0 (72 * Hour)
    None None "" "" [].

Definition veto_request : ApprovalRequest :=
  mkApprovalRequest "r2" GuardJobDelete "j1" "job" "delete the job" "dave"
    "nobody needs this job" ApprovalPending LevelVeto 1 "approvers" false 0 (72 * Hour)
    None None "" "" [].

Definition fresh_store : Store :=
  mkStore [] [approvers] [] {["r1"%string := fresh; "r2"%string := veto_request]} [] [] [].

Lemma sample_may_vote s who :
  s = fresh ∨ s = veto_request → who ∈ ["alice"; "bob"; "carol"]%string → may_vote fresh_store s who.
Proof.
  intros Hs Hw. constructor.
  - destruct Hs; subst; reflexivity.
  - destruct Hs; subst; set_solver.
  - exists approvers. split; [destruct Hs; subst; reflexivity|]. apply existsb_exists.
    exists who. split; [by apply list_elem_of_In|]. by apply bool_decide_true.
  - intros w Hin. by apply elem_of_nil in Hin.
  - destruct Hs; subst; by eexists.
Qed.

Lemma vote_effect_witness :
  may_vote fresh_store veto_request "alice" ∧
  (castVote 5 veto_request "alice" true "ok" no_creds fresh_store).1
    = move 5 veto_request (Some (ApprovalScheduled, Some (5 + 24 * Hour)))
        (with_votes [own_vote 5 veto_request "alice" true "ok"] fresh_store)
  ∧ is_ok (castVote 5 veto_request "alice" true "ok" no_creds fresh_store).2 = true.
Proof.
  assert (may_vote fresh_store veto_request "alice") as Hm
    by (apply sample_may_vote; [right; reflexivity|left]).
  split; [exact Hm|]. exact (vote_effect 5 veto_request "alice" true "ok" fresh_store eq_refl Hm).
Defined.

Lemma concurrent_votes_uncounted_witness :
  let st1 := (castVote 5 fresh "alice" true "" no_creds fresh_store).1 in
  let st2 := (castVote 6 fresh "bob" true "" no_creds st1).1 in
  approved_by st2 "r1" "alice" ∧ approved_by st2 "r1" "bob"
  ∧ st_requests st2 !! "r1"%string = Some fresh.
Proof.
  apply (concurrent_votes_uncounted 5 6 fresh fresh "alice" "bob" "" "" fresh_store).
  - reflexivity.
  - apply sample_may_vote; [left; reflexivity|left].
  - apply sample_may_vote; [left; reflexivity|right; left].
  - discriminate.
  - reflexivity.
  - reflexivity.
  - reflexivity.
Defined.

Lemma rejection_undone_witness :
  let st1 := (castVote 5 veto_request "alice" false "" no_creds fresh_store).1 in
  let st2 := (castVote 6 veto_request "bob" true "" no_creds st1).1 in
  (∃ r1, st_requests st1 !! "r2"%string = Some r1 ∧ req_State r1 = ApprovalRejected)
  ∧ ∃ r2, st_requests st2 !! "r2"%string = Some r2
    ∧ (req_State r2 = ApprovalApproved ∨ req_State r2 = ApprovalScheduled).
Proof.
  apply (rejection_undone 5 6 veto_request veto_request "alice" "bob" "" "" fresh_store).
  - reflexivity.
  - apply sample_may_vote; [right; reflexivity|left].
  - apply sample_may_vote; [right; reflexivity|right; left].
  - discriminate.
  - reflexivity.
  - vm_compute. discriminate.
Defined.

(** A policy with a fallback group. *)
Definition fallback_policy : ApprovalPolicy :=
  mkApprovalPolicy GuardStorageDelete LevelQuorum 2 "approvers" "reserve" (72 * Hour) (24 * Hour).

Definition fallback_store : Store :=
  mkStore [] [approvers] [fallback_policy] {["r1"%string := fresh; "r2"%string := veto_request]} [] [] [].

Lemma fallback_keyed : keyed fallback_store.
Proof.
  intros id r. cbn [fallback_store st_requests]. rewrite lookup_insert_Some, lookup_singleton_Some.
  intros [[<- <-]|[_ [<- <-]]]; done.
Qed.

Lemma sweep_effect_witness :
  sweepApprovals (73 * Hour) fallback_store
    = (with_requests (swept (73 * Hour) fallback_store <$> st_requests fallback_store) fallback_store,
       Ok ()).
Proof. exact (sweep_effect (73 * Hour) fallback_store eq_refl fallback_keyed). Defined.

Lemma escalation_expires_at_once_witness :
  let st1 := (sweepApprovals (72 * Hour) fallback_store).1 in
  let st2 := (sweepApprovals (72 * Hour + Minute) st1).1 in
  (∃ r1, st_requests st1 !! "r1"%string = Some r1 ∧ req_State r1 = ApprovalEscalated
    ∧ req_GroupName r1 = "reserve"%string)
  ∧ ∃ r2, st_requests st2 !! "r1"%string = Some r2 ∧ req_State r2 = ApprovalExpired.
Proof.
  apply (escalation_expires_at_once (72 * Hour) (72 * Hour + Minute) fallback_store "r1" fresh).
  - reflexivity.
  - exact fallback_keyed.
  - vm_compute. discriminate.
  - reflexivity.
  - reflexivity.
  - vm_compute. discriminate.
  - reflexivity.
  - vm_compute. discriminate.
Defined.

Lemma unreadable_group_unguards_witness :
  guardAction 0 "r1" dave ask GuardStorageDelete storage delete_storage
      (with_faults [false; true] sample_store)
    = (sample_store, Ok (Performed 204)).
Proof.
  apply (unreadable_group_unguards 0 "r1" dave ask GuardStorageDelete storage delete_storage
    (with_faults [false; true] sample_store) []).
  - reflexivity.
  - vm_compute. discriminate.
Defined.

(** The deletion of single copies raised to the quorum. *)
Definition strict_store : Store :=
  mkStore [true] [approvers]
    [mkApprovalPolicy GuardBackupDelete LevelQuorum 2 "approvers" "" (72 * Hour) (24 * Hour)] ∅ [] [] [].

Lemma unreadable_policies_weaken_witness :
  pol_Level (policy_in_force GuardBackupDelete strict_store) = LevelQuorum ∧
  guardAction 0 "r1" dave ask GuardBackupDelete storage delete_storage strict_store
    = (with_faults [] strict_store, Ok (Performed 204)).
Proof.
  split; [reflexivity|].
  apply (unreadable_policies_weaken 0 "r1" dave ask GuardBackupDelete storage delete_storage
    strict_store []); reflexivity.
Defined.

Lemma deleting_the_group_unguards_witness :
  ∃ st1, handleDeleteApprovalGroup "g1" sample_store = (st1, Ok ()) ∧
    guardAction 0 "r1" dave ask GuardStorageDelete storage delete_storage st1
      = (st1, Ok (Performed 204)).
Proof.
  apply (deleting_the_group_unguards 0 "r1" dave ask GuardStorageDelete storage delete_storage
    sample_store approvers).
  - reflexivity.
  - left.
  - reflexivity.
  - intros h Hh%list_elem_of_singleton _. exact Hh.
  - intros h Hh%list_elem_of_singleton _. exact Hh.
  - vm_compute. discriminate.
Defined.

(** Approved for raising the quorum of the deletion of storages. *)
Definition policy_request : ApprovalRequest :=
  mkApprovalRequest "r1" GuardPolicyUpdate "approval-policy" (tgt_Name policyTarget)
    (tgt_Summary policyTarget) "dave" "raise the quorum to three" ApprovalApproved LevelQuorum 2
    "approvers" false 0 (72 * Hour) (Some 20) None "" "" [].

Definition policy_store : Store := mkStore [] [approvers] [] {["r1"%string := policy_request]} [] [] [].

Definition drop_level : approvalPolicyPayload :=
  mkPolicyPayload GuardStorageDelete LevelAudit 0 "" "" 0 0.

Lemma policy_approval_unbound_witness :
  ∃ st', guardAction 30 "r2" dave with_approval GuardPolicyUpdate policyTarget
      (as_handler (handleSetApprovalPolicy drop_level)) policy_store = (st', Ok (Performed 200))
    ∧ st_policies st' = st_policies (handleSetApprovalPolicy drop_level policy_store).1.
Proof.
  apply (policy_approval_unbound 30 "r2" dave with_approval drop_level policy_store policy_request
    (mkApprovalPolicy GuardStorageDelete LevelAudit 0 "" "" 0 0)).
  - reflexivity.
  - reflexivity.
  - discriminate.
  - reflexivity.
  - reflexivity.
  - reflexivity.
  - vm_compute. discriminate.
  - reflexivity.
  - reflexivity.
Defined.

(** * One delegate, two signatures *)
Definition principal (name : string) : option Principal := Some (mkPrincipal name false).

Definition delegation_to (id prefix : string) (who : string) : M ApprovalDelegation :=
  handleCreateDelegation sample_user 0 id prefix "secret" (principal who)
    (mkDelegationPayload "mallory" "" "vacation" 24 "long password").

Definition creds_of (prefix : string) : delegationCredentials :=
  mkCreds ("jhvd." +:+ prefix +:+ ".secret") "long password".

Definition one_delegate : M ApprovalRequest :=
  delegation_to "d1" "p1" "alice" ;;
  delegation_to "d2" "p2" "bob" ;;
  handleVoteApproval 10 "r1" (principal "mallory") true "" (creds_of "p1") ;;
  handleVoteApproval 20 "r1" (principal "mallory") true "" (creds_of "p2").

(** One person can close a quorum of two: a delegate with the delegations
    of two approvers casts both votes, and the request is approved; counting
    votes by the delegating approver is what allows it. *)
Theorem one_delegate_closes_quorum :
  ∃ st r, one_delegate fresh_store = (st, Ok r) ∧ req_State r = ApprovalApproved
    ∧ option_map req_State (st_requests st !! "r1"%string) = Some ApprovalApproved
    ∧ vote_CastBy <$> st_votes st = ["mallory"; "mallory"]%string
    ∧ vote_Voter <$> st_votes st = ["alice"; "bob"]%string.
Proof.
  eexists _, _. split; [vm_compute; reflexivity|]. repeat split.
Qed.
