(* ===== verification/Paths.v ===== *)
(** Slash-separated paths: the part of Go's [path/filepath] that the file
    backups use, on Unix, and the checks of [filebackup/engine.go],
    [model/file_backup.go] and [repo/dirlist.go] that keep a path inside a
    directory.

    A path is a string; what the functions do to it is said in terms of its
    components. *)

From S2P Require Import Prelude GoStr Layout.

(** ** Components *)

(** [strings.Join(cs, "/")]. *)
Fixpoint join_slash (cs : list string) : string :=
  match cs with
  | [] => ""
  | [c] => c
  | c :: cs => c +:+ String slash (join_slash cs)
  end.

Definition IsAbs (path : string) : bool := String.prefix "/" path.

(** One component after the others, which are kept in reverse. *)
Definition push (rooted : bool) (back : list string) (c : string) : list string :=
  if bool_decide (c = "") || bool_decide (c = ".") then back
  else if bool_decide (c = "..") then
    match back with
    | b :: rest => if bool_decide (b = "..") then c :: back else rest
    | [] => if rooted then [] else [c]
    end
  else c :: back.

Definition clean_comps (path : string) : list string :=
  rev (foldl (push (IsAbs path)) [] (Split slash path)).

(** [filepath.Clean]. *)
Definition Clean (path : string) : string :=
  let cs := clean_comps path in
  if IsAbs path then String slash (join_slash cs)
  else if bool_decide (cs = []) then "." else join_slash cs.

(** [filepath.Join] of two elements. *)
Definition Join2 (a b : string) : string :=
  if bool_decide (a = "") then (if bool_decide (b = "") then "" else Clean b)
  else Clean (a +:+ String slash b).

(** The rest of both lists after what they have in common. *)
Fixpoint apart (bs ts : list string) : list string * list string :=
  match bs, ts with
  | b :: bs', t :: ts' => if bool_decide (b = t) then apart bs' ts' else (bs, ts)
  | _, _ => (bs, ts)
  end.

(** [filepath.Rel]: [None] is its error. *)
Definition Rel (base target : string) : option string :=
  if negb (Bool.eqb (IsAbs base) (IsAbs target)) then None else
  let '(bs, ts) := apart (clean_comps base) (clean_comps target) in
  match bs with
  | b :: _ =>
    if bool_decide (b = "..") then None
    else Some (join_slash (replicate (length bs) ".." ++ ts))
  | [] => Some (if bool_decide (ts = []) then "." else join_slash ts)
  end.

(** [filepath.Dir]. *)
Definition Dir (path : string) : string :=
  let ps := Split slash path in
  if bool_decide (length ps = 1%nat) then "." else Clean (join_slash (removelast ps) +:+ "/").

(** ** What keeps a path inside a directory *)
Inductive PathError :=
| PathAbsolute (path : string) | PathEscapes (path : string) | PathEmpty
| PathUnresolved (path : string).

Definition escapesRoot (rel : string) : bool :=
  bool_decide (rel = "..") || String.prefix "../" rel.

Definition pathWithin (root candidate : string) : bool :=
  match Rel root candidate with Some rel => negb (escapesRoot rel) | None => false end.

Definition safeRestorePath (root rel : string) : result PathError string :=
  if IsAbs rel then Err (PathAbsolute rel) else
  let clean := Clean rel in
  let clean := if bool_decide (clean = ".") then "" else clean in
  if escapesRoot clean then Err (PathEscapes rel) else
  let joined := Join2 root clean in
  if negb (pathWithin root joined) then Err (PathEscapes rel) else Ok joined.

(** [is_link] is [os.Lstat], [EvalSymlinks] that of [filepath]. *)
Definition safeSourcePath (is_link : string → bool) (EvalSymlinks : string → option string)
    (root rel : string) : result PathError string :=
  if IsAbs rel then Err (PathAbsolute rel) else
  let clean := Clean rel in
  if escapesRoot clean then Err (PathEscapes rel) else
  let full := Join2 root clean in
  let parent := if is_link full then Dir full else full in
  match EvalSymlinks parent with
  | None => Err (PathUnresolved parent)
  | Some resolved => if negb (pathWithin root resolved) then Err (PathEscapes rel) else Ok full
  end.

Definition validateRelativeFilePath (path : string) : result PathError () :=
  fail_if (bool_decide (TrimSpace path = "")) PathEmpty ;;
  fail_if (IsAbs path) (PathAbsolute path) ;;
  fail_if (escapesRoot (Clean path)) (PathEscapes path).

(** [strings.ReplaceAll(dir, "\", "/")]. *)
Fixpoint forward_slashes (s : string) : string :=
  match s with
  | EmptyString => EmptyString
  | String c s => String (if Ascii.eqb c "\"%char then slash else c) (forward_slashes s)
  end.

Definition is_slash (c : ascii) : bool := Ascii.eqb c slash.

(** [repo.CleanDir]: a directory inside a storage. *)
Definition CleanDir (dir : string) : string :=
  let clean := Trim is_slash (Clean ("/" +:+ forward_slashes dir)) in
  if bool_decide (clean = ".") then "" else clean.

Example clean_examples :
  Clean "a//./b/../c/" = "a/c" ∧ Clean "../../x" = "../../x" ∧ Clean "/.." = "/" ∧ Clean "" = "."
  ∧ Clean "a/.." = "." ∧ CleanDir "\\x\..\y/" = "y" ∧ Dir "/a/b" = "/a" ∧ Dir "/a" = "/" ∧ Dir "a" = "."
  ∧ Rel "/a/b" "/a/c/d" = Some "../c/d" ∧ Rel "/" "/a" = Some "a" ∧ Rel "/a" "/a" = Some "."
  ∧ safeRestorePath "/r" "x/../../y" = Err (PathEscapes "x/../../y") ∧ safeRestorePath "/r" "x/../y" = Ok "/r/y".
Proof. vm_compute. intuition. Qed.

(** * What the functions do to the components *)

(** A component that names a child. *)
Definition normal (c : string) : Prop :=
  c ≠ "" ∧ c ≠ "." ∧ c ≠ ".." ∧ all_chars no_slash c = true.

(** The absolute path with these components. *)
Definition path_of (cs : list string) : string := String slash (join_slash cs).

Lemma Split_no_slash s : Forall (λ c, all_chars no_slash c = true) (Split slash s).
Proof.
  induction s as [|c s IH]; cbn; [by repeat constructor|]. destruct (Ascii.eqb c slash) eqn:Hc.
  - by constructor.
  - destruct (Split slash s) as [|p ps]; [by repeat constructor; cbn; unfold without; rewrite Hc|].
    apply Forall_cons in IH as [Hp Hps]. constructor; [|done]. cbn. rewrite Hp. unfold without. by rewrite Hc.
Qed.

Lemma Split_cons c s : c ≠ slash →
  ∃ p ps, Split slash s = p :: ps ∧ Split slash (String c s) = String c p :: ps.
Proof.
  intros Hc. cbn. destruct (Ascii.eqb_spec c slash); [done|].
  assert (Split slash s ≠ []) as Hne.
  { destruct s as [|d s]; cbn; [done|]. destruct (Ascii.eqb d slash); [done|]. by destruct (Split slash s). }
  destruct (Split slash s) as [|p ps]; [done|]. by exists p, ps.
Qed.

Lemma Split_slash a s : all_chars no_slash a = true → Split slash (a +:+ String slash s) = a :: Split slash s.
Proof.
  induction a as [|c a IH]; intros Ha.
  - by rewrite app_Empty.
  - cbn in Ha. apply andb_true_iff in Ha as [Hc Ha]. rewrite app_String.
    destruct (Split_cons c (a +:+ String slash s)) as (p & ps & Hs & ->).
    { intros ->. unfold without in Hc. by rewrite Ascii.eqb_refl in Hc. }
    rewrite IH in Hs by done. by injection Hs as <- <-.
Qed.

Lemma Split_one a : all_chars no_slash a = true → Split slash a = [a].
Proof.
  induction a as [|c a IH]; intros Ha; [done|]. cbn in Ha. apply andb_true_iff in Ha as [Hc Ha].
  destruct (Split_cons c a) as (p & ps & Hs & ->).
  { intros ->. unfold without in Hc. by rewrite Ascii.eqb_refl in Hc. }
  rewrite IH in Hs by done. by injection Hs as <- <-.
Qed.

Lemma Split_join cs : cs ≠ [] → Forall (λ c, all_chars no_slash c = true) cs → Split slash (join_slash cs) = cs.
Proof.
  induction cs as [|c [|d cs] IH]; intros Hne Hcs; [done|..]; apply Forall_cons in Hcs as [Hc Hcs].
  - by apply Split_one.
  - change (join_slash (c :: d :: cs)) with (c +:+ String slash (join_slash (d :: cs))).
    rewrite Split_slash by done. by rewrite IH.
Qed.

Lemma Split_app a b : Split slash (a +:+ String slash b) = Split slash a ++ Split slash b.
Proof.
  induction a as [|c a IH]; [by rewrite app_Empty|]. rewrite app_String.
  destruct (Ascii.eqb_spec c slash) as [->|Hc].
  - cbn. by rewrite IH.
  - destruct (Split_cons c a) as (p & ps & Hs & ->); [done|].
    destruct (Split_cons c (a +:+ String slash b)) as (p' & ps' & Hs' & ->); [done|].
    rewrite IH, Hs in Hs'. by injection Hs' as <- <-.
Qed.

(** ** Cleaning *)
Definition ups (n : nat) : list string := replicate n "..".

(** What the components of a prefix look like, in reverse. *)
Definition stacked (rooted : bool) (back : list string) : Prop :=
  ∃ n cs, back = cs ++ ups n ∧ Forall normal cs ∧ (rooted = true → n = 0%nat).

Lemma push_stacked rooted back c :
  all_chars no_slash c = true → stacked rooted back → stacked rooted (push rooted back c).
Proof.
  intros Hc (n & cs & -> & Hcs & Hn). unfold push.
  destruct (bool_decide (c = "") || bool_decide (c = ".")) eqn:Hskip; [by exists n, cs|].
  apply orb_false_iff in Hskip as [He%bool_decide_eq_false Hd%bool_decide_eq_false].
  case_bool_decide as Hup.
  - destruct cs as [|b cs]; cbn.
    + destruct n as [|n]; cbn.
      * destruct rooted; [by exists 0%nat, []|]. subst c. by exists 1%nat, [].
      * subst c. exists (S (S n)), []. split_and!; [done..|]. intros H. by specialize (Hn H).
    + apply Forall_cons in Hcs as [(_ & _ & Hb & _) Hcs]. rewrite bool_decide_eq_false_2 by done.
      by exists n, cs.
  - exists n, (c :: cs). split_and!; [done| |done]. constructor; [|done]. by repeat split.
Qed.

Lemma foldl_push_stacked rooted ps back :
  Forall (λ c, all_chars no_slash c = true) ps → stacked rooted back → stacked rooted (foldl (push rooted) back ps).
Proof.
  revert back. induction ps as [|c ps IH]; intros back Hps Hb; [done|].
  apply Forall_cons in Hps as [Hc Hps]. apply IH; [done|]. by apply push_stacked.
Qed.

Lemma clean_comps_shape path :
  ∃ n cs, clean_comps path = ups n ++ cs ∧ Forall normal cs ∧ (IsAbs path = true → n = 0%nat).
Proof.
  destruct (foldl_push_stacked (IsAbs path) (Split slash path) []) as (n & cs & Hs & Hcs & Hn).
  - apply Split_no_slash.
  - by exists 0%nat, [].
  - exists n, (rev cs). unfold clean_comps. rewrite Hs, rev_app_distr. unfold ups.
    split_and!; [|by apply Forall_rev|done]. f_equal. clear. induction n as [|n IH]; [done|].
    cbn. rewrite IH. clear. by induction n as [|n IH]; cbn; [|f_equal].
Qed.

Lemma foldl_push_normal rooted cs back :
  Forall normal cs → foldl (push rooted) back cs = rev cs ++ back.
Proof.
  revert back. induction cs as [|c cs IH]; intros back Hcs; [done|].
  apply Forall_cons in Hcs as [(He & Hd & Hu & _) Hcs]. cbn. rewrite IH by done. unfold push.
  rewrite !bool_decide_eq_false_2 by done. cbn. by rewrite <-app_assoc.
Qed.

Lemma normal_no_slash cs : Forall normal cs → Forall (λ c, all_chars no_slash c = true) cs.
Proof. intros H. eapply Forall_impl; [exact H|]. by intros c (_ & _ & _ & ?). Qed.

Lemma push_empty rooted back : push rooted back "" = back.
Proof. done. Qed.

Lemma foldl_push_join rooted cs back :
  Forall normal cs → foldl (push rooted) back (Split slash (join_slash cs)) = rev cs ++ back.
Proof.
  intros Hcs. destruct cs as [|c cs]; [done|].
  rewrite Split_join by (done || by apply normal_no_slash). by apply foldl_push_normal.
Qed.

Lemma IsAbs_path_of cs : IsAbs (path_of cs) = true.
Proof. unfold IsAbs, path_of. cbn. by destruct (join_slash cs). Qed.

Lemma Split_path_of cs : Split slash (path_of cs) = "" :: Split slash (join_slash cs).
Proof. done. Qed.

(** The path with a rest after it. *)
Lemma Clean_path_of cs rest :
  Forall normal cs → Forall normal rest →
  Clean (path_of cs +:+ String slash (join_slash rest)) = path_of (cs ++ rest).
Proof.
  intros Hcs Hrest. unfold Clean, clean_comps.
  assert (IsAbs (path_of cs +:+ String slash (join_slash rest)) = true) as ->.
  { unfold path_of. rewrite app_String. unfold IsAbs. cbn. by destruct (_ +:+ _). }
  rewrite Split_app, Split_path_of. cbn [app foldl]. rewrite push_empty, foldl_app.
  rewrite !foldl_push_join by done. by rewrite app_nil_r, <-rev_app_distr, rev_involutive.
Qed.

Lemma clean_comps_path_of cs : Forall normal cs → clean_comps (path_of cs) = cs.
Proof.
  intros Hcs. unfold clean_comps. rewrite IsAbs_path_of, Split_path_of. cbn [foldl]. rewrite push_empty.
  by rewrite foldl_push_join, app_nil_r, rev_involutive.
Qed.

(** ** Staying inside *)
Lemma escapes_head x : escapesRoot x = true → ∃ ps, Split slash x = ".." :: ps.
Proof.
  unfold escapesRoot. rewrite orb_true_iff, bool_decide_eq_true. intros [->|Hp]; [by exists []|].
  apply prefix_split in Hp as [t ->]. exists (Split slash t).
  change ("../" +:+ t) with (".." +:+ String slash t). by rewrite Split_slash.
Qed.

Lemma normal_stays cs : Forall normal cs → cs ≠ [] → escapesRoot (join_slash cs) = false.
Proof.
  intros Hcs Hne. apply not_true_is_false. intros (ps & Hps)%escapes_head.
  rewrite Split_join in Hps by (done || by apply normal_no_slash). subst cs.
  by apply Forall_cons in Hcs as [(_ & _ & ? & _) _].
Qed.

Lemma ups_escape n cs : escapesRoot (join_slash (ups (S n) ++ cs)) = true.
Proof.
  unfold escapesRoot. apply orb_true_iff. destruct (ups n ++ cs) as [|c rest] eqn:He.
  - left. apply app_nil in He as [Hn ->]. destruct n; done.
  - right. change (ups (S n) ++ cs) with (".." :: (ups n ++ cs)). rewrite He.
    change (join_slash (".." :: c :: rest)) with ("../" +:+ join_slash (c :: rest)).
    apply prefix_app_l.
Qed.

(** A relative path that does not escape names a way down. *)
Lemma stays_normal rel :
  IsAbs rel = false → escapesRoot (Clean rel) = false → Forall normal (clean_comps rel).
Proof.
  intros Habs He. destruct (clean_comps_shape rel) as (n & cs & Hs & Hcs & _).
  destruct n as [|n]; [by rewrite Hs|]. exfalso. unfold Clean in He. rewrite Habs, Hs in He.
  rewrite bool_decide_eq_false_2 in He by done. by rewrite ups_escape in He.
Qed.

Lemma Clean_relative rel :
  IsAbs rel = false →
  (if bool_decide (Clean rel = ".") then "" else Clean rel)
  = (if bool_decide (clean_comps rel = []) then "" else Clean rel).
Proof.
  intros Habs. unfold Clean. rewrite Habs. destruct (decide (clean_comps rel = [])) as [Hn|Hn].
  - rewrite Hn. by rewrite !bool_decide_eq_true_2.
  - rewrite !(bool_decide_eq_false_2 (clean_comps rel = [])) by done.
    rewrite bool_decide_eq_false_2; [done|]. intros Hd.
    destruct (clean_comps_shape rel) as (n & cs & Hs & Hcs & _). rewrite Hs in *.
    assert (Split slash (join_slash (ups n ++ cs)) = ups n ++ cs) as Hsp.
    { apply Split_join; [done|]. apply Forall_app. split; [|by apply normal_no_slash].
      apply Forall_forall. by intros c [-> _]%elem_of_replicate. }
    rewrite Hd in Hsp. cbn in Hsp. destruct n; [|done]. cbn in Hsp. subst cs.
    by apply Forall_cons in Hcs as [(_ & ? & _) _].
Qed.

Lemma apart_prefix cs rest : apart cs (cs ++ rest) = ([], rest).
Proof. induction cs as [|c cs IH]; cbn; [by destruct rest|]. by rewrite bool_decide_eq_true_2. Qed.

Lemma Rel_below cs rest :
  Forall normal cs → Forall normal rest →
  Rel (path_of cs) (path_of (cs ++ rest)) = Some (if bool_decide (rest = []) then "." else join_slash rest).
Proof.
  intros Hcs Hrest. unfold Rel. rewrite !IsAbs_path_of. cbn [Bool.eqb negb].
  rewrite !clean_comps_path_of by (done || by apply Forall_app). by rewrite apart_prefix.
Qed.

Lemma within_below cs rest :
  Forall normal cs → Forall normal rest → pathWithin (path_of cs) (path_of (cs ++ rest)) = true.
Proof.
  intros Hcs Hrest. unfold pathWithin. rewrite Rel_below by done.
  case_bool_decide; [done|]. by rewrite normal_stays.
Qed.

Lemma Join2_root cs rest :
  Forall normal cs → Forall normal rest → Join2 (path_of cs) (join_slash rest) = path_of (cs ++ rest).
Proof. intros Hcs Hrest. unfold Join2. rewrite bool_decide_eq_false_2 by done. by apply Clean_path_of. Qed.

(** [safeRestorePath] accepts the relative paths that go down only, and gives
    the path below the root. *)
Lemma safeRestorePath_ok cs rel p :
  Forall normal cs → safeRestorePath (path_of cs) rel = Ok p ↔
  IsAbs rel = false ∧ Forall normal (clean_comps rel) ∧ p = path_of (cs ++ clean_comps rel).
Proof.
  intros Hcs. unfold safeRestorePath. destruct (IsAbs rel) eqn:Habs; [split; [done|by intros [? _]]|].
  rewrite Clean_relative by done.
  destruct (decide (Forall normal (clean_comps rel))) as [Hn|Hn].
  - assert ((if bool_decide (clean_comps rel = []) then "" else Clean rel) = join_slash (clean_comps rel)) as ->.
    { unfold Clean. rewrite Habs. case_bool_decide as He; [by rewrite He|done]. }
    assert (escapesRoot (join_slash (clean_comps rel)) = false) as ->.
    { destruct (clean_comps rel) as [|c rest] eqn:Hc; [done|]. by apply normal_stays. }
    rewrite Join2_root, within_below by done. cbn. split; [by intros [= <-]|by intros (_ & _ & ->)].
  - split; [|by intros (_ & ? & _)]. intros Hok. destruct Hn. apply stays_normal; [done|].
    revert Hok. destruct (bool_decide (clean_comps rel = [])) eqn:He.
    + intros _. unfold Clean. by rewrite Habs, He.
    + by destruct (escapesRoot (Clean rel)).
Qed.
