(* ===== verification/FileSys.v ===== *)
(** The file system that file backups are restored into, with the calls of Go's
    package [os] on it, on Unix and for a privileged user.

    A file system maps absolute paths, as lists of components, to directories,
    files and symbolic links; a path is resolved through the links on its way as
    the kernel does. Hard links are copies: nothing here writes into a file that
    has a name. Temporary files that are renamed or removed by the call that made
    them have no entry. At the end: which nodes the calls change. *)

From S2P Require Import Prelude StateM GoStr Layout Format Paths.

(** Modes are permission bits, times nanoseconds. *)
Inductive FNode :=
| FDir (mode : Z)
| FFile (content : bytes) (mode mtime : Z)
| FSym (target : string).

Abbreviation FileSys := (gmap (list string) FNode).

Inductive SysError := ENOENT | ENOTDIR | ELOOP | EEXIST | EISDIR | ENOTEMPTY | EPERM | EIO.

#[export] Instance SysError_eq_dec : EqDecision SysError.
Proof. solve_decision. Defined.

(** The root is always there. *)
Definition node (fs : FileSys) (p : list string) : option FNode :=
  match p with [] => Some (FDir 493) | _ => fs !! p end.

Definition is_dir (n : option FNode) : bool := match n with Some (FDir _) => true | _ => false end.
Definition is_sym (n : option FNode) : bool := match n with Some (FSym _) => true | _ => false end.

(** Resolution: [cur] is resolved, [todo] is left; at most [links] links. The last
    component is followed when asked for. *)
Fixpoint namei (links : nat) (fs : FileSys) (follow : bool) : list string → list string → option (list string) :=
  fix walk (cur todo : list string) {struct todo} :=
    match todo with
    | [] => Some cur
    | c :: rest =>
      if bool_decide (c = "") || bool_decide (c = ".") then walk cur rest
      else if bool_decide (c = "..") then walk (removelast cur) rest
      else
        match fs !! (cur ++ [c]) with
        | Some (FSym t) =>
          if bool_decide (rest = []) && negb follow then Some (cur ++ [c]) else
          match links with
          | O => None
          | S links => namei links fs follow (if IsAbs t then [] else cur) (Split slash t ++ rest)
          end
        | _ => walk (cur ++ [c]) rest
        end
    end.

(** The kernel gives up after forty links. *)
Definition resolve (fs : FileSys) (follow : bool) (path : string) : option (list string) :=
  namei 40 fs follow [] (Split slash path).

Abbreviation FSM := (ST FileSys SysError).

(** Why a path that is resolved is not there: something on its way is a file. *)
Fixpoint blocked (fs : FileSys) (cur todo : list string) : bool :=
  match todo with
  | [] => false
  | c :: rest => match node fs cur with Some (FDir _) | None => blocked fs (cur ++ [c]) rest | _ => true end
  end.

Definition missing (fs : FileSys) (q : list string) : SysError :=
  if blocked fs [] q then ENOTDIR else ENOENT.

Definition stat (follow : bool) (path : string) : FSM (list string * FNode) :=
  fs ← get ;
  match resolve fs follow path with
  | None => fail ELOOP
  | Some q => match node fs q with Some n => mret (q, n) | None => fail (missing fs q) end
  end.

(** [os.Lstat], [os.Stat]. *)
Definition Lstat (path : string) : FSM FNode := r ← stat false path ; mret r.2.
Definition Stat (path : string) : FSM FNode := r ← stat true path ; mret r.2.

(** [filepath.EvalSymlinks]. *)
Definition EvalSymlinks (path : string) : FSM string := r ← stat true path ; mret (path_of r.1).

(** A name that is free in a directory that is there. *)
Definition free_name (path : string) : FSM (list string) :=
  fs ← get ;
  match resolve fs false path with
  | None => fail ELOOP
  | Some q =>
    match node fs q with
    | Some _ => fail EEXIST
    | None => if is_dir (node fs (removelast q)) then mret q else fail (missing fs q)
    end
  end.

Definition put_node (q : list string) (n : FNode) : FSM () := modify <[q := n]>.

Section Os.
Context (umask : Z).

Definition Mkdir (path : string) (mode : Z) : FSM () :=
  q ← free_name path ; put_node q (FDir (Z.ldiff mode umask)).

(** One directory of [os.MkdirAll]. *)
Definition mkdir_one (path : string) (mode : Z) : FSM () :=
  found ← try (Stat path) ;
  match found with
  | Ok (FDir _) => mret ()
  | Ok _ => fail ENOTDIR
  | Err _ =>
    made ← try (Mkdir path mode) ;
    match made with
    | Ok _ => mret ()
    | Err e => found ← try (Lstat path) ; match found with Ok (FDir _) => mret () | _ => fail e end
    end
  end.

(** The parents first. *)
Fixpoint mkdirs (cur todo : list string) (mode : Z) : FSM () :=
  match todo with
  | [] => mret ()
  | c :: rest => mkdir_one (path_of (cur ++ [c])) mode ;; mkdirs (cur ++ [c]) rest mode
  end.

Definition MkdirAll (path : string) (mode : Z) : FSM () := mkdirs [] (clean_comps path) mode.

(** A directory with children. *)
Definition occupied (fs : FileSys) (q : list string) : bool :=
  existsb (λ x, bool_decide (removelast x.1 = q) && bool_decide (x.1 ≠ [])) (map_to_list fs).

Definition Remove (path : string) : FSM () :=
  r ← stat false path ; fs ← get ;
  match r.2 with
  | FDir _ => if occupied fs r.1 || bool_decide (r.1 = []) then fail ENOTEMPTY else modify (delete r.1)
  | _ => modify (delete r.1)
  end.

Definition Symlink (target path : string) : FSM () :=
  q ← free_name path ; put_node q (FSym target).

(** The last component of [old] is not followed. *)
Definition Link (old new : string) : FSM () :=
  r ← stat false old ;
  match r.2 with
  | FDir _ => fail EPERM
  | n => q ← free_name new ; put_node q n
  end.

(** The rename of a temporary file onto its name. *)
Definition Rename (n : FNode) (path : string) : FSM () :=
  fs ← get ;
  match resolve fs false path with
  | None => fail ELOOP
  | Some q =>
    if is_dir (node fs q) then fail EISDIR
    else if is_dir (node fs (removelast q)) then put_node q n else fail (missing fs q)
  end.

Definition Chtimes (path : string) (mtime : Z) : FSM () :=
  r ← stat true path ;
  match r.2 with
  | FFile content mode _ => put_node r.1 (FFile content mode mtime)
  | _ => mret ()
  end.

(** [os.CreateTemp] needs its directory. *)
Definition CreateTemp (dir : string) : FSM () :=
  n ← Stat dir ; match n with FDir _ => mret () | _ => fail ENOTDIR end.
End Os.

(** * Paths without links *)

(** No link on the way to a path. *)
Definition plain (fs : FileSys) (q : list string) : Prop :=
  ∀ p c rest, q = p ++ c :: rest → rest ≠ [] → is_sym (fs !! (p ++ [c])) = false.

Lemma namei_plain links fs follow cur todo :
  Forall normal todo →
  (∀ p c rest, todo = p ++ c :: rest → rest ≠ [] ∨ follow = true → is_sym (fs !! (cur ++ p ++ [c])) = false) →
  namei links fs follow cur todo = Some (cur ++ todo).
Proof.
  destruct links as [|links]; revert cur; induction todo as [|c todo IH]; intros cur Hn Hp; cbn;
    (try by rewrite app_nil_r); apply Forall_cons in Hn as [(He & Hd & Hu & _) Hn];
    rewrite !bool_decide_eq_false_2 by done; cbn [orb].
  all: assert (namei _ fs follow (cur ++ [c]) todo = Some (cur ++ c :: todo)) as Hrest
    by (replace (cur ++ c :: todo) with ((cur ++ [c]) ++ todo) by (by rewrite <-app_assoc);
        apply IH; [done|]; intros p c' rest -> Hr; rewrite <-app_assoc; cbn;
        apply (Hp (c :: p) c' rest); [done|exact Hr]).
  all: destruct (fs !! (cur ++ [c])) as [[m|b m t|t]|] eqn:Hlk; try exact Hrest.
  all: case_bool_decide as Hr; [subst todo|];
    [destruct follow; cbn [andb negb]; [|done]|cbn [andb]].
  all: exfalso; pose proof (Hp [] c _ eq_refl) as Hs; cbn in Hs; rewrite Hlk in Hs;
    assert (true = false) by (apply Hs; auto); done.
Qed.

Lemma resolve_plain fs q : Forall normal q → plain fs q → resolve fs false (path_of q) = Some q.
Proof.
  intros Hq Hp. unfold resolve. rewrite Split_path_of. destruct q as [|c q]; [done|].
  rewrite Split_join by (done || by apply normal_no_slash).
  change (namei 40 fs false [] (c :: q) = Some (c :: q)). rewrite (namei_plain 40 fs false []); [done..|].
  intros p c' rest Heq [Hr|?]; [|done]. by apply (Hp p c' rest).
Qed.

Lemma resolve_follow fs q :
  Forall normal q → plain fs q → is_sym (node fs q) = false → resolve fs true (path_of q) = Some q.
Proof.
  intros Hq Hp Hn. unfold resolve. rewrite Split_path_of. destruct q as [|c q]; [done|].
  rewrite Split_join by (done || by apply normal_no_slash).
  change (namei 40 fs true [] (c :: q) = Some (c :: q)). rewrite (namei_plain 40 fs true []); [done..|].
  intros p c' rest Heq _. destruct rest as [|d rest]; [|by apply (Hp p c' (d :: rest))].
  cbn. by rewrite <-Heq.
Qed.

(** * Which nodes the calls change: a call on a path without links touches the node
    the path names, and making a directory only adds directories *)
(** Every prefix that is there is no link. *)
Definition solid (fs : FileSys) (q : list string) : Prop :=
  ∀ p c rest, q = p ++ c :: rest → is_sym (fs !! (p ++ [c])) = false.

Definition prefix_of (p q : list string) : Prop := ∃ rest, q = p ++ rest.

(** Nothing changes except where [P] says. *)
Definition touches (P : list string → Prop) (fs fs' : FileSys) : Prop := ∀ p, ¬ P p → fs' !! p = fs !! p.

(** Directories are added where there was nothing. *)
Definition adds_dirs (P : list string → Prop) (fs fs' : FileSys) : Prop :=
  ∀ p, fs' !! p = fs !! p ∨ P p ∧ fs !! p = None ∧ is_dir (fs' !! p) = true.

Lemma touches_refl P fs : touches P fs fs.
Proof. by intros p _. Qed.
Lemma touches_trans P fs1 fs2 fs3 : touches P fs1 fs2 → touches P fs2 fs3 → touches P fs1 fs3.
Proof. intros H1 H2 p Hp. by rewrite H2, H1. Qed.
Lemma touches_mono (P Q : list string → Prop) fs fs' : (∀ p, P p → Q p) → touches P fs fs' → touches Q fs fs'.
Proof. intros HPQ H p Hp. apply H. intros ?. by apply Hp, HPQ. Qed.

Lemma adds_dirs_refl P fs : adds_dirs P fs fs.
Proof. by left. Qed.
Lemma adds_dirs_trans P fs1 fs2 fs3 : adds_dirs P fs1 fs2 → adds_dirs P fs2 fs3 → adds_dirs P fs1 fs3.
Proof.
  intros H1 H2 p. destruct (H1 p) as [E1|(? & E1 & D1)], (H2 p) as [E2|(? & E2 & D2)].
  - left. by rewrite E2.
  - right. split_and!; [done|by rewrite <-E1|done].
  - right. split_and!; [done|done|by rewrite E2].
  - by rewrite E2 in D1.
Qed.
Lemma adds_dirs_mono (P Q : list string → Prop) fs fs' :
  (∀ p, P p → fs !! p = None → Q p) → adds_dirs P fs fs' → adds_dirs Q fs fs'.
Proof. intros HPQ H p. destruct (H p) as [?|(? & ? & ?)]; [by left|right; eauto]. Qed.

(** Added directories are no links. *)
Lemma adds_dirs_solid P fs fs' q : adds_dirs P fs fs' → solid fs q → solid fs' q.
Proof.
  intros Ha Hs p c rest Hq. destruct (Ha (p ++ [c])) as [->|(_ & _ & Hd)]; [by apply (Hs p c rest)|].
  by destruct (fs' !! (p ++ [c])) as [[]|].
Qed.

Lemma solid_prefix fs p q : solid fs q → prefix_of p q → solid fs p.
Proof. intros Hs [rest ->] a c r ->. apply (Hs a c (r ++ rest)). by rewrite <-app_assoc. Qed.

Lemma solid_plain fs q : solid fs (removelast q) → plain fs q.
Proof.
  intros Hs p c rest -> Hr. destruct (exists_last Hr) as (rest' & x & ->).
  apply (Hs p c rest'). rewrite removelast_app by done. f_equal.
  change (c :: rest' ++ [x]) with ((c :: rest') ++ [x]). by rewrite removelast_last.
Qed.

Lemma node_some fs q : q ≠ [] → node fs q = fs !! q.
Proof. by destruct q. Qed.

Lemma solid_self fs q : solid fs q → is_sym (node fs q) = false.
Proof.
  intros Hs. destruct (decide (q = [])) as [->|Hne]; [done|]. rewrite node_some by done.
  destruct (exists_last Hne) as (p & x & ->). by apply (Hs p x []).
Qed.

Lemma solid_snoc fs p c : solid fs p → is_sym (fs !! (p ++ [c])) = false → solid fs (p ++ [c]).
Proof.
  intros Hs Hc a d rest Heq. destruct (decide (rest = [])) as [->|Hr].
  - apply app_inj_tail in Heq as [<- <-]. done.
  - destruct (exists_last Hr) as (r & x & ->). apply (Hs a d r).
    change (a ++ d :: r ++ [x]) with (a ++ (d :: r) ++ [x]) in Heq. rewrite app_assoc in Heq.
    by apply app_inj_tail in Heq as [-> _].
Qed.

Lemma resolve_here fs q : Forall normal q → solid fs (removelast q) → resolve fs false (path_of q) = Some q.
Proof. intros. apply resolve_plain; [done|by apply solid_plain]. Qed.

Lemma removelast_is_prefix (q : list string) : prefix_of (removelast q) q.
Proof. destruct q as [|c q]; [by exists []|]. exists [List.last (c :: q) ""]. by apply app_removelast_last. Qed.

Lemma resolve_there fs q : Forall normal q → solid fs q → resolve fs true (path_of q) = Some q.
Proof.
  intros Hq Hs. apply resolve_follow; [done| |by apply solid_self].
  apply solid_plain. eapply solid_prefix; [exact Hs|apply removelast_is_prefix].
Qed.

(** * Making directories *)
Definition made {A} (P : list string → Prop) (m : FSM A) : Prop := ∀ fs, adds_dirs P fs (m fs).1.

Lemma made_bind {A B : Type} (P : list string → Prop) (m : FSM A) (f : A → FSM B) : made P m → (∀ a, made P (f a)) → made P (m ≫= f).
Proof.
  intros Hm Hf fs. specialize (Hm fs). run_st. destruct (m fs) as [fs1 [a|e]]; cbn in *; [|done].
  eapply adds_dirs_trans; [exact Hm|]. apply Hf.
Qed.

Lemma made_try {A : Type} (P : list string → Prop) (m : FSM A) : made P m → made P (try m).
Proof. intros Hm fs. specialize (Hm fs). unfold try. by destruct (m fs). Qed.

(** Looking changes nothing. *)
Lemma stat_reads follow path : leaves id (stat follow path).
Proof. unfold stat. leaves_tac. Qed.
Lemma Stat_reads path : leaves id (Stat path).
Proof. unfold Stat. apply leaves_bind; [apply stat_reads|]. intros. apply leaves_ret. Qed.
Lemma Lstat_reads path : leaves id (Lstat path).
Proof. unfold Lstat. apply leaves_bind; [apply stat_reads|]. intros. apply leaves_ret. Qed.
Lemma EvalSymlinks_reads path : leaves id (EvalSymlinks path).
Proof. unfold EvalSymlinks. apply leaves_bind; [apply stat_reads|]. intros. apply leaves_ret. Qed.
Lemma free_name_reads path : leaves id (free_name path).
Proof. unfold free_name. leaves_tac. Qed.

Lemma free_name_run path fs fs' q :
  free_name path fs = (fs', Ok q) → fs' = fs ∧ resolve fs false path = Some q ∧ node fs q = None.
Proof.
  unfold free_name. run_st. destruct (resolve fs false path) as [q'|]; [|done].
  destruct (node fs q') eqn:Hn; [done|]. destruct (is_dir _); [|done]. by intros [= <- <-].
Qed.

Lemma Mkdir_run umask path mode fs fs' r :
  Mkdir umask path mode fs = (fs', r) →
  fs' = fs ∧ (∃ e, r = Err e) ∨
  ∃ q m, resolve fs false path = Some q ∧ node fs q = None ∧ fs' = <[q := FDir m]> fs ∧ r = Ok ().
Proof.
  unfold Mkdir, put_node. run_st. pose proof (free_name_reads path fs) as Hr. unfold id in Hr.
  destruct (free_name path fs) as [fs1 [q|e]] eqn:Hf; cbn in Hr; subst fs1.
  - intros [= <- <-]. right. apply free_name_run in Hf as (_ & ? & ?). eauto 6.
  - intros [= <- <-]. left. eauto.
Qed.

Lemma put_adds P fs q m : P q → node fs q = None → adds_dirs P fs (<[q := FDir m]> fs).
Proof.
  intros HP Hn p. destruct (decide (p = q)) as [->|Hne]; [|left; by rewrite lookup_insert_ne].
  right. rewrite lookup_insert_eq. split_and!; [done| |done]. by destruct q.
Qed.

Lemma made_mkdir_one umask path mode (P : list string → Prop) :
  (∀ fs q, resolve fs false path = Some q → node fs q = None → P q) → made P (mkdir_one umask path mode).
Proof.
  intros HP fs. unfold mkdir_one. run_st. pose proof (Stat_reads path fs) as Hs. unfold id in Hs.
  destruct (Stat path fs) as [fs1 r]; cbn in Hs; subst fs1. destruct r as [n|e]; [by destruct n; apply adds_dirs_refl|].
  destruct (Mkdir umask path mode fs) as [fs2 r2] eqn:Hm. apply Mkdir_run in Hm as [[-> [e' ->]]|(q & m & Hq & Hn & -> & ->)].
  - pose proof (Lstat_reads path fs) as Hl. unfold id in Hl. destruct (Lstat path fs) as [fs3 r3]; cbn in Hl; subst fs3.
    destruct r3 as [[]|]; apply adds_dirs_refl.
  - cbn. apply put_adds; [by eapply HP|done].
Qed.

(** Wherever the path leads, making it adds directories only. *)
Lemma made_MkdirAll umask path mode : made (λ _, True) (MkdirAll umask path mode).
Proof.
  unfold MkdirAll. generalize (clean_comps path) ([] : list string). intros todo. induction todo as [|c todo IH]; intros cur.
  - intros fs. apply adds_dirs_refl.
  - cbn. apply made_bind; [by apply made_mkdir_one|]. intros _. apply IH.
Qed.

(** ** Along a path without links *)
Definition dirs_to (fs : FileSys) (q : list string) : Prop := ∀ p, prefix_of p q → is_dir (node fs p) = true.

Lemma dirs_solid fs q : dirs_to fs q → solid fs q.
Proof.
  intros Hd p c rest ->. specialize (Hd (p ++ [c])). rewrite node_some in Hd by (by destruct p).
  assert (is_dir (fs !! (p ++ [c])) = true) as H by (apply Hd; exists rest; by rewrite <-app_assoc).
  by destruct (fs !! (p ++ [c])) as [[]|].
Qed.

Lemma dirs_snoc fs p c : dirs_to fs p → is_dir (node fs (p ++ [c])) = true → dirs_to fs (p ++ [c]).
Proof.
  intros Hd Hc a [rest Heq]. destruct (decide (rest = [])) as [->|Hr]; [by rewrite app_nil_r in Heq; subst a|].
  destruct (exists_last Hr) as (r & x & ->). rewrite app_assoc in Heq. apply app_inj_tail in Heq as [Heq _].
  apply Hd. by exists r.
Qed.

Lemma adds_dirs_node P fs fs' p : adds_dirs P fs fs' → is_dir (node fs p) = true → is_dir (node fs' p) = true.
Proof.
  intros Ha Hd. destruct (decide (p = [])) as [->|Hne]; [done|]. rewrite !node_some in * by done.
  destruct (Ha p) as [->|(_ & _ & ?)]; done.
Qed.

Lemma adds_dirs_dirs P fs fs' q : adds_dirs P fs fs' → dirs_to fs q → dirs_to fs' q.
Proof. intros Ha Hd p Hp. eapply adds_dirs_node; [exact Ha|by apply Hd]. Qed.

Lemma stat_there fs q : Forall normal q → solid fs q →
  stat true (path_of q) fs = (fs, match node fs q with Some n => Ok (q, n) | None => Err (missing fs q) end).
Proof. intros Hq Hs. unfold stat. run_st. rewrite resolve_there by done. by destruct (node fs q). Qed.

Lemma stat_here fs q : Forall normal q → solid fs (removelast q) →
  stat false (path_of q) fs = (fs, match node fs q with Some n => Ok (q, n) | None => Err (missing fs q) end).
Proof. intros Hq Hs. unfold stat. run_st. rewrite resolve_here by done. by destruct (node fs q). Qed.

Lemma Stat_there fs q : Forall normal q → solid fs q →
  Stat (path_of q) fs = (fs, match node fs q with Some n => Ok n | None => Err (missing fs q) end).
Proof. intros Hq Hs. unfold Stat. run_st. rewrite stat_there by done. by destruct (node fs q). Qed.

Lemma EvalSymlinks_run path fs :
  EvalSymlinks path fs
  = (fs, match resolve fs true path with
         | None => Err ELOOP
         | Some q => match node fs q with Some _ => Ok (path_of q) | None => Err (missing fs q) end
         end).
Proof. unfold EvalSymlinks, stat. run_st. destruct (resolve fs true path) as [q|]; [|done]. by destruct (node fs q). Qed.

Lemma mkdir_one_solid umask q mode fs fs' r :
  Forall normal q → solid fs q → mkdir_one umask (path_of q) mode fs = (fs', r) →
  adds_dirs (λ p, p = q ∧ p ≠ []) fs fs' ∧ (r = Ok () → is_dir (node fs' q) = true).
Proof.
  intros Hq Hs. unfold mkdir_one, Stat. run_st. rewrite stat_there by done.
  destruct (node fs q) as [[]|] eqn:Hn; cbn.
  - intros [= <- <-]. split; [apply adds_dirs_refl|]. by rewrite Hn.
  - intros [= <- <-]. split; [apply adds_dirs_refl|done].
  - intros [= <- <-]. split; [apply adds_dirs_refl|done].
  - assert (solid fs (removelast q)) as Hs' by (eapply solid_prefix; [exact Hs|apply removelast_is_prefix]).
    destruct (Mkdir umask (path_of q) mode fs) as [fs1 r1] eqn:Hm.
    apply Mkdir_run in Hm as [[-> [e ->]]|(q' & m & Hq' & Hn' & -> & ->)].
    + pose proof (Lstat_reads (path_of q) fs) as Hl. unfold id in Hl. unfold Lstat. run_st. rewrite stat_here, Hn by done.
      intros [= <- <-]. split; [apply adds_dirs_refl|done].
    + rewrite resolve_here in Hq' by done. injection Hq' as <-. intros [= <- <-].
      split; [apply put_adds; [split; [done|by intros ->]|done]|]. intros _. destruct q; [done|]. cbn. by rewrite lookup_insert_eq.
Qed.

Lemma mkdirs_solid umask mode todo : ∀ cur fs fs' r,
  Forall normal (cur ++ todo) → solid fs (cur ++ todo) → dirs_to fs cur →
  mkdirs umask cur todo mode fs = (fs', r) →
  adds_dirs (λ p, prefix_of p (cur ++ todo) ∧ p ≠ []) fs fs' ∧ (r = Ok () → dirs_to fs' (cur ++ todo)).
Proof.
  induction todo as [|c todo IH]; intros cur fs fs' r Hn Hs Hd Hrun; cbn in Hrun.
  - injection Hrun as <- <-. rewrite app_nil_r. split; [apply adds_dirs_refl|done].
  - assert (cur ++ c :: todo = (cur ++ [c]) ++ todo) as Heq by (by rewrite <-app_assoc). rewrite Heq in *.
    assert (prefix_of (cur ++ [c]) ((cur ++ [c]) ++ todo)) as Hpre by (by eexists).
    revert Hrun. run_st. destruct (mkdir_one umask (path_of (cur ++ [c])) mode fs) as [fs1 r1] eqn:Hm.
    destruct (mkdir_one_solid _ _ _ _ _ _ (proj1 (proj1 (Forall_app _ _ _) Hn)) (solid_prefix _ _ _ Hs Hpre) Hm) as [Ha Hok].
    assert (adds_dirs (λ p, prefix_of p ((cur ++ [c]) ++ todo) ∧ p ≠ []) fs fs1) as Ha1.
    { eapply adds_dirs_mono; [|exact Ha]. by intros p [-> ?] _. }
    destruct r1 as [[]|e].
    + intros Hrun. destruct (IH (cur ++ [c]) fs1 fs' r) as [Ha2 Hok2]; [done| | |done|].
      * by eapply adds_dirs_solid.
      * apply dirs_snoc; [by eapply adds_dirs_dirs|by apply Hok].
      * split; [by eapply adds_dirs_trans|done].
    + intros [= <- <-]. split; [done|done].
Qed.

(** A path without links: only its own prefixes are made, and they are there
    when the call succeeds. *)
Lemma MkdirAll_solid umask q mode fs fs' r :
  Forall normal q → solid fs q → MkdirAll umask (path_of q) mode fs = (fs', r) →
  adds_dirs (λ p, prefix_of p q ∧ p ≠ []) fs fs' ∧ (r = Ok () → dirs_to fs' q).
Proof.
  intros Hq Hs. unfold MkdirAll. rewrite clean_comps_path_of by done.
  apply (mkdirs_solid umask mode q []); [done..|]. intros p [rest Hp]. symmetry in Hp.
  by apply app_nil in Hp as [-> _].
Qed.

(** ** What resolution gives *)
Lemma Forall_removelast {A} (P : A → Prop) l : Forall P l → Forall P (removelast l).
Proof.
  intros Hl. destruct (decide (l = [])) as [->|Hne]; [done|].
  destruct (exists_last Hne) as (l' & x & ->). rewrite removelast_last. by apply Forall_app in Hl as [? _].
Qed.

Lemma namei_solid links fs : ∀ cur todo q,
  Forall normal cur → Forall (λ c, all_chars no_slash c = true) todo → solid fs cur →
  namei links fs true cur todo = Some q → Forall normal q ∧ solid fs q.
Proof.
  induction links as [|links IHl]; intros cur todo; revert cur; induction todo as [|c todo IH];
    intros cur q Hc Ht Hs Hn; cbn in Hn; try (injection Hn as <-; done);
    apply Forall_cons in Ht as [Hcs Ht].
  all: destruct (bool_decide (c = "") || bool_decide (c = ".")) eqn:Hskip; [by apply (IH cur)|].
  all: apply orb_false_iff in Hskip as [He%bool_decide_eq_false Hd%bool_decide_eq_false].
  all: case_bool_decide as Hup;
    [apply (IH (removelast cur)); [by apply Forall_removelast|done|
       eapply solid_prefix; [exact Hs|apply removelast_is_prefix]|done]|].
  all: assert (Forall normal (cur ++ [c])) as Hcc by (apply Forall_app; split; [done|by repeat constructor]).
  all: destruct (fs !! (cur ++ [c])) as [[m|bs m t|t]|] eqn:Hlk;
    try (apply (IH (cur ++ [c])); [done|done|apply solid_snoc; [done|by rewrite Hlk]|done]).
  all: rewrite andb_false_r in Hn; try done.
  apply (IHl _ _ _) in Hn; [done| | |].
  - by destruct (IsAbs t).
  - apply Forall_app. split; [apply Split_no_slash|done].
  - destruct (IsAbs t); [|done]. intros p x rest Hp. by destruct p.
Qed.

Lemma resolve_solid fs path q : resolve fs true path = Some q → Forall normal q ∧ solid fs q.
Proof.
  intros Hr. eapply namei_solid; [| | |exact Hr]; [done|apply Split_no_slash|].
  intros p x rest Hp. by destruct p.
Qed.
