(* ===== verification/FileJobs.v ===== *)
(** File backups in the database ([model/file_backup.go],
    [store/file_backup.go]): jobs, runs, and the document of a run
    ([filebackup/engine.go]).

    The state also holds the storages, each as a backend of the interface
    [Repo]; which of the next statements and connections fail is a list. *)

From S2P Require Import Prelude StateM GoTime GoStr Model Format Repo Codec Writer Paths.

(** ** Jobs and runs *)
Record FileBackupJob := mkFileJob {
  fj_ID : string;
  fj_Name : string;
  fj_Enabled : bool;
  fj_RootID : string;
  fj_IncludePaths : list string;
  fj_ExcludeGlobs : list string;
  fj_StorageTargetIDs : list string;
  fj_StorageMode : StorageMode;
  fj_Incremental : bool;
  fj_Encrypt : bool;
  fj_Schedule : string;
  fj_Retention : RetentionPolicy;
  fj_CreatedAt : Z;
  fj_UpdatedAt : Z
}.

Record FileBackupRun := mkFileRun {
  fr_ID : string;
  fr_JobID : string;
  fr_RootID : string;
  fr_StorageTargetID : string;
  fr_ParentRunID : string;
  fr_Status : RunStatus;
  fr_ManifestKey : string;
  fr_FileCount : Z;
  fr_DirectoryCount : Z;
  fr_LogicalBytes : Z;
  fr_StoredBytes : Z;
  fr_UnstablePaths : list string;
  fr_Error : string;
  fr_StartedAt : option Z;
  fr_EndedAt : option Z;
  fr_CreatedAt : Z
}.

(** Assignments to the fields. *)
Definition fr_set_progress (parent key : string) (files dirs logical stored : Z) (unstable : list string)
    (r : FileBackupRun) : FileBackupRun :=
  mkFileRun (fr_ID r) (fr_JobID r) (fr_RootID r) (fr_StorageTargetID r) parent (fr_Status r) key files dirs
    logical stored unstable (fr_Error r) (fr_StartedAt r) (fr_EndedAt r) (fr_CreatedAt r).
Definition fr_set_status (status : RunStatus) (error : string) (started ended : option Z) (r : FileBackupRun) :
    FileBackupRun :=
  mkFileRun (fr_ID r) (fr_JobID r) (fr_RootID r) (fr_StorageTargetID r) (fr_ParentRunID r) status
    (fr_ManifestKey r) (fr_FileCount r) (fr_DirectoryCount r) (fr_LogicalBytes r) (fr_StoredBytes r)
    (fr_UnstablePaths r) error started ended (fr_CreatedAt r).
Definition fr_set_parent (parent : string) (r : FileBackupRun) : FileBackupRun :=
  fr_set_progress parent (fr_ManifestKey r) (fr_FileCount r) (fr_DirectoryCount r) (fr_LogicalBytes r)
    (fr_StoredBytes r) (fr_UnstablePaths r) r.
Definition fr_set_key (key : string) (r : FileBackupRun) : FileBackupRun :=
  fr_set_progress (fr_ParentRunID r) key (fr_FileCount r) (fr_DirectoryCount r) (fr_LogicalBytes r)
    (fr_StoredBytes r) (fr_UnstablePaths r) r.
Definition fr_add_stored (n : Z) (r : FileBackupRun) : FileBackupRun :=
  fr_set_progress (fr_ParentRunID r) (fr_ManifestKey r) (fr_FileCount r) (fr_DirectoryCount r)
    (fr_LogicalBytes r) (i64 (fr_StoredBytes r + n)) (fr_UnstablePaths r) r.
Definition fr_add_file (size : Z) (r : FileBackupRun) : FileBackupRun :=
  fr_set_progress (fr_ParentRunID r) (fr_ManifestKey r) (fr_FileCount r + 1) (fr_DirectoryCount r)
    (i64 (fr_LogicalBytes r + size)) (fr_StoredBytes r) (fr_UnstablePaths r) r.
Definition fr_add_directory (r : FileBackupRun) : FileBackupRun :=
  fr_set_progress (fr_ParentRunID r) (fr_ManifestKey r) (fr_FileCount r) (fr_DirectoryCount r + 1)
    (fr_LogicalBytes r) (fr_StoredBytes r) (fr_UnstablePaths r) r.
Definition fr_add_unstable (rel : string) (r : FileBackupRun) : FileBackupRun :=
  fr_set_progress (fr_ParentRunID r) (fr_ManifestKey r) (fr_FileCount r) (fr_DirectoryCount r)
    (fr_LogicalBytes r) (fr_StoredBytes r) (fr_UnstablePaths r ++ [rel]) r.

(** ** The document of a run *)
Definition FilesFormat : string := "jhvirt-files".
Definition FilesManifestVersion : Z := 1.

Inductive EntryType := EntryFile | EntryDirectory | EntrySymlink | EntryHardlink | EntryOther (name : string).

#[export] Instance EntryType_eq_dec : EqDecision EntryType.
Proof. solve_decision. Defined.

Record Entry := mkEntry {
  en_Path : string;
  en_Type : EntryType;
  en_Size : Z;
  en_Mode : Z;
  en_UID : Z;
  en_GID : Z;
  en_ModTime : Z;
  en_LinkTarget : string;
  en_Data : option DiskManifest
}.

Record Manifest := mkManifest {
  mf_Format : string;
  mf_Version : Z;
  mf_RunID : string;
  mf_ParentRunID : string;
  mf_RootID : string;
  mf_CreatedAt : Z;
  mf_Entries : list Entry
}.

(** [EncodeManifest] and [DecodeManifest] of [backup/format.go]: JSON, compressed. *)
Class FileDocuments := {
  EncodeManifest : Manifest → option bytes;
  DecodeManifest : bytes → option Manifest
}.

Class FileDocumentLaws `{FileDocuments} : Prop := {
  decode_encode_manifest m body : EncodeManifest m = Some body → DecodeManifest body = Some m
}.

(** ** Validation *)
Inductive FileJobError :=
| FileJobNoName | FileJobNoRoot | FileJobNoTarget | FileJobBadMode
| FileJobBadInclude (path : string) (e : PathError) | FileJobBadGlob (glob : string)
| FileJobBadGlobPath (glob : string) (e : PathError) | FileJobBadRetention (e : RetentionError).

(** [strings.ReplaceAll(glob, "**", "placeholder")]. *)
Fixpoint replace_stars (s : string) : string :=
  match s with
  | String "*"%char (String "*"%char s) => "placeholder" +:+ replace_stars s
  | String c s => String c (replace_stars s)
  | EmptyString => EmptyString
  end.

Fixpoint each_include (paths : list string) : result FileJobError () :=
  match paths with
  | [] => Ok ()
  | p :: paths => map_err (FileJobBadInclude p) (validateRelativeFilePath p) ;; each_include paths
  end.

Fixpoint each_glob (globs : list string) : result FileJobError () :=
  match globs with
  | [] => Ok ()
  | g :: globs =>
    fail_if (bool_decide (TrimSpace g = "") || IsAbs g) (FileJobBadGlob g) ;;
    map_err (FileJobBadGlobPath g) (validateRelativeFilePath (replace_stars g)) ;;
    each_glob globs
  end.

Definition FileBackupJob_Validate (j : FileBackupJob) : result FileJobError () :=
  fail_if (bool_decide (TrimSpace (fj_Name j) = "")) FileJobNoName ;;
  fail_if (bool_decide (TrimSpace (fj_RootID j) = "")) FileJobNoRoot ;;
  fail_if (bool_decide (fj_StorageTargetIDs j = [])) FileJobNoTarget ;;
  fail_if (match fj_StorageMode j with
           | StorageModeOther _ => true
           | _ => false end) FileJobBadMode ;;
  each_include (fj_IncludePaths j) ;;
  each_glob (fj_ExcludeGlobs j) ;;
  map_err FileJobBadRetention (RetentionPolicy_Validate (fj_Retention j)).

(** ** The tables *)
Inductive FileError :=
| FileDB | FileNotFound | FileRepo (e : RepoError) | FileConnect (target : string)
| FileNoTarget | FileRootUnknown (root : string) | FileSourceDisabled (target : string)
| FileSourceNotDirs (target : string) | FileNoKey | FileSameStorage
| FileTargetDisabled (target : string) | FileTargetReadOnly (target : string)
| FilePath (e : PathError) | FileRead (path : string) | FileWrite (e : WriterError) | FileCodec (e : CodecError)
| FileEmptySource (includes : list string)
| FileEncode | FileNoManifest | FileDecode (key : string) | FileFormat (format : string) (version : Z)
| FileRequired (run child : string) | FileRetentionHangs.

Section Tables.
Context {B : Type}.

Record FileStore := mkFileStore {
  ft_faults : list bool;
  ft_jobs : gmap string FileBackupJob;
  ft_runs : list FileBackupRun;
  ft_targets : gmap string StorageTarget;
  (** What each storage that can be reached holds. *)
  ft_repos : gmap string B
}.

Definition with_ft_faults (fs : list bool) (s : FileStore) : FileStore :=
  mkFileStore fs (ft_jobs s) (ft_runs s) (ft_targets s) (ft_repos s).
Definition with_ft_jobs (js : gmap string FileBackupJob) (s : FileStore) : FileStore :=
  mkFileStore (ft_faults s) js (ft_runs s) (ft_targets s) (ft_repos s).
Definition with_ft_runs (rs : list FileBackupRun) (s : FileStore) : FileStore :=
  mkFileStore (ft_faults s) (ft_jobs s) rs (ft_targets s) (ft_repos s).
Definition with_ft_repos (bs : gmap string B) (s : FileStore) : FileStore :=
  mkFileStore (ft_faults s) (ft_jobs s) (ft_runs s) (ft_targets s) bs.

Definition FM (A : Type) : Type := ST FileStore FileError A.

(** One statement or connection, which may fail. *)
Definition file_attempt (e : FileError) : FM () := λ s,
  match ft_faults s with
  | true :: fs => (with_ft_faults fs s, Err e)
  | false :: fs => (with_ft_faults fs s, Ok ())
  | [] => (s, Ok ())
  end.

Definition file_query : FM () := file_attempt FileDB.

(** *** Jobs *)
Definition CreateFileBackupJob (now : Z) (fresh : string) (j : FileBackupJob) : FM FileBackupJob :=
  let j := mkFileJob (if bool_decide (fj_ID j = "") then fresh else fj_ID j) (fj_Name j) (fj_Enabled j)
    (fj_RootID j) (fj_IncludePaths j) (fj_ExcludeGlobs j) (fj_StorageTargetIDs j) (fj_StorageMode j)
    (fj_Incremental j) (fj_Encrypt j) (fj_Schedule j) (fj_Retention j) now now in
  file_query ;; s ← get ;
  match ft_jobs s !! fj_ID j with
  | Some _ => fail FileDB
  | None => modify (with_ft_jobs (<[fj_ID j := j]> (ft_jobs s))) ;; mret j
  end.

(** A row that is not there is not noticed. *)
Definition UpdateFileBackupJob (now : Z) (j : FileBackupJob) : FM () :=
  file_query ;; s ← get ;
  modify (with_ft_jobs (alter (λ row, mkFileJob (fj_ID row) (fj_Name j) (fj_Enabled j) (fj_RootID j)
    (fj_IncludePaths j) (fj_ExcludeGlobs j) (fj_StorageTargetIDs j) (fj_StorageMode j) (fj_Incremental j)
    (fj_Encrypt j) (fj_Schedule j) (fj_Retention j) (fj_CreatedAt row) now) (fj_ID j) (ft_jobs s))).

(** The runs of the job go with it. *)
Definition DeleteFileBackupJob (id : string) : FM () :=
  file_query ;; s ← get ;
  modify (with_ft_jobs (delete id (ft_jobs s))) ;; s ← get ;
  modify (with_ft_runs (List.filter (λ r, negb (bool_decide (fr_JobID r = id))) (ft_runs s))).

Definition GetFileBackupJob (id : string) : FM FileBackupJob :=
  file_query ;; s ← get ; lift (of_option FileNotFound (ft_jobs s !! id)).

Definition ListFileBackupJobs : FM (list FileBackupJob) :=
  file_query ;; s ← get ;
  mret (sort_stable (λ a b, String.ltb (fj_Name a) (fj_Name b)) (map_to_list (ft_jobs s)).*2).

(** *** Storages *)
Definition GetFileTarget (id : string) : FM StorageTarget :=
  file_query ;; s ← get ; lift (of_option FileNotFound (ft_targets s !! id)).

(** [repo.Open]. *)
Definition open_repo (id : string) : FM B :=
  file_attempt (FileConnect id) ;; s ← get ; lift (of_option (FileConnect id) (ft_repos s !! id)).

Definition save_repo (id : string) (b : B) : FM () :=
  s ← get ; modify (with_ft_repos (<[id := b]> (ft_repos s))).

(** *** Runs *)
Definition has_run_id (id : string) (r : FileBackupRun) : bool := bool_decide (fr_ID r = id).

(** The time is set by the callers. *)
Definition CreateFileBackupRun (fresh : string) (r : FileBackupRun) : FM FileBackupRun :=
  let r := mkFileRun (if bool_decide (fr_ID r = "") then fresh else fr_ID r) (fr_JobID r) (fr_RootID r)
    (fr_StorageTargetID r) (fr_ParentRunID r) (fr_Status r) (fr_ManifestKey r) (fr_FileCount r)
    (fr_DirectoryCount r) (fr_LogicalBytes r) (fr_StoredBytes r) (fr_UnstablePaths r) (fr_Error r)
    (fr_StartedAt r) (fr_EndedAt r) (fr_CreatedAt r) in
  file_query ;; s ← get ;
  if bool_decide (is_Some (ft_jobs s !! fr_JobID r)) && bool_decide (is_Some (ft_targets s !! fr_StorageTargetID r))
     && negb (existsb (has_run_id (fr_ID r)) (ft_runs s))
  then modify (with_ft_runs (ft_runs s ++ [r])) ;; mret r else fail FileDB.

(** The columns of the statement; a row that is not there is not noticed. *)
Definition file_run_columns (r row : FileBackupRun) : FileBackupRun :=
  mkFileRun (fr_ID row) (fr_JobID row) (fr_RootID row) (fr_StorageTargetID row) (fr_ParentRunID r)
    (fr_Status r) (fr_ManifestKey r) (fr_FileCount r) (fr_DirectoryCount r) (fr_LogicalBytes r)
    (fr_StoredBytes r) (fr_UnstablePaths r) (fr_Error r) (fr_StartedAt r) (fr_EndedAt r) (fr_CreatedAt row).

Definition UpdateFileBackupRun (r : FileBackupRun) : FM () :=
  file_query ;; s ← get ;
  modify (with_ft_runs ((λ row, if has_run_id (fr_ID r) row then file_run_columns r row else row) <$> ft_runs s)).

Definition GetFileBackupRun (id : string) : FM FileBackupRun :=
  file_query ;; s ← get ; lift (of_option FileNotFound (List.find (has_run_id id) (ft_runs s))).

Definition newer_run (a b : FileBackupRun) : bool := fr_CreatedAt b <? fr_CreatedAt a.

Definition of_job (jobID : string) (r : FileBackupRun) : bool :=
  bool_decide (jobID = "") || bool_decide (fr_JobID r = jobID).

Definition ListFileBackupRuns (jobID : string) (limit : Z) : FM (list FileBackupRun) :=
  file_query ;; s ← get ;
  let rs := sort_stable newer_run (List.filter (of_job jobID) (ft_runs s)) in
  mret (if 0 <? limit then take (Z.to_nat limit) rs else rs).

(** A point to restore from. *)
Definition good_status (st : RunStatus) : bool :=
  match st with RunSucceeded | RunPartial => true | _ => false end.

Definition LatestSuccessfulFileBackupRun (jobID targetID : string) : FM FileBackupRun :=
  file_query ;; s ← get ;
  lift (of_option FileNotFound (head (sort_stable newer_run (List.filter (λ r,
    bool_decide (fr_JobID r = jobID) && bool_decide (fr_StorageTargetID r = targetID)
    && good_status (fr_Status r)) (ft_runs s))))).

Definition active_status (st : RunStatus) : bool :=
  match st with RunPending | RunRunning | RunWaitingCopies => true | _ => false end.

Definition HasActiveFileBackupRun (jobID : string) : FM bool :=
  file_query ;; s ← get ;
  mret (existsb (λ r, bool_decide (fr_JobID r = jobID) && active_status (fr_Status r)) (ft_runs s)).

Definition DeleteFileBackupRun (id : string) : FM () :=
  file_query ;; s ← get ;
  if existsb (has_run_id id) (ft_runs s)
  then modify (with_ft_runs (List.filter (λ r, negb (has_run_id id r)) (ft_runs s))) else fail FileNotFound.
End Tables.
Arguments FileStore B : clear implicits.
Arguments FM B A : clear implicits.

(** ** Roots of jobs ([filebackup/storage_source.go], [config/config.go]) *)
Definition storageRootPrefix : string := "storage:".

Definition StorageRootID (targetID : string) : string := storageRootPrefix +:+ targetID.

(** The storage a root id points to. *)
Definition StorageRootTarget (rootID : string) : option string :=
  if String.prefix storageRootPrefix rootID then
    let id := TrimPrefix rootID storageRootPrefix in if bool_decide (id = "") then None else Some id
  else None.

Record FileBackupRoot := mkFileRoot { ro_ID : string; ro_Path : string; ro_RestoreRoots : list string }.

(** [cfg.FileBackup.Root]: the zero value when there is none. *)
Definition FileBackupConfig_Root (roots : list FileBackupRoot) (id : string) : FileBackupRoot * bool :=
  match List.find (λ r, bool_decide (ro_ID r = id)) roots with
  | Some r => (r, true)
  | None => (mkFileRoot "" "" [], false)
  end.

(** [None] is nil; so is an empty list of a root that is configured so. *)
Definition RestoreRoots (roots : list FileBackupRoot) (rootID : string) : list string :=
  match StorageRootTarget rootID with
  | Some _ => match roots with r :: _ => ro_RestoreRoots r | [] => [] end
  | None => let '(r, ok) := FileBackupConfig_Root roots rootID in if ok then ro_RestoreRoots r else []
  end.

Definition ListsDirs (kind : StorageKind) : bool :=
  match kind with StorageSMB | StorageSFTP | StorageLocal => true | _ => false end.

(** ** The document in a storage *)
Definition readManifest {B} `{Backend B, FileDocuments} (b : B) (key : string) : result FileError Manifest :=
  fail_if (bool_decide (key = "")) FileNoManifest ;;
  body ← map_err FileRepo (Get b key);
  m ← of_option (FileDecode key) (DecodeManifest body);
  fail_if (negb (bool_decide (mf_Format m = FilesFormat)) || (FilesManifestVersion <? mf_Version m))
    (FileFormat (mf_Format m) (mf_Version m)) ;;
  Ok m.

(** A later entry with the same path wins. *)
Definition entriesByPath (entries : list Entry) : gmap string Entry := fold_insert en_Path id entries ∅.

Definition hasContent (entries : list Entry) : bool :=
  existsb (λ e, negb (bool_decide (en_Type e = EntryDirectory))) entries.
