(* ===== verification/FileStored.v ===== *)
(** The content of one file in a file backup ([filebackup/engine.go]): a stream
    written into one data object by the disk writer ([storeReader], [storeFile],
    [storeStableFile]) and read back by a chain of one link ([restoreFile]'s
    temporary file).

    What a read of a changing file delivers is an argument of each attempt. *)

From S2P Require Import Prelude GoTime GoStr Model Grid Format Repo Codec Writer Reader Restore.
From S2P Require Import BackupRestore FileJobs.

(** The upload of one object: the nonces, when the uploader gives up, and what a
    [Put] of a key that fails leaves. *)
Record Upload (B : Type) := mkUpload {
  up_nonce : Z → bytes;
  up_stops : option (Z * result RepoError Z);
  up_partial : string → B → B
}.
Arguments mkUpload {B}.
Arguments up_nonce {B}.
Arguments up_stops {B}.
Arguments up_partial {B}.

(** A stream: its bytes, and whether it breaks off after them. *)
Record Reading (B : Type) := mkReading { rd_data : bytes; rd_broken : bool; rd_upload : Upload B }.
Arguments mkReading {B}.
Arguments rd_data {B}.
Arguments rd_broken {B}.
Arguments rd_upload {B}.

(** What [sameVersion] compares: size and time. *)
Abbreviation Version := (Z * Z)%type.

Definition sameVersion (left right : Version) : bool := (left.1 =? right.1) && (left.2 =? right.2).

(** The observations of one file: its first read, the version after it, the
    version before and after the second read. An open or a [Stat] that fails is
    [None]. *)
Record Observed (B : Type) := mkObserved {
  ob_first : option (Z * Reading B);
  ob_after : option Version;
  ob_again : option Version;
  ob_second : option (Z * Reading B);
  ob_last : option Version
}.
Arguments mkObserved {B}.
Arguments ob_first {B}.
Arguments ob_after {B}.
Arguments ob_again {B}.
Arguments ob_second {B}.
Arguments ob_last {B}.

(** The blocks [io.ReadFull] fills: [size] is the length of the buffer. *)
Fixpoint read_blocks (fuel size : nat) (i : Z) (data : bytes) : list (Z * bytes) :=
  match fuel, data with
  | S fuel, _ :: _ => (i, take size data) :: read_blocks fuel size (i + 1) (drop size data)
  | _, _ => []
  end.

(** The backup section of the configuration, and the service's key. *)
Record StreamConfig (C : Type) := mkStreamConfig {
  sc_ChunkSize : Z;
  sc_Compression : string;
  sc_Level : Z;
  sc_Cipher : option C
}.
Arguments mkStreamConfig {C}.
Arguments sc_ChunkSize {C}.
Arguments sc_Compression {C}.
Arguments sc_Level {C}.
Arguments sc_Cipher {C}.

Definition set_VirtualSize (n : Z) (m : DiskManifest) : DiskManifest :=
  {| dm_Format := dm_Format m; dm_Version := dm_Version m; dm_RunID := dm_RunID m; dm_Type := dm_Type m;
     dm_DiskID := dm_DiskID m; dm_VirtualSize := n; dm_ChunkSize := dm_ChunkSize m;
     dm_Compression := dm_Compression m; dm_Encrypted := dm_Encrypted m; dm_DataKey := dm_DataKey m;
     dm_DataSHA256 := dm_DataSHA256 m; dm_LogicalBytes := dm_LogicalBytes m;
     dm_StoredBytes := dm_StoredBytes m; dm_Chunks := dm_Chunks m |}.

Section Stored.
Context {B C : Type} `{!Backend B} `{!AEAD C} `{!Compressor}.
Variable sha256hex : bytes → string.
Variable iter : gmap Z nat → list (Z * nat).
Context (cfg : StreamConfig C).

(** * Writing *)
Definition buffer_size : Z := Z.max (Z.shiftl 64 10) (sc_ChunkSize cfg).

(** [mkDiskWriter] with the size that was read. *)
Definition resize (n : Z) (w : DiskWriter (C := C)) : DiskWriter :=
  mkDiskWriter (set_VirtualSize n (dw_manifest w)) (dw_codec w) (dw_pipe w) (dw_uploader w) (dw_blobHash w)
    (dw_blobOffset w) (dw_closed w).

Definition stop_at (up : Upload B) (i : Z) (w : DiskWriter (C := C)) : DiskWriter :=
  match up_stops up with
  | Some (k, res) => if k =? i then uploader_stops w res else w
  | None => w
  end.

(** The writer a failed chunk is aborted with comes with the error. *)
Fixpoint write_blocks (up : Upload B) (w : DiskWriter) (blocks : list (Z * bytes)) :
    result (DiskWriter * WriterError) DiskWriter :=
  match blocks with
  | [] => Ok w
  | (i, plain) :: blocks =>
    let w := stop_at up i w in
    match WriteChunk sha256hex w (up_nonce up i) i plain with
    | Err e => Err (w, e)
    | Ok w => write_blocks up w blocks
    end
  end.

Definition data_key (prefix : string) (index : Z) : string := prefix +:+ "file-" +:+ pad 6 index +:+ ".data".

Definition stream_manifest (runID name : string) (size : Z) : DiskManifest :=
  {| dm_Format := ""; dm_Version := 0; dm_RunID := runID; dm_Type := BackupFull; dm_DiskID := name;
     dm_VirtualSize := size; dm_ChunkSize := 0; dm_Compression := ""; dm_Encrypted := false; dm_DataKey := "";
     dm_DataSHA256 := ""; dm_LogicalBytes := 0; dm_StoredBytes := 0; dm_Chunks := [] |}.

Definition stream_options (key : string) (encrypt : bool) : WriterOptions (C := C) :=
  mkWriterOptions key (sc_ChunkSize cfg) (sc_Compression cfg) (sc_Level cfg)
    (if encrypt then sc_Cipher cfg else None).

(** The repository afterwards, with the manifest and the bytes read. *)
Definition storeReader (b : B) (prefix runID name : string) (index : Z) (encrypt : bool) (f : Reading B)
    (size : Z) : B * result FileError (DiskManifest * Z) :=
  match NewDiskWriter (stream_manifest runID name size) (stream_options (data_key prefix index) encrypt) with
  | Err e => (b, Err (FileCodec e))
  | Ok w =>
    let data := rd_data f in
    match write_blocks (rd_upload f) w (read_blocks (length data) (Z.to_nat buffer_size) 0 data) with
    | Err (w, e) => ((Abort (up_partial (rd_upload f) (data_key prefix index) b) b w).1, Err (FileWrite e))
    | Ok w =>
      if rd_broken f then ((Abort (up_partial (rd_upload f) (data_key prefix index) b) b w).1, Err (FileRead name)) else
      let total := Z.of_nat (length data) in
      let '(b, _, res) := Close sha256hex b (resize total w) in
      (b, match res with Ok m => Ok (m, total) | Err e => Err (FileWrite e) end)
    end
  end.

Definition storeFile (b : B) (prefix runID path : string) (index : Z) (encrypt : bool)
    (f : option (Z * Reading B)) : B * result FileError DiskManifest :=
  match f with
  | None => (b, Err (FileRead path))
  | Some (size, f) =>
    let '(b, res) := storeReader b prefix runID path index encrypt f size in (b, fst <$> res)
  end.

(** [_ = backend.Delete(...)]. *)
Definition drop_object (b : B) (key : string) : B :=
  match Delete b key with Ok b' => b' | Err _ => b end.

(** Also whether the path is unstable. *)
Definition storeStableFile (b : B) (prefix runID path : string) (index : Z) (before : Version) (encrypt : bool)
    (o : Observed B) : B * result FileError (DiskManifest * bool) :=
  let '(b, res) := storeFile b prefix runID path index encrypt (ob_first o) in
  match res with
  | Err e => (b, Err e)
  | Ok m =>
    if match ob_after o with Some after => sameVersion before after | None => false end then (b, Ok (m, false)) else
    let b := drop_object b (dm_DataKey m) in
    match ob_again o with
    | None => (b, Err (FileRead path))
    | Some again =>
      let '(b, res) := storeFile b prefix runID path index encrypt (ob_second o) in
      (b, (λ m, (m, negb match ob_last o with Some l => sameVersion again l | None => false end)) <$> res)
    end
  end.

(** * Reading back *)

(** [Truncate]: zeros are added or the end is cut. *)
Definition truncate (n : Z) (s : bytes) : bytes := take (Z.to_nat n) s ++ zeros (Z.to_nat n - length s).

(** [WriteAt] on a file: a gap before it reads as zeros. *)
Definition write_file (off : Z) (data s : bytes) : bytes :=
  take (Z.to_nat off) s ++ zeros (Z.to_nat off - length s) ++ data ++ drop (Z.to_nat off + length data) s.

Definition file_sink (s : bytes) (call : SinkCall) : result Empty_set bytes :=
  match call with
  | SinkData offset data => Ok (write_file offset data s)
  | SinkZero offset n => Ok (truncate (offset + n) s)
  end.

Inductive ImageError := ImageOpen (e : ReaderError) | ImageStream (e : StreamError Empty_set).

Definition open_image (b : B) (m : DiskManifest) : result ImageError (ChainReader B C) :=
  map_err ImageOpen (NewChainReader iter b (sc_Cipher cfg) [m]).

(** The temporary file before its rename. *)
Definition fill_image (r : ChainReader B C) (size : Z) : result ImageError bytes :=
  '(_, s) ← map_err ImageStream (stream sha256hex file_sink (λ _, false) r []);
  Ok (truncate size s).

Definition file_image (b : B) (m : DiskManifest) (size : Z) : result ImageError bytes :=
  r ← open_image b m;
  fill_image r size.

(** * What is stored *)
Lemma read_blocks_lookup size k : (0 < size)%nat → ∀ fuel i data,
  (length data ≤ fuel)%nat →
  read_blocks fuel size i data !! k
  = if decide (k * size < length data)%nat then Some (i + Z.of_nat k, take size (drop (k * size) data)) else None.
Proof using.
  intros Hs. induction k as [|k IH]; intros fuel i data Hf.
  - destruct fuel as [|fuel], data as [|x data]; cbn [read_blocks length] in *;
      try (rewrite decide_False by (cbn; lia); done).
    rewrite decide_True by (cbn; lia). cbn. by rewrite Z.add_0_r.
  - destruct fuel as [|fuel], data as [|x data]; cbn [read_blocks length] in *;
      try (rewrite decide_False by (cbn; lia); done).
    cbn [lookup list_lookup]. fold (@lookup nat _ _ (@list_lookup (Z * bytes))).
    rewrite IH by (rewrite length_drop; cbn; lia).
    rewrite length_drop, drop_drop. cbn [length].
    replace (S k * size)%nat with (size + k * size)%nat by lia.
    destruct (decide (k * size < S (length data) - size)%nat).
    + rewrite decide_True by lia. do 2 f_equal. lia.
    + by rewrite decide_False by lia.
Qed.

Lemma read_blocks_plain fuel size : ∀ i data, (0 < size)%nat →
  (length data ≤ fuel)%nat → plain_bytes (read_blocks fuel size i data) = Z.of_nat (length data).
Proof using.
  induction fuel as [|fuel IH]; intros i data Hs Hf; destruct data as [|x data]; cbn [read_blocks length] in *;
    [done|lia|done|].
  unfold plain_bytes in *. cbn [foldr]. rewrite IH by (try done; rewrite length_drop; cbn; lia).
  cbn [snd]. rewrite length_take, length_drop. cbn [length]. lia.
Qed.

Lemma read_blocks_length fuel size i data : (0 < size)%nat → (length data ≤ fuel)%nat →
  (length (read_blocks fuel size i data) ≤ length data)%nat.
Proof using.
  intros Hs Hf. destruct (decide (length (read_blocks fuel size i data) ≤ length data)%nat) as [|Hn]; [done|].
  destruct (lookup_lt_is_Some_2 (read_blocks fuel size i data) (length data)) as [x Hx]; [lia|].
  rewrite read_blocks_lookup, decide_False in Hx by (done || nia). done.
Qed.

(** The blocks are the cells of the image the stream is. *)
Lemma read_blocks_cells size data : (0 < size)%nat → GridSizes (Z.of_nat size) (Z.of_nat (length data)) →
  read_blocks (length data) size 0 data
  = (λ i, (i, cell (Z.of_nat size) data i)) <$> seqZ 0 (grid_cells (Z.of_nat size) (Z.of_nat (length data))).
Proof using.
  intros Hs GS. apply list_eq. intros k. rewrite read_blocks_lookup, list_lookup_fmap by done.
  pose proof (grid_cells_spec (GS := GS) (Z.of_nat k)) as Hg.
  destruct (decide (k * size < length data)%nat) as [Hk|Hk].
  - assert (Z.of_nat k < grid_cells (Z.of_nat size) (Z.of_nat (length data))) as Hlt by (apply Hg; lia).
    rewrite lookup_seqZ_lt by lia. cbn [fmap option_fmap option_map]. rewrite !Z.add_0_l. do 2 f_equal.
    assert (0 ≤ Z.of_nat k < grid_cells (Z.of_nat size) (Z.of_nat (length data))) as Hin by lia.
    destruct (cell_bounds _ data _ Hin) as (_ & _ & _ & _ & _ & Hlen).
    destruct (ChunkLength_in _ Hin) as [Hcl _].
    unfold cell, slice. replace (Z.to_nat (Z.of_nat k * Z.of_nat size)) with (k * size)%nat by lia.
    rewrite Hcl. destruct (decide (length data - k * size ≤ size)%nat).
    + rewrite !take_ge; [done|..]; rewrite length_drop; lia.
    + f_equal. lia.
  - rewrite lookup_seqZ_ge; [done|]. destruct (decide (grid_cells (Z.of_nat size) (Z.of_nat (length data)) ≤ Z.of_nat k)); [lia|].
    exfalso. apply Hk. assert (Z.of_nat k * Z.of_nat size < Z.of_nat (length data)) by (apply Hg; lia). lia.
Qed.

(** A writer that has not failed went through the blocks as a list of cells. *)
Lemma write_blocks_ok up blocks : ∀ w w',
  write_blocks up w blocks = Ok w' → dw_uploader w = UploaderReading → Forall (λ x, x.2 ≠ []) blocks →
  write_cells sha256hex w ((λ x, (up_nonce up x.1, x.1, x.2)) <$> blocks) = Ok w'.
Proof using.
  induction blocks as [|[i plain] blocks IH]; intros w w' Hok Hup Hne; [cbn in Hok |- *; by injection Hok as ->|].
  apply Forall_cons in Hne as [Hp Hne]. cbn in Hok |- *.
  assert (dw_uploader (stop_at up i w) = UploaderReading → stop_at up i w = w) as Hst.
  { unfold stop_at. destruct (up_stops up) as [[k res]|]; [|done]. destruct (k =? i); [|done].
    unfold uploader_stops. by rewrite Hup. }
  destruct (WriteChunk sha256hex (stop_at up i w) (up_nonce up i) i plain) as [w1|e] eqn:Hw; [|done].
  assert (dw_uploader (stop_at up i w) = UploaderReading) as Hr.
  { unfold WriteChunk in Hw. destruct (dw_closed (stop_at up i w)); [done|].
    destruct (Nat.eqb_spec (length plain) 0) as [E|_]; [by destruct plain|].
    apply result_bind_ok in Hw as (? & _ & Hw). apply result_bind_ok in Hw as ([? ?] & _ & Hw).
    by destruct (dw_uploader (stop_at up i w)). }
  rewrite Hst in Hw by done. rewrite Hw. cbn. apply IH; [done| |done].
  eapply WriteChunk_uploader; [exact Hw|]. by rewrite <-(Hst Hr).
Qed.

Lemma write_blocks_key up blocks : ∀ w,
  dm_DataKey (dw_manifest (match write_blocks up w blocks with Ok w' => w' | Err (w', _) => w' end))
  = dm_DataKey (dw_manifest w).
Proof using.
  induction blocks as [|[i plain] blocks IH]; intros w; cbn; [done|].
  assert (dw_manifest (stop_at up i w) = dw_manifest w) as Hm.
  { unfold stop_at. destruct (up_stops up) as [[k res]|]; [|done]. destruct (k =? i); [|done].
    unfold uploader_stops. by destruct (dw_uploader w). }
  destruct (WriteChunk sha256hex (stop_at up i w) (up_nonce up i) i plain) as [w1|e] eqn:Hw; [|by rewrite Hm].
  rewrite IH, <-Hm. unfold WriteChunk in Hw. destruct (dw_closed (stop_at up i w)); [done|].
  destruct (Nat.eqb (length plain) 0); [by simplify_eq|].
  apply result_bind_ok in Hw as (? & _ & Hw). apply result_bind_ok in Hw as ([? ?] & _ & Hw).
  destruct (dw_uploader (stop_at up i w)); by simplify_eq/=.
Qed.

Context `{!BackendLaws B}.

(** What an upload keeps to: its nonces have the cipher's length, and a [Put] that
    fails leaves the other objects alone. *)
Record tame (encrypt : bool) (key : string) (f : Reading B) : Prop := {
  tm_nonce : ∀ c i, writer_codec (stream_options key encrypt) = Ok c → nonce_ok c (up_nonce (rd_upload f) i);
  tm_partial : ∀ b key', key' ≠ key → Get (up_partial (rd_upload f) key b) key' = Get b key'
}.

(** The sizes stay inside the format's integers. *)
Record fits (data : bytes) : Prop := {
  ft_chunk : Z.shiftl 64 10 ≤ sc_ChunkSize cfg;
  ft_grid : Z.of_nat (length data) + sc_ChunkSize cfg < 2 ^ 63;
  ft_room : ∀ key encrypt c, writer_codec (stream_options key encrypt) = Ok c →
    sc_ChunkSize cfg + codec_overhead c < 2 ^ 31
    ∧ Z.of_nat (length data) + Z.of_nat (length data) * codec_overhead c < 2 ^ 63
}.

(** A data object whose manifest reads back as these bytes. *)
Definition holds_file (b : B) (m : DiskManifest) (data : bytes) : Prop :=
  GridSizes (sc_ChunkSize cfg) (Z.of_nat (length data)) ∧
  ∃ cells, chain_link sha256hex (sc_ChunkSize cfg) (Z.of_nat (length data)) (sc_Cipher cfg) b m cells
    ∧ ∀ i, 0 ≤ i < grid_cells (sc_ChunkSize cfg) (Z.of_nat (length data)) →
        lookup_cell cells i = Some (cell (sc_ChunkSize cfg) data i).

Lemma blocks_fit encrypt key f c :
  tame encrypt key f → fits (rd_data f) → writer_codec (stream_options key encrypt) = Ok c →
  job_fits c ((λ x, (up_nonce (rd_upload f) x.1, x.1, x.2))
    <$> read_blocks (length (rd_data f)) (Z.to_nat buffer_size) 0 (rd_data f)).
Proof using.
  intros [Hn _] [Hcs Hg Hr] Hc. destruct (Hr _ _ _ Hc) as [Hr1 Hr2]. pose proof (codec_overhead_nonneg c).
  assert (buffer_size = sc_ChunkSize cfg) as Hb by (by apply Z.max_r). rewrite Hb.
  set (cs := sc_ChunkSize cfg) in *. assert (0 < cs) by (change (Z.shiftl 64 10) with 65536 in Hcs; lia).
  split.
  - apply Forall_fmap, Forall_lookup. intros k [i plain] Hk. cbn.
    rewrite read_blocks_lookup in Hk by lia. case_decide as Hd; [|done]. injection Hk as <- <-.
    split; [|by apply Hn]. split.
    + intros He. apply (f_equal length) in He. rewrite length_take, length_drop in He. cbn in He. lia.
    + rewrite length_take, length_drop. lia.
  - rewrite length_fmap, <-list_fmap_compose.
    erewrite (list_fmap_ext _ id) by (by intros ? [? ?]). rewrite list_fmap_id, read_blocks_plain by lia.
    pose proof (read_blocks_length (length (rd_data f)) (Z.to_nat cs) 0 (rd_data f)). nia.
Qed.

Lemma resize_written n w cells : written sha256hex w cells → written sha256hex (resize n w) cells.
Proof using. intros []. by split. Qed.

Lemma storeReader_ok b prefix runID name index encrypt f size b' m n :
  tame encrypt (data_key prefix index) f → fits (rd_data f) →
  storeReader b prefix runID name index encrypt f size = (b', Ok (m, n)) →
  n = Z.of_nat (length (rd_data f)) ∧ rd_broken f = false ∧ holds_file b' m (rd_data f)
  ∧ dm_DataKey m = data_key prefix index ∧ ∀ key, key ≠ data_key prefix index → Get b' key = Get b key.
Proof using BackendLaws0.
  intros Ht Hf Hok. unfold storeReader in Hok.
  destruct (NewDiskWriter _ _) as [w0|] eqn:Hnew; [|done].
  set (key := data_key prefix index) in *. set (opts := stream_options key encrypt) in *.
  pose proof (NewDiskWriter_written sha256hex (stream_manifest runID name size) opts w0 eq_refl eq_refl Hnew) as Hw0.
  destruct (writer_codec opts) as [c|e] eqn:Hc;
    [|unfold NewDiskWriter in Hnew; unfold writer_codec in Hc; rewrite Hc in Hnew; done].
  assert (dw_codec w0 = c ∧ dw_uploader w0 = UploaderReading ∧ dw_manifest w0
    = open_manifest (stream_manifest runID name size) (if sc_ChunkSize cfg <=? 0 then DefaultChunkSize else sc_ChunkSize cfg)
        (if bool_decide (sc_Compression cfg = "") then CompressionNone else sc_Compression cfg) key
        (bool_decide (is_Some (wo_Cipher opts)))) as (Hcd & Hup & Hm0).
  { unfold NewDiskWriter in Hnew. unfold writer_codec in Hc. rewrite Hc in Hnew. by simplify_eq/=. }
  pose proof (blocks_fit _ _ _ _ Ht Hf Hc) as Hjob.
  set (data := rd_data f) in *. set (blocks := read_blocks _ _ 0 data) in *.
  destruct (write_blocks (rd_upload f) w0 blocks) as [w|[w e]] eqn:Hwb; [|done].
  destruct (rd_broken f); [done|].
  destruct Hf as [Hcs Hgrid Hroom]. destruct (Hroom _ _ _ Hc) as [Hr1 Hr2].
  assert (0 < sc_ChunkSize cfg) as Hpos by (change (Z.shiftl 64 10) with 65536 in Hcs; lia).
  assert (GridSizes (sc_ChunkSize cfg) (Z.of_nat (length data))) as GS by (split; lia).
  assert (buffer_size = sc_ChunkSize cfg) as Hb by (by apply Z.max_r).
  assert (Forall (λ x, x.2 ≠ []) blocks) as Hne.
  { destruct Hjob as [Hall _]. apply Forall_fmap in Hall. eapply Forall_impl; [exact Hall|]. by intros x [[? _] _]. }
  pose proof (write_blocks_ok _ _ _ _ Hwb Hup Hne) as Hcells.
  assert (cells_of ((λ x, (up_nonce (rd_upload f) x.1, x.1, x.2)) <$> blocks) = blocks) as Hco.
  { unfold cells_of. rewrite <-list_fmap_compose.
    erewrite (list_fmap_ext _ id) by (by intros ? [? ?]). by rewrite list_fmap_id. }
  set (job := (λ x, (up_nonce (rd_upload f) x.1, x.1, x.2)) <$> blocks) in *.
  destruct Hjob as [Hall Hj]. change ((λ x, (x.1.2, x.2)) <$> job) with (cells_of job) in Hj.
  assert (length job = length blocks) as Hlen by apply length_fmap. rewrite Hco, Hlen in Hj.
  destruct (write_cells_written sha256hex job w0 [] w Hw0) as (Hw & Hcd' & Hs);
    [by rewrite Hcd|by rewrite Hcd, Hco|done|].
  cbn in Hw. rewrite Hco in Hw.
  assert (dw_uploader w = UploaderReading) as Hup' by (eapply write_cells_uploader; [exact Hcells|done]).
  destruct (Close sha256hex b (resize (Z.of_nat (length data)) w)) as [[b1 w1] res] eqn:Hcl.
  destruct res as [m1|e]; [|done]. injection Hok as -> -> <-.
  destruct (Close_stored sha256hex b (resize (Z.of_nat (length data)) w) blocks b' w1 m (resize_written _ _ _ Hw) Hup') as (Hst & Hsd & Hfr); [|done|].
  { cbn. by rewrite Hcd', Hcd. }
  cbn in Hst. rewrite Hcd', Hcd in Hst.
  destruct Hs as (?&?&?&?&?&?&?&?&?&Hk), Hsd as (?&?&?&?&?&?&?&?&?&Hk2).
  rewrite Hm0 in *. cbn [dw_manifest resize set_VirtualSize open_manifest stream_manifest dm_Format dm_Version
    dm_RunID dm_Type dm_DiskID dm_VirtualSize dm_ChunkSize dm_Compression dm_Encrypted dm_DataKey] in *.
  assert ((sc_ChunkSize cfg <=? 0) = false) as Hle by lia. rewrite Hle in *.
  split_and!; [done|done| | |rewrite <-Hk; exact Hfr].
  2: { by rewrite Hk2, Hk. }
  split; [exact GS|]. exists blocks. split.
  - eapply written_link; [done|lia|exact Hc| |exact Hst|by etrans|by etrans|by etrans|done| |by etrans].
    + cbn. destruct encrypt; [by right|by left].
    + etrans; [eassumption|]. etrans; [eassumption|]. apply newCodec_ok in Hc as [-> _]. done.
  - intros i Hi. assert (Z.of_nat (Z.to_nat (sc_ChunkSize cfg)) = sc_ChunkSize cfg) as Hz by lia.
    subst blocks. rewrite Hb, read_blocks_cells by (rewrite ?Hz; lia || done). rewrite Hz.
    apply lookup_cell_some.
    + rewrite <-list_fmap_compose. erewrite (list_fmap_ext _ id) by done. rewrite list_fmap_id. apply NoDup_seqZ.
    + apply list_elem_of_fmap. exists i. split; [done|]. apply elem_of_seqZ. lia.
Qed.

(** ** Other objects *)
Definition same_but (key : string) (b b' : B) : Prop := ∀ key', key' ≠ key → Get b' key' = Get b key'.

#[local] Instance same_but_refl key : Reflexive (same_but key).
Proof using. by intros b key' _. Qed.
#[local] Instance same_but_trans key : Transitive (same_but key).
Proof using. intros b1 b2 b3 H1 H2 key' Hk. by rewrite H2, H1. Qed.

Lemma drop_object_same b key : same_but key b (drop_object b key).
Proof using BackendLaws0.
  intros key' Hk. unfold drop_object. destruct (Delete b key) as [b'|e] eqn:Hd; [|done].
  by apply (delete_removes _ _ _ Hd).
Qed.

Lemma Abort_same key partial b (w : DiskWriter (C := C)) :
  dm_DataKey (dw_manifest w) = key → same_but key b partial → same_but key b (Abort partial b w).1.
Proof using BackendLaws0.
  intros Hk Hp. unfold Abort. destruct (dw_closed w); [done|]. cbn [fst]. rewrite Hk.
  fold (drop_object (match dw_uploader w with UploaderReading => partial | _ => b end) key).
  etrans; [|apply drop_object_same]. by destruct (dw_uploader w).
Qed.

Lemma Close_same b (w : DiskWriter (C := C)) :
  same_but (dm_DataKey (dw_manifest w)) b (Close sha256hex b w).1.1.
Proof using BackendLaws0.
  unfold Close. destruct (dw_closed w); [done|]. destruct (dw_uploader w) as [|[n|e]]; cbn; [|done..].
  destruct (Put b (dm_DataKey (dw_manifest w)) (dw_pipe w)) as [[n b']|e] eqn:Hput; cbn; [|done].
  intros key' Hk. by apply (put_stores _ _ _ _ _ Hput).
Qed.

Lemma storeReader_same b prefix runID name index encrypt f size :
  tame encrypt (data_key prefix index) f →
  same_but (data_key prefix index) b (storeReader b prefix runID name index encrypt f size).1.
Proof using BackendLaws0.
  intros [_ Hp]. unfold storeReader. destruct (NewDiskWriter _ _) as [w|] eqn:Hnew; [|done].
  assert (dm_DataKey (dw_manifest w) = data_key prefix index) as Hk.
  { unfold NewDiskWriter in Hnew. apply result_bind_ok in Hnew as (? & _ & [= <-]). done. }
  pose proof (write_blocks_key (rd_upload f)
    (read_blocks (length (rd_data f)) (Z.to_nat buffer_size) 0 (rd_data f)) w) as Hkey.
  destruct (write_blocks _ _ _) as [w1|[w1 e]].
  - destruct (rd_broken f); [apply Abort_same; [congruence|by intros ? ?; apply Hp]|].
    pose proof (Close_same b (resize (Z.of_nat (length (rd_data f))) w1)) as Hc.
    destruct (Close _ _ _) as [[b1 w2] res]. cbn in Hc |- *. by rewrite Hkey, Hk in Hc.
  - apply Abort_same; [congruence|by intros ? ?; apply Hp].
Qed.

Lemma storeFile_key b prefix runID path index encrypt f b' m :
  storeFile b prefix runID path index encrypt f = (b', Ok m) → dm_DataKey m = data_key prefix index.
Proof using.
  unfold storeFile, storeReader. intros Hok. destruct f as [[n f]|]; [|done].
  destruct (NewDiskWriter _ _) as [w|] eqn:Hnew; [|done].
  assert (dm_DataKey (dw_manifest w) = data_key prefix index) as <-.
  { unfold NewDiskWriter in Hnew. apply result_bind_ok in Hnew as (? & _ & [= <-]). done. }
  rewrite <-(write_blocks_key (rd_upload f) (read_blocks (length (rd_data f)) (Z.to_nat buffer_size) 0 (rd_data f)) w).
  destruct (write_blocks _ _ _) as [w1|[w1 e]]; [|done]. destruct (rd_broken f); [done|].
  unfold Close in Hok. cbn in Hok. destruct (dw_closed w1); [by simplify_eq/=|].
  destruct (dw_uploader w1) as [|[k|e]]; cbn in Hok; [|by destruct (k =? dw_blobOffset w1); simplify_eq/=|done].
  destruct (Put _ _ _) as [[k b2]|e]; cbn in Hok; [|done]. by destruct (k =? dw_blobOffset w1); simplify_eq/=.
Qed.

(** *** The two reads of a file *)
Definition both_tame (encrypt : bool) (key : string) (o : Observed B) : Prop :=
  (∀ n f, ob_first o = Some (n, f) → tame encrypt key f) ∧ (∀ n f, ob_second o = Some (n, f) → tame encrypt key f).

Definition both_fit (o : Observed B) : Prop :=
  (∀ n f, ob_first o = Some (n, f) → fits (rd_data f)) ∧ (∀ n f, ob_second o = Some (n, f) → fits (rd_data f)).

Lemma storeFile_same b prefix runID path index encrypt f :
  (∀ n r, f = Some (n, r) → tame encrypt (data_key prefix index) r) →
  same_but (data_key prefix index) b (storeFile b prefix runID path index encrypt f).1.
Proof using BackendLaws0.
  intros Ht. unfold storeFile. destruct f as [[n r]|]; [|done].
  pose proof (storeReader_same b prefix runID path index encrypt r n (Ht _ _ eq_refl)) as Hs.
  by destruct (storeReader _ _ _ _ _ _ _ _).
Qed.

Lemma storeFile_ok b prefix runID path index encrypt f b' m :
  (∀ n r, f = Some (n, r) → tame encrypt (data_key prefix index) r) → (∀ n r, f = Some (n, r) → fits (rd_data r)) →
  storeFile b prefix runID path index encrypt f = (b', Ok m) →
  ∃ n r, f = Some (n, r) ∧ rd_broken r = false ∧ holds_file b' m (rd_data r)
    ∧ dm_DataKey m = data_key prefix index.
Proof using BackendLaws0.
  intros Ht Hf Hok. unfold storeFile in Hok. destruct f as [[n r]|]; [|done].
  destruct (storeReader b prefix runID path index encrypt r n) as [b1 [[m1 n1]|e]] eqn:Hs; [|done].
  cbn in Hok. injection Hok as -> ->. exists n, r.
  destruct (storeReader_ok _ _ _ _ _ _ _ _ _ _ _ (Ht _ _ eq_refl) (Hf _ _ eq_refl) Hs) as (_ & ? & ? & ? & _). done.
Qed.

Lemma storeStableFile_same b prefix runID path index before encrypt o :
  both_tame encrypt (data_key prefix index) o →
  same_but (data_key prefix index) b (storeStableFile b prefix runID path index before encrypt o).1.
Proof using BackendLaws0.
  intros [H1 H2]. unfold storeStableFile. pose proof (storeFile_same b prefix runID path index encrypt _ H1) as Hs.
  destruct (storeFile b prefix runID path index encrypt (ob_first o)) as [b1 [m|e]] eqn:Hf1; [|done]. cbn in Hs.
  destruct (match ob_after o with Some after => _ | None => false end); [done|].
  assert (same_but (data_key prefix index) b (drop_object b1 (dm_DataKey m))) as Hd.
  { etrans; [exact Hs|]. rewrite (storeFile_key _ _ _ _ _ _ _ _ _ Hf1). apply drop_object_same. }
  destruct (ob_again o); [|done].
  pose proof (storeFile_same (drop_object b1 (dm_DataKey m)) prefix runID path index encrypt _ H2) as Hs2.
  destruct (storeFile (drop_object b1 (dm_DataKey m)) prefix runID path index encrypt (ob_second o)) as [b2 res]. cbn in *. by etrans.
Qed.

(** The version that was read in full, and whether it was found unchanged. *)
Lemma storeStableFile_ok b prefix runID path index before encrypt o b' m unstable :
  both_tame encrypt (data_key prefix index) o → both_fit o →
  storeStableFile b prefix runID path index before encrypt o = (b', Ok (m, unstable)) →
  dm_DataKey m = data_key prefix index ∧ ∃ n r, rd_broken r = false ∧ holds_file b' m (rd_data r)
    ∧ (ob_first o = Some (n, r) ∧ unstable = false ∧ (∃ v, ob_after o = Some v ∧ sameVersion before v = true)
       ∨ ob_second o = Some (n, r) ∧ ∃ v, ob_again o = Some v
         ∧ (unstable = false → ∃ l, ob_last o = Some l ∧ sameVersion v l = true)).
Proof using BackendLaws0.
  intros [H1 H2] [F1 F2] Hok. unfold storeStableFile in Hok.
  destruct (storeFile b prefix runID path index encrypt (ob_first o)) as [b1 [m1|e]] eqn:Hs1; [|done].
  destruct (match ob_after o with Some after => sameVersion before after | None => false end) eqn:Ha.
  - injection Hok as -> -> <-. destruct (storeFile_ok _ _ _ _ _ _ _ _ _ H1 F1 Hs1) as (n & r & ? & ? & ? & ?).
    split; [done|]. exists n, r. split_and!; [done..|]. left. split_and!; [done..|].
    destruct (ob_after o) as [v|]; [by exists v|done].
  - destruct (ob_again o) as [v|]; [|done].
    destruct (storeFile (drop_object b1 (dm_DataKey m1)) prefix runID path index encrypt (ob_second o)) as [b2 [m2|e]] eqn:Hs2; [|done].
    cbn in Hok. injection Hok as -> -> <-. destruct (storeFile_ok _ _ _ _ _ _ _ _ _ H2 F2 Hs2) as (n & r & ? & ? & ? & ?).
    split; [done|]. exists n, r. split_and!; [done..|]. right. split; [done|]. exists v. split; [done|].
    intros Hu. apply negb_false_iff in Hu. destruct (ob_last o) as [l|]; [by exists l|done].
Qed.

(** * What is read back *)
Hypothesis iter_perm : ∀ m, iter m ≡ₚ map_to_list m.

Lemma write_file_next data img off :
  0 ≤ off → off + Z.of_nat (length data) ≤ Z.of_nat (length img) → data = slice off (Z.of_nat (length data)) img →
  write_file off data (take (Z.to_nat off) img) = take (Z.to_nat (off + Z.of_nat (length data))) img.
Proof using.
  intros Ho Hin Hd. unfold write_file. rewrite take_take, Nat.min_id, length_take.
  replace (Z.to_nat off - Z.to_nat off `min` length img)%nat with 0%nat by lia. cbn [zeros replicate app].
  rewrite drop_ge by (rewrite length_take; lia). rewrite app_nil_r, (take_slice off _ img) by lia. by rewrite <-Hd.
Qed.

(** Every cell is stored, so the stream is all data and the file grows. *)
Lemma stream_file_cells cs img cells n : ∀ i r,
  GridSizes cs (Z.of_nat (length img)) →
  (∀ i, 0 ≤ i < grid_cells cs (Z.of_nat (length img)) → lookup_cell cells i = Some (cell cs img i)) →
  0 ≤ i → i + Z.of_nat n = grid_cells cs (Z.of_nat (length img)) →
  reads sha256hex r [cells] → r_chunkSize r = cs → r_virtualSize r = Z.of_nat (length img) →
  ∃ r', stream_cells sha256hex file_sink (λ _, false) (seqZ i (Z.of_nat n)) r (mkZeros (-1) 0)
          (take (Z.to_nat (cells_end cs img i)) img)
        = Ok (r', mkZeros (-1) 0, take (Z.to_nat (cells_end cs img (i + Z.of_nat n))) img).
Proof using All.
  induction n as [|n IH]; intros i r GS Hall Hi Hn Hr Hcs Hvs.
  - exists r. cbn. by rewrite Z.add_0_r.
  - assert (0 ≤ i < grid_cells cs (Z.of_nat (length img))) as Hin by lia.
    destruct (cell_bounds cs img i Hin) as (Hb & Hw & Hend & Hpos & Hnext & Hlen).
    rewrite seqZ_cons by lia. cbn [stream_cells]. unfold stream_cell. rewrite Hcs, Hw. cbn [fail_if mbind result_bind].
    destruct (ReadChunk_reads sha256hex iter iter_perm r _ i Hr) as (r1 & Hrd & Hr1 & Hsc).
    assert (newest [cells] i = Some (cell cs img i)) as Hnew.
    { unfold newest. cbn. by rewrite (Hall i Hin). }
    rewrite Hrd, Hnew. cbn. rewrite Hend, write_file_next.
    + rewrite Hlen, <-Hnext.
      replace (i + Z.of_nat (S n)) with (i + 1 + Z.of_nat n) by lia.
      replace (Z.pred (Z.of_nat (S n))) with (Z.of_nat n) by lia.
      destruct Hsc as [cache ->]. by apply IH; [done|done|lia|lia|done|done|done].
    + lia.
    + destruct (ChunkLength_in i Hin). lia.
    + unfold cell at 1. by rewrite Hlen.
Qed.

Lemma file_image_exact b m data size : holds_file b m data → file_image b m size = Ok (truncate size data).
Proof using All.
  intros [GS (cells & Hlink & Hall)]. unfold file_image, open_image, fill_image.
  destruct Hlink as [Hrd Hv Hg Hc Hs].
  destruct (NewChainReader_reads sha256hex iter iter_perm b (sc_Cipher cfg) (sc_ChunkSize cfg) [m] [cells])
    as (r & k & Hnew & _ & Hk & _ & _ & Hreads & Hcs & Hvs); [done| | |].
  { constructor; [done|constructor]. }
  { by constructor. }
  cbn in Hk. assert (k = 0%nat) as -> by lia. cbn in Hreads, Hvs.
  rewrite Hnew. cbn. unfold stream.
  assert (r_virtualSize r = Z.of_nat (length data)) as Hvs' by lia.
  pose proof (@grid_cells_nonneg _ _ GS) as Hgn.
  assert (r_GridChunks r = Z.of_nat (Z.to_nat (grid_cells (sc_ChunkSize cfg) (Z.of_nat (length data))))) as Hgrid.
  { unfold r_GridChunks. rewrite Hcs, Hvs', Z2Nat.id by done. destruct GS.
    destruct (Z.leb_spec (sc_ChunkSize cfg) 0); [lia|].
    rewrite (i64_id (_ + _)), i64_id, Z.quot_div_nonneg by (unfold is_i64; lia). done. }
  rewrite Hgrid.
  destruct (stream_file_cells (sc_ChunkSize cfg) data cells
    (Z.to_nat (grid_cells (sc_ChunkSize cfg) (Z.of_nat (length data)))) 0 r) as (r' & Hst); [done|done|lia|lia|done..|].
  assert (cells_end (sc_ChunkSize cfg) data 0 = 0) as H0 by (unfold cells_end; lia).
  rewrite H0 in Hst. change (take (Z.to_nat 0) data) with ([] : bytes) in Hst. rewrite Hst. cbn. do 2 f_equal.
  apply take_ge. unfold cells_end.
  set (g := grid_cells (sc_ChunkSize cfg) (Z.of_nat (length data))) in *.
  rewrite Z.add_0_l, Z2Nat.id by done.
  destruct (Z.le_gt_cases (Z.of_nat (length data)) (g * sc_ChunkSize cfg)); [lia|].
  assert (g < g) by (apply grid_cells_spec; lia). lia.
Qed.

Lemma truncate_exact data : truncate (Z.of_nat (length data)) data = data.
Proof using. unfold truncate. rewrite Nat2Z.id, Nat.sub_diag, firstn_all. apply app_nil_r. Qed.

Lemma holds_file_frame b b' m data :
  Get b' (dm_DataKey m) = Get b (dm_DataKey m) → holds_file b m data → holds_file b' m data.
Proof using.
  intros Hk [GS (cells & Hlink & Hall)]. split; [done|]. exists cells. split; [|done]. by eapply chain_link_frame.
Qed.
End Stored.
