(* ===== verification/FileRestore.v ===== *)
(** Restoring a point of a file backup into a directory
    ([Restore] of [filebackup/engine.go] and what it calls).

    The state is the database with the storages and the file system. Each entry
    is checked, written and counted in the order of the code; the context is
    asked before each one. *)

From S2P Require Import Prelude StateM GoStr Layout Model Format Repo Codec Writer Reader.
From S2P Require Import Paths FileSys FileJobs FileStored.

Inductive RestoreError :=
| RestoreDB (e : FileError) | RestoreSys (e : SysError) | RestorePath (e : PathError)
| NotRestorable (status : RunStatus) | RootNotConfigured (root : string) | RootIndexOutside (i : Z)
| RootNotAbsolute | RootNotDirectory | TargetEscapes | LinkOnPath (path : string)
| TargetExists (path : string) | DirectoryOccupied (path : string) | NoData (path : string)
| HardlinkUnavailable (path : string) | ImageFailed (e : ImageError) | RestoreCancelled.

Record RestoreRequest := mkRestoreRequest {
  rq_RunID : string;
  rq_RestoreRootIndex : Z;
  rq_Destination : string;
  rq_Paths : list string;
  rq_Overwrite : bool
}.

(** [rr_Warnings]: the paths restored as regular files. *)
Record RestoreResult := mkRestoreResult {
  rr_RunID : string;
  rr_Destination : string;
  rr_Paths : list string;
  rr_Restored : Z;
  rr_Warnings : list string
}.

Abbreviation RFS := (ST FileSys RestoreError).

Definition sys {A} (m : FSM A) : RFS A := λ fs, let '(fs, r) := m fs in (fs, map_err RestoreSys r).

(** [os.Lstat]: [None] is [os.ErrNotExist]. *)
Definition lstat_path (path : string) : RFS (option FNode) :=
  found ← try (sys (Lstat path)) ;
  match found with
  | Ok n => mret (Some n)
  | Err (RestoreSys ENOENT) => mret None
  | Err e => fail e
  end.

Definition Perm (mode : Z) : Z := Z.land mode 511.

(** ** Checks *)
Fixpoint no_link_parts (current : string) (parts : list string) : RFS () :=
  match parts with
  | [] => mret ()
  | part :: parts =>
    if bool_decide (part = ".") || bool_decide (part = "") then no_link_parts current parts else
    let current := Join2 current part in
    found ← lstat_path current ;
    match found with
    | Some (FSym _) => fail (LinkOnPath current)
    | _ => no_link_parts current parts
    end
  end.

Definition ensureNoSymlinkParents (root target : string) : RFS () :=
  match Rel root target with
  | None => fail TargetEscapes
  | Some rel =>
    if escapesRoot rel then fail TargetEscapes else no_link_parts root (Split slash (Clean rel))
  end.

Definition checkTarget (path : string) (overwrite : bool) : RFS () :=
  found ← lstat_path path ;
  match found with
  | None => mret ()
  | Some _ => if overwrite then mret () else fail (TargetExists path)
  end.

Definition prepareTarget (path : string) (overwrite : bool) : RFS () :=
  found ← lstat_path path ;
  match found with
  | None => mret ()
  | Some _ => if overwrite then sys (Remove path) else fail (TargetExists path)
  end.

(** ** Which entries, in which order *)
Definition wanted_path (requested : string) : string := Trim is_slash (Clean requested).

Definition selected_by (paths : list string) (e : Entry) : bool :=
  existsb (λ p, bool_decide (en_Path e = wanted_path p) || String.prefix (wanted_path p +:+ "/") (en_Path e)) paths.

Definition selectedEntries (entries : list Entry) (paths : list string) : list Entry :=
  if bool_decide (paths = []) then entries else List.filter (selected_by paths) entries.

Definition restoreOrder (kind : EntryType) : Z :=
  match kind with
  | EntryDirectory => 0 | EntryFile => 1 | EntrySymlink => 2 | EntryHardlink => 3 | EntryOther _ => 4
  end.

Definition restore_sorted (entries : list Entry) : list Entry :=
  sort_stable (λ a b, restoreOrder (en_Type a) <? restoreOrder (en_Type b)) entries.

Section Restore.
Context {B C : Type} `{!Backend B} `{!AEAD C} `{!Compressor} `{!FileDocuments}.
Variable sha256hex : bytes → string.
Variable iter : gmap Z nat → list (Z * nat).
Context (cfg : StreamConfig C) (roots : list FileBackupRoot) (umask now : Z).
(** Whether the context is cancelled when an entry begins. *)
Variable cancelled : nat → bool.

(** ** Directories *)
Definition ensureDirectory (path : string) (mode : Z) : RFS () :=
  found ← lstat_path path ;
  match found with
  | None => sys (MkdirAll umask path mode)
  | Some (FDir _) => mret ()
  | Some _ => fail (DirectoryOccupied path)
  end.

Definition canonicalDirectory (path : string) : RFS string :=
  resolved ← sys (EvalSymlinks (Clean path)) ;
  info ← sys (Stat resolved) ;
  match info with FDir _ => mret (Clean resolved) | _ => fail RootNotDirectory end.

Definition ensureCanonicalDirectory (path : string) : RFS string :=
  if negb (IsAbs path) then fail RootNotAbsolute else
  sys (MkdirAll umask path 488) ;; canonicalDirectory path.

(** ** Files and links *)
Definition restoreFile (b : B) (e : Entry) (path : string) (overwrite : bool) : RFS () :=
  match en_Data e with
  | None => fail (NoData (en_Path e))
  | Some m =>
    sys (MkdirAll umask (Dir path) 488) ;;
    checkTarget path overwrite ;;
    r ← lift (map_err ImageFailed (open_image iter cfg b m)) ;
    sys (CreateTemp (Dir path)) ;;
    content ← lift (map_err ImageFailed (fill_image sha256hex r (en_Size e))) ;
    (if overwrite then
       found ← lstat_path path ;
       match found with Some _ => sys (Remove path) | None => mret () end
     else mret ()) ;;
    sys (Rename (FFile content (Perm (en_Mode e)) now) path) ;;
    sys (Chtimes path (en_ModTime e))
  end.

Definition restoreSymlink (link path : string) (overwrite : bool) : RFS () :=
  sys (MkdirAll umask (Dir path) 488) ;; prepareTarget path overwrite ;; sys (Symlink link path).

(** A warning when the source of a hard link was not restored. *)
Definition restore_hardlink (b : B) (byPath : gmap string Entry) (destination : string) (e : Entry)
    (path : string) (overwrite : bool) : RFS (list string) :=
  source ← lift (map_err RestorePath (safeRestorePath destination (en_LinkTarget e))) ;
  found ← try (sys (Stat source)) ;
  match found with
  | Ok _ => prepareTarget path overwrite ;; sys (Link source path) ;; mret []
  | Err _ =>
    match byPath !! en_LinkTarget e with
    | Some s =>
      if bool_decide (en_Data s = None) then fail (HardlinkUnavailable (en_LinkTarget e))
      else restoreFile b s path overwrite ;; mret [en_Path e]
    | None => fail (HardlinkUnavailable (en_LinkTarget e))
    end
  end.

(** What is added to the count and to the warnings. *)
Definition restore_entry (b : B) (byPath : gmap string Entry) (destination : string) (overwrite : bool)
    (e : Entry) : RFS (Z * list string) :=
  path ← lift (map_err RestorePath (safeRestorePath destination (en_Path e))) ;
  ensureNoSymlinkParents destination (Dir path) ;;
  match en_Type e with
  | EntryDirectory => ensureDirectory path (Perm (en_Mode e)) ;; mret (1, [])
  | EntryFile => restoreFile b e path overwrite ;; mret (1, [])
  | EntrySymlink => restoreSymlink (en_LinkTarget e) path overwrite ;; mret (1, [])
  | EntryHardlink => ws ← restore_hardlink b byPath destination e path overwrite ; mret (1, ws)
  | EntryOther _ => mret (0, [])
  end.

Fixpoint restore_entries (b : B) (byPath : gmap string Entry) (destination : string) (overwrite : bool)
    (i : nat) (entries : list Entry) (restored : Z) (warnings : list string) : RFS (Z * list string) :=
  match entries with
  | [] => mret (restored, warnings)
  | e :: entries =>
    if cancelled i then fail RestoreCancelled else
    r ← restore_entry b byPath destination overwrite e ;
    restore_entries b byPath destination overwrite (S i) entries (restored + r.1) (warnings ++ r.2)
  end.

(** The directory the entries go to: the root is made and resolved, the
    destination below it must not pass a link before and after it is made. *)
Definition prepare_destination (root dest : string) : RFS string :=
  root ← ensureCanonicalDirectory root ;
  destination ← lift (map_err RestorePath (safeRestorePath root dest)) ;
  ensureNoSymlinkParents root destination ;;
  sys (MkdirAll umask destination 488) ;;
  ensureNoSymlinkParents root destination ;;
  mret destination.

(** ** The whole restore *)
Record RestoreWorld := mkWorld { rw_store : FileStore B; rw_fs : FileSys }.

Abbreviation RW := (ST RestoreWorld RestoreError).

Definition in_db {A} (m : FM B A) : RW A := λ w,
  let '(s, r) := m (rw_store w) in (mkWorld s (rw_fs w), map_err RestoreDB r).
Definition in_fs {A} (m : RFS A) : RW A := λ w,
  let '(fs, r) := m (rw_fs w) in (mkWorld (rw_store w) fs, r).

Definition Restore (req : RestoreRequest) : RW RestoreResult :=
  run ← in_db (GetFileBackupRun (rq_RunID req)) ;
  if negb (good_status (fr_Status run)) then fail (NotRestorable (fr_Status run)) else
  let restoreRoots := RestoreRoots roots (fr_RootID run) in
  if bool_decide (restoreRoots = []) then fail (RootNotConfigured (fr_RootID run)) else
  if rq_RestoreRootIndex req <? 0 then fail (RootIndexOutside (rq_RestoreRootIndex req)) else
  match restoreRoots !! Z.to_nat (rq_RestoreRootIndex req) with
  | None => fail (RootIndexOutside (rq_RestoreRootIndex req))
  | Some root =>
    destination ← in_fs (prepare_destination root (rq_Destination req)) ;
    target ← in_db (GetFileTarget (fr_StorageTargetID run)) ;
    b ← in_db (open_repo (tgt_ID target)) ;
    manifest ← lift (map_err RestoreDB (readManifest b (fr_ManifestKey run))) ;
    r ← in_fs (restore_entries b (entriesByPath (mf_Entries manifest)) destination (rq_Overwrite req) 0
                 (restore_sorted (selectedEntries (mf_Entries manifest) (rq_Paths req))) 0 []) ;
    mret (mkRestoreResult (fr_ID run) destination (rq_Paths req) r.1 r.2)
  end.
End Restore.
