(* ===== verification/FileConfined.v ===== *)
(** What a restore of a file backup may change: the node its entry names and
    new directories, all of them below the destination. *)

From S2P Require Import Prelude StateM GoStr Layout Model Format Repo Codec Writer Reader.
From S2P Require Import Paths FileSys FileJobs FileStored FileRestore.

(** ** More on paths *)
Lemma Dir_path_of q : Forall normal q → Dir (path_of q) = path_of (removelast q).
Proof.
  intros Hq. unfold Dir. rewrite Split_path_of. destruct (decide (q = [])) as [->|Hne]; [done|].
  rewrite Split_join by (done || by apply normal_no_slash).
  rewrite bool_decide_eq_false_2 by (by destruct q).
  assert (removelast ("" :: q) = "" :: removelast q) as -> by (by destruct q).
  destruct (decide (removelast q = [])) as [->|Hr]; [done|].
  change "/" with (String slash (join_slash [])).
  assert (join_slash ("" :: removelast q) = path_of (removelast q)) as ->.
  { unfold path_of. by destruct (removelast q). }
  rewrite Clean_path_of by (done || by apply Forall_removelast). by rewrite app_nil_r.
Qed.

Lemma normal_relative cs : Forall normal cs → IsAbs (join_slash cs) = false.
Proof.
  intros Hcs. destruct cs as [|c cs]; [done|]. apply Forall_cons in Hcs as [(He & _ & _ & Hs) _].
  destruct c as [|a c]; [done|]. cbn in Hs. apply andb_true_iff in Hs as [Ha _].
  assert (a ≠ slash) as Hne by (intros ->; done).
  assert (∃ t, join_slash (String a c :: cs) = String a t) as [t ->] by (destruct cs; cbn; eauto).
  unfold IsAbs. cbn. case_match; [by subst a|done].
Qed.

Lemma Clean_join cs : Forall normal cs → cs ≠ [] → Clean (join_slash cs) = join_slash cs.
Proof.
  intros Hcs Hne. unfold Clean, clean_comps. rewrite normal_relative by done.
  rewrite foldl_push_join, app_nil_r, rev_involutive by done. by rewrite bool_decide_eq_false_2.
Qed.

Lemma Rel_parent cs : Forall normal cs → cs ≠ [] → Rel (path_of cs) (path_of (removelast cs)) = Some "..".
Proof.
  intros Hcs Hne. destruct (exists_last Hne) as (p & x & ->). rewrite removelast_last.
  apply Forall_app in Hcs as [Hp Hx]. unfold Rel. rewrite !IsAbs_path_of. cbn [Bool.eqb negb].
  rewrite !clean_comps_path_of by (done || by apply Forall_app).
  assert (apart (p ++ [x]) p = ([x], [])) as ->.
  { clear. induction p as [|c p IH]; cbn; [done|]. by rewrite bool_decide_eq_true_2. }
  apply Forall_cons in Hx as [(_ & _ & Hu & _) _]. by rewrite bool_decide_eq_false_2.
Qed.

(** ** Checks change nothing *)
Lemma leaves_keeps {S E A} (P : S → Prop) (m : ST S E A) : leaves id m → keeps P m.
Proof. intros Hm st Hst. specialize (Hm st). unfold id in Hm. by rewrite Hm. Qed.

Lemma leaves_sys {A : Type} (m : FSM A) : leaves id m → leaves id (sys m).
Proof. intros Hm fs. specialize (Hm fs). unfold sys. by destruct (m fs). Qed.

Lemma keeps_sys {A : Type} (P : FileSys → Prop) (m : FSM A) : keeps P m → keeps P (sys m).
Proof. intros Hm fs Hfs. specialize (Hm fs Hfs). unfold sys. by destruct (m fs). Qed.

Lemma lstat_path_reads path : leaves id (lstat_path path).
Proof.
  unfold lstat_path. apply leaves_bind; [apply leaves_try, leaves_sys, Lstat_reads|]. intros r.
  repeat case_match; first [apply leaves_ret|apply leaves_fail].
Qed.

Lemma lstat_path_here fs q fs' found :
  Forall normal q → solid fs (removelast q) → lstat_path (path_of q) fs = (fs', Ok found) → fs' = fs ∧ found = node fs q.
Proof.
  intros Hq Hs. unfold lstat_path, sys, Lstat. run_st. rewrite stat_here by done.
  destruct (node fs q) as [n|]; cbn; [by intros [= <- <-]|].
  destruct (missing fs q); by intros [= <- <-] || done.
Qed.

Lemma no_link_parts_reads parts : ∀ current, leaves id (no_link_parts current parts).
Proof.
  induction parts as [|part parts IH]; intros current; cbn; [apply leaves_ret|].
  destruct (_ || _); [apply IH|]. apply leaves_bind; [apply lstat_path_reads|].
  intros [[]|]; (apply IH || apply leaves_fail).
Qed.

Lemma ensureNoSymlinkParents_reads root target : leaves id (ensureNoSymlinkParents root target).
Proof.
  unfold ensureNoSymlinkParents. destruct (Rel root target); [|apply leaves_fail].
  destruct (escapesRoot _); [apply leaves_fail|apply no_link_parts_reads].
Qed.

Lemma no_link_parts_solid parts : ∀ cur fs fs',
  Forall normal (cur ++ parts) → solid fs cur → no_link_parts (path_of cur) parts fs = (fs', Ok ()) →
  solid fs (cur ++ parts).
Proof.
  induction parts as [|c parts IH]; intros cur fs fs' Hn Hs Hrun; [by rewrite app_nil_r|].
  assert (cur ++ c :: parts = (cur ++ [c]) ++ parts) as Heq by (by rewrite <-app_assoc). rewrite Heq in *.
  pose proof Hn as Hn'. apply Forall_app in Hn' as [Hcur Hc]. apply Forall_app in Hcur as [Hcur Hc'].
  pose proof Hc' as Hcn. apply Forall_cons in Hcn as [(He & Hd & _ & _) _].
  cbn [no_link_parts] in Hrun. rewrite !bool_decide_eq_false_2 in Hrun by done. cbn [orb] in Hrun.
  assert (Join2 (path_of cur) c = path_of (cur ++ [c])) as HJ by (apply (Join2_root cur [c]); done).
  rewrite HJ in Hrun. apply bind_ok in Hrun as (fs1 & found & Hl & Hrun).
  apply lstat_path_here in Hl as [-> ->]; [|by apply Forall_app|by rewrite removelast_last].
  rewrite node_some in Hrun by (by destruct cur).
  assert (is_sym (fs !! (cur ++ [c])) = false) as Hsym by (by destruct (fs !! (cur ++ [c])) as [[]|]).
  apply (IH (cur ++ [c]) fs fs'); [done|by apply solid_snoc|].
  by destruct (fs !! (cur ++ [c])) as [[]|].
Qed.

(** A check that passes: the target is at or below the root, with no link on the
    way. *)
Lemma ensureNoSymlinkParents_solid cs rest fs fs' :
  Forall normal (cs ++ rest) → solid fs cs →
  ensureNoSymlinkParents (path_of cs) (path_of (cs ++ rest)) fs = (fs', Ok ()) → solid fs (cs ++ rest).
Proof.
  intros Hn Hs Hrun. pose proof Hn as Hn'. apply Forall_app in Hn' as [Hcs Hrest].
  unfold ensureNoSymlinkParents in Hrun. rewrite Rel_below in Hrun by done.
  case_bool_decide as He; [subst rest; by rewrite app_nil_r|].
  rewrite normal_stays, Clean_join, Split_join in Hrun by (done || by apply normal_no_slash).
  by eapply no_link_parts_solid.
Qed.

Lemma check_parent_ok cs rest fs fs' :
  Forall normal (cs ++ rest) → solid fs cs →
  ensureNoSymlinkParents (path_of cs) (Dir (path_of (cs ++ rest))) fs = (fs', Ok ()) →
  (rest ≠ [] ∨ cs = []) ∧ solid fs (removelast (cs ++ rest)).
Proof.
  intros Hn Hs Hrun. rewrite Dir_path_of in Hrun by done. destruct (decide (rest = [])) as [->|Hr].
  - rewrite app_nil_r in *. destruct (decide (cs = [])) as [->|Hc]; [split; [by right|done]|].
    unfold ensureNoSymlinkParents in Hrun. by rewrite Rel_parent in Hrun.
  - split; [by left|]. rewrite removelast_app in * by done. apply Forall_app in Hn as [Hc Hrest].
    eapply ensureNoSymlinkParents_solid; [|done|exact Hrun]. apply Forall_app. split; [done|].
    by apply Forall_removelast.
Qed.

Definition below (cs p : list string) : Prop := ∃ r, r ≠ [] ∧ p = cs ++ r.

Lemma prefix_not_below cs p : prefix_of p cs → ¬ below cs p.
Proof.
  intros [r ->] (r' & Hne & Hp). apply (f_equal length) in Hp. rewrite !length_app in Hp. destruct r'; [done|].
  cbn in Hp. lia.
Qed.

Lemma solid_frame fs fs' p :
  (∀ a, prefix_of a p → a ≠ [] → fs' !! a = fs !! a) → solid fs p → solid fs' p.
Proof.
  intros Hf Hs a c r Hp. rewrite Hf; [by apply (Hs a c r)| |by destruct a]. exists r. by rewrite <-app_assoc.
Qed.

Lemma not_prefix_removelast (l : list string) : l ≠ [] → ¬ prefix_of l (removelast l).
Proof.
  intros Hl [r Hr]. destruct (exists_last Hl) as (p & x & ->). rewrite removelast_last in Hr.
  apply (f_equal length) in Hr. rewrite !length_app in Hr. cbn in Hr. lia.
Qed.

(** * One entry *)
Section Entry.
Context (cs rest : list string) (fs0 : FileSys).
Hypothesis path_normal : Forall normal (cs ++ rest).
Hypothesis target_there : dirs_to fs0 cs.
#[local] Abbreviation q := (cs ++ rest).

(** Only the named node changes, and directories below the destination are
    added. *)
Definition entry_step (fs fs' : FileSys) : Prop := ∀ p,
  fs' !! p = fs !! p ∨ (p = q ∧ below cs p) ∨ (below cs p ∧ fs !! p = None ∧ is_dir (fs' !! p) = true).

Definition ready (fs : FileSys) : Prop :=
  entry_step fs0 fs ∧ solid fs (removelast q) ∧ (rest ≠ [] ∨ cs = []).

Lemma entry_dirs fs : entry_step fs0 fs → dirs_to fs cs.
Proof using target_there.
  intros He p Hp. pose proof (target_there p Hp) as Hd. destruct (decide (p = [])) as [->|Hne]; [done|].
  rewrite node_some in * by done. apply prefix_not_below in Hp.
  destruct (He p) as [->|[[_ ?]|[? _]]]; done.
Qed.

(** The node of a path that is not the root lies below the destination. *)
Lemma spot_below : (rest ≠ [] ∨ cs = []) → q ≠ [] → below cs q.
Proof using.
  intros Hr Hq. exists rest. split; [|done]. destruct Hr as [?|Hc]; [done|]. intros E. apply Hq. by rewrite Hc, E.
Qed.

(** A change at the node alone. *)
Lemma ready_change fs fs' : ready fs → q ≠ [] → (∀ p, p ≠ q → fs' !! p = fs !! p) → ready fs'.
Proof using.
  intros (He & Hs & Hr) Hq Hf. split_and!; [| |done].
  - intros p. destruct (decide (p = q)) as [->|Hne].
    + right. left. split; [done|by apply spot_below].
    + rewrite Hf by done. apply He.
  - eapply solid_frame; [|exact Hs]. intros a Ha _. apply Hf. intros ->. by apply (not_prefix_removelast q).
Qed.

(** New directories on the way. *)
Lemma ready_adds fs fs' : ready fs → adds_dirs (λ p, prefix_of p q ∧ p ≠ []) fs fs' → ready fs'.
Proof using target_there.
  intros (He & Hs & Hr) Ha. split_and!; [|by eapply adds_dirs_solid|done].
  intros p. destruct (Ha p) as [->|([Hp Hne] & Hn & Hd)]; [apply He|].
  assert (below cs p) as Hb.
  { assert (¬ prefix_of p cs) as Hnp.
    { intros Hpc. pose proof (entry_dirs fs He p Hpc) as Hnode. by rewrite node_some, Hn in Hnode. }
    destruct Hp as [r Hp]. destruct (app_eq_app _ _ _ _ Hp) as (l & [[Hcs _]|[Hcs _]]).
    - exfalso. apply Hnp. by exists l.
    - exists l. split; [|done]. intros ->. apply Hnp. exists []. by rewrite Hcs, !app_nil_r. }
  destruct (He p) as [Hsame|[?|(_ & Hn0 & Hd0)]].
  - right. right. rewrite <-Hsame. done.
  - right. by left.
  - by rewrite Hn in Hd0.
Qed.

(** ** The calls *)
Lemma MkdirAll_ready umask p mode : prefix_of p q → Forall normal p → (∀ fs, ready fs → solid fs p) →
  keeps ready (MkdirAll umask (path_of p) mode).
Proof using target_there.
  intros Hpre Hp Hsol fs Hfs. destruct (MkdirAll umask (path_of p) mode fs) as [fs' r] eqn:Hm.
  destruct (MkdirAll_solid _ _ _ _ _ _ Hp (Hsol _ Hfs) Hm) as [Ha _]. eapply ready_adds; [exact Hfs|].
  eapply adds_dirs_mono; [|exact Ha]. intros a [[r1 ->] ?] _. destruct Hpre as [r2 Hq]. split; [|done].
  exists (r1 ++ r2). by rewrite app_assoc.
Qed.

Lemma MkdirAll_parent umask mode : keeps ready (MkdirAll umask (Dir (path_of q)) mode).
Proof using target_there path_normal.
  rewrite Dir_path_of by done. apply MkdirAll_ready; [apply removelast_is_prefix|by apply Forall_removelast|].
  by intros fs (_ & ? & _).
Qed.

Lemma stat_ready fs : ready fs →
  stat false (path_of q) fs = (fs, match node fs q with Some n => Ok (q, n) | None => Err (missing fs q) end).
Proof using path_normal. intros (_ & Hs & _). by apply stat_here. Qed.

Lemma Remove_ready : keeps ready (Remove (path_of q)).
Proof using path_normal.
  intros fs Hfs. unfold Remove. run_st. rewrite stat_ready by done.
  destruct (node fs q) as [n|] eqn:Hn; [|done]. cbn.
  assert (q ≠ [] → ready (delete q fs)) as Hdel.
  { intros Hq. eapply ready_change; [exact Hfs|done|]. intros p Hp. by rewrite lookup_delete_ne. }
  destruct (decide (q = [])) as [Hq|Hq].
  - rewrite Hq in Hn. cbn in Hn. injection Hn as <-.
    assert ((occupied fs q || bool_decide (q = [])) = true) as ->; [|done].
    rewrite (bool_decide_eq_true_2 _ Hq). apply orb_true_r.
  - destruct n; cbn; [destruct (_ || _); [done|]|..]; by apply Hdel.
Qed.

Lemma put_ready fs n : ready fs → q ≠ [] → ready (<[q := n]> fs).
Proof using. intros Hfs Hq. eapply ready_change; [exact Hfs|done|]. intros p Hp. by rewrite lookup_insert_ne. Qed.

Lemma new_ready n : keeps ready (free_name (path_of q) ≫= λ p, put_node p n).
Proof using path_normal.
  intros fs Hfs. unfold put_node. run_st. pose proof (free_name_reads (path_of q) fs) as Hr. unfold id in Hr.
  destruct (free_name (path_of q) fs) as [fs1 [p|e]] eqn:Hf; cbn in Hr |- *; subst fs1; [|done].
  apply free_name_run in Hf as (_ & Hres & Hn). destruct Hfs as (He & Hs & Hr').
  rewrite resolve_here in Hres by done. injection Hres as <-.
  apply put_ready; [done|]. by intros Hq; rewrite Hq in Hn.
Qed.

Lemma Symlink_ready target : keeps ready (Symlink target (path_of q)).
Proof using path_normal. apply new_ready. Qed.

Lemma Link_ready old : keeps ready (Link old (path_of q)).
Proof using path_normal.
  unfold Link. apply keeps_bind; [apply leaves_keeps, stat_reads|]. intros r.
  destruct r.2; [apply keeps_fail|apply new_ready..].
Qed.

(** A renamed file gets its time at the same node. *)
Lemma Rename_ready content mode time mtime :
  keeps ready (Rename (FFile content mode time) (path_of q) ;; Chtimes (path_of q) mtime).
Proof using path_normal.
  intros fs Hfs. pose proof Hfs as (_ & Hs & _). unfold Rename, put_node. run_st. rewrite resolve_here by done.
  destruct (is_dir (node fs q)) eqn:Hd; [done|]. destruct (is_dir (node fs (removelast q))); [|done].
  assert (q ≠ []) as Hq by (intros E; by rewrite E in Hd). pose proof (put_ready _ (FFile content mode time) Hfs Hq) as Hput.
  unfold Chtimes, put_node. run_st.
  assert (solid (<[q := FFile content mode time]> fs) q) as Hsol.
  { destruct (exists_last Hq) as (p & x & Hpx). rewrite Hpx in *. apply solid_snoc.
    - destruct Hput as (_ & Hs' & _). by rewrite Hpx, removelast_last in Hs'.
    - by rewrite lookup_insert_eq. }
  rewrite stat_there by done. rewrite node_some, lookup_insert_eq by done. cbn. by apply put_ready.
Qed.
End Entry.

(** * A whole restore *)
Section Whole.
Context {B C : Type} `{!Backend B} `{!AEAD C} `{!Compressor} `{!FileDocuments}.
Variable sha256hex : bytes → string.
Variable iter : gmap Z nat → list (Z * nat).
Context (cfg : StreamConfig C) (roots : list FileBackupRoot) (umask now : Z).
Variable cancelled : nat → bool.

Section One.
Context (cs rest : list string) (fs0 : FileSys).
Hypothesis path_normal : Forall normal (cs ++ rest).
Hypothesis target_there : dirs_to fs0 cs.
#[local] Abbreviation q := (cs ++ rest).
#[local] Abbreviation ready := (ready cs rest fs0).

Lemma lstat_path_ready path : keeps ready (lstat_path path).
Proof using. apply leaves_keeps, lstat_path_reads. Qed.

Lemma checkTarget_ready path overwrite : keeps ready (checkTarget path overwrite).
Proof using.
  apply keeps_bind; [apply lstat_path_ready|].
  intros [n|]; [destruct overwrite; [apply keeps_ret|apply keeps_fail]|apply keeps_ret].
Qed.

Lemma prepareTarget_ready overwrite : keeps ready (prepareTarget (path_of q) overwrite).
Proof using path_normal.
  apply keeps_bind; [apply lstat_path_ready|]. intros [n|]; [|apply keeps_ret].
  destruct overwrite; [by apply keeps_sys, Remove_ready|apply keeps_fail].
Qed.

Lemma CreateTemp_reads dir : leaves id (CreateTemp dir).
Proof using. unfold CreateTemp. apply leaves_bind; [apply Stat_reads|]. intros []; (apply leaves_ret || apply leaves_fail). Qed.

Lemma rename_sys content mode time mtime :
  keeps ready (sys (Rename (FFile content mode time) (path_of q)) ;; sys (Chtimes (path_of q) mtime)).
Proof using path_normal.
  intros fs Hfs. pose proof (Rename_ready _ _ _ path_normal content mode time mtime fs Hfs) as Hk.
  revert Hk. unfold sys. run_st. destruct (Rename _ _ fs) as [fs1 [[]|e]]; [|done]. cbn.
  by destruct (Chtimes _ _ fs1) as [fs2 [[]|]].
Qed.

Lemma restoreFile_ready b e overwrite : keeps ready (restoreFile sha256hex iter cfg umask now b e (path_of q) overwrite).
Proof using path_normal target_there.
  unfold restoreFile. destruct (en_Data e) as [m|]; [|apply keeps_fail].
  apply keeps_bind; [by apply keeps_sys, MkdirAll_parent|]. intros _.
  apply keeps_bind; [apply checkTarget_ready|]. intros _. apply keeps_bind; [apply keeps_lift|]. intros r.
  apply keeps_bind; [apply leaves_keeps, leaves_sys, CreateTemp_reads|]. intros _.
  apply keeps_bind; [apply keeps_lift|]. intros content.
  apply keeps_bind; [|intros _; apply rename_sys]. destruct overwrite; [|apply keeps_ret].
  apply keeps_bind; [apply lstat_path_ready|]. intros [n|]; [|apply keeps_ret]. by apply keeps_sys, Remove_ready.
Qed.

(** A file that is restored has its content, its permissions and its time. *)
Lemma rename_content content mode time mtime fs fs' :
  ready fs → (sys (Rename (FFile content mode time) (path_of q)) ;; sys (Chtimes (path_of q) mtime)) fs = (fs', Ok ()) →
  fs' !! q = Some (FFile content mode mtime).
Proof using path_normal.
  intros Hfs Hrun. pose proof (rename_sys content mode time mtime fs Hfs) as Hk. rewrite Hrun in Hk.
  pose proof Hfs as (_ & Hs & _). apply bind_ok in Hrun as (fs1 & [] & Hre & Hch).
  assert (is_dir (node fs q) = false ∧ fs1 = <[q := FFile content mode time]> fs) as [Hd ->].
  { unfold sys, Rename, put_node in Hre. revert Hre. run_st. rewrite resolve_here by done.
    destruct (is_dir (node fs q)); [done|]. destruct (is_dir (node fs (removelast q))); [|done]. by intros [= <-]. }
  assert (q ≠ []) as Hq by (intros E; by rewrite E in Hd).
  assert (solid (<[q := FFile content mode time]> fs) q) as Hsol.
  { pose proof (put_ready _ _ _ _ (FFile content mode time) Hfs Hq) as (_ & Hs' & _).
    destruct (exists_last Hq) as (p & x & Hpx). rewrite Hpx in *. rewrite removelast_last in Hs'.
    apply solid_snoc; [done|]. by rewrite lookup_insert_eq. }
  revert Hch. unfold sys, Chtimes, put_node. run_st. rewrite stat_there by done.
  rewrite node_some, lookup_insert_eq by done. cbn. intros [= <-]. by rewrite lookup_insert_eq.
Qed.

Lemma restoreFile_content b e overwrite fs fs' :
  ready fs → restoreFile sha256hex iter cfg umask now b e (path_of q) overwrite fs = (fs', Ok ()) →
  ∃ m content, en_Data e = Some m ∧ file_image sha256hex iter cfg b m (en_Size e) = Ok content
    ∧ fs' !! q = Some (FFile content (Perm (en_Mode e)) (en_ModTime e)).
Proof using path_normal target_there.
  intros Hfs Hrun. unfold restoreFile in Hrun. destruct (en_Data e) as [m|]; [|done].
  apply bind_ok in Hrun as (fs1 & [] & H1 & Hrun).
  assert (ready fs1) as Hfs1.
  { pose proof (keeps_sys ready _ (MkdirAll_parent cs rest fs0 path_normal target_there umask 488) fs Hfs) as Hk.
    by rewrite H1 in Hk. }
  apply bind_ok in Hrun as (fs2 & [] & H2 & Hrun).
  assert (ready fs2) as Hfs2 by (pose proof (checkTarget_ready (path_of q) overwrite fs1 Hfs1) as Hk; by rewrite H2 in Hk).
  apply bind_ok in Hrun as (fs3 & r & H3 & Hrun). unfold lift in H3. injection H3 as -> Hopen.
  apply bind_ok in Hrun as (fs4 & [] & H4 & Hrun).
  assert (fs4 = fs3) as -> by (pose proof (leaves_sys _ (CreateTemp_reads (Dir (path_of q))) fs3) as Hk; by rewrite H4 in Hk).
  apply bind_ok in Hrun as (fs5 & content & H5 & Hrun). unfold lift in H5. injection H5 as -> Hfill.
  apply bind_ok in Hrun as (fs6 & [] & H6 & Hrun).
  assert (ready fs6) as Hfs6.
  { destruct overwrite; [|by injection H6 as <-]. apply bind_ok in H6 as (fs7 & found & H7 & H6).
    assert (ready fs7) as Hfs7 by (pose proof (lstat_path_ready (path_of q) fs5 Hfs2) as Hk; by rewrite H7 in Hk).
    destruct found as [n|]; [|by injection H6 as <-].
    pose proof (keeps_sys ready _ (Remove_ready cs rest fs0 path_normal) fs7 Hfs7) as Hk. by rewrite H6 in Hk. }
  exists m, content. split_and!; [done| |by eapply rename_content].
  unfold file_image. destruct (open_image iter cfg b m) as [r'|]; [|done]. injection Hopen as ->. cbn.
  by destruct (fill_image sha256hex r (en_Size e)) as [c'|]; simplify_eq/=.
Qed.

Lemma restoreSymlink_ready link overwrite : keeps ready (restoreSymlink umask link (path_of q) overwrite).
Proof using path_normal target_there.
  apply keeps_bind; [by apply keeps_sys, MkdirAll_parent|]. intros _.
  apply keeps_bind; [apply prepareTarget_ready|]. intros _. by apply keeps_sys, Symlink_ready.
Qed.

Lemma restore_hardlink_ready b byPath destination e overwrite :
  keeps ready (restore_hardlink sha256hex iter cfg umask now b byPath destination e (path_of q) overwrite).
Proof using path_normal target_there.
  apply keeps_bind; [apply keeps_lift|]. intros source.
  apply keeps_bind; [apply leaves_keeps, leaves_try, leaves_sys, Stat_reads|]. intros [n|err].
  - apply keeps_bind; [apply prepareTarget_ready|]. intros _.
    apply keeps_bind; [by apply keeps_sys, Link_ready|]. intros _. apply keeps_ret.
  - destruct (byPath !! _) as [s|]; [|apply keeps_fail]. destruct (bool_decide _); [apply keeps_fail|].
    apply keeps_bind; [apply restoreFile_ready|]. intros _. apply keeps_ret.
Qed.

Lemma ensureDirectory_ready mode : keeps ready (ensureDirectory umask (path_of q) mode).
Proof using path_normal target_there.
  intros fs Hfs. pose proof Hfs as (_ & Hs & _). unfold ensureDirectory.
  pose proof (lstat_path_reads (path_of q) fs) as Hl. unfold id in Hl.
  run_st. destruct (lstat_path (path_of q) fs) as [fs1 [found|e]] eqn:Hf; cbn in Hl; subst fs1; [|done].
  destruct (lstat_path_here _ _ _ _ path_normal Hs Hf) as [_ ->].
  destruct (node fs q) as [[]|] eqn:Hn; [done..|].
  assert (solid fs q) as Hsol.
  { destruct (decide (q = [])) as [Hq|Hq]; [by rewrite Hq in Hn|]. destruct (exists_last Hq) as (p & x & Hpx).
    rewrite Hpx in *. rewrite removelast_last in Hs. apply solid_snoc; [done|].
    rewrite node_some in Hn by (by destruct p). by rewrite Hn. }
  unfold sys. destruct (MkdirAll umask (path_of q) mode fs) as [fs' r] eqn:Hm. cbn.
  destruct (MkdirAll_solid _ _ _ _ _ _ path_normal Hsol Hm) as [Ha _]. by eapply ready_adds.
Qed.
End One.

(** An entry changes the node it names, below the destination. *)
Lemma restore_entry_step b byPath cs overwrite e fs0 fs' r :
  Forall normal cs → dirs_to fs0 cs →
  restore_entry sha256hex iter cfg umask now b byPath (path_of cs) overwrite e fs0 = (fs', r) →
  entry_step cs (clean_comps (en_Path e)) fs0 fs' ∧ (is_ok r = true → Forall normal (clean_comps (en_Path e))
    ∧ ready cs (clean_comps (en_Path e)) fs0 fs0).
Proof.
  intros Hcs Hd Hrun. unfold restore_entry in Hrun.
  assert (entry_step cs (clean_comps (en_Path e)) fs0 fs0) as Hrefl by (by left).
  destruct (safeRestorePath (path_of cs) (en_Path e)) as [p|err] eqn:Hp;
    [|unfold lift in Hrun; run_st; cbn in Hrun; injection Hrun as <- <-; by split].
  apply safeRestorePath_ok in Hp as (_ & Hrest & ->); [|done]. set (rest := clean_comps (en_Path e)) in *.
  assert (Forall normal (cs ++ rest)) as Hn by (by apply Forall_app).
  revert Hrun. pose proof (ensureNoSymlinkParents_reads (path_of cs) (Dir (path_of (cs ++ rest))) fs0) as Hr.
  unfold id in Hr. run_st. cbn.
  destruct (ensureNoSymlinkParents (path_of cs) (Dir (path_of (cs ++ rest))) fs0) as [fs1 [[]|err]] eqn:Hc;
    cbn in Hr; subst fs1; [|intros [= <- <-]; done].
  destruct (check_parent_ok _ _ _ _ Hn (dirs_solid _ _ Hd) Hc) as [Hspot Hsol].
  assert (ready cs rest fs0 fs0) as Hready by done.
  intros Hrun. split; [|done].
  match type of Hrun with ?m fs0 = _ => assert (keeps (ready cs rest fs0) m) as Hk end.
  { destruct (en_Type e).
    - apply keeps_bind; [by apply restoreFile_ready|intros _; apply keeps_ret].
    - apply keeps_bind; [by apply ensureDirectory_ready|intros _; apply keeps_ret].
    - apply keeps_bind; [by apply restoreSymlink_ready|intros _; apply keeps_ret].
    - apply keeps_bind; [by apply restore_hardlink_ready|intros ?; apply keeps_ret].
    - apply keeps_ret. }
  specialize (Hk fs0 Hready). cbn beta in Hk. unfold hoare in Hk. rewrite Hrun in Hk. by destruct Hk.
Qed.

(** The nodes some entries name. *)
Definition named (cs : list string) (es : list Entry) (p : list string) : Prop :=
  ∃ e, e ∈ es ∧ p = cs ++ clean_comps (en_Path e).

(** What a list of entries may change. *)
Definition entries_step (cs : list string) (es : list Entry) (fs fs' : FileSys) : Prop := ∀ p,
  fs' !! p = fs !! p ∨ below cs p ∧ (named cs es p ∨ fs !! p = None ∧ is_dir (fs' !! p) = true).

Lemma entries_step_cons cs e es fs fs1 fs2 :
  entry_step cs (clean_comps (en_Path e)) fs fs1 → entries_step cs es fs1 fs2 → entries_step cs (e :: es) fs fs2.
Proof.
  intros H1 H2 p. destruct (H2 p) as [Hs|(Hb & [(e' & He & Hp)|[Hn Hd]])].
  - rewrite Hs. destruct (H1 p) as [?|[[Hp Hb]|(Hb & Hn & Hd)]]; [by left|..]; right; split; try done; [left|by right].
    exists e. split; [by left|done].
  - right. split; [done|]. left. exists e'. split; [by right|done].
  - destruct (H1 p) as [Hs|[[Hp _]|(_ & Hn0 & Hd0)]].
    + right. split; [done|]. right. by rewrite <-Hs.
    + right. split; [done|]. left. exists e. split; [by left|done].
    + by rewrite Hn in Hd0.
Qed.

Lemma entries_step_touches cs es fs fs' : entries_step cs es fs fs' → touches (below cs) fs fs'.
Proof. intros Hst p Hp. by destruct (Hst p) as [?|[? _]]. Qed.

Lemma restore_entries_step b byPath cs overwrite es : ∀ i restored warnings fs fs' r,
  Forall normal cs → dirs_to fs cs →
  restore_entries sha256hex iter cfg umask now cancelled b byPath (path_of cs) overwrite i es restored warnings fs
    = (fs', r) →
  entries_step cs es fs fs'.
Proof.
  induction es as [|e es IH]; intros i restored warnings fs fs' r Hcs Hd Hrun; cbn in Hrun.
  - injection Hrun as <- <-. by left.
  - destruct (cancelled i); [injection Hrun as <- <-; by left|]. revert Hrun. run_st.
    destruct (restore_entry _ _ _ _ _ _ _ _ _ _ fs) as [fs1 r1] eqn:He.
    destruct (restore_entry_step _ _ _ _ _ _ _ _ Hcs Hd He) as [Hstep _].
    assert (dirs_to fs1 cs) as Hd1 by (by eapply entry_dirs).
    destruct r1 as [[n ws]|err]; intros Hrun.
    + eapply entries_step_cons; [exact Hstep|]. by eapply IH.
    + injection Hrun as <- <-. eapply entries_step_cons; [exact Hstep|]. by left.
Qed.

(** ** The destination *)
Lemma canonicalDirectory_ok path fs fs' d :
  canonicalDirectory path fs = (fs', Ok d) →
  fs' = fs ∧ ∃ root, resolve fs true (Clean path) = Some root ∧ d = path_of root ∧ Forall normal root ∧ solid fs root.
Proof.
  unfold canonicalDirectory, sys. run_st. rewrite EvalSymlinks_run.
  destruct (resolve fs true (Clean path)) as [root|] eqn:Hr; [|done]. destruct (resolve_solid _ _ _ Hr) as [Hn Hs].
  destruct (node fs root) as [n|] eqn:Hnode; [|done]. cbn [map_err]. rewrite Stat_there, Hnode by done. cbn [map_err].
  destruct n; [|done..]. intros [= <- <-]. split; [done|]. exists root. split_and!; [done| |done|done].
  pose proof (Clean_path_of root [] Hn (Forall_nil_2 _)) as Hc. unfold Clean.
  rewrite IsAbs_path_of, clean_comps_path_of by done. done.
Qed.

Lemma canonicalDirectory_reads path : leaves id (canonicalDirectory path).
Proof.
  unfold canonicalDirectory. apply leaves_bind; [apply leaves_sys, EvalSymlinks_reads|]. intros p.
  apply leaves_bind; [apply leaves_sys, Stat_reads|]. intros []; (apply leaves_ret || apply leaves_fail).
Qed.

(** The file system once the allowed root has been made: its path is the
    administrator's and may lead through links. *)
Definition root_made (allowed : string) (fs : FileSys) : FileSys := (MkdirAll umask allowed 488 fs).1.

Lemma root_made_adds allowed fs : adds_dirs (λ _, True) fs (root_made allowed fs).
Proof. apply made_MkdirAll. Qed.

Lemma ensureCanonicalDirectory_run allowed fs fs' r :
  ensureCanonicalDirectory umask allowed fs = (fs', r) →
  fs' = fs ∧ is_ok r = false
  ∨ IsAbs allowed = true ∧ fs' = root_made allowed fs
    ∧ ∀ d, r = Ok d → ∃ root, resolve fs' true (Clean allowed) = Some root ∧ d = path_of root ∧ Forall normal root ∧ solid fs' root.
Proof.
  unfold ensureCanonicalDirectory, root_made. destruct (IsAbs allowed); cbn [negb]; [|intros [= <- <-]; by left].
  unfold sys. run_st. destruct (MkdirAll umask allowed 488 fs) as [fs1 [[]|e]]; cbn [map_err fst].
  - intros Hc. right. pose proof (canonicalDirectory_reads allowed fs1) as Hr. unfold id in Hr. rewrite Hc in Hr.
    cbn in Hr. subst fs1. split_and!; [done..|]. intros d ->. by apply canonicalDirectory_ok in Hc as [_ ?].
  - intros [= <- <-]. right. by split_and!.
Qed.

(** The way to a destination: it lies at or below what the allowed root resolves
    to, no link on the way, and only missing directories on it are made. *)
Record on_way (allowed : string) (fs fs' : FileSys) (root rest : list string) : Prop := {
  ow_root : resolve (root_made allowed fs) true (Clean allowed) = Some root;
  ow_normal : Forall normal (root ++ rest);
  ow_solid : solid (root_made allowed fs) (root ++ rest);
  ow_made : adds_dirs (λ p, prefix_of p (root ++ rest) ∧ p ≠ []) (root_made allowed fs) fs'
}.

(** What a preparation that failed may have done. *)
Definition half_way (allowed : string) (fs fs' : FileSys) : Prop :=
  IsAbs allowed = true ∧ (fs' = root_made allowed fs ∨ ∃ root rest, on_way allowed fs fs' root rest).

(** A destination that was prepared is made of directories. *)
Definition prepared (allowed : string) (fs : FileSys) (d : string) (fs' : FileSys) : Prop :=
  IsAbs allowed = true ∧ ∃ root rest, on_way allowed fs fs' root rest ∧ d = path_of (root ++ rest) ∧ dirs_to fs' (root ++ rest).

Lemma prepare_destination_run allowed dest fs fs' r :
  prepare_destination umask allowed dest fs = (fs', r) →
  match r with Ok d => prepared allowed fs d fs' | Err _ => fs' = fs ∨ half_way allowed fs fs' end.
Proof.
  unfold prepare_destination. run_st. destruct (ensureCanonicalDirectory umask allowed fs) as [fs1 [d0|e]] eqn:He;
    apply ensureCanonicalDirectory_run in He as [[-> ?]|(Habs & -> & Hroot)]; try done.
  2: intros [= <- <-]; by left.
  2: intros [= <- <-]; right; split; [done|by left].
  destruct (Hroot _ eq_refl) as (root & Hres & -> & Hn & Hs). set (fs1 := root_made allowed fs) in *.
  assert (half_way allowed fs fs1) as Hhalf by (split; [done|by left]).
  destruct (safeRestorePath (path_of root) dest) as [p|e] eqn:Hp; cbn; [|intros [= <- <-]; by right].
  apply safeRestorePath_ok in Hp as (_ & Hrest & ->); [|done]. set (rest := clean_comps dest) in *.
  assert (Forall normal (root ++ rest)) as Hnr by (by apply Forall_app).
  pose proof (ensureNoSymlinkParents_reads (path_of root) (path_of (root ++ rest)) fs1) as Hr. unfold id in Hr.
  destruct (ensureNoSymlinkParents (path_of root) (path_of (root ++ rest)) fs1) as [fs2 [[]|e]] eqn:Hc; cbn in Hr; subst fs2;
    [|intros [= <- <-]; by right].
  pose proof (ensureNoSymlinkParents_solid _ _ _ _ Hnr Hs Hc) as Hsol.
  unfold sys. destruct (MkdirAll umask (path_of (root ++ rest)) 488 fs1) as [fs2 r2] eqn:Hm.
  destruct (MkdirAll_solid _ _ _ _ _ _ Hnr Hsol Hm) as [Ha2 Hok].
  assert (on_way allowed fs fs2 root rest) as Hway by done.
  assert (half_way allowed fs fs2) as Hhalf2 by (split; [done|right; eauto]).
  destruct r2 as [[]|e]; cbn; [|intros [= <- <-]; by right].
  pose proof (ensureNoSymlinkParents_reads (path_of root) (path_of (root ++ rest)) fs2) as Hr2. unfold id in Hr2.
  destruct (ensureNoSymlinkParents (path_of root) (path_of (root ++ rest)) fs2) as [fs3 [[]|e]]; cbn in Hr2; subst fs3;
    intros [= <- <-]; [|by right].
  split; [done|]. exists root, rest. split_and!; [done..|]. by apply Hok.
Qed.

(** ** Content *)
Lemma restore_entry_file b byPath cs overwrite e fs0 fs' r :
  Forall normal cs → dirs_to fs0 cs → en_Type e = EntryFile →
  restore_entry sha256hex iter cfg umask now b byPath (path_of cs) overwrite e fs0 = (fs', Ok r) →
  ∃ m content, en_Data e = Some m ∧ file_image sha256hex iter cfg b m (en_Size e) = Ok content
    ∧ fs' !! (cs ++ clean_comps (en_Path e)) = Some (FFile content (Perm (en_Mode e)) (en_ModTime e)).
Proof.
  intros Hcs Hd Ht Hrun.
  destruct (restore_entry_step _ _ _ _ _ _ _ _ Hcs Hd Hrun) as [_ Hready]. destruct (Hready eq_refl) as [Hrest Hr].
  unfold restore_entry in Hrun. apply bind_ok in Hrun as (fs1 & p & Hp & Hrun).
  unfold lift in Hp. injection Hp as -> Hp. destruct (safeRestorePath _ _) as [p'|] eqn:Hsafe; [|done]. injection Hp as ->.
  apply safeRestorePath_ok in Hsafe as (_ & _ & ->); [|done].
  apply bind_ok in Hrun as (fs2 & [] & Hc & Hrun).
  assert (fs2 = fs1) as ->.
  { pose proof (ensureNoSymlinkParents_reads (path_of cs) (Dir (path_of (cs ++ clean_comps (en_Path e)))) fs1) as Hl.
    by rewrite Hc in Hl. }
  rewrite Ht in Hrun. apply bind_ok in Hrun as (fs3 & [] & Hf & Hret). injection Hret as <- _.
  eapply restoreFile_content; [|done|exact Hr|exact Hf]. by apply Forall_app.
Qed.

(** Each file of the list ends up with its content unless another entry has its
    path. *)
Lemma restore_entries_file b byPath cs overwrite e es : ∀ i restored warnings fs fs' r,
  Forall normal cs → dirs_to fs cs → en_Type e = EntryFile → e ∈ es →
  (∀ e', e' ∈ es → clean_comps (en_Path e') = clean_comps (en_Path e) → e' = e) →
  restore_entries sha256hex iter cfg umask now cancelled b byPath (path_of cs) overwrite i es restored warnings fs
    = (fs', Ok r) →
  ∃ m content, en_Data e = Some m ∧ file_image sha256hex iter cfg b m (en_Size e) = Ok content
    ∧ fs' !! (cs ++ clean_comps (en_Path e)) = Some (FFile content (Perm (en_Mode e)) (en_ModTime e)).
Proof.
  induction es as [|x es IH]; intros i restored warnings fs fs' r Hcs Hd Ht Hin Hother Hrun; [by apply elem_of_nil in Hin|].
  cbn in Hrun. destruct (cancelled i); [done|]. apply bind_ok in Hrun as (fs1 & [n ws] & He & Hrun).
  destruct (restore_entry_step _ _ _ _ _ _ _ _ Hcs Hd He) as [Hstep _].
  assert (dirs_to fs1 cs) as Hd1 by (by eapply entry_dirs).
  destruct (decide (clean_comps (en_Path e) ∈ (clean_comps ∘ en_Path) <$> es)) as [Htail|Htail].
  { apply list_elem_of_fmap in Htail as (e' & Hp & He'). cbn in Hp. assert (e' = e) as ->.
    { apply Hother; [by right|done]. }
    eapply IH; [done..| |exact Hrun]. intros e' ?. apply Hother. by right. }
  apply elem_of_cons in Hin as [<-|Hin];
    [|by destruct Htail; apply (list_elem_of_fmap_2 (clean_comps ∘ en_Path))].
  destruct (restore_entry_file _ _ _ _ _ _ _ _ Hcs Hd Ht He) as (m & content & Hm & Hi & Hl).
  exists m, content. split_and!; [done..|]. rewrite <-Hl.
  destruct (restore_entries_step _ _ _ _ _ _ _ _ _ _ _ Hcs Hd1 Hrun (cs ++ clean_comps (en_Path e)))
    as [?|(_ & [(e' & He' & Hp)|[Hn _]])]; [done|..].
  - exfalso. apply app_inv_head in Hp. apply Htail. apply list_elem_of_fmap. exists e'. by split.
  - by rewrite Hl in Hn.
Qed.

(** An entry whose path names the destination itself stops the restore, unless
    the destination is the root of the file system. *)
Lemma restore_entries_named b byPath cs overwrite es : ∀ i restored warnings fs fs' r,
  Forall normal cs → dirs_to fs cs → cs ≠ [] →
  restore_entries sha256hex iter cfg umask now cancelled b byPath (path_of cs) overwrite i es restored warnings fs
    = (fs', Ok r) →
  Forall (λ e, clean_comps (en_Path e) ≠ []) es.
Proof.
  induction es as [|e es IH]; intros i restored warnings fs fs' r Hcs Hd Hne Hrun; [done|].
  cbn in Hrun. destruct (cancelled i); [done|]. apply bind_ok in Hrun as (fs1 & [n ws] & He & Hrun).
  destruct (restore_entry_step _ _ _ _ _ _ _ _ Hcs Hd He) as [Hstep Hr].
  destruct (Hr eq_refl) as [_ (_ & _ & [?|?])]; [|done]. constructor; [done|].
  eapply IH; [done| |done|exact Hrun]. by eapply entry_dirs.
Qed.

(** ** [Restore] *)

(** What a restore that reached the entries went through. *)
Record reached (req : RestoreRequest) (w w' : RestoreWorld (B := B)) (r : result RestoreError RestoreResult)
    (run : FileBackupRun) (allowed : string) (cs : list string) (fs1 : FileSys) (b : B) (m : Manifest) : Prop := {
  rc_run : List.find (has_run_id (rq_RunID req)) (ft_runs (rw_store w)) = Some run;
  rc_good : good_status (fr_Status run) = true;
  rc_allowed : allowed ∈ RestoreRoots roots (fr_RootID run);
  rc_prepared : prepared allowed (rw_fs w) (path_of cs) fs1;
  rc_normal : Forall normal cs;
  rc_dirs : dirs_to fs1 cs;
  rc_repo : ∃ t, ft_targets (rw_store w) !! fr_StorageTargetID run = Some t ∧ ft_repos (rw_store w) !! tgt_ID t = Some b;
  rc_manifest : readManifest b (fr_ManifestKey run) = Ok m;
  rc_entries : ∃ out, restore_entries sha256hex iter cfg umask now cancelled b (entriesByPath (mf_Entries m)) (path_of cs)
      (rq_Overwrite req) 0 (restore_sorted (selectedEntries (mf_Entries m) (rq_Paths req))) 0 [] fs1
      = (rw_fs w', out)
    ∧ match out with
      | Ok out => r = Ok (mkRestoreResult (fr_ID run) (path_of cs) (rq_Paths req) out.1 out.2)
      | Err e => r = Err e
      end
}.

Lemma file_attempt_run (e : FileError) (s s' : FileStore B) r :
  file_attempt e s = (s', r) → ft_jobs s' = ft_jobs s ∧ ft_runs s' = ft_runs s ∧ ft_targets s' = ft_targets s
    ∧ ft_repos s' = ft_repos s.
Proof. unfold file_attempt. destruct (ft_faults s) as [|[] fs]; by intros [= <- <-]. Qed.

(** A statement that only reads. *)
Lemma query_run {A} (e : FileError) (read : FileStore B → result FileError A) (s s' : FileStore B) r :
  (file_attempt e ;; s ← get ; lift (read s)) s = (s', r) →
  ft_jobs s' = ft_jobs s ∧ ft_runs s' = ft_runs s ∧ ft_targets s' = ft_targets s ∧ ft_repos s' = ft_repos s
  ∧ ∀ a, r = Ok a → read s' = Ok a.
Proof.
  run_st. destruct (file_attempt e s) as [s1 [[]|e1]] eqn:Ha; apply file_attempt_run in Ha as (? & ? & ? & ?).
  - intros [= <- <-]. by split_and!.
  - by intros [= <- <-].
Qed.

Lemma of_option_some {E A} (e : E) (o : option A) a : of_option e o = Ok a → o = Some a.
Proof. by destruct o; intros [= ->]. Qed.

Lemma in_db_run {A} (m : FM B A) w w' r :
  in_db m w = (w', r) → rw_fs w' = rw_fs w ∧ ∃ r0, m (rw_store w) = (rw_store w', r0) ∧ r = map_err RestoreDB r0.
Proof. unfold in_db. destruct (m (rw_store w)) as [s r0]. intros [= <- <-]. cbn. eauto. Qed.

Lemma in_fs_run {A} (m : RFS A) (w w' : RestoreWorld (B := B)) r :
  in_fs m w = (w', r) → rw_store w' = rw_store w ∧ m (rw_fs w) = (rw_fs w', r).
Proof. unfold in_fs. destruct (m (rw_fs w)) as [fs r0]. by intros [= <- <-]. Qed.

(** A statement of the database inside a restore. *)
Lemma db_run {A} (e : FileError) (read : FileStore B → result FileError A) w w' r :
  in_db (file_attempt e ;; s ← get ; lift (read s)) w = (w', r) →
  rw_fs w' = rw_fs w ∧ ft_runs (rw_store w') = ft_runs (rw_store w) ∧ ft_targets (rw_store w') = ft_targets (rw_store w)
  ∧ ft_repos (rw_store w') = ft_repos (rw_store w) ∧ ∀ a, r = Ok a → read (rw_store w') = Ok a.
Proof.
  intros (Hf & r0 & Hm & ->)%in_db_run. apply query_run in Hm as (_ & ? & ? & ? & Hr). split_and!; [done..|].
  intros a Ha. apply Hr. by destruct r0; simplify_eq/=.
Qed.

(** A restore that did not come to the entries. *)
Definition not_begun (req : RestoreRequest) (w w' : RestoreWorld (B := B)) : Prop :=
  rw_fs w' = rw_fs w
  ∨ ∃ run allowed, List.find (has_run_id (rq_RunID req)) (ft_runs (rw_store w)) = Some run
      ∧ allowed ∈ RestoreRoots roots (fr_RootID run) ∧ half_way allowed (rw_fs w) (rw_fs w').

Lemma Restore_run req (w w' : RestoreWorld (B := B)) r :
  Restore sha256hex iter cfg roots umask now cancelled req w = (w', r) →
  (not_begun req w w' ∧ is_ok r = false)
  ∨ ∃ run allowed cs fs1 b m, reached req w w' r run allowed cs fs1 b m.
Proof.
  intros Hrun. unfold Restore in Hrun.
  apply bind_inv in Hrun as [(w1 & run & H1 & Hrun)|(w1 & e & H1 & [= -> ->])];
    apply db_run in H1 as (F1 & R1 & T1 & B1 & H1); [|left; split; [by left|done]].
  specialize (H1 run eq_refl). apply of_option_some in H1. rewrite R1 in H1.
  destruct (good_status (fr_Status run)) eqn:Hg; cbn [negb] in Hrun; [|injection Hrun as <- <-; left; split; [by left|done]].
  case_bool_decide as Hnil; [injection Hrun as <- <-; left; split; [by left|done]|].
  destruct (rq_RestoreRootIndex req <? 0); [injection Hrun as <- <-; left; split; [by left|done]|].
  destruct (RestoreRoots roots (fr_RootID run) !! Z.to_nat (rq_RestoreRootIndex req)) as [allowed|] eqn:Hroot;
    [|injection Hrun as <- <-; left; split; [by left|done]].
  apply list_elem_of_lookup_2 in Hroot.
  apply bind_inv in Hrun as [(w2 & d & H2 & Hrun)|(w2 & e & H2 & [= -> ->])];
    apply in_fs_run in H2 as [S2 H2]; apply prepare_destination_run in H2 as Hprep; rewrite F1 in Hprep.
  2: { left. split; [|done]. destruct Hprep as [?|?]; [by left|right; by exists run, allowed]. }
  destruct Hprep as (Habs & root & rest & Hway & -> & Hd).
  assert (∀ w3, rw_fs w3 = rw_fs w2 → not_begun req w w3) as Hstop.
  { intros w3 F3. right. exists run, allowed. rewrite F3. split_and!; [done..|]. split; [done|]. right. eauto. }
  apply bind_inv in Hrun as [(w3 & target & H3 & Hrun)|(w3 & e & H3 & [= -> ->])];
    apply db_run in H3 as (F3 & R3 & T3 & B3 & H3); [|left; auto].
  specialize (H3 target eq_refl). apply of_option_some in H3.
  apply bind_inv in Hrun as [(w4 & b & H4 & Hrun)|(w4 & e & H4 & [= -> ->])];
    apply db_run in H4 as (F4 & R4 & T4 & B4 & H4); [|left; split; [apply Hstop; congruence|done]].
  specialize (H4 b eq_refl). apply of_option_some in H4.
  apply bind_inv in Hrun as [(w5 & m & H5 & Hrun)|(w5 & e & H5 & [= -> ->])]; unfold lift in H5; injection H5 as <- Hm;
    [|left; split; [apply Hstop; congruence|done]].
  destruct (readManifest b (fr_ManifestKey run)) as [m'|] eqn:Hman; [|done]. injection Hm as ->. right.
  exists run, allowed, (root ++ rest), (rw_fs w2), b, m.
  assert (∀ out w6, in_fs (restore_entries sha256hex iter cfg umask now cancelled b (entriesByPath (mf_Entries m))
      (path_of (root ++ rest)) (rq_Overwrite req) 0
      (restore_sorted (selectedEntries (mf_Entries m) (rq_Paths req))) 0 []) w4 = (w6, out) →
    (match out with
     | Ok out => (w6, Ok (mkRestoreResult (fr_ID run) (path_of (root ++ rest)) (rq_Paths req) out.1 out.2))
     | Err e => (w6, Err e)
     end) = (w', r) → reached req w w' r run allowed (root ++ rest) (rw_fs w2) b m) as Hend.
  { intros out w6 [_ H6]%in_fs_run Hout. rewrite F4, F3 in H6. split; try done.
    - split; [done|]. by exists root, rest.
    - apply Hway.
    - exists target. split; [by rewrite <-T1, <-S2, <-T3|by rewrite <-B1, <-S2, <-B3, <-B4].
    - exists out. destruct out as [out|e]; injection Hout as <- <-; done. }
  apply bind_inv in Hrun as [(w6 & out & H6 & Hrun)|(w6 & e & H6 & [= -> ->])].
  - apply (Hend (Ok out) w6 H6). by injection Hrun as <- <-.
  - by apply (Hend (Err e) w6 H6).
Qed.

Lemma elem_of_restore_sorted es e : e ∈ restore_sorted es ↔ e ∈ es.
Proof. apply sort_stable_elem_of. Qed.

(** C8. Whatever the manifest in the storage says, a restore either changes nothing,
    or first does what making the directory of one of the allowed roots does, and
    from then on, whether it ends well or not, changes nothing but what is below its
    destination and the missing directories on the way there; the destination lies at
    or below what that root resolves to, and no part of the way is a link. *)
Theorem restore_confined req (w w' : RestoreWorld (B := B)) r :
  Restore sha256hex iter cfg roots umask now cancelled req w = (w', r) →
  rw_fs w' = rw_fs w ∧ is_ok r = false
  ∨ ∃ run allowed, List.find (has_run_id (rq_RunID req)) (ft_runs (rw_store w)) = Some run
      ∧ allowed ∈ RestoreRoots roots (fr_RootID run) ∧ IsAbs allowed = true ∧
      let fs := (MkdirAll umask allowed 488 (rw_fs w)).1 in
      rw_fs w' = fs ∧ is_ok r = false
      ∨ ∃ root rest, resolve fs true (Clean allowed) = Some root ∧ solid fs (root ++ rest)
          ∧ (∀ p, ¬ below (root ++ rest) p →
               rw_fs w' !! p = fs !! p
               ∨ prefix_of p (root ++ rest) ∧ fs !! p = None ∧ is_dir (rw_fs w' !! p) = true)
          ∧ ∀ res, r = Ok res → rr_Destination res = path_of (root ++ rest).
Proof.
  assert (∀ allowed fs fs1 root rest, on_way allowed fs fs1 root rest → ∀ p,
    fs1 !! p = root_made allowed fs !! p
    ∨ prefix_of p (root ++ rest) ∧ root_made allowed fs !! p = None ∧ is_dir (fs1 !! p) = true) as Hmade.
  { intros allowed fs fs1 root rest [_ _ _ Hm] p. destruct (Hm p) as [?|([??] & ? & ?)]; auto. }
  intros [[[Hsame|(run & allowed & Hrun & Hal & Habs & Hhalf)] Hr]|(run & allowed & cs & fs1 & b & m & [])]%Restore_run.
  - by left.
  - right. exists run, allowed. split_and!; [done..|]. destruct Hhalf as [?|(root & rest & Hway)]; [by left|right].
    exists root, rest. split_and!; [apply Hway..| |by intros res ->]. intros p _. by apply Hmade.
  - right. destruct rc_prepared0 as (Habs & root & rest & Hway & Hcs & Hd). exists run, allowed. split_and!; [done..|].
    right. assert (cs = root ++ rest) as ->.
    { rewrite <-(clean_comps_path_of cs), <-(clean_comps_path_of (root ++ rest)); [by rewrite Hcs|apply Hway|done]. }
    destruct rc_entries0 as (out & Hrun & Hout). exists root, rest. split_and!; [apply Hway..| |].
    + intros p Hp. apply restore_entries_step in Hrun; [|done..].
      rewrite (entries_step_touches _ _ _ _ Hrun) by done. by apply Hmade.
    + intros res ->. destruct out as [out|e]; [|done]. by injection Hout as ->.
Qed.

Context `{!BackendLaws B}.
Hypothesis iter_perm : ∀ m, iter m ≡ₚ map_to_list m.

(** C9. A restore that succeeds has put every selected file whose path no other
    selected entry shares at its place below the destination, with the stored
    bytes cut or extended to the recorded size, the recorded permissions and the
    recorded time. *)
Theorem restore_files_exact req (w w' : RestoreWorld (B := B)) res :
  Restore sha256hex iter cfg roots umask now cancelled req w = (w', Ok res) →
  ∃ run t b m cs, List.find (has_run_id (rq_RunID req)) (ft_runs (rw_store w)) = Some run
    ∧ ft_targets (rw_store w) !! fr_StorageTargetID run = Some t ∧ ft_repos (rw_store w) !! tgt_ID t = Some b
    ∧ readManifest b (fr_ManifestKey run) = Ok m ∧ rr_Destination res = path_of cs ∧ Forall normal cs
    ∧ ∀ e d data, e ∈ selectedEntries (mf_Entries m) (rq_Paths req) → en_Type e = EntryFile → en_Data e = Some d →
        holds_file sha256hex cfg b d data →
        (∀ e', e' ∈ selectedEntries (mf_Entries m) (rq_Paths req) →
           clean_comps (en_Path e') = clean_comps (en_Path e) → e' = e) →
        rw_fs w' !! (cs ++ clean_comps (en_Path e))
        = Some (FFile (truncate (en_Size e) data) (Perm (en_Mode e)) (en_ModTime e)).
Proof using All.
  intros [[_ ?]|(run & allowed & cs & fs1 & b & m & [])]%Restore_run; [done|].
  destruct rc_repo0 as (t & Ht & Hb), rc_entries0 as ([out|e] & Hrun & Hout); [|done]. injection Hout as ->.
  exists run, t, b, m, cs. split_and!; [done..|]. intros e d data He Htype Hdata Hholds Huniq.
  eapply (restore_entries_file _ _ _ _ e) in Hrun as (d' & content & Hd & Himg & Hl); [|done..| |].
  - rewrite Hl. rewrite Hdata in Hd. injection Hd as <-.
    rewrite (file_image_exact sha256hex iter cfg iter_perm b d data (en_Size e) Hholds) in Himg. by injection Himg as <-.
  - by apply elem_of_restore_sorted.
  - intros e' He'. apply Huniq. by apply elem_of_restore_sorted.
Qed.
End Whole.
