(* ===== verification/FileWalk.v ===== *)
(** Reading the source of a file backup into the repository: a directory of the
    backup server ([walkLocal], [filebackup/engine.go]) or a connected storage
    ([walkStorage], [filebackup/storage_source.go]).

    The source is what the walk observes: a tree of nodes, each with the
    information and the content it shows when it is visited. *)

From S2P Require Import Prelude StateM GoTime GoStr Layout Model Format Repo Codec Writer.
From S2P Require Import Paths FileJobs FileStored.

#[local] Set Warnings "-register-all".

(** ** Exclusions *)

(** The pieces of the regular expression [globPattern] writes: [(?:.*/)?], [.*],
    [[^/]*], [[^/]] and one quoted character. *)
Inductive GlobPiece := GDirs | GAll | GName | GOne | GRune (r : Z).

(** A byte of the glob becomes the character with its number. *)
Fixpoint globPattern (glob : string) : list GlobPiece :=
  match glob with
  | EmptyString => []
  | String "*"%char (String "*"%char (String "/"%char rest)) => GDirs :: globPattern rest
  | String "*"%char (String "*"%char rest) => GAll :: globPattern rest
  | String "*"%char rest => GName :: globPattern rest
  | String "?"%char rest => GOne :: globPattern rest
  | String c rest => GRune (byte_of c) :: globPattern rest
  end.

(** A piece repeated, then the rest. *)
Fixpoint repeated (p : Z → bool) (rest : list Z → bool) (rs : list Z) : bool :=
  rest rs || match rs with r :: rs => p r && repeated p rest rs | [] => false end.

Definition not_newline (r : Z) : bool := negb (r =? 10).
Definition not_separator (r : Z) : bool := negb (r =? 47).

Fixpoint glob_match (ps : list GlobPiece) (rs : list Z) : bool :=
  match ps with
  | [] => bool_decide (rs = [])
  | GRune c :: ps => match rs with r :: rs => (r =? c) && glob_match ps rs | [] => false end
  | GOne :: ps => match rs with r :: rs => not_separator r && glob_match ps rs | [] => false end
  | GName :: ps => repeated not_separator (glob_match ps) rs
  | GAll :: ps => repeated not_newline (glob_match ps) rs
  | GDirs :: ps =>
    glob_match ps rs
    || repeated not_newline (λ rs, match rs with r :: rs => (r =? 47) && glob_match ps rs | [] => false end) rs
  end.

Definition excluded (rel : string) (globs : list string) : bool :=
  existsb (λ glob, glob_match (globPattern glob) (runes rel)) globs.

(** ** What a walk builds *)
Section Walk.
Context {B C : Type} `{!Backend B} `{!AEAD C} `{!Compressor}.
Variable sha256hex : bytes → string.
Context (cfg : StreamConfig C).

Record Walk := mkWalk {
  wk_repo : B;
  wk_run : FileBackupRun;
  wk_entries : list Entry;
  wk_seen : gset string;
  wk_links : gmap string string
}.

#[local] Abbreviation WM := (ST Walk FileError).

Definition on_repo (f : B → B) (w : Walk) : Walk :=
  mkWalk (f (wk_repo w)) (wk_run w) (wk_entries w) (wk_seen w) (wk_links w).
Definition on_run (f : FileBackupRun → FileBackupRun) (w : Walk) : Walk :=
  mkWalk (wk_repo w) (f (wk_run w)) (wk_entries w) (wk_seen w) (wk_links w).
Definition add_entry (e : Entry) (w : Walk) : Walk :=
  mkWalk (wk_repo w) (wk_run w) (wk_entries w ++ [e]) (wk_seen w) (wk_links w).
Definition see (rel : string) (w : Walk) : Walk :=
  mkWalk (wk_repo w) (wk_run w) (wk_entries w) ({[rel]} ∪ wk_seen w) (wk_links w).
Definition add_link (key rel : string) (w : Walk) : Walk :=
  mkWalk (wk_repo w) (wk_run w) (wk_entries w) (wk_seen w) (<[key := rel]> (wk_links w)).

(** A write to the repository inside a walk. *)
Definition with_repo {A} (f : B → B * result FileError A) : WM A := λ w,
  let '(b, r) := f (wk_repo w) in (on_repo (λ _, b) w, r).

Context (job : FileBackupJob) (prefix : string) (previous : gmap string Entry).

(** The content of the previous run stands for an unchanged file. *)
Definition unchanged (old : Entry) (size mtime : Z) : bool :=
  bool_decide (en_Type old = EntryFile) && (en_Size old =? size) && (en_ModTime old =? mtime).

(** The index of an object is the number of entries so far. *)
Definition next_index : WM Z := w ← get ; mret (Z.of_nat (length (wk_entries w))).

(** * A directory of the server *)

(** [os.FileInfo]; [fi_Sys] is what reflection finds of the device, the inode and
    the number of links. *)
Record FileInfo := mkFileInfo {
  fi_Mode : Z;
  fi_Size : Z;
  fi_ModTime : Z;
  fi_UID : Z;
  fi_GID : Z;
  fi_Sys : option (Z * Z * Z)
}.

Definition is_symlink (mode : Z) : bool := Z.testbit mode 27.
Definition is_directory (mode : Z) : bool := Z.testbit mode 31.

(** [os.ModeType]: directory, symlink, device, named pipe, socket, character
    device, irregular. *)
Definition ModeType : Z :=
  Z.shiftl 1 31 + Z.shiftl 1 27 + Z.shiftl 1 26 + Z.shiftl 1 25 + Z.shiftl 1 24 + Z.shiftl 1 21 + Z.shiftl 1 19.

Definition is_regular (mode : Z) : bool := Z.land mode ModeType =? 0.

(** The same file under several names; empty for a file with one. *)
Definition fileIdentity (info : FileInfo) : string :=
  match fi_Sys info with
  | Some (dev, ino, nlink) => if 1 <? nlink then pretty (Z.to_N dev) +:+ ":" +:+ pretty (Z.to_N ino) else ""
  | None => ""
  end.

(** A node as the walk finds it, with its name: no information is an [Lstat] that
    fails, no children a directory that cannot be read. *)
Inductive LocalNode :=
  mkLocal (name : string) (isDir : bool) (info : option FileInfo) (link : option string) (reads : Observed B)
    (children : option (list LocalNode)).

Definition ln_name (n : LocalNode) : string := match n with mkLocal name _ _ _ _ _ => name end.

Definition type_local (e : Entry) (t : EntryType) (link : string) (data : option DiskManifest) : Entry :=
  mkEntry (en_Path e) t (en_Size e) (en_Mode e) (en_UID e) (en_GID e) (en_ModTime e) link data.

Definition fresh_local (path rel : string) (info : FileInfo) (reads : Observed B) (e : Entry) : WM Entry :=
  index ← next_index ; w ← get ;
  '(m, unstable) ← with_repo (λ b, storeStableFile sha256hex cfg b prefix (fr_ID (wk_run w)) path index
                                     (fi_Size info, fi_ModTime info) (fj_Encrypt job) reads) ;
  (if unstable : bool then modify (on_run (fr_add_unstable rel)) else mret ()) ;;
  modify (on_run (fr_add_stored (dm_StoredBytes m))) ;;
  mret (type_local e EntryFile "" (Some m)).

(** A regular file: another name of a file that was met, a file that has not
    changed since the previous run, or a new one. *)
Definition regular_local (path rel : string) (info : FileInfo) (reads : Observed B) (e : Entry) : WM Entry :=
  modify (on_run (fr_add_file (fi_Size info))) ;;
  w ← get ;
  let key := fileIdentity info in
  let first := default "" (wk_links w !! key) in
  if negb (bool_decide (key = "")) && negb (bool_decide (first = ""))
  then mret (type_local e EntryHardlink first None) else
  (if bool_decide (key = "") then mret () else modify (add_link key rel)) ;;
  match previous !! rel with
  | Some old => if unchanged old (en_Size e) (en_ModTime e) then mret (type_local e EntryFile "" (en_Data old))
                else fresh_local path rel info reads e
  | None => fresh_local path rel info reads e
  end.

(** The callback of [filepath.WalkDir]: whether it returns [SkipDir]. *)
Definition visit_local (root path : string) (isDir : bool) (info : option FileInfo) (link : option string)
    (reads : Observed B) : WM bool :=
  rel ← lift (of_option (FileRead path) (Rel root path)) ;
  let rel := if bool_decide (rel = ".") then "" else rel in
  if excluded rel (fj_ExcludeGlobs job) then mret isDir else
  w ← get ;
  if bool_decide (rel ∈ wk_seen w) then mret false else
  modify (see rel) ;;
  info ← lift (of_option (FileRead path) info) ;
  let e := mkEntry rel EntryFile (fi_Size info) (fi_Mode info) (fi_UID info) (fi_GID info) (fi_ModTime info) "" None in
  if is_symlink (fi_Mode info) then
    link ← lift (of_option (FileRead path) link) ; modify (add_entry (type_local e EntrySymlink link None)) ;; mret false
  else if is_directory (fi_Mode info) then
    modify (on_run fr_add_directory) ;; modify (add_entry (type_local e EntryDirectory "" None)) ;; mret false
  else if is_regular (fi_Mode info) then
    e ← regular_local path rel info reads e ; modify (add_entry e) ;; mret false
  else mret false.

Definition by_name {A} (a b : string * A) : bool := String.ltb a.1 b.1.

(** [filepath.WalkDir]: the node, then its children by name. *)
Fixpoint walk_node (root path : string) (n : LocalNode) : WM () :=
  match n with
  | mkLocal _ isDir info link reads children =>
    skip ← visit_local root path isDir info link reads ;
    if negb isDir || skip then mret () else
    match children with
    | None => fail (FileRead path)
    | Some cs => for_each snd (sort_stable by_name
                   (List.map (λ c, (ln_name c, walk_node root (Join2 path (ln_name c)) c)) cs))
    end
  end.

(** [at_]: what the walk finds at a path it starts from; [is_link] and
    [EvalSymlinks] are those of [safeSourcePath]. *)
Fixpoint walk_includes (root : string) (is_link : string → bool) (EvalSymlinks : string → option string)
    (at_ : string → option LocalNode) (includes : list string) : WM () :=
  match includes with
  | [] => mret ()
  | include :: includes =>
    start ← lift (map_err FilePath (safeSourcePath is_link EvalSymlinks root include)) ;
    n ← lift (of_option (FileRead start) (at_ start)) ;
    walk_node root start n ;;
    walk_includes root is_link EvalSymlinks at_ includes
  end.

Definition walkLocal (root : string) (is_link : string → bool) (EvalSymlinks : string → option string)
    (at_ : string → option LocalNode) : WM () :=
  walk_includes root is_link EvalSymlinks at_
    (if bool_decide (fj_IncludePaths job = []) then ["."] else fj_IncludePaths job).

(** * A connected storage *)

(** Names, sizes and times; no children is a directory that cannot be read. *)
Inductive StorageNode :=
| SFile (name : string) (size mtime : Z)
| SDir (name : string) (mtime : Z) (children : option (list StorageNode)).

Definition sn_name (n : StorageNode) : string := match n with SFile name _ _ | SDir name _ _ => name end.

(** The tree, what [Stat] says of a path, and what the attempts to read an object
    give: its stream and its version afterwards. *)
Record StorageSource := mkSource {
  so_root : StorageNode;
  so_stat : string → option Version;
  so_read : string → nat → result RepoError (Reading B) * option Version
}.

Fixpoint find_node (t : StorageNode) (names : list string) : option StorageNode :=
  match names with
  | [] => Some t
  | c :: names =>
    match t with
    | SDir _ _ (Some children) =>
      match List.find (λ n, bool_decide (sn_name n = c)) children with Some t => find_node t names | None => None end
    | _ => None
    end
  end.

(** [repo.ListDir]. *)
Definition ListDir (source : StorageSource) (dir : string) : option (list StorageNode) :=
  match find_node (so_root source) (if bool_decide (dir = "") then [] else Split slash dir) with
  | Some (SDir _ _ children) => children
  | _ => None
  end.

Definition same_size_time (v : Version) (size mtime : Z) : bool := (v.1 =? size) && (v.2 =? mtime).

(** One read of the object. *)
Definition read_storage (source : StorageSource) (rel : string) (n : nat) (index size : Z) : WM (DiskManifest * Z) :=
  f ← lift (map_err FileRepo (so_read source rel n).1) ; w ← get ;
  with_repo (λ b, storeReader sha256hex cfg b prefix (fr_ID (wk_run w)) rel index (fj_Encrypt job) f size).

Definition after_read (source : StorageSource) (rel : string) (n : nat) : option Version := (so_read source rel n).2.

Definition stable_read (total : Z) (before after : Version) : bool :=
  (total =? before.1) && (after.1 =? before.1) && (after.2 =? before.2).

Definition unstable_path {A} (rel : string) (a : A) : WM A :=
  modify (on_run (fr_add_unstable rel)) ;; mret a.

(** [storageWalk.store]: at most two attempts. *)
Definition store_storage (source : StorageSource) (rel : string) (before : Version) (index : Z) :
    WM (DiskManifest * Z) :=
  '(m, total) ← read_storage source rel 0 index before.1 ;
  match after_read source rel 0 with
  | None => unstable_path rel (m, total)
  | Some after =>
    if stable_read total before after then mret (m, total) else
    modify (on_repo (λ b, drop_object b (dm_DataKey m))) ;;
    '(m, total) ← read_storage source rel 1 index after.1 ;
    match after_read source rel 1 with
    | None => unstable_path rel (m, total)
    | Some last => if stable_read total after last then mret (m, total) else unstable_path rel (m, total)
    end
  end.

Definition storage_directory (rel : string) (mtime : Z) : WM () :=
  modify (add_entry (mkEntry rel EntryDirectory 0 (Z.shiftl 1 31 + 493) 0 0 mtime "" None)) ;;
  modify (on_run fr_add_directory).

(** The size of the entry is what was read. *)
Definition storage_file (source : StorageSource) (rel : string) (v : Version) : WM () :=
  let fresh : WM Entry :=
    index ← next_index ; '(m, total) ← store_storage source rel v index ;
    modify (on_run (fr_add_stored (dm_StoredBytes m))) ;;
    mret (mkEntry rel EntryFile total 420 0 0 v.2 "" (Some m)) in
  e ← match previous !! rel with
      | Some old =>
        if bool_decide (en_Data old ≠ None) && unchanged old v.1 v.2
        then mret (mkEntry rel EntryFile v.1 420 0 0 v.2 "" (en_Data old)) else fresh
      | None => fresh
      end ;
  modify (on_run (fr_add_file (en_Size e))) ;; modify (add_entry e).

(** One name of a directory, and the directory below it. *)
Fixpoint storage_item (source : StorageSource) (rel : string) (n : StorageNode) : WM () :=
  w ← get ;
  if excluded rel (fj_ExcludeGlobs job) || bool_decide (rel ∈ wk_seen w) then mret () else
  modify (see rel) ;;
  match n with
  | SFile _ size mtime => storage_file source rel (size, mtime)
  | SDir _ mtime children =>
    storage_directory rel mtime ;;
    match children with
    | None => fail (FileRead rel)
    | Some cs => for_each snd (sort_stable by_name
                   (List.map (λ c, (sn_name c, storage_item source (Join2 rel (sn_name c)) c)) cs))
    end
  end.

Definition storage_entries (source : StorageSource) (dir : string) (entries : list StorageNode) : WM () :=
  for_each snd (sort_stable by_name
    (List.map (λ c, (sn_name c, storage_item source (Join2 dir (sn_name c)) c)) entries)).

(** A path that is no directory may be one file. *)
Definition storage_include (source : StorageSource) (include : string) : WM () :=
  let rel := CleanDir include in
  if negb (bool_decide (rel = "")) && excluded rel (fj_ExcludeGlobs job) then mret () else
  match ListDir source rel with
  | None =>
    match so_stat source rel with
    | Some v => if bool_decide (rel = "") then fail (FileRead include) else storage_file source rel v
    | None => fail (FileRead include)
    end
  | Some entries =>
    w ← get ;
    (if negb (bool_decide (rel = "")) && negb (bool_decide (rel ∈ wk_seen w))
     then modify (see rel) ;; storage_directory rel zero_time else mret ()) ;;
    storage_entries source rel entries
  end.

Definition walkStorage (source : StorageSource) : WM () :=
  for_each (storage_include source) (if bool_decide (fj_IncludePaths job = []) then [""] else fj_IncludePaths job).
End Walk.

Example glob_examples :
  excluded "cache/object.bin" ["cache/**"] = true ∧ excluded "logs/debug.tmp" ["**/*.tmp"] = true
  ∧ excluded "debug.tmp" ["**/*.tmp"] = true ∧ excluded "data/a.txt" ["data/?.txt"] = true
  ∧ excluded "data/ab.txt" ["data/?.txt"] = false.
Proof. by vm_compute. Qed.
