(* ===== verification/FileWalkFacts.v ===== *)
(** What a walk leaves: objects under the prefix of its run only, and entries
    whose data is in the repository. *)

From S2P Require Import Prelude StateM GoTime GoStr Layout Model Format Repo Codec Writer.
From S2P Require Import Paths FileJobs FileStored FileWalk.

Lemma data_key_inj prefix i j : 0 ≤ i → 0 ≤ j → data_key prefix i = data_key prefix j → i = j.
Proof.
  intros Hi Hj Heq. unfold data_key in Heq. apply app_inj_l, app_inj_l in Heq.
  apply (pad_inj 6); [done..|].
  assert (∀ w z, 0 ≤ z → all_chars (without ".") (pad w z) = true) as Hdot.
  { intros w z Hz. eapply all_chars_impl; [|by apply (proj1 (pad_decimal w z Hz))]. intros c Hc. unfold without.
    apply negb_true_iff. destruct (Ascii.eqb_spec c ".") as [->|]; [|done]. by vm_compute in Hc. }
  apply (component_inj "."%char (pad 6 i) (pad 6 j) "data" "data"); [by apply Hdot..|done].
Qed.

Section WalkFacts.
Context {B C : Type} `{!Backend B} `{!BackendLaws B} `{!AEAD C} `{!Compressor}.
Variable sha256hex : bytes → string.
Context (cfg : StreamConfig C).
Context (job : FileBackupJob) (prefix : string) (previous : gmap string Entry).

(** A read whose upload follows the interface and whose size the format holds. *)
Definition fine (f : Reading B) : Prop := (∀ encrypt key, tame cfg encrypt key f) ∧ fits cfg (rd_data f).

Definition fine_reads (o : Observed B) : Prop :=
  (∀ n f, ob_first o = Some (n, f) → fine f) ∧ (∀ n f, ob_second o = Some (n, f) → fine f).

Inductive fine_node : LocalNode (B := B) → Prop :=
| fine_local name isDir info link reads children :
    fine_reads reads → (∀ cs c, children = Some cs → c ∈ cs → fine_node c) →
    fine_node (mkLocal name isDir info link reads children).

Definition fine_source (source : StorageSource (B := B)) : Prop :=
  ∀ rel n f, (so_read source rel n).1 = Ok f → fine f.

(** The repository and the row the walk began with. *)
Context (b0 : B) (run0 : FileBackupRun).

(** What a walk does not write in a row. *)
Definition same_row (r r' : FileBackupRun) : Prop :=
  fr_ID r' = fr_ID r ∧ fr_JobID r' = fr_JobID r ∧ fr_RootID r' = fr_RootID r
  ∧ fr_StorageTargetID r' = fr_StorageTargetID r ∧ fr_ParentRunID r' = fr_ParentRunID r ∧ fr_Status r' = fr_Status r
  ∧ fr_ManifestKey r' = fr_ManifestKey r ∧ fr_Error r' = fr_Error r ∧ fr_StartedAt r' = fr_StartedAt r
  ∧ fr_EndedAt r' = fr_EndedAt r ∧ fr_CreatedAt r' = fr_CreatedAt r.

Definition held (b : B) (d : DiskManifest) : Prop := ∃ data, holds_file sha256hex cfg b d data.

(** Data of this run, or of the previous one. *)
Definition own (n : Z) (d : DiskManifest) : Prop := ∃ i, 0 ≤ i < n ∧ dm_DataKey d = data_key prefix i.
Definition inherited (d : DiskManifest) : Prop := ∃ rel old, previous !! rel = Some old ∧ en_Data old = Some d.

Record good_entry (b : B) (n : Z) (e : Entry) : Prop := {
  ge_data : en_Type e = EntryFile → en_Data e ≠ None;
  ge_held : ∀ d, en_Data e = Some d → held b d ∧ (own n d ∨ inherited d)
}.

(** The previous run's data lies elsewhere and is there. *)
Definition previous_ok : Prop := ∀ rel old, previous !! rel = Some old →
  (en_Type old = EntryFile → en_Data old ≠ None)
  ∧ ∀ d, en_Data old = Some d → held b0 d ∧ ∀ i, dm_DataKey d ≠ data_key prefix i.

Hypothesis previous_fine : previous_ok.

Record walked (w : Walk (B := B)) : Prop := {
  wd_others : ∀ key, (∀ i, key ≠ data_key prefix i) → Get (wk_repo w) key = Get b0 key;
  wd_entries : ∀ e, e ∈ wk_entries w → good_entry (wk_repo w) (Z.of_nat (length (wk_entries w))) e;
  wd_row : same_row run0 (wk_run w)
}.

Lemma held_frame b b' d : Get b' (dm_DataKey d) = Get b (dm_DataKey d) → held b d → held b' d.
Proof using. intros Hk [data Hd]. exists data. by eapply holds_file_frame. Qed.

Lemma same_row_trans r1 r2 r3 : same_row r1 r2 → same_row r2 r3 → same_row r1 r3.
Proof using.
  intros (?&?&?&?&?&?&?&?&?&?&?) (?&?&?&?&?&?&?&?&?&?&?). unfold same_row. split_and!; by etrans.
Qed.

(** A write at the next index leaves the entries alone. *)
Lemma walked_write w b :
  walked w → same_but (data_key prefix (Z.of_nat (length (wk_entries w)))) (wk_repo w) b →
  walked (on_repo (λ _, b) w).
Proof using previous_fine.
  intros [Ho He Hr] Hb. split; cbn; [|intros e Hin|done].
  - intros key Hk. rewrite Hb by done. by apply Ho.
  - destruct (He e Hin) as [Hd Hh]. split; [done|]. intros d Hed. destruct (Hh d Hed) as [Hheld Hown].
    split; [|done]. eapply held_frame; [|exact Hheld]. apply Hb.
    destruct Hown as [(i & Hi & ->)|(rel & old & Hold & Hd')].
    + intros Heq%data_key_inj; lia.
    + apply (proj2 (previous_fine _ _ Hold) d Hd').
Qed.

Lemma walked_run f w : (∀ r, same_row r (f r)) → walked w → walked (on_run f w).
Proof using. intros Hf [Ho He Hr]. split; [done|done|]. cbn. by eapply same_row_trans. Qed.

Lemma walked_see rel w : walked w → walked (see rel w).
Proof using. by intros []. Qed.

Lemma walked_link key rel w : walked w → walked (add_link key rel w).
Proof using. by intros []. Qed.

Lemma good_entry_mono b n n' e : n ≤ n' → good_entry b n e → good_entry b n' e.
Proof using.
  intros Hn [Hd Hh]. split; [done|]. intros d Hed. destruct (Hh d Hed) as [? [(i & ? & ?)|?]]; (split; [done|]).
  - left. exists i. split; [lia|done].
  - by right.
Qed.

Lemma walked_add e w :
  walked w → good_entry (wk_repo w) (Z.of_nat (S (length (wk_entries w)))) e → walked (add_entry e w).
Proof using.
  intros [Ho He Hr] Hge. split; cbn; [done| |done]. rewrite length_app. cbn. rewrite Nat.add_1_r.
  intros x [Hx|Hx%list_elem_of_singleton]%elem_of_app; [|by subst x].
  eapply good_entry_mono; [|by apply He]. lia.
Qed.

(** Entries without data. *)
Lemma good_plain b n e : en_Type e ≠ EntryFile → en_Data e = None → good_entry b n e.
Proof using. intros Ht Hd. split; [done|]. intros d. by rewrite Hd. Qed.

Lemma good_inherited w rel old e :
  walked w → previous !! rel = Some old → en_Type old = EntryFile → en_Data e = en_Data old →
  good_entry (wk_repo w) (Z.of_nat (S (length (wk_entries w)))) e.
Proof using previous_fine.
  intros [Ho _ _] Hold Ht Hd. destruct (previous_fine _ _ Hold) as [Hsome Hheld]. split.
  - intros _. rewrite Hd. by apply Hsome.
  - intros d. rewrite Hd. intros Hed. destruct (Hheld d Hed) as [Hh Hk]. split.
    + eapply held_frame; [|exact Hh]. by apply Ho.
    + right. by exists rel, old.
Qed.

(** An entry that is ready to be added. *)
Definition ready_entry (r : result FileError Entry) (w : Walk (B := B)) : Prop :=
  walked w ∧ ∀ e, r = Ok e → good_entry (wk_repo w) (Z.of_nat (S (length (wk_entries w)))) e.

Lemma fine_tame reads : fine_reads reads →
  (∀ key, both_tame cfg (fj_Encrypt job) key reads) ∧ both_fit cfg reads.
Proof using.
  intros [H1 H2]. split; [intros key|]; split; intros n f Hf; [by destruct (H1 _ _ Hf)|by destruct (H2 _ _ Hf)|..].
  - by destruct (H1 _ _ Hf).
  - by destruct (H2 _ _ Hf).
Qed.

Lemma good_fresh b n d e :
  0 ≤ n → en_Data e = Some d → held b d → dm_DataKey d = data_key prefix n → good_entry b (n + 1) e.
Proof using.
  intros Hn Hd Hh Hk. split; [by rewrite Hd|]. intros d' Hd'. rewrite Hd in Hd'. injection Hd' as <-.
  split; [done|]. left. exists n. split; [lia|done].
Qed.

Lemma fresh_local_ok path rel info reads e :
  fine_reads reads → hoare walked (fresh_local sha256hex cfg job prefix path rel info reads e) ready_entry.
Proof using BackendLaws0 previous_fine.
  intros Hf w Hw. destruct (fine_tame _ Hf) as [Ht Hfit]. unfold fresh_local, next_index, with_repo. run_st.
  set (n := Z.of_nat (length (wk_entries w))).
  pose proof (storeStableFile_same sha256hex cfg (wk_repo w) prefix (fr_ID (wk_run w)) path n
    (fi_Size info, fi_ModTime info) (fj_Encrypt job) reads (Ht _)) as Hs.
  destruct (storeStableFile _ _ _ _ _ _ _ _ _ _) as [b [[m u]|err]] eqn:Hst; cbn in Hs |- *.
  - destruct (storeStableFile_ok _ _ _ _ _ _ _ _ _ _ _ _ _ (Ht _) Hfit Hst) as (Hk & k & f & _ & Hh & _).
    assert (walked (on_repo (λ _, b) w)) as Hw1 by (by apply walked_write).
    destruct u; cbn; (split; [repeat apply walked_run; by try done|]); intros e' [= <-]; cbn;
      rewrite Nat2Z.inj_succ; (eapply good_fresh; [lia|done|by exists (rd_data f)|exact Hk]).
  - split; [by apply walked_write|done].
Qed.

Lemma ready_bind {A} (m : ST (Walk (B := B)) FileError A) f :
  keeps walked m → (∀ a, hoare walked (f a) ready_entry) → hoare walked (m ≫= f) ready_entry.
Proof using.
  intros Hm Hf. eapply hoare_bind; [|exact Hf]. eapply hoare_weaken; [exact Hm|done|].
  intros [a|e] w Hw; [exact Hw|split; [exact Hw|done]].
Qed.

Lemma regular_local_ok path rel info reads e :
  fine_reads reads → hoare walked (regular_local sha256hex cfg job prefix previous path rel info reads e) ready_entry.
Proof using BackendLaws0 previous_fine.
  intros Hf. unfold regular_local. apply ready_bind; [apply keeps_modify; intros; by apply walked_run|]. intros _.
  apply ready_bind; [apply keeps_get|]. intros w0.
  destruct (_ && _); [intros w Hw; split; [done|]; intros e' [= <-]; by apply good_plain|].
  apply ready_bind.
  { destruct (bool_decide _); [apply keeps_ret|]. apply keeps_modify. intros. by apply walked_link. }
  intros _. destruct (previous !! rel) as [old|] eqn:Hold; [|by apply fresh_local_ok].
  destruct (unchanged old (en_Size e) (en_ModTime e)) eqn:Hu; [|by apply fresh_local_ok].
  intros w Hw. split; [done|]. intros e' [= <-]. unfold unchanged in Hu. bprop.
  eapply good_inherited; [done|exact Hold|by bprop|done].
Qed.

Lemma visit_local_keeps root path isDir info link reads :
  fine_reads reads → keeps walked (visit_local sha256hex cfg job prefix previous root path isDir info link reads).
Proof using BackendLaws0 previous_fine.
  intros Hf. unfold visit_local. apply keeps_bind; [apply keeps_lift|]. intros rel.
  generalize (if bool_decide (rel = ".") then "" else rel). intros rel'.
  destruct (excluded rel' (fj_ExcludeGlobs job)); [apply keeps_ret|].
  apply keeps_bind; [apply keeps_get|]. intros w. destruct (bool_decide _); [apply keeps_ret|].
  apply keeps_bind; [apply keeps_modify; intros; by apply walked_see|]. intros _.
  apply keeps_bind; [apply keeps_lift|]. intros info'.
  destruct (is_symlink _).
  { apply keeps_bind; [apply keeps_lift|]. intros l. apply keeps_bind; [|intros _; apply keeps_ret].
    apply keeps_modify. intros w' Hw'. apply walked_add; [done|]. by apply good_plain. }
  destruct (is_directory _).
  { apply keeps_bind; [apply keeps_modify; intros; by apply walked_run|]. intros _.
    apply keeps_bind; [|intros _; apply keeps_ret]. apply keeps_modify. intros w' Hw'. apply walked_add; [done|].
    by apply good_plain. }
  destruct (is_regular _); [|apply keeps_ret].
  eapply hoare_bind; [eapply hoare_weaken; [by apply regular_local_ok|done|]|].
  - intros [e|err] w' [Hw' Hge]; [exact (conj Hw' (Hge e eq_refl))|exact Hw'].
  - intros e w' [Hw' Hge]. run_st. cbn. by apply walked_add.
Qed.

Lemma for_each_sorted {A} (f : A → string) (act : A → ST (Walk (B := B)) FileError ()) (l : list A) :
  (∀ a, a ∈ l → keeps walked (act a)) →
  keeps walked (for_each snd (sort_stable by_name (List.map (λ a, (f a, act a)) l))).
Proof using.
  intros Hl. apply keeps_for_each. intros [name m] Hin. apply sort_stable_elem_of in Hin.
  apply list_elem_of_fmap in Hin as (a & [= -> ->] & Ha). cbn. by apply Hl.
Qed.

Lemma walk_node_keeps root n : fine_node n → ∀ path,
  keeps walked (walk_node sha256hex cfg job prefix previous root path n).
Proof using BackendLaws0 previous_fine.
  induction 1 as [name isDir info link reads children Hf _ IH]; intros path. cbn [walk_node].
  apply keeps_bind; [by apply visit_local_keeps|]. intros skip. destruct (negb isDir || skip); [apply keeps_ret|].
  destruct children as [cs|]; [|apply keeps_fail].
  apply (for_each_sorted ln_name (λ c, walk_node sha256hex cfg job prefix previous root (Join2 path (ln_name c)) c)).
  intros c Hc. by eapply IH.
Qed.

Lemma walkLocal_keeps root is_link Eval at_ :
  (∀ path n, at_ path = Some n → fine_node n) →
  keeps walked (walkLocal sha256hex cfg job prefix previous root is_link Eval at_).
Proof using BackendLaws0 previous_fine.
  intros Hn. unfold walkLocal. generalize (if bool_decide (fj_IncludePaths job = []) then ["."] else fj_IncludePaths job).
  intros includes. induction includes as [|i includes IH]; cbn; [apply keeps_ret|].
  apply keeps_bind; [apply keeps_lift|]. intros start.
  destruct (at_ start) as [n|] eqn:Hat; [|by intros w Hw].
  eapply (hoare_bind _ _ _ (λ n' w, walked w ∧ n' = n)); [by intros w Hw|]. intros n' w [Hw ->].
  revert w Hw. apply keeps_bind; [apply walk_node_keeps; by eapply Hn|done].
Qed.

(** ** Storages *)
Lemma read_storage_ok source rel n index size : fine_source source →
  hoare (λ w, walked w ∧ index = Z.of_nat (length (wk_entries w)))
    (read_storage sha256hex cfg job prefix source rel n index size)
    (λ r w, (walked w ∧ index = Z.of_nat (length (wk_entries w)))
       ∧ ∀ d, r = Ok d → held (wk_repo w) d.1 ∧ dm_DataKey d.1 = data_key prefix index).
Proof using BackendLaws0 previous_fine.
  intros Hf w [Hw Hi]. unfold read_storage, with_repo. run_st.
  destruct (so_read source rel n).1 as [f|e] eqn:Hr; cbn; [|done]. destruct (Hf _ _ _ Hr) as [Ht Hfit].
  pose proof (storeReader_same sha256hex cfg (wk_repo w) prefix (fr_ID (wk_run w)) rel index (fj_Encrypt job) f size (Ht _ _)) as Hs.
  destruct (storeReader _ _ _ _ _ _ _ _ _ _) as [b [[m t]|err]] eqn:Hst; cbn in Hs |- *.
  - destruct (storeReader_ok _ _ _ _ _ _ _ _ _ _ _ _ _ (Ht _ _) Hfit Hst) as (_ & _ & Hh & Hk & _).
    split; [split; [|done]; apply walked_write; [done|by rewrite <-Hi]|]. intros d [= <-]. cbn. split; [by eexists|done].
  - split; [|done]. split; [|done]. apply walked_write; [done|by rewrite <-Hi].
Qed.

Definition stored_at (index : Z) (r : result FileError (DiskManifest * Z)) (w : Walk (B := B)) : Prop :=
  (walked w ∧ index = Z.of_nat (length (wk_entries w)))
  ∧ ∀ d, r = Ok d → held (wk_repo w) d.1 ∧ dm_DataKey d.1 = data_key prefix index.

Lemma unstable_path_ok rel index d : 
  hoare (stored_at index (Ok d)) (unstable_path rel d) (stored_at index).
Proof using. intros w [[Hw Hi] Hd]. unfold unstable_path. run_st. cbn. split; [split; [by apply walked_run|done]|exact Hd]. Qed.

Lemma store_storage_ok source rel before index : fine_source source →
  hoare (λ w, walked w ∧ index = Z.of_nat (length (wk_entries w)))
    (store_storage sha256hex cfg job prefix source rel before index) (stored_at index).
Proof using BackendLaws0 previous_fine.
  intros Hf. unfold store_storage.
  assert (∀ n size f, (∀ d, hoare (stored_at index (Ok d)) (f d) (stored_at index)) →
    hoare (λ w, walked w ∧ index = Z.of_nat (length (wk_entries w)))
      (read_storage sha256hex cfg job prefix source rel n index size ≫= f) (stored_at index)) as Hread.
  { intros n size f Hd. eapply hoare_bind; [|exact Hd]. eapply hoare_weaken; [by apply read_storage_ok|done|].
    intros [d|e] w Hr; exact Hr. }
  apply Hread. intros [m t]. destruct (after_read source rel 0) as [after|]; [|apply unstable_path_ok].
  destruct (stable_read t before after); [by intros w Hw|].
  eapply (hoare_bind _ _ _ (λ _ w, walked w ∧ index = Z.of_nat (length (wk_entries w)))).
  - intros w [[Hw Hi] Hd]. cbn. split; [|done]. destruct (Hd _ eq_refl) as [_ Hk]. cbn in Hk.
    change (walked (on_repo (λ _, drop_object (wk_repo w) (dm_DataKey m)) w)). apply walked_write; [done|].
    rewrite <-Hi, <-Hk. apply drop_object_same.
  - intros _. apply Hread. intros [m2 t2]. destruct (after_read source rel 1); [|apply unstable_path_ok].
    destruct (stable_read t2 after _); [by intros w Hw|apply unstable_path_ok].
Qed.

Lemma storage_directory_keeps rel mtime : keeps walked (storage_directory (B := B) rel mtime).
Proof using.
  apply keeps_bind; [|intros _; apply keeps_modify; intros; by apply walked_run].
  apply keeps_modify. intros w Hw. apply walked_add; [done|]. by apply good_plain.
Qed.

Lemma storage_file_keeps source rel v : fine_source source →
  keeps walked (storage_file sha256hex cfg job prefix previous source rel v).
Proof using BackendLaws0 previous_fine.
  intros Hf. unfold storage_file. eapply (hoare_bind _ _ _ (λ e, ready_entry (Ok e))).
  - assert (∀ (m : ST (Walk (B := B)) FileError Entry), hoare walked m ready_entry →
      hoare walked m (λ r w, match r with Ok e => ready_entry (Ok e) w | Err _ => walked w end)) as Hweak.
    { intros m Hm. eapply hoare_weaken; [exact Hm|done|]. intros [e|e] w Hw; [exact Hw|by destruct Hw]. }
    apply Hweak. clear Hweak.
    set (fresh := next_index ≫= _ : ST (Walk (B := B)) FileError Entry).
    assert (hoare walked fresh ready_entry) as Hfresh.
    { intros w Hw. subst fresh. unfold next_index. run_st.
      pose proof (store_storage_ok source rel v (Z.of_nat (length (wk_entries w))) Hf w (conj Hw eq_refl)) as Hst.
      destruct (store_storage _ _ _ _ _ _ _ _ w) as [w1 [[m t]|e]]; destruct Hst as [[Hw1 Hi] Hd]; [|by split].
      destruct (Hd _ eq_refl) as [Hh Hk]. cbn in Hh, Hk, Hi |- *. split; [by apply walked_run|]. intros e [= <-]. cbn.
      rewrite Nat2Z.inj_succ, <-Z.add_1_r, <-Hi. eapply good_fresh; [lia|done|done|exact Hk]. }
    destruct (previous !! rel) as [old|] eqn:Hold; [|exact Hfresh].
    destruct (bool_decide (en_Data old ≠ None) && unchanged old v.1 v.2) eqn:Hu; [|exact Hfresh].
    intros w Hw. split; [done|]. intros e [= <-]. unfold unchanged in Hu. bprop.
    eapply good_inherited; [done|exact Hold|by bprop|done].
  - intros e w [Hw Hge]. run_st. cbn. apply walked_add; [by apply walked_run|]. cbn. by apply Hge.
Qed.

(** Induction on the tree of a storage. *)
Lemma StorageNode_ind' (P : StorageNode → Prop) :
  (∀ name size mtime, P (SFile name size mtime)) →
  (∀ name mtime children, (∀ cs c, children = Some cs → c ∈ cs → P c) → P (SDir name mtime children)) →
  ∀ n, P n.
Proof using.
  intros Hfile Hdir. fix IH 1. intros [name size mtime|name mtime children]; [apply Hfile|].
  destruct children as [l|]; [|apply Hdir; intros cs c Hcs; discriminate Hcs].
  assert (Forall P l) as Hl by (induction l as [|x l IHl]; constructor; [apply IH|exact IHl]).
  apply Hdir. intros cs c [= <-] Hc. rewrite Forall_forall in Hl. by apply Hl.
Qed.

Lemma storage_item_keeps source n : fine_source source → ∀ rel,
  keeps walked (storage_item sha256hex cfg job prefix previous source rel n).
Proof using BackendLaws0 previous_fine.
  intros Hf. induction n as [name size mtime|name mtime children IH] using StorageNode_ind'; intros rel;
    cbn [storage_item]; (apply keeps_bind; [apply keeps_get|]); intros w;
    (destruct (_ || _); [apply keeps_ret|]);
    (apply keeps_bind; [apply keeps_modify; intros; by apply walked_see|]); intros _.
  - by apply storage_file_keeps.
  - apply keeps_bind; [apply storage_directory_keeps|]. intros _. destruct children as [cs|]; [|apply keeps_fail].
    apply (for_each_sorted sn_name (λ c, storage_item sha256hex cfg job prefix previous source (Join2 rel (sn_name c)) c)).
    intros c Hc. by eapply IH.
Qed.

Lemma walkStorage_keeps source : fine_source source →
  keeps walked (walkStorage sha256hex cfg job prefix previous source).
Proof using BackendLaws0 previous_fine.
  intros Hf. unfold walkStorage. apply keeps_for_each. intros include _. unfold storage_include.
  destruct (_ && _); [apply keeps_ret|]. destruct (ListDir source (CleanDir include)) as [entries|].
  - apply keeps_bind; [apply keeps_get|]. intros w. apply keeps_bind.
    + destruct (_ && _); [|apply keeps_ret]. apply keeps_bind; [apply keeps_modify; intros; by apply walked_see|].
      intros _. apply storage_directory_keeps.
    + intros _. unfold storage_entries.
      apply (for_each_sorted sn_name (λ c, storage_item sha256hex cfg job prefix previous source
        (Join2 (CleanDir include) (sn_name c)) c)).
      intros c _. by apply storage_item_keeps.
  - destruct (so_stat source (CleanDir include)) as [v|]; [|apply keeps_fail].
    destruct (bool_decide _); [apply keeps_fail|]. by apply storage_file_keeps.
Qed.
End WalkFacts.
