(* ===== verification/FileEngine.v ===== *)
(** The engine of file backups ([filebackup/engine.go],
    [filebackup/storage_source.go]): starting a job, one run, the copies on the
    other storages, retention and deletion.

    Goroutines are steps in the order in which they are started. What the source
    shows, the clock and the fresh identifiers are arguments; what a parallel run
    leaves on its mirrors is one too. *)

From S2P Require Import Prelude StateM GoTime GoStr Layout Model Retention Format Repo Codec Writer.
From S2P Require Import Paths FileJobs FileStored FileWalk.

(** Deletion by prefix and the copy a storage makes itself
    ([repo.CopyOptimized]; [None]: not applicable). *)
Class BulkBackend (B : Type) := {
  DeletePrefix : B → string → B * option RepoError;
  CopyOptimized : B → B → string → Z → option (result RepoError (Z * B))
}.

Class BulkLaws (B : Type) `{!Backend B} `{!BulkBackend B} : Prop := {
  prefix_deleted b prefix b' :
    DeletePrefix b prefix = (b', None) → ∀ key, String.prefix prefix key = true → is_ok (Get b' key) = false;
  prefix_others b prefix key :
    String.prefix prefix key = false → Get (DeletePrefix b prefix).1 key = Get b key;
  optimized_copies src dst key size n dst' data :
    CopyOptimized src dst key size = Some (Ok (n, dst')) → Get src key = Ok data →
    Get dst' key = Ok data ∧ ∀ key', key' ≠ key → Get dst' key' = Get dst key'
}.

Section Engine.
Context {B C : Type} `{!Backend B} `{!BulkBackend B} `{!AEAD C} `{!Compressor} `{!FileDocuments} `{!Unicode}.
Variable sha256hex : bytes → string.
Context (cfg : StreamConfig C) (roots : list FileBackupRoot).
(** The text of an error in a row, and a fresh identifier. *)
Context (error_text : FileError → string) (fresh : nat → string).

(** ** Sources *)
Definition OpenStorageSource (targetID : string) : FM B StorageTarget :=
  target ← GetFileTarget targetID ;
  if negb (tgt_Enabled target) then fail (FileSourceDisabled targetID) else
  if negb (ListsDirs (tgt_Kind target)) then fail (FileSourceNotDirs targetID) else
  open_repo targetID ;; mret target.

Definition RootExists (rootID : string) : FM B () :=
  match StorageRootTarget rootID with
  | Some targetID =>
    target ← GetFileTarget targetID ;
    if negb (tgt_Enabled target) then fail (FileSourceDisabled targetID) else
    if negb (ListsDirs (tgt_Kind target)) then fail (FileSourceNotDirs targetID) else mret ()
  | None => if (FileBackupConfig_Root roots rootID).2 then mret () else fail (FileRootUnknown rootID)
  end.

(** What a run meets outside: the clock, the resolution of the root, the nodes of
    the directory tree, the storages that can be sources, and what the pipes
    leave on the mirrors. *)
Record RunWorld := mkRunWorld {
  ew_started : Z;
  ew_ended : Z;
  ew_canonical : string → option string;
  ew_is_link : string → bool;
  ew_EvalSymlinks : string → option string;
  ew_at : string → option (LocalNode (B := B));
  ew_storage : string → StorageSource (B := B);
  ew_mirrored : string → B → B
}.

(** ** One run *)
Record Exec := mkExec { ex_store : FileStore B; ex_run : FileBackupRun }.

#[local] Abbreviation EM := (ST Exec FileError).

Definition in_store {A} (m : FM B A) : EM A := λ x,
  let '(s, r) := m (ex_store x) in (mkExec s (ex_run x), r).
Definition set_run (f : FileBackupRun → FileBackupRun) : EM () := modify (λ x, mkExec (ex_store x) (f (ex_run x))).

Definition run_prefix (rootID : string) (createdAt : Z) (runID : string) : string :=
  let '(y, m, d) := civil_from_days (days_of createdAt) in
  Root +:+ "/files/" +:+ Segment rootID +:+ "/" +:+ pad 4 y +:+ "/" +:+ pad 2 m +:+ "/" +:+ pad 2 d
    +:+ "/" +:+ Segment runID +:+ "/".

Definition files_manifest_key (prefix : string) : string := prefix +:+ "files.manifest".

(** The source: a directory of the server ([inl]) or a storage. *)
Definition choose_source (w : RunWorld) (job : FileBackupJob) (run : FileBackupRun) :
    FM B (string + StorageSource (B := B)) :=
  match StorageRootTarget (fj_RootID job) with
  | Some sourceID =>
    if bool_decide (sourceID = fr_StorageTargetID run) then fail FileSameStorage
    else OpenStorageSource sourceID ;; mret (inr (ew_storage w sourceID))
  | None =>
    let path := ro_Path (FileBackupConfig_Root roots (fj_RootID job)).1 in
    root ← lift (of_option (FileRead path) (ew_canonical w path)) ; mret (inl root)
  end.

Definition choose_target (run : FileBackupRun) : FM B StorageTarget :=
  target ← GetFileTarget (fr_StorageTargetID run) ;
  if negb (tgt_Enabled target) then fail (FileTargetDisabled (tgt_Name target)) else
  if tgt_ReadOnly target then fail (FileTargetReadOnly (tgt_Name target)) else mret target.

(** The other storages of a parallel run that can be opened. *)
Fixpoint open_mirrors (ids : list string) : FM B (list string) :=
  match ids with
  | [] => mret []
  | id :: ids =>
    r ← try (target ← GetFileTarget id ;
             if negb (tgt_Enabled target) || tgt_ReadOnly target then fail (FileTargetDisabled id)
             else open_repo (tgt_ID target)) ;
    rest ← open_mirrors ids ;
    mret (match r with Ok _ => id :: rest | Err _ => rest end)
  end.

Definition mirror_ids (job : FileBackupJob) : list string :=
  match fj_StorageMode job with StorageModeParallel => tail (fj_StorageTargetIDs job) | _ => [] end.

(** The parent of an incremental run, with the entries its document shows. *)
Definition choose_parent (job : FileBackupJob) (targetID : string) (b : B) : EM (string * gmap string Entry) :=
  if fj_Incremental job then
    parent ← try (in_store (LatestSuccessfulFileBackupRun (fj_ID job) targetID)) ;
    match parent with
    | Ok parent =>
      set_run (fr_set_parent (fr_ID parent)) ;;
      mret (fr_ID parent, match readManifest b (fr_ManifestKey parent) with
                          | Ok old => entriesByPath (mf_Entries old)
                          | Err _ => ∅
                          end)
    | Err _ => mret (EmptyString, ∅)
    end
  else mret (EmptyString, ∅).

Definition by_path (a b : Entry) : bool := String.ltb (en_Path a) (en_Path b).

(** The walk over the source into the repository. *)
Definition copy_source (w : RunWorld) (job : FileBackupJob) (targetID prefix : string) (b : B)
    (previous : gmap string Entry) (source : string + StorageSource (B := B)) : EM (list Entry) := λ x,
  let start := mkWalk b (ex_run x) [] ∅ ∅ in
  let '(wk, r) :=
    match source with
    | inl root => walkLocal sha256hex cfg job prefix previous root (ew_is_link w) (ew_EvalSymlinks w) (ew_at w) start
    | inr storage => walkStorage sha256hex cfg job prefix previous storage start
    end in
  let '(s, _) := save_repo targetID (wk_repo wk) (ex_store x) in
  (mkExec s (wk_run wk), (λ _ : (), wk_entries wk) <$> r).

Definition final_status (job : FileBackupJob) (run : FileBackupRun) : RunStatus :=
  match fj_StorageMode job with
  | StorageModeSeparate => if bool_decide (fr_UnstablePaths run = []) then RunSucceeded else RunPartial
  | _ => if bool_decide (1 < length (fj_StorageTargetIDs job))%nat then RunWaitingCopies
         else if bool_decide (fr_UnstablePaths run = []) then RunSucceeded else RunPartial
  end.

(** The document last: it makes the run a point. *)
Definition commit (job : FileBackupJob) (targetID prefix parent : string) (entries : list Entry) : EM () :=
  x ← get ;
  let run := ex_run x in
  body ← lift (of_option FileEncode (EncodeManifest (mkManifest FilesFormat FilesManifestVersion (fr_ID run) parent
    (fj_RootID job) (fr_CreatedAt run) (sort_stable by_path entries)))) ;
  set_run (fr_set_key (files_manifest_key prefix)) ;;
  b ← lift (of_option (FileConnect targetID) (ft_repos (ex_store x) !! targetID)) ;
  '(n, b) ← lift (map_err FileRepo (Put b (files_manifest_key prefix) body)) ;
  in_store (save_repo targetID b) ;;
  set_run (fr_add_stored n).

Definition execute_body (w : RunWorld) (job : FileBackupJob) : EM () :=
  x ← get ;
  source ← in_store (choose_source w job (ex_run x)) ;
  target ← in_store (choose_target (ex_run x)) ;
  b ← in_store (open_repo (tgt_ID target)) ;
  in_store (open_mirrors (mirror_ids job)) ;;
  let prefix := run_prefix (fj_RootID job) (fr_CreatedAt (ex_run x)) (fr_ID (ex_run x)) in
  '(parent, previous) ← choose_parent job (tgt_ID target) b ;
  entries ← copy_source w job (tgt_ID target) prefix b previous source ;
  if negb (hasContent entries) then fail (FileEmptySource (fj_IncludePaths job)) else
  commit job (tgt_ID target) prefix parent entries ;;
  set_run (λ run, fr_set_status (final_status job run) (fr_Error run) (fr_StartedAt run)
    (match final_status job run with RunWaitingCopies => None | _ => Some (ew_ended w) end) run).

(** The row and the run in memory; the error of a failed run is returned after
    its row is marked. *)
Definition execute (w : RunWorld) (job : FileBackupJob) (run : FileBackupRun) :
    FM B (FileBackupRun * result FileError ()) :=
  let run := fr_set_status RunRunning (fr_Error run) (Some (ew_started w)) (fr_EndedAt run) run in
  try (UpdateFileBackupRun run) ;; s ← get ;
  let '(x, r) := execute_body w job (mkExec s run) in
  modify (λ _, with_ft_repos (map_imap (λ id b, Some (if bool_decide (id ∈ mirror_ids job) then ew_mirrored w id b else b))
                                (ft_repos (ex_store x))) (ex_store x)) ;;
  match r with
  | Ok _ => u ← try (UpdateFileBackupRun (ex_run x)) ; mret (ex_run x, u)
  | Err e =>
    let run := fr_set_status RunFailed (error_text e) (fr_StartedAt (ex_run x)) (Some (ew_ended w)) (ex_run x) in
    try (UpdateFileBackupRun run) ;; mret (run, Err e)
  end.

(** ** Starting a job *)
Definition createRun (n : nat) (job : FileBackupJob) (targetID : string) (createdAt : Z) : FM B FileBackupRun :=
  CreateFileBackupRun (fresh n)
    (mkFileRun "" (fj_ID job) (fj_RootID job) targetID "" RunPending "" 0 0 0 0 [] "" None None createdAt).

(** A row per storage; the runs that were started before one failed are running. *)
Fixpoint create_runs (n : nat) (job : FileBackupJob) (targets : list string) (createdAt : Z) :
    FM B (list FileBackupRun * result FileError ()) :=
  match targets with
  | [] => mret ([], Ok ())
  | t :: targets =>
    r ← try (createRun n job t createdAt) ;
    match r with
    | Err e => mret ([], Err e)
    | Ok run => rest ← create_runs (S n) job targets createdAt ; mret (run :: rest.1, rest.2)
    end
  end.

(** The runs that begin, and the answer. *)
Definition Start (now : Z) (jobID : string) : FM B (FileBackupJob * list FileBackupRun * result FileError ()) :=
  job ← GetFileBackupJob jobID ;
  if bool_decide (fj_StorageTargetIDs job = []) then fail FileNoTarget else
  RootExists (fj_RootID job) ;;
  if fj_Encrypt job && bool_decide (sc_Cipher cfg = None) then fail FileNoKey else
  r ← create_runs 0 job (match fj_StorageMode job with
                         | StorageModeSeparate => fj_StorageTargetIDs job
                         | _ => take 1 (fj_StorageTargetIDs job)
                         end) now ;
  mret (job, r.1, r.2).

(** ** Copies on the other storages *)
Definition copyObject (source destination : B) (key : string) : result RepoError (Z * B) :=
  info ← Stat source key;
  match Stat destination key with
  | Ok existing =>
    if oi_Size existing =? oi_Size info then Ok (0, destination) else
    match CopyOptimized source destination key (oi_Size info) with
    | Some r => r
    | None => data ← Get source key; Put destination key data
    end
  | Err _ =>
    match CopyOptimized source destination key (oi_Size info) with
    | Some r => r
    | None => data ← Get source key; Put destination key data
    end
  end.

(** The data objects in order, the document last. *)
Definition objects_of (m : Manifest) (manifestKey : string) : list string :=
  sort_strings (elements (list_to_set (List.filter (λ k, negb (bool_decide (k = "")))
    (omap (λ e, dm_DataKey <$> en_Data e) (mf_Entries m))) : gset string)) ++ [manifestKey].

Fixpoint copy_objects (source : B) (targetID : string) (keys : list string) : EM () :=
  match keys with
  | [] => mret ()
  | key :: keys =>
    x ← get ;
    destination ← lift (of_option (FileConnect targetID) (ft_repos (ex_store x) !! targetID)) ;
    '(n, destination) ← lift (map_err FileRepo (copyObject source destination key)) ;
    in_store (save_repo targetID destination) ;; set_run (fr_add_stored n) ;;
    copy_objects source targetID keys
  end.

(** The row of a copy: the figures and the key of the primary. *)
Definition secondary_run (started : Z) (primary run : FileBackupRun) : FileBackupRun :=
  mkFileRun (fr_ID run) (fr_JobID run) (fr_RootID run) (fr_StorageTargetID run) (fr_ParentRunID run) RunWaitingCopies
    (fr_ManifestKey primary) (fr_FileCount primary) (fr_DirectoryCount primary) (fr_LogicalBytes primary)
    (fr_StoredBytes run) (fr_UnstablePaths primary) (fr_Error run) (Some started) (fr_EndedAt run) (fr_CreatedAt run).

Definition replicate_body (primary : FileBackupRun) (targetID : string) : EM () :=
  sourceTarget ← in_store (GetFileTarget (fr_StorageTargetID primary)) ;
  destinationTarget ← in_store (GetFileTarget targetID) ;
  source ← in_store (open_repo (tgt_ID sourceTarget)) ;
  in_store (open_repo (tgt_ID destinationTarget)) ;;
  manifest ← lift (readManifest source (fr_ManifestKey primary)) ;
  copy_objects source (tgt_ID destinationTarget) (objects_of manifest (fr_ManifestKey primary)).

Definition replicateRun (n : nat) (now : Z) (job : FileBackupJob) (primary : FileBackupRun) (targetID : string) : FM B () :=
  secondary ← createRun n job targetID (fr_CreatedAt primary) ;
  let secondary := secondary_run now primary secondary in
  parent ← try (LatestSuccessfulFileBackupRun (fj_ID job) targetID) ;
  let secondary := match parent with
                   | Ok p => if bool_decide (fr_ID p = fr_ID secondary) then secondary
                             else fr_set_parent (fr_ID p) secondary
                   | Err _ => secondary
                   end in
  try (UpdateFileBackupRun secondary) ;; s ← get ;
  let '(x, r) := replicate_body primary targetID (mkExec s secondary) in
  modify (λ _, ex_store x) ;;
  let run := ex_run x in
  match r with
  | Ok _ => UpdateFileBackupRun (fr_set_status (if bool_decide (fr_UnstablePaths run = []) then RunSucceeded else RunPartial)
              (fr_Error run) (fr_StartedAt run) (Some now) run)
  | Err e => try (UpdateFileBackupRun (fr_set_status RunFailed (error_text e) (fr_StartedAt run) (Some now) run)) ;; fail e
  end.

(** One more attempt after a failure; how many storages failed. *)
Fixpoint copy_targets (n : nat) (now : Z) (job : FileBackupJob) (primary : FileBackupRun) (targets : list string) : FM B Z :=
  match targets with
  | [] => mret 0
  | t :: targets =>
    r ← try (replicateRun n now job primary t) ;
    r ← (match r with Ok _ => mret (Ok ()) | Err _ => try (replicateRun (S n) now job primary t) end) ;
    failed ← copy_targets (S (S n)) now job primary targets ;
    mret (match r with Ok _ => failed | Err _ => failed + 1 end)
  end.

Definition copies_error (failed total : Z) : string :=
  pretty failed +:+ " of " +:+ pretty total +:+ " required storage copies failed".

Definition finishCopies (n : nat) (now : Z) (job : FileBackupJob) (primary : FileBackupRun) : FM B () :=
  let others := tail (fj_StorageTargetIDs job) in
  failed ← copy_targets n now job primary others ;
  let '(status, error) :=
    if 0 <? failed then (RunPartial, copies_error failed (Z.of_nat (length others)))
    else if bool_decide (fr_UnstablePaths primary = []) then (RunSucceeded, fr_Error primary)
    else (RunPartial, fr_Error primary) in
  try (UpdateFileBackupRun (fr_set_status status error (fr_StartedAt primary) (Some now) primary)) ;; mret ().

(** The goroutine of a job that is not split. *)
Definition run_and_copy (w : RunWorld) (job : FileBackupJob) (run : FileBackupRun) : FM B () :=
  '(run, r) ← execute w job run ;
  match r with
  | Ok _ => if bool_decide (fr_Status run = RunWaitingCopies) then finishCopies 1 (ew_ended w) job run else mret ()
  | Err _ => mret ()
  end.

(** ** The document of a run *)
Definition run_manifest (runID : string) : FM B Manifest :=
  run ← GetFileBackupRun runID ;
  target ← GetFileTarget (fr_StorageTargetID run) ;
  b ← open_repo (tgt_ID target) ;
  lift (readManifest b (fr_ManifestKey run)).

(** ** Deletion *)

(** [key\[:slash+1\]] for the last slash. *)
Definition directory_of (key : string) : option string :=
  match Split slash key with
  | (_ :: _ :: _) as ps => Some (join_slash (removelast ps) +:+ "/")
  | _ => None
  end.

Definition deleteRun (runID : string) : FM B () :=
  run ← GetFileBackupRun runID ;
  target ← GetFileTarget (fr_StorageTargetID run) ;
  b ← open_repo (tgt_ID target) ;
  (if bool_decide (fr_ManifestKey run = "") then mret () else
   match directory_of (fr_ManifestKey run) with
   | None => mret ()
   | Some prefix =>
     let '(b, e) := DeletePrefix b prefix in
     save_repo (tgt_ID target) b ;;
     match e with Some e => fail (FileRepo e) | None => mret () end
   end) ;;
  DeleteFileBackupRun (fr_ID run).

Definition required_by (run : FileBackupRun) (candidate : FileBackupRun) : bool :=
  bool_decide (fr_ParentRunID candidate = fr_ID run) && good_status (fr_Status candidate).

Definition DeleteRun (runID : string) : FM B () :=
  run ← GetFileBackupRun runID ;
  runs ← ListFileBackupRuns (fr_JobID run) 0 ;
  match List.find (required_by run) runs with
  | Some candidate => fail (FileRequired (fr_ID run) (fr_ID candidate))
  | None => deleteRun runID
  end.

(** ** Retention *)
Definition as_backup_run (r : FileBackupRun) : BackupRun :=
  mkBackupRun (fr_ID r) "" "" "" "" "" BackupFull (fr_Status r) (fr_ParentRunID r) "" 0 "" "" "" "" "" ""
    LegacyNone 0 0 (fr_StoredBytes r) false "" "" false None "" None None None None (fr_CreatedAt r) [].

(** The order in which the map of storages is visited. *)
Variable visit : list string → list string.

Definition storages_of (runs : list FileBackupRun) : list string :=
  elements (list_to_set (fr_StorageTargetID <$> runs) : gset string).

(** The program does not return when the parents form a circle. *)
Definition retain_storage (fuel : nat) (now : Z) (policy : RetentionPolicy) (runs : list FileBackupRun) (targetID : string) :
    FM B () :=
  match Apply fuel policy (as_backup_run <$> List.filter (λ r, bool_decide (fr_StorageTargetID r = targetID)) runs) now with
  | None => fail FileRetentionHangs
  | Some d => for_each deleteRun (Retention.Delete d)
  end.

Definition ApplyRetention (fuel : nat) (now : Z) : FM B () :=
  jobs ← ListFileBackupJobs ;
  for_each (λ job,
    runs ← ListFileBackupRuns (fj_ID job) 0 ;
    for_each (retain_storage fuel now (fj_Retention job) runs) (visit (storages_of runs))) jobs.
End Engine.
