(* ===== verification/FilePoints.v ===== *)
(** The points of file backups: what makes a run in the list restorable, and why
    no operation on another run takes it away.

    A point's document is under the prefix of its run and the data it names is
    under the prefixes of the run and of its ancestors, which stay in the list. *)

From S2P Require Import Prelude StateM GoTime GoStr Layout Model Format Repo Codec Writer.
From S2P Require Import Paths FileJobs FileStored FileWalk FileWalkFacts FileEngine.

(** * Prefixes *)
Lemma join_Split s : join_slash (Split slash s) = s.
Proof.
  induction s as [|c s IH]; [done|]. destruct (Ascii.eqb_spec c slash) as [->|Hc].
  - cbn [Split]. rewrite Ascii.eqb_refl. destruct (Split slash s) as [|p ps] eqn:Hs.
    + exfalso. destruct s as [|d s]; cbn in Hs; [done|]. destruct (Ascii.eqb d slash); [done|]. by destruct (Split slash s).
    + change (join_slash ("" :: p :: ps)) with (String slash (join_slash (p :: ps))). by rewrite IH.
  - destruct (Split_cons c s Hc) as (p & ps & Hs & ->). rewrite Hs in IH. rewrite <-IH. by destruct ps.
Qed.

Lemma directory_of_key a b : all_chars no_slash b = true → directory_of (a +:+ String slash b) = Some (a +:+ "/").
Proof.
  intros Hb. unfold directory_of. rewrite Split_app, (Split_one b Hb). pose proof (join_Split a) as Hj.
  destruct (Split slash a) as [|p ps] eqn:Hs.
  - subst a. done.
  - cbn [app]. destruct (ps ++ [b]) as [|q qs] eqn:E; [by destruct ps|].
    assert (removelast (p :: q :: qs) = p :: ps) as Hr by (rewrite <-E; apply (removelast_last (p :: ps))).
    rewrite Hr. by rewrite Hj.
Qed.

Section Prefixes.
Context `{!Unicode}.

Lemma run_prefix_inj rt t id rt' t' id' k :
  String.prefix (run_prefix rt t id) k = true → String.prefix (run_prefix rt' t' id') k = true → Segment id = Segment id'.
Proof.
  intros (s & Hs)%prefix_split (s' & Hs')%prefix_split. rewrite Hs in Hs'. clear Hs k. revert Hs'.
  unfold run_prefix. destruct (civil_from_days _) as [[y m] d], (civil_from_days _) as [[y' m'] d'].
  rewrite !app_assoc_string. unfold Root. intros Heq.
  assert (∀ x y s t, all_chars no_slash x = true → all_chars no_slash y = true →
    (x +:+ "/" +:+ s = y +:+ "/" +:+ t)%string → x = y ∧ s = t) as Hinj.
  { intros x0 y0 s0 t0. rewrite !app_String, !app_Empty. apply (component_inj slash). }
  apply app_inj_l, app_inj_l in Heq.
  apply Hinj in Heq as [_ Heq]; [|apply segment_no_slash..].
  apply Hinj in Heq as [_ Heq]; [|apply pad_no_slash..].
  apply Hinj in Heq as [_ Heq]; [|apply pad_no_slash..].
  apply Hinj in Heq as [_ Heq]; [|apply pad_no_slash..].
  by apply Hinj in Heq as [Hrun _]; [|apply segment_no_slash..].
Qed.

Definition row_prefix (r : FileBackupRun) : string := run_prefix (fr_RootID r) (fr_CreatedAt r) (fr_ID r).

(** Runs with different identifiers have nothing in common. *)
Lemma rows_apart r x key :
  safe_segment (fr_ID r) → safe_segment (fr_ID x) → fr_ID r ≠ fr_ID x →
  String.prefix (row_prefix r) key = true → String.prefix (row_prefix x) key = false.
Proof.
  intros Hr Hx Hne Hk. apply not_true_is_false. intros Hk'. pose proof (run_prefix_inj _ _ _ _ _ _ _ Hk Hk') as Heq.
  rewrite !Segment_id in Heq by done. done.
Qed.

Lemma manifest_under p : String.prefix p (files_manifest_key p) = true.
Proof. apply prefix_app_l. Qed.

Lemma data_under p i : String.prefix p (data_key p i) = true.
Proof. apply prefix_app_l. Qed.

Lemma data_not_manifest p i : data_key p i ≠ files_manifest_key p.
Proof. unfold data_key, files_manifest_key. intros Heq%app_inj_l. done. Qed.

Lemma directory_of_row r : directory_of (files_manifest_key (row_prefix r)) = Some (row_prefix r).
Proof.
  unfold files_manifest_key, row_prefix, run_prefix. destruct (civil_from_days _) as [[y m] d].
  set (a := Root +:+ "/files/" +:+ Segment (fr_RootID r) +:+ "/" +:+ pad 4 y +:+ "/" +:+ pad 2 m +:+ "/" +:+ pad 2 d
    +:+ "/" +:+ Segment (fr_ID r)).
  assert (∀ z, Root +:+ "/files/" +:+ Segment (fr_RootID r) +:+ "/" +:+ pad 4 y +:+ "/" +:+ pad 2 m +:+ "/" +:+ pad 2 d
    +:+ "/" +:+ Segment (fr_ID r) +:+ z = a +:+ z) as Ha by (intros z; subst a; by rewrite !app_assoc_string).
  rewrite (Ha "/"), app_assoc_string. change ("/" +:+ "files.manifest") with (String slash "files.manifest").
  by rewrite directory_of_key.
Qed.
End Prefixes.

(** * Points *)

(** A run and its ancestors in the list. *)
Inductive line (runs : list FileBackupRun) (r : FileBackupRun) : FileBackupRun → Prop :=
| line_self : line runs r r
| line_up p o : line runs r p → o ∈ runs → fr_ID o = fr_ParentRunID p → line runs r o.

Section Points.
Context {B C : Type} `{!Backend B} `{!BackendLaws B} `{!AEAD C} `{!Compressor} `{!FileDocuments} `{!Unicode}.
Variable sha256hex : bytes → string.
Context (cfg : StreamConfig C).

#[local] Abbreviation held := (held sha256hex cfg).

(** The document can be read, and the data of each of its files is there, under
    the prefix of the run or of an ancestor. *)
Definition point (runs : list FileBackupRun) (b : B) (r : FileBackupRun) : Prop :=
  fr_ManifestKey r = files_manifest_key (row_prefix r)
  ∧ ∃ m, readManifest b (fr_ManifestKey r) = Ok m
    ∧ ∀ e, e ∈ mf_Entries m → (en_Type e = EntryFile → en_Data e ≠ None)
        ∧ ∀ d, en_Data e = Some d → held b d
            ∧ ∃ o, line runs r o ∧ String.prefix (row_prefix o) (dm_DataKey d) = true.

Abbreviation good r := (good_status (fr_Status r) = true).

(** A point among the runs that [K] keeps: its parent is there too. *)
Definition row_ok (K : string → Prop) (runs : list FileBackupRun) (repos : gmap string B) (r : FileBackupRun) : Prop :=
  (fr_ParentRunID r ≠ "" → ∃ p, p ∈ runs ∧ fr_ID p = fr_ParentRunID r ∧ K (fr_ID p)
     ∧ fr_StorageTargetID p = fr_StorageTargetID r ∧ fr_JobID p = fr_JobID r)
  ∧ ∃ b, repos !! fr_StorageTargetID r = Some b ∧ point runs b r.

Record points_ok (K : string → Prop) (runs : list FileBackupRun) (repos : gmap string B) : Prop := {
  po_ids : NoDup (fr_ID <$> runs);
  po_safe : ∀ r, r ∈ runs → safe_segment (fr_ID r);
  po_keys : ∀ r, r ∈ runs → fr_ManifestKey r = "" ∨ fr_ManifestKey r = files_manifest_key (row_prefix r);
  po_rank : ∃ rank : string → nat, ∀ r, r ∈ runs → fr_ParentRunID r ≠ "" →
      (rank (fr_ParentRunID r) < rank (fr_ID r))%nat;
  po_parents : ∀ r p, r ∈ runs → p ∈ runs → fr_ID p = fr_ParentRunID r → good p;
  po_rows : ∀ r, r ∈ runs → good r → K (fr_ID r) → row_ok K runs repos r
}.

Lemma row_unique runs r p : NoDup (fr_ID <$> runs) → r ∈ runs → p ∈ runs → fr_ID r = fr_ID p → r = p.
Proof. intros Hnd Hr Hp Heq. by eapply (NoDup_fmap_inj fr_ID runs). Qed.

(** The ancestors of a point are points of the same storage and the same job. *)
Lemma line_good K runs repos r o :
  points_ok K runs repos → r ∈ runs → good r → K (fr_ID r) → line runs r o →
  o ∈ runs ∧ good o ∧ K (fr_ID o) ∧ fr_StorageTargetID o = fr_StorageTargetID r ∧ fr_JobID o = fr_JobID r.
Proof.
  intros Hp Hr Hg HK Hl. induction Hl as [|p o Hl (Hin & Hpg & HpK & Ht & Hj) Ho Hid]; [done|].
  destruct (po_rows _ _ _ Hp p Hin Hpg HpK) as [Hpar _].
  assert (fr_ParentRunID p ≠ "") as Hne by (rewrite <-Hid; by apply (po_safe _ _ _ Hp)).
  destruct (Hpar Hne) as (p' & Hp' & Hid' & HK' & Ht' & Hj').
  assert (o = p') as -> by (apply (row_unique runs); [apply Hp|done|done|congruence]).
  split_and!; [done|by apply (po_parents _ _ _ Hp p p')|done|congruence|congruence].
Qed.

(** What a change leaves of the repositories: the objects outside a prefix. *)
Definition repos_but (prefix : string) (repos repos' : gmap string B) : Prop := ∀ tid b, repos !! tid = Some b →
  ∃ b', repos' !! tid = Some b' ∧ ∀ key, String.prefix prefix key = false → Get b' key = Get b key.

Lemma readManifest_frame b b' key : Get b' key = Get b key → readManifest b' key = readManifest b key.
Proof. intros Hk. unfold readManifest. by rewrite Hk. Qed.

(** What the points need of the repositories: the objects under their prefixes. *)
Definition repos_keep (K : string → Prop) (runs : list FileBackupRun) (repos repos' : gmap string B) : Prop :=
  ∀ tid b, repos !! tid = Some b → ∃ b', repos' !! tid = Some b'
    ∧ ∀ o key, o ∈ runs → good o → K (fr_ID o) → String.prefix (row_prefix o) key = true → Get b' key = Get b key.

Lemma repos_keep_refl K runs repos : repos_keep K runs repos repos.
Proof. intros tid b Hb. by exists b. Qed.

(** A run that is none of the points has a prefix of its own. *)
Lemma repos_but_keep K runs repos repos' x :
  points_ok K runs repos → safe_segment (fr_ID x) →
  (∀ p, p ∈ runs → good p → K (fr_ID p) → fr_ID p ≠ fr_ID x) → repos_but (row_prefix x) repos repos' →
  repos_keep K runs repos repos'.
Proof.
  intros Hp Hs Hne Hb tid b Hrep. destruct (Hb _ _ Hrep) as (b' & Hrep' & Hf). exists b'. split; [done|].
  intros o key Ho Hg HK Hk. apply Hf, (rows_apart o x); [by apply (po_safe _ _ _ Hp)|done|by apply Hne|done].
Qed.

(** A change that keeps the rows of the points and their objects. *)
Lemma row_ok_change K runs repos runs' repos' r :
  points_ok K runs repos → r ∈ runs → good r → K (fr_ID r) →
  (∀ p, p ∈ runs → good p → K (fr_ID p) → p ∈ runs') →
  repos_keep K runs repos repos' → row_ok K runs' repos' r.
Proof.
  intros Hp Hr Hg HK Hkeep Hb. destruct (po_rows _ _ _ Hp r Hr Hg HK) as [Hpar (b & Hrep & Hkey & m & Hm & He)].
  assert (∀ o, line runs r o → line runs' r o) as Hline.
  { intros o Hl. induction Hl as [|p o Hl IH Ho Hid]; [constructor|]. eapply line_up; [exact IH| |exact Hid].
    assert (line runs r o) as Hlo by (by eapply line_up).
    destruct (line_good _ _ _ _ _ Hp Hr Hg HK Hlo) as (? & ? & ? & _). by apply Hkeep. }
  destruct (Hb _ _ Hrep) as (b' & Hrep' & Hframe).
  assert (∀ o key, line runs r o → String.prefix (row_prefix o) key = true → Get b' key = Get b key) as Hget.
  { intros o key Hl. destruct (line_good _ _ _ _ _ Hp Hr Hg HK Hl) as (Hin & Hgo & HKo & _). by apply Hframe. }
  split.
  - intros Hne. destruct (Hpar Hne) as (p & Hin & Hid & HKp & ? & ?). exists p. split_and!; try done.
    apply Hkeep; [done| |done]. by apply (po_parents _ _ _ Hp r p).
  - exists b'. split; [done|]. split; [done|]. exists m. split.
    + rewrite <-Hm. apply readManifest_frame, (Hget r); [constructor|]. rewrite Hkey. apply manifest_under.
    + intros e Hin. destruct (He e Hin) as [Hd Hh]. split; [done|]. intros d Hed. destruct (Hh d Hed) as (Hheld & o & Hl & Hk).
      split; [|exists o; by split; [apply Hline|]]. eapply held_frame; [|exact Hheld]. by apply (Hget o).
Qed.

(** ** Changes of the list *)
Lemma repos_but_refl prefix repos : repos_but prefix repos repos.
Proof. intros tid b Hb. by exists b. Qed.

Lemma points_weaken (K K' : string → Prop) runs repos :
  (∀ id, K' id → K id) →
  (∀ r p, r ∈ runs → good r → K' (fr_ID r) → p ∈ runs → fr_ID p = fr_ParentRunID r → K' (fr_ID p)) →
  points_ok K runs repos → points_ok K' runs repos.
Proof.
  intros Hsub Hcl Hp. split; try apply Hp. intros r Hr Hg HK.
  destruct (po_rows _ _ _ Hp r Hr Hg (Hsub _ HK)) as [Hpar Hb]. split; [|done].
  intros Hne. destruct (Hpar Hne) as (p & Hin & Hid & ? & ? & ?). exists p. split_and!; try done.
  by apply (Hcl r p).
Qed.

Lemma points_frame K runs repos repos' :
  points_ok K runs repos → repos_keep K runs repos repos' → points_ok K runs repos'.
Proof. intros Hp Hb. split; try apply Hp. intros r Hr Hg HKr. by eapply row_ok_change. Qed.

(** Rows that no kept point needs go. *)
Lemma points_filter K runs repos f :
  points_ok K runs repos → (∀ p, p ∈ runs → good p → K (fr_ID p) → f p = true) →
  points_ok K (List.filter f runs) repos.
Proof.
  intros Hp Hf. assert (∀ r, r ∈ List.filter f runs → r ∈ runs) as Hsub by (by intros r [? _]%elem_of_filter_bool).
  split.
  - apply NoDup_fmap_filter_bool, Hp.
  - intros r Hr. by apply (po_safe _ _ _ Hp), Hsub.
  - intros r Hr. by apply (po_keys _ _ _ Hp), Hsub.
  - destruct (po_rank _ _ _ Hp) as [rank Hrank]. exists rank. intros r Hr. by apply Hrank, Hsub.
  - intros r p Hr Hin. apply (po_parents _ _ _ Hp); by apply Hsub.
  - intros r Hr Hg HKr. eapply row_ok_change; [done|by apply Hsub|done|done| |apply repos_keep_refl].
    intros p Hin Hgp HKp. apply elem_of_filter_bool. split; [done|]. by apply Hf.
Qed.

(** Every point is kept when the others are gone. *)
Lemma points_all K runs repos :
  points_ok K runs repos → (∀ r, r ∈ runs → good r → K (fr_ID r)) → points_ok (λ _, True) runs repos.
Proof.
  intros Hp HK. split; try apply Hp. intros r Hr Hg _. destruct (po_rows _ _ _ Hp r Hr Hg (HK r Hr Hg)) as [Hpar Hpt].
  split; [|done]. intros Hne. destruct (Hpar Hne) as (p & ? & ? & _ & ? & ?). by exists p.
Qed.

(** A new row that has not begun. *)
Lemma points_add K runs repos x :
  points_ok K runs repos → safe_segment (fr_ID x) → fr_ID x ∉ fr_ID <$> runs →
  (∀ r, r ∈ runs → fr_ParentRunID r ≠ fr_ID x) →
  fr_Status x = RunPending → fr_ManifestKey x = "" → fr_ParentRunID x = "" → points_ok K (runs ++ [x]) repos.
Proof.
  intros Hp Hs Hni Hnp Hst Hkey Hpar.
  assert (∀ r, r ∈ runs ++ [x] → r ∈ runs ∨ r = x) as Hsub.
  { intros r [?|?%list_elem_of_singleton]%elem_of_app; [by left|by right]. }
  split.
  - rewrite fmap_app. apply NoDup_app. split_and!; [apply Hp| |by apply NoDup_singleton].
    intros id Hid. cbn. rewrite list_elem_of_singleton. by intros ->.
  - intros r [Hr| ->]%Hsub; [by apply (po_safe _ _ _ Hp)|done].
  - intros r [Hr| ->]%Hsub; [by apply (po_keys _ _ _ Hp)|by left].
  - destruct (po_rank _ _ _ Hp) as [rank Hrank]. exists rank. intros r [Hr| ->]%Hsub; [by apply Hrank|done].
  - intros r p [Hr| ->]%Hsub [Hin| ->]%Hsub Hid.
    + by apply (po_parents _ _ _ Hp r p).
    + by destruct (Hnp r Hr).
    + rewrite Hpar in Hid. by destruct (ss_some _ (po_safe _ _ _ Hp p Hin)).
    + rewrite Hpar in Hid. by destruct (ss_some _ Hs).
  - intros r [Hr| ->]%Hsub Hg HK; [|by rewrite Hst in Hg].
    eapply row_ok_change; [done..| |apply repos_keep_refl]. intros p Hin _ _. apply elem_of_app. by left.
Qed.

Definition replace_row (x' : FileBackupRun) (runs : list FileBackupRun) : list FileBackupRun :=
  (λ row, if has_run_id (fr_ID x') row then file_run_columns x' row else row) <$> runs.

(** The row of a run in memory is no point yet. *)
Definition mine (x' : FileBackupRun) (runs : list FileBackupRun) : Prop := ∀ x, x ∈ runs → fr_ID x = fr_ID x' →
  ¬ good x ∧ fr_JobID x = fr_JobID x' ∧ fr_RootID x = fr_RootID x' ∧ fr_StorageTargetID x = fr_StorageTargetID x'
  ∧ fr_CreatedAt x = fr_CreatedAt x'.

Lemma mine_apart x' runs p : mine x' runs → p ∈ runs → good p → fr_ID p ≠ fr_ID x'.
Proof. intros Hm Hp Hg Heq. by destruct (Hm p Hp Heq) as [? _]. Qed.

(** A run that is no point yet gets a new row and writes under its prefix. *)
Lemma points_update (K : string → Prop) runs repos repos' x' :
  points_ok K runs repos → mine x' runs → safe_segment (fr_ID x') → repos_but (row_prefix x') repos repos' →
  (fr_ManifestKey x' = "" ∨ fr_ManifestKey x' = files_manifest_key (row_prefix x')) →
  (fr_ParentRunID x' ≠ "" → ∃ p, p ∈ runs ∧ fr_ID p = fr_ParentRunID x' ∧ good p) →
  (∀ x, x ∈ runs → fr_ID x = fr_ID x' → good x' → K (fr_ID x) →
     row_ok K (replace_row x' runs) repos' (file_run_columns x' x)) →
  points_ok K (replace_row x' runs) repos'.
Proof.
  intros Hp Hmine Hs Hb Hkey Hpar Hnew.
  destruct (decide (fr_ID x' ∈ fr_ID <$> runs)) as [(x & Hid & Hx)%list_elem_of_fmap|Hni].
  2: { assert (replace_row x' runs = runs) as ->.
    { unfold replace_row. rewrite <-(list_fmap_id runs) at 2. apply list_fmap_ext. intros i r Hr. unfold has_run_id.
      rewrite bool_decide_eq_false_2; [done|]. intros Heq. apply Hni. rewrite <-Heq. apply list_elem_of_fmap_2.
      by eapply list_elem_of_lookup_2. }
    apply (points_frame _ _ repos); [done|]. apply (repos_but_keep _ _ _ _ x'); [done|done| |done].
    intros p Hin Hg _. by eapply mine_apart. }
  destruct (Hmine x Hx (eq_sym Hid)) as (Hng & Hjx & Hrx & Htx & Hcx).
  assert (row_prefix x' = row_prefix x) as Hpx by (unfold row_prefix; congruence). rewrite Hpx in Hb, Hkey.
  specialize (Hnew x Hx (eq_sym Hid)).
 set (x2 := file_run_columns x' x).
  assert (∀ r, r ∈ runs → fr_ID r = fr_ID x → r = x) as Huniq by (intros r Hr; by apply (row_unique runs); [apply Hp|..]).
  assert (∀ r, r ∈ replace_row x' runs → (r ∈ runs ∧ fr_ID r ≠ fr_ID x) ∨ r = x2) as Hsub.
  { intros r (r0 & -> & Hr0)%list_elem_of_fmap. unfold has_run_id. case_bool_decide as Hd.
    - right. rewrite Hid in Hd. by rewrite (Huniq r0 Hr0 Hd).
    - left. rewrite Hid in Hd. done. }
  assert (∀ r, r ∈ runs → fr_ID r ≠ fr_ID x → r ∈ replace_row x' runs) as Hkeep.
  { intros r Hr Hne. apply list_elem_of_fmap. exists r. split; [|done]. unfold has_run_id.
    by rewrite bool_decide_eq_false_2 by (by rewrite Hid). }
  assert (fr_ID x2 = fr_ID x) as Hid2 by done. assert (row_prefix x2 = row_prefix x) as Hpre by done.
  assert (∀ p, p ∈ runs → good p → fr_ID p ≠ fr_ID x) as Hgx.
  { intros p Hin Hg Heq. by rewrite (Huniq p Hin Heq) in Hg. }
  pose proof (po_safe _ _ _ Hp x Hx) as Hsx.
  split.
  - assert (fr_ID <$> replace_row x' runs = fr_ID <$> runs) as ->; [|apply Hp]. unfold replace_row.
    rewrite <-list_fmap_compose. apply list_fmap_ext. intros _ r _. cbn. by destruct (has_run_id _ r).
  - intros r [[Hr _]| ->]%Hsub; [by apply (po_safe _ _ _ Hp)|done].
  - intros r [[Hr _]| ->]%Hsub; [by apply (po_keys _ _ _ Hp)|by rewrite Hpre].
  - destruct (po_rank _ _ _ Hp) as [rank Hrank].
    exists (λ id, if decide (id = fr_ID x) then S (rank (fr_ParentRunID x')) else rank id).
    assert (∀ r, r ∈ runs → fr_ParentRunID r ≠ fr_ID x) as Hnp.
    { intros r Hr Heq. apply Hng. by apply (po_parents _ _ _ Hp r x). }
    intros r [[Hr Hne]| ->]%Hsub Hne'.
    + rewrite decide_False by (by apply Hnp). rewrite decide_False by done. by apply Hrank.
    + change (fr_ParentRunID x2) with (fr_ParentRunID x') in *. rewrite (decide_True _ _ Hid2).
      destruct (Hpar Hne') as (p & Hin & Hpid & Hg). rewrite decide_False; [lia|]. rewrite <-Hpid. by apply Hgx.
  - intros r p [[Hr Hne]| ->]%Hsub [[Hin Hne2]| ->]%Hsub Hpid.
    + by apply (po_parents _ _ _ Hp r p).
    + exfalso. apply Hng. by apply (po_parents _ _ _ Hp r x).
    + change (fr_ParentRunID x2) with (fr_ParentRunID x') in Hpid.
      destruct (Hpar) as (q & Hq & Hqid & Hg); [rewrite <-Hpid; by apply (po_safe _ _ _ Hp)|].
      assert (p = q) as ->; [|done]. apply (row_unique runs); [apply Hp|done|done|congruence].
    + exfalso. change (fr_ParentRunID x2) with (fr_ParentRunID x') in Hpid.
      destruct (Hpar) as (q & Hq & Hqid & Hg); [rewrite <-Hpid; apply Hsx|]. apply (Hgx q Hq Hg). congruence.
  - intros r [[Hr Hne]| ->]%Hsub Hg HK; [|by apply Hnew].
    eapply row_ok_change; [done..| |].
    + intros p Hin Hgp _. apply Hkeep; [done|by apply Hgx].
    + apply (repos_but_keep _ _ _ _ x); [done|done| |done]. intros p Hin Hgp _. by apply Hgx.
Qed.
End Points.
