(* ===== verification/FileHistory.v ===== *)
(** File backups over time: jobs start, runs are carried out, points are deleted
    by hand and by retention, and every point in the list stays restorable. *)

From S2P Require Import Prelude StateM GoTime GoStr Layout Model Retention Format Repo Codec Writer.
From S2P Require Import Paths FileJobs FileStored FileWalk FileWalkFacts FileEngine FilePoints.

Section History.
Context {B C : Type} `{!Backend B} `{!BulkBackend B} `{!BackendLaws B} `{!BulkLaws B} `{!AEAD C} `{!Compressor}.
Context `{!FileDocuments} `{!FileDocumentLaws} `{!Unicode}.
Variable sha256hex : bytes → string.
Context (cfg : StreamConfig C) (roots : list FileBackupRoot) (error_text : FileError → string).

Abbreviation FS := (FileStore B).
#[local] Abbreviation points_ok := (points_ok sha256hex cfg).
#[local] Abbreviation row_ok := (row_ok sha256hex cfg).

(** * Statements that only read *)
Definition tables (s : FS) := (ft_jobs s, ft_targets s, ft_runs s, ft_repos s).

Lemma attempt_tables e : leaves tables (file_attempt (B := B) e).
Proof. intros s. unfold file_attempt. by destruct (ft_faults s) as [|[] ?]. Qed.

Lemma read_reads {A} e (f : FS → result FileError A) :
  leaves tables (file_attempt (B := B) e ;; s ← get ; lift (f s)).
Proof. apply leaves_bind; [apply attempt_tables|]. intros _. apply leaves_bind; [apply leaves_get|]. by intros. Qed.

(** What a read returns was in the tables. *)
Lemma read_inv {A} e (f : FS → result FileError A) s s' a :
  (file_attempt (B := B) e ;; s ← get ; lift (f s)) s = (s', Ok a) → tables s' = tables s ∧ f s' = Ok a.
Proof.
  intros Hr. split; [by apply (leaves_run _ _ _ _ _ (read_reads e f) Hr)|].
  apply bind_ok in Hr as (s1 & [] & Hat & Hr). cbv [mbind ST_bind get lift] in Hr. by injection Hr as -> <-.
Qed.

Lemma GetFileBackupRun_inv id s s' x :
  GetFileBackupRun (B := B) id s = (s', Ok x) → tables s' = tables s ∧ x ∈ ft_runs s ∧ fr_ID x = id.
Proof.
  intros (Ht & Hf%of_option_ok)%read_inv. split; [done|].
  apply find_some in Hf as [Hin Hid]. unfold has_run_id in Hid. bprop. apply list_elem_of_In in Hin.
  unfold tables in Ht. simplify_eq/=. split; [congruence|done].
Qed.

Lemma GetFileTarget_inv id s s' t :
  GetFileTarget (B := B) id s = (s', Ok t) → tables s' = tables s ∧ ft_targets s !! id = Some t.
Proof.
  intros (Ht & Hf%of_option_ok)%read_inv. split; [done|]. unfold tables in Ht. simplify_eq/=. congruence.
Qed.

Lemma open_repo_inv id s s' b :
  open_repo (B := B) id s = (s', Ok b) → tables s' = tables s ∧ ft_repos s !! id = Some b.
Proof.
  intros (Ht & Hf%of_option_ok)%read_inv. split; [done|]. unfold tables in Ht. simplify_eq/=. congruence.
Qed.

(** * What holds between operations *)
Record tidy (K : string → Prop) (s : FS) : Prop := {
  ti_targets : ∀ id t, ft_targets s !! id = Some t → tgt_ID t = id;
  ti_points : points_ok K (ft_runs s) (ft_repos s)
}.

Lemma tidy_tables K s s' : tables s' = tables s → tidy K s → tidy K s'.
Proof. intros Ht [Htg Hpt]. unfold tables in Ht. injection Ht as _ E1 E2 E3. split; [by rewrite E1|by rewrite E2, E3]. Qed.

Lemma tidy_reads K {A} (m : FM B A) : leaves tables m → keeps (tidy K) m.
Proof. intros Hm s Hs. by eapply tidy_tables; [apply Hm|]. Qed.

(** ** Deletion *)

Abbreviation without id runs := (List.filter (λ r, negb (has_run_id id r)) runs).

Lemma attempt_cases e (s : FS) : tables (file_attempt e s).1 = tables s.
Proof. apply attempt_tables. Qed.

Lemma row_removed id (s s' : FS) r : DeleteFileBackupRun id s = (s', r) →
  ft_targets s' = ft_targets s ∧ ft_repos s' = ft_repos s
  ∧ match r with Ok _ => ft_runs s' = without id (ft_runs s) | Err _ => ft_runs s' = ft_runs s end.
Proof.
  unfold DeleteFileBackupRun, file_query. intros Hr. pose proof (attempt_cases FileDB s) as Ht.
  cbv [mbind ST_bind get modify fail] in Hr. destruct (file_attempt FileDB s) as [s1 [[]|e]]; cbn in Ht.
  - unfold tables in Ht. injection Ht as _ Htg Hruns Hrep.
    destruct (existsb _ _); injection Hr as <- <-; cbn; by rewrite ?Htg, ?Hruns, ?Hrep.
  - unfold tables in Ht. injection Ht as _ Htg Hruns Hrep. by injection Hr as <- <-.
Qed.

(** The objects under the directory of a document. *)
Definition delete_objects (tid key : string) (b : B) : FM B () :=
  if bool_decide (key = "") then mret () else
  match directory_of key with
  | None => mret ()
  | Some prefix =>
    let '(b, e) := DeletePrefix b prefix in
    save_repo tid b ;; match e with Some e => fail (FileRepo e) | None => mret () end
  end.

Lemma delete_objects_run tid x b (s s' : FS) r :
  fr_ManifestKey x = "" ∨ fr_ManifestKey x = files_manifest_key (row_prefix x) →
  ft_repos s !! tid = Some b → delete_objects tid (fr_ManifestKey x) b s = (s', r) →
  ft_targets s' = ft_targets s ∧ ft_runs s' = ft_runs s ∧ repos_but (row_prefix x) (ft_repos s) (ft_repos s').
Proof.
  intros Hkey Hb. unfold delete_objects. case_bool_decide as He.
  { intros [= <- _]. split_and!; [done..|]. apply repos_but_refl. }
  destruct Hkey as [?|Hkey]; [done|]. rewrite Hkey, directory_of_row.
  pose proof (prefix_others b (row_prefix x)) as Ho. destruct (DeletePrefix b (row_prefix x)) as [b1 e1]. cbn in Ho.
  intros Hr. assert (s' = with_ft_repos (<[tid := b1]> (ft_repos s)) s) as ->.
  { cbv [mbind ST_bind get modify save_repo] in Hr. by destruct e1; injection Hr as <- _. }
  cbn. split_and!; [done..|]. intros tid' b' Hb'. destruct (decide (tid' = tid)) as [->|Hne].
  - exists b1. rewrite lookup_insert_eq. split; [done|]. rewrite Hb in Hb'. by injection Hb' as <-.
  - exists b'. by rewrite lookup_insert_ne.
Qed.

(** A read in front of a computation. *)
Lemma table_read_step {A A'} (m : FM B A) (f : A → FM B A') s s' r :
  leaves tables m → (m ≫= f) s = (s', r) →
  (∃ e, r = Err e ∧ tables s' = tables s)
  ∨ ∃ s1 a, m s = (s1, Ok a) ∧ tables s1 = tables s ∧ f a s1 = (s', r).
Proof.
  intros Hm Hr. pose proof (Hm s) as Ht. apply bind_inv in Hr as [(s1 & a & Hr & Hf)|(s1 & e & Hr & [= -> ->])].
  - right. exists s1, a. rewrite Hr in Ht. done.
  - left. exists e. rewrite Hr in Ht. done.
Qed.

Lemma get_run_reads id : leaves tables (GetFileBackupRun (B := B) id).
Proof. apply read_reads. Qed.
Lemma get_target_reads id : leaves tables (GetFileTarget (B := B) id).
Proof. apply read_reads. Qed.
Lemma open_repo_reads id : leaves tables (open_repo (B := B) id).
Proof. apply read_reads. Qed.

Lemma list_runs_reads job limit : leaves tables (ListFileBackupRuns (B := B) job limit).
Proof.
  apply (read_reads FileDB (λ s, Ok (let rs := sort_stable newer_run (List.filter (of_job job) (ft_runs s)) in
    if 0 <? limit then take (Z.to_nat limit) rs else rs))).
Qed.

Lemma ListFileBackupRuns_inv job s s' runs : ListFileBackupRuns (B := B) job 0 s = (s', Ok runs) →
  tables s' = tables s ∧ runs = sort_stable newer_run (List.filter (of_job job) (ft_runs s')).
Proof.
  intros [Ht [= <-]]%(read_inv FileDB (λ s, Ok (sort_stable newer_run (List.filter (of_job job) (ft_runs s))))). done.
Qed.

(** What a deletion leaves. *)
Record deleted (K : string → Prop) (id : string) (s s' : FS) (r : result FileError ()) : Prop := {
  de_tidy : tidy K s';
  de_runs : ft_runs s' ⊆ ft_runs s;
  de_gone : r = Ok () → ∀ x, x ∈ ft_runs s' → fr_ID x ≠ id
}.

Lemma not_deleted K id s s' e : tidy K s → tables s' = tables s → deleted K id s s' (Err e).
Proof.
  intros Hs Ht. split; [by eapply tidy_tables| |done]. unfold tables in Ht. injection Ht as _ _ Hruns _. by rewrite Hruns.
Qed.

Lemma elem_of_without id runs x : x ∈ without id runs → x ∈ runs ∧ fr_ID x ≠ id.
Proof. intros [Hin Hid]%elem_of_filter_bool. unfold has_run_id in Hid. by bprop. Qed.

(** Deleting a run that no kept point needs. *)
Lemma deleteRun_run K id (s s' : FS) r :
  ¬ K id → tidy K s → deleteRun id s = (s', r) → deleted K id s s' r.
Proof.
  intros HK Hs Hrun. unfold deleteRun in Hrun.
  apply table_read_step in Hrun as [(e & -> & Ht)|(s1 & x & Hx & Ht1 & Hrun)]; [by apply not_deleted|idtac|apply get_run_reads].
  apply GetFileBackupRun_inv in Hx as (_ & Hx & Hid).
  apply table_read_step in Hrun as [(e & -> & Ht)|(s2 & t & Hget & Ht2 & Hrun)];
    [by apply not_deleted; [done|congruence]|idtac|apply get_target_reads].
  apply table_read_step in Hrun as [(e & -> & Ht)|(s3 & b & Hop & Ht3 & Hrun)];
    [by apply not_deleted; [done|congruence]|idtac|apply open_repo_reads].
  assert (tables s3 = tables s) as Ht by congruence. clear Hget Ht1 Ht2.
  assert (tidy K s3) as Hs3 by (by eapply tidy_tables).
  unfold tables in Ht, Ht3. injection Ht as _ Htg Hruns Hrep. injection Ht3 as _ _ _ Hrep3.
  apply open_repo_inv in Hop as [_ Hb]. rewrite <-Hrep3 in Hb. rewrite <-Hruns in Hx.
  pose proof (po_keys _ _ _ _ _ (ti_points K s3 Hs3) x Hx) as Hkey.
  change ((delete_objects (tgt_ID t) (fr_ManifestKey x) b ;; DeleteFileBackupRun (fr_ID x)) s3 = (s', r)) in Hrun.
  assert (∀ p, p ∈ ft_runs s3 → good_status (fr_Status p) = true → K (fr_ID p) → fr_ID p ≠ fr_ID x) as Hne.
  { intros p _ _ HKp Heq. apply HK. by rewrite <-Hid, <-Heq. }
  destruct (bind_inv _ _ _ _ Hrun) as [(s4 & [] & Hdel & Hrow)|(s4 & e & Hdel & [= -> ->])].
  all: destruct (delete_objects_run _ _ _ _ _ _ Hkey Hb Hdel) as (Htg4 & Hruns4 & Hbut).
  all: assert (points_ok K (ft_runs s4) (ft_repos s4)) as Hp4 by (rewrite Hruns4; eapply points_frame; [apply Hs3|];
    by apply (repos_but_keep sha256hex cfg K _ _ _ x); [apply Hs3|eapply po_safe; [apply Hs3|]|..]).
  - apply row_removed in Hrow as (Htg5 & Hrep5 & Hrows). rewrite Hid in *.
    assert (tidy K s' ∧ ft_runs s' ⊆ ft_runs s) as [? ?].
    { destruct r as [[]|e]; (split; [split|]); rewrite ?Hrows, ?Hrep5, ?Hruns4, ?Hruns; try done.
      - rewrite Htg5, Htg4. apply Hs3.
      - rewrite <-Hruns, <-Hruns4. apply points_filter; [done|]. intros p Hp Hg HKp. unfold has_run_id.
        apply negb_true_iff, bool_decide_eq_false. intros Heq. apply HK. by rewrite <-Heq.
      - by intros y [? _]%elem_of_without.
      - rewrite Htg5, Htg4. apply Hs3.
      - by rewrite <-Hruns, <-Hruns4. }
    split; [done|done|]. intros ->. intros y Hy. rewrite Hrows in Hy. by apply elem_of_without in Hy as [_ ?].
  - split; [split; [rewrite Htg4; apply Hs3|done]| |done]. by rewrite Hruns4, Hruns.
Qed.

Abbreviation all := (λ _ : string, True).

(** Every point is kept when what is not kept is gone. *)
Lemma tidy_all K s : tidy K s → (∀ r, r ∈ ft_runs s → K (fr_ID r)) → tidy all s.
Proof. intros Hs HK. split; [apply Hs|]. eapply points_all; [apply Hs|]. intros. by apply HK. Qed.

Lemma tidy_weaken (K : string → Prop) s :
  tidy all s →
  (∀ r p, r ∈ ft_runs s → good_status (fr_Status r) = true → K (fr_ID r) → p ∈ ft_runs s → fr_ID p = fr_ParentRunID r →
     fr_JobID p = fr_JobID r → fr_StorageTargetID p = fr_StorageTargetID r → K (fr_ID p)) → tidy K s.
Proof.
  intros Hs Hcl. pose proof (ti_points _ _ Hs) as Hp. split; [apply Hs|].
  apply (points_weaken _ _ all); [done| |done]. intros r p Hr Hg HK Hin Hid.
  assert (line (ft_runs s) r p) as Hl by (by eapply line_up; [constructor|..]).
  destruct (line_good _ _ _ _ _ _ _ Hp Hr Hg I Hl) as (_ & _ & _ & Ht & Hj). by apply (Hcl r p).
Qed.

(** A deletion that is not refused and completes keeps the other points. *)
Lemma DeleteRun_tidy id (s s' : FS) : tidy all s → DeleteRun id s = (s', Ok ()) → tidy all s' ∧ ft_runs s' ⊆ ft_runs s.
Proof.
  intros Hs Hrun. unfold DeleteRun in Hrun.
  apply table_read_step in Hrun as [(e & [=] & _)|(s1 & x & Hx & Ht1 & Hrun)]; [|apply get_run_reads].
  apply GetFileBackupRun_inv in Hx as (_ & Hx & <-).
  pose proof (tidy_tables _ _ _ Ht1 Hs) as Hs1.
  apply table_read_step in Hrun as [(e & [=] & _)|(s2 & runs & Hread & Ht2 & Hrun)]; [|apply list_runs_reads].
  apply ListFileBackupRuns_inv in Hread as [_ ->]. pose proof (tidy_tables _ _ _ Ht2 Hs1) as Hs2.
  destruct (List.find (required_by x) _) as [c|] eqn:Hnone; [done|].
  assert (ft_runs s2 = ft_runs s) as Hruns by (unfold tables in *; congruence).
  assert (tidy (λ id, id ≠ fr_ID x) s2) as Hk.
  { apply tidy_weaken; [done|]. intros r p Hr Hg _ Hp Hid Hj _ Heq.
    assert (p = x) as ->.
    { apply (row_unique (ft_runs s2)); [apply (ti_points _ _ Hs2)|done|by rewrite Hruns|done]. }
    assert (r ∈ sort_stable newer_run (List.filter (of_job (fr_JobID x)) (ft_runs s2))) as Hin.
    { apply sort_stable_elem_of, elem_of_filter_bool. split; [done|]. unfold of_job. rewrite Hj.
      apply orb_true_iff. right. by apply bool_decide_eq_true. }
    apply list_elem_of_In in Hin. apply (find_none _ _ Hnone) in Hin. unfold required_by in Hin. rewrite Hg in Hin.
    by rewrite bool_decide_eq_true_2 in Hin. }
  destruct (deleteRun_run (λ id, id ≠ fr_ID x) (fr_ID x) s2 s' (Ok ())) as [Ht Hsub Hgone];
    [by intros Hn; apply Hn|done|done|].
  rewrite Hruns in Hsub. split; [|done]. eapply tidy_all; [exact Ht|]. intros r Hr. by apply Hgone.
Qed.

Lemma DeleteFileBackupJob_tidy id (s s' : FS) r :
  tidy all s → DeleteFileBackupJob id s = (s', r) → tidy all s' ∧ ft_runs s' ⊆ ft_runs s.
Proof.
  intros Hs Hrun. unfold DeleteFileBackupJob, file_query in Hrun. pose proof (attempt_cases FileDB s) as Ht.
  cbv [mbind ST_bind get modify] in Hrun. destruct (file_attempt FileDB s) as [s1 [[]|e]]; cbn in Ht.
  2: { injection Hrun as <- _. split; [by eapply tidy_tables|]. unfold tables in Ht. injection Ht as _ _ -> _. done. }
  pose proof (tidy_tables _ _ _ Ht Hs) as Hs1. injection Hrun as <- _. cbn.
  assert (∀ r, r ∈ ft_runs s1 → r ∈ ft_runs s) as Hsub by (unfold tables in Ht; injection Ht as _ _ -> _; done).
  split; [|intros y [Hy _]%elem_of_filter_bool; by apply Hsub].
  set (K id' := ∀ r, r ∈ ft_runs s1 → fr_ID r = id' → fr_JobID r ≠ id).
  assert (tidy K s1) as Hk.
  { apply tidy_weaken; [done|]. intros r0 p Hr Hg HK Hp Hid Hj _ q Hq Heq.
    assert (q = p) as -> by (apply (row_unique (ft_runs s1)); [apply (ti_points _ _ Hs1)|done..]). rewrite Hj. by apply HK. }
  apply (tidy_all K); cbn.
  - split; cbn; [apply Hk|]. apply points_filter; [apply Hk|]. intros p Hp _ HK. apply negb_true_iff, bool_decide_eq_false.
    by apply HK.
  - intros r0 [Hr Hj]%elem_of_filter_bool q Hq Heq.
    assert (q = r0) as -> by (apply (row_unique (ft_runs s1)); [apply (ti_points _ _ Hs1)|done..]).
    by apply negb_true_iff, bool_decide_eq_false in Hj.
Qed.

(** ** Retention *)
Lemma candidate_good r : candidate (as_backup_run r) = good_status (fr_Status r).
Proof. unfold candidate. cbn. by destruct (fr_Status r). Qed.

Definition ranked (runs : list FileBackupRun) : Prop := ∃ rank : string → nat, ∀ r, r ∈ runs → fr_ParentRunID r ≠ "" →
  (rank (fr_ParentRunID r) < rank (fr_ID r))%nat.

(** What is deleted is in the list, and with a run goes every point that needs it. *)
Lemma decision_closed fuel policy rs now d :
  NoDup (fr_ID <$> rs) → ranked rs → (length rs ≤ fuel)%nat → Apply fuel policy (as_backup_run <$> rs) now = Some d →
  (∀ id, id ∈ Retention.Delete d → ∃ q, q ∈ rs ∧ fr_ID q = id)
  ∧ ∀ r p, r ∈ rs → p ∈ rs → good_status (fr_Status r) = true → good_status (fr_Status p) = true →
      fr_ParentRunID r ≠ "" → fr_ID p = fr_ParentRunID r → fr_ID p ∈ Retention.Delete d → fr_ID r ∈ Retention.Delete d.
Proof.
  intros Hnd [rank Hrank] Hfuel Hap. set (brs := as_backup_run <$> rs) in *.
  assert (run_ID <$> brs = fr_ID <$> rs) as Hids by (unfold brs; by rewrite <-list_fmap_compose).
  assert (∀ r, r ∈ rs → as_backup_run r ∈ brs) as Hin by (intros r Hr; by apply list_elem_of_fmap_2).
  destruct (RetentionPolicy_Empty policy) eqn:Hpol.
  { destruct (apply_no_policy fuel policy brs now Hpol) as (d' & Hd' & _ & Hdel). rewrite Hap in Hd'. injection Hd' as <-.
    rewrite Hdel. split; [by intros id ?%elem_of_nil|]. by intros r p _ _ _ _ _ _ ?%elem_of_nil. }
  destruct (apply_spec policy brs now fuel) as (d' & Hd' & Hperm & Hkeep); [by rewrite Hids| |by unfold brs; rewrite length_fmap|done|].
  { exists rank. intros r p (r0 & -> & Hr)%list_elem_of_fmap (p0 & -> & Hp)%list_elem_of_fmap Hne Heq. cbn in *.
    rewrite <-Heq. by apply Hrank. }
  rewrite Hap in Hd'. injection Hd' as <-.
  assert (NoDup (run_ID <$> candidates_of brs)) as Hcnd by (apply candidates_of_NoDup; by rewrite Hids).
  split.
  - intros id Hid. assert (id ∈ run_ID <$> candidates_of brs) as (q & -> & Hq)%list_elem_of_fmap.
    { rewrite <-Hperm. apply elem_of_app. by right. }
    apply candidates_of_elem in Hq as [(q0 & -> & Hq0)%list_elem_of_fmap _]. by exists q0.
  - intros r p Hr Hp Hgr Hgp Hne Hid Hdel.
    assert (as_backup_run r ∈ candidates_of brs) as Hcr by (apply candidates_of_elem; by rewrite candidate_good; auto).
    assert (as_backup_run p ∈ candidates_of brs) as Hcp by (apply candidates_of_elem; by rewrite candidate_good; auto).
    assert (fr_ID r ∈ Keep d ++ Retention.Delete d) as [Hk|?]%elem_of_app; [|exfalso|done].
    { rewrite Hperm. change (fr_ID r) with (run_ID (as_backup_run r)). by apply list_elem_of_fmap_2. }
    change (fr_ID r) with (run_ID (as_backup_run r)) in Hk. apply Hkeep in Hk as (q & Hq & Hret & Hanc); [|done].
    assert (run_ID (as_backup_run p) ∈ Keep d) as Hkp.
    { apply Hkeep; [done|]. exists q. split_and!; [done..|]. eapply ancestor_trans; [done|].
      eapply ancestor_parent; [done| |constructor]. apply lookup_by_id; [done|]. by split. }
    rewrite <-Hperm in Hcnd. apply NoDup_app in Hcnd as (_ & Hdisj & _). by apply (Hdisj (fr_ID p)).
Qed.

Lemma deleteRuns_run K ids : (∀ id, id ∈ ids → ¬ K id) → ∀ s s' : FS,
  tidy K s → for_each deleteRun ids s = (s', Ok ()) →
  tidy K s' ∧ ft_runs s' ⊆ ft_runs s ∧ ∀ x, x ∈ ft_runs s' → fr_ID x ∉ ids.
Proof.
  induction ids as [|id ids IH]; intros HK s s' Hs Hrun; cbn in Hrun.
  { injection Hrun as <-. split_and!; [done..|]. by intros x _ ?%elem_of_nil. }
  apply bind_ok in Hrun as (s1 & [] & Hdel & Hrun).
  apply (deleteRun_run K) in Hdel as [Hs1 Hsub Hgone]; [|by apply HK; left|done].
  apply IH in Hrun as (Hs' & Hsub' & Hgone'); [|intros; by apply HK; right|done].
  split_and!; [done|by etrans|]. intros x Hx [Heq|Hin]%elem_of_cons; [|by eapply Hgone'].
  eapply (Hgone eq_refl x); [by apply Hsub'|done].
Qed.

(** One storage, with the list of runs that was read before. *)
Lemma retain_storage_run R j fuel now policy tid (s s' : FS) :
  NoDup (fr_ID <$> R) → ranked R → (length R ≤ fuel)%nat → ft_runs s ⊆ R → tidy all s →
  retain_storage fuel now policy (sort_stable newer_run (List.filter (of_job j) R)) tid s = (s', Ok ()) →
  tidy all s' ∧ ft_runs s' ⊆ ft_runs s.
Proof.
  intros Hnd Hrank Hfuel Hsub Hs Hrun. unfold retain_storage in Hrun.
  set (rs := List.filter _ (sort_stable _ _)) in Hrun.
  assert (∀ r, r ∈ rs ↔ r ∈ R ∧ of_job j r = true ∧ fr_StorageTargetID r = tid) as Hrs.
  { intros r. unfold rs. rewrite elem_of_filter_bool, sort_stable_elem_of, elem_of_filter_bool, bool_decide_eq_true. naive_solver. }
  destruct (Apply fuel policy _ now) as [d|] eqn:Hap; [|done].
  assert (NoDup (fr_ID <$> rs)) as Hnd'.
  { unfold rs. apply NoDup_fmap_filter_bool. rewrite sort_stable_perm. by apply NoDup_fmap_filter_bool. }
  destruct (decision_closed fuel policy rs now d) as [Hdel Hcl]; [done| | |done|].
  { destruct Hrank as [rank Hr]. exists rank. intros r (Hin & _)%Hrs. by apply Hr. }
  { unfold rs. etrans; [apply filter_length_le|]. rewrite sort_stable_length. etrans; [apply filter_length_le|done]. }
  assert (tidy (λ id, id ∉ Retention.Delete d) s) as Hk.
  { apply tidy_weaken; [done|]. intros r p Hr Hg HK Hp Hid Hj Ht Hin. apply HK.
    destruct (Hdel _ Hin) as (q & Hq & Heq). pose proof (proj1 (Hrs q) Hq) as (HqR & Hqj & Hqt).
    assert (q = p) as -> by (apply (row_unique R); [done|done|by apply Hsub|done]).
    assert (r ∈ rs) as Hrrs. { apply Hrs. split_and!; [by apply Hsub|unfold of_job in *; by rewrite <-Hj|congruence]. }
    pose proof (ti_points _ _ Hs) as Hpts.
    apply (Hcl r p); [done|done|done|by apply (po_parents _ _ _ _ _ Hpts r p)| |done|done].
    rewrite <-Hid. by apply (po_safe _ _ _ _ _ Hpts). }
  apply (deleteRuns_run (λ id, id ∉ Retention.Delete d)) in Hrun as (Hs' & Hsub' & Hgone); [|by auto|done].
  split; [|done]. by eapply tidy_all.
Qed.

Lemma for_each_run {A} (P : FS → Prop) (f : A → FM B ()) l : 
  (∀ a s s', a ∈ l → P s → f a s = (s', Ok ()) → P s') → ∀ s s', P s → for_each f l s = (s', Ok ()) → P s'.
Proof.
  induction l as [|a l IH]; intros Hf s s' Hs Hrun; cbn in Hrun; [by injection Hrun as <-|].
  apply bind_ok in Hrun as (s1 & [] & Hfa & Hrun). eapply IH; [|by eapply Hf; [left| |]|exact Hrun].
  intros b t t' Hb. by apply Hf; right.
Qed.

Lemma list_jobs_reads : leaves tables (ListFileBackupJobs (B := B)).
Proof.
  apply (read_reads FileDB (λ s, Ok (sort_stable (λ a b, String.ltb (fj_Name a) (fj_Name b)) (map_to_list (ft_jobs s)).*2))).
Qed.

(** Enough steps for the walk over the parents. *)
Lemma ApplyRetention_tidy visit fuel now (s s' : FS) :
  (length (ft_runs s) ≤ fuel)%nat → tidy all s → ApplyRetention visit fuel now s = (s', Ok ()) →
  tidy all s' ∧ ft_runs s' ⊆ ft_runs s.
Proof.
  intros Hfuel Hs Hrun. unfold ApplyRetention in Hrun.
  apply table_read_step in Hrun as [(e & [=] & _)|(s1 & jobs & _ & Ht1 & Hrun)]; [|apply list_jobs_reads].
  pose proof (tidy_tables _ _ _ Ht1 Hs) as Hs1.
  assert (ft_runs s1 = ft_runs s) as Hr1 by (unfold tables in Ht1; congruence).
  enough (tidy all s' ∧ ft_runs s' ⊆ ft_runs s1) by (by rewrite Hr1 in *).
  assert (length (ft_runs s1) ≤ fuel)%nat as Hfuel1 by (by rewrite Hr1).
  set (P t := tidy all t ∧ ft_runs t ⊆ ft_runs s1).
  apply (for_each_run P _ _) in Hrun; [done| |by split]. clear Hrun. intros job t t' _ [Ht Hsub] Hrun.
  apply table_read_step in Hrun as [(e & [=] & _)|(t1 & runs & Hread & Htt & Hrun)]; [|apply list_runs_reads].
  apply ListFileBackupRuns_inv in Hread as [_ ->]. pose proof (tidy_tables _ _ _ Htt Ht) as Hs2.
  assert (ft_runs t1 = ft_runs t) as Hr2 by (unfold tables in Htt; congruence).
  set (R := ft_runs t1) in *. pose proof (ti_points _ _ Hs2) as Hpts.
  assert (length R ≤ fuel)%nat as HfR.
  { etrans; [|exact Hfuel1]. apply submseteq_length, NoDup_submseteq; [|intros x Hx; apply Hsub; by rewrite <-Hr2].
    eapply NoDup_fmap_1. apply Hpts. }
  set (Q t := tidy all t ∧ ft_runs t ⊆ R).
  apply (for_each_run Q _ _) in Hrun as [? Hsub'].
  - split; [done|]. etrans; [exact Hsub'|]. by rewrite Hr2.
  - intros tid u u' _ [Hu HuR] Hret.
    apply (retain_storage_run R) in Hret as [? Hsub']; [|apply Hpts|apply Hpts|done..]. split; [done|by etrans].
  - by split.
Qed.

(** ** One run *)
Abbreviation EX := (Exec (B := B)).

(** A read in a run. *)
Lemma run_step {A A'} (m : FM B A) (f : A → ST EX FileError A') s run x' r :
  leaves tables m → (in_store m ≫= f) (mkExec s run) = (x', r) →
  (∃ e, r = Err e ∧ tables (ex_store x') = tables s ∧ ex_run x' = run)
  ∨ ∃ s1 a, m s = (s1, Ok a) ∧ tables s1 = tables s ∧ f a (mkExec s1 run) = (x', r).
Proof.
  intros Hm Hr. pose proof (Hm s) as Ht. unfold in_store in Hr. cbv [mbind ST_bind] in Hr. cbn [ex_store ex_run] in Hr.
  destruct (m s) as [s1 [a|e]]; cbn in Ht.
  - right. by exists s1, a.
  - left. injection Hr as <- <-. by exists e.
Qed.

Lemma fail_reads {A} e : leaves tables (fail e : FM B A).
Proof. done. Qed.

Lemma choose_source_reads w job run : leaves tables (choose_source (B := B) roots w job run).
Proof.
  unfold choose_source. destruct (StorageRootTarget _) as [id|].
  - destruct (bool_decide _); [done|]. apply leaves_bind; [|done]. unfold OpenStorageSource.
    apply leaves_bind; [apply get_target_reads|]. intros t. destruct (negb _); [done|]. destruct (negb _); [done|].
    apply leaves_bind; [apply open_repo_reads|done].
  - apply leaves_bind; [apply leaves_lift|done].
Qed.

Lemma choose_target_reads run : leaves tables (choose_target (B := B) run).
Proof.
  unfold choose_target. apply leaves_bind; [apply get_target_reads|]. intros t.
  destruct (negb _); [done|]. by destruct (tgt_ReadOnly t).
Qed.

Lemma choose_target_inv run s s' t :
  choose_target (B := B) run s = (s', Ok t) → ft_targets s !! fr_StorageTargetID run = Some t.
Proof.
  unfold choose_target. intros (s1 & t' & Hg & Hr)%bind_ok. apply GetFileTarget_inv in Hg as [_ Ht].
  destruct (negb _); [done|]. destruct (tgt_ReadOnly t'); [done|]. by injection Hr as _ <-.
Qed.

Lemma latest_good_reads job tid : leaves tables (LatestSuccessfulFileBackupRun (B := B) job tid).
Proof. apply read_reads. Qed.

Lemma latest_inv job tid s s' p : LatestSuccessfulFileBackupRun (B := B) job tid s = (s', Ok p) →
  p ∈ ft_runs s ∧ fr_JobID p = job ∧ fr_StorageTargetID p = tid ∧ good_status (fr_Status p) = true.
Proof.
  intros (Ht & Hf%of_option_ok)%read_inv. unfold tables in Ht. injection Ht as _ _ Hruns _. rewrite Hruns in Hf.
  assert (p ∈ sort_stable newer_run (List.filter (λ r, bool_decide (fr_JobID r = job)
    && bool_decide (fr_StorageTargetID r = tid) && good_status (fr_Status r)) (ft_runs s))) as Hin.
  { destruct (sort_stable _ _); [done|]. injection Hf as ->. by left. }
  apply sort_stable_elem_of, elem_of_filter_bool in Hin as [Hin Hb]. by bprop.
Qed.

(** The parent of a run and the entries its document showed. *)
Record parent_of (runs : list FileBackupRun) (b : B) (job : FileBackupJob) (tid parent : string)
    (previous : gmap string Entry) (p : FileBackupRun) : Prop := {
  pa_in : p ∈ runs;
  pa_good : good_status (fr_Status p) = true;
  pa_job : fr_JobID p = fj_ID job;
  pa_target : fr_StorageTargetID p = tid;
  pa_id : parent = fr_ID p;
  pa_entries : previous = ∅ ∨ ∃ old, readManifest b (fr_ManifestKey p) = Ok old ∧ previous = entriesByPath (mf_Entries old)
}.

Lemma choose_parent_run job tid b s run x' r : choose_parent job tid b (mkExec s run) = (x', r) →
  tables (ex_store x') = tables s ∧ ∃ parent previous, r = Ok (parent, previous)
  ∧ (parent = "" ∧ previous = ∅ ∧ ex_run x' = run
     ∨ ∃ p, parent_of (ft_runs s) b job tid parent previous p ∧ ex_run x' = fr_set_parent parent run).
Proof.
  unfold choose_parent. destruct (fj_Incremental job); [|by intros [= <- <-]; split; [done|]; eexists _, _; split; [done|]; left].
  intros Hr. cbv [mbind ST_bind try in_store set_run modify mret ST_ret] in Hr. cbn [ex_store ex_run] in Hr.
  pose proof (latest_good_reads (fj_ID job) tid s) as Ht. pose proof (latest_inv (fj_ID job) tid s) as Hinv.
  destruct (LatestSuccessfulFileBackupRun (fj_ID job) tid s) as [s1 [p|e]]; cbn in Ht, Hr; injection Hr as <- <-; (split; [done|]).
  - eexists _, _. split; [done|]. right. exists p. destruct (Hinv _ _ eq_refl) as (? & ? & ? & ?). split; [|done]. split; [done..|].
    destruct (readManifest b (fr_ManifestKey p)) as [old|]; [right; by exists old|by left].
  - eexists _, _. split; [done|]. by left.
Qed.

(** Worlds in which uploads follow the interface and sizes fit the format. *)
Record plain_world (w : RunWorld (B := B)) : Prop := {
  pw_nodes : ∀ path n, ew_at w path = Some n → fine_node cfg n;
  pw_sources : ∀ id, fine_source cfg (ew_storage w id)
}.

(** The source is a directory or a storage of the world. *)
Lemma choose_source_inv w job run s s' source : choose_source (B := B) roots w job run s = (s', Ok source) →
  match source with inl _ => True | inr storage => ∃ id, storage = ew_storage w id end.
Proof.
  unfold choose_source. destruct (StorageRootTarget _) as [id|].
  - destruct (bool_decide _); [done|]. intros (s1 & t & _ & Hr)%bind_ok. injection Hr as _ <-. by exists id.
  - intros (s1 & t & _ & Hr)%bind_ok. by injection Hr as _ <-.
Qed.

Lemma copy_source_run w job tid prefix b previous source s run x' r :
  plain_world w → match source with inl _ => True | inr storage => ∃ id, storage = ew_storage w id end →
  previous_ok sha256hex cfg prefix previous b →
  copy_source sha256hex cfg w job tid prefix b previous source (mkExec s run) = (x', r) →
  ∃ wk, walked sha256hex cfg prefix previous b run wk
    ∧ ex_store x' = with_ft_repos (<[tid := wk_repo wk]> (ft_repos s)) s ∧ ex_run x' = wk_run wk
    ∧ ∀ entries, r = Ok entries → entries = wk_entries wk.
Proof.
  intros [Hnodes Hsources] Hsource Hprev Hrun. unfold copy_source in Hrun. cbn [ex_store ex_run] in Hrun.
  set (start := mkWalk b run [] ∅ ∅) in Hrun.
  assert (walked sha256hex cfg prefix previous b run start) as Hstart.
  { split; [done|by intros e ?%elem_of_nil|]. unfold same_row. by split_and!. }
  assert (∀ walk : ST (Walk (B := B)) FileError (), keeps (walked sha256hex cfg prefix previous b run) walk →
    (let '(wk, r) := walk start in let '(s, _) := save_repo tid (wk_repo wk) s in
     (mkExec s (wk_run wk), (λ _ : (), wk_entries wk) <$> r)) = (x', r) →
    ∃ wk, walked sha256hex cfg prefix previous b run wk
      ∧ ex_store x' = with_ft_repos (<[tid := wk_repo wk]> (ft_repos s)) s ∧ ex_run x' = wk_run wk
      ∧ ∀ entries, r = Ok entries → entries = wk_entries wk) as Hwalk.
  { intros walk Hk Hw. specialize (Hk start Hstart). destruct (walk start) as [wk r0]. cbn in Hk, Hw.
    injection Hw as <- <-. exists wk. split_and!; [done..|]. destruct r0 as [[]|e]; [by intros entries [= <-]|done]. }
  destruct source as [root|storage].
  - eapply (Hwalk (walkLocal sha256hex cfg job prefix previous root (ew_is_link w) (ew_EvalSymlinks w) (ew_at w)));
      [|exact Hrun]. by apply walkLocal_keeps.
  - destruct Hsource as [id ->]. eapply (Hwalk (walkStorage sha256hex cfg job prefix previous (ew_storage w id)));
      [|exact Hrun]. by apply walkStorage_keeps.
Qed.

(** The columns a run in memory shares with its row. *)
Definition same_place (r r' : FileBackupRun) : Prop :=
  fr_ID r' = fr_ID r ∧ fr_JobID r' = fr_JobID r ∧ fr_RootID r' = fr_RootID r
  ∧ fr_StorageTargetID r' = fr_StorageTargetID r ∧ fr_CreatedAt r' = fr_CreatedAt r.

Lemma commit_run job tid prefix parent entries s run b x' r :
  ft_repos s !! tid = Some b → commit job tid prefix parent entries (mkExec s run) = (x', r) →
  ∃ b', ex_store x' = with_ft_repos (<[tid := b']> (ft_repos s)) s
    ∧ (∀ key, key ≠ files_manifest_key prefix → Get b' key = Get b key)
    ∧ same_place run (ex_run x') ∧ fr_ParentRunID (ex_run x') = fr_ParentRunID run
    ∧ fr_Status (ex_run x') = fr_Status run
    ∧ (fr_ManifestKey (ex_run x') = fr_ManifestKey run ∨ fr_ManifestKey (ex_run x') = files_manifest_key prefix)
    ∧ (r = Ok () → fr_ManifestKey (ex_run x') = files_manifest_key prefix
        ∧ ∃ m, readManifest b' (files_manifest_key prefix) = Ok m ∧ mf_Entries m = sort_stable by_path entries).
Proof.
  intros Hb Hrun. unfold commit in Hrun. cbv [mbind ST_bind get lift set_run modify in_store save_repo] in Hrun.
  cbn [ex_store ex_run] in Hrun.
  assert (s = with_ft_repos (<[tid := b]> (ft_repos s)) s) as Hsame by (rewrite insert_id by done; by destruct s).
  set (m := mkManifest _ _ _ _ _ _ _) in Hrun.
  destruct (EncodeManifest m) as [body|] eqn:Henc; cbn [of_option] in Hrun.
  2: { injection Hrun as <- <-. exists b. split_and!; [done..|by left|done]. }
  rewrite Hb in Hrun. cbn [of_option] in Hrun.
  destruct (Put b (files_manifest_key prefix) body) as [[n b']|e] eqn:Hput; cbn [map_err] in Hrun.
  2: { injection Hrun as <- <-. exists b. split_and!; [done..|by right|done]. }
  destruct (put_stores _ _ _ _ _ Hput) as (_ & Hget & Hothers). injection Hrun as <- <-. exists b'.
  split_and!; [done..|by right|]. intros _. split; [done|]. exists m. split; [|done]. unfold readManifest.
  assert (files_manifest_key prefix ≠ "") as Hne by (unfold files_manifest_key; by destruct prefix).
  rewrite bool_decide_eq_false_2 by done. rewrite Hget. cbn.
  by rewrite (decode_encode_manifest _ _ Henc).
Qed.

#[local] Abbreviation line_of := (λ runs p d, ∃ o, line runs p o ∧ String.prefix (row_prefix o) (dm_DataKey d) = true).

(** The entries of the parent's document: their data is there, elsewhere. *)
Lemma parent_previous runs repos b job tid parent previous p run :
  points_ok all runs repos → repos !! tid = Some b → parent_of runs b job tid parent previous p →
  mine run runs → safe_segment (fr_ID run) →
  previous_ok sha256hex cfg (row_prefix run) previous b
  ∧ ∀ rel old d, previous !! rel = Some old → en_Data old = Some d → line_of runs p d.
Proof.
  intros Hp Hb [Hin Hg Hj Ht _ Hold] Hmine Hs. destruct Hold as [->|(old & Hread & ->)]; [by split|].
  destruct (po_rows _ _ _ _ _ Hp p Hin Hg I) as [_ (b' & Hb' & Hkey & m & Hm & He)]. rewrite Ht, Hb in Hb'. injection Hb' as <-.
  rewrite Hread in Hm. injection Hm as <-.
  assert (∀ rel e, entriesByPath (mf_Entries old) !! rel = Some e → e ∈ mf_Entries old) as Hentry.
  { intros rel e [Hl|(x & Hx & _ & <-)]%fold_insert_inv; [by rewrite lookup_empty in Hl|done]. }
  split.
  - intros rel e Hl. destruct (He e (Hentry _ _ Hl)) as [Hd Hh]. split; [done|]. intros d Hed.
    destruct (Hh d Hed) as (Hheld & o & Hlo & Hk). split; [done|]. intros i Heq.
    destruct (line_good _ _ _ _ _ _ _ Hp Hin Hg I Hlo) as (Ho & Hgo & _).
    assert (String.prefix (row_prefix run) (dm_DataKey d) = false) as Hno.
    { apply (rows_apart o run); [by apply (po_safe _ _ _ _ _ Hp)|done|by eapply mine_apart|done]. }
    rewrite Heq, data_under in Hno. done.
  - intros rel e d Hl Hed. destruct (He e (Hentry _ _ Hl)) as [_ Hh]. by destruct (Hh d Hed) as (_ & ?).
Qed.

(** What a run leaves in memory and in the storage, whether it fails or not. *)
Record staged (runs : list FileBackupRun) (repos : gmap string B) (run : FileBackupRun) (s : FS) (x : EX) : Prop := {
  sg_targets : ft_targets (ex_store x) = ft_targets s;
  sg_runs : ft_runs (ex_store x) = runs;
  sg_repos : repos_but (row_prefix run) repos (ft_repos (ex_store x));
  sg_run : same_place run (ex_run x);
  sg_parent : fr_ParentRunID (ex_run x) = "" ∨ ∃ p, p ∈ runs ∧ good_status (fr_Status p) = true
    ∧ fr_ID p = fr_ParentRunID (ex_run x) ∧ fr_JobID p = fr_JobID run ∧ fr_StorageTargetID p = fr_StorageTargetID run;
  sg_key : fr_ManifestKey (ex_run x) = "" ∨ fr_ManifestKey (ex_run x) = files_manifest_key (row_prefix run)
}.

(** A document whose data is under the run's own prefix or in the line of its
    parent. *)
Definition fresh_point (runs : list FileBackupRun) (repos : gmap string B) (run : FileBackupRun) : Prop :=
  fr_ManifestKey run = files_manifest_key (row_prefix run)
  ∧ ∃ b m, repos !! fr_StorageTargetID run = Some b ∧ readManifest b (fr_ManifestKey run) = Ok m
    ∧ ∀ e, e ∈ mf_Entries m → (en_Type e = EntryFile → en_Data e ≠ None)
        ∧ ∀ d, en_Data e = Some d → held sha256hex cfg b d
            ∧ (String.prefix (row_prefix run) (dm_DataKey d) = true
               ∨ ∃ p, p ∈ runs ∧ fr_ID p = fr_ParentRunID run ∧ line_of runs p d).

Lemma line_trans runs r p o : line runs r p → line runs p o → line runs r o.
Proof. intros Hrp. induction 1 as [|q o Hl IH Ho Hid]; [done|]. by eapply line_up. Qed.

(** The entries of the walk, in a document that was stored after them. *)
Lemma walked_point runs repos run parent b wk previous b' m tid :
  walked sha256hex cfg (row_prefix run) previous b run wk →
  (∀ key, key ≠ files_manifest_key (row_prefix run) → Get b' key = Get (wk_repo wk) key) →
  (∀ rel old d, previous !! rel = Some old → en_Data old = Some d →
     dm_DataKey d ≠ files_manifest_key (row_prefix run)
     ∧ ∃ p, p ∈ runs ∧ fr_ID p = parent ∧ line_of runs p d) →
  readManifest b' (files_manifest_key (row_prefix run)) = Ok m → mf_Entries m = sort_stable by_path (wk_entries wk) →
  repos !! tid = Some b' → ∀ run', same_place run run' → fr_StorageTargetID run = tid → fr_ParentRunID run' = parent →
  fr_ManifestKey run' = files_manifest_key (row_prefix run) → fresh_point runs repos run'.
Proof.
  intros [_ He _] Hother Hprev Hread Hents Hrep run' (Hid & _ & Hroot & Ht & Hc) Htid Hpar Hkey.
  assert (row_prefix run' = row_prefix run) as Hpre by (unfold row_prefix; congruence).
  split; [by rewrite Hpre|]. exists b', m. rewrite Ht, Htid, Hkey. split_and!; [done..|]. intros e Hin.
  rewrite Hents in Hin. apply sort_stable_elem_of in Hin. destruct (He e Hin) as [Hd Hh]. split; [done|].
  intros d Hed. destruct (Hh d Hed) as [Hheld Hown]. rewrite Hpre, Hpar.
  assert (dm_DataKey d ≠ files_manifest_key (row_prefix run)
    ∧ (String.prefix (row_prefix run) (dm_DataKey d) = true ∨ ∃ p, p ∈ runs ∧ fr_ID p = parent ∧ line_of runs p d)) as [Hne Hor].
  { destruct Hown as [(i & _ & ->)|(rel & old & Hl & Hold)].
    - split; [apply data_not_manifest|left; apply data_under].
    - destruct (Hprev _ _ _ Hl Hold). split; [done|by right]. }
  split; [|done]. eapply held_frame; [|exact Hheld]. by apply Hother.
Qed.

Lemma same_place_refl r : same_place r r.
Proof. by repeat split. Qed.

Lemma same_place_trans r1 r2 r3 : same_place r1 r2 → same_place r2 r3 → same_place r1 r3.
Proof. intros (?&?&?&?&?) (?&?&?&?&?). unfold same_place. split_and!; by etrans. Qed.

(** A run that failed before it wrote. *)
Lemma staged_unchanged s run x :
  tables (ex_store x) = tables s → same_place run (ex_run x) →
  (fr_ParentRunID (ex_run x) = "" ∨ ∃ p, p ∈ ft_runs s ∧ good_status (fr_Status p) = true
    ∧ fr_ID p = fr_ParentRunID (ex_run x) ∧ fr_JobID p = fr_JobID run ∧ fr_StorageTargetID p = fr_StorageTargetID run) →
  fr_ManifestKey (ex_run x) = "" → staged (ft_runs s) (ft_repos s) run s x.
Proof.
  intros Ht Hplace Hpar Hkey. unfold tables in Ht. injection Ht as _ Htg Hruns Hrep. split; [done|done| |done|done|by left].
  rewrite Hrep. apply repos_but_refl.
Qed.

(** The repository of the run gets a new content. *)
Lemma repos_but_insert prefix repos tid b b' :
  repos !! tid = Some b → (∀ key, String.prefix prefix key = false → Get b' key = Get b key) →
  repos_but prefix repos (<[tid := b']> repos).
Proof.
  intros Hb Hf tid' b0 Hb0. destruct (decide (tid' = tid)) as [->|Hne].
  - exists b'. rewrite lookup_insert_eq. split; [done|]. rewrite Hb in Hb0. by injection Hb0 as <-.
  - exists b0. by rewrite lookup_insert_ne.
Qed.

Lemma apart_from_prefix prefix key : String.prefix prefix key = false →
  (∀ i, key ≠ data_key prefix i) ∧ key ≠ files_manifest_key prefix.
Proof.
  intros Hk. split; [intros i ->|intros ->]; [by rewrite data_under in Hk|by rewrite manifest_under in Hk].
Qed.

(** What a run knows of its parent. *)
Definition parent_known (runs : list FileBackupRun) (b : B) (job : FileBackupJob) (tid parent : string)
    (previous : gmap string Entry) : Prop :=
  parent = "" ∧ previous = ∅ ∨ ∃ p, parent_of runs b job tid parent previous p.

Lemma parent_known_row runs b job tid parent previous run :
  parent_known runs b job tid parent previous → fr_JobID run = fj_ID job → fr_StorageTargetID run = tid →
  parent = "" ∨ ∃ p, p ∈ runs ∧ good_status (fr_Status p) = true ∧ fr_ID p = parent
    ∧ fr_JobID p = fr_JobID run ∧ fr_StorageTargetID p = fr_StorageTargetID run.
Proof. intros [[-> _]|[p []]] Hj Ht; [by left|right]. exists p. split_and!; congruence. Qed.

Lemma parent_known_data runs repos b job tid parent previous run :
  points_ok all runs repos → repos !! tid = Some b → parent_known runs b job tid parent previous →
  mine run runs → safe_segment (fr_ID run) →
  previous_ok sha256hex cfg (row_prefix run) previous b
  ∧ ∀ rel old d, previous !! rel = Some old → en_Data old = Some d →
      dm_DataKey d ≠ files_manifest_key (row_prefix run) ∧ ∃ p, p ∈ runs ∧ fr_ID p = parent ∧ line_of runs p d.
Proof.
  intros Hpts Hb [[_ ->]|[p Hp]] Hmine Hsafe; [by split|].
  destruct (parent_previous _ _ _ _ _ _ _ _ _ Hpts Hb Hp Hmine Hsafe) as [Hok Hl]. split; [done|].
  intros rel old d Ho Hd. destruct Hp as [Hin Hg _ _ Hid _]. destruct (Hl _ _ _ Ho Hd) as (o & Hlo & Hk).
  split; [|exists p; split_and!; [done|done|by exists o]]. intros Heq.
  destruct (line_good _ _ _ _ _ _ _ Hpts Hin Hg I Hlo) as (Ho' & Hgo & _).
  assert (String.prefix (row_prefix run) (dm_DataKey d) = false) as Hno.
  { apply (rows_apart o run); [by apply (po_safe _ _ _ _ _ Hpts)|done|by eapply mine_apart|done]. }
  by rewrite Heq, manifest_under in Hno.
Qed.

(** The walk and the document, once the source, the storage and the parent are
    chosen. *)
Section Write.
Context (w : RunWorld (B := B)) (job : FileBackupJob) (parent : string) (previous : gmap string Entry).
Context (s : FS) (run : FileBackupRun) (b : B).
#[local] Abbreviation tid := (fr_StorageTargetID run).
Hypothesis (plain : plain_world w) (pts : points_ok all (ft_runs s) (ft_repos s)) (its : mine run (ft_runs s)).
Hypothesis (safe : safe_segment (fr_ID run)) (its_job : fr_JobID run = fj_ID job).
Hypothesis (repo : ft_repos s !! tid = Some b) (known : parent_known (ft_runs s) b job tid parent previous).
Hypothesis (its_parent : fr_ParentRunID run = parent) (no_key : fr_ManifestKey run = "").

Lemma copied_run source x r :
  match source with inl _ => True | inr storage => ∃ id, storage = ew_storage w id end →
  copy_source sha256hex cfg w job tid (row_prefix run) b previous source (mkExec s run) = (x, r) →
  ∃ wk, walked sha256hex cfg (row_prefix run) previous b run wk
    ∧ ex_store x = with_ft_repos (<[tid := wk_repo wk]> (ft_repos s)) s ∧ ex_run x = wk_run wk
    ∧ staged (ft_runs s) (ft_repos s) run s x ∧ fr_ManifestKey (ex_run x) = "" ∧ fr_ParentRunID (ex_run x) = parent
    ∧ ∀ entries, r = Ok entries → entries = wk_entries wk.
Proof using All.
  intros Hsource Hcopy. destruct (parent_known_data _ _ _ _ _ _ _ _ pts repo known its safe) as [Hprev _].
  destruct (copy_source_run _ _ _ _ _ _ _ _ _ _ _ plain Hsource Hprev Hcopy) as (wk & Hwk & Hstore & Hrun & Hent).
  exists wk. split_and!; [done..| | | |done]; destruct Hwk as [Hoth _ (Hi & Hj & Hrt & Htg & Hp & _ & Hk & _ & _ & _ & Hc)].
  - split; rewrite ?Hstore, ?Hrun; [done|done| |by split_and!| |left; congruence].
    + apply (repos_but_insert _ _ _ b); [done|]. intros key Hkey. by apply Hoth, apart_from_prefix.
    + rewrite Hp, its_parent. by eapply parent_known_row.
  - congruence.
  - congruence.
Qed.

Lemma write_run source x' r :
  match source with inl _ => True | inr storage => ∃ id, storage = ew_storage w id end →
  (entries ← copy_source sha256hex cfg w job tid (row_prefix run) b previous source ;
   if negb (hasContent entries) then fail (FileEmptySource (fj_IncludePaths job)) else
   commit job tid (row_prefix run) parent entries ;;
   set_run (λ run, fr_set_status (final_status job run) (fr_Error run) (fr_StartedAt run)
     (match final_status job run with RunWaitingCopies => None | _ => Some (ew_ended w) end) run)) (mkExec s run) = (x', r) →
  staged (ft_runs s) (ft_repos s) run s x'
  ∧ (r = Ok () → fresh_point (ft_runs s) (ft_repos (ex_store x')) (ex_run x')).
Proof using All.
  intros Hsource Hrun.
  destruct (bind_inv _ _ _ _ Hrun) as [(x1 & entries & Hcopy & Hrun1)|(x1 & e & Hcopy & [= -> ->])];
    destruct (copied_run _ _ _ Hsource Hcopy) as (wk & Hwk & Hstore & Hmem & Hst1 & Hk1 & Hp1 & Hent); [|by split].
  specialize (Hent _ eq_refl). destruct (negb (hasContent entries)); [by injection Hrun1 as <- <-; split|].
  destruct x1 as [s1 run1]. cbn in Hstore, Hmem, Hk1, Hp1.
  assert (ft_repos s1 !! tid = Some (wk_repo wk)) as Hb1 by (rewrite Hstore; apply lookup_insert_eq).
  assert (∃ x2 r2, commit job tid (row_prefix run) parent entries (mkExec s1 run1) = (x2, r2)
    ∧ ex_store x' = ex_store x2 ∧ same_place (ex_run x2) (ex_run x') ∧ fr_ParentRunID (ex_run x') = fr_ParentRunID (ex_run x2)
    ∧ fr_ManifestKey (ex_run x') = fr_ManifestKey (ex_run x2) ∧ (r = Ok () → r2 = Ok ()))
    as (x2 & r2 & Hcommit & Hstore2 & Hplace2 & Hpar2 & Hkey2 & Hok2).
  { destruct (bind_inv _ _ _ _ Hrun1) as [(x2 & [] & Hc & Hset)|(x2 & e & Hc & [= -> ->])].
    - exists x2, (Ok ()). cbv [set_run modify] in Hset. by injection Hset as <- <-.
    - exists x2, (Err e). by split_and!; try apply same_place_refl. }
  destruct (commit_run _ _ _ _ _ _ _ _ _ _ Hb1 Hcommit) as (b' & Hs2 & Hother & Hpl & Hpr & _ & Hkey & Hready).
  pose proof (same_place_trans _ _ _ (sg_run _ _ _ _ _ Hst1) (same_place_trans _ _ _ Hpl Hplace2)) as Hplace.
  assert (ft_repos (ex_store x') = <[tid := b']> (ft_repos s)) as Hrepos.
  { rewrite Hstore2, Hs2, Hstore. cbn. apply insert_insert_eq. }
  assert (fr_ParentRunID (ex_run x') = parent) as Hparent by congruence.
  split.
  - split; [by rewrite Hstore2, Hs2, Hstore|by rewrite Hstore2, Hs2, Hstore| |done| |].
    + rewrite Hrepos. apply (repos_but_insert _ _ _ b); [done|]. intros key [Hd Hm]%apart_from_prefix.
      rewrite Hother by done. by apply (wd_others _ _ _ _ _ _ _ Hwk).
    + rewrite Hparent. by eapply parent_known_row.
    + rewrite Hkey2. destruct Hkey as [->| ->]; [left; exact Hk1|by right].
  - intros Hr. destruct (Hready (Hok2 Hr)) as (Hkx & m & Hread & Hents). rewrite Hent in Hents.
    destruct (parent_known_data _ _ _ _ _ _ _ _ pts repo known its safe) as [_ Hline].
    eapply (walked_point _ _ run); [exact Hwk|exact Hother|exact Hline|exact Hread|exact Hents| |done|done|done|congruence].
    by rewrite Hrepos, lookup_insert_eq.
Qed.
End Write.

(** A task: a run that was created and has not been carried out, in memory. *)
Record task_ok (runs : list FileBackupRun) (job : FileBackupJob) (run : FileBackupRun) : Prop := {
  tk_safe : safe_segment (fr_ID run);
  tk_mine : mine run runs;
  tk_job : fr_JobID run = fj_ID job;
  tk_root : fr_RootID run = fj_RootID job;
  tk_key : fr_ManifestKey run = "";
  tk_parent : fr_ParentRunID run = "";
  tk_alone : mirror_ids job = []
}.

Lemma staged_reads run (s : FS) x : tables (ex_store x) = tables s → ex_run x = run → fr_ManifestKey run = "" →
  fr_ParentRunID run = "" → staged (ft_runs s) (ft_repos s) run s x.
Proof.
  intros Ht Hrun Hk Hp. apply staged_unchanged; rewrite ?Hrun; [done|apply same_place_refl|by left|done].
Qed.

(** The same in the state after reads. *)
Lemma staged_tables run0 run (s s0 : FS) x :
  tables s = tables s0 → same_place run0 run → staged (ft_runs s) (ft_repos s) run s x → staged (ft_runs s0) (ft_repos s0) run0 s0 x.
Proof.
  intros Ht Hpl [Htg Hr Hb Hrun Hp Hk]. unfold tables in Ht. injection Ht as _ Etg Er Eb.
  rewrite Er in *. rewrite Eb in *. pose proof Hpl as (Hi & Hj & Hrt & Htt & Hc).
  assert (row_prefix run = row_prefix run0) as Hpre by (unfold row_prefix; congruence).
  split; [by rewrite <-Etg|done|by rewrite <-Hpre|by eapply same_place_trans| |by rewrite <-Hpre].
  destruct Hp as [?|(p & ? & ? & ? & ? & ?)]; [by left|right]. exists p. split_and!; congruence.
Qed.

Lemma mine_place run run' runs : same_place run run' → mine run runs → mine run' runs.
Proof.
  intros (Hi & Hj & Hr & Ht & Hc) Hm x Hx Hid. destruct (Hm x Hx) as (? & ? & ? & ? & ?); [congruence|].
  split_and!; congruence.
Qed.

Lemma execute_body_run w job run s x' r :
  tidy all s → plain_world w → task_ok (ft_runs s) job run →
  execute_body sha256hex cfg roots w job (mkExec s run) = (x', r) →
  staged (ft_runs s) (ft_repos s) run s x'
  ∧ (r = Ok () → fresh_point (ft_runs s) (ft_repos (ex_store x')) (ex_run x')).
Proof.
  intros Hs Hw [Hsafe Hmine Hjob Hroot Hkey Hpar Halone] Hrun. unfold execute_body in Hrun. rewrite get_run in Hrun.
  cbn [ex_run] in Hrun.
  apply run_step in Hrun as [(e & -> & Ht & Hr)|(s1 & source & Hsrc & Ht1 & Hrun)]; [by split; [apply staged_reads|]| |apply choose_source_reads].
  apply choose_source_inv in Hsrc.
  apply run_step in Hrun as [(e & -> & Ht & Hr)|(s2 & target & Htgt & Ht2 & Hrun)];
    [by split; [apply staged_reads; [congruence|..]|]| |apply choose_target_reads].
  apply choose_target_inv in Htgt.
  assert (tgt_ID target = fr_StorageTargetID run) as Htid.
  { apply (ti_targets _ _ Hs). unfold tables in Ht1. congruence. }
  rewrite Htid in Hrun.
  apply run_step in Hrun as [(e & -> & Ht & Hr)|(s3 & b & Hop & Ht3 & Hrun)];
    [by split; [apply staged_reads; [congruence|..]|]| |apply open_repo_reads].
  apply open_repo_inv in Hop as [_ Hb].
  rewrite Halone in Hrun. cbn [open_mirrors] in Hrun.
  apply run_step in Hrun as [(e & -> & Ht & Hr)|(s4 & ms & _ & Ht4 & Hrun)];
    [by split; [apply staged_reads; [congruence|..]|]| |apply leaves_ret].
  assert (tables s4 = tables s) as Ht by congruence. assert (tables s2 = tables s) as Ht2' by congruence.
  rewrite <-Hroot in Hrun. change (run_prefix (fr_RootID run) (fr_CreatedAt run) (fr_ID run)) with (row_prefix run) in Hrun.
  cbv zeta in Hrun. destruct (bind_inv _ _ _ _ Hrun) as [(x5 & pp & Hch & Hrun5)|(x5 & e & Hch & _)].
  2: { by apply choose_parent_run in Hch as (_ & ? & ? & [=] & _). }
  clear Hrun. apply choose_parent_run in Hch as (Ht5 & parent & previous & [= ->] & Hpa).
  destruct x5 as [s5 run5]. cbn [ex_store ex_run] in Ht5, Hpa.
  assert (tables s5 = tables s) as Ht5' by congruence. pose proof (tidy_tables _ _ _ Ht5' Hs) as Hs5.
  assert (same_place run run5 ∧ fr_ManifestKey run5 = "" ∧ fr_ParentRunID run5 = parent
    ∧ parent_known (ft_runs s5) b job (fr_StorageTargetID run) parent previous) as (Hpl & Hk5 & Hp5 & Hkn).
  { assert (ft_runs s4 = ft_runs s5) as Hr45 by (unfold tables in Ht5; congruence). rewrite Hr45 in Hpa.
    destruct Hpa as [(-> & -> & ->)|(p & Hp & ->)]; split_and!; try done; [by left|right; by exists p]. }
  assert (fr_StorageTargetID run5 = fr_StorageTargetID run) as Htid5 by apply Hpl.
  assert (row_prefix run5 = row_prefix run) as Hpre by (destruct Hpl as (?&?&?&?&?); unfold row_prefix; congruence).
  rewrite <-Hpre, <-Htid5 in Hrun5.
  assert (ft_runs s5 = ft_runs s ∧ ft_repos s5 = ft_repos s) as [Hruns5 Hrepos5] by (unfold tables in Ht5'; injection Ht5' as _ _ ? ?; by split).
  eapply (write_run w job parent previous s5 run5 b) in Hrun5 as [Hst Hok]; [|done|apply Hs5| | | | |by rewrite Htid5|done..].
  - split; [by eapply staged_tables|]. intros Hr. rewrite <-Hruns5. by apply Hok.
  - rewrite Hruns5. by eapply mine_place.
  - destruct Hpl as (-> & _). done.
  - destruct Hpl as (_ & -> & _). done.
  - rewrite Hrepos5, Htid5. unfold tables in Ht2'. congruence.
Qed.

Lemma update_run r (s s' : FS) res : UpdateFileBackupRun r s = (s', res) →
  ft_targets s' = ft_targets s ∧ ft_repos s' = ft_repos s
  ∧ (ft_runs s' = ft_runs s ∨ ft_runs s' = replace_row r (ft_runs s)).
Proof.
  unfold UpdateFileBackupRun, file_query. intros Hr. pose proof (attempt_cases FileDB s) as Ht.
  cbv [mbind ST_bind get modify] in Hr. destruct (file_attempt FileDB s) as [s1 [[]|e]]; cbn in Ht;
    unfold tables in Ht; injection Ht as _ Htg Hruns Hrep; injection Hr as <- _; cbn; rewrite ?Htg, ?Hruns, ?Hrep;
    split_and!; [done|done|by right|done|done|by left].
Qed.

Lemma elem_of_replace_row x' runs r : r ∈ replace_row x' runs →
  (r ∈ runs ∧ fr_ID r ≠ fr_ID x') ∨ ∃ x, x ∈ runs ∧ fr_ID x = fr_ID x' ∧ r = file_run_columns x' x.
Proof.
  intros (r0 & -> & Hr0)%list_elem_of_fmap. unfold has_run_id. case_bool_decide as Hd; [right; by exists r0|by left].
Qed.

Lemma mine_replaced x' runs : mine x' runs → good_status (fr_Status x') = false → mine x' (replace_row x' runs).
Proof.
  intros Hm Hg r [[Hr Hne]|(x & Hx & Hid & ->)]%elem_of_replace_row Hid'; [done|].
  destruct (Hm x Hx Hid) as (_ & Hj & Hrt & Ht & Hc). split; [by rewrite <-not_true_iff_false in Hg|done].
Qed.

(** A run that has become a point fits its row. *)
Lemma fresh_row runs repos repos' run x :
  points_ok all runs repos → mine run runs → safe_segment (fr_ID run) → repos_but (row_prefix run) repos repos' →
  fresh_point runs repos' run → x ∈ runs → fr_ID x = fr_ID run →
  (fr_ParentRunID run = "" ∨ ∃ p, p ∈ runs ∧ good_status (fr_Status p) = true ∧ fr_ID p = fr_ParentRunID run
    ∧ fr_JobID p = fr_JobID run ∧ fr_StorageTargetID p = fr_StorageTargetID run) →
  row_ok all (replace_row run runs) repos' (file_run_columns run x).
Proof.
  intros Hp Hm Hs Hb (Hkey & b & m & Hrep & Hread & He) Hx Hid Hpar. destruct (Hm x Hx Hid) as (_ & Hj & Hrt & Ht & Hc).
  set (x2 := file_run_columns run x).
  assert (row_prefix x2 = row_prefix run) as Hpre by (unfold row_prefix, x2; cbn -[run_prefix]; congruence).
  assert (∀ p, p ∈ runs → good_status (fr_Status p) = true → p ∈ replace_row run runs) as Hkeep.
  { intros p Hin Hg. apply list_elem_of_fmap. exists p. split; [|done]. unfold has_run_id.
    by rewrite bool_decide_eq_false_2 by (by eapply mine_apart). }
  split.
  - cbn. intros Hne. destruct Hpar as [?|(p & Hin & Hg & Hpid & Hpj & Hpt)]; [done|]. exists p.
    split_and!; [by apply Hkeep|done|done|congruence|congruence].
  - exists b. split; [cbn; by rewrite Ht|]. split; [by rewrite Hpre|]. exists m. split; [done|].
    intros e Hin. destruct (He e Hin) as [Hd Hh]. split; [done|]. intros d Hed. destruct (Hh d Hed) as [Hheld Hown].
    split; [done|]. destruct Hown as [Hown|(p & Hin' & Hpid & o & Hl & Hk)].
    + exists x2. split; [constructor|]. by rewrite Hpre.
    + exists o. split; [|done].
      destruct Hpar as [Hnil|(q & Hq & Hg & Hqid & _)].
      { rewrite Hnil in Hpid. by destruct (ss_some _ (po_safe _ _ _ _ _ Hp p Hin')). }
      assert (q = p) as -> by (apply (row_unique runs); [apply Hp|done..|congruence]).
      assert (∀ o, line runs p o → line (replace_row run runs) x2 o) as Hl2; [|by apply Hl2].
      intros o' Hl'. induction Hl' as [|q o' Hl' IH Ho Hoid].
      * eapply line_up; [constructor|by apply Hkeep|exact Hpid].
      * eapply line_up; [exact IH| |exact Hoid].
        assert (line runs p o') as Hlo by (by eapply line_up).
        destruct (line_good _ _ _ _ _ _ _ Hp Hin' Hg I Hlo) as (? & ? & _). by apply Hkeep.
Qed.

(** The row of a run after it. *)
Lemma settle_run run s1 x run2 (s3 : FS) res :
  tidy all s1 → mine run (ft_runs s1) → safe_segment (fr_ID run) → staged (ft_runs s1) (ft_repos s1) run s1 x →
  same_place (ex_run x) run2 → fr_ParentRunID run2 = fr_ParentRunID (ex_run x) → fr_ManifestKey run2 = fr_ManifestKey (ex_run x) →
  (good_status (fr_Status run2) = true → fresh_point (ft_runs s1) (ft_repos (ex_store x)) run2) →
  UpdateFileBackupRun run2 (ex_store x) = (s3, res) →
  tidy all s3 ∧ ∀ r, r ∈ ft_runs s3 → fr_ID r ≠ fr_ID run → r ∈ ft_runs s1.
Proof.
  intros Hs Hm Hsafe [Htg Hruns Hb Hrun Hpar Hkey] Hpl Hp2 Hk2 Hgood Hup.
  pose proof (same_place_trans _ _ _ Hrun Hpl) as Hplace. pose proof (mine_place _ _ _ Hplace Hm) as Hm2.
  pose proof Hplace as (Hid & Hj & Hrt & Ht & Hc).
  assert (row_prefix run2 = row_prefix run) as Hpre by (unfold row_prefix; congruence).
  apply update_run in Hup as (Htg3 & Hrep3 & Hor). rewrite Hruns in Hor.
  assert (∀ p, p ∈ ft_runs s1 → good_status (fr_Status p) = true → all (fr_ID p) → fr_ID p ≠ fr_ID run) as Hap.
  { intros p Hp Hg _. by eapply mine_apart. }
  destruct Hor as [Hr3|Hr3].
  - split; [|by rewrite Hr3]. split; [rewrite Htg3, Htg; apply Hs|]. rewrite Hr3, Hrep3.
    eapply points_frame; [apply Hs|]. by eapply (repos_but_keep _ _ _ _ _ _ run); [apply Hs|..].
  - split.
    + split; [rewrite Htg3, Htg; apply Hs|]. rewrite Hr3, Hrep3.
      eapply points_update; [apply Hs|done|by rewrite Hid|by rewrite Hpre|by rewrite Hk2, Hpre| |].
      * rewrite Hp2. intros Hne. destruct Hpar as [?|(p & ? & ? & ? & _)]; [done|by exists p].
      * intros x0 Hx0 Hid0 Hg _. eapply fresh_row; [apply Hs|done|by rewrite Hid|by rewrite Hpre|by apply Hgood|done|done|].
        rewrite Hp2. destruct Hpar as [?|(p & ? & ? & ? & ? & ?)]; [by left|right]. exists p. split_and!; congruence.
    + intros r Hin Hne. rewrite Hr3 in Hin. apply elem_of_replace_row in Hin as [[? _]|(x0 & Hx0 & Hx0id & ->)]; [done|].
      cbn in Hne. congruence.
Qed.

Lemma no_mirrors {V} (f : string → V → V) (m : gmap string V) :
  map_imap (λ id b, Some (if bool_decide (id ∈ []) then f id b else b)) m = m.
Proof.
  apply map_eq. intros i. rewrite map_lookup_imap. destruct (m !! i) as [v|]; [|done]. cbn.
  rewrite bool_decide_eq_false_2; [done|]. by intros ?%elem_of_nil.
Qed.

Lemma staged_start run s : fr_ManifestKey run = "" → fr_ParentRunID run = "" →
  staged (ft_runs s) (ft_repos s) run s (mkExec s run).
Proof. by apply staged_reads. Qed.

(** What a run leaves: the other rows, and every point. *)
Lemma execute_run w job run (s s' : FS) res :
  tidy all s → plain_world w → task_ok (ft_runs s) job run →
  execute sha256hex cfg roots error_text w job run s = (s', res) →
  tidy all s' ∧ ∀ r, r ∈ ft_runs s' → fr_ID r ≠ fr_ID run → r ∈ ft_runs s.
Proof.
  intros Hs Hw [Hsafe Hmine Hjob Hroot Hkey Hpar Halone] Hrun. unfold execute in Hrun.
  set (run1 := fr_set_status RunRunning _ _ _ run) in Hrun.
  apply try_inv in Hrun as (s1 & u & Hup & Hrun). rewrite get_run in Hrun.
  pose proof (update_run _ _ _ _ Hup) as (_ & _ & Hor).
  destruct (settle_run run s (mkExec s run) run1 s1 u Hs Hmine Hsafe) as [Hs1 Hrows1]; try done; [by apply staged_start|].
  assert (mine run1 (ft_runs s1)) as Hm1.
  { assert (mine run1 (ft_runs s)) as Hm1 by exact (mine_place run run1 _ (same_place_refl _) Hmine).
    destruct Hor as [->| ->]; [done|by apply mine_replaced]. }
  destruct (execute_body _ _ _ _ _ (mkExec s1 run1)) as [x r] eqn:Hbody.
  apply execute_body_run in Hbody as [Hst Hok]; [|done..|by split].
  cbv [mbind ST_bind modify] in Hrun. rewrite Halone, no_mirrors in Hrun.
  replace (with_ft_repos (ft_repos (ex_store x)) (ex_store x)) with (ex_store x) in Hrun by (by destruct (ex_store x)).
  assert (∃ run2 res2, UpdateFileBackupRun run2 (ex_store x) = (s', res2) ∧ same_place (ex_run x) run2
    ∧ fr_ParentRunID run2 = fr_ParentRunID (ex_run x) ∧ fr_ManifestKey run2 = fr_ManifestKey (ex_run x)
    ∧ (good_status (fr_Status run2) = true → r = Ok () ∧ run2 = ex_run x)) as (run2 & res2 & Hfin & Hpl & Hp2 & Hk2 & Hg2).
  { destruct r as [[]|e].
    - apply try_inv in Hrun as (s2 & u2 & Hup2 & [= <- _]). exists (ex_run x), u2. by split_and!; try apply same_place_refl.
    - apply try_inv in Hrun as (s2 & u2 & Hup2 & [= <- _]). eexists _, u2. split; [exact Hup2|].
      by split_and!; try apply same_place_refl. }
  eapply settle_run in Hfin as [Hs' Hrows']; [|done|done|done|done|done|done|done|].
  - split; [done|]. intros r' Hr' Hne. apply Hrows1; [|done]. by apply Hrows'.
  - intros [-> ->]%Hg2. by apply Hok.
Qed.

(** ** A new run *)
Definition created_run (fresh : string) (job : FileBackupJob) (targetID : string) (now : Z) : FileBackupRun :=
  mkFileRun fresh (fj_ID job) (fj_RootID job) targetID "" RunPending "" 0 0 0 0 [] "" None None now.

Lemma createRun_run fresh n job t now (s s' : FS) res : fresh n ≠ "" → createRun fresh n job t now s = (s', res) →
  match res with
  | Ok run => run = created_run (fresh n) job t now ∧ ft_targets s' = ft_targets s ∧ ft_repos s' = ft_repos s
      ∧ ft_runs s' = ft_runs s ++ [run]
  | Err _ => tables s' = tables s
  end.
Proof.
  intros Hne Hr. unfold createRun, CreateFileBackupRun, file_query in Hr. pose proof (attempt_cases FileDB s) as Ht.
  cbv [mbind ST_bind get modify fail mret ST_ret] in Hr. destruct (file_attempt FileDB s) as [s1 [[]|e]]; cbn [fst] in Ht.
  - destruct (_ && _); injection Hr as <- <-; [|done]. unfold tables in Ht. injection Ht as _ Htg Hruns Hrep.
    cbn. rewrite Htg, Hruns, Hrep. done.
  - by injection Hr as <- <-.
Qed.

(** Identifiers nothing uses yet. *)
Record unused (ids : list string) (runs : list FileBackupRun) (id : string) : Prop := {
  un_safe : safe_segment id;
  un_tasks : id ∉ ids;
  un_runs : id ∉ fr_ID <$> runs;
  un_parents : ∀ r, r ∈ runs → fr_ParentRunID r ≠ id
}.

(** The first [N] identifiers are fresh and differ. *)
Record supply (N : nat) (fresh : nat → string) (ids : list string) (runs : list FileBackupRun) : Prop := {
  su_inj i j : (i < N)%nat → (j < N)%nat → fresh i = fresh j → i = j;
  su_unused k : (k < N)%nat → unused ids runs (fresh k)
}.

Lemma create_runs_run N fresh job now ids :
  ∀ targets n (s s' : FS) created e,
  tidy all s → (n + length targets ≤ N)%nat →
  (∀ i j, (i < N)%nat → (j < N)%nat → fresh i = fresh j → i = j) →
  (∀ k, (n ≤ k < N)%nat → unused ids (ft_runs s) (fresh k)) →
  create_runs fresh n job targets now s = (s', Ok (created, e)) →
  tidy all s' ∧ ft_runs s' = ft_runs s ++ created ∧ NoDup (fr_ID <$> created)
  ∧ ∀ run, run ∈ created → ∃ k t, (n ≤ k < N)%nat ∧ run = created_run (fresh k) job t now.
Proof.
  induction targets as [|t targets IH]; intros n s s' created e Hs Hlen Hinj Hun Hrun; cbn in Hrun, Hlen.
  { injection Hrun as <- <- _. rewrite app_nil_r. split_and!; [done|done|constructor|by intros run ?%elem_of_nil]. }
  apply try_inv in Hrun as (s1 & r & Hc & Hrun). destruct (Hun n) as [Hsafe Hnt Hnr Hnp]; [lia|].
  apply createRun_run in Hc; [|by apply Hsafe]. destruct r as [run|e1].
  2: { injection Hrun as <- <- _. rewrite app_nil_r. split_and!; [by eapply tidy_tables| |constructor|by intros run ?%elem_of_nil].
       unfold tables in Hc. congruence. }
  destruct Hc as (-> & Htg & Hrep & Hruns). set (run := created_run (fresh n) job t now) in *.
  assert (tidy all s1) as Hs1.
  { split; [rewrite Htg; apply Hs|]. rewrite Hruns, Hrep. by apply points_add; [apply Hs|..]. }
  apply bind_ok in Hrun as (s2 & [rest e2] & Hrest & [= <- <- _]).
  apply IH in Hrest as (Hs2 & Hr2 & Hnd & Hall); [|done|lia|done|].
  - split_and!; [done| | |].
    + by rewrite Hr2, Hruns, <-app_assoc.
    + cbn. apply NoDup_cons. split; [|done]. intros (x & Hx & Hin)%list_elem_of_fmap.
      destruct (Hall x Hin) as (k & t' & Hk & ->). cbn in Hx. apply Hinj in Hx; lia.
    + intros x [->|Hin]%elem_of_cons; [exists n, t; split; [lia|done]|]. destruct (Hall x Hin) as (k & t' & Hk & ->).
      exists k, t'. split; [lia|done].
  - intros k Hk. destruct (Hun k) as [Hks Hkt Hkr Hkp]; [lia|]. rewrite Hruns. split; [done|done| |].
    + rewrite fmap_app. intros [?|Heq%list_elem_of_singleton]%elem_of_app; [done|]. cbn in Heq. apply Hinj in Heq; lia.
    + intros r [Hr|Hr%list_elem_of_singleton]%elem_of_app; [by apply Hkp|]. subst r. cbn. intros Heq.
      by destruct (ss_some _ Hks).
Qed.

(** ** The program over time *)

(** A job whose runs need no copies on other storages. *)
Definition whole (job : FileBackupJob) : Prop :=
  fj_StorageMode job = StorageModeSeparate ∨ (length (fj_StorageTargetIDs job) ≤ 1)%nat.

Lemma whole_alone job : whole job → mirror_ids job = [].
Proof.
  unfold mirror_ids. intros [->|Hl]; [done|]. destruct (fj_StorageMode job); try done.
  by destruct (fj_StorageTargetIDs job) as [|? []]; cbn in *; [..|lia].
Qed.

(** The tables and storages, and the runs that wait for their goroutine. *)
Record Machine := mkMachine { ma_store : FS; ma_tasks : list (FileBackupJob * FileBackupRun) }.

Definition task_ids (tasks : list (FileBackupJob * FileBackupRun)) : list string := (λ t, fr_ID t.2) <$> tasks.

(** Any statement or connection may fail at any time, and jobs change at will. A run
    and a deletion are one step each: they do not overlap. A deletion or a retention
    pass completes, or is refused or fails before it has deleted anything: one that
    fails between the objects of a point and its row leaves a point that cannot be
    restored. *)
Definition settled (s s' : FS) (res : result FileError ()) : Prop := res = Ok () ∨ tables s' = tables s.

Inductive step : Machine → Machine → Prop :=
| step_start fresh now jobID s tasks s' job created e :
    supply (length (fj_StorageTargetIDs job)) fresh (task_ids tasks) (ft_runs s) →
    Start cfg roots fresh now jobID s = (s', Ok (job, created, e)) → whole job →
    step (mkMachine s tasks) (mkMachine s' (tasks ++ ((λ run, (job, run)) <$> created)))
| step_not_started fresh now jobID s tasks s' e :
    Start cfg roots fresh now jobID s = (s', Err e) → step (mkMachine s tasks) (mkMachine s' tasks)
| step_execute w job run s tasks1 tasks2 s' res :
    plain_world w → execute sha256hex cfg roots error_text w job run s = (s', res) →
    step (mkMachine s (tasks1 ++ (job, run) :: tasks2)) (mkMachine s' (tasks1 ++ tasks2))
| step_delete id s tasks s' res :
    DeleteRun id s = (s', res) → settled s s' res → step (mkMachine s tasks) (mkMachine s' tasks)
| step_retention visit fuel now s tasks s' res :
    (length (ft_runs s) ≤ fuel)%nat → ApplyRetention visit fuel now s = (s', res) → settled s s' res →
    step (mkMachine s tasks) (mkMachine s' tasks)
| step_delete_job id s tasks s' res :
    DeleteFileBackupJob id s = (s', res) → step (mkMachine s tasks) (mkMachine s' tasks)
| step_jobs jobs s tasks : step (mkMachine s tasks) (mkMachine (with_ft_jobs jobs s) tasks)
| step_faults faults s tasks : step (mkMachine s tasks) (mkMachine (with_ft_faults faults s) tasks).

Record machine_ok (m : Machine) : Prop := {
  mo_tidy : tidy all (ma_store m);
  mo_tasks : ∀ job run, (job, run) ∈ ma_tasks m → task_ok (ft_runs (ma_store m)) job run;
  mo_ids : NoDup (task_ids (ma_tasks m))
}.

Lemma mine_subset run runs runs' : runs' ⊆ runs → mine run runs → mine run runs'.
Proof. intros Hsub Hm x Hx. by apply Hm, Hsub. Qed.

Lemma task_subset runs runs' job run : runs' ⊆ runs → task_ok runs job run → task_ok runs' job run.
Proof. intros Hsub [? Hm ? ? ? ? ?]. split; try done. by eapply mine_subset. Qed.

(** Rows were removed and none was written. *)
Lemma machine_shrinks s s' tasks :
  machine_ok (mkMachine s tasks) → tidy all s' ∧ ft_runs s' ⊆ ft_runs s → machine_ok (mkMachine s' tasks).
Proof. intros [_ Htasks Hids] [Hs' Hsub]. split; [done| |done]. intros job run Hin. eapply task_subset; [exact Hsub|by apply Htasks]. Qed.

Lemma RootExists_reads rootID : leaves tables (RootExists (B := B) roots rootID).
Proof.
  unfold RootExists. destruct (StorageRootTarget _) as [id|]; [|by destruct (_.2)].
  apply leaves_bind; [apply get_target_reads|]. intros t. destruct (negb _); [done|]. by destruct (negb _).
Qed.

Lemma get_job_reads id : leaves tables (GetFileBackupJob (B := B) id).
Proof. apply read_reads. Qed.

Lemma create_runs_total fresh job now targets : ∀ n (s : FS), ∃ c e, (create_runs fresh n job targets now s).2 = Ok (c, e).
Proof.
  induction targets as [|t targets IH]; intros n s; cbn; [by eexists _, _|]. run_st.
  destruct (createRun fresh n job t now s) as [s1 [run|e]]; [|by eexists _, _].
  destruct (IH (S n) s1) as (c & e & Heq). destruct (create_runs fresh (S n) job targets now s1) as [s2 r2]. cbn in Heq. subst r2.
  by eexists _, _.
Qed.

(** Until the rows are created, starting a job only reads. *)
Lemma Start_inv fresh now jobID s s' res : Start cfg roots fresh now jobID s = (s', res) →
  tables s' = tables s ∧ (∃ e, res = Err e)
  ∨ ∃ s1 job targets created e, tables s1 = tables s ∧ (length targets ≤ length (fj_StorageTargetIDs job))%nat
      ∧ create_runs fresh 0 job targets now s1 = (s', Ok (created, e))
      ∧ res = Ok (job, created, e).
Proof.
  unfold Start. intros Hrun.
  apply table_read_step in Hrun as [(e & -> & Ht)|(s1 & job & _ & Ht1 & Hrun)]; [left; eauto| |apply get_job_reads].
  destruct (bool_decide _); [injection Hrun as <- <-; left; eauto|].
  apply table_read_step in Hrun as [(e & -> & Ht)|(s2 & [] & _ & Ht2 & Hrun)]; [left; split; [congruence|eauto]| |apply RootExists_reads].
  destruct (_ && _); [injection Hrun as <- <-; left; split; [congruence|eauto]|].
  right. destruct (bind_inv _ _ _ _ Hrun) as [(s3 & [c e] & Hc & [= <- <-])|(s3 & e & Hc & _)].
  - eexists s2, job, _, c, e. split; [congruence|]. split; [|split; [exact Hc|done]].
    destruct (fj_StorageMode job); rewrite ?length_take; lia.
  - match type of Hc with create_runs _ _ _ ?ts _ _ = _ => destruct (create_runs_total fresh job now ts 0%nat s2) as (c & e' & Heq) end.
    by rewrite Hc in Heq.
Qed.

Lemma new_task_ok runs ids (fresh : nat → string) job t now created k :
  whole job → unused ids runs (fresh k) → NoDup (fr_ID <$> created) → created_run (fresh k) job t now ∈ created →
  task_ok (runs ++ created) job (created_run (fresh k) job t now).
Proof.
  intros Hwhole [Hs Ht Hr Hp] Hnd Hin. split; [done| |done..|by apply whole_alone].
  intros x [Hx|Hx]%elem_of_app Hid.
  - exfalso. apply Hr. cbn in Hid. rewrite <-Hid. by apply list_elem_of_fmap_2.
  - assert (x = created_run (fresh k) job t now) as -> by (by apply (row_unique created)). done.
Qed.

Lemma start_ok fresh now jobID s tasks s' job created e :
  supply (length (fj_StorageTargetIDs job)) fresh (task_ids tasks) (ft_runs s) →
  Start cfg roots fresh now jobID s = (s', Ok (job, created, e)) → whole job →
  machine_ok (mkMachine s tasks) → machine_ok (mkMachine s' (tasks ++ ((λ run, (job, run)) <$> created))).
Proof.
  intros [Hinj Hun] Hstart Hwhole [Hs Htasks Hids].
  apply Start_inv in Hstart as [(_ & e0 & [=])|(s1 & job' & targets & c & e' & Ht1 & Hlen & Hc & [= <- <- <-])].
  cbn [ma_store ma_tasks] in *. assert (ft_runs s1 = ft_runs s) as Hruns1 by (unfold tables in Ht1; congruence).
  pose proof (create_runs_run (length (fj_StorageTargetIDs job)) fresh job now (task_ids tasks) targets 0 s1 s' created e) as Hrun.
  destruct Hrun as (Hs' & Hruns & Hnd & Hall);
    [by eapply tidy_tables|exact Hlen|exact Hinj|intros k Hk; rewrite Hruns1; apply Hun; lia|done|].
  rewrite Hruns1 in Hruns.
  assert (∀ run, run ∈ created → fr_ID run ∉ task_ids tasks) as Hfresh.
  { intros run Hin. destruct (Hall run Hin) as (k & t & Hk & ->). apply (Hun k). lia. }
  split; cbn [ma_store ma_tasks]; [done| |].
  - intros j run [Hin|Hin]%elem_of_app.
    + destruct (Htasks j run Hin) as [? Hm ? ? ? ? ?]. split; try done. intros x Hx. rewrite Hruns in Hx.
      apply elem_of_app in Hx as [Hx|Hx]; [by apply Hm|]. intros Hid. exfalso. apply (Hfresh x Hx). rewrite Hid.
      apply list_elem_of_fmap. by exists (j, run).
    + apply list_elem_of_fmap in Hin as (run' & [= -> ->] & Hin). destruct (Hall _ Hin) as (k & t & Hk & ->). rewrite Hruns.
      eapply new_task_ok; [done|apply Hun; lia|done|done].
  - unfold task_ids. rewrite fmap_app, <-list_fmap_compose. apply NoDup_app. split_and!; [done| |exact Hnd].
    intros id Hid (run & -> & Hin)%list_elem_of_fmap. cbn in Hid. by apply (Hfresh run).
Qed.

Lemma execute_ok w job run s tasks1 tasks2 s' res :
  plain_world w → execute sha256hex cfg roots error_text w job run s = (s', res) →
  machine_ok (mkMachine s (tasks1 ++ (job, run) :: tasks2)) → machine_ok (mkMachine s' (tasks1 ++ tasks2)).
Proof.
  intros Hw Hrun [Hs Htasks Hids]. cbn [ma_store ma_tasks] in *.
  apply execute_run in Hrun as [Hs' Hrows]; [|done..|apply Htasks; apply elem_of_app; right; left].
  unfold task_ids in Hids. rewrite fmap_app, fmap_cons, NoDup_app, NoDup_cons in Hids. cbn in Hids.
  destruct Hids as (Hnd1 & Hdis & Hni & Hnd2).
  split; cbn [ma_store ma_tasks]; [done| |].
  - intros j r Hin. assert ((j, r) ∈ tasks1 ++ (job, run) :: tasks2 ∧ fr_ID r ≠ fr_ID run) as [Hin' Hne].
    { apply elem_of_app in Hin as [Hin|Hin]; (split; [set_solver|]); intros Heq.
      - apply (Hdis (fr_ID r)); [|rewrite Heq; left]. apply list_elem_of_fmap. by exists (j, r).
      - apply Hni. rewrite <-Heq. apply list_elem_of_fmap. by exists (j, r). }
    destruct (Htasks j r Hin') as [? Hm ? ? ? ? ?]. split; try done. intros x Hx Hid. apply Hm; [|done].
    apply Hrows; [done|by rewrite Hid].
  - unfold task_ids. rewrite fmap_app. apply NoDup_app. split_and!; [done| |done].
    intros id Hid Hid2. apply (Hdis id Hid). by right.
Qed.

Lemma unchanged_shrinks (s s' : FS) : tables s' = tables s → tidy all s → tidy all s' ∧ ft_runs s' ⊆ ft_runs s.
Proof. intros Ht Hs. split; [by eapply tidy_tables|]. unfold tables in Ht. injection Ht as _ _ -> _. done. Qed.

Lemma step_ok m m' : step m m' → machine_ok m → machine_ok m'.
Proof.
  intros [] Hm.
  - by eapply start_ok.
  - apply Start_inv in H3 as [[Ht _]|(? & ? & ? & ? & ? & _ & _ & _ & [=])]. apply (machine_shrinks s _ tasks Hm).
    apply unchanged_shrinks; [done|apply Hm].
  - by eapply execute_ok.
  - apply (machine_shrinks s _ tasks Hm). destruct H4 as [->|Ht]; [|apply unchanged_shrinks; [done|apply Hm]].
    apply DeleteRun_tidy in H3; [done|apply Hm].
  - apply (machine_shrinks s _ tasks Hm). destruct H5 as [->|Ht]; [|apply unchanged_shrinks; [done|apply Hm]].
    apply ApplyRetention_tidy in H4; [done..|apply Hm].
  - apply (machine_shrinks s _ tasks Hm). apply DeleteFileBackupJob_tidy in H3; [done|apply Hm].
  - apply (machine_shrinks s _ tasks Hm). split; [|done]. destruct Hm as [[Htg Hpt] _ _]. by split.
  - apply (machine_shrinks s _ tasks Hm). split; [|done]. destruct Hm as [[Htg Hpt] _ _]. by split.
Qed.

(** Nothing was backed up yet. *)
Record initial (m : Machine) : Prop := {
  in_targets : ∀ id t, ft_targets (ma_store m) !! id = Some t → tgt_ID t = id;
  in_runs : ft_runs (ma_store m) = [];
  in_tasks : ma_tasks m = []
}.

Lemma initial_ok m : initial m → machine_ok m.
Proof.
  intros [Htg Hr Ht]. split.
  - split; [done|]. rewrite Hr. split; try by intros ? ?%elem_of_nil.
    + constructor.
    + exists (λ _, 0%nat). by intros ? ?%elem_of_nil.
    + by intros ? ? ?%elem_of_nil.
  - rewrite Ht. by intros ? ? ?%elem_of_nil.
  - rewrite Ht. constructor.
Qed.

Lemma steps_ok m m' : rtc step m m' → machine_ok m → machine_ok m'.
Proof. induction 1; [done|]. eauto using step_ok. Qed.

(** C6. Restore points stay restorable, as long as no deletion stops half-way and no
    two operations overlap. Whatever sequence of starts, runs, deletions and retention
    passes happened since an empty list, where starts and runs may fail anywhere and
    deletions complete, are refused or fail before they delete anything, and the jobs
    keep their storages separate or have a single one: each run that is shown as a
    point has its document in its storage, its parent, if it has one, in the list
    as a point of the same job and storage, and the content of each of its files
    can be read, decrypted, checked and written out. *)
Theorem points_restorable (iter : gmap Z nat → list (Z * nat)) m m' :
  (∀ refs, iter refs ≡ₚ map_to_list refs) → initial m → rtc step m m' →
  ∀ r, r ∈ ft_runs (ma_store m') → good_status (fr_Status r) = true →
  (fr_ParentRunID r ≠ "" → ∃ p, p ∈ ft_runs (ma_store m') ∧ fr_ID p = fr_ParentRunID r
     ∧ good_status (fr_Status p) = true ∧ fr_JobID p = fr_JobID r ∧ fr_StorageTargetID p = fr_StorageTargetID r)
  ∧ ∃ b doc, ft_repos (ma_store m') !! fr_StorageTargetID r = Some b ∧ readManifest b (fr_ManifestKey r) = Ok doc
    ∧ ∀ e, e ∈ mf_Entries doc → en_Type e = EntryFile →
        ∃ d data, en_Data e = Some d ∧ ∀ size, file_image sha256hex iter cfg b d size = Ok (truncate size data).
Proof.
  intros Hiter Hinit Hsteps r Hr Hg. pose proof (mo_tidy _ (steps_ok _ _ Hsteps (initial_ok _ Hinit))) as [_ Hp].
  destruct (po_rows _ _ _ _ _ Hp r Hr Hg I) as [Hpar (b & Hb & _ & doc & Hdoc & He)]. split.
  - intros Hne. destruct (Hpar Hne) as (p & Hin & Hid & _ & Ht & Hj). exists p. split_and!; try done.
    by apply (po_parents _ _ _ _ _ Hp r p).
  - exists b, doc. split_and!; [done..|]. intros e Hin Hfile. destruct (He e Hin) as [Hsome Hheld].
    destruct (en_Data e) as [d|] eqn:Hd; [|by destruct (Hsome Hfile)]. destruct (Hheld d eq_refl) as [[data Hh] _].
    exists d, data. split; [done|]. intros size. by apply file_image_exact.
Qed.
End History.
