(* ===== verification/FileComplete.v ===== *)
(** A walk that ends without an error leaves nothing out: every file, directory
    and link of the source that is not excluded has an entry.
    What was stored reads back, and a backup of a whole root can be restored as a
    whole to the root of the file system only. *)

From S2P Require Import Prelude StateM GoTime GoStr Layout Model Format Repo Codec Writer Reader.
From S2P Require Import Paths FileSys FileJobs FileStored FileRestore FileConfined FileWalk.

(** Induction on the tree of a directory. *)
Lemma LocalNode_ind' {B} (P : LocalNode (B := B) → Prop) :
  (∀ name isDir info link reads children, (∀ cs c, children = Some cs → c ∈ cs → P c) →
     P (mkLocal name isDir info link reads children)) → ∀ n, P n.
Proof.
  intros Hnode. fix IH 1. intros [name isDir info link reads children]. apply Hnode.
  destruct children as [l|]; [|intros cs c Hcs; discriminate Hcs].
  assert (Forall P l) as Hl by (induction l as [|x l IHl]; constructor; [apply IH|exact IHl]).
  intros cs c [= <-] Hc. rewrite Forall_forall in Hl. by apply Hl.
Qed.

Section Complete.
Context {B C : Type} `{!Backend B} `{!AEAD C} `{!Compressor}.
Variable sha256hex : bytes → string.
Context (cfg : StreamConfig C) (job : FileBackupJob) (prefix : string) (previous : gmap string Entry).

#[local] Abbreviation Wk := (Walk (B := B)).
#[local] Abbreviation globs := (fj_ExcludeGlobs job).

Definition listed (rel : string) (w : Wk) : Prop := ∃ e, e ∈ wk_entries w ∧ en_Path e = rel.

(** What a walk that goes on does: paths are seen and listed, and stay so. *)
Record grows (w w' : Wk) : Prop := {
  gr_seen : wk_seen w ⊆ wk_seen w';
  gr_listed : ∀ rel, listed rel w → listed rel w'
}.

Lemma grows_refl w : grows w w.
Proof using. by split. Qed.

Lemma grows_trans w1 w2 w3 : grows w1 w2 → grows w2 w3 → grows w1 w3.
Proof using. intros [Hs1 Hl1] [Hs2 Hl2]. split; [by etrans|auto]. Qed.

Lemma grows_add e w w0 : wk_seen w = wk_seen w0 → wk_entries w = wk_entries w0 → grows w0 (add_entry e w).
Proof using.
  intros Hs He. split; [cbn; by rewrite Hs|]. intros rel (x & Hx & Hp). exists x. split; [|done]. cbn. rewrite He.
  apply elem_of_app. by left.
Qed.

Lemma listed_add e w : listed (en_Path e) (add_entry e w).
Proof using. exists e. split; [|done]. apply elem_of_app. right. by apply list_elem_of_singleton. Qed.

(** A sequence of steps that keep a property and each reach something. *)
Section Each.
Context {A : Type} (I : Wk → Prop) (D : A → Wk → Prop).
Hypothesis D_stays : ∀ a w w', grows w w' → D a w → D a w'.

Definition does (a : A) (m : ST Wk FileError ()) : Prop := ∀ w w',
  I w → m w = (w', Ok ()) → I w' ∧ grows w w' ∧ D a w'.

Lemma for_each_does (act : A → ST Wk FileError ()) l : (∀ a, a ∈ l → does a (act a)) →
  ∀ w w', I w → for_each act l w = (w', Ok ()) → I w' ∧ grows w w' ∧ ∀ a, a ∈ l → D a w'.
Proof using D_stays.
  induction l as [|a l IH]; intros Hact w w' Hw Hrun; cbn in Hrun.
  { injection Hrun as <-. split_and!; [done|apply grows_refl|by intros a ?%elem_of_nil]. }
  apply bind_ok in Hrun as (w1 & [] & Ha & Hrun). apply (Hact a) in Ha as (Hw1 & Hg1 & HD); [|by left|done].
  apply IH in Hrun as (Hw' & Hg & Hall); [|intros; apply Hact; by right|done].
  split_and!; [done|by eapply grows_trans|]. intros x [->|Hx]%elem_of_cons; [by eapply D_stays|by apply Hall].
Qed.

(** The children of a directory, by name. *)
Lemma children_do (name : A → string) (act : A → ST Wk FileError ()) cs : (∀ a, a ∈ cs → does a (act a)) →
  ∀ w w', I w → for_each snd (sort_stable by_name (List.map (λ a, (name a, act a)) cs)) w = (w', Ok ()) →
  I w' ∧ grows w w' ∧ ∀ a, a ∈ cs → D a w'.
Proof using D_stays.
  intros Hact w w' Hw Hrun. set (l := List.map _ cs) in Hrun.
  assert (∀ l' : list (string * ST Wk FileError ()), (∀ x, x ∈ l' → x ∈ l) → ∀ w w', I w → for_each snd l' w = (w', Ok ()) →
    I w' ∧ grows w w' ∧ ∀ a, a ∈ cs → (name a, act a) ∈ l' → D a w') as Hall.
  { clear w w' Hw Hrun. induction l' as [|x l' IH]; intros Hsub w w' Hw Hrun; cbn in Hrun.
    { injection Hrun as <-. split_and!; [done|apply grows_refl|by intros a _ ?%elem_of_nil]. }
    apply bind_ok in Hrun as (w1 & [] & Hx & Hrun).
    assert (∀ a, a ∈ cs → x = (name a, act a) → I w1 ∧ grows w w1 ∧ D a w1) as Hdo.
    { intros a Ha Heq. rewrite Heq in Hx. by apply (Hact a Ha w w1). }
    assert (x ∈ l) as (a0 & Hx0 & Ha0)%list_elem_of_fmap by (apply Hsub; by left).
    destruct (Hdo a0 Ha0 Hx0) as (Hw1 & Hg1 & _).
    apply IH in Hrun as (Hw' & Hg & Hrest); [|intros y Hy; apply Hsub; by right|done].
    split_and!; [done|by eapply grows_trans|]. intros a Ha [Heq|Hin]%elem_of_cons; [|by apply Hrest].
    eapply D_stays; [exact Hg|]. by apply Hdo. }
  destruct (Hall _ (λ x, proj1 (sort_stable_elem_of by_name x l)) w w' Hw Hrun) as (? & ? & Hd).
  split_and!; [done..|]. intros a Ha. apply Hd; [done|]. apply sort_stable_elem_of, list_elem_of_fmap. by exists a.
Qed.
End Each.

(** ** A directory of the server *)

(** Steps that do not touch the lists. *)
Definition lists (w : Wk) := (wk_entries w, wk_seen w).

Lemma with_repo_lists {A} (f : B → B * result FileError A) : leaves lists (with_repo f).
Proof using. intros w. unfold with_repo. by destruct (f (wk_repo w)). Qed.

Lemma on_run_lists f : leaves lists (modify (E := FileError) (on_run f)).
Proof using. by apply leaves_modify. Qed.

(** The entry that is returned has the path it was asked for. *)
Definition makes (rel : string) (m : ST Wk FileError Entry) : Prop :=
  ∀ w, lists (m w).1 = lists w ∧ ∀ e, (m w).2 = Ok e → en_Path e = rel.

Lemma makes_ret rel e : en_Path e = rel → makes rel (mret e).
Proof using. intros <- w. split; [done|]. by intros ? [= <-]. Qed.

Lemma makes_bind {A} rel (m : ST Wk FileError A) f :
  leaves lists m → (∀ a, makes rel (f a)) → makes rel (m ≫= f).
Proof using.
  intros Hm Hf w. specialize (Hm w). run_st. destruct (m w) as [w1 [a|e]]; cbn in *; [|by split].
  destruct (Hf a w1) as [Hl He]. by rewrite Hl.
Qed.

Lemma fresh_local_makes path info reads e :
  makes (en_Path e) (fresh_local sha256hex cfg job prefix path (en_Path e) info reads e).
Proof using.
  unfold fresh_local, next_index. apply makes_bind; [by intros w|]. intros i. apply makes_bind; [apply leaves_get|].
  intros w. apply makes_bind; [apply with_repo_lists|]. intros [m u].
  apply makes_bind; [destruct u; [apply on_run_lists|apply leaves_ret]|]. intros _.
  apply makes_bind; [apply on_run_lists|]. intros _. by apply makes_ret.
Qed.

Lemma regular_local_makes path info reads e :
  makes (en_Path e) (regular_local sha256hex cfg job prefix previous path (en_Path e) info reads e).
Proof using.
  unfold regular_local. apply makes_bind; [apply on_run_lists|]. intros _. apply makes_bind; [apply leaves_get|].
  intros w. cbv zeta. destruct (_ && _); [by apply makes_ret|].
  apply makes_bind; [destruct (bool_decide _); [apply leaves_ret|by apply leaves_modify]|]. intros _.
  destruct (previous !! en_Path e) as [old|]; [|apply fresh_local_makes].
  destruct (unchanged _ _ _); [by apply makes_ret|apply fresh_local_makes].
Qed.

Section Local.
Context (root : string).

(** The path of an entry. *)
Definition rel_of (path : string) : option string :=
  (λ rel, if bool_decide (rel = ".") then "" else rel) <$> Rel root path.

Definition kept (path rel : string) : Prop := rel_of path = Some rel ∧ excluded rel globs = false.

(** The nodes a walk from a path comes to: no directory on the way is excluded. *)
Inductive reaches : string → LocalNode (B := B) → string → LocalNode (B := B) → Prop :=
| reaches_here path n rel : kept path rel → reaches path n path n
| reaches_child path rel name info link reads cs c p n :
    kept path rel → c ∈ cs → reaches (Join2 path (ln_name c)) c p n →
    reaches path (mkLocal name true info link reads (Some cs)) p n.

(** What the format has no entry for: devices, sockets, pipes. *)
Definition ln_info (n : LocalNode (B := B)) : option FileInfo := match n with mkLocal _ _ info _ _ _ => info end.
Definition special (info : FileInfo) : bool :=
  negb (is_symlink (fi_Mode info)) && negb (is_directory (fi_Mode info)) && negb (is_regular (fi_Mode info)).

(** The relative paths at which the walk finds such a node. *)
Context (odd : string → Prop).

Definition odd_below (path : string) (n : LocalNode (B := B)) : Prop := ∀ p n' info rel,
  reaches path n p n' → ln_info n' = Some info → special info = true → rel_of p = Some rel → odd rel.

Definition accounted (w : Wk) : Prop := ∀ rel, rel ∈ wk_seen w → listed rel w ∨ odd rel.

Lemma accounted_add w0 w rel :
  accounted w0 → grows w0 w → wk_seen w = {[rel]} ∪ wk_seen w0 → listed rel w ∨ odd rel → accounted w.
Proof using.
  intros Ha Hg Hs Hrel r Hr. rewrite Hs in Hr. apply elem_of_union in Hr as [->%elem_of_singleton|Hr]; [done|].
  destruct (Ha r Hr) as [?|?]; [left; by apply Hg|by right].
Qed.

Lemma visit_local_run path name isDir info link reads children w w' skip :
  let n := mkLocal name isDir info link reads children in
  odd_below path n → accounted w →
  visit_local sha256hex cfg job prefix previous root path isDir info link reads w = (w', Ok skip) →
  accounted w' ∧ grows w w' ∧ ∃ rel, rel_of path = Some rel
    ∧ (excluded rel globs = true → skip = isDir) ∧ (excluded rel globs = false → skip = false ∧ rel ∈ wk_seen w').
Proof using.
  intros n Hodd Ha Hrun. unfold visit_local in Hrun.
  apply bind_ok in Hrun as (w1 & rel0 & Hrel & Hrun). unfold lift in Hrel. injection Hrel as <- Hrel%of_option_ok.
  assert (rel_of path = Some (if bool_decide (rel0 = ".") then "" else rel0)) as Hof by (unfold rel_of; by rewrite Hrel).
  cbv zeta in Hrun. revert Hrun Hof. generalize (if bool_decide (rel0 = ".") then "" else rel0). intros rel Hrun Hof.
  destruct (excluded rel globs) eqn:Hex.
  { injection Hrun as <- <-. split_and!; [done|apply grows_refl|]. exists rel. by rewrite Hex. }
  rewrite get_run in Hrun. destruct (bool_decide (rel ∈ wk_seen w)) eqn:Hseen.
  { injection Hrun as <- <-. apply bool_decide_eq_true in Hseen. split_and!; [done|apply grows_refl|]. exists rel.
    rewrite Hex. by split_and!. }
  apply bind_ok in Hrun as (w1 & [] & [= <-] & Hrun). apply bind_ok in Hrun as (w2 & i & Hi & Hrun).
  unfold lift in Hi. injection Hi as <- Hi%of_option_ok.
  set (e := mkEntry rel EntryFile _ _ _ _ _ _ _) in Hrun.
  assert (∀ w1 e', lists w1 = lists (see rel w) → en_Path e' = rel → w' = add_entry e' w1 → skip = false →
    accounted w' ∧ grows w w' ∧ ∃ rel, rel_of path = Some rel
      ∧ (excluded rel globs = true → skip = isDir) ∧ (excluded rel globs = false → skip = false ∧ rel ∈ wk_seen w')) as Hadd.
  { intros w1 e' Hl He' -> ->. injection Hl as Hent Hs.
    assert (grows (see rel w) (add_entry e' w1)) as Hg by (by apply grows_add).
    assert (grows w (add_entry e' w1)) as Hg'.
    { eapply grows_trans; [|exact Hg]. split; [cbn; set_solver|]. by intros r Hr. }
    split_and!; [|done|].
    - eapply accounted_add; [exact Ha|exact Hg'|by rewrite <-Hs|]. left. rewrite <-He'. apply listed_add.
    - exists rel. rewrite Hex. split_and!; [done|done|]. intros _. split; [done|]. cbn. rewrite Hs. cbn. set_solver. }
  destruct (is_symlink (fi_Mode i)) eqn:Hsym.
  { apply bind_ok in Hrun as (w2 & l & Hl & Hrun). unfold lift in Hl. injection Hl as <- _.
    apply bind_ok in Hrun as (w3 & [] & [= <-] & [= <- <-]). eapply Hadd; [| |reflexivity|reflexivity]; done. }
  destruct (is_directory (fi_Mode i)) eqn:Hdir.
  { apply bind_ok in Hrun as (w2 & [] & [= <-] & Hrun). apply bind_ok in Hrun as (w3 & [] & [= <-] & [= <- <-]).
    eapply Hadd; [| |reflexivity|reflexivity]; done. }
  destruct (is_regular (fi_Mode i)) eqn:Hreg.
  - apply bind_ok in Hrun as (w2 & e2 & He2 & Hrun). apply bind_ok in Hrun as (w3 & [] & [= <-] & [= <- <-]).
    destruct (regular_local_makes path i reads e (see rel w)) as [Hl Hp]. change (en_Path e) with rel in Hl, Hp.
    rewrite He2 in Hl, Hp. eapply Hadd; [exact Hl|by apply Hp|reflexivity..].
  - injection Hrun as <- <-. assert (grows w (see rel w)) as Hg by (split; [cbn; set_solver|by intros r Hr]).
    split_and!; [|done|].
    + eapply accounted_add; [exact Ha|done|done|]. right. eapply (Hodd path n i rel); [by econstructor|done| |done].
      unfold special. by rewrite Hsym, Hdir, Hreg.
    + exists rel. rewrite Hex. split_and!; [done|done|]. intros _. split; [done|]. cbn. set_solver.
Qed.

(** Everything below a node is seen. *)
Definition covered (path : string) (n : LocalNode (B := B)) (w : Wk) : Prop := ∀ p n' rel,
  reaches path n p n' → rel_of p = Some rel → rel ∈ wk_seen w.

Lemma covered_stays path n w w' : grows w w' → covered path n w → covered path n w'.
Proof using. intros [Hs _] Hc p n' rel Hr Hp. apply Hs. by eapply Hc. Qed.

Lemma reaches_kept path n p n' : reaches path n p n' → ∃ rel, kept path rel.
Proof using. intros []; eauto. Qed.

Lemma walk_node_run n : ∀ path, odd_below path n →
  does accounted (λ (_ : ()) w, covered path n w) () (walk_node sha256hex cfg job prefix previous root path n).
Proof using.
  induction n as [name isDir info link reads children IH] using LocalNode_ind'; intros path Hodd w w' Ha Hrun.
  cbn [walk_node] in Hrun. apply bind_ok in Hrun as (w1 & skip & Hv & Hrun).
  destruct (visit_local_run _ _ _ _ _ _ _ _ _ _ Hodd Ha Hv) as (Ha1 & Hg1 & rel & Hrel & Hout & Hin).
  assert (∀ w2, grows w1 w2 → (∀ p n' rel', reaches path (mkLocal name isDir info link reads children) p n' →
      p ≠ path → skip = false → rel_of p = Some rel' → rel' ∈ wk_seen w2) →
    covered path (mkLocal name isDir info link reads children) w2) as Hcov.
  { intros w2 Hg Hrest p n' rel' Hr Hp. destruct (reaches_kept _ _ _ _ Hr) as (rel0 & Hrel0 & Hex).
    rewrite Hrel in Hrel0. injection Hrel0 as <-. destruct (Hin Hex) as [Hskip Hseen].
    destruct (decide (p = path)) as [->|Hne]; [|by eapply Hrest]. rewrite Hrel in Hp. injection Hp as <-. by apply Hg. }
  destruct isDir; cbn [negb orb] in Hrun.
  2: { injection Hrun as <-. split_and!; [done..|]. apply Hcov; [apply grows_refl|]. intros p n' rel' Hr Hne.
       by inversion Hr; subst. }
  destruct skip; [injection Hrun as <-; split_and!; [done..|]; by apply Hcov; [apply grows_refl|]|].
  destruct children as [cs|]; [|done].
  apply (children_do accounted (λ c, covered (Join2 path (ln_name c)) c)) in Hrun as (Ha2 & Hg2 & Hall);
    [|intros c u u'; apply covered_stays| |done].
  - split_and!; [done|by eapply grows_trans|]. apply Hcov; [done|]. intros p n' rel' Hr Hne _ Hp.
    inversion Hr as [|? ? ? ? ? ? ? c ? ? ? Hc Hr']; subst; [done|]. by eapply (Hall c).
  - intros c Hc. assert (odd_below (Join2 path (ln_name c)) c) as Hoc; [|exact (IH cs c eq_refl Hc _ Hoc)].
    assert (kept path rel) as Hk. { split; [done|]. destruct (excluded rel globs); [by specialize (Hout eq_refl)|done]. }
    intros p n' i rel' Hr Hi Hs Hp. eapply Hodd; [|exact Hi|exact Hs|exact Hp]. by eapply reaches_child.
Qed.

Lemma walk_includes_run is_link Eval at_ includes :
  (∀ include start n, include ∈ includes → safeSourcePath is_link Eval root include = Ok start → at_ start = Some n →
     odd_below start n) → ∀ w w', accounted w →
  walk_includes sha256hex cfg job prefix previous root is_link Eval at_ includes w = (w', Ok ()) →
  accounted w' ∧ grows w w' ∧ ∀ include, include ∈ includes → ∃ start n,
    safeSourcePath is_link Eval root include = Ok start ∧ at_ start = Some n ∧ covered start n w'.
Proof using.
  induction includes as [|i includes IH]; intros Hodd w w' Ha Hrun; cbn in Hrun.
  { injection Hrun as <-. split_and!; [done|apply grows_refl|by intros ? ?%elem_of_nil]. }
  apply bind_ok in Hrun as (w1 & start & Hst & Hrun). unfold lift in Hst. injection Hst as <- Hst.
  apply bind_ok in Hrun as (w1 & n & Hn & Hrun). unfold lift in Hn. injection Hn as <- Hn%of_option_ok.
  assert (safeSourcePath is_link Eval root i = Ok start) as Hsafe by (by destruct (safeSourcePath _ _ _ _); simplify_eq/=).
  apply bind_ok in Hrun as (w1 & [] & Hnode & Hrun).
  apply walk_node_run in Hnode as (Ha1 & Hg1 & Hc1); [|by eapply Hodd; [left|..]|done].
  apply IH in Hrun as (Ha' & Hg & Hall); [|intros; eapply Hodd; [by right|done..]|done].
  split_and!; [done|by eapply grows_trans|]. intros include [->|Hin]%elem_of_cons; [|by apply Hall].
  exists start, n. split_and!; [done..|]. by eapply covered_stays.
Qed.
End Local.

(** The relative paths of the devices, sockets and pipes a walk comes to. *)
Definition special_at (root : string) (is_link : string → bool) (Eval : string → option string)
    (at_ : string → option (LocalNode (B := B))) (includes : list string) (rel : string) : Prop :=
  ∃ include start n p n' info, include ∈ includes ∧ safeSourcePath is_link Eval root include = Ok start
    ∧ at_ start = Some n ∧ reaches root start n p n' ∧ ln_info n' = Some info ∧ special info = true
    ∧ rel_of root p = Some rel.

Definition local_includes : list string := if bool_decide (fj_IncludePaths job = []) then ["."] else fj_IncludePaths job.

(** C15. A backup of a directory of the server that ends without an error leaves
    nothing out: each include path was found, and every node the exclusions let
    the walk come to has an entry under its path relative to the root, devices,
    sockets and pipes apart. *)
Theorem walkLocal_complete root is_link Eval at_ b run (w : Wk) :
  walkLocal sha256hex cfg job prefix previous root is_link Eval at_ (mkWalk b run [] ∅ ∅) = (w, Ok ()) →
  ∀ include, include ∈ local_includes → ∃ start n, safeSourcePath is_link Eval root include = Ok start ∧ at_ start = Some n
    ∧ ∀ p n', reaches root start n p n' → ∃ rel, rel_of root p = Some rel
        ∧ ((∃ e, e ∈ wk_entries w ∧ en_Path e = rel) ∨ special_at root is_link Eval at_ local_includes rel).
Proof using.
  intros Hrun include Hin. unfold walkLocal in Hrun. fold local_includes in Hrun.
  apply (walk_includes_run root (special_at root is_link Eval at_ local_includes)) in Hrun as (Ha & _ & Hall).
  - destruct (Hall include Hin) as (start & n & Hs & Hn & Hc). exists start, n. split_and!; [done..|].
    intros p n' Hr. assert (∃ rel, kept root p rel) as (rel & Hrel & _) by (clear -Hr; induction Hr; eauto).
    exists rel. split; [done|]. apply Ha. by eapply Hc.
  - intros i start n Hi Hs Hn p n' info rel Hr Hinfo Hsp Hp. exists i, start, n, p, n', info. by split_and!.
  - by intros rel ?%elem_of_empty.
Qed.
End Complete.

(** * Stored files and whole roots *)
Section Stored.
Context {B C : Type} `{!Backend B} `{!BackendLaws B} `{!AEAD C} `{!Compressor}.
Variable sha256hex : bytes → string.
Context (cfg : StreamConfig C).

(** C14. A file that [storeStableFile] stores can be read back, byte for byte as
    one of its two reads delivered it, and only its own object changes. A file
    that is not flagged as unstable was found the same before and after that
    read. *)
Theorem stored_file_exact (iter : gmap Z nat → list (Z * nat)) b prefix runID path index before encrypt o b' m unstable :
  (∀ refs, iter refs ≡ₚ map_to_list refs) →
  both_tame cfg encrypt (data_key prefix index) o → both_fit cfg o →
  storeStableFile sha256hex cfg b prefix runID path index before encrypt o = (b', Ok (m, unstable)) →
  ∃ n f, (∀ size, file_image sha256hex iter cfg b' m size = Ok (truncate size (rd_data f))) ∧ rd_broken f = false
    ∧ (∀ key, key ≠ data_key prefix index → Get b' key = Get b key)
    ∧ (ob_first o = Some (n, f) ∧ unstable = false ∧ (∃ v, ob_after o = Some v ∧ sameVersion before v = true)
       ∨ ob_second o = Some (n, f) ∧ ∃ v, ob_again o = Some v
         ∧ (unstable = false → ∃ l, ob_last o = Some l ∧ sameVersion v l = true)).
Proof.
  intros Hiter Ht Hf Hok. pose proof (storeStableFile_same sha256hex cfg b prefix runID path index before encrypt o Ht) as Hs.
  rewrite Hok in Hs. destruct (storeStableFile_ok _ _ _ _ _ _ _ _ _ _ _ _ _ Ht Hf Hok) as (_ & n & f & Hb & Hh & Hor).
  exists n, f. split_and!; [|done|exact Hs|done]. intros size. by apply file_image_exact.
Qed.
End Stored.

Section Whole.
Context {B C : Type} `{!Backend B} `{!AEAD C} `{!Compressor} `{!FileDocuments}.
Variable sha256hex : bytes → string.
Variable iter : gmap Z nat → list (Z * nat).
Context (cfg : StreamConfig C) (job : FileBackupJob) (prefix : string) (previous : gmap string Entry).

Lemma Rel_self cs : Forall normal cs → Rel (path_of cs) (path_of cs) = Some ".".
Proof using. intros Hcs. pose proof (Rel_below cs [] Hcs) as Hr. rewrite app_nil_r in Hr. by rewrite Hr. Qed.

Lemma Join2_dot cs : Forall normal cs → Join2 (path_of cs) "." = path_of cs.
Proof using.
  intros Hcs. unfold Join2. rewrite bool_decide_eq_false_2 by done. unfold Clean, clean_comps.
  assert (IsAbs (path_of cs +:+ String slash ".") = true) as ->.
  { unfold path_of. rewrite app_String. unfold IsAbs. cbn. by destruct (_ +:+ _). }
  rewrite Split_app, Split_path_of. cbn [app foldl]. rewrite push_empty, foldl_app, foldl_push_join by done. cbn -[rev].
  rewrite app_nil_r. change (push true (rev cs) ".") with (rev cs). by rewrite rev_involutive.
Qed.

(** The directory a walk starts at is listed with an empty path. *)
Lemma root_listed cs name info link reads children b run w' :
  Forall normal cs → excluded "" (fj_ExcludeGlobs job) = false → is_directory (fi_Mode info) = true →
  walk_node sha256hex cfg job prefix previous (path_of cs) (path_of cs) (mkLocal name true (Some info) link reads children)
    (mkWalk b run [] ∅ ∅) = (w', Ok ()) → listed "" w'.
Proof using.
  intros Hcs Hex Hdir Hrun. cbn [walk_node] in Hrun. apply bind_ok in Hrun as (w1 & skip & Hv & Hrun).
  apply (visit_local_run sha256hex cfg job prefix previous (path_of cs) (λ _, False) _ name true (Some info) link reads None)
    in Hv as (Ha & _ & rel & Hrel & _ & Hin).
  - unfold rel_of in Hrel. rewrite Rel_self in Hrel by done. cbn in Hrel. injection Hrel as <-.
    destruct (Hin Hex) as [-> Hseen]. destruct (Ha _ Hseen) as [Hl|[]]. cbn in Hrun.
    destruct children as [children|]; [|done].
    eapply (children_do (λ _, True) (λ _ _, True)) in Hrun as (_ & Hg & _); [by apply Hg|done| |done].
    intros c _ u u' _ Hc.
    destruct (walk_node_run sha256hex cfg job prefix previous (path_of cs) (λ _, True) c (Join2 (path_of cs) (ln_name c)))
      with u u' as (_ & ? & _); [done|by right|done|done].
  - intros p n' i rel Hr Hi Hs _. inversion Hr; subst; cbn in Hi. injection Hi as <-. unfold special in Hs.
    rewrite Hdir in Hs. by destruct (is_symlink _).
  - by intros rel ?%elem_of_empty.
Qed.

(** C36. What backs up a whole root cannot be restored whole. When a job without
    include paths has read a directory of the server, the document lists the
    directory itself with an empty path, and restoring all of the document then
    fails for every destination but the root of the file system: the destination's
    parent is outside the destination. *)
Theorem whole_root_unrestorable cs name info link reads children is_link Eval at_ b0 run0 (wk : Walk (B := B))
    roots umask now cancelled req (w w' : RestoreWorld (B := B)) res :
  Forall normal cs → fj_IncludePaths job = [] → excluded "" (fj_ExcludeGlobs job) = false →
  at_ (path_of cs) = Some (mkLocal name true (Some info) link reads children) → is_directory (fi_Mode info) = true →
  walkLocal sha256hex cfg job prefix previous (path_of cs) is_link Eval at_ (mkWalk b0 run0 [] ∅ ∅) = (wk, Ok ()) →
  (∀ run t b doc, List.find (has_run_id (rq_RunID req)) (ft_runs (rw_store w)) = Some run →
     ft_targets (rw_store w) !! fr_StorageTargetID run = Some t → ft_repos (rw_store w) !! tgt_ID t = Some b →
     readManifest b (fr_ManifestKey run) = Ok doc → mf_Entries doc ≡ₚ wk_entries wk) →
  rq_Paths req = [] →
  Restore sha256hex iter cfg roots umask now cancelled req w = (w', Ok res) → rr_Destination res = "/".
Proof using.
  intros Hcs Hinc Hex Hat Hdir Hwalk Hdoc Hpaths Hrestore.
  assert (listed "" wk) as (e & He & Hp).
  { unfold walkLocal in Hwalk. rewrite Hinc in Hwalk. rewrite bool_decide_eq_true_2 in Hwalk by done. cbn [walk_includes] in Hwalk.
    apply bind_ok in Hwalk as (w1 & start & Hst & Hwalk). unfold lift in Hst. injection Hst as <- Hst.
    assert (start = path_of cs) as ->.
    { unfold safeSourcePath in Hst. cbn in Hst. rewrite Join2_dot in Hst by done.
      destruct (Eval _) as [r|]; [|done]. cbn in Hst. by destruct (pathWithin _ _); simplify_eq/=. }
    apply bind_ok in Hwalk as (w1 & n & Hn & Hwalk). unfold lift in Hn. rewrite Hat in Hn. injection Hn as <- <-.
    apply bind_ok in Hwalk as (w1 & [] & Hnode & [= <-]). by eapply root_listed. }
  apply Restore_run in Hrestore as [[_ Hok]|(run & allowed & ds & fs1 & b & doc & [Hrun _ _ _ Hn Hd (t & Ht & Hb) Hm (out & Hent & Hout)])];
    [done|].
  destruct out as [out|]; [|done]. injection Hout as ->. cbn. destruct ds as [|d ds]; [done|]. exfalso.
  apply restore_entries_named in Hent; [|done..]. rewrite Hpaths in Hent. cbn in Hent.
  rewrite Forall_forall in Hent. apply (Hent e); [|by rewrite Hp].
  apply sort_stable_elem_of. by rewrite (Hdoc run t b doc).
Qed.
End Whole.
