(* ===== verification/FileSamples.v ===== *)
(** A small server with one directory, backed up twice into one storage: the
    theorems on file backups at concrete values. *)

From S2P Require Import Prelude StateM GoTime GoStr Layout Model Format Repo Codec Writer Reader CatalogSamples.
From S2P Require Import Paths FileSys FileJobs FileStored FileRestore FileConfined FileWalk FileComplete.
From S2P Require Import FileEngine FileWalkFacts FilePoints FileHistory.

#[local] Existing Instance cyrillic.

(** * Instances *)
Abbreviation Objects := (gmap string bytes).

#[export] Instance bulk_map : BulkBackend Objects := {
  DeletePrefix b prefix := (filter (λ kv, String.prefix prefix kv.1 = false) b, None);
  CopyOptimized _ _ _ _ := None
}.

#[export] Instance bulk_map_laws : BulkLaws Objects.
Proof.
  split; [| |done].
  - intros b prefix b' [= <-] key Hk. cbn. unfold om_get. rewrite map_lookup_filter_None_2; [done|]. right.
    intros x _. cbn. by rewrite Hk.
  - intros b prefix key Hk. cbn. unfold om_get. destruct (b !! key) as [d|] eqn:Hd.
    + by rewrite (map_lookup_filter_Some_2 _ b key d).
    + by rewrite map_lookup_filter_None_2 by (by left).
Qed.

#[export] Instance Chunk_eq_dec : EqDecision Chunk.
Proof. solve_decision. Defined.
#[export] Instance DiskManifest_eq_dec : EqDecision DiskManifest.
Proof. solve_decision. Defined.
#[export] Instance Entry_eq_dec : EqDecision Entry.
Proof. solve_decision. Defined.
#[export] Instance Manifest_eq_dec : EqDecision Manifest.
Proof. solve_decision. Defined.

Definition digest_of (data : bytes) : string := pretty (Z.of_nat (length data)).
Definition sample_stream : StreamConfig () := mkStreamConfig 65536 "none" 0 None.

(** * What the walk sees *)
Definition upload : Upload Objects := mkUpload (λ _, [Byte.x00]) None (λ _ b, b).

Definition reading (data : bytes) : Reading Objects := mkReading data false upload.

Definition at_time (data : bytes) (t : Z) : Observed Objects :=
  mkObserved (Some (Z.of_nat (length data), reading data)) (Some (Z.of_nat (length data), t)) None None None.

Definition a_file (name : string) (data : bytes) (t : Z) : LocalNode (B := Objects) :=
  mkLocal name false (Some (mkFileInfo 420 (Z.of_nat (length data)) t 0 0 None)) None (at_time data t) None.

Definition dir_info : FileInfo := mkFileInfo (Z.shiftl 1 31 + 493) 0 0 0 0 None.

Definition a_dir (name : string) (cs : list (LocalNode (B := Objects))) : LocalNode (B := Objects) :=
  mkLocal name true (Some dir_info) None (mkObserved None None None None None) (Some cs).

Definition tree1 : LocalNode (B := Objects) :=
  a_dir "srv" [a_file "a.txt" [Byte.x61; Byte.x62] 10; a_dir "sub" [a_file "b.bin" [Byte.x01] 20]].
Definition tree2 : LocalNode (B := Objects) :=
  a_dir "srv" [a_file "a.txt" [Byte.x61; Byte.x62] 10; a_dir "sub" [a_file "b.bin" [Byte.x02; Byte.x03] 30]].

Definition at_srv (t : LocalNode (B := Objects)) (path : string) : option (LocalNode (B := Objects)) :=
  if bool_decide (path = "/srv") then Some t else None.

Definition no_source : StorageSource (B := Objects) :=
  mkSource (SDir "" 0 None) (λ _, None) (λ _ _, (Err (RepoFailure "no storage"), None)).

Definition world (t : LocalNode (B := Objects)) (now : Z) : RunWorld (B := Objects) :=
  mkRunWorld now (now + 1) Some (λ _, false) Some (at_srv t) (λ _, no_source) (λ _ b, b).

Lemma reading_fine data : Z.of_nat (length data) < 2 ^ 20 → fine sample_stream (reading data).
Proof.
  intros Hd. assert (∀ key encrypt c, writer_codec (stream_options sample_stream key encrypt) = Ok c → cd_cipher c = None) as Hc.
  { intros key [] c Hw; vm_compute in Hw; injection Hw as <-; done. }
  split.
  - intros encrypt key. split; [|done]. intros c i Hw. unfold nonce_ok. by rewrite (Hc _ _ _ Hw).
  - change (rd_data (reading data)) with data. split; [done|cbn; lia|].
    intros key encrypt c Hw. unfold codec_overhead. rewrite (Hc _ _ _ Hw). cbn. lia.
Qed.

Lemma fine_file name data t : Z.of_nat (length data) < 2 ^ 20 → fine_node sample_stream (a_file name data t).
Proof. intros Hd. constructor; [|done]. split; intros n f Hf; cbn in Hf; [|done]. injection Hf as _ <-. by apply reading_fine. Qed.

Lemma fine_dir name cs : Forall (fine_node sample_stream) cs → fine_node sample_stream (a_dir name cs).
Proof. intros Hcs. constructor; [done|]. intros l c [= <-] Hc. rewrite Forall_forall in Hcs. by apply Hcs. Qed.

Lemma plain_sample t now : fine_node sample_stream t → plain_world sample_stream (world t now).
Proof.
  intros Ht. split; [|done]. intros path n. cbn. unfold at_srv. destruct (bool_decide _); [|done]. by intros [= <-].
Qed.

Lemma fine_tree1 : fine_node sample_stream tree1.
Proof.
  apply fine_dir, Forall_cons. split; [by apply fine_file|]. by apply Forall_singleton, fine_dir, Forall_singleton, fine_file.
Qed.
Lemma fine_tree2 : fine_node sample_stream tree2.
Proof.
  apply fine_dir, Forall_cons. split; [by apply fine_file|]. by apply Forall_singleton, fine_dir, Forall_singleton, fine_file.
Qed.

(** * A full run and an incremental one *)
Definition the_job : FileBackupJob :=
  mkFileJob "job" "files" true "root" [] [] ["t1"] StorageModeSeparate true false ""
    (mkRetentionPolicy 0 0 0 0 0 0 0) 0 0.
Definition the_roots : list FileBackupRoot := [mkFileRoot "root" "/srv" ["/restore"; "/"]].

Definition started_run (id : string) : FileBackupRun := created_run id the_job "t1" 0.

Definition walk_of (id : string) (previous : gmap string Entry) (t : LocalNode (B := Objects)) :
    Walk (B := Objects) * result FileError () :=
  walkLocal digest_of sample_stream the_job (run_prefix "root" 0 id) previous "/srv" (λ _, false) Some (at_srv t)
    (mkWalk ∅ (started_run id) [] ∅ ∅).

(** A computation whose answer is known. *)
Lemma answered {S A} (p : S * A) (a : A) : p.2 = a → p = (p.1, a).
Proof. intros <-. apply surjective_pairing. Qed.

Definition document_of (id parent : string) (w : Walk (B := Objects)) : Manifest :=
  mkManifest FilesFormat FilesManifestVersion id parent "root" 0 (sort_stable by_path (wk_entries w)).

Definition walk1 : Walk (B := Objects) := (walk_of "run-1" ∅ tree1).1.
Lemma walked1 : walk_of "run-1" ∅ tree1 = (walk1, Ok ()).
Proof. unfold walk1. apply answered. vm_compute. reflexivity. Qed.

Definition document1 : Manifest := document_of "run-1" "" walk1.
Definition walk2 : Walk (B := Objects) := (walk_of "run-2" (entriesByPath (mf_Entries document1)) tree2).1.
Definition document2 : Manifest := document_of "run-2" "run-1" walk2.

(** A codec for two documents. *)
Definition table (d1 d2 : Manifest) : FileDocuments := {|
  EncodeManifest m := if decide (m = d1) then Some [Byte.x01] else if decide (m = d2) then Some [Byte.x02] else None;
  DecodeManifest body := if decide (body = [Byte.x01]) then Some d1
                         else if decide (body = [Byte.x02]) then Some d2 else None
|}.

Lemma table_laws d1 d2 : @FileDocumentLaws (table d1 d2).
Proof.
  split. intros m body. cbn. destruct (decide (m = d1)) as [->|]; [by intros [= <-]|].
  destruct (decide (m = d2)) as [->|]; [by intros [= <-]|done].
Qed.

#[export] Instance two_documents : FileDocuments := table document1 document2.
#[export] Instance two_documents_laws : @FileDocumentLaws two_documents := table_laws document1 document2.

Definition error_text (e : FileError) : string := "failed".

Definition store0 : FileStore Objects :=
  mkFileStore [] {["job"%string := the_job]} [] {["t1"%string := sample_target "t1"]} {["t1"%string := ∅]}.
Definition store1 : FileStore Objects := (Start sample_stream the_roots (λ _, "run-1"%string) 0 "job" store0).1.
Definition store2 : FileStore Objects :=
  (execute digest_of sample_stream the_roots error_text (world tree1 10) the_job (started_run "run-1") store1).1.
Definition store3 : FileStore Objects := (Start sample_stream the_roots (λ _, "run-2"%string) 0 "job" store2).1.
Definition store4 : FileStore Objects :=
  (execute digest_of sample_stream the_roots error_text (world tree2 20) the_job (started_run "run-2") store3).1.

Example both_runs :
  (λ r, (fr_ID r, fr_ParentRunID r, fr_Status r)) <$> ft_runs store4
  = [("run-1", "", RunSucceeded); ("run-2", "run-1", RunSucceeded)]%string.
Proof. vm_compute. reflexivity. Qed.

(** The second run stored one file; the other is that of the first run. *)
Example data_of_run2 :
  (λ e, (en_Path e, dm_DataKey <$> en_Data e)) <$> mf_Entries document2
  = [("", None); ("a.txt", Some "jhvirt/files/root/1970/01/01/run-1/file-000001.data"); ("sub", None);
     ("sub/b.bin", Some "jhvirt/files/root/1970/01/01/run-2/file-000003.data")]%string.
Proof. vm_compute. reflexivity. Qed.

Lemma supply_one id ids runs :
  safe_segment id → id ∉ ids → id ∉ fr_ID <$> runs → (∀ r, r ∈ runs → fr_ParentRunID r ≠ id) →
  supply 1 (λ _, id) ids runs.
Proof. intros. split; [intros; lia|]. intros k Hk. by split. Qed.

Lemma safe_run id : id = "run-1"%string ∨ id = "run-2"%string → safe_segment id.
Proof. intros [->| ->]; (constructor; [done|cbn; lia|done..]). Qed.

Lemma second_supply runs :
  fr_ID <$> runs = ["run-1"%string] → fr_ParentRunID <$> runs = [""%string] → supply 1 (λ _, "run-2"%string) [] runs.
Proof.
  intros Hids Hpar. apply supply_one; [by apply safe_run; right|by intros ?%elem_of_nil|rewrite Hids|].
  - by intros ?%list_elem_of_singleton.
  - intros r Hr Heq. assert (fr_ParentRunID r ∈ [""%string]) as Hin by (rewrite <-Hpar; by apply list_elem_of_fmap_2).
    apply list_elem_of_singleton in Hin. congruence.
Qed.

Definition machine0 : Machine := mkMachine store0 [].
Definition machine4 : Machine := mkMachine store4 [].

Lemma sample_initial : initial machine0.
Proof.
  split; [|done|done]. intros id t Ht. cbn in Ht. apply lookup_singleton_Some in Ht as [<- <-]. done.
Qed.

Abbreviation a_step := (step digest_of sample_stream the_roots error_text).

Lemma sample_steps : rtc a_step machine0 machine4.
Proof.
  apply (rtc_l _ _ (mkMachine store1 [(the_job, started_run "run-1")])).
  { apply (step_start _ _ _ _ (λ _, "run-1"%string) 0 "job" store0 [] store1 the_job [started_run "run-1"] (Ok ())).
    - apply supply_one; [apply safe_run; auto|set_solver|set_solver|]. by intros r ?%elem_of_nil.
    - apply answered. vm_compute. reflexivity.
    - by left. }
  apply (rtc_l _ _ (mkMachine store2 [])).
  { apply (step_execute _ _ _ _ (world tree1 10) the_job (started_run "run-1") store1 [] [] store2
      (execute digest_of sample_stream the_roots error_text (world tree1 10) the_job (started_run "run-1") store1).2).
    - apply plain_sample, fine_tree1.
    - apply surjective_pairing. }
  apply (rtc_l _ _ (mkMachine store3 [(the_job, started_run "run-2")])).
  { apply (step_start _ _ _ _ (λ _, "run-2"%string) 0 "job" store2 [] store3 the_job [started_run "run-2"] (Ok ())).
    - apply second_supply; vm_compute; reflexivity.
    - apply answered. vm_compute. reflexivity.
    - by left. }
  apply rtc_once.
  apply (step_execute _ _ _ _ (world tree2 20) the_job (started_run "run-2") store3 [] [] store4
    (execute digest_of sample_stream the_roots error_text (world tree2 20) the_job (started_run "run-2") store3).2).
  - apply plain_sample, fine_tree2.
  - apply surjective_pairing.
Qed.

Definition row2 : FileBackupRun := default (started_run "none") (ft_runs store4 !! 1%nat).

Lemma row2_in : row2 ∈ ft_runs (ma_store machine4).
Proof.
  assert (∀ runs : list FileBackupRun, length runs = 2%nat → default (started_run "none") (runs !! 1%nat) ∈ runs) as Hin.
  { intros [|a [|b []]] Hl; try done. cbn. right. left. }
  apply Hin. vm_compute. reflexivity.
Qed.

(** The incremental run has its parent in the list and its files can be read. *)
Lemma points_restorable_witness :
  fr_ID row2 = "run-2"%string
  ∧ (∃ p, p ∈ ft_runs store4 ∧ fr_ID p = fr_ParentRunID row2)
  ∧ ∃ b doc, ft_repos store4 !! fr_StorageTargetID row2 = Some b ∧ readManifest b (fr_ManifestKey row2) = Ok doc
    ∧ ∀ e, e ∈ mf_Entries doc → en_Type e = EntryFile →
        ∃ d data, en_Data e = Some d ∧ ∀ size, file_image digest_of map_to_list sample_stream b d size = Ok (truncate size data).
Proof.
  split; [vm_compute; reflexivity|].
  assert (good_status (fr_Status row2) = true) as Hgood by (vm_compute; reflexivity).
  assert (fr_ParentRunID row2 ≠ ""%string) as Hpar by (vm_compute; discriminate).
  destruct (points_restorable digest_of sample_stream the_roots error_text map_to_list machine0 machine4
    (λ refs, reflexivity _) sample_initial sample_steps row2 row2_in Hgood) as [Hp Hdoc].
  split; [|exact Hdoc]. destruct (Hp Hpar) as (p & Hin & Hid & _). exists p. split; [exact Hin|exact Hid].
Defined.

(** * Storing one file *)
Definition stored : Objects * result FileError (DiskManifest * bool) :=
  storeStableFile digest_of sample_stream ∅ "p/" "run-1" "/srv/a.txt" 0 (2, 10) false (at_time [Byte.x61; Byte.x62] 10).

Definition stored_manifest : DiskManifest :=
  match stored.2 with Ok (m, _) => m | Err _ => document "" BackupFull end.

Lemma sample_tame key data t : Z.of_nat (length data) < 2 ^ 20 →
  both_tame sample_stream false key (at_time data t) ∧ both_fit sample_stream (at_time data t).
Proof.
  intros Hd. destruct (reading_fine data Hd) as [Ht Hf].
  split; split; intros n f Hr; cbn in Hr; try done; injection Hr as _ <-; [apply Ht|exact Hf].
Qed.

Lemma stored_file_exact_witness :
  file_image digest_of map_to_list sample_stream stored.1 stored_manifest 2 = Ok [Byte.x61; Byte.x62].
Proof.
  destruct (sample_tame (data_key "p/" 0) [Byte.x61; Byte.x62] 10) as [Ht Hf]; [done|].
  destruct (stored_file_exact digest_of sample_stream map_to_list ∅ "p/" "run-1" "/srv/a.txt" 0 (2, 10) false
    (at_time [Byte.x61; Byte.x62] 10) stored.1 stored_manifest false) as (n & f & Himg & _ & _ & Hor).
  - intros refs. reflexivity.
  - exact Ht.
  - exact Hf.
  - apply answered. vm_compute. reflexivity.
  - rewrite Himg. destruct Hor as [([= _ <-] & _)|([=] & _)]. reflexivity.
Defined.

(** * The walk *)
Lemma join_sub : Join2 "/srv" "sub" = "/srv/sub"%string.
Proof. vm_compute. reflexivity. Qed.
Lemma join_file : Join2 "/srv/sub" "b.bin" = "/srv/sub/b.bin"%string.
Proof. vm_compute. reflexivity. Qed.

Lemma reaches_file : reaches the_job "/srv" "/srv" tree1 "/srv/sub/b.bin" (a_file "b.bin" [Byte.x01] 20).
Proof.
  unfold tree1, a_dir at 1. eapply reaches_child with (rel := ""%string) (c := a_dir "sub" [a_file "b.bin" [Byte.x01] 20]).
  - split; vm_compute; reflexivity.
  - apply elem_of_cons. right. by apply list_elem_of_singleton.
  - unfold a_dir. cbn [ln_name]. rewrite join_sub.
    eapply reaches_child with (rel := "sub"%string) (c := a_file "b.bin" [Byte.x01] 20).
    + split; vm_compute; reflexivity.
    + by apply list_elem_of_singleton.
    + unfold a_file. cbn [ln_name]. rewrite join_file. eapply reaches_here with (rel := "sub/b.bin"%string).
      split; vm_compute; reflexivity.
Qed.

Lemma walkLocal_complete_witness :
  (∃ e, e ∈ wk_entries walk1 ∧ en_Path e = "sub/b.bin"%string)
  ∨ special_at the_job "/srv" (λ _, false) Some (at_srv tree1) (local_includes the_job) "sub/b.bin".
Proof.
  pose proof walked1 as Hwalk. unfold walk_of in Hwalk.
  assert ("."%string ∈ local_includes the_job) as Hin by (vm_compute; left).
  destruct (walkLocal_complete digest_of sample_stream the_job (run_prefix "root" 0 "run-1") ∅ "/srv" (λ _, false) Some
    (at_srv tree1) ∅ (started_run "run-1") walk1 Hwalk "."%string Hin) as (start & n & Hs & Hat & Hall).
  assert (start = "/srv"%string) as -> by (vm_compute in Hs; injection Hs as <-; reflexivity).
  assert (n = tree1) as -> by (cbn in Hat; by injection Hat).
  destruct (Hall _ _ reaches_file) as (rel & Hrel & Hor). vm_compute in Hrel. injection Hrel as <-. exact Hor.
Defined.

(** * Restoring *)
Definition the_request (id destination : string) (index : Z) : RestoreRequest :=
  mkRestoreRequest id index destination [] false.

Definition restored_root : RestoreWorld (B := Objects) * result RestoreError RestoreResult :=
  Restore digest_of map_to_list sample_stream the_roots 18 0 (λ _, false) (the_request "run-1" "" 1) (mkWorld store4 ∅).

Example whole_root_refused :
  (Restore digest_of map_to_list sample_stream the_roots 18 0 (λ _, false) (the_request "run-1" "out" 0) (mkWorld store4 ∅)).2
  = Err TargetEscapes.
Proof. vm_compute. reflexivity. Qed.

Lemma whole_root_unrestorable_witness :
  match restored_root.2 with Ok res => rr_Destination res = "/"%string | Err _ => False end.
Proof.
  pose proof walked1 as Hwalk. unfold walk_of in Hwalk. change "/srv"%string with (path_of ["srv"%string]) in Hwalk.
  assert (readManifest (default ∅ (ft_repos store4 !! "t1"%string))
    (default ""%string (fr_ManifestKey <$> List.find (has_run_id "run-1") (ft_runs store4))) = Ok document1) as Hdoc
    by (vm_compute; reflexivity).
  assert (fr_StorageTargetID <$> List.find (has_run_id "run-1") (ft_runs store4) = Some "t1"%string) as Htid
    by (vm_compute; reflexivity).
  assert (ft_targets store4 !! "t1"%string = Some (sample_target "t1")) as Htg by (vm_compute; reflexivity).
  destruct restored_root as [w' r] eqn:Hr. destruct r as [res|e].
  - apply (whole_root_unrestorable digest_of map_to_list sample_stream the_job (run_prefix "root" 0 "run-1") ∅ ["srv"%string] "srv"
      dir_info None (mkObserved None None None None None)
      (Some [a_file "a.txt" [Byte.x61; Byte.x62] 10; a_dir "sub" [a_file "b.bin" [Byte.x01] 20]])
      (λ _, false) Some (at_srv tree1) ∅ (started_run "run-1") walk1 the_roots 18 0 (λ _, false)
      (the_request "run-1" "" 1) (mkWorld store4 ∅) w' res); [| | | | |exact Hwalk| | |exact Hr].
    + repeat constructor; done.
    + reflexivity.
    + reflexivity.
    + reflexivity.
    + reflexivity.
    + intros run t b doc Hf Ht Hb Hd. cbn [the_request rq_RunID rw_store] in Hf, Ht, Hb. rewrite Hf in Htid, Hdoc.
      change (Some (fr_StorageTargetID run) = Some "t1"%string) in Htid. injection Htid as Htid.
      change (default ""%string (fr_ManifestKey <$> Some run)) with (fr_ManifestKey run) in Hdoc. rewrite Htid, Htg in Ht. injection Ht as <-.
      change (tgt_ID (sample_target "t1")) with "t1"%string in Hb. rewrite Hb in Hdoc.
      change (default ∅ (Some b)) with b in Hdoc. rewrite Hd in Hdoc. injection Hdoc as ->. apply sort_stable_perm.
    + reflexivity.
  - assert (is_ok restored_root.2 = true) as Hok by (vm_compute; reflexivity). rewrite Hr in Hok. discriminate Hok.
Defined.

(** One file, put back below a directory of its own. *)
Definition file_entry : Entry := mkEntry "docs/a.txt" EntryFile 2 420 0 0 10 "" (Some stored_manifest).
Definition file_document : Manifest := mkManifest FilesFormat FilesManifestVersion "run-1" "" "root" 0 [file_entry].

#[local] Instance file_documents : FileDocuments := table file_document file_document.

Definition file_run : FileBackupRun :=
  mkFileRun "run-1" "job" "root" "t1" "" RunSucceeded "p/files.manifest" 1 0 2 2 [] "" None None 0.
Definition file_objects : Objects := <["p/files.manifest"%string := [Byte.x01]]> stored.1.
Definition file_world : RestoreWorld (B := Objects) :=
  mkWorld (mkFileStore [] {["job"%string := the_job]} [file_run] {["t1"%string := sample_target "t1"]}
    {["t1"%string := file_objects]}) ∅.

Definition restored : RestoreWorld (B := Objects) * result RestoreError RestoreResult :=
  Restore digest_of map_to_list sample_stream the_roots 18 0 (λ _, false) (the_request "run-1" "out" 0) file_world.

Definition restored_result : RestoreResult :=
  match restored.2 with Ok res => res | Err _ => mkRestoreResult "" "" [] 0 [] end.

Example restored_tree :
  map_to_list (rw_fs restored.1)
  ≡ₚ [(["restore"], FDir 488); (["restore"; "out"], FDir 488); (["restore"; "out"; "docs"], FDir 488);
      (["restore"; "out"; "docs"; "a.txt"], FFile [Byte.x61; Byte.x62] 420 10)]%string.
Proof. vm_compute. solve_Permutation. Qed.

Lemma file_held : holds_file digest_of sample_stream file_objects stored_manifest [Byte.x61; Byte.x62].
Proof.
  destruct (sample_tame (data_key "p/" 0) [Byte.x61; Byte.x62] 10) as [Ht Hf]; [done|].
  assert (storeStableFile digest_of sample_stream ∅ "p/" "run-1" "/srv/a.txt" 0 (2, 10) false (at_time [Byte.x61; Byte.x62] 10)
    = (stored.1, Ok (stored_manifest, false))) as Hst by (apply answered; vm_compute; reflexivity).
  destruct (storeStableFile_ok _ _ _ _ _ _ _ _ _ _ _ _ _ Ht Hf Hst) as (Hk & n & r & _ & Hh & Hor).
  destruct Hor as [([= _ <-] & _)|([=] & _)]. eapply holds_file_frame; [|exact Hh].
  unfold file_objects. rewrite Hk. cbn. unfold om_get. by rewrite lookup_insert_ne.
Qed.

Lemma restored_ok : Restore digest_of map_to_list sample_stream the_roots 18 0 (λ _, false) (the_request "run-1" "out" 0) file_world
  = (restored.1, Ok restored_result).
Proof. unfold restored. apply answered. vm_compute. reflexivity. Qed.

Lemma restore_files_exact_witness :
  rw_fs restored.1 !! ["restore"; "out"; "docs"; "a.txt"]%string = Some (FFile [Byte.x61; Byte.x62] 420 10).
Proof.
  destruct (restore_files_exact digest_of map_to_list sample_stream the_roots 18 0 (λ _, false) (λ refs, reflexivity _)
    (the_request "run-1" "out" 0) file_world restored.1 restored_result restored_ok)
    as (run & t & b & m & cs & Hrun & Ht & Hb & Hm & Hdest & Hcs & Hall).
  assert (Some file_run = Some run) as [= <-] by exact Hrun.
  assert (Some (sample_target "t1") = Some t) as [= <-] by exact Ht.
  assert (Some file_objects = Some b) as [= <-] by exact Hb.
  assert (readManifest file_objects (fr_ManifestKey file_run) = Ok file_document) as Hd by (vm_compute; reflexivity).
  rewrite Hd in Hm. injection Hm as <-.
  assert (rr_Destination restored_result = "/restore/out"%string) as Hto by (vm_compute; reflexivity).
  rewrite Hto in Hdest. rewrite <-(clean_comps_path_of cs Hcs), <-Hdest in Hall.
  specialize (Hall file_entry stored_manifest [Byte.x61; Byte.x62]). apply Hall.
  - cbn. left.
  - reflexivity.
  - reflexivity.
  - apply file_held.
  - intros e' He' _. cbn in He'. apply list_elem_of_singleton in He'. exact He'.
Defined.

Lemma restore_confined_witness :
  rw_fs restored.1 !! ["restore"; "out"; "docs"; "a.txt"]%string ≠ None
  ∧ ∃ run allowed, List.find (has_run_id "run-1") (ft_runs (rw_store file_world)) = Some run
      ∧ allowed ∈ RestoreRoots the_roots (fr_RootID run) ∧
      let fs := (MkdirAll 18 allowed 488 (rw_fs file_world)).1 in
      ∃ root rest, resolve fs true (Clean allowed) = Some root ∧ solid fs (root ++ rest)
          ∧ (∀ p, ¬ below (root ++ rest) p →
               rw_fs restored.1 !! p = fs !! p
               ∨ prefix_of p (root ++ rest) ∧ fs !! p = None ∧ is_dir (rw_fs restored.1 !! p) = true).
Proof.
  split; [vm_compute; discriminate|].
  destruct (restore_confined digest_of map_to_list sample_stream the_roots 18 0 (λ _, false) (the_request "run-1" "out" 0) file_world
    restored.1 (Ok restored_result) restored_ok) as [[_ Ha]|(run & allowed & Hrun & Hal & _ & [[_ Ha]|(root & rest & Hr & Hs & Hp & _)])];
    [discriminate Ha|discriminate Ha|].
  exists run, allowed. split_and!; [exact Hrun|exact Hal|]. exists root, rest. split_and!; [exact Hr|exact Hs|exact Hp].
Defined.
