(* ===== verification/Local.v ===== *)
(** The repository in a directory of the server ([repo/local.go]) at work: several
    uploads, readings and deletions at once, call by call on the file system.

    An operation is a program of calls on the directory that is the root of the
    repository; the calls of different operations interleave in any order, each may
    fail, and an operation may stop half-way with the process. The theorem at the
    end: whatever the order, the objects are those of a plain map, an upload that
    is acknowledged has put its object at one moment of its own time, and what a
    reader gets was the object at a moment of its time. Listings and the deletion of
    whole directories are left out. *)

From S2P Require Import Prelude StateM GoStr Layout Format Repo Paths FileSys.

(** * Calls on the root *)
(** A path is its list of components; none is the root itself. *)
Inductive RootCall : Type → Type :=
| CMkdir (p : list string) : RootCall ()
| CCreate (p : list string) : RootCall ()
| CWrite (p : list string) (data : bytes) : RootCall Z
| CSync (p : list string) : RootCall ()
| CClose (p : list string) : RootCall ()
| CRename (old new : list string) : RootCall ()
| CRemove (p : list string) : RootCall ()
| CLstat (p : list string) : RootCall FNode
| CStat (p : list string) : RootCall FNode
| COpen (p : list string) : RootCall bytes
| CReadDir (p : list string) : RootCall (list string).

(** Resolution below the root: a link that is absolute or leads above the root is
    refused. *)
Fixpoint root_walk (links : nat) (fs : FileSys) (follow : bool) : list string → list string → result SysError (list string) :=
  fix walk (cur todo : list string) {struct todo} :=
    match todo with
    | [] => Ok cur
    | c :: rest =>
      if bool_decide (c = "") || bool_decide (c = ".") then walk cur rest
      else if bool_decide (c = "..") then
        if bool_decide (cur = []) then Err EPERM else walk (removelast cur) rest
      else
        match fs !! (cur ++ [c]) with
        | Some (FSym t) =>
          if bool_decide (rest = []) && negb follow then Ok (cur ++ [c]) else
          if IsAbs t then Err EPERM else
          match links with
          | O => Err ELOOP
          | S links => root_walk links fs follow cur (Split slash t ++ rest)
          end
        | _ => walk (cur ++ [c]) rest
        end
    end.

Definition at_path {A : Type} (fs : FileSys) (follow : bool) (p : list string)
    (f : list string → FileSys * result SysError A) : FileSys * result SysError A :=
  match root_walk 40 fs follow [] p with Ok q => f q | Err e => (fs, Err e) end.

(** A new name needs its directory. *)
Definition new_node (fs : FileSys) (q : list string) (n : FNode) : FileSys * result SysError () :=
  if is_dir (node fs (removelast q)) then (<[q := n]> fs, Ok ()) else (fs, Err (missing fs q)).

(** What one call does. Writing to a file whose name is gone changes nothing here;
    an open file is read as it was when it was opened, since no object is written
    in place. *)
Definition serve {A : Type} (c : RootCall A) (fs : FileSys) : FileSys * result SysError A :=
  match c in RootCall A return FileSys * result SysError A with
  | CMkdir p => at_path fs true p (λ q,
      match node fs q with
      | Some (FDir _) => (fs, Ok ())
      | Some _ => (fs, Err ENOTDIR)
      | None => new_node fs q (FDir 488)
      end)
  | CCreate p => at_path fs false p (λ q,
      match node fs q with Some _ => (fs, Err EEXIST) | None => new_node fs q (FFile [] 384 0) end)
  | CWrite p data =>
    match fs !! p with
    | Some (FFile content mode t) => (<[p := FFile (content ++ data) mode t]> fs, Ok (Z.of_nat (length data)))
    | _ => (fs, Ok (Z.of_nat (length data)))
    end
  | CSync p => (fs, Ok ())
  | CClose p => (fs, Ok ())
  | CRename old new => at_path fs false old (λ o, at_path fs false new (λ q,
      match fs !! o with
      | Some (FFile content mode t) =>
        if is_dir (node fs q) then (fs, Err EEXIST)
        else if is_dir (node fs (removelast q)) then (<[q := FFile content mode t]> (delete o fs), Ok ())
        else (fs, Err (missing fs q))
      | _ => (fs, Err (missing fs o))
      end))
  | CRemove p => at_path fs false p (λ q,
      match node fs q with
      | None => (fs, Err (missing fs q))
      | Some (FDir _) => if occupied fs q || bool_decide (q = []) then (fs, Err ENOTEMPTY) else (delete q fs, Ok ())
      | Some _ => (delete q fs, Ok ())
      end)
  | CLstat p => at_path fs false p (λ q, (fs, match node fs q with Some n => Ok n | None => Err (missing fs q) end))
  | CStat p => at_path fs true p (λ q, (fs, match node fs q with Some n => Ok n | None => Err (missing fs q) end))
  | COpen p => at_path fs true p (λ q, (fs,
      match node fs q with
      | Some (FFile content _ _) => Ok content
      | Some _ => Err EISDIR
      | None => Err (missing fs q)
      end))
  | CReadDir p => at_path fs true p (λ q, (fs,
      match node fs q with
      | Some (FDir _) => Ok (omap (λ x, if bool_decide (removelast x.1 = q ∧ x.1 ≠ []) then last x.1 else None) (map_to_list fs))
      | Some _ => Err ENOTDIR
      | None => Err (missing fs q)
      end))
  end.

(** A call that fails may have done nothing, or all it was to do, the answer being
    lost; a write may have written a part. *)
Definition torn {A : Type} (n : nat) (c : RootCall A) (fs : FileSys) : FileSys :=
  match c with
  | CWrite p data => (serve (CWrite p (take n data)) fs).1
  | _ => if bool_decide (n = 0%nat) then fs else (serve c fs).1
  end.

Definition act {A : Type} (fault : option nat) (c : RootCall A) (fs : FileSys) : FileSys * result SysError A :=
  match fault with None => serve c fs | Some n => (torn n c fs, Err EIO) end.

(** * Programs *)
Inductive Prog (A : Type) : Type :=
| Ret (a : A)
| Act {X : Type} (c : RootCall X) (k : result SysError X → Prog A).
Arguments Ret {A}. Arguments Act {A X}.

Fixpoint prog_bind {A B : Type} (p : Prog A) (f : A → Prog B) : Prog B :=
  match p with
  | Ret a => f a
  | Act c k => Act c (λ r, prog_bind (k r) f)
  end.

(** A program whose result may be an error. *)
Definition Job (A : Type) : Type := Prog (result RepoError A).

#[export] Instance job_ret : MRet Job := λ A a, Ret (Ok a).
#[export] Instance job_bind : MBind Job := λ A B f p,
  prog_bind p (λ r, match r with Ok a => f a | Err e => Ret (Err e) end).

Definition job_fail {A : Type} (e : RepoError) : Job A := Ret (Err e).
Definition job_lift {A : Type} (r : result RepoError A) : Job A := Ret r.
(** The answer of a call as a value. *)
Definition ask_root {X : Type} (c : RootCall X) : Job (result SysError X) := Act c (λ r, Ret (Ok r)).
Definition job_try {A : Type} (p : Job A) : Job (result RepoError A) := prog_bind p (λ r, Ret (Ok r)).

Definition sys_text (e : SysError) : RepoError := RepoFailure "file system".
(** A missing file is the error of the interface. *)
Definition absent (key : string) (e : SysError) : RepoError :=
  if bool_decide (e = ENOENT) then ErrNotExist key else sys_text e.
Definition root_call {X : Type} (c : RootCall X) (err : SysError → RepoError) : Job X :=
  r ← ask_root c ; job_lift (map_err err r).

(** * The operations *)
(** The cleaned path of a key; no component is the root. *)
Definition local_key (k : string) : result RepoError (list string) :=
  let cs := clean_comps k in
  if IsAbs k then Err (RepoFailure "key") else
  if bool_decide (head cs = Some ".."%string) then Err (RepoFailure "key") else Ok cs.

Definition objectKey (k : string) : result RepoError (list string) :=
  cs ← local_key k ; if bool_decide (cs = []) then Err (RepoFailure "empty key") else Ok cs.

Definition rejectSymlink (key : string) (q : list string) : Job () :=
  info ← root_call (CLstat q) (absent key) ;
  match info with FSym _ => job_fail (RepoFailure "link") | _ => mret () end.

(** [Root.MkdirAll]. *)
Fixpoint mkdir_all (cur todo : list string) : Job () :=
  match todo with
  | [] => mret ()
  | c :: rest => root_call (CMkdir (cur ++ [c])) sys_text ;; mkdir_all (cur ++ [c]) rest
  end.

(** What is uploaded: the pieces in which it arrives, and whether it breaks off
    (also because the context was cancelled). *)
Record Upload := mkUpload { up_pieces : list bytes; up_broken : bool }.

Fixpoint copy_to (tmp : list string) (pieces : list bytes) (written : Z) : Job Z :=
  match pieces with
  | [] => mret written
  | d :: pieces => n ← root_call (CWrite tmp d) sys_text ; copy_to tmp pieces (written + n)
  end.

Definition temp_name (uuid : string) : string := ".jhv-" +:+ uuid +:+ ".tmp".

(** From the writing to the name. *)
Definition publish (tmp clean : list string) (r : Upload) : Job Z :=
  written ← copy_to tmp (up_pieces r) 0 ;
  if up_broken r then job_fail (RepoFailure "reader") else
  root_call (CSync tmp) sys_text ;;
  root_call (CClose tmp) sys_text ;;
  root_call (CRename tmp clean) sys_text ;;
  mret written.

Definition local_Put (uuid key : string) (r : Upload) : Job Z :=
  clean ← job_lift (objectKey key) ;
  let dir := removelast clean in
  mkdir_all [] dir ;;
  let tmp := dir ++ [temp_name uuid] in
  root_call (CCreate tmp) sys_text ;;
  out ← job_try (publish tmp clean r) ;
  match out with
  | Ok n => mret n
  | Err e => ask_root (CClose tmp) ;; ask_root (CRemove tmp) ;; job_fail e
  end.

Definition local_Get (key : string) : Job bytes :=
  clean ← job_lift (objectKey key) ;
  rejectSymlink key clean ;;
  root_call (COpen clean) (absent key).

(** A negative length: to the end. *)
Definition local_GetRange (key : string) (offset len : Z) : Job bytes :=
  clean ← job_lift (objectKey key) ;
  rejectSymlink key clean ;;
  data ← root_call (COpen clean) (absent key) ;
  let rest := drop (Z.to_nat offset) data in
  mret (if len <? 0 then rest else take (Z.to_nat len) rest).

(** The size of a directory is left open. *)
Definition local_Stat (key : string) : Job (option ObjectInfo) :=
  clean ← job_lift (objectKey key) ;
  rejectSymlink key clean ;;
  info ← root_call (CStat clean) (absent key) ;
  mret match info with FFile data _ _ => Some (mkObjectInfo key (Z.of_nat (length data))) | _ => None end.

(** One round per component of the directory is enough. *)
Fixpoint prune_dirs (rounds : nat) (dir : list string) : Job () :=
  match rounds with
  | O => mret ()
  | S rounds =>
    if bool_decide (dir = []) then mret () else
    entries ← ask_root (CReadDir dir) ;
    match entries with
    | Ok [] =>
      removed ← ask_root (CRemove dir) ;
      match removed with Ok _ => prune_dirs rounds (removelast dir) | Err _ => mret () end
    | _ => mret ()
    end
  end.

Definition pruneEmptyDirs (dir : list string) : Job () := prune_dirs (length dir) dir.

Definition local_Delete (key : string) : Job () :=
  clean ← job_lift (objectKey key) ;
  removed ← ask_root (CRemove clean) ;
  match removed with
  | Ok _ | Err ENOENT => pruneEmptyDirs (removelast clean)
  | Err e => job_fail (sys_text e)
  end.

(** * Clients *)
Inductive Request :=
| RPut (key : string) (r : Upload)
| RGet (key : string)
| RGetRange (key : string) (offset len : Z)
| RStat (key : string)
| RDelete (key : string).

Inductive Reply :=
| RepSize (n : Z) | RepData (data : bytes) | RepInfo (info : option ObjectInfo) | RepDone.

Definition request_key (r : Request) : string :=
  match r with RPut k _ | RGet k | RGetRange k _ _ | RStat k | RDelete k => k end.

Definition job_of (id : string) (req : Request) : Job Reply :=
  match req with
  | RPut key r => n ← local_Put id key r ; mret (RepSize n)
  | RGet key => d ← local_Get key ; mret (RepData d)
  | RGetRange key offset len => d ← local_GetRange key offset len ; mret (RepData d)
  | RStat key => i ← local_Stat key ; mret (RepInfo i)
  | RDelete key => local_Delete key ;; mret RepDone
  end.

(** What a call does to the objects. Files whose name begins like a temporary file's
    are none. *)
Definition is_temp (c : string) : bool := String.prefix ".jhv-" c.
Definition temp_path (q : list string) : bool := match last q with Some c => is_temp c | None => false end.

Definition object_at (fs : FileSys) (q : list string) : option bytes :=
  match fs !! q with
  | Some (FFile data _ _) => if temp_path q then None else Some data
  | _ => None
  end.

Inductive Event :=
| Stored (id : string) (q : list string) (data : bytes)
| Removed (id : string) (q : list string).

Definition commits {A : Type} (id : string) (c : RootCall A) (fs fs' : FileSys) : list Event :=
  match c with
  | CRename old new =>
    match fs !! old, fs' !! old with Some (FFile data _ _), None => [Stored id new data] | _, _ => [] end
  | CRemove p => match object_at fs p, fs' !! p with Some _, None => [Removed id p] | _, _ => [] end
  | _ => []
  end.

(** The plain map of a sequence of events. *)
Definition view (base : list string → option bytes) (log : list Event) (q : list string) : option bytes :=
  foldl (λ o e,
    match e with
    | Stored _ q' data => if bool_decide (q' = q) then Some data else o
    | Removed _ q' => if bool_decide (q' = q) then None else o
    end) (base q) log.

Record Client := mkClient { cl_start : nat; cl_prog : Job Reply }.
Record Outcome := mkOutcome { oc_id : string; oc_start : nat; oc_stop : nat; oc_reply : result RepoError Reply }.

(** The file system, what has happened to the objects, every request so far, the
    operations that are running, and the answers. A time is a position in the log. *)
Record LocalSys := mkLocalSys {
  files : FileSys; log : list Event; asked : gmap string Request;
  running : gmap string Client; ended : list Outcome }.

Definition local_start (fs : FileSys) : LocalSys := mkLocalSys fs [] ∅ ∅ [].

Inductive Turn :=
| Begin (id : string) (req : Request)
| Advance (id : string) (fault : option nat)
| Die (id : string).

Section System.
(** The names that objects can have. *)
Context (names : list string → bool).

Definition allowed (req : Request) : bool :=
  match objectKey (request_key req) with Ok q => names q | Err _ => true end.

(** One turn; one that is not possible changes nothing. *)
Definition turn (t : Turn) (s : LocalSys) : LocalSys :=
  match t with
  | Begin id req =>
    if bool_decide (asked s !! id = None) && all_chars no_slash id && allowed req then
      mkLocalSys (files s) (log s) (<[id := req]> (asked s))
        (<[id := mkClient (length (log s)) (job_of id req)]> (running s)) (ended s)
    else s
  | Advance id fault =>
    match running s !! id with
    | None => s
    | Some (mkClient start (Ret r)) =>
      mkLocalSys (files s) (log s) (asked s) (delete id (running s))
        (ended s ++ [mkOutcome id start (length (log s)) r])
    | Some (mkClient start (Act c k)) =>
      let '(fs', r) := act fault c (files s) in
      mkLocalSys fs' (log s ++ commits id c (files s) fs') (asked s)
        (<[id := mkClient start (k r)]> (running s)) (ended s)
    end
  | Die id => mkLocalSys (files s) (log s) (asked s) (delete id (running s)) (ended s)
  end.

Definition turns (ts : list Turn) (s : LocalSys) : LocalSys := foldl (λ s t, turn t s) s ts.
End System.

(** * What every turn keeps *)
Definition World : Type := FileSys * list Event.

(** Directories lead to every node, and there are no links. *)
Definition structured (fs : FileSys) : Prop :=
  (∀ p, is_sym (fs !! p) = false) ∧ (∀ p n, fs !! p = Some n → p ≠ [] ∧ is_dir (node fs (removelast p)) = true).

Lemma structured_child fs p x : structured fs → is_dir (fs !! p) = false → p ≠ [] → removelast x = p → x ≠ [] → fs !! x = None.
Proof.
  intros [_ Hd] Hp Hne <- Hx. destruct (fs !! x) as [n|] eqn:Hlk; [|done].
  destruct (Hd _ _ Hlk) as [_ H]. rewrite node_some in H by done. congruence.
Qed.

Lemma removelast_self (p : list string) : p ≠ [] → removelast p ≠ p.
Proof. intros Hne Heq. destruct (exists_last Hne) as (l & x & ->). rewrite removelast_last in Heq. apply (f_equal length) in Heq. rewrite length_app in Heq. cbn in Heq. lia. Qed.

Lemma structured_insert fs q n :
  structured fs → q ≠ [] → is_dir (node fs (removelast q)) = true → is_sym (Some n) = false →
  (is_dir (fs !! q) = true → is_dir (Some n) = true) → structured (<[q := n]> fs).
Proof.
  intros Hs Hne Hp Hn Hkeep. split.
  - intros p. destruct (decide (p = q)) as [->|?]; [by rewrite lookup_insert_eq|]. rewrite lookup_insert_ne by done. apply Hs.
  - intros p m Hlk. destruct (decide (p = q)) as [->|Hpq].
    + split; [done|]. destruct (decide (removelast q = [])) as [->|Hr]; [done|].
      rewrite node_some in * by done. by rewrite lookup_insert_ne by (apply not_eq_sym, removelast_self, Hne).
    + rewrite lookup_insert_ne in Hlk by done. destruct (proj2 Hs _ _ Hlk) as [Hp0 Hd]. split; [done|].
      destruct (decide (removelast p = [])) as [->|Hr]; [done|]. rewrite node_some in Hd by done. rewrite node_some by done.
      destruct (decide (removelast p = q)) as [Hq|?]; [rewrite Hq in *; rewrite lookup_insert_eq; auto|by rewrite lookup_insert_ne].
Qed.

Lemma structured_delete fs p :
  structured fs → p ≠ [] → (∀ x, removelast x = p → x ≠ [] → fs !! x = None) → structured (delete p fs).
Proof.
  intros Hs Hne Hc. split.
  - intros x. destruct (decide (x = p)) as [->|?]; [by rewrite lookup_delete_eq|]. rewrite lookup_delete_ne by done. apply Hs.
  - intros x n. destruct (decide (x = p)) as [->|?]; [by rewrite lookup_delete_eq|]. rewrite lookup_delete_ne by done.
    intros Hlk. destruct (proj2 Hs _ _ Hlk) as [Hx Hd]. split; [done|].
    destruct (decide (removelast x = [])) as [->|Hr]; [done|]. rewrite node_some in * by done.
    destruct (decide (removelast x = p)) as [Hxp|?]; [by rewrite (Hc x Hxp Hx) in Hlk|by rewrite lookup_delete_ne].
Qed.

Lemma occupied_child fs p x : occupied fs p = false → removelast x = p → x ≠ [] → fs !! x = None.
Proof.
  intros Ho Hx Hne. destruct (fs !! x) as [n|] eqn:Hlk; [|done]. exfalso.
  assert (existsb (λ y, bool_decide (removelast y.1 = p) && bool_decide (y.1 ≠ [])) (map_to_list fs) = true) as H;
    [|unfold occupied in Ho; congruence].
  apply existsb_exists. exists (x, n). split; [apply list_elem_of_In; by apply elem_of_map_to_list|].
  by rewrite !bool_decide_eq_true_2.
Qed.

(** Resolution without links. *)
Lemma root_walk_here links fs follow cur todo :
  (∀ p, is_sym (fs !! p) = false) → Forall normal todo → root_walk links fs follow cur todo = Ok (cur ++ todo).
Proof.
  intros Hs. destruct links as [|links]; revert cur; induction todo as [|c todo IH]; intros cur Hn; cbn;
    (try by rewrite app_nil_r); apply Forall_cons in Hn as [(He & Hd & Hu & _) Hn];
    rewrite !bool_decide_eq_false_2 by done; cbn [orb].
  all: pose proof (Hs (cur ++ [c])) as Hc; rewrite IH in * by done; rewrite <-app_assoc; cbn.
  all: by destruct (fs !! (cur ++ [c])) as [[]|].
Qed.

Lemma at_path_here {A : Type} (fs : FileSys) (follow : bool) (p : list string) (f : list string → FileSys * result SysError A) :
  structured fs → Forall normal p → at_path fs follow p f = f p.
Proof. intros [Hs _] Hp. unfold at_path. by rewrite root_walk_here. Qed.

Lemma app_inj_r (s t p : string) : s +:+ p = t +:+ p → s = t.
Proof.
  revert t. induction s as [|c s IH]; intros [|d t] Heq; [done| | |].
  1-2: apply (f_equal String.length) in Heq; rewrite !length_app_string in Heq; cbn in Heq; lia.
  injection Heq as -> Heq. f_equal. by apply IH.
Qed.

Lemma temp_name_inj id id' : temp_name id = temp_name id' → id = id'.
Proof. unfold temp_name. intros Heq%app_inj_l. by apply app_inj_r in Heq. Qed.

Lemma temp_name_temp id : is_temp (temp_name id) = true.
Proof. unfold is_temp, temp_name. apply prefix_app_l. Qed.

Lemma temp_name_normal id : all_chars no_slash id = true → normal (temp_name id).
Proof.
  intros Hid. unfold temp_name. repeat split; try done. cbn. by rewrite !all_chars_app, Hid.
Qed.

Lemma objectKey_normal key q : objectKey key = Ok q → Forall normal q ∧ q ≠ [].
Proof.
  unfold objectKey, local_key. destruct (IsAbs key) eqn:Habs; [done|].
  destruct (clean_comps_shape key) as (n & cs & Hs & Hcs & _). rewrite Hs.
  case_bool_decide as Hh; [done|]. cbn. case_bool_decide as He; [done|]. intros [= <-]. split; [|done].
  destruct n; [done|]. by destruct Hh.
Qed.

(** Runs a program up to its next call. *)
Ltac run_job := cbn [mbind job_bind mret job_ret prog_bind ask_root job_lift job_fail job_try root_call map_err].

Section Reasoning.
Context (names : list string → bool) (base : list string → option bytes).

(** The objects are those of the log, at names that objects can have. *)
Definition local_inv (w : World) : Prop :=
  structured w.1 ∧ (∀ q, object_at w.1 q ≠ None → names q = true) ∧ ∀ q, object_at w.1 q = view base w.2 q.

(** Who may store and remove what. *)
Definition ok_event (id : string) (req : Request) (e : Event) : Prop :=
  match e, req with
  | Stored i q data, RPut key r => i = id ∧ objectKey key = Ok q ∧ data = concat (up_pieces r) ∧ up_broken r = false
  | Removed i q, RDelete key => i = id ∧ objectKey key = Ok q
  | _, _ => False
  end.

(** What an operation does to the others ... *)
Definition guar (id : string) (req : Request) (w w' : World) : Prop :=
  ∃ es, w'.2 = w.2 ++ es ∧ Forall (ok_event id req) es ∧ local_inv w'
  ∧ ∀ p x, last p = Some x → is_temp x = true → x ≠ temp_name id → w'.1 !! p = w.1 !! p.

(** ... and what it relies on between its own calls. *)
Definition rely (id : string) (w w' : World) : Prop :=
  ∃ es, w'.2 = w.2 ++ es ∧ local_inv w' ∧ ∀ p, last p = Some (temp_name id) → w'.1 !! p = w.1 !! p.

Lemma rely_refl id w : local_inv w → rely id w w.
Proof. exists []. by rewrite app_nil_r. Qed.

Lemma rely_trans id w1 w2 w3 : rely id w1 w2 → rely id w2 w3 → rely id w1 w3.
Proof.
  intros (es1 & E1 & _ & T1) (es2 & E2 & I2 & T2). exists (es1 ++ es2). rewrite E2, E1, app_assoc.
  split_and!; [done..|]. intros p Hp. by rewrite T2, T1.
Qed.

Lemma rely_inv id w w' : rely id w w' → local_inv w'.
Proof. by intros (? & ? & ? & ?). Qed.

Lemma guar_rely id id' req w w' : id ≠ id' → guar id req w w' → rely id' w w'.
Proof.
  intros Hne (es & E & _ & I & T). exists es. split_and!; [done..|]. intros p Hp.
  apply (T p (temp_name id')); [done|apply temp_name_temp|]. intros Heq%temp_name_inj. congruence.
Qed.

Lemma guar_inv id req w w' : guar id req w w' → local_inv w'.
Proof. by intros (? & ? & ? & ? & ?). Qed.

(** ** Programs that keep to their part *)
Fixpoint wp {A : Type} (id : string) (req : Request) (p : Prog A) (Q : A → World → Prop) (w : World) : Prop :=
  match p with
  | Ret a => ∀ w', rely id w w' → Q a w'
  | Act c k => ∀ w' fault, rely id w w' →
    let '(fs', r) := act fault c w'.1 in
    let w'' := (fs', w'.2 ++ commits id c w'.1 fs') in guar id req w' w'' ∧ wp id req (k r) Q w''
  end.

Lemma wp_open {A : Type} (id : string) (req : Request) (p : Prog A) (Q : A → World → Prop) (w : World) : (∀ w', rely id w w' → wp id req p Q w') → wp id req p Q w.
Proof.
  destruct p as [a|X c k]; cbn; intros H.
  - intros w' Hr. apply (H w' Hr), rely_refl, (rely_inv id w). done.
  - intros w' fault Hr. apply (H w' Hr), rely_refl, (rely_inv id w). done.
Qed.

Lemma wp_later {A : Type} (id : string) (req : Request) (p : Prog A) (Q : A → World → Prop) (w w' : World) : wp id req p Q w → rely id w w' → wp id req p Q w'.
Proof.
  destruct p as [a|X c k]; cbn; intros H Hr; [intros w2 Hr2|intros w2 fault Hr2]; apply H; by eapply rely_trans.
Qed.

Lemma wp_bind {A B : Type} (id : string) (req : Request) (p : Prog A) (f : A → Prog B) (Q : B → World → Prop) (w : World) :
  wp id req p (λ a w, wp id req (f a) Q w) w → wp id req (prog_bind p f) Q w.
Proof.
  revert w. induction p as [a|X c k IH]; cbn; intros w H; [by apply wp_open|].
  intros w' fault Hr. specialize (H w' fault Hr). destruct (act fault c w'.1) as [fs' r].
  destruct H as [Hg H]. split; [done|]. by apply IH.
Qed.

Lemma wp_mono {A : Type} (id : string) (req : Request) (p : Prog A) (Q Q' : A → World → Prop) (w : World) :
  (∀ a w, Q a w → Q' a w) → wp id req p Q w → wp id req p Q' w.
Proof.
  intros HQ. revert w. induction p as [a|X c k IH]; cbn; intros w H; [eauto|].
  intros w' fault Hr. specialize (H w' fault Hr). destruct (act fault c w'.1) as [fs' r].
  destruct H as [Hg H]. split; [done|]. by apply IH.
Qed.

(** A call: what it does, and how the program goes on. *)
Definition keeps {X : Type} (id : string) (req : Request) (c : RootCall X) (w : World) (fs' : FileSys) : Prop :=
  guar id req w (fs', w.2 ++ commits id c w.1 fs').

Lemma wp_act {A X : Type} (id : string) (req : Request) (c : RootCall X) (k : result SysError X → Prog A) (Q : A → World → Prop) (w : World) :
  (∀ w' fault fs' r, rely id w w' → act fault c w'.1 = (fs', r) →
    keeps id req c w' fs' ∧ wp id req (k r) Q (fs', w'.2 ++ commits id c w'.1 fs')) →
  wp id req (Act c k) Q w.
Proof. intros H w' fault Hr. destruct (act fault c w'.1) as [fs' r] eqn:Ha. by eapply H. Qed.

(** ** The calls *)
Lemma view_app log es q :
  view base (log ++ es) q = view (view base log) es q.
Proof. unfold view. by rewrite foldl_app. Qed.

Lemma commit_same {X : Type} id (c : RootCall X) fs : commits id c fs fs = [].
Proof.
  destruct c; cbn; try done; [|unfold object_at]; by destruct (fs !! _) as [[]|]; cbn; try done; case_match.
Qed.

Lemma guar_quiet id req fs fs' l :
  local_inv (fs, l) → structured fs' → (∀ q, object_at fs' q = object_at fs q) →
  (∀ p x, last p = Some x → is_temp x = true → x ≠ temp_name id → fs' !! p = fs !! p) →
  guar id req (fs, l) (fs', l ++ []).
Proof.
  intros (_ & Hn & Hv) Hs Ho Ht. exists []. cbn in *. rewrite app_nil_r.
  split_and!; [done|done| |done]. split_and!; cbn; [done|..]; intros q; rewrite Ho; auto.
Qed.

Lemma guar_same id req fs l : local_inv (fs, l) → guar id req (fs, l) (fs, l ++ []).
Proof. intros H. apply guar_quiet; [done|apply H|done..]. Qed.

(** A call other than a write does all or nothing. *)
Lemma keeps_act {X : Type} (id : string) (req : Request) (c : RootCall X) w fault fs' r :
  local_inv w → match c with CWrite _ _ => False | _ => True end →
  keeps id req c w (serve c w.1).1 → act fault c w.1 = (fs', r) → keeps id req c w fs'.
Proof.
  intros Hi Hc Hk Ha.
  assert (fs' = w.1 ∨ fs' = (serve c w.1).1) as [->| ->]; [|unfold keeps; rewrite commit_same; destruct w; by apply guar_same|done].
  destruct fault as [n|]; cbn in Ha.
  - injection Ha as <- _. destruct c; cbn [torn]; try done; case_bool_decide; auto.
  - right. by rewrite Ha.
Qed.

Definition looks {X : Type} (c : RootCall X) : Prop := ∀ fs, (serve c fs).1 = fs.

Lemma act_looks {X : Type} (c : RootCall X) fault fs fs' r :
  looks c → match c with CWrite _ _ => False | _ => True end →
  act fault c fs = (fs', r) → fs' = fs ∧ (r = (serve c fs).2 ∨ r = Err EIO).
Proof.
  intros Hl Hc. destruct fault as [n|]; cbn.
  - intros [= <- <-]. split; [|by right]. destruct c; cbn [torn]; try done; case_bool_decide; auto.
  - intros Ha. specialize (Hl fs). rewrite Ha in Hl. cbn in Hl. rewrite Ha. by split; [|left].
Qed.

Lemma at_path_looks {X : Type} (fs : FileSys) (follow : bool) (p : list string) (f : list string → result SysError X) :
  (at_path fs follow p (λ q, (fs, f q))).1 = fs.
Proof. unfold at_path. by destruct (root_walk _ _ _ _ _). Qed.

Lemma looks_reads {X : Type} (c : RootCall X) :
  match c with CSync _ | CClose _ | CLstat _ | CStat _ | COpen _ | CReadDir _ => True | _ => False end → looks c.
Proof. intros Hc fs. destruct c; try done; cbn [serve]; apply at_path_looks. Qed.

(** The rule for a call that only looks. *)
Lemma wp_look {A X : Type} (id : string) (req : Request) (c : RootCall X) (k : result SysError X → Prog A) (Q : A → World → Prop) (w : World) :
  match c with CSync _ | CClose _ | CLstat _ | CStat _ | COpen _ | CReadDir _ => True | _ => False end →
  (∀ w' r, rely id w w' → r = (serve c w'.1).2 ∨ r = Err EIO → wp id req (k r) Q w') →
  wp id req (Act c k) Q w.
Proof.
  intros Hc H. apply wp_act. intros w' fault fs' r Hr Ha.
  apply act_looks in Ha as [-> Hres]; [|by apply looks_reads|by destruct c].
  unfold keeps. rewrite commit_same. pose proof (rely_inv _ _ _ Hr) as Hi.
  split; [destruct w'; by apply guar_same|]. rewrite app_nil_r. destruct w'. by apply H.
Qed.

(** Making directories and temporary files. *)
Lemma object_insert (fs : FileSys) q n p :
  object_at (<[q := n]> fs) p
  = if bool_decide (q = p) then match n with FFile data _ _ => if temp_path p then None else Some data | _ => None end
    else object_at fs p.
Proof.
  unfold object_at. case_bool_decide as Hq; [subst p; by rewrite lookup_insert_eq|by rewrite lookup_insert_ne].
Qed.

Lemma object_delete (fs : FileSys) q p : object_at (delete q fs) p = if bool_decide (q = p) then None else object_at fs p.
Proof.
  unfold object_at. case_bool_decide as Hq; [subst p; by rewrite lookup_delete_eq|by rewrite lookup_delete_ne].
Qed.

Lemma keeps_new id req fs l q n :
  local_inv (fs, l) → q ≠ [] → fs !! q = None → is_dir (node fs (removelast q)) = true →
  match n with FDir _ => ∀ x, last q = Some x → is_temp x = false | FFile _ _ _ => last q = Some (temp_name id) | FSym _ => False end →
  guar id req (fs, l) (<[q := n]> fs, l ++ []).
Proof.
  intros Hi Hq Hnew Hp Hn. apply guar_quiet; [done| | |].
  - apply structured_insert; [apply Hi|done|done|by destruct n|by rewrite Hnew].
  - intros p. rewrite object_insert. case_bool_decide as Hqp; [subst p|done].
    unfold object_at. rewrite Hnew. destruct n as [|data m t|]; [done| |done].
    unfold temp_path. by rewrite Hn, temp_name_temp.
  - intros p x Hx Htx Hne. rewrite lookup_insert_ne; [done|]. intros ->.
    destruct n; [|congruence|done]. by rewrite Hn in Htx.
Qed.

Lemma new_node_keeps id req fs l q n :
  local_inv (fs, l) → q ≠ [] → node fs q = None →
  match n with FDir _ => ∀ x, last q = Some x → is_temp x = false | FFile _ _ _ => last q = Some (temp_name id) | FSym _ => False end →
  guar id req (fs, l) ((new_node fs q n).1, l ++ []).
Proof.
  intros Hi Hq Hnew Hn. unfold new_node. rewrite node_some in Hnew by done.
  destruct (is_dir _) eqn:Hp; [by apply keeps_new|by apply guar_same].
Qed.

Lemma mkdir_keeps id req w p :
  local_inv w → Forall normal p → Forall (λ c, is_temp c = false) p → keeps id req (CMkdir p) w (serve (CMkdir p) w.1).1.
Proof.
  intros Hi Hp Ht. destruct w as [fs l]. unfold keeps. cbn [serve commits fst snd]. rewrite at_path_here by (done || apply Hi).
  destruct (node fs p) as [n|] eqn:Hn; [destruct n; by apply guar_same|].
  apply new_node_keeps; [done|by intros ->|done|]. intros x Hx. rewrite Forall_forall in Ht. apply Ht. by apply last_Some_elem_of.
Qed.

Lemma create_keeps id req w p :
  local_inv w → Forall normal p → last p = Some (temp_name id) → keeps id req (CCreate p) w (serve (CCreate p) w.1).1.
Proof.
  intros Hi Hp Ht. destruct w as [fs l]. unfold keeps. cbn [serve commits fst snd]. rewrite at_path_here by (done || apply Hi).
  destruct (node fs p) as [n|] eqn:Hn; [by apply guar_same|]. apply new_node_keeps; [done|by intros ->|done..].
Qed.

Lemma write_keeps id req w p data :
  local_inv w → last p = Some (temp_name id) → keeps id req (CWrite p data) w (serve (CWrite p data) w.1).1.
Proof.
  intros Hi Ht. destruct w as [fs l]. unfold keeps. cbn [serve commits fst snd].
  destruct (fs !! p) as [[m|content m t|t]|] eqn:Hlk; try by apply guar_same.
  destruct (proj2 (proj1 Hi) _ _ Hlk) as [Hne Hd]. cbn [fst]. apply guar_quiet; [done| | |].
  - apply structured_insert; [apply Hi|done|done|done|by rewrite Hlk].
  - intros q. rewrite object_insert. case_bool_decide as Hq; [subst q|done].
    unfold object_at, temp_path. by rewrite Hlk, Ht, temp_name_temp.
  - intros q x Hx _ Hx'. rewrite lookup_insert_ne; [done|]. congruence.
Qed.

Lemma write_act_keeps id req w p data fault fs' r :
  local_inv w → last p = Some (temp_name id) → act fault (CWrite p data) w.1 = (fs', r) → keeps id req (CWrite p data) w fs'.
Proof.
  intros Hi Ht Ha. destruct fault as [n|]; cbn [act] in Ha.
  - injection Ha as <- _. exact (write_keeps id req w p (take n data) Hi Ht).
  - pose proof (write_keeps id req w p data Hi Ht) as H. by rewrite Ha in H.
Qed.

(** The rename that publishes. *)
Lemma names_not_temp q : (∀ c, c ∈ q → is_temp c = false) → temp_path q = false.
Proof. intros H. unfold temp_path. destruct (last q) as [c|] eqn:Hl; [|done]. by apply H, last_Some_elem_of. Qed.

Lemma rename_keeps id req w tmp q :
  local_inv w → Forall normal tmp → Forall normal q → names q = true → (∀ c, c ∈ q → is_temp c = false) →
  last tmp = Some (temp_name id) →
  (∀ data m t, w.1 !! tmp = Some (FFile data m t) → ok_event id req (Stored id q data)) →
  keeps id req (CRename tmp q) w (serve (CRename tmp q) w.1).1.
Proof.
  intros Hi Htmp Hq Hnq Hqt Ht Hok. destruct w as [fs l]. unfold keeps. cbn [serve fst snd] in *.
  rewrite !at_path_here by (done || apply Hi).
  destruct (fs !! tmp) as [[m|data m t|t]|] eqn:Hlk; cbn [fst]; try (rewrite commit_same; by apply guar_same).
  destruct (is_dir (node fs q)) eqn:Hd; [rewrite commit_same; by apply guar_same|].
  destruct (is_dir (node fs (removelast q))) eqn:Hp; cbn [fst]; [|rewrite commit_same; by apply guar_same].
  assert (tmp ≠ q) as Hne. { intros ->. pose proof (names_not_temp q Hqt) as H. unfold temp_path in H. by rewrite Ht, temp_name_temp in H. }
  assert (q ≠ []) as Hq0 by (by intros ->). assert (tmp ≠ []) as Ht0 by (by intros ->).
  assert (removelast q ≠ tmp) as Hpt. { intros Heq. rewrite Heq, node_some, Hlk in Hp by done. done. }
  destruct Hi as (Hs & Hn & Hv). cbn [commits]. rewrite Hlk, lookup_insert_ne, lookup_delete_eq by done.
  exists [Stored id q data]. cbn [fst snd]. split_and!; [done|repeat constructor; by eapply Hok| |].
  - split_and!; cbn [fst snd].
    + apply structured_insert; [|done| |done|].
      * apply structured_delete; [done|done|]. intros x. by apply structured_child; [|rewrite Hlk|].
      * destruct (decide (removelast q = [])) as [->|?]; [done|]. rewrite node_some in * by done. by rewrite lookup_delete_ne.
      * rewrite lookup_delete_ne by done. by rewrite node_some in Hd; [rewrite Hd|].
    + intros x. rewrite object_insert, object_delete. case_bool_decide; [by subst x|]. case_bool_decide; [done|]. apply Hn.
    + intros x. rewrite object_insert, object_delete, view_app. cbn. case_bool_decide as Hx.
      * subst x. by rewrite names_not_temp.
      * rewrite <-Hv. cbn. case_bool_decide; [subst x|done]. unfold object_at, temp_path. by rewrite Hlk, Ht, temp_name_temp.
  - intros p x Hx Htx Hnx. rewrite lookup_insert_ne, lookup_delete_ne; [done| |].
    + intros ->. congruence.
    + intros ->. rewrite Hqt in Htx; [done|]. by apply last_Some_elem_of.
Qed.

(** Removing a temporary file, an object, or an empty directory. *)
Lemma remove_keeps id req w p :
  local_inv w → Forall normal p →
  (last p = Some (temp_name id) ∨ (∀ c, c ∈ p → is_temp c = false) ∧ (names p = true → ok_event id req (Removed id p))) →
  keeps id req (CRemove p) w (serve (CRemove p) w.1).1.
Proof.
  intros Hi Hp Hwho. destruct w as [fs l]. unfold keeps. cbn [serve fst snd]. rewrite at_path_here by (done || apply Hi).
  assert (∀ n, fs !! p = Some n → p ≠ [] → (∀ x, removelast x = p → x ≠ [] → fs !! x = None) →
    guar id req (fs, l) (delete p fs, l ++ commits id (CRemove p) fs (delete p fs))) as Hdel.
  { intros n Hlk Hp0 Hc. destruct Hi as (Hs & Hn & Hv). cbn [fst snd] in *. cbn [commits]. rewrite lookup_delete_eq.
    exists (match object_at fs p with Some _ => [Removed id p] | None => [] end). cbn [fst snd].
    split_and!; [done| | |].
    - destruct (object_at fs p) as [d|] eqn:Ho; [|done]. repeat constructor. destruct Hwho as [Ht|[_ Hok]].
      + unfold object_at, temp_path in Ho. rewrite Ht, temp_name_temp in Ho. by destruct (fs !! p) as [[]|].
      + apply Hok, Hn. cbn. by rewrite Ho.
    - split_and!; cbn [fst snd]; [by apply structured_delete| |]; intros x; rewrite object_delete.
      + case_bool_decide; [done|]. apply Hn.
      + rewrite view_app. destruct (object_at fs p) as [d|] eqn:Ho; cbn; rewrite <-Hv; [done|].
        case_bool_decide as Hx; [by subst x|done].
    - intros y x Hx Htx Hnx. rewrite lookup_delete_ne; [done|]. intros ->. destruct Hwho as [Ht|[Ht _]]; [congruence|].
      rewrite Ht in Htx; [done|]. by apply last_Some_elem_of. }
  destruct (node fs p) as [n|] eqn:Hnode; cbn [fst]; [|rewrite commit_same; by apply guar_same].
  destruct (decide (p = [])) as [->|Hp0].
  { cbn in Hnode. injection Hnode as <-. rewrite orb_true_r. cbn [fst]. rewrite commit_same. by apply guar_same. }
  rewrite node_some in Hnode by done. destruct n as [m|data m t|t].
  - destruct (occupied fs p) eqn:Ho; cbn [orb]; [rewrite commit_same; by apply guar_same|].
    rewrite bool_decide_eq_false_2 by done. cbn [fst]. eapply Hdel; [done..|]. intros x. by apply occupied_child.
  - cbn [fst]. eapply Hdel; [done..|]. intros x Hx Hx0. eapply structured_child; [apply Hi| | |done|done]; [by rewrite Hnode|done].
  - cbn [fst]. eapply Hdel; [done..|]. intros x Hx Hx0. eapply structured_child; [apply Hi| | |done|done]; [by rewrite Hnode|done].
Qed.

(** ** What an answer says *)
(** At one moment since [s] the name had this object, or none. *)
Definition seen (log : list Event) (s : nat) (q : list string) (o : option bytes) : Prop :=
  ∃ m, (s ≤ m ≤ length log)%nat ∧ view base (take m log) q = o.

Definition section (offset len : Z) (data : bytes) : bytes :=
  if len <? 0 then drop (Z.to_nat offset) data else slice offset len data.

(** An answer that is not a failure of the file system or of the key: an upload has
    stored what was read, whole, by one event since the operation began; a reader got
    what the name had at a moment since then, or learnt that it had nothing; a
    deletion saw the name without object. *)
Definition explained (log : list Event) (s : nat) (id : string) (req : Request) (reply : result RepoError Reply) : Prop :=
  match reply with
  | Ok rep =>
    ∃ q, objectKey (request_key req) = Ok q ∧
    match req, rep with
    | RPut _ r, RepSize n =>
      up_broken r = false ∧ n = Z.of_nat (length (concat (up_pieces r)))
      ∧ ∃ m, (s ≤ m)%nat ∧ log !! m = Some (Stored id q (concat (up_pieces r)))
    | RGet _, RepData d => seen log s q (Some d)
    | RGetRange _ offset len, RepData d => ∃ data, seen log s q (Some data) ∧ d = section offset len data
    | RStat key, RepInfo (Some i) => ∃ data, seen log s q (Some data) ∧ i = mkObjectInfo key (Z.of_nat (length data))
    | RStat _, RepInfo None => True
    | RDelete _, RepDone => seen log s q None
    | _, _ => False
    end
  | Err (ErrNotExist _) => ∃ q, objectKey (request_key req) = Ok q ∧ seen log s q None
  | Err _ => True
  end.

Lemma seen_app log es s q o : seen log s q o → seen (log ++ es) s q o.
Proof.
  intros (m & Hm & Hv). exists m. rewrite length_app, take_app_le by lia. split; [lia|done].
Qed.

Lemma explained_app log es s id req reply : explained log s id req reply → explained (log ++ es) s id req reply.
Proof.
  destruct reply as [rep|[]]; cbn; [|intros (q & ? & ?); exists q; split; [done|by apply seen_app]|done..].
  intros (q & Hq & H). exists q. split; [done|].
  destruct req, rep; try done; try (by apply seen_app).
  - destruct H as (? & ? & m & ? & ?). split_and!; [done..|]. exists m. split; [done|]. by apply lookup_app_l_Some.
  - destruct H as (d & ? & ?). exists d. split; [by apply seen_app|done].
  - destruct info; [|done]. destruct H as (d & ? & ?). exists d. split; [by apply seen_app|done].
Qed.

Lemma seen_now w s q : local_inv w → (s ≤ length w.2)%nat → seen w.2 s q (object_at w.1 q).
Proof. intros (_ & _ & Hv) Hs. exists (length w.2). rewrite take_ge by done. split; [lia|by rewrite Hv]. Qed.

Definition extends (w w' : World) : Prop := ∃ es, w'.2 = w.2 ++ es.

Lemma extends_trans w1 w2 w3 : extends w1 w2 → extends w2 w3 → extends w1 w3.
Proof. intros [es1 E1] [es2 E2]. exists (es1 ++ es2). by rewrite E2, E1, app_assoc. Qed.

Lemma rely_extends id w w' : rely id w w' → extends w w'.
Proof. intros (es & E & _). by exists es. Qed.

Lemma extends_length w w' : extends w w' → (length w.2 ≤ length w'.2)%nat.
Proof. intros [es ->]. rewrite length_app. lia. Qed.

Lemma wp_log {A : Type} (id : string) (req : Request) (p : Prog A) (Q : A → World → Prop) (w : World) :
  wp id req p Q w → wp id req p (λ a w', Q a w' ∧ extends w w') w.
Proof.
  revert w. induction p as [a|X c k IH]; cbn; intros w H.
  - intros w' Hr. split; [by apply H|by eapply rely_extends].
  - intros w' fault Hr. specialize (H w' fault Hr). destruct (act fault c w'.1) as [fs' r].
    destruct H as [Hg H]. split; [done|]. eapply wp_mono; [|exact (IH r _ H)]. intros a w2 [HQ He].
    split; [done|]. eapply extends_trans; [by eapply rely_extends|]. eapply extends_trans; [|exact He].
    by eexists.
Qed.

Lemma wp_job_bind {A B : Type} (id : string) (req : Request) (p : Job A) (f : A → Job B) (Q : result RepoError B → World → Prop) (w : World) :
  wp id req p (λ r w', match r with
    | Ok a => extends w w' → wp id req (f a) Q w'
    | Err e => ∀ w2, rely id w' w2 → Q (Err e) w2 end) w →
  wp id req (p ≫= f) Q w.
Proof.
  intros H. apply wp_bind. eapply wp_mono; [|apply wp_log, H]. intros [a|e] w' [H' He]; [by apply H'|exact H'].
Qed.

(** ** Calls at a name *)
Lemma wp_at {A X : Type} (id : string) (req : Request) (c : RootCall X) (q : list string) (P : option bytes → X → Prop) (k : result SysError X → Prog A) (Q : A → World → Prop) (w : World) :
  match c with CSync _ | CClose _ | CLstat _ | CStat _ | COpen _ | CReadDir _ => True | _ => False end →
  (∀ fs, structured fs → match (serve c fs).2 with Ok x => P (object_at fs q) x | Err e => e = ENOENT → object_at fs q = None end) →
  (∀ w' x, rely id w w' → P (object_at w'.1 q) x → wp id req (k (Ok x)) Q w') →
  (∀ w' e, rely id w w' → (e = ENOENT → object_at w'.1 q = None) → wp id req (k (Err e)) Q w') →
  wp id req (Act c k) Q w.
Proof.
  intros Hc Ha Hok Herr. apply wp_look; [done|]. intros w' r Hr Hres.
  specialize (Ha w'.1 (proj1 (rely_inv _ _ _ Hr))). destruct Hres as [->| ->]; [|by apply Herr].
  destruct (serve c w'.1).2 as [x|e]; [by apply Hok|by apply Herr].
Qed.

Lemma object_none fs q : node fs q = None → object_at fs q = None.
Proof. unfold object_at. destruct q; [done|]. cbn. by intros ->. Qed.

Lemma lstat_at fs q : structured fs → Forall normal q →
  match (serve (CLstat q) fs).2 with Ok _ => True | Err e => e = ENOENT → object_at fs q = None end.
Proof.
  intros Hs Hq. cbn [serve]. rewrite at_path_here by done. cbn [snd].
  destruct (node fs q) eqn:Hn; [done|]. intros _. by apply object_none.
Qed.

Lemma stat_at fs q : structured fs → Forall normal q → temp_path q = false →
  match (serve (CStat q) fs).2 with
  | Ok n => match n with FFile data _ _ => object_at fs q = Some data | _ => True end
  | Err e => e = ENOENT → object_at fs q = None
  end.
Proof.
  intros Hs Hq Ht. cbn [serve]. rewrite at_path_here by done. cbn [snd].
  destruct (node fs q) as [n|] eqn:Hn; [|intros _; by apply object_none].
  destruct n; [done| |done]. unfold object_at. destruct q; [done|]. cbn in Hn. by rewrite Hn, Ht.
Qed.

Lemma open_at fs q : structured fs → Forall normal q → temp_path q = false →
  match (serve (COpen q) fs).2 with Ok data => object_at fs q = Some data | Err e => e = ENOENT → object_at fs q = None end.
Proof.
  intros Hs Hq Ht. cbn [serve]. rewrite at_path_here by done. cbn [snd].
  destruct (node fs q) as [n|] eqn:Hn; [|intros _; by apply object_none].
  destruct n; [done| |done]. unfold object_at. destruct q; [done|]. cbn in Hn. by rewrite Hn, Ht.
Qed.

Section Operation.
Context (id : string) (req : Request) (q : list string) (s : nat).
Hypothesis names_plain : ∀ q c, names q = true → c ∈ q → is_temp c = false.
Hypothesis names_free : ∀ q q', names q = true → names q' = true → prefix_of q q' → q = q'.
Hypothesis Hkey : objectKey (request_key req) = Ok q.
Hypothesis Hnames : names q = true.

Abbreviation Qend := (λ (r : result RepoError Reply) (w : World), explained w.2 s id req r).

Lemma key_normal : Forall normal q.
Proof. by eapply objectKey_normal. Qed.
Lemma key_temp : temp_path q = false.
Proof. apply names_not_temp. intros c. by apply names_plain. Qed.

Lemma wp_end r (w : World) : explained w.2 s id req r → wp id req (Ret r) Qend w.
Proof. intros He w' (es & -> & _). by apply explained_app. Qed.

(** What a reading gives before it becomes an answer. *)
Definition read_post {X : Type} (P : option bytes → X → Prop) (r : result RepoError X) (w : World) : Prop :=
  match r with Ok x => ∃ o, seen w.2 s q o ∧ P o x | Err e => explained w.2 s id req (Err e) end.

Lemma wp_read {X : Type} (P : option bytes → X → Prop) r (w : World) : read_post P r w → wp id req (Ret r) (read_post P) w.
Proof.
  intros He w' (es & E & _). unfold read_post in *. rewrite E.
  destruct r; [|by apply explained_app]. destruct He as (o & ? & ?). exists o. split; [by apply seen_app|done].
Qed.

Lemma wp_absent {X : Type} (P : option bytes → X → Prop) (w w' : World) e :
  (s ≤ length w.2)%nat → rely id w w' → (e = ENOENT → object_at w'.1 q = None) →
  wp id req (Ret (Err (absent (request_key req) e))) (read_post P) w'.
Proof.
  intros Hs Hr He. apply wp_read. unfold absent. case_bool_decide as H; [|done]. cbn. exists q. split; [done|].
  rewrite <-(He H). apply seen_now; [by eapply rely_inv|]. pose proof (extends_length _ _ (rely_extends _ _ _ Hr)). lia.
Qed.

(** Looking for a link, then the call itself. *)
Lemma read_wp {X Y : Type} (c : RootCall X) (k : result SysError X → Job Y) (f : X → Y) (P : option bytes → Y → Prop) (w : World) :
  match c with CStat _ | COpen _ => True | _ => False end →
  (∀ x, k (Ok x) = Ret (Ok (f x))) → (∀ e, k (Err e) = Ret (Err (absent (request_key req) e))) →
  (∀ fs, structured fs → match (serve c fs).2 with Ok x => P (object_at fs q) (f x) | Err e => e = ENOENT → object_at fs q = None end) →
  (s ≤ length w.2)%nat →
  wp id req (rejectSymlink (request_key req) q ;; Act c k) (read_post P) w.
Proof.
  intros Hc Hok Herr Ha Hs. unfold rejectSymlink, root_call. run_job.
  eapply (wp_at id req (CLstat q) q (λ _ _, True)); [done|intros fs Hfs; apply lstat_at; [done|apply key_normal]| |intros w' e Hr He; by eapply wp_absent].
  intros w1 n Hr1 _. pose proof (extends_length _ _ (rely_extends _ _ _ Hr1)) as H1.
  destruct n; [| |by apply wp_read].
  all: run_job; eapply (wp_at id req c q (λ o x, P o (f x)));
    [by destruct c|done| |intros w' e Hr He; rewrite Herr; eapply (wp_absent P w1); [lia|done..]].
  all: intros w2 x Hr2 HP; pose proof (extends_length _ _ (rely_extends _ _ _ Hr2)); rewrite Hok; apply wp_read;
    eexists; split; [apply seen_now; [by eapply rely_inv|lia]|done].
Qed.

(** ... and the answer made from it. *)
Lemma reply_wp {X : Type} (p : Job X) (P : option bytes → X → Prop) (f : X → Reply) (w : World) :
  wp id req p (read_post P) w → (∀ o x log, seen log s q o → P o x → explained log s id req (Ok (f x))) →
  wp id req (x ← p ; mret (f x)) Qend w.
Proof.
  intros Hp Hf. apply wp_job_bind. eapply wp_mono; [|exact Hp]. intros [x|e] w' H; cbn in H.
  - intros _. destruct H as (o & Hs & HP). apply wp_end. by eapply Hf.
  - intros w2 (es & -> & _). by apply explained_app.
Qed.

Lemma get_wp (w : World) : req = RGet (request_key req) → (s ≤ length w.2)%nat → wp id req (job_of id req) Qend w.
Proof.
  intros Hreq Hs. rewrite Hreq at 2. cbn [job_of]. unfold local_Get, root_call. rewrite Hkey. run_job.
  apply (reply_wp _ (λ o d, o = Some d)).
  - eapply (read_wp _ _ (λ x, x)); [done..| |done]. intros fs Hfs. apply open_at; [done|apply key_normal|apply key_temp].
  - intros o d l Ho ->. exists q. split; [done|]. by rewrite Hreq.
Qed.

Lemma get_range_wp offset len (w : World) :
  req = RGetRange (request_key req) offset len → (s ≤ length w.2)%nat → wp id req (job_of id req) Qend w.
Proof.
  intros Hreq Hs. rewrite Hreq at 2. cbn [job_of]. unfold local_GetRange, root_call. rewrite Hkey. run_job.
  apply (reply_wp _ (λ o d, ∃ data, o = Some data ∧ d = section offset len data)).
  - eapply (read_wp _ _ (section offset len)); [done..| |done].
    intros fs Hfs. pose proof (open_at fs q Hfs key_normal key_temp). destruct (serve _ _).2; [by eexists|done].
  - intros o d l Ho (data & -> & ->). exists q. split; [done|]. rewrite Hreq. by exists data.
Qed.

Lemma stat_wp (w : World) : req = RStat (request_key req) → (s ≤ length w.2)%nat → wp id req (job_of id req) Qend w.
Proof.
  intros Hreq Hs. rewrite Hreq at 2. cbn [job_of]. unfold local_Stat, root_call. rewrite Hkey. run_job.
  apply (reply_wp _ (λ o i, match i with
    | Some i => ∃ data, o = Some data ∧ i = mkObjectInfo (request_key req) (Z.of_nat (length data)) | None => True end)).
  - eapply read_wp; [done|done|done| |done].
    intros fs Hfs. pose proof (stat_at fs q Hfs key_normal key_temp) as H. destruct (serve _ _).2 as [n|]; [|done].
    destruct n; [done| |done]. by eexists.
  - intros o i l Ho Hi. exists q. split; [done|]. rewrite Hreq. destruct i as [i|]; [|done].
    destruct Hi as (data & -> & ->). by exists data.
Qed.

(** ** Deleting *)
Lemma prune_wp n dir (w : World) :
  Forall normal dir → (∀ p, prefix_of p dir → names p = false) → (∀ c, c ∈ dir → is_temp c = false) →
  wp id req (prune_dirs n dir) (λ r _, r = Ok ()) w.
Proof.
  revert dir w. induction n as [|n IH]; intros dir w Hn Hfree Ht; cbn [prune_dirs]; [done|].
  case_bool_decide; [done|]. run_job. apply wp_look; [done|]. intros w1 r Hr1 _. run_job.
  destruct r as [[|]|]; [|done..]. run_job. apply wp_act. intros w2 fault fs' r Hr2 Ha.
  pose proof (rely_inv _ _ _ Hr2) as Hi. split.
  - eapply keeps_act; [done|done| |exact Ha]. apply remove_keeps; [done|done|]. right. split; [done|].
    intros H1. rewrite Hfree in H1; [done|]. exists []. by rewrite app_nil_r.
  - destruct r; [|done]. apply IH; [by apply Forall_removelast| |].
    + intros p [rest Hp]. apply Hfree. destruct (removelast_is_prefix dir) as [rest' Hd].
      exists (rest ++ rest'). by rewrite app_assoc, <-Hp.
    + intros c Hc. apply Ht. destruct (removelast_is_prefix dir) as [rest' Hd]. rewrite Hd. set_solver.
Qed.

Lemma parent_free p : prefix_of p (removelast q) → names p = false.
Proof.
  intros [rest Hp]. destruct (names p) eqn:Hn; [|done]. exfalso.
  assert (q ≠ []) as Hq by (by eapply objectKey_normal).
  destruct (exists_last Hq) as (l & x & Hqx). rewrite Hqx, removelast_last in Hp.
  assert (p = q) as Heq. { apply names_free; [done|done|]. exists (rest ++ [x]). by rewrite Hqx, Hp, app_assoc. }
  rewrite Heq, Hqx in Hp. apply (f_equal length) in Hp. rewrite !length_app in Hp. cbn in Hp. lia.
Qed.

Lemma parent_plain c : c ∈ removelast q → is_temp c = false.
Proof.
  intros Hc. apply (names_plain q); [done|]. destruct (removelast_is_prefix q) as [r ->]. set_solver.
Qed.

Lemma remove_gone fs fs' r : structured fs → serve (CRemove q) fs = (fs', r) → r = Ok () ∨ r = Err ENOENT → object_at fs' q = None.
Proof.
  intros Hs. cbn [serve]. rewrite at_path_here by (done || apply key_normal).
  destruct (node fs q) as [[]|] eqn:Hn; [case_match| | |]; intros [= <- <-] [[=]|[=]];
    try (rewrite object_delete; by rewrite bool_decide_eq_true_2). by apply object_none.
Qed.

Lemma delete_wp (w : World) : req = RDelete (request_key req) → (s ≤ length w.2)%nat → wp id req (job_of id req) Qend w.
Proof.
  intros Hreq Hs. rewrite Hreq at 2. cbn [job_of]. unfold local_Delete. rewrite Hkey. run_job.
  apply wp_act. intros w1 fault fs' r Hr1 Ha. pose proof (rely_inv _ _ _ Hr1) as Hi.
  assert (keeps id req (CRemove q) w1 fs') as Hk.
  { eapply keeps_act; [done|done| |exact Ha]. apply remove_keeps; [done|apply key_normal|]. right.
    split; [intros c; by apply names_plain|]. intros _. rewrite Hreq. done. }
  split; [done|]. pose proof (extends_length _ _ (rely_extends _ _ _ Hr1)) as H1.
  set (w2 := (fs', w1.2 ++ commits id (CRemove q) w1.1 fs') : World) in *.
  assert (r = Ok () ∨ r = Err ENOENT → seen w2.2 s q None) as Hgone.
  { intros Hr. destruct fault as [n|]; [cbn in Ha; injection Ha as _ <-; naive_solver|].
    rewrite <-(remove_gone w1.1 fs' r); [|apply Hi|done|done].
    apply (seen_now w2); [by eapply guar_inv|]. cbn. rewrite length_app. lia. }
  assert (r = Ok () ∨ r = Err ENOENT → wp id req (pruneEmptyDirs (removelast q) ;; mret RepDone) Qend w2) as Hprune.
  { intros Hr. apply wp_job_bind. eapply wp_mono; [|apply wp_log, prune_wp].
    - intros [[]|e] w3 [He Hx]; [|done]. intros _. apply wp_end. exists q. split; [done|]. rewrite Hreq.
      destruct Hx as [es ->]. by apply seen_app, Hgone.
    - apply Forall_removelast, key_normal.
    - apply parent_free.
    - apply parent_plain. }
  destruct r as [[]|e]; [by apply Hprune; left|].
  destruct e; try (by apply wp_end). by apply Hprune; right.
Qed.

(** ** Uploading *)
Hypothesis Hid : all_chars no_slash id = true.
Abbreviation tmp := (removelast q ++ [temp_name id]).

Lemma tmp_last : last tmp = Some (temp_name id).
Proof. by rewrite last_snoc. Qed.

Lemma tmp_normal : Forall normal tmp.
Proof.
  apply Forall_app. split; [apply Forall_removelast, key_normal|]. repeat constructor; by apply temp_name_normal.
Qed.

Lemma mkdir_all_wp cur todo (w : World) :
  Forall normal (cur ++ todo) → Forall (λ c, is_temp c = false) (cur ++ todo) →
  wp id req (mkdir_all cur todo) (λ r _, r = Ok () ∨ r = Err (RepoFailure "file system")) w.
Proof.
  revert cur w. induction todo as [|c todo IH]; intros cur w Hn Ht; [by left|]. cbn [mkdir_all]. unfold root_call. run_job.
  rewrite (assoc_L (++) cur [c] todo : cur ++ c :: todo = _) in Hn, Ht.
  apply wp_act. intros w1 fault fs' r Hr Ha. pose proof (rely_inv _ _ _ Hr) as Hi. split.
  - eapply keeps_act; [done|done| |exact Ha]. apply mkdir_keeps; [done|by apply Forall_app in Hn as [? _]|by apply Forall_app in Ht as [? _]].
  - destruct r as [[]|e]; [by apply IH|]. intros w2 _. by right.
Qed.

(** The file being written is the operation's own. *)
Definition writing (content : bytes) (w : World) : Prop := ∃ m t, w.1 !! tmp = Some (FFile content m t).

Lemma writing_rely content w w' : writing content w → rely id w w' → writing content w'.
Proof. intros (m & t & Hw) (_ & _ & _ & Ht). exists m, t. by rewrite Ht; [|apply tmp_last]. Qed.

Lemma copy_to_wp pieces n content (w : World) :
  writing content w →
  wp id req (copy_to tmp pieces n)
    (λ r w, match r with
     | Ok n' => n' = n + Z.of_nat (length (concat pieces)) ∧ writing (content ++ concat pieces) w
     | Err e => e = RepoFailure "file system" end) w.
Proof.
  revert n content w. induction pieces as [|d pieces IH]; intros n content w Hw; cbn [copy_to].
  - intros w' Hr. cbn. rewrite app_nil_r. split; [lia|by eapply writing_rely].
  - unfold root_call. run_job. apply wp_act. intros w1 fault fs' r Hr Ha.
    pose proof (writing_rely _ _ _ Hw Hr) as (m & t & Hlk). split.
    + eapply write_act_keeps; [by eapply rely_inv|apply tmp_last|exact Ha].
    + destruct fault as [k|]; [cbn in Ha; by injection Ha as _ <-|].
      cbn [act serve] in Ha. rewrite Hlk in Ha. injection Ha as <- <-. cbn [map_err].
      eapply wp_mono; [|apply (IH _ (content ++ d))].
      * intros [n'|e] w2; [|done]. intros [-> Hw2]. cbn [concat]. rewrite length_app, app_assoc. split; [lia|done].
      * exists m, t. cbn [fst]. by rewrite lookup_insert_eq.
Qed.

Lemma rename_served fs fs' : structured fs → serve (CRename tmp q) fs = (fs', Ok ()) →
  ∃ data m t, fs !! tmp = Some (FFile data m t) ∧ fs' !! tmp = None.
Proof.
  intros Hs. assert (q ≠ tmp) as Hne. { intros Heq. pose proof key_temp as H. unfold temp_path in H. by rewrite Heq, tmp_last, temp_name_temp in H. }
  cbn [serve]. rewrite !at_path_here by (done || apply key_normal || apply tmp_normal).
  destruct (fs !! tmp) as [[|data m t|]|] eqn:Hlk; try done. case_match; [done|]. case_match; [|done].
  intros [= <-]. exists data, m, t. split; [done|]. by rewrite lookup_insert_ne, lookup_delete_eq.
Qed.

Definition stored (r : Upload) (n : Z) (w : World) : Prop :=
  up_broken r = false ∧ n = Z.of_nat (length (concat (up_pieces r)))
  ∧ ∃ m, (s ≤ m)%nat ∧ w.2 !! m = Some (Stored id q (concat (up_pieces r))).

Lemma stored_extends r n w w' : stored r n w → extends w w' → stored r n w'.
Proof. intros (? & ? & m & ? & ?) [es E]. split_and!; [done..|]. exists m. rewrite E. split; [done|]. by apply lookup_app_l_Some. Qed.

Lemma publish_wp key r (w : World) :
  req = RPut key r → (s ≤ length w.2)%nat → writing [] w →
  wp id req (publish tmp q r) (λ out w, match out with Ok n => stored r n w | Err e => e = RepoFailure "file system" ∨ e = RepoFailure "reader" end) w.
Proof.
  intros Hreq Hs Hw. unfold publish. apply wp_job_bind. eapply wp_mono; [|by apply (copy_to_wp _ _ [])].
  intros [n|e] w1; cbn beta iota; [|by auto]. intros [-> Hw1] He1. destruct (up_broken r) eqn:Hb; [by intros ? _; right|].
  unfold root_call. run_job. apply wp_look; [done|]. intros w2 r2 Hr2 _. destruct r2 as [[]|]; [|by intros ? _; left]. run_job.
  apply wp_look; [done|]. intros w3 r3 Hr3 _. destruct r3 as [[]|]; [|by intros ? _; left]. run_job.
  apply wp_act. intros w4 fault fs' r4 Hr4 Ha.
  pose proof (rely_trans _ _ _ _ (rely_trans _ _ _ _ Hr2 Hr3) Hr4) as Hr. pose proof (rely_inv _ _ _ Hr) as Hi.
  pose proof (writing_rely _ _ _ Hw1 Hr) as (m & t & Hlk). cbn [app] in Hlk.
  assert (length w.2 ≤ length w4.2)%nat as Hlen.
  { eapply extends_length, extends_trans; [exact He1|by eapply rely_extends]. }
  split.
  - eapply keeps_act; [done|done| |exact Ha]. apply rename_keeps; [done|apply tmp_normal|apply key_normal|done| |apply tmp_last|].
    + intros c. by apply names_plain.
    + intros data m' t' Hlk'. rewrite Hreq. rewrite Hlk in Hlk'. injection Hlk' as <- _ _.
      split_and!; [done| |done|done]. by rewrite Hreq in Hkey.
  - destruct fault as [k|]; [cbn in Ha; injection Ha as _ <-; by intros ? _; left|]. cbn [act] in Ha.
    destruct r4 as [[]|]; [|by intros ? _; left]. run_job. intros w5 Hr5.
    apply (stored_extends _ _ (fs', w4.2 ++ commits id (CRename tmp q) w4.1 fs')); [|by eapply rely_extends].
    apply rename_served in Ha as (data & m' & t' & Hlk' & Hgone); [|apply Hi].
    rewrite Hlk in Hlk'. injection Hlk' as <- _ _. split_and!; [done|lia|]. exists (length w4.2). split; [lia|].
    cbn [snd commits]. rewrite Hlk, Hgone. by apply list_lookup_middle.
Qed.

Lemma local_Put_wp r (w : World) :
  req = RPut (request_key req) r → (s ≤ length w.2)%nat →
  wp id req (local_Put id (request_key req) r)
    (λ out w, match out with Ok n => stored r n w | Err (ErrNotExist _) => False | Err _ => True end) w.
Proof.
  intros Hreq Hs. unfold local_Put. rewrite Hkey. run_job. apply wp_job_bind.
  eapply wp_mono; [|apply (mkdir_all_wp [] (removelast q))].
  2: apply Forall_removelast, key_normal.
  2: apply Forall_forall, parent_plain.
  intros out w1 [->| ->]; [intros He1; pose proof (extends_length _ _ He1)|done].
  apply wp_act. intros w2 fault fs' r2 Hr2 Ha.
  pose proof (rely_inv _ _ _ Hr2) as Hi. pose proof (extends_length _ _ (rely_extends _ _ _ Hr2)).
  split. { eapply keeps_act; [done|done| |exact Ha]. apply create_keeps; [done|apply tmp_normal|apply tmp_last]. }
  destruct fault as [k|]; [cbn in Ha; injection Ha as _ <-; by intros|]. cbn [act] in Ha.
  destruct r2 as [[]|e]; [|by intros]. cbn [map_err].
  apply wp_job_bind, wp_bind. eapply wp_mono; [|apply (publish_wp _ _ _ Hreq)].
  - intros [n|e] w3 Hout; [intros w4 Hr4 _ w5 Hr5; cbn|].
    + eapply stored_extends; [exact Hout|]. by eapply rely_extends, rely_trans.
    + intros w4 Hr4 _. run_job. apply wp_look; [done|]. intros w5 r5 Hr5 _. run_job.
      apply wp_act. intros w6 fault6 fs6 r6 Hr6 Ha6. pose proof (rely_inv _ _ _ Hr6). split.
      * eapply keeps_act; [done|done| |exact Ha6]. apply remove_keeps; [done|apply tmp_normal|left; apply tmp_last].
      * intros w7 _. by destruct Hout as [->| ->].
  - cbn [snd]. rewrite length_app. lia.
  - cbn [serve] in Ha. rewrite at_path_here in Ha by (apply Hi || apply tmp_normal).
    destruct (node w2.1 tmp); [done|]. unfold new_node in Ha. case_match; [|done]. injection Ha as <-.
    exists 384, 0. cbn [fst]. by rewrite lookup_insert_eq.
Qed.

Lemma put_wp r (w : World) : req = RPut (request_key req) r → (s ≤ length w.2)%nat → wp id req (job_of id req) Qend w.
Proof.
  intros Hreq Hs. rewrite Hreq at 2. cbn [job_of]. apply wp_job_bind. eapply wp_mono; [|by apply local_Put_wp].
  intros [n|e] w' H; cbn in H.
  - intros _. apply wp_end. exists q. split; [done|]. by rewrite Hreq.
  - intros w2 _. by destruct e.
Qed.
End Operation.

(** ** Every operation *)
Hypothesis names_plain : ∀ q c, names q = true → c ∈ q → is_temp c = false.
Hypothesis names_free : ∀ q q', names q = true → names q' = true → prefix_of q q' → q = q'.

Lemma bad_key key e : objectKey key = Err e → match e with ErrNotExist _ => False | _ => True end.
Proof. unfold objectKey, local_key. repeat case_match; cbn; try (by intros [= <-]); case_match; by intros [= <-]. Qed.

Lemma job_wp id req (w : World) :
  all_chars no_slash id = true → allowed names req = true →
  wp id req (job_of id req) (λ r w', explained w'.2 (length w.2) id req r) w.
Proof.
  intros Hid Hal. unfold allowed in Hal. destruct (objectKey (request_key req)) as [q|e] eqn:Hkey.
  - destruct req; [eapply put_wp|eapply get_wp|eapply get_range_wp|eapply stat_wp|eapply delete_wp]; done.
  - assert (job_of id req = Ret (Err e)) as ->.
    { destruct req; cbn [request_key] in Hkey; cbn [job_of];
        unfold local_Put, local_Get, local_GetRange, local_Stat, local_Delete; by rewrite Hkey. }
    intros w' _. apply bad_key in Hkey. by destruct e.
Qed.

(** * The whole *)
Definition sys_inv (s : LocalSys) : Prop :=
  local_inv (files s, log s)
  ∧ (∀ id cl, running s !! id = Some cl → ∃ req, asked s !! id = Some req
      ∧ wp id req (cl_prog cl) (λ r w, explained w.2 (cl_start cl) id req r) (files s, log s))
  ∧ (∀ e, e ∈ log s → ∃ id req, asked s !! id = Some req ∧ ok_event id req e)
  ∧ (∀ o, o ∈ ended s → ∃ req, asked s !! oc_id o = Some req ∧ (oc_stop o ≤ length (log s))%nat
      ∧ explained (take (oc_stop o) (log s)) (oc_start o) (oc_id o) req (oc_reply o)).

Lemma turn_inv t s : sys_inv s → sys_inv (turn names t s).
Proof.
  intros (Hi & Hrun & Hlog & Hend). destruct t as [id req|id fault|id]; cbn [turn].
  - case_bool_decide as Hnew; [|done]. destruct (all_chars no_slash id) eqn:Hid; [|done].
    destruct (allowed names req) eqn:Hal; [|done]. cbn [andb].
    assert (∀ i r, asked s !! i = Some r → <[id := req]> (asked s) !! i = Some r) as Hold.
    { intros i r Hr. rewrite lookup_insert_ne; [done|congruence]. }
    split_and!; cbn; [done| | |].
    + intros i cl Hcl. apply lookup_insert_Some in Hcl as [[<- <-]|[Hne Hcl]].
      * exists req. split; [by rewrite lookup_insert_eq|]. by apply (job_wp id req (files s, log s)).
      * destruct (Hrun _ _ Hcl) as (r & Hr & Hwp). exists r. auto.
    + intros e He. destruct (Hlog e He) as (i & r & ? & ?). eauto.
    + intros o Ho. destruct (Hend o Ho) as (r & ? & ? & ?). eauto.
  - destruct (running s !! id) as [[start p]|] eqn:Hcl; [|done].
    destruct (Hrun _ _ Hcl) as (req & Hreq & Hwp). cbn in Hwp. destruct p as [r|X c k].
    + split_and!; cbn; [done| |done|].
      * intros i cl' Hcl'. apply lookup_delete_Some in Hcl' as [_ ?]. by apply Hrun.
      * intros o [Ho|Ho%list_elem_of_singleton]%elem_of_app; [by apply Hend|subst o]. cbn.
        exists req. split_and!; [done|done|]. rewrite take_ge by done. by apply (Hwp (files s, log s)), rely_refl.
    + specialize (Hwp _ fault (rely_refl id (files s, log s) Hi)). cbn in Hwp.
      destruct (act fault c (files s)) as [fs' r] eqn:Ha. destruct Hwp as [Hg Hwp].
      pose proof Hg as (es & Hes & Hok & Hi' & _). cbn in Hes. apply app_inv_head in Hes. rewrite Hes in *.
      split_and!; cbn; [done| | |].
      * intros i cl' Hcl'. apply lookup_insert_Some in Hcl' as [[<- <-]|[Hne Hcl']]; [by exists req|].
        destruct (Hrun _ _ Hcl') as (r' & Hr' & Hwp'). exists r'. split; [done|].
        eapply wp_later; [exact Hwp'|]. by eapply guar_rely.
      * intros e [He|He]%elem_of_app; [by apply Hlog|]. exists id, req. rewrite Forall_forall in Hok. auto.
      * intros o Ho. destruct (Hend o Ho) as (r' & ? & ? & ?). exists r'. rewrite length_app, take_app_le by done.
        split_and!; [done|lia|done].
  - split_and!; cbn; [done| |done|done]. intros i cl Hcl. apply lookup_delete_Some in Hcl as [_ ?]. by apply Hrun.
Qed.
End Reasoning.

(** C13. A repository in a directory is a plain map, whatever the order in which the
    calls of its uploads, readings and deletions come, whichever of the calls fail and
    wherever operations stop: the objects in the directory are those of a map from
    keys, into which an event puts the whole content of an upload that did not break
    off, or from which it takes a key whose deletion was asked for; an upload that is
    acknowledged has made its event since it began and reports the size; a reader gets
    what the map had at a moment between its beginning and its end, or is told that
    there was nothing at such a moment; a deletion that reports success saw its key
    without object. That no key is the directory of another, and that no part of a key
    looks like a temporary file, is assumed of the keys, and of the directory that it
    has no links; a loss of power is not modelled. *)
Theorem directory_is_a_map (names : list string → bool) (fs : FileSys) (ts : list Turn)
    (Hplain : ∀ q c, names q = true → c ∈ q → is_temp c = false)
    (Hfree : ∀ q q', names q = true → names q' = true → prefix_of q q' → q = q')
    (Hfs : structured fs) (Hobjects : ∀ q, object_at fs q ≠ None → names q = true) :
  let s := turns names ts (local_start fs) in
  (∀ q, object_at (files s) q = view (object_at fs) (log s) q)
  ∧ (∀ e, e ∈ log s → ∃ id req, asked s !! id = Some req ∧ ok_event id req e)
  ∧ (∀ o, o ∈ ended s → ∃ req, asked s !! oc_id o = Some req
      ∧ explained (object_at fs) (take (oc_stop o) (log s)) (oc_start o) (oc_id o) req (oc_reply o)).
Proof.
  assert (sys_inv names (object_at fs) (local_start fs)) as Hstart.
  { split_and!; [by split_and!|intros i cl Hcl; cbn in Hcl; by rewrite lookup_empty in Hcl|by intros e He%elem_of_nil|by intros o Ho%elem_of_nil]. }
  assert (sys_inv names (object_at fs) (turns names ts (local_start fs))) as ((_ & _ & Hv) & _ & Hlog & Hend).
  { revert Hstart. generalize (local_start fs). unfold turns.
    induction ts as [|t ts IH]; intros s Hs; [done|]. apply IH, turn_inv; done. }
  intros s. split_and!; [done|done|]. intros o Ho. destruct (Hend o Ho) as (req & ? & _ & ?). by exists req.
Qed.

(** * An example *)
(** Objects are two levels deep. A reader before and one after the rename of an
    upload; an upload that breaks off, and one that stops with the process. *)
Definition two_levels (q : list string) : bool :=
  bool_decide (length q = 2%nat) && forallb (λ c, negb (is_temp c)) q.

Definition disk_before : FileSys := <[["vm"; "disk"] := FFile ["a"%byte] 384 0]> (<[["vm"] := FDir 488]> ∅).

Definition busy_day : list Turn :=
  let steps id n := repeat (Advance id None) (Z.to_nat n) in
  [Begin "u1" (RPut "vm/disk" (mkUpload [["b"%byte]; ["c"%byte; "d"%byte]] false)); Begin "g1" (RGet "vm/disk")]
  ++ steps "u1" 6 ++ steps "g1" 3
  ++ [Begin "u2" (RPut "vm/new" (mkUpload [["e"%byte]] true)); Begin "g2" (RGetRange "x/../vm/./disk" 0 1); Begin "g3" (RGetRange "vm/disk" 1 (-1))]
  ++ steps "u2" 5 ++ steps "u1" 2 ++ [Begin "u3" (RPut "vm/disk" (mkUpload [["f"%byte]] false))] ++ steps "u3" 3 ++ [Die "u3"]
  ++ steps "g3" 3 ++ steps "g2" 3 ++ steps "u2" 2
  ++ [Begin "d1" (RDelete "vm/disk"); Begin "s1" (RStat "vm/disk")] ++ steps "s1" 1 ++ steps "d1" 4 ++ steps "s1" 2.

Lemma two_levels_plain q c : two_levels q = true → c ∈ q → is_temp c = false.
Proof.
  intros [_ Hq]%andb_true_iff Hc. apply negb_true_iff. apply (proj1 (forallb_forall _ _) Hq). by apply list_elem_of_In.
Qed.

Lemma two_levels_free q q' : two_levels q = true → two_levels q' = true → prefix_of q q' → q = q'.
Proof.
  intros [Hq%bool_decide_eq_true _]%andb_true_iff [Hq'%bool_decide_eq_true _]%andb_true_iff [rest ->].
  rewrite length_app in Hq'. destruct rest; [by rewrite app_nil_r|cbn in Hq'; lia].
Qed.

Lemma disk_before_structured : structured disk_before.
Proof.
  unfold disk_before. apply structured_insert; [apply structured_insert| | | |]; try done.
Qed.

Lemma disk_before_objects q : object_at disk_before q ≠ None → two_levels q = true.
Proof.
  unfold disk_before. rewrite !object_insert. case_bool_decide as Hq; [by subst q|]. case_bool_decide; [done|].
  unfold object_at. by rewrite lookup_empty.
Qed.

Lemma directory_is_a_map_witness :
  let s := turns two_levels busy_day (local_start disk_before) in
  (log s = [Stored "u1" ["vm"; "disk"] ["b"%byte; "c"%byte; "d"%byte]; Removed "d1" ["vm"; "disk"]]
   ∧ map oc_id (ended s) = ["g1"; "u1"; "g3"; "g2"; "u2"; "d1"; "s1"]
   ∧ map oc_reply (ended s) =
     [Ok (RepData ["a"%byte]); Ok (RepSize 3); Ok (RepData ["c"%byte; "d"%byte]); Ok (RepData ["b"%byte]);
      Err (RepoFailure "reader"); Ok RepDone; Err (ErrNotExist "vm/disk")])
  ∧ (∀ q, object_at (files s) q = view (object_at disk_before) (log s) q)
  ∧ (∀ e, e ∈ log s → ∃ id req, asked s !! id = Some req ∧ ok_event id req e)
  ∧ (∀ o, o ∈ ended s → ∃ req, asked s !! oc_id o = Some req
      ∧ explained (object_at disk_before) (take (oc_stop o) (log s)) (oc_start o) (oc_id o) req (oc_reply o)).
Proof.
  intros s. split; [vm_compute; split_and!; reflexivity|].
  exact (directory_is_a_map two_levels disk_before busy_day two_levels_plain two_levels_free
    disk_before_structured disk_before_objects).
Defined.
