(* ===== verification/Transfers.v ===== *)
(** Migrations of machines between two oVirt engines ([model/vm_transfer.go],
    [store/vm_transfers.go]): the record of a migration, its table, and what the
    service asks of the world outside.

    Everything outside - the two engines, the backup engine, the inventory, the
    clock, the cancellation of the context - answers calls of the type [Call];
    what answers is arbitrary. Each call is kept with its answer in a trace. The
    process may stop before any call and any statement: [sv_life] counts how many
    are left, and with none left every further one fails with [Crashed]. Texts,
    progress for the display and the history of events are left out. *)

From S2P Require Import Prelude StateM GoTime.

(** * Data *)
Inductive VMDesiredState := DesiredAsIs | DesiredUp | DesiredDown.

Record RestoreVMNetworkMapping := mkNetworkMapping {
  nm_NICID : string; nm_TargetID : string; nm_TargetKind : string; nm_Exclude : bool; nm_Connected : bool
}.

Record VMTransferRequest := mkTransferRequest {
  tq_SourceServerID : string;
  tq_SourceVMID : string;
  tq_TargetServerID : string;
  tq_ClusterID : string;
  tq_HostID : string;
  tq_StorageDomainID : string;
  tq_StorageTargetID : string;
  tq_Name : string;
  tq_Mode : string;
  tq_NetworkMappings : list RestoreVMNetworkMapping;
  tq_PreserveMAC : bool;
  tq_Confirm : bool
}.

Definition set_HostID (v : string) (r : VMTransferRequest) : VMTransferRequest :=
  mkTransferRequest (tq_SourceServerID r) (tq_SourceVMID r) (tq_TargetServerID r) (tq_ClusterID r) v
    (tq_StorageDomainID r) (tq_StorageTargetID r) (tq_Name r) (tq_Mode r) (tq_NetworkMappings r)
    (tq_PreserveMAC r) (tq_Confirm r).
Definition set_Name (v : string) (r : VMTransferRequest) : VMTransferRequest :=
  mkTransferRequest (tq_SourceServerID r) (tq_SourceVMID r) (tq_TargetServerID r) (tq_ClusterID r) (tq_HostID r)
    (tq_StorageDomainID r) (tq_StorageTargetID r) v (tq_Mode r) (tq_NetworkMappings r)
    (tq_PreserveMAC r) (tq_Confirm r).

(** The limits that the recovery decides by; durations are in seconds. *)
Record MigrationRecoveryPolicy := mkRecoveryPolicy {
  rp_Enabled : bool;
  rp_NoProgressSeconds : Z;
  rp_PhaseTimeoutSeconds : Z;
  rp_OperationTimeoutSeconds : Z;
  rp_MaxDowntimeSeconds : Z;
  rp_PowerTimeoutSeconds : Z;
  rp_RetryDelaySeconds : Z;
  rp_MaxRetries : Z;
  rp_MaxRollbackAttempts : Z;
  rp_ResumeAfterRestart : bool;
  rp_RollbackOnFailure : bool;
  rp_RollbackAfterTargetStart : bool;
  rp_AllowForceStopTarget : bool;
  rp_AllowForceStopSource : bool;
  rp_AllowHostFallback : bool;
  rp_GuestProbePort : Z;
  rp_GuestReadyTimeoutSeconds : Z
}.

Record VMTransfer := mkVMTransfer {
  tf_ID : string;
  tf_Revision : Z;
  tf_CancelRequested : bool;
  tf_RecoveryPolicy : option MigrationRecoveryPolicy;
  tf_ActiveAction : string;
  tf_RecoveryAction : string;
  tf_RecoveryAttempts : Z;
  tf_RollbackAttempts : Z;
  tf_NextRecoveryAt : option Z;
  tf_ManualPause : bool;
  tf_OperationStartedAt : Z;
  tf_PhaseStartedAt : Z;
  tf_DowntimeStartedAt : option Z;
  tf_TargetStartRequested : bool;
  tf_BatchID : string;
  tf_BatchIndex : Z;
  tf_BatchParallelism : Z;
  tf_PendingAction : string;
  tf_SourceShape : string;
  tf_Request : VMTransferRequest;
  tf_Status : string;
  tf_Phase : string;
  tf_TargetVMID : string;
  tf_RestoreID : string;
  tf_RunIDs : list string;
  tf_AppliedRunID : string;
  tf_DiskMap : gmap string string;
  tf_OriginalDesired : VMDesiredState;
  tf_OriginalOptOut : bool;
  tf_WasRunning : bool;
  tf_SourceStopped : bool;
  tf_TargetStarted : bool
}.

(** Assignments to one field. *)
Definition set_Revision (v : Z) (t : VMTransfer) : VMTransfer :=
  mkVMTransfer (tf_ID t) v (tf_CancelRequested t) (tf_RecoveryPolicy t) (tf_ActiveAction t) (tf_RecoveryAction t)
    (tf_RecoveryAttempts t) (tf_RollbackAttempts t) (tf_NextRecoveryAt t) (tf_ManualPause t) (tf_OperationStartedAt
    t) (tf_PhaseStartedAt t) (tf_DowntimeStartedAt t) (tf_TargetStartRequested t) (tf_BatchID t) (tf_BatchIndex t)
    (tf_BatchParallelism t) (tf_PendingAction t) (tf_SourceShape t) (tf_Request t) (tf_Status t) (tf_Phase t)
    (tf_TargetVMID t) (tf_RestoreID t) (tf_RunIDs t) (tf_AppliedRunID t) (tf_DiskMap t) (tf_OriginalDesired t)
    (tf_OriginalOptOut t) (tf_WasRunning t) (tf_SourceStopped t) (tf_TargetStarted t).
Definition set_CancelRequested (v : bool) (t : VMTransfer) : VMTransfer :=
  mkVMTransfer (tf_ID t) (tf_Revision t) v (tf_RecoveryPolicy t) (tf_ActiveAction t) (tf_RecoveryAction t)
    (tf_RecoveryAttempts t) (tf_RollbackAttempts t) (tf_NextRecoveryAt t) (tf_ManualPause t) (tf_OperationStartedAt
    t) (tf_PhaseStartedAt t) (tf_DowntimeStartedAt t) (tf_TargetStartRequested t) (tf_BatchID t) (tf_BatchIndex t)
    (tf_BatchParallelism t) (tf_PendingAction t) (tf_SourceShape t) (tf_Request t) (tf_Status t) (tf_Phase t)
    (tf_TargetVMID t) (tf_RestoreID t) (tf_RunIDs t) (tf_AppliedRunID t) (tf_DiskMap t) (tf_OriginalDesired t)
    (tf_OriginalOptOut t) (tf_WasRunning t) (tf_SourceStopped t) (tf_TargetStarted t).
Definition set_RecoveryPolicy (v : option MigrationRecoveryPolicy) (t : VMTransfer) : VMTransfer :=
  mkVMTransfer (tf_ID t) (tf_Revision t) (tf_CancelRequested t) v (tf_ActiveAction t) (tf_RecoveryAction t)
    (tf_RecoveryAttempts t) (tf_RollbackAttempts t) (tf_NextRecoveryAt t) (tf_ManualPause t) (tf_OperationStartedAt
    t) (tf_PhaseStartedAt t) (tf_DowntimeStartedAt t) (tf_TargetStartRequested t) (tf_BatchID t) (tf_BatchIndex t)
    (tf_BatchParallelism t) (tf_PendingAction t) (tf_SourceShape t) (tf_Request t) (tf_Status t) (tf_Phase t)
    (tf_TargetVMID t) (tf_RestoreID t) (tf_RunIDs t) (tf_AppliedRunID t) (tf_DiskMap t) (tf_OriginalDesired t)
    (tf_OriginalOptOut t) (tf_WasRunning t) (tf_SourceStopped t) (tf_TargetStarted t).
Definition set_ActiveAction (v : string) (t : VMTransfer) : VMTransfer :=
  mkVMTransfer (tf_ID t) (tf_Revision t) (tf_CancelRequested t) (tf_RecoveryPolicy t) v (tf_RecoveryAction t)
    (tf_RecoveryAttempts t) (tf_RollbackAttempts t) (tf_NextRecoveryAt t) (tf_ManualPause t) (tf_OperationStartedAt
    t) (tf_PhaseStartedAt t) (tf_DowntimeStartedAt t) (tf_TargetStartRequested t) (tf_BatchID t) (tf_BatchIndex t)
    (tf_BatchParallelism t) (tf_PendingAction t) (tf_SourceShape t) (tf_Request t) (tf_Status t) (tf_Phase t)
    (tf_TargetVMID t) (tf_RestoreID t) (tf_RunIDs t) (tf_AppliedRunID t) (tf_DiskMap t) (tf_OriginalDesired t)
    (tf_OriginalOptOut t) (tf_WasRunning t) (tf_SourceStopped t) (tf_TargetStarted t).
Definition set_RecoveryAction (v : string) (t : VMTransfer) : VMTransfer :=
  mkVMTransfer (tf_ID t) (tf_Revision t) (tf_CancelRequested t) (tf_RecoveryPolicy t) (tf_ActiveAction t) v
    (tf_RecoveryAttempts t) (tf_RollbackAttempts t) (tf_NextRecoveryAt t) (tf_ManualPause t) (tf_OperationStartedAt
    t) (tf_PhaseStartedAt t) (tf_DowntimeStartedAt t) (tf_TargetStartRequested t) (tf_BatchID t) (tf_BatchIndex t)
    (tf_BatchParallelism t) (tf_PendingAction t) (tf_SourceShape t) (tf_Request t) (tf_Status t) (tf_Phase t)
    (tf_TargetVMID t) (tf_RestoreID t) (tf_RunIDs t) (tf_AppliedRunID t) (tf_DiskMap t) (tf_OriginalDesired t)
    (tf_OriginalOptOut t) (tf_WasRunning t) (tf_SourceStopped t) (tf_TargetStarted t).
Definition set_RecoveryAttempts (v : Z) (t : VMTransfer) : VMTransfer :=
  mkVMTransfer (tf_ID t) (tf_Revision t) (tf_CancelRequested t) (tf_RecoveryPolicy t) (tf_ActiveAction t)
    (tf_RecoveryAction t) v (tf_RollbackAttempts t) (tf_NextRecoveryAt t) (tf_ManualPause t) (tf_OperationStartedAt
    t) (tf_PhaseStartedAt t) (tf_DowntimeStartedAt t) (tf_TargetStartRequested t) (tf_BatchID t) (tf_BatchIndex t)
    (tf_BatchParallelism t) (tf_PendingAction t) (tf_SourceShape t) (tf_Request t) (tf_Status t) (tf_Phase t)
    (tf_TargetVMID t) (tf_RestoreID t) (tf_RunIDs t) (tf_AppliedRunID t) (tf_DiskMap t) (tf_OriginalDesired t)
    (tf_OriginalOptOut t) (tf_WasRunning t) (tf_SourceStopped t) (tf_TargetStarted t).
Definition set_RollbackAttempts (v : Z) (t : VMTransfer) : VMTransfer :=
  mkVMTransfer (tf_ID t) (tf_Revision t) (tf_CancelRequested t) (tf_RecoveryPolicy t) (tf_ActiveAction t)
    (tf_RecoveryAction t) (tf_RecoveryAttempts t) v (tf_NextRecoveryAt t) (tf_ManualPause t) (tf_OperationStartedAt
    t) (tf_PhaseStartedAt t) (tf_DowntimeStartedAt t) (tf_TargetStartRequested t) (tf_BatchID t) (tf_BatchIndex t)
    (tf_BatchParallelism t) (tf_PendingAction t) (tf_SourceShape t) (tf_Request t) (tf_Status t) (tf_Phase t)
    (tf_TargetVMID t) (tf_RestoreID t) (tf_RunIDs t) (tf_AppliedRunID t) (tf_DiskMap t) (tf_OriginalDesired t)
    (tf_OriginalOptOut t) (tf_WasRunning t) (tf_SourceStopped t) (tf_TargetStarted t).
Definition set_NextRecoveryAt (v : option Z) (t : VMTransfer) : VMTransfer :=
  mkVMTransfer (tf_ID t) (tf_Revision t) (tf_CancelRequested t) (tf_RecoveryPolicy t) (tf_ActiveAction t)
    (tf_RecoveryAction t) (tf_RecoveryAttempts t) (tf_RollbackAttempts t) v (tf_ManualPause t)
    (tf_OperationStartedAt t) (tf_PhaseStartedAt t) (tf_DowntimeStartedAt t) (tf_TargetStartRequested t) (tf_BatchID
    t) (tf_BatchIndex t) (tf_BatchParallelism t) (tf_PendingAction t) (tf_SourceShape t) (tf_Request t) (tf_Status
    t) (tf_Phase t) (tf_TargetVMID t) (tf_RestoreID t) (tf_RunIDs t) (tf_AppliedRunID t) (tf_DiskMap t)
    (tf_OriginalDesired t) (tf_OriginalOptOut t) (tf_WasRunning t) (tf_SourceStopped t) (tf_TargetStarted t).
Definition set_ManualPause (v : bool) (t : VMTransfer) : VMTransfer :=
  mkVMTransfer (tf_ID t) (tf_Revision t) (tf_CancelRequested t) (tf_RecoveryPolicy t) (tf_ActiveAction t)
    (tf_RecoveryAction t) (tf_RecoveryAttempts t) (tf_RollbackAttempts t) (tf_NextRecoveryAt t) v
    (tf_OperationStartedAt t) (tf_PhaseStartedAt t) (tf_DowntimeStartedAt t) (tf_TargetStartRequested t) (tf_BatchID
    t) (tf_BatchIndex t) (tf_BatchParallelism t) (tf_PendingAction t) (tf_SourceShape t) (tf_Request t) (tf_Status
    t) (tf_Phase t) (tf_TargetVMID t) (tf_RestoreID t) (tf_RunIDs t) (tf_AppliedRunID t) (tf_DiskMap t)
    (tf_OriginalDesired t) (tf_OriginalOptOut t) (tf_WasRunning t) (tf_SourceStopped t) (tf_TargetStarted t).
Definition set_OperationStartedAt (v : Z) (t : VMTransfer) : VMTransfer :=
  mkVMTransfer (tf_ID t) (tf_Revision t) (tf_CancelRequested t) (tf_RecoveryPolicy t) (tf_ActiveAction t)
    (tf_RecoveryAction t) (tf_RecoveryAttempts t) (tf_RollbackAttempts t) (tf_NextRecoveryAt t) (tf_ManualPause t) v
    (tf_PhaseStartedAt t) (tf_DowntimeStartedAt t) (tf_TargetStartRequested t) (tf_BatchID t) (tf_BatchIndex t)
    (tf_BatchParallelism t) (tf_PendingAction t) (tf_SourceShape t) (tf_Request t) (tf_Status t) (tf_Phase t)
    (tf_TargetVMID t) (tf_RestoreID t) (tf_RunIDs t) (tf_AppliedRunID t) (tf_DiskMap t) (tf_OriginalDesired t)
    (tf_OriginalOptOut t) (tf_WasRunning t) (tf_SourceStopped t) (tf_TargetStarted t).
Definition set_PhaseStartedAt (v : Z) (t : VMTransfer) : VMTransfer :=
  mkVMTransfer (tf_ID t) (tf_Revision t) (tf_CancelRequested t) (tf_RecoveryPolicy t) (tf_ActiveAction t)
    (tf_RecoveryAction t) (tf_RecoveryAttempts t) (tf_RollbackAttempts t) (tf_NextRecoveryAt t) (tf_ManualPause t)
    (tf_OperationStartedAt t) v (tf_DowntimeStartedAt t) (tf_TargetStartRequested t) (tf_BatchID t) (tf_BatchIndex
    t) (tf_BatchParallelism t) (tf_PendingAction t) (tf_SourceShape t) (tf_Request t) (tf_Status t) (tf_Phase t)
    (tf_TargetVMID t) (tf_RestoreID t) (tf_RunIDs t) (tf_AppliedRunID t) (tf_DiskMap t) (tf_OriginalDesired t)
    (tf_OriginalOptOut t) (tf_WasRunning t) (tf_SourceStopped t) (tf_TargetStarted t).
Definition set_DowntimeStartedAt (v : option Z) (t : VMTransfer) : VMTransfer :=
  mkVMTransfer (tf_ID t) (tf_Revision t) (tf_CancelRequested t) (tf_RecoveryPolicy t) (tf_ActiveAction t)
    (tf_RecoveryAction t) (tf_RecoveryAttempts t) (tf_RollbackAttempts t) (tf_NextRecoveryAt t) (tf_ManualPause t)
    (tf_OperationStartedAt t) (tf_PhaseStartedAt t) v (tf_TargetStartRequested t) (tf_BatchID t) (tf_BatchIndex t)
    (tf_BatchParallelism t) (tf_PendingAction t) (tf_SourceShape t) (tf_Request t) (tf_Status t) (tf_Phase t)
    (tf_TargetVMID t) (tf_RestoreID t) (tf_RunIDs t) (tf_AppliedRunID t) (tf_DiskMap t) (tf_OriginalDesired t)
    (tf_OriginalOptOut t) (tf_WasRunning t) (tf_SourceStopped t) (tf_TargetStarted t).
Definition set_TargetStartRequested (v : bool) (t : VMTransfer) : VMTransfer :=
  mkVMTransfer (tf_ID t) (tf_Revision t) (tf_CancelRequested t) (tf_RecoveryPolicy t) (tf_ActiveAction t)
    (tf_RecoveryAction t) (tf_RecoveryAttempts t) (tf_RollbackAttempts t) (tf_NextRecoveryAt t) (tf_ManualPause t)
    (tf_OperationStartedAt t) (tf_PhaseStartedAt t) (tf_DowntimeStartedAt t) v (tf_BatchID t) (tf_BatchIndex t)
    (tf_BatchParallelism t) (tf_PendingAction t) (tf_SourceShape t) (tf_Request t) (tf_Status t) (tf_Phase t)
    (tf_TargetVMID t) (tf_RestoreID t) (tf_RunIDs t) (tf_AppliedRunID t) (tf_DiskMap t) (tf_OriginalDesired t)
    (tf_OriginalOptOut t) (tf_WasRunning t) (tf_SourceStopped t) (tf_TargetStarted t).
Definition set_PendingAction (v : string) (t : VMTransfer) : VMTransfer :=
  mkVMTransfer (tf_ID t) (tf_Revision t) (tf_CancelRequested t) (tf_RecoveryPolicy t) (tf_ActiveAction t)
    (tf_RecoveryAction t) (tf_RecoveryAttempts t) (tf_RollbackAttempts t) (tf_NextRecoveryAt t) (tf_ManualPause t)
    (tf_OperationStartedAt t) (tf_PhaseStartedAt t) (tf_DowntimeStartedAt t) (tf_TargetStartRequested t) (tf_BatchID
    t) (tf_BatchIndex t) (tf_BatchParallelism t) v (tf_SourceShape t) (tf_Request t) (tf_Status t) (tf_Phase t)
    (tf_TargetVMID t) (tf_RestoreID t) (tf_RunIDs t) (tf_AppliedRunID t) (tf_DiskMap t) (tf_OriginalDesired t)
    (tf_OriginalOptOut t) (tf_WasRunning t) (tf_SourceStopped t) (tf_TargetStarted t).
Definition set_SourceShape (v : string) (t : VMTransfer) : VMTransfer :=
  mkVMTransfer (tf_ID t) (tf_Revision t) (tf_CancelRequested t) (tf_RecoveryPolicy t) (tf_ActiveAction t)
    (tf_RecoveryAction t) (tf_RecoveryAttempts t) (tf_RollbackAttempts t) (tf_NextRecoveryAt t) (tf_ManualPause t)
    (tf_OperationStartedAt t) (tf_PhaseStartedAt t) (tf_DowntimeStartedAt t) (tf_TargetStartRequested t) (tf_BatchID
    t) (tf_BatchIndex t) (tf_BatchParallelism t) (tf_PendingAction t) v (tf_Request t) (tf_Status t) (tf_Phase t)
    (tf_TargetVMID t) (tf_RestoreID t) (tf_RunIDs t) (tf_AppliedRunID t) (tf_DiskMap t) (tf_OriginalDesired t)
    (tf_OriginalOptOut t) (tf_WasRunning t) (tf_SourceStopped t) (tf_TargetStarted t).
Definition set_Request (v : VMTransferRequest) (t : VMTransfer) : VMTransfer :=
  mkVMTransfer (tf_ID t) (tf_Revision t) (tf_CancelRequested t) (tf_RecoveryPolicy t) (tf_ActiveAction t)
    (tf_RecoveryAction t) (tf_RecoveryAttempts t) (tf_RollbackAttempts t) (tf_NextRecoveryAt t) (tf_ManualPause t)
    (tf_OperationStartedAt t) (tf_PhaseStartedAt t) (tf_DowntimeStartedAt t) (tf_TargetStartRequested t) (tf_BatchID
    t) (tf_BatchIndex t) (tf_BatchParallelism t) (tf_PendingAction t) (tf_SourceShape t) v (tf_Status t) (tf_Phase
    t) (tf_TargetVMID t) (tf_RestoreID t) (tf_RunIDs t) (tf_AppliedRunID t) (tf_DiskMap t) (tf_OriginalDesired t)
    (tf_OriginalOptOut t) (tf_WasRunning t) (tf_SourceStopped t) (tf_TargetStarted t).
Definition set_Status (v : string) (t : VMTransfer) : VMTransfer :=
  mkVMTransfer (tf_ID t) (tf_Revision t) (tf_CancelRequested t) (tf_RecoveryPolicy t) (tf_ActiveAction t)
    (tf_RecoveryAction t) (tf_RecoveryAttempts t) (tf_RollbackAttempts t) (tf_NextRecoveryAt t) (tf_ManualPause t)
    (tf_OperationStartedAt t) (tf_PhaseStartedAt t) (tf_DowntimeStartedAt t) (tf_TargetStartRequested t) (tf_BatchID
    t) (tf_BatchIndex t) (tf_BatchParallelism t) (tf_PendingAction t) (tf_SourceShape t) (tf_Request t) v (tf_Phase
    t) (tf_TargetVMID t) (tf_RestoreID t) (tf_RunIDs t) (tf_AppliedRunID t) (tf_DiskMap t) (tf_OriginalDesired t)
    (tf_OriginalOptOut t) (tf_WasRunning t) (tf_SourceStopped t) (tf_TargetStarted t).
Definition set_Phase (v : string) (t : VMTransfer) : VMTransfer :=
  mkVMTransfer (tf_ID t) (tf_Revision t) (tf_CancelRequested t) (tf_RecoveryPolicy t) (tf_ActiveAction t)
    (tf_RecoveryAction t) (tf_RecoveryAttempts t) (tf_RollbackAttempts t) (tf_NextRecoveryAt t) (tf_ManualPause t)
    (tf_OperationStartedAt t) (tf_PhaseStartedAt t) (tf_DowntimeStartedAt t) (tf_TargetStartRequested t) (tf_BatchID
    t) (tf_BatchIndex t) (tf_BatchParallelism t) (tf_PendingAction t) (tf_SourceShape t) (tf_Request t) (tf_Status
    t) v (tf_TargetVMID t) (tf_RestoreID t) (tf_RunIDs t) (tf_AppliedRunID t) (tf_DiskMap t) (tf_OriginalDesired t)
    (tf_OriginalOptOut t) (tf_WasRunning t) (tf_SourceStopped t) (tf_TargetStarted t).
Definition set_TargetVMID (v : string) (t : VMTransfer) : VMTransfer :=
  mkVMTransfer (tf_ID t) (tf_Revision t) (tf_CancelRequested t) (tf_RecoveryPolicy t) (tf_ActiveAction t)
    (tf_RecoveryAction t) (tf_RecoveryAttempts t) (tf_RollbackAttempts t) (tf_NextRecoveryAt t) (tf_ManualPause t)
    (tf_OperationStartedAt t) (tf_PhaseStartedAt t) (tf_DowntimeStartedAt t) (tf_TargetStartRequested t) (tf_BatchID
    t) (tf_BatchIndex t) (tf_BatchParallelism t) (tf_PendingAction t) (tf_SourceShape t) (tf_Request t) (tf_Status
    t) (tf_Phase t) v (tf_RestoreID t) (tf_RunIDs t) (tf_AppliedRunID t) (tf_DiskMap t) (tf_OriginalDesired t)
    (tf_OriginalOptOut t) (tf_WasRunning t) (tf_SourceStopped t) (tf_TargetStarted t).
Definition set_RestoreID (v : string) (t : VMTransfer) : VMTransfer :=
  mkVMTransfer (tf_ID t) (tf_Revision t) (tf_CancelRequested t) (tf_RecoveryPolicy t) (tf_ActiveAction t)
    (tf_RecoveryAction t) (tf_RecoveryAttempts t) (tf_RollbackAttempts t) (tf_NextRecoveryAt t) (tf_ManualPause t)
    (tf_OperationStartedAt t) (tf_PhaseStartedAt t) (tf_DowntimeStartedAt t) (tf_TargetStartRequested t) (tf_BatchID
    t) (tf_BatchIndex t) (tf_BatchParallelism t) (tf_PendingAction t) (tf_SourceShape t) (tf_Request t) (tf_Status
    t) (tf_Phase t) (tf_TargetVMID t) v (tf_RunIDs t) (tf_AppliedRunID t) (tf_DiskMap t) (tf_OriginalDesired t)
    (tf_OriginalOptOut t) (tf_WasRunning t) (tf_SourceStopped t) (tf_TargetStarted t).
Definition set_RunIDs (v : list string) (t : VMTransfer) : VMTransfer :=
  mkVMTransfer (tf_ID t) (tf_Revision t) (tf_CancelRequested t) (tf_RecoveryPolicy t) (tf_ActiveAction t)
    (tf_RecoveryAction t) (tf_RecoveryAttempts t) (tf_RollbackAttempts t) (tf_NextRecoveryAt t) (tf_ManualPause t)
    (tf_OperationStartedAt t) (tf_PhaseStartedAt t) (tf_DowntimeStartedAt t) (tf_TargetStartRequested t) (tf_BatchID
    t) (tf_BatchIndex t) (tf_BatchParallelism t) (tf_PendingAction t) (tf_SourceShape t) (tf_Request t) (tf_Status
    t) (tf_Phase t) (tf_TargetVMID t) (tf_RestoreID t) v (tf_AppliedRunID t) (tf_DiskMap t) (tf_OriginalDesired t)
    (tf_OriginalOptOut t) (tf_WasRunning t) (tf_SourceStopped t) (tf_TargetStarted t).
Definition set_AppliedRunID (v : string) (t : VMTransfer) : VMTransfer :=
  mkVMTransfer (tf_ID t) (tf_Revision t) (tf_CancelRequested t) (tf_RecoveryPolicy t) (tf_ActiveAction t)
    (tf_RecoveryAction t) (tf_RecoveryAttempts t) (tf_RollbackAttempts t) (tf_NextRecoveryAt t) (tf_ManualPause t)
    (tf_OperationStartedAt t) (tf_PhaseStartedAt t) (tf_DowntimeStartedAt t) (tf_TargetStartRequested t) (tf_BatchID
    t) (tf_BatchIndex t) (tf_BatchParallelism t) (tf_PendingAction t) (tf_SourceShape t) (tf_Request t) (tf_Status
    t) (tf_Phase t) (tf_TargetVMID t) (tf_RestoreID t) (tf_RunIDs t) v (tf_DiskMap t) (tf_OriginalDesired t)
    (tf_OriginalOptOut t) (tf_WasRunning t) (tf_SourceStopped t) (tf_TargetStarted t).
Definition set_DiskMap (v : gmap string string) (t : VMTransfer) : VMTransfer :=
  mkVMTransfer (tf_ID t) (tf_Revision t) (tf_CancelRequested t) (tf_RecoveryPolicy t) (tf_ActiveAction t)
    (tf_RecoveryAction t) (tf_RecoveryAttempts t) (tf_RollbackAttempts t) (tf_NextRecoveryAt t) (tf_ManualPause t)
    (tf_OperationStartedAt t) (tf_PhaseStartedAt t) (tf_DowntimeStartedAt t) (tf_TargetStartRequested t) (tf_BatchID
    t) (tf_BatchIndex t) (tf_BatchParallelism t) (tf_PendingAction t) (tf_SourceShape t) (tf_Request t) (tf_Status
    t) (tf_Phase t) (tf_TargetVMID t) (tf_RestoreID t) (tf_RunIDs t) (tf_AppliedRunID t) v (tf_OriginalDesired t)
    (tf_OriginalOptOut t) (tf_WasRunning t) (tf_SourceStopped t) (tf_TargetStarted t).
Definition set_WasRunning (v : bool) (t : VMTransfer) : VMTransfer :=
  mkVMTransfer (tf_ID t) (tf_Revision t) (tf_CancelRequested t) (tf_RecoveryPolicy t) (tf_ActiveAction t)
    (tf_RecoveryAction t) (tf_RecoveryAttempts t) (tf_RollbackAttempts t) (tf_NextRecoveryAt t) (tf_ManualPause t)
    (tf_OperationStartedAt t) (tf_PhaseStartedAt t) (tf_DowntimeStartedAt t) (tf_TargetStartRequested t) (tf_BatchID
    t) (tf_BatchIndex t) (tf_BatchParallelism t) (tf_PendingAction t) (tf_SourceShape t) (tf_Request t) (tf_Status
    t) (tf_Phase t) (tf_TargetVMID t) (tf_RestoreID t) (tf_RunIDs t) (tf_AppliedRunID t) (tf_DiskMap t)
    (tf_OriginalDesired t) (tf_OriginalOptOut t) v (tf_SourceStopped t) (tf_TargetStarted t).
Definition set_SourceStopped (v : bool) (t : VMTransfer) : VMTransfer :=
  mkVMTransfer (tf_ID t) (tf_Revision t) (tf_CancelRequested t) (tf_RecoveryPolicy t) (tf_ActiveAction t)
    (tf_RecoveryAction t) (tf_RecoveryAttempts t) (tf_RollbackAttempts t) (tf_NextRecoveryAt t) (tf_ManualPause t)
    (tf_OperationStartedAt t) (tf_PhaseStartedAt t) (tf_DowntimeStartedAt t) (tf_TargetStartRequested t) (tf_BatchID
    t) (tf_BatchIndex t) (tf_BatchParallelism t) (tf_PendingAction t) (tf_SourceShape t) (tf_Request t) (tf_Status
    t) (tf_Phase t) (tf_TargetVMID t) (tf_RestoreID t) (tf_RunIDs t) (tf_AppliedRunID t) (tf_DiskMap t)
    (tf_OriginalDesired t) (tf_OriginalOptOut t) (tf_WasRunning t) v (tf_TargetStarted t).
Definition set_TargetStarted (v : bool) (t : VMTransfer) : VMTransfer :=
  mkVMTransfer (tf_ID t) (tf_Revision t) (tf_CancelRequested t) (tf_RecoveryPolicy t) (tf_ActiveAction t)
    (tf_RecoveryAction t) (tf_RecoveryAttempts t) (tf_RollbackAttempts t) (tf_NextRecoveryAt t) (tf_ManualPause t)
    (tf_OperationStartedAt t) (tf_PhaseStartedAt t) (tf_DowntimeStartedAt t) (tf_TargetStartRequested t) (tf_BatchID
    t) (tf_BatchIndex t) (tf_BatchParallelism t) (tf_PendingAction t) (tf_SourceShape t) (tf_Request t) (tf_Status
    t) (tf_Phase t) (tf_TargetVMID t) (tf_RestoreID t) (tf_RunIDs t) (tf_AppliedRunID t) (tf_DiskMap t)
    (tf_OriginalDesired t) (tf_OriginalOptOut t) (tf_WasRunning t) (tf_SourceStopped t) v.

(** * The world outside *)
Inductive CallError := CallNotFound | CallCanceled | CallDeadline | CallRefused (detail : string).

#[export] Instance CallError_eq_dec : EqDecision CallError.
Proof. solve_decision. Defined.

Inductive TransferError :=
| CallFailed (e : CallError) | TransferNotFound | TransferChanged | StoreFailed | ManualPaused | UnsafeRecovery
| NoProgress | PhaseTimeout | OperationTimeout | DowntimeSpent | Refused (reason : string) | Crashed.

#[export] Instance TransferError_eq_dec : EqDecision TransferError.
Proof. solve_decision. Defined.

Record VMState := mkVMState {
  vs_ID : string; vs_Name : string; vs_Status : string; vs_Description : string; vs_ClusterID : string; vs_IPs : list string
}.
Record TransferNIC := mkTransferNIC { ni_ID : string; ni_Name : string; ni_MAC : string }.
Record TransferHost := mkTransferHost { ho_ID : string; ho_ClusterID : string; ho_Status : string }.
Record TransferDomain := mkTransferDomain { do_ID : string; do_Type : string; do_Status : string; do_AvailableSize : Z }.
Record TransferDisk := mkTransferDisk {
  di_ID : string; di_ProvisionedSize : Z; di_Interface : string; di_Bootable : bool; di_Inactive : bool;
  di_Shareable : bool; di_OnLun : bool; di_ContentType : string; di_Backup : string
}.
(** A server of the inventory, a machine of it, a repository. *)
Record TransferServer := mkTransferServer {
  se_ID : string; se_UsesOVirtAPI : bool; se_EngineURL : string; se_Enabled : bool; se_SupportsCBT : bool
}.
Record TransferVM := mkTransferVM {
  mv_ID : string; mv_Name : string; mv_ClusterID : string; mv_Status : string; mv_DesiredState : VMDesiredState;
  mv_RemediationOptOut : bool
}.
Record TransferRepository := mkTransferRepository { rs_Enabled : bool; rs_ReadOnly : bool }.
(** What the backup engine says of a finished run, and of a disk of a chain: the
    size in its last manifest and whether its changes can be told. *)
Record TransferRun := mkTransferRun { ru_Succeeded : bool; ru_Incremental : bool; ru_SkippedDisks : list string; ru_DiskCount : Z }.
Record ChainDisk := mkChainDisk { cd_ID : string; cd_VirtualSize : Z; cd_ChangedSince : result CallError () }.

(** What the service asks. *)
Inductive Call : Type → Type :=
(** The client of an engine and the state of a machine there. *)
| PoolGet (server : string) : Call (result CallError ())
| VMStatus (server vm : string) : Call (result CallError string)
| GetVMState (server vm : string) : Call (result CallError VMState)
| GetVMRecoveryState (server vm : string) : Call (result CallError VMState)
| SearchVMs (server : string) : Call (result CallError (list VMState))
(** Power. *)
| ShutdownVM (server vm : string) : Call (result CallError ())
| StopVM (server vm : string) : Call (result CallError ())
| StartVM (server vm : string) : Call (result CallError ())
| StartVMOnHost (server vm host : string) : Call (result CallError ())
| DeleteVM (server vm : string) : Call (result CallError ())
(** The rest of an engine. *)
| TransferNICs (server vm : string) : Call (result CallError (list TransferNIC))
| SetTransferNIC (server vm nic : string) (connected : bool) : Call (result CallError ())
| ListHosts (server : string) : Call (result CallError (list TransferHost))
| HostStorageDomains (server host : string) : Call (result CallError (list TransferDomain))
| VMConfiguration (server vm : string) : Call (result CallError string)
| ListVMDisks (server vm : string) : Call (result CallError (list TransferDisk))
| GetDisk (server disk : string) : Call (result CallError Z)
| ListVNICProfiles (server : string) : Call (result CallError (list string))
| CheckTCP (ips : list string) (port : Z) : Call (result CallError ())
(** The backup engine: a run, its check, a new machine, its disks, the changes
    of a run written to a disk, how often the progress is saved meanwhile, the profile in the document of a run. *)
| BeginBackup (server vm storage transfer : string) (incremental : bool) : Call (result CallError string)
| FinishBackup (run : string) : Call (result CallError TransferRun)
| VerifyQuick (run : string) : Call (result CallError ())
| CreateTargetVM (r : VMTransferRequest) (run description : string) : Call (result CallError string)
| RestoredDisks (run : string) : Call (result CallError (list string))
| RestoreDisk (vm disk : string) : Call (result CallError string)
| LoadChainDisks (run after : string) : Call (result CallError (list ChainDisk))
| ProgressSaves (run disk : string) : Call nat
| RestoreDelta (server run disk target after : string) : Call (result CallError ())
| LoadProfileNICs (run : string) : Call (result CallError (option (list (string * string))))
(** The inventory and the other tables. *)
| GetServer (id : string) : Call (result CallError TransferServer)
| GetVM (server vm : string) : Call (result CallError TransferVM)
| GetMigrationPolicy (server cluster : string) : Call (result CallError MigrationRecoveryPolicy)
| GetTransferRepository (id : string) : Call (result CallError TransferRepository)
| ListClusters (server : string) : Call (result CallError (list string))
| ListStorageDomains (server : string) : Call (result CallError (list TransferDomain))
| ActiveRuns (server vm : string) : Call (result CallError Z)
| TryVMTransferLock (id : string) : Call (result CallError bool)
| TryVMTransferQueueLock (batch : string) : Call (result CallError bool)
(** The process: the clock, why the context was cancelled, whether the service
    is stopping, how often a loop looks before the timeout, a fresh identifier. *)
| Now : Call Z
| ContextCause : Call (option TransferError)
| Stopping : Call bool
| Polls (timeout : Z) : Call nat
| NewID : Call string.

Class World (W : Type) := ask_world : ∀ A, Call A → W → W * A.

Inductive Event := | Ev {A : Type} (transfer : string) (c : Call A) (answer : A).

(** * State *)
(** A row: the payload and the columns that are written apart from it. *)
Record TransferRow := mkTransferRow { tr_payload : VMTransfer; tr_cancel_requested : bool; tr_target_vm_id : string }.

Record Service (W : Type) := mkService {
  sv_world : W;
  (** Latest first. *)
  sv_trace : list Event;
  sv_life : nat;
  sv_faults : list bool;
  sv_rows : gmap string TransferRow;
  (** The desired state of machines and whether repairs are off. *)
  sv_desired : gmap (string * string) (VMDesiredState * bool);
  (** The record the running operation holds in memory. *)
  sv_t : VMTransfer
}.
Arguments mkService {W}.
Arguments sv_world {W}. Arguments sv_trace {W}. Arguments sv_life {W}. Arguments sv_faults {W}.
Arguments sv_rows {W}. Arguments sv_desired {W}. Arguments sv_t {W}.

Abbreviation TM W := (ST (Service W) TransferError).

Section Store.
Context {W : Type} `{!World W}.

Definition with_t (t : VMTransfer) (s : Service W) : Service W :=
  mkService (sv_world s) (sv_trace s) (sv_life s) (sv_faults s) (sv_rows s) (sv_desired s) t.
Definition with_rows (rows : gmap string TransferRow) (s : Service W) : Service W :=
  mkService (sv_world s) (sv_trace s) (sv_life s) (sv_faults s) rows (sv_desired s) (sv_t s).
Definition with_desired (d : gmap (string * string) (VMDesiredState * bool)) (s : Service W) : Service W :=
  mkService (sv_world s) (sv_trace s) (sv_life s) (sv_faults s) (sv_rows s) d (sv_t s).
Definition with_luck (life : nat) (faults : list bool) (s : Service W) : Service W :=
  mkService (sv_world s) (sv_trace s) life faults (sv_rows s) (sv_desired s) (sv_t s).
Definition with_world (w : W) (s : Service W) : Service W :=
  mkService w (sv_trace s) (sv_life s) (sv_faults s) (sv_rows s) (sv_desired s) (sv_t s).

(** One call; the process may be gone before it. *)
Definition ask {A} (c : Call A) : TM W A := λ s,
  match sv_life s with
  | O => (s, Err Crashed)
  | S life =>
    let '(w, a) := ask_world A c (sv_world s) in
    (mkService w (Ev (tf_ID (sv_t s)) c a :: sv_trace s) life (sv_faults s) (sv_rows s) (sv_desired s) (sv_t s), Ok a)
  end.

Definition call {A} (c : Call (result CallError A)) : TM W A :=
  r ← ask c ; lift (map_err CallFailed r).

(** One statement of the database. *)
Definition statement : TM W () := λ s,
  match sv_life s with
  | O => (s, Err Crashed)
  | S life =>
    (mkService (sv_world s) (sv_trace s) life (tail (sv_faults s)) (sv_rows s) (sv_desired s) (sv_t s),
     match sv_faults s with true :: _ => Err StoreFailed | _ => Ok () end)
  end.

Definition t_get {A} (f : VMTransfer → A) : TM W A := s ← get ; mret (f (sv_t s)).
Definition set_t (f : VMTransfer → VMTransfer) : TM W () := modify (λ s, with_t (f (sv_t s)) s).

(** * The table *)
(** The columns that are read apart from the payload. *)
Definition read_row (r : TransferRow) : VMTransfer := set_CancelRequested (tr_cancel_requested r) (tr_payload r).

Definition GetVMTransfer (id : string) : TM W VMTransfer :=
  statement ;; s ← get ;
  match sv_rows s !! id with Some r => mret (read_row r) | None => fail TransferNotFound end.

(** All of them; their order, by the last change in the code, decides only which
    of several workers is started first. *)
Definition ListVMTransfers : TM W (list VMTransfer) :=
  statement ;; s ← get ; mret ((λ p, read_row p.2) <$> map_to_list (sv_rows s)).

(** The payload with the next revision, if the stored revision is the expected
    one; the revision in memory follows only then. *)
Definition update_row (f : TransferRow → VMTransfer → option TransferRow) : TM W () :=
  statement ;; s ← get ;
  let t := sv_t s in
  let t' := set_Revision (tf_Revision t + 1) t in
  match sv_rows s !! tf_ID t with
  | Some r =>
    if bool_decide (tf_Revision (tr_payload r) = tf_Revision t)
    then match f r t' with
         | Some r' => modify (λ s, with_t t' (with_rows (<[tf_ID t := r']> (sv_rows s)) s))
         | None => fail TransferChanged
         end
    else fail TransferChanged
  | None => fail TransferChanged
  end.

Definition UpdateVMTransfer : TM W () :=
  update_row (λ r t, Some (mkTransferRow t (tr_cancel_requested r) (tf_TargetVMID t))).

Definition ClaimVMTransfer (expected : string) : TM W () :=
  update_row (λ r t, if bool_decide (tf_Status (tr_payload r) = expected)
    then Some (mkTransferRow t false (tr_target_vm_id r)) else None).

Definition RequestVMTransferPause (id : string) : TM W () :=
  statement ;; s ← get ;
  match sv_rows s !! id with
  | Some r => modify (with_rows (<[id := mkTransferRow (tr_payload r) true (tr_target_vm_id r)]> (sv_rows s)))
  | None => mret ()
  end.

Definition released (status : string) : bool := bool_decide (status ∈ ["canceled"; "rolled_back"]%string).

(** A machine is held as a source until cancellation or rollback, as a target
    until the end. *)
Definition owns_vm (server vm : string) (r : TransferRow) : bool :=
  let t := tr_payload r in
  (bool_decide (tq_SourceServerID (tf_Request t) = server) && bool_decide (tq_SourceVMID (tf_Request t) = vm)
   && negb (released (tf_Status t)))
  || (bool_decide (tq_TargetServerID (tf_Request t) = server) && bool_decide (tr_target_vm_id r = vm)
   && negb (released (tf_Status t) || bool_decide (tf_Status t = "completed"%string))).

Definition VMTransferOwner (server vm : string) : TM W string :=
  statement ;; s ← get ;
  mret match List.find (λ p, owns_vm server vm p.2) (map_to_list (sv_rows s)) with Some p => p.1 | None => ""%string end.

(** One row of [CreateVMTransfers]; its source must be free. *)
Definition create_row (t : VMTransfer) : TM W () :=
  let server := tq_SourceServerID (tf_Request t) in
  let vm := tq_SourceVMID (tf_Request t) in
  n ← call (ActiveRuns server vm) ;
  if 0 <? n then fail (Refused "backup is running") else
  s ← get ;
  if existsb (λ p, owns_vm server vm p.2) (map_to_list (sv_rows s)) then fail (Refused "already in a migration") else
  statement ;; s ← get ;
  match sv_rows s !! tf_ID t with
  | Some _ => fail StoreFailed
  | None => modify (λ s, with_rows (<[tf_ID t := mkTransferRow t false ""]> (sv_rows s)) s)
  end.

(** All of them or none: a failure takes back what was written. *)
Definition CreateVMTransfers (items : list VMTransfer) : TM W () := λ s,
  let '(s', r) := for_each (λ t, create_row (set_Revision 0 t)) items s in
  match r with Ok _ => (s', r) | Err _ => (with_rows (sv_rows s) s', r) end.

Definition DeleteReleasedVMTransfer (id : string) : TM W () :=
  statement ;; s ← get ;
  match sv_rows s !! id with
  | Some r => if released (tf_Status (tr_payload r)) then modify (with_rows (delete id (sv_rows s)))
              else fail (Refused "not released")
  | None => fail (Refused "not released")
  end.

Definition SetVMDesiredState (server vm : string) (state : VMDesiredState) (optOut : bool) : TM W () :=
  statement ;; s ← get ;
  match sv_desired s !! (server, vm) with
  | Some _ => modify (with_desired (<[(server, vm) := (state, optOut)]> (sv_desired s)))
  | None => fail TransferNotFound
  end.
End Store.
