(* ===== verification/TransferPlan.v ===== *)
(** What a migration needs before it may start ([plan], [vmtransfer/service.go]):
    everything is looked up first and every obstacle is listed. *)

From S2P Require Import Prelude StateM GoTime GoStr Transfers.

Inductive TransferBlocker :=
| BadMode | NotOVirt | SameEngine | ServerDisabled | BadName | OwnedBy (transfer : string) | RepositoryReadOnly
| NoCluster | NoDomain | NameTaken | UnstableState (status : string) | BadArchitecture (name : string) | SecureBootVM
| NoHost | DomainDetached | NoDisks | BadDisk (disk : string) | NoWarm | NoSpace | DoubleMapping | UnmappedNIC (nic : string)
| MACTaken (mac : string).

Record TransferPlan := mkTransferPlan {
  tp_Request : VMTransferRequest;
  tp_Blockers : list TransferBlocker;
  tp_SourceName : string;
  tp_SourceClusterID : string;
  tp_RecoveryPolicy : option MigrationRecoveryPolicy;
  tp_TotalBytes : Z;
  tp_AvailableBytes : Z;
  tp_WarmAvailable : bool;
  tp_NICs : list TransferNIC
}.

(** What is read out of the configuration of a machine
    ([backup.ProfileFromOVirtConfig]), the host and path of the address of an
    engine, the letter cases of the language, and the text that a source is
    compared by. *)
Class TransferTexts := {
  profile_architecture : string → string;
  profile_secure_boot : string → bool;
  engine_address : string → string;
  equal_fold : string → string → bool;
  shape_of : string → list (string * Z * string * bool * bool) → string
}.

Section Plan.
Context {W : Type} `{!World W} `{!TransferTexts}.

Definition block (c : bool) (b : TransferBlocker) : list TransferBlocker := if c then [b] else [].

Definition sameEngine (a b : string) : bool := bool_decide (engine_address a = engine_address b).

(** What the inventory alone shows. *)
Definition plan_inventory (r : VMTransferRequest) (ownID : string) : TM W (TransferPlan * TransferServer * TransferServer * string) :=
  let mode := block (negb (bool_decide (tq_Mode r = "cold"%string) || bool_decide (tq_Mode r = "warm"%string))) BadMode in
  source ← call (GetServer (tq_SourceServerID r)) ;
  target ← call (GetServer (tq_TargetServerID r)) ;
  vm ← call (GetVM (tq_SourceServerID r) (tq_SourceVMID r)) ;
  policy ← call (GetMigrationPolicy (se_ID source) (mv_ClusterID vm)) ;
  let r' := if bool_decide (TrimSpace (tq_Name r) = ""%string) then set_Name (mv_Name vm) r else r in
  owner ← VMTransferOwner (se_ID source) (mv_ID vm) ;
  repository ← call (GetTransferRepository (tq_StorageTargetID r)) ;
  clusters ← call (ListClusters (se_ID target)) ;
  domains ← call (ListStorageDomains (se_ID target)) ;
  let found := List.filter (λ d, bool_decide (do_ID d = tq_StorageDomainID r) && bool_decide (do_Type d = "data"%string)
                 && bool_decide (do_Status d = "active"%string)) domains in
  let blockers := mode
    ++ block (negb (se_UsesOVirtAPI source) || negb (se_UsesOVirtAPI target)) NotOVirt
    ++ block (bool_decide (se_ID source = se_ID target) || sameEngine (se_EngineURL source) (se_EngineURL target)) SameEngine
    ++ block (negb (se_Enabled source) || negb (se_Enabled target)) ServerDisabled
    ++ block ((255 <? Z.of_nat (String.length (tq_Name r')))
              || existsb (λ c, bool_decide (c ∈ ["013"; "010"; "009"]%char)) (list_ascii_of_string (tq_Name r'))) BadName
    ++ block (negb (bool_decide (owner = ""%string)) && negb (bool_decide (owner = ownID))) (OwnedBy owner)
    ++ block (negb (rs_Enabled repository) || rs_ReadOnly repository) RepositoryReadOnly
    ++ block (negb (bool_decide (tq_ClusterID r ∈ clusters))) NoCluster
    ++ block (bool_decide (found = [])) NoDomain in
  let free := match last found with Some d => do_AvailableSize d | None => 0 end in
  mret (mkTransferPlan r' blockers (mv_Name vm) (mv_ClusterID vm) (Some policy) 0 free false [], source, target, mv_ID vm).

Definition usable_host (r : VMTransferRequest) (h : TransferHost) : bool :=
  bool_decide (ho_ClusterID h = tq_ClusterID r) && bool_decide (ho_Status h = "up"%string)
  && (bool_decide (tq_HostID r = ""%string) || bool_decide (tq_HostID r = ho_ID h)).

(** The space in the domain, as the host that will run the machine sees it. *)
Definition plan_host (r : VMTransferRequest) (target : string) (free : Z) : TM W (Z * list TransferBlocker) :=
  hosts ← call (ListHosts target) ;
  match List.find (usable_host r) hosts with
  | None => mret (free, [NoHost])
  | Some h =>
    if bool_decide (ho_ID h = ""%string) then mret (free, [NoHost]) else
    domains ← call (HostStorageDomains target (ho_ID h)) ;
    match last (List.filter (λ d, bool_decide (do_ID d = tq_StorageDomainID r)) domains) with
    | None => mret (free, [DomainDetached])
    | Some d => mret (do_AvailableSize d, [])
    end
  end.

Definition bad_disk (d : TransferDisk) : bool :=
  di_Inactive d || di_Shareable d || di_OnLun d
  || (negb (bool_decide (di_ContentType d = ""%string)) && negb (bool_decide (di_ContentType d = "data"%string))).

Definition total_size (disks : list TransferDisk) : Z :=
  fold_left (λ n d, i64 (n + di_ProvisionedSize d)) disks 0.

(** The mapping of a card: the last one given for it. *)
Fixpoint mappings_of (ms : list RestoreVMNetworkMapping) (seen : gmap string RestoreVMNetworkMapping) :
    gmap string RestoreVMNetworkMapping * list TransferBlocker :=
  match ms with
  | [] => (seen, [])
  | m :: ms =>
    let '(seen', bs) := mappings_of ms (<[nm_NICID m := m]> seen) in
    (seen', block (bool_decide (is_Some (seen !! nm_NICID m))) DoubleMapping ++ bs)
  end.

Definition nic_mapped (valid : list string) (m : option RestoreVMNetworkMapping) : bool :=
  match m with
  | None => false
  | Some m => nm_Exclude m
      || (bool_decide (nm_TargetID m ∈ valid) && bool_decide (nm_TargetKind m = "vnic_profile"%string))
  end.

(** Machines on the target that use one of the addresses. *)
Fixpoint taken_macs (target : string) (macs : list string) (existing : list VMState) : TM W (list TransferBlocker) :=
  match existing with
  | [] => mret []
  | v :: existing =>
    ns ← call (TransferNICs target (vs_ID v)) ;
    rest ← taken_macs target macs existing ;
    mret ((MACTaken ∘ ni_MAC <$> List.filter (λ n, bool_decide (ToLower (ni_MAC n) ∈ macs)) ns) ++ rest)
  end.

(** What the two engines show. *)
Definition plan_live (p : TransferPlan) (source target : TransferServer) (vm : string) : TM W TransferPlan :=
  let r := tp_Request p in
  call (PoolGet (se_ID source)) ;;
  call (PoolGet (se_ID target)) ;;
  state ← call (GetVMState (se_ID source) vm) ;
  existing ← call (SearchVMs (se_ID target)) ;
  raw ← call (VMConfiguration (se_ID source) vm) ;
  host ← plan_host r (se_ID target) (tp_AvailableBytes p) ;
  let '(free, host_blockers) := host in
  disks ← call (ListVMDisks (se_ID source) vm) ;
  let total := total_size disks in
  let warm := se_SupportsCBT source && negb (bool_decide (disks = []))
    && forallb (λ d, bool_decide (di_Backup d = "incremental"%string)) disks in
  nics ← call (TransferNICs (se_ID source) vm) ;
  valid ← call (ListVNICProfiles (se_ID target)) ;
  let '(mappings, double) := mappings_of (tq_NetworkMappings r) ∅ in
  macs ← (if tq_PreserveMAC r then taken_macs (se_ID target) (ToLower ∘ ni_MAC <$> nics) existing else mret []) ;
  let blockers :=
    (const NameTaken <$> List.filter (λ v, equal_fold (TrimSpace (vs_Name v)) (tq_Name r)) existing)
    ++ block (negb (bool_decide (vs_Status state = "up"%string) || bool_decide (vs_Status state = "down"%string)))
         (UnstableState (vs_Status state))
    ++ block (negb (bool_decide (profile_architecture raw = "x86_64"%string))) (BadArchitecture (profile_architecture raw))
    ++ block (profile_secure_boot raw) SecureBootVM
    ++ host_blockers
    ++ block (bool_decide (disks = [])) NoDisks
    ++ (BadDisk ∘ di_ID <$> List.filter bad_disk disks)
    ++ block (bool_decide (tq_Mode r = "warm"%string) && negb warm) NoWarm
    ++ block (free <? total) NoSpace
    ++ double
    ++ (UnmappedNIC ∘ ni_Name <$> List.filter (λ n, negb (nic_mapped valid (mappings !! ni_ID n))) nics)
    ++ macs in
  mret (mkTransferPlan r blockers (tp_SourceName p) (tp_SourceClusterID p) (tp_RecoveryPolicy p) total free warm nics).

Definition plan (r : VMTransferRequest) (ownID : string) : TM W TransferPlan :=
  found ← plan_inventory r ownID ;
  let '(p, source, target, vm) := found in
  if bool_decide (tp_Blockers p = []) then plan_live p source target vm else mret p.
End Plan.
