(* ===== verification/TransferRun.v ===== *)
(** One action of a migration, carried out by its worker
    ([vmtransfer/execute.go], [vmtransfer/recovery.go]).

    The worker holds the record in memory and saves it at each stage; what it asks
    of the engines may fail at any time, also because the context was cancelled. *)

From S2P Require Import Prelude StateM GoTime GoStr Transfers TransferPlan.

Section Worker.
Context {W : Type} `{!World W} `{!TransferTexts}.

Definition save : TM W () := UpdateVMTransfer.

(** A new stage. *)
Definition phase (p : string) : TM W () :=
  old ← t_get tf_Phase ;
  (if bool_decide (old = p) then mret () else now ← ask Now ; set_t (set_PhaseStartedAt now)) ;;
  set_t (set_Phase p) ;; save.

Definition recoveryEnabled (t : VMTransfer) : bool :=
  match tf_RecoveryPolicy t with Some p => rp_Enabled p | None => false end.
(** A permission of the policy, while it is in force. *)
Definition allows (f : MigrationRecoveryPolicy → bool) (t : VMTransfer) : bool :=
  match tf_RecoveryPolicy t with Some p => rp_Enabled p && f p | None => false end.

Definition powerTimeout (t : VMTransfer) : Z :=
  match tf_RecoveryPolicy t with
  | Some p => if rp_Enabled p then rp_PowerTimeoutSeconds p * Second else 600 * Second
  | None => 600 * Second
  end.

Definition source_server (t : VMTransfer) : string := tq_SourceServerID (tf_Request t).
Definition source_vm (t : VMTransfer) : string := tq_SourceVMID (tf_Request t).
Definition target_server (t : VMTransfer) : string := tq_TargetServerID (tf_Request t).
Definition owner_mark (id : string) : string := "jhvirt-transfer:" +:+ id.
Definition transferTargetOwned (t : VMTransfer) (v : VMState) : bool :=
  bool_decide (vs_Description v = owner_mark (tf_ID t)).

(** The end of a wait: the context or the deadline. *)
Definition wait_over {A} (late : TransferError) : TM W A :=
  cause ← ask ContextCause ;
  fail (match cause with Some _ => CallFailed CallCanceled | None => late end).

Fixpoint wait_status (polls : nat) (server vm : string) (wanted : list string) : TM W string :=
  status ← call (VMStatus server vm) ;
  if bool_decide (status ∈ wanted) then mret status else
  match polls with
  | O => wait_over (Refused "status not reached")
  | S polls => wait_status polls server vm wanted
  end.

Definition WaitVMStatus (server vm : string) (wanted : list string) (timeout : Z) : TM W string :=
  polls ← ask (Polls timeout) ; wait_status polls server vm wanted.

Fixpoint wait_deleted (polls : nat) (server vm : string) : TM W () :=
  r ← ask (GetVMState server vm) ;
  match r with
  | Err CallNotFound => mret ()
  | Err e => fail (CallFailed e)
  | Ok _ => match polls with O => wait_over (CallFailed CallDeadline) | S polls => wait_deleted polls server vm end
  end.

Definition WaitTransferVMDeleted (server vm : string) (timeout : Z) : TM W () :=
  polls ← ask (Polls timeout) ; wait_deleted polls server vm.

(** ** The shape of the source *)
Definition disk_shape (d : TransferDisk) : string * Z * string * bool * bool :=
  (di_ID d, di_ProvisionedSize d, di_Interface d, di_Bootable d, di_Inactive d).

Definition sourceShape : TM W string :=
  t ← t_get id ;
  call (PoolGet (source_server t)) ;;
  raw ← call (VMConfiguration (source_server t) (source_vm t)) ;
  disks ← call (ListVMDisks (source_server t) (source_vm t)) ;
  mret (shape_of raw (sort_stable (λ a b, String.ltb a.1.1.1.1 b.1.1.1.1) (disk_shape <$> disks))).

Definition checkSourceShape : TM W () :=
  shape ← sourceShape ;
  t ← t_get id ;
  if bool_decide (shape = tf_SourceShape t) then mret () else fail (Refused "source changed").

(** ** Stopping the source *)
(** The states a source may be switched off in, if the policy allows it. *)
Definition stuck_state (state : string) : bool :=
  bool_decide (state ∈ ["not_responding"; "powering_down"; "reboot_in_progress"]%string).

(** The power is cut only while the target is known to be off. *)
Definition force_stop_source : TM W () :=
  t ← t_get id ;
  (if bool_decide (tf_TargetVMID t = ""%string) then mret () else
     call (PoolGet (target_server t)) ;;
     v ← call (GetVMState (target_server t) (tf_TargetVMID t)) ;
     if negb (bool_decide (vs_Status v = "down"%string)) || negb (transferTargetOwned t v) then fail UnsafeRecovery else mret ()) ;;
  save ;;
  call (StopVM (source_server t) (source_vm t)) ;;
  WaitVMStatus (source_server t) (source_vm t) ["down"%string] (powerTimeout t) ;;
  mret ().

Definition shut_down_source : TM W () :=
  t ← t_get id ;
  (if tf_WasRunning t && bool_decide (tf_DowntimeStartedAt t = None)
   then now ← ask Now ; set_t (set_DowntimeStartedAt (Some now)) ;; save else mret ()) ;;
  r ← try (call (ShutdownVM (source_server t) (source_vm t)) ;;
           WaitVMStatus (source_server t) (source_vm t) ["down"%string] (powerTimeout t)) ;
  match r with
  | Ok _ => mret ()
  | Err e =>
    if negb (allows rp_AllowForceStopSource t) then fail e else
    cause ← ask ContextCause ;
    match cause with Some _ => fail e | None => force_stop_source end
  end.

Definition stopSource : TM W () :=
  phase "stopping_source" ;;
  t ← t_get id ;
  call (PoolGet (source_server t)) ;;
  state ← call (VMStatus (source_server t) (source_vm t)) ;
  (if bool_decide (state = "down"%string) then mret () else
   if negb (bool_decide (state = "up"%string)) && negb (allows rp_AllowForceStopSource t && stuck_state state)
   then fail (Refused "source state") else shut_down_source) ;;
  set_t (set_SourceStopped true) ;; save.

(** ** A backup for the migration *)
Definition backup (incremental : bool) : TM W (string * TransferRun) :=
  t ← t_get id ;
  runID ← call (BeginBackup (source_server t) (source_vm t) (tq_StorageTargetID (tf_Request t)) (tf_ID t) incremental) ;
  set_t (λ t, set_RunIDs (tf_RunIDs t ++ [runID]) t) ;;
  saved ← try save ;
  run ← call (FinishBackup runID) ;
  lift saved ;;
  if negb (ru_Succeeded run) || negb (bool_decide (ru_SkippedDisks run = [])) then fail (Refused "incomplete backup") else
  if incremental && negb (ru_Incremental run) then fail (Refused "chain changed") else
  call (VerifyQuick runID) ;;
  mret (runID, run).

(** ** The changes written to the target *)
Definition target_disk (t : VMTransfer) (disk : string) : string := default ""%string (tf_DiskMap t !! disk).

Definition check_disk (d : ChainDisk) : TM W () :=
  t ← t_get id ;
  if bool_decide (target_disk t (cd_ID d) = ""%string) then fail (Refused "disk not mapped") else
  lift (map_err CallFailed (cd_ChangedSince d)) ;;
  size ← call (GetDisk (target_server t) (target_disk t (cd_ID d))) ;
  if bool_decide (size = cd_VirtualSize d) then mret () else fail (Refused "disk size changed").

Fixpoint times (n : nat) (m : TM W ()) : TM W () :=
  match n with O => mret () | S n => m ;; times n m end.

Definition apply_disk (runID : string) (d : ChainDisk) : TM W () :=
  t ← t_get id ;
  saves ← ask (ProgressSaves runID (cd_ID d)) ;
  times saves (try save ;; mret ()) ;;
  call (RestoreDelta (target_server t) runID (cd_ID d) (target_disk t (cd_ID d)) (tf_AppliedRunID t)).

Definition synchronize (final : bool) : TM W () :=
  checkSourceShape ;;
  t ← t_get id ;
  call (PoolGet (target_server t)) ;;
  state ← call (VMStatus (target_server t) (tf_TargetVMID t)) ;
  if negb (bool_decide (state = "down"%string)) then fail (Refused "target is not down") else
  phase "copying_changes" ;;
  run ← backup true ;
  checkSourceShape ;;
  t ← t_get id ;
  disks ← call (LoadChainDisks run.1 (tf_AppliedRunID t)) ;
  if negb (bool_decide (length disks = size (tf_DiskMap t))) then fail (Refused "set of disks changed") else
  for_each check_disk disks ;;
  for_each (apply_disk run.1) disks ;;
  set_t (set_AppliedRunID run.1) ;;
  set_t (set_Status (if final then "running" else "ready")) ;;
  set_t (set_Phase (if final then "final_delta_applied" else "ready")) ;;
  save.

(** ** Starting the target *)
(** Which cards of the target are to be connected, by name. *)
Definition wanted_nics (ms : list RestoreVMNetworkMapping) (nics : list (string * string)) : gmap string bool :=
  fold_left (λ w nic, fold_left (λ w m,
    if bool_decide (nm_NICID m = nic.1) && negb (nm_Exclude m) then <[nic.2 := nm_Connected m]> w else w) ms w) nics ∅.

Definition connect_nics (t : VMTransfer) : TM W () :=
  nics ← call (TransferNICs (target_server t) (tf_TargetVMID t)) ;
  profile ← call (LoadProfileNICs (tf_AppliedRunID t)) ;
  match profile with
  | None => fail (Refused "no profile")
  | Some known =>
    let wanted := wanted_nics (tq_NetworkMappings (tf_Request t)) known in
    for_each (λ nic, call (SetTransferNIC (target_server t) (tf_TargetVMID t) (ni_ID nic)
      (default false (wanted !! ni_Name nic)))) nics
  end.

(** Another host of the cluster that sees the domain. *)
Fixpoint fallback_host (r : VMTransferRequest) (hosts : list TransferHost) : TM W () :=
  match hosts with
  | [] => fail (Refused "no host")
  | h :: hosts =>
    if negb (bool_decide (ho_Status h = "up"%string)) || negb (bool_decide (ho_ClusterID h = tq_ClusterID r))
    then fallback_host r hosts else
    storage ← try (call (HostStorageDomains (tq_TargetServerID r) (ho_ID h))) ;
    match storage with
    | Err _ => fallback_host r hosts
    | Ok domains =>
      if existsb (λ d, bool_decide (do_ID d = tq_StorageDomainID r) && bool_decide (do_Status d = "active"%string)) domains
      then set_t (λ t, set_Request (set_HostID (ho_ID h) (tf_Request t)) t) else fallback_host r hosts
    end
  end.

Definition host_ready (r : VMTransferRequest) (h : TransferHost) : bool :=
  bool_decide (ho_ID h = tq_HostID r) && bool_decide (ho_ClusterID h = tq_ClusterID r)
  && bool_decide (ho_Status h = "up"%string).

Definition choose_host (t : VMTransfer) : TM W () :=
  if bool_decide (tq_HostID (tf_Request t) = ""%string) then mret () else
  hosts ← call (ListHosts (target_server t)) ;
  if existsb (host_ready (tf_Request t)) hosts then mret () else
  if allows rp_AllowHostFallback t then fallback_host (tf_Request t) hosts else fail (Refused "host not available").

Fixpoint wait_guest (polls : nat) (server vm : string) (port : Z) : TM W () :=
  r ← try (v ← call (GetVMRecoveryState server vm) ;
           if bool_decide (vs_Status v = "up"%string) then call (CheckTCP (vs_IPs v) port) else fail (Refused "not up")) ;
  match r, polls with
  | Ok _, _ => mret ()
  | Err _, O => wait_over (CallFailed CallDeadline)
  | Err _, S polls => wait_guest polls server vm port
  end.

Definition waitTargetGuest : TM W () :=
  t ← t_get id ;
  match tf_RecoveryPolicy t with
  | Some p =>
    if negb (rp_Enabled p) || (rp_GuestProbePort p =? 0) then mret () else
    phase "checking_guest" ;;
    polls ← ask (Polls (rp_GuestReadyTimeoutSeconds p * Second)) ;
    call (PoolGet (target_server t)) ;;
    wait_guest polls (target_server t) (tf_TargetVMID t) (rp_GuestProbePort p)
  | None => mret ()
  end.

Definition startTarget : TM W () :=
  checkSourceShape ;;
  phase "starting_target" ;;
  t ← t_get id ;
  call (PoolGet (source_server t)) ;;
  state ← call (VMStatus (source_server t) (source_vm t)) ;
  if negb (bool_decide (state = "down"%string)) then fail (Refused "source is not down") else
  call (PoolGet (target_server t)) ;;
  connect_nics t ;;
  choose_host t ;;
  set_t (set_TargetStartRequested true) ;; save ;;
  t ← t_get id ;
  call (StartVMOnHost (target_server t) (tf_TargetVMID t) (tq_HostID (tf_Request t))) ;;
  set_t (set_TargetStarted true) ;; save ;;
  WaitVMStatus (target_server t) (tf_TargetVMID t) ["up"%string] (powerTimeout t) ;;
  waitTargetGuest ;;
  set_t (set_Status "awaiting_confirmation") ;;
  set_t (set_Phase "verify_application") ;; save.

Definition cutover : TM W () := stopSource ;; synchronize true ;; startTarget.

(** ** Preparing the target *)
Definition disconnected (r : VMTransferRequest) : VMTransferRequest :=
  mkTransferRequest (tq_SourceServerID r) (tq_SourceVMID r) (tq_TargetServerID r) (tq_ClusterID r) (tq_HostID r)
    (tq_StorageDomainID r) (tq_StorageTargetID r) (tq_Name r) (tq_Mode r)
    ((λ m, mkNetworkMapping (nm_NICID m) (nm_TargetID m) (nm_TargetKind m) (nm_Exclude m) false) <$> tq_NetworkMappings r)
    (tq_PreserveMAC r) (tq_Confirm r).

(** [RestoreVM] with its callbacks: the machine and each disk are saved as soon
    as they exist. *)
Definition restore_target (runID : string) : TM W string :=
  t ← t_get id ;
  vm ← call (CreateTargetVM (disconnected (tf_Request t)) runID (owner_mark (tf_ID t))) ;
  set_t (set_TargetVMID vm) ;; save ;;
  disks ← call (RestoredDisks runID) ;
  for_each (λ d, target ← call (RestoreDisk vm d) ;
                 set_t (λ t, set_DiskMap (<[d := target]> (tf_DiskMap t)) t) ;; save) disks ;;
  mret vm.

Definition prepare : TM W () :=
  t ← t_get id ;
  p ← plan (tf_Request t) (tf_ID t) ;
  if negb (bool_decide (tp_Blockers p = [])) then fail (Refused "blocked") else
  call (PoolGet (source_server t)) ;;
  state ← call (VMStatus (source_server t) (source_vm t)) ;
  set_t (set_WasRunning (bool_decide (state = "up"%string))) ;;
  shape ← sourceShape ;
  set_t (set_SourceShape shape) ;; save ;;
  SetVMDesiredState (source_server t) (source_vm t) DesiredAsIs true ;;
  (if bool_decide (tq_Mode (tf_Request t) = "cold"%string) then stopSource else mret ()) ;;
  phase "backup" ;;
  run ← backup false ;
  checkSourceShape ;;
  phase "restoring_target" ;;
  restore ← ask NewID ;
  set_t (set_RestoreID restore) ;; save ;;
  vm ← restore_target run.1 ;
  t ← t_get id ;
  if bool_decide (vm = ""%string) || negb (bool_decide (Z.of_nat (size (tf_DiskMap t)) = ru_DiskCount run.2))
  then fail (Refused "target incomplete") else
  set_t (set_AppliedRunID run.1) ;; save ;;
  if bool_decide (tq_Mode (tf_Request t) = "warm"%string) then synchronize false else startTarget.

(** ** Rolling back *)
(** The machine that was created just before a crash, by its mark. *)
Definition find_target : TM W () :=
  t ← t_get id ;
  if bool_decide (tf_TargetVMID t ≠ ""%string) then mret () else
  vms ← call (SearchVMs (target_server t)) ;
  let marked := List.filter (transferTargetOwned t) vms in
  match last marked with
  | None => mret ()
  | Some v =>
    set_t (set_TargetVMID (vs_ID v)) ;;
    if (1 <? length marked)%nat then fail UnsafeRecovery else mret ()
  end.

Definition check_owner (action : string) : TM W () :=
  t ← t_get id ;
  if recoveryEnabled t || bool_decide (action ∈ ["retry_prepare"; "hold"; "rollback_keep"]%string) then
    r ← ask (GetVMState (target_server t) (tf_TargetVMID t)) ;
    match r with
    | Ok v => if transferTargetOwned t v then mret () else fail UnsafeRecovery
    | Err CallNotFound => mret ()
    | Err e => fail (CallFailed e)
    end
  else mret ().

Definition force_stop_target : TM W () :=
  t ← t_get id ;
  save ;;
  call (StopVM (target_server t) (tf_TargetVMID t)) ;;
  WaitVMStatus (target_server t) (tf_TargetVMID t) ["down"%string] (powerTimeout t) ;;
  mret ().

Definition shut_down_target : TM W () :=
  t ← t_get id ;
  r ← try (call (ShutdownVM (target_server t) (tf_TargetVMID t)) ;;
           WaitVMStatus (target_server t) (tf_TargetVMID t) ["down"%string] (powerTimeout t)) ;
  match r with
  | Ok _ => mret ()
  | Err e =>
    if negb (allows rp_AllowForceStopTarget t) then fail e else
    cause ← ask ContextCause ;
    match cause with Some _ => fail e | None => force_stop_target end
  end.

(** The target is switched off and, unless it is to be kept, deleted. *)
Definition put_away_target (action : string) : TM W () :=
  t ← t_get id ;
  if bool_decide (tf_TargetVMID t = ""%string) then mret () else
  check_owner action ;;
  r ← ask (VMStatus (target_server t) (tf_TargetVMID t)) ;
  match r with
  | Err CallNotFound => mret ()
  | Err e => fail (CallFailed e)
  | Ok state =>
    (if bool_decide (state = "down"%string) then mret () else shut_down_target) ;;
    if bool_decide (action ∈ ["hold"; "rollback_keep"]%string) then mret () else
    call (DeleteVM (target_server t) (tf_TargetVMID t)) ;;
    WaitTransferVMDeleted (target_server t) (tf_TargetVMID t) (300 * Second)
  end.

Definition hold_source (state : string) : TM W () :=
  t ← t_get id ;
  (if bool_decide (state = "down"%string) then mret () else
     call (ShutdownVM (source_server t) (source_vm t)) ;;
     WaitVMStatus (source_server t) (source_vm t) ["down"%string] (powerTimeout t) ;; mret ()) ;;
  set_t (set_SourceStopped true) ;;
  set_t (set_Status "held") ;; set_t (set_Phase "held") ;;
  set_t (set_ManualPause true) ;; save.

(** The state a finished rollback leaves. *)
Definition rolled_back_status (action : string) : string :=
  if bool_decide (action = "rollback_keep") then "rolled_back_retained" else
  if bool_decide (action = "cancel") then "canceled" else
  if bool_decide (action = "retry_prepare") then "running" else "rolled_back".

Definition give_back (action : string) : TM W () :=
  t ← t_get id ;
  SetVMDesiredState (source_server t) (source_vm t) (tf_OriginalDesired t) (tf_OriginalOptOut t) ;;
  set_t (λ t, set_SourceStopped (negb (tf_WasRunning t)) (set_TargetStarted false (set_TargetStartRequested false
    (set_DowntimeStartedAt None t)))) ;;
  set_t (set_Status (rolled_back_status action)) ;; set_t (set_Phase (rolled_back_status action)) ;;
  save.

Definition start_source : TM W () :=
  t ← t_get id ;
  call (StartVM (source_server t) (source_vm t)) ;;
  WaitVMStatus (source_server t) (source_vm t) ["up"%string] (powerTimeout t) ;;
  mret ().

Definition rollback (action : string) : TM W () :=
  phase "rolling_back" ;;
  t ← t_get id ;
  call (PoolGet (target_server t)) ;;
  find_target ;;
  put_away_target action ;;
  call (PoolGet (source_server t)) ;;
  state ← call (VMStatus (source_server t) (source_vm t)) ;
  if bool_decide (action = "hold"%string) then hold_source state else
  (if tf_WasRunning t && bool_decide (state = "down"%string) then start_source else mret ()) ;;
  give_back action.

(** ** After a lost start of the target *)
Definition recoverTarget : TM W () :=
  t ← t_get id ;
  call (PoolGet (source_server t)) ;;
  state ← call (VMStatus (source_server t) (source_vm t)) ;
  if negb (bool_decide (state = "down"%string)) then fail UnsafeRecovery else
  call (PoolGet (target_server t)) ;;
  v ← call (GetVMState (target_server t) (tf_TargetVMID t)) ;
  if negb (transferTargetOwned t v) || negb (bool_decide (vs_ClusterID v = tq_ClusterID (tf_Request t)))
  then fail UnsafeRecovery else
  if bool_decide (vs_Status v = "down"%string) then startTarget else
  phase "recovering_target" ;;
  (if bool_decide (vs_Status v = "up"%string) then mret () else
   if negb (bool_decide (vs_Status v ∈ ["powering_up"; "wait_for_launch"; "restoring_state"]%string))
   then fail (Refused "target state") else
   WaitVMStatus (target_server t) (tf_TargetVMID t) ["up"%string] (powerTimeout t) ;; mret ()) ;;
  waitTargetGuest ;;
  set_t (set_TargetStarted true) ;;
  set_t (set_Status "awaiting_confirmation") ;;
  set_t (set_Phase "verify_application") ;; save.

(** ** Actions *)
(** A rollback, then a fresh start; not after the target was started. *)
Definition retry_prepare : TM W () :=
  t ← t_get id ;
  if tf_TargetStartRequested t || tf_TargetStarted t then fail UnsafeRecovery else
  rollback "retry_prepare" ;;
  set_t (λ t, set_TargetVMID "" (set_RestoreID "" (set_AppliedRunID "" (set_DiskMap ∅ (set_TargetStarted false
    (set_TargetStartRequested false (set_SourceStopped false (set_DowntimeStartedAt None t)))))))) ;;
  save ;;
  prepare.

Definition do_action (action : string) : TM W () :=
  if bool_decide (action = "prepare"%string) then prepare else
  if bool_decide (action = "sync"%string) then synchronize false else
  if bool_decide (action = "cutover"%string) then cutover else
  if bool_decide (action ∈ ["cancel"; "rollback"; "rollback_keep"; "hold"]%string) then rollback action else
  if bool_decide (action = "start_target"%string) then startTarget else
  if bool_decide (action = "recover_target"%string) then recoverTarget else
  if bool_decide (action = "retry_prepare"%string) then retry_prepare else fail (Refused "unknown action").

Definition performAction (action : string) : TM W () :=
  do_action action ;;
  t ← t_get id ;
  if negb (bool_decide (tf_RecoveryAction t = ""%string)) || negb (bool_decide (tf_NextRecoveryAt t = None))
  then set_t (λ t, set_RecoveryAction "" (set_NextRecoveryAt None t)) ;; save else mret ().

(** ** Failures *)
Definition is_rollback (action : string) : bool :=
  bool_decide (action ∈ ["rollback"; "cancel"; "rollback_keep"; "hold"]%string).
Definition budget_spent (reason : TransferError) : bool :=
  bool_decide (reason = DowntimeSpent) || bool_decide (reason = OperationTimeout).
Definition start_seen (t : VMTransfer) : bool := tf_TargetStarted t || tf_TargetStartRequested t.

(** The next try, while the policy has tries left. *)
Definition retry_action (t : VMTransfer) (action : string) : string :=
  if start_seen t then "recover_target" else
  if bool_decide (action = "prepare" ∨ action = "retry_prepare") then
    if negb (bool_decide (tf_TargetVMID t = "")) || negb (bool_decide (tf_RestoreID t = ""))
    then "retry_prepare" else "prepare"
  else if bool_decide (action = "sync" ∨ action = "cutover") then action else "rollback".

(** What the policy lets happen next; [None] when a person has to decide. *)
Definition next_action (p : MigrationRecoveryPolicy) (t : VMTransfer) (action : string) (reason : TransferError) : option string :=
  if bool_decide (reason = UnsafeRecovery) then None else
  if negb (is_rollback action) && negb (budget_spent reason) && (tf_RecoveryAttempts t <? rp_MaxRetries p)
  then Some (retry_action t action) else
  if negb (is_rollback action) && negb (rp_RollbackOnFailure p) then None else
  if negb (is_rollback action) && start_seen t && negb (rp_RollbackAfterTargetStart p) then None else
  if rp_MaxRollbackAttempts p <=? tf_RollbackAttempts t then None else
  Some (if bool_decide (action = "cancel") then "cancel" else "rollback").

Definition schedule (p : MigrationRecoveryPolicy) (now : Z) (action : string) (reason : TransferError) (t : VMTransfer) : VMTransfer :=
  let t := set_RecoveryAction "" (set_NextRecoveryAt None t) in
  match next_action p t action reason with
  | None => set_Status "blocked" t
  | Some next => set_NextRecoveryAt (Some (now + rp_RetryDelaySeconds p * Second))
      (set_Status "recovering" (set_RecoveryAction next t))
  end.

Definition scheduleRecovery (action : string) (reason : TransferError) : TM W () :=
  t ← t_get id ;
  match tf_RecoveryPolicy t with
  | None => mret ()
  | Some p => now ← ask Now ; set_t (schedule p now action reason)
  end.

Definition actionFailed (action : string) (e : TransferError) (cause : option TransferError) : TM W () :=
  if bool_decide (e = TransferChanged) then mret () else
  stopping ← ask Stopping ;
  t ← t_get id ;
  (if bool_decide (e = ManualPaused) || bool_decide (cause = Some ManualPaused) || stopping then
     set_t (λ t, set_Status "interrupted" (set_ManualPause (negb stopping) (set_RecoveryAction "" (set_NextRecoveryAt None t))))
   else if bool_decide (action ∈ ["hold"; "rollback_keep"]%string) then
     set_t (λ t, set_Status "interrupted" (set_ManualPause true (set_RecoveryAction "" (set_NextRecoveryAt None t))))
   else if recoveryEnabled t then scheduleRecovery action (default e cause)
   else set_t (set_Status (if bool_decide (e = CallFailed CallCanceled) then "interrupted" else "failed"))) ;;
  try save ;; mret ().

(** ** The watchdog *)
Definition watchdogReason (t : VMTransfer) (now lastProgress : Z) : option TransferError :=
  match tf_RecoveryPolicy t with
  | None => None
  | Some p =>
    if negb (rp_Enabled p) then None else
    let rolling := is_rollback (tf_ActiveAction t) || bool_decide (tf_Phase t = "rolling_back"%string) in
    if negb rolling && match tf_DowntimeStartedAt t with Some d => rp_MaxDowntimeSeconds p * Second <? now - d | None => false end
    then Some DowntimeSpent else
    if negb rolling && negb (tf_OperationStartedAt t =? zero_time) && (rp_OperationTimeoutSeconds p * Second <? now - tf_OperationStartedAt t)
    then Some OperationTimeout else
    if negb (tf_PhaseStartedAt t =? zero_time) && (rp_PhaseTimeoutSeconds p * Second <? now - tf_PhaseStartedAt t)
    then Some PhaseTimeout else
    if rp_NoProgressSeconds p * Second <? now - lastProgress then Some NoProgress else None
  end.
End Worker.
