(* ===== verification/TransferControl.v ===== *)
(** Starting, pausing and recovering migrations ([vmtransfer/service.go],
    [vmtransfer/recovery.go]). A worker that was started is a task: the record it
    was given and its action. *)

From S2P Require Import Prelude StateM GoTime GoStr Transfers TransferPlan TransferRun.

Definition Task : Type := VMTransfer * string.

Section Control.
Context {W : Type} `{!World W} `{!TransferTexts}.

(** ** Starting a worker *)
Definition startLocked (action : string) : TM W Task :=
  t ← t_get id ;
  lock ← call (TryVMTransferLock (tf_ID t)) ;
  if negb lock then fail (Refused "another instance works on it") else
  set_t (λ t, set_Status "queued" (set_Phase "queued" (set_PendingAction action (set_ActiveAction action t)))) ;;
  (if tf_OperationStartedAt t =? zero_time then now ← ask Now ; set_t (set_OperationStartedAt now) else mret ()) ;;
  ClaimVMTransfer (tf_Status t) ;;
  t ← t_get id ; mret (t, action).

(** ** A place among the workers *)
Definition is_cleanup (action : string) : bool :=
  bool_decide (action ∈ ["rollback"; "cancel"; "rollback_keep"; "hold"]%string).
Definition group_done (status : string) : bool :=
  bool_decide (status ∈ ["ready"; "awaiting_confirmation"; "completed"; "canceled"; "rolled_back"; "rolled_back_retained"]%string).

(** The limits of a group of migrations. *)
Definition group_admits (t : VMTransfer) (items : list VMTransfer) : bool :=
  let limit := if tf_BatchParallelism t <? 1 then 1 else tf_BatchParallelism t in
  let others := List.filter (λ o, bool_decide (tf_BatchID o = tf_BatchID t) && negb (bool_decide (tf_ID o = tf_ID t))) items in
  let running := Z.of_nat (length (List.filter (λ o, bool_decide (tf_Status o = "running"%string)) others)) in
  forallb (λ o, negb ((limit =? 1) && (tf_BatchIndex o <? tf_BatchIndex t) && negb (is_cleanup (tf_PendingAction t)))
    || group_done (tf_Status o)) others
  && (running <? limit).

(** Whether the stored record is still the one the worker was given. *)
Fixpoint still_ours (t : VMTransfer) (items : list VMTransfer) : result TransferError () :=
  match items with
  | [] => Ok ()
  | item :: items =>
    if bool_decide (tf_ID item = tf_ID t) then
      if tf_CancelRequested item then Err ManualPaused else
      if negb (tf_Revision item =? tf_Revision t) || negb (bool_decide (tf_Status item = "queued"%string))
      then Err TransferChanged else Ok ()
    else still_ours t items
  end.

(** One round of the loop: whether the worker may go on. [free]: a place is free. *)
Definition acquireSlot (free : bool) : TM W bool :=
  cause ← ask ContextCause ;
  match cause with Some _ => fail (CallFailed CallCanceled) | None =>
  t ← t_get id ;
  let grouped := negb (bool_decide (tf_BatchID t = ""%string)) in
  queue ← (if grouped && free then call (TryVMTransferQueueLock (tf_BatchID t)) else mret true) ;
  if negb queue then mret false else
  items ← ListVMTransfers ;
  lift (still_ours t items) ;;
  if negb (free && (negb grouped || group_admits t items)) then mret false else
  lock ← call (TryVMTransferLock (tf_ID t)) ;
  if negb lock then mret false else
  now ← ask Now ;
  set_t (λ t, set_Status "running" (set_PendingAction "" (set_PhaseStartedAt now t))) ;;
  ClaimVMTransfer "queued" ;;
  mret true
  end.

(** The goroutine of a worker; [false]: it still waits for its place. *)
Definition run_task (free : bool) (task : Task) : TM W bool :=
  set_t (λ _, task.1) ;;
  admitted ← try (acquireSlot free) ;
  match admitted with
  | Ok false => mret false
  | Err e => cause ← ask ContextCause ; actionFailed task.2 e cause ;; mret true
  | Ok true =>
    r ← try (performAction task.2) ;
    match r with
    | Ok _ => mret true
    | Err e => cause ← ask ContextCause ; actionFailed task.2 e cause ;; mret true
    end
  end.

(** ** What a person asks for *)
Definition resumeAction (t : VMTransfer) : string :=
  if negb (bool_decide (tf_PendingAction t = "")) then tf_PendingAction t else
  if bool_decide (tf_ActiveAction t ∈ ["rollback"; "cancel"; "rollback_keep"]) then tf_ActiveAction t else
  if start_seen t || bool_decide (tf_Phase t ∈ ["starting_target"; "checking_guest"; "verify_application"])
  then "recover_target" else
  if bool_decide (tf_Phase t = "final_delta_applied") then "start_target" else
  if bool_decide (tq_Mode (tf_Request t) = "warm") && negb (bool_decide (tf_TargetVMID t = ""))
     && negb (bool_decide (tf_AppliedRunID t = ""))
  then if bool_decide (tf_ActiveAction t = "cutover") || tf_SourceStopped t then "cutover" else "sync"
  else "retry_prepare".

Definition recoverAction (t : VMTransfer) : string :=
  if start_seen t then "recover_target" else
  if bool_decide (tf_ActiveAction t ∈ [""; "prepare"; "retry_prepare"]) then "retry_prepare" else tf_ActiveAction t.

Definition synchronizable (t : VMTransfer) : bool :=
  bool_decide (tq_Mode (tf_Request t) = "warm"%string) && negb (bool_decide (tf_TargetVMID t = ""%string))
  && negb (bool_decide (tf_AppliedRunID t = ""%string)) && negb (start_seen t)
  && bool_decide (tf_Status t ∈ ["ready"; "interrupted"; "failed"]%string).

Definition resumable (t : VMTransfer) : bool :=
  bool_decide (tf_Status t ∈ ["interrupted"; "failed"; "blocked"; "held"]%string).

(** The action that a request stands for; [None]: not in this state. *)
Definition chosen_action (t : VMTransfer) (action : string) : option string :=
  if bool_decide (action = "resume") then
    if resumable t then Some (resumeAction t) else None
  else if bool_decide (action = "recover") then
    if recoveryEnabled t && bool_decide (tf_Status t ∈ ["blocked"; "failed"; "interrupted"])
    then Some (recoverAction t) else None
  else if bool_decide (action ∈ ["sync"; "cutover"]) then
    if synchronizable t then Some action else None
  else if bool_decide (action ∈ ["cancel"; "rollback"; "rollback_keep"; "hold"]) then
    if released (tf_Status t) then None else Some action
  else None.

Definition pause_idle (confirm : bool) (t : VMTransfer) : TM W () :=
  if bool_decide (tf_Status t ∈ ["running"; "queued"; "recovering"]%string) then
    RequestVMTransferPause (tf_ID t) ;;
    if bool_decide (tf_Status t = "running"%string) then mret () else
    set_t (λ t, set_ManualPause true (set_Status "interrupted" (set_RecoveryAction "" (set_NextRecoveryAt None t)))) ;; save
  else if bool_decide (tf_Status t = "ready"%string) then
    if negb confirm then fail (Refused "confirm") else
    set_t (λ t, set_Status "interrupted" (set_ManualPause true t)) ;; save
  else fail (Refused "not allowed").

Definition complete (confirm : bool) (t : VMTransfer) : TM W () :=
  if negb (bool_decide (tf_Status t = "awaiting_confirmation"%string)) then fail (Refused "target not checked") else
  if negb confirm then fail (Refused "confirm") else
  call (PoolGet (source_server t)) ;;
  call (PoolGet (target_server t)) ;;
  sourceState ← call (VMStatus (source_server t) (source_vm t)) ;
  targetState ← call (VMStatus (target_server t) (tf_TargetVMID t)) ;
  if negb (bool_decide (sourceState = "down"%string)) || negb (bool_decide (targetState = "up"%string))
  then fail (Refused "not handed over") else
  set_t (λ t, set_Status "completed" (set_Phase "completed" t)) ;;
  ClaimVMTransfer (tf_Status t).

(** [active]: the migrations that have a worker. The result is the new worker, if
    one was started. *)
Definition Action (active : list string) (id action : string) (confirm : bool) : TM W (option Task) :=
  t ← GetVMTransfer id ;
  set_t (λ _, t) ;;
  if bool_decide (id ∈ active) then
    if bool_decide (action = "pause"%string) then RequestVMTransferPause id ;; mret None
    else fail (Refused "still working")
  else if bool_decide (action = "pause"%string) then pause_idle confirm t ;; mret None
  else if bool_decide (action = "forget"%string) then
    if negb confirm then fail (Refused "confirm") else DeleteReleasedVMTransfer id ;; mret None
  else if bool_decide (action = "complete"%string) then complete confirm t ;; mret None
  else match chosen_action t action with
  | None => fail (Refused "not allowed")
  | Some next =>
    if negb confirm then fail (Refused "confirm") else
    now ← ask Now ;
    set_t (λ t, set_ManualPause false (set_OperationStartedAt now (set_RecoveryAttempts 0 (set_RollbackAttempts 0
      (set_RecoveryAction "" (set_NextRecoveryAt None t)))))) ;;
    task ← startLocked next ; mret (Some task)
  end.

(** ** New migrations *)
Definition new_transfer (id : string) (p : TransferPlan) (vm : TransferVM) : VMTransfer :=
  mkVMTransfer id 0 false (tp_RecoveryPolicy p) "" "" 0 0 None false zero_time zero_time None false "" 0 0 "" ""
    (tp_Request p) "queued" "queued" "" "" [] "" ∅ (mv_DesiredState vm) (mv_RemediationOptOut vm)
    (negb (bool_decide (mv_Status vm = "down"%string))) false false.

(** [id]: the fresh identifier. *)
Definition Create (id : string) (r : VMTransferRequest) : TM W Task :=
  if negb (tq_Confirm r) then fail (Refused "confirm") else
  p ← plan r "" ;
  if negb (bool_decide (tp_Blockers p = [])) then fail (Refused "blocked") else
  vm ← call (GetVM (tq_SourceServerID r) (tq_SourceVMID r)) ;
  set_t (λ _, new_transfer id p vm) ;;
  t ← t_get (λ t, t) ;
  CreateVMTransfers [t] ;;
  startLocked "prepare".

(** ** Recovery *)
(** At the start of the service: nobody works on what was running. *)
Definition interrupt (t : VMTransfer) : TM W () :=
  if bool_decide (tf_Status t = "running"%string) || bool_decide (tf_Status t = "queued"%string) then
    lock ← call (TryVMTransferLock (tf_ID t)) ;
    if negb lock then mret () else
    set_t (λ _, set_Status "interrupted" t) ;; save
  else mret ().

Definition Recover : TM W () := items ← ListVMTransfers ; for_each interrupt items.

Definition recoverable (t : VMTransfer) : bool :=
  recoveryEnabled t && negb (tf_ManualPause t) && negb (tf_CancelRequested t)
  && bool_decide (tf_Status t ∈ ["recovering"; "interrupted"; "running"; "queued"]%string).

(** What was cut off gets its next action. *)
Definition plan_recovery : TM W () :=
  t ← t_get id ;
  (if negb (bool_decide (tf_PendingAction t = ""%string)) && bool_decide (tf_TargetVMID t = ""%string)
      && bool_decide (tf_ActiveAction t = "prepare"%string)
   then set_t (λ t, set_Status "recovering" (set_RecoveryAction (tf_PendingAction t) t))
   else scheduleRecovery (if bool_decide (tf_ActiveAction t = "") then "prepare" else tf_ActiveAction t)
          (Refused "the service was interrupted")) ;;
  save.

Definition count_attempt (t : VMTransfer) : VMTransfer :=
  if bool_decide (tf_RecoveryAction t ∈ ["rollback"; "cancel"]%string)
  then set_RollbackAttempts (tf_RollbackAttempts t + 1) t else set_RecoveryAttempts (tf_RecoveryAttempts t + 1) t.

Definition due (now : Z) (t : VMTransfer) : bool :=
  match tf_NextRecoveryAt t with Some next => next <=? now | None => true end.

(** One migration of [ReconcileRecovery]. *)
Definition reconcile_one (active : list string) (item : VMTransfer) : TM W (option Task) :=
  if negb (recoverable item) || bool_decide (tf_ID item ∈ active) then mret None else
  lock ← call (TryVMTransferLock (tf_ID item)) ;
  if negb lock then mret None else
  t ← GetVMTransfer (tf_ID item) ;
  set_t (λ _, t) ;;
  if negb (recoverable t) then mret None else
  let waiting := bool_decide (tf_Status t = "recovering"%string) in
  if negb waiting && negb (allows rp_ResumeAfterRestart t) then mret None else
  (if waiting then mret () else plan_recovery) ;;
  t ← t_get id ;
  if negb (bool_decide (tf_Status t = "recovering"%string)) then mret None else
  now ← ask Now ;
  if due now t then
    set_t count_attempt ;;
    task ← startLocked (tf_RecoveryAction t) ; mret (Some task)
  else mret None.

Fixpoint reconcile_all (active : list string) (items : list VMTransfer) : TM W (list Task) :=
  match items with
  | [] => mret []
  | item :: items =>
    r ← try (reconcile_one active item) ;
    rest ← reconcile_all active items ;
    mret (match r with Ok (Some task) => task :: rest | _ => rest end)
  end.

Definition ReconcileRecovery (active : list string) : TM W (list Task) :=
  items ← ListVMTransfers ; reconcile_all active items.
End Control.
