(* ===== verification/TransferMachine.v ===== *)
(** Groups of migrations ([vmtransfer/batch.go]), and the service of migrations over
    time as a step relation: people ask, workers work, the recovery looks around,
    the process stops and starts again.

    An operation may stop at any call or statement, and what it has written by then
    stays; a restart forgets the tasks. A worker's turn is one step: while it works
    no other operation touches its row but the flag of a pause. *)

From S2P Require Import Prelude StateM GoTime GoStr Transfers TransferPlan TransferRun TransferControl.

(** * Groups: a plan for all, one transaction that reserves every source, requests
    to each *)
Record VMTransferBatchRequest := mkBatchRequest {
  bq_Items : list VMTransferRequest; bq_Execution : string; bq_Parallelism : Z; bq_Confirm : bool
}.

Inductive BatchBlocker :=
| OfMachine (name : string) (b : TransferBlocker) | NameRepeated (name : string) | MACRepeated (mac : string) | NoSpaceForAll.

Record VMTransferBatchPlan := mkBatchPlan {
  bp_Items : list TransferPlan; bp_Blockers : list BatchBlocker; bp_TotalBytes : Z
}.

(** What the plan has counted so far. *)
Record BatchTally := mkBatchTally {
  ta_seen : gset string; ta_names : gset string; ta_macs : gset string;
  ta_needed : gmap string Z; ta_available : gmap string Z; ta_plan : VMTransferBatchPlan
}.

Section Batch.
Context {W : Type} `{!World W} `{!TransferTexts}.

Definition pair_key (a b : string) : string := a +:+ ":" +:+ b.

(** Addresses that two machines of the group would share. *)
Fixpoint repeated_macs (target : string) (nics : list TransferNIC) (macs : gset string) : gset string * list BatchBlocker :=
  match nics with
  | [] => (macs, [])
  | n :: nics =>
    let key := pair_key target (ToLower (ni_MAC n)) in
    let '(macs', bs) := repeated_macs target nics ({[key]} ∪ macs) in
    (macs', (if bool_decide (key ∈ macs) then [MACRepeated (ni_MAC n)] else []) ++ bs)
  end.

Definition count_plan (r : VMTransferRequest) (p : TransferPlan) (t : BatchTally) : BatchTally :=
  let name := pair_key (tq_TargetServerID r) (ToLower (TrimSpace (tq_Name (tp_Request p)))) in
  let '(macs, repeated) := if tq_PreserveMAC r then repeated_macs (tq_TargetServerID r) (tp_NICs p) (ta_macs t) else (ta_macs t, []) in
  let domain := pair_key (tq_TargetServerID r) (tq_StorageDomainID r) in
  let b := ta_plan t in
  mkBatchTally ({[pair_key (tq_SourceServerID r) (tq_SourceVMID r)]} ∪ ta_seen t) ({[name]} ∪ ta_names t) macs
    (<[domain := i64 (default 0 (ta_needed t !! domain) + tp_TotalBytes p)]> (ta_needed t))
    (match ta_available t !! domain with Some _ => ta_available t | None => <[domain := tp_AvailableBytes p]> (ta_available t) end)
    (mkBatchPlan (bp_Items b ++ [p])
      (bp_Blockers b ++ (OfMachine (tp_SourceName p) <$> tp_Blockers p)
        ++ (if bool_decide (name ∈ ta_names t) then [NameRepeated (tq_Name (tp_Request p))] else []) ++ repeated)
      (i64 (bp_TotalBytes b + tp_TotalBytes p))).

Fixpoint plan_items (rs : list VMTransferRequest) (t : BatchTally) : TM W BatchTally :=
  match rs with
  | [] => mret t
  | r :: rs =>
    if bool_decide (pair_key (tq_SourceServerID r) (tq_SourceVMID r) ∈ ta_seen t) then fail (Refused "machine repeated") else
    p ← plan r "" ;
    plan_items rs (count_plan r p t)
  end.

Definition short_domains (t : BatchTally) : list BatchBlocker :=
  const NoSpaceForAll <$> List.filter (λ d, default 0 (ta_available t !! d.1) <? d.2) (map_to_list (ta_needed t)).

Definition PlanBatch (r : VMTransferBatchRequest) : TM W VMTransferBatchPlan :=
  let n := Z.of_nat (length (bq_Items r)) in
  if (n <? 1) || (100 <? n) then fail (Refused "1 to 100 machines") else
  if negb (bool_decide (bq_Execution r ∈ ["sequential"; "parallel"]%string)) then fail (Refused "execution") else
  if bool_decide (bq_Execution r = "parallel"%string) && ((bq_Parallelism r <? 2) || (8 <? bq_Parallelism r))
  then fail (Refused "parallelism") else
  t ← plan_items (bq_Items r) (mkBatchTally ∅ ∅ ∅ ∅ ∅ (mkBatchPlan [] [] 0)) ;
  let p := ta_plan t in
  mret (mkBatchPlan (bp_Items p) (bp_Blockers p ++ short_domains t) (bp_TotalBytes p)).

(** ** Creation *)
Definition confirmed (r : VMTransferRequest) : VMTransferRequest :=
  mkTransferRequest (tq_SourceServerID r) (tq_SourceVMID r) (tq_TargetServerID r) (tq_ClusterID r) (tq_HostID r)
    (tq_StorageDomainID r) (tq_StorageTargetID r) (tq_Name r) (tq_Mode r) (tq_NetworkMappings r) (tq_PreserveMAC r) true.

Definition batch_transfer (id batch : string) (i parallelism : Z) (p : TransferPlan) (vm : TransferVM) : VMTransfer :=
  mkVMTransfer id 0 false (tp_RecoveryPolicy p) "" "" 0 0 None false zero_time zero_time None false batch i parallelism
    "prepare" "" (confirmed (tp_Request p)) "queued" "queued" "" "" [] "" ∅ (mv_DesiredState vm) (mv_RemediationOptOut vm)
    (negb (bool_decide (mv_Status vm = "down"%string))) false false.

Fixpoint batch_items (batch : string) (i parallelism : Z) (ids : list string) (ps : list TransferPlan) : TM W (list VMTransfer) :=
  match ids, ps with
  | id :: ids, p :: ps =>
    vm ← call (GetVM (tq_SourceServerID (tp_Request p)) (tq_SourceVMID (tp_Request p))) ;
    rest ← batch_items batch (i + 1) parallelism ids ps ;
    mret (batch_transfer id batch i parallelism p vm :: rest)
  | _, _ => mret []
  end.

(** The workers of a group; a migration that cannot be started is interrupted. *)
Fixpoint start_all (items : list VMTransfer) : TM W (list Task) :=
  match items with
  | [] => mret []
  | t :: items =>
    set_t (λ _, t) ;;
    r ← try (startLocked "prepare") ;
    match r with
    | Ok task => rest ← start_all items ; mret (task :: rest)
    | Err _ => set_t (set_Status "interrupted") ;; try save ;; start_all items
    end
  end.

(** [ids]: a fresh identifier for each machine. *)
Definition CreateBatch (batch : string) (ids : list string) (r : VMTransferBatchRequest) : TM W (list Task) :=
  if negb (bq_Confirm r) then fail (Refused "confirm") else
  p ← PlanBatch r ;
  if negb (bool_decide (bp_Blockers p = [])) then fail (Refused "blocked") else
  items ← batch_items batch 0 (if bool_decide (bq_Execution r = "sequential"%string) then 1 else bq_Parallelism r) ids (bp_Items p) ;
  CreateVMTransfers items ;;
  start_all items.

(** ** Requests to a group *)
Definition batchActionApplies (t : VMTransfer) (action : string) : bool :=
  let live := bool_decide (tf_Status t ∈ ["running"; "queued"; "recovering"]%string) in
  if bool_decide (action = "pause"%string) then live || bool_decide (tf_Status t = "ready"%string) else
  if bool_decide (action = "resume"%string) then resumable t else
  if bool_decide (action ∈ ["sync"; "cutover"]%string) then synchronizable t else
  if bool_decide (action = "complete"%string) then bool_decide (tf_Status t = "awaiting_confirmation"%string) else
  if bool_decide (action ∈ ["hold"; "rollback"; "rollback_keep"]%string) then
    negb live && negb (released (tf_Status t))
    && negb (bool_decide (action = "rollback_keep"%string) && bool_decide (tf_Status t = "rolled_back_retained"%string))
  else false.

Fixpoint act_on (active : list string) (action : string) (items : list VMTransfer) : TM W (list Task) :=
  match items with
  | [] => mret []
  | t :: items =>
    r ← try (Action active (tf_ID t) action true) ;
    match r with
    | Ok (Some task) => rest ← act_on (tf_ID task.1 :: active) action items ; mret (task :: rest)
    | _ => act_on active action items
    end
  end.

Definition BatchAction (active : list string) (batch action : string) (confirm : bool) : TM W (list Task) :=
  if negb confirm then fail (Refused "confirm") else
  if negb (bool_decide (action ∈ ["sync"; "cutover"; "pause"; "resume"; "rollback"; "rollback_keep"; "hold"; "complete"]%string))
  then fail (Refused "not for a group") else
  items ← ListVMTransfers ;
  let group := List.filter (λ t, bool_decide (tf_BatchID t = batch))
    (sort_stable (λ a b, tf_BatchIndex a <? tf_BatchIndex b) items) in
  if bool_decide (group = []) then fail (Refused "no such group") else
  act_on active action (List.filter (λ t, batchActionApplies t action) group).
End Batch.

(** * The service over time *)
Section Machine.
Context {W : Type} `{!World W} `{!TransferTexts}.

Record Machine := mkMachine { ma_service : Service W; ma_tasks : list Task }.

Definition active (tasks : list Task) : list string := (λ task, tf_ID task.1) <$> tasks.

(** An operation starts without a record in memory. *)
Definition no_transfer : VMTransfer :=
  mkVMTransfer "" 0 false None "" "" 0 0 None false zero_time zero_time None false "" 0 0 "" ""
    (mkTransferRequest "" "" "" "" "" "" "" "" "" [] false false) "" "" "" "" [] "" ∅ DesiredAsIs false false false false.
Definition idle (s : Service W) : Service W := with_t no_transfer s.

Definition event_transfer (e : Event) : string := match e with Ev transfer _ _ => transfer end.

(** An identifier nobody has used. *)
Definition unused (id : string) (m : Machine) : Prop :=
  id ≠ "" ∧ sv_rows (ma_service m) !! id = None ∧ (id ∉ active (ma_tasks m))
  ∧ Forall (λ e, event_transfer e ≠ id) (sv_trace (ma_service m)).

(** Any operation may stop half-way, whatever else goes on; the world outside
    changes at any time. [asked] are the actions that people may ask for. *)
Inductive step (asked : string → Prop) : Machine → Machine → Prop :=
| step_create id r s s' tasks task :
    unused id (mkMachine s tasks) → Create id r (idle s) = (s', Ok task) →
    step asked (mkMachine s tasks) (mkMachine s' (tasks ++ [task]))
| step_not_created id r s s' tasks e :
    unused id (mkMachine s tasks) → Create id r (idle s) = (s', Err e) →
    step asked (mkMachine s tasks) (mkMachine s' tasks)
| step_action id action confirm s s' tasks r :
    asked action → Action (active tasks) id action confirm (idle s) = (s', r) →
    step asked (mkMachine s tasks) (mkMachine s' (tasks ++ match r with Ok (Some task) => [task] | _ => [] end))
| step_create_batch batch ids r s s' tasks res :
    length ids = length (bq_Items r) → NoDup ids → Forall (λ id, unused id (mkMachine s tasks)) ids →
    CreateBatch batch ids r (idle s) = (s', res) →
    step asked (mkMachine s tasks) (mkMachine s' (tasks ++ match res with Ok new => new | Err _ => [] end))
| step_batch_action batch action confirm s s' tasks res :
    asked action → BatchAction (active tasks) batch action confirm (idle s) = (s', res) →
    step asked (mkMachine s tasks) (mkMachine s' (tasks ++ match res with Ok new => new | Err _ => [] end))
| step_work free s s' tasks1 task tasks2 r :
    run_task free task (idle s) = (s', r) →
    step asked (mkMachine s (tasks1 ++ task :: tasks2))
      (mkMachine s' (tasks1 ++ (match r with Ok false => [task] | _ => [] end) ++ tasks2))
| step_reconcile s s' tasks r :
    ReconcileRecovery (active tasks) (idle s) = (s', r) →
    step asked (mkMachine s tasks) (mkMachine s' (tasks ++ match r with Ok new => new | _ => [] end))
| step_restart s tasks : step asked (mkMachine s tasks) (mkMachine s [])
| step_recover s s' r : Recover (idle s) = (s', r) → step asked (mkMachine s []) (mkMachine s' [])
| step_world w life faults s tasks :
    step asked (mkMachine s tasks) (mkMachine (with_world w (with_luck life faults s)) tasks).

(** An empty table and nothing asked yet. *)
Definition initial (m : Machine) : Prop :=
  sv_rows (ma_service m) = ∅ ∧ sv_trace (ma_service m) = [] ∧ ma_tasks m = [].
End Machine.
