(* ===== verification/TransferFrame.v ===== *)
(** What the trace of a migration says about the power of its two machines, and
    the assertions that all the quiet parts of a worker keep. *)

From S2P Require Import Prelude StateM GoTime GoStr Transfers TransferPlan TransferRun TransferControl TransferMachine.

(** * Reading the trace *)
Section Trace.
(** A migration, its source and the server of its target. *)
Context (x ss sv ts : string).

(** The target this event asks to start; an empty identifier names no machine. *)
Definition target_start (e : Event) : option string :=
  match e with
  | Ev tag c _ =>
    match c with
    | StartVMOnHost s v _ => if bool_decide (tag = x ∧ s = ts ∧ v ≠ ""%string) then Some v else None
    | _ => None
    end
  end.

Definition source_start (e : Event) : bool :=
  match e with
  | Ev tag c _ => match c with StartVM s v => bool_decide (tag = x ∧ s = ss ∧ v = sv) | _ => false end
  end.

Definition delta_write (e : Event) : bool :=
  match e with
  | Ev tag c _ => match c with RestoreDelta _ _ _ _ _ => bool_decide (tag = x) | _ => false end
  end.

(** The machine of the target's server that this answer shows to be off, or,
    [strict], to be gone. *)
Definition seen_off (strict : bool) (e : Event) : option string :=
  match e with
  | Ev _ c a =>
    match c in Call A return A → option string with
    | VMStatus s v => λ a,
      if bool_decide (s = ts) && match a with
                                 | Ok status => negb strict && bool_decide (status = "down"%string)
                                 | Err CallNotFound => true
                                 | Err _ => false end then Some v else None
    | GetVMState s v => λ a,
      if bool_decide (s = ts) && match a with
                                 | Ok vm => negb strict && bool_decide (vs_Status vm = "down"%string)
                                 | Err CallNotFound => true
                                 | Err _ => false end then Some v else None
    | _ => λ _, None
    end a
  end.

(** The targets that were asked to start and not seen off since. *)
Fixpoint live (strict : bool) (tr : list Event) : gset string :=
  match tr with
  | [] => ∅
  | e :: tr =>
    match target_start e with
    | Some v => {[v]} ∪ live strict tr
    | None => match seen_off strict e with Some v => live strict tr ∖ {[v]} | None => live strict tr end
    end
  end.

(** Whether the last that is known of the source is that it is down. *)
Fixpoint source_off (tr : list Event) : bool :=
  match tr with
  | [] => false
  | Ev _ c a :: tr =>
    match c in Call A return A → bool with
    | VMStatus s v => λ a,
      if bool_decide (s = ss ∧ v = sv)
      then match a with Ok status => bool_decide (status = "down"%string) | Err _ => source_off tr end
      else source_off tr
    | StartVM s v => λ _, if bool_decide (s = ss ∧ v = sv) then false else source_off tr
    | _ => λ _, source_off tr
    end a
  end.

(** The target is asked to start only when the source was seen down and not asked
    to start since; the source is asked to start only when every target that was
    asked to start has been seen off since. *)
Fixpoint handover (tr : list Event) : Prop :=
  match tr with
  | [] => True
  | e :: tr => handover tr ∧ (target_start e ≠ None → source_off tr = true)
               ∧ (source_start e = true → live false tr = ∅)
  end.

(** Changes are written to the target only while no target has been asked to
    start, those seen gone apart. *)
Fixpoint untouched (tr : list Event) : Prop :=
  match tr with
  | [] => True
  | e :: tr => untouched tr ∧ (delta_write e = true → live true tr = ∅)
  end.

Definition safe (strict : bool) (tr : list Event) : Prop := if strict then untouched tr else handover tr.

Definition safe_event (strict : bool) (e : Event) (tr : list Event) : Prop :=
  if strict then delta_write e = true → live true tr = ∅
  else (target_start e ≠ None → source_off tr = true) ∧ (source_start e = true → live false tr = ∅).

Lemma safe_cons strict e tr : safe strict (e :: tr) ↔ safe strict tr ∧ safe_event strict e tr.
Proof. destruct strict; cbn; naive_solver. Qed.

Lemma live_off strict e tr : target_start e = None → live strict (e :: tr) ⊆ live strict tr.
Proof. intros He. cbn. rewrite He. destruct (seen_off strict e); set_solver. Qed.

Lemma live_named strict tr : ""%string ∉ live strict tr.
Proof.
  induction tr as [|e tr IH]; cbn; [set_solver|]. destruct (target_start e) as [v|] eqn:He.
  - assert (v ≠ ""%string). { destruct e as [A tag c a]. destruct c; cbn in He; try done. case_bool_decide; naive_solver. }
    set_solver.
  - destruct (seen_off strict e); set_solver.
Qed.

Lemma live_unused strict tr : Forall (λ e, event_transfer e ≠ x) tr → live strict tr = ∅.
Proof.
  induction 1 as [|e tr He _ IH]; cbn; [done|]. assert (target_start e = None) as ->.
  { destruct e as [A tag c a], c; try done. cbn in *. case_bool_decide; [|done]. by destruct_and!. }
  rewrite IH. destruct (seen_off strict e); set_solver.
Qed.

Lemma safe_unused strict tr : Forall (λ e, event_transfer e ≠ x) tr → safe strict tr.
Proof.
  induction 1 as [|e tr He _ IH]; [by destruct strict|]. apply safe_cons. split; [done|].
  destruct e as [A tag c a]. cbn in He.
  destruct strict; [|split]; destruct c; try done; cbn; case_bool_decide; by try destruct_and!.
Qed.
End Trace.

(** * Assertions *)
Section Frame.
Context {W : Type} `{!World W} `{!TransferTexts}.

(** Calls that neither change the power of a machine, nor write to the disks of
    one, nor look at the state of the source. *)
Definition quiet {A} (c : Call A) : bool :=
  match c with
  | StartVM _ _ | StartVMOnHost _ _ _ | RestoreDelta _ _ _ _ _ | VMStatus _ _ => false
  | _ => true
  end.

(** Changes of the record that the assertions below do not look at. *)
Record calm (f : VMTransfer → VMTransfer) : Prop := mkCalm {
  calm_id t : tf_ID (f t) = tf_ID t;
  calm_source t : source_server (f t) = source_server t ∧ source_vm (f t) = source_vm t ∧ target_server (f t) = target_server t;
  calm_target t : tf_TargetVMID (f t) = tf_TargetVMID t ∧ tf_TargetStartRequested (f t) = tf_TargetStartRequested t;
  calm_actions t : tf_PendingAction (f t) = tf_PendingAction t ∧ tf_ActiveAction (f t) = tf_ActiveAction t;
  calm_recovery t : tf_RecoveryAction (f t) = tf_RecoveryAction t ∨ tf_RecoveryAction (f t) = ""%string;
  calm_status t : tf_Status (f t) = tf_Status t ∨ tf_Status (f t) ≠ "recovering"%string
}.

(** The policy of the recovery and the tries it has counted. *)
Definition counters (t : VMTransfer) : option MigrationRecoveryPolicy * Z * Z :=
  (tf_RecoveryPolicy t, tf_RecoveryAttempts t, tf_RollbackAttempts t).
Definition uncounted (f : VMTransfer → VMTransfer) : Prop := ∀ t, counters (f t) = counters t.

(** What every part of a worker keeps that leaves the power alone. *)
Class Frame (I : Service W → Prop) : Prop := {
  frame_ask {A} (c : Call A) : quiet c = true → keeps I (ask c);
  frame_statement : keeps I statement;
  frame_set f : calm f → uncounted f → keeps I (set_t f);
  frame_save : keeps I save;
  frame_claim expected : keeps I (ClaimVMTransfer expected);
  frame_pause id : keeps I (RequestVMTransferPause id);
  frame_desired server vm state out : keeps I (SetVMDesiredState server vm state out)
}.

(** The state of a machine may be looked at as well. *)
Class Looks (I : Service W → Prop) : Prop := {
  looks_frame :: Frame I;
  looks_status server vm : keeps I (ask (VMStatus server vm))
}.

(** What the work of a worker keeps, up to its end or failure: it sets what it
    likes in its record, but neither the tries of the recovery nor the state that
    waits for one. *)
Class Works (I : Service W → Prop) : Prop := {
  works_looks :: Looks I;
  works_ask {A} (c : Call A) : keeps I (ask c);
  works_set f : (∀ t, tf_ID (f t) = tf_ID t ∧ counters (f t) = counters t
      ∧ (tf_Status (f t) = tf_Status t ∨ tf_Status (f t) ≠ "recovering"%string)) → keeps I (set_t f)
}.

(** What everything keeps that is done to a record, its identifier apart. *)
Class Free (I : Service W → Prop) : Prop := {
  free_looks :: Looks I;
  free_ask {A} (c : Call A) : keeps I (ask c);
  free_set f : (∀ t, tf_ID (f t) = tf_ID t) → keeps I (set_t f)
}.

#[export] Instance free_works (I : Service W → Prop) : Free I → Works I.
Proof. intros [Hl Ha Hs]. split; [done|done|]. intros f Hf. apply Hs. intros t. by destruct (Hf t). Qed.

Context (I : Service W → Prop).

Lemma keeps_call `{!Frame I} {A} (c : Call (result CallError A)) : quiet c = true → keeps I (call c).
Proof. intros Hc. apply keeps_bind; [by apply frame_ask|]. intros r. apply keeps_lift. Qed.

Lemma keeps_status `{!Looks I} server vm : keeps I (call (VMStatus server vm)).
Proof. apply keeps_bind; [apply looks_status|]. intros r. apply keeps_lift. Qed.

Lemma keeps_any_call `{!Works I} {A} (c : Call (result CallError A)) : keeps I (call c).
Proof. apply keeps_bind; [apply works_ask|]. intros r. apply keeps_lift. Qed.

Lemma hoare_after {A B} (f : TM W A) (g : A → TM W B) Q :
  keeps I f → (∀ e s, I s → Q (Err e) s) → (∀ a, hoare I (g a) Q) → hoare I (f ≫= g) Q.
Proof.
  intros Hf HQ Hg. eapply hoare_bind; [|exact Hg]. eapply hoare_weaken; [exact Hf|done|]. intros [a|e] s Hs; [done|by apply HQ].
Qed.

Lemma keeps_t_get {A} (f : VMTransfer → A) : keeps I (t_get f).
Proof. apply keeps_bind; [apply keeps_get|]. intros s. apply keeps_ret. Qed.
End Frame.

Ltac calm_tac :=
  split; intros ?; cbn; repeat case_match; first [done | split_and!; done | by left | by right].

Ltac works_tac :=
  intros ?; cbn; split_and!; [done..|]; unfold rolled_back_status; repeat case_match; first [by left | by right].

Create HintDb transfer.
#[export] Hint Resolve keeps_ret keeps_fail keeps_lift keeps_get keeps_t_get : transfer.
#[export] Hint Extern 0 (keeps _ statement) => apply frame_statement : transfer.
#[export] Hint Extern 0 (keeps _ save) => apply frame_save : transfer.
#[export] Hint Extern 0 (keeps _ (ClaimVMTransfer _)) => apply frame_claim : transfer.
#[export] Hint Extern 0 (keeps _ (RequestVMTransferPause _)) => apply frame_pause : transfer.
#[export] Hint Extern 0 (keeps _ (SetVMDesiredState _ _ _ _)) => apply frame_desired : transfer.
#[export] Hint Extern 1 (keeps _ (call (VMStatus _ _))) => apply keeps_status; apply _ : transfer.
#[export] Hint Extern 1 (keeps _ (ask (VMStatus _ _))) => apply looks_status : transfer.
#[export] Hint Extern 2 (keeps _ (call _)) => apply keeps_any_call; apply _ : transfer.
#[export] Hint Extern 2 (keeps _ (ask _)) => apply works_ask : transfer.
#[export] Hint Extern 1 (keeps _ (call _)) => apply keeps_call; [apply _|reflexivity] : transfer.
#[export] Hint Extern 1 (keeps _ (ask _)) => apply frame_ask; reflexivity : transfer.
#[export] Hint Extern 1 (keeps _ (set_t _)) => apply frame_set; [calm_tac|done] : transfer.
#[export] Hint Extern 2 (keeps _ (set_t _)) => apply works_set; works_tac : transfer.
#[export] Hint Extern 3 (keeps _ (set_t _)) => apply free_set; reflexivity : transfer.

Ltac keeps_tac :=
  repeat first
    [ progress eauto 2 with transfer | apply keeps_try | apply keeps_bind; [|intros ?]
    | apply keeps_for_each; intros ? _ | case_match ].

(** * What the quiet parts of a worker keep *)
Section Quiet.
Context {W : Type} `{!World W} `{!TransferTexts} (I : Service W → Prop) `{!Frame I}.

Lemma keeps_phase p : keeps I (phase p).
Proof. unfold phase. keeps_tac. Qed.
Lemma keeps_wait_over {A} e : keeps I (wait_over (A := A) e).
Proof. unfold wait_over. keeps_tac. Qed.
#[local] Hint Extern 3 (keeps _ _) => (simple apply keeps_phase; apply _) : transfer.
#[local] Hint Extern 3 (keeps _ _) => (simple apply keeps_wait_over; apply _) : transfer.

Lemma keeps_wait_deleted n server vm : keeps I (wait_deleted n server vm).
Proof. induction n; cbn; keeps_tac. Qed.
#[local] Hint Extern 3 (keeps _ _) => (simple apply keeps_wait_deleted; apply _) : transfer.
Lemma keeps_WaitDeleted server vm timeout : keeps I (WaitTransferVMDeleted server vm timeout).
Proof. unfold WaitTransferVMDeleted. keeps_tac. Qed.

Lemma keeps_sourceShape : keeps I sourceShape.
Proof. unfold sourceShape. keeps_tac. Qed.
#[local] Hint Extern 3 (keeps _ _) => (simple apply keeps_sourceShape; apply _) : transfer.
Lemma keeps_checkShape : keeps I checkSourceShape.
Proof. unfold checkSourceShape. keeps_tac. Qed.

Lemma keeps_backup incremental : keeps I (backup incremental).
Proof. unfold backup. keeps_tac. Qed.
Lemma keeps_check_disk d : keeps I (check_disk d).
Proof. unfold check_disk. keeps_tac. Qed.
Lemma keeps_times n m : keeps I m → keeps I (times n m).
Proof. intros Hm. induction n; cbn; keeps_tac. Qed.

Lemma keeps_connect t : keeps I (connect_nics t).
Proof. unfold connect_nics. keeps_tac. Qed.
Lemma keeps_fallback r hosts : keeps I (fallback_host r hosts).
Proof. induction hosts; cbn; keeps_tac. Qed.
#[local] Hint Extern 3 (keeps _ _) => (simple apply keeps_fallback; apply _) : transfer.
Lemma keeps_choose t : keeps I (choose_host t).
Proof. unfold choose_host. keeps_tac. Qed.

Lemma keeps_wait_guest n server vm port : keeps I (wait_guest n server vm port).
Proof. induction n; cbn; keeps_tac. Qed.
#[local] Hint Extern 3 (keeps _ _) => (simple apply keeps_wait_guest; apply _) : transfer.
Lemma keeps_waitGuest : keeps I waitTargetGuest.
Proof. unfold waitTargetGuest. keeps_tac. Qed.

Lemma keeps_check_owner action : keeps I (check_owner action).
Proof. unfold check_owner. keeps_tac. Qed.

Lemma keeps_owner server vm : keeps I (VMTransferOwner server vm).
Proof. unfold VMTransferOwner. keeps_tac. Qed.
#[local] Hint Extern 3 (keeps _ _) => (simple apply keeps_owner; apply _) : transfer.
Lemma keeps_plan_inventory r own : keeps I (plan_inventory r own).
Proof. unfold plan_inventory. keeps_tac. Qed.
Lemma keeps_plan_host r target free : keeps I (plan_host r target free).
Proof. unfold plan_host. keeps_tac. Qed.
Lemma keeps_macs target macs existing : keeps I (taken_macs target macs existing).
Proof. induction existing; cbn; keeps_tac. Qed.
#[local] Hint Extern 3 (keeps _ _) => (simple apply keeps_plan_inventory; apply _) : transfer.
#[local] Hint Extern 3 (keeps _ _) => (simple apply keeps_plan_host; apply _) : transfer.
#[local] Hint Extern 3 (keeps _ _) => (simple apply keeps_macs; apply _) : transfer.
Lemma keeps_plan r own : keeps I (plan r own).
Proof. unfold plan, plan_live. keeps_tac. Qed.
#[local] Hint Extern 3 (keeps _ _) => (simple apply keeps_plan; apply _) : transfer.
Lemma keeps_plan_items rs t : keeps I (plan_items rs t).
Proof. revert t. induction rs; intros t; cbn; keeps_tac. Qed.
#[local] Hint Extern 3 (keeps _ _) => (simple apply keeps_plan_items; apply _) : transfer.
Lemma keeps_PlanBatch r : keeps I (PlanBatch r).
Proof. unfold PlanBatch. keeps_tac. Qed.
Lemma keeps_batch_items batch i parallelism ids ps : keeps I (batch_items batch i parallelism ids ps).
Proof. revert i ps. induction ids; intros i [|p ps]; cbn; keeps_tac. Qed.
End Quiet.

#[export] Hint Extern 3 (keeps _ _) => (simple apply keeps_phase; apply _) : transfer.
#[export] Hint Extern 3 (keeps _ _) => (simple apply keeps_wait_over; apply _) : transfer.
#[export] Hint Extern 3 (keeps _ _) => (simple apply keeps_WaitDeleted; apply _) : transfer.
#[export] Hint Extern 3 (keeps _ _) => (simple apply keeps_sourceShape; apply _) : transfer.
#[export] Hint Extern 3 (keeps _ _) => (simple apply keeps_checkShape; apply _) : transfer.
#[export] Hint Extern 3 (keeps _ _) => (simple apply keeps_backup; apply _) : transfer.
#[export] Hint Extern 3 (keeps _ _) => (simple apply keeps_check_disk; apply _) : transfer.
#[export] Hint Extern 3 (keeps _ _) => (simple apply keeps_connect; apply _) : transfer.
#[export] Hint Extern 3 (keeps _ _) => (simple apply keeps_choose; apply _) : transfer.
#[export] Hint Extern 3 (keeps _ _) => (simple apply keeps_waitGuest; apply _) : transfer.
#[export] Hint Extern 3 (keeps _ _) => (simple apply keeps_check_owner; apply _) : transfer.
#[export] Hint Extern 3 (keeps _ _) => (simple apply keeps_plan; apply _) : transfer.
#[export] Hint Extern 3 (keeps _ _) => (simple apply keeps_PlanBatch; apply _) : transfer.
#[export] Hint Extern 3 (keeps _ _) => (simple apply keeps_batch_items; apply _) : transfer.

Section Looking.
Context {W : Type} `{!World W} `{!TransferTexts} (I : Service W → Prop) `{!Looks I}.

Lemma keeps_wait_status n server vm wanted : keeps I (wait_status n server vm wanted).
Proof. induction n; cbn; keeps_tac. Qed.
#[local] Hint Extern 3 (keeps _ _) => (simple apply keeps_wait_status; apply _) : transfer.
Lemma keeps_WaitStatus server vm wanted timeout : keeps I (WaitVMStatus server vm wanted timeout).
Proof. unfold WaitVMStatus. keeps_tac. Qed.
#[local] Hint Extern 3 (keeps _ _) => (simple apply keeps_WaitStatus; apply _) : transfer.

Lemma keeps_force_source : keeps I force_stop_source.
Proof. unfold force_stop_source. keeps_tac. Qed.
#[local] Hint Extern 3 (keeps _ _) => (simple apply keeps_force_source; apply _) : transfer.
Lemma keeps_shut_source : keeps I shut_down_source.
Proof. unfold shut_down_source. keeps_tac. Qed.
#[local] Hint Extern 3 (keeps _ _) => (simple apply keeps_shut_source; apply _) : transfer.
Lemma keeps_stopSource : keeps I stopSource.
Proof. unfold stopSource. keeps_tac. Qed.

Lemma keeps_force_target : keeps I force_stop_target.
Proof. unfold force_stop_target. keeps_tac. Qed.
#[local] Hint Extern 3 (keeps _ _) => (simple apply keeps_force_target; apply _) : transfer.
Lemma keeps_shut_target : keeps I shut_down_target.
Proof. unfold shut_down_target. keeps_tac. Qed.
#[local] Hint Extern 3 (keeps _ _) => (simple apply keeps_shut_target; apply _) : transfer.
Lemma keeps_put_away action : keeps I (put_away_target action).
Proof. unfold put_away_target. keeps_tac. Qed.
Lemma keeps_hold state : keeps I (hold_source state).
Proof. unfold hold_source. keeps_tac. Qed.
Lemma keeps_complete confirm t : keeps I (complete confirm t).
Proof. unfold complete. keeps_tac. Qed.
End Looking.

#[export] Hint Extern 3 (keeps _ _) => (simple apply keeps_WaitStatus; apply _) : transfer.
#[export] Hint Extern 3 (keeps _ _) => (simple apply keeps_stopSource; apply _) : transfer.
#[export] Hint Extern 3 (keeps _ _) => (simple apply keeps_shut_target; apply _) : transfer.
#[export] Hint Extern 3 (keeps _ _) => (simple apply keeps_put_away; apply _) : transfer.
#[export] Hint Extern 3 (keeps _ _) => (simple apply keeps_hold; apply _) : transfer.
#[export] Hint Extern 3 (keeps _ _) => (simple apply keeps_complete; apply _) : transfer.

(** * What the work of a worker keeps *)
Section Working.
Context {W : Type} `{!World W} `{!TransferTexts} (I : Service W → Prop) `{!Works I}.

Lemma keeps_apply_disk run d : keeps I (apply_disk run d).
Proof. unfold apply_disk. keeps_tac. apply keeps_times. keeps_tac. Qed.
#[local] Hint Extern 3 (keeps _ _) => (simple apply keeps_apply_disk; apply _) : transfer.
Lemma keeps_synchronize final : keeps I (synchronize final).
Proof. unfold synchronize. keeps_tac. Qed.
#[local] Hint Extern 3 (keeps _ _) => (simple apply keeps_synchronize; apply _) : transfer.
Lemma keeps_startTarget : keeps I startTarget.
Proof. unfold startTarget. keeps_tac. Qed.
#[local] Hint Extern 3 (keeps _ _) => (simple apply keeps_startTarget; apply _) : transfer.
Lemma keeps_restore_target run : keeps I (restore_target run).
Proof. unfold restore_target. keeps_tac. Qed.
#[local] Hint Extern 3 (keeps _ _) => (simple apply keeps_restore_target; apply _) : transfer.
Lemma keeps_prepare : keeps I prepare.
Proof. unfold prepare. keeps_tac. Qed.
#[local] Hint Extern 3 (keeps _ _) => (simple apply keeps_prepare; apply _) : transfer.
Lemma keeps_start_source : keeps I start_source.
Proof. unfold start_source. keeps_tac. Qed.
Lemma keeps_find_target : keeps I find_target.
Proof. unfold find_target. keeps_tac. Qed.
Lemma keeps_give_back action : keeps I (give_back action).
Proof. unfold give_back. keeps_tac. Qed.
#[local] Hint Extern 3 (keeps _ _) => (simple apply keeps_start_source; apply _) : transfer.
#[local] Hint Extern 3 (keeps _ _) => (simple apply keeps_find_target; apply _) : transfer.
#[local] Hint Extern 3 (keeps _ _) => (simple apply keeps_give_back; apply _) : transfer.
Lemma keeps_rollback action : keeps I (rollback action).
Proof. unfold rollback. keeps_tac. Qed.
#[local] Hint Extern 3 (keeps _ _) => (simple apply keeps_rollback; apply _) : transfer.
Lemma keeps_recoverTarget : keeps I recoverTarget.
Proof. unfold recoverTarget. keeps_tac. Qed.
#[local] Hint Extern 3 (keeps _ _) => (simple apply keeps_recoverTarget; apply _) : transfer.
Lemma keeps_do_action action : keeps I (do_action action).
Proof. unfold do_action, cutover, retry_prepare. keeps_tac. Qed.
#[local] Hint Extern 3 (keeps _ _) => (simple apply keeps_do_action; apply _) : transfer.
Lemma keeps_performAction action : keeps I (performAction action).
Proof. unfold performAction. keeps_tac. Qed.

Lemma keeps_acquireSlot free : keeps I (acquireSlot free).
Proof. unfold acquireSlot, ListVMTransfers. keeps_tac. Qed.
End Working.

#[export] Hint Extern 3 (keeps _ _) => (simple apply keeps_performAction; apply _) : transfer.
#[export] Hint Extern 3 (keeps _ _) => (simple apply keeps_acquireSlot; apply _) : transfer.

(** * What all of it keeps *)
Section Everything.
Context {W : Type} `{!World W} `{!TransferTexts} (I : Service W → Prop) `{!Free I}.

Lemma keeps_schedule action e : keeps I (scheduleRecovery action e).
Proof.
  unfold scheduleRecovery. keeps_tac. apply free_set. intros t. unfold schedule. by case_match.
Qed.
#[local] Hint Extern 3 (keeps _ _) => (simple apply keeps_schedule; apply _) : transfer.
Lemma keeps_actionFailed action e cause : keeps I (actionFailed action e cause).
Proof. unfold actionFailed. keeps_tac. Qed.

#[local] Hint Extern 3 (keeps _ _) => (simple apply keeps_actionFailed; apply _) : transfer.

Lemma keeps_run_task free task :
  keeps I (set_t (λ _, task.1)) → keeps I (run_task free task).
Proof. intros Hset. unfold run_task. apply keeps_bind; [done|intros _]. keeps_tac. Qed.

Lemma keeps_startLocked action : keeps I (startLocked action).
Proof. unfold startLocked. keeps_tac. Qed.
Lemma keeps_plan_recovery : keeps I plan_recovery.
Proof. unfold plan_recovery. keeps_tac. Qed.
Lemma keeps_pause_idle confirm t : keeps I (pause_idle confirm t).
Proof. unfold pause_idle. keeps_tac. Qed.
End Everything.

#[export] Hint Extern 3 (keeps _ _) => (simple apply keeps_actionFailed; apply _) : transfer.
#[export] Hint Extern 3 (keeps _ _) => (simple apply keeps_startLocked; apply _) : transfer.
#[export] Hint Extern 3 (keeps _ _) => (simple apply keeps_plan_recovery; apply _) : transfer.
#[export] Hint Extern 3 (keeps _ _) => (simple apply keeps_pause_idle; apply _) : transfer.
#[export] Hint Extern 3 (keeps _ _) => (simple apply keeps_schedule; apply _) : transfer.
