(* ===== verification/TransferSafe.v ===== *)
(** A migration never lets both machines run: the target is asked to start only
    after the source was seen down, and the source again only after the target was
    seen off; and nothing is written to a target that was asked to start. *)

From S2P Require Import Prelude StateM GoTime GoStr Transfers TransferPlan TransferRun TransferControl TransferMachine TransferFrame.

Section Safe.
Context {W : Type} `{!World W} `{!TransferTexts}.
(** The migration, its machines, and which of the two readings of the trace. *)
Context (x ss sv ts : string) (strict : bool).

#[local] Abbreviation live := (live x ts strict).
#[local] Abbreviation source_off := (source_off ss sv).
#[local] Abbreviation safe := (safe x ss sv ts strict).

(** Actions that write to the target. *)
Definition writes (action : string) : Prop := action ∈ ["prepare"; "sync"; "cutover"]%string.

#[export] Instance writes_dec action : Decision (writes action).
Proof. unfold writes. apply _. Defined.

(** A record that knows of every start of the target. *)
Record mine (tr : list Event) (t : VMTransfer) : Prop := {
  mi_id : tf_ID t = x;
  mi_source : source_server t = ss;
  mi_vm : source_vm t = sv;
  mi_target : target_server t = ts;
  mi_live v : v ∈ live tr → v = tf_TargetVMID t ∧ tf_TargetStartRequested t = true
}.

(** A record whose next actions fit its state. *)
Record ready (t : VMTransfer) : Prop := {
  rd_pending : writes (tf_PendingAction t) → tf_TargetStartRequested t = false;
  rd_recovery : tf_Status t = "recovering"%string → writes (tf_RecoveryAction t) → tf_TargetStartRequested t = false;
  rd_keep : strict = true → tf_PendingAction t ≠ "rollback_keep"%string ∧ tf_ActiveAction t ≠ "rollback_keep"%string
              ∧ tf_RecoveryAction t ≠ "rollback_keep"%string
}.

(** What a worker may know on top: the record in memory is this migration's; no
    start was requested; the source is down; no target is live; it runs; which
    machine the target is. *)
Record Marks := mkMarks {
  mk_here : bool; mk_unstarted : bool; mk_off : bool; mk_dead : bool; mk_running : bool; mk_target : option string
}.

Record marked (m : Marks) (s : Service W) : Prop := {
  md_unstarted : mk_unstarted m = true → tf_TargetStartRequested (sv_t s) = false;
  md_off : mk_off m = true → source_off (sv_trace s) = true;
  md_dead : mk_dead m = true → live (sv_trace s) = ∅;
  md_running : mk_running m = true → tf_PendingAction (sv_t s) = ""%string ∧ tf_Status (sv_t s) ≠ "recovering"%string;
  md_target v : mk_target m = Some v → tf_TargetVMID (sv_t s) = v
}.

Record inv (m : Marks) (s : Service W) : Prop := {
  in_safe : safe (sv_trace s);
  in_here : mk_here m = true → tf_ID (sv_t s) = x;
  in_row r : sv_rows s !! x = Some r → mine (sv_trace s) (tr_payload r) ∧ ready (tr_payload r);
  in_mem : tf_ID (sv_t s) = x → mine (sv_trace s) (sv_t s) ∧ ready (sv_t s) ∧ marked m s
}.

Lemma mine_mono tr tr' t : live tr' ⊆ live tr → mine tr t → mine tr' t.
Proof. intros Hsub []. split; [done..|]. intros v Hv. apply mi_live0. set_solver. Qed.

Lemma mine_dead tr t : live tr = ∅ → tf_ID t = x → source_server t = ss → source_vm t = sv → target_server t = ts → mine tr t.
Proof. intros Hl ? ? ? ?. split; [done..|]. intros v. rewrite Hl. set_solver. Qed.

Lemma mine_unstarted tr t : mine tr t → tf_TargetStartRequested t = false → live tr = ∅.
Proof. intros [] Hr. apply elem_of_equiv_empty_L. intros v (_ & ?)%mi_live0. congruence. Qed.

Lemma mine_unnamed tr t : mine tr t → tf_TargetVMID t = ""%string → live tr = ∅.
Proof.
  intros [] Ht. apply elem_of_equiv_empty_L. intros v Hv. destruct (mi_live0 v Hv) as [-> _]. rewrite Ht in Hv.
  by apply (live_named x ts strict) in Hv.
Qed.

(** ** One event *)
Lemma inv_event m e life (w : W) s :
  target_start x ts e = None → safe_event x ss sv ts strict e (sv_trace s) →
  (mk_off m = true → tf_ID (sv_t s) = x → source_off (sv_trace s) = true → source_off (e :: sv_trace s) = true) →
  inv m s → inv m (mkService w (e :: sv_trace s) life (sv_faults s) (sv_rows s) (sv_desired s) (sv_t s)).
Proof.
  intros He Hok Hoff [Hs Hh Hr Hm]. pose proof (live_off x ts strict e (sv_trace s) He) as Hsub. split; cbn [sv_trace sv_rows sv_t].
  - by apply safe_cons.
  - done.
  - intros r Hrow. destruct (Hr r Hrow). split; [by eapply mine_mono|done].
  - intros Hid. destruct (Hm Hid) as (? & ? & []). split_and!; [by eapply mine_mono|done|]. split; [done| | |done|done].
    + intros Ho. by apply Hoff, md_off0.
    + intros Hl. specialize (md_dead0 Hl). cbn [sv_trace]. set_solver.
Qed.

Lemma quiet_event {A} tag (c : Call A) a tr : quiet c = true →
  target_start x ts (Ev tag c a) = None ∧ source_start x ss sv (Ev tag c a) = false
  ∧ delta_write x (Ev tag c a) = false ∧ source_off (Ev tag c a :: tr) = source_off tr.
Proof. by destruct c. Qed.

Lemma unpowered_event e tr : target_start x ts e = None → source_start x ss sv e = false → delta_write x e = false →
  safe_event x ss sv ts strict e tr.
Proof. intros H1 H2 H3. unfold safe_event. rewrite H1, H2, H3. destruct strict; [done|]. by split. Qed.

Lemma inv_ask m {A} (c : Call A) : quiet c = true → keeps (inv m) (ask c).
Proof.
  intros Hc s Hs. unfold ask. destruct (sv_life s) as [|life]; [done|].
  destruct (ask_world A c (sv_world s)) as [w a]. destruct (quiet_event (tf_ID (sv_t s)) c a (sv_trace s) Hc) as (? & ? & ? & Ho).
  apply inv_event; [done|by apply unpowered_event|by rewrite Ho|done].
Qed.

Lemma inv_status m server vm : mk_off m = false → keeps (inv m) (ask (VMStatus server vm)).
Proof.
  intros Ho s Hs. unfold ask. destruct (sv_life s) as [|life]; [done|].
  destruct (ask_world _ _ _) as [w a]. apply inv_event; [done|by apply unpowered_event|by rewrite Ho|done].
Qed.

Lemma inv_statement m : keeps (inv m) statement.
Proof. intros s [Hs Hh Hr Hm]. unfold statement. destruct (sv_life s); split; cbn; try done; intros Hid; by destruct (Hm Hid) as (? & ? & []). Qed.

(** ** The record in memory *)
Lemma inv_set m m' (f : VMTransfer → VMTransfer) s :
  (mk_here m' = true → tf_ID (f (sv_t s)) = x) →
  (tf_ID (f (sv_t s)) = x → mine (sv_trace s) (f (sv_t s)) ∧ ready (f (sv_t s)) ∧ marked m' (with_t (f (sv_t s)) s)) →
  inv m s → inv m' (with_t (f (sv_t s)) s).
Proof. intros Hh Hf [Hs _ Hr _]. by split. Qed.

Lemma inv_set_t m m' f : (∀ s, inv m s → inv m' (with_t (f (sv_t s)) s)) →
  hoare (inv m) (set_t f) (λ _, inv m').
Proof. intros Hf s Hs. apply Hf, Hs. Qed.

Lemma mine_calm f tr t : calm f → mine tr t → mine tr (f t).
Proof.
  intros [Hid Hsrc Htgt _ _ _] []. destruct (Hsrc t) as (? & ? & ?), (Htgt t) as [Hv Hr].
  split; [congruence..|]. intros v Hin. rewrite Hv, Hr. by apply mi_live0.
Qed.

Lemma ready_calm f t : calm f → ready t → ready (f t).
Proof.
  intros [_ _ Htgt Hact Hrec Hst] []. destruct (Htgt t) as [Hv Hr], (Hact t) as [Hp Ha]. split; rewrite ?Hp, ?Ha, ?Hr.
  - done.
  - intros Hs. destruct (Hrec t) as [->| ->]; [|by inversion 1 as [|? ? ? Hin]; subst; set_solver].
    destruct (Hst t) as [Heq|]; [|done]. rewrite Heq in Hs. by apply rd_recovery0.
  - intros Hk. destruct (rd_keep0 Hk) as (? & ? & ?). split_and!; [done..|]. by destruct (Hrec t) as [->| ->].
Qed.

Lemma inv_calm m f : calm f → keeps (inv m) (set_t f).
Proof.
  intros Hf. apply inv_set_t. intros s Hs. apply (inv_set m); [| |done]; rewrite (calm_id f Hf); [apply Hs|].
  intros Hid. destruct (in_mem _ _ Hs Hid) as (? & ? & []).
  split_and!; [by apply mine_calm|by apply ready_calm|]. destruct Hf as [_ _ Htgt Hact _ Hst].
  destruct (Htgt (sv_t s)) as [Hv Hr], (Hact (sv_t s)) as [Hp _]. split; cbn [sv_t with_t]; rewrite ?Hr, ?Hp, ?Hv; try done.
  intros Hm. destruct (md_running0 Hm) as [? ?]. split; [done|]. by destruct (Hst (sv_t s)) as [->|].
Qed.

(** ** Statements on the record *)
Lemma calm_revision n : calm (set_Revision n).
Proof. calm_tac. Qed.

Lemma inv_update m f :
  (∀ r t r', f r t = Some r' → tr_payload r' = t) → keeps (inv m) (update_row f).
Proof.
  intros Hf. unfold update_row. apply keeps_bind; [apply inv_statement|intros _]. intros s Hs. run_st.
  destruct (sv_rows s !! tf_ID (sv_t s)) as [r|] eqn:Hrow; [|done].
  case_bool_decide; [|done]. destruct (f r _) as [r'|] eqn:Hr'; [|done]. apply Hf in Hr'. cbn.
  pose proof (inv_calm m _ (calm_revision (tf_Revision (sv_t s) + 1)) s Hs) as [Ha Hh Hb Hc].
  cbn [fst snd set_t modify] in *. split; cbn [sv_trace with_t with_rows sv_t sv_rows] in *; [done|done| |].
  - intros q Hq. destruct (decide (tf_ID (sv_t s) = x)) as [Hid|Hid].
    + rewrite Hid, lookup_insert_eq in Hq. injection Hq as <-. rewrite Hr'. by destruct (Hc Hid) as (? & ? & _).
    + rewrite lookup_insert_ne in Hq by done. by apply Hb.
  - intros Hid. destruct (Hc Hid) as (? & ? & []). by split_and!.
Qed.

Lemma inv_pause m id : keeps (inv m) (RequestVMTransferPause id).
Proof.
  unfold RequestVMTransferPause. apply keeps_bind; [apply inv_statement|intros _]. intros s [Ha Hh Hb Hc]. run_st.
  destruct (sv_rows s !! id) as [r|] eqn:Hrow; [|by split]. cbn. split; cbn [sv_trace with_rows sv_t sv_rows]; [done|done| |].
  - intros q Hq. destruct (decide (id = x)) as [->|Hid].
    + rewrite lookup_insert_eq in Hq. injection Hq as <-. by apply Hb in Hrow.
    + rewrite lookup_insert_ne in Hq by done. by apply Hb.
  - intros Hid. destruct (Hc Hid) as (? & ? & []). by split_and!.
Qed.

Lemma inv_desired m server vm st out : keeps (inv m) (SetVMDesiredState server vm st out).
Proof.
  unfold SetVMDesiredState. apply keeps_bind; [apply inv_statement|intros _]. intros s [Ha Hh Hb Hc]. run_st.
  destruct (sv_desired s !! (server, vm)); [|by split]. split; cbn; [done..|]. intros Hid. by destruct (Hc Hid) as (? & ? & []).
Qed.

#[export] Instance inv_frame m : Frame (inv m).
Proof.
  split.
  - intros A c. apply inv_ask.
  - apply inv_statement.
  - intros f Hf _. by apply inv_calm.
  - apply inv_update. intros r t r' [= <-]. done.
  - intros expected. apply inv_update. intros r t r'. case_bool_decide; [|done]. by intros [= <-].
  - apply inv_pause.
  - apply inv_desired.
Qed.

#[export] Instance inv_looks h z l p t : Looks (inv (mkMarks h z false l p t)).
Proof. split; [apply _|]. intros server vm. by apply inv_status. Qed.

(** ** Knowing less, and sequences *)
Definition weaker (m' m : Marks) : Prop :=
  (mk_here m' = true → mk_here m = true) ∧ (mk_unstarted m' = true → mk_unstarted m = true)
  ∧ (mk_off m' = true → mk_off m = true) ∧ (mk_dead m' = true → mk_dead m = true)
  ∧ (mk_running m' = true → mk_running m = true) ∧ (∀ v, mk_target m' = Some v → mk_target m = Some v).

Lemma inv_weaken m m' s : weaker m' m → inv m s → inv m' s.
Proof.
  intros (W1 & W2 & W3 & W4 & W5 & W6) [Hs Hh Hr Hm]. split; [done|by intros ?%W1; apply Hh|done|].
  intros Hid. destruct (Hm Hid) as (? & ? & []). split_and!; [done..|]. split; naive_solver.
Qed.

Lemma seq {A B} m m' (f : TM W A) (g : A → TM W B) :
  weaker m' m → keeps (inv m) f → (∀ a, hoare (inv m) (g a) (λ _, inv m')) → hoare (inv m) (f ≫= g) (λ _, inv m').
Proof.
  intros Hw Hf Hg. eapply hoare_bind; [|exact Hg]. eapply hoare_weaken; [exact Hf|done|].
  intros [a|e] s Hs; [done|]. by eapply inv_weaken.
Qed.

Lemma seq_to {A B} m m1 m' (f : TM W A) (g : A → TM W B) :
  hoare (inv m) f (λ r s, match r with Ok _ => inv m1 s | Err _ => inv m' s end) →
  (∀ a, hoare (inv m1) (g a) (λ _, inv m')) → hoare (inv m) (f ≫= g) (λ _, inv m').
Proof. intros Hf Hg. eapply hoare_bind; [exact Hf|exact Hg]. Qed.

Lemma keeps_end {A} m m' (f : TM W A) : weaker m' m → keeps (inv m) f → hoare (inv m) f (λ _, inv m').
Proof. intros Hw Hf. eapply hoare_weaken; [exact Hf|done|]. intros r s Hs. by eapply inv_weaken. Qed.

(** What reading the record tells. *)
Record known (m : Marks) (t : VMTransfer) : Prop := {
  kn_source : source_server t = ss;
  kn_vm : source_vm t = sv;
  kn_target : target_server t = ts;
  kn_named v : mk_target m = Some v → tf_TargetVMID t = v;
  kn_unstarted : mk_unstarted m = true → tf_TargetStartRequested t = false
}.

Lemma inv_known m s : mk_here m = true → inv m s → known m (sv_t s).
Proof.
  intros Hh Hs. destruct (in_mem _ _ Hs (in_here _ _ Hs Hh)) as ([] & _ & []). split; [done..|by apply md_target0|done].
Qed.

Lemma read_hoare {A} m (g : VMTransfer → TM W A) Q :
  mk_here m = true → (∀ t, known m t → hoare (inv m) (g t) Q) → hoare (inv m) (t ← t_get id ; g t) Q.
Proof. intros Hh Hg s Hs. apply (Hg (sv_t s)); [by apply inv_known|done]. Qed.

(** A computation that adds to what is known when it succeeds. *)
Definition reaches {A} (m m1 : Marks) (f : TM W A) : Prop :=
  hoare (inv m) f (λ r s, match r with Ok _ => inv m1 s | Err _ => inv m s end).

Lemma reaches_after {A B} m m1 (f : TM W A) (g : A → TM W B) :
  keeps (inv m) f → (∀ a, reaches m m1 (g a)) → reaches m m1 (f ≫= g).
Proof.
  intros Hf Hg. apply hoare_bind with (R := λ _, inv m); [|exact Hg]. eapply hoare_weaken; [exact Hf|done|]. by intros [] s.
Qed.

Lemma reaches_done {A} m m1 (a : A) (f : TM W ()) : reaches m m1 f → reaches m m1 (f ;; mret a).
Proof. intros Hf s Hs. specialize (Hf s Hs). run_st. by destruct (f s) as [s' []]. Qed.

(** A first way, and another one when it fails. *)
Lemma reaches_either {A} m m1 (f : TM W A) (g : TransferError → TM W ()) :
  reaches m m1 f → (∀ e, reaches m m1 (g e)) →
  reaches m m1 (r ← try f ; match r with Ok _ => mret () | Err e => g e end).
Proof.
  intros Hf Hg s Hs. specialize (Hf s Hs). unfold mbind, ST_bind, try.
  destruct (f s) as [s' [a|e]]; cbn in *; [done|]. by apply Hg.
Qed.

Lemma reaches_fail {A} m m1 e : reaches m m1 (@fail _ _ A e).
Proof. by intros s. Qed.

(** ** Writing changes to the target *)
Lemma inv_delta m server run disk target after : mk_here m = true → mk_unstarted m = true →
  keeps (inv m) (ask (RestoreDelta server run disk target after)).
Proof.
  intros Hh Hz s Hs. unfold ask.
  destruct (sv_life s) as [|life]; [done|]. destruct (ask_world _ _ _) as [w a]. apply inv_event; [done| |done|done].
  unfold safe_event. assert (live (sv_trace s) = ∅) as Hl.
  { destruct (in_mem _ _ Hs (in_here _ _ Hs Hh)) as (Hm & _ & []). by apply mine_unstarted in Hm; [|apply md_unstarted0]. }
  by destruct strict.
Qed.

Lemma inv_apply_disk m run d : mk_here m = true → mk_unstarted m = true → keeps (inv m) (apply_disk run d).
Proof.
  intros Hh Hz. unfold apply_disk. keeps_tac.
  - apply keeps_times. keeps_tac.
  - by apply inv_delta.
Qed.

#[local] Hint Extern 1 (keeps _ (apply_disk _ _)) => (apply inv_apply_disk; reflexivity) : transfer.

Lemma inv_synchronize h l p t final : h = true → keeps (inv (mkMarks h true false l p t)) (synchronize final).
Proof.
  intros ->. unfold synchronize. keeps_tac.
Qed.

(** ** Starting the target *)
(** The request to start is in the record and in the table. *)
Definition requested (s : Service W) : Prop :=
  tf_TargetStartRequested (sv_t s) = true
  ∧ ∀ r, sv_rows s !! x = Some r →
      tf_TargetVMID (tr_payload r) = tf_TargetVMID (sv_t s) ∧ tf_TargetStartRequested (tr_payload r) = true.

Lemma update_saved (s s' : Service W) : save s = (s', Ok ()) →
  sv_trace s' = sv_trace s ∧ sv_t s' = set_Revision (tf_Revision (sv_t s) + 1) (sv_t s)
  ∧ ∃ c, sv_rows s' !! tf_ID (sv_t s) = Some (mkTransferRow (sv_t s') c (tf_TargetVMID (sv_t s))).
Proof.
  unfold save, UpdateVMTransfer, update_row. intros (s1 & [] & Hst & Hrun)%bind_ok.
  assert (sv_trace s1 = sv_trace s ∧ sv_t s1 = sv_t s) as [Htr Ht].
  { unfold statement in Hst. destruct (sv_life s); [done|]. by injection Hst as <- _. }
  revert Hrun. run_st. cbn zeta. rewrite Ht. destruct (sv_rows s1 !! tf_ID (sv_t s)) as [r|] eqn:Hr; [|done].
  case_bool_decide; [|done]. intros [= <-]. cbn [sv_trace with_t with_rows sv_t sv_rows]. split_and!; [done..|].
  rewrite lookup_insert_eq. by exists (tr_cancel_requested r).
Qed.

Lemma request_start z o l t : 
  hoare (inv (mkMarks true z o l true t)) (set_t (set_TargetStartRequested true) ;; save)
    (λ r s, inv (mkMarks true false o l true t) s ∧ (is_ok r = true → requested s)).
Proof.
  intros s Hs. set (s1 := with_t (set_TargetStartRequested true (sv_t s)) s).
  assert (inv (mkMarks true false o l true t) s1) as Hs1.
  { destruct (in_mem _ _ Hs (in_here _ _ Hs eq_refl)) as ([] & [] & []). destruct md_running0 as [Hp Hst]; [done|].
    eapply inv_set; [done| |exact Hs]. intros _. split_and!.
    - split; [done..|]. intros v Hv. by destruct (mi_live0 v Hv).
    - split; cbn; [|done|done]. rewrite Hp. intros Hw. unfold writes in Hw. set_solver.
    - by split. }
  change ((set_t _ ;; save) s) with (save s1). pose proof (frame_save (I := inv (mkMarks true false o l true t)) s1 Hs1) as Hs2.
  split; [exact Hs2|]. destruct (save s1) as [s2 [[]|e]] eqn:Hsave; cbn [fst snd] in *; [|done]. intros _.
  apply update_saved in Hsave as (_ & Ht & c & Hrow). pose proof (in_here _ _ Hs1 eq_refl) as Hid.
  split; [by rewrite Ht|]. intros r Hr. rewrite Hid, Ht in Hrow. rewrite Hrow in Hr. injection Hr as <-. by rewrite Ht.
Qed.

Lemma start_sent l t host s :
  inv (mkMarks true false true l true t) s → requested s →
  inv (mkMarks true false false false true t) (call (StartVMOnHost ts (tf_TargetVMID (sv_t s)) host) s).1.
Proof.
  intros Hs [Hreq Hrows]. unfold call, ask. run_st. destruct (sv_life s) as [|life].
  { eapply inv_weaken; [|exact Hs]. by split_and!. }
  destruct (ask_world _ _ _) as [w a]. cbn [fst]. set (e := Ev _ _ _).
  pose proof (in_here _ _ Hs eq_refl) as Hid. destruct (in_mem _ _ Hs Hid) as (Hm & Hrd & []).
  assert (∀ v, v ∈ live (e :: sv_trace s) → v = tf_TargetVMID (sv_t s)) as Hl.
  { intros v. cbn. case_bool_decide; [|by intros []%(mi_live _ _ Hm)].
    intros [->%elem_of_singleton|[]%(mi_live _ _ Hm)]%elem_of_union; done. }
  split; cbn [sv_trace sv_rows sv_t].
  - apply safe_cons. split; [apply Hs|]. unfold safe_event. destruct strict; [done|]. split; [|done].
    intros _. by apply md_off0.
  - done.
  - intros r Hr. destruct (in_row _ _ Hs r Hr) as [[] Hready]. split; [|done]. split; [done..|].
    intros v Hv%Hl. destruct (Hrows r Hr) as [-> ?]. done.
  - intros _. split_and!; [|done|].
    + destruct Hm. split; [done..|]. intros v Hv%Hl. done.
    + by split.
Qed.

Lemma look_source z l p t :
  hoare (inv (mkMarks true z false l p t)) (call (VMStatus ss sv))
    (λ r s, inv (mkMarks true z false l p t) s ∧ (r = Ok "down"%string → inv (mkMarks true z true l p t) s)).
Proof.
  intros s Hs. pose proof (keeps_status (inv (mkMarks true z false l p t)) ss sv s Hs) as Hs'. split; [exact Hs'|].
  revert Hs'. unfold call, ask. run_st. destruct (sv_life s) as [|life]; [done|]. destruct (ask_world _ _ _) as [w a].
  cbn [fst snd map_err]. intros [Ha Hh Hb Hc] Heq. split; [done..|]. intros Hid. destruct (Hc Hid) as (? & ? & []).
  split_and!; [done..|]. split; try done. intros _. cbn. rewrite bool_decide_eq_true_2 by done.
  destruct a as [status|e]; [|done]. injection Heq as ->. done.
Qed.

Lemma inv_startTarget z l t :
  hoare (inv (mkMarks true z false l true t)) startTarget (λ _, inv (mkMarks true false false false true None)).
Proof.
  assert (∀ z o l t, weaker (mkMarks true false false false true None) (mkMarks true z o l true t)) as Hw.
  { intros. by split_and!. }
  unfold startTarget. apply (seq (mkMarks true z false l true t)); [done|keeps_tac|intros _].
  apply (seq (mkMarks true z false l true t)); [done|keeps_tac|intros _]. apply read_hoare; [done|]. intros rec Hk.
  apply (seq (mkMarks true z false l true t)); [done|keeps_tac|intros _].
  rewrite (kn_source _ _ Hk), (kn_vm _ _ Hk).
  eapply hoare_bind with (R := λ state s, inv (mkMarks true z false l true t) s
    ∧ (state = "down"%string → inv (mkMarks true z true l true t) s)).
  { eapply hoare_weaken; [apply look_source|done|]. intros [state|e] s [H1 H2].
    - split; [done|]. intros ->. by apply H2.
    - by eapply inv_weaken. }
  intros state s [Hs Hoff]. case_bool_decide as Hd; cbn [negb]; [|by eapply inv_weaken]. specialize (Hoff Hd). clear Hs.
  revert s Hoff. change (hoare (inv (mkMarks true z true l true t))
    (call (PoolGet (target_server rec)) ;; connect_nics rec ;; choose_host rec ;;
     set_t (set_TargetStartRequested true) ;; save ;;
     t ← t_get id ;
     call (StartVMOnHost (target_server t) (tf_TargetVMID t) (tq_HostID (tf_Request t))) ;;
     set_t (set_TargetStarted true) ;; save ;;
     WaitVMStatus (target_server t) (tf_TargetVMID t) ["up"%string] (powerTimeout t) ;;
     waitTargetGuest ;; set_t (set_Status "awaiting_confirmation") ;; set_t (set_Phase "verify_application") ;; save)
    (λ _, inv (mkMarks true false false false true None))).
  do 3 (apply (seq (mkMarks true z true l true t)); [done|keeps_tac|intros _]).
  intros s Hs. apply (request_start z true l t) in Hs as [Hs Hreq]. revert Hs Hreq.
  set (s1 := with_t (set_TargetStartRequested true (sv_t s)) s).
  change ((set_t (set_TargetStartRequested true) ;; save) s) with (save s1).
  unfold mbind at 1, ST_bind at 1. change (set_t (set_TargetStartRequested true) s) with (s1, @Ok TransferError () tt).
  cbv beta iota. unfold mbind at 1, ST_bind at 1. destruct (save s1) as [s2 [[]|e]]; cbn [fst snd is_ok].
  2: { intros Hs _. by eapply inv_weaken. }
  intros Hs Hreq. specialize (Hreq eq_refl).
  assert (target_server (sv_t s2) = ts) as Hts by (by destruct (inv_known (mkMarks true false true l true t) s2 eq_refl Hs)).
  unfold mbind at 1, ST_bind at 1. change (t_get id s2) with (s2, @Ok TransferError _ (sv_t s2)). cbv beta iota. rewrite Hts.
  pose proof (start_sent l t (tq_HostID (tf_Request (sv_t s2))) s2 Hs Hreq) as H3.
  unfold mbind at 1, ST_bind at 1. destruct (call (StartVMOnHost _ _ _) s2) as [s3 [[]|e]]; cbn [fst] in *; [|by eapply inv_weaken].
  generalize dependent s3. change (hoare (inv (mkMarks true false false false true t))
    (set_t (set_TargetStarted true) ;; save ;;
     WaitVMStatus ts (tf_TargetVMID (sv_t s2)) ["up"%string] (powerTimeout (sv_t s2)) ;;
     waitTargetGuest ;; set_t (set_Status "awaiting_confirmation") ;; set_t (set_Phase "verify_application") ;; save)
    (λ _, inv (mkMarks true false false false true None))).
  apply keeps_end; [done|]. keeps_tac.
Qed.

(** ** Seeing the target off *)
Definition dead_if (b : bool) (m : Marks) : Marks :=
  mkMarks (mk_here m) (mk_unstarted m) (mk_off m) (mk_dead m || b) (mk_running m) (mk_target m).

Lemma inv_dead m b s : inv m s → (b = true → live (sv_trace s) = ∅) → inv (dead_if b m) s.
Proof.
  intros [Hs Hh Hr Hm] Hd. split; [done..|]. intros Hid. destruct (Hm Hid) as (? & ? & []). split_and!; [done..|].
  split; try done. intros [Hl|Hb]%orb_true_iff; auto.
Qed.

Definition shows_off (a : result CallError string) : bool :=
  match a with Ok status => negb strict && bool_decide (status = "down"%string) | Err CallNotFound => true | Err _ => false end.

Section Looking.
Context (z l p : bool) (v : string).
#[local] Abbreviation m := (mkMarks true z false l p (Some v)).

(** The only target that can be live is the one looked at. *)
Lemma live_looked s e : inv m s → target_start x ts e = None → seen_off ts strict e = Some v → live (e :: sv_trace s) = ∅.
Proof.
  intros Hs He Hoff. destruct (in_mem _ _ Hs (in_here _ _ Hs eq_refl)) as (Hm & _ & []). cbn. rewrite He, Hoff.
  apply elem_of_equiv_empty_L. intros u [Hu Hne]%elem_of_difference. apply (mi_live _ _ Hm) in Hu as [-> _].
  rewrite (md_target0 v eq_refl) in Hne. set_solver.
Qed.

Lemma look_target :
  hoare (inv m) (ask (VMStatus ts v))
    (λ r s, match r with Ok a => inv (dead_if (shows_off a) m) s | Err _ => inv m s end).
Proof.
  intros s Hs. pose proof (looks_status (I := inv m) ts v s Hs) as Hs'. revert Hs'. unfold ask. destruct (sv_life s) as [|life]; [done|].
  destruct (ask_world _ _ _) as [w a]. cbn [fst snd]. intros Hs'. apply inv_dead; [done|]. intros Ha. cbn [sv_trace].
  apply live_looked; [done..|]. cbn. rewrite bool_decide_eq_true_2 by done. unfold shows_off in Ha. by rewrite Ha.
Qed.

Lemma dead_weaker b : weaker m (dead_if b m).
Proof. split_and!; try done; cbn. by intros ->. Qed.

Lemma look_down :
  hoare (inv m) (call (VMStatus ts v))
    (λ r s, inv m s ∧ (r = Ok "down"%string → inv (dead_if (negb strict) m) s)).
Proof.
  intros s Hs. pose proof (look_target s Hs) as Ha. unfold call. run_st. destruct (ask _ s) as [s' [a|e]]; cbn in *; [|by split].
  split; [eapply inv_weaken; [apply dead_weaker|exact Ha]|]. destruct a as [status|e]; [|done]. intros [= ->].
  cbn in Ha. by rewrite bool_decide_eq_true_2, andb_true_r in Ha by done.
Qed.

Lemma wait_over_fails {A} e (s : Service W) : is_ok (wait_over (A := A) e s).2 = false.
Proof. unfold wait_over. run_st. by destruct (ask ContextCause s) as [? [|]]. Qed.

(** Over at the end of the wait: nothing more is known. *)
Lemma wait_over_ends {A} e (Q : A → Service W → Prop) :
  hoare (inv m) (wait_over (A := A) e) (λ r s, match r with Ok a => Q a s | Err _ => inv m s end).
Proof.
  intros s Hs. pose proof (keeps_wait_over (inv m) (A := A) e s Hs) as Hk. pose proof (wait_over_fails (A := A) e s) as Hf.
  by destruct (wait_over _ s) as [s' []].
Qed.

Lemma wait_target n :
  hoare (inv m) (wait_status n ts v ["down"%string])
    (λ r s, match r with Ok _ => inv (dead_if (negb strict) m) s | Err _ => inv m s end).
Proof.
  induction n as [|n IH]; cbn [wait_status].
  all: apply hoare_bind with (R := λ state s, inv m s ∧ (state = "down"%string → inv (dead_if (negb strict) m) s));
    [eapply hoare_weaken; [apply look_down|done|]; intros [state|e] s [H1 H2]; [split; [done|intros ->; by apply H2]|exact H1]|].
  all: intros state s [H1 H2]; case_bool_decide as Hin; [apply list_elem_of_singleton in Hin; subst state; by apply H2|].
  - by apply (wait_over_ends (Refused "status not reached") (λ _, inv (dead_if (negb strict) m))).
  - by apply IH.
Qed.

Lemma look_gone :
  hoare (inv m) (ask (GetVMState ts v))
    (λ r s, inv m s ∧ (r = Ok (Err CallNotFound) → inv (dead_if true m) s)).
Proof.
  intros s Hs. pose proof (frame_ask (I := inv m) (GetVMState ts v) eq_refl s Hs) as Hs'. split; [exact Hs'|].
  revert Hs'. unfold ask. destruct (sv_life s) as [|life]; [done|]. destruct (ask_world _ _ _) as [w a].
  cbn [fst snd]. intros Hs' [= ->]. apply inv_dead; [done|]. intros _. cbn [sv_trace]. apply live_looked; [done..|].
  cbn. by rewrite bool_decide_eq_true_2.
Qed.

Lemma wait_gone n :
  hoare (inv m) (wait_deleted n ts v) (λ r s, match r with Ok _ => inv (dead_if true m) s | Err _ => inv m s end).
Proof.
  induction n as [|n IH]; cbn [wait_deleted].
  all: apply hoare_bind with (R := λ a s, inv m s ∧ (a = Err CallNotFound → inv (dead_if true m) s));
    [eapply hoare_weaken; [apply look_gone|done|]; intros [a|e] s [H1 H2]; [split; [done|intros ->; by apply H2]|exact H1]|].
  all: intros [vm|[]] s [H1 H2]; try done; try by apply H2.
  - by apply (wait_over_ends (CallFailed CallDeadline) (λ _, inv (dead_if true m))).
  - by apply IH.
Qed.

(** Switched off by request or by force. *)
Lemma WaitVMStatus_dead timeout : reaches m (dead_if (negb strict) m) (WaitVMStatus ts v ["down"%string] timeout).
Proof. apply reaches_after; [keeps_tac|]. apply wait_target. Qed.

Lemma shut_target_dead : reaches m (dead_if (negb strict) m) shut_down_target.
Proof.
  apply read_hoare; [done|]. intros t [_ _ -> Hv _]. rewrite (Hv v eq_refl). apply reaches_either.
  - apply reaches_after; [keeps_tac|]. intros _. apply WaitVMStatus_dead.
  - intros e. destruct (allows _ t); cbn [negb]; [|apply reaches_fail]. apply reaches_after; [keeps_tac|]. intros [c|]; [apply reaches_fail|].
    apply read_hoare; [done|]. intros t' [_ _ -> Hv' _]. rewrite (Hv' v eq_refl).
    do 2 (apply reaches_after; [keeps_tac|intros _]).
    intros s Hs. specialize (WaitVMStatus_dead (powerTimeout t') s Hs). run_st. by destruct (WaitVMStatus _ _ _ _ s) as [? []].
Qed.

(** What put the target away. *)
Definition kept (action : string) : bool := bool_decide (action ∈ ["hold"; "rollback_keep"]%string).

Lemma put_away_named action t : known m t → tf_TargetVMID t = v →
  reaches m (dead_if (negb strict || negb (kept action)) m) (
    check_owner action ;;
    r ← ask (VMStatus (target_server t) (tf_TargetVMID t)) ;
    match r with
    | Err CallNotFound => mret ()
    | Err e => fail (CallFailed e)
    | Ok state =>
      (if bool_decide (state = "down"%string) then mret () else shut_down_target) ;;
      if bool_decide (action ∈ ["hold"; "rollback_keep"]%string) then mret () else
      call (DeleteVM (target_server t) (tf_TargetVMID t)) ;;
      WaitTransferVMDeleted (target_server t) (tf_TargetVMID t) (300 * Second)
    end).
Proof.
  intros [_ _ -> _ _] ->. apply reaches_after; [keeps_tac|intros _].
  apply hoare_bind with (R := λ a, inv (dead_if (shows_off a) m)).
  { eapply hoare_weaken; [apply look_target|done|]. by intros [] s. }
  assert (∀ b, weaker m (dead_if b m)) as Hw by apply dead_weaker.
  intros [state|[]] s Hs; try (by eapply inv_weaken).
  2: { eapply inv_dead; [by eapply inv_weaken|]. intros _. by destruct (in_mem _ _ Hs (in_here _ _ Hs eq_refl)) as (_ & _ & []); apply md_dead0, orb_true_r. }
  revert s Hs. change (hoare (inv (dead_if (shows_off (Ok state)) m)) ((if bool_decide (state = "down"%string) then mret () else shut_down_target) ;;
      if bool_decide (action ∈ ["hold"; "rollback_keep"]%string) then mret () else
      call (DeleteVM ts v) ;; WaitTransferVMDeleted ts v (300 * Second))
     (λ r s, match r with Ok _ => inv (dead_if (negb strict || negb (kept action)) m) s | Err _ => inv m s end)).
  apply hoare_bind with (R := λ _, inv (dead_if (negb strict) m)).
  { case_bool_decide as Hd; cbn [shows_off].
    - intros s Hs. cbn. rewrite bool_decide_eq_true_2, andb_true_r in Hs by done. done.
    - eapply hoare_weaken; [apply shut_target_dead|intros s Hs; by eapply inv_weaken|]. by intros [] s. }
  intros _. unfold kept. case_bool_decide; cbn [negb]; [by rewrite orb_false_r; intros s|]. rewrite orb_true_r.
  assert (reaches m (dead_if true m) (call (DeleteVM ts v) ;; WaitTransferVMDeleted ts v (300 * Second))) as Hgone.
  { do 2 (apply reaches_after; [keeps_tac|intros ?]). apply wait_gone. }
  intros s Hs. apply Hgone. by eapply inv_weaken.
Qed.
End Looking.

Definition named (v : string) (m : Marks) : Marks :=
  mkMarks (mk_here m) (mk_unstarted m) (mk_off m) (mk_dead m) (mk_running m) (Some v).

Lemma read_named {A} m (g : VMTransfer → TM W A) Q :
  mk_here m = true →
  (∀ t, known (named (tf_TargetVMID t) m) t → hoare (inv (named (tf_TargetVMID t) m)) (g t) Q) →
  hoare (inv m) (t ← t_get id ; g t) Q.
Proof.
  intros Hh Hg s Hs. assert (inv (named (tf_TargetVMID (sv_t s)) m) s) as Hs'.
  { destruct Hs as [H1 H2 H3 H4]. split; [done..|]. intros Hid. destruct (H4 Hid) as (? & ? & []). split_and!; [done..|].
    split; try done. by intros ? [= <-]. }
  apply (Hg (sv_t s)); [by apply inv_known|done].
Qed.

(** ** Rolling back *)
Section Rollback.
Context (z l p : bool).
#[local] Abbreviation m := (mkMarks true z false l p None).

Lemma put_away_dead action : reaches m (dead_if (negb strict || negb (kept action)) m) (put_away_target action).
Proof.
  apply read_named; [done|]. intros t Hk. cbn [named] in *.
  assert (∀ b, weaker (dead_if b m) (dead_if b (mkMarks true z false l p (Some (tf_TargetVMID t))))) as Hw by (by intros b; split_and!).
  case_bool_decide as Hn.
  - intros s Hs. cbn. apply inv_dead; [by eapply inv_weaken; [|exact Hs]; split_and!|]. intros _.
    destruct (in_mem _ _ Hs (in_here _ _ Hs eq_refl)) as (Hm & _ & []). eapply mine_unnamed; [exact Hm|].
    rewrite (md_target0 (tf_TargetVMID t)); done.
  - eapply hoare_weaken; [by apply put_away_named|done|]. intros [a|e] s Hs; [eapply inv_weaken; [apply Hw|exact Hs]|].
    eapply inv_weaken; [|exact Hs]. by split_and!.
Qed.

(** A target that was found by its mark is not live: it had no name so far. *)
Lemma inv_find_target : keeps (inv m) find_target.
Proof.
  apply read_named; [done|]. intros t Hk. cbn [named] in *.
  assert (∀ (f : TM W ()), keeps (inv (mkMarks true z false l p (Some (tf_TargetVMID t)))) f →
    hoare (inv (mkMarks true z false l p (Some (tf_TargetVMID t)))) f (λ _, inv m)) as Hlast.
  { intros f. apply keeps_end. by split_and!. }
  case_bool_decide as Hn; [apply Hlast; keeps_tac|].
  eapply seq; [by split_and!|keeps_tac|]. intros vms.
  destruct (last _) as [vm|]; [|apply Hlast; keeps_tac].
  apply hoare_bind with (R := λ _, inv m); [|intros _; apply (keeps_end m); [by split_and!|keeps_tac]].
  apply inv_set_t. intros s Hs. pose proof (in_here _ _ Hs eq_refl) as Hid. destruct (in_mem _ _ Hs Hid) as (Hm & Hr & []).
  assert (live (sv_trace s) = ∅) as Hl.
  { eapply mine_unnamed; [exact Hm|]. by rewrite (md_target0 _ eq_refl). }
  eapply inv_set; [done| |exact Hs]. intros _. destruct Hm. split_and!; [by apply mine_dead| |by split]. by destruct Hr; split.
Qed.

(** The source is started only when no target is live. *)
Lemma inv_start_source : strict = true ∨ l = true → keeps (inv m) start_source.
Proof.
  intros Hd. apply read_hoare; [done|]. intros t [-> -> _ _ _]. keeps_tac. intros s Hs. unfold ask.
  destruct (sv_life s) as [|life]; [done|]. destruct (ask_world _ _ _) as [w a]. apply inv_event; [done| |done|done].
  assert (strict = false → live (sv_trace s) = ∅) as Hl.
  { intros E. destruct Hd as [|Hd]; [congruence|].
    destruct (in_mem _ _ Hs (in_here _ _ Hs eq_refl)) as (_ & _ & []). by apply md_dead0. }
  unfold safe_event. destruct strict; [done|]. split; [done|]. intros _. by apply Hl.
Qed.
End Rollback.

Lemma inv_give_back z action :
  hoare (inv (mkMarks true z false true true None)) (give_back action)
    (λ r, match r with Ok _ => inv (mkMarks true true false true true None) | Err _ => inv (mkMarks true false false false true None) end).
Proof.
  apply read_hoare; [done|]. intros t _.
  apply hoare_bind with (R := λ _, inv (mkMarks true z false true true None)).
  { eapply hoare_weaken; [apply frame_desired|done|]. intros [] s Hs; [done|]. eapply inv_weaken; [|exact Hs]. by split_and!. }
  intros _. apply hoare_bind with (R := λ _, inv (mkMarks true true false true true None)).
  - apply inv_set_t. intros s Hs. destruct (in_mem _ _ Hs (in_here _ _ Hs eq_refl)) as ([] & [] & []).
    apply (inv_set (mkMarks true z false true true None) _ (λ t, set_SourceStopped (negb (tf_WasRunning t))
      (set_TargetStarted false (set_TargetStartRequested false (set_DowntimeStartedAt None t))))); [done| |done].
    intros _. split_and!; [by apply mine_dead; [apply md_dead0|..]|by split|by split].
  - intros _. eapply hoare_weaken with (P' := inv (mkMarks true true false true true None))
      (Q' := λ _, inv (mkMarks true true false true true None)); [|done|].
    + unfold rolled_back_status. keeps_tac.
    + intros [] s Hs; [done|]. eapply inv_weaken; [|exact Hs]. by split_and!.
Qed.

(** A running worker of this migration; [fresh] one whose target was not asked to start. *)
Definition working : Marks := mkMarks true false false false true None.
Definition fresh : Marks := mkMarks true true false false true None.

Lemma inv_fresh m s : weaker fresh m → inv m s → inv fresh s.
Proof. apply inv_weaken. Qed.

Lemma fresh_working s : inv fresh s → inv working s.
Proof. apply inv_weaken. by split_and!. Qed.
#[local] Hint Resolve fresh_working : core.

Lemma inv_rollback z action :
  (strict = true → action ≠ "rollback_keep"%string) →
  hoare (inv (mkMarks true z false false true None)) (rollback action)
    (λ r, match r with
          | Ok _ => inv (if bool_decide (action = "hold"%string) then working else fresh)
          | Err _ => inv working end).
Proof.
  intros Hkeep. set (m := mkMarks true z false false true None). assert (weaker working m) as Hw by by split_and!.
  assert (∀ s, inv m s → inv working s) as Herr by (intros s; by apply inv_weaken).
  apply hoare_after; [keeps_tac|intros _; apply Herr|intros _]. apply read_hoare; [done|]. intros t Hk.
  do 2 (apply hoare_after; [first [apply inv_find_target|keeps_tac]|intros _; apply Herr|intros _]).
  apply hoare_bind with (R := λ _, inv (dead_if (negb strict || negb (kept action)) m)).
  { eapply hoare_weaken; [apply (put_away_dead z false true)|done|]. intros [?|?] s Hs; [done|by eapply inv_weaken]. }
  set (b := negb strict || negb (kept action)). intros _.
  assert (weaker working (dead_if b m)) as Hw' by by split_and!.
  do 2 (eapply hoare_bind; [eapply hoare_weaken with (Q' := λ _, inv (dead_if b m));
    [|done|intros [?|?] s Hs; [exact Hs|by eapply inv_weaken]]; keeps_tac|intros ?]).
  case_bool_decide as Hh.
  { eapply hoare_weaken; [apply (keeps_hold (inv (dead_if b m)))|done|]. intros [] s Hs; by eapply inv_weaken. }
  assert (strict = true ∨ b = true) as Hb by (subst b; destruct strict; cbn; auto).
  eapply hoare_bind with (R := λ _, inv (dead_if b m)).
  { eapply hoare_weaken with (Q' := λ _, inv (dead_if b m)); [|done|intros [?|?] s Hs; [done|by eapply inv_weaken]].
    destruct (_ && _); [by apply (inv_start_source z b true)|apply keeps_ret]. }
  intros _. assert (b = true) as ->.
  { subst b. destruct strict; [|done]. cbn. apply negb_true_iff, bool_decide_eq_false. specialize (Hkeep eq_refl). set_solver. }
  eapply hoare_weaken; [apply (inv_give_back z)|done|]. intros [?|?] s Hs; [|done]. eapply inv_weaken; [|exact Hs]. by split_and!.
Qed.

(** ** Preparing *)
Lemma inv_restore_target run : keeps (inv fresh) (restore_target run).
Proof.
  apply read_hoare; [done|]. intros t Hk. apply keeps_bind; [keeps_tac|intros vm]. apply keeps_bind.
  - apply inv_set_t. intros s Hs. destruct (in_mem _ _ Hs (in_here _ _ Hs eq_refl)) as (Hm & Hr & []).
    apply (inv_set fresh _ (set_TargetVMID vm)); [by intros _; apply Hm| |done].
    intros _. assert (live (sv_trace s) = ∅) as Hl by (eapply mine_unstarted; [exact Hm|by apply md_unstarted0]).
    destruct Hm, Hr. split_and!; [by apply mine_dead|by split|by split].
  - intros _. keeps_tac.
Qed.

Lemma inv_prepare : hoare (inv fresh) prepare (λ _, inv working).
Proof.
  assert (weaker working fresh) as Hw by by split_and!.
  apply read_hoare; [done|]. intros t Hk. apply (seq fresh); [done|keeps_tac|intros p].
  destruct (negb _); [apply (keeps_end fresh); [done|keeps_tac]|].
  do 15 (apply (seq fresh); [done|keeps_tac|intros ?]).
  apply (seq fresh); [done|apply inv_restore_target|intros vm]. apply read_hoare; [done|]. intros t' Hk'.
  destruct (_ || _); [apply (keeps_end fresh); [done|keeps_tac]|].
  do 2 (apply (seq fresh); [done|keeps_tac|intros ?]).
  case_bool_decide; [apply (keeps_end fresh); [done|by apply inv_synchronize]|].
  eapply hoare_weaken; [apply (inv_startTarget true false None)|done|done].
Qed.

Lemma inv_retry_prepare : hoare (inv working) retry_prepare (λ _, inv working).
Proof.
  apply read_hoare; [done|]. intros t Hk. destruct (_ || _); [apply (keeps_end working); [by split_and!|keeps_tac]|].
  apply hoare_bind with (R := λ _, inv fresh).
  { eapply hoare_weaken; [by apply (inv_rollback false "retry_prepare")|done|]. by intros [] s. }
  intros _.
  apply hoare_bind with (R := λ _, inv fresh).
  - apply inv_set_t. intros s Hs. destruct (in_mem _ _ Hs (in_here _ _ Hs eq_refl)) as (Hm & Hr & []).
    set (f := λ t, set_TargetVMID "" (set_RestoreID "" (set_AppliedRunID "" (set_DiskMap ∅ (set_TargetStarted false
      (set_TargetStartRequested false (set_SourceStopped false (set_DowntimeStartedAt None t)))))))).
    apply (inv_set fresh _ f); [by intros _; apply Hm| |done]. intros _.
    assert (live (sv_trace s) = ∅) as Hl by (eapply mine_unstarted; [exact Hm|by apply md_unstarted0]).
    destruct Hm, Hr. split_and!; [by apply mine_dead|by split|by split].
  - intros _. apply (seq fresh); [by split_and!|keeps_tac|intros _]. apply inv_prepare.
Qed.

Lemma inv_cutover : hoare (inv fresh) cutover (λ _, inv working).
Proof.
  apply (seq fresh); [by split_and!|keeps_tac|intros _].
  apply (seq fresh); [by split_and!|by apply inv_synchronize|intros _]. apply inv_startTarget.
Qed.

Lemma inv_recoverTarget : hoare (inv working) recoverTarget (λ _, inv working).
Proof.
  apply read_hoare; [done|]. intros t Hk. apply (seq working); [by split_and!|keeps_tac|intros _].
  apply (seq working); [by split_and!|keeps_tac|intros state]. destruct (negb _); [by apply keeps_fail|].
  do 2 (apply (seq working); [by split_and!|keeps_tac|intros ?]). destruct (_ || _); [by apply keeps_fail|].
  case_bool_decide; [apply (inv_startTarget false false None)|]. change (keeps (inv working)
    (phase "recovering_target" ;;
     (if bool_decide (vs_Status a0 = "up"%string) then mret () else
      if negb (bool_decide (vs_Status a0 ∈ ["powering_up"; "wait_for_launch"; "restoring_state"]%string))
      then fail (Refused "target state") else
      WaitVMStatus (target_server t) (tf_TargetVMID t) ["up"%string] (powerTimeout t) ;; mret ()) ;;
     waitTargetGuest ;; set_t (set_TargetStarted true) ;;
     set_t (set_Status "awaiting_confirmation") ;; set_t (set_Phase "verify_application") ;; save)).
  keeps_tac.
Qed.

(** ** A whole action *)
Definition starting (action : string) : Marks := mkMarks true (bool_decide (writes action)) false false true None.

Lemma inv_do_action action : (strict = true → action ≠ "rollback_keep"%string) →
  hoare (inv (starting action)) (do_action action) (λ _, inv working).
Proof.
  intros Hkeep. assert (∀ s, inv (starting action) s → inv working s) as Hw by (intros s; apply inv_weaken; by split_and!).
  assert (∀ (f : TM W ()), hoare (inv working) f (λ _, inv working) → hoare (inv (starting action)) f (λ _, inv working)) as Hany.
  { intros f Hf s Hs. by apply Hf, Hw. }
  assert (∀ (f : TM W ()), writes action → hoare (inv fresh) f (λ _, inv working) →
    hoare (inv (starting action)) f (λ _, inv working)) as Hfresh.
  { intros f Hwr Hf s Hs. apply Hf. eapply inv_weaken; [|exact Hs]. unfold starting. rewrite bool_decide_eq_true_2 by done. by split_and!. }
  unfold do_action.
  case_bool_decide as H1; [apply Hfresh; [unfold writes; set_solver|apply inv_prepare]|].
  case_bool_decide as H2; [apply Hfresh; [unfold writes; set_solver|]|].
  { intros s Hs. apply fresh_working. by apply (inv_synchronize true false true None false eq_refl). }
  case_bool_decide as H3; [apply Hfresh; [unfold writes; set_solver|apply inv_cutover]|].
  case_bool_decide as H4.
  { apply Hany. eapply hoare_weaken; [by apply (inv_rollback false)|done|]. intros [a|e] s Hs; [|done]. case_bool_decide; auto. }
  case_bool_decide as H5; [apply Hany, (inv_startTarget false false None)|].
  case_bool_decide as H6; [apply Hany, inv_recoverTarget|].
  case_bool_decide as H7; [apply Hany, inv_retry_prepare|]. apply Hany. apply keeps_fail.
Qed.

Lemma inv_performAction action : (strict = true → action ≠ "rollback_keep"%string) →
  hoare (inv (starting action)) (performAction action) (λ _, inv working).
Proof.
  intros Hkeep. apply hoare_bind with (R := λ _, inv working).
  - eapply hoare_weaken; [by apply inv_do_action|done|]. by intros [] s Hs.
  - intros _. change (keeps (inv working) (t ← t_get id ;
      if negb (bool_decide (tf_RecoveryAction t = ""%string)) || negb (bool_decide (tf_NextRecoveryAt t = None))
      then set_t (λ t, set_RecoveryAction "" (set_NextRecoveryAt None t)) ;; save else mret ())). keeps_tac.
Qed.
End Safe.
