(* ===== verification/TransferReach.v ===== *)
(** From one worker to the service over time: every start of an action, by a
    person or by the recovery, fits the record, and the workers keep the trace
    safe. *)

From S2P Require Import Prelude StateM GoTime GoStr Transfers TransferPlan TransferRun TransferControl TransferMachine TransferFrame TransferSafe.

Section Reach.
Context {W : Type} `{!World W} `{!TransferTexts}.
Context (x ss sv ts : string) (strict : bool).

#[local] Abbreviation live := (live x ts strict).
#[local] Abbreviation safe := (safe x ss sv ts strict).
#[local] Abbreviation mine := (mine x ss sv ts strict).
#[local] Abbreviation ready := (ready strict).
#[local] Abbreviation inv := (inv x ss sv ts strict).

(** ** The end of a worker *)
Lemma next_action_fits p t action e next : next_action p t action e = Some next →
  (writes next → tf_TargetStartRequested t = false) ∧ next ≠ "rollback_keep"%string.
Proof.
  unfold next_action, retry_action, start_seen. intros Hn.
  repeat (case_match; simplify_eq/=; try done); bprop; (split; [intros Hw; unfold writes in Hw; try done; set_solver|]).
  all: try done. all: try (by intros ->). all: naive_solver.
Qed.

Lemma ready_schedule p now action e t : ready t → ready (schedule p now action e t).
Proof.
  intros [Hp _ Hk]. unfold schedule. set (t' := set_RecoveryAction _ _).
  destruct (next_action p t' action e) as [next|] eqn:Hn; split; cbn; try done.
  - intros _. by apply next_action_fits in Hn as [? _].
  - intros Hs. destruct (Hk Hs) as (? & ? & _). by apply next_action_fits in Hn as [_ ?].
  - intros Hs. by destruct (Hk Hs) as (? & ? & _).
Qed.

Definition held (z : bool) : Marks := mkMarks true z false false false None.

Lemma inv_schedule action e : keeps (inv (held false)) (scheduleRecovery action e).
Proof.
  unfold scheduleRecovery. keeps_tac. apply inv_set_t. intros s Hs.
  destruct (in_mem _ _ _ _ _ _ _ Hs (in_here _ _ _ _ _ _ _ Hs eq_refl)) as (Hm & Hr & []).
  assert (∀ now t, tf_ID (schedule m now action e t) = tf_ID t ∧ tf_Request (schedule m now action e t) = tf_Request t
    ∧ tf_TargetVMID (schedule m now action e t) = tf_TargetVMID t
    ∧ tf_TargetStartRequested (schedule m now action e t) = tf_TargetStartRequested t) as Hsame.
  { intros now t. unfold schedule. by destruct (next_action _ _ _ _). }
  destruct (Hsame a0 (sv_t s)) as (Hid & Hreq & Hv & Hst).
  apply (inv_set _ _ _ _ _ (held false) _ (schedule m a0 action e)); [by rewrite Hid; intros _; apply Hm| |done].
  intros _. split_and!; [|by apply ready_schedule|by split].
  destruct Hm as [? Hss Hsv Hts Hl]. unfold source_server, source_vm, target_server in *.
  split; unfold source_server, source_vm, target_server; rewrite ?Hreq, ?Hid, ?Hv, ?Hst; done.
Qed.
#[local] Hint Extern 1 (keeps _ (scheduleRecovery _ _)) => apply inv_schedule : transfer.

Lemma inv_actionFailed action e cause : keeps (inv (held false)) (actionFailed action e cause).
Proof. unfold actionFailed. keeps_tac. Qed.

Lemma inv_acquireSlot z free :
  hoare (inv (held z)) (acquireSlot free)
    (λ r, match r with Ok true => inv (mkMarks true z false false true None) | _ => inv (held z) end).
Proof.
  unfold acquireSlot.
  apply hoare_after; [keeps_tac|done|]. intros [c|]; [by apply keeps_fail|].
  apply read_hoare; [done|]. intros t _.
  apply hoare_after; [keeps_tac|done|]. intros [|]; cbn [negb]; [|by intros s].
  apply hoare_after; [unfold ListVMTransfers; keeps_tac|done|intros items].
  apply hoare_after; [keeps_tac|done|intros _]. destruct (negb _); [by intros s|].
  apply hoare_after; [keeps_tac|done|]. intros [|]; cbn [negb]; [|by intros s].
  apply hoare_after; [keeps_tac|done|intros now].
  apply hoare_bind with (R := λ _, inv (mkMarks true z false false true None)).
  - apply inv_set_t. intros s Hs. destruct (in_mem _ _ _ _ _ _ _ Hs (in_here _ _ _ _ _ _ _ Hs eq_refl)) as (Hm & Hr & []).
    set (f := λ t, set_Status "running" (set_PendingAction "" (set_PhaseStartedAt now t))).
    apply (inv_set _ _ _ _ _ (held z) _ f); [by intros _; apply Hm| |done]. intros _.
    destruct Hm, Hr as [_ _ Hk]. split_and!; [by split| |by split]. split; cbn; [|done|].
    + intros Hw. unfold writes in Hw. set_solver.
    + intros Hs'. by destruct (Hk Hs') as (_ & ? & ?).
  - intros _. apply hoare_after; [keeps_tac| |by intros _ s]. intros e s. apply inv_weaken. by split_and!.
Qed.

(** ** A task *)
Record task_ok (tr : list Event) (task : Task) : Prop := {
  to_mine : mine tr task.1;
  to_ready : ready task.1;
  to_writes : writes task.2 → tf_TargetStartRequested task.1 = false;
  to_keep : strict = true → task.2 ≠ "rollback_keep"%string
}.

(** What holds between operations. *)
Record good (s : Service W) : Prop := {
  gd_safe : safe (sv_trace s);
  gd_row r : sv_rows s !! x = Some r → mine (sv_trace s) (tr_payload r) ∧ ready (tr_payload r)
}.

Lemma inv_good m s : inv m s → good s.
Proof. by intros []. Qed.

Lemma run_own free task s : good s → task_ok (sv_trace s) task → good (run_task free task s).1.
Proof.
  intros [Hs Hr] [Hm Hrd Hw Hk]. set (m := starting task.2). set (h := held (bool_decide (writes task.2))).
  assert (inv h (with_t task.1 s)) as Hinv.
  { split; [done|by intros _; apply Hm|done|]. intros _. split_and!; [done..|]. split; try done. cbn.
    intros Hwr%bool_decide_eq_true. by apply Hw. }
  apply (inv_good (held false)). revert Hinv. unfold run_task.
  change ((set_t (λ _, task.1) ;; ?g) s) with (g (with_t task.1 s)).
  generalize (with_t task.1 s). intros s0. revert s0. assert (∀ e, hoare (inv (held false)) (cause ← ask ContextCause ;
    actionFailed task.2 e cause ;; mret true) (λ _, inv (held false))) as Hend.
  { intros e. apply keeps_bind; [keeps_tac|intros cause]. apply keeps_bind; [apply inv_actionFailed|intros _; apply keeps_ret]. }
  assert (∀ z (s1 : Service W), inv (held z) s1 → inv (held false) s1) as Hw1 by (intros z s1; apply inv_weaken; by split_and!).
  refine (hoare_bind _ _ _ (λ r s, match r with Ok true => inv m s | _ => inv h s end) (λ _, inv (held false)) _ _).
  { apply hoare_try. eapply hoare_weaken; [apply inv_acquireSlot|done|]. by intros [[]|] s1 Hs1. }
  intros [[]|e].
  - refine (hoare_bind _ _ _ (λ _, inv working) (λ _, inv (held false)) _ _).
    { apply hoare_try. eapply hoare_weaken; [by apply inv_performAction|done|done]. }
    assert (∀ s1 : Service W, inv working s1 → inv (held false) s1) as Hw2 by (intros s1; apply inv_weaken; by split_and!).
    intros [[]|e] s1 Hs1; [by apply Hw2|]. by apply Hend, Hw2.
  - intros s1 Hs1. by eapply Hw1.
  - intros s1 Hs1. eapply Hend, Hw1, Hs1.
Qed.

(** ** Another migration's worker *)
Lemma mine_event e tr t : (target_start x ts e = None) → mine tr t → mine (e :: tr) t.
Proof. intros He. apply mine_mono. by apply live_off. Qed.

Record aside (tasks : list Task) (s : Service W) : Prop := {
  as_other : tf_ID (sv_t s) ≠ x;
  as_good : good s;
  as_tasks : Forall (λ task, tf_ID task.1 = x → task_ok (sv_trace s) task) tasks
}.

Lemma foreign_event {A} tag (c : Call A) a tr : tag ≠ x →
  target_start x ts (Ev tag c a) = None ∧ safe_event x ss sv ts strict (Ev tag c a) tr.
Proof.
  intros Ht. assert (target_start x ts (Ev tag c a) = None) as He by (destruct c; try done; cbn; case_bool_decide; by try destruct_and!).
  split; [done|]. unfold safe_event. rewrite He.
  assert (source_start x ss sv (Ev tag c a) = false) as -> by (destruct c; try done; cbn; case_bool_decide; by try destruct_and!).
  assert (delta_write x (Ev tag c a) = false) as -> by (destruct c; try done; cbn; by case_bool_decide). by destruct strict.
Qed.

Lemma good_event e life (w : W) s :
  target_start x ts e = None → safe_event x ss sv ts strict e (sv_trace s) → good s →
  good (mkService w (e :: sv_trace s) life (sv_faults s) (sv_rows s) (sv_desired s) (sv_t s)).
Proof.
  intros He Hok [Hs Hr]. split; cbn [sv_trace sv_rows]; [by apply safe_cons|].
  intros r Hrow. destruct (Hr r Hrow). split; [by apply mine_event|done].
Qed.

Lemma tasks_event e tr tasks : target_start x ts e = None →
  Forall (λ task : Task, tf_ID task.1 = x → task_ok tr task) tasks →
  Forall (λ task, tf_ID task.1 = x → task_ok (e :: tr) task) tasks.
Proof.
  intros He Hall. eapply Forall_impl; [exact Hall|]. intros task Hok Hid. destruct (Hok Hid). split; try done. by apply mine_event.
Qed.

Lemma aside_ask tasks {A} (c : Call A) : keeps (aside tasks) (ask c).
Proof.
  intros s [Ho Hg Ht]. unfold ask. destruct (sv_life s) as [|life]; [done|]. destruct (ask_world _ _ _) as [w a].
  destruct (foreign_event (tf_ID (sv_t s)) c a (sv_trace s) Ho). split; [done|by apply good_event|by apply tasks_event].
Qed.

Lemma aside_statement tasks : keeps (aside tasks) statement.
Proof. intros s [Ho [] Ht]. unfold statement. by destruct (sv_life s). Qed.

Lemma aside_set tasks f : (∀ t, tf_ID (f t) = tf_ID t) → keeps (aside tasks) (set_t f).
Proof. intros Hf s [Ho [] Ht]. split; cbn; [by rewrite Hf|done|done]. Qed.

Lemma aside_update tasks f : keeps (aside tasks) (update_row f).
Proof.
  apply keeps_bind; [apply aside_statement|intros _]. intros s [Ho [Hs Hr] Ht]. run_st.
  destruct (sv_rows s !! tf_ID (sv_t s)) as [r|] eqn:Hrow; [|done]. case_bool_decide; [|done].
  destruct (f r _) as [r'|]; [|done]. cbn. split; [done| |done]. split; [done|]. cbn. by rewrite lookup_insert_ne.
Qed.

(** The flag of a request to pause belongs to the row alone. *)
Lemma good_pause s id r : sv_rows s !! id = Some r → good s →
  good (with_rows (<[id := mkTransferRow (tr_payload r) true (tr_target_vm_id r)]> (sv_rows s)) s).
Proof.
  intros Hrow [Hs Hr]. split; [done|]. cbn. intros q Hq. destruct (decide (id = x)) as [->|Hid].
  - rewrite lookup_insert_eq in Hq. injection Hq as <-. by apply Hr in Hrow.
  - rewrite lookup_insert_ne in Hq by done. by apply Hr.
Qed.

#[export] Instance aside_free tasks : Free (aside tasks).
Proof.
  split; [split; [split|]| |].
  - intros A c _. apply aside_ask.
  - apply aside_statement.
  - intros f Hf _. apply aside_set. apply Hf.
  - apply aside_update.
  - intros expected. apply aside_update.
  - intros id. apply keeps_bind; [apply aside_statement|intros _]. intros s [Ho Hg Ht]. run_st.
    destruct (sv_rows s !! id) as [r|] eqn:Hrow; [|done]. split; [done|by apply good_pause|done].
  - intros server vm st out. apply keeps_bind; [apply aside_statement|intros _]. intros s [Ho [] Ht]. run_st.
    by destruct (sv_desired s !! (server, vm)).
  - intros server vm. apply aside_ask.
  - intros A c. apply aside_ask.
  - apply aside_set.
Qed.

Lemma run_other tasks free task s : tf_ID task.1 ≠ x → good s →
  Forall (λ task, tf_ID task.1 = x → task_ok (sv_trace s) task) tasks → aside tasks (run_task free task s).1.
Proof.
  intros Hid Hg Ht. unfold run_task. change ((set_t (λ _, task.1) ;; ?g) s) with (g (with_t task.1 s)).
  assert (aside tasks (with_t task.1 s)) as Ha by (by destruct Hg; split). revert Ha. generalize (with_t task.1 s).
  match goal with |- ∀ s, aside tasks s → aside tasks (?g s).1 => change (keeps (aside tasks) g) end. keeps_tac.
Qed.

(** ** Rows under their identifiers *)
Definition keyed (s : Service W) : Prop := ∀ id r, sv_rows s !! id = Some r → tf_ID (tr_payload r) = id.

Lemma keyed_same (s s' : Service W) : sv_rows s' = sv_rows s → keyed s → keyed s'.
Proof. unfold keyed. by intros ->. Qed.

Lemma keyed_ask {A} (c : Call A) : keeps keyed (ask c).
Proof. intros s. unfold ask. destruct (sv_life s); [done|]. destruct (ask_world _ _ _). by apply keyed_same. Qed.

Lemma keyed_statement : keeps keyed statement.
Proof. intros s. unfold statement. destruct (sv_life s); [done|]. by apply keyed_same. Qed.

Lemma keyed_insert id r (s : Service W) : tf_ID (tr_payload r) = id → keyed s → keyed (with_rows (<[id := r]> (sv_rows s)) s).
Proof.
  intros Hr Hk id' r'. cbn. destruct (decide (id = id')) as [<-|]; [rewrite lookup_insert_eq; by intros [= <-]|].
  rewrite lookup_insert_ne by done. apply Hk.
Qed.

Lemma keyed_update f : (∀ r t r', f r t = Some r' → tr_payload r' = t) → keeps keyed (update_row f).
Proof.
  intros Hf. apply keeps_bind; [apply keyed_statement|intros _]. intros s Hs. run_st.
  destruct (sv_rows s !! tf_ID (sv_t s)) as [r|] eqn:Hrow; [|done]. case_bool_decide; [|done].
  destruct (f r _) as [r'|] eqn:Hr'; [|done]. apply Hf in Hr'. cbn. eapply keyed_same; [|apply (keyed_insert (tf_ID (sv_t s)) r' s)]; [done| |done].
  by rewrite Hr'.
Qed.

#[export] Instance keyed_free : Free keyed.
Proof.
  split; [split; [split|]| |].
  - intros A c _. apply keyed_ask.
  - apply keyed_statement.
  - by intros f _ _ s Hs.
  - apply keyed_update. by intros r t r' [= <-].
  - intros expected. apply keyed_update. intros r t r'. case_bool_decide; [|done]. by intros [= <-].
  - intros id. apply keeps_bind; [apply keyed_statement|intros _]. intros s Hs. run_st.
    destruct (sv_rows s !! id) as [r|] eqn:Hrow; [|done]. apply (keyed_insert id); [exact (Hs id r Hrow)|done].
  - intros server vm st out. apply keeps_bind; [apply keyed_statement|intros _]. intros s Hs. run_st.
    by destruct (sv_desired s !! (server, vm)).
  - intros server vm. apply keyed_ask.
  - intros A c. apply keyed_ask.
  - by intros f _ s Hs.
Qed.

(** ** Operations that start workers *)
(** An action fits a record. *)
Definition fits (action : option string) (t : VMTransfer) : Prop :=
  match action with
  | None => True
  | Some a => (writes a → tf_TargetStartRequested t = false) ∧ (strict = true → a ≠ "rollback_keep"%string)
  end.

Record loose (action : option string) (tasks : list Task) (s : Service W) : Prop := {
  lo_good : good s;
  lo_keyed : keyed s;
  lo_tasks : Forall (λ task, tf_ID task.1 = x → task_ok (sv_trace s) task) tasks;
  lo_mem : tf_ID (sv_t s) = x → mine (sv_trace s) (sv_t s) ∧ ready (sv_t s) ∧ fits action (sv_t s)
}.

Lemma loose_event action tasks e life (w : W) s :
  target_start x ts e = None → safe_event x ss sv ts strict e (sv_trace s) → loose action tasks s →
  loose action tasks (mkService w (e :: sv_trace s) life (sv_faults s) (sv_rows s) (sv_desired s) (sv_t s)).
Proof.
  intros He Hok [Hg Hk Ht Hm]. split; [by apply good_event|by eapply keyed_same|by apply tasks_event|]. cbn. intros Hid.
  destruct (Hm Hid) as (? & ? & ?). split_and!; [by apply mine_event|done|done].
Qed.

Lemma loose_ask action tasks {A} (c : Call A) :
  (∀ tag a, target_start x ts (Ev tag c a) = None ∧ source_start x ss sv (Ev tag c a) = false ∧ delta_write x (Ev tag c a) = false) →
  keeps (loose action tasks) (ask c).
Proof.
  intros Hc s Hs. unfold ask. destruct (sv_life s) as [|life]; [done|]. destruct (ask_world _ _ _) as [w a].
  destruct (Hc (tf_ID (sv_t s)) a) as (? & ? & ?). apply loose_event; [done|by apply unpowered_event|done].
Qed.

Lemma loose_statement action tasks : keeps (loose action tasks) statement.
Proof.
  intros s [[] Hk Ht Hm]. pose proof (keyed_statement s Hk) as Hk'. revert Hk'. unfold statement. by destruct (sv_life s).
Qed.

Lemma loose_set action action' tasks f s :
  (tf_ID (f (sv_t s)) = x → mine (sv_trace s) (f (sv_t s)) ∧ ready (f (sv_t s)) ∧ fits action' (f (sv_t s))) →
  loose action tasks s → loose action' tasks (with_t (f (sv_t s)) s).
Proof. intros Hf [[] Hk Ht _]. by split. Qed.

Lemma loose_calm action tasks f : calm f → keeps (loose action tasks) (set_t f).
Proof.
  intros Hf s Hs. apply (loose_set action); [|done]. rewrite (calm_id f Hf). intros Hid. destruct (lo_mem _ _ _ Hs Hid) as (Hm & Hr & Hfit).
  split_and!; [by apply mine_calm|by apply ready_calm|]. destruct action as [a|]; [|done]. destruct Hfit. split; [|done].
  by rewrite (proj2 (calm_target f Hf _)).
Qed.

Lemma loose_update action tasks f :
  (∀ r t r', f r t = Some r' → tr_payload r' = t) → keeps (loose action tasks) (update_row f).
Proof.
  intros Hf. unfold update_row. apply keeps_bind; [apply loose_statement|intros _]. intros s Hs. run_st.
  destruct (sv_rows s !! tf_ID (sv_t s)) as [r|] eqn:Hrow; [|done].
  case_bool_decide; [|done]. destruct (f r _) as [r'|] eqn:Hr'; [|done]. apply Hf in Hr'. cbn.
  pose proof (loose_calm action tasks _ (calm_revision (tf_Revision (sv_t s) + 1)) s Hs) as [[Ha Hb] Hk Ht Hc].
  cbn [fst snd set_t modify] in *. split; [| |done|done].
  2: { eapply keyed_same; [|apply (keyed_insert (tf_ID (sv_t s)) r' s)]; [done|by rewrite Hr'|apply Hs]. }
  split; cbn [sv_trace with_t with_rows sv_t sv_rows] in *; [done|].
  intros q Hq. destruct (decide (tf_ID (sv_t s) = x)) as [Hid|Hid].
  - rewrite Hid, lookup_insert_eq in Hq. injection Hq as <-. rewrite Hr'. by destruct (Hc Hid) as (? & ? & _).
  - rewrite lookup_insert_ne in Hq by done. by apply Hb.
Qed.

#[export] Instance loose_looks action tasks : Looks (loose action tasks).
Proof.
  split; [split|].
  - intros A c Hc. apply loose_ask. intros tag a. by destruct (quiet_event x ss sv ts tag c a [] Hc) as (? & ? & ? & _).
  - apply loose_statement.
  - intros f Hf _. by apply loose_calm.
  - apply loose_update. by intros r t r' [= <-].
  - intros expected. apply loose_update. intros r t r'. case_bool_decide; [|done]. by intros [= <-].
  - intros id. apply keeps_bind; [apply loose_statement|intros _]. intros s [Hg Hk Ht Hm]. run_st.
    destruct (sv_rows s !! id) as [r|] eqn:Hrow; [|by split]. split; [by apply good_pause| |done|done].
    apply (keyed_insert id); [exact (Hk id r Hrow)|done].
  - intros server vm st out. apply keeps_bind; [apply loose_statement|intros _]. intros s [[] Hk Ht Hm]. run_st.
    by destruct (sv_desired s !! (server, vm)).
  - intros server vm. by apply loose_ask.
Qed.

Lemma loose_weaken action tasks s : loose action tasks s → loose None tasks s.
Proof. intros [Hg Hk Ht Hm]. split; [done..|]. intros Hid. by destruct (Hm Hid) as (? & ? & _). Qed.

(** What an operation hands to a new worker. *)
Definition starts (tasks : list Task) (r : result TransferError Task) : Service W → Prop :=
  match r with Ok task => loose None (task :: tasks) | Err _ => loose None tasks end.

Lemma loose_startLocked action tasks : hoare (loose (Some action) tasks) (startLocked action) (starts tasks).
Proof.
  unfold startLocked. apply hoare_after; [keeps_tac|intros e; apply loose_weaken|intros t].
  apply hoare_after; [keeps_tac|intros e; apply loose_weaken|]. intros [|]; cbn [negb]; [|intros s; apply loose_weaken].
  apply hoare_bind with (R := λ _, loose (Some action) tasks).
  - intros s Hs. set (f := λ t, set_Status "queued" (set_Phase "queued" (set_PendingAction action (set_ActiveAction action t)))).
    apply (loose_set (Some action) (Some action) tasks f); [|done]. intros Hid.
    destruct (lo_mem _ _ _ Hs Hid) as ([] & Hrd & [Hw Hk]). split_and!; [by split| |by split].
    split; cbn; [done|done|]. intros Hst. destruct (rd_keep _ _ Hrd Hst) as (_ & _ & ?). specialize (Hk Hst). done.
  - intros _. apply hoare_after; [keeps_tac|intros e; apply loose_weaken|intros _].
    apply hoare_after; [keeps_tac|intros e; apply loose_weaken|intros _]. intros s [Hg Hkey Ht Hm]. cbn. split; [done|done| |].
    + apply Forall_cons. split; [|done]. intros Hid. destruct (Hm Hid) as (? & ? & Hw & Hk). by split.
    + intros Hid. by destruct (Hm Hid) as (? & ? & _).
Qed.

(** The record in memory becomes a stored one. *)
Lemma loose_read tasks id (s : Service W) r :
  loose None tasks s → sv_rows s !! id = Some r → loose None tasks (with_t (read_row r) s).
Proof.
  intros Hs Hr. apply (loose_set None None tasks (λ _, read_row r)); [|done]. intros Hid.
  assert (id = x) as ->. { rewrite <-(lo_keyed _ _ _ Hs id r Hr). done. }
  apply (gd_row _ (lo_good _ _ _ Hs)) in Hr as [Hm Hrd]. split_and!; [|by destruct Hrd; split|done].
  apply (mine_calm x ss sv ts strict (set_CancelRequested (tr_cancel_requested r))); [calm_tac|done].
Qed.

Lemma get_inv id (s s' : Service W) t : GetVMTransfer id s = (s', Ok t) →
  sv_rows s' = sv_rows s ∧ ∃ r, sv_rows s !! id = Some r ∧ t = read_row r.
Proof.
  unfold GetVMTransfer. intros (s1 & [] & Hst & Hrun)%bind_ok. revert Hst. unfold statement.
  destruct (sv_life s); [done|]. intros [= <- _]. revert Hrun. run_st. cbn. destruct (sv_rows s !! id) as [r|]; [|done].
  intros [= <- <-]. eauto.
Qed.

Lemma loose_get tasks id {A} (g : VMTransfer → TM W A) Q :
  (∀ e s, loose None tasks s → Q (Err e) s) →
  (∀ t, tf_ID t = id → hoare (λ s, loose None tasks s ∧ sv_t s = t) (g t) Q) →
  hoare (loose None tasks) (t ← GetVMTransfer id ; set_t (λ _, t) ;; g t) Q.
Proof.
  intros HQ Hg s Hs. assert (keeps (loose None tasks) (GetVMTransfer id)) as Hget.
  { unfold GetVMTransfer. keeps_tac. }
  specialize (Hget s Hs). unfold mbind, ST_bind. destruct (GetVMTransfer id s) as [s1 [t|e]] eqn:Hrun; cbn in *; [|by apply HQ].
  apply get_inv in Hrun as (Hrows & r & Hr & ->). rewrite <-Hrows in Hr. apply Hg; [by apply (lo_keyed _ _ _ Hget)|].
  split; [by eapply loose_read|done].
Qed.

(** ** What people ask for *)
Lemma not_writes action : bool_decide (writes action) = false → ¬ writes action.
Proof. apply bool_decide_eq_false_1. Qed.

Lemma rollback_writes_nothing action : action ∈ ["cancel"; "rollback"; "rollback_keep"; "hold"]%string → ¬ writes action.
Proof. rewrite !elem_of_cons, elem_of_nil. intros Ha. apply not_writes. destruct_or!; by subst. Qed.

Lemma unseen t : start_seen t = false → tf_TargetStartRequested t = false.
Proof. by intros [_ ?]%orb_false_iff. Qed.

Lemma resume_writes t : ready t → writes (resumeAction t) → tf_TargetStartRequested t = false.
Proof.
  intros [Hp _ _]. unfold resumeAction. destruct (negb _); [done|]. case_bool_decide as Ha.
  { intros Hw. exfalso. eapply rollback_writes_nothing; [|exact Hw].
    revert Ha. rewrite !elem_of_cons, !elem_of_nil. tauto. }
  destruct (start_seen t) eqn:Hs; cbn [orb]; [by intros []%(not_writes "recover_target" eq_refl)|]. intros _. by apply unseen.
Qed.

Lemma recover_writes t : writes (recoverAction t) → tf_TargetStartRequested t = false.
Proof. unfold recoverAction. destruct (start_seen t) eqn:Hs; [by intros []%(not_writes "recover_target" eq_refl)|]. intros _. by apply unseen. Qed.

Lemma chosen_fits t action next : ready t → (strict = true → action ≠ "rollback_keep"%string) →
  chosen_action t action = Some next → fits (Some next) t.
Proof.
  intros Hr Hkeep. unfold chosen_action. case_bool_decide.
  { destruct (resumable t); [|done]. intros [= <-]. split; [by apply resume_writes|]. intros Hst.
    destruct (rd_keep _ _ Hr Hst) as (? & ? & _). unfold resumeAction. by repeat case_match. }
  case_bool_decide.
  { destruct (_ && _); [|done]. intros [= <-]. split; [by apply recover_writes|]. intros Hst.
    destruct (rd_keep _ _ Hr Hst) as (_ & ? & _). unfold recoverAction. by repeat case_match. }
  case_bool_decide as Hsync.
  { destruct (synchronizable t) eqn:Hs; [|done]. intros [= <-]. split; [|done]. intros _. apply unseen.
    unfold synchronizable in Hs. by bprop. }
  case_bool_decide as Hroll; [|done]. destruct (released _); [done|]. intros [= <-]. split; [|done].
  intros Hw. exfalso. by eapply rollback_writes_nothing.
Qed.

(** The state after an operation and the worker it may have started. *)
Definition handed (tasks : list Task) (r : result TransferError (option Task)) : Service W → Prop :=
  match r with Ok (Some task) => loose None (task :: tasks) | _ => loose None tasks end.

Lemma keeps_handed {A} tasks (f : TM W A) :
  keeps (loose None tasks) f → hoare (loose None tasks) (f ;; mret None) (handed tasks).
Proof. intros Hf. apply hoare_after; [done|done|]. by intros _ s. Qed.

Lemma loose_delete tasks id : keeps (loose None tasks) (DeleteReleasedVMTransfer id).
Proof.
  unfold DeleteReleasedVMTransfer. apply keeps_bind; [keeps_tac|intros _]. intros s Hs. run_st.
  destruct (sv_rows s !! id) as [r|] eqn:Hr; [|done]. destruct (released _); [|done]. destruct Hs as [[Ha Hb] Hk Ht Hm].
  split; [| |done|done].
  - split; [done|]. intros q Hq. cbn in Hq. apply lookup_delete_Some in Hq as [_ Hq]. by apply Hb.
  - intros i q Hq. cbn in Hq. apply lookup_delete_Some in Hq as [_ Hq]. by apply Hk.
Qed.

Lemma loose_Action tasks active id action confirm : (strict = true → action ≠ "rollback_keep"%string) →
  hoare (loose None tasks) (Action active id action confirm) (handed tasks).
Proof.
  intros Hkeep. apply loose_get; [done|]. intros t Hid.
  assert (∀ (f : TM W (option Task)), hoare (loose None tasks) f (handed tasks) →
    hoare (λ s, loose None tasks s ∧ sv_t s = t) f (handed tasks)) as Hforget.
  { intros f Hf s [Hs _]. by apply Hf. }
  case_bool_decide; [apply Hforget; case_bool_decide; [apply keeps_handed; keeps_tac|by intros s]|].
  case_bool_decide.
  { apply Hforget, keeps_handed. unfold pause_idle. keeps_tac. }
  case_bool_decide; [apply Hforget; destruct (negb confirm); [by intros s|apply keeps_handed, loose_delete]|].
  case_bool_decide; [apply Hforget, keeps_handed; keeps_tac|].
  destruct (chosen_action t action) as [next|] eqn:Hc; [|by intros s [Hs _]]. destruct (negb confirm); [by intros s [Hs _]|].
  intros s [Hs Ht]. assert (loose (Some next) tasks s) as Hs'.
  { destruct Hs as [Hg Hk Htasks Hm]. split; [done..|]. intros Hx. destruct (Hm Hx) as (? & Hr & _). split_and!; [done..|].
    rewrite Ht in *. by eapply chosen_fits. }
  clear Hs Ht. revert s Hs'. change (hoare (loose (Some next) tasks) (now ← ask Now ;
    set_t (λ t, set_ManualPause false (set_OperationStartedAt now (set_RecoveryAttempts 0 (set_RollbackAttempts 0
      (set_RecoveryAction "" (set_NextRecoveryAt None t)))))) ;; task ← startLocked next ; mret (Some task)) (handed tasks)).
  apply hoare_after; [keeps_tac|by intros e s; apply loose_weaken|intros now].
  apply hoare_after; [apply loose_calm; calm_tac|by intros e s; apply loose_weaken|intros ?].
  intros s Hs. apply loose_startLocked in Hs. revert Hs. unfold mbind, ST_bind. by destruct (startLocked next s) as [s' [task|e]].
Qed.

(** ** Recovery *)
(** Records that were read are like tasks with nothing to do. *)
Definition as_tasks_ (items : list VMTransfer) : list Task := (λ t, (t, ""%string)) <$> items.

Lemma loose_list tasks :
  hoare (loose None tasks) ListVMTransfers
    (λ r, match r with Ok items => loose None (as_tasks_ items ++ tasks) | Err _ => loose None tasks end).
Proof.
  unfold ListVMTransfers. apply hoare_after; [keeps_tac|done|intros _]. intros s [Hg Hk Ht Hm]. cbn. split; [done..| |done].
  apply Forall_app. split; [|done]. apply Forall_forall. intros task Hin. unfold as_tasks_ in Hin.
  apply list_elem_of_fmap in Hin as (t & -> & (p & -> & Hin)%list_elem_of_fmap). destruct p as [id r].
  apply elem_of_map_to_list in Hin. cbn. intros Hid. assert (id = x) as -> by (rewrite <-(Hk id r Hin); exact Hid).
  apply (gd_row _ Hg) in Hin as [Hmine Hrd]. split; cbn; [|by destruct Hrd; split|by intros []%(not_writes "" eq_refl)|done].
  apply (mine_calm x ss sv ts strict (set_CancelRequested (tr_cancel_requested r))); [calm_tac|done].
Qed.

Lemma loose_drop tasks tasks' s : loose None (tasks' ++ tasks) s → loose None tasks s.
Proof. intros [Hg Hk Ht Hm]. split; try done. by apply Forall_app in Ht as [_ ?]. Qed.

Lemma loose_interrupt tasks t : (t, ""%string) ∈ tasks → keeps (loose None tasks) (interrupt t).
Proof.
  intros Hin. unfold interrupt. destruct (_ || _); [|apply keeps_ret]. apply keeps_bind; [keeps_tac|intros lock].
  destruct (negb lock); [apply keeps_ret|]. apply keeps_bind; [|intros _; keeps_tac]. intros s Hs.
  apply (loose_set None None tasks (λ _, set_Status "interrupted" t)); [|done]. cbn. intros Hid.
  pose proof (lo_tasks _ _ _ Hs) as Hall. rewrite Forall_forall in Hall. destruct (Hall _ Hin Hid) as [Hm Hr _ _]. cbn in *.
  split_and!; [|by destruct Hr; split|done]. by apply (mine_calm x ss sv ts strict (set_Status "interrupted")); [calm_tac|].
Qed.

Lemma loose_Recover tasks : keeps (loose None tasks) Recover.
Proof.
  unfold Recover.
  apply hoare_bind with (R := λ items, loose None (as_tasks_ items ++ tasks)); [eapply hoare_weaken; [apply (loose_list tasks)|done|by intros [] s]|]. intros items. eapply hoare_weaken with (Q' := λ _, loose None (as_tasks_ items ++ tasks)).
  - apply keeps_for_each. intros t Hin. apply loose_interrupt. apply elem_of_app. left. unfold as_tasks_. by apply (list_elem_of_fmap_2 (λ t, (t, ""%string))).
  - done.
  - intros r s. apply loose_drop.
Qed.

Lemma loose_schedule tasks action e : keeps (loose None tasks) (scheduleRecovery action e).
Proof.
  unfold scheduleRecovery. apply keeps_bind; [keeps_tac|intros t]. destruct (tf_RecoveryPolicy t) as [p|]; [|apply keeps_ret].
  apply keeps_bind; [keeps_tac|intros now]. intros s Hs.
  assert (tf_ID (schedule p now action e (sv_t s)) = tf_ID (sv_t s) ∧ tf_Request (schedule p now action e (sv_t s)) = tf_Request (sv_t s)
    ∧ tf_TargetVMID (schedule p now action e (sv_t s)) = tf_TargetVMID (sv_t s)
    ∧ tf_TargetStartRequested (schedule p now action e (sv_t s)) = tf_TargetStartRequested (sv_t s)) as (Hid & Hreq & Hv & Hst).
  { unfold schedule. by destruct (next_action _ _ _ _). }
  apply (loose_set None None tasks (schedule p now action e)); [|done]. rewrite Hid. intros Hx.
  destruct (lo_mem _ _ _ Hs Hx) as ([? Hss Hsv Hts Hl] & Hr & _). split_and!; [|by apply ready_schedule|done].
  unfold source_server, source_vm, target_server in *.
  split; unfold source_server, source_vm, target_server; rewrite ?Hreq, ?Hid, ?Hv, ?Hst; done.
Qed.

Lemma loose_plan_recovery tasks : keeps (loose None tasks) plan_recovery.
Proof.
  unfold plan_recovery. apply keeps_bind; [keeps_tac|intros t]. apply keeps_bind; [|intros _; keeps_tac].
  destruct (_ && _); [|apply loose_schedule]. intros s Hs.
  apply (loose_set None None tasks (λ t, set_Status "recovering" (set_RecoveryAction (tf_PendingAction t) t))); [|done].
  cbn. intros Hx. destruct (lo_mem _ _ _ Hs Hx) as ([] & [Hp _ Hk] & _). split_and!; [by split| |done]. split; cbn; [done|done|].
  intros Hst. by destruct (Hk Hst) as (? & ? & _).
Qed.

Lemma t_get_run {A} (g : VMTransfer → TM W A) s : (t_get id ≫= g) s = g (sv_t s) s.
Proof. done. Qed.

Lemma loose_reconcile_one tasks active item : hoare (loose None tasks) (reconcile_one active item) (handed tasks).
Proof.
  unfold reconcile_one. destruct (_ || _); [by intros s|]. apply hoare_after; [keeps_tac|done|intros lock].
  destruct (negb lock); [by intros s|]. apply loose_get; [done|]. intros t0 _.
  eapply hoare_weaken with (P' := loose None tasks) (Q' := handed tasks); [|by intros s [Hs _]|done].
  destruct (negb (recoverable t0)); [by intros s|]. destruct (_ && _); [by intros s|].
  apply hoare_after; [destruct (bool_decide _); [keeps_tac|apply loose_plan_recovery]|done|intros _].
  intros s Hs. rewrite t_get_run.
  destruct (bool_decide (tf_Status (sv_t s) = "recovering"%string)) eqn:Hst; cbn [negb]; [|exact Hs]. bprop.
  assert (loose (Some (tf_RecoveryAction (sv_t s))) tasks s) as Hs'.
  { destruct Hs as [Hg Hk Ht Hm]. split; [done..|]. intros Hx. destruct (Hm Hx) as (? & Hr & _). split_and!; [done..|].
    split; [by apply Hr|]. intros Hstr. by destruct (rd_keep _ _ Hr Hstr) as (_ & _ & ?). }
  clear Hs Hst. revert Hs'. generalize (sv_t s) as t. intros t. revert s.
  match goal with |- ∀ s, _ → handed tasks (?g s).2 (?g s).1 => change (hoare (loose (Some (tf_RecoveryAction t)) tasks) g (handed tasks)) end.
  apply hoare_after; [keeps_tac|by intros e s; apply loose_weaken|intros now].
  destruct (due now t); [|by intros s; apply loose_weaken].
  apply hoare_after; [apply loose_calm; unfold count_attempt; calm_tac|by intros e s; apply loose_weaken|intros _].
  intros s Hs. apply loose_startLocked in Hs. revert Hs. unfold mbind, ST_bind. by destruct (startLocked _ s) as [s' [task|e]].
Qed.

Lemma loose_reconcile_all active items tasks :
  hoare (loose None tasks) (reconcile_all active items)
    (λ r, match r with Ok new => loose None (new ++ tasks) | Err _ => loose None tasks end).
Proof.
  revert tasks. induction items as [|item items IH]; intros tasks; cbn [reconcile_all]; [by intros s|].
  intros s Hs. apply (loose_reconcile_one tasks active item) in Hs. revert Hs. unfold mbind, ST_bind, try.
  destruct (reconcile_one active item s) as [s1 [[task|]|e]]; cbn [handed fst snd]; intros Hs1; apply IH in Hs1; revert Hs1;
    destruct (reconcile_all active items s1) as [s2 [new|e']]; cbn [fst snd mret ST_ret]; try done.
  - intros [Hg Hk Ht Hm]. split; [done..| |done]. cbn. apply Forall_app in Ht as [Hn Ht]. apply Forall_cons in Ht as [H1 Ht].
    apply Forall_cons. split; [done|]. by apply Forall_app.
  - apply (loose_drop tasks [task]).
Qed.

Lemma loose_Reconcile active tasks :
  hoare (loose None tasks) (ReconcileRecovery active)
    (λ r, match r with Ok new => loose None (new ++ tasks) | Err _ => loose None tasks end).
Proof.
  unfold ReconcileRecovery. apply hoare_after; [unfold ListVMTransfers; keeps_tac|done|]. intros items. apply loose_reconcile_all.
Qed.
End Reach.
