(* ===== verification/TransferStart.v ===== *)
(** New workers: each works on the migration it was started for, and the records of
    new migrations, alone or in a group, are like those of workers with nothing
    done. *)

From S2P Require Import Prelude StateM GoTime GoStr Transfers TransferPlan TransferRun TransferControl TransferMachine TransferFrame TransferSafe.
From S2P Require Import TransferReach.

(** * Identifiers of workers *)
Section Identifiers.
Context {W : Type} `{!World W} `{!TransferTexts}.

Definition at_id (id : string) (s : Service W) : Prop := tf_ID (sv_t s) = id.

Lemma at_id_same id (s s' : Service W) : sv_t s' = sv_t s → at_id id s → at_id id s'.
Proof. unfold at_id. by intros ->. Qed.

Lemma at_id_ask id {A} (c : Call A) : keeps (at_id id) (ask c).
Proof. intros s. unfold ask. destruct (sv_life s); [done|]. destruct (ask_world _ _ _). by apply at_id_same. Qed.

Lemma at_id_statement id : keeps (at_id id) statement.
Proof. intros s. unfold statement. destruct (sv_life s); [done|]. by apply at_id_same. Qed.

Lemma at_id_update id f : keeps (at_id id) (update_row f).
Proof.
  apply keeps_bind; [apply at_id_statement|intros _]. intros s Hs. run_st.
  destruct (sv_rows s !! tf_ID (sv_t s)) as [r|]; [|done]. case_bool_decide; [|done]. by destruct (f r _).
Qed.

#[export] Instance at_id_free id : Free (at_id id).
Proof.
  split; [split; [split|]| |].
  - intros A c _. apply at_id_ask.
  - apply at_id_statement.
  - intros f Hf _ s Hs. unfold at_id. cbn. by rewrite (calm_id f Hf).
  - apply at_id_update.
  - intros expected. apply at_id_update.
  - intros i. apply keeps_bind; [apply at_id_statement|intros _]. intros s Hs. run_st. by destruct (sv_rows s !! i).
  - intros server vm st out. apply keeps_bind; [apply at_id_statement|intros _]. intros s Hs. run_st.
    by destruct (sv_desired s !! (server, vm)).
  - intros server vm. apply at_id_ask.
  - intros A c. apply at_id_ask.
  - intros f Hf s Hs. unfold at_id. cbn. by rewrite Hf.
Qed.

(** The worker that is started works on the record in memory. *)
Lemma startLocked_id id action :
  hoare (at_id id) (startLocked action) (λ r _, ∀ task, r = Ok task → tf_ID task.1 = id).
Proof.
  unfold startLocked. do 2 (apply hoare_after; [keeps_tac|done|intros ?]). destruct (negb _); [by intros s|].
  do 3 (apply hoare_after; [keeps_tac|done|intros ?]). intros s Hs task [= <-]. exact Hs.
Qed.

Lemma started_id id action :
  hoare (at_id id) (task ← startLocked action ; mret (Some task)) (λ r _, ∀ task, r = Ok (Some task) → tf_ID task.1 = id).
Proof.
  intros s Hs task Hr. pose proof (startLocked_id id action s Hs) as Hid. revert Hr. unfold mbind, ST_bind.
  destruct (startLocked action s) as [s' [t|e]]; [|done]. intros [= <-]. by apply Hid.
Qed.

Lemma get_at id {A} (g : VMTransfer → TM W A) (Q : result TransferError A → Service W → Prop) :
  (∀ e s, Q (Err e) s) → (∀ t, hoare (at_id id) (g t) Q) → hoare keyed (t ← GetVMTransfer id ; set_t (λ _, t) ;; g t) Q.
Proof.
  intros HQ Hg s Hk. unfold mbind, ST_bind. destruct (GetVMTransfer id s) as [s1 [t|e]] eqn:Hrun; cbn; [|by apply HQ].
  apply get_inv in Hrun as (_ & r & Hr & ->). apply Hg. by apply (Hk id r).
Qed.

Lemma no_task id {A} (f : TM W A) : hoare (at_id id) (f ;; mret None) (λ r _, ∀ task : Task, r = Ok (Some task) → tf_ID task.1 = id).
Proof. intros s _ task. unfold mbind, ST_bind. by destruct (f s) as [s' []]. Qed.

Lemma Action_id active id action confirm :
  hoare keyed (Action active id action confirm) (λ r _, ∀ task, r = Ok (Some task) → tf_ID task.1 = id ∧ id ∉ active).
Proof.
  apply get_at; [done|]. intros t. destruct (decide (id ∈ active)) as [Hin|Hin].
  - rewrite (bool_decide_eq_true_2 _ Hin). intros s _ task. case_bool_decide; [|done]. unfold mbind, ST_bind.
    by destruct (RequestVMTransferPause id s) as [s' []].
  - rewrite (bool_decide_eq_false_2 _ Hin).
    eapply hoare_weaken with (P' := at_id id) (Q' := λ r _, ∀ task, r = Ok (Some task) → tf_ID task.1 = id); [|done|naive_solver].
    case_bool_decide; [apply no_task|]. case_bool_decide; [destruct (negb confirm); [by intros s|apply no_task]|].
    case_bool_decide; [apply no_task|]. destruct (chosen_action t action) as [next|]; [|by intros s].
    destruct (negb confirm); [by intros s|]. do 2 (apply hoare_after; [keeps_tac|done|intros ?]). apply started_id.
Qed.

Lemma reconcile_one_id active item :
  hoare keyed (reconcile_one active item)
    (λ r _, ∀ task, r = Ok (Some task) → tf_ID task.1 = tf_ID item ∧ tf_ID item ∉ active).
Proof.
  unfold reconcile_one. destruct (negb _ || _) eqn:Hc; [by intros s|]. apply orb_false_iff in Hc as [_ Hc].
  apply bool_decide_eq_false in Hc. apply hoare_after; [keeps_tac|done|intros lock]. destruct (negb lock); [by intros s|].
  apply get_at; [done|]. intros t.
  eapply hoare_weaken with (P' := at_id (tf_ID item)) (Q' := λ r _, ∀ task, r = Ok (Some task) → tf_ID task.1 = tf_ID item);
    [|done|naive_solver].
  destruct (negb _); [by intros s|]. destruct (_ && _); [by intros s|].
  apply hoare_after; [keeps_tac|done|intros ?]. apply hoare_after; [keeps_tac|done|intros t'].
  destruct (negb _); [by intros s|]. apply hoare_after; [keeps_tac|done|intros now]. destruct (due now t'); [|by intros s].
  apply hoare_after; [|done|intros ?]; [|apply started_id]. apply free_set. intros t''. unfold count_attempt. by case_bool_decide.
Qed.

Lemma keyed_any f : keeps keyed (set_t f : TM W ()).
Proof. by intros s. Qed.
#[local] Hint Resolve keyed_any : transfer.

Lemma keyed_reconcile_one active0 item : keeps keyed (reconcile_one active0 item).
Proof. unfold reconcile_one, GetVMTransfer. keeps_tac. Qed.

(** New workers have different migrations. *)
Lemma active_app (tasks tasks' : list Task) : active (tasks ++ tasks') = active tasks ++ active tasks'.
Proof. apply fmap_app. Qed.

Lemma reconcile_all_ids active0 items :
  hoare keyed (reconcile_all active0 items)
    (λ r _, ∀ new, r = Ok new → active new `sublist_of` (tf_ID <$> items) ∧ Forall (λ i, i ∉ active0) (active new)).
Proof.
  induction items as [|item items IH]; cbn [reconcile_all]; intros s Hk.
  { intros new [= <-]. by split; constructor. }
  pose proof (reconcile_one_id active0 item s Hk) as Hid. pose proof (keyed_reconcile_one active0 item s Hk) as Hk1.
  unfold mbind, ST_bind, try. destruct (reconcile_one active0 item s) as [s1 r1]. cbn [fst snd] in *.
  specialize (IH s1 Hk1). destruct (reconcile_all active0 items s1) as [s2 [rest|e]]; cbn [fst snd] in *; [|done].
  destruct (IH rest eq_refl) as [Hsub Hall]. intros new [= <-]. rewrite fmap_cons.
  destruct r1 as [[task|]|e]; try (split; [by apply sublist_cons|done]). destruct (Hid task eq_refl) as [Ht Hnot].
  unfold active in *. rewrite fmap_cons, Ht. split; [by apply sublist_skip|by constructor].
Qed.

Lemma list_ids : hoare keyed (ListVMTransfers : TM W _) (λ r _, ∀ items, r = Ok items → NoDup (tf_ID <$> items)).
Proof.
  unfold ListVMTransfers. apply hoare_after; [keeps_tac|done|intros _]. intros s Hk items [= <-].
  rewrite <-list_fmap_compose. assert (tf_ID ∘ (λ p, read_row p.2) <$> map_to_list (sv_rows s) = (map_to_list (sv_rows s)).*1) as ->.
  { apply list_fmap_ext. intros i [id r] Hin. cbn. apply Hk, elem_of_map_to_list. by eapply list_elem_of_lookup_2. }
  apply NoDup_fst_map_to_list.
Qed.

Lemma Reconcile_ids active0 :
  hoare keyed (ReconcileRecovery active0)
    (λ r _, ∀ new, r = Ok new → NoDup (active new) ∧ Forall (λ i, i ∉ active0) (active new)).
Proof.
  intros s Hk. pose proof (list_ids s Hk) as Hnd. assert (keeps keyed (ListVMTransfers : TM W _)) as Hlist by (unfold ListVMTransfers; keeps_tac).
  specialize (Hlist s Hk). unfold ReconcileRecovery, mbind, ST_bind. destruct (ListVMTransfers s) as [s1 [items|e]]; cbn in *; [|done].
  intros new Hnew. destruct (reconcile_all_ids active0 items s1 Hlist new Hnew) as [Hsub Hall]. split; [|done].
  eapply sublist_NoDup; [by apply Hnd|exact Hsub].
Qed.
End Identifiers.

(** * A new migration *)
Section Creation.
Context {W : Type} `{!World W} `{!TransferTexts}.

(** The result of an operation. *)
Definition yields {A} (P : A → Prop) (m : TM W A) : Prop := ∀ s s' a, m s = (s', Ok a) → P a.

Lemma yields_bind {A B} (R : A → Prop) (P : B → Prop) (m : TM W A) (f : A → TM W B) :
  yields R m → (∀ a, R a → yields P (f a)) → yields P (m ≫= f).
Proof. intros Hm Hf s s' b (s1 & a & Hrun & Hb)%bind_ok. eapply Hf, Hb. by eapply Hm. Qed.

Lemma yields_any {A} (m : TM W A) : yields (λ _, True) m.
Proof. done. Qed.

Lemma yields_after {A B} (P : B → Prop) (m : TM W A) (f : A → TM W B) : (∀ a, yields P (f a)) → yields P (m ≫= f).
Proof. intros Hf. eapply yields_bind; [apply yields_any|]. intros a _. apply Hf. Qed.

Lemma yields_ret {A} (P : A → Prop) (a : A) : P a → yields P (mret a).
Proof. intros Ha s s' b [= _ <-]. done. Qed.

Lemma hoare_yields {A B} (I : Service W → Prop) (P : A → Prop) (m : TM W A) (f : A → TM W B) Q :
  keeps I m → yields P m → (∀ e s, I s → Q (Err e) s) → (∀ a, P a → hoare I (f a) Q) → hoare I (m ≫= f) Q.
Proof.
  intros Hm Hp HQ Hf s Hs. specialize (Hm s Hs). unfold mbind, ST_bind. destruct (m s) as [s' [a|e]] eqn:Hrun; cbn in *.
  - apply Hf; [by eapply Hp|done].
  - by apply HQ.
Qed.

(** The machines a request names. *)
Definition names (ss sv ts : string) (r : VMTransferRequest) : Prop :=
  tq_SourceServerID r = ss ∧ tq_SourceVMID r = sv ∧ tq_TargetServerID r = ts.

Lemma plan_names ss sv ts r own : names ss sv ts r → yields (λ p, names ss sv ts (tp_Request p)) (plan r own).
Proof.
  intros Hr. unfold plan. eapply yields_bind with (R := λ found, names ss sv ts (tp_Request found.1.1.1)).
  - unfold plan_inventory. repeat (apply yields_after; intros ?). apply yields_ret. cbn. by case_bool_decide.
  - intros [[[p source] target] vm] Hp. cbn in Hp. case_bool_decide; [|by apply yields_ret]. unfold plan_live.
    repeat (apply yields_after; intros ?). case_match. repeat (apply yields_after; intros ?). case_match.
    apply yields_after. intros ?. by apply yields_ret.
Qed.

(** ** What is kept while nothing is stored *)
Lemma looks_and (P Q : Service W → Prop) : Looks P → Looks Q → Looks (λ s, P s ∧ Q s).
Proof.
  assert (∀ A (m : TM W A), keeps P m → keeps Q m → keeps (λ s, P s ∧ Q s) m) as Hand.
  { intros A m HP HQ s [Hp Hq]. split; [by apply HP|by apply HQ]. }
  intros [[] ?] [[] ?]. split; [split|]; intros; apply Hand; eauto.
Qed.

Lemma looks_if (b : Prop) (P : Service W → Prop) : Looks P → Looks (λ s, b → P s).
Proof.
  assert (∀ A (m : TM W A), keeps P m → keeps (λ s, b → P s) m) as Hif.
  { intros A m HP s Hs Hb. by apply HP, Hs. }
  intros [[] ?]. split; [split|]; intros; apply Hif; eauto.
Qed.

(** Calls that change nothing about the power and the disks. *)
Definition looking {A} (c : Call A) : bool :=
  match c with StartVM _ _ | StartVMOnHost _ _ _ | RestoreDelta _ _ _ _ _ => false | _ => true end.

(** What depends on the trace alone and survives quiet calls. *)
Lemma looks_trace (P : list Event → Prop) :
  (∀ A tag (c : Call A) a tr, looking c = true → P tr → P (Ev tag c a :: tr)) →
  Looks (λ s : Service W, P (sv_trace s)).
Proof.
  intros HP. assert (∀ A (c : Call A), looking c = true →
    keeps (λ s : Service W, P (sv_trace s)) (ask c)) as Hask.
  { intros A c Hc s Hs. unfold ask. destruct (sv_life s); [done|]. destruct (ask_world _ _ _). cbn. by apply HP. }
  assert (keeps (λ s : Service W, P (sv_trace s)) statement) as Hst.
  { intros s Hs. unfold statement. by destruct (sv_life s). }
  assert (∀ f, keeps (λ s : Service W, P (sv_trace s)) (update_row f)) as Hup.
  { intros f. apply keeps_bind; [done|intros _]. intros s Hs. run_st.
    destruct (sv_rows s !! tf_ID (sv_t s)) as [r|]; [|done]. case_bool_decide; [|done]. by destruct (f r _). }
  split; [split|].
  - intros A c Hc. apply Hask. by destruct c.
  - done.
  - by intros f _ _ s.
  - apply Hup.
  - intros expected. apply Hup.
  - intros i. apply keeps_bind; [done|intros _]. intros s Hs. run_st. by destruct (sv_rows s !! i).
  - intros server vm st out. apply keeps_bind; [done|intros _]. intros s Hs. run_st. by destruct (sv_desired s !! (server, vm)).
  - intros server vm. by apply Hask.
Qed.

Context (x ss sv ts : string) (strict : bool).
#[local] Abbreviation loose := (loose x ss sv ts strict).
#[local] Abbreviation live := (live x ts strict).
#[local] Abbreviation task_ok := (task_ok x ss sv ts strict).
#[local] Abbreviation starts := (starts x ss sv ts strict).

Lemma live_quiet {A} tag (c : Call A) a tr :
  looking c = true → live (Ev tag c a :: tr) ⊆ live tr.
Proof.
  intros Hc. apply live_off. by destruct c.
Qed.

Lemma looks_dead : Looks (λ s : Service W, live (sv_trace s) = ∅).
Proof. apply (looks_trace (λ tr, live tr = ∅)). intros A tag c a tr Hc Hl. pose proof (live_quiet tag c a tr Hc). set_solver. Qed.

Lemma looks_task task : Looks (λ s : Service W, task_ok (sv_trace s) task).
Proof.
  apply (looks_trace (λ tr, task_ok tr task)). intros A tag c a tr Hc [Hm ? ? ?]. split; [|done..].
  eapply mine_mono, Hm. by apply live_quiet.
Qed.

(** ** Storing it *)
Section Storing.
Context (act : option string).

Definition stored (rows : gmap string TransferRow) (tasks : list Task) (s : Service W) : Prop :=
  loose act tasks s ∧ loose act tasks (with_rows rows s).

Lemma stored_ask rows tasks {A} (c : Call A) : quiet c = true → keeps (stored rows tasks) (ask c).
Proof.
  intros Hc s [H1 H2]. pose proof (frame_ask c Hc s H1) as K1. pose proof (frame_ask c Hc _ H2) as K2.
  revert K1 K2. unfold ask. cbn. destruct (sv_life s); [by split|]. by destruct (ask_world A c (sv_world s)).
Qed.

Lemma stored_statement rows tasks : keeps (stored rows tasks) statement.
Proof.
  intros s [H1 H2]. pose proof (frame_statement s H1) as K1. pose proof (frame_statement _ H2) as K2.
  revert K1 K2. unfold statement. cbn. by destruct (sv_life s).
Qed.

Lemma stored_create rows tasks t a : (t, a) ∈ tasks → keeps (stored rows tasks) (create_row (set_Revision 0 t)).
Proof.
  intros Hin. unfold create_row. apply keeps_bind.
  { apply keeps_bind; [by apply stored_ask|intros r; apply keeps_lift]. }
  intros n. destruct (0 <? n); [apply keeps_fail|]. apply keeps_bind; [apply keeps_get|intros s0].
  destruct (existsb _ _); [apply keeps_fail|]. apply keeps_bind; [apply stored_statement|intros _].
  apply keeps_bind; [apply keeps_get|intros s1]. destruct (sv_rows s1 !! _); [apply keeps_fail|].
  intros s [[Hg Hk Ht Hm] H2]. cbn [fst snd modify]. split; [|exact H2].
  split; [| |exact Ht|exact Hm]; [|by apply keyed_insert]. destruct Hg as [Hs Hr]. split; [exact Hs|].
  intros q Hq. cbn in Hq. destruct (decide (tf_ID t = x)) as [Hid|Hid].
  - rewrite Hid, lookup_insert_eq in Hq. injection Hq as <-. rewrite Forall_forall in Ht. destruct (Ht _ Hin Hid) as [Hmine Hrd _ _].
    split; cbn; [by apply (mine_calm x ss sv ts strict (set_Revision 0)); [calm_tac|]|by apply (ready_calm strict (set_Revision 0)); [calm_tac|]].
  - rewrite lookup_insert_ne in Hq by done. by apply Hr.
Qed.

Lemma loose_store tasks items :
  (∀ t, t ∈ items → ∃ a, (t, a) ∈ tasks) → keeps (loose act tasks) (CreateVMTransfers items).
Proof.
  intros Hin s Hs. assert (stored (sv_rows s) tasks s) as Hstored.
  { split; [done|]. destruct Hs as [[] ? ? ?]. by split. }
  assert (keeps (stored (sv_rows s) tasks) (for_each (λ t, create_row (set_Revision 0 t)) items)) as Hkeep.
  { apply keeps_for_each. intros t [a Ha]%Hin. by eapply stored_create. }
  specialize (Hkeep s Hstored). unfold CreateVMTransfers.
  destruct (for_each _ _ s) as [s' [u|e]]; [by destruct Hkeep|by destruct Hkeep].
Qed.
End Storing.

Lemma loose_sub action tasks tasks' (s : Service W) : tasks' ⊆ tasks → loose action tasks s → loose action tasks' s.
Proof.
  intros Hsub [Hg Hk Ht Hm]. split; [done..| |done]. rewrite Forall_forall in *. intros task Hin. by apply Ht, Hsub.
Qed.

(** The worker of a new migration. *)
Lemma loose_Create id r tasks : (id = x → names ss sv ts r) →
  hoare (λ s, loose None tasks s ∧ (id = x → live (sv_trace s) = ∅)) (Create id r) (starts tasks).
Proof.
  intros Hnames.
  assert (Looks (λ s, loose None tasks s ∧ (id = x → live (sv_trace s) = ∅))) as Hlooks.
  { exact (looks_and _ _ (loose_looks x ss sv ts strict None tasks) (looks_if (id = x) _ looks_dead)). }
  unfold Create. destruct (negb _); [by intros s []|].
  apply hoare_yields with (P := λ p, id = x → names ss sv ts (tp_Request p)); [keeps_tac| |by intros e s []|].
  { intros s s' p Hrun Hid. eapply plan_names, Hrun. by apply Hnames. }
  intros p Hp.
  destruct (negb _); [by intros s []|]. apply hoare_after; [keeps_tac|by intros e s []|intros vm].
  intros s [Hs Hl]. set (t := new_transfer id p vm).
  assert (id = x → mine x ss sv ts strict (sv_trace s) t ∧ ready strict t) as Ht.
  { intros Hid. destruct (Hp Hid) as (? & ? & ?). split; [by apply mine_dead; [apply Hl|..]|]. split; cbn; try done. }
  assert (loose (Some "prepare"%string) ((t, "prepare"%string) :: tasks) (with_t t s)) as Hnew.
  { destruct Hs as [[Ha Hb] Hk Hts _]. split; [by split|done| |].
    - apply Forall_cons. split; [|done]. cbn. intros Hid. destruct (Ht Hid). split; done.
    - cbn. intros Hid. destruct (Ht Hid). by split_and!. }
  change (starts tasks ((CreateVMTransfers [t] ;; startLocked "prepare") (with_t t s)).2
    ((CreateVMTransfers [t] ;; startLocked "prepare") (with_t t s)).1).
  assert (∀ t', t' ∈ [t] → ∃ a, (t', a) ∈ (t, "prepare"%string) :: tasks) as Hin.
  { intros t' ->%list_elem_of_singleton. exists "prepare"%string. left. }
  pose proof (loose_store _ ((t, "prepare"%string) :: tasks) [t] Hin _ Hnew) as Hstored.
  unfold mbind, ST_bind. destruct (CreateVMTransfers [t] (with_t t s)) as [s2 [u|e]]; cbn [fst snd] in *.
  - pose proof (loose_startLocked _ _ _ _ _ _ _ s2 Hstored) as Hst. destruct (startLocked "prepare" s2) as [s3 [task|e]]; cbn in *.
    + eapply loose_sub, Hst. set_solver.
    + eapply loose_sub, Hst. set_solver.
  - eapply loose_sub; [|by eapply loose_weaken]. set_solver.
Qed.

End Creation.

(** ** Its identifier *)
Section CreatedId.
Context {W : Type} `{!World W} `{!TransferTexts}.

Lemma keeps_create_at id items : keeps (at_id id) (CreateVMTransfers items : TM W ()).
Proof.
  assert (keeps (at_id id) (for_each (λ t, create_row (set_Revision 0 t)) items : TM W ())) as Hall.
  { apply keeps_for_each. intros t _. unfold create_row. keeps_tac. by apply keeps_modify. }
  intros s Hs. specialize (Hall s Hs). unfold CreateVMTransfers. by destruct (for_each _ items s) as [s' []].
Qed.

Lemma Create_id id r : hoare (λ _ : Service W, True) (Create id r) (λ res _, ∀ task, res = Ok task → tf_ID task.1 = id).
Proof.
  unfold Create. destruct (negb _); [by intros s|].
  apply (hoare_after (λ _, True)); [done|done|intros p]. destruct (negb _); [by intros s|].
  apply (hoare_after (λ _, True)); [done|done|intros vm].
  apply hoare_bind with (R := λ _, at_id id); [by intros s _|]. intros _.
  apply hoare_after; [keeps_tac|done|intros t]. apply hoare_after; [apply keeps_create_at|done|intros _]. apply startLocked_id.
Qed.
End CreatedId.

(** * What a group is made of *)
Section Made.
Context {W : Type} `{!World W} `{!TransferTexts}.

Definition same_machines (r : VMTransferRequest) (p : TransferPlan) : Prop :=
  names (tq_SourceServerID r) (tq_SourceVMID r) (tq_TargetServerID r) (tp_Request p).

Lemma count_plan_items r p t : bp_Items (ta_plan (count_plan r p t)) = bp_Items (ta_plan t) ++ [p].
Proof. unfold count_plan. by destruct (if tq_PreserveMAC r then _ else _). Qed.

Lemma plan_items_made rs t :
  yields (λ t', ∃ ps, bp_Items (ta_plan t') = bp_Items (ta_plan t) ++ ps ∧ Forall2 same_machines rs ps) (plan_items rs t : TM W BatchTally).
Proof.
  revert t. induction rs as [|r rs IH]; intros t; cbn [plan_items].
  { apply yields_ret. exists []. by rewrite app_nil_r. }
  case_bool_decide; [by intros s s' a|]. eapply yields_bind; [by apply plan_names|]. intros p Hp s s' t' Hrun.
  apply IH in Hrun as (ps & Hps & Hall). exists (p :: ps). split; [by rewrite Hps, count_plan_items, <-app_assoc|by constructor].
Qed.

Lemma PlanBatch_made r : yields (λ p, Forall2 same_machines (bq_Items r) (bp_Items p)) (PlanBatch r : TM W _).
Proof.
  unfold PlanBatch. do 3 (match goal with |- yields _ (if ?b then _ else _) => destruct b; [by intros s s' a|] end).
  eapply yields_bind; [apply plan_items_made|]. intros t (ps & Hps & Hall). apply yields_ret. cbn in *. by rewrite Hps.
Qed.

(** A migration with nothing done. *)
Record blank (t : VMTransfer) : Prop := {
  bl_started : tf_TargetStartRequested t = false;
  bl_pending : tf_PendingAction t = "prepare"%string;
  bl_active : tf_ActiveAction t = ""%string;
  bl_recovery : tf_RecoveryAction t = ""%string;
  bl_status : tf_Status t = "queued"%string
}.

(** One migration under an identifier for each request. *)
Record made (ids : list string) (rs : list VMTransferRequest) (items : list VMTransfer) : Prop := {
  ma_ids : (tf_ID <$> items) `sublist_of` ids;
  ma_each t : t ∈ items → blank t ∧ ∃ i r, ids !! i = Some (tf_ID t) ∧ rs !! i = Some r
    ∧ names (tq_SourceServerID r) (tq_SourceVMID r) (tq_TargetServerID r) (tf_Request t)
}.

Lemma made_nil ids rs : made ids rs [].
Proof. split; [apply sublist_nil_l|]. intros t Hin. by apply elem_of_nil in Hin. Qed.

Lemma batch_items_made batch i parallelism ids rs ps :
  Forall2 same_machines rs ps → yields (made ids rs) (batch_items batch i parallelism ids ps : TM W _).
Proof.
  intros Hall. revert ids i. induction Hall as [|r p rs ps Hp _ IH]; intros ids i.
  { destruct ids; apply yields_ret, made_nil. }
  destruct ids as [|id ids]; cbn [batch_items]; [apply yields_ret, made_nil|].
  apply yields_after. intros vm. eapply yields_bind; [apply IH|]. intros rest [Hids Heach]. apply yields_ret. split.
  - rewrite fmap_cons. by apply sublist_skip.
  - intros t [->|Hin]%elem_of_cons.
    + split; [done|]. by exists 0%nat, r.
    + destruct (Heach t Hin) as (Hb & j & r' & H1 & H2 & H3). split; [done|]. by exists (S j), r'.
Qed.

End Made.

(** * The workers of a group *)
Section Group.
Context {W : Type} `{!World W} `{!TransferTexts}.

Lemma start_all_ids items : yields (λ new, active new `sublist_of` (tf_ID <$> items)) (start_all items : TM W _).
Proof.
  induction items as [|t items IH]; cbn [start_all]; [apply yields_ret; constructor|].
  intros s s' new. change ((set_t (λ _, t) ;; ?g) s) with (g (with_t t s)). rewrite fmap_cons.
  pose proof (startLocked_id (tf_ID t) "prepare" (with_t t s) eq_refl) as Hid. intros (s1 & r & Hrun & Hnew)%try_inv.
  rewrite Hrun in Hid. cbn [fst snd] in Hid. destruct r as [task|e].
  - apply bind_ok in Hnew as (s2 & rest & Hrest & [= _ <-]). apply IH in Hrest. unfold active. rewrite fmap_cons, (Hid task eq_refl).
    by apply sublist_skip.
  - apply bind_ok in Hnew as (s2 & [] & _ & Hnew). apply bind_ok in Hnew as (s3 & o & _ & Hnew). apply sublist_cons. by eapply IH.
Qed.

Lemma CreateBatch_ids batch ids r : yields (λ new, active new `sublist_of` ids) (CreateBatch batch ids r : TM W _).
Proof.
  unfold CreateBatch. destruct (negb _); [by intros s s' a|]. eapply yields_bind; [apply PlanBatch_made|]. intros p Hp.
  destruct (negb _); [by intros s s' a|]. eapply yields_bind; [eapply batch_items_made; exact Hp|]. intros items Hm.
  apply yields_after. intros _ s s' new Hrun. apply start_all_ids in Hrun. etrans; [exact Hrun|apply Hm].
Qed.

Context (x ss sv ts : string) (strict : bool).
#[local] Abbreviation loose := (loose x ss sv ts strict).
#[local] Abbreviation live := (live x ts strict).

Definition pending (items : list VMTransfer) : list Task := (λ t, (t, "prepare"%string)) <$> items.

(** The new workers and what is left of an operation. *)
Definition joined (tasks : list Task) (r : result TransferError (list Task)) : Service W → Prop :=
  match r with Ok new => loose None (new ++ tasks) | Err _ => loose None tasks end.

Lemma loose_start_all items tasks :
  (∀ t, t ∈ items → (t, "prepare"%string) ∈ tasks) → hoare (loose None tasks) (start_all items) (joined tasks).
Proof.
  revert tasks. induction items as [|t items IH]; intros tasks Hin; cbn [start_all]; [by intros s|].
  apply hoare_bind with (R := λ _, loose (Some "prepare"%string) tasks).
  { intros s Hs. apply (loose_set x ss sv ts strict None (Some "prepare"%string) tasks (λ _, t)); [|done]. intros Hid.
    pose proof (lo_tasks _ _ _ _ _ _ _ _ Hs) as Hall. rewrite Forall_forall in Hall.
    destruct (Hall _ (Hin t ltac:(left)) Hid) as [Hm Hr Hw Hk]. by split_and!. }
  intros _. eapply hoare_bind; [apply hoare_try; apply loose_startLocked|]. intros [task|e]; cbn [starts].
  - intros s Hs. assert (∀ t', t' ∈ items → (t', "prepare"%string) ∈ task :: tasks) as Hin' by (intros t' H'; right; apply Hin; by right).
    apply (IH (task :: tasks) Hin') in Hs. unfold mbind, ST_bind. destruct (start_all items s) as [s' [rest|e]]; cbn [fst snd joined mret ST_ret] in *.
    + eapply loose_sub, Hs. set_solver.
    + eapply loose_sub, Hs. set_solver.
  - apply hoare_after; [keeps_tac|by intros e' s|intros _]. apply hoare_after; [keeps_tac|by intros e' s|intros _].
    apply IH. intros t' H'. apply Hin. by right.
Qed.

(** The identifier of a machine of the group comes with the machines it asks for. *)
Definition group_names (ids : list string) (rs : list VMTransferRequest) : Prop :=
  ∀ i r, ids !! i = Some x → rs !! i = Some r → names ss sv ts r.

Lemma blank_task tr t : blank t → (tf_ID t = x → names ss sv ts (tf_Request t)) → (tf_ID t = x → live tr = ∅) →
  tf_ID t = x → task_ok x ss sv ts strict tr (t, "prepare"%string).
Proof.
  intros [] Hn Hl Hid. destruct (Hn Hid) as (? & ? & ?). split; cbn; [by apply mine_dead; [apply Hl|..]| |done|done].
  split; [done| |]; intros; [congruence|]. by rewrite bl_pending0, bl_active0, bl_recovery0.
Qed.

Lemma loose_CreateBatch batch ids r tasks : group_names ids (bq_Items r) →
  hoare (λ s, loose None tasks s ∧ (x ∈ ids → live (sv_trace s) = ∅)) (CreateBatch batch ids r) (joined tasks).
Proof.
  intros Hnames. assert (Looks (λ s, loose None tasks s ∧ (x ∈ ids → live (sv_trace s) = ∅))) as Hlooks.
  { exact (looks_and _ _ (loose_looks x ss sv ts strict None tasks) (looks_if (x ∈ ids) _ (looks_dead x ts strict))). }
  unfold CreateBatch. destruct (negb _); [by intros s []|].
  eapply hoare_yields; [keeps_tac|apply PlanBatch_made|by intros e s []|]. intros p Hp. destruct (negb _); [by intros s []|].
  eapply hoare_yields; [keeps_tac|eapply batch_items_made; exact Hp|by intros e s []|]. intros items [_ Heach] s [Hs Hl].
  assert (loose None (pending items ++ tasks) s) as Hs'.
  { destruct Hs as [Hg Hk Ht Hm]. split; [done..| |done]. apply Forall_app. split; [|done]. apply Forall_forall.
    intros task (t & -> & Hin)%list_elem_of_fmap. destruct (Heach t Hin) as (Hb & i & q & H1 & H2 & H3 & H4 & H5).
    apply blank_task; [done| |]; intros Hid; rewrite Hid in H1; [|apply Hl; by eapply list_elem_of_lookup_2].
    destruct (Hnames i q H1 H2) as (<- & <- & <-). done. }
  assert (∀ t, t ∈ items → (t, "prepare"%string) ∈ pending items ++ tasks) as Hin.
  { intros t Hin. apply elem_of_app. left. by apply (list_elem_of_fmap_2 (λ t, (t, "prepare"%string))). }
  clear Hs Hl. revert s Hs'. eapply hoare_weaken with (P' := loose None (pending items ++ tasks)) (Q' := joined (pending items ++ tasks)).
  - apply hoare_after; [apply loose_store; intros t Ht; exists "prepare"%string; by apply Hin|done|intros _]. by apply loose_start_all.
  - done.
  - intros [new|e] s Hs; cbn [joined] in *; eapply loose_sub, Hs; set_solver.
Qed.

(** ** Requests to a group *)
Lemma loose_act_on action items : (strict = true → action ≠ "rollback_keep"%string) → ∀ active0 tasks,
  hoare (loose None tasks) (act_on active0 action items)
    (λ r s, joined tasks r s ∧ ∀ new, r = Ok new → NoDup (active new) ∧ Forall (λ i, i ∉ active0) (active new)).
Proof.
  intros Hkeep. induction items as [|t items IH]; intros active0 tasks; cbn [act_on].
  { intros s Hs. split; [done|]. intros new [= <-]. by split; constructor. }
  intros s Hs. pose proof (loose_Action x ss sv ts strict tasks active0 (tf_ID t) action true Hkeep s Hs) as Hact.
  pose proof (Action_id active0 (tf_ID t) action true s (lo_keyed _ _ _ _ _ _ _ _ Hs)) as Hid.
  unfold mbind, ST_bind, try. destruct (Action active0 (tf_ID t) action true s) as [s1 r1]. cbn [fst snd] in *.
  assert (∀ active1 tasks1 s1, loose None tasks1 s1 → let out := act_on active1 action items s1 in
    joined tasks1 out.2 out.1 ∧ ∀ new, out.2 = Ok new → NoDup (active new) ∧ Forall (λ i, i ∉ active1) (active new)) as IH'.
  { intros active1 tasks1 s2 Hs2. exact (IH active1 tasks1 s2 Hs2). }
  destruct r1 as [[task|]|e]; cbn [handed] in Hact; [|by apply IH'..]. destruct (Hid task eq_refl) as [Ht Hnot].
  destruct (IH' (tf_ID task.1 :: active0) (task :: tasks) s1 Hact) as [Hj Hn].
  destruct (act_on (tf_ID task.1 :: active0) action items s1) as [s2 [rest|e]]; cbn [fst snd joined mret ST_ret] in *.
  - split; [eapply loose_sub, Hj; set_solver|]. intros new [= <-]. destruct (Hn rest eq_refl) as [Hnd Hall].
    unfold active in *. rewrite fmap_cons. rewrite Forall_forall in Hall. split.
    + apply NoDup_cons. split; [|done]. intros Hin. apply (Hall _ Hin). left.
    + apply Forall_cons. split; [by rewrite Ht|]. apply Forall_forall. intros i Hin Hi. apply (Hall i Hin). by right.
  - split; [eapply loose_sub, Hj; set_solver|done].
Qed.

Lemma loose_BatchAction active0 batch action confirm tasks : (strict = true → action ≠ "rollback_keep"%string) →
  hoare (loose None tasks) (BatchAction active0 batch action confirm)
    (λ r s, joined tasks r s ∧ ∀ new, r = Ok new → NoDup (active new) ∧ Forall (λ i, i ∉ active0) (active new)).
Proof.
  intros Hkeep. unfold BatchAction. destruct (negb _); [by intros s|]. destruct (negb _); [by intros s|].
  apply hoare_after; [unfold ListVMTransfers; keeps_tac|by intros e s|intros items]. case_bool_decide; [by intros s|].
  by apply loose_act_on.
Qed.
End Group.
