(* ===== verification/TransferHistory.v ===== *)
(** Migrations over time: whatever people ask for, whatever fails or stops, no
    migration lets both of its machines run, and none writes to a target that has
    been running; and the automatic recovery comes to a stop. *)

From S2P Require Import Prelude StateM GoTime GoStr Transfers TransferPlan TransferRun TransferControl TransferMachine TransferFrame TransferSafe.
From S2P Require Import TransferReach TransferStart.

(** * Every history *)
Section History.
Context {W : Type} `{!World W} `{!TransferTexts}.

Context (asked : string → Prop) (strict : bool).
Context (x : string) (Hx : x ≠ ""%string) (Hkeep : strict = true → ¬ asked "rollback_keep"%string).

(** What holds of a migration between operations; its machines are those of the
    request that created it. *)
Definition kept (m : Machine (W := W)) : Prop :=
  NoDup (active (ma_tasks m)) ∧ ∃ ss sv ts, loose x ss sv ts strict None (ma_tasks m) (idle (ma_service m)).

Lemma loose_idle ss sv ts action tasks (s : Service W) :
  loose x ss sv ts strict action tasks s → loose x ss sv ts strict None tasks (idle s).
Proof. intros [[] Hk Ht Hm]. split; [done..|]. cbn. intros Hid. by destruct Hx. Qed.

Lemma loose_unused ss sv ts tasks (s : Service W) :
  unused x (mkMachine s tasks) → keyed s → loose x ss sv ts strict None tasks (idle s).
Proof.
  intros (_ & Hrow & Hnot & Htr) Hk. cbn in *. split; [split; cbn| |apply Forall_forall|cbn].
  - by apply safe_unused.
  - by rewrite Hrow.
  - done.
  - intros task Hin Hid. destruct Hnot. rewrite <-Hid. by apply (list_elem_of_fmap_2 (λ task, tf_ID task.1)).
  - intros Hid. by destruct Hx.
Qed.

(** ** A worker that keeps waiting *)
Lemma waiting_ok ss sv ts free task :
  hoare (λ s : Service W, task_ok x ss sv ts strict (sv_trace s) task) (run_task free task)
    (λ r s, r = Ok false → task_ok x ss sv ts strict (sv_trace s) task).
Proof.
  assert (keeps (λ s : Service W, task_ok x ss sv ts strict (sv_trace s) task) (acquireSlot free)) as Hacq.
  { pose proof (looks_task x ss sv ts strict task). unfold acquireSlot, ListVMTransfers. keeps_tac. by intros s. }
  unfold run_task. apply hoare_bind with (R := λ _ s, task_ok x ss sv ts strict (sv_trace s) task); [by intros s|intros _].
  apply hoare_bind with (R := λ _ s, task_ok x ss sv ts strict (sv_trace s) task).
  { apply hoare_try. exact Hacq. }
  assert (∀ m : TM W bool, yields (λ b, b = true) m →
    hoare (λ s : Service W, task_ok x ss sv ts strict (sv_trace s) task) m
      (λ r s, r = Ok false → task_ok x ss sv ts strict (sv_trace s) task)) as Hnot.
  { intros m Hm s _ Hr. destruct (m s) as [s' r] eqn:Hrun. cbn in Hr. subst r. by apply Hm in Hrun. }
  intros [[]|e]; [apply Hnot|by intros s|apply Hnot].
  - apply yields_after. intros [u|e]; [by apply yields_ret|]. repeat (apply yields_after; intros ?). by apply yields_ret.
  - repeat (apply yields_after; intros ?). by apply yields_ret.
Qed.

(** ** One step *)
Lemma loose_make ss sv ts tasks (s : Service W) :
  good x ss sv ts strict s → keyed s → (∀ task, task ∈ tasks → tf_ID task.1 = x → task_ok x ss sv ts strict (sv_trace s) task) →
  loose x ss sv ts strict None tasks (idle s).
Proof. intros [] Hk Ht. split; [done|done|by apply Forall_forall|]. cbn. intros Hid. by destruct Hx. Qed.

(** The only worker of a migration. *)
Lemma only_task tasks1 task tasks2 task' :
  NoDup (active (tasks1 ++ task :: tasks2)) → task' ∈ tasks1 ++ tasks2 → tf_ID task'.1 ≠ tf_ID task.1.
Proof.
  intros Hnd Hin Hid. unfold active in Hnd. rewrite fmap_app, fmap_cons in Hnd. apply NoDup_app in Hnd as (_ & H1 & H2).
  apply NoDup_cons in H2 as [H2 _]. apply elem_of_app in Hin as [Hin|Hin].
  - apply (H1 (tf_ID task'.1)); [by apply (list_elem_of_fmap_2 (λ task, tf_ID task.1))|]. rewrite Hid. left.
  - apply H2. rewrite <-Hid. by apply (list_elem_of_fmap_2 (λ task, tf_ID task.1)).
Qed.

Lemma kept_free free task tasks1 tasks2 (s s' : Service W) r :
  run_task free task (idle s) = (s', r) → kept (mkMachine s (tasks1 ++ task :: tasks2)) →
  kept (mkMachine s' (tasks1 ++ (match r with Ok false => [task] | _ => [] end) ++ tasks2)).
Proof.
  intros Hrun [Hnd (ss & sv & ts & Hl)]. cbn [ma_tasks ma_service] in *.
  pose proof (keeps_run_task keyed free task (keyed_any _) _ (lo_keyed _ _ _ _ _ _ _ _ Hl)) as Hkeyed. rewrite Hrun in Hkeyed. cbn in Hkeyed.
  set (waiting := match r with Ok false => [task] | _ => [] end).
  assert (∀ task', task' ∈ tasks1 ++ waiting ++ tasks2 → task' ∈ tasks1 ++ tasks2 ∨ (task' = task ∧ r = Ok false)) as Hw.
  { intros task'. rewrite !elem_of_app. subst waiting. destruct r as [[]|]; rewrite ?elem_of_nil, ?list_elem_of_singleton; tauto. }
  split.
  { eapply sublist_NoDup; [exact Hnd|]. cbn [ma_tasks]. unfold active. rewrite !fmap_app, fmap_cons. apply sublist_app; [done|].
    subst waiting. destruct r as [[]|]; cbn; [by apply sublist_cons|done|by apply sublist_cons]. }
  exists ss, sv, ts. pose proof (lo_tasks _ _ _ _ _ _ _ _ Hl) as Hall. pose proof (lo_good _ _ _ _ _ _ _ _ Hl) as Hg.
  destruct (decide (tf_ID task.1 = x)) as [Hid|Hid].
  - rewrite Forall_forall in Hall. assert (task_ok x ss sv ts strict (sv_trace (idle s)) task) as Hok by (apply Hall; [set_solver|done]).
    apply loose_make; [|done|].
    + pose proof (run_own _ _ _ _ _ free task _ Hg Hok) as Hown. by rewrite Hrun in Hown.
    + intros task' [Hin|[-> ->]]%Hw Hid'; [|by pose proof (waiting_ok ss sv ts free task _ Hok) as Hwait; rewrite Hrun in Hwait; apply Hwait].
      destruct (only_task tasks1 task tasks2 task' Hnd Hin). congruence.
  - pose proof (run_other _ _ _ _ _ _ free task _ Hid Hg Hall) as [_ Hg' Hall']. rewrite Hrun in Hg', Hall'.
    apply loose_make; [done|done|]. rewrite Forall_forall in Hall'. intros task' Hin. apply Hall'.
    apply Hw in Hin as [Hin|[-> _]]; set_solver.
Qed.

(** An operation that may start workers for migrations without one. *)
Lemma kept_started ss sv ts tasks new (s' : Service W) :
  NoDup (active tasks) → NoDup (active new) → Forall (λ i, i ∉ active tasks) (active new) →
  loose x ss sv ts strict None (new ++ tasks) s' → kept (mkMachine s' (tasks ++ new)).
Proof.
  intros H1 H2 H3 Hl. split.
  - cbn. rewrite active_app. apply NoDup_app. split_and!; [done| |done]. rewrite Forall_forall in H3. intros i Hi Hnew. by apply (H3 i).
  - exists ss, sv, ts. eapply loose_idle, loose_sub, Hl. set_solver.
Qed.

Lemma kept_create id r (s s' : Service W) tasks res :
  unused id (mkMachine s tasks) → Create id r (idle s) = (s', res) → kept (mkMachine s tasks) →
  kept (mkMachine s' (tasks ++ match res with Ok task => [task] | Err _ => [] end)).
Proof.
  intros Hun Hrun [Hnd (ss & sv & ts & Hl)]. cbn [ma_tasks ma_service] in *.
  assert (∃ ss sv ts, loose x ss sv ts strict None tasks (idle s) ∧ (id = x → names ss sv ts r)) as (ss' & sv' & ts' & Hl' & Hnames).
  { destruct (decide (id = x)) as [->|]; [|by exists ss, sv, ts].
    exists (tq_SourceServerID r), (tq_SourceVMID r), (tq_TargetServerID r). split; [|done]. apply loose_unused; [done|].
    exact (lo_keyed _ _ _ _ _ _ _ _ Hl). }
  assert (id = x → live x ts' strict (sv_trace (idle s)) = ∅) as Hdead.
  { intros ->. destruct Hun as (_ & _ & _ & Htr). by apply live_unused. }
  pose proof (loose_Create x ss' sv' ts' strict id r tasks Hnames _ (conj Hl' Hdead)) as Hnew.
  pose proof (Create_id id r (idle s) I) as Hid. rewrite Hrun in Hnew, Hid. cbn [fst snd] in *.
  destruct Hun as (_ & _ & Hnot & _). eapply kept_started; [done| | |]; destruct res as [task|e]; cbn; try done; try by constructor.
  - by constructor; [set_solver|constructor].
  - repeat constructor. by rewrite (Hid task eq_refl).
Qed.

Lemma kept_action id action confirm (s s' : Service W) tasks r :
  asked action → Action (active tasks) id action confirm (idle s) = (s', r) → kept (mkMachine s tasks) →
  kept (mkMachine s' (tasks ++ match r with Ok (Some task) => [task] | _ => [] end)).
Proof.
  intros Hask Hrun [Hnd (ss & sv & ts & Hl)]. cbn [ma_tasks ma_service] in *.
  assert (strict = true → action ≠ "rollback_keep"%string) as Hnot by (intros Hs ->; by apply Hkeep).
  pose proof (loose_Action x ss sv ts strict tasks (active tasks) id action confirm Hnot _ Hl) as Hnew.
  pose proof (Action_id (active tasks) id action confirm _ (lo_keyed _ _ _ _ _ _ _ _ Hl)) as Hid.
  rewrite Hrun in Hnew, Hid. cbn [fst snd] in *.
  apply (kept_started ss sv ts); destruct r as [[task|]|e]; cbn; try done; try by constructor.
  - by constructor; [set_solver|constructor].
  - repeat constructor. by destruct (Hid task eq_refl) as [-> ?].
Qed.

(** A group: its machines are those its request names for the migration. *)
Lemma kept_create_batch batch ids r (s s' : Service W) tasks res :
  length ids = length (bq_Items r) → NoDup ids → Forall (λ id, unused id (mkMachine s tasks)) ids →
  CreateBatch batch ids r (idle s) = (s', res) → kept (mkMachine s tasks) →
  kept (mkMachine s' (tasks ++ match res with Ok new => new | Err _ => [] end)).
Proof.
  intros Hlen Hids Hun Hrun [Hnd (ss & sv & ts & Hl)]. cbn [ma_tasks ma_service] in *. rewrite Forall_forall in Hun.
  assert (∃ ss sv ts, loose x ss sv ts strict None tasks (idle s) ∧ group_names x ss sv ts ids (bq_Items r)) as (ss' & sv' & ts' & Hl' & Hnames).
  { destruct (decide (x ∈ ids)) as [Hin|Hout].
    - apply list_elem_of_lookup in Hin as [i Hi]. assert (is_Some (bq_Items r !! i)) as [q Hq].
      { apply lookup_lt_is_Some. rewrite <-Hlen. by eapply lookup_lt_Some. }
      exists (tq_SourceServerID q), (tq_SourceVMID q), (tq_TargetServerID q). split.
      + apply loose_unused; [by apply Hun; eapply list_elem_of_lookup_2|exact (lo_keyed _ _ _ _ _ _ _ _ Hl)].
      + intros j q' Hj Hq'. rewrite (NoDup_lookup ids j i x Hids Hj Hi) in Hq'. by simplify_eq.
    - exists ss, sv, ts. split; [done|]. intros i q Hi. destruct Hout. by eapply list_elem_of_lookup_2. }
  assert (x ∈ ids → live x ts' strict (sv_trace (idle s)) = ∅) as Hdead.
  { intros Hin. destruct (Hun x Hin) as (_ & _ & _ & Htr). by apply live_unused. }
  pose proof (loose_CreateBatch x ss' sv' ts' strict batch ids r tasks Hnames _ (conj Hl' Hdead)) as Hnew. rewrite Hrun in Hnew.
  apply (kept_started ss' sv' ts'); [done| | |by destruct res]; destruct res as [new|e]; cbn; try by constructor.
  - eapply sublist_NoDup; [exact Hids|]. by eapply CreateBatch_ids.
  - apply Forall_forall. intros i Hin. assert (i ∈ ids) as Hi by (eapply elem_of_sublist; [exact Hin|by eapply CreateBatch_ids]).
    by destruct (Hun i Hi) as (_ & _ & ? & _).
Qed.

Lemma kept_batch_action batch action confirm (s s' : Service W) tasks res :
  asked action → BatchAction (active tasks) batch action confirm (idle s) = (s', res) → kept (mkMachine s tasks) →
  kept (mkMachine s' (tasks ++ match res with Ok new => new | Err _ => [] end)).
Proof.
  intros Hask Hrun [Hnd (ss & sv & ts & Hl)]. cbn [ma_tasks ma_service] in *.
  assert (strict = true → action ≠ "rollback_keep"%string) as Hnot by (intros Hs ->; by apply Hkeep).
  destruct (loose_BatchAction x ss sv ts strict (active tasks) batch action confirm tasks Hnot _ Hl) as [Hnew Hid].
  rewrite Hrun in Hnew, Hid. cbn [fst snd] in *.
  apply (kept_started ss sv ts); destruct res as [new|e]; cbn; try done; try (by constructor); by destruct (Hid new eq_refl).
Qed.

Lemma kept_reconcile (s s' : Service W) tasks r :
  ReconcileRecovery (active tasks) (idle s) = (s', r) → kept (mkMachine s tasks) →
  kept (mkMachine s' (tasks ++ match r with Ok new => new | _ => [] end)).
Proof.
  intros Hrun [Hnd (ss & sv & ts & Hl)]. cbn [ma_tasks ma_service] in *.
  pose proof (loose_Reconcile x ss sv ts strict (active tasks) tasks _ Hl) as Hnew.
  pose proof (Reconcile_ids (active tasks) _ (lo_keyed _ _ _ _ _ _ _ _ Hl)) as Hid. rewrite Hrun in Hnew, Hid. cbn [fst snd] in *.
  apply (kept_started ss sv ts); destruct r as [new|e]; cbn; try done; try (by constructor); by destruct (Hid new eq_refl).
Qed.

Lemma kept_step m m' : step asked m m' → kept m → kept m'.
Proof.
  intros [id r s s' tasks task Hun Hrun|id r s s' tasks e Hun Hrun|id action confirm s s' tasks r Hask Hrun
    |batch ids r s s' tasks res Hlen Hids Hun Hrun|batch action confirm s s' tasks res Hask Hrun|free s s' tasks1 task tasks2 r Hrun
    |s s' tasks r Hrun|s tasks|s s' r Hrun|w life faults s tasks].
  - exact (kept_create _ _ _ _ _ _ Hun Hrun).
  - intros Hk. pose proof (kept_create _ _ _ _ _ _ Hun Hrun Hk) as Hn. by rewrite app_nil_r in Hn.
  - exact (kept_action _ _ _ _ _ _ _ Hask Hrun).
  - exact (kept_create_batch _ _ _ _ _ _ _ Hlen Hids Hun Hrun).
  - exact (kept_batch_action _ _ _ _ _ _ _ Hask Hrun).
  - exact (kept_free _ _ _ _ _ _ _ Hrun).
  - exact (kept_reconcile _ _ _ _ Hrun).
  - intros [_ (ss & sv & ts & Hl)]. split; [constructor|]. exists ss, sv, ts. eapply loose_sub, Hl. set_solver.
  - intros [_ (ss & sv & ts & Hl)]. split; [constructor|]. exists ss, sv, ts.
    pose proof (loose_Recover x ss sv ts strict [] _ Hl) as Hn. cbn [ma_service] in Hn. rewrite Hrun in Hn. by eapply loose_idle.
  - intros [Hnd (ss & sv & ts & [[] Hk Ht Hm])]. split; [done|]. exists ss, sv, ts. by split.
Qed.

Lemma kept_reachable m0 m : initial m0 → rtc (step asked) m0 m → kept m.
Proof.
  intros (Hrows & Htr & Htasks) Hreach. assert (kept m0) as H0.
  { split; [rewrite Htasks; constructor|]. exists "", "", "". unfold idle. split.
    - split; cbn; [rewrite Htr; by apply safe_unused|]. intros r. by rewrite Hrows, lookup_empty.
    - intros i r. cbn. by rewrite Hrows, lookup_empty.
    - rewrite Htasks. constructor.
    - cbn. intros Hid. by destruct Hx. }
  clear Hrows Htr Htasks. induction Hreach as [m|m m1 m2 Hstep _ IH]; [done|]. apply IH. by eapply kept_step.
Qed.

(** A stored migration and the machines its record names. *)
Lemma kept_row m r : kept m → sv_rows (ma_service m) !! x = Some r →
  safe x (source_server (tr_payload r)) (source_vm (tr_payload r)) (target_server (tr_payload r)) strict (sv_trace (ma_service m)).
Proof.
  intros [_ (ss & sv & ts & Hl)] Hr. destruct (lo_good _ _ _ _ _ _ _ _ Hl) as [Hs Hrow]. destruct (Hrow r Hr) as [[_ <- <- <- _] _].
  exact Hs.
Qed.
End History.

(** * What people rely on *)
Section Promises.
Context {W : Type} `{!World W} `{!TransferTexts} (asked : string → Prop).

(** C3. Whatever people ask for, whatever the engines answer and wherever the
    service stops and restarts, a migration never lets both machines run: its
    target is asked to start only after its source was seen down and was not asked
    to start since, and its source is asked to start only after every target it
    asked to start was seen down or gone. *)
Theorem one_machine_at_a_time (m0 m : Machine (W := W)) id r :
  id ≠ ""%string → initial m0 → rtc (step asked) m0 m → sv_rows (ma_service m) !! id = Some r →
  handover id (source_server (tr_payload r)) (source_vm (tr_payload r)) (target_server (tr_payload r)) (sv_trace (ma_service m)).
Proof.
  intros Hid Hinit Hreach Hr. apply (kept_row false id m r); [|done]. by apply (kept_reachable asked false id Hid) with m0.
Qed.

(** C4. While nobody asks to go back with the target kept, a migration writes
    changes to its target only as long as no target has been asked to start, apart
    from targets seen gone since. *)
Theorem started_target_untouched (m0 m : Machine (W := W)) id r :
  ¬ asked "rollback_keep"%string → id ≠ ""%string → initial m0 → rtc (step asked) m0 m → sv_rows (ma_service m) !! id = Some r →
  untouched id (target_server (tr_payload r)) (sv_trace (ma_service m)).
Proof.
  intros Hkeep Hid Hinit Hreach Hr. apply (kept_row true id m r); [|done]. by apply (kept_reachable asked true id Hid) with m0.
Qed.
End Promises.

(** * The recovery gives up *)
Section Recovery.
Context {W : Type} `{!World W} `{!TransferTexts}.
Implicit Types (s : Service W) (task : Task).

(** How many more tries the policy has left for an action. *)
Definition tries_left (p : MigrationRecoveryPolicy) (t : VMTransfer) (action : string) : Z :=
  Z.max 0 (rp_MaxRollbackAttempts p - tf_RollbackAttempts t)
  + if is_rollback action then 0 else 1 + Z.max 0 (rp_MaxRetries p - tf_RecoveryAttempts t).

Lemma tries_left_nonneg p t action : 0 <= tries_left p t action.
Proof. unfold tries_left. destruct (is_rollback action); lia. Qed.

Lemma tries_left_counters p t t' action : counters t = counters t' → tries_left p t action = tries_left p t' action.
Proof. intros [= _ Ha Hr]. unfold tries_left. by rewrite Ha, Hr. Qed.

(** What the policy lets happen next spends a try. *)
Lemma next_cases p t action reason next :
  next_action p t action reason = Some next →
  (next ∈ ["rollback"; "cancel"]%string ∧ (is_rollback action = true → tf_RollbackAttempts t < rp_MaxRollbackAttempts p))
  ∨ (next ∈ ["recover_target"; "prepare"; "retry_prepare"; "sync"; "cutover"]%string
     ∧ is_rollback action = false ∧ tf_RecoveryAttempts t < rp_MaxRetries p).
Proof.
  unfold next_action. case_bool_decide; [done|].
  destruct (negb (is_rollback action) && negb (budget_spent reason) && (tf_RecoveryAttempts t <? rp_MaxRetries p)) eqn:Hretry.
  - intros [= <-]. apply andb_true_iff in Hretry as [[Hr%negb_true_iff _]%andb_true_iff Hmax%Z.ltb_lt]. rewrite Hr.
    assert (retry_action t action ∈ ["rollback"; "recover_target"; "prepare"; "retry_prepare"; "sync"; "cutover"]%string) as Hin.
    { unfold retry_action. repeat case_match; try case_bool_decide; destruct_or?; set_solver. }
    apply elem_of_cons in Hin as [->|Hin]; [left; split; [left|done]|by right].
  - destruct (_ && negb (rp_RollbackOnFailure p)); [done|]. destruct (_ && negb (rp_RollbackAfterTargetStart p)); [done|].
    destruct (rp_MaxRollbackAttempts p <=? tf_RollbackAttempts t) eqn:Hmax; [done|]. intros [= <-]. left. apply Z.leb_gt in Hmax.
    split; [case_bool_decide; set_solver|done].
Qed.

Lemma next_spends p t action reason next :
  next_action p t action reason = Some next →
  tries_left p (count_attempt (set_RecoveryAction next t)) next < tries_left p t action.
Proof.
  intros [[Hnext Hmax]|(Hnext & Ha & Hmax)]%next_cases.
  - assert (is_rollback next = true ∧ next ∈ ["rollback"; "cancel"]%string) as [Hr Hin] by (split; [rewrite !elem_of_cons, elem_of_nil in Hnext; destruct_or!; by subst|done]).
    unfold tries_left, count_attempt. cbn [tf_RecoveryAction set_RecoveryAction]. rewrite (bool_decide_eq_true_2 _ Hin), Hr. cbn.
    destruct (is_rollback action); [specialize (Hmax eq_refl)|]; lia.
  - assert (is_rollback next = false ∧ next ∉ ["rollback"; "cancel"]%string) as [Hr Hin].
    { rewrite !elem_of_cons, elem_of_nil in Hnext. destruct_or!; subst; (split; [done|set_solver]). }
    unfold tries_left, count_attempt. cbn [tf_RecoveryAction set_RecoveryAction]. rewrite (bool_decide_eq_false_2 _ Hin), Hr, Ha. cbn. lia.
Qed.

(** ** The work does not touch the tries *)
Definition tallied (c : option MigrationRecoveryPolicy * Z * Z) s : Prop :=
  counters (sv_t s) = c ∧ tf_Status (sv_t s) ≠ "recovering"%string.

Section Update.
Context (P : VMTransfer → Prop) (HP : ∀ n t, P t → P (set_Revision n t)).

Lemma keeps_memory_ask {A} (c : Call A) : keeps (λ s, P (sv_t s)) (ask c).
Proof. intros s Hs. unfold ask. destruct (sv_life s); [done|]. by destruct (ask_world _ _ _). Qed.

Lemma keeps_memory_statement : keeps (λ s, P (sv_t s)) statement.
Proof. intros s Hs. unfold statement. by destruct (sv_life s). Qed.

Lemma keeps_memory_update f : keeps (λ s, P (sv_t s)) (update_row f).
Proof using HP.
  apply keeps_bind; [apply keeps_memory_statement|intros _]. intros s Hs. run_st.
  destruct (sv_rows s !! tf_ID (sv_t s)) as [r|]; [|done]. case_bool_decide; [|done].
  destruct (f r _); [|done]. by apply HP.
Qed.
End Update.

#[export] Instance tallied_works c : Works (tallied c).
Proof.
  set (P t := counters t = c ∧ tf_Status t ≠ "recovering"%string).
  assert (∀ n t, P t → P (set_Revision n t)) as HP by done.
  split; [split; [split|]| |].
  - intros A q _. apply (keeps_memory_ask P).
  - apply (keeps_memory_statement P).
  - intros f Hf Hu s [Hc Hs]. split; cbn; [by rewrite Hu|]. destruct (calm_status f Hf (sv_t s)) as [->|?]; done.
  - by apply (keeps_memory_update P).
  - intros expected. by apply (keeps_memory_update P).
  - intros i. apply keeps_bind; [apply (keeps_memory_statement P)|intros _]. intros s Hs. run_st. by destruct (sv_rows s !! i).
  - intros server vm st out. apply keeps_bind; [apply (keeps_memory_statement P)|intros _]. intros s Hs. run_st.
    by destruct (sv_desired s !! (server, vm)).
  - intros server vm. apply (keeps_memory_ask P).
  - intros A q. apply (keeps_memory_ask P).
  - intros f Hf s [Hc Hs]. destruct (Hf (sv_t s)) as (_ & Hu & Hst). split; cbn; [by rewrite Hu|]. destruct Hst as [->|?]; done.
Qed.

(** ** A failure spends a try *)
(** The record waits for no recovery, or for one that the policy allows after a
    failure of this action. *)
Definition answered (c : option MigrationRecoveryPolicy * Z * Z) (action : string) (t : VMTransfer) : Prop :=
  counters t = c ∧ (tf_Status t = "recovering"%string →
    ∃ p t0 reason, tf_RecoveryPolicy t = Some p ∧ counters t0 = c
      ∧ next_action p t0 action reason = Some (tf_RecoveryAction t)).

Lemma tallied_answered c action : ∀ s, tallied c s → answered c action (sv_t s).
Proof. by intros s [Hc Hs]. Qed.

Lemma schedule_answered c action reason :
  hoare (tallied c) (scheduleRecovery action reason) (λ _ s, answered c action (sv_t s)).
Proof.
  intros s [Hc Hs]. unfold scheduleRecovery. rewrite t_get_run. destruct (tf_RecoveryPolicy (sv_t s)) as [p|] eqn:Hp;
    [|by apply tallied_answered].
  destruct (ask Now s) as [s1 r] eqn:Hnow.
  assert (tallied c s1 ∧ tf_RecoveryPolicy (sv_t s1) = Some p) as [[Hc1 Hs1] Hp1].
  { unfold ask in Hnow. destruct (sv_life s); [by simplify_eq|]. destruct (ask_world _ _ _). by simplify_eq. }
  destruct r as [now|e]; [rewrite (bind_run _ _ _ _ _ Hnow)|].
  - cbn. unfold schedule. destruct (next_action _ _ _ _) as [next|] eqn:Hnext; split; try done.
    intros _. exists p, (set_RecoveryAction "" (set_NextRecoveryAt None (sv_t s1))), reason. by split_and!.
  - unfold mbind, ST_bind. rewrite Hnow. by apply tallied_answered.
Qed.

Lemma failed_answered c action e cause :
  hoare (tallied c) (actionFailed action e cause) (λ _ s, answered c action (sv_t s)).
Proof.
  unfold actionFailed. case_bool_decide; [by intros s Hs; apply tallied_answered|].
  assert (∀ m : TM W (), hoare (tallied c) m (λ _ s, answered c action (sv_t s)) →
    hoare (tallied c) (m ;; try save ;; mret ()) (λ _ s, answered c action (sv_t s))) as Hsave.
  { intros m Hm. apply hoare_bind with (R := λ _ s, answered c action (sv_t s)); [by eapply hoare_weaken; [exact Hm|done|intros []]|].
    intros _. apply (keeps_bind (λ s, answered c action (sv_t s))); [|by intros r s].
    apply keeps_try. by apply (keeps_memory_update (answered c action)). }
  assert (∀ (f : VMTransfer → VMTransfer),
    (∀ t, counters (f t) = counters t ∧ (tf_Status (f t) = tf_Status t ∨ tf_Status (f t) ≠ "recovering"%string)) →
    hoare (tallied c) (set_t f : TM W ()) (λ _ s, answered c action (sv_t s))) as Hset.
  { intros f Hf s [Hc Hs]. destruct (Hf (sv_t s)) as [Hu Hst]. cbn. split; [by rewrite Hu|].
    intros Hr. destruct Hst as [Hst|?]; congruence. }
  apply hoare_after; [keeps_tac|intros ? s Hs; by apply tallied_answered|intros stopping].
  apply hoare_after; [keeps_tac|intros ? s Hs; by apply tallied_answered|intros t].
  apply Hsave. repeat case_match; first [apply schedule_answered | apply Hset]; intros t'; cbn; (split; [done|]); right;
    [done..|by case_bool_decide].
Qed.

Lemma run_task_answered free task s s' r :
  tf_Status task.1 ≠ "recovering"%string → run_task free task s = (s', r) → answered (counters task.1) task.2 (sv_t s').
Proof.
  intros Hst Hrun. assert (hoare (λ _, True) (run_task free task) (λ _ s, answered (counters task.1) task.2 (sv_t s))) as Hh;
    [|by specialize (Hh s I); rewrite Hrun in Hh].
  assert (∀ e cause, hoare (tallied (counters task.1)) (actionFailed task.2 e cause ;; mret true)
    (λ _ s, answered (counters task.1) task.2 (sv_t s))) as Hfail.
  { intros e cause. apply hoare_bind with (R := λ _ s, answered (counters task.1) task.2 (sv_t s)); [|by intros _ s0].
    eapply hoare_weaken; [apply failed_answered|done|by intros []]. }
  unfold run_task. apply hoare_bind with (R := λ _, tallied (counters task.1)); [by intros s0 _|intros _].
  apply hoare_after; [keeps_tac|intros ? s0 Hs; by apply tallied_answered|intros ready].
  destruct ready as [[|]|e].
  - apply hoare_after; [keeps_tac|intros ? s0 Hs; by apply tallied_answered|intros [u|e]].
    + intros s0 Hs. by apply tallied_answered.
    + apply hoare_after; [keeps_tac|intros ? s0 Hs; by apply tallied_answered|intros cause]. apply Hfail.
  - intros s0 Hs. by apply tallied_answered.
  - apply hoare_after; [keeps_tac|intros ? s0 Hs; by apply tallied_answered|intros cause]. apply Hfail.
Qed.

(** ** A try that is taken up is counted *)
Lemma startLocked_counted action s s' task : startLocked action s = (s', Ok task) →
  counters task.1 = counters (sv_t s) ∧ tf_Status task.1 = "queued"%string ∧ task.2 = action.
Proof.
  intros Hrun. assert (hoare (λ s0, counters (sv_t s0) = counters (sv_t s)) (startLocked action)
    (λ r _, ∀ task, r = Ok task → counters task.1 = counters (sv_t s) ∧ tf_Status task.1 = "queued"%string ∧ task.2 = action)) as Hh;
    [|by specialize (Hh s eq_refl); rewrite Hrun in Hh; apply Hh].
  set (P t := counters t = counters (sv_t s)). set (Q t := P t ∧ tf_Status t = "queued"%string).
  assert (∀ n t, Q t → Q (set_Revision n t)) as HQ by done.
  unfold startLocked. apply (hoare_after (λ s0, P (sv_t s0))); [by intros s0 Hs|done|intros t].
  apply hoare_after; [|done|intros lock].
  { apply keeps_bind; [apply (keeps_memory_ask P)|]. intros r. by intros s0 Hs. }
  destruct (negb lock); [by intros s0 _|].
  apply hoare_bind with (R := λ _ s0, Q (sv_t s0)); [by intros s0 Hs|intros _].
  apply (hoare_after (λ s0, Q (sv_t s0))); [|done|intros _].
  { case_match; [|by intros s0 Hs]. apply keeps_bind; [apply (keeps_memory_ask Q)|]. by intros now s0 Hs. }
  apply hoare_after; [by apply (keeps_memory_update Q)|done|intros _].
  by intros s0 [Hc Hs] task' [= <-].
Qed.

(** The worker of [x] has ended and left a record that waits for the recovery; the
    record is in the table, and the recovery takes it up and starts [y]. *)
Definition retried (x y : Task) : Prop :=
  ∃ free (s1 s1' : Service W) r active item row (s2 s2' : Service W),
    run_task free x s1 = (s1', r) ∧ tf_Status (sv_t s1') = "recovering"%string
    ∧ sv_rows s2 !! tf_ID item = Some row ∧ tr_payload row = sv_t s1'
    ∧ reconcile_one active item s2 = (s2', Ok (Some y)).

Lemma reconcile_counted active item s s' row y :
  sv_rows s !! tf_ID item = Some row → tf_Status (tr_payload row) = "recovering"%string →
  reconcile_one active item s = (s', Ok (Some y)) →
  counters y.1 = counters (count_attempt (tr_payload row)) ∧ tf_Status y.1 = "queued"%string
  ∧ y.2 = tf_RecoveryAction (tr_payload row).
Proof.
  intros Hrow Hst Hrun. unfold reconcile_one in Hrun. case_match; [done|].
  apply bind_ok in Hrun as (s1 & lock & Hlock & Hrun). destruct (negb lock); [done|].
  apply bind_ok in Hrun as (s2 & t & Hget & Hrun).
  assert (sv_rows s1 = sv_rows s) as Hrows.
  { unfold call in Hlock. apply bind_ok in Hlock as (s0 & r & Hask & Hl). injection Hl as <- _.
    unfold ask in Hask. destruct (sv_life s); [done|]. destruct (ask_world _ _ _). by simplify_eq. }
  unfold GetVMTransfer in Hget. apply bind_ok in Hget as (s3 & u & Hstm & Hget).
  assert (sv_rows s3 = sv_rows s1) as Hrows3.
  { unfold statement in Hstm. destruct (sv_life s1); [done|]. by destruct (sv_faults s1) as [|[] ?]; simplify_eq. }
  rewrite get_run, Hrows3, Hrows, Hrow in Hget. injection Hget as <- <-.
  rewrite (bind_run (set_t (λ _, read_row row)) _ _ _ () eq_refl) in Hrun.
  destruct (negb (recoverable (read_row row))); [done|]. assert (tf_Status (read_row row) = "recovering"%string) as Hst' by done.
  rewrite (bool_decide_eq_true_2 _ Hst') in Hrun. cbv zeta in Hrun. cbn [negb andb] in Hrun.
  rewrite (bind_run (mret ()) _ _ _ () eq_refl), t_get_run in Hrun. cbn [sv_t with_t id] in Hrun.
  rewrite (bool_decide_eq_true_2 _ Hst') in Hrun. cbn [negb] in Hrun.
  apply bind_ok in Hrun as (s4 & now & Hnow & Hrun). destruct (due now (read_row row)); [|done].
  assert (sv_t s4 = read_row row) as Ht.
  { unfold ask in Hnow. destruct (sv_life _); [done|]. destruct (ask_world _ _ _). by simplify_eq. }
  apply bind_ok in Hrun as (s5 & u' & Hset & Hrun). injection Hset as <- _.
  apply bind_ok in Hrun as (s6 & task & Hstart & Hrun). injection Hrun as _ <-.
  apply startLocked_counted in Hstart as (-> & -> & ->). cbn. rewrite Ht.
  split_and!; [|done|done]. unfold count_attempt, counters. cbn. repeat case_bool_decide; done.
Qed.

Lemma retried_spends p x y : retried x y → tf_Status x.1 = "queued"%string → tf_RecoveryPolicy x.1 = Some p →
  tries_left p y.1 y.2 < tries_left p x.1 x.2 ∧ tf_Status y.1 = "queued"%string ∧ tf_RecoveryPolicy y.1 = Some p.
Proof.
  intros (free & s1 & s1' & r & active & item & row & s2 & s2' & Hrun & Hwait & Hrow & Hsaved & Hrec) Hst Hp.
  apply run_task_answered in Hrun as [Hc Hans]; [|by rewrite Hst].
  destruct (Hans Hwait) as (p' & t0 & reason & Hp' & Hc0 & Hnext).
  rewrite <-Hsaved in Hwait. destruct (reconcile_counted _ _ _ _ _ _ Hrow Hwait Hrec) as (Hcy & Hsty & Hay).
  rewrite Hsaved in Hcy, Hay. clear Hans. injection Hc as Hcp Hca Hcr. assert (p' = p) as -> by congruence.
  apply next_spends in Hnext. rewrite (tries_left_counters p t0 x.1) in Hnext by done. rewrite Hay.
  split_and!; [|done|].
  - rewrite (tries_left_counters p y.1 (count_attempt (set_RecoveryAction (tf_RecoveryAction (sv_t s1')) t0))); [done|].
    rewrite Hcy. injection Hc0 as H1 H2 H3. unfold count_attempt, counters. cbn. case_bool_decide; cbn; congruence.
  - injection Hcy as Hy _ _. rewrite Hy. unfold count_attempt. case_bool_decide; cbn; congruence.
Qed.

(** A failure of an action without a try left leaves nothing for the recovery. *)
Lemma last_try free task s s' r p :
  run_task free task s = (s', r) → tf_Status task.1 = "queued"%string → tf_RecoveryPolicy task.1 = Some p →
  tries_left p task.1 task.2 = 0 → tf_Status (sv_t s') ≠ "recovering"%string.
Proof.
  intros Hrun Hst Hp Hzero Hwait. apply run_task_answered in Hrun as [Hc Hans]; [|by rewrite Hst].
  destruct (Hans Hwait) as (p' & t0 & reason & Hp' & Hc0 & Hnext). injection Hc as Hcp _ _.
  assert (p' = p) as -> by congruence. apply next_spends in Hnext.
  rewrite (tries_left_counters p t0 task.1), Hzero in Hnext by done.
  pose proof (tries_left_nonneg p (count_attempt (set_RecoveryAction (tf_RecoveryAction (sv_t s')) t0)) (tf_RecoveryAction (sv_t s'))).
  lia.
Qed.

(** C39. The automatic recovery ends: from an action that a worker was started for,
    whatever the engines answer and whatever fails, the recovery takes up failed
    workers of the migration at most as often as the policy has tries left, and a
    worker that it started with the last of them leaves no record that waits for it,
    as long as it finds the record that each worker left, waiting for it. Nothing is
    claimed when a worker did not get to leave such a record (the service stopped, or
    the record could not be stored), or when a person steps in: [plan_recovery], which
    takes up what was cut off, takes up a first preparation without looking at the
    tries. *)
Theorem recovery_gives_up p n x y :
  nsteps retried n x y → tf_Status x.1 = "queued"%string → tf_RecoveryPolicy x.1 = Some p →
  Z.of_nat n <= tries_left p x.1 x.2
  ∧ (Z.of_nat n = tries_left p x.1 x.2 → ∀ free (s s' : Service W) r,
       run_task free y s = (s', r) → tf_Status (sv_t s') ≠ "recovering"%string).
Proof.
  intros Hsteps. induction Hsteps as [x|n x y z Hxy _ IH]; intros Hst Hp.
  - pose proof (tries_left_nonneg p x.1 x.2). split; [lia|]. intros Hzero free s s' r Hrun. by eapply last_try.
  - destruct (retried_spends p x y Hxy Hst Hp) as (Hless & Hsty & Hpy). destruct (IH Hsty Hpy) as [Hn Hend].
    split; [lia|]. intros Heq. apply Hend. lia.
Qed.
End Recovery.
