(* ===== verification/TransferSamples.v ===== *)
(** Two simulated engines, and migrations between them step by step. *)

From S2P Require Import Prelude StateM GoTime GoStr Transfers TransferPlan TransferRun TransferControl TransferMachine TransferFrame TransferHistory.

(** * The engines *)
(** The state of the source, the target if it exists, runs taken, how many more
    backups fail, whether the recovery is on, and the clock. *)
Record Engines := mkEngines {
  en_source : string; en_target : option VMState; en_runs : nat; en_failing : nat; en_recovery : bool; en_time : Z
}.

Definition with_source (status : string) (w : Engines) : Engines :=
  mkEngines status (en_target w) (en_runs w) (en_failing w) (en_recovery w) (en_time w).
Definition with_target (v : option VMState) (w : Engines) : Engines :=
  mkEngines (en_source w) v (en_runs w) (en_failing w) (en_recovery w) (en_time w).
Definition with_power (status : string) (v : VMState) : VMState :=
  mkVMState (vs_ID v) (vs_Name v) status (vs_Description v) (vs_ClusterID v) (vs_IPs v).
(** The machine of the target's server, if there is one. *)
Definition at_target {A} (w : Engines) (f : VMState → A) : result CallError A :=
  match en_target w with Some v => Ok (f v) | None => Err CallNotFound end.

Definition the_policy (on : bool) : MigrationRecoveryPolicy :=
  mkRecoveryPolicy on 600 3600 7200 1800 300 30 3 2 true true true true true true 0 0.
Definition the_domain : TransferDomain := mkTransferDomain "domain" "data" "active" 100.
Definition the_disk : TransferDisk := mkTransferDisk "disk" 40 "virtio" true false false false "data" "incremental".

#[export] Instance simulate : World Engines := λ A c w,
  match c in Call A return Engines * A with
  | PoolGet _ => (w, Ok ())
  | VMStatus server _ => (w, if bool_decide (server = "e1"%string) then Ok (en_source w) else at_target w vs_Status)
  | GetVMState server vm =>
    (w, if bool_decide (server = "e1"%string) then Ok (mkVMState vm "web" (en_source w) "" "c1" []) else at_target w id)
  | GetVMRecoveryState _ _ => (w, at_target w id)
  | SearchVMs _ => (w, Ok match en_target w with Some v => [v] | None => [] end)
  | ShutdownVM server _ =>
    (if bool_decide (server = "e1"%string) then with_source "down" w else with_target (with_power "down" <$> en_target w) w, Ok ())
  | StopVM server _ =>
    (if bool_decide (server = "e1"%string) then with_source "down" w else with_target (with_power "down" <$> en_target w) w, Ok ())
  | StartVM _ _ => (with_source "up" w, Ok ())
  | StartVMOnHost _ _ _ => (with_target (with_power "up" <$> en_target w) w, Ok ())
  | DeleteVM _ _ => (with_target None w, Ok ())
  | TransferNICs _ _ => (w, Ok [])
  | SetTransferNIC _ _ _ _ => (w, Ok ())
  | ListHosts _ => (w, Ok [mkTransferHost "host" "c2" "up"])
  | HostStorageDomains _ _ => (w, Ok [the_domain])
  | VMConfiguration _ _ => (w, Ok "profile"%string)
  | ListVMDisks _ _ => (w, Ok [the_disk])
  | GetDisk _ _ => (w, Ok 40)
  | ListVNICProfiles _ => (w, Ok [])
  | CheckTCP _ _ => (w, Ok ())
  | BeginBackup _ _ _ _ _ =>
    match en_failing w with
    | O => (mkEngines (en_source w) (en_target w) (S (en_runs w)) 0 (en_recovery w) (en_time w), Ok (pretty (en_runs w)))
    | S n => (mkEngines (en_source w) (en_target w) (en_runs w) n (en_recovery w) (en_time w), Err (CallRefused "no space"))
    end
  | FinishBackup run => (w, Ok (mkTransferRun true (negb (bool_decide (run = "0"%string))) [] 1))
  | VerifyQuick _ => (w, Ok ())
  | CreateTargetVM r _ description =>
    (with_target (Some (mkVMState "copy" (tq_Name r) "down" description (tq_ClusterID r) [])) w, Ok "copy"%string)
  | RestoredDisks _ => (w, Ok ["disk"%string])
  | RestoreDisk _ _ => (w, Ok "disk-copy"%string)
  | LoadChainDisks _ _ => (w, Ok [mkChainDisk "disk" 40 (Ok ())])
  | ProgressSaves _ _ => (w, 1%nat)
  | RestoreDelta _ _ _ _ _ => (w, Ok ())
  | LoadProfileNICs _ => (w, Ok (Some []))
  | GetServer id => (w, Ok (mkTransferServer id true id true true))
  | GetVM _ vm => (w, Ok (mkTransferVM vm "web" "c1" (en_source w) DesiredUp false))
  | GetMigrationPolicy _ _ => (w, Ok (the_policy (en_recovery w)))
  | GetTransferRepository _ => (w, Ok (mkTransferRepository true false))
  | ListClusters _ => (w, Ok ["c2"%string])
  | ListStorageDomains _ => (w, Ok [the_domain])
  | ActiveRuns _ _ => (w, Ok 0)
  | TryVMTransferLock _ => (w, Ok true)
  | TryVMTransferQueueLock _ => (w, Ok true)
  | Now => (mkEngines (en_source w) (en_target w) (en_runs w) (en_failing w) (en_recovery w) (en_time w + 60 * Second), en_time w)
  | ContextCause => (w, None)
  | Stopping => (w, false)
  | Polls _ => (w, 3%nat)
  | NewID => (w, "restore"%string)
  end.

#[export] Instance plain_texts : TransferTexts := {|
  profile_architecture := λ _, "x86_64"%string;
  profile_secure_boot := λ _, false;
  engine_address := λ url, url;
  equal_fold := λ a b, bool_decide (ToLower a = ToLower b);
  shape_of := λ raw _, raw
|}.

(** * Histories *)
Abbreviation Simulated := (Machine (W := Engines)).
Definition engines (failing : nat) (recovery : bool) : Engines := mkEngines "up" None 0 failing recovery (60 * Second).
Definition fresh (w : Engines) : Simulated :=
  mkMachine (mkService w [] 1000 [] ∅ {[ ("e1", "vm") := (DesiredUp, false) ]} no_transfer) [].
Definition request (mode : string) : VMTransferRequest :=
  mkTransferRequest "e1" "vm" "e2" "c2" "" "domain" "repository" "" mode [] false true.

(** What people and the service do, as functions. *)
Inductive Deed := Creates (r : VMTransferRequest) | Asks (action : string) | Works | Reconciles.

Definition doing (d : Deed) (m : Simulated) : option Simulated :=
  let s := idle (ma_service m) in
  match d, sv_rows (ma_service m) !! "m1"%string, sv_trace (ma_service m), ma_tasks m with
  | Creates r, None, [], [] => match Create "m1" r s with (s', Ok task) => Some (mkMachine s' [task]) | _ => None end
  | Asks action, _, _, tasks =>
    match Action (active tasks) "m1" action true s with
    | (s', Ok (Some task)) => Some (mkMachine s' (tasks ++ [task]))
    | _ => None
    end
  | Works, _, _, task :: tasks => match run_task true task s with (s', Ok true) => Some (mkMachine s' tasks) | _ => None end
  | Reconciles, _, _, tasks =>
    match ReconcileRecovery (active tasks) s with (s', Ok new) => Some (mkMachine s' (tasks ++ new)) | _ => None end
  | _, _, _, _ => None
  end.

Definition history (ds : list Deed) (m : Simulated) : option Simulated := foldl (λ m d, m ≫= doing d) (Some m) ds.

Lemma doing_step (asked : string → Prop) d m m' :
  (∀ action, d = Asks action → asked action) → doing d m = Some m' → step asked m m'.
Proof.
  destruct m as [s tasks]. intros Hask. unfold doing. cbn [ma_service ma_tasks].
  destruct d as [r|action| |].
  - destruct (sv_rows s !! _) eqn:Hrow; [done|]. destruct (sv_trace s) eqn:Htr; [|done]. destruct tasks; [|done].
    destruct (Create _ _ _) as [s' [task|e]] eqn:Hrun; [|done]. intros [= <-]. apply (step_create asked "m1" r s s' [] task); [|done].
    split_and!; cbn; [done|done|set_solver|]. rewrite Htr. constructor.
  - destruct (Action _ _ _ _ _) as [s' [[task|]|e]] eqn:Hrun; try done;
      intros [= <-]; exact (step_action asked "m1" action true s s' tasks _ (Hask _ eq_refl) Hrun).
  - destruct tasks as [|task tasks]; try done;
      destruct (run_task _ _ _) as [s' [[]|e]] eqn:Hrun; try done; intros [= <-]; exact (step_work asked true s s' [] task tasks _ Hrun).
  - destruct (ReconcileRecovery _ _) as [s' [new|e]] eqn:Hrun; try done;
      intros [= <-]; exact (step_reconcile asked s s' tasks _ Hrun).
Qed.

Lemma history_reach (asked : string → Prop) ds m m' :
  Forall (λ d, ∀ action, d = Asks action → asked action) ds → history ds m = Some m' → rtc (step asked) m m'.
Proof.
  revert m m'. induction ds as [|d ds IH] using rev_ind; intros m m' Hall; unfold history.
  { cbn. intros [= <-]. apply rtc_refl. }
  apply Forall_app in Hall as [Hall Hd]. rewrite foldl_app. cbn. intros (m1 & H1 & H2)%bind_Some.
  eapply rtc_r; [eapply IH; [exact Hall|exact H1]|]. apply Forall_cons in Hd as [Hd _]. by eapply doing_step.
Qed.

(** ** What a history came to *)
#[export] Instance untouched_dec x ts tr : Decision (untouched x ts tr).
Proof. induction tr as [|e tr IH]; cbn; apply _. Defined.

Definition row_of (m : Simulated) : VMTransfer := default no_transfer (tr_payload <$> sv_rows (ma_service m) !! "m1"%string).

(** The outcome: states of the two machines, of the migration, starts of either
    side and writes of changes. *)
Definition outcome (m : Simulated) : string * option string * string :=
  (en_source (sv_world (ma_service m)), vs_Status <$> en_target (sv_world (ma_service m)), tf_Status (row_of m)).
Definition target_starts (m : Simulated) : nat :=
  length (List.filter (λ e, bool_decide (is_Some (target_start "m1" "e2" e))) (sv_trace (ma_service m))).
Definition source_starts (m : Simulated) : nat :=
  length (List.filter (source_start "m1" "e1" "vm") (sv_trace (ma_service m))).
Definition writes_of (m : Simulated) : nat := length (List.filter (delta_write "m1") (sv_trace (ma_service m))).

Definition reached (ds : list Deed) (failing : nat) (recovery : bool) : Simulated :=
  default (fresh (engines 0 false)) (history ds (fresh (engines failing recovery))).

Lemma reached_steps (asked : string → Prop) ds failing recovery :
  is_Some (history ds (fresh (engines failing recovery))) → Forall (λ d, ∀ action, d = Asks action → asked action) ds →
  rtc (step asked) (fresh (engines failing recovery)) (reached ds failing recovery).
Proof. intros [m Hm] Hall. unfold reached. rewrite Hm. by eapply history_reach. Qed.

Lemma fresh_initial w : initial (fresh w).
Proof. done. Qed.

(** A migration with the source off from the start of the copying, and back. *)
Definition cold_and_back : list Deed := [Creates (request "cold"); Works; Asks "rollback"; Works].
(** A migration of a running machine, finished but for the confirmation. *)
Definition warm_over : list Deed := [Creates (request "warm"); Works; Asks "sync"; Works; Asks "cutover"; Works].

Example cold_and_back_outcome :
  outcome (reached (take 2 cold_and_back) 0 false) = ("down", Some "up", "awaiting_confirmation")%string
  ∧ outcome (reached cold_and_back 0 false) = ("up", None, "rolled_back")%string.
Proof. by vm_compute. Qed.

Lemma one_machine_witness :
  handover "m1" "e1" "vm" "e2" (sv_trace (ma_service (reached cold_and_back 0 false)))
  ∧ target_starts (reached cold_and_back 0 false) = 1%nat ∧ source_starts (reached cold_and_back 0 false) = 1%nat.
Proof.
  split; [|by vm_compute].
  assert (is_Some (sv_rows (ma_service (reached cold_and_back 0 false)) !! "m1"%string)) as [r Hr] by (by vm_compute; eexists).
  assert (source_server (tr_payload r) = "e1" ∧ source_vm (tr_payload r) = "vm" ∧ target_server (tr_payload r) = "e2")%string as (<- & <- & <-).
  { revert Hr. vm_compute. by intros [= <-]. }
  apply (one_machine_at_a_time (λ _, True) (fresh (engines 0 false)) (reached cold_and_back 0 false) "m1" r).
  - done.
  - by apply fresh_initial.
  - apply reached_steps; [by vm_compute; eexists|]. by repeat constructor.
  - exact Hr.
Defined.

Lemma started_target_witness :
  untouched "m1" "e2" (sv_trace (ma_service (reached warm_over 0 false)))
  ∧ target_starts (reached warm_over 0 false) = 1%nat ∧ writes_of (reached warm_over 0 false) = 3%nat.
Proof.
  split; [|by vm_compute].
  assert (is_Some (sv_rows (ma_service (reached warm_over 0 false)) !! "m1"%string)) as [r Hr] by (by vm_compute; eexists).
  assert (target_server (tr_payload r) = "e2")%string as <- by (revert Hr; vm_compute; by intros [= <-]).
  apply (started_target_untouched (λ action, action ≠ "rollback_keep"%string) (fresh (engines 0 false)) (reached warm_over 0 false) "m1" r).
  - by intros [].
  - done.
  - by apply fresh_initial.
  - apply reached_steps; [by vm_compute; eexists|]. repeat constructor; by intros ? [= <-].
  - exact Hr.
Defined.

(** ** A target that was kept *)
(** The migration goes back with its target kept, both sides are held, and it is
    resumed. *)
Definition keep_and_resume : list Deed :=
  warm_over ++ [Asks "rollback_keep"; Works; Asks "hold"; Works; Asks "resume"; Works].

(** A target that has been running does not stay as it is: going back with the
    target kept clears the marks of its start, a later hold and resume choose the
    cutover, and the changes of the source are written over the disks of the target
    and it is started again. *)
Theorem retained_target_overwritten :
  rtc (step (λ _, True)) (fresh (engines 0 false)) (reached keep_and_resume 0 false)
  ∧ outcome (reached (take 8 keep_and_resume) 0 false) = ("up", Some "down", "rolled_back_retained")%string
  ∧ tf_TargetStartRequested (row_of (reached (take 8 keep_and_resume) 0 false)) = false
  ∧ resumeAction (row_of (reached (take 10 keep_and_resume) 0 false)) = "cutover"%string
  ∧ ¬ untouched "m1" "e2" (sv_trace (ma_service (reached keep_and_resume 0 false)))
  ∧ target_starts (reached keep_and_resume 0 false) = 2%nat.
Proof.
  split; [apply reached_steps; [by vm_compute; eexists|by repeat constructor]|].
  split; [by vm_compute|]. split; [by vm_compute|]. split; [by vm_compute|]. split; [|by vm_compute].
  apply (bool_decide_eq_false_1 (untouched _ _ _)). by vm_compute.
Qed.

(** ** A preparation that is tried again *)
(** The backup fails after the source was stopped; the recovery prepares again and
    takes the source for one that was off: a rollback then leaves it off. *)
Definition failing_cold : list Deed := [Creates (request "cold"); Works; Reconciles; Works; Asks "rollback"; Works].

Theorem retried_prepare_leaves_source_off :
  rtc (step (λ _, True)) (fresh (engines 1 true)) (reached failing_cold 1 true)
  ∧ en_source (sv_world (ma_service (fresh (engines 1 true)))) = "up"%string
  ∧ tf_WasRunning (row_of (reached (take 2 failing_cold) 1 true)) = true
  ∧ tf_WasRunning (row_of (reached (take 4 failing_cold) 1 true)) = false
  ∧ outcome (reached failing_cold 1 true) = ("down", None, "rolled_back")%string.
Proof. split; [apply reached_steps; [by vm_compute; eexists|by repeat constructor]|]. by vm_compute. Qed.

(** ** Giving up *)
(** The worker ends; an hour later the recovery takes up what it left. *)
Definition worked (m : Service Engines * Task) : Service Engines := (run_task true m.2 (idle m.1)).1.
Definition an_hour_later (s : Service Engines) : Service Engines :=
  let w := sv_world s in
  with_world (mkEngines (en_source w) (en_target w) (en_runs w) (en_failing w) (en_recovery w) (en_time w + 3600 * Second)) (idle s).
Definition take_up (m : Service Engines * Task) : option (Service Engines * Task) :=
  match reconcile_one [] (sv_t (worked m)) (an_hour_later (worked m)) with
  | (s, Ok (Some y)) => Some (s, y)
  | _ => None
  end.

Lemma take_up_retried m m' row :
  take_up m = Some m' → tf_Status (sv_t (worked m)) = "recovering"%string →
  sv_rows (an_hour_later (worked m)) !! tf_ID (sv_t (worked m)) = Some row → tr_payload row = sv_t (worked m) →
  retried m.2 m'.2.
Proof.
  intros Htake Hst Hrow Hsaved. unfold take_up in Htake.
  destruct (reconcile_one _ _ _) as [s [[y|]|e]] eqn:Hrec; try done. injection Htake as <-.
  exists true, (idle m.1), (worked m), (run_task true m.2 (idle m.1)).2, [], (sv_t (worked m)), row, (an_hour_later (worked m)), s.
  split_and!; try done. apply surjective_pairing.
Qed.

(** No backup succeeds. *)
Definition hopeless : option (Service Engines * Task) :=
  match Create "m1" (request "warm") (idle (ma_service (fresh (engines 100 true)))) with
  | (s, Ok task) => Some (s, task)
  | _ => None
  end.
Definition hopeless_after (n : nat) : Service Engines * Task :=
  default (ma_service (fresh (engines 0 true)), (no_transfer, ""%string)) (Nat.iter n (λ m, m ≫= take_up) hopeless).

Example hopeless_actions : (λ n, (hopeless_after n).2.2) <$> seq 0 5 = ["prepare"; "prepare"; "prepare"; "prepare"; "rollback"]%string.
Proof. by vm_compute. Qed.

Lemma hopeless_step n row : take_up (hopeless_after n) = Some (hopeless_after (S n)) →
  tf_Status (sv_t (worked (hopeless_after n))) = "recovering"%string →
  sv_rows (an_hour_later (worked (hopeless_after n))) !! tf_ID (sv_t (worked (hopeless_after n))) = Some row →
  tr_payload row = sv_t (worked (hopeless_after n)) → retried (hopeless_after n).2 (hopeless_after (S n)).2.
Proof. apply take_up_retried. Qed.

Lemma gives_up_witness :
  4 <= tries_left (the_policy true) (hopeless_after 0).2.1 "prepare"
  ∧ tf_Status (sv_t (worked (hopeless_after 4))) = "rolled_back"%string.
Proof.
  split; [|by vm_compute].
  refine (proj1 (recovery_gives_up (the_policy true) 4 (hopeless_after 0).2 (hopeless_after 4).2 _ _ _)); [|by vm_compute..].
  apply (nsteps_l _ _ _ (hopeless_after 1).2); [eapply hopeless_step; by vm_compute|].
  apply (nsteps_l _ _ _ (hopeless_after 2).2); [eapply hopeless_step; by vm_compute|].
  apply (nsteps_l _ _ _ (hopeless_after 3).2); [eapply hopeless_step; by vm_compute|].
  apply nsteps_once. eapply hopeless_step; by vm_compute.
Defined.

(** ** A group *)
Definition second_request : VMTransferRequest :=
  mkTransferRequest "e1" "vm2" "e2" "c2" "" "domain" "repository" "second" "warm" [] false true.
Definition pair_of_machines : VMTransferBatchRequest :=
  mkBatchRequest [set_Name "first" (request "warm"); second_request] "sequential" 0 true.
Definition group_created : Service Engines * result TransferError (list Task) :=
  CreateBatch "b1" ["m1"; "m2"]%string pair_of_machines (idle (ma_service (fresh (engines 0 false)))).

(** One after the other: the worker of the second machine waits while the first is
    not ready, and a name given twice is found before anything is stored. *)
Example sequential_group :
  match group_created with
  | (s, Ok [first; second]) =>
    (run_task true second (idle s)).2 = Ok false
    ∧ (run_task true first (idle s)).2 = Ok true
    ∧ (run_task true second (idle (run_task true first (idle s)).1)).2 = Ok true
  | _ => False
  end
  ∧ (CreateBatch "b1" ["m1"; "m2"]%string
      (mkBatchRequest [set_Name "second" (request "warm"); second_request] "sequential" 0 true)
      (idle (ma_service (fresh (engines 0 false))))).2 = Err (Refused "blocked").
Proof. by vm_compute. Qed.
